(* ===== verification/_CoqProject ===== *)
-Q . S2P
Prelude.v
Regex.v
Numbers.v
Exact.v
Dyadic.v
Json.v
JsonRoundtrip.v
JsonPretty.v
Encoding.v
BillingExpr.v
BillingRules.v
Currency.v
Tiers.v
TierEditor.v
Pricing.v
StatusCodes.v
ModelMapping.v
Channels.v
ChannelForm.v
ParamOverride.v
ParamSave.v
ParamDrafts.v
ParamEditor.v
ParamInvariant.v
ParamPrune.v
ParamRefine.v
Playground.v
Sidebar.v
Marketplace.v
Verification.v
Passkey.v
ChatLinks.v
ApiKeys.v
TableState.v
UsageLogs.v
UpstreamUpdates.v
Settings.v
PricingSheet.v
RatioEditor.v
RatioSync.v
TieredEditor.v
Dashboard.v
Wallet.v
AdminForms.v
ChannelDrawer.v
GroupEditor.v
ContentLists.v
VisualEditors.v
ChannelActions.v
ModelDrawer.v
ModelsAdmin.v
ModelFacts.v
HttpClient.v
SignIn.v
Sections.v
Affinity.v
ChannelTest.v
Ollama.v
SkillEditor.v
