(* ===== verification/Prelude.v ===== *)
(** * A verification of the DeepRouter web frontend

    DeepRouter is a gateway for language-model providers.  This development models the logic of its TypeScript frontend,
    [web/default/src]: what the forms of an administrator write and read back, how prices are computed and shown, how a chat
    answer is assembled from a stream, what a user gets to see, and how sessions, payments and dialogs behave while
    requests are under way.  Each definition is a translation of the code it is named after; the functions are executable, and the theorems
    are about those functions.

    ** The language

    - [Prelude] (this file): strings as lists of UTF-16 code units, arrays, sets in insertion order, stable sorting, and [outcome], the
      result of code that can throw; the interface [TextFormat] between a component that stores values as text and its readers,
      which [Json], [JsonPretty], [BillingRules] and [ModelMapping] implement and [ChannelForm] relies on; the tactics and the hint
      database [js].
    - [Regex]: a backtracking matcher for the regular expressions of the code, with captures and JavaScript's order of attempts.  [star_loop]
      and [exec_all] run on a fuel that is the length of the text, which is enough because every iteration consumes a unit.
    - [Numbers], [Exact], [Dyadic]: numbers as IEEE binary64 (the Standard Library's specification floats) with [Number], [String],
      [toFixed], [parseFloat] and the rounding functions (the shortest decimal is searched among at most seventeen digits); the
      integers and the binary fractions on which this arithmetic is exact; the conversions to 32 bits.
    - [Json], [JsonRoundtrip], [JsonPretty]: values with JavaScript's key order, [JSON.parse] (the fuel is the length of the text),
      [JSON.stringify] with and without indentation, and that parsing gives back what was printed.
    - [Encoding]: base64, UTF-8 and percent-encoding, each decoder inverting its encoder.

    ** Prices ([features/pricing], [lib/currency.ts], [lib/format.ts])

    - [BillingExpr], [BillingRules]: the request rules of billing expressions: which rules that the editor prints it reads back, and which it
      loses (conditions on parameters printed with a guard); splitting undoes combining where the rules are read back, and gives the whole
      text as the base where they are not; the unwrapping of parentheses ends.
    - [Tiers], [TierEditor]: the tiers; the visual editor reads back what it generated and never accepts an expression it would print
      differently.
    - [Currency], [Pricing], [ModelFacts]: the display of amounts, the model list with its filters, and the facts and sample statistics
      of a model, drawn from a generator whose state is threaded through the definitions.

    ** Channels ([features/channels])

    - [StatusCodes], [ModelMapping], [Channels], [ChannelForm]: status code rules, mappings of models, the aggregation by tag (equal to
      grouping), and the channel form: what it shows again after a save, which for types that cannot fetch models is the old text's.
    - [ParamOverride], [ParamSave], [ParamDrafts], [ParamEditor], [ParamInvariant], [ParamPrune], [ParamRefine]: the editor of parameter
      overrides: what is saved reopens, its invariant holds in every run, and the rule list refines a list with a position.
    - [ChannelDrawer]: the drawer of a channel; what is sent has passed the checks and confirmations.
    - [ChannelActions], [UpstreamUpdates]: the buttons of the channel list, with what each asks and reports for every answer, and the updates of
      the models of a provider.
    - [ChannelTest], [Ollama]: the dialog that tests models, which comes to rest once its tests are answered, and the models of an Ollama
      channel with the stream of a pull, whose report does not depend on how the stream is cut.

    ** Settings of the system ([features/system-settings])

    - [Settings], [Sections]: options as typed values, forms over options, and the sections for payments, email, monitoring, accounts and
      forged requests: after a save the options hold what was typed, and there is nothing left to save.
    - [PricingSheet], [RatioEditor], [RatioSync], [TieredEditor], [GroupEditor]: the price editors and the groups of users.  Saving writes exactly
      the entries it is about; the tables stay in step with the texts.  The effects of [TieredEditor] are renderings, of which five
      are enough, as is proved there.
    - [ContentLists], [VisualEditors]: the lists of the console page and the editors over JSON arrays and objects; entries are told apart, and
      entries the tables do not understand survive.
    - [Affinity]: the rules of channel affinity; a rule made in the dialog is the same when it is opened and saved again.

    ** Models, skills and users

    - [ModelDrawer], [ModelsAdmin]: a model with its prices, and the actions of the model list with the synchronisation of models.
    - [Marketplace], [SkillEditor]: who is offered which action on a skill; the editor of a skill, which sends a skill it did not change as it is stored.
    - [AdminForms], [ApiKeys]: the forms of users, redemption codes, subscription plans and keys.

    ** Sessions and pages

    - [HttpClient], [SignIn]: the client of all requests with its sharing of equal ones, and signing in and out: an answer belongs to its
      request, and a protected page is entered with a user that the server confirmed since the page was loaded.
    - [Verification], [Passkey]: secure verification and passkeys: a protected request is repeated only after the reply that accepted its verification, and every run ends.
    - [Playground], [ChatLinks]: the chat with its stream as a state machine, and the links to chat clients.
    - [Wallet], [Dashboard], [UsageLogs], [TableState], [Sidebar]: top-ups (one payment at a time), the usage charts (no usage is lost), log
      entries, tables whose state is in the URL, and the navigation.

    ** How code becomes definitions

    A string is a [jstr]; undefined is [None]; a value that came from JSON and keeps whatever type it had is a [json]; code that can throw
    returns an [outcome]; truthiness is written out ([truthy], [json_truthy], [num_truthy]).  Objects have own keys only.  [String(v)] of an
    object with a key called toString throws, as in the language.  [upper] and [lower] map ASCII letters and stand for the code's case
    mappings where it compares with ASCII words; elsewhere [toLowerCase] is an argument.

    A store that functions read is an argument; a hook or a dialog is the function it computes or, where it keeps state between events, a step
    function on a record.  An asynchronous function is split at its awaits: the requests under way, with what the code does next, are part
    of the state and their answers are events, so answers arrive in any order and late.  Identifiers that come from a counter or a clock are drawn from a
    state that is passed on.

    What the code calls but does not define is an argument with the name of the call: number, date and collation functions of the
    browser ([Intl.NumberFormat], [localeCompare], dayjs), colours, [Math.sin] and [Math.pow], [nanoid], the event source, the credential
    interface, the messages of errors that the browser makes, and the time.

    ** What is not modelled

    Markup, column definitions and the table library beyond the selection and pages that handlers read; generated routes and translations;
    code that compiles text to JavaScript ([evalExprLocally]); the dialogs of deployments, the profile and set-up pages, skill analytics and the
    remaining forms over options, which are further instances of the modelled hooks.  The classic frontend and the Go server are outside: the
    first is another program with the same purpose, the second another language. *)
From stdpp Require Export base tactics sets numbers option list.
From Stdlib Require String Ascii Sorted.
Export String.StringSyntax.
Export Sorted(StronglySorted, SSorted_nil, SSorted_cons).

(** ** Strings

    A JavaScript string is a sequence of UTF-16 code units; it is a list of
    [N].  ASCII literals are written [js "..."]. *)
Abbreviation jstr := (list N).

Fixpoint js (s : String.string) : jstr :=
  match s with
  | String.EmptyString => []
  | String.String a s' => Ascii.N_of_ascii a :: js s'
  end.
Arguments js s%_string_scope.

(** The double quote, which a literal cannot carry. *)
Definition dq : jstr := [34%N].

Declare Scope js_scope.
Delimit Scope js_scope with js.

(** Strict equality [a === b] on values with decidable equality. *)
Definition js_eqb `{EqDecision A} (a b : A) : bool := bool_decide (a = b).
Notation "a === b" := (js_eqb a b) (at level 70, no associativity) : js_scope.
Notation "a !== b" := (negb (js_eqb a b)) (at level 70, no associativity) : js_scope.
Open Scope js_scope.

(** A string is truthy when it is not empty. *)
Definition truthy (s : jstr) : bool := match s with [] => false | _ => true end.

(** [a || b] on strings. *)
Definition str_or (a b : jstr) : jstr := if truthy a then a else b.

(** [a || b] when [a] may be undefined or null. *)
Definition opt_str_or (a : option jstr) (b : jstr) : jstr :=
  match a with Some s => str_or s b | None => b end.

(** WhiteSpace and LineTerminator of ECMAScript: what [trim] removes and [\s]
    matches. *)
Definition is_ws (c : N) : bool :=
  (((9 <=? c) && (c <=? 13)) || (c =? 32) || (c =? 160) || (c =? 5760)
   || ((8192 <=? c) && (c <=? 8202)) || (c =? 8232) || (c =? 8233)
   || (c =? 8239) || (c =? 8287) || (c =? 12288) || (c =? 65279))%N.

Fixpoint trim_start (s : jstr) : jstr :=
  match s with
  | [] => []
  | c :: s' => if is_ws c then trim_start s' else s
  end.

Definition trim_end (s : jstr) : jstr := rev (trim_start (rev s)).

Definition trim (s : jstr) : jstr := trim_end (trim_start s).

(** [toUpperCase] and [toLowerCase] on ASCII letters, for comparisons with words
    whose letters are not the upper or lower case of any other unit. *)
Definition upper (s : jstr) : jstr :=
  List.map (fun c => if ((97 <=? c) && (c <=? 122))%N then (c - 32)%N else c) s.
Definition lower (s : jstr) : jstr :=
  List.map (fun c => if ((65 <=? c) && (c <=? 90))%N then (c + 32)%N else c) s.

(** [s.startsWith(p)], [s.endsWith(p)]. *)
Fixpoint starts_with (p s : jstr) : bool :=
  match p, s with
  | [], _ => true
  | c :: p', d :: s' => (c =? d)%N && starts_with p' s'
  | _ :: _, [] => false
  end.

Definition ends_with (p s : jstr) : bool := starts_with (rev p) (rev s).

(** [s.indexOf(p)]; the JavaScript [-1] is [None]. *)
Fixpoint index_of (p s : jstr) : option nat :=
  if starts_with p s then Some O
  else match s with
       | [] => None
       | _ :: s' => S <$> index_of p s'
       end.

(** [s.indexOf(p, from)]. *)
Definition index_of_from (p s : jstr) (from : nat) : option nat :=
  Nat.add from <$> index_of p (drop from s).

(** [s.includes(p)]. *)
Definition includes (p s : jstr) : bool :=
  match index_of p s with Some _ => true | None => false end.

(** [s.substring(a, b)] for [a <= b], and [s.substring(a)] / [s.slice(a)]. *)
Definition substring (s : jstr) (a b : nat) : jstr := take (b - a) (drop a s).

(** [s.split(c)] for a one-unit separator [c]. *)
Fixpoint split_char (c : N) (s : jstr) : list jstr :=
  match s with
  | [] => [[]]
  | d :: s' =>
      if (d =? c)%N then [] :: split_char c s'
      else match split_char c s' with
           | [] => [[d]]
           | w :: ws => (d :: w) :: ws
           end
  end.

(** [l.join(sep)]. *)
Fixpoint join (sep : jstr) (l : list jstr) : jstr :=
  match l with
  | [] => []
  | [w] => w
  | w :: l' => w ++ sep ++ join sep l'
  end.

(** The order of code units, which [l.sort()] uses on strings. *)
Fixpoint str_leb (a b : jstr) : bool :=
  match a, b with
  | [], _ => true
  | _ :: _, [] => false
  | c :: a', d :: b' => if (c =? d)%N then str_leb a' b' else (c <? d)%N
  end.

(** Decimal digits. *)
Definition is_digit (c : N) : bool := ((48 <=? c) && (c <=? 57))%N.

(** ** Arrays and sets *)

(** [l.includes(x)], [new Set(l).has(x)]. *)
Definition mem `{EqDecision A} (x : A) (l : list A) : bool := existsb (js_eqb x) l.

(** [Array.from(new Set(l))]: first occurrences, in order.  [seen] is what the
    set already holds. *)
Fixpoint dedup_from `{EqDecision A} (seen l : list A) : list A :=
  match l with
  | [] => []
  | x :: l' => if mem x seen then dedup_from seen l' else x :: dedup_from (x :: seen) l'
  end.

Definition dedup `{EqDecision A} (l : list A) : list A := dedup_from [] l.

(** [l.filter(Boolean)] on an array of strings. *)
Definition filter_truthy (l : list jstr) : list jstr := List.filter truthy l.

(** [l.sort(cmp)]: JavaScript's sort is stable, so for a comparator that is a
    total preorder the result is the one of insertion sort.  [le x y] stands
    for [cmp(x, y) <= 0]. *)
Fixpoint insert_sorted {A} (le : A -> A -> bool) (x : A) (l : list A) : list A :=
  match l with
  | [] => [x]
  | y :: l' => if le x y then x :: l else y :: insert_sorted le x l'
  end.

Definition sort_by {A} (le : A -> A -> bool) (l : list A) : list A :=
  foldr (insert_sorted le) [] l.

(** ** Outcomes of code that may throw *)
Inductive outcome (A : Type) : Type :=
| Ret (a : A)
| Throw.
Arguments Ret {A} a.
Arguments Throw {A}.

Definition obind {A B} (m : outcome A) (f : A -> outcome B) : outcome B :=
  match m with Ret a => f a | Throw => Throw end.

Notation "'let!' x := m 'in' k" := (obind m (fun x => k))
  (at level 10, x name, m at level 100, k at level 200) : js_scope.

(** [try { m } catch { d }]. *)
Definition try_catch {A} (m : outcome A) (d : A) : A :=
  match m with Ret a => a | Throw => d end.

(** ** Text formats

    What a component that stores values as text promises to the ones that read the
    text: a valid value that was written is read back. *)
Class TextFormat {A} (valid : A -> Prop) (write : A -> jstr) (read : jstr -> outcome A) : Prop :=
  read_write : forall a, valid a -> read (write a) = Ret a.

Section text_format.
Context {A : Type} {valid : A -> Prop} {write : A -> jstr} {read : jstr -> outcome A} `{!TextFormat valid write read}.

(** Different values have different texts. *)
Lemma write_inj a b : valid a -> valid b -> write a = write b -> a = b.
Proof. intros Ha Hb He. pose proof (read_write a Ha) as H. rewrite He, read_write in H by done. by injection H. Qed.

(** When the empty text means nothing, no value is written as it. *)
Lemma write_not_nil a : read [] = Throw -> valid a -> write a <> [].
Proof. intros H Ha He. pose proof (read_write a Ha) as Hr. rewrite He, H in Hr. discriminate. Qed.

End text_format.

(** ** Automation *)

Create HintDb js.

(** Case analysis on the first [match] or [if] of the goal or of a hypothesis. *)
Ltac case_all :=
  repeat (case_match; simplify_eq/=; try done).

Ltac invert H := inversion H; subst; clear H.

(** Boolean conditions of the code, as propositions. *)
Lemma js_eqb_true `{EqDecision A} (a b : A) : (a === b) = true <-> a = b.
Proof. apply bool_decide_eq_true. Qed.

Lemma js_eqb_false `{EqDecision A} (a b : A) : (a === b) = false <-> a <> b.
Proof. apply bool_decide_eq_false. Qed.

Lemma js_eqb_refl `{EqDecision A} (a : A) : (a === a) = true.
Proof. by apply js_eqb_true. Qed.

Lemma js_eqb_ne `{EqDecision A} (a b : A) : a <> b -> (a === b) = false.
Proof. by intros ?%js_eqb_false. Qed.



Ltac bools :=
  repeat match goal with
    | H : _ && _ = true |- _ => apply andb_true_iff in H as [? ?]
    | H : _ || _ = false |- _ => apply orb_false_iff in H as [? ?]
    | H : negb _ = true |- _ => apply negb_true_iff in H
    | H : negb _ = false |- _ => apply negb_false_iff in H
    | H : js_eqb _ _ = true |- _ => apply (proj1 (js_eqb_true _ _)) in H
    | H : js_eqb _ _ = false |- _ => apply (proj1 (js_eqb_false _ _)) in H
    | H : (_ =? _)%N = true |- _ => apply N.eqb_eq in H
    | H : (_ =? _)%N = false |- _ => apply N.eqb_neq in H
    | H : (_ =? _)%Z = true |- _ => apply Z.eqb_eq in H
    | H : (_ =? _)%Z = false |- _ => apply Z.eqb_neq in H
    | H : (_ <=? _)%Z = true |- _ => apply Z.leb_le in H
    | H : (_ <=? _)%Z = false |- _ => apply Z.leb_gt in H
    | H : (_ <? _)%Z = true |- _ => apply Z.ltb_lt in H
    | H : (_ <? _)%Z = false |- _ => apply Z.ltb_ge in H
    end.

(** ** Strings: lemmas *)

Lemma truthy_false s : truthy s = false <-> s = [].
Proof. by destruct s. Qed.

Lemma truthy_true s : truthy s = true <-> s <> [].
Proof. by destruct s. Qed.


(** Trimming. *)
Lemma trim_start_suffix s : exists w, s = w ++ trim_start s /\ forallb is_ws w = true.
Proof.
  induction s as [|c s (w & IH & Hw)]; simpl; [by exists []|].
  destruct (is_ws c) eqn:E; [|by exists []].
  exists (c :: w); simpl. by rewrite E, Hw, <-IH.
Qed.

Lemma trim_start_head c s : is_ws c = false -> trim_start (c :: s) = c :: s.
Proof. intros H. simpl. by rewrite H. Qed.

Lemma trim_start_idem s : trim_start (trim_start s) = trim_start s.
Proof.
  induction s as [|c s IH]; simpl; [done|].
  destruct (is_ws c) eqn:E; [done|by rewrite trim_start_head].
Qed.

Lemma trim_start_app s t : trim_start s <> [] -> trim_start (s ++ t) = trim_start s ++ t.
Proof. induction s as [|c s IH]; simpl; [done|]. destruct (is_ws c); auto. Qed.

Lemma trim_end_snoc s c : is_ws c = false -> trim_end (s ++ [c]) = s ++ [c].
Proof. intros H. unfold trim_end. rewrite rev_app_distr; simpl. rewrite H. simpl. by rewrite rev_involutive. Qed.

Lemma trim_end_snoc_ws s c : is_ws c = true -> trim_end (s ++ [c]) = trim_end s.
Proof. intros H. unfold trim_end. rewrite rev_app_distr; simpl. by rewrite H. Qed.

Lemma trim_end_cons c s : is_ws c = false -> trim_end (c :: s) = c :: trim_end s.
Proof.
  intros H. induction s as [|d s IH] using rev_ind.
  { unfold trim_end; simpl. by rewrite H. }
  destruct (is_ws d) eqn:E.
  - by rewrite app_comm_cons, !trim_end_snoc_ws.
  - by rewrite app_comm_cons, !trim_end_snoc.
Qed.

Lemma trim_end_idem s : trim_end (trim_end s) = trim_end s.
Proof. unfold trim_end. by rewrite rev_involutive, trim_start_idem. Qed.

(** A string with no white space at either end. *)
Definition trimmed (s : jstr) : Prop := trim s = s.

Lemma trim_idem s : trim (trim s) = trim s.
Proof.
  unfold trim. destruct (trim_start s) as [|c t] eqn:E; [done|].
  assert (is_ws c = false) as Hc.
  { pose proof (trim_start_idem s) as H. rewrite E in H. simpl in H.
    destruct (is_ws c) eqn:Ec; [|done].
    destruct (trim_start_suffix t) as (w & Ht & _). rewrite H in Ht.
    apply (f_equal length) in Ht. rewrite length_app in Ht. simpl in Ht. lia. }
  rewrite trim_end_cons, trim_start_head, <-trim_end_cons, trim_end_idem by done. done.
Qed.

Lemma trimmed_trim s : trimmed (trim s).
Proof. apply trim_idem. Qed.

Lemma trimmed_nil : trimmed [].
Proof. done. Qed.

(** The usual way to see that a built string is trimmed: its first and last
    units are not white space. *)
Lemma trimmed_ends c s d : is_ws c = false -> is_ws d = false -> trimmed (c :: s ++ [d]).
Proof.
  intros Hc Hd. unfold trimmed, trim.
  by rewrite trim_start_head, app_comm_cons, trim_end_snoc by done.
Qed.

Lemma trimmed_one c : is_ws c = false -> trimmed [c].
Proof. intros H. unfold trimmed, trim. rewrite trim_start_head by done. by rewrite trim_end_cons. Qed.

Lemma trim_end_length s : length (trim_end s) <= length s.
Proof.
  unfold trim_end. rewrite length_rev.
  destruct (trim_start_suffix (rev s)) as (u & Hu & _).
  apply (f_equal length) in Hu. rewrite length_app, length_rev in Hu. lia.
Qed.

Lemma trim_start_length s : length (trim_start s) <= length s.
Proof.
  destruct (trim_start_suffix s) as (u & Hu & _).
  apply (f_equal length) in Hu. rewrite length_app in Hu. lia.
Qed.

Lemma trim_length s : length (trim s) <= length s.
Proof. unfold trim. pose proof (trim_end_length (trim_start s)). pose proof (trim_start_length s). lia. Qed.

Lemma trimmed_head c s : trimmed (c :: s) -> is_ws c = false.
Proof.
  unfold trimmed, trim. simpl. destruct (is_ws c) eqn:E; [|done].
  intros H. destruct (trim_start_suffix s) as (w & Hw & _).
  pose proof (trim_end_length (trim_start s)).
  apply (f_equal length) in Hw. rewrite length_app in Hw.
  rewrite H in *. simpl in *. lia.
Qed.

Lemma trimmed_last s d : trimmed s -> last s = Some d -> is_ws d = false.
Proof.
  unfold trimmed, trim. intros H Hl. destruct (is_ws d) eqn:E; [|done]. exfalso.
  assert (trim_end s = s) as Ht by (rewrite <-H at 1; rewrite trim_end_idem; done).
  apply last_Some in Hl as [l ->]. rewrite trim_end_snoc_ws in Ht by done.
  pose proof (trim_end_length l) as Hle. rewrite Ht, length_app in Hle. simpl in Hle. lia.
Qed.

Lemma trimmed_no_ws s : forallb (fun c => negb (is_ws c)) s = true -> trimmed s.
Proof.
  destruct s as [|c s]; [done|].
  induction s as [|d s _] using rev_ind; simpl; intros H.
  { apply trimmed_one. by bools. }
  rewrite forallb_app in H. simpl in H. bools. by apply trimmed_ends.
Qed.

#[export] Hint Resolve trimmed_trim trimmed_nil trimmed_one : js.

Lemma trim_incl c s : c ∈ trim s -> c ∈ s.
Proof.
  unfold trim, trim_end. intros Hin.
  destruct (trim_start_suffix s) as (u & -> & _).
  destruct (trim_start_suffix (rev (trim_start s))) as (v & Hv & _).
  apply elem_of_app. right. apply list_elem_of_In, in_rev. apply list_elem_of_In. rewrite Hv.
  apply elem_of_app. right. by apply list_elem_of_In, in_rev, list_elem_of_In.
Qed.

Lemma trim_no_unit c s : c ∉ s -> c ∉ trim s.
Proof. intros H Hc. by apply H, trim_incl. Qed.

(** Prefixes. *)
Lemma starts_with_app p s : starts_with p (p ++ s) = true.
Proof. induction p as [|c p IH]; simpl; [done|]. by rewrite N.eqb_refl, IH. Qed.

Lemma starts_with_spec p s : starts_with p s = true <-> exists t, s = p ++ t.
Proof.
  split.
  - revert s. induction p as [|c p IH]; intros s H; simpl in *; [by exists s|].
    destruct s as [|d s]; [done|]. bools. subst. destruct (IH s) as [t ->]; [done|].
    by exists t.
  - intros [t ->]. apply starts_with_app.
Qed.

Lemma starts_with_nil p : starts_with p [] = true -> p = [].
Proof. by destruct p. Qed.

(** First occurrence. *)
Lemma index_of_spec p s n :
  index_of p s = Some n ->
  exists u t, s = u ++ p ++ t /\ length u = n /\
    forall m, m < n -> starts_with p (drop m s) = false.
Proof.
  revert n. induction s as [|c s IH]; intros n H; simpl in H.
  - destruct (starts_with p []) eqn:E; [|done]. simplify_eq.
    apply starts_with_nil in E as ->. exists [], []. repeat split. intros; lia.
  - destruct (starts_with p (c :: s)) eqn:E.
    + simplify_eq. apply starts_with_spec in E as [t Ht].
      exists [], t. repeat split; [done|]. intros; lia.
    + destruct (index_of p s) as [k|] eqn:Ek; simpl in H; [|done]. simplify_eq.
      destruct (IH k eq_refl) as (u & t & -> & Hu & Hmin).
      exists (c :: u), t. repeat split; [by simpl; rewrite Hu|].
      intros [|m] Hm; [done|]. apply Hmin. lia.
Qed.

Lemma index_of_None p s : index_of p s = None -> forall m, starts_with p (drop m s) = false.
Proof.
  induction s as [|c s IH]; intros H m; simpl in H.
  - rewrite drop_nil. by destruct (starts_with p []).
  - destruct (starts_with p (c :: s)) eqn:E; [done|].
    destruct (index_of p s) eqn:Ei; [done|].
    destruct m as [|m]; [done|]. by apply IH.
Qed.

Lemma index_of_None_intro p s :
  (forall m, starts_with p (drop m s) = false) -> index_of p s = None.
Proof.
  induction s as [|c s IH]; intros H.
  - simpl. pose proof (H 0) as H0. simpl in H0. by rewrite H0.
  - simpl. pose proof (H 0) as H0. simpl in H0. rewrite H0.
    rewrite IH; [done|]. intros m. apply (H (S m)).
Qed.

Lemma index_of_head c w s : c ∉ w -> index_of [c] (w ++ c :: s) = Some (length w).
Proof.
  induction w as [|d w IH]; intros H; cbn [app index_of starts_with].
  - by rewrite N.eqb_refl.
  - apply not_elem_of_cons in H as [Hd Hw]. rewrite (proj2 (N.eqb_neq c d)) by done. cbn [andb].
    rewrite IH by done. done.
Qed.

(** Splitting and joining. *)
Lemma split_char_cons c s : exists w ws, split_char c s = w :: ws.
Proof.
  destruct s as [|d s]; simpl; [eauto|]. destruct (d =? c)%N; [eauto|].
  destruct (split_char c s); eauto.
Qed.

Lemma join_cons sep w l : l <> [] -> join sep (w :: l) = w ++ sep ++ join sep l.
Proof. by destruct l. Qed.

Lemma join_split_char c s : join [c] (split_char c s) = s.
Proof.
  induction s as [|d s IH]; simpl; [done|].
  destruct (split_char_cons c s) as (w & ws & E).
  destruct (N.eqb_spec d c) as [->|Hne]; rewrite E in *.
  - by rewrite join_cons, IH.
  - destruct ws; simpl in *; by rewrite IH.
Qed.

Lemma split_char_none c w : c ∉ w -> split_char c w = [w].
Proof.
  induction w as [|d w IH]; intros H; simpl; [done|].
  apply not_elem_of_cons in H as [Hd Hw].
  rewrite (IH Hw). by destruct (N.eqb_spec d c).
Qed.

Lemma split_char_app c w s : c ∉ w -> split_char c (w ++ c :: s) = w :: split_char c s.
Proof.
  induction w as [|d w IH]; intros H; simpl; [by rewrite N.eqb_refl|].
  apply not_elem_of_cons in H as [Hd Hw].
  rewrite (IH Hw). by destruct (N.eqb_spec d c).
Qed.

Lemma split_join_char c l :
  l <> [] -> Forall (fun w => c ∉ w) l -> split_char c (join [c] l) = l.
Proof.
  induction l as [|w l IH]; intros Hne H; [done|].
  apply Forall_cons_iff in H as [Hw Hl].
  destruct l as [|w' l]; [by apply split_char_none|].
  rewrite join_cons by done.
  change (w ++ [c] ++ ?t) with (w ++ c :: t). rewrite split_char_app by done.
  by rewrite IH.
Qed.

Lemma split_char_no_sep c s : Forall (fun w => c ∉ w) (split_char c s).
Proof.
  induction s as [|d s IH]; simpl.
  - constructor; [apply not_elem_of_nil|constructor].
  - destruct (N.eqb_spec d c) as [->|Hne].
    + constructor; [apply not_elem_of_nil|done].
    + destruct (split_char c s) as [|w ws]; [repeat constructor; set_solver|].
      apply Forall_cons_iff in IH as [Hw Hws]. constructor; [set_solver|done].
Qed.

(** Sets. *)
Lemma mem_true `{EqDecision A} (x : A) l : mem x l = true <-> x ∈ l.
Proof.
  unfold mem. rewrite existsb_exists. setoid_rewrite js_eqb_true.
  rewrite list_elem_of_In. naive_solver.
Qed.

Lemma mem_false `{EqDecision A} (x : A) l : mem x l = false <-> x ∉ l.
Proof. rewrite <-mem_true. destruct (mem x l); naive_solver. Qed.

Lemma elem_of_dedup_from `{EqDecision A} (seen l : list A) x :
  x ∈ dedup_from seen l <-> x ∈ l /\ x ∉ seen.
Proof.
  revert seen. induction l as [|y l IH]; intros seen; simpl; [set_solver|].
  destruct (mem y seen) eqn:E.
  - apply mem_true in E. rewrite IH. set_solver.
  - apply mem_false in E. rewrite elem_of_cons, IH.
    destruct (decide (x = y)); set_solver.
Qed.

Lemma elem_of_dedup `{EqDecision A} (l : list A) x : x ∈ dedup l <-> x ∈ l.
Proof. unfold dedup. rewrite elem_of_dedup_from. set_solver. Qed.

Lemma NoDup_dedup_from `{EqDecision A} (seen l : list A) : NoDup (dedup_from seen l).
Proof.
  revert seen. induction l as [|y l IH]; intros seen; simpl; [constructor|].
  case_match; [done|]. constructor; [|done]. rewrite elem_of_dedup_from. set_solver.
Qed.

Lemma NoDup_dedup `{EqDecision A} (l : list A) : NoDup (dedup l).
Proof. apply NoDup_dedup_from. Qed.

Lemma dedup_from_id `{EqDecision A} (seen l : list A) :
  NoDup l -> (forall x, x ∈ l -> x ∉ seen) -> dedup_from seen l = l.
Proof.
  revert seen. induction l as [|y l IH]; intros seen Hnd Hs; simpl; [done|].
  apply NoDup_cons in Hnd as [Hy Hnd].
  rewrite (proj2 (mem_false y seen)) by (apply Hs; set_solver).
  rewrite IH; [done|done|]. intros x Hx. set_solver.
Qed.

Lemma dedup_id `{EqDecision A} (l : list A) : NoDup l -> dedup l = l.
Proof. intros H. apply dedup_from_id; [done|]. intros ? ?. apply not_elem_of_nil. Qed.

Lemma dedup_idem `{EqDecision A} (l : list A) : dedup (dedup l) = dedup l.
Proof. apply dedup_id, NoDup_dedup. Qed.

Lemma dedup_from_sublist `{EqDecision A} (seen l : list A) : dedup_from seen l `sublist_of` l.
Proof.
  revert seen. induction l as [|y l IH]; intros seen; simpl; [done|].
  case_match; [by apply sublist_cons|by apply sublist_skip].
Qed.

Lemma dedup_sublist `{EqDecision A} (l : list A) : dedup l `sublist_of` l.
Proof. apply dedup_from_sublist. Qed.

Lemma dedup_snoc `{EqDecision A} (l : list A) x :
  dedup (l ++ [x]) = dedup l ++ (if mem x l then [] else [x]).
Proof.
  assert (forall seen, dedup_from seen (l ++ [x]) =
    dedup_from seen l ++ (if mem x (l ++ seen) then [] else [x])) as H.
  { induction l as [|y l IH]; intros seen; cbn [app dedup_from]; [by destruct (mem x seen)|].
    destruct (mem y seen) eqn:E; rewrite IH; cbn [app].
    - f_equal. assert (mem x (l ++ seen) = mem x (y :: l ++ seen)) as ->; [|done].
      apply eq_true_iff_eq. rewrite !mem_true. apply mem_true in E. set_solver.
    - do 2 f_equal. assert (mem x (l ++ y :: seen) = mem x (y :: l ++ seen)) as ->; [|done].
      apply eq_true_iff_eq. rewrite !mem_true. set_solver. }
  unfold dedup. rewrite H. by rewrite app_nil_r.
Qed.

#[export] Hint Resolve NoDup_dedup dedup_idem dedup_sublist : js.

(** Filtering with a boolean test. *)
Lemma elem_of_lfilter {A} (f : A -> bool) l x : x ∈ List.filter f l <-> x ∈ l /\ f x = true.
Proof. rewrite !list_elem_of_In. apply filter_In. Qed.

Lemma lfilter_id {A} (f : A -> bool) l :
  Forall (fun x => f x = true) l -> List.filter f l = l.
Proof. induction 1 as [|x l Hx _ IH]; simpl; [done|]. by rewrite Hx, IH. Qed.

Lemma lfilter_sublist {A} (f : A -> bool) (l : list A) : List.filter f l `sublist_of` l.
Proof.
  induction l as [|x l IH]; simpl; [done|].
  destruct (f x); [by apply sublist_skip|by apply sublist_cons].
Qed.

(** Sorted lists. *)
Lemma sorted_impl {A} (R S : A -> A -> Prop) l :
  (forall a b, R a b -> S a b) -> StronglySorted R l -> StronglySorted S l.
Proof.
  intros H. induction 1 as [|x l _ IH Hx]; constructor; [done|].
  eapply Forall_impl; [exact Hx|]. auto.
Qed.

Lemma sorted_app {A} (R : A -> A -> Prop) u v :
  StronglySorted R u -> StronglySorted R v -> (forall a b, a ∈ u -> b ∈ v -> R a b) ->
  StronglySorted R (u ++ v).
Proof.
  intros Hu Hv H. induction Hu as [|a u _ IH Ha]; simpl; [done|].
  constructor; [apply IH; intros; apply H; [by right|done]|].
  apply Forall_app. split; [done|]. apply Forall_forall. intros b Hb. apply H; [left|done].
Qed.

Lemma sorted_rev {A} (R : A -> A -> Prop) l :
  StronglySorted (fun a b => R b a) l -> StronglySorted R (rev l).
Proof.
  induction 1 as [|x l _ IH Hx]; simpl; [constructor|].
  apply sorted_app; [done|repeat constructor|]. intros a b Ha Hb%list_elem_of_singleton. subst b.
  rewrite Forall_forall in Hx. apply Hx. by apply list_elem_of_In, in_rev, list_elem_of_In.
Qed.

(** Stable sorting. *)
Section sorting.
Context {A : Type} (le : A -> A -> bool).
Hypothesis le_total : forall x y, le x y = true \/ le y x = true.
Hypothesis le_trans : forall x y z, le x y = true -> le y z = true -> le x z = true.

Lemma insert_sorted_perm x l : insert_sorted le x l ≡ₚ x :: l.
Proof.
  induction l as [|y l IH]; simpl; [done|]. destruct (le x y); [done|].
  rewrite IH. apply Permutation_swap.
Qed.

Lemma sort_by_perm l : sort_by le l ≡ₚ l.
Proof. induction l as [|x l IH]; simpl; [done|]. by rewrite insert_sorted_perm, IH. Qed.

Lemma insert_sorted_sorted x l :
  StronglySorted (fun a b => le a b = true) l ->
  StronglySorted (fun a b => le a b = true) (insert_sorted le x l).
Proof using le_total le_trans.
  induction 1 as [|y l Hs IH Hy]; simpl; [repeat constructor|].
  destruct (le x y) eqn:E.
  - constructor; [by constructor|]. constructor; [done|].
    eapply Forall_impl; [exact Hy|]. intros z Hz. by eapply le_trans.
  - assert (le y x = true) by (destruct (le_total x y); congruence).
    constructor; [done|]. rewrite insert_sorted_perm. by constructor.
Qed.

Lemma sort_by_sorted l : StronglySorted (fun a b => le a b = true) (sort_by le l).
Proof using le_total le_trans.
  induction l as [|x l IH]; simpl; [constructor|]. by apply insert_sorted_sorted.
Qed.

Lemma sort_by_id l :
  StronglySorted (fun a b => le a b = true) l -> sort_by le l = l.
Proof.
  induction 1 as [|x l Hs IH Hx]; simpl; [done|]. rewrite IH.
  destruct l as [|y l]; simpl; [done|]. apply Forall_cons_iff in Hx as [-> _]. done.
Qed.
End sorting.
