(* ===== verification/Regex.v ===== *)
(** * Regular expressions of ECMAScript

    A backtracking matcher in continuation-passing style, the way the
    language's specification describes [RegExp.prototype.exec]: alternatives
    in order, greedy quantifiers that give back, captures, back references,
    anchors and word boundaries.  The components write their patterns as
    terms of [re], one constructor per construct of the literal.

    No pattern of the code quantifies a capturing group with [*] or [+], so
    captures need not be cleared between iterations. *)
From S2P Require Import Prelude.

Inductive re : Type :=
| REps
| RSet (p : N -> bool)
| RSeq (a b : re)
| RAlt (a b : re)
| RStar (a : re)
| RLazy (a : re)
| ROpt (a : re)
| RCap (i : nat) (a : re)
| RBack (i : nat)
| RStart
| REnd
| RWordB.

(** The matcher's state: the unit before the position, the units from it, and
    the captures, latest first. *)
Record rst : Type := MkRst {
  r_prev : option N;
  r_rest : jstr;
  r_caps : list (nat * jstr)
}.

Definition init (s : jstr) : rst := MkRst None s [].

Fixpoint cap_of (i : nat) (l : list (nat * jstr)) : option jstr :=
  match l with
  | [] => None
  | (j, w) :: l' => if Nat.eqb i j then Some w else cap_of i l'
  end.

(** Capture [i] of a match, [undefined] when the group took no part in it. *)
Definition cap (i : nat) (st : rst) : option jstr := cap_of i (r_caps st).

(** Capture [i] where the pattern makes it take part in every match. *)
Definition cap' (i : nat) (st : rst) : jstr := default [] (cap i st).

Definition adv (st : rst) (w t : jstr) : rst :=
  MkRst (match last w with Some c => Some c | None => r_prev st end) t (r_caps st).

Definition set_cap (i : nat) (w : jstr) (st : rst) : rst :=
  MkRst (r_prev st) (r_rest st) ((i, w) :: r_caps st).

(** What lies between two states of one match. *)
Definition consumed (st st' : rst) : jstr :=
  take (length (r_rest st) - length (r_rest st')) (r_rest st).

(** [\w]. *)
Definition is_word (c : N) : bool :=
  (is_digit c || ((65 <=? c) && (c <=? 90)) || ((97 <=? c) && (c <=? 122)) || (c =? 95))%N.

Definition word_boundary (st : rst) : bool :=
  let a := match r_prev st with Some c => is_word c | None => false end in
  let b := match r_rest st with c :: _ => is_word c | [] => false end in
  xorb a b.

(** An iteration of [*] must consume something, so [length (r_rest st)]
    iterations are enough. *)
Fixpoint star_loop {A} (body : rst -> (rst -> option A) -> option A)
    (n : nat) (st : rst) (k : rst -> option A) : option A :=
  match n with
  | O => k st
  | S n' =>
      match body st (fun st' =>
              if length (r_rest st') <? length (r_rest st) then star_loop body n' st' k
              else None) with
      | Some x => Some x
      | None => k st
      end
  end.

(** The lazy [*?]: the continuation first. *)
Fixpoint lazy_loop {A} (body : rst -> (rst -> option A) -> option A)
    (n : nat) (st : rst) (k : rst -> option A) : option A :=
  match k st with
  | Some x => Some x
  | None =>
      match n with
      | O => None
      | S n' =>
          body st (fun st' =>
            if length (r_rest st') <? length (r_rest st) then lazy_loop body n' st' k else None)
      end
  end.

Fixpoint run {A} (r : re) (st : rst) (k : rst -> option A) : option A :=
  match r with
  | REps => k st
  | RSet p =>
      match r_rest st with
      | c :: t => if p c then k (MkRst (Some c) t (r_caps st)) else None
      | [] => None
      end
  | RSeq a b => run a st (fun st' => run b st' k)
  | RAlt a b => match run a st k with Some x => Some x | None => run b st k end
  | RStar a => star_loop (run a) (length (r_rest st)) st k
  | RLazy a => lazy_loop (run a) (length (r_rest st)) st k
  | ROpt a => match run a st k with Some x => Some x | None => k st end
  | RCap i a => run a st (fun st' => k (set_cap i (consumed st st') st'))
  | RBack i =>
      match cap i st with
      | Some w => if starts_with w (r_rest st) then k (adv st w (drop (length w) (r_rest st))) else None
      | None => k st
      end
  | RStart => match r_prev st with None => k st | Some _ => None end
  | REnd => match r_rest st with [] => k st | _ => None end
  | RWordB => if word_boundary st then k st else None
  end.

(** A match attempt at the state's position. *)
Definition match_at (r : re) (st : rst) : option rst := run r st Some.

(** The first match at or after the state's position: the state it starts in
    and the state it ends in. *)
Fixpoint search_from (r : re) (prev : option N) (s : jstr) : option (rst * rst) :=
  match match_at r (MkRst prev s []) with
  | Some st' => Some (MkRst prev s [], st')
  | None =>
      match s with
      | [] => None
      | c :: s' => search_from r (Some c) s'
      end
  end.

(** [s.match(re)] without the [g] flag: the final state, whose captures are the
    match's. *)
Definition re_match (r : re) (s : jstr) : option rst := snd <$> search_from r None s.

(** [re.test(s)]. *)
Definition re_test (r : re) (s : jstr) : bool :=
  match re_match r s with Some _ => true | None => false end.

(** The loop [while ((m = re.exec(s)) !== null)] of a [g] pattern that matches
    no empty string: every match, in order.  Each match consumes a unit, so
    [length s] rounds are enough. *)
Fixpoint exec_all_n (n : nat) (r : re) (prev : option N) (s : jstr) : list rst :=
  match n with
  | O => []
  | S n' =>
      match search_from r prev s with
      | Some (_, st') => st' :: exec_all_n n' r (r_prev st') (r_rest st')
      | None => []
      end
  end.

Definition exec_all (r : re) (s : jstr) : list rst := exec_all_n (S (length s)) r None s.

(** [s.split(re)] for a pattern with no captures that matches no empty string;
    [p] is the piece being read, reversed. *)
Fixpoint re_split_n (n : nat) (r : re) (p : jstr) (prev : option N) (s : jstr) : list jstr :=
  match n, s with
  | S n', c :: s' =>
      match match_at r (MkRst prev s []) with
      | Some st' =>
          if length (r_rest st') <? length s
          then rev p :: re_split_n n' r [] (r_prev st') (r_rest st')
          else re_split_n n' r (c :: p) (Some c) s'
      | None => re_split_n n' r (c :: p) (Some c) s'
      end
  | _, _ => [rev p ++ s]
  end.

Definition re_split (r : re) (s : jstr) : list jstr := re_split_n (S (length s)) r [] None s.

(** [s.replace(re, w)] with the [g] flag and a plain replacement, for a pattern
    with no captures that matches no empty string. *)
Definition re_replace_all (r : re) (w s : jstr) : jstr := join w (re_split r s).

(** [s.replace(re, f)] without the [g] flag: the first match is replaced by [f]
    of its captures. *)
Definition re_replace (r : re) (f : rst -> jstr) (s : jstr) : jstr :=
  match search_from r None s with
  | Some (st, st') => take (length s - length (r_rest st)) s ++ f st' ++ r_rest st'
  | None => s
  end.

(** ** Pattern constructors *)
Fixpoint RLit (w : jstr) : re :=
  match w with
  | [] => REps
  | [c] => RSet (N.eqb c)
  | c :: w' => RSeq (RSet (N.eqb c)) (RLit w')
  end.

Definition RPlus (a : re) : re := RSeq a (RStar a).

Fixpoint RSeqs (l : list re) : re :=
  match l with
  | [] => REps
  | [a] => a
  | a :: l' => RSeq a (RSeqs l')
  end.

Fixpoint RAlts (l : list re) : re :=
  match l with
  | [] => RSet (fun _ => false)
  | [a] => a
  | a :: l' => RAlt a (RAlts l')
  end.

(** Character classes. *)
Definition not_unit (c : N) : N -> bool := fun d => negb (c =? d)%N.
Definition any_unit : N -> bool := fun _ => true.
(** [.] without the [s] flag. *)
Definition dot : N -> bool := fun c =>
  negb ((c =? 10) || (c =? 13) || (c =? 8232) || (c =? 8233))%N.
(** [[\d.eE+-]] and [[\d.eE+]]. *)
Definition num_unit (c : N) : bool :=
  (is_digit c || (c =? 46) || (c =? 101) || (c =? 69) || (c =? 43) || (c =? 45))%N.
Definition num_unit_pos (c : N) : bool :=
  (is_digit c || (c =? 46) || (c =? 101) || (c =? 69) || (c =? 43))%N.

(** ** Lemmas: what a match consumes *)

(** Every unit that [r] can consume satisfies [P] (no back references). *)
Fixpoint over (P : N -> Prop) (r : re) : Prop :=
  match r with
  | REps | RStart | REnd | RWordB => True
  | RSet p => forall c, p c = true -> P c
  | RSeq a b | RAlt a b => over P a /\ over P b
  | RStar a | RLazy a | ROpt a | RCap _ a => over P a
  | RBack _ => False
  end.

Lemma over_lit (P : N -> Prop) w : Forall P w -> over P (RLit w).
Proof.
  assert (forall c : N, P c -> forall d, (c =? d)%N = true -> P d) as Heq
    by (intros c Hc d Hd; apply N.eqb_eq in Hd; by subst).
  induction 1 as [|c w Hc Hw IH]; [done|].
  destruct w; cbn [over RLit]; [by apply Heq|]. split; [by apply Heq|done].
Qed.

(** A successful run consumes a prefix, over [P] when the pattern is, and the
    continuation accepts the rest. *)
Definition sound_at {A} (P : N -> Prop) (f : rst -> (rst -> option A) -> option A) : Prop :=
  forall st k x, f st k = Some x ->
    exists st' w, r_rest st = w ++ r_rest st' /\ Forall P w /\ k st' = Some x.

Lemma star_loop_sound {A} P (f : rst -> (rst -> option A) -> option A) n :
  sound_at P f -> sound_at P (star_loop f n).
Proof.
  intros Hf. induction n as [|n IH]; intros st k x H; simpl in H.
  { by exists st, []. }
  case_match eqn:E.
  - simplify_eq. apply Hf in E as (st1 & w1 & H1 & Hw1 & H2).
    case_match; [|done]. apply IH in H2 as (st2 & w2 & H3 & Hw2 & H4).
    exists st2, (w1 ++ w2). rewrite H1, H3, app_assoc. split; [done|].
    split; [|done]. by apply Forall_app.
  - by exists st, [].
Qed.

Lemma lazy_loop_sound {A} P (f : rst -> (rst -> option A) -> option A) n :
  sound_at P f -> sound_at P (lazy_loop f n).
Proof.
  intros Hf. induction n as [|n IH]; intros st k x H; simpl in H.
  { case_match; [|done]. simplify_eq. by exists st, []. }
  case_match eqn:E; [simplify_eq; by exists st, []|].
  apply Hf in H as (st1 & w1 & H1 & Hw1 & H2).
  case_match; [|done]. apply IH in H2 as (st2 & w2 & H3 & Hw2 & H4).
  exists st2, (w1 ++ w2). rewrite H1, H3, app_assoc. split; [done|].
  split; [|done]. by apply Forall_app.
Qed.

Lemma run_sound {A} (P : N -> Prop) r : over P r -> sound_at P (@run A r).
Proof.
  induction r; simpl; intros Ho st k x H.
  - by exists st, [].
  - destruct (r_rest st) as [|c t] eqn:E; [done|]. destruct (p c) eqn:Ec; [|done].
    eexists (MkRst (Some c) t (r_caps st)), [c]. split; [done|]. split; [|exact H]. by constructor; [apply Ho|].
  - destruct Ho as [Ha Hb]. apply (IHr1 Ha) in H as (st1 & w1 & H1 & Hw1 & H2).
    apply (IHr2 Hb) in H2 as (st2 & w2 & H3 & Hw2 & H4).
    exists st2, (w1 ++ w2). rewrite H1, H3, app_assoc. split; [done|].
    split; [|done]. by apply Forall_app.
  - destruct Ho as [Ha Hb]. case_match eqn:E; simplify_eq; [by apply IHr1|by apply IHr2].
  - by eapply star_loop_sound; [apply IHr|].
  - by eapply lazy_loop_sound; [apply IHr|].
  - case_match eqn:E; simplify_eq; [by apply IHr|by exists st, []].
  - apply (IHr Ho) in H as (st1 & w1 & H1 & Hw1 & H2).
    exists (set_cap i (consumed st st1) st1), w1. done.
  - done.
  - case_match; [done|by exists st, []].
  - case_match; [by exists st, []|done].
  - case_match; [by exists st, []|done].
Qed.

(** ** Lemmas: running a pattern forward *)

Lemma adv_nil st : adv st [] (r_rest st) = st.
Proof. by destruct st. Qed.

Lemma adv_cons prev c w t s caps :
  adv (MkRst prev s caps) (c :: w) t = adv (MkRst (Some c) s caps) w t.
Proof. unfold adv; simpl r_prev. rewrite last_cons. f_equal. by destruct (last w). Qed.

Lemma adv_app st u v t s : adv (adv st u s) v t = adv st (u ++ v) t.
Proof.
  unfold adv; simpl. f_equal. rewrite last_app.
  by destruct (last v), (last u).
Qed.

Lemma run_lit {A} w st (k : rst -> option A) :
  run (RLit w) st k =
  if starts_with w (r_rest st) then k (adv st w (drop (length w) (r_rest st))) else None.
Proof.
  revert st k. induction w as [|c w IH]; intros [prev s caps] k; [done|].
  destruct w as [|d w].
  - simpl. destruct s as [|c' s]; [done|]. by destruct (N.eqb_spec c c') as [->|].
  - change (RLit (c :: d :: w)) with (RSeq (RSet (N.eqb c)) (RLit (d :: w))).
    simpl run at 1. destruct s as [|c' s]; [done|].
    cbn [starts_with r_rest] in IH |- *. destruct (N.eqb_spec c c') as [->|Hne]; [|done].
    rewrite IH, (adv_cons prev c'). done.
Qed.

Lemma run_lit_app {A} w t st (k : rst -> option A) :
  r_rest st = w ++ t -> run (RLit w) st k = k (adv st w t).
Proof.
  intros H. rewrite run_lit, H, starts_with_app. by rewrite drop_app_length.
Qed.

Lemma run_set {A} p c s prev caps (k : rst -> option A) :
  run (RSet p) (MkRst prev (c :: s) caps) k = if p c then k (MkRst (Some c) s caps) else None.
Proof. done. Qed.

(** The head of [t] is not in the class. *)
Definition stops (p : N -> bool) (t : jstr) : Prop :=
  match t with [] => True | c :: _ => p c = false end.

Lemma star_loop_set {A} p (w t : jstr) n prev caps (k : rst -> option A) :
  Forall (fun c => p c = true) w -> stops p t -> length w <= n ->
  let st := MkRst prev (w ++ t) caps in
  (forall u c v, w = u ++ c :: v -> k (adv st u (c :: v ++ t)) = None) \/
  is_Some (k (adv st w t)) ->
  star_loop (run (RSet p)) n st k = k (adv st w t).
Proof.
  intros Hw Ht. revert n prev. induction Hw as [|c w Hc Hw IH]; intros n prev Hn st Hk.
  - subst st. simpl app in *. replace (adv _ [] t) with (MkRst prev t caps) by done.
    destruct n as [|n]; simpl; [done|]. destruct t as [|d t]; [done|].
    simpl in Ht. by rewrite Ht.
  - subst st. simpl length in *. simpl app in *. destruct n as [|n]; [lia|].
    cbn [star_loop]. rewrite run_set, Hc. cbn [r_rest].
    rewrite (proj2 (Nat.ltb_lt _ _)) by (simpl; lia).
    rewrite (IH n (Some c)); [|simpl in *; lia..|].
    + rewrite adv_cons. change (adv (MkRst (Some c) (c :: w ++ t) caps)) with (adv (MkRst (Some c) (w ++ t) caps)).
      match goal with |- match ?a with _ => _ end = _ => destruct a eqn:E end; [done|].
      destruct Hk as [Hk|[x Hk]].
      * exact (Hk [] c w eq_refl).
      * rewrite adv_cons in Hk. exfalso. revert Hk E. unfold adv; simpl. congruence.
    + destruct Hk as [Hk|[x Hk]]; [left|right].
      * intros u d v ->. specialize (Hk (c :: u) d v eq_refl). by rewrite adv_cons in Hk.
      * exists x. by rewrite adv_cons in Hk.
Qed.

(** Greedy [[...]*] over [w], stopped by [t]: the continuation runs after all
    of [w] when it succeeds there, or when it fails at every earlier point. *)
Lemma run_star_set {A} p w t st (k : rst -> option A) :
  r_rest st = w ++ t -> Forall (fun c => p c = true) w -> stops p t ->
  (forall u c v, w = u ++ c :: v -> k (adv st u (c :: v ++ t)) = None) \/
  is_Some (k (adv st w t)) ->
  run (RStar (RSet p)) st k = k (adv st w t).
Proof.
  destruct st as [prev s caps]; simpl. intros -> Hw Ht Hk.
  apply star_loop_set; try done. rewrite length_app. lia.
Qed.

(** Greedy [[...]+]: the same, and at least one unit. *)
Lemma run_plus_set {A} p w t st (k : rst -> option A) :
  r_rest st = w ++ t -> w <> [] -> Forall (fun c => p c = true) w -> stops p t ->
  (forall u c v, w = u ++ c :: v -> u <> [] -> k (adv st u (c :: v ++ t)) = None) \/
  is_Some (k (adv st w t)) ->
  run (RPlus (RSet p)) st k = k (adv st w t).
Proof.
  intros Hs Hne Hw Ht Hk. destruct w as [|c w]; [done|].
  apply Forall_cons in Hw as [Hc Hw]. destruct st as [prev s caps]; simpl in Hs; subst s.
  unfold RPlus. simpl run at 1. rewrite Hc.
  change (star_loop _ _ ?st k) with (run (RStar (RSet p)) st k).
  rewrite (run_star_set p w t) with (st := MkRst (Some c) (w ++ t) caps); [|done..|].
  - by rewrite adv_cons.
  - destruct Hk as [Hk|[x Hk]]; [left|right].
    + intros u d v ->. specialize (Hk (c :: u) d v eq_refl). rewrite adv_cons in Hk. by apply Hk.
    + exists x. by rewrite adv_cons in Hk.
Qed.

Lemma run_cap {A} i r st (k : rst -> option A) :
  run (RCap i r) st k = run r st (fun st' => k (set_cap i (consumed st st') st')).
Proof. done. Qed.

Lemma run_star {A} a st (k : rst -> option A) :
  run (RStar a) st k = star_loop (run a) (length (r_rest st)) st k.
Proof. done. Qed.

Lemma run_alt {A} a b st (k : rst -> option A) :
  run (RAlt a b) st k = match run a st k with Some x => Some x | None => run b st k end.
Proof. done. Qed.

Lemma run_seq {A} a b st (k : rst -> option A) :
  run (RSeq a b) st k = run a st (fun st' => run b st' k).
Proof. done. Qed.

Lemma consumed_adv st w t :
  r_rest st = w ++ t -> consumed st (adv st w t) = w.
Proof.
  intros H. unfold consumed; simpl. rewrite H, length_app.
  replace (length w + length t - length t) with (length w) by lia.
  by rewrite take_app_length.
Qed.

(** No unit of the class: [[...]+] fails at once. *)
Lemma run_plus_set_fail {A} p st (k : rst -> option A) :
  stops p (r_rest st) -> run (RPlus (RSet p)) st k = None.
Proof. unfold RPlus; simpl. destruct (r_rest st) as [|c t]; simpl; [done|]. by intros ->. Qed.

(** Two continuations that agree give the same run. *)
Lemma run_ext {A} r st (k k' : rst -> option A) :
  (forall st', k st' = k' st') -> run r st k = run r st k'.
Proof.
  revert st k k'. induction r; simpl; intros st k k' H; auto.
  - destruct (r_rest st); [done|]. by destruct (p _).
  - rewrite (IHr1 _ _ _ H). by rewrite (IHr2 _ _ _ H).
  - generalize (length (r_rest st)) as n. intros n. revert st.
    induction n as [|n IHn]; intros st; simpl; [done|].
    erewrite IHr; [by rewrite H|]. intros st'; simpl. case_match; [|done]. apply IHn.
  - generalize (length (r_rest st)) as n. intros n. revert st.
    induction n as [|n IHn]; intros st; simpl; rewrite H; [done|]. case_match; [done|].
    apply IHr. intros st'. case_match; [apply IHn|done].
  - rewrite (IHr _ _ _ H). by rewrite H.
  - case_match; [|done]. by case_match.
  - by case_match.
  - by case_match.
  - by case_match.
Qed.

(** ** Lemmas: anchored patterns and the common steps *)

(** A pattern that starts with [^] is tried at the start only. *)
Lemma search_from_start r c s : search_from (RSeq RStart r) (Some c) s = None.
Proof. revert c. induction s as [|d s IH]; intros c; simpl; [done|]. apply IH. Qed.

Lemma re_match_start r s : re_match (RSeq RStart r) s = run r (init s) Some.
Proof.
  unfold re_match. destruct s as [|c s]; simpl;
    change (match_at _ ?st) with (run r st Some); unfold init.
  - by destruct (run r _ Some).
  - rewrite search_from_start. by destruct (run r _ Some).
Qed.

Lemma step_lit {A} w t r st (k : rst -> option A) :
  r_rest st = w ++ t -> run (RSeq (RLit w) r) st k = run r (adv st w t) k.
Proof. intros H. rewrite run_seq. by apply (run_lit_app w t). Qed.

Lemma step_lit_fail {A} w r st (k : rst -> option A) :
  starts_with w (r_rest st) = false -> run (RSeq (RLit w) r) st k = None.
Proof. intros H. by rewrite run_seq, run_lit, H. Qed.

(** A captured class run: exact when what follows rejects every unit of the
    class. *)
Lemma step_class {A} i p w t r st (k : rst -> option A) :
  r_rest st = w ++ t -> w <> [] -> Forall (fun c => p c = true) w -> stops p t ->
  (forall st' c s, r_rest st' = c :: s -> p c = true -> run r st' k = None) ->
  run (RSeq (RCap i (RPlus (RSet p))) r) st k = run r (set_cap i w (adv st w t)) k.
Proof.
  intros Hs Hne Hw Ht Hr. rewrite run_seq, run_cap.
  rewrite (run_plus_set p w t); [|done..|].
  - by rewrite consumed_adv.
  - left. intros u c v -> _. eapply Hr; [done|].
    apply Forall_app in Hw as [_ Hw]. by apply Forall_cons in Hw as [? _].
Qed.

Lemma not_unit_Forall a w : a ∉ w -> Forall (fun c => not_unit a c = true) w.
Proof.
  intros H. apply Forall_forall. intros c Hc. unfold not_unit.
  destruct (N.eqb_spec a c); [by subst|done].
Qed.

(** A quoted capture: the quotes and a nonempty run without quotes. *)
Lemma step_quoted {A} i w t r st (k : rst -> option A) :
  r_rest st = dq ++ w ++ dq ++ t -> w <> [] -> 34%N ∉ w ->
  run (RSeq (RLit dq) (RSeq (RCap i (RPlus (RSet (not_unit 34)))) (RSeq (RLit dq) r))) st k =
  run r (MkRst (Some 34%N) t ((i, w) :: r_caps st)) k.
Proof.
  intros Hs Hne Hw. rewrite (step_lit dq (w ++ dq ++ t)) by done.
  rewrite (step_class i _ w (dq ++ t)); [|done|done|by apply not_unit_Forall|done|].
  - by rewrite (step_lit dq t).
  - intros st' c s Hc Hn. apply step_lit_fail. rewrite Hc.
    unfold not_unit in Hn. cbn [starts_with dq]. by destruct (34 =? c)%N.
Qed.

(** Greedy [[...]*] that has to give back [v]. *)
Lemma run_star_set_back {A} p u v t st (k : rst -> option A) x :
  r_rest st = u ++ v ++ t -> Forall (fun c => p c = true) (u ++ v) -> stops p t ->
  (forall v1 v2, v = v1 ++ v2 -> v1 <> [] -> k (adv st (u ++ v1) (v2 ++ t)) = None) ->
  k (adv st u (v ++ t)) = Some x ->
  run (RStar (RSet p)) st k = Some x.
Proof.
  destruct st as [prev s caps]; simpl r_rest. intros -> Hp Ht Hv Hk.
  change (run (RStar (RSet p)) ?st k) with (star_loop (run (RSet p)) (length (r_rest st)) st k).
  assert (forall n prev u, length (u ++ v) <= n ->
    (forall v1 v2, v = v1 ++ v2 -> v1 <> [] -> k (adv (MkRst prev [] caps) (u ++ v1) (v2 ++ t)) = None) ->
    k (adv (MkRst prev [] caps) u (v ++ t)) = Some x -> Forall (fun c => p c = true) (u ++ v) ->
    star_loop (run (RSet p)) n (MkRst prev (u ++ v ++ t) caps) k = Some x) as Hgen.
  { clear prev u Hp Hv Hk. intros n prev u. revert n prev. induction u as [|c u IH]; intros n prev Hn Hv Hk Hp.
    - simpl app in *. destruct n as [|n]; [exact Hk|]. cbn [star_loop].
      destruct v as [|d v]; simpl app in *.
      + rewrite <-Hk. destruct t as [|e t]; [done|]. rewrite run_set. simpl in Ht. by rewrite Ht.
      + apply Forall_cons in Hp as [Hd Hp]. rewrite run_set, Hd. cbn [r_rest].
        rewrite (proj2 (Nat.ltb_lt _ _)) by (simpl; lia).
        rewrite (star_loop_set p v t n (Some d) caps k); try done.
        * pose proof (Hv (d :: v) [] ltac:(by rewrite app_nil_r) ltac:(done)) as H1.
          rewrite adv_cons in H1. change (adv (MkRst (Some d) [] caps)) with (adv (MkRst (Some d) (v ++ t) caps)) in H1.
          simpl app in H1. rewrite H1. exact Hk.
        * simpl in Hn. lia.
        * left. intros u0 c0 v0 ->. specialize (Hv (d :: u0) (c0 :: v0) eq_refl ltac:(done)).
          by rewrite adv_cons in Hv.
    - simpl app in *. apply Forall_cons in Hp as [Hc Hp]. destruct n as [|n]; [simpl in Hn; lia|].
      cbn [star_loop]. rewrite run_set, Hc. cbn [r_rest].
      rewrite (proj2 (Nat.ltb_lt _ _)) by (simpl; lia).
      rewrite (IH n (Some c)); [done|simpl in Hn; lia| |by rewrite adv_cons in Hk|done].
      intros v1 v2 E E1. specialize (Hv v1 v2 E E1). by rewrite adv_cons in Hv. }
  apply Hgen; try done. simpl. rewrite !length_app. lia.
Qed.

(** ** Lemmas: when the first attempt succeeds

    A greedy pattern whose first attempt succeeds needs no backtracking: these
    rules follow the text, whatever the unit before it. *)
Section first_attempt.
Context {A : Type} (k : rst -> option A) (x : A).

Definition succeeds (r : re) (s : jstr) (caps : list (nat * jstr)) : Prop :=
  forall prev, run r (MkRst prev s caps) k = Some x.

Lemma succ_lit w t r caps : succeeds r t caps -> succeeds (RSeq (RLit w) r) (w ++ t) caps.
Proof. intros H prev. rewrite (step_lit w t) by done. apply H. Qed.

Lemma succ_star p w t r caps :
  Forall (fun c => p c = true) w -> stops p t -> succeeds r t caps ->
  succeeds (RSeq (RStar (RSet p)) r) (w ++ t) caps.
Proof.
  intros Hw Ht H prev. rewrite run_seq, (run_star_set p w t) by (done || (right; eexists; apply H)). apply H.
Qed.

Lemma succ_class i p w t r caps :
  w <> [] -> Forall (fun c => p c = true) w -> stops p t -> succeeds r t ((i, w) :: caps) ->
  succeeds (RSeq (RCap i (RPlus (RSet p))) r) (w ++ t) caps.
Proof.
  intros Hne Hw Ht H prev. rewrite run_seq, run_cap.
  rewrite (run_plus_set p w t) by (done || (right; rewrite consumed_adv by done; eexists; apply H)).
  rewrite consumed_adv by done. apply H.
Qed.

Lemma succ_class0 i p w t r caps :
  Forall (fun c => p c = true) w -> stops p t -> succeeds r t ((i, w) :: caps) ->
  succeeds (RSeq (RCap i (RStar (RSet p))) r) (w ++ t) caps.
Proof.
  intros Hw Ht H prev. rewrite run_seq, run_cap.
  rewrite (run_star_set p w t) by (done || (right; rewrite consumed_adv by done; eexists; apply H)).
  rewrite consumed_adv by done. apply H.
Qed.

Lemma succ_opt a r s caps : succeeds (RSeq a r) s caps -> succeeds (RSeq (ROpt a) r) s caps.
Proof. intros H prev. specialize (H prev). rewrite run_seq in *. cbn [run]. by rewrite H. Qed.

Lemma succ_seq a b r s caps : succeeds (RSeq a (RSeq b r)) s caps -> succeeds (RSeq (RSeq a b) r) s caps.
Proof. done. Qed.

(** An optional pattern that cannot match is skipped. *)
Lemma succ_skip a r s caps :
  (forall prev (k' : rst -> option A), run a (MkRst prev s caps) k' = None) ->
  succeeds r s caps -> succeeds (RSeq (ROpt a) r) s caps.
Proof. intros Ha H prev. rewrite run_seq. cbn [run]. rewrite Ha. apply H. Qed.
End first_attempt.

(** A run of a class that nothing after it can follow. *)
Lemma star_fails {A} p w t r prev caps (k : rst -> option A) :
  Forall (fun c => p c = true) w -> stops p t ->
  (forall u v prev', w = u ++ v -> run r (MkRst prev' (v ++ t) caps) k = None) ->
  run (RSeq (RStar (RSet p)) r) (MkRst prev (w ++ t) caps) k = None.
Proof.
  intros Hw Ht H. rewrite run_seq, (run_star_set p w t); [|done..|].
  - apply (H w []). by rewrite app_nil_r.
  - left. intros u c v ->. apply (H u (c :: v)). done.
Qed.

Lemma num_unit_not_ws c : num_unit c = true -> is_ws c = false.
Proof.
  intros H. destruct (is_ws c) eqn:E; [|done]. exfalso. unfold num_unit, is_digit in H.
  unfold is_ws in E.
  repeat match goal with
    | E : _ || _ = true |- _ => apply orb_true_iff in E as [E|E]
    end; bools; subst; try discriminate;
  repeat match goal with
    | E : (_ <=? _)%N = true |- _ => apply N.leb_le in E
    end; lia.
Qed.
