(* ===== verification/Numbers.v ===== *)
(** * JavaScript numbers

    A number is an IEEE 754 binary64 value, in the executable form of
    [SpecFloat].  [Number(s)] rounds the decimal literal correctly and
    [String(x)] prints the shortest decimal that reads back as [x], both as
    ECMAScript defines them. *)
From S2P Require Import Prelude.
From Stdlib Require Import SpecFloat.

Abbreviation number := spec_float.

Definition prec : Z := 53.
Definition emax : Z := 1024.

#[export] Instance number_eq_dec : EqDecision number.
Proof. solve_decision. Defined.

Definition nadd : number -> number -> number := SFadd prec emax.
Definition nsub : number -> number -> number := SFsub prec emax.
Definition nmul : number -> number -> number := SFmul prec emax.
Definition ndiv : number -> number -> number := SFdiv prec emax.
Definition nltb : number -> number -> bool := SFltb.
Definition nleb : number -> number -> bool := SFleb.
(** [===] on numbers: [NaN] differs from itself, the zeros are equal. *)
Definition neqb : number -> number -> bool := SFeqb.

Definition nan : number := S754_nan.
Definition infinity : number := S754_infinity false.
Definition zero : number := S754_zero false.

(** The number nearest to an integer; exact up to [2^53]. *)
Definition num_of_Z (z : Z) : number := binary_normalize prec emax z 0 false.

Definition is_nan (x : number) : bool := match x with S754_nan => true | _ => false end.

(** [Number.isFinite]. *)
Definition is_finite (x : number) : bool :=
  match x with S754_zero _ | S754_finite _ _ _ => true | _ => false end.

(** [x] is truthy. *)
Definition num_truthy (x : number) : bool :=
  match x with S754_zero _ | S754_nan => false | _ => true end.

(** [x || y] on numbers. *)
Definition num_or (x y : number) : number := if num_truthy x then x else y.

(** The integer value of a number, if it is an integer ([Number.isInteger]). *)
Definition int_of_num (x : number) : option Z :=
  match x with
  | S754_zero _ => Some 0%Z
  | S754_finite s m e =>
      let sg := if s then (-1)%Z else 1%Z in
      if (0 <=? e)%Z then Some (sg * Z.pos m * 2 ^ e)%Z
      else if (Z.pos m mod 2 ^ (- e) =? 0)%Z then Some (sg * (Z.pos m / 2 ^ (- e)))%Z
      else None
  | _ => None
  end.

(** ** Decimal digits *)

Fixpoint dec_digits_n (fuel : nat) (n : N) (acc : jstr) : jstr :=
  match fuel with
  | O => acc
  | S f =>
      let acc' := (48 + n mod 10)%N :: acc in
      if (n <? 10)%N then acc' else dec_digits_n f (n / 10)%N acc'
  end.

(** The decimal form of a natural number; it has at most as many digits as
    bits, plus one. *)
Definition dec_digits (n : N) : jstr := dec_digits_n (S (N.size_nat n)) n [].

(** The value of a digit string. *)
Definition digits_val (ds : jstr) : N := foldl (fun acc c => (10 * acc + (c - 48))%N) 0%N ds.

(** [`${z}`] for an integer. *)
Definition Z_to_str (z : Z) : jstr :=
  if (z <? 0)%Z then 45%N :: dec_digits (Z.to_N (- z)) else dec_digits (Z.to_N z).

Fixpoint span_digits (s : jstr) : jstr * jstr :=
  match s with
  | [] => ([], [])
  | c :: s' => if is_digit c then let '(d, r) := span_digits s' in (c :: d, r) else ([], s)
  end.

(** ** From decimal to binary *)

(** The number nearest to [(-1)^neg * m * 10^e].  Outside the guards the result
    overflows to infinity or underflows to zero anyway. *)
Definition num_of_dec (neg : bool) (m : N) (e : Z) : number :=
  match m with
  | 0%N => S754_zero neg
  | Npos p =>
      if (400 <? e)%Z then S754_infinity neg
      else if (e + Z.of_nat (N.size_nat m) <? -400)%Z then S754_zero neg
      else if (0 <=? e)%Z then
        binary_round prec emax neg (Z.to_pos (Z.pos p * 10 ^ e)) 0
      else
        let '(mz, ez, lz) := SFdiv_core_binary prec emax (Z.pos p) 0 (10 ^ (- e)) 0 in
        binary_round_aux prec emax neg mz ez lz
  end.

(** [[eE][+-]?\d+] after the mantissa: the exponent and what follows it; no
    exponent part is [0]. *)
Definition read_exp (s : jstr) : Z * jstr :=
  match s with
  | c :: s1 =>
      if ((c =? 101) || (c =? 69))%N then
        let '(neg, s2) :=
          match s1 with
          | d :: s2 => if (d =? 45)%N then (true, s2) else if (d =? 43)%N then (false, s2) else (false, s1)
          | [] => (false, s1)
          end in
        let '(ds, r) := span_digits s2 in
        match ds with
        | [] => (0%Z, s)
        | _ => ((if neg then - Z.of_N (digits_val ds) else Z.of_N (digits_val ds))%Z, r)
        end
      else (0%Z, s)
  | [] => (0%Z, s)
  end.

(** An unsigned decimal literal at the head of [s]: mantissa, exponent and
    the rest. *)
Definition read_dec (s : jstr) : option (N * Z * jstr) :=
  let '(ip, r) := span_digits s in
  let '(fp, r1) :=
    match r with
    | c :: r' => if (c =? 46)%N then span_digits r' else ([], r)
    | [] => ([], r)
    end in
  match ip, fp with
  | [], [] => None
  | _, _ =>
      let '(e, r2) := read_exp r1 in
      Some (digits_val (ip ++ fp), (e - Z.of_nat (length fp))%Z, r2)
  end.

Definition hex_val (c : N) : option N :=
  if is_digit c then Some (c - 48)%N
  else if ((97 <=? c) && (c <=? 102))%N then Some (c - 87)%N
  else if ((65 <=? c) && (c <=? 70))%N then Some (c - 55)%N
  else None.

(** Digits in radix [b] (2, 8 or 16), all of [s]. *)
Fixpoint radix_val (b acc : N) (s : jstr) : option N :=
  match s with
  | [] => Some acc
  | c :: s' =>
      match hex_val c with
      | Some d => if (d <? b)%N then radix_val b (b * acc + d)%N s' else None
      | None => None
      end
  end.

Definition radix_literal (s : jstr) : option number :=
  let value b r := match r with [] => None | _ => num_of_Z ∘ Z.of_N <$> radix_val b 0 r end in
  match s with
  | c :: x :: r =>
      if (c =? 48)%N then
        if ((x =? 120) || (x =? 88))%N then value 16%N r
        else if ((x =? 111) || (x =? 79))%N then value 8%N r
        else if ((x =? 98) || (x =? 66))%N then value 2%N r
        else None
      else None
  | _ => None
  end.

Definition signed_literal (neg : bool) (s : jstr) : number :=
  if s === js "Infinity" then S754_infinity neg
  else match read_dec s with
       | Some (m, e, []) => num_of_dec neg m e
       | _ => nan
       end.

(** [Number(s)] on a string. *)
Definition Number (s : jstr) : number :=
  match trim s with
  | [] => zero
  | (c :: r) as t =>
      match radix_literal t with
      | Some x => x
      | None =>
          if (c =? 45)%N then signed_literal true r
          else if (c =? 43)%N then signed_literal false r
          else signed_literal false t
      end
  end.

(** ** From binary to decimal *)

Fixpoint find_neg_exp (fuel : nat) (num den : Z) (j : Z) : Z :=
  match fuel with
  | O => j
  | S f => if (den <=? num * 10)%Z then j else find_neg_exp f (num * 10) den (j - 1)
  end.

(** [n] with [10^(n-1) <= num/den < 10^n]. *)
Definition dec_exponent (num den : Z) : Z :=
  if (den <=? num)%Z then Z.of_nat (length (dec_digits (Z.to_N (num / den))))
  else find_neg_exp 400 num den 0.

(** The [k]-digit decimal [s * 10^(n-k)] nearest to [num/den] among those that
    read back as [x]. *)
Definition shortest_at (x : number) (num den n k : Z) : option (N * Z) :=
  let e := (n - k)%Z in
  let '(num', den') := if (0 <=? e)%Z then (num, den * 10 ^ e)%Z else (num * 10 ^ (- e), den)%Z in
  let lo := (num' / den')%Z in
  let hi := (lo + 1)%Z in
  let ok s := neqb (num_of_dec false (Z.to_N s) e) x in
  let dlo := (num' - lo * den')%Z in
  let dhi := (hi * den' - num')%Z in
  match ok lo, ok hi with
  | true, true =>
      if (dlo <? dhi)%Z || ((dlo =? dhi)%Z && Z.even lo) then Some (Z.to_N lo, e)
      else Some (Z.to_N hi, e)
  | true, false => Some (Z.to_N lo, e)
  | false, true => Some (Z.to_N hi, e)
  | false, false => None
  end.

Fixpoint shortest_n (fuel : nat) (x : number) (num den n k : Z) : option (N * Z) :=
  match fuel with
  | O => None
  | S f =>
      match shortest_at x num den n k with
      | Some r => Some r
      | None => shortest_n f x num den n (k + 1)
      end
  end.

(** Seventeen digits always identify a binary64 value. *)
Definition shortest (x : number) (m : positive) (e : Z) : option (N * Z) :=
  let '(num, den) := if (0 <=? e)%Z then (Z.pos m * 2 ^ e, 1)%Z else (Z.pos m, 2 ^ (- e))%Z in
  shortest_n 17 x num den (dec_exponent num den) 1.

Fixpoint strip_zeros (fuel : nat) (s : N) (e : Z) : N * Z :=
  match fuel with
  | O => (s, e)
  | S f => if ((s mod 10 =? 0) && negb (s =? 0))%N then strip_zeros f (s / 10)%N (e + 1)%Z else (s, e)
  end.

Definition zeros (n : Z) : jstr := replicate (Z.to_nat n) 48%N.

(** Number::toString's layout of the digits of [s * 10^e]. *)
Definition layout (s : N) (e : Z) : jstr :=
  let '(s, e) := strip_zeros 20 s e in
  let ds := dec_digits s in
  let k := Z.of_nat (length ds) in
  let n := (k + e)%Z in
  if ((k <=? n) && (n <=? 21))%Z then ds ++ zeros (n - k)
  else if ((0 <? n) && (n <=? 21))%Z then take (Z.to_nat n) ds ++ js "." ++ drop (Z.to_nat n) ds
  else if ((-6 <? n) && (n <=? 0))%Z then js "0." ++ zeros (- n) ++ ds
  else
    let ex := (n - 1)%Z in
    let sg := if (ex <? 0)%Z then js "-" else js "+" in
    let tail := js "e" ++ sg ++ dec_digits (Z.to_N (Z.abs ex)) in
    if (k =? 1)%Z then ds ++ tail
    else take 1 ds ++ js "." ++ drop 1 ds ++ tail.

(** [String(x)]. *)
Definition num_to_str (x : number) : jstr :=
  match x with
  | S754_nan => js "NaN"
  | S754_zero _ => js "0"
  | S754_infinity s => if s then js "-Infinity" else js "Infinity"
  | S754_finite s m e =>
      let body :=
        match shortest (S754_finite false m e) m e with
        | Some (d, ex) => layout d ex
        | None => js "NaN"
        end in
      if s then js "-" ++ body else body
  end.

(** ** Rounding functions *)

Definition nabs : number -> number := SFabs.
Definition nopp : number -> number := SFopp.

(** A finite number as an exact fraction with a positive denominator. *)
Definition fraction (s : bool) (m : positive) (e : Z) : Z * Z :=
  let sg := if s then (-1)%Z else 1%Z in
  if (0 <=? e)%Z then (sg * Z.pos m * 2 ^ e, 1)%Z else (sg * Z.pos m, 2 ^ (- e))%Z.

(** An integer as a number; zero keeps the sign [s]. *)
Definition int_num (s : bool) (z : Z) : number :=
  if (z =? 0)%Z then S754_zero s else num_of_Z z.

(** [Math.floor]. *)
Definition math_floor (x : number) : number :=
  match x with
  | S754_finite s m e => let '(a, b) := fraction s m e in int_num s (a / b)
  | _ => x
  end.

(** [Math.round]: the nearest integer, halves up. *)
Definition math_round (x : number) : number :=
  match x with
  | S754_finite s m e => let '(a, b) := fraction s m e in int_num s ((2 * a + b) / (2 * b))
  | _ => x
  end.

(** [x % y] on numbers: exact, with the sign of [x]. *)
Definition nmod (x y : number) : number :=
  match x, y with
  | S754_nan, _ | _, S754_nan | S754_infinity _, _ | _, S754_zero _ => nan
  | _, S754_infinity _ | S754_zero _, _ => x
  | S754_finite s m e, S754_finite _ m' e' =>
      let d := Z.min e e' in
      let r := ((Z.pos m * 2 ^ (e - d)) mod (Z.pos m' * 2 ^ (e' - d)))%Z in
      if (r =? 0)%Z then S754_zero s
      else binary_normalize prec emax (if s then - r else r) d s
  end.

(** Left padding with zeros to [n] units. *)
Definition pad_zeros (n : nat) (s : jstr) : jstr := replicate (n - length s) 48%N ++ s.

(** The digits of a nonnegative fraction [a/b] with [f] decimals, halves up. *)
Definition fixed_digits (a b : Z) (f : nat) : jstr :=
  let n := ((2 * a * 10 ^ Z.of_nat f + b) / (2 * b))%Z in
  let ds := pad_zeros (S f) (dec_digits (Z.to_N n)) in
  match f with
  | O => ds
  | _ => take (length ds - f) ds ++ js "." ++ drop (length ds - f) ds
  end.

Definition ten21 : number := num_of_Z (10 ^ 21).

(** [x.toFixed(f)]. *)
Definition toFixed (x : number) (f : nat) : jstr :=
  match x with
  | S754_zero _ => fixed_digits 0 1 f
  | S754_finite s m e =>
      if nleb ten21 (nabs x) then num_to_str x
      else
        let '(a, b) := fraction false m e in
        (if s then js "-" else []) ++ fixed_digits a b f
  | _ => num_to_str x
  end.

(** [parseFloat(s)]: the longest decimal literal at the head. *)
Definition parseFloat (s : jstr) : number :=
  let t := trim_start s in
  let '(neg, r) :=
    match t with
    | c :: r => if (c =? 45)%N then (true, r) else if (c =? 43)%N then (false, r) else (false, t)
    | [] => (false, t)
    end in
  if starts_with (js "Infinity") r then S754_infinity neg
  else match read_dec r with
       | Some (m, e, _) => num_of_dec neg m e
       | None => nan
       end.

(** ** Order *)

Lemma SFcompare_refl x : is_nan x = false -> SFcompare x x = Some Eq.
Proof.
  destruct x as [s|s| |s m e]; try done; intros _; destruct s; try done; simpl;
    by rewrite Z.compare_refl, Pos.compare_cont_refl.
Qed.

Lemma neqb_refl x : is_nan x = false -> neqb x x = true.
Proof. intros H. unfold neqb, SFeqb. by rewrite SFcompare_refl. Qed.

Lemma nltb_irrefl x : nltb x x = false.
Proof.
  destruct (is_nan x) eqn:E; [by destruct x|].
  unfold nltb, SFltb. by rewrite SFcompare_refl.
Qed.

Lemma nabs_positive x : nltb zero x = true -> nabs x = x /\ nabs (nopp x) = x.
Proof. by destruct x as [[]|[]| |[] m e]. Qed.

Lemma nltb_zero_opp x : nltb zero x = true -> nltb zero (nopp x) = false /\ nltb (nopp x) zero = true.
Proof. by destruct x as [[]|[]| |[] m e]. Qed.

(** Lexicographic comparison of exponent and mantissa. *)
Lemma finite_lt_spec (s : bool) m e m' e' :
  nltb (S754_finite s m e) (S754_finite s m' e') = true <->
  if s then (e' < e \/ e' = e /\ Z.pos m' < Z.pos m)%Z else (e < e' \/ e = e' /\ Z.pos m < Z.pos m')%Z.
Proof.
  unfold nltb, SFltb, SFcompare. change (Pos.compare_cont Eq m m') with (Pos.compare m m').
  destruct s; destruct (Z.compare_spec e e'); destruct (Pos.compare_spec m m'); simpl; split; intros ?;
    try discriminate; try reflexivity; lia.
Qed.

Lemma nltb_trans x y z : nltb x y = true -> nltb y z = true -> nltb x z = true.
Proof.
  destruct x as [[]|[]| |[] m e]; destruct y as [[]|[]| |[] m' e']; try discriminate;
    destruct z as [[]|[]| |[] m'' e'']; try discriminate; try (intros; reflexivity);
    rewrite !finite_lt_spec; simpl; lia.
Qed.

Lemma neqb_infinity x : neqb x infinity = true -> x = infinity.
Proof. by destruct x as [[]|[]| |[] m e]. Qed.

Lemma nltb_infinity x : nltb infinity x = false.
Proof. by destruct x as [[]|[]| |[] m e]. Qed.

(** *** Decimal digits *)

Lemma digits_val_snoc ds c : digits_val (ds ++ [c]) = (10 * digits_val ds + (c - 48))%N.
Proof. unfold digits_val. by rewrite foldl_app. Qed.

Lemma is_digit_mod n : is_digit (48 + n mod 10)%N = true.
Proof.
  unfold is_digit. pose proof (N.mod_lt n 10 ltac:(lia)) as H. remember (n mod 10)%N as r eqn:Er. clear Er.
  apply andb_true_intro. split; apply N.leb_le; lia.
Qed.

(** With enough fuel the digits of [n] are put before the accumulator; the first
    one is zero only for zero. *)
Lemma dec_digits_n_spec fuel n acc :
  (n < 10 ^ N.of_nat fuel)%N -> 0 < fuel ->
  exists c ds, dec_digits_n fuel n acc = (c :: ds) ++ acc /\ forallb is_digit (c :: ds) = true /\
    digits_val (c :: ds) = n /\ (c = 48%N -> n = 0%N /\ ds = []).
Proof.
  revert n acc. induction fuel as [|fuel IH]; intros n acc Hn Hf; [lia|].
  cbn [dec_digits_n]. destruct (N.ltb_spec n 10) as [Hlt|Hge].
  - exists (48 + n mod 10)%N, []. rewrite N.mod_small by done. cbn [app]. split; [done|].
    split; [|split; [|intros; split; [lia|done]]].
    + cbn [forallb]. rewrite <-(N.mod_small n 10) by done. by rewrite is_digit_mod.
    + cbn [digits_val foldl]. lia.
  - rewrite Nat2N.inj_succ, N.pow_succ_r' in Hn.
    destruct (IH (n / 10)%N ((48 + n mod 10)%N :: acc)) as (c & ds & E & Hd & Hv & Hz).
    { apply N.Div0.div_lt_upper_bound; lia. }
    { destruct fuel; [|lia]. simpl in Hn. lia. }
    exists c, (ds ++ [(48 + n mod 10)%N]). split; [rewrite E; by rewrite app_comm_cons, <-app_assoc|].
    rewrite app_comm_cons, forallb_app, Hd, digits_val_snoc, Hv. cbn [forallb andb]. rewrite is_digit_mod.
    split; [done|]. split; [|].
    { pose proof (N.div_mod n 10 ltac:(lia)) as H. remember (n mod 10)%N as r eqn:Er. remember (n / 10)%N as q eqn:Eq.
      clear -H. lia. }
    intros ->. destruct (Hz eq_refl) as [H0 _]. apply N.div_small_iff in H0; lia.
Qed.

Lemma size_size_nat n : N.size n = N.of_nat (N.size_nat n).
Proof.
  destruct n as [|p]; [done|]. cbn [N.size N.size_nat].
  induction p as [p IH|p IH|]; [| |done]; cbn [Pos.size Pos.size_nat]; rewrite Nat2N.inj_succ, <-IH; lia.
Qed.

Lemma dec_digits_spec n :
  exists c ds, dec_digits n = c :: ds /\ forallb is_digit (c :: ds) = true /\
    digits_val (c :: ds) = n /\ (c = 48%N -> n = 0%N /\ ds = []).
Proof.
  destruct (dec_digits_n_spec (S (N.size_nat n)) n []) as (c & ds & E & H); [|lia|].
  - assert (n < 2 ^ N.size n)%N by apply N.size_gt.
    pose proof (size_size_nat n) as Hs.
    rewrite Nat2N.inj_succ, <-Hs, N.pow_succ_r'.
    assert (2 ^ N.size n <= 10 ^ N.size n)%N by (apply N.pow_le_mono_l; lia).
    assert (0 < 10 ^ N.size n)%N by (apply N.neq_0_lt_0, N.pow_nonzero; lia). lia.
  - exists c, ds. unfold dec_digits. by rewrite E, app_nil_r.
Qed.

Lemma dec_digits_inj n m : dec_digits n = dec_digits m -> n = m.
Proof.
  destruct (dec_digits_spec n) as (c & ds & -> & _ & <- & _).
  destruct (dec_digits_spec m) as (c' & ds' & -> & _ & <- & _). by intros ->.
Qed.

Lemma dec_digits_unit c n : c ∈ dec_digits n -> is_digit c = true.
Proof.
  destruct (dec_digits_spec n) as (d & ds & -> & Hd & _). rewrite forallb_forall in Hd.
  intros H%list_elem_of_In. by apply Hd.
Qed.

(** *** Printed numbers have no white space *)

Definition solid (s : jstr) : Prop := Forall (fun c => is_ws c = false) s.

Lemma solid_trimmed s : solid s -> trimmed s.
Proof.
  intros H. apply trimmed_no_ws. apply forallb_forall. intros c Hc%list_elem_of_In.
  rewrite (proj1 (Forall_forall _ s) H c) by done. done.
Qed.

Lemma solid_digits n : solid (dec_digits n).
Proof.
  apply Forall_forall. intros c Hc%dec_digits_unit. unfold is_digit in Hc. unfold is_ws.
  apply andb_true_iff in Hc as [H1%N.leb_le H2%N.leb_le].
  repeat (apply orb_false_iff; split); try (apply N.eqb_neq; lia); apply andb_false_iff;
    ((left; apply N.leb_gt; lia) || (right; apply N.leb_gt; lia)).
Qed.

Lemma solid_zeros z : solid (zeros z).
Proof. unfold zeros, solid. apply Forall_forall. intros c [-> _]%elem_of_replicate. done. Qed.

Lemma solid_app u v : solid u -> solid v -> solid (u ++ v).
Proof. apply Forall_app_2. Qed.

Create HintDb solid.
#[export] Hint Resolve solid_digits solid_zeros solid_app : solid.
#[export] Hint Extern 1 (solid (take _ _)) => apply Forall_take : solid.
#[export] Hint Extern 1 (solid (drop _ _)) => apply Forall_drop : solid.
#[export] Hint Extern 1 (solid (js _)) => (by repeat constructor) : solid.
#[export] Hint Extern 1 (Forall _ (dec_digits _)) => apply solid_digits : solid.

Lemma solid_layout s e : solid (layout s e).
Proof.
  unfold layout. destruct (strip_zeros 20 s e) as [s' e'].
  repeat case_match; auto 8 with solid.
Qed.

Lemma num_to_str_solid x : solid (num_to_str x).
Proof.
  destruct x as [s|s| |s m e]; cbn [num_to_str]; [by repeat constructor|destruct s; by repeat constructor|by repeat constructor|].
  destruct (shortest _ _ _) as [[d ex]|]; destruct s; auto using solid_layout with solid.
Qed.
