(* ===== verification/Exact.v ===== *)
(** * Integers in doubles

    Up to [2^53] in absolute value the integers are numbers, and addition,
    subtraction, multiplication, exact division, comparison and [Math.floor] of such
    numbers are those of the integers. *)
From S2P Require Import Prelude Numbers.
From Stdlib Require Import SpecFloat.

Local Open Scope Z_scope.

(** ** Rounding an exact value *)

Lemma digits_log2 m : Zpos (digits2_pos m) = Z.log2 (Zpos m) + 1.
Proof.
  induction m as [m IH|m IH|]; cbn [digits2_pos]; [| |done]; rewrite Pos2Z.inj_succ, IH.
  - rewrite (Pos2Z.inj_xI m), Z.add_1_r, Z.log2_succ_double by lia. lia.
  - rewrite (Pos2Z.inj_xO m), Z.log2_double by lia. lia.
Qed.

Lemma Zdigits_log2 m : 0 < m -> Zdigits2 m = Z.log2 m + 1.
Proof. destruct m; [lia| |lia]. intros _. apply digits_log2. Qed.

Lemma iter_pos_nat {A} (f : A -> A) n x : iter_pos f n x = Nat.iter (Pos.to_nat n) f x.
Proof.
  revert x. induction n as [n IH|n IH|]; intros x; cbn [iter_pos]; [| |done]; rewrite !IH, <- Nat.iter_add.
  - rewrite <- Nat.iter_succ_r. f_equal. lia.
  - f_equal. lia.
Qed.

Lemma shr_exact q n e : 0 < q -> 0 <= n ->
  shr (Build_shr_record (q * 2 ^ n) false false) e n = (Build_shr_record q false false, e + n).
Proof.
  intros Hq Hn. destruct n as [|p|p]; [by rewrite Z.mul_1_r, Z.add_0_r| |lia]. cbn [shr]. f_equal.
  rewrite iter_pos_nat. rewrite <- (positive_nat_Z p). generalize (Pos.to_nat p) as k. clear Hn p.
  induction k as [|k IH]; [by rewrite Z.mul_1_r|]. rewrite Nat.iter_succ_r, Nat2Z.inj_succ, Z.pow_succ_r by lia.
  assert (0 < q * 2 ^ Z.of_nat k) as Hpos by (apply Z.mul_pos_pos; [done|apply Z.pow_pos_nonneg; lia]).
  replace (q * (2 * 2 ^ Z.of_nat k)) with (2 * (q * 2 ^ Z.of_nat k)) by ring.
  destruct (q * 2 ^ Z.of_nat k) as [|r|r]; [lia| |lia]. exact IH.
Qed.

(** The number of a positive integer below [2^53]. *)
Definition canon (s : bool) (p : Z) : number :=
  S754_finite s (Z.to_pos (p * 2 ^ (52 - Z.log2 p))) (Z.log2 p - 52).

Definition small (p : Z) : Prop := 0 < p < 2 ^ 53.

Lemma small_log p : small p -> 0 <= Z.log2 p <= 52.
Proof.
  intros [H1 H2]. split; [apply Z.log2_nonneg|]. apply Z.lt_succ_r, Z.log2_lt_pow2; [done|exact H2].
Qed.

Lemma mantissa_log p k : 0 < p -> 0 <= k -> Z.log2 (p * 2 ^ k) = Z.log2 p + k.
Proof. intros Hp Hk. rewrite Z.log2_mul_pow2 by lia. lia. Qed.

Lemma mantissa_pos p k : 0 < p -> 0 <= k -> 0 < p * 2 ^ k.
Proof. intros Hp Hk. apply Z.mul_pos_pos; [done|apply Z.pow_pos_nonneg; lia]. Qed.

Lemma fexp_small p : small p -> fexp prec emax (Z.log2 p + 1) = Z.log2 p - 52.
Proof. intros H%small_log. unfold fexp, emin, prec, emax. lia. Qed.

(** A value in at least 53 bits is rounded to itself. *)
Lemma round_aux_exact s p k : small p -> 52 - Z.log2 p <= k ->
  binary_round_aux prec emax s (p * 2 ^ k) (- k) loc_Exact = canon s p.
Proof.
  intros Hp Hk. pose proof (small_log p Hp) as Hl. pose proof (proj1 Hp) as Hpos.
  assert (p * 2 ^ k = p * 2 ^ (52 - Z.log2 p) * 2 ^ (Z.log2 p - 52 + k)) as E.
  { rewrite <- Z.mul_assoc, <- Z.pow_add_r by lia. do 2 f_equal. lia. }
  set (q := p * 2 ^ (52 - Z.log2 p)) in *. assert (0 < q) as Hq by (apply mantissa_pos; lia).
  assert (Z.log2 q = 52) as Hlq by (unfold q; rewrite mantissa_log by lia; lia).
  unfold binary_round_aux, shr_fexp. rewrite Zdigits_log2 by (apply mantissa_pos; lia). rewrite mantissa_log by lia.
  replace (Z.log2 p + k + 1 + - k) with (Z.log2 p + 1) by lia. rewrite fexp_small by done. cbn [shr_record_of_loc].
  replace (Z.log2 p - 52 - - k) with (Z.log2 p - 52 + k) by lia. rewrite E, shr_exact by lia.
  cbn [shr_m loc_of_shr_record round_nearest_even]. rewrite Zdigits_log2, Hlq by done.
  replace (52 + 1 + (- k + (Z.log2 p - 52 + k))) with (Z.log2 p + 1) by lia. rewrite fexp_small by done.
  replace (Z.log2 p - 52 - (- k + (Z.log2 p - 52 + k))) with 0 by lia. cbn [shr shr_m].
  replace (- k + (Z.log2 p - 52 + k)) with (Z.log2 p - 52) by lia. unfold canon. fold q.
  destruct q as [|q|q]; [lia| |lia]. by rewrite (proj2 (Z.leb_le _ _)) by (unfold emax, prec; lia).
Qed.

Lemma shift_pos_Z m d : Zpos (Pos.iter xO m d) = Zpos m * 2 ^ Zpos d.
Proof.
  revert d. induction d as [|d IH] using Pos.peano_ind; [cbn; lia|].
  rewrite Pos.iter_succ, Pos2Z.inj_succ, Z.pow_succ_r, Pos2Z.inj_xO, IH by lia. ring.
Qed.

Lemma round_exact s m p k : small p -> 0 <= k -> Zpos m = p * 2 ^ k -> binary_round prec emax s m (- k) = canon s p.
Proof.
  intros Hp Hk E. pose proof (small_log p Hp) as Hl. pose proof (proj1 Hp) as Hpos.
  unfold binary_round, shl_align. rewrite digits_log2, E, mantissa_log by lia.
  replace (Z.log2 p + k + 1 + - k) with (Z.log2 p + 1) by lia. rewrite fexp_small by done.
  destruct (Z.log2 p - 52 - - k) as [|d|d] eqn:Ed.
  - rewrite E. apply round_aux_exact; [done|lia].
  - rewrite E. apply round_aux_exact; [done|lia].
  - rewrite shift_pos_Z, E, <- Z.mul_assoc, <- Z.pow_add_r by lia.
    replace (Z.log2 p - 52) with (- (k + Zpos d)) by lia. apply round_aux_exact; [done|lia].
Qed.

Definition sign (z : Z) : bool := (z <? 0).
Definition small_abs (z : Z) : Prop := - 2 ^ 53 < z < 2 ^ 53.

(** A sum, at a common exponent. *)
Lemma normalize_exact z k : small_abs z -> 0 <= k -> z <> 0 ->
  binary_normalize prec emax (z * 2 ^ k) (- k) false = canon (sign z) (Z.abs z).
Proof.
  intros Hz Hk Hnz. unfold small_abs in Hz. assert (0 < 2 ^ k) as H2 by (apply Z.pow_pos_nonneg; lia).
  assert (small (Z.abs z)) as Hs by (unfold small; lia). unfold sign.
  destruct (z * 2 ^ k) as [|m|m] eqn:E; [nia| |]; cbn [binary_normalize].
  - rewrite (round_exact _ m (Z.abs z) k) by (done || lia || (rewrite <- E; f_equal; nia)).
    f_equal. symmetry. apply Z.ltb_ge. nia.
  - assert (Zpos m = Z.abs z * 2 ^ k) as Em by nia.
    rewrite (round_exact _ m (Z.abs z) k) by (done || lia). f_equal. symmetry. apply Z.ltb_lt. nia.
Qed.

Lemma num_of_Z_canon z : small_abs z -> z <> 0 -> num_of_Z z = canon (sign z) (Z.abs z).
Proof. intros Hz Hnz. unfold num_of_Z. rewrite <- (normalize_exact z 0) by (done || lia). by rewrite Z.mul_1_r. Qed.

(** ** Addition and subtraction *)

Lemma num_of_Z_zero : num_of_Z 0 = zero.
Proof. done. Qed.

Lemma align_canon p e : small p -> e <= Z.log2 p - 52 ->
  Zpos (fst (shl_align (Z.to_pos (p * 2 ^ (52 - Z.log2 p))) (Z.log2 p - 52) e)) = p * 2 ^ (- e).
Proof.
  intros Hp He. pose proof (small_log p Hp) as Hl. pose proof (proj1 Hp) as Hpos.
  assert (Zpos (Z.to_pos (p * 2 ^ (52 - Z.log2 p))) = p * 2 ^ (52 - Z.log2 p)) as E
    by (apply Z2Pos.id, mantissa_pos; lia).
  unfold shl_align. destruct (e - (Z.log2 p - 52)) as [|d|d] eqn:Ed; [|lia|]; cbn [fst].
  - rewrite E. do 2 f_equal. lia.
  - rewrite shift_pos_Z, E, <- Z.mul_assoc, <- Z.pow_add_r by lia. do 2 f_equal. lia.
Qed.

Lemma signed_abs z n : cond_Zopp (sign z) (Z.abs z * n) = z * n.
Proof. unfold cond_Zopp, sign. destruct (Z.ltb_spec z 0); lia. Qed.

Lemma small_abs_small z : small_abs z -> z <> 0 -> small (Z.abs z).
Proof. unfold small_abs, small. lia. Qed.

(** The aligned mantissas of two integers, with their signs. *)
Lemma aligned a b : small_abs a -> small_abs b -> a <> 0 -> b <> 0 ->
  exists k, 0 <= k /\ forall op : Z -> Z -> Z,
    let x := (Z.log2 (Z.abs a) - 52) in
    let y := (Z.log2 (Z.abs b) - 52) in
    op (cond_Zopp (sign a) (Zpos (fst (shl_align (Z.to_pos (Z.abs a * 2 ^ (52 - Z.log2 (Z.abs a)))) x (Z.min x y)))))
       (cond_Zopp (sign b) (Zpos (fst (shl_align (Z.to_pos (Z.abs b * 2 ^ (52 - Z.log2 (Z.abs b)))) y (Z.min x y))))) =
    op (a * 2 ^ k) (b * 2 ^ k) /\ Z.min x y = - k.
Proof.
  intros Ha Hb Na Nb. pose proof (small_log _ (small_abs_small a Ha Na)). pose proof (small_log _ (small_abs_small b Hb Nb)).
  exists (- Z.min (Z.log2 (Z.abs a) - 52) (Z.log2 (Z.abs b) - 52)). split; [lia|]. intros op x y. split; [|lia].
  rewrite !align_canon by (done || lia || by apply small_abs_small). by rewrite !signed_abs.
Qed.

Lemma nadd_exact a b : small_abs a -> small_abs b -> small_abs (a + b) -> nadd (num_of_Z a) (num_of_Z b) = num_of_Z (a + b).
Proof.
  intros Ha Hb Hs. destruct (Z.eq_dec a 0) as [->|Na]; [rewrite Z.add_0_l|destruct (Z.eq_dec b 0) as [->|Nb]; [rewrite Z.add_0_r|]].
  - destruct (Z.eq_dec b 0) as [->|Nb]; [done|]. by rewrite (num_of_Z_canon b).
  - by rewrite (num_of_Z_canon a).
  - rewrite (num_of_Z_canon a), (num_of_Z_canon b) by done. destruct (aligned a b Ha Hb Na Nb) as (k & Hk & H).
    unfold nadd, canon. cbn [SFadd]. destruct (H Z.add) as [-> ->]. rewrite <- Z.mul_add_distr_r.
    destruct (Z.eq_dec (a + b) 0) as [E|Ne]; [by rewrite E|]. by rewrite normalize_exact, <- num_of_Z_canon.
Qed.

Lemma nsub_exact a b : small_abs a -> small_abs b -> small_abs (a - b) -> nsub (num_of_Z a) (num_of_Z b) = num_of_Z (a - b).
Proof.
  intros Ha Hb Hs. destruct (Z.eq_dec a 0) as [->|Na]; [|destruct (Z.eq_dec b 0) as [->|Nb]; [rewrite Z.sub_0_r|]].
  - destruct (Z.eq_dec b 0) as [->|Nb]; [done|]. change (num_of_Z 0) with zero.
    replace (0 - b) with (- b) by lia. rewrite (num_of_Z_canon b), (num_of_Z_canon (- b)) by (unfold small_abs in *; lia).
    unfold nsub, zero, canon. cbn [SFsub]. rewrite Z.abs_opp. f_equal. unfold sign.
    destruct (Z.ltb_spec b 0), (Z.ltb_spec (- b) 0); lia || done.
  - by rewrite (num_of_Z_canon a).
  - rewrite (num_of_Z_canon a), (num_of_Z_canon b) by done. destruct (aligned a b Ha Hb Na Nb) as (k & Hk & H).
    unfold nsub, canon. cbn [SFsub]. destruct (H Z.sub) as [-> ->]. rewrite <- Z.mul_sub_distr_r.
    destruct (Z.eq_dec (a - b) 0) as [E|Ne]; [by rewrite E|]. by rewrite normalize_exact, <- num_of_Z_canon.
Qed.

(** ** Multiplication and exact division *)

Lemma sign_pos z : 0 < z -> sign z = false.
Proof. intros H. apply Z.ltb_ge. lia. Qed.

Lemma num_of_pos p : small p -> num_of_Z p = canon false p.
Proof. intros Hp. unfold small in Hp. rewrite num_of_Z_canon, Z.abs_eq, sign_pos by (unfold small_abs; lia). done. Qed.

Lemma mantissa_Z p : small p -> Zpos (Z.to_pos (p * 2 ^ (52 - Z.log2 p))) = p * 2 ^ (52 - Z.log2 p).
Proof. intros Hp. pose proof (small_log p Hp). apply Z2Pos.id, mantissa_pos; [apply Hp|lia]. Qed.

Lemma nmul_exact a b : 0 <= a < 2 ^ 53 -> 0 <= b < 2 ^ 53 -> a * b < 2 ^ 53 ->
  nmul (num_of_Z a) (num_of_Z b) = num_of_Z (a * b).
Proof.
  intros Ha Hb Hab. destruct (Z.eq_dec a 0) as [->|Na]; [|destruct (Z.eq_dec b 0) as [->|Nb]].
  - destruct (Z.eq_dec b 0) as [->|Nb]; [done|]. by rewrite (num_of_pos b) by (unfold small; lia).
  - rewrite Z.mul_0_r. by rewrite (num_of_pos a) by (unfold small; lia).
  - assert (small a /\ small b /\ small (a * b)) as (Sa & Sb & Sp) by (unfold small; nia).
    pose proof (small_log a Sa). pose proof (small_log b Sb). pose proof (small_log _ Sp).
    pose proof (Z.log2_mul_below a b ltac:(lia) ltac:(lia)).
    rewrite (num_of_pos a), (num_of_pos b), (num_of_pos (a * b)) by done. unfold nmul, canon. cbn [SFmul xorb].
    rewrite Pos2Z.inj_mul, !mantissa_Z by done.
    replace (a * 2 ^ (52 - Z.log2 a) * (b * 2 ^ (52 - Z.log2 b))) with (a * b * 2 ^ (52 - Z.log2 a + (52 - Z.log2 b)))
      by (rewrite Z.pow_add_r by lia; ring).
    replace (Z.log2 a - 52 + (Z.log2 b - 52)) with (- (52 - Z.log2 a + (52 - Z.log2 b))) by lia.
    apply round_aux_exact; [done|lia].
Qed.

Lemma new_location_exact m : new_location m 0 = loc_Exact.
Proof. unfold new_location, new_location_even, new_location_odd. by destruct (Z.even m). Qed.

(** The division of two mantissas whose quotient is an integer. *)
Lemma div_core_exact c b : small c -> small b -> small (c * b) ->
  let a := c * b in
  SFdiv_core_binary prec emax (a * 2 ^ (52 - Z.log2 a)) (Z.log2 a - 52) (b * 2 ^ (52 - Z.log2 b)) (Z.log2 b - 52) =
  (c * 2 ^ (53 + Z.log2 b - Z.log2 a), - (53 + Z.log2 b - Z.log2 a), loc_Exact).
Proof.
  intros Sc Sb Sa a. pose proof (small_log c Sc). pose proof (small_log b Sb). pose proof (small_log a Sa) as La.
  pose proof (Z.log2_mul_above c b ltac:(apply Z.lt_le_incl, Sc) ltac:(apply Z.lt_le_incl, Sb)) as Hup. fold a in Hup.
  pose proof (proj1 Sb) as Pb. pose proof (proj1 Sc) as Pc. assert (0 < a) as Pa by (unfold a; nia).
  unfold SFdiv_core_binary. rewrite !Zdigits_log2, !mantissa_log by (lia || apply mantissa_pos; lia).
  set (k := 53 + Z.log2 b - Z.log2 a). unfold fexp, emin, prec, emax.
  match goal with |- context [Z.min ?u ?v] => replace (Z.min u v) with (- k) by (unfold k; lia) end.
  match goal with |- context [match ?u with 0 => _ | Zpos _ => _ | Zneg _ => _ end] => replace u with 53 by (unfold k; lia) end.
  cbv iota beta. rewrite Z.shiftl_mul_pow2 by lia.
  assert (a * 2 ^ (52 - Z.log2 a) * 2 ^ 53 = b * 2 ^ (52 - Z.log2 b) * (c * 2 ^ k)) as E.
  { rewrite <- Z.mul_assoc, <- Z.pow_add_r by lia. unfold a at 1.
    replace (b * 2 ^ (52 - Z.log2 b) * (c * 2 ^ k)) with (c * b * (2 ^ (52 - Z.log2 b) * 2 ^ k)) by ring.
    rewrite <- Z.pow_add_r by (unfold k; lia). do 2 f_equal. unfold k. lia. }
  rewrite E. assert (0 < b * 2 ^ (52 - Z.log2 b)) as Pm by (apply mantissa_pos; lia).
  pose proof (Z.div_mul (c * 2 ^ k) (b * 2 ^ (52 - Z.log2 b)) ltac:(lia)) as Hd.
  pose proof (Z.mod_mul (c * 2 ^ k) (b * 2 ^ (52 - Z.log2 b)) ltac:(lia)) as Hm.
  rewrite (Z.mul_comm (c * 2 ^ k)) in Hd, Hm. unfold Z.div in Hd. unfold Z.modulo in Hm.
  destruct (Z.div_eucl _ _) as [q r]. rewrite Hd, Hm, new_location_exact. done.
Qed.

Lemma ndiv_exact c b : 0 <= c < 2 ^ 53 -> 0 < b < 2 ^ 53 -> c * b < 2 ^ 53 -> ndiv (num_of_Z (c * b)) (num_of_Z b) = num_of_Z c.
Proof.
  intros Hc Hb Ha. destruct (Z.eq_dec c 0) as [->|Nc]; [by rewrite (num_of_pos b) by (unfold small; lia)|].
  assert (small c /\ small b /\ small (c * b)) as (Sc & Sb & Sa) by (unfold small; nia).
  rewrite (num_of_pos c), (num_of_pos b), (num_of_pos (c * b)) by done. unfold ndiv, canon at 1 2. cbn [SFdiv xorb].
  rewrite !mantissa_Z, div_core_exact by done. apply round_aux_exact; [done|].
  pose proof (Z.log2_mul_above c b ltac:(lia) ltac:(lia)). lia.
Qed.

(** ** Rounding functions and comparison *)

Lemma canon_fraction s p : small p ->
  let '(a, b) := fraction s (Z.to_pos (p * 2 ^ (52 - Z.log2 p))) (Z.log2 p - 52) in
  0 < b /\ a = (if s then - p else p) * b.
Proof.
  intros Hp. pose proof (small_log p Hp). unfold fraction. rewrite mantissa_Z by done.
  destruct (Z.leb_spec 0 (Z.log2 p - 52)) as [He|He].
  - replace (52 - Z.log2 p) with 0 by lia. replace (Z.log2 p - 52) with 0 by lia. destruct s; lia.
  - replace (- (Z.log2 p - 52)) with (52 - Z.log2 p) by lia. split; [apply Z.pow_pos_nonneg; lia|]. destruct s; ring.
Qed.

Lemma math_floor_exact z : small_abs z -> math_floor (num_of_Z z) = num_of_Z z.
Proof.
  intros Hz. destruct (Z.eq_dec z 0) as [->|Nz]; [done|]. pose proof (canon_fraction (sign z) _ (small_abs_small z Hz Nz)) as Hf.
  rewrite (num_of_Z_canon z) at 1 by done. unfold canon. cbn [math_floor]. destruct (fraction _ _ _) as [a b].
  destruct Hf as [Hb ->]. rewrite Z.div_mul by lia. unfold int_num.
  assert ((if sign z then - Z.abs z else Z.abs z) = z) as -> by (unfold sign; destruct (Z.ltb_spec z 0); lia).
  by rewrite (proj2 (Z.eqb_neq z 0)).
Qed.

Lemma compare_pos p q : small p -> small q ->
  match Z.log2 p - 52 ?= Z.log2 q - 52 with
  | Lt => Lt | Gt => Gt
  | Eq => Pos.compare_cont Eq (Z.to_pos (p * 2 ^ (52 - Z.log2 p))) (Z.to_pos (q * 2 ^ (52 - Z.log2 q)))
  end = (p ?= q).
Proof.
  intros Hp Hq. pose proof (small_log p Hp). pose proof (small_log q Hq). symmetry.
  destruct (Z.compare_spec (Z.log2 p - 52) (Z.log2 q - 52)) as [E|E|E].
  - change (Pos.compare_cont Eq ?x ?y) with (x ?= y)%positive. rewrite Pos2Z.inj_compare, !mantissa_Z by done.
    replace (Z.log2 p) with (Z.log2 q) by lia. apply Zmult_compare_compat_r. apply Z.lt_gt, Z.pow_pos_nonneg; lia.
  - apply Z.compare_lt_iff, Z.log2_lt_cancel. lia.
  - apply Z.compare_gt_iff, Z.log2_lt_cancel. lia.
Qed.

Lemma compare_exact a b : small_abs a -> small_abs b -> SFcompare (num_of_Z a) (num_of_Z b) = Some (a ?= b).
Proof.
  intros Ha Hb.
  destruct (Z.eq_dec a 0) as [->|Na], (Z.eq_dec b 0) as [->|Nb]; [done|..];
    rewrite ?(num_of_Z_canon a), ?(num_of_Z_canon b) by done; unfold canon, sign.
  - change (num_of_Z 0) with zero. cbn [SFcompare zero]. f_equal. destruct (Z.ltb_spec b 0); symmetry;
      [apply Z.compare_gt_iff|apply Z.compare_lt_iff]; lia.
  - change (num_of_Z 0) with zero. cbn [SFcompare zero]. f_equal. destruct (Z.ltb_spec a 0); symmetry;
      [apply Z.compare_lt_iff|apply Z.compare_gt_iff]; lia.
  - cbn [SFcompare]. f_equal. destruct (Z.ltb_spec a 0), (Z.ltb_spec b 0).
    + pose proof (compare_pos (Z.abs a) (Z.abs b) (small_abs_small _ Ha Na) (small_abs_small _ Hb Nb)) as H'.
      assert ((a ?= b) = CompOpp (Z.abs a ?= Z.abs b)) as ->.
      { destruct (Z.compare_spec a b), (Z.compare_spec (Z.abs a) (Z.abs b)); lia || done. }
      rewrite <- H'. by destruct (_ ?= _).
    + symmetry. apply Z.compare_lt_iff. lia.
    + symmetry. apply Z.compare_gt_iff. lia.
    + rewrite <- (compare_pos a b), !Z.abs_eq; [done|lia|lia|unfold small, small_abs in *; lia..].
Qed.

Lemma nltb_exact a b : small_abs a -> small_abs b -> nltb (num_of_Z a) (num_of_Z b) = (a <? b).
Proof. intros Ha Hb. unfold nltb, SFltb. rewrite compare_exact by done. unfold Z.ltb. by destruct (a ?= b). Qed.

Lemma nleb_exact a b : small_abs a -> small_abs b -> nleb (num_of_Z a) (num_of_Z b) = (a <=? b).
Proof. intros Ha Hb. unfold nleb, SFleb. rewrite compare_exact by done. unfold Z.leb. by destruct (a ?= b). Qed.

Lemma neqb_exact a b : small_abs a -> small_abs b -> neqb (num_of_Z a) (num_of_Z b) = (a =? b).
Proof.
  intros Ha Hb. unfold neqb, SFeqb. rewrite compare_exact by done. rewrite Z.eqb_compare. by destruct (a ?= b).
Qed.

Lemma num_of_Z_inj a b : small_abs a -> small_abs b -> num_of_Z a = num_of_Z b -> a = b.
Proof.
  intros Ha Hb E. apply Z.eqb_eq. rewrite <- neqb_exact, E by done. unfold neqb, SFeqb. by rewrite compare_exact, Z.compare_refl.
Qed.

Lemma num_truthy_exact a : small_abs a -> num_truthy (num_of_Z a) = negb (a =? 0).
Proof.
  intros Ha. destruct (Z.eqb_spec a 0) as [->|Na]; [done|]. by rewrite num_of_Z_canon.
Qed.
