(* ===== verification/Dyadic.v ===== *)
(** * 32-bit integers and binary fractions in doubles

    The conversions to 32 bits that the bit operators of the language make, and the arithmetic of numbers [p * 2^j] whose
    numerator has at most 53 bits: dividing an integer by a power of two, multiplying such a fraction by an integer and [Math.floor]
    of it are exact.  The generator of the sample statistics ([ModelFacts]) stays within these numbers. *)
From S2P Require Import Prelude Numbers Exact.
From Stdlib Require Import SpecFloat.

Local Open Scope Z_scope.

(** ** The conversions *)

(** [x >>> 0]: the integer part modulo [2^32]. *)
Definition to_uint32 (x : number) : Z :=
  match x with
  | S754_finite s m e => let '(a, b) := fraction s m e in Z.quot a b mod 2 ^ 32
  | _ => 0
  end.

(** The same bits as a signed integer. *)
Definition signed32 (z : Z) : Z := let m := z mod 2 ^ 32 in if m <? 2 ^ 31 then m else m - 2 ^ 32.
Definition int32_of (x : number) : Z := signed32 (to_uint32 x).

(** [x ^ y] *)
Definition xor32 (x y : number) : number := num_of_Z (Z.lxor (int32_of x) (int32_of y)).

Lemma signed32_range z : - 2 ^ 31 <= signed32 z < 2 ^ 31.
Proof.
  unfold signed32. pose proof (Z.mod_pos_bound z (2 ^ 32) ltac:(lia)). destruct (Z.ltb_spec (z mod 2 ^ 32) (2 ^ 31)); lia.
Qed.

Lemma signed32_mod z : signed32 (z mod 2 ^ 32) = signed32 z.
Proof. unfold signed32. by rewrite Z.mod_mod by lia. Qed.

Lemma signed32_id z : - 2 ^ 31 <= z < 2 ^ 31 -> signed32 z = z.
Proof.
  intros H. unfold signed32. destruct (Z.leb_spec 0 z).
  - rewrite Z.mod_small by lia. destruct (Z.ltb_spec z (2 ^ 31)); lia.
  - replace (z mod 2 ^ 32) with (z + 2 ^ 32) by (rewrite <-(Z.mod_small (z + 2 ^ 32) (2 ^ 32)) at 1 by lia; rewrite Z.add_mod, Z.mod_same, Z.add_0_r, Z.mod_mod by lia; done).
    destruct (Z.ltb_spec (z + 2 ^ 32) (2 ^ 31)); lia.
Qed.

Lemma to_uint32_exact z : small_abs z -> to_uint32 (num_of_Z z) = z mod 2 ^ 32.
Proof.
  intros Hz. destruct (Z.eq_dec z 0) as [->|Nz]; [done|]. pose proof (canon_fraction (sign z) _ (small_abs_small z Hz Nz)) as Hf.
  rewrite (num_of_Z_canon z) at 1 by done. unfold canon. cbn [to_uint32]. destruct (fraction _ _ _) as [a b].
  destruct Hf as [Hb ->]. rewrite Z.quot_mul by lia. f_equal. unfold sign. destruct (Z.ltb_spec z 0); lia.
Qed.

Lemma int32_of_exact z : small_abs z -> int32_of (num_of_Z z) = signed32 z.
Proof. intros Hz. unfold int32_of. by rewrite to_uint32_exact, signed32_mod. Qed.

(** The exclusive or of two signed 32-bit integers is one. *)
Lemma signed_bits z : - 2 ^ 31 <= z < 2 ^ 31 <-> Z.shiftr z 31 = 0 \/ Z.shiftr z 31 = -1.
Proof.
  rewrite Z.shiftr_div_pow2 by lia. pose proof (Z.div_mod z (2 ^ 31) ltac:(lia)). pose proof (Z.mod_pos_bound z (2 ^ 31) ltac:(lia)).
  split; [|lia]. intros H1. assert (-1 <= z / 2 ^ 31 < 1) by (split; [apply Z.div_le_lower_bound; lia|apply Z.div_lt_upper_bound; lia]). lia.
Qed.

Lemma lxor_signed a b : - 2 ^ 31 <= a < 2 ^ 31 -> - 2 ^ 31 <= b < 2 ^ 31 -> - 2 ^ 31 <= Z.lxor a b < 2 ^ 31.
Proof.
  rewrite !signed_bits, Z.shiftr_lxor. intros [-> | ->] [-> | ->]; vm_compute; tauto.
Qed.

Lemma nmul_signed a b : small_abs a -> a <> 0 -> 0 < b -> small_abs (a * b) -> nmul (num_of_Z a) (num_of_Z b) = num_of_Z (a * b).
Proof.
  intros Ha Na Hb Hab. pose proof (small_abs_small a Ha Na) as Sa. assert (a * b <> 0) as Nab by nia.
  pose proof (small_abs_small _ Hab Nab) as Sp. assert (Z.abs (a * b) = Z.abs a * b) as Eab by nia. rewrite Eab in Sp.
  assert (small b) as Sb by (unfold small_abs, small in *; nia).
  pose proof (small_log _ Sa). pose proof (small_log b Sb). pose proof (small_log _ Sp).
  pose proof (Z.log2_mul_below (Z.abs a) b ltac:(lia) ltac:(lia)).
  rewrite (num_of_Z_canon a), (num_of_pos b), (num_of_Z_canon (a * b)), Eab by done.
  assert (sign (a * b) = sign a) as -> by (unfold sign; destruct (Z.ltb_spec a 0), (Z.ltb_spec (a * b) 0); nia || done).
  unfold nmul, canon. cbn [SFmul]. rewrite xorb_false_r. rewrite Pos2Z.inj_mul, !mantissa_Z by done.
  replace (Z.abs a * 2 ^ (52 - Z.log2 (Z.abs a)) * (b * 2 ^ (52 - Z.log2 b))) with (Z.abs a * b * 2 ^ (52 - Z.log2 (Z.abs a) + (52 - Z.log2 b)))
    by (rewrite Z.pow_add_r by lia; ring).
  replace (Z.log2 (Z.abs a) - 52 + (Z.log2 b - 52)) with (- (52 - Z.log2 (Z.abs a) + (52 - Z.log2 b))) by lia.
  apply round_aux_exact; [done|lia].
Qed.

Lemma int_of_num_exact z : small_abs z -> int_of_num (num_of_Z z) = Some z.
Proof.
  intros Hz. destruct (Z.eq_dec z 0) as [->|Nz]; [done|]. pose proof (small_abs_small z Hz Nz) as Hp.
  pose proof (small_log _ Hp) as Hl. pose proof (proj1 Hp) as Pp.
  rewrite (num_of_Z_canon z) at 1 by done. unfold canon, int_of_num. rewrite mantissa_Z by done.
  assert ((if sign z then -1 else 1) * Z.abs z = z) as Es by (unfold sign; destruct (Z.ltb_spec z 0); lia).
  destruct (Z.leb_spec 0 (Z.log2 (Z.abs z) - 52)).
  - replace (52 - Z.log2 (Z.abs z)) with 0 by lia. replace (Z.log2 (Z.abs z) - 52) with 0 by lia. f_equal. lia.
  - replace (- (Z.log2 (Z.abs z) - 52)) with (52 - Z.log2 (Z.abs z)) by lia.
    rewrite Z.mod_mul, Z.div_mul by (apply Z.pow_nonzero; lia). cbn. by f_equal.
Qed.

Lemma nabs_exact z : small_abs z -> nabs (num_of_Z z) = num_of_Z (Z.abs z).
Proof.
  intros Hz. destruct (Z.eq_dec z 0) as [->|Nz]; [done|].
  rewrite (num_of_Z_canon z), (num_of_pos (Z.abs z)) by (done || by apply small_abs_small). done.
Qed.

Lemma signed32_congr z : signed32 z mod 2 ^ 32 = z mod 2 ^ 32.
Proof.
  unfold signed32. destruct (_ <? _); [by rewrite Z.mod_mod by lia|].
  replace (z mod 2 ^ 32 - 2 ^ 32) with (z mod 2 ^ 32 + (-1) * 2 ^ 32) by lia. by rewrite Z.mod_add, Z.mod_mod by lia.
Qed.
Lemma lxor_mod32 a b : Z.lxor a b mod 2 ^ 32 = Z.lxor (a mod 2 ^ 32) (b mod 2 ^ 32).
Proof.
  rewrite <-!Z.land_ones by lia. apply Z.bits_inj'. intros n Hn. rewrite !Z.land_spec, !Z.lxor_spec, !Z.land_spec.
  by destruct (Z.testbit a n), (Z.testbit b n), (Z.testbit _ n).
Qed.

Lemma signed32_lxor a b : signed32 (Z.lxor (signed32 a) b) = signed32 (Z.lxor (a mod 2 ^ 32) b).
Proof. by rewrite <-(signed32_mod (Z.lxor (signed32 a) b)), <-(signed32_mod (Z.lxor (a mod _) b)), !lxor_mod32, signed32_congr, Z.mod_mod by lia. Qed.

(** ** Fractions *)

(** The number [p * 2^j]. *)
Definition dyadic (p j : Z) : number := S754_finite false (Z.to_pos (p * 2 ^ (52 - Z.log2 p))) (Z.log2 p - 52 + j).
Definition shift_ok (j : Z) : Prop := - 900 <= j <= 0.

Lemma dyadic_0 p : small p -> dyadic p 0 = num_of_Z p.
Proof. intros Hp. rewrite num_of_pos by done. unfold dyadic, canon. by rewrite Z.add_0_r. Qed.

Lemma fexp_shift p j : small p -> shift_ok j -> fexp prec emax (Z.log2 p + 1 + j) = Z.log2 p - 52 + j.
Proof. intros H%small_log Hj. unfold shift_ok in Hj. unfold fexp, emin, prec, emax. lia. Qed.

Lemma round_aux_dyadic p j k : small p -> shift_ok j -> 52 - Z.log2 p <= k ->
  binary_round_aux prec emax false (p * 2 ^ k) (j - k) loc_Exact = dyadic p j.
Proof.
  intros Hp Hj Hk. pose proof (small_log p Hp) as Hl. pose proof (proj1 Hp) as Hpos.
  assert (p * 2 ^ k = p * 2 ^ (52 - Z.log2 p) * 2 ^ (Z.log2 p - 52 + k)) as E.
  { rewrite <- Z.mul_assoc, <- Z.pow_add_r by lia. do 2 f_equal. lia. }
  set (q := p * 2 ^ (52 - Z.log2 p)) in *. assert (0 < q) as Hq by (apply mantissa_pos; lia).
  assert (Z.log2 q = 52) as Hlq by (unfold q; rewrite mantissa_log by lia; lia).
  unfold binary_round_aux, shr_fexp. rewrite Zdigits_log2 by (apply mantissa_pos; lia). rewrite mantissa_log by lia.
  replace (Z.log2 p + k + 1 + (j - k)) with (Z.log2 p + 1 + j) by lia. rewrite fexp_shift by done. cbn [shr_record_of_loc].
  replace (Z.log2 p - 52 + j - (j - k)) with (Z.log2 p - 52 + k) by lia. rewrite E, shr_exact by lia.
  cbn [shr_m loc_of_shr_record round_nearest_even]. rewrite Zdigits_log2, Hlq by done.
  replace (52 + 1 + (j - k + (Z.log2 p - 52 + k))) with (Z.log2 p + 1 + j) by lia. rewrite fexp_shift by done.
  replace (Z.log2 p - 52 + j - (j - k + (Z.log2 p - 52 + k))) with 0 by lia. cbn [shr shr_m].
  replace (j - k + (Z.log2 p - 52 + k)) with (Z.log2 p - 52 + j) by lia. unfold dyadic. fold q.
  destruct q as [|q|q]; [lia| |lia]. unfold shift_ok in Hj. by rewrite (proj2 (Z.leb_le _ _)) by (unfold emax, prec; lia).
Qed.

Lemma dyadic_mul p j n : small p -> shift_ok j -> small n -> small (p * n) -> nmul (dyadic p j) (num_of_Z n) = dyadic (p * n) j.
Proof.
  intros Hp Hj Hn Hpn. pose proof (small_log p Hp). pose proof (small_log n Hn). pose proof (small_log _ Hpn).
  pose proof (proj1 Hp). pose proof (proj1 Hn). pose proof (Z.log2_mul_below p n ltac:(lia) ltac:(lia)).
  rewrite (num_of_pos n) by done. unfold nmul, canon. unfold dyadic at 1. cbn [SFmul xorb]. rewrite Pos2Z.inj_mul, !mantissa_Z by done.
  replace (p * 2 ^ (52 - Z.log2 p) * (n * 2 ^ (52 - Z.log2 n))) with (p * n * 2 ^ (52 - Z.log2 p + (52 - Z.log2 n)))
    by (rewrite Z.pow_add_r by lia; ring).
  replace (Z.log2 p - 52 + j + (Z.log2 n - 52)) with (j - (52 - Z.log2 p + (52 - Z.log2 n))) by lia.
  apply round_aux_dyadic; [done|done|lia].
Qed.

(** Division by a power of two. *)
Lemma div_pow2 p d : small p -> 0 <= d <= 52 -> ndiv (num_of_Z p) (num_of_Z (2 ^ d)) = dyadic p (- d).
Proof.
  intros Hp Hd. pose proof (small_log p Hp) as Hl. pose proof (proj1 Hp) as Pp.
  assert (small (2 ^ d)) as Sd by (unfold small; split; [apply Z.pow_pos_nonneg; lia|apply Z.pow_lt_mono_r; lia]).
  assert (Z.log2 (2 ^ d) = d) as Ld by (apply Z.log2_pow2; lia).
  rewrite (num_of_pos p), (num_of_pos (2 ^ d)) by done. unfold ndiv, canon. cbn [SFdiv xorb]. rewrite !mantissa_Z by done. rewrite Ld.
  replace (2 ^ d * 2 ^ (52 - d)) with (2 ^ 52) by (rewrite <-Z.pow_add_r by lia; f_equal; lia).
  unfold SFdiv_core_binary. rewrite !Zdigits_log2, mantissa_log by (try apply mantissa_pos; lia).
  replace (Z.log2 (2 ^ 52)) with 52 by reflexivity. set (l := Z.log2 p) in *. unfold fexp, emin, prec, emax.
  match goal with |- context [Z.min ?u ?v] => replace (Z.min u v) with (l - 52 - d - 1) by lia end.
  match goal with |- context [match ?u with 0 => _ | Zpos _ => _ | Zneg _ => _ end] => replace u with 53 by lia end.
  cbv iota beta. rewrite Z.shiftl_mul_pow2 by lia.
  assert (p * 2 ^ (52 - l) * 2 ^ 53 = 2 ^ 52 * (p * 2 ^ (53 - l))) as E.
  { rewrite <-Z.mul_assoc, <-Z.pow_add_r by lia. replace (2 ^ 52 * (p * 2 ^ (53 - l))) with (p * (2 ^ 52 * 2 ^ (53 - l))) by ring.
    rewrite <-Z.pow_add_r by lia. do 2 f_equal. lia. }
  rewrite E. pose proof (Z.div_mul (p * 2 ^ (53 - l)) (2 ^ 52) ltac:(lia)) as Hq. pose proof (Z.mod_mul (p * 2 ^ (53 - l)) (2 ^ 52) ltac:(lia)) as Hm.
  rewrite (Z.mul_comm (p * 2 ^ (53 - l))) in Hq, Hm. unfold Z.div in Hq. unfold Z.modulo in Hm. destruct (Z.div_eucl _ _) as [q r].
  rewrite Hq, Hm, new_location_exact. replace (l - 52 - d - 1) with (- d - (53 - l)) by lia. apply round_aux_dyadic; [done|unfold shift_ok; lia|lia].
Qed.

Lemma dyadic_fraction p j : small p -> shift_ok j ->
  let '(a, b) := fraction false (Z.to_pos (p * 2 ^ (52 - Z.log2 p))) (Z.log2 p - 52 + j) in 0 < b /\ a * 2 ^ (- j) = p * b.
Proof.
  intros Hp Hj. pose proof (small_log p Hp). unfold shift_ok in Hj. unfold fraction. rewrite mantissa_Z by done.
  destruct (Z.leb_spec 0 (Z.log2 p - 52 + j)) as [He|He].
  - replace (52 - Z.log2 p) with 0 by lia. replace j with 0 by lia. replace (Z.log2 p - 52 + 0) with 0 by lia. cbn. lia.
  - split; [apply Z.pow_pos_nonneg; lia|].
    replace (- (Z.log2 p - 52 + j)) with (52 - Z.log2 p + - j) by lia. rewrite Z.pow_add_r by lia. ring.
Qed.

Lemma floor_fraction a b p d : 0 < b -> 0 < d -> a * d = p * b -> a / b = p / d.
Proof.
  intros Hb Hd E. apply (Z.mul_cancel_r _ _ (1)); [lia|]. rewrite !Z.mul_1_r.
  rewrite <-(Z.div_mul_cancel_r a b d) by lia. rewrite E, (Z.mul_comm b d). by apply Z.div_mul_cancel_r; lia.
Qed.

Lemma dyadic_floor p j : small p -> shift_ok j -> math_floor (dyadic p j) = num_of_Z (p / 2 ^ (- j)).
Proof.
  intros Hp Hj. pose proof (dyadic_fraction p j Hp Hj) as Hf. unfold dyadic. cbn [math_floor]. destruct (fraction _ _ _) as [a b].
  destruct Hf as [Hb E]. rewrite (floor_fraction a b p (2 ^ (- j)) Hb) by (done || (apply Z.pow_pos_nonneg; unfold shift_ok in Hj; lia)).
  unfold int_num. destruct (Z.eqb_spec (p / 2 ^ (- j)) 0) as [->|]; done.
Qed.

(** ** The generator *)

(** [Math.floor(x * n)] for [x = s / 2^32], the way a random index is taken. *)
Lemma scaled_floor s n : 0 <= s < 2 ^ 32 -> 0 < n < 2 ^ 20 ->
  math_floor (nmul (ndiv (num_of_Z s) (num_of_Z (2 ^ 32))) (num_of_Z n)) = num_of_Z (s * n / 2 ^ 32).
Proof.
  intros Hs Hn. destruct (Z.eq_dec s 0) as [->|Ns].
  - rewrite Z.mul_0_l, Z.div_0_l by lia. rewrite (num_of_pos n) by (unfold small; lia). reflexivity.
  - rewrite div_pow2 by (unfold small; lia). rewrite dyadic_mul by (unfold small, shift_ok; nia).
    rewrite dyadic_floor by (unfold small, shift_ok; nia). done.
Qed.
