(* ===== verification/Json.v ===== *)
(** * JSON values, [JSON.parse] and [JSON.stringify]

    An object is its own properties in JavaScript's enumeration order: the
    integer keys in ascending order, then the others in the order they were
    added. *)
From S2P Require Import Prelude Numbers.

Inductive json : Type :=
| JNull
| JBool (b : bool)
| JNum (x : number)
| JStr (s : jstr)
| JArr (l : list json)
| JObj (o : list (jstr * json)).

(** ** Objects *)

#[export] Instance json_eq_dec : EqDecision json.
Proof.
  unfold EqDecision, RelDecision. fix go 1. intros [|b|x|s|l|o] [|b'|x'|s'|l'|o']; try (right; discriminate).
  - by left.
  - destruct (decide (b = b')); [left; congruence|right; congruence].
  - destruct (decide (x = x')); [left; congruence|right; congruence].
  - destruct (decide (s = s')); [left; congruence|right; congruence].
  - assert (Decision (l = l')) as [H|H]; [|left; congruence|right; congruence].
    revert l'. induction l as [|w l IH]; intros [|w' l']; [by left|by right|by right|].
    destruct (go w w'); [|right; congruence]. destruct (IH l'); [left; congruence|right; congruence].
  - assert (Decision (o = o')) as [H|H]; [|left; congruence|right; congruence].
    revert o'. induction o as [|[k w] o IH]; intros [|[k' w'] o']; [by left|by right|by right|].
    destruct (decide (k = k')); [|right; congruence]. destruct (go w w'); [|right; congruence].
    destruct (IH o'); [left; congruence|right; congruence].
Defined.

(** A canonical array index: an integer below [2^32 - 1] as [String] prints it. *)
Definition is_index (k : jstr) : bool :=
  forallb is_digit k && (dec_digits (digits_val k) === k) && (digits_val k <? 4294967295)%N.

Fixpoint obj_get {V} (k : jstr) (o : list (jstr * V)) : option V :=
  match o with
  | [] => None
  | (j, v) :: o' => if k === j then Some v else obj_get k o'
  end.

(** ['k' in o] for an own property. *)
Definition obj_has {V} (k : jstr) (o : list (jstr * V)) : bool :=
  match obj_get k o with Some _ => true | None => false end.

Fixpoint obj_replace {V} (k : jstr) (v : V) (o : list (jstr * V)) : list (jstr * V) :=
  match o with
  | [] => []
  | (j, w) :: o' => if k === j then (j, v) :: o' else (j, w) :: obj_replace k v o'
  end.

(** Where a new key goes. *)
Fixpoint obj_add {V} (k : jstr) (v : V) (o : list (jstr * V)) : list (jstr * V) :=
  match o with
  | [] => [(k, v)]
  | (j, w) :: o' =>
      if is_index k && (negb (is_index j) || (digits_val k <? digits_val j)%N)
      then (k, v) :: o
      else (j, w) :: obj_add k v o'
  end.

(** [o[k] = v]. *)
Definition obj_set {V} (k : jstr) (v : V) (o : list (jstr * V)) : list (jstr * V) :=
  if obj_has k o then obj_replace k v o else obj_add k v o.

(** [delete o[k]]. *)
Definition obj_delete {V} (k : jstr) (o : list (jstr * V)) : list (jstr * V) :=
  List.filter (fun p => p.1 !== k) o.

(** An object built by assigning the entries in order: object literals, spreads
    and [Object.fromEntries]. *)
Definition obj_assign {V} (o l : list (jstr * V)) : list (jstr * V) :=
  foldl (fun acc p => obj_set p.1 p.2 acc) o l.

(** Keys are distinct and in enumeration order. *)
Definition obj_wf {V} (o : list (jstr * V)) : Prop := obj_assign [] o = o.

(** ** Reading *)

(** JSON's own white space. *)
Definition json_ws (c : N) : bool := ((c =? 32) || (c =? 9) || (c =? 10) || (c =? 13))%N.

Fixpoint skip_ws (s : jstr) : jstr :=
  match s with
  | c :: s' => if json_ws c then skip_ws s' else s
  | [] => []
  end.

(** The units an escape letter stands for. *)
Definition unescape (c : N) : option N :=
  (if (c =? 34) || (c =? 92) || (c =? 47) then Some c
   else if c =? 98 then Some 8
   else if c =? 102 then Some 12
   else if c =? 110 then Some 10
   else if c =? 114 then Some 13
   else if c =? 116 then Some 9
   else None)%N.

Definition hex4 (a b c d : N) : option N :=
  match hex_val a, hex_val b, hex_val c, hex_val d with
  | Some a, Some b, Some c, Some d => Some (4096 * a + 256 * b + 16 * c + d)%N
  | _, _, _, _ => None
  end.

(** The contents of a string literal after its opening quote. *)
Fixpoint read_string (s : jstr) : option (jstr * jstr) :=
  match s with
  | [] => None
  | c :: s1 =>
      if (c =? 34)%N then Some ([], s1)
      else if (c =? 92)%N then
        match s1 with
        | e :: s2 =>
            if (e =? 117)%N then
              match s2 with
              | h1 :: h2 :: h3 :: h4 :: s3 =>
                  match hex4 h1 h2 h3 h4, read_string s3 with
                  | Some u, Some (w, r) => Some (u :: w, r)
                  | _, _ => None
                  end
              | _ => None
              end
            else match unescape e, read_string s2 with
                 | Some u, Some (w, r) => Some (u :: w, r)
                 | _, _ => None
                 end
        | [] => None
        end
      else if (c <? 32)%N then None
      else match read_string s1 with
           | Some (w, r) => Some (c :: w, r)
           | None => None
           end
  end.

(** A number literal of JSON: no leading zeros, digits on both sides of the
    point. *)
Definition read_frac (r : jstr) : option (jstr * jstr) :=
  match r with
  | c :: r1 =>
      if (c =? 46)%N then
        match span_digits r1 with
        | ([], _) => None
        | (fp, r2) => Some (fp, r2)
        end
      else Some ([], r)
  | [] => Some ([], r)
  end.

Definition exp_dangling (r : jstr) : bool :=
  match r with c :: _ => ((c =? 101) || (c =? 69))%N | [] => false end.

Definition read_unsigned (neg : bool) (s : jstr) : option (number * jstr) :=
  let '(ip, r) := span_digits s in
  match ip with
  | [] => None
  | d :: ip' =>
      if (d =? 48)%N && match ip' with [] => false | _ => true end then None
      else match read_frac r with
           | Some (fp, r1) =>
               let '(e, r2) := read_exp r1 in
               if exp_dangling r2 then None
               else Some (num_of_dec neg (digits_val (ip ++ fp)) (e - Z.of_nat (length fp))%Z, r2)
           | None => None
           end
  end.

Definition read_number (s : jstr) : option (number * jstr) :=
  match s with
  | c :: s' => if (c =? 45)%N then read_unsigned true s' else read_unsigned false s
  | [] => None
  end.

Definition read_word (w : jstr) (v : json) (s : jstr) : option (json * jstr) :=
  if starts_with w s then Some (v, drop (length w) s) else None.

(** A value, the elements after the first of an array up to its bracket, and
    the members after the first of an object up to its brace.  Every call
    consumes a unit or returns, so fuel [S (length s)] is enough. *)
Fixpoint read_value (n : nat) (s : jstr) : option (json * jstr) :=
  match n with
  | O => None
  | S n' =>
      let s := skip_ws s in
      match s with
      | [] => None
      | c :: s1 =>
          if (c =? 34)%N then
            match read_string s1 with Some (w, r) => Some (JStr w, r) | None => None end
          else if (c =? 91)%N then
            match skip_ws s1 with
            | d :: s2 =>
                if (d =? 93)%N then Some (JArr [], s2)
                else match read_value n' s1 with
                     | Some (v, r) =>
                         match read_elems n' r with
                         | Some (l, r') => Some (JArr (v :: l), r')
                         | None => None
                         end
                     | None => None
                     end
            | [] => None
            end
          else if (c =? 123)%N then
            match skip_ws s1 with
            | d :: s2 =>
                if (d =? 125)%N then Some (JObj [], s2)
                else match read_member n' s1 with
                     | Some (p, r) =>
                         match read_members n' r with
                         | Some (l, r') => Some (JObj (obj_assign [] (p :: l)), r')
                         | None => None
                         end
                     | None => None
                     end
            | [] => None
            end
          else if (c =? 116)%N then read_word (js "true") (JBool true) s
          else if (c =? 102)%N then read_word (js "false") (JBool false) s
          else if (c =? 110)%N then read_word (js "null") JNull s
          else match read_number s with
               | Some (x, r) => Some (JNum x, r)
               | None => None
               end
      end
  end
with read_elems (n : nat) (s : jstr) : option (list json * jstr) :=
  match n with
  | O => None
  | S n' =>
      match skip_ws s with
      | c :: s1 =>
          if (c =? 93)%N then Some ([], s1)
          else if (c =? 44)%N then
            match read_value n' s1 with
            | Some (v, r) =>
                match read_elems n' r with
                | Some (l, r') => Some (v :: l, r')
                | None => None
                end
            | None => None
            end
          else None
      | [] => None
      end
  end
with read_member (n : nat) (s : jstr) : option (jstr * json * jstr) :=
  match n with
  | O => None
  | S n' =>
      match skip_ws s with
      | c :: s1 =>
          if (c =? 34)%N then
            match read_string s1 with
            | Some (k, r) =>
                match skip_ws r with
                | d :: r1 =>
                    if (d =? 58)%N then
                      match read_value n' r1 with
                      | Some (v, r2) => Some (k, v, r2)
                      | None => None
                      end
                    else None
                | [] => None
                end
            | None => None
            end
          else None
      | [] => None
      end
  end
with read_members (n : nat) (s : jstr) : option (list (jstr * json) * jstr) :=
  match n with
  | O => None
  | S n' =>
      match skip_ws s with
      | c :: s1 =>
          if (c =? 125)%N then Some ([], s1)
          else if (c =? 44)%N then
            match read_member n' s1 with
            | Some (p, r) =>
                match read_members n' r with
                | Some (l, r') => Some (p :: l, r')
                | None => None
                end
            | None => None
            end
          else None
      | [] => None
      end
  end.

(** [JSON.parse(s)]; [Throw] is the [SyntaxError]. *)
Definition JSON_parse (s : jstr) : outcome json :=
  match read_value (S (length s)) s with
  | Some (v, r) => match skip_ws r with [] => Ret v | _ => Throw end
  | None => Throw
  end.

(** ** Writing *)

Definition hex_digit (d : N) : N := if (d <? 10)%N then (48 + d)%N else (87 + d)%N.

Definition u_escape (c : N) : jstr :=
  js "\u" ++ [hex_digit (c / 4096 mod 16); hex_digit (c / 256 mod 16);
              hex_digit (c / 16 mod 16); hex_digit (c mod 16)]%N.

Definition is_lead (c : N) : bool := ((55296 <=? c) && (c <=? 56319))%N.
Definition is_trail (c : N) : bool := ((56320 <=? c) && (c <=? 57343))%N.

Definition quote_unit (c : N) : jstr :=
  if (c =? 34)%N then js "\" ++ dq
  else if (c =? 92)%N then js "\\"
  else if (c =? 8)%N then js "\b"
  else if (c =? 12)%N then js "\f"
  else if (c =? 10)%N then js "\n"
  else if (c =? 13)%N then js "\r"
  else if (c =? 9)%N then js "\t"
  else if (c <? 32)%N then u_escape c
  else [c].

(** Surrogate pairs are kept, lone surrogates are escaped. *)
Fixpoint quote_body (s : jstr) : jstr :=
  match s with
  | [] => []
  | c :: s' =>
      if is_lead c then
        match s' with
        | d :: s'' => if is_trail d then c :: d :: quote_body s'' else u_escape c ++ quote_body s'
        | [] => u_escape c
        end
      else if is_trail c then u_escape c ++ quote_body s'
      else quote_unit c ++ quote_body s'
  end.

(** [JSON.stringify] of a string. *)
Definition quote (s : jstr) : jstr := dq ++ quote_body s ++ dq.

(** [JSON.stringify(v)]. *)
Fixpoint JSON_stringify (v : json) : jstr :=
  match v with
  | JNull => js "null"
  | JBool b => if b then js "true" else js "false"
  | JNum x => if is_finite x then num_to_str x else js "null"
  | JStr s => quote s
  | JArr l => js "[" ++ join (js ",") (List.map JSON_stringify l) ++ js "]"
  | JObj o =>
      js "{" ++ join (js ",") (List.map (fun p => quote p.1 ++ js ":" ++ JSON_stringify p.2) o) ++ js "}"
  end.

(** [String(v)] of a parsed value. *)
Fixpoint json_String (v : json) : jstr :=
  match v with
  | JNull => js "null"
  | JBool b => if b then js "true" else js "false"
  | JNum x => num_to_str x
  | JStr s => s
  | JArr l => join (js ",") (List.map (fun w => match w with JNull => [] | _ => json_String w end) l)
  | JObj _ => js "[object Object]"
  end.

(** [Boolean(v)]. *)
Definition json_truthy (v : json) : bool :=
  match v with
  | JNull => false
  | JBool b => b
  | JNum x => num_truthy x
  | JStr s => truthy s
  | JArr _ | JObj _ => true
  end.

(** [v?.k] and [v.k], where strings, numbers and the like have no such property. *)
Definition opt_prop (k : jstr) (v : option json) : option json :=
  match v with Some (JObj o) => obj_get k o | _ => None end.

(** [v || d] *)
Definition json_or (v : option json) (d : json) : json :=
  match v with Some w => if json_truthy w then w else d | None => d end.

(** The own properties [{ ...v }] copies: the elements of an array and the units of
    a string under their indices, nothing from null, numbers and booleans. *)
Definition spread (v : json) : list (jstr * json) :=
  match v with
  | JObj o => o
  | JArr l => imap (fun i w => (dec_digits (N.of_nat i), w)) l
  | JStr s => imap (fun i c => (dec_digits (N.of_nat i), JStr [c])) s
  | JNull | JBool _ | JNum _ => []
  end.

(** [v.k] for the keys the code reads: null has no properties, and strings,
    numbers and arrays do not have these. *)
Definition js_prop (k : jstr) (v : json) : outcome (option json) :=
  match v with JNull => Throw | JObj o => Ret (obj_get k o) | _ => Ret None end.
Arguments js_prop k v : simpl never.

(** [String(v)]: an object with a property called toString, which JSON cannot make
    a function, has no primitive value. *)
Fixpoint to_String (v : json) : outcome jstr :=
  match v with
  | JObj o => if obj_has (js "toString") o then Throw else Ret (js "[object Object]")
  | JArr l =>
      let! ws := (fix all (l : list json) : outcome (list jstr) :=
        match l with
        | [] => Ret []
        | w :: l' =>
            let! s := match w with JNull => Ret [] | _ => to_String w end in
            let! ss := all l' in Ret (s :: ss)
        end) l in
      Ret (join (js ",") ws)
  | _ => Ret (json_String v)
  end.

(** [Number(v)]. *)
Definition to_Number (v : option json) : outcome number :=
  match v with
  | None => Ret nan
  | Some JNull => Ret zero
  | Some (JBool b) => Ret (if b then num_of_Z 1 else zero)
  | Some (JNum x) => Ret x
  | Some (JStr s) => Ret (Number s)
  | Some w => let! s := to_String w in Ret (Number s)
  end.

(** ** Lemmas: objects *)

Section objects.
Context {V : Type}.
Implicit Types (o : list (jstr * V)) (k j : jstr) (v : V).

Lemma obj_get_replace_eq k v o : obj_has k o = true -> obj_get k (obj_replace k v o) = Some v.
Proof.
  unfold obj_has. induction o as [|[j w] o IH]; cbn [obj_get obj_replace]; [done|]. intros H.
  destruct (k === j) eqn:E; cbn [obj_get]; rewrite E; [done|]. by apply IH.
Qed.

Lemma obj_get_replace_ne k j v o : k <> j -> obj_get k (obj_replace j v o) = obj_get k o.
Proof.
  intros Hne. induction o as [|[i w] o IH]; [done|]. cbn [obj_get obj_replace].
  destruct (j === i) eqn:E; cbn [obj_get]; [|by rewrite IH].
  apply (proj1 (js_eqb_true _ _)) in E. subst i. by rewrite js_eqb_ne.
Qed.

Lemma obj_get_add_eq k v o : obj_has k o = false -> obj_get k (obj_add k v o) = Some v.
Proof.
  unfold obj_has. induction o as [|[j w] o IH]; cbn [obj_get obj_add]; [by rewrite js_eqb_refl|]. intros H.
  destruct (k === j) eqn:E; [done|]. destruct (is_index k && _); cbn [obj_get]; [by rewrite js_eqb_refl|].
  rewrite E. by apply IH.
Qed.

Lemma obj_get_add_ne k j v o : k <> j -> obj_get k (obj_add j v o) = obj_get k o.
Proof.
  intros Hne. induction o as [|[i w] o IH]; cbn [obj_add].
  - cbn [obj_get]. by rewrite js_eqb_ne.
  - case_match; cbn [obj_get]; [by rewrite (js_eqb_ne k j)|]. by rewrite IH.
Qed.

Lemma obj_get_set_eq k v o : obj_get k (obj_set k v o) = Some v.
Proof. unfold obj_set. destruct (obj_has k o) eqn:E; [by apply obj_get_replace_eq|by apply obj_get_add_eq]. Qed.

Lemma obj_get_set_ne k j v o : k <> j -> obj_get k (obj_set j v o) = obj_get k o.
Proof. intros H. unfold obj_set. case_match; [by apply obj_get_replace_ne|by apply obj_get_add_ne]. Qed.

Lemma obj_get_delete_eq k o : obj_get k (obj_delete k o) = None.
Proof.
  induction o as [|[j w] o IH]; [done|]. cbn [obj_delete List.filter fst].
  destruct (j === k) eqn:E; cbn [negb]; [done|]. cbn [obj_get].
  rewrite js_eqb_ne; [done|]. intros ->. by rewrite js_eqb_refl in E.
Qed.

Lemma obj_get_delete_ne k j o : k <> j -> obj_get k (obj_delete j o) = obj_get k o.
Proof.
  intros Hne. induction o as [|[i w] o IH]; [done|]. cbn [obj_delete List.filter fst].
  destruct (i === j) eqn:E; cbn [negb obj_get]; [|by rewrite <-IH].
  apply (proj1 (js_eqb_true _ _)) in E. subst i. rewrite js_eqb_ne by done. exact IH.
Qed.

Lemma obj_has_true k o : obj_has k o = true <-> k ∈ o.*1.
Proof.
  unfold obj_has. induction o as [|[j w] o IH]; cbn [obj_get fmap list_fmap fst]; [set_solver|].
  destruct (k === j) eqn:E.
  - apply (proj1 (js_eqb_true _ _)) in E. set_solver.
  - apply (proj1 (js_eqb_false _ _)) in E. rewrite IH. set_solver.
Qed.

Lemma obj_has_false k o : obj_has k o = false <-> k ∉ o.*1.
Proof. rewrite <-obj_has_true. destruct (obj_has k o); naive_solver. Qed.

(** *** Enumeration order *)

(** [j] may come before [k]: different keys, and an index only after smaller
    indices. *)
Definition key_before j k : Prop :=
  j <> k /\ (is_index k = true -> is_index j = true /\ (digits_val j < digits_val k)%N).

Definition ordered o : Prop := StronglySorted key_before o.*1.

Lemma ordered_nil : ordered [].
Proof. constructor. Qed.

Lemma obj_add_last k v o : Forall (fun j => key_before j k) o.*1 -> obj_add k v o = o ++ [(k, v)].
Proof.
  induction o as [|[j w] o IH]; [done|]. cbn [fmap list_fmap fst]. intros [Hj H]%Forall_cons. cbn [obj_add app].
  destruct Hj as [_ Hj]. destruct (is_index k); cbn [andb]; [|by rewrite IH].
  destruct (Hj eq_refl) as [-> Hlt]. cbn [negb orb]. rewrite (proj2 (N.ltb_ge _ _)) by lia. by rewrite IH.
Qed.

(** An ordered object is what assigning its entries in order builds. *)
Lemma ordered_wf o : ordered o -> obj_wf o.
Proof.
  unfold obj_wf. intros H.
  assert (forall acc, StronglySorted key_before (acc ++ o).*1 -> obj_assign acc o = acc ++ o) as Hgen;
    [|by apply (Hgen [])].
  clear H. induction o as [|[k v] o IH]; intros acc H; [by rewrite app_nil_r|].
  cbn [obj_assign foldl fst snd]. fold (obj_assign (V := V)).
  assert (Forall (fun j => key_before j k) acc.*1) as Hk.
  { rewrite fmap_app in H. clear IH. induction (acc.*1) as [|j l IHl]; constructor; inversion H as [|? ? Hs Hf]; subst.
    - apply Forall_app in Hf as [_ Hf]. by apply Forall_cons in Hf as [? _].
    - by apply IHl. }
  unfold obj_set. rewrite (proj2 (obj_has_false k acc)).
  2:{ intros Hin. rewrite Forall_forall in Hk. by destruct (Hk k Hin). }
  rewrite obj_add_last by done. change (foldl _ (acc ++ [(k, v)]) o) with (obj_assign (acc ++ [(k, v)]) o).
  rewrite IH; rewrite <-app_assoc; done.
Qed.

Lemma obj_replace_keys k v o : (obj_replace k v o).*1 = o.*1.
Proof. induction o as [|[j w] o IH]; [done|]. cbn [obj_replace]. case_match; cbn [fmap list_fmap fst]; by rewrite ?IH. Qed.

(** Setting a key that is no index keeps the order. *)
Lemma ordered_set k v o : is_index k = false -> ordered o -> ordered (obj_set k v o).
Proof.
  intros Hk Ho. unfold obj_set. destruct (obj_has k o) eqn:E; [unfold ordered; by rewrite obj_replace_keys|].
  apply obj_has_false in E. assert (Forall (fun j => key_before j k) o.*1) as Hall.
  { apply Forall_forall. intros j Hj. split; [intros ->; done|]. by rewrite Hk. }
  rewrite obj_add_last by done. unfold ordered. rewrite fmap_app. apply sorted_app; [done|repeat constructor|].
  intros a b Ha Hb. cbn in Hb. apply list_elem_of_singleton in Hb. subst b. rewrite Forall_forall in Hall. by apply Hall.
Qed.

Lemma index_val_inj j k : is_index j = true -> is_index k = true -> digits_val j = digits_val k -> j = k.
Proof.
  unfold is_index. rewrite !andb_true_iff. intros [[_ Hj] _] [[_ Hk] _] E.
  rewrite js_eqb_true in Hj. rewrite js_eqb_true in Hk. congruence.
Qed.

(** So does setting any key. *)
Lemma ordered_add k v o : k ∉ o.*1 -> ordered o -> ordered (obj_add k v o).
Proof.
  unfold ordered. induction o as [|[j w] o IH]; intros Hk Ho; [repeat constructor|].
  cbn [fmap list_fmap fst] in Hk, Ho. apply not_elem_of_cons in Hk as [Hkj Hk]. inversion Ho as [|? ? Hs Hf]; subst.
  rewrite Forall_forall in Hf. cbn [obj_add].
  destruct (is_index k && (negb (is_index j) || (digits_val k <? digits_val j)%N)) eqn:E; cbn [fmap list_fmap fst].
  - apply andb_prop in E as [Ei E]. constructor; [by constructor; [|apply Forall_forall]|]. constructor.
    + split; [done|]. intros Hj. rewrite Hj in E. cbn [negb orb] in E. split; [done|by apply N.ltb_lt].
    + apply Forall_forall. intros i Hi. split; [by intros ->|]. intros Hidx. destruct (Hf i Hi) as [_ Hb].
      destruct (Hb Hidx) as [Hj Hlt]. rewrite Hj in E. cbn [negb orb] in E. apply N.ltb_lt in E. split; [done|lia].
  - constructor; [by apply IH|]. apply Forall_forall. intros i Hi.
    assert (i = k \/ i ∈ o.*1) as [->|Hi'].
    { clear -Hi. induction o as [|[a b] o IHo]; cbn [obj_add] in Hi; [cbn in Hi; left; by apply list_elem_of_singleton in Hi|].
      case_match; cbn [fmap list_fmap fst] in *; set_solver. }
    + split; [done|]. intros Hik. rewrite Hik in E. cbn [andb] in E. apply orb_false_iff in E as [Hij E].
      apply negb_false_iff in Hij. split; [done|]. apply N.ltb_ge in E.
      assert (digits_val j <> digits_val k); [|lia]. intros Ev. apply Hkj. symmetry. by apply index_val_inj.
    + by apply Hf.
Qed.

Lemma ordered_set_any k v o : ordered o -> ordered (obj_set k v o).
Proof.
  intros Ho. unfold obj_set. destruct (obj_has k o) eqn:E; [unfold ordered; by rewrite obj_replace_keys|].
  apply ordered_add; [by apply obj_has_false|done].
Qed.

Lemma ordered_delete k o : ordered o -> ordered (obj_delete k o).
Proof.
  unfold ordered. induction o as [|[j w] o IH]; [done|]. cbn [fmap list_fmap fst]. intros H.
  inversion H as [|? ? Hs Hf]; subst. cbn [obj_delete List.filter fst].
  case_match; [|by apply IH]. cbn [fmap list_fmap fst]. constructor; [by apply IH|].
  apply Forall_forall. intros i Hi. rewrite Forall_forall in Hf. apply Hf.
  apply list_elem_of_fmap in Hi as (p & -> & Hp). apply list_elem_of_fmap. exists p. split; [done|].
  by apply elem_of_lfilter in Hp as [? _].
Qed.

Lemma elem_of_set p k v o : p ∈ obj_set k v o -> p = (k, v) \/ p ∈ o.
Proof.
  unfold obj_set. case_match.
  - clear. induction o as [|[j w] o IH]; cbn [obj_replace]; [set_solver|].
    destruct (k === j) eqn:E; [apply (proj1 (js_eqb_true _ _)) in E; subst|]; set_solver.
  - clear. induction o as [|[j w] o IH]; cbn [obj_add]; [set_solver|]. case_match; set_solver.
Qed.

Lemma Forall_set (P : jstr * V -> Prop) k v o : P (k, v) -> Forall P o -> Forall P (obj_set k v o).
Proof.
  intros Hp Ho. apply Forall_forall. intros p [->|H]%elem_of_set; [done|]. rewrite Forall_forall in Ho. by apply Ho.
Qed.

Lemma Forall_delete (P : jstr * V -> Prop) k o : Forall P o -> Forall P (obj_delete k o).
Proof.
  intros Ho. apply Forall_forall. intros p [H _]%elem_of_lfilter. rewrite Forall_forall in Ho. by apply Ho.
Qed.
End objects.
