(* ===== verification/JsonRoundtrip.v ===== *)
(** * [JSON.parse] reads what [JSON.stringify] writes *)
From S2P Require Import Prelude Numbers Json.

(** ** Strings *)

Definition utf16 (s : jstr) : Prop := Forall (fun c => (c < 65536)%N) s.

Lemma hex_digit_val d : (d < 16)%N -> hex_val (hex_digit d) = Some d.
Proof.
  intros H. unfold hex_digit. destruct (N.ltb_spec d 10).
  - unfold hex_val, is_digit. rewrite !(proj2 (N.leb_le _ _)) by lia. cbn [andb]. f_equal. lia.
  - unfold hex_val, is_digit. rewrite (proj2 (N.leb_gt (87 + d) 57)) by lia. rewrite andb_false_r.
    rewrite !(proj2 (N.leb_le _ _)) by lia. cbn [andb]. f_equal. lia.
Qed.

Lemma read_u_escape c t : (c < 65536)%N -> read_string (u_escape c ++ t) =
  match read_string t with Some (w, r) => Some (c :: w, r) | None => None end.
Proof.
  intros H. unfold u_escape. change (js "\u") with [92; 117]%N.
  cbn [app]. cbn [read_string N.eqb Pos.eqb]. unfold hex4.
  rewrite !hex_digit_val by (apply N.mod_lt; lia).
  replace (4096 * (c / 4096 mod 16) + 256 * (c / 256 mod 16) + 16 * (c / 16 mod 16) + c mod 16)%N with c; [done|].
  assert (c / 256 = c / 16 / 16 /\ c / 4096 = c / 16 / 16 / 16)%N as [-> ->]
    by (rewrite !N.Div0.div_div; done).
  pose proof (N.div_mod c 16). pose proof (N.div_mod (c / 16) 16). pose proof (N.div_mod (c / 16 / 16) 16).
  assert (c / 16 / 16 / 16 < 16)%N by (rewrite !N.Div0.div_div; apply N.Div0.div_lt_upper_bound; lia).
  rewrite (N.mod_small (c / 16 / 16 / 16) 16) by done. lia.
Qed.

Lemma read_plain c t :
  c <> 34%N -> c <> 92%N -> (32 <= c)%N -> read_string (c :: t) =
  match read_string t with Some (w, r) => Some (c :: w, r) | None => None end.
Proof.
  intros H1 H2 H3. cbn [read_string]. rewrite (proj2 (N.eqb_neq _ _) H1), (proj2 (N.eqb_neq _ _) H2).
  by rewrite (proj2 (N.ltb_ge _ _)).
Qed.

Lemma read_quote_unit c t :
  (c < 65536)%N -> read_string (quote_unit c ++ t) =
  match read_string t with Some (w, r) => Some (c :: w, r) | None => None end.
Proof.
  intros H. unfold quote_unit.
  repeat match goal with
    | |- context [(c =? ?b)%N] => destruct (N.eqb_spec c b); [subst; reflexivity|]
    end.
  destruct (N.ltb_spec c 32); [by apply read_u_escape|]. by apply read_plain.
Qed.

Lemma surrogate_plain c : is_lead c = true \/ is_trail c = true -> c <> 34%N /\ c <> 92%N /\ (32 <= c)%N.
Proof.
  unfold is_lead, is_trail. rewrite !andb_true_iff, !N.leb_le. lia.
Qed.

Lemma read_quote_body s t : utf16 s -> read_string (quote_body s ++ 34%N :: t) = Some (s, t).
Proof.
  remember (length s) as n eqn:Hn. revert s Hn.
  induction n as [n IH] using lt_wf_ind. intros [|c s] -> Hs; [done|].
  apply Forall_cons in Hs as [Hc Hs]. cbn [quote_body].
  destruct (is_lead c) eqn:El.
  - destruct s as [|d s].
    { rewrite read_u_escape by done. done. }
    apply Forall_cons in Hs as [Hd Hs]. destruct (is_trail d) eqn:Et.
    + cbn [app]. destruct (surrogate_plain c) as (? & ? & ?); [by left|].
      destruct (surrogate_plain d) as (? & ? & ?); [by right|].
      rewrite !read_plain by done. rewrite (IH (length s)); [done|simpl; lia|done|done].
    + rewrite <-app_assoc, read_u_escape by done.
      rewrite (IH (length (d :: s))); [done|simpl; lia|done|by constructor].
  - destruct (is_trail c); rewrite <-app_assoc.
    + rewrite read_u_escape by done. rewrite (IH (length s)); [done|simpl; lia|done|done].
    + rewrite read_quote_unit by done. rewrite (IH (length s)); [done|simpl; lia|done|done].
Qed.

(** ** Values *)

(** What may follow a value inside a text. *)
Definition json_stop (t : jstr) : Prop :=
  match t with [] => True | c :: _ => c = 44%N \/ c = 93%N \/ c = 125%N \/ c = 10%N end.

(** A number whose printed form reads back. *)
Definition num_ok (x : number) : Prop :=
  is_finite x = true /\ forall t, json_stop t -> read_number (num_to_str x ++ t) = Some (x, t).

Fixpoint json_ok (v : json) : Prop :=
  match v with
  | JNull | JBool _ => True
  | JNum x => num_ok x
  | JStr s => utf16 s
  | JArr l => (fix all l := match l with [] => True | w :: l' => json_ok w /\ all l' end) l
  | JObj o =>
      obj_wf o /\
      (fix all o := match o with [] => True | p :: o' => (utf16 p.1 /\ json_ok p.2) /\ all o' end) o
  end.

Lemma json_ok_arr l : json_ok (JArr l) <-> Forall json_ok l.
Proof. induction l as [|w l IH]; [done|]. rewrite Forall_cons, <-IH. done. Qed.

Lemma json_ok_obj o : json_ok (JObj o) <-> obj_wf o /\ Forall (fun p => utf16 p.1 /\ json_ok p.2) o.
Proof.
  cbn [json_ok]. apply and_iff_compat_l. induction o as [|p o IH]; [done|].
  rewrite Forall_cons. by apply and_iff_compat_l.
Qed.

Section json_induction.
Context (P : json -> Prop).
Context (Hnull : P JNull) (Hbool : forall b, P (JBool b)) (Hnum : forall x, P (JNum x)) (Hstr : forall s, P (JStr s)).
Context (Harr : forall l, Forall P l -> P (JArr l)).
Context (Hobj : forall o, Forall (fun p : jstr * json => P p.2) o -> P (JObj o)).

Fixpoint json_induction (v : json) : P v :=
  match v with
  | JNull => Hnull
  | JBool b => Hbool b
  | JNum x => Hnum x
  | JStr s => Hstr s
  | JArr l => Harr l ((fix all l : Forall P l := match l with
      | [] => List.Forall_nil _ | w :: l' => List.Forall_cons _ w l' (json_induction w) (all l') end) l)
  | JObj o => Hobj o ((fix all o : Forall (fun p => P p.2) o := match o with
      | [] => List.Forall_nil _ | p :: o' => List.Forall_cons _ p o' (json_induction p.2) (all o') end) o)
  end.
End json_induction.

(** ** The reader, given enough fuel *)

Definition reads (v : json) : Prop :=
  forall n t, length (JSON_stringify v) <= n -> json_stop t -> read_value n (JSON_stringify v ++ t) = Some (v, t).

Lemma skip_ws_head c t : json_ws c = false -> skip_ws (c :: t) = c :: t.
Proof. intros H. cbn [skip_ws]. by rewrite H. Qed.

Lemma stringify_nonempty v : json_ok v -> exists c s, JSON_stringify v = c :: s /\ json_ws c = false /\ c <> 93%N /\ c <> 125%N.
Proof.
  destruct v as [|[]|x|s|l|o]; intros H; try (by eexists _, _); cbn [JSON_stringify].
  - destruct H as [Hf Hr]. rewrite Hf. specialize (Hr [] I). rewrite app_nil_r in Hr.
    destruct (num_to_str x) as [|c s]; [done|]. exists c, s. split; [done|].
    unfold read_number in Hr. destruct (N.eqb_spec c 45) as [->|]; [done|].
    unfold read_unsigned in Hr. cbn [span_digits] in Hr. destruct (is_digit c) eqn:E; [|done].
    unfold is_digit, json_ws in *. bools.
    repeat match goal with H : (_ <=? _)%N = true |- _ => apply N.leb_le in H end.
    rewrite !(proj2 (N.eqb_neq _ _)) by lia. lia.
Qed.

Lemma read_num x : num_ok x -> reads (JNum x).
Proof.
  intros Hok. pose proof Hok as [Hf Hr]. intros n t Hn Ht. destruct (stringify_nonempty (JNum x) Hok) as (c & s & E & Hw & _).
  cbn [JSON_stringify] in *. rewrite Hf in *. destruct n as [|n]; [rewrite E in Hn; simpl in Hn; lia|].
  specialize (Hr t Ht). rewrite E in *. cbn [read_value app]. rewrite skip_ws_head by done.
  cbn [app] in Hr. unfold read_number in Hr |- *. destruct (N.eqb_spec c 45) as [->|Hc]; [cbn; by rewrite Hr|].
  assert (is_digit c = true) as Hd.
  { unfold read_unsigned in Hr. cbn [span_digits] in Hr. by destruct (is_digit c). }
  unfold is_digit in Hd. bools. repeat match goal with H : (_ <=? _)%N = true |- _ => apply N.leb_le in H end.
  rewrite !(proj2 (N.eqb_neq _ _)) by lia. by rewrite Hr.
Qed.

Lemma read_str s : utf16 s -> reads (JStr s).
Proof.
  intros Hs n t Hn Ht. cbn [JSON_stringify] in *. unfold quote in *. destruct n as [|n]; [simpl in Hn; lia|].
  cbn [app dq read_value]. rewrite <-!app_assoc. cbn [app dq]. rewrite skip_ws_head by done.
  cbn [N.eqb Pos.eqb]. by rewrite read_quote_body.
Qed.

Lemma read_tail l n t :
  Forall reads l -> length (concat (List.map (fun w => js "," ++ JSON_stringify w) l)) < n -> json_stop t ->
  read_elems n (concat (List.map (fun w => js "," ++ JSON_stringify w) l) ++ 93%N :: t) = Some (l, t).
Proof.
  intros Hl. revert n. induction Hl as [|w l Hw Hl IH]; intros n Hn Ht; (destruct n as [|n]; [lia|]); [done|].
  cbn [List.map concat] in *. rewrite <-!app_assoc. change (js ",") with [44%N] in *. cbn [app] in *.
  cbn [read_elems]. rewrite skip_ws_head by done. cbn [N.eqb Pos.eqb]. cbn [length] in Hn. rewrite length_app in Hn.
  rewrite Hw; [|lia|]. 2:{ destruct l; [simpl; tauto|by left]. }
  rewrite IH by (done || lia). done.
Qed.

Lemma join_concat {A} (f : A -> jstr) x l :
  join (js ",") (List.map f (x :: l)) = f x ++ concat (List.map (fun w => js "," ++ f w) l).
Proof.
  revert x. induction l as [|y l IH]; intros x; [by rewrite app_nil_r|].
  change (List.map f (x :: y :: l)) with (f x :: List.map f (y :: l)). rewrite join_cons by done.
  rewrite IH. cbn [List.map concat]. by rewrite <-app_assoc.
Qed.

Lemma read_arr l : Forall json_ok l -> Forall reads l -> reads (JArr l).
Proof.
  intros Hok Hl n t Hn Ht. cbn [JSON_stringify] in *. destruct n as [|n]; [simpl in Hn; lia|].
  destruct Hl as [|w l Hw Hl]; [done|]. apply Forall_cons in Hok as [Hok _].
  rewrite join_concat in *. rewrite <-!app_assoc. change (js "[") with [91%N] in *. cbn [app] in *.
  cbn [read_value]. rewrite skip_ws_head by done. cbn [N.eqb Pos.eqb].
  cbn [length] in Hn. rewrite !length_app in Hn. change (length (js "]")) with 1 in Hn.
  destruct (stringify_nonempty w Hok) as (c & s & E & Hws & Hc & _). rewrite E at 1. cbn [app].
  rewrite skip_ws_head by done. rewrite (proj2 (N.eqb_neq _ _) Hc).
  rewrite Hw; [|lia|]. 2:{ destruct l; [simpl; tauto|by left]. }
  change (js "]" ++ t) with (93%N :: t). rewrite read_tail by (done || lia). done.
Qed.

(** *** Objects *)

Definition member_text (p : jstr * json) : jstr := quote p.1 ++ js ":" ++ JSON_stringify p.2.

Lemma read_member_text p n t :
  utf16 p.1 -> reads p.2 -> length (member_text p) <= n -> json_stop t ->
  read_member n (member_text p ++ t) = Some (p, t).
Proof.
  intros Hk Hv Hn Ht. unfold member_text, quote in *. destruct n as [|n]; [simpl in Hn; lia|].
  rewrite <-!app_assoc. cbn [app dq read_member]. rewrite skip_ws_head by done. cbn [N.eqb Pos.eqb].
  rewrite read_quote_body by done. change (js ":") with [58%N] in *. cbn [app]. rewrite skip_ws_head by done.
  cbn [N.eqb Pos.eqb]. simpl in Hn. rewrite !length_app in Hn. simpl in Hn.
  rewrite Hv by (done || lia). by destruct p.
Qed.

Lemma read_members_text o n t :
  Forall (fun p => utf16 p.1 /\ reads p.2) o ->
  length (concat (List.map (fun p => js "," ++ member_text p) o)) < n -> json_stop t ->
  read_members n (concat (List.map (fun p => js "," ++ member_text p) o) ++ 125%N :: t) = Some (o, t).
Proof.
  intros Ho. revert n. induction Ho as [|p o [Hk Hv] Ho IH]; intros n Hn Ht; (destruct n as [|n]; [lia|]); [done|].
  cbn [List.map concat] in *. rewrite <-!app_assoc. change (js ",") with [44%N] in *. cbn [app] in *.
  cbn [read_members]. rewrite skip_ws_head by done. cbn [N.eqb Pos.eqb]. cbn [length] in Hn. rewrite length_app in Hn.
  rewrite read_member_text; [|done|done|lia|]. 2:{ destruct o; [simpl; tauto|by left]. }
  rewrite IH by (done || lia). done.
Qed.

Lemma read_obj o : obj_wf o -> Forall (fun p => utf16 p.1 /\ reads p.2) o -> reads (JObj o).
Proof.
  intros Hwf Ho n t Hn Ht. cbn [JSON_stringify] in *. fold member_text in *. destruct n as [|n]; [simpl in Hn; lia|].
  destruct Ho as [|p o [Hk Hv] Ho]; [done|].
  rewrite join_concat in *. rewrite <-!app_assoc. change (js "{") with [123%N] in *. cbn [app] in *.
  cbn [read_value]. rewrite skip_ws_head by done. cbn [N.eqb Pos.eqb].
  cbn [length] in Hn. rewrite !length_app in Hn. change (length (js "}")) with 1 in Hn.
  change (skip_ws (member_text p ++ ?u)) with (member_text p ++ u).
  match goal with |- match member_text p ++ ?u with _ => _ end = _ =>
    change (match member_text p ++ u with [] => None | d :: s2 => @?f d s2 end) with (f 34%N (quote_body p.1 ++ dq ++ js ":" ++ JSON_stringify p.2 ++ u)) end.
  cbn [N.eqb Pos.eqb].
  rewrite read_member_text; [|done|done|lia|]. 2:{ destruct o; [simpl; tauto|by left]. }
  change (js "}" ++ t) with (125%N :: t). rewrite read_members_text by (done || lia). by rewrite Hwf.
Qed.

Lemma stringify_reads v : json_ok v -> reads v.
Proof.
  induction v as [|b|x|s|l IH|o IH] using json_induction.
  - intros _ n t Hn Ht. destruct n; [simpl in Hn; lia|]. done.
  - intros _ n t Hn Ht. destruct n; [destruct b; simpl in Hn; lia|]. by destruct b.
  - apply read_num.
  - apply read_str.
  - rewrite json_ok_arr. intros Hok. apply read_arr; [done|].
    rewrite Forall_forall in *. auto.
  - rewrite json_ok_obj. intros [Hwf Hok]. apply read_obj; [done|].
    rewrite Forall_forall in *. intros p Hp. destruct (Hok p Hp). split; [done|]. by apply IH.
Qed.

(** Parsing what was written gives the value back. *)
Lemma parse_stringify v : json_ok v -> JSON_parse (JSON_stringify v) = Ret v.
Proof.
  intros H. unfold JSON_parse. pose proof (stringify_reads v H (S (length (JSON_stringify v))) []) as Hr.
  rewrite app_nil_r in Hr. by rewrite Hr by (done || lia).
Qed.

#[export] Instance json_format : TextFormat json_ok JSON_stringify JSON_parse.
Proof. exact parse_stringify. Qed.

(** ** Building objects and strings that can be written *)

Definition obj_ok (o : list (jstr * json)) : Prop :=
  ordered o /\ Forall (fun p => utf16 p.1 /\ json_ok p.2) o.

(** Names that are no indices, each once: the keys of the objects the code builds. *)
Definition plain_keys (ks : list jstr) : bool :=
  forallb (fun k => negb (is_index k)) ks && bool_decide (NoDup ks).

Lemma plain_ordered {V} (o : list (jstr * V)) : plain_keys o.*1 = true -> ordered o.
Proof.
  unfold plain_keys, ordered. intros [Hk Hn]%andb_true_iff. apply bool_decide_eq_true in Hn.
  induction (o.*1) as [|k ks IH]; [constructor|]. apply NoDup_cons in Hn as [Hin Hn].
  cbn [forallb] in Hk. apply andb_true_iff in Hk as [_ Hk]. constructor; [by apply IH|].
  apply Forall_forall. intros j Hj. split; [by intros ->|]. rewrite forallb_forall in Hk.
  intros E. specialize (Hk j). rewrite E in Hk. by discriminate Hk; apply list_elem_of_In.
Qed.

Lemma obj_ok_json o : obj_ok o -> json_ok (JObj o).
Proof. intros [H1 H2]. apply json_ok_obj. split; [by apply ordered_wf|done]. Qed.

Lemma obj_ok_set k v o : is_index k = false -> utf16 k -> json_ok v -> obj_ok o -> obj_ok (obj_set k v o).
Proof. intros Hk Hu Hv [H1 H2]. split; [by apply ordered_set|by apply Forall_set]. Qed.

Lemma obj_ok_set_any k v o : utf16 k -> json_ok v -> obj_ok o -> obj_ok (obj_set k v o).
Proof. intros Hu Hv [H1 H2]. split; [by apply ordered_set_any|by apply Forall_set]. Qed.

Lemma obj_ok_delete k o : obj_ok o -> obj_ok (obj_delete k o).
Proof. intros [H1 H2]. split; [by apply ordered_delete|by apply Forall_delete]. Qed.

Definition utf16b (s : jstr) : bool := forallb (fun c => c <? 65536)%N s.

Lemma utf16b_spec s : utf16b s = true -> utf16 s.
Proof. unfold utf16b. rewrite forallb_forall. intros H. apply Forall_forall. intros c Hc%list_elem_of_In. by apply N.ltb_lt, H. Qed.

Lemma num_ok_zero : num_ok zero.
Proof. split; [done|]. intros [|c t]; [done|]. by intros [->|[->|[->| ->]]]. Qed.

Lemma trim_utf16 s : utf16 s -> utf16 (trim s).
Proof.
  unfold utf16. rewrite !Forall_forall. intros H c Hc. by apply H, trim_incl.
Qed.

Lemma split_utf16 c s : utf16 s -> Forall utf16 (split_char c s).
Proof.
  intros H. induction s as [|d s IH]; cbn [split_char]; [by repeat constructor|].
  apply Forall_cons in H as [Hd H]. specialize (IH H). case_match; [by constructor; [constructor|]|].
  destruct (split_char c s) as [|w ws]; [by repeat constructor|].
  apply Forall_cons in IH as [Hw Hws]. constructor; [by constructor|done].
Qed.

(** Two different literal keys. *)
Ltac keys_ne := intros He; vm_compute in He; discriminate He.

(** Written text has no white space around it. *)
Lemma stringify_trimmed v : trimmed (JSON_stringify v).
Proof.
  destruct v as [|[]|x|s|l|o]; try done; cbn [JSON_stringify].
  - destruct (is_finite x); [apply solid_trimmed, num_to_str_solid|done].
  - by apply (trimmed_ends 34%N (quote_body s) 34%N).
  - by apply (trimmed_ends 91%N _ 93%N).
  - by apply (trimmed_ends 123%N _ 125%N).
Qed.

(** A given number prints and reads back. *)
Ltac num_ok_eval :=
  split; [vm_compute; reflexivity|];
  intros [|? ?]; [vm_compute; reflexivity|]; intros [->|[->|[->| ->]]]; vm_compute; reflexivity.

(** *** Integers *)

Lemma span_digits_stop ds t :
  forallb is_digit ds = true -> json_stop t -> span_digits (ds ++ t) = (ds, t).
Proof.
  intros Hd Ht. induction ds as [|c ds IH]; cbn [app span_digits].
  - destruct t as [|c t]; [done|]. cbn [span_digits]. by destruct Ht as [->|[->|[->| ->]]].
  - cbn [forallb] in Hd. apply andb_true_iff in Hd as [-> Hd]. by rewrite IH.
Qed.

(** A number printed as the digits of its value. *)
Lemma num_ok_digits x n :
  is_finite x = true -> num_to_str x = dec_digits n -> num_of_dec false n 0 = x -> num_ok x.
Proof.
  intros Hf Hs Hx. split; [done|]. intros t Ht. rewrite Hs.
  destruct (dec_digits_spec n) as (c & ds & E & Hd & Hv & Hz). rewrite E.
  unfold read_number. cbn [app]. assert (c <> 45%N) as Hc.
  { intros ->. cbn [forallb] in Hd. done. }
  rewrite (proj2 (N.eqb_neq _ _) Hc). unfold read_unsigned. rewrite app_comm_cons, span_digits_stop by done.
  assert ((c =? 48)%N && match ds with [] => false | _ => true end = false) as ->.
  { destruct (N.eqb_spec c 48) as [E0|]; [|done]. by destruct (Hz E0) as [_ ->]. }
  assert (read_frac t = Some ([], t)) as -> by (destruct t as [|d t]; [done|]; by destruct Ht as [->|[->|[->| ->]]]).
  assert (read_exp t = (0%Z, t) /\ exp_dangling t = false) as [-> ->]
    by (destruct t as [|d t]; [done|]; by destruct Ht as [->|[->|[->| ->]]]).
  rewrite app_nil_r, Hv. change (0 - Z.of_nat (length []))%Z with 0%Z. by rewrite Hx.
Qed.
