(* ===== verification/JsonPretty.v ===== *)
(** * [JSON.stringify(v, null, 2)]

    The indented text of the dialogs' editors, and that [JSON.parse] reads it. *)
From S2P Require Import Prelude Numbers Json JsonRoundtrip.

Definition newline : jstr := [10%N].

(** SerializeJSONProperty with a gap of two spaces; [ind] is the current
    indentation. *)
Fixpoint pretty (ind : jstr) (v : json) : jstr :=
  match v with
  | JArr [] => js "[]"
  | JArr l =>
      let ind' := ind ++ js "  " in
      js "[" ++ newline ++ ind' ++ join (js "," ++ newline ++ ind') (List.map (pretty ind') l)
        ++ newline ++ ind ++ js "]"
  | JObj [] => js "{}"
  | JObj o =>
      let ind' := ind ++ js "  " in
      js "{" ++ newline ++ ind'
        ++ join (js "," ++ newline ++ ind') (List.map (fun p => quote p.1 ++ js ": " ++ pretty ind' p.2) o)
        ++ newline ++ ind ++ js "}"
  | _ => JSON_stringify v
  end.

Definition JSON_pretty (v : json) : jstr := pretty [] v.

(** ** White space is skipped *)

Definition all_ws (w : jstr) : Prop := Forall (fun c => json_ws c = true) w.

Lemma skip_ws_app w s : all_ws w -> skip_ws (w ++ s) = skip_ws s.
Proof. induction 1 as [|c w Hc _ IH]; [done|]. cbn [app skip_ws]. by rewrite Hc. Qed.

Lemma read_value_ws n w s : all_ws w -> read_value n (w ++ s) = read_value n s.
Proof. intros H. destruct n; [done|]. cbn [read_value]. by rewrite skip_ws_app. Qed.

Lemma read_elems_ws n w s : all_ws w -> read_elems n (w ++ s) = read_elems n s.
Proof. intros H. destruct n; [done|]. cbn [read_elems]. by rewrite skip_ws_app. Qed.

Lemma read_member_ws n w s : all_ws w -> read_member n (w ++ s) = read_member n s.
Proof. intros H. destruct n; [done|]. cbn [read_member]. by rewrite skip_ws_app. Qed.

Lemma read_members_ws n w s : all_ws w -> read_members n (w ++ s) = read_members n s.
Proof. intros H. destruct n; [done|]. cbn [read_members]. by rewrite skip_ws_app. Qed.

Lemma blank_app u v : all_ws u -> all_ws v -> all_ws (u ++ v).
Proof. apply Forall_app_2. Qed.

Lemma blank_two : all_ws (js "  ").
Proof. by repeat constructor. Qed.

Lemma blank_newline : all_ws newline.
Proof. by repeat constructor. Qed.

Create HintDb ws.
#[export] Hint Resolve blank_app blank_two blank_newline : ws.

(** ** The reader on the indented text *)

Definition reads_pretty (v : json) : Prop :=
  forall ind n t, all_ws ind -> length (pretty ind v) <= n -> json_stop t ->
  read_value n (pretty ind v ++ t) = Some (v, t).

Lemma pretty_head ind v : json_ok v ->
  exists c s, pretty ind v = c :: s /\ json_ws c = false /\ c <> 93%N /\ c <> 125%N.
Proof.
  intros H. destruct v as [| | | |[|w l]|[|p o]]; [by apply stringify_nonempty..|by eexists _, _|by eexists _, _|by eexists _, _|by eexists _, _].
Qed.

Lemma join_sep {A} (f : A -> jstr) sep x l :
  join sep (List.map f (x :: l)) = f x ++ concat (List.map (fun w => sep ++ f w) l).
Proof.
  revert x. induction l as [|y l IH]; intros x; [by rewrite app_nil_r|].
  change (List.map f (x :: y :: l)) with (f x :: List.map f (y :: l)). rewrite join_cons by done.
  rewrite IH. cbn [List.map concat]. by rewrite <-app_assoc.
Qed.

(** The text between two items, and what may stand after an item of a list:
    the next separator, or the new line before the bracket. *)
Definition item_sep (ind : jstr) : jstr := js "," ++ newline ++ ind.

Lemma stop_next {A} (f : A -> jstr) ind (l : list A) t :
  json_stop (concat (List.map (fun w => item_sep ind ++ f w) l) ++ newline ++ t).
Proof. destruct l; cbn; tauto. Qed.

Section indented.
Context (ind close : jstr) (Hind : all_ws ind) (Hclose : all_ws close).

Lemma pretty_tail l n t :
  Forall reads_pretty l ->
  length (concat (List.map (fun w => item_sep ind ++ pretty ind w) l)) < n ->
  read_elems n (concat (List.map (fun w => item_sep ind ++ pretty ind w) l) ++ newline ++ close ++ 93%N :: t) = Some (l, t).
Proof using Hind Hclose.
  intros Hl. revert n. induction Hl as [|w l Hw Hl IH]; intros n Hn; (destruct n as [|n]; [lia|]).
  - cbn [List.map concat app]. rewrite read_elems_ws by auto with ws. by rewrite read_elems_ws by auto with ws.
  - cbn [List.map concat] in *. unfold item_sep in *. rewrite <-!app_assoc. change (js ",") with [44%N] in *.
    cbn [app] in *. cbn [read_elems]. rewrite skip_ws_head by done. cbn [N.eqb Pos.eqb]. fold newline in *.
    cbn [length] in Hn. rewrite !length_app in Hn.
    change (10%N :: ?u) with (newline ++ u). rewrite !read_value_ws by auto with ws.
    rewrite Hw; [|done|lia|apply (stop_next (pretty ind))]. rewrite IH by lia. done.
Qed.

Definition pretty_member (p : jstr * json) : jstr := quote p.1 ++ js ": " ++ pretty ind p.2.

Lemma read_pretty_member p n t :
  utf16 p.1 -> reads_pretty p.2 -> length (pretty_member p) <= n -> json_stop t ->
  read_member n (pretty_member p ++ t) = Some (p, t).
Proof using Hind.
  intros Hk Hv Hn Ht. unfold pretty_member, quote in *. destruct n as [|n]; [simpl in Hn; lia|].
  rewrite <-!app_assoc. cbn [app dq read_member]. rewrite skip_ws_head by done. cbn [N.eqb Pos.eqb].
  rewrite read_quote_body by done. change (js ": ") with ([58%N] ++ [32%N]) in *. rewrite <-!app_assoc.
  cbn [app]. rewrite skip_ws_head by done.
  cbn [N.eqb Pos.eqb]. simpl in Hn. rewrite !length_app in Hn. simpl in Hn.
  change (32%N :: ?u) with ([32%N] ++ u). rewrite read_value_ws by (by repeat constructor).
  rewrite Hv by (done || lia). by destruct p.
Qed.

Lemma pretty_members o n t :
  Forall (fun p => utf16 p.1 /\ reads_pretty p.2) o ->
  length (concat (List.map (fun p => item_sep ind ++ pretty_member p) o)) < n ->
  read_members n (concat (List.map (fun p => item_sep ind ++ pretty_member p) o) ++ newline ++ close ++ 125%N :: t) = Some (o, t).
Proof using Hind Hclose.
  intros Ho. revert n. induction Ho as [|p o [Hk Hv] Ho IH]; intros n Hn; (destruct n as [|n]; [lia|]).
  - cbn [List.map concat app]. rewrite read_members_ws by auto with ws. by rewrite read_members_ws by auto with ws.
  - cbn [List.map concat] in *. unfold item_sep in *. rewrite <-!app_assoc. change (js ",") with [44%N] in *.
    cbn [app] in *. cbn [read_members]. rewrite skip_ws_head by done. cbn [N.eqb Pos.eqb]. fold newline in *.
    cbn [length] in Hn. rewrite !length_app in Hn.
    change (10%N :: ?u) with (newline ++ u). rewrite !read_member_ws by auto with ws.
    rewrite read_pretty_member; [|done|done|lia|apply (stop_next pretty_member)]. rewrite IH by lia. done.
Qed.
End indented.

(** The first item of a list: the reader looks past the white space and finds no
    closing bracket. *)
Lemma skip_to_item ind s c s' :
  all_ws ind -> json_ws c = false -> s = c :: s' -> skip_ws (newline ++ ind ++ s) = c :: s'.
Proof. intros Hi Hc ->. rewrite !skip_ws_app by auto with ws. by apply skip_ws_head. Qed.

Lemma pretty_arr l : Forall json_ok l -> Forall reads_pretty l -> reads_pretty (JArr l).
Proof.
  intros Hok Hl ind n t Hi Hn Ht. destruct Hl as [|w l Hw Hl].
  { destruct n; [simpl in Hn; lia|]. done. }
  apply Forall_cons in Hok as [Hok _]. cbn [pretty] in *. set (ind' := ind ++ js "  ") in *.
  assert (all_ws ind') as Hi' by (unfold ind'; auto with ws).
  fold (item_sep ind') in *. rewrite join_sep in *. rewrite <-!app_assoc.
  change (js "[") with [91%N] in *. cbn [app length] in *. rewrite ?length_app in Hn. change (length (js "]")) with 1 in Hn.
  destruct n as [|n]; [simpl in Hn; lia|]. cbn [read_value].
  rewrite skip_ws_head by done. cbn [N.eqb Pos.eqb].
  destruct (pretty_head ind' w Hok) as (c & s & E & Hws & Hc & _).
  change (10%N :: ?u) with (newline ++ u). rewrite (skip_to_item ind' _ c _ Hi' Hws) by (rewrite E; reflexivity).
  rewrite (proj2 (N.eqb_neq _ _) Hc). rewrite !read_value_ws by auto with ws.
  rewrite Hw; [|done|lia|apply (stop_next (pretty ind'))].
  change (js "]" ++ t) with (93%N :: t). rewrite pretty_tail by (done || lia). done.
Qed.

Lemma pretty_obj o : obj_wf o -> Forall (fun p => utf16 p.1 /\ reads_pretty p.2) o -> reads_pretty (JObj o).
Proof.
  intros Hwf Ho ind n t Hi Hn Ht. destruct Ho as [|p o [Hk Hv] Ho].
  { destruct n; [simpl in Hn; lia|]. done. }
  cbn [pretty] in *. set (ind' := ind ++ js "  ") in *.
  assert (all_ws ind') as Hi' by (unfold ind'; auto with ws).
  fold (item_sep ind') in *. fold (pretty_member ind') in *. rewrite join_sep in *. rewrite <-!app_assoc.
  change (js "{") with [123%N] in *. cbn [app length] in *. rewrite ?length_app in Hn. change (length (js "}")) with 1 in Hn.
  destruct n as [|n]; [simpl in Hn; lia|]. cbn [read_value].
  rewrite skip_ws_head by done. cbn [N.eqb Pos.eqb].
  change (10%N :: ?u) with (newline ++ u). rewrite (skip_to_item ind' _ 34%N (quote_body p.1 ++ dq ++ js ": " ++ pretty ind' p.2 ++ concat (List.map (fun q => item_sep ind' ++ pretty_member ind' q) o) ++ newline ++ ind ++ js "}" ++ t) Hi' eq_refl).
  2:{ unfold pretty_member, quote. rewrite <-!app_assoc. reflexivity. }
  cbn [N.eqb Pos.eqb]. rewrite !read_member_ws by auto with ws.
  rewrite read_pretty_member; [|done|done|done|lia|apply (stop_next (pretty_member ind'))].
  change (js "}" ++ t) with (125%N :: t). rewrite pretty_members by (done || lia). by rewrite Hwf.
Qed.

Lemma pretty_reads v : json_ok v -> reads_pretty v.
Proof.
  induction v as [|b|x|s|l IH|o IH] using json_induction.
  - intros H ind n t _. apply (stringify_reads JNull H).
  - intros H ind n t _. apply (stringify_reads (JBool b) H).
  - intros H ind n t _. apply (stringify_reads (JNum x) H).
  - intros H ind n t _. apply (stringify_reads (JStr s) H).
  - rewrite json_ok_arr. intros Hok. apply pretty_arr; [done|].
    rewrite Forall_forall in *. auto.
  - rewrite json_ok_obj. intros [Hwf Hok]. apply pretty_obj; [done|].
    rewrite Forall_forall in *. intros p Hp. destruct (Hok p Hp). split; [done|]. by apply IH.
Qed.

(** Parsing the indented text gives the value back. *)
Lemma parse_pretty v : json_ok v -> JSON_parse (JSON_pretty v) = Ret v.
Proof.
  intros H. unfold JSON_parse, JSON_pretty.
  pose proof (pretty_reads v H [] (S (length (pretty [] v))) []) as Hr.
  rewrite app_nil_r in Hr. by rewrite Hr by (repeat constructor || lia).
Qed.

#[export] Instance pretty_format : TextFormat json_ok JSON_pretty JSON_parse.
Proof. exact parse_pretty. Qed.

Lemma pretty_obj_trimmed o : trimmed (JSON_pretty (JObj o)).
Proof.
  unfold JSON_pretty. destruct o as [|p o]; [done|]. cbn [pretty]. rewrite !app_assoc. rewrite <-!app_assoc.
  change (js "{" ++ ?u) with (123%N :: u). rewrite !app_assoc. by apply (trimmed_ends 123%N _ 125%N).
Qed.

Lemma pretty_trimmed v : trimmed (JSON_pretty v).
Proof.
  destruct v as [|b|x|s|l|o]; try apply (stringify_trimmed (JBool b)); try apply (stringify_trimmed (JNum x));
    try apply (stringify_trimmed (JStr s)); [done| |apply pretty_obj_trimmed].
  unfold JSON_pretty. destruct l as [|w l]; [done|]. cbn [pretty]. rewrite !app_assoc. rewrite <-!app_assoc.
  change (js "[" ++ ?u) with (91%N :: u). rewrite !app_assoc. by apply (trimmed_ends 91%N _ 93%N).
Qed.
