(* ===== verification/Encoding.v ===== *)
(** * Base64, UTF-8 and percent-encoding

    The encodings of the browser that the links, the passkeys and the billing logs
    use: [btoa] and [atob] with the forgiving rules of the HTML standard, UTF-8, and
    [encodeURIComponent] and [decodeURIComponent] with their errors; and that each
    decoder inverts its encoder. *)
From S2P Require Import Prelude Regex Numbers Json JsonRoundtrip.

(** ** Base64 *)

Definition b64_char (v : N) : N :=
  (if v <? 26 then 65 + v else if v <? 52 then 71 + v else if v <? 62 then v - 4
   else if v =? 62 then 43 else 47)%N.

Definition b64_val (c : N) : option N :=
  (if (65 <=? c) && (c <=? 90) then Some (c - 65)
   else if (97 <=? c) && (c <=? 122) then Some (c - 71)
   else if (48 <=? c) && (c <=? 57) then Some (c + 4)
   else if c =? 43 then Some 62 else if c =? 47 then Some 63 else None)%N.

(** The six-bit groups of a sequence of bytes; the last one is filled with zeros. *)
Fixpoint sixes (s : list N) : list N :=
  match s with
  | a :: b :: c :: t =>
      (a / 4 :: a mod 4 * 16 + b / 16 :: b mod 16 * 4 + c / 64 :: c mod 64 :: sixes t)%N
  | [a; b] => [a / 4; a mod 4 * 16 + b / 16; b mod 16 * 4]%N
  | [a] => [a / 4; a mod 4 * 16]%N
  | [] => []
  end.

(** The bytes of a sequence of six-bit groups; what is left of the last one is dropped. *)
Fixpoint unsixes (vs : list N) : list N :=
  match vs with
  | v1 :: v2 :: v3 :: v4 :: t =>
      (v1 * 4 + v2 / 16 :: v2 mod 16 * 16 + v3 / 4 :: v3 mod 4 * 64 + v4 :: unsixes t)%N
  | [v1; v2; v3] => [v1 * 4 + v2 / 16; v2 mod 16 * 16 + v3 / 4]%N
  | [v1; v2] => [v1 * 4 + v2 / 16]%N
  | _ => []
  end.

Definition is_byte (c : N) : bool := (c <? 256)%N.

Definition base64 (bytes : list N) : jstr :=
  List.map b64_char (sixes bytes) ++ replicate ((3 - length bytes mod 3) mod 3) 61%N.

(** [btoa] takes the units of a string as bytes. *)
Definition btoa (s : jstr) : outcome jstr :=
  if forallb is_byte s then Ret (base64 s) else Throw.

Definition ascii_ws (c : N) : bool := ((c =? 9) || (c =? 10) || (c =? 12) || (c =? 13) || (c =? 32))%N.

(** At most two padding characters at the end. *)
Definition unpad (s : jstr) : jstr :=
  match rev s with
  | a :: r =>
      if (a =? 61)%N then
        match r with
        | b :: r' => if (b =? 61)%N then rev r' else rev r
        | [] => []
        end
      else s
  | [] => s
  end.

Definition atob (s : jstr) : outcome (list N) :=
  let s := List.filter (fun c => negb (ascii_ws c)) s in
  let s := if (length s mod 4 =? 0)%nat then unpad s else s in
  if (length s mod 4 =? 1)%nat then Throw
  else match mapM b64_val s with Some vs => Ret (unsixes vs) | None => Throw end.

(** ** UTF-8 *)

Definition utf8 (cp : N) : list N :=
  (if cp <? 128 then [cp]
   else if cp <? 2048 then [192 + cp / 64; 128 + cp mod 64]
   else if cp <? 65536 then [224 + cp / 4096; 128 + cp / 64 mod 64; 128 + cp mod 64]
   else [240 + cp / 262144; 128 + cp / 4096 mod 64; 128 + cp / 64 mod 64; 128 + cp mod 64])%N.

(** The code point of two surrogates, and the units of a code point. *)
Definition pair_point (c d : N) : N := (65536 + (c - 55296) * 1024 + (d - 56320))%N.
Definition point_units (cp : N) : jstr :=
  (if cp <? 65536 then [cp] else [55296 + (cp - 65536) / 1024; 56320 + (cp - 65536) mod 1024])%N.

Definition is_surrogate (c : N) : bool := is_lead c || is_trail c.

(** The bytes of a string, with a replacement character for a lone surrogate. *)
Fixpoint utf8_bytes (s : jstr) : list N :=
  match s with
  | [] => []
  | c :: s' =>
      if is_lead c then
        match s' with
        | d :: s'' => if is_trail d then utf8 (pair_point c d) ++ utf8_bytes s''
                      else utf8 65533 ++ utf8_bytes s'
        | [] => utf8 65533
        end
      else (if is_trail c then utf8 65533 else utf8 c) ++ utf8_bytes s'
  end.

(** ** Percent-encoding *)

Definition upper_hex (d : N) : N := (if d <? 10 then 48 + d else 55 + d)%N.
Definition percent (b : N) : jstr := [37%N; upper_hex (b / 16); upper_hex (b mod 16)].

(** Letters, digits and [- _ . ! ~ * ' ( )]. *)
Definition unreserved (c : N) : bool := is_word c || mem c (js "-.!~*'()").

Fixpoint encodeURIComponent (s : jstr) : outcome jstr :=
  match s with
  | [] => Ret []
  | c :: s' =>
      if unreserved c then let! r := encodeURIComponent s' in Ret (c :: r)
      else if is_trail c then Throw
      else if is_lead c then
        match s' with
        | d :: s'' => if is_trail d
                      then let! r := encodeURIComponent s'' in Ret (flat_map percent (utf8 (pair_point c d)) ++ r)
                      else Throw
        | [] => Throw
        end
      else let! r := encodeURIComponent s' in Ret (flat_map percent (utf8 c) ++ r)
  end.

Definition read_percent (s : jstr) : option (N * jstr) :=
  match s with
  | p :: a :: b :: t =>
      if (p =? 37)%N then
        match hex_val a, hex_val b with Some x, Some y => Some ((16 * x + y)%N, t) | _, _ => None end
      else None
  | _ => None
  end.

Definition read_continuation (s : jstr) : option (N * jstr) :=
  match read_percent s with
  | Some (b, t) => if ((128 <=? b) && (b <? 192))%N then Some ((b - 128)%N, t) else None
  | None => None
  end.

(** One percent-encoded code point: no overlong forms, no surrogates. *)
Definition read_point (s : jstr) : option (N * jstr) :=
  match read_percent s with
  | None => None
  | Some (b, t) =>
      if (b <? 128)%N then Some (b, t)
      else if (b <? 192)%N then None
      else if (b <? 224)%N then
        '(x, t) ← read_continuation t;
        let cp := ((b - 192) * 64 + x)%N in
        if (cp <? 128)%N then None else Some (cp, t)
      else if (b <? 240)%N then
        '(x, t) ← read_continuation t;
        '(y, t) ← read_continuation t;
        let cp := ((b - 224) * 4096 + x * 64 + y)%N in
        if (cp <? 2048)%N || is_surrogate cp then None else Some (cp, t)
      else if (b <? 248)%N then
        '(x, t) ← read_continuation t;
        '(y, t) ← read_continuation t;
        '(z, t) ← read_continuation t;
        let cp := ((b - 240) * 262144 + x * 4096 + y * 64 + z)%N in
        if (cp <? 65536)%N || (1114111 <? cp)%N then None else Some (cp, t)
      else None
  end.

Fixpoint decode_n (n : nat) (s : jstr) : outcome jstr :=
  match n, s with
  | _, [] => Ret []
  | O, _ => Throw
  | S n, c :: t =>
      if (c =? 37)%N then
        match read_point s with
        | Some (cp, t) => let! r := decode_n n t in Ret (point_units cp ++ r)
        | None => Throw
        end
      else let! r := decode_n n t in Ret (c :: r)
  end.

Definition decodeURIComponent (s : jstr) : outcome jstr := decode_n (length s) s.

(** ** The host

    A browser has [btoa] and [atob]; elsewhere there may be a [Buffer], whose decoder
    of base64 is an argument. *)
Record host : Type := MkHost { has_base64 : bool; buffer : option (jstr -> list N) }.

Definition browser : host := MkHost true None.

(** What the code relies on: some decoder that inverts the encoding. *)
Definition host_ok (h : host) : Prop :=
  has_base64 h = true \/ exists f, buffer h = Some f /\ forall s, Forall (fun c => (c < 256)%N) s -> f (base64 s) = s.

(** ** Base64 decodes what it encodes *)

Lemma b64_val_char v : (v < 64)%N -> b64_val (b64_char v) = Some v.
Proof.
  intros Hv. assert (forallb (fun n => b64_val (b64_char (N.of_nat n)) === Some (N.of_nat n)) (seq 0 64) = true) as H
    by (vm_compute; reflexivity).
  rewrite forallb_forall in H. specialize (H (N.to_nat v)). rewrite N2Nat.id in H.
  apply js_eqb_true, H, in_seq. lia.
Qed.

(** Induction by groups of three bytes. *)
Lemma by_three (P : list N -> Prop) :
  P [] -> (forall a, P [a]) -> (forall a b, P [a; b]) -> (forall a b c t, P t -> P (a :: b :: c :: t)) -> forall s, P s.
Proof.
  intros H0 H1 H2 H3. fix IH 1. intros [|a [|b [|c t]]]; [exact H0|apply H1|apply H2|apply H3, IH].
Qed.

Definition bytes (s : list N) : Prop := Forall (fun c => (c < 256)%N) s.

Lemma bytes_bool s : forallb is_byte s = true <-> bytes s.
Proof. unfold bytes. rewrite forallb_forall, List.Forall_forall. unfold is_byte. by setoid_rewrite N.ltb_lt. Qed.

Ltac divide := Z.to_euclidean_division_equations; lia.

Lemma group_of_three a b c : (a < 256 -> b < 256 -> c < 256 ->
  a / 4 * 4 + (a mod 4 * 16 + b / 16) / 16 = a /\
  (a mod 4 * 16 + b / 16) mod 16 * 16 + (b mod 16 * 4 + c / 64) / 4 = b /\
  (b mod 16 * 4 + c / 64) mod 4 * 64 + c mod 64 = c)%N.
Proof. intros Ha Hb Hc. repeat split; zify; divide. Qed.

Lemma unsixes_sixes s : bytes s -> unsixes (sixes s) = s.
Proof.
  induction s as [|a|a b|a b c t IH] using by_three; intros Hs; [done| | |];
    repeat (apply Forall_cons in Hs as [? Hs]); cbn [sixes unsixes].
  - destruct (group_of_three a 0 0) as (E & _); [lia..|]. change (0 / 16)%N with 0%N in E. rewrite N.add_0_r in E.
    by rewrite E.
  - destruct (group_of_three a b 0) as (E & E' & _); [lia..|]. change (0 / 64)%N with 0%N in E'.
    rewrite N.add_0_r in E'. by rewrite E, E'.
  - destruct (group_of_three a b c) as (-> & -> & ->); [done..|]. by rewrite IH.
Qed.

Lemma sixes_small s : bytes s -> Forall (fun v => (v < 64)%N) (sixes s).
Proof.
  induction s as [|a|a b|a b c t IH] using by_three; intros Hs; [constructor| | |];
    repeat (apply Forall_cons in Hs as [? Hs]); cbn [sixes]; repeat constructor; auto; zify; divide.
Qed.

Lemma sixes_length s : (length (sixes s) = length s + (length s + 2) / 3)%nat.
Proof.
  induction s as [|a|a b|a b c t IH] using by_three; [done..|]. cbn [sixes length]. rewrite IH.
  replace (S (S (S (length t))) + 2) with (1 * 3 + (length t + 2)) by lia. rewrite Nat.div_add_l; lia.
Qed.

Lemma vals_of_chars vs : Forall (fun v => (v < 64)%N) vs -> mapM b64_val (List.map b64_char vs) = Some vs.
Proof. induction 1 as [|v vs Hv _ IH]; [done|]. cbn [List.map mapM]. by rewrite b64_val_char, IH. Qed.

Lemma b64_char_plain v : (v < 64)%N -> ascii_ws (b64_char v) = false /\ b64_char v <> 61%N.
Proof.
  intros Hv. assert (forallb (fun n => negb (ascii_ws (b64_char (N.of_nat n))) && (b64_char (N.of_nat n) !== 61%N)) (seq 0 64) = true)
    as H by (vm_compute; reflexivity).
  rewrite forallb_forall in H. specialize (H (N.to_nat v)). rewrite N2Nat.id in H.
  apply andb_prop in H as [H H']; [|apply in_seq; lia]. split; [by apply negb_true_iff|].
  by apply js_eqb_false, negb_true_iff.
Qed.

Lemma unpad_padded t k : (k <= 2)%nat -> Forall (fun c => c <> 61%N) t -> unpad (t ++ replicate k 61%N) = t.
Proof.
  intros Hk Ht. assert (forall c r, rev t = c :: r -> (c =? 61)%N = false) as Hlast.
  { intros c r E. apply N.eqb_neq. apply Forall_rev in Ht. rewrite E in Ht. by apply Forall_cons in Ht as [? _]. }
  assert (t = rev (rev t)) as Et by (by rewrite rev_involutive).
  unfold unpad. rewrite rev_app_distr.
  destruct k as [|[|[|k]]]; [| | |lia]; cbn [replicate rev app];
    destruct (rev t) as [|c r] eqn:E; rewrite ?(Hlast _ _ eq_refl), ?N.eqb_refl; rewrite ?app_nil_r; done.
Qed.

Lemma atob_text vs k :
  Forall (fun v => (v < 64)%N) vs -> (k <= 2)%nat -> length vs mod 4 <> 1 ->
  (k <> 0 -> (length vs + k) mod 4 = 0) ->
  atob (List.map b64_char vs ++ replicate k 61%N) = Ret (unsixes vs).
Proof.
  intros Hvs Hk H1 Hpad. set (t := List.map b64_char vs).
  assert (Forall (fun c => ascii_ws c = false /\ c <> 61%N) t) as Ht.
  { apply Forall_map. eapply Forall_impl; [exact Hvs|]. intros v. apply b64_char_plain. }
  assert (length t = length vs) as Hl by apply length_map.
  unfold atob. rewrite lfilter_id.
  2:{ apply Forall_app. split.
      - eapply Forall_impl; [exact Ht|]. by intros c [-> _].
      - by apply Forall_replicate. }
  rewrite length_app, length_replicate, Hl.
  assert ((if ((length vs + k) mod 4 =? 0)%nat then unpad (t ++ replicate k 61%N) else t ++ replicate k 61%N) = t) as ->.
  { destruct ((length vs + k) mod 4 =? 0)%nat eqn:E.
    - apply unpad_padded; [done|]. eapply Forall_impl; [exact Ht|]. by intros c [_ ?].
    - apply Nat.eqb_neq in E. destruct k; [apply app_nil_r|]. by rewrite Hpad in E. }
  rewrite Hl. apply Nat.eqb_neq in H1 as ->. unfold t. by rewrite vals_of_chars.
Qed.

(** The lengths of a text in base64 and of its padding. *)
Lemma sixes_padding (s : list N) :
  let k := (3 - length s mod 3) mod 3 in
  k <= 2 /\ length (sixes s) mod 4 <> 1 /\ (length (sixes s) + k) mod 4 = 0.
Proof.
  cbv zeta. rewrite sixes_length. pose proof (Nat.div_mod_eq (length s) 3) as E.
  pose proof (Nat.mod_upper_bound (length s) 3 ltac:(lia)) as B.
  remember (length s / 3) as q. remember (length s mod 3) as r. rewrite E.
  assert ((3 * q + r + 2) / 3 = q + (r + 2) / 3) as -> by (rewrite <- Nat.add_assoc, Nat.mul_comm, Nat.div_add_l; lia).
  assert (forall x y, (3 * q + r + (q + x) + y) mod 4 = (r + x + y) mod 4) as Hm.
  { intros x y. replace (3 * q + r + (q + x) + y) with (r + x + y + q * 4) by lia. apply Nat.Div0.mod_add. }
  rewrite <- (Nat.add_0_r (3 * q + r + (q + (r + 2) / 3))) at 1. rewrite !Hm. clear -B.
  destruct r as [|[|[|r]]]; [..|lia]; (split; [vm_compute; lia|split; [discriminate|reflexivity]]).
Qed.

Lemma atob_base64 s : bytes s -> atob (base64 s) = Ret s.
Proof.
  intros Hs. destruct (sixes_padding s) as (Hk & H1 & H4).
  rewrite <- (unsixes_sixes s Hs) at 2. apply atob_text; auto using sixes_small.
Qed.

#[export] Instance base64_format : TextFormat bytes base64 atob .
Proof. exact atob_base64. Qed.

(** ** Percent-encoding decodes to what was encoded *)

(** No lone surrogate. *)
Fixpoint well_formed (s : jstr) : bool :=
  match s with
  | [] => true
  | c :: s' =>
      if is_lead c then match s' with d :: s'' => is_trail d && well_formed s'' | [] => false end
      else negb (is_trail c) && (c <? 65536)%N && well_formed s'
  end.

(** The units an encoded component is made of. *)
Definition uri_unit (c : N) : bool := unreserved c || (c =? 37)%N.

Lemma percent_checked b : (b < 256)%N ->
  (forall t, read_percent (percent b ++ t) = Some (b, t)) /\ Forall (fun c => uri_unit c = true) (percent b).
Proof.
  intros Hb.
  assert (forallb (fun n => let b := N.of_nat n in
    match hex_val (upper_hex (b / 16)), hex_val (upper_hex (b mod 16)) with
    | Some x, Some y => (16 * x + y =? b)%N | _, _ => false end && forallb uri_unit (percent b)) (seq 0 256) = true) as H
    by (vm_compute; reflexivity).
  rewrite forallb_forall in H. specialize (H (N.to_nat b)). cbv zeta in H. rewrite N2Nat.id in H.
  apply andb_prop in H as [H H']; [|apply in_seq; lia]. split; [|by apply List.Forall_forall, forallb_forall].
  intros t. unfold percent. cbn [app read_percent]. rewrite N.eqb_refl.
  destruct (hex_val (upper_hex (b / 16))) as [x|]; [|done]. destruct (hex_val (upper_hex (b mod 16))) as [y|]; [|done].
  by apply N.eqb_eq in H as ->.
Qed.

Lemma read_percent_app b t : (b < 256)%N -> read_percent (percent b ++ t) = Some (b, t).
Proof. intros H. by apply percent_checked. Qed.

(** The hexadecimal digits may be in either case: any way to write a byte that is read
    as the byte will do. *)
Definition writes_bytes (pct : N -> jstr) : Prop := forall b t, (b < 256)%N -> read_percent (pct b ++ t) = Some (b, t).

Lemma percent_writes : writes_bytes percent.
Proof. intros b t. apply read_percent_app. Qed.

Lemma read_continuation_app pct x t : writes_bytes pct -> (x < 64)%N -> read_continuation (pct (128 + x)%N ++ t) = Some (x, t).
Proof.
  intros Hpct H. unfold read_continuation. rewrite Hpct by lia.
  assert (((128 <=? 128 + x) && (128 + x <? 192))%N = true) as -> by (apply andb_true_intro; split; [apply N.leb_le|apply N.ltb_lt]; lia).
  by replace (128 + x - 128)%N with x by lia.
Qed.

Definition point_ok (cp : N) : Prop := (cp <= 1114111)%N /\ is_surrogate cp = false.

Lemma utf8_bounded cp : (cp <= 1114111)%N -> bytes (utf8 cp).
Proof.
  intros H. unfold utf8. repeat case_match; repeat (apply Forall_cons; split); try apply Forall_nil_2; rewrite ?N.ltb_lt, ?N.ltb_ge in *; zify; divide.
Qed.

(** Decide a comparison of numbers under a test. *)
Ltac decide_test :=
  match goal with
  | |- context [(?a <? ?b)%N] =>
      first [ rewrite (proj2 (N.ltb_lt a b)) by lia | rewrite (proj2 (N.ltb_ge a b)) by lia ]
  end.

(** Division by 64, as variables. *)
Lemma by_64 n : exists q r, (n / 64 = q /\ n mod 64 = r /\ n = 64 * q + r /\ r < 64)%N.
Proof. exists (n / 64)%N, (n mod 64)%N. repeat split; [apply N.div_mod; lia|apply N.mod_lt; lia]. Qed.

Lemma read_point_app pct cp t : writes_bytes pct -> point_ok cp -> read_point (flat_map pct (utf8 cp) ++ t) = Some (cp, t).
Proof.
  intros Hpct [Hm Hs]. unfold read_point, utf8.
  change 4096%N with (64 * 64)%N. change 262144%N with (64 * 64 * 64)%N. rewrite <- !N.Div0.div_div.
  destruct (by_64 cp) as (q & z & -> & -> & Ecp & Hz). destruct (by_64 q) as (q' & y & -> & -> & Eq & Hy).
  destruct (by_64 q') as (w & x & -> & -> & Eq' & Hx).
  destruct (cp <? 128)%N eqn:E1; [|destruct (cp <? 2048)%N eqn:E2; [|destruct (cp <? 65536)%N eqn:E3]];
    cbn [flat_map]; rewrite app_nil_r, <- ?app_assoc; rewrite ?N.ltb_lt, ?N.ltb_ge in *;
    rewrite Hpct by lia; repeat decide_test; [done|..];
    rewrite ?read_continuation_app by done; cbn [mbind option_bind]; rewrite ?read_continuation_app by done;
    cbn [mbind option_bind]; rewrite ?read_continuation_app by done; cbn [mbind option_bind].
  - replace ((192 + q - 192) * 64 + z)%N with cp by lia. by decide_test.
  - replace ((224 + q' - 224) * (64 * 64) + y * 64 + z)%N with cp by lia. decide_test. by rewrite Hs.
  - replace ((240 + w - 240) * (64 * 64 * 64) + x * (64 * 64) + y * 64 + z)%N with cp by lia. by repeat decide_test.
Qed.

Lemma point_units_pair c d : is_lead c = true -> is_trail d = true ->
  point_ok (pair_point c d) /\ point_units (pair_point c d) = [c; d].
Proof.
  unfold is_lead, is_trail. rewrite !andb_true_iff, !N.leb_le. intros [Hc Hc'] [Hd Hd'].
  assert (65536 <= pair_point c d <= 1114111)%N as [Hp Hp'] by (unfold pair_point; lia). split.
  - split; [done|]. unfold is_surrogate, is_lead, is_trail. apply orb_false_iff.
    split; apply andb_false_iff; right; apply N.leb_gt; lia.
  - unfold point_units. rewrite (proj2 (N.ltb_ge _ _)) by done. unfold pair_point.
    replace (65536 + (c - 55296) * 1024 + (d - 56320) - 65536)%N with ((c - 55296) * 1024 + (d - 56320))%N by lia.
    rewrite N.div_add_l, N.div_small, (N.add_comm (_ * _)), N.Div0.mod_add, N.mod_small by lia.
    do 2 f_equal; [lia|f_equal; lia].
Qed.

Lemma point_ok_unit c : is_lead c = false -> is_trail c = false -> (c < 65536)%N -> point_ok c /\ point_units c = [c].
Proof.
  intros Hl Ht Hc. split; [|unfold point_units; by decide_test]. split; [lia|]. unfold is_surrogate. by rewrite Hl, Ht.
Qed.

(** The encoding of a point is decoded as its units. *)
Lemma decode_point pct cp t n :
  writes_bytes pct -> point_ok cp ->
  decode_n (S n) (flat_map pct (utf8 cp) ++ t) = let! r := decode_n n t in Ret (point_units cp ++ r).
Proof.
  intros Hpct Hp. pose proof (read_point_app pct cp t Hpct Hp) as H. revert H.
  destruct (flat_map pct (utf8 cp) ++ t) as [|c w]; [discriminate|]. intros H. cbn [decode_n].
  destruct (c =? 37)%N eqn:Ec; [by rewrite H|]. exfalso. revert H. unfold read_point, read_percent. rewrite Ec.
  by destruct w as [|? [|? ?]].
Qed.

Lemma decode_plain c t n : unreserved c = true -> decode_n (S n) (c :: t) = let! r := decode_n n t in Ret (c :: r).
Proof.
  intros Hc. cbn [decode_n]. destruct (c =? 37)%N eqn:E; [|done]. apply N.eqb_eq in E as ->. discriminate Hc.
Qed.

Lemma percent_units cp : point_ok cp -> Forall (fun c => uri_unit c = true) (flat_map percent (utf8 cp)).
Proof.
  intros [Hm _]. induction (utf8_bounded cp Hm) as [|b l Hb _ IH]; [constructor|]. cbn [flat_map].
  apply Forall_app. split; [by apply percent_checked|done].
Qed.

Lemma percent_length cp : (1 <= length (flat_map percent (utf8 cp)))%nat.
Proof. unfold utf8. repeat case_match; cbn [flat_map percent app length]; lia. Qed.

Lemma unreserved_ascii c : unreserved c = true -> (c < 128)%N.
Proof.
  unfold unreserved, is_word, is_digit. rewrite !orb_true_iff, !andb_true_iff, !N.leb_le, N.eqb_eq.
  intros [H|H]; [lia|]. apply mem_true in H. revert c H. apply Forall_forall. by repeat constructor.
Qed.

Lemma lead_not_ascii c : (c < 128)%N -> is_lead c = false.
Proof. intros H. unfold is_lead. apply andb_false_iff. left. apply N.leb_gt. lia. Qed.

Definition encodes (s e : jstr) : Prop :=
  encodeURIComponent s = Ret e /\ Forall (fun c => uri_unit c = true) e /\
  forall n, (length e <= n)%nat -> decode_n n e = Ret s.

Lemma encodes_nil : encodes [] [].
Proof. split; [done|]. split; [constructor|]. by intros []. Qed.

Lemma encodes_plain c s e : unreserved c = true -> encodes s e -> encodes (c :: s) (c :: e).
Proof.
  intros Hc (He & Hu & Hd). split; [|split].
  - cbn [encodeURIComponent]. by rewrite Hc, He.
  - constructor; [|done]. unfold uri_unit. by rewrite Hc.
  - intros [|n] Hn; [cbn in Hn; lia|]. rewrite decode_plain by done. cbn in Hn. by rewrite Hd by lia.
Qed.

Lemma encodes_point cp s s' e :
  point_ok cp -> encodes s e -> s' = point_units cp ++ s ->
  encodeURIComponent s' = (let! r := encodeURIComponent s in Ret (flat_map percent (utf8 cp) ++ r)) ->
  encodes s' (flat_map percent (utf8 cp) ++ e).
Proof.
  intros Hp (He & Hu & Hd) -> H. pose proof (percent_length cp) as Hl. split; [|split].
  - by rewrite H, He.
  - apply Forall_app. split; [by apply percent_units|done].
  - intros [|n] Hn; rewrite length_app in Hn; [lia|]. rewrite decode_point by (done || apply percent_writes).
    by rewrite Hd by lia.
Qed.

Lemma encode_exact s : well_formed s = true -> exists e, encodes s e.
Proof.
  induction s as [s IH] using (induction_ltof1 _ length). unfold ltof in IH. intros Hw.
  destruct s as [|c s]; [exists []; apply encodes_nil|]. destruct (unreserved c) eqn:Hc.
  - assert (well_formed s = true) as Hw'.
    { cbn [well_formed] in Hw. rewrite lead_not_ascii in Hw by (by apply unreserved_ascii).
      by apply andb_prop in Hw as [_ ?]. }
    destruct (IH s ltac:(cbn; lia) Hw') as [e He]. exists (c :: e). by apply encodes_plain.
  - cbn [well_formed] in Hw. destruct (is_lead c) eqn:El.
    + destruct s as [|d s]; [done|]. apply andb_prop in Hw as [Hd Hw].
      destruct (IH s ltac:(cbn; lia) Hw) as [e He]. destruct (point_units_pair c d) as [Hp Hu]; [done..|].
      exists (flat_map percent (utf8 (pair_point c d)) ++ e). apply (encodes_point _ s); [done..|by rewrite Hu|].
      cbn [encodeURIComponent]. rewrite Hc, El, Hd.
      assert (is_trail c = false) as ->; [|done].
      revert El. unfold is_lead, is_trail. rewrite andb_true_iff, !N.leb_le. intros [_ ?].
      apply andb_false_iff. left. apply N.leb_gt. lia.
    + apply andb_prop in Hw as [[Ht%negb_true_iff Hl%N.ltb_lt]%andb_prop Hw].
      destruct (IH s ltac:(cbn; lia) Hw) as [e He]. destruct (point_ok_unit c) as [Hp Hu]; [done..|].
      exists (flat_map percent (utf8 c) ++ e). apply (encodes_point _ s); [done..|by rewrite Hu|].
      cbn [encodeURIComponent]. by rewrite Hc, Ht, El.
Qed.

(** An encoded component has URL-safe units only and decodes to the text it encodes. *)
Lemma encode_decode s : well_formed s = true ->
  exists e, encodeURIComponent s = Ret e /\ Forall (fun c => uri_unit c = true) e /\ decodeURIComponent e = Ret s.
Proof. intros (e & He & Hu & Hd)%encode_exact. exists e. split; [done|]. split; [done|]. by apply Hd. Qed.

(** A lone surrogate cannot be encoded. *)
Lemma encode_malformed s : utf16 s -> well_formed s = false -> encodeURIComponent s = Throw.
Proof.
  induction s as [s IH] using (induction_ltof1 _ length). unfold ltof in IH. intros Hu Hw.
  destruct s as [|c s]; [done|]. apply Forall_cons in Hu as [Hc Hu]. cbn [well_formed encodeURIComponent] in *.
  destruct (unreserved c) eqn:Hr.
  - apply unreserved_ascii in Hr. rewrite lead_not_ascii in Hw by done.
    rewrite (proj2 (N.ltb_lt c 65536)) in Hw by done. rewrite andb_true_r in Hw.
    assert (is_trail c = false) as Ht by (unfold is_trail; apply andb_false_iff; left; apply N.leb_gt; lia).
    rewrite Ht in Hw. by rewrite IH by (cbn; lia || done).
  - destruct (is_trail c) eqn:Ht; [done|]. destruct (is_lead c) eqn:Hl.
    + destruct s as [|d s]; [done|]. destruct (is_trail d); [|done]. apply Forall_cons in Hu as [_ Hu].
      by rewrite IH by (cbn; lia || done).
    + rewrite (proj2 (N.ltb_lt c 65536)) in Hw by done. by rewrite IH by (cbn; lia || done).
Qed.

(** ** Decoding UTF-8

    The decoder of the Encoding standard: a malformed sequence becomes one replacement
    character, and the byte that broke it is read again. *)
Record utf8_state : Type := MkUtf8 { u_needed : nat; u_lower : N; u_upper : N; u_point : N }.
Definition utf8_start : utf8_state := MkUtf8 0 128 191 0.

(** The first byte of a sequence: a code point, or the state that waits for more. *)
Definition lead_byte (b : N) : option N * utf8_state :=
  (if b <=? 127 then (Some b, utf8_start)
   else if (194 <=? b) && (b <=? 223) then (None, MkUtf8 1 128 191 (b - 192))
   else if (224 <=? b) && (b <=? 239) then
     (None, MkUtf8 2 (if b =? 224 then 160 else 128) (if b =? 237 then 159 else 191) (b - 224))
   else if (240 <=? b) && (b <=? 244) then
     (None, MkUtf8 3 (if b =? 240 then 144 else 128) (if b =? 244 then 143 else 191) (b - 240))
   else (Some 65533, utf8_start))%N.

Definition emit (cp : option N) : jstr := match cp with Some cp => point_units cp | None => [] end.

Fixpoint utf8_run (st : utf8_state) (s : list N) : jstr :=
  match s with
  | [] => match u_needed st with O => [] | _ => point_units 65533 end
  | b :: s' =>
      match u_needed st with
      | O => let '(out, st) := lead_byte b in emit out ++ utf8_run st s'
      | S k =>
          if ((u_lower st <=? b) && (b <=? u_upper st))%N then
            let cp := (u_point st * 64 + (b - 128))%N in
            match k with
            | O => point_units cp ++ utf8_run utf8_start s'
            | S _ => utf8_run (MkUtf8 k 128 191 cp) s'
            end
          else let '(out, st) := lead_byte b in point_units 65533 ++ emit out ++ utf8_run st s'
      end
  end.

(** [new TextDecoder().decode], which drops a byte order mark. *)
Definition TextDecoder_decode (s : list N) : jstr :=
  match utf8_run utf8_start s with
  | c :: t => if (c =? 65279)%N then t else c :: t
  | [] => []
  end.

(** Decide the comparisons of a test on concrete bounds. *)
Ltac decide_tests :=
  repeat match goal with
  | |- context [(?a <=? ?b)%N] => first [ rewrite (proj2 (N.leb_le a b)) by lia | rewrite (proj2 (N.leb_gt a b)) by lia ]
  | |- context [(?a <? ?b)%N] => first [ rewrite (proj2 (N.ltb_lt a b)) by lia | rewrite (proj2 (N.ltb_ge a b)) by lia ]
  | |- context [(?a =? ?b)%N] => first [ rewrite (proj2 (N.eqb_neq a b)) by lia ]
  end.

Lemma surrogate_range cp : is_surrogate cp = false -> (cp < 55296 \/ 57343 < cp)%N.
Proof.
  unfold is_surrogate, is_lead, is_trail. rewrite orb_false_iff, !andb_false_iff, !N.leb_gt. lia.
Qed.

Lemma utf8_run_cons st k lo up cp b s :
  st = MkUtf8 (S (S k)) lo up cp -> (lo <= b <= up)%N ->
  utf8_run st (b :: s) = utf8_run (MkUtf8 (S k) 128 191 (cp * 64 + (b - 128))) s.
Proof. intros -> [H1 H2]. cbn [utf8_run u_needed u_lower u_upper u_point]. by decide_tests. Qed.

Lemma utf8_run_last st lo up cp b s :
  st = MkUtf8 1 lo up cp -> (lo <= b <= up)%N ->
  utf8_run st (b :: s) = point_units (cp * 64 + (b - 128)) ++ utf8_run utf8_start s.
Proof. intros -> [H1 H2]. cbn [utf8_run u_needed u_lower u_upper u_point]. by decide_tests. Qed.

Lemma utf8_run_lead b s : utf8_run utf8_start (b :: s) = emit (lead_byte b).1 ++ utf8_run (lead_byte b).2 s.
Proof. cbn [utf8_run u_needed utf8_start]. by destruct (lead_byte b). Qed.

Lemma utf8_run_point cp s : point_ok cp -> utf8_run utf8_start (utf8 cp ++ s) = point_units cp ++ utf8_run utf8_start s.
Proof.
  intros [Hm Hs%surrogate_range]. unfold utf8.
  change 4096%N with (64 * 64)%N. change 262144%N with (64 * 64 * 64)%N. rewrite <- !N.Div0.div_div.
  destruct (by_64 cp) as (q & z & -> & -> & Ecp & Hz). destruct (by_64 q) as (q' & y & -> & -> & Eq & Hy).
  destruct (by_64 q') as (w & x & -> & -> & Eq' & Hx).
  destruct (cp <? 128)%N eqn:E1; [|destruct (cp <? 2048)%N eqn:E2; [|destruct (cp <? 65536)%N eqn:E3]];
    rewrite ?N.ltb_lt, ?N.ltb_ge in *; cbn [app]; rewrite utf8_run_lead; unfold lead_byte.
  - by decide_tests.
  - decide_tests. cbn [andb emit app fst snd].
    rewrite (utf8_run_last _ 128 191 (192 + q - 192) (128 + z)) by (done || lia). do 2 f_equal. lia.
  - decide_tests. cbn [andb emit app fst snd].
    rewrite (utf8_run_cons _ 0 (if (224 + q' =? 224)%N then 160 else 128)%N (if (224 + q' =? 237)%N then 159 else 191)%N (224 + q' - 224) (128 + y));
      [|done|destruct (N.eqb_spec (224 + q') 224), (N.eqb_spec (224 + q') 237); lia].
    rewrite (utf8_run_last _ 128 191 _ (128 + z)) by (done || lia). do 2 f_equal. lia.
  - decide_tests. cbn [andb emit app fst snd].
    rewrite (utf8_run_cons _ 1 (if (240 + w =? 240)%N then 144 else 128)%N (if (240 + w =? 244)%N then 143 else 191)%N (240 + w - 240) (128 + x));
      [|done|destruct (N.eqb_spec (240 + w) 240), (N.eqb_spec (240 + w) 244); lia].
    rewrite (utf8_run_cons _ 0 128 191 _ (128 + y)) by (done || lia).
    rewrite (utf8_run_last _ 128 191 _ (128 + z)) by (done || lia). do 2 f_equal. lia.
Qed.

(** The points of a well-formed string, one after the other. *)
Lemma well_formed_ind (P : jstr -> Prop) :
  P [] -> (forall cp s, point_ok cp -> P s -> (exists c t, point_units cp = c :: t) ->
    utf8_bytes (point_units cp ++ s) = utf8 cp ++ utf8_bytes s -> P (point_units cp ++ s)) ->
  forall s, well_formed s = true -> P s.
Proof.
  intros H0 H1 s. induction s as [s IH] using (induction_ltof1 _ length). unfold ltof in IH. intros Hw.
  destruct s as [|c s]; [done|]. cbn [well_formed] in Hw. destruct (is_lead c) eqn:El.
  - destruct s as [|d s]; [done|]. apply andb_prop in Hw as [Hd Hw].
    destruct (point_units_pair c d) as [Hp Hu]; [done..|]. change (c :: d :: s) with ([c; d] ++ s). rewrite <- Hu.
    apply H1; [done|apply IH; [cbn; lia|done]|rewrite Hu; eauto|]. rewrite Hu. cbn [app utf8_bytes]. by rewrite El, Hd.
  - apply andb_prop in Hw as [[Ht%negb_true_iff Hl%N.ltb_lt]%andb_prop Hw].
    destruct (point_ok_unit c) as [Hp Hu]; [done..|]. change (c :: s) with ([c] ++ s). rewrite <- Hu.
    apply H1; [done|apply IH; [cbn; lia|done]|rewrite Hu; eauto|]. rewrite Hu. cbn [app utf8_bytes]. by rewrite El, Ht.
Qed.

Lemma utf8_roundtrip s : well_formed s = true -> utf8_run utf8_start (utf8_bytes s) = s.
Proof.
  revert s. apply well_formed_ind; [done|]. intros cp s Hp IH _ ->. by rewrite utf8_run_point, IH.
Qed.

Lemma utf8_bytes_bounded s : well_formed s = true -> bytes (utf8_bytes s).
Proof.
  revert s. apply well_formed_ind; [constructor|]. intros cp s Hp IH _ ->. apply Forall_app. split; [|done].
  by apply utf8_bounded, Hp.
Qed.

Lemma TextDecoder_roundtrip s : well_formed s = true -> head s <> Some 65279%N -> TextDecoder_decode (utf8_bytes s) = s.
Proof.
  intros Hw Hb. unfold TextDecoder_decode. rewrite utf8_roundtrip by done. destruct s as [|c s]; [done|].
  by rewrite (proj2 (N.eqb_neq c 65279)) by (intros ->; by apply Hb).
Qed.

(** Percent-encoding every byte of the UTF-8 form decodes as well. *)
Lemma percent_all_decodes pct s : writes_bytes pct -> (forall b, pct b <> []) -> well_formed s = true ->
  decodeURIComponent (flat_map pct (utf8_bytes s)) = Ret s.
Proof.
  intros Hpct Hne Hw. unfold decodeURIComponent. generalize (le_n (length (flat_map pct (utf8_bytes s)))).
  generalize (length (flat_map pct (utf8_bytes s))) at 2 3 as n. revert s Hw.
  apply (well_formed_ind (fun s => forall n, length (flat_map pct (utf8_bytes s)) <= n ->
    decode_n n (flat_map pct (utf8_bytes s)) = Ret s)); [by intros []|].
  intros cp s Hp IH _ -> n. rewrite flat_map_app, length_app.
  assert (1 <= length (flat_map pct (utf8 cp))) as Hl.
  { unfold utf8. repeat case_match; cbn [flat_map]; rewrite length_app;
      match goal with |- context [length (pct ?b) + _] => pose proof (Hne b); destruct (pct b); [done|cbn; lia] end. }
  intros Hn. destruct n as [|n]; [lia|]. by rewrite decode_point, IH by (done || lia).
Qed.

(** ** Queries

    [URLSearchParams.toString] writes pairs in the format of forms; a server reads them
    back by splitting and decoding. *)
Definition form_safe (b : N) : bool := is_word b || mem b (js "*-.").
Definition form_byte (b : N) : jstr := if form_safe b then [b] else if (b =? 32)%N then [43%N] else percent b.
Definition form_encode (s : jstr) : jstr := flat_map form_byte (utf8_bytes s).
Definition form_pair (p : jstr * jstr) : jstr := form_encode p.1 ++ js "=" ++ form_encode p.2.
Definition query_string (pairs : list (jstr * jstr)) : jstr := join (js "&") (List.map form_pair pairs).

Fixpoint form_bytes (n : nat) (s : jstr) : list N :=
  match n, s with
  | O, _ | _, [] => []
  | S n, c :: t =>
      if (c =? 43)%N then 32%N :: form_bytes n t
      else match read_percent s with
           | Some (b, t) => b :: form_bytes n t
           | None => c :: form_bytes n t
           end
  end.
Definition form_decode (s : jstr) : jstr := utf8_run utf8_start (form_bytes (length s) s).

Definition read_pair (s : jstr) : jstr * jstr :=
  match index_of (js "=") s with
  | Some i => (form_decode (take i s), form_decode (drop (S i) s))
  | None => (form_decode s, [])
  end.
Definition read_query (s : jstr) : list (jstr * jstr) := List.map read_pair (filter_truthy (split_char 38 s)).

Lemma form_byte_checked b : (b < 256)%N ->
  (forall n t, form_bytes (S n) (form_byte b ++ t) = b :: form_bytes n t) /\ 38%N ∉ form_byte b /\ 61%N ∉ form_byte b /\
  (1 <= length (form_byte b))%nat.
Proof.
  intros Hb. unfold form_byte. destruct (form_safe b) eqn:Es; [|destruct (b =? 32)%N eqn:E32].
  - assert (forallb (fun n => let b := N.of_nat n in negb (form_safe b) || (negb (b =? 43) && negb (b =? 37) && negb (b =? 38) && negb (b =? 61)))%N
      (seq 0 256) = true) as H by (vm_compute; reflexivity).
    rewrite forallb_forall in H. specialize (H (N.to_nat b)). cbv zeta in H. rewrite N2Nat.id, Es in H.
    assert (In (N.to_nat b) (seq 0 256)) as Hin by (apply in_seq; lia). specialize (H Hin). cbn [negb orb] in H.
    rewrite !andb_true_iff, !negb_true_iff, !N.eqb_neq in H. destruct H as [[[H1 H2] H3] H4].
    split_and!; [|set_solver|set_solver|cbn; lia]. intros n t. cbn [app form_bytes]. rewrite (proj2 (N.eqb_neq b 43)) by done.
    assert (read_percent (b :: t) = None) as ->; [|done]. unfold read_percent. destruct t as [|? [|? ?]]; [done..|].
    by rewrite (proj2 (N.eqb_neq b 37)).
  - apply N.eqb_eq in E32 as ->. split_and!; [done|set_solver|set_solver|cbn; lia].
  - split_and!; [|..|unfold percent; cbn; lia].
    + intros n t. pose proof (read_percent_app b t Hb) as H. unfold percent in *. cbn [app form_bytes] in *.
      change (37 =? 43)%N with false. cbv iota. by rewrite H.
    + intros Hin. destruct (percent_checked b Hb) as [_ Hu]. rewrite Forall_forall in Hu. by apply Hu in Hin.
    + intros Hin. destruct (percent_checked b Hb) as [_ Hu]. rewrite Forall_forall in Hu. by apply Hu in Hin.
Qed.

Lemma form_bytes_all bs n : bytes bs -> (length (flat_map form_byte bs) <= n)%nat -> form_bytes n (flat_map form_byte bs) = bs.
Proof.
  intros Hb. revert n. induction Hb as [|b bs Hb _ IH]; intros n Hn; [by destruct n|]. cbn [flat_map] in *.
  destruct (form_byte_checked b Hb) as (H1 & _ & _ & H2). rewrite length_app in Hn. destruct n as [|n]; [lia|].
  by rewrite H1, IH by lia.
Qed.

Lemma form_roundtrip s : well_formed s = true -> form_decode (form_encode s) = s.
Proof.
  intros Hw. unfold form_decode, form_encode. by rewrite form_bytes_all, utf8_roundtrip by auto using utf8_bytes_bounded.
Qed.

Lemma form_no_separator s : well_formed s = true -> 38%N ∉ form_encode s /\ 61%N ∉ form_encode s.
Proof.
  intros Hw%utf8_bytes_bounded. unfold form_encode. induction Hw as [|b bs Hb _ IH]; cbn [flat_map]; [set_solver|].
  destruct (form_byte_checked b Hb) as (_ & H1 & H2 & _). set_solver.
Qed.

Lemma read_pair_roundtrip p : well_formed p.1 = true -> well_formed p.2 = true -> read_pair (form_pair p) = p.
Proof.
  intros H1 H2. destruct p as [k v]. cbn [fst snd] in *. unfold read_pair, form_pair. cbn [fst snd].
  assert (index_of (js "=") (form_encode k ++ js "=" ++ form_encode v) = Some (length (form_encode k))) as ->.
  { apply (index_of_head 61%N). by apply form_no_separator. }
  rewrite take_app_length. replace (S (length (form_encode k))) with (length (form_encode k ++ js "=")) by (rewrite length_app; cbn; lia).
  rewrite app_assoc, drop_app_length. by rewrite !form_roundtrip.
Qed.

(** A server reads back the pairs of a query. *)
Lemma query_roundtrip pairs :
  Forall (fun p => well_formed p.1 = true /\ well_formed p.2 = true) pairs -> read_query (query_string pairs) = pairs.
Proof.
  intros Hp. unfold read_query, query_string.
  assert (Forall (fun w => w <> [] /\ 38%N ∉ w) (List.map form_pair pairs)) as Hw.
  { apply Forall_map. eapply Forall_impl; [exact Hp|]. intros p [H1 H2]. unfold form_pair.
    destruct (form_no_separator _ H1) as [Ha _], (form_no_separator _ H2) as [Hb _].
    split; [by destruct (form_encode p.1)|]. rewrite !not_elem_of_app. split_and!; [done|by apply mem_false|done]. }
  assert (filter_truthy (split_char 38 (join (js "&") (List.map form_pair pairs))) = List.map form_pair pairs) as ->.
  { destruct (List.map form_pair pairs) as [|w ws] eqn:E; [done|]. change (js "&") with [38%N]. rewrite split_join_char; [|done|].
    - apply lfilter_id. eapply Forall_impl; [exact Hw|]. intros x [Hx _]. by apply truthy_true.
    - eapply Forall_impl; [exact Hw|]. by intros x [_ ?]. }
  rewrite List.map_map. induction Hp as [|p pairs [H1 H2] _ IH]; [done|]. cbn [List.map]. rewrite read_pair_roundtrip by done.
  f_equal. apply IH. cbn [List.map] in Hw. by apply Forall_cons in Hw as [_ ?].
Qed.
