(* ===== verification/BillingExpr.v ===== *)
(** * Billing expressions: [features/pricing/lib/billing-expr.ts]

    The request rules of a billing expression (conditional multipliers), their
    builder and their parser, and the way an expression is put together from
    a base price and its rules.  [Tiers.v] holds the tier part. *)
From S2P Require Import Prelude Regex Numbers Json.

(** ** Data *)

Definition SOURCE_PARAM := js "param".
Definition SOURCE_HEADER := js "header".
Definition SOURCE_TIME := js "time".

Definition MATCH_EQ := js "eq".
Definition MATCH_CONTAINS := js "contains".
Definition MATCH_GT := js "gt".
Definition MATCH_GTE := js "gte".
Definition MATCH_LT := js "lt".
Definition MATCH_LTE := js "lte".
Definition MATCH_EXISTS := js "exists".
Definition MATCH_RANGE := js "range".

Inductive TimeFunc := hour | minute | weekday | month | day.

#[export] Instance TimeFunc_eq_dec : EqDecision TimeFunc.
Proof. solve_decision. Defined.

Definition time_func_name (f : TimeFunc) : jstr :=
  match f with
  | hour => js "hour" | minute => js "minute" | weekday => js "weekday"
  | month => js "month" | day => js "day"
  end.

Definition TIME_FUNCS : list TimeFunc := [hour; minute; weekday; month; day].

Inductive PHSource := Param | Header.

Definition ph_source_name (s : PHSource) : jstr :=
  match s with Param => SOURCE_PARAM | Header => SOURCE_HEADER end.

Record ParamHeaderCondition := MkPH {
  ph_source : PHSource;
  ph_path : jstr;
  ph_mode : jstr;
  ph_value : jstr
}.

Record TimeCondition := MkTime {
  tc_timeFunc : TimeFunc;
  tc_timezone : jstr;
  tc_mode : jstr;
  tc_value : jstr;
  tc_rangeStart : jstr;
  tc_rangeEnd : jstr
}.

Inductive RequestCondition :=
| CTime (c : TimeCondition)
| CPH (c : ParamHeaderCondition).

Record RequestRuleGroup := MkGroup {
  rg_conditions : list RequestCondition;
  rg_multiplier : jstr
}.

(** [/^-?(?:\d+\.?\d*|\.\d+)(?:[eE][+-]?\d+)?$/] *)
Definition NUMERIC_LITERAL_REGEX : re :=
  RSeqs [RStart; ROpt (RLit (js "-"));
         RAlt (RSeqs [RPlus (RSet is_digit); ROpt (RLit (js ".")); RStar (RSet is_digit)])
              (RSeqs [RLit (js "."); RPlus (RSet is_digit)]);
         ROpt (RSeqs [RSet (fun c => (c =? 101) || (c =? 69))%N;
                      ROpt (RSet (fun c => (c =? 43) || (c =? 45))%N);
                      RPlus (RSet is_digit)]);
         REnd].

Definition is_numeric (s : jstr) : bool := re_test NUMERIC_LITERAL_REGEX s.

(** ** Splitting at the top level

    One pass over the units: [skip] counts the units of a separator still to
    pass, [cur] is the piece being read (reversed), [depth] the parenthesis
    depth, which the code lets go below zero. *)
Fixpoint scan_top (sep : jstr) (s : jstr) (skip : nat) (cur : jstr) (depth : Z) : list jstr :=
  match s with
  | [] => [trim (rev cur)]
  | c :: s' =>
      match skip with
      | S k => scan_top sep s' k cur depth
      | O =>
          let depth1 := if (c =? 40)%N then (depth + 1)%Z else depth in
          let depth2 := if (c =? 41)%N then (depth1 - 1)%Z else depth1 in
          if (depth2 =? 0)%Z && starts_with sep s
          then trim (rev cur) :: scan_top sep s' (length sep - 1) [] depth2
          else scan_top sep s' O (c :: cur) depth2
      end
  end.

Definition splitTopLevelMultiply (expr : jstr) : list jstr :=
  filter_truthy (scan_top (js " * ") expr 0 [] 0).

Definition splitTopLevelAnd (expr : jstr) : list jstr :=
  filter_truthy (scan_top (js " && ") expr 0 [] 0).

(** ** Parsing one condition *)

(** The literal, or the code's [null]. *)
Definition parseExprLiteral (raw : jstr) : option json :=
  let text := trim raw in
  if (text === js "true") || (text === js "false") then Some (JStr text)
  else if is_numeric text then Some (JStr text)
  else match JSON_parse text with
       | Ret JNull => None
       | Ret v => Some v
       | Throw => None
       end.

Definition re_time_func : re := RAlts (List.map (fun f => RLit (time_func_name f)) TIME_FUNCS).
Definition re_quoted (i : nat) : list re :=
  [RLit dq; RCap i (RPlus (RSet (not_unit 34))); RLit dq].
Definition re_num (i : nat) : re := RCap i (RPlus (RSet num_unit)).

(** [f("tz") >= a || f("tz") < b] between [before] and [after]. *)
Definition re_time_range (before after : list re) : re :=
  RSeqs ([RStart] ++ before ++ [RCap 1 re_time_func; RLit (js "(")] ++ re_quoted 2 ++
         [RLit (js ") >= "); re_num 3; RLit (js " || "); RBack 1; RLit (js "(" ++ dq); RBack 2;
          RLit (dq ++ js ") < "); re_num 4] ++ after ++ [REnd]).

Definition re_time_single : re :=
  RSeqs ([RStart; RCap 1 re_time_func; RLit (js "(")] ++ re_quoted 2 ++
         [RLit (js ") "); RCap 3 (RAlts [RLit (js "=="); RLit (js ">="); RLit (js "<")]);
          RLit (js " "); re_num 4; REnd]).

Definition time_func_of (s : jstr) : TimeFunc :=
  default hour (list_find (fun f => time_func_name f = s) TIME_FUNCS ≫= fun p => Some p.2).

Definition range_condition (st : rst) : RequestCondition :=
  CTime (MkTime (time_func_of (cap' 1 st)) (cap' 2 st) MATCH_RANGE [] (cap' 3 st) (cap' 4 st)).

Definition time_op_mode (op : jstr) : jstr :=
  if op === js "==" then MATCH_EQ
  else if op === js ">=" then MATCH_GTE
  else if op === js "<" then MATCH_LT
  else MATCH_EQ.

Definition tryParseTimeCondition (expr : jstr) : option RequestCondition :=
  match re_match (re_time_range [] []) expr with
  | Some st => Some (range_condition st)
  | None =>
      match re_match (re_time_range [RLit (js "(")] [RLit (js ")")]) expr with
      | Some st => Some (range_condition st)
      | None =>
          match re_match re_time_single expr with
          | Some st =>
              Some (CTime (MkTime (time_func_of (cap' 1 st)) (cap' 2 st)
                                  (time_op_mode (cap' 3 st)) (cap' 4 st) [] []))
          | None => None
          end
      end
  end.

(** A quoted string whose units are other than quotes and backslashes, or escapes. *)
Definition re_json_string (i : nat) : re :=
  RCap i (RSeqs [RLit dq;
                 RStar (RAlt (RSet (fun c => negb (c =? 34) && negb (c =? 92))%N)
                             (RSeq (RSet (N.eqb 92)) (RSet dot)));
                 RLit dq]).

Definition re_header_exists : re :=
  RSeqs ([RStart; RLit (js "header(")] ++ re_quoted 1 ++ [RLit (js ") != " ++ dq ++ dq); REnd]).
Definition re_param_exists : re :=
  RSeqs ([RStart; RLit (js "param(")] ++ re_quoted 1 ++ [RLit (js ") != nil"); REnd]).
Definition re_header_contains : re :=
  RSeqs ([RStart; RLit (js "has(header(")] ++ re_quoted 1 ++
         [RLit (js "), "); re_json_string 2; RLit (js ")"); REnd]).
Definition re_param_contains : re :=
  RSeqs ([RStart; RLit (js "param(")] ++ re_quoted 1 ++ [RLit (js ") != nil && has(param(")] ++
         re_quoted 2 ++ [RLit (js "), "); re_json_string 3; RLit (js ")"); REnd]).
Definition re_param_compare : re :=
  RSeqs ([RStart; RLit (js "param(")] ++ re_quoted 1 ++ [RLit (js ") != nil && param(")] ++
         re_quoted 2 ++
         [RLit (js ") "); RCap 3 (RAlts [RLit (js ">"); RLit (js ">="); RLit (js "<"); RLit (js "<=")]);
          RLit (js " "); re_num 4; REnd]).
Definition re_equals : re :=
  RSeqs ([RStart; RCap 1 (RAlts [RLit SOURCE_PARAM; RLit SOURCE_HEADER]); RLit (js "(")] ++
         re_quoted 2 ++ [RLit (js ") == "); RCap 3 (RPlus (RSet dot)); REnd]).

Definition compare_op_mode (op : jstr) : jstr :=
  if op === js ">" then MATCH_GT
  else if op === js ">=" then MATCH_GTE
  else if op === js "<" then MATCH_LT
  else MATCH_LTE.

Definition ph_condition (s : PHSource) (path mode value : jstr) : RequestCondition :=
  CPH (MkPH s path mode value).

(** [JSON.parse(m[i]) as string] where the pattern makes [m[i]] a quoted
    string; the code has no [try] around it. *)
Definition parse_string_literal (w : jstr) : outcome jstr :=
  let! v := JSON_parse w in Ret (json_String v).

Definition tryParseRequestCondition (expr : jstr) : outcome (option RequestCondition) :=
  match tryParseTimeCondition expr with
  | Some tc => Ret (Some tc)
  | None =>
  match re_match re_header_exists expr with
  | Some st => Ret (Some (ph_condition Header (cap' 1 st) MATCH_EXISTS []))
  | None =>
  match re_match re_param_exists expr with
  | Some st => Ret (Some (ph_condition Param (cap' 1 st) MATCH_EXISTS []))
  | None =>
  match re_match re_header_contains expr with
  | Some st =>
      let! v := parse_string_literal (cap' 2 st) in
      Ret (Some (ph_condition Header (cap' 1 st) MATCH_CONTAINS v))
  | None =>
  match (st ← re_match re_param_contains expr; if cap' 1 st === cap' 2 st then Some st else None) with
  | Some st =>
      let! v := parse_string_literal (cap' 3 st) in
      Ret (Some (ph_condition Param (cap' 1 st) MATCH_CONTAINS v))
  | None =>
  match (st ← re_match re_param_compare expr; if cap' 1 st === cap' 2 st then Some st else None) with
  | Some st => Ret (Some (ph_condition Param (cap' 1 st) (compare_op_mode (cap' 3 st)) (cap' 4 st)))
  | None =>
  match re_match re_equals expr with
  | Some st =>
      Ret (v ← parseExprLiteral (cap' 3 st);
           Some (ph_condition (if cap' 1 st === SOURCE_PARAM then Param else Header)
                              (cap' 2 st) MATCH_EQ (json_String v)))
  | None => Ret None
  end end end end end end end.

(** ** Parsing rules *)

(** [/^\((.+) \? ([\d.eE+-]+) : 1\)$/s] *)
Definition re_factor : re :=
  RSeqs [RStart; RLit (js "("); RCap 1 (RPlus (RSet any_unit)); RLit (js " ? "); re_num 2;
         RLit (js " : 1)"); REnd].

(** The loop over the conjuncts: [Ret None] is the early [return null]. *)
Fixpoint parse_conditions (parts : list jstr) : outcome (option (list RequestCondition)) :=
  match parts with
  | [] => Ret (Some [])
  | ap :: parts' =>
      let! c := tryParseRequestCondition (trim ap) in
      match c with
      | None => Ret None
      | Some cond => let! cs := parse_conditions parts' in Ret (cons cond <$> cs)
      end
  end.

Definition tryParseRuleGroupFactor (part : jstr) : outcome (option RequestRuleGroup) :=
  match re_match re_factor part with
  | None => Ret None
  | Some st =>
      let! cs := parse_conditions (splitTopLevelAnd (cap' 1 st)) in
      Ret (match cs with
           | None | Some [] => None
           | Some conditions => Some (MkGroup conditions (cap' 2 st))
           end)
  end.

Fixpoint parse_factors (parts : list jstr) : outcome (option (list RequestRuleGroup)) :=
  match parts with
  | [] => Ret (Some [])
  | part :: parts' =>
      let! g := tryParseRuleGroupFactor part in
      match g with
      | None => Ret None
      | Some group => let! gs := parse_factors parts' in Ret (cons group <$> gs)
      end
  end.

Definition tryParseRequestRuleExpr (expr : jstr) : outcome (option (list RequestRuleGroup)) :=
  let trimmed := trim expr in
  if truthy trimmed then parse_factors (splitTopLevelMultiply trimmed) else Ret (Some []).

(** ** Splitting and combining an expression *)

(** The loop of [hasFullOuterParens]: the final depth, or [None] for the early
    [return false]. *)
Fixpoint outer_depth (s : jstr) (depth : Z) : option Z :=
  match s with
  | [] => Some depth
  | c :: s' =>
      let depth1 := if (c =? 40)%N then (depth + 1)%Z else depth in
      let depth2 := if (c =? 41)%N then (depth1 - 1)%Z else depth1 in
      if (depth2 =? 0)%Z && truthy s' then None else outer_depth s' depth2
  end.

Definition hasFullOuterParens (expr : jstr) : bool :=
  if negb (starts_with (js "(") expr) || negb (ends_with (js ")") expr) then false
  else match outer_depth expr 0 with Some d => (d =? 0)%Z | None => false end.

(** [expr.slice(1, -1)]. *)
Definition strip_ends (s : jstr) : jstr := substring s 1 (length s - 1).

(** Each round removes at least one unit, so [length expr] rounds are enough. *)
Fixpoint unwrap_n (n : nat) (current : jstr) : jstr :=
  match n with
  | O => current
  | S n' => if hasFullOuterParens current then unwrap_n n' (trim (strip_ends current)) else current
  end.

Definition unwrapOuterParens (expr : jstr) : jstr := unwrap_n (S (length expr)) (trim expr).

(** The [forEach] that sorts the parts into rules and base parts. *)
Fixpoint classify_parts (parts : list jstr) : outcome (list jstr * list jstr) :=
  match parts with
  | [] => Ret ([], [])
  | part :: parts' =>
      let! parsed := tryParseRequestRuleExpr part in
      let! rest := classify_parts parts' in
      Ret (match parsed with
           | Some (_ :: _) => (part :: rest.1, rest.2)
           | _ => (rest.1, part :: rest.2)
           end)
  end.

Record SplitExpr := MkSplit { billingExpr : jstr; requestRuleExpr : jstr }.

Definition splitBillingExprAndRequestRules (expr : jstr) : outcome SplitExpr :=
  let trimmed := trim expr in
  if negb (truthy trimmed) then Ret (MkSplit [] [])
  else
    let parts := splitTopLevelMultiply trimmed in
    if length parts <=? 1 then Ret (MkSplit trimmed [])
    else
      let! pr := classify_parts parts in
      match pr with
      | ((_ :: _) as ruleParts, [basePart]) =>
          Ret (MkSplit (unwrapOuterParens basePart) (join (js " * ") ruleParts))
      | _ => Ret (MkSplit trimmed [])
      end.

Definition combineBillingExpr (baseExpr requestRuleExpr : jstr) : jstr :=
  let base := trim baseExpr in
  let rules := trim requestRuleExpr in
  if negb (truthy base) then []
  else if negb (truthy rules) then base
  else js "(" ++ base ++ js ") * " ++ rules.

(** ** Editing *)

Definition createEmptyCondition : ParamHeaderCondition := MkPH Param [] MATCH_EQ [].
Definition createEmptyTimeCondition : TimeCondition :=
  MkTime hour (js "Asia/Shanghai") MATCH_GTE [] [] [].
Definition createEmptyRuleGroup : RequestRuleGroup := MkGroup [CPH createEmptyCondition] [].
Definition createEmptyTimeRuleGroup : RequestRuleGroup := MkGroup [CTime createEmptyTimeCondition] [].

(** The option values with their label keys. *)
Definition getRequestRuleMatchOptions (source : jstr) : list (jstr * jstr) :=
  if source === SOURCE_TIME then
    [(MATCH_EQ, js "Equals"); (MATCH_GTE, js "Greater than or equal");
     (MATCH_LT, js "Less than"); (MATCH_RANGE, js "Overnight range")]
  else
    let base := [(MATCH_EQ, js "Equals"); (MATCH_CONTAINS, js "Contains"); (MATCH_EXISTS, js "Exists")] in
    if source === SOURCE_HEADER then base
    else base ++ [(MATCH_GT, js "Greater than"); (MATCH_GTE, js "Greater than or equal");
                  (MATCH_LT, js "Less than"); (MATCH_LTE, js "Less than or equal")].

(** A partial condition: every field may be missing. *)
Record PartialCondition := MkPartial {
  pc_source : option jstr;
  pc_path : option jstr;
  pc_timeFunc : option jstr;
  pc_timezone : option jstr;
  pc_mode : option jstr;
  pc_value : option jstr;
  pc_rangeStart : option jstr;
  pc_rangeEnd : option jstr
}.

Definition no_condition : PartialCondition := MkPartial None None None None None None None None.

Definition isTimeFunc (value : option jstr) : option TimeFunc :=
  v ← value; p ← list_find (fun f => time_func_name f = v) TIME_FUNCS; Some p.2.

(** [options.some((item) => item.value === mode) ? mode : dflt]. *)
Definition pick_mode (source : jstr) (mode : option jstr) (dflt : jstr) : jstr :=
  match mode with
  | Some m => if mem m (getRequestRuleMatchOptions source).*1 then m else dflt
  | None => dflt
  end.

Definition normalizeCondition (cond : option PartialCondition) : RequestCondition :=
  let c := default no_condition cond in
  if js_eqb (pc_source c) (Some SOURCE_TIME) then
    CTime (MkTime (default hour (isTimeFunc (pc_timeFunc c)))
                  (opt_str_or (pc_timezone c) (js "Asia/Shanghai"))
                  (pick_mode SOURCE_TIME (pc_mode c) MATCH_GTE)
                  (default [] (pc_value c)) (default [] (pc_rangeStart c)) (default [] (pc_rangeEnd c)))
  else
    let source := if js_eqb (pc_source c) (Some SOURCE_HEADER) then Header else Param in
    CPH (MkPH source (opt_str_or (pc_path c) [])
              (pick_mode (ph_source_name source) (pc_mode c) MATCH_EQ)
              (default [] (pc_value c))).

(** A full condition as the partial one the builder passes on. *)
Definition partial_time (c : TimeCondition) : PartialCondition :=
  MkPartial (Some SOURCE_TIME) None (Some (time_func_name (tc_timeFunc c))) (Some (tc_timezone c))
            (Some (tc_mode c)) (Some (tc_value c)) (Some (tc_rangeStart c)) (Some (tc_rangeEnd c)).

Definition partial_ph (c : ParamHeaderCondition) : PartialCondition :=
  MkPartial (Some (ph_source_name (ph_source c))) (Some (ph_path c)) None None
            (Some (ph_mode c)) (Some (ph_value c)) None None.

(** ** Building *)

Definition buildExprLiteral (mode value : jstr) : jstr :=
  let text := trim value in
  if mode === MATCH_CONTAINS then quote text
  else if (text === js "true") || (text === js "false") then text
  else if is_numeric text then text
  else quote text.

Definition time_mode_op (mode : jstr) : jstr :=
  if mode === MATCH_EQ then js "=="
  else if mode === MATCH_GTE then js ">="
  else if mode === MATCH_LT then js "<"
  else js "==".

Definition buildTimeConditionExpr (cond : TimeCondition) : jstr :=
  match normalizeCondition (Some (partial_time cond)) with
  | CTime n =>
      let fn := time_func_name (tc_timeFunc n) ++ js "(" ++ quote (tc_timezone n) ++ js ")" in
      if tc_mode n === MATCH_RANGE then
        let s := trim (tc_rangeStart n) in
        let e := trim (tc_rangeEnd n) in
        if negb (is_numeric s) || negb (is_numeric e) then []
        else fn ++ js " >= " ++ s ++ js " || " ++ fn ++ js " < " ++ e
      else
        let v := trim (tc_value n) in
        if negb (is_numeric v) then []
        else fn ++ js " " ++ time_mode_op (tc_mode n) ++ js " " ++ v
  | CPH _ => []
  end.

Definition compare_mode_op (mode : jstr) : jstr :=
  if mode === MATCH_GT then js ">"
  else if mode === MATCH_GTE then js ">="
  else if mode === MATCH_LT then js "<"
  else js "<=".

Definition buildRequestConditionExpr (cond : RequestCondition) : jstr :=
  match cond with
  | CTime c => buildTimeConditionExpr c
  | CPH c =>
      match normalizeCondition (Some (partial_ph c)) with
      | CTime _ => []
      | CPH n =>
          let path := trim (ph_path n) in
          if negb (truthy path) then []
          else
            let sourceExpr := ph_source_name (ph_source n) ++ js "(" ++ quote path ++ js ")" in
            if ph_mode n === MATCH_EXISTS then
              match ph_source n with
              | Header => sourceExpr ++ js " != " ++ dq ++ dq
              | Param => sourceExpr ++ js " != nil"
              end
            else if ph_mode n === MATCH_CONTAINS then
              let has := js "has(" ++ sourceExpr ++ js ", "
                         ++ buildExprLiteral (ph_mode n) (ph_value n) ++ js ")" in
              match ph_source n with
              | Header => has
              | Param => sourceExpr ++ js " != nil && " ++ has
              end
            else if mem (ph_mode n) [MATCH_GT; MATCH_GTE; MATCH_LT; MATCH_LTE] then
              let numText := trim (ph_value n) in
              if negb (is_numeric numText) then []
              else sourceExpr ++ js " != nil && " ++ sourceExpr ++ js " "
                   ++ compare_mode_op (ph_mode n) ++ js " " ++ numText
            else sourceExpr ++ js " == " ++ buildExprLiteral (ph_mode n) (ph_value n)
      end
  end.

Definition buildRuleGroupFactor (group : RequestRuleGroup) : jstr :=
  let multiplier := trim (rg_multiplier group) in
  if negb (is_numeric multiplier) then []
  else
    let condExprs := filter_truthy (List.map buildRequestConditionExpr (rg_conditions group)) in
    match condExprs with
    | [] => []
    | _ =>
        let combined :=
          match condExprs with
          | [e] => e
          | _ => join (js " && ")
                   (List.map (fun e => if includes (js " || ") e then js "(" ++ e ++ js ")" else e) condExprs)
          end in
        js "(" ++ combined ++ js " ? " ++ multiplier ++ js " : 1)"
    end.

Definition buildRequestRuleExpr (groups : list RequestRuleGroup) : jstr :=
  join (js " * ") (filter_truthy (List.map buildRuleGroupFactor groups)).
