(* ===== verification/BillingRules.v ===== *)
(** * Request rules: what the editor writes, the parser reads

    The theorems on [BillingExpr.v]: the rules the builder prints parse back
    to themselves, an expression split after it was combined gives back its
    parts, and the conditions for which neither holds. *)
From S2P Require Import Prelude Regex Numbers Json BillingExpr.

(** ** Plain strings

    Text that needs no escape and that the scanners do not take for syntax:
    no quote, backslash, parenthesis, ampersand, bar, control unit, line
    separator or surrogate. *)
Definition plain_unit (c : N) : bool :=
  ((32 <=? c) && negb (c =? 34) && negb (c =? 92) && negb (c =? 40) && negb (c =? 41)
   && negb (c =? 38) && negb (c =? 124) && negb (c =? 8232) && negb (c =? 8233)
   && negb ((55296 <=? c) && (c <=? 57343)))%N.

Definition plain (s : jstr) : Prop := Forall (fun c => plain_unit c = true) s.

#[export] Instance plain_dec s : Decision (plain s).
Proof. apply _. Defined.

Ltac plain_cases H :=
  unfold plain_unit in H; bools;
  repeat match goal with
    | E : (_ <=? _)%N = true |- _ => apply N.leb_le in E
    | E : (_ && _) = false |- _ => apply andb_false_iff in E as [E|E]
    | E : (_ <=? _)%N = false |- _ => apply N.leb_gt in E
    end.

Lemma plain_not c s : plain s -> plain_unit c = false -> c ∉ s.
Proof.
  intros H Hc Hin. unfold plain in H. rewrite Forall_forall in H.
  specialize (H c Hin). congruence.
Qed.

Lemma quote_unit_plain c : plain_unit c = true -> quote_unit c = [c].
Proof.
  intros H. unfold quote_unit.
  repeat match goal with
    | |- context [(?a =? ?b)%N] => destruct (N.eqb_spec a b); [subst; discriminate|]
    end.
  destruct (N.ltb_spec c 32); [|done]. plain_cases H; lia.
Qed.

Lemma quote_body_plain s : plain s -> quote_body s = s.
Proof.
  induction 1 as [|c s Hc _ IH]; [done|]. simpl. rewrite IH, quote_unit_plain by done.
  assert (is_lead c = false /\ is_trail c = false) as [-> ->]; [|done].
  unfold is_lead, is_trail. plain_cases Hc; split; apply andb_false_iff; rewrite !N.leb_gt; lia.
Qed.

Lemma quote_plain s : plain s -> quote s = dq ++ s ++ dq.
Proof. intros H. unfold quote. by rewrite quote_body_plain. Qed.

Lemma read_string_plain s t : plain s -> read_string (s ++ 34%N :: t) = Some (s, t).
Proof.
  induction 1 as [|c s Hc _ IH]; [done|]. cbn [read_string app].
  destruct (N.eqb_spec c 34); [subst; discriminate|].
  destruct (N.eqb_spec c 92); [subst; discriminate|].
  destruct (N.ltb_spec c 32); [plain_cases Hc; lia|]. by rewrite IH.
Qed.

Lemma JSON_parse_quote s : plain s -> JSON_parse (quote s) = Ret (JStr s).
Proof.
  intros H. rewrite quote_plain by done. unfold JSON_parse.
  change (dq ++ s ++ dq) with (34%N :: (s ++ 34%N :: [])).
  cbn [read_value skip_ws json_ws N.eqb Pos.eqb orb]. by rewrite read_string_plain.
Qed.

Lemma plain_dot s : plain s -> Forall (fun c => dot c = true) s.
Proof.
  intros H. eapply Forall_impl; [exact H|]. simpl. intros c Hc. unfold dot.
  repeat match goal with
    | |- context [(?a =? ?b)%N] => destruct (N.eqb_spec a b); [subst; discriminate|]
    end. done.
Qed.

(** ** Numeric literals *)

Lemma num_units_numeric s : is_numeric s = true -> s <> [] /\ Forall (fun c => num_unit c = true) s.
Proof.
  unfold is_numeric, re_test. intros H. split; [by intros ->|].
  unfold NUMERIC_LITERAL_REGEX in H. cbn [RSeqs] in H. rewrite re_match_start in H.
  case_match eqn:E; [|done]. clear H.
  assert (forall c, is_digit c = true -> num_unit c = true) as Hd
    by (intros c Hc; unfold num_unit; by rewrite Hc).
  rewrite run_seq in E. apply (run_sound (fun c => num_unit c = true)) in E as (s1 & w1 & E1 & H1 & E);
    [|by apply over_lit; repeat constructor].
  rewrite run_seq in E. apply (run_sound (fun c => num_unit c = true)) in E as (s2 & w2 & E2 & H2 & E).
  2:{ cbn [over RSeqs RPlus]. repeat split; auto; by apply over_lit; repeat constructor. }
  rewrite run_seq in E. apply (run_sound (fun c => num_unit c = true)) in E as (s3 & w3 & E3 & H3 & E).
  2:{ cbn [over RSeqs RPlus]. repeat split; auto; intros c Hc; apply orb_true_iff in Hc as [Hc|Hc];
        bools; subst; done. }
  simpl in E, E1. destruct (r_rest s3) eqn:E4; [|done].
  subst s. rewrite E2, E3, app_nil_r.
  by apply Forall_app; split; [|apply Forall_app].
Qed.

Lemma numeric_no_unit c s : is_numeric s = true -> num_unit c = false -> c ∉ s.
Proof.
  intros [_ H]%num_units_numeric Hc Hin. rewrite Forall_forall in H.
  specialize (H c Hin). simpl in H. congruence.
Qed.

Lemma numeric_trim s : is_numeric s = true -> trim s = s.
Proof.
  intros [_ H]%num_units_numeric. apply trimmed_no_ws. apply forallb_forall.
  intros c Hc%list_elem_of_In. rewrite Forall_forall in H. specialize (H c Hc). simpl in H.
  by rewrite num_unit_not_ws.
Qed.

#[local] Opaque is_numeric.

(** ** Conditions the parser reads back *)

Definition ok_time (c : TimeCondition) : bool :=
  truthy (tc_timezone c) && bool_decide (plain (tc_timezone c)) &&
  (if tc_mode c === MATCH_RANGE then
     (tc_value c === []) && is_numeric (tc_rangeStart c) && is_numeric (tc_rangeEnd c)
   else mem (tc_mode c) [MATCH_EQ; MATCH_GTE; MATCH_LT] && is_numeric (tc_value c)
        && (tc_rangeStart c === []) && (tc_rangeEnd c === [])).

Definition plain_trimmed (s : jstr) : bool := bool_decide (plain s) && (trim s === s).

Definition ok_ph (c : ParamHeaderCondition) : bool :=
  truthy (ph_path c) && plain_trimmed (ph_path c) &&
  (if ph_mode c === MATCH_EXISTS then ph_value c === []
   else if ph_mode c === MATCH_EQ then plain_trimmed (ph_value c)
   else (ph_mode c === MATCH_CONTAINS) && match ph_source c with Header => true | Param => false end
        && plain_trimmed (ph_value c)).

Definition ok_condition (c : RequestCondition) : bool :=
  match c with CTime c => ok_time c | CPH c => ok_ph c end.

(** A nonempty conjunction with a numeric multiplier. *)
Definition ok_group (g : RequestRuleGroup) : bool :=
  is_numeric (rg_multiplier g) && match rg_conditions g with [] => false | _ => true end
  && forallb ok_condition (rg_conditions g).

(** ** Running the condition patterns *)

Lemma some_or_none {A} (x : option A) : match x with Some y => Some y | None => None end = x.
Proof. by destruct x. Qed.

(** Decide the [starts_with] tests whose outcome the literals settle. *)
Ltac prefix_tests :=
  repeat match goal with
    | |- context [starts_with ?a ?b] =>
        let v := eval vm_compute in (starts_with a b) in
        match v with true => idtac | false => idtac end;
        change (starts_with a b) with v; cbv iota
    end.

Lemma step_time_func {A} f t r st (k : rst -> option A) :
  r_rest st = time_func_name f ++ 40%N :: t ->
  run (RSeq (RCap 1 re_time_func) r) st k =
  run r (set_cap 1 (time_func_name f) (adv st (time_func_name f) (40%N :: t))) k.
Proof.
  intros Hs. rewrite run_seq, run_cap. unfold re_time_func. cbn [RAlts List.map TIME_FUNCS].
  rewrite !run_alt, !run_lit, Hs.
  destruct f; prefix_tests; (rewrite consumed_adv by exact Hs); by rewrite ?some_or_none.
Qed.

(** [f("tz")] followed by a space. *)
Lemma step_time_call {A} f tz t r st (k : rst -> option A) :
  r_rest st = time_func_name f ++ js "(" ++ dq ++ tz ++ dq ++ t -> tz <> [] -> 34%N ∉ tz ->
  run (RSeq (RCap 1 re_time_func) (RSeq (RLit (js "(")) (RSeq (RLit dq)
      (RSeq (RCap 2 (RPlus (RSet (not_unit 34)))) (RSeq (RLit dq) r))))) st k =
  run r (MkRst (Some 34%N) t ((2, tz) :: (1, time_func_name f) :: r_caps st)) k.
Proof.
  intros Hs Hne Hq. rewrite (step_time_func f (dq ++ tz ++ dq ++ t)) by done.
  rewrite (step_lit (js "(") (dq ++ tz ++ dq ++ t)) by done.
  by rewrite (step_quoted 2 tz t).
Qed.

Lemma step_back {A} i w t r st (k : rst -> option A) :
  cap i st = Some w -> r_rest st = w ++ t ->
  run (RSeq (RBack i) r) st k = run r (adv st w t) k.
Proof.
  intros Hc Hs. rewrite run_seq. cbn [run]. rewrite Hc, Hs, starts_with_app.
  by rewrite drop_app_length.
Qed.

(** A number at the end, or before a literal that no number starts. *)
Lemma step_num {A} i v t r st (k : rst -> option A) :
  r_rest st = v ++ t -> is_numeric v = true -> stops num_unit t ->
  (forall st' c s, r_rest st' = c :: s -> num_unit c = true -> run r st' k = None) ->
  run (RSeq (re_num i) r) st k = run r (set_cap i v (adv st v t)) k.
Proof. intros Hs [Hne Hv]%num_units_numeric Ht Hr. by apply step_class. Qed.

Lemma lit_rejects_num {A} a w r st (k : rst -> option A) c s :
  num_unit a = false -> r_rest st = c :: s -> num_unit c = true ->
  run (RSeq (RLit (a :: w)) r) st k = None.
Proof.
  intros Ha Hs Hc. apply step_lit_fail. rewrite Hs. cbn [starts_with].
  destruct (N.eqb_spec a c); [congruence|done].
Qed.

Lemma end_rejects {A} st (k : rst -> option A) c s : r_rest st = c :: s -> run REnd st k = None.
Proof. intros H. cbn [run]. by rewrite H. Qed.

Lemma time_func_of_name f : time_func_of (time_func_name f) = f.
Proof. by destruct f. Qed.

(** The printed forms, with the quotes spelt out. *)
Definition time_call (f : TimeFunc) (tz : jstr) : jstr :=
  time_func_name f ++ js "(" ++ dq ++ tz ++ dq ++ js ")".

Definition range_text (f : TimeFunc) (tz s e : jstr) : jstr :=
  time_call f tz ++ js " >= " ++ s ++ js " || " ++ time_call f tz ++ js " < " ++ e.

Definition ph_call (s : PHSource) (p : jstr) : jstr :=
  ph_source_name s ++ js "(" ++ dq ++ p ++ dq ++ js ")".

Ltac norm_app := unfold range_text, time_call, ph_call; rewrite <-?app_assoc.

(** [f("tz") >= s || f("tz") < e], bare or in parentheses. *)
Lemma run_range {A} f tz s e r tail st (k : rst -> option A) :
  r_rest st = range_text f tz s e ++ tail ->
  tz <> [] -> 34%N ∉ tz -> is_numeric s = true -> is_numeric e = true -> stops num_unit tail ->
  (forall st' c s, r_rest st' = c :: s -> num_unit c = true -> run r st' k = None) ->
  run (RSeq (RCap 1 re_time_func) (RSeq (RLit (js "(")) (RSeq (RLit dq)
      (RSeq (RCap 2 (RPlus (RSet (not_unit 34)))) (RSeq (RLit dq)
      (RSeq (RLit (js ") >= ")) (RSeq (re_num 3) (RSeq (RLit (js " || "))
      (RSeq (RBack 1) (RSeq (RLit (js "(" ++ dq)) (RSeq (RBack 2)
      (RSeq (RLit (dq ++ js ") < ")) (RSeq (re_num 4) r))))))))))))) st k =
  run r (MkRst (match last e with Some c => Some c | None => Some 32%N end) tail
           ((4, e) :: (3, s) :: (2, tz) :: (1, time_func_name f) :: r_caps st)) k.
Proof.
  intros Hs Hne Hq Hns Hne' Ht Hr. revert Hs. norm_app. intros Hs.
  erewrite step_time_call; [|exact Hs|done..].
  erewrite step_lit; [|reflexivity].
  erewrite step_num; [|reflexivity|done|done|].
  2:{ intros. by eapply lit_rejects_num. }
  erewrite step_lit; [|reflexivity].
  erewrite step_back; [|reflexivity|reflexivity].
  erewrite step_lit; [|reflexivity].
  erewrite step_back; [|reflexivity|reflexivity].
  erewrite step_lit; [|reflexivity].
  erewrite step_num; [|reflexivity|done..]. done.
Qed.

Section conditions.
Context (f : TimeFunc) (tz : jstr) (Htz : tz <> []) (Hq : 34%N ∉ tz).

Lemma parse_range s e :
  is_numeric s = true -> is_numeric e = true ->
  tryParseTimeCondition (range_text f tz s e) = Some (CTime (MkTime f tz MATCH_RANGE [] s e)).
Proof using Htz Hq.
  intros Hs He. unfold tryParseTimeCondition, re_time_range, re_quoted. cbn [app RSeqs].
  rewrite re_match_start. erewrite run_range with (tail := []); [|by simpl; rewrite app_nil_r|done..|].
  2:{ intros; by eapply end_rejects. }
  cbn [run r_rest]. unfold range_condition, cap', cap.
  cbn -[time_func_of time_func_name]. by rewrite time_func_of_name.
Qed.

Lemma parse_range_parens s e :
  is_numeric s = true -> is_numeric e = true ->
  tryParseTimeCondition (js "(" ++ range_text f tz s e ++ js ")") =
  Some (CTime (MkTime f tz MATCH_RANGE [] s e)).
Proof using Htz Hq.
  intros Hs He. unfold tryParseTimeCondition, re_time_range, re_quoted. cbn [app RSeqs].
  rewrite !re_match_start.
  match goal with |- match ?a with _ => _ end = _ => assert (a = None) as -> by reflexivity end.
  erewrite step_lit; [|reflexivity].
  erewrite run_range with (tail := js ")"); [|done..|].
  2:{ intros; by eapply lit_rejects_num. }
  erewrite step_lit; [|reflexivity].
  cbn [run r_rest adv]. unfold range_condition, cap', cap.
  cbn -[time_func_of time_func_name]. by rewrite time_func_of_name.
Qed.

(** The operators of a single comparison. *)
Lemma step_time_op {A} op v r st (k : rst -> option A) :
  op ∈ [js "=="; js ">="; js "<"] -> r_rest st = op ++ js " " ++ v ->
  run (RSeq (RCap 3 (RAlts [RLit (js "=="); RLit (js ">="); RLit (js "<")])) r) st k =
  run r (set_cap 3 op (adv st op (js " " ++ v))) k.
Proof.
  intros Hop Hs. rewrite run_seq, run_cap. cbn [RAlts]. rewrite !run_alt, !run_lit, Hs.
  rewrite !list_elem_of_In in Hop. destruct Hop as [<-|[<-|[<-|[]]]]; prefix_tests;
    (rewrite consumed_adv by exact Hs); by rewrite ?some_or_none.
Qed.

Lemma parse_time_single op v :
  op ∈ [js "=="; js ">="; js "<"] -> is_numeric v = true ->
  tryParseTimeCondition (time_call f tz ++ js " " ++ op ++ js " " ++ v) =
  Some (CTime (MkTime f tz (time_op_mode op) v [] [])).
Proof using Htz Hq.
  intros Hop Hv. unfold tryParseTimeCondition, re_time_range, re_time_single, re_quoted.
  cbn [app RSeqs]. rewrite !re_match_start. norm_app.
  erewrite step_time_call; [|reflexivity|done..].
  match goal with |- match ?a with _ => _ end = _ => assert (a = None) as -> end.
  { pose proof Hop as Hop'. rewrite list_elem_of_In in Hop'.
    destruct Hop' as [<-|[<-|[<-|[]]]]; [by apply step_lit_fail| |by apply step_lit_fail].
    erewrite step_lit; [|reflexivity].
    erewrite step_num; [|symmetry; apply app_nil_r|done|done|].
    - by apply step_lit_fail.
    - intros. by eapply lit_rejects_num. }
  match goal with |- match ?a with _ => _ end = _ => assert (a = None) as -> by (destruct f; reflexivity) end.
  erewrite step_time_call; [|reflexivity|done..].
  erewrite step_lit; [|reflexivity].
  erewrite step_time_op; [|done|reflexivity].
  erewrite step_lit; [|reflexivity].
  erewrite step_num; [|symmetry; apply app_nil_r|done|done|].
  2:{ intros; by eapply end_rejects. }
  cbn [run r_rest adv set_cap]. unfold cap', cap.
  cbn -[time_func_of time_func_name time_op_mode]. by rewrite time_func_of_name.
Qed.
End conditions.

(** ** Parameter and header conditions *)

Lemma time_None_run s :
  run (RSeq (RCap 1 re_time_func) REps) (init s) Some = None ->
  starts_with (js "(") s = false -> tryParseTimeCondition s = None.
Proof.
  intros H Hp. assert (forall r, run (RSeq (RCap 1 re_time_func) r) (init s) (@Some rst) = None) as Hr.
  { intros r. revert H. rewrite !run_seq, !run_cap. unfold re_time_func.
    cbn [RAlts List.map TIME_FUNCS]. rewrite !run_alt, !run_lit. by repeat case_match. }
  unfold tryParseTimeCondition, re_time_range, re_time_single, re_quoted. cbn [app RSeqs].
  rewrite !re_match_start, !Hr. by rewrite step_lit_fail.
Qed.

Lemma time_None_ph s p t : tryParseTimeCondition (ph_call s p ++ t) = None.
Proof. by apply time_None_run; destruct s. Qed.

Lemma time_None_has t : tryParseTimeCondition (js "has(" ++ t) = None.
Proof. by apply time_None_run. Qed.

Section ph_conditions.
Context (p : jstr) (Hp : p <> []) (Hq : 34%N ∉ p).

(** [source("p")] at the start of a pattern. *)
Lemma step_ph_call {A} s t r (k : rst -> option A) prev caps :
  run (RSeq (RLit (ph_source_name s ++ js "(")) (RSeq (RLit dq)
      (RSeq (RCap 1 (RPlus (RSet (not_unit 34)))) (RSeq (RLit dq) r))))
      (MkRst prev (ph_call s p ++ t) caps) k =
  run r (MkRst (Some 34%N) (js ")" ++ t) ((1, p) :: caps)) k.
Proof using Hp Hq.
  norm_app. erewrite step_lit; [|by simpl; rewrite <-app_assoc].
  by erewrite step_quoted; [|reflexivity|done..].
Qed.

(** The pattern for [wrong] does not match what [right] starts. *)
Ltac ph_fails s :=
  rewrite re_match_start; unfold init;
  first [ reflexivity
        | rewrite (step_ph_call s); by apply step_lit_fail ].

Ltac next_None tac :=
  match goal with |- match ?a with _ => _ end = _ => assert (a = None) as -> by tac end.

Lemma parse_header_exists :
  tryParseRequestCondition (ph_call Header p ++ js " != " ++ dq ++ dq) =
  Ret (Some (ph_condition Header p MATCH_EXISTS [])).
Proof using Hp Hq.
  unfold tryParseRequestCondition. rewrite time_None_ph.
  unfold re_header_exists, re_quoted. cbn [app RSeqs]. rewrite re_match_start. unfold init.
  erewrite (step_ph_call Header). erewrite step_lit; [|symmetry; apply app_nil_r]. done.
Qed.

Lemma parse_param_exists :
  tryParseRequestCondition (ph_call Param p ++ js " != nil") =
  Ret (Some (ph_condition Param p MATCH_EXISTS [])).
Proof using Hp Hq.
  unfold tryParseRequestCondition. rewrite time_None_ph.
  unfold re_header_exists, re_param_exists, re_quoted. cbn [app RSeqs].
  next_None ltac:(ph_fails Param). rewrite re_match_start. unfold init.
  erewrite (step_ph_call Param). erewrite step_lit; [|symmetry; apply app_nil_r]. done.
Qed.

Lemma step_source {A} s t r st (k : rst -> option A) :
  r_rest st = ph_source_name s ++ js "(" ++ t ->
  run (RSeq (RCap 1 (RAlts [RLit SOURCE_PARAM; RLit SOURCE_HEADER])) r) st k =
  run r (set_cap 1 (ph_source_name s) (adv st (ph_source_name s) (js "(" ++ t))) k.
Proof.
  intros Hs. rewrite run_seq, run_cap. cbn [RAlts]. rewrite run_alt, !run_lit, Hs.
  destruct s; prefix_tests; (rewrite consumed_adv by exact Hs); by rewrite ?some_or_none.
Qed.

Lemma parse_equals s lit v :
  lit <> [] -> Forall (fun c => dot c = true) lit -> parseExprLiteral lit = Some v ->
  tryParseRequestCondition (ph_call s p ++ js " == " ++ lit) =
  Ret (Some (ph_condition s p MATCH_EQ (json_String v))).
Proof using Hp Hq.
  intros Hne Hdot Hlit. unfold tryParseRequestCondition. rewrite time_None_ph.
  unfold re_header_exists, re_param_exists, re_header_contains, re_param_contains,
    re_param_compare, re_equals, re_quoted. cbn [app RSeqs].
  do 3 next_None ltac:(destruct s; ph_fails s || (first [ph_fails Param|ph_fails Header])).
  match goal with |- match (re_match ?r ?x ≫= _) with _ => _ end = _ =>
    assert (re_match r x = None) as -> by (destruct s; first [ph_fails Param|ph_fails Header]) end.
  cbn [mbind option_bind].
  match goal with |- match (re_match ?r ?x ≫= _) with _ => _ end = _ =>
    assert (re_match r x = None) as -> by (destruct s; first [ph_fails Param|ph_fails Header]) end.
  cbn [mbind option_bind].
  rewrite re_match_start. unfold init. norm_app.
  erewrite step_source; [|reflexivity]. erewrite step_lit; [|reflexivity].
  erewrite step_quoted; [|reflexivity|done..]. erewrite step_lit; [|reflexivity].
  erewrite step_class; [|symmetry; apply app_nil_r|done..|].
  2:{ intros; by eapply end_rejects. }
  cbn [run r_rest adv set_cap]. unfold cap', cap. cbn -[parseExprLiteral json_String js_eqb].
  rewrite Hlit. cbn. by destruct s.
Qed.

(** A bare comparison is no condition of the language. *)
Lemma parse_compare_None op v :
  op ∈ [js ">"; js ">="; js "<"; js "<="] ->
  tryParseRequestCondition (ph_call Param p ++ js " " ++ op ++ js " " ++ v) = Ret None.
Proof using Hp Hq.
  intros Hop. unfold tryParseRequestCondition. rewrite time_None_ph.
  unfold re_header_exists, re_param_exists, re_header_contains, re_param_contains,
    re_param_compare, re_equals, re_quoted. cbn [app RSeqs]. rewrite list_elem_of_In in Hop.
  do 3 next_None ltac:(destruct Hop as [<-|[<-|[<-|[<-|[]]]]]; ph_fails Param).
  do 2 (match goal with |- match (re_match ?r ?x ≫= _) with _ => _ end = _ =>
    assert (re_match r x = None) as -> by (destruct Hop as [<-|[<-|[<-|[<-|[]]]]]; ph_fails Param) end;
    cbn [mbind option_bind]).
  rewrite re_match_start. unfold init. norm_app.
  erewrite (step_source Param); [|reflexivity]. erewrite step_lit; [|reflexivity].
  erewrite step_quoted; [|reflexivity|done..].
  rewrite step_lit_fail; [done|]. by destruct Hop as [<-|[<-|[<-|[<-|[]]]]].
Qed.
End ph_conditions.

(** Without backslashes the escape alternative of a string pattern is idle. *)
Lemma run_star_no_escape {A} q e st (k : rst -> option A) :
  92%N ∉ r_rest st ->
  run (RStar (RAlt (RSet q) (RSeq (RSet (N.eqb 92)) e))) st k = run (RStar (RSet q)) st k.
Proof.
  rewrite !run_star. generalize (length (r_rest st)) as n. intros n. revert st.
  induction n as [|n IH]; intros [prev s caps] Hs; [done|]. cbn [star_loop].
  cbn [r_rest] in Hs. rewrite run_alt, run_seq. destruct s as [|c s]; [done|].
  rewrite !run_set. apply not_elem_of_cons in Hs as [Hc Hs].
  rewrite (proj2 (N.eqb_neq 92 c) Hc). destruct (q c); [|done]. cbn [r_rest].
  destruct (_ <? _); [|done]. rewrite IH by done. by rewrite some_or_none.
Qed.

Lemma parse_header_contains p v :
  p <> [] -> 34%N ∉ p -> plain v ->
  tryParseRequestCondition (js "has(" ++ ph_call Header p ++ js ", " ++ dq ++ v ++ dq ++ js ")") =
  Ret (Some (ph_condition Header p MATCH_CONTAINS v)).
Proof.
  intros Hp Hq Hv. unfold tryParseRequestCondition. rewrite time_None_has.
  unfold re_header_exists, re_param_exists, re_header_contains, re_quoted, re_json_string. cbn [app RSeqs].
  do 2 (rewrite re_match_start, step_lit_fail by done).
  rewrite re_match_start. norm_app.
  erewrite step_lit; [|reflexivity]. erewrite step_quoted; [|reflexivity|done..].
  erewrite step_lit; [|reflexivity].
  rewrite run_seq, run_cap. erewrite step_lit; [|reflexivity].
  rewrite run_seq, run_star_no_escape.
  2:{ cbn [r_rest adv]. rewrite !not_elem_of_app. split; [by eapply plain_not|].
      split; [by vm_compute; set_solver|]. by vm_compute; set_solver. }
  erewrite run_star_set; [|reflexivity| |done|].
  - rewrite run_lit. cbn [r_rest adv]. rewrite starts_with_app.
    assert (dq ++ v ++ dq ++ js ")" = (dq ++ v ++ dq) ++ js ")") as E by (by rewrite <-!app_assoc).
    erewrite step_lit; [|reflexivity]. cbn [run r_rest adv]. unfold cap', cap, consumed. cbn [r_rest adv r_caps set_cap cap_of Nat.eqb default].
    rewrite E, length_app.
    replace (length (dq ++ v ++ dq) + length (js ")") - length (drop (length dq) (dq ++ js ")")))
      with (length (dq ++ v ++ dq)) by (simpl; lia).
    rewrite take_app_length, <-quote_plain by done.
    unfold parse_string_literal, id. by rewrite JSON_parse_quote.
  - eapply Forall_impl; [exact Hv|]. simpl. intros c Hc.
    destruct (N.eqb_spec c 34); [by subst|]. by destruct (N.eqb_spec c 92); [subst|].
  - left. intros u c w ->. rewrite run_lit. cbn [r_rest adv dq starts_with app].
    destruct (N.eqb_spec 34 c); [|done]. subst. exfalso.
    eapply (plain_not 34%N); [exact Hv|done|set_solver].
Qed.

(** ** Literals *)

Lemma quote_not_numeric v : is_numeric (quote v) = false.
Proof.
  destruct (is_numeric (quote v)) eqn:E; [|done].
  apply num_units_numeric in E as [_ E]. unfold quote in E. simpl in E.
  by apply Forall_cons in E as [? _].
Qed.

Lemma trim_quote v : trim (quote v) = quote v.
Proof. unfold quote. by apply (trimmed_ends 34 (quote_body v) 34). Qed.

Lemma literal_roundtrip v :
  plain v -> trim v = v ->
  let lit := buildExprLiteral MATCH_EQ v in
  lit <> [] /\ Forall (fun c => dot c = true) lit /\
  exists j, parseExprLiteral lit = Some j /\ json_String j = v.
Proof.
  intros Hv Ht. unfold buildExprLiteral. rewrite Ht.
  change (MATCH_EQ === MATCH_CONTAINS) with false. cbv iota.
  destruct ((v === js "true") || (v === js "false")) eqn:Eb; [|destruct (is_numeric v) eqn:En].
  - split; [by intros ->|]. split; [by apply plain_dot|]. exists (JStr v). split; [|done].
    unfold parseExprLiteral. by rewrite Ht, Eb.
  - split; [by intros ->|]. split; [by apply plain_dot|]. exists (JStr v). split; [|done].
    unfold parseExprLiteral. by rewrite Ht, Eb, En.
  - split; [done|]. rewrite quote_plain at 1 by done. split.
    + apply Forall_app. split; [by repeat constructor|]. apply Forall_app.
      split; [by apply plain_dot|by repeat constructor].
    + exists (JStr v). split; [|done]. unfold parseExprLiteral. rewrite trim_quote.
      change (quote v === js "true") with false. change (quote v === js "false") with false.
      rewrite quote_not_numeric, JSON_parse_quote by done. done.
Qed.

(** ** Parenthesis depth *)

Definition depth_step (d : Z) (c : N) : Z :=
  let d1 := if (c =? 40)%N then (d + 1)%Z else d in
  if (c =? 41)%N then (d1 - 1)%Z else d1.

(** The depth after [s], provided it stays positive all along. *)
Fixpoint stays (d : Z) (s : jstr) : option Z :=
  match s with
  | [] => Some d
  | c :: s' => let d' := depth_step d c in if (0 <? d')%Z then stays d' s' else None
  end.

(** Between outer parentheses, [s] closes what it opens and no more. *)
Definition well_nested (s : jstr) : bool := js_eqb (stays 1 s) (Some 1%Z).

Inductive balanced : jstr -> Prop :=
| bal_nil : balanced []
| bal_unit c s : c <> 40%N -> c <> 41%N -> balanced s -> balanced (c :: s)
| bal_paren a s : balanced a -> balanced s -> balanced (40%N :: a ++ 41%N :: s).

Lemma stays_cons d c s :
  stays d (c :: s) = if (0 <? depth_step d c)%Z then stays (depth_step d c) s else None.
Proof. done. Qed.

Lemma stays_app d a b : stays d (a ++ b) = stays d a ≫= fun d' => stays d' b.
Proof. revert d. induction a as [|c a IH]; intros d; simpl; [done|]. case_match; [apply IH|done]. Qed.

Lemma balanced_app a b : balanced a -> balanced b -> balanced (a ++ b).
Proof.
  induction 1 as [|c a H1 H2 _ IH|a s Ha _ Hs IH]; intros Hb; simpl; [done| |].
  - constructor; auto.
  - rewrite <-app_assoc. simpl. apply bal_paren; auto.
Qed.

Lemma balanced_flat s : 40%N ∉ s -> 41%N ∉ s -> balanced s.
Proof. induction s; intros ? ?; constructor; set_solver. Qed.

Lemma balanced_stays s d : balanced s -> (0 < d)%Z -> stays d s = Some d.
Proof.
  intros H. revert d. induction H as [|c s H1 H2 _ IH|a s _ IHa _ IHs]; intros d Hd; [done| |].
  - simpl. unfold depth_step. rewrite (proj2 (N.eqb_neq _ _) H1), (proj2 (N.eqb_neq _ _) H2).
    rewrite (proj2 (Z.ltb_lt _ _)) by done. auto.
  - rewrite stays_cons. change (depth_step d 40) with (d + 1)%Z.
    rewrite (proj2 (Z.ltb_lt _ _)) by lia. rewrite stays_app, IHa by lia.
    cbn [mbind option_bind]. rewrite stays_cons. change (depth_step (d + 1) 41) with (d + 1 - 1)%Z.
    replace (d + 1 - 1)%Z with d by lia. rewrite (proj2 (Z.ltb_lt _ _)) by done. auto.
Qed.

Lemma balanced_depth s d : balanced s -> foldl depth_step d s = d.
Proof.
  intros H. revert d. induction H as [|c s H1 H2 _ IH|a s _ IHa _ IHs]; intros d; [done| |].
  - simpl. unfold depth_step at 2.
    by rewrite (proj2 (N.eqb_neq _ _) H1), (proj2 (N.eqb_neq _ _) H2), IH.
  - simpl. rewrite foldl_app, IHa. simpl. rewrite IHs. unfold depth_step. simpl. lia.
Qed.

(** ** The scanner *)

(** Inside parentheses nothing is split. *)
Lemma scan_stays sep s t cur d d' :
  stays d s = Some d' ->
  scan_top sep (s ++ t) 0 cur d = scan_top sep t 0 (rev s ++ cur) d'.
Proof.
  revert cur d. induction s as [|c s IH]; intros cur d H; [by simplify_eq/=|].
  cbn [stays] in H. cbn [app scan_top].
  change (if (c =? 41)%N then _ else _) with (depth_step d c).
  case_match eqn:E; [|done]. apply Z.ltb_lt in E.
  rewrite (proj2 (Z.eqb_neq _ _)) by lia. cbn [andb].
  rewrite IH by done. simpl. by rewrite <-app_assoc.
Qed.

(** A separator at depth zero ends a piece. *)
Lemma scan_sep c sep t cur :
  c <> 40%N -> c <> 41%N ->
  scan_top (c :: sep) ((c :: sep) ++ t) 0 cur 0 = trim (rev cur) :: scan_top (c :: sep) t 0 [] 0.
Proof.
  intros H1 H2. cbn [app scan_top].
  rewrite (proj2 (N.eqb_neq _ _) H1), (proj2 (N.eqb_neq _ _) H2).
  cbn [Z.eqb andb]. change (c :: sep ++ t) with ((c :: sep) ++ t). rewrite starts_with_app.
  f_equal. cbn [length]. rewrite Nat.sub_succ, Nat.sub_0_r.
  generalize (c :: sep) as sep0. intros sep0. clear.
  induction sep as [|d sep IH]; [done|]. cbn [app scan_top length]. apply IH.
Qed.

(** Text with no second unit of the separator, and that does not end in its
    first one, is not split at any depth. *)
Lemma scan_avoids a b sep s t cur d :
  b ∉ s -> last s <> Some a ->
  scan_top (a :: b :: sep) (s ++ t) 0 cur d =
  scan_top (a :: b :: sep) t 0 (rev s ++ cur) (foldl depth_step d s).
Proof.
  revert cur d. induction s as [|c s IH]; intros cur d Hb Hl; [done|].
  apply not_elem_of_cons in Hb as [Hb Hbs]. cbn [app scan_top foldl].
  change (if (c =? 41)%N then _ else _) with (depth_step d c).
  assert (starts_with (a :: b :: sep) (c :: s ++ t) = false) as ->.
  { cbn [starts_with]. destruct (N.eqb_spec a c); [|done]. subst. simpl.
    destruct s as [|e s]; [done|]. simpl.
    destruct (N.eqb_spec b e); [|done]. set_solver. }
  rewrite andb_false_r, IH; [by simpl; rewrite <-app_assoc|done|].
  rewrite last_cons in Hl. by destruct (last s).
Qed.

(** ** The text of a condition *)

(** Trimmed, nonempty, balanced and free of the conjunction's unit. *)
Definition text_ok (e : jstr) : Prop := trimmed e /\ e <> [] /\ 38%N ∉ e /\ balanced e.

Lemma trimmed_head_last s c d :
  head s = Some c -> last s = Some d -> is_ws c = false -> is_ws d = false -> trimmed s.
Proof.
  destruct s as [|c' s]; [done|]. simpl. intros [= ->] Hl Hc Hd.
  destruct s as [|x s'] using rev_ind.
  - by apply trimmed_one.
  - rewrite app_comm_cons, last_snoc in Hl. simplify_eq. by apply trimmed_ends.
Qed.

Lemma text_ok_intro e c d :
  head e = Some c -> last e = Some d -> is_ws c = false -> is_ws d = false ->
  38%N ∉ e -> balanced e -> text_ok e.
Proof.
  intros Hh Hl Hc Hd Ha Hb. split; [by eapply trimmed_head_last|]. split; [by destruct e|done].
Qed.

Lemma numeric_last v : is_numeric v = true -> exists d, last v = Some d /\ is_ws d = false.
Proof.
  intros [Hne Hv]%num_units_numeric. destruct (last v) as [d|] eqn:E.
  - exists d. split; [done|]. apply num_unit_not_ws. rewrite Forall_forall in Hv.
    apply Hv. apply last_Some in E as [l ->]. set_solver.
  - by apply last_None in E.
Qed.

Lemma numeric_balanced v : is_numeric v = true -> balanced v.
Proof. intros H. by apply balanced_flat; eapply numeric_no_unit. Qed.

Lemma plain_balanced v : plain v -> balanced v.
Proof. intros H. by apply balanced_flat; eapply plain_not. Qed.

Lemma lit_balanced l : forallb (fun c => negb (c =? 40) && negb (c =? 41))%N l = true -> balanced l.
Proof.
  intros H. rewrite forallb_forall in H.
  apply balanced_flat; intros Hin%list_elem_of_In; by apply H in Hin.
Qed.

Lemma lit_no_unit a l : forallb (fun c => negb (c =? a))%N l = true -> a ∉ l.
Proof.
  intros H Hin%list_elem_of_In. rewrite forallb_forall in H. apply H in Hin. by rewrite N.eqb_refl in Hin.
Qed.

Lemma call_balanced name p :
  forallb (fun c => negb (c =? 40) && negb (c =? 41))%N name = true -> plain p ->
  balanced (name ++ js "(" ++ dq ++ p ++ dq ++ js ")").
Proof.
  intros Hn Hp. apply balanced_app; [by apply lit_balanced|].
  assert (js "(" ++ dq ++ p ++ dq ++ js ")" = 40%N :: (dq ++ p ++ dq) ++ 41%N :: []) as ->.
  { change (js "(") with [40%N]. change (js ")") with [41%N]. by rewrite <-!app_assoc. }
  apply bal_paren; [|constructor].
  by apply balanced_app; [by apply lit_balanced|apply balanced_app; [by apply plain_balanced|by apply lit_balanced]].
Qed.

Lemma time_call_balanced f tz : plain tz -> balanced (time_call f tz).
Proof. intros. by apply call_balanced; [destruct f|]. Qed.

Lemma ph_call_balanced s p : plain p -> balanced (ph_call s p).
Proof. intros. by apply call_balanced; [destruct s|]. Qed.

(** Membership of a unit in a text made of literals, plain text and numbers. *)
Ltac no_unit :=
  rewrite ?not_elem_of_app; repeat split;
  first [ by eapply plain_not; [eassumption|] | by eapply numeric_no_unit; [eassumption|]
        | by apply lit_no_unit | idtac ].

Ltac balance :=
  repeat match goal with |- balanced (_ ++ _) => apply balanced_app end;
  first [ by apply time_call_balanced | by apply ph_call_balanced | by apply numeric_balanced
        | by apply plain_balanced | by apply lit_balanced | idtac ].

Lemma call_no_unit a name p :
  plain name -> plain p -> plain_unit a = false -> a <> 34%N -> a <> 40%N -> a <> 41%N ->
  a ∉ name ++ js "(" ++ dq ++ p ++ dq ++ js ")".
Proof.
  intros Hn Hp Ha H1 H2 H3. change (js "(") with [40%N]. change (js ")") with [41%N]. unfold dq.
  rewrite !not_elem_of_app, !list_elem_of_singleton. repeat split; try done; by eapply plain_not.
Qed.

Lemma time_call_no_unit a f tz :
  plain tz -> plain_unit a = false -> a <> 34%N -> a <> 40%N -> a <> 41%N -> a ∉ time_call f tz.
Proof. intros. by apply call_no_unit; [destruct f; repeat constructor|..]. Qed.

Lemma ph_call_no_unit a s p :
  plain p -> plain_unit a = false -> a <> 34%N -> a <> 40%N -> a <> 41%N -> a ∉ ph_call s p.
Proof. intros. by apply call_no_unit; [destruct s; repeat constructor|..]. Qed.

(** ** Building and parsing one condition *)

Lemma includes_absent a b w s : b ∉ s -> includes (a :: b :: w) s = false.
Proof.
  intros H. unfold includes. rewrite index_of_None_intro; [done|].
  intros m. apply not_true_is_false. intros [t Ht]%starts_with_spec.
  apply H. rewrite <-(take_drop m s), Ht. set_solver.
Qed.

Lemma isTimeFunc_name f : isTimeFunc (Some (time_func_name f)) = Some f.
Proof. by destruct f. Qed.

Lemma mem_cases `{EqDecision A} (x : A) l : mem x l = true -> Exists (eq x) l.
Proof. rewrite mem_true, Exists_exists. eauto. Qed.

Lemma normalize_time c : ok_time c = true -> normalizeCondition (Some (partial_time c)) = CTime c.
Proof.
  unfold ok_time. intros H. destruct c as [f tz mode v s e]; cbn [tc_timezone tc_mode tc_value tc_rangeStart tc_rangeEnd] in H.
  unfold normalizeCondition, partial_time.
  cbn [id pc_source pc_timeFunc pc_timezone pc_mode pc_value pc_rangeStart pc_rangeEnd tc_timeFunc tc_timezone tc_mode tc_value tc_rangeStart tc_rangeEnd from_option].
  rewrite js_eqb_refl, isTimeFunc_name. cbn [id from_option].
  bools. unfold opt_str_or, str_or. rewrite H. unfold pick_mode.
  assert (mem mode (getRequestRuleMatchOptions SOURCE_TIME).*1 = true) as ->; [|done].
  destruct (mode === MATCH_RANGE) eqn:E; bools; [subst; vm_compute; reflexivity|].
  match goal with Hm : mem mode _ = true |- _ => apply mem_cases in Hm; revert Hm end.
  rewrite !Exists_cons, Exists_nil.
  intros [->|[->|[->|[]]]]; vm_compute; reflexivity.
Qed.

Lemma build_time c :
  ok_time c = true ->
  buildRequestConditionExpr (CTime c) =
  if tc_mode c === MATCH_RANGE
  then range_text (tc_timeFunc c) (tc_timezone c) (tc_rangeStart c) (tc_rangeEnd c)
  else time_call (tc_timeFunc c) (tc_timezone c) ++ js " " ++ time_mode_op (tc_mode c) ++ js " " ++ tc_value c.
Proof.
  intros H. cbn [buildRequestConditionExpr]. unfold buildTimeConditionExpr.
  rewrite normalize_time by done. unfold ok_time in H. bools.
  match goal with Hp : bool_decide (plain _) = true |- _ => apply bool_decide_eq_true in Hp end.
  rewrite quote_plain by done.
  destruct (tc_mode c === MATCH_RANGE) eqn:E; bools.
  - rewrite !numeric_trim by done.
    repeat match goal with Hn : is_numeric _ = true |- _ => rewrite Hn end.
    cbn [negb orb]. norm_app. done.
  - rewrite !numeric_trim by done.
    repeat match goal with Hn : is_numeric _ = true |- _ => rewrite Hn end.
    cbn [negb]. norm_app. done.
Qed.

Definition condition_reads (c : RequestCondition) (e : jstr) : Prop :=
  text_ok e /\ tryParseRequestCondition e = Ret (Some c) /\
  (includes (js " || ") e = true -> tryParseRequestCondition (js "(" ++ e ++ js ")") = Ret (Some c)).

Lemma time_condition_reads c : ok_time c = true -> condition_reads (CTime c) (buildRequestConditionExpr (CTime c)).
Proof.
  intros H. rewrite build_time by done. unfold ok_time in H.
  destruct c as [f tz mode v s e]; cbn [tc_timeFunc tc_timezone tc_mode tc_value tc_rangeStart tc_rangeEnd] in *.
  bools. match goal with Hp : bool_decide (plain _) = true |- _ => apply bool_decide_eq_true in Hp as Hpl end.
  assert (34%N ∉ tz) by (by eapply plain_not).
  assert (tz <> []) by (by apply truthy_true).
  destruct (mode === MATCH_RANGE) eqn:E; bools; subst.
  - unfold condition_reads, tryParseRequestCondition. rewrite parse_range, parse_range_parens by done.
    split; [|done]. destruct (numeric_last e) as (d & Hd & Hws); [done|].
    apply (text_ok_intro _ (default 0%N (head (time_func_name f))) d).
    + by destruct f.
    + unfold range_text. by rewrite !last_app, Hd.
    + by destruct f.
    + done.
    + unfold range_text. no_unit; by apply time_call_no_unit.
    + unfold range_text. balance.
  - match goal with Hm : mem mode _ = true |- _ => apply mem_cases in Hm as Hmode end.
    rewrite !Exists_cons, Exists_nil in Hmode.
    destruct (numeric_last v) as (d & Hd & Hws); [done|].
    assert (text_ok (time_call f tz ++ js " " ++ time_mode_op mode ++ js " " ++ v)) as Hok.
    { apply (text_ok_intro _ (default 0%N (head (time_func_name f))) d).
      + by destruct f.
      + by rewrite !last_app, Hd.
      + by destruct f.
      + done.
      + no_unit; [by apply time_call_no_unit|]. by destruct Hmode as [->|[->|[->|[]]]]; apply lit_no_unit.
      + balance. by destruct Hmode as [->|[->|[->|[]]]]; apply lit_balanced. }
    split; [done|]. unfold tryParseRequestCondition.
    rewrite parse_time_single by (try done; destruct Hmode as [->|[->|[->|[]]]]; set_solver).
    split; [by destruct Hmode as [->|[->|[->|[]]]]|].
    rewrite (includes_absent 32 124 (js "| ")); [done|].
    no_unit; [by apply time_call_no_unit|]. by destruct Hmode as [->|[->|[->|[]]]]; apply lit_no_unit.
Qed.

Lemma ok_ph_plain c :
  ok_ph c = true -> ph_path c <> [] /\ plain (ph_path c) /\ trim (ph_path c) = ph_path c.
Proof.
  unfold ok_ph, plain_trimmed. intros H. bools.
  rewrite <-truthy_true, <-(bool_decide_eq_true (plain _)). done.
Qed.

Lemma normalize_ph c : ok_ph c = true -> normalizeCondition (Some (partial_ph c)) = CPH c.
Proof.
  intros H. destruct (ok_ph_plain c H) as (Hne & _ & _). unfold ok_ph in H.
  destruct c as [s path mode v]; cbn [ph_source ph_path ph_mode ph_value] in *.
  unfold normalizeCondition, partial_ph.
  cbn [id pc_source pc_path pc_mode pc_value from_option ph_source ph_path ph_mode ph_value].
  rewrite js_eqb_ne by (by destruct s).
  assert ((if js_eqb (Some (ph_source_name s)) (Some SOURCE_HEADER) then Header else Param) = s) as ->
    by (by destruct s).
  assert (opt_str_or (Some path) [] = path) as -> by (by destruct path).
  unfold pick_mode.
  assert (mem mode (getRequestRuleMatchOptions (ph_source_name s)).*1 = true) as ->; [|done].
  destruct (mode === MATCH_EXISTS) eqn:E1; bools; [subst; by destruct s|].
  destruct (mode === MATCH_EQ) eqn:E2; bools; [subst; by destruct s|].
  subst. by destruct s.
Qed.

(** The printed form of a parameter or header condition. *)
Definition ph_text (c : ParamHeaderCondition) : jstr :=
  let call := ph_call (ph_source c) (ph_path c) in
  if ph_mode c === MATCH_EXISTS then
    match ph_source c with
    | Header => call ++ js " != " ++ dq ++ dq
    | Param => call ++ js " != nil"
    end
  else if ph_mode c === MATCH_EQ then call ++ js " == " ++ buildExprLiteral MATCH_EQ (ph_value c)
  else js "has(" ++ call ++ js ", " ++ dq ++ ph_value c ++ dq ++ js ")".

Lemma build_ph c : ok_ph c = true -> buildRequestConditionExpr (CPH c) = ph_text c.
Proof.
  intros H. cbn [buildRequestConditionExpr]. rewrite normalize_ph by done.
  destruct (ok_ph_plain c H) as (Hne & Hpl & Htr). unfold ok_ph, plain_trimmed in H. bools.
  destruct c as [s path mode v]; cbn [ph_source ph_path ph_mode ph_value] in *.
  rewrite Htr, (proj2 (truthy_true path) Hne), quote_plain by done. cbn [negb].
  unfold ph_text. cbn [ph_source ph_path ph_mode ph_value].
  destruct (mode === MATCH_EXISTS) eqn:E1; [destruct s; norm_app; done|].
  destruct (mode === MATCH_EQ) eqn:E2; bools; subst.
  - change (MATCH_EQ === MATCH_CONTAINS) with false.
    change (mem MATCH_EQ _) with false. cbv iota. norm_app. done.
  - rewrite js_eqb_refl. destruct s; [done|].
    unfold buildExprLiteral. rewrite js_eqb_refl.
    match goal with Hv : bool_decide (plain v) = true |- _ => apply bool_decide_eq_true in Hv end.
    match goal with Hv : trim v = v |- _ => rewrite Hv end.
    rewrite quote_plain by done. norm_app. done.
Qed.

(** The literal of an equality is trimmed and carries no syntax. *)
Lemma literal_text v :
  plain v -> trim v = v ->
  let lit := buildExprLiteral MATCH_EQ v in
  (exists d, last lit = Some d /\ is_ws d = false) /\ balanced lit /\ 38%N ∉ lit /\ 124%N ∉ lit.
Proof.
  intros Hv Ht. unfold buildExprLiteral. rewrite Ht.
  change (MATCH_EQ === MATCH_CONTAINS) with false. cbv iota.
  destruct ((v === js "true") || (v === js "false")) eqn:Eb; [|destruct (is_numeric v) eqn:En].
  - apply orb_true_iff in Eb as [Eb|Eb]; bools; subst;
      (split; [by eexists|]; split; [by apply lit_balanced|]; by split; apply lit_no_unit).
  - split; [by apply numeric_last|]. split; [by apply plain_balanced|]. by split; eapply plain_not.
  - rewrite quote_plain by done. split; [exists 34%N; by rewrite !last_app|].
    split; [balance|]. split; no_unit.
Qed.

Lemma no_bar_reads c e :
  text_ok e -> 124%N ∉ e -> tryParseRequestCondition e = Ret (Some c) -> condition_reads c e.
Proof.
  intros Hok Hb Hp. split; [done|]. split; [done|].
  by rewrite (includes_absent 32 124 (js "| ")).
Qed.

Lemma ph_head s p t : exists c, head (ph_call s p ++ t) = Some c /\ is_ws c = false.
Proof. destruct s; by eexists. Qed.

Lemma ph_text_reads c :
  ok_ph c = true -> text_ok (ph_text c) /\ 124%N ∉ ph_text c.
Proof.
  intros H. destruct (ok_ph_plain c H) as (Hne & Hpl & Htr). unfold ok_ph, plain_trimmed in H. bools.
  destruct c as [s path mode v]; unfold ph_text; cbn [ph_source ph_path ph_mode ph_value] in *.
  destruct (mode === MATCH_EXISTS) eqn:E1.
  { destruct s; (split; [|no_unit; by apply ph_call_no_unit]).
    - destruct (ph_head Param path (js " != nil")) as (c & Hc & Hw).
      apply (text_ok_intro _ c 108); [done|by rewrite last_app|done|done| |balance].
      no_unit. by apply ph_call_no_unit.
    - destruct (ph_head Header path (js " != " ++ dq ++ dq)) as (c & Hc & Hw).
      apply (text_ok_intro _ c 34); [done|by rewrite !last_app|done|done| |balance].
      no_unit. by apply ph_call_no_unit. }
  destruct (mode === MATCH_EQ) eqn:E2; bools;
    match goal with Hv : bool_decide (plain v) = true |- _ => apply bool_decide_eq_true in Hv end.
  - destruct (literal_text v) as ((d & Hd & Hw) & Hb & Ha & Hr); [done..|].
    destruct (ph_head s path (js " == " ++ buildExprLiteral MATCH_EQ v)) as (c & Hc & Hw').
    split; [|no_unit; [by apply ph_call_no_unit|done]].
    apply (text_ok_intro _ c d); [done|by rewrite !last_app, Hd|done|done| |balance; done].
    no_unit; [by apply ph_call_no_unit|done].
  - split; [|no_unit; by apply ph_call_no_unit].
    apply (text_ok_intro _ 104 41); [done|by rewrite !last_app|done|done|no_unit; by apply ph_call_no_unit|].
    assert (forall x, js "has(" ++ x ++ js ")" = js "has" ++ 40%N :: x ++ 41%N :: []) as E by done.
    rewrite (app_assoc dq v), (app_assoc (dq ++ v)), (app_assoc (js ", ")), (app_assoc (ph_call _ _)), E.
    apply balanced_app; [by apply lit_balanced|]. apply bal_paren; [balance|constructor].
Qed.

Lemma ph_condition_reads c :
  ok_ph c = true -> condition_reads (CPH c) (buildRequestConditionExpr (CPH c)).
Proof.
  intros H. rewrite build_ph by done. destruct (ph_text_reads c H) as [Hok Hbar].
  apply no_bar_reads; [done..|].
  destruct (ok_ph_plain c H) as (Hne & Hpl & Htr). unfold ok_ph, plain_trimmed in H. bools.
  assert (34%N ∉ ph_path c) by (by eapply plain_not).
  destruct c as [s path mode v]; unfold ph_text; cbn [ph_source ph_path ph_mode ph_value] in *.
  destruct (mode === MATCH_EXISTS) eqn:E1; bools; subst.
  { destruct s; [by apply parse_param_exists|by apply parse_header_exists]. }
  destruct (mode === MATCH_EQ) eqn:E2; bools;
    match goal with Hv : bool_decide (plain v) = true |- _ => apply bool_decide_eq_true in Hv end; subst.
  - destruct (literal_roundtrip v) as (Hn & Hd & j & Hj & Hs); [done..|].
    erewrite parse_equals by done. by rewrite Hs.
  - destruct s; [done|]. by apply parse_header_contains.
Qed.

Lemma cond_reads c : ok_condition c = true -> condition_reads c (buildRequestConditionExpr c).
Proof. destruct c; [apply time_condition_reads|apply ph_condition_reads]. Qed.

(** ** Groups *)

Definition factor_text (combined m : jstr) : jstr :=
  js "(" ++ combined ++ js " ? " ++ m ++ js " : 1)".

(** No other [" ? "] follows, so the greedy capture gives back exactly the
    multiplier. *)
Lemma factor_gives_back m v1 v2 :
  is_numeric m = true -> js " ? " ++ m ++ js " : 1)" = v1 ++ v2 -> v1 <> [] ->
  starts_with (js " ? ") v2 = false.
Proof.
  intros Hm E Hne. apply not_true_is_false. intros [t ->]%starts_with_spec.
  destruct v1 as [|a [|b v1]]; [done|simplify_eq/=|].
  assert (63%N ∈ js " " ++ m ++ js " : 1)") as Hin.
  { change (js " ? ") with ([32; 63]%N ++ js " ") in E at 1. rewrite <-app_assoc in E.
    simpl in E. simplify_eq. match goal with H : _ = v1 ++ _ |- _ => simpl; rewrite H end. set_solver. }
  revert Hin. rewrite !elem_of_app. intros [H|[H|H]].
  - by apply (lit_no_unit 63 (js " ")) in H.
  - by apply (numeric_no_unit 63 m Hm) in H.
  - by apply (lit_no_unit 63 (js " : 1)")) in H.
Qed.

Lemma factor_match combined m :
  combined <> [] -> is_numeric m = true ->
  exists st, re_match re_factor (factor_text combined m) = Some st /\
    cap' 1 st = combined /\ cap' 2 st = m.
Proof.
  intros Hc Hm. destruct combined as [|c combined]; [done|].
  unfold re_factor, factor_text. cbn [RSeqs]. rewrite re_match_start.
  erewrite step_lit; [|reflexivity]. rewrite run_seq, run_cap. unfold RPlus. rewrite run_seq.
  unfold adv, init. cbn [app r_caps]. rewrite run_set. cbn [any_unit].
  eexists. split.
  - erewrite (run_star_set_back _ combined (js " ? " ++ m ++ js " : 1)") []); [reflexivity| | | | |].
    + by rewrite app_nil_r.
    + by apply Forall_true.
    + done.
    + intros v1 v2 E Hv1. rewrite app_nil_r. rewrite step_lit_fail; [done|]. cbn [r_rest adv set_cap].
      by apply (factor_gives_back m v1 v2).
    + rewrite app_nil_r. erewrite step_lit; [|reflexivity].
      erewrite step_num; [|reflexivity|done|done|].
      2:{ intros. by eapply lit_rejects_num. }
      erewrite step_lit; [|symmetry; apply app_nil_r]. cbn [run r_rest adv]. reflexivity.
  - unfold cap', cap, consumed. cbn [set_cap r_caps cap_of Nat.eqb r_rest adv from_option id].
    split; [|done].
    replace (length (c :: combined ++ js " ? " ++ m ++ js " : 1)") - length (js " ? " ++ m ++ js " : 1)"))
      with (length (c :: combined)) by (cbn [length]; rewrite !length_app; lia).
    by rewrite app_comm_cons, take_app_length.
Qed.

Definition wrap_bar (e : jstr) : jstr :=
  if includes (js " || ") e then js "(" ++ e ++ js ")" else e.

Lemma text_ok_wrap e : text_ok e -> text_ok (wrap_bar e).
Proof.
  intros (Ht & Hne & Ha & Hb). unfold wrap_bar. case_match; [|done].
  apply (text_ok_intro _ 40 41); [done|by rewrite !last_app|done|done|no_unit; done|].
  apply (bal_paren e []); [done|constructor].
Qed.

Lemma scan_and_join es :
  es <> [] -> Forall text_ok es -> scan_top (js " && ") (join (js " && ") es) 0 [] 0 = es.
Proof.
  intros Hne Hes. revert Hne.
  induction Hes as [|e es (Ht & He & Ha & Hb) Hes IH]; intros Hne; [done|].
  assert (last e <> Some 32%N) as Hl by (intros Hl; by apply trimmed_last in Hl).
  change (js " && ") with (32%N :: 38%N :: js "& ") in *. destruct es as [|e' es].
  - cbn [join]. rewrite <-(app_nil_r e) at 1. rewrite scan_avoids by done. cbn [scan_top].
    by rewrite app_nil_r, rev_involutive, Ht.
  - rewrite join_cons, scan_avoids, balanced_depth, scan_sep, app_nil_r, rev_involutive, Ht by done.
    by rewrite IH.
Qed.

Lemma split_and_join es :
  es <> [] -> Forall text_ok es -> splitTopLevelAnd (join (js " && ") es) = es.
Proof.
  intros Hne Hes. unfold splitTopLevelAnd, filter_truthy. rewrite scan_and_join by done.
  apply lfilter_id. eapply Forall_impl; [exact Hes|]. intros e (_ & He & _). by apply truthy_true.
Qed.

Definition combined_text (es : list jstr) : jstr :=
  match es with [e] => e | _ => join (js " && ") (List.map wrap_bar es) end.

(** A factor is one well nested text between parentheses. *)
Definition factor_ok (p : jstr) : Prop :=
  exists inner, stays 1 inner = Some 1%Z /\ p = 40%N :: inner ++ [41%N].

Lemma factor_nonempty p : factor_ok p -> truthy p = true.
Proof. by intros (inner & _ & ->). Qed.

Lemma factor_trimmed p : factor_ok p -> trim p = p.
Proof. intros (inner & _ & ->). by apply trimmed_ends. Qed.

(** The multiplication scanner passes a factor whole. *)
Lemma scan_factor p t cur :
  factor_ok p ->
  scan_top (js " * ") (p ++ t) 0 cur 0 = scan_top (js " * ") t 0 (rev p ++ cur) 0.
Proof.
  intros (inner & Hb & ->). change (40%N :: inner ++ [41%N]) with ([40%N] ++ inner ++ [41%N]).
  rewrite <-!app_assoc. rewrite (scan_stays _ [40%N] _ cur 0 1) by done.
  rewrite (scan_stays _ inner _ _ 1 1) by done.
  rewrite !rev_app_distr. cbn [app rev scan_top]. by rewrite <-!app_assoc.
Qed.

Lemma scan_factors ps :
  ps <> [] -> Forall factor_ok ps -> scan_top (js " * ") (join (js " * ") ps) 0 [] 0 = ps.
Proof.
  intros Hne H. induction H as [|p ps Hp H IH]; [done|].
  destruct ps as [|q ps].
  - cbn [join]. rewrite <-(app_nil_r p) at 1. rewrite scan_factor by done. cbn [scan_top].
    by rewrite app_nil_r, rev_involutive, factor_trimmed.
  - rewrite join_cons, scan_factor by done.
    change (js " * ") with (32%N :: js "* "). rewrite scan_sep by done.
    change (32%N :: js "* ") with (js " * "). by rewrite IH, app_nil_r, rev_involutive, factor_trimmed.
Qed.

Lemma split_multiply_factors ps :
  ps <> [] -> Forall factor_ok ps -> splitTopLevelMultiply (join (js " * ") ps) = ps.
Proof.
  intros Hne H. unfold splitTopLevelMultiply, filter_truthy. rewrite scan_factors by done.
  apply lfilter_id. eapply Forall_impl; [exact H|]. apply factor_nonempty.
Qed.

Lemma factors_ends ps :
  ps <> [] -> Forall factor_ok ps -> exists u, join (js " * ") ps = 40%N :: u ++ [41%N].
Proof.
  intros Hne H. induction H as [|p ps (inner & Hb & ->) H IH]; [done|].
  destruct ps as [|q ps]; [by exists inner|]. rewrite join_cons by done.
  destruct IH as [u ->]; [done|]. exists (inner ++ [41%N] ++ js " * " ++ 40%N :: u).
  simpl. by rewrite <-!app_assoc.
Qed.

Lemma factors_trimmed ps :
  ps <> [] -> Forall factor_ok ps ->
  trim (join (js " * ") ps) = join (js " * ") ps /\ truthy (join (js " * ") ps) = true.
Proof.
  intros Hne H. destruct (factors_ends ps Hne H) as [u ->]. split; [by apply trimmed_ends|done].
Qed.

(** ** Splitting what was combined *)

Lemma outer_depth_stays s t d d' :
  stays d s = Some d' -> t <> [] -> outer_depth (s ++ t) d = outer_depth t d'.
Proof.
  intros H Ht. revert d H. induction s as [|c s IH]; intros d H; [by simplify_eq/=|].
  cbn [stays] in H. cbn [app outer_depth].
  change (if (c =? 41)%N then _ else _) with (depth_step d c).
  case_match eqn:E; [|done]. apply Z.ltb_lt in E.
  rewrite (proj2 (Z.eqb_neq _ _)) by lia. cbn [andb]. by apply IH.
Qed.

Lemma factor_full_outer p : factor_ok p -> hasFullOuterParens p = true.
Proof.
  intros (inner & Hb & ->). unfold hasFullOuterParens, ends_with.
  change (40%N :: inner ++ [41%N]) with ([40%N] ++ inner ++ [41%N]).
  rewrite !rev_app_distr. cbn [app rev starts_with negb orb].
  change (40%N :: inner ++ [41%N]) with ([40%N] ++ inner ++ [41%N]).
  rewrite (outer_depth_stays [40%N] _ 0 1) by (try reflexivity; by destruct inner).
  by rewrite (outer_depth_stays inner _ 1 1).
Qed.

Lemma strip_ends_parens inner : strip_ends (40%N :: inner ++ [41%N]) = inner.
Proof.
  unfold strip_ends, substring. cbn [drop length]. rewrite length_app. cbn [length].
  replace (S (length inner + 1) - 1 - 1) with (length inner) by lia. apply take_app_length.
Qed.

Lemma strip_ends_length s : hasFullOuterParens s = true -> length (strip_ends s) < length s.
Proof.
  intros H. destruct s as [|c s]; [done|]. unfold strip_ends, substring.
  rewrite length_take, length_drop. simpl. lia.
Qed.

(** The loop ends with its condition false: it has enough rounds. *)
Lemma unwrap_n_done n s : length s < n -> hasFullOuterParens (unwrap_n n s) = false.
Proof.
  revert s. induction n as [|n IH]; intros s Hn; [lia|]. cbn [unwrap_n].
  destruct (hasFullOuterParens s) eqn:E; [|done]. apply IH.
  pose proof (trim_length (strip_ends s)). pose proof (strip_ends_length s E). lia.
Qed.

Lemma unwrap_parens base :
  trim base = base -> stays 1 base = Some 1%Z -> hasFullOuterParens base = false ->
  unwrapOuterParens (40%N :: base ++ [41%N]) = base.
Proof.
  intros Ht Hs Hf. unfold unwrapOuterParens.
  assert (factor_ok (40%N :: base ++ [41%N])) as Hok by (by exists base).
  rewrite factor_trimmed by done. cbn [unwrap_n]. rewrite factor_full_outer by done.
  rewrite strip_ends_parens, Ht. cbn [length unwrap_n]. by rewrite Hf.
Qed.

Lemma single_factor_rule p : factor_ok p -> tryParseRequestRuleExpr p = parse_factors [p].
Proof.
  intros H. unfold tryParseRequestRuleExpr. rewrite factor_trimmed, factor_nonempty by done.
  pose proof (split_multiply_factors [p]) as E. cbn [join] in E.
  by rewrite E by (try done; by constructor; [|constructor]).
Qed.

(** What [combineBillingExpr] writes is a product of factors. *)
Lemma combine_factors base ps :
  base <> [] -> trim base = base -> ps <> [] -> Forall factor_ok ps ->
  combineBillingExpr base (join (js " * ") ps) = join (js " * ") ((40%N :: base ++ [41%N]) :: ps).
Proof.
  intros Hne Ht Hps Hf. unfold combineBillingExpr. rewrite Ht, (proj2 (truthy_true base) Hne).
  destruct (factors_trimmed ps Hps Hf) as [-> ->]. cbn [negb].
  rewrite join_cons by done. change (js ") * ") with ([41%N] ++ js " * ").
  change (js "(") with [40%N]. cbn [app]. by rewrite <-!app_assoc.
Qed.

(** ** Conditions that are printed but not read back *)

(** The printed conjunction of a parameter condition that needs the parameter
    to exist: [param("p") != nil && second]. *)
Definition guarded_second (c : ParamHeaderCondition) : jstr :=
  if ph_mode c === MATCH_CONTAINS
  then js "has(" ++ ph_call Param (ph_path c) ++ js ", " ++ dq ++ ph_value c ++ dq ++ js ")"
  else ph_call Param (ph_path c) ++ js " " ++ compare_mode_op (ph_mode c) ++ js " " ++ ph_value c.

(** A parameter condition the editor accepts in one of these modes. *)
Definition guarded_ph (c : ParamHeaderCondition) : bool :=
  match ph_source c with Param => true | Header => false end &&
  truthy (ph_path c) && plain_trimmed (ph_path c) &&
  (if ph_mode c === MATCH_CONTAINS then plain_trimmed (ph_value c)
   else mem (ph_mode c) [MATCH_GT; MATCH_GTE; MATCH_LT; MATCH_LTE] && is_numeric (ph_value c)).

Lemma guarded_plain c :
  guarded_ph c = true ->
  ph_path c <> [] /\ plain (ph_path c) /\ trim (ph_path c) = ph_path c.
Proof.
  unfold guarded_ph, plain_trimmed. intros H. bools.
  rewrite <-truthy_true, <-(bool_decide_eq_true (plain _)). done.
Qed.

Lemma guarded_mode c :
  guarded_ph c = true ->
  ph_mode c = MATCH_CONTAINS /\ plain (ph_value c) /\ trim (ph_value c) = ph_value c \/
  ph_mode c ∈ [MATCH_GT; MATCH_GTE; MATCH_LT; MATCH_LTE] /\ is_numeric (ph_value c) = true.
Proof.
  unfold guarded_ph, plain_trimmed. intros H. bools.
  destruct (ph_mode c === MATCH_CONTAINS) eqn:E; bools; [left|right].
  - by rewrite <-(bool_decide_eq_true (plain _)).
  - by rewrite <-mem_true.
Qed.

Ltac compare_modes H :=
  rewrite list_elem_of_In in H; destruct H as [H|[H|[H|[H|[]]]]]; rewrite <-H in *.

Lemma build_guarded c :
  guarded_ph c = true ->
  buildRequestConditionExpr (CPH c) =
  join (js " && ") [ph_call Param (ph_path c) ++ js " != nil"; guarded_second c].
Proof.
  intros H. destruct (guarded_plain c H) as (Hne & Hpl & Htr).
  assert (ph_source c = Param) as Hs by (revert H; unfold guarded_ph; by destruct (ph_source c)).
  assert (normalizeCondition (Some (partial_ph c)) = CPH c) as Hn.
  { destruct c as [s path mode v]; cbn [ph_source ph_path ph_mode ph_value] in *. subst s.
    unfold normalizeCondition, partial_ph.
    cbn [id pc_source pc_path pc_mode pc_value from_option ph_source ph_path ph_mode ph_value].
    assert (opt_str_or (Some path) [] = path) as -> by (by destruct path). unfold pick_mode.
    destruct (guarded_mode _ H) as [[Hm _]|[Hm _]]; cbn [ph_mode] in Hm.
    - by subst mode.
    - by compare_modes Hm. }
  cbn [buildRequestConditionExpr]. rewrite Hn, Htr, (proj2 (truthy_true _) Hne), Hs, quote_plain by done.
  cbn [negb]. unfold guarded_second.
  destruct (guarded_mode c H) as [(Hm & Hv & Ht)|[Hm Hv]].
  - rewrite Hm. change (MATCH_CONTAINS === MATCH_EXISTS) with false. rewrite js_eqb_refl. cbv iota.
    unfold buildExprLiteral. rewrite js_eqb_refl, Ht, quote_plain by done. cbn [join]. norm_app. done.
  - rewrite numeric_trim, Hv by done. cbn [negb].
    compare_modes Hm; cbn [join]; norm_app; reflexivity.
Qed.

Lemma guarded_texts c :
  guarded_ph c = true ->
  text_ok (ph_call Param (ph_path c) ++ js " != nil") /\ text_ok (guarded_second c).
Proof.
  intros H. destruct (guarded_plain c H) as (Hne & Hpl & Htr). split.
  { destruct (ph_head Param (ph_path c) (js " != nil")) as (a & Ha & Hw).
    apply (text_ok_intro _ a 108); [done|by rewrite last_app|done|done| |balance].
    no_unit. by apply ph_call_no_unit. }
  unfold guarded_second. destruct (guarded_mode c H) as [(-> & Hv & Ht)|[Hm Hv]].
  - rewrite js_eqb_refl.
    apply (text_ok_intro _ 104 41); [done|by rewrite !last_app|done|done|no_unit; by apply ph_call_no_unit|].
    assert (forall x, js "has(" ++ x ++ js ")" = js "has" ++ 40%N :: x ++ 41%N :: []) as E by done.
    rewrite (app_assoc dq _ (dq ++ _)), (app_assoc (dq ++ _)), (app_assoc (js ", ")), (app_assoc (ph_call _ _)), E.
    apply balanced_app; [by apply lit_balanced|]. apply bal_paren; [balance|constructor].
  - assert (ph_mode c === MATCH_CONTAINS = false) as -> by (by compare_modes Hm).
    destruct (ph_head Param (ph_path c) (js " " ++ compare_mode_op (ph_mode c) ++ js " " ++ ph_value c)) as (a & Ha & Hw).
    destruct (numeric_last (ph_value c)) as (d & Hd & Hwd); [done|].
    apply (text_ok_intro _ a d); [done|by rewrite !last_app, Hd|done|done| |].
    + no_unit; [by apply ph_call_no_unit|]. by compare_modes Hm; apply lit_no_unit.
    + balance. by compare_modes Hm; apply lit_balanced.
Qed.

Lemma guarded_second_None c :
  guarded_ph c = true -> tryParseRequestCondition (guarded_second c) = Ret None.
Proof.
  intros H. destruct (guarded_plain c H) as (Hne & Hpl & Htr). unfold guarded_second.
  destruct (guarded_mode c H) as [(-> & Hv & Ht)|[Hm Hv]].
  - rewrite js_eqb_refl. unfold tryParseRequestCondition. rewrite time_None_has.
    unfold re_header_exists, re_param_exists, re_header_contains, re_param_contains,
      re_param_compare, re_equals, re_quoted. cbn [app RSeqs].
    rewrite !re_match_start. do 5 (rewrite step_lit_fail by done; cbn [mbind option_bind]). done.
  - assert (ph_mode c === MATCH_CONTAINS = false) as -> by (by compare_modes Hm).
    apply parse_compare_None; [done|by eapply plain_not|].
    compare_modes Hm; vm_compute; set_solver.
Qed.

(** A condition the editor accepts, in whatever mode it offers, and a rule
    with a numeric multiplier and at least one such condition. *)
Definition accepted_condition (c : RequestCondition) : bool :=
  ok_condition c || match c with CPH c => guarded_ph c | CTime _ => false end.

Definition accepted_group (g : RequestRuleGroup) : bool :=
  is_numeric (rg_multiplier g) && match rg_conditions g with [] => false | _ => true end
  && forallb accepted_condition (rg_conditions g).

(** The parts a printed condition falls into at the top level conjunctions,
    and what the first part that does not parse makes of it. *)
Definition condition_parts (c : RequestCondition) (ps : list jstr) : Prop :=
  Forall text_ok ps /\
  ((ok_condition c = true /\ exists p, ps = [p] /\ tryParseRequestCondition p = Ret (Some c)) \/
   (ok_condition c = false /\ exists p q d, ps = [p; q] /\ tryParseRequestCondition p = Ret (Some d) /\
      tryParseRequestCondition q = Ret None)).

Lemma guarded_no_bar c : guarded_ph c = true -> includes (js " || ") (buildRequestConditionExpr (CPH c)) = false.
Proof.
  intros H. rewrite build_guarded by done. destruct (guarded_plain c H) as (Hne & Hpl & Htr).
  apply (includes_absent 32 124 (js "| ")). cbn [join]. unfold guarded_second.
  destruct (guarded_mode c H) as [(-> & Hv & Ht)|[Hm Hv]].
  - rewrite js_eqb_refl. no_unit; by apply ph_call_no_unit.
  - assert (ph_mode c === MATCH_CONTAINS = false) as -> by (by compare_modes Hm).
    no_unit; try by apply ph_call_no_unit. by compare_modes Hm; apply lit_no_unit.
Qed.

Lemma accepted_parts c :
  accepted_condition c = true ->
  (exists ps, buildRequestConditionExpr c = join (js " && ") ps /\ condition_parts c ps) /\
  (exists ps, wrap_bar (buildRequestConditionExpr c) = join (js " && ") ps /\ condition_parts c ps).
Proof.
  intros H. unfold accepted_condition in H. destruct (ok_condition c) eqn:E.
  - destruct (cond_reads c E) as (Hok & Hp & Hw). split.
    + exists [buildRequestConditionExpr c]. split; [done|]. split; [by constructor|]. left. eauto.
    + exists [wrap_bar (buildRequestConditionExpr c)]. split; [done|].
      split; [by constructor; [apply text_ok_wrap|]|]. left. split; [done|]. eexists. split; [done|].
      unfold wrap_bar. destruct (includes _ _); auto.
  - destruct c as [c|c]; [done|]. cbn [orb] in H. unfold wrap_bar. rewrite guarded_no_bar by done.
    destruct (guarded_texts c H) as [H1 H2]. destruct (guarded_plain c H) as (Hne & Hpl & _).
    split; eexists; (split; [by apply build_guarded|]); (split; [by constructor; [|constructor]|]); right;
      (split; [done|]); do 3 eexists; (split; [done|]);
      (split; [apply parse_param_exists; [done|by eapply plain_not]|by apply guarded_second_None]).
Qed.

Lemma join_parts sep pss :
  Forall (fun ps => ps <> []) pss -> join sep (concat pss) = join sep (List.map (join sep) pss).
Proof.
  induction 1 as [|ps pss Hp Hps IH]; [done|]. destruct pss as [|qs pss].
  - cbn [concat List.map join]. by rewrite app_nil_r.
  - cbn [concat List.map] in *. rewrite (join_cons sep (join sep ps)) by done. rewrite <-IH. clear IH.
    assert (qs ++ concat pss <> []) as Hne by (inversion Hps; subst; by destruct qs). revert Hne.
    generalize (qs ++ concat pss). intros l Hl. clear Hps. induction ps as [|p ps IHp]; [done|].
    destruct ps as [|p' ps]; [by rewrite <-join_cons|].
    cbn [app]. rewrite join_cons by done. rewrite (join_cons sep p (p' :: ps)) by done.
    cbn [app] in IHp. rewrite IHp by done. by rewrite <-!app_assoc.
Qed.

Lemma parts_nonempty c ps : condition_parts c ps -> ps <> [].
Proof. intros (_ & [(_ & ? & -> & _)|(_ & ? & ? & ? & -> & _)]); done. Qed.

(** The conjunction of accepted conditions, part by part. *)
Lemma conjunction_parts cs :
  cs <> [] -> forallb accepted_condition cs = true ->
  exists pss, Forall2 condition_parts cs pss /\
    combined_text (List.map buildRequestConditionExpr cs) = join (js " && ") (concat pss).
Proof.
  intros Hne H. destruct cs as [|c [|c' cs]]; [done| |].
  - cbn [forallb] in H. bools. destruct (accepted_parts c) as ((ps & Eb & Hps) & _); [done|].
    exists [ps]. split; [constructor; [done|constructor]|]. cbn [List.map combined_text concat]. by rewrite Eb, app_nil_r.
  - assert (exists pss, Forall2 condition_parts (c :: c' :: cs) pss /\
      List.map wrap_bar (List.map buildRequestConditionExpr (c :: c' :: cs)) = List.map (join (js " && ")) pss)
      as (pss & Hf & E).
    { clear Hne. induction (c :: c' :: cs) as [|d ds IH]; [exists []; by split; [constructor|]|].
      cbn [forallb] in H. bools. destruct IH as (pss & Hf & E); [done|].
      destruct (accepted_parts d) as (_ & ps & Hp & Hd); [done|].
      exists (ps :: pss). split; [by constructor|]. cbn [List.map]. by rewrite Hp, E. }
    exists pss. split; [done|]. rewrite join_parts, <-E; [done|].
    clear -Hf. induction Hf; constructor; [by eapply parts_nonempty|done].
Qed.

Lemma parse_conjunction cs pss :
  Forall2 condition_parts cs pss ->
  parse_conditions (concat pss) = Ret (if forallb ok_condition cs then Some cs else None).
Proof.
  induction 1 as [|c ps cs pss (Ht & [(Hk & p & -> & Hp)|(Hk & p & q & d & -> & Hp & Hq)]) _ IH]; [done| |];
    cbn [forallb]; rewrite Hk.
  - inversion Ht as [|? ? (Htp & _) _]; subst. cbn [concat app parse_conditions]. rewrite Htp, Hp. cbn [obind].
    rewrite IH. cbn [andb obind]. by destruct (forallb ok_condition cs).
  - inversion Ht as [|? ? (Htp & _) Ht']; subst. inversion Ht' as [|? ? (Htq & _) _]; subst.
    cbn [concat app parse_conditions]. rewrite Htp, Hp. cbn [obind]. by rewrite Htq, Hq.
Qed.

Lemma conjunction_texts cs pss :
  Forall2 condition_parts cs pss -> cs <> [] -> concat pss <> [] /\ Forall text_ok (concat pss).
Proof.
  intros H Hne. split.
  - destruct H as [|c ps cs pss Hc _]; [done|]. apply parts_nonempty in Hc. by destruct ps.
  - clear Hne. induction H as [|c ps cs pss [Hc _] _ IH]; [constructor|]. cbn [concat]. by apply Forall_app.
Qed.

Lemma join_and_balanced ps :
  ps <> [] -> Forall text_ok ps -> join (js " && ") ps <> [] /\ balanced (join (js " && ") ps).
Proof.
  intros Hne H. split.
  - destruct H as [|p ps (_ & Hp & _) _]; [done|]. destruct ps; cbn [join]; [done|]. by destruct p.
  - clear Hne. induction H as [|p ps (_ & _ & _ & Hb) Hok IH]; [constructor|].
    destruct ps; [done|]. rewrite join_cons by done.
    by apply balanced_app; [|apply balanced_app; [apply lit_balanced|]].
Qed.

Lemma accepted_truthy cs :
  forallb accepted_condition cs = true ->
  filter_truthy (List.map buildRequestConditionExpr cs) = List.map buildRequestConditionExpr cs.
Proof.
  intros H. apply lfilter_id. induction cs as [|c cs IH]; [constructor|]. cbn [forallb] in H. bools.
  constructor; [|auto]. destruct (accepted_parts c) as ((ps & -> & Hps) & _); [done|].
  apply truthy_true. apply join_and_balanced; [by eapply parts_nonempty|by destruct Hps].
Qed.

(** The factor of a rule in any mode: it parses to the rule exactly when no
    condition of it is a guarded one. *)
Lemma accepted_factor g :
  accepted_group g = true ->
  factor_ok (buildRuleGroupFactor g) /\
  tryParseRuleGroupFactor (buildRuleGroupFactor g) = Ret (if ok_group g then Some g else None).
Proof.
  destruct g as [cs m]. unfold accepted_group, ok_group. cbn [rg_conditions rg_multiplier]. intros H. bools.
  match goal with Hm : is_numeric m = true |- _ => pose proof Hm as Hnum end.
  assert (cs <> []) as Hne by (by destruct cs).
  destruct (conjunction_parts cs) as (pss & Hf & E); [done..|].
  destruct (conjunction_texts cs pss Hf Hne) as [Hps Hok].
  destruct (join_and_balanced _ Hps Hok) as [HJ Hb].
  assert (buildRuleGroupFactor (MkGroup cs m) = factor_text (join (js " && ") (concat pss)) m) as ->.
  { rewrite <-E. unfold buildRuleGroupFactor. cbn [rg_multiplier rg_conditions].
    rewrite numeric_trim, Hnum by done. cbn [negb]. rewrite accepted_truthy by done.
    by destruct cs as [|c [|c' cs]]. }
  split.
  - exists (join (js " && ") (concat pss) ++ js " ? " ++ m ++ js " : 1").
    split; [apply balanced_stays; [balance; done|lia]|]. unfold factor_text. by rewrite <-!app_assoc.
  - unfold tryParseRuleGroupFactor. destruct (factor_match (join (js " && ") (concat pss)) m)
      as (st & -> & -> & ->); [done..|].
    rewrite split_and_join, (parse_conjunction cs) by done. cbn [obind]. rewrite Hnum.
    destruct cs; [done|]. cbn [andb]. by destruct (forallb ok_condition _).
Qed.

Lemma accepted_factors gs :
  forallb accepted_group gs = true ->
  Forall factor_ok (List.map buildRuleGroupFactor gs) /\
  buildRequestRuleExpr gs = join (js " * ") (List.map buildRuleGroupFactor gs) /\
  parse_factors (List.map buildRuleGroupFactor gs) = Ret (if forallb ok_group gs then Some gs else None).
Proof.
  intros H. assert (Forall factor_ok (List.map buildRuleGroupFactor gs)) as Hf.
  { induction gs as [|g gs IH]; [constructor|]. cbn [forallb] in H. bools.
    constructor; [by apply accepted_factor|auto]. }
  split; [done|]. split.
  - unfold buildRequestRuleExpr, filter_truthy. rewrite lfilter_id; [done|].
    eapply Forall_impl; [exact Hf|]. apply factor_nonempty.
  - clear Hf. induction gs as [|g gs IH]; [done|]. cbn [forallb] in H. bools.
    cbn [List.map parse_factors]. destruct (accepted_factor g) as [_ ->]; [done|]. cbn [forallb obind].
    destruct (ok_group g); [|done]. rewrite IH by done. by destruct (forallb ok_group gs).
Qed.

Lemma ok_accepted gs : forallb ok_group gs = true -> forallb accepted_group gs = true.
Proof.
  induction gs as [|g gs IH]; cbn [forallb]; intros H; [done|]. bools. apply andb_true_iff. split; [|auto].
  unfold ok_group, accepted_group in *. bools. repeat (apply andb_true_iff; split); try done.
  apply forallb_forall. intros c Hc. unfold accepted_condition.
  match goal with Hk : forallb ok_condition _ = true |- _ => rewrite forallb_forall in Hk; by rewrite Hk end.
Qed.

(** What the parser makes of the expression of any accepted rules. *)
Lemma accepted_rules_parse gs :
  forallb accepted_group gs = true ->
  tryParseRequestRuleExpr (buildRequestRuleExpr gs) = Ret (if forallb ok_group gs then Some gs else None).
Proof.
  intros H. destruct (accepted_factors gs H) as (Hf & -> & Hp). destruct gs as [|g gs]; [done|].
  assert (List.map buildRuleGroupFactor (g :: gs) <> []) as Hne by done.
  unfold tryParseRequestRuleExpr. destruct (factors_trimmed _ Hne Hf) as [-> ->].
  by rewrite split_multiply_factors.
Qed.

Lemma rules_read_back gs :
  forallb ok_group gs = true -> tryParseRequestRuleExpr (buildRequestRuleExpr gs) = Ret (Some gs).
Proof. intros H. rewrite accepted_rules_parse by (by apply ok_accepted). by rewrite H. Qed.

(** The rule text as a format: a text that does not parse is refused. *)
Definition read_rules (text : jstr) : outcome (list RequestRuleGroup) :=
  let! gs := tryParseRequestRuleExpr text in match gs with Some l => Ret l | None => Throw end.

#[export] Instance rules_format : TextFormat (fun gs => forallb ok_group gs = true) buildRequestRuleExpr read_rules.
Proof. intros gs H. unfold read_rules. by rewrite rules_read_back. Qed.

(** The rule of one condition. *)
Definition guarded_factor (c : ParamHeaderCondition) (m : jstr) : RequestRuleGroup :=
  MkGroup [CPH c] m.

Lemma guarded_not_ok c : guarded_ph c = true -> ok_ph c = false.
Proof.
  intros H. unfold ok_ph. destruct (guarded_mode c H) as [(-> & _)|[Hm _]].
  - unfold guarded_ph in H. destruct (ph_source c); [|done]. by rewrite !andb_false_r.
  - by compare_modes Hm; rewrite !andb_false_r.
Qed.

(** The accepted conditions that are read back are those in the modes that
    print without a guard. *)
Lemma accepted_by_mode c :
  accepted_condition c = true ->
  ok_condition c = match c with
                   | CTime _ => true
                   | CPH c => match ph_source c with
                              | Header => true
                              | Param => negb (mem (ph_mode c) [MATCH_CONTAINS; MATCH_GT; MATCH_GTE; MATCH_LT; MATCH_LTE])
                              end
                   end.
Proof.
  unfold accepted_condition. destruct c as [c|c]; cbn [ok_condition]; [by rewrite orb_false_r|].
  intros H. destruct (guarded_ph c) eqn:E.
  - rewrite guarded_not_ok by done. unfold guarded_ph in E. destruct (ph_source c) eqn:Es; [|done].
    destruct (guarded_mode c) as [(-> & _)|[Hm _]].
    { unfold guarded_ph. by rewrite Es. }
    { done. }
    by compare_modes Hm.
  - rewrite orb_false_r in H. rewrite H. unfold ok_ph in H. bools.
    destruct (ph_source c); [|done]. destruct (ph_mode c === MATCH_EXISTS) eqn:E1; bools.
    { match goal with Hx : ph_mode c = _ |- _ => by rewrite Hx end. }
    destruct (ph_mode c === MATCH_EQ) eqn:E2; bools; [|done].
    match goal with Hx : ph_mode c = _ |- _ => by rewrite Hx end.
Qed.

(** A parameter condition in mode contains, gt, gte, lt or lte is printed as a
    conjunction at the top level, which the parser splits in two before it looks
    for that form: whatever other rules surround it, the printed expression does
    not parse, although every condition was accepted. *)
Lemma guarded_rules_lost gs1 c m gs2 :
  forallb ok_group gs1 = true -> forallb ok_group gs2 = true ->
  guarded_ph c = true -> is_numeric m = true ->
  tryParseRequestRuleExpr (buildRequestRuleExpr (gs1 ++ guarded_factor c m :: gs2)) = Ret None.
Proof.
  intros H1 H2 Hc Hm.
  assert (ok_group (guarded_factor c m) = false) as Hg.
  { unfold ok_group, guarded_factor. cbn [rg_conditions rg_multiplier forallb ok_condition].
    by rewrite guarded_not_ok, !andb_false_r. }
  rewrite accepted_rules_parse; rewrite forallb_app; cbn [forallb].
  - by rewrite Hg, andb_false_r.
  - rewrite !ok_accepted by done. unfold accepted_group, guarded_factor, accepted_condition.
    cbn [rg_conditions rg_multiplier forallb]. by rewrite Hm, Hc, orb_true_r.
Qed.

(** C1: for rules as the editor holds them (a numeric multiplier and at least
    one condition each; time conditions with a plain time zone and numeric
    bounds; parameter and header conditions in any mode the editor offers,
    with a path and a value of plain trimmed text, a number where the mode
    compares; fields the mode does not use empty), the expression that is built
    parses back to exactly those rules, unless one of their conditions is a
    parameter condition in mode contains, gt, gte, lt or lte: then the parser
    refuses the whole expression. And no other accepted rules have the
    expression of rules that parse back. *)
Theorem rules_roundtrip gs :
  forallb accepted_group gs = true ->
  tryParseRequestRuleExpr (buildRequestRuleExpr gs) = Ret (if forallb ok_group gs then Some gs else None) /\
  (forall c, accepted_condition c = true ->
     ok_condition c = match c with
                      | CTime _ => true
                      | CPH c => match ph_source c with
                                 | Header => true
                                 | Param => negb (mem (ph_mode c) [MATCH_CONTAINS; MATCH_GT; MATCH_GTE; MATCH_LT; MATCH_LTE])
                                 end
                      end) /\
  (forallb ok_group gs = true ->
   forall gs', forallb accepted_group gs' = true -> buildRequestRuleExpr gs' = buildRequestRuleExpr gs -> gs' = gs).
Proof.
  intros H. split; [by apply accepted_rules_parse|]. split; [apply accepted_by_mode|].
  intros Hok gs' H' E. pose proof (accepted_rules_parse gs H) as Hp. pose proof (accepted_rules_parse gs' H') as Hp'.
  rewrite E, Hp, Hok in Hp'. destruct (forallb ok_group gs'); by simplify_eq.
Qed.

(** ** Splitting what was combined with accepted rules *)

Lemma classify_accepted gs :
  forallb accepted_group gs = true ->
  classify_parts (List.map buildRuleGroupFactor gs) =
  Ret (List.map buildRuleGroupFactor (List.filter ok_group gs),
       List.map buildRuleGroupFactor (List.filter (fun g => negb (ok_group g)) gs)).
Proof.
  induction gs as [|g gs IH]; intros H; [done|]. cbn [forallb] in H. bools. cbn [List.map classify_parts].
  destruct (accepted_factor g) as [Hf Hp]; [done|]. rewrite single_factor_rule by done.
  cbn [parse_factors]. rewrite Hp. cbn [obind List.filter]. rewrite IH by done.
  by destruct (ok_group g).
Qed.

Lemma all_or_some_filter {A} (f : A -> bool) l :
  if forallb f l then List.filter f l = l /\ List.filter (fun x => negb (f x)) l = []
  else exists x r, List.filter (fun x => negb (f x)) l = x :: r.
Proof.
  induction l as [|x l IH]; [done|]. cbn [forallb List.filter]. destruct (f x); cbn [andb negb].
  - destruct (forallb f l); [|done]. destruct IH as [-> ->]. done.
  - eauto.
Qed.

(** C2: a base price expression (trimmed, not empty, well nested, not itself
    wrapped in parentheses, and in parentheses not of the form of a rule)
    combined with the expression the editor builds from one or more rules it
    accepts splits into exactly this base and this rule expression, unless one
    of the rules has a parameter condition in mode contains, gt, gte, lt or
    lte: then nothing is split off, and the whole combination counts as the
    base expression, without rules. *)
Theorem split_combine base gs :
  base <> [] -> trim base = base -> well_nested base = true -> hasFullOuterParens base = false ->
  tryParseRuleGroupFactor (js "(" ++ base ++ js ")") = Ret None ->
  gs <> [] -> forallb accepted_group gs = true ->
  splitBillingExprAndRequestRules (combineBillingExpr base (buildRequestRuleExpr gs)) =
  Ret (if forallb ok_group gs then MkSplit base (buildRequestRuleExpr gs)
       else MkSplit (combineBillingExpr base (buildRequestRuleExpr gs)) []).
Proof.
  intros Hne Ht Hw Hf Hp Hgs Hacc. apply (proj1 (js_eqb_true _ _)) in Hw.
  destruct (accepted_factors gs Hacc) as (Hfs & -> & _).
  assert (List.map buildRuleGroupFactor gs <> []) as Hps by (by destruct gs).
  assert (factor_ok (40%N :: base ++ [41%N])) as Hb by (by exists base).
  rewrite combine_factors by done. unfold splitBillingExprAndRequestRules.
  destruct (factors_trimmed ((40%N :: base ++ [41%N]) :: List.map buildRuleGroupFactor gs)) as [-> ->];
    [done|by constructor|]. cbn [negb].
  rewrite split_multiply_factors by (done || by constructor). cbn [classify_parts].
  rewrite single_factor_rule by done. cbn [parse_factors].
  change (js "(" ++ base ++ js ")") with (40%N :: base ++ [41%N]) in Hp. rewrite Hp. cbn [obind].
  rewrite classify_accepted by done. cbn [obind fst snd].
  pose proof (all_or_some_filter ok_group gs) as Ha. destruct (forallb ok_group gs).
  - destruct Ha as [-> ->]. destruct gs as [|g gs]; [done|]. cbn [List.map length Nat.leb].
    by rewrite unwrap_parens.
  - destruct Ha as (x & r & ->). cbn [List.map]. destruct gs as [|g gs]; [done|]. cbn [List.map length Nat.leb].
    by destruct (List.map buildRuleGroupFactor (List.filter ok_group (g :: gs))).
Qed.

(** ** Unwrapping and normalizing *)

(** The unwrapping loop ends for every input, with a trimmed text that has no
    full outer parentheses left. *)
Lemma unwrapOuterParens_done expr :
  hasFullOuterParens (unwrapOuterParens expr) = false /\ trimmed (unwrapOuterParens expr).
Proof.
  unfold unwrapOuterParens. split.
  - apply unwrap_n_done. pose proof (trim_length expr). lia.
  - assert (trimmed (trim expr)) as H by auto with js. revert H.
    generalize (S (length expr)) as n, (trim expr) as s. clear expr.
    induction n as [|n IH]; intros s H; cbn [unwrap_n]; [done|].
    case_match; [apply IH; auto with js|done].
Qed.

Definition condition_mode (c : RequestCondition) : jstr :=
  match c with CTime t => tc_mode t | CPH p => ph_mode p end.

Definition condition_source (c : RequestCondition) : jstr :=
  match c with CTime _ => SOURCE_TIME | CPH p => ph_source_name (ph_source p) end.

Definition to_partial (c : RequestCondition) : PartialCondition :=
  match c with CTime t => partial_time t | CPH p => partial_ph p end.

Lemma pick_mode_valid source mode dflt :
  mem dflt (getRequestRuleMatchOptions source).*1 = true ->
  mem (pick_mode source mode dflt) (getRequestRuleMatchOptions source).*1 = true.
Proof. intros H. unfold pick_mode. by repeat case_match. Qed.

Lemma pick_mode_idem source mode dflt dflt' :
  mem dflt (getRequestRuleMatchOptions source).*1 = true ->
  pick_mode source (Some (pick_mode source mode dflt)) dflt' = pick_mode source mode dflt.
Proof. intros H. unfold pick_mode at 1. by rewrite pick_mode_valid. Qed.

Lemma opt_str_or_idem o d : d = [] \/ truthy d = true -> opt_str_or (Some (opt_str_or o d)) d = opt_str_or o d.
Proof.
  intros H. unfold opt_str_or, str_or. destruct o as [s|].
  - destruct (truthy s) eqn:E; rewrite ?E; [done|]. by destruct H as [->| ->].
  - by destruct H as [->| ->].
Qed.

(** Whatever partial condition the form holds, normalizing it gives a
    condition whose mode is one of the options offered for its source, and
    normalizing that again changes nothing. *)
Lemma normalizeCondition_valid cond :
  let n := normalizeCondition cond in
  condition_mode n ∈ (getRequestRuleMatchOptions (condition_source n)).*1 /\
  normalizeCondition (Some (to_partial n)) = n.
Proof.
  intros n. assert (n = normalizeCondition cond) as Hn by done. clearbody n.
  unfold normalizeCondition in Hn. destruct (js_eqb _ (Some SOURCE_TIME)) eqn:E in Hn.
  - subst n. split; [apply mem_true; by apply pick_mode_valid|].
    unfold normalizeCondition, to_partial, partial_time.
    cbn [id from_option pc_source pc_timeFunc pc_timezone pc_mode pc_value pc_rangeStart pc_rangeEnd
         tc_timeFunc tc_timezone tc_mode tc_value tc_rangeStart tc_rangeEnd].
    rewrite js_eqb_refl, isTimeFunc_name, pick_mode_idem, opt_str_or_idem by (done || by right). done.
  - revert Hn. generalize (if js_eqb (pc_source (default no_condition cond)) (Some SOURCE_HEADER) then Header else Param).
    intros src ->. split; [apply mem_true; apply pick_mode_valid; by destruct src|].
    unfold normalizeCondition, to_partial, partial_ph.
    cbn [id from_option pc_source pc_path pc_mode pc_value ph_source ph_path ph_mode ph_value].
    rewrite js_eqb_ne by (by destruct src).
    assert ((if js_eqb (Some (ph_source_name src)) (Some SOURCE_HEADER) then Header else Param) = src) as ->
      by (by destruct src).
    rewrite pick_mode_idem, opt_str_or_idem by (by left || by destruct src). done.
Qed.

(** The parser of request rules, which reports what it cannot read by
    returning null, throws on a header condition whose string literal has an
    escape that JSON does not know: the call of JSON.parse is not guarded. *)
Lemma rule_parser_throws :
  tryParseRequestRuleExpr
    (js "(has(header(" ++ dq ++ js "x" ++ dq ++ js "), " ++ dq ++ js "\q" ++ dq ++ js ") ? 2 : 1)") = Throw.
Proof. vm_compute. reflexivity. Qed.

(** ** Witnesses *)

Definition sample_groups : list RequestRuleGroup :=
  [MkGroup [CTime (MkTime hour (js "Asia/Shanghai") MATCH_RANGE [] (js "22") (js "6"));
            CPH (MkPH Header (js "x-tier") MATCH_CONTAINS (js "pro"))] (js "1.5");
   MkGroup [CPH (MkPH Param (js "service_tier") MATCH_EQ (js "flex"))] (js "0.5")].

Definition sample_base : jstr := js "tier(" ++ dq ++ js "base" ++ dq ++ js ", p * 2 + c * 8)".

Definition sample_guarded : ParamHeaderCondition :=
  MkPH Param (js "max_tokens") MATCH_GTE (js "4096").

Definition mixed_groups : list RequestRuleGroup := sample_groups ++ [MkGroup [CPH sample_guarded] (js "2")].

Lemma rules_roundtrip_witness :
  tryParseRequestRuleExpr (buildRequestRuleExpr sample_groups) = Ret (Some sample_groups) /\
  tryParseRequestRuleExpr (buildRequestRuleExpr mixed_groups) = Ret None.
Proof.
  split; [apply (rules_roundtrip sample_groups)|apply (rules_roundtrip mixed_groups)]; vm_compute; reflexivity.
Defined.

Lemma split_combine_witness :
  splitBillingExprAndRequestRules (combineBillingExpr sample_base (buildRequestRuleExpr sample_groups)) =
    Ret (MkSplit sample_base (buildRequestRuleExpr sample_groups)) /\
  splitBillingExprAndRequestRules (combineBillingExpr sample_base (buildRequestRuleExpr mixed_groups)) =
    Ret (MkSplit (combineBillingExpr sample_base (buildRequestRuleExpr mixed_groups)) []).
Proof.
  split; [apply (split_combine sample_base sample_groups)|apply (split_combine sample_base mixed_groups)];
    solve [discriminate | vm_compute; reflexivity].
Defined.

Lemma guarded_rules_lost_witness :
  tryParseRequestRuleExpr (buildRequestRuleExpr (sample_groups ++ [guarded_factor sample_guarded (js "2")])) = Ret None.
Proof. apply (guarded_rules_lost sample_groups sample_guarded (js "2") []); vm_compute; reflexivity. Defined.
