(* ===== verification/Currency.v ===== *)
(** * Money on screen: [lib/currency.ts], [lib/format.ts]

    Amounts are stored in system USD or in quota units and shown in the
    currency the administrator configured.  The state of the configuration
    store ([stores/system-config-store.ts]) is an explicit argument;
    [Intl.NumberFormat], whose output depends on the browser's locale, is a
    parameter. *)
From S2P Require Import Prelude Regex Numbers.

(** ** Configuration *)

Record CurrencyConfig := MkCurrency {
  displayInCurrency : bool;
  quotaDisplayType : jstr;
  quotaPerUnit : number;
  usdExchangeRate : number;
  customCurrencySymbol : jstr;
  customCurrencyExchangeRate : number
}.

(** What the store holds: it is restored from the browser's storage, so any
    field may be missing. *)
Record StoredCurrency := MkStored {
  st_displayInCurrency : option bool;
  st_quotaDisplayType : option jstr;
  st_quotaPerUnit : option number;
  st_usdExchangeRate : option number;
  st_customCurrencySymbol : option jstr;
  st_customCurrencyExchangeRate : option number
}.

Definition DEFAULT_CURRENCY_CONFIG : CurrencyConfig :=
  MkCurrency true (js "USD") (num_of_Z 500000) (num_of_Z 1) [164%N] (num_of_Z 1).

Definition stored_default : StoredCurrency :=
  let d := DEFAULT_CURRENCY_CONFIG in
  MkStored (Some (displayInCurrency d)) (Some (quotaDisplayType d)) (Some (quotaPerUnit d))
           (Some (usdExchangeRate d)) (Some (customCurrencySymbol d))
           (Some (customCurrencyExchangeRate d)).

(** [setConfig]'s merge of the currency part: the fields given replace those
    held. *)
Definition setConfig_currency (held : StoredCurrency) (newConfig : option StoredCurrency) : StoredCurrency :=
  match newConfig with
  | None => held
  | Some c =>
      let pick {A} (a b : option A) := match a with Some _ => a | None => b end in
      MkStored (pick (st_displayInCurrency c) (st_displayInCurrency held))
               (pick (st_quotaDisplayType c) (st_quotaDisplayType held))
               (pick (st_quotaPerUnit c) (st_quotaPerUnit held))
               (pick (st_usdExchangeRate c) (st_usdExchangeRate held))
               (pick (st_customCurrencySymbol c) (st_customCurrencySymbol held))
               (pick (st_customCurrencyExchangeRate c) (st_customCurrencyExchangeRate held))
  end.

(** [x && x > 0 ? x : d]. *)
Definition positive_or (x : option number) (d : number) : number :=
  match x with
  | Some v => if num_truthy v && nltb zero v then v else d
  | None => d
  end.

Definition getConfig (config : option StoredCurrency) : CurrencyConfig :=
  let d := DEFAULT_CURRENCY_CONFIG in
  let c := default stored_default config in
  MkCurrency (default (displayInCurrency d) (st_displayInCurrency c))
             (default (quotaDisplayType d) (st_quotaDisplayType c))
             (positive_or (st_quotaPerUnit c) (quotaPerUnit d))
             (positive_or (st_usdExchangeRate c) (usdExchangeRate d))
             (opt_str_or (trim <$> st_customCurrencySymbol c) (customCurrencySymbol d))
             (positive_or (st_customCurrencyExchangeRate c) (customCurrencyExchangeRate d)).

Definition DISPLAY_TYPE_VALUES : list jstr := [js "USD"; js "CNY"; js "TOKENS"; js "CUSTOM"].

(** [value] is [None] when it is not a string. *)
Definition isCurrencyDisplayType (value : option jstr) : bool :=
  match value with Some v => mem v DISPLAY_TYPE_VALUES | None => false end.

Definition parseCurrencyDisplayType (value : option jstr) (fallback : jstr) : jstr :=
  match value with
  | Some v => if isCurrencyDisplayType value then v else fallback
  | None => fallback
  end.

Inductive DisplayMeta :=
| MCurrency (symbol currencyCode : jstr) (exchangeRate : number)
| MCustom (symbol : jstr) (exchangeRate : number)
| MTokens (quotaPerUnit : number).

Definition usd_meta : DisplayMeta := MCurrency (js "$") (js "USD") (num_of_Z 1).

Definition getDisplayMeta (config : CurrencyConfig) : DisplayMeta :=
  let t := quotaDisplayType config in
  if t === js "CNY" then MCurrency [165%N] (js "CNY") (usdExchangeRate config)
  else if t === js "CUSTOM" then MCustom (customCurrencySymbol config) (customCurrencyExchangeRate config)
  else if t === js "TOKENS" then MTokens (quotaPerUnit config)
  else usd_meta.

Definition getBillingDisplayMeta (config : CurrencyConfig) : DisplayMeta :=
  match getDisplayMeta config with
  | MTokens _ => usd_meta
  | meta => meta
  end.

(** ** Options *)

Record CurrencyFormatOptions := MkOptions {
  digitsLarge : option nat;
  digitsSmall : option nat;
  abbreviate : option bool;
  minimumNonZero : option number
}.

Record FormatOptions := MkFull {
  f_digitsLarge : nat;
  f_digitsSmall : nat;
  f_abbreviate : bool;
  f_minimumNonZero : number
}.

Definition DEFAULT_FORMAT_OPTIONS : FormatOptions := MkFull 2 4 true zero.

Definition mergeOptions (options : option CurrencyFormatOptions) : FormatOptions :=
  let d := DEFAULT_FORMAT_OPTIONS in
  match options with
  | None => d
  | Some o => MkFull (default (f_digitsLarge d) (digitsLarge o)) (default (f_digitsSmall d) (digitsSmall o))
                     (default (f_abbreviate d) (abbreviate o)) (default (f_minimumNonZero d) (minimumNonZero o))
  end.

(** ** Numbers to text *)

(** [/(\.[0-9]*?)0+$/] *)
Definition re_trailing_zeros : re :=
  RSeqs [RCap 1 (RSeqs [RLit (js "."); RLazy (RSet is_digit)]); RPlus (RLit (js "0")); REnd].

Definition removeTrailingZeros (str : jstr) : jstr :=
  if negb (includes (js ".") str) then str
  else re_replace (RSeqs [RLit (js "."); REnd]) (fun _ => [])
         (re_replace re_trailing_zeros (cap' 1) str).

Definition one : number := num_of_Z 1.
Definition thousand : number := num_of_Z 1000.

Definition formatNumberWithSuffix (value : number) (digitsLarge digitsSmall : nat) (abbreviate : bool) : jstr :=
  let abs := nabs value in
  if abbreviate && nleb thousand abs
  then removeTrailingZeros (toFixed (ndiv value thousand) 1) ++ js "k"
  else
    let digits := if nleb one abs then digitsLarge else digitsSmall in
    removeTrailingZeros (toFixed value digits).

(** [Math.pow(10, -digits)]. *)
Definition pow10_neg (digits : nat) : number := num_of_dec false 1 (- Z.of_nat digits).

Definition adjustForMinimum (value : number) (digits : nat) (minimumNonZero : number) : number :=
  if neqb value zero then value
  else
    let threshold := if nltb zero minimumNonZero then minimumNonZero else pow10_neg digits in
    let abs := nabs value in
    if nltb zero abs && nltb abs threshold
    then (if nltb zero value then threshold else nopp threshold)
    else value.

Section intl.
(** [Intl.NumberFormat] in the browser's locale: with a currency code, or as a
    plain decimal, at most [digits] fraction digits. *)
Context (intl_currency : jstr -> nat -> number -> jstr) (intl_decimal : nat -> number -> jstr).

Definition formatCurrencyValue (value : number) (options : FormatOptions) (meta : DisplayMeta) : jstr :=
  match meta with
  | MTokens _ =>
      formatNumberWithSuffix value (f_digitsLarge options) (f_digitsSmall options) (f_abbreviate options)
  | _ =>
      let digits := if nleb one (nabs value) then f_digitsLarge options else f_digitsSmall options in
      let adjustedValue := adjustForMinimum value digits (f_minimumNonZero options) in
      match meta with
      | MCurrency _ currencyCode _ => intl_currency currencyCode digits adjustedValue
      | MCustom symbol _ => symbol ++ intl_decimal digits adjustedValue
      | MTokens _ => []
      end
  end.

Definition getCurrencyDisplay (store : option StoredCurrency) : CurrencyConfig * DisplayMeta :=
  let config := getConfig store in (config, getDisplayMeta config).

(** [amount == null || Number.isNaN(amount)]. *)
Definition no_amount (amount : option number) : bool :=
  match amount with Some x => is_nan x | None => true end.

Definition formatCurrencyFromUSD (store : option StoredCurrency) (amountUSD : option number)
    (options : option CurrencyFormatOptions) : jstr :=
  match amountUSD with
  | None => js "-"
  | Some a =>
      if is_nan a then js "-"
      else
        let '(config, meta) := getCurrencyDisplay store in
        let merged := mergeOptions options in
        match meta with
        | MTokens _ =>
            formatNumberWithSuffix (nmul a (quotaPerUnit config)) 0 (f_digitsSmall merged) (f_abbreviate merged)
        | MCurrency _ _ rate | MCustom _ rate => formatCurrencyValue (nmul a rate) merged meta
        end
  end.

Definition formatBillingCurrencyFromUSD (store : option StoredCurrency) (amountUSD : option number)
    (options : option CurrencyFormatOptions) : jstr :=
  match amountUSD with
  | None => js "-"
  | Some a =>
      if is_nan a then js "-"
      else
        let meta := getBillingDisplayMeta (getCurrencyDisplay store).1 in
        let merged := mergeOptions options in
        let value :=
          match meta with
          | MCurrency _ _ rate | MCustom _ rate => nmul a rate
          | MTokens _ => a
          end in
        formatCurrencyValue value merged meta
  end.

Definition formatQuotaWithCurrency (store : option StoredCurrency) (quota : option number)
    (options : option CurrencyFormatOptions) : jstr :=
  match quota with
  | None => js "-"
  | Some q =>
      if is_nan q then js "-"
      else formatCurrencyFromUSD store (Some (ndiv q (quotaPerUnit (getCurrencyDisplay store).1))) options
  end.

Definition getCurrencyLabel (store : option StoredCurrency) : jstr :=
  let '(config, meta) := getCurrencyDisplay store in
  match meta with
  | MTokens _ => js "Tokens"
  | _ =>
      if quotaDisplayType config === js "CNY" then js "CNY"
      else if quotaDisplayType config === js "CUSTOM" then
        match meta with MCustom symbol _ => symbol | _ => js "Custom" end
      else js "USD"
  end.

Definition isCurrencyDisplayEnabled (store : option StoredCurrency) : bool :=
  match (getCurrencyDisplay store).2 with MTokens _ => false | _ => true end.

Definition formatLocalCurrencyAmount (store : option StoredCurrency) (amount : option number)
    (options : option CurrencyFormatOptions) : jstr :=
  match amount with
  | None => js "-"
  | Some a =>
      if is_nan a then js "-"
      else formatCurrencyValue a (mergeOptions options) (getBillingDisplayMeta (getCurrencyDisplay store).1)
  end.

(** ** [lib/format.ts] *)

Definition formatCurrencyUSD (store : option StoredCurrency) (value : option number) : jstr :=
  formatCurrencyFromUSD store value None.

Definition formatQuota (store : option StoredCurrency) (quota : number) : jstr :=
  formatQuotaWithCurrency store (Some quota) (Some (MkOptions (Some 2) (Some 4) (Some true) None)).

Definition formatLogQuota (store : option StoredCurrency) (quota : number) : jstr :=
  formatQuotaWithCurrency store (Some quota) (Some (MkOptions (Some 4) (Some 6) (Some false) None)).
End intl.

Definition meta_rate (meta : DisplayMeta) : number :=
  match meta with MCurrency _ _ r | MCustom _ r => r | MTokens _ => num_of_Z 1 end.

Definition parseQuotaFromDollars (store : option StoredCurrency) (amount : number) : number :=
  if negb (is_finite amount) then zero
  else
    let '(config, meta) := getCurrencyDisplay store in
    match meta with
    | MTokens _ => math_round amount
    | _ =>
        let exchangeRate := meta_rate meta in
        let usdAmount := if nltb zero exchangeRate then ndiv amount exchangeRate else amount in
        math_round (nmul usdAmount (quotaPerUnit config))
    end.

Definition quotaUnitsToDollars (store : option StoredCurrency) (units : number) : number :=
  let '(config, meta) := getCurrencyDisplay store in
  match meta with
  | MTokens _ => units
  | _ => nmul (ndiv units (quotaPerUnit config)) (meta_rate meta)
  end.

Definition million : number := num_of_Z 1000000.

Definition formatTokens (tokens : number) : jstr :=
  if neqb tokens zero then js "-"
  else if nltb tokens thousand then num_to_str tokens
  else if nltb tokens million then toFixed (ndiv tokens thousand) 1 ++ js "K"
  else toFixed (ndiv tokens million) 2 ++ js "M".

Definition sixty : number := num_of_Z 60.

Definition formatUseTime (seconds : number) : jstr :=
  if nltb seconds sixty then toFixed seconds 1 ++ js "s"
  else
    let minutes := math_floor (ndiv seconds sixty) in
    let remainingSeconds := nmod seconds sixty in
    num_to_str minutes ++ js "m " ++ toFixed remainingSeconds 0 ++ js "s".

(** *** Colours from strings, in 32-bit arithmetic *)

(** [ToInt32]. *)
Definition to_int32 (z : Z) : Z := ((z + 2 ^ 31) mod 2 ^ 32 - 2 ^ 31)%Z.

(** One round: [hash << 5] wraps to 32 bits, the subtraction and the addition
    are on numbers, [hash & hash] wraps again. *)
Definition hash_step (hash : Z) (c : N) : Z :=
  to_int32 (Z.of_N c + (to_int32 (Z.shiftl hash 5) - hash)).

Definition string_hash (str : jstr) : Z := foldl hash_step 0%Z str.

(** [%] on integers keeps the sign of the dividend. *)
Definition color_hue (hash : Z) : Z := Z.abs (Z.rem hash 360).
Definition color_saturation (hash : Z) : Z := (65 + Z.rem (Z.abs hash) 10)%Z.
Definition color_lightness (hash : Z) : Z := (55 + Z.rem (Z.abs (Z.shiftr hash 8)) 10)%Z.

Definition stringToColor (str : jstr) : jstr :=
  if truthy str then
    let hash := string_hash str in
    js "hsl(" ++ Z_to_str (color_hue hash) ++ js ", " ++ Z_to_str (color_saturation hash) ++ js "%, "
    ++ Z_to_str (color_lightness hash) ++ js "%)"
  else js "gray".

(** ** Theorems *)

Lemma positive_or_spec x d : nltb zero d = true -> nltb zero (positive_or x d) = true.
Proof. intros H. unfold positive_or. destruct x as [v|]; [|done]. case_match; [|done]. by bools. Qed.

(** Whatever the browser's storage holds, missing, zero, negative or NaN
    rates included, the configuration in use has strictly positive rates, a
    strictly positive number of quota units per dollar and a visible custom
    symbol, so no display divides by zero. *)
Lemma getConfig_sane store :
  let c := getConfig store in
  nltb zero (quotaPerUnit c) = true /\ nltb zero (usdExchangeRate c) = true /\
  nltb zero (customCurrencyExchangeRate c) = true /\ trim (customCurrencySymbol c) <> [].
Proof.
  cbn [getConfig quotaPerUnit usdExchangeRate customCurrencyExchangeRate customCurrencySymbol].
  repeat split; [by apply positive_or_spec..|].
  unfold opt_str_or, str_or. destruct (st_customCurrencySymbol _) as [s|]; [|done]. cbn [fmap option_fmap option_map].
  destruct (truthy (trim s)) eqn:E; [|done]. rewrite trim_idem. by apply truthy_true.
Qed.

Lemma billing_meta_cases config :
  (exists s c r, getBillingDisplayMeta config = MCurrency s c r) \/
  (exists s r, getBillingDisplayMeta config = MCustom s r).
Proof. unfold getBillingDisplayMeta. destruct (getDisplayMeta config); eauto 10. Qed.

(** A USD amount shown for billing is the same text as the amount converted
    once with the display rate and shown as local currency: the conversion is
    applied exactly once and token display never reaches a billing amount. *)
Lemma billing_converts_once intl_currency intl_decimal store a options :
  let rate := meta_rate (getBillingDisplayMeta (getConfig store)) in
  is_nan a = false -> is_nan (nmul a rate) = false ->
  formatBillingCurrencyFromUSD intl_currency intl_decimal store (Some a) options =
  formatLocalCurrencyAmount intl_currency intl_decimal store (Some (nmul a rate)) options.
Proof.
  intros rate Ha Hr. unfold formatBillingCurrencyFromUSD, formatLocalCurrencyAmount.
  rewrite Ha, Hr. cbn [getCurrencyDisplay fst]. unfold rate.
  destruct (billing_meta_cases (getConfig store)) as [(s & c & r & ->)|(s & r & ->)]; done.
Qed.

Lemma billing_converts_once_witness :
  formatBillingCurrencyFromUSD (fun c _ x => c ++ num_to_str x) (fun _ => num_to_str)
    (Some (MkStored None (Some (js "CNY")) None (Some (num_of_Z 7)) None None)) (Some (num_of_Z 10)) None =
  formatLocalCurrencyAmount (fun c _ x => c ++ num_to_str x) (fun _ => num_to_str)
    (Some (MkStored None (Some (js "CNY")) None (Some (num_of_Z 7)) None None))
    (Some (nmul (num_of_Z 10) (num_of_Z 7))) None.
Proof.
  apply (billing_converts_once _ _ (Some (MkStored None (Some (js "CNY")) None (Some (num_of_Z 7)) None None)));
    vm_compute; reflexivity.
Defined.

Lemma pow10_neg_positive d : d <= 20 -> nltb zero (pow10_neg d) = true.
Proof.
  intros H. do 21 (destruct d as [|d]; [vm_compute; reflexivity|]). lia.
Qed.

(** An amount other than zero is never shown as if it were zero: after the
    adjustment its magnitude is at least the threshold (the smallest amount the
    digits can show, or the configured minimum), and its sign is kept. *)
Lemma adjustForMinimum_visible value digits minimumNonZero :
  is_nan value = false -> neqb value zero = false -> digits <= 20 ->
  let threshold := if nltb zero minimumNonZero then minimumNonZero else pow10_neg digits in
  let r := adjustForMinimum value digits minimumNonZero in
  nltb (nabs r) threshold = false /\ nltb zero r = nltb zero value.
Proof.
  intros Hn Hz Hd threshold r. assert (nltb zero threshold = true) as Ht.
  { unfold threshold. case_match; [done|]. by apply pow10_neg_positive. }
  assert (nltb zero (nabs value) = true) as Hp by (by destruct value as [[]|[]| |[] m e]).
  destruct (nabs_positive threshold Ht) as [H1 H2]. destruct (nltb_zero_opp threshold Ht) as [H3 _].
  unfold r, adjustForMinimum. rewrite Hz. fold threshold. rewrite Hp. cbn [andb].
  destruct (nltb (nabs value) threshold) eqn:E; [|done].
  destruct (nltb zero value) eqn:Ev.
  - by rewrite H1, nltb_irrefl.
  - by rewrite H2, nltb_irrefl.
Qed.

Lemma adjustForMinimum_visible_witness :
  nltb (nabs (adjustForMinimum (Number (js "-0.000004")) 4 zero)) (pow10_neg 4) = false /\
  nltb zero (adjustForMinimum (Number (js "-0.000004")) 4 zero) = false.
Proof. apply (adjustForMinimum_visible (Number (js "-0.000004")) 4 zero); [vm_compute; reflexivity..|lia]. Defined.

(** *** The hash *)

Lemma to_int32_range z : (- 2 ^ 31 <= to_int32 z < 2 ^ 31)%Z.
Proof. unfold to_int32. pose proof (Z.mod_pos_bound (z + 2 ^ 31) (2 ^ 32)). lia. Qed.

Lemma to_int32_mod z : (to_int32 z mod 2 ^ 32 = z mod 2 ^ 32)%Z.
Proof. unfold to_int32. rewrite Zminus_mod_idemp_l. f_equal. lia. Qed.

Lemma to_int32_ext a b : (a mod 2 ^ 32 = b mod 2 ^ 32)%Z -> to_int32 a = to_int32 b.
Proof. intros H. unfold to_int32. rewrite <-(Zplus_mod_idemp_l a), H, Zplus_mod_idemp_l. done. Qed.

(** The hash as a polynomial with base 31, without wrap-around. *)
Definition poly_hash (str : jstr) : Z := foldl (fun h c => (31 * h + Z.of_N c)%Z) 0%Z str.

Lemma hash_step_poly h p c :
  (h mod 2 ^ 32 = p mod 2 ^ 32)%Z -> (hash_step h c mod 2 ^ 32 = (31 * p + Z.of_N c) mod 2 ^ 32)%Z.
Proof.
  intros H. unfold hash_step. rewrite to_int32_mod, Z.shiftl_mul_pow2 by lia.
  rewrite <-Zplus_mod_idemp_r, <-(Zminus_mod_idemp_l (to_int32 _)), to_int32_mod, Zminus_mod_idemp_l, Zplus_mod_idemp_r.
  replace (Z.of_N c + (h * 2 ^ 5 - h))%Z with (Z.of_N c + 31 * h)%Z by lia.
  rewrite <-Zplus_mod_idemp_r, <-Zmult_mod_idemp_r, H, Zmult_mod_idemp_r, Zplus_mod_idemp_r.
  f_equal. lia.
Qed.

(** The colour hash, computed with 32-bit shifts and wrap-around at every
    step, is the base-31 polynomial of the string's units reduced once to a
    signed 32-bit integer. *)
Lemma string_hash_poly str : string_hash str = to_int32 (poly_hash str).
Proof.
  unfold string_hash, poly_hash.
  assert (forall h p, (h = to_int32 p)%Z ->
    foldl hash_step h str = to_int32 (foldl (fun h c => (31 * h + Z.of_N c)%Z) p str)) as Hgen.
  { induction str as [|c str IH]; intros h p Hh; [done|]. simpl. apply IH. subst h.
    pose proof (hash_step_poly (to_int32 p) p c (to_int32_mod p)) as H. unfold hash_step in *.
    rewrite to_int32_mod in H. by apply to_int32_ext. }
  by apply Hgen.
Qed.

(** The parts of every generated colour are in range: hue below 360,
    saturation from 65 to 74 and lightness from 55 to 64 percent. *)
Lemma color_ranges str :
  let h := string_hash str in
  (0 <= color_hue h < 360 /\ 65 <= color_saturation h <= 74 /\ 55 <= color_lightness h <= 64)%Z.
Proof.
  intros h. unfold color_hue, color_saturation, color_lightness.
  pose proof (Z.rem_bound_abs h 360). pose proof (Z.rem_bound_pos (Z.abs h) 10).
  pose proof (Z.rem_bound_pos (Z.abs (Z.shiftr h 8)) 10). lia.
Qed.

(** The seconds of a duration are rounded after they were split from the
    minutes, so a duration can show sixty seconds. *)
Lemma use_time_sixty_seconds : formatUseTime (Number (js "119.6")) = js "1m 60s".
Proof. vm_compute. reflexivity. Qed.

(** A token count just below a million is rounded up to a thousand thousands. *)
Lemma tokens_thousand_k : formatTokens (num_of_Z 999999) = js "1000.0K".
Proof. vm_compute. reflexivity. Qed.

(** In token display ten dollars are shown abbreviated. *)
Lemma token_display_abbreviated intl_currency intl_decimal :
  formatCurrencyFromUSD intl_currency intl_decimal
    (Some (MkStored None (Some (js "TOKENS")) None None None None)) (Some (num_of_Z 10)) None = js "5000k".
Proof. vm_compute. reflexivity. Qed.
