(* ===== verification/Tiers.v ===== *)
(** * Tiered prices: the tier part of [features/pricing/lib/billing-expr.ts] and
      [features/pricing/lib/tier-expr.ts]

    A tiered expression is a chain of conditional [tier("label", body)] calls.
    The first file reads the tiers for display, the second one generates an
    expression from the visual editor's state and reads it back. *)
From S2P Require Import Prelude Regex Numbers Json.

(** ** The variable registry *)

Record BillingVar := MkVar {
  v_key : jstr;
  v_field : option jstr;
  v_tierField : option jstr;
  v_label : jstr;
  v_shortLabel : jstr;
  v_side : jstr;
  v_isBase : bool;
  v_isConditionOnly : bool;
  v_group : option jstr
}.

Definition BILLING_VARS : list BillingVar :=
  [MkVar (js "p") (Some (js "inputPrice")) (Some (js "input_unit_cost")) (js "Input price") (js "Input")
     (js "input") true false None;
   MkVar (js "c") (Some (js "outputPrice")) (Some (js "output_unit_cost")) (js "Completion price") (js "Output")
     (js "output") true false None;
   MkVar (js "len") None None (js "Input length") (js "Length") (js "condition") false true None;
   MkVar (js "cr") (Some (js "cacheReadPrice")) (Some (js "cache_read_unit_cost")) (js "Cache read price")
     (js "Cache Read") (js "input") false false (Some (js "cache"));
   MkVar (js "cc") (Some (js "cacheCreatePrice")) (Some (js "cache_create_unit_cost")) (js "Cache create price")
     (js "Cache Write") (js "input") false false (Some (js "cache"));
   MkVar (js "cc1h") (Some (js "cacheCreate1hPrice")) (Some (js "cache_create_1h_unit_cost"))
     (js "Cache create (1h) price") (js "Cache Write (1h)") (js "input") false false (Some (js "cache"));
   MkVar (js "img") (Some (js "imagePrice")) (Some (js "image_unit_cost")) (js "Image input price")
     (js "Image In") (js "input") false false (Some (js "media"));
   MkVar (js "img_o") (Some (js "imageOutputPrice")) (Some (js "image_output_unit_cost")) (js "Image output price")
     (js "Image Out") (js "output") false false (Some (js "media"));
   MkVar (js "ai") (Some (js "audioInputPrice")) (Some (js "audio_input_unit_cost")) (js "Audio input price")
     (js "Audio In") (js "input") false false (Some (js "media"));
   MkVar (js "ao") (Some (js "audioOutputPrice")) (Some (js "audio_output_unit_cost")) (js "Audio output price")
     (js "Audio Out") (js "output") false false (Some (js "media"))].

Definition BILLING_PRICING_VARS : list BillingVar :=
  List.filter (fun v => negb (v_isConditionOnly v)) BILLING_VARS.

Definition BILLING_CONDITION_VARS : list jstr :=
  List.map v_key (List.filter (fun v => v_isBase v || v_isConditionOnly v) BILLING_VARS).

Definition BILLING_VAR_KEY_TO_FIELD : list (jstr * jstr) :=
  obj_assign [] (List.map (fun v => (v_key v, default [] (v_field v))) BILLING_PRICING_VARS).

Definition BILLING_EXTRA_VARS : list BillingVar :=
  List.filter (fun v => negb (v_isBase v) && negb (v_isConditionOnly v)) BILLING_VARS.

(** Each entry is the tier field and the variable. *)
Definition BILLING_CACHE_VAR_MAP : list (jstr * jstr) :=
  List.map (fun v => (default [] (v_tierField v), v_key v)) BILLING_EXTRA_VARS.

Definition ws_star : re := RStar (RSet is_ws).

(** [\b(p|c|cr|...)\s*\*\s*([\d.eE+-]+)] *)
Definition BILLING_VAR_REGEX : re :=
  RSeqs [RWordB; RCap 1 (RAlts (List.map (fun v => RLit (v_key v)) BILLING_PRICING_VARS));
         ws_star; RLit (js "*"); ws_star; RCap 2 (RPlus (RSet num_unit))].

(** ** Reading tiers for display *)

Record TierCondition := MkCond { cond_var : jstr; cond_op : jstr; cond_value : number }.

(** A parsed tier: its label, its conditions and the price fields. *)
Record ParsedTier := MkTier {
  pt_label : jstr;
  pt_conditions : list TierCondition;
  pt_fields : list (jstr * number)
}.

(** The version prefix: a letter v, digits and a colon; the rest is capture 2. *)
Definition re_version : re :=
  RSeqs [RStart; RLit (js "v"); RCap 1 (RPlus (RSet is_digit)); RLit (js ":");
         RCap 2 (RStar (RSet any_unit)); REnd].

Definition stripExprVersion (exprStr : jstr) : number * jstr :=
  if negb (truthy exprStr) then (num_of_Z 1, [])
  else match re_match re_version exprStr with
       | Some m => (Number (cap' 1 m), cap' 2 m)
       | None => (num_of_Z 1, exprStr)
       end.

(** The coefficients: the first one of each variable counts. *)
Definition add_coeff (coeffs : list (jstr * number)) (m : rst) : list (jstr * number) :=
  if obj_has (cap' 1 m) coeffs then coeffs
  else obj_set (cap' 1 m) (Number (cap' 2 m)) coeffs.

Definition parseTierBody (bodyStr : jstr) : list (jstr * number) :=
  let coeffs := foldl add_coeff [] (exec_all BILLING_VAR_REGEX bodyStr) in
  foldl (fun tier p =>
           obj_set p.2 (match obj_get p.1 coeffs with Some x => num_or x zero | None => zero end) tier)
        [] BILLING_VAR_KEY_TO_FIELD.

Definition re_cond_var : re := RAlts [RLit (js "p"); RLit (js "c"); RLit (js "len")].
Definition re_cond_op : re := RAlts [RLit (js "<"); RLit (js "<="); RLit (js ">"); RLit (js ">=")].
Definition re_cond_num : re := RPlus (RSet num_unit_pos).

(** [(?:p|c|len)\s*(?:<|<=|>|>=)\s*[\d.eE+]+] *)
Definition re_cond : re := RSeqs [re_cond_var; ws_star; re_cond_op; ws_star; re_cond_num].

Definition re_and : re := RSeqs [ws_star; RLit (js "&&"); ws_star].

(** The optional conditions before a tier, capture 1. *)
Definition re_cond_group : re :=
  ROpt (RSeqs [RCap 1 (RSeq re_cond (RStar (RSeq re_and re_cond))); ws_star; RLit (js "?"); ws_star]).

(** The call up to the body, with the label as capture [i]. *)
Definition re_tier_head (i : nat) : list re :=
  [RLit (js "tier(" ++ dq); RCap i (RStar (RSet (not_unit 34))); RLit (dq ++ js ","); ws_star].

Definition re_display_tier : re :=
  RSeqs ([re_cond_group] ++ re_tier_head 2 ++ [RCap 3 (RPlus (RSet (not_unit 41))); RLit (js ")")]).

(** [/^(p|c|len)\s*(<|<=|>|>=)\s*([\d.eE+]+)$/] *)
Definition re_one_cond : re :=
  RSeqs [RStart; RCap 1 re_cond_var; ws_star; RCap 2 re_cond_op; ws_star; RCap 3 re_cond_num; REnd].

Definition parse_cond (cp : jstr) : option TierCondition :=
  cm ← re_match re_one_cond (trim cp); Some (MkCond (cap' 1 cm) (cap' 2 cm) (Number (cap' 3 cm))).

(** The loop over [condStr.split(/\s*&&\s*/)]. *)
Definition parse_conds (condStr : jstr) : list TierCondition :=
  if truthy condStr then omap parse_cond (re_split re_and condStr) else [].

Definition parseTiersFromExpr (exprStr : jstr) : list ParsedTier :=
  if negb (truthy exprStr) then []
  else
    let body := (stripExprVersion exprStr).2 in
    List.map (fun m => MkTier (cap' 2 m) (parse_conds (cap' 1 m)) (parseTierBody (cap' 3 m)))
             (exec_all re_display_tier body).

(** Case mapping of the language is a parameter. *)
Definition normalizeTierLabel (toLowerCase : jstr -> jstr) (label : option jstr) : jstr :=
  match label with
  | None | Some [] => []
  | Some l =>
      let eq_sign := RSet (fun c => (c =? 61) || (c =? 65309))%N in
      let lt := RAlts [RSeq (RLit (js "<")) (ROpt eq_sign); RLit [8804%N]; RSeq (RLit [65308%N]) (ROpt eq_sign)] in
      let gt := RAlts [RSeq (RLit (js ">")) (ROpt eq_sign); RLit [8805%N]; RSeq (RLit [65310%N]) (ROpt eq_sign)] in
      toLowerCase (re_replace_all (RPlus (RSet is_ws)) []
        (re_replace_all gt (js ">") (re_replace_all lt (js "<") l)))
  end.

(** ** The visual editor *)

Definition CACHE_MODE_TIMED := js "timed".
Definition CACHE_MODE_GENERIC := js "generic".

(** A threshold as the form holds it. *)
Inductive CondValue := VNum (x : number) | VText (s : jstr).

Record TierConditionInput := MkInput { ci_var : jstr; ci_op : jstr; ci_value : option CondValue }.

(** The seven optional costs, in the order of [BILLING_CACHE_VAR_MAP]. *)
Record VisualTier := MkVisual {
  vt_label : jstr;
  vt_conditions : list TierConditionInput;
  vt_input : number;
  vt_output : number;
  vt_cache_mode : jstr;
  vt_extra : list (jstr * number)
}.

(** A partial tier: missing fields are [None], missing costs have no entry. *)
Record PartialTier := MkPartialTier {
  pa_label : option jstr;
  pa_conditions : option (list TierConditionInput);
  pa_input : option number;
  pa_output : option number;
  pa_cache_mode : option jstr;
  pa_extra : list (jstr * number)
}.

Definition cache_1h_field : jstr := js "cache_create_1h_unit_cost".

(** [Number(x)] of a cost that may be missing. *)
Definition cost (x : option number) : number := default nan x.

Definition getTierCacheMode (tier : option PartialTier) : jstr :=
  let mode := tier ≫= pa_cache_mode in
  if js_eqb mode (Some CACHE_MODE_TIMED) then CACHE_MODE_TIMED
  else if js_eqb mode (Some CACHE_MODE_GENERIC) then CACHE_MODE_GENERIC
  else if nltb zero (cost (tier ≫= fun t => obj_get cache_1h_field (pa_extra t)))
       then CACHE_MODE_TIMED else CACHE_MODE_GENERIC.

(** The spread [...tier] comes after the first five defaults, so a field that
    is present keeps its value as it is; the seven costs after it are
    normalized. *)
Definition normalizeVisualTier (tier : PartialTier) : VisualTier :=
  MkVisual (default [] (pa_label tier))
           (default [] (pa_conditions tier))
           (default (num_or (cost None) zero) (pa_input tier))
           (default (num_or (cost None) zero) (pa_output tier))
           (default (getTierCacheMode (Some tier)) (pa_cache_mode tier))
           (List.map (fun cv => (cv.1, num_or (cost (obj_get cv.1 (pa_extra tier))) zero)) BILLING_CACHE_VAR_MAP).

Definition partial_of (t : VisualTier) : PartialTier :=
  MkPartialTier (Some (vt_label t)) (Some (vt_conditions t)) (Some (vt_input t)) (Some (vt_output t))
                (Some (vt_cache_mode t)) (vt_extra t).

Definition createDefaultVisualConfig : list VisualTier :=
  [normalizeVisualTier (MkPartialTier (Some (js "base")) (Some []) (Some zero) (Some zero)
                                      (Some CACHE_MODE_GENERIC) [])].

(** A configuration is its list of tiers. *)
Definition normalizeVisualConfig (config : option (list VisualTier)) : list VisualTier :=
  match config with
  | None | Some [] => createDefaultVisualConfig
  | Some tiers => List.map (fun t => normalizeVisualTier (partial_of t)) tiers
  end.

(** *** Generating *)

Definition cond_value_str (v : CondValue) : jstr :=
  match v with VNum x => num_to_str x | VText s => s end.

Definition cond_complete (c : TierConditionInput) : bool :=
  truthy (ci_var c) && truthy (ci_op c) &&
  match ci_value c with Some (VText s) => truthy s | Some (VNum _) => true | None => false end.

Definition cond_str (c : TierConditionInput) : jstr :=
  ci_var c ++ js " " ++ ci_op c ++ js " " ++ match ci_value c with Some v => cond_value_str v | None => [] end.

Definition buildConditionStr (conditions : list TierConditionInput) : jstr :=
  join (js " && ") (List.map cond_str (List.filter cond_complete conditions)).

Definition body_part (v : jstr) (x : number) : jstr := v ++ js " * " ++ num_to_str x.

Definition extra_cost (tier : VisualTier) (cv : jstr * jstr) : number :=
  num_or (cost (obj_get cv.1 (vt_extra tier))) zero.

Definition buildTierBodyExpr (tier : VisualTier) : jstr :=
  join (js " + ")
    ([body_part (js "p") (num_or (vt_input tier) zero); body_part (js "c") (num_or (vt_output tier) zero)] ++
     omap (fun cv => let v := extra_cost tier cv in
                     if neqb v zero then None else Some (body_part cv.2 v)) BILLING_CACHE_VAR_MAP).

Definition tier_call (label : jstr) (tier : VisualTier) : jstr :=
  js "tier(" ++ dq ++ label ++ dq ++ js ", " ++ buildTierBodyExpr tier ++ js ")".

(** The parts of the loop; [i] is the index of the first tier of the list and
    [n] the number of tiers. *)
Fixpoint tier_parts (i n : nat) (tiers : list VisualTier) : list jstr :=
  match tiers with
  | [] => []
  | tier :: rest =>
      let label := str_or (vt_label tier) (js "tier_" ++ Z_to_str (Z.of_nat i + 1)) in
      let body := tier_call label tier in
      let cond := buildConditionStr (vt_conditions tier) in
      (if (i <? n - 1) && truthy cond then cond ++ js " ? " ++ body else body) :: tier_parts (S i) n rest
  end.

Definition zero_expr : jstr := js "p * 0 + c * 0".

Definition generateExprFromVisualConfig (config : option (list VisualTier)) : jstr :=
  match config with
  | None | Some [] => zero_expr
  | Some [tier] =>
      let body := tier_call (str_or (vt_label tier) (js "default")) tier in
      let cond := buildConditionStr (vt_conditions tier) in
      if truthy cond then cond ++ js " ? " ++ body ++ js " : " ++ zero_expr else body
  | Some tiers => join (js " : ") (tier_parts 0 (length tiers) tiers)
  end.

(** *** Reading back *)

Definition re_cost (i : nat) : re := RCap i (RPlus (RSet num_unit)).

(** [(?:\s*\+\s*v\s*\*\s*([\d.eE+-]+))?] *)
Definition re_extra (i : nat) (v : jstr) : re :=
  ROpt (RSeqs [ws_star; RLit (js "+"); ws_star; RLit v; ws_star; RLit (js "*"); ws_star; re_cost i]).

Definition re_extras (i : nat) (vars : list (jstr * jstr)) : list re :=
  imap (fun k cv => re_extra (i + k) cv.2) vars.

(** The body pattern, its captures starting at [i]. *)
Definition re_body (i : nat) : list re :=
  [RLit (js "p"); ws_star; RLit (js "*"); ws_star; re_cost i; ws_star; RLit (js "+"); ws_star;
   RLit (js "c"); ws_star; RLit (js "*"); ws_star; re_cost (S i)] ++ re_extras (S (S i)) BILLING_CACHE_VAR_MAP.

Definition re_single : re := RSeqs ([RStart] ++ re_tier_head 1 ++ re_body 2 ++ [RLit (js ")"); REnd]).

Definition re_tier : re := RSeqs ([re_cond_group] ++ re_tier_head 2 ++ re_body 3 ++ [RLit (js ")")]).

(** The tier object of a match whose body captures start at [i]. *)
Definition tier_of_match (m : rst) (i : nat) (label : jstr) (conditions : list TierConditionInput) : PartialTier :=
  MkPartialTier (Some label) (Some conditions) (Some (Number (cap' i m))) (Some (Number (cap' (S i) m))) None
    (omap id (imap (fun k cv => (fun w => (cv.1, Number w)) <$> cap (S (S i) + k) m) BILLING_CACHE_VAR_MAP)).

Definition input_of (c : TierCondition) : TierConditionInput :=
  MkInput (cond_var c) (cond_op c) (Some (VNum (cond_value c))).

(** [s.replace(/\s+/g, '')]. *)
Definition strip_ws (s : jstr) : jstr := re_replace_all (RPlus (RSet is_ws)) [] s.

(** The text after the version prefix, if there is one. *)
Definition strip_version (exprStr : jstr) : jstr :=
  match re_match (RSeqs [RStart; RLit (js "v"); RPlus (RSet is_digit); RLit (js ":");
                         RCap 1 (RStar (RSet any_unit)); REnd]) exprStr with
  | Some m => cap' 1 m
  | None => exprStr
  end.

Definition tryParseVisualConfig (exprStr : option jstr) : option (list VisualTier) :=
  match exprStr with
  | None | Some [] => None
  | Some e =>
      let body := strip_version e in
      match re_match re_single body with
      | Some simple =>
          Some (normalizeVisualConfig (Some [normalizeVisualTier (tier_of_match simple 2 (cap' 1 simple) [])]))
      | None =>
          let tiers := List.map (fun m =>
            normalizeVisualTier (tier_of_match m 3 (cap' 2 m) (List.map input_of (parse_conds (cap' 1 m)))))
            (exec_all re_tier body) in
          match tiers with
          | [] => None
          | _ =>
              let cfg := normalizeVisualConfig (Some tiers) in
              if strip_ws (generateExprFromVisualConfig (Some cfg)) !== strip_ws body then None else Some cfg
          end
      end
  end.

(** *** The estimator's inputs *)

Definition ESTIMATOR_VARS : list (jstr * jstr) :=
  [(js "cr", js "cacheReadTokens"); (js "cc", js "cacheCreateTokens"); (js "cc1h", js "cacheCreate1hTokens");
   (js "img", js "imageTokens"); (js "img_o", js "imageOutputTokens"); (js "ai", js "audioInputTokens");
   (js "ao", js "audioOutputTokens")].

Definition exprUsesExtraVars (exprStr : jstr) : bool :=
  truthy exprStr &&
  re_test (RSeqs [RWordB; RCap 1 (RAlts (List.map (fun v => RLit v.1) ESTIMATOR_VARS)); RWordB]) exprStr.
