(* ===== verification/TierEditor.v ===== *)
(** * Tiers: what the visual editor generates, it reads back

    The theorems on [Tiers.v]. *)
From S2P Require Import Prelude Regex Numbers Json Tiers.

(** ** Costs the patterns can read *)

(** Printed with units of a number, and read back as itself. *)
Definition readable (x : number) : bool :=
  forallb num_unit (num_to_str x) && truthy (num_to_str x) && bool_decide (Number (num_to_str x) = x).

Lemma readable_spec x :
  readable x = true ->
  num_to_str x <> [] /\ Forall (fun c => num_unit c = true) (num_to_str x) /\ Number (num_to_str x) = x.
Proof.
  unfold readable. intros H. bools. rewrite forallb_forall in H.
  rewrite <-truthy_true, <-(bool_decide_eq_true (Number _ = _)). split; [done|].
  split; [|done]. apply Forall_forall. intros c Hc%list_elem_of_In. by apply H.
Qed.

(** ** The optional costs *)

Section extras.
Context (f : jstr * jstr -> number).

Definition extra_text (cv : jstr * jstr) : jstr :=
  if neqb (f cv) zero then [] else js " + " ++ body_part cv.2 (f cv).

Definition extras_text (vars : list (jstr * jstr)) : jstr := concat (List.map extra_text vars).

(** The captures after the group, latest first. *)
Fixpoint extra_caps (i : nat) (vars : list (jstr * jstr)) (caps : list (nat * jstr)) : list (nat * jstr) :=
  match vars with
  | [] => caps
  | cv :: vars' =>
      extra_caps (S i) vars' (if neqb (f cv) zero then caps else (i, num_to_str (f cv)) :: caps)
  end.

(** [v] cannot be read where [w] and a space are printed: they differ, or [w]
    goes on where [v] ends. *)
Fixpoint blocked (v w : jstr) : bool :=
  match v, w with
  | [], [] => false
  | [], c :: _ => negb (is_ws c) && negb (c =? 42)%N
  | c :: v', d :: w' => if (c =? d)%N then blocked v' w' else true
  | c :: _, [] => negb (c =? 32)%N
  end.

Lemma blocked_spec v w t :
  blocked v w = true ->
  starts_with v (w ++ 32%N :: t) = false \/
  exists c r, w ++ 32%N :: t = v ++ c :: r /\ is_ws c = false /\ c <> 42%N.
Proof.
  revert w. induction v as [|c v IH]; intros [|d w]; cbn [blocked app starts_with]; intros H; bools.
  - done.
  - right. by exists d, (w ++ 32%N :: t).
  - left. by rewrite (proj2 (N.eqb_neq c 32)).
  - destruct (N.eqb_spec c d) as [->|]; [|by left].
    destruct (IH w H) as [->|(c & r & -> & ?)]; [by left|right]. by exists c, r.
Qed.

Definition no_ws_head (s : jstr) : bool := match s with c :: _ => negb (is_ws c) | [] => false end.

(** One space, and nothing after it that the pattern could start with. *)
Lemma space_fails {A} r c t prev caps (k : rst -> option A) :
  is_ws c = false ->
  (forall prev', run r (MkRst prev' (32%N :: c :: t) caps) k = None) ->
  (forall prev', run r (MkRst prev' (c :: t) caps) k = None) ->
  run (RSeq ws_star r) (MkRst prev (32%N :: c :: t) caps) k = None.
Proof.
  intros Hc H1 H2. apply (star_fails is_ws [32%N] (c :: t)); [by repeat constructor|done|].
  intros [|a u] v prev' E; simpl in E; [by subst v|].
  destruct u; [|by destruct u]. simpl in E. simplify_eq. apply H2.
Qed.

Lemma extra_fails_var {A} v w t prev caps (k : rst -> option A) i :
  blocked v w = true -> no_ws_head v = true -> no_ws_head w = true ->
  run (RSeqs [ws_star; RLit (js "+"); ws_star; RLit v; ws_star; RLit (js "*"); ws_star; re_cost i])
    (MkRst prev (js " + " ++ w ++ js " * " ++ t) caps) k = None.
Proof.
  intros Hb Hv Hw. destruct v as [|a v]; [done|]. destruct w as [|b w]; [done|]. simpl in Hv, Hw. bools.
  cbn [RSeqs]. change (js " + ") with [32; 43; 32]%N. cbn [app].
  apply space_fails; [done|by intros; apply step_lit_fail|]. intros prev1.
  erewrite (step_lit (js "+")) by reflexivity. unfold adv; cbn [r_caps].
  apply space_fails; [done| |].
  { intros. apply step_lit_fail. cbn [r_rest starts_with].
    destruct (N.eqb_spec a 32); [by subst|done]. }
  intros prev2. change (b :: w ++ js " * " ++ t) with ((b :: w) ++ 32%N :: (js "* " ++ t)).
  destruct (blocked_spec _ _ (js "* " ++ t) Hb) as [Hs|(c & r & -> & Hc & Hc')]; [by apply step_lit_fail|].
  erewrite step_lit by reflexivity. unfold adv; cbn [r_caps].
  apply (star_fails is_ws []); [constructor|done|]. intros [|] u p E; [|done]. simpl in E. subst u.
  apply step_lit_fail. change (js "*") with [42%N]. cbn [r_rest app starts_with]. by destruct (N.eqb_spec 42 c); [congruence|].
Qed.

Lemma extra_fails_end {A} v prev caps (k : rst -> option A) i :
  run (RSeqs [ws_star; RLit (js "+"); ws_star; RLit v; ws_star; RLit (js "*"); ws_star; re_cost i])
    (MkRst prev (js ")") caps) k = None.
Proof. done. Qed.

(** The text of the variables that come later starts with none of the earlier
    ones. *)
Lemma extra_fails {A} v vars prev caps (k : rst -> option A) i :
  no_ws_head v = true -> Forall (fun cv => blocked v cv.2 = true /\ no_ws_head cv.2 = true) vars ->
  run (RSeqs [ws_star; RLit (js "+"); ws_star; RLit v; ws_star; RLit (js "*"); ws_star; re_cost i])
    (MkRst prev (extras_text vars ++ js ")") caps) k = None.
Proof.
  intros Hv H. induction H as [|cv vars [Hb Hw] _ IH]; [by apply extra_fails_end|].
  unfold extras_text in *. cbn [List.map concat]. unfold extra_text at 1.
  destruct (neqb (f cv) zero); [exact IH|]. unfold body_part. rewrite <-!app_assoc.
  by apply extra_fails_var.
Qed.

Lemma extras_cons cv vars : extras_text (cv :: vars) = extra_text cv ++ extras_text vars.
Proof. done. Qed.

Lemma re_extras_cons i cv vars : re_extras i (cv :: vars) = re_extra i cv.2 :: re_extras (S i) vars.
Proof.
  unfold re_extras. cbn [imap]. rewrite Nat.add_0_r. f_equal.
  apply imap_ext. intros k x _. simpl. f_equal. lia.
Qed.

Lemma extras_stop p vars :
  p 32%N = false -> p 41%N = false -> stops p (extras_text vars ++ js ")").
Proof.
  intros H1 H2. induction vars as [|cv vars IH]; [done|]. rewrite extras_cons. unfold extra_text.
  by destruct (neqb (f cv) zero).
Qed.

(** Earlier variables are not read where later ones are printed. *)
Inductive unambiguous : list (jstr * jstr) -> Prop :=
| unamb_nil : unambiguous []
| unamb_cons cv vars :
    no_ws_head cv.2 = true ->
    Forall (fun cw => blocked cv.2 cw.2 = true /\ no_ws_head cw.2 = true) vars ->
    unambiguous vars -> unambiguous (cv :: vars).

Lemma extras_match {A} (k : rst -> option A) x vars r i caps :
  unambiguous vars -> Forall (fun cv => readable (f cv) = true) vars ->
  succeeds k x (RSeq (RLit (js ")")) r) (js ")") (extra_caps i vars caps) ->
  succeeds k x (RSeqs (re_extras i vars ++ [RLit (js ")"); r])) (extras_text vars ++ js ")") caps.
Proof.
  intros Hu. revert i caps. induction Hu as [|cv vars Hv Hb Hu IH]; intros i caps Hr H; [done|].
  apply Forall_cons in Hr as [Hr Hrs]. destruct (readable_spec _ Hr) as (Hne & Hnum & _).
  rewrite re_extras_cons, extras_cons. cbn [app].
  assert (forall l, l <> [] -> RSeqs (re_extra i cv.2 :: l) = RSeq (re_extra i cv.2) (RSeqs l)) as ->
    by (by intros [|]). 2:{ by destruct (re_extras (S i) vars). }
  cbn [extra_caps] in H. unfold extra_text. destruct (neqb (f cv) zero) eqn:E.
  - apply succ_skip; [|by apply IH]. intros prev k'. by apply extra_fails.
  - unfold re_extra. apply succ_opt. unfold body_part. rewrite <-!app_assoc.
    cbn [RSeqs]. repeat apply succ_seq.
    change (js " + ") with ([32%N] ++ js "+" ++ [32%N]). change (js " * ") with ([32%N] ++ js "*" ++ [32%N]).
    rewrite <-!app_assoc.
    apply succ_star; [by repeat constructor|done|]. apply succ_lit.
    apply succ_star; [by repeat constructor|by destruct cv.2 as [|c ?]; [|simpl in *; bools]|]. apply succ_lit.
    apply succ_star; [by repeat constructor|done|]. apply succ_lit.
    apply succ_star; [by repeat constructor| |].
    { destruct (num_to_str (f cv)) as [|c ?]; [done|]. apply Forall_cons in Hnum as [Hc _]. simpl in *.
      by apply num_unit_not_ws. }
    apply succ_class; [done|done|by apply extras_stop|]. by apply IH.
Qed.
End extras.

(** ** One tier *)

Lemma join_extras a b f vars :
  join (js " + ") ([a; b] ++ omap (fun cv => if neqb (f cv) zero then None else Some (body_part cv.2 (f cv))) vars) =
  a ++ js " + " ++ b ++ extras_text f vars.
Proof.
  assert (forall l c, join (js " + ") (c :: l) = c ++ concat (List.map (app (js " + ")) l)) as Hj.
  { induction l as [|d l IH]; intros c; [by rewrite app_nil_r|].
    rewrite join_cons, IH by done. cbn [List.map concat]. by rewrite <-app_assoc. }
  cbn [app]. rewrite Hj. cbn [List.map concat]. rewrite <-app_assoc. do 3 f_equal.
  unfold extras_text. induction vars as [|cv vars IH]; [done|]. cbn [omap list_omap List.map concat].
  unfold extra_text at 1. destruct (neqb (f cv) zero); [done|]. cbn [List.map concat]. by rewrite IH.
Qed.

Lemma body_text t :
  buildTierBodyExpr t =
  body_part (js "p") (num_or (vt_input t) zero) ++ js " + " ++
  body_part (js "c") (num_or (vt_output t) zero) ++ extras_text (extra_cost t) BILLING_CACHE_VAR_MAP.
Proof. apply join_extras. Qed.

Lemma extra_caps_below f vars i j caps : j < i -> cap_of j (extra_caps f i vars caps) = cap_of j caps.
Proof.
  revert i caps. induction vars as [|cv vars IH]; intros i caps H; [done|]. cbn [extra_caps].
  rewrite IH by lia. case_match; [done|]. cbn [cap_of]. by rewrite (proj2 (Nat.eqb_neq j i)) by lia.
Qed.

Lemma extra_caps_read {A} f vars i caps (g : jstr * jstr -> jstr -> A) :
  (forall j, i <= j -> cap_of j caps = None) ->
  omap id (imap (fun k cv => g cv <$> cap_of (i + k) (extra_caps f i vars caps)) vars) =
  omap (fun cv => if neqb (f cv) zero then None else Some (g cv (num_to_str (f cv)))) vars.
Proof.
  revert i caps. induction vars as [|cv vars IH]; intros i caps H; [done|].
  cbn [imap omap list_omap extra_caps]. rewrite Nat.add_0_r, extra_caps_below by lia.
  assert (imap ((fun k cw => g cw <$> cap_of (i + k) (extra_caps f (S i) vars
            (if neqb (f cv) zero then caps else (i, num_to_str (f cv)) :: caps))) ∘ S) vars =
          imap (fun k cw => g cw <$> cap_of (S i + k) (extra_caps f (S i) vars
            (if neqb (f cv) zero then caps else (i, num_to_str (f cv)) :: caps))) vars) as ->.
  { apply imap_ext. intros k cw _. cbn [compose]. by replace (i + S k) with (S i + k) by lia. }
  rewrite IH.
  - destruct (neqb (f cv) zero); [by rewrite H|]. cbn [cap_of]. by rewrite Nat.eqb_refl.
  - intros j Hj. case_match; [apply H; lia|]. cbn [cap_of]. rewrite (proj2 (Nat.eqb_neq j i)) by lia. apply H. lia.
Qed.

Lemma num_or_zero_eqb x : neqb (num_or x zero) zero = true -> num_or x zero = zero.
Proof. by destruct x as [s|s| |s m e]; [done|destruct s|done|destruct s]. Qed.

Lemma obj_get_costs (f : jstr * jstr -> number) vars cv :
  NoDup vars.*1 -> cv ∈ vars ->
  obj_get cv.1 (omap (fun cw => if neqb (f cw) zero then None else Some (cw.1, f cw)) vars) =
  if neqb (f cv) zero then None else Some (f cv).
Proof.
  induction vars as [|cw vars IH]; intros Hnd Hin; [set_solver|]. cbn [fmap list_fmap] in Hnd.
  apply NoDup_cons in Hnd as [Hnin Hnd]. cbn [omap list_omap].
  assert (forall l, cw.1 ∉ l.*1 ->
    obj_get cw.1 (omap (fun cw => if neqb (f cw) zero then None else Some (cw.1, f cw)) l) = None) as Hno.
  { induction l as [|d l IHl]; intros Hl; [done|]. cbn [fmap list_fmap omap list_omap] in *.
    apply not_elem_of_cons in Hl as [H1 H2]. destruct (neqb (f d) zero); [by apply IHl|].
    cbn [obj_get]. rewrite js_eqb_ne by done. by apply IHl. }
  apply elem_of_cons in Hin as [->|Hin].
  - destruct (neqb (f cw) zero); [by apply Hno|]. cbn [obj_get]. by rewrite js_eqb_refl.
  - assert (cv.1 <> cw.1) by (intros E; apply Hnin; rewrite <-E; apply list_elem_of_fmap; eauto).
    destruct (neqb (f cw) zero); [by apply IH|]. cbn [obj_get]. rewrite js_eqb_ne by done. by apply IH.
Qed.

(** A tier as the editor keeps it: nonempty label without quotes, costs that
    print as numbers, and the cache mode its costs imply. *)
Definition editor_tier (t : VisualTier) : bool :=
  truthy (vt_label t) && bool_decide (34%N ∉ vt_label t) && bool_decide (vt_conditions t = []) &&
  bool_decide (num_or (vt_input t) zero = vt_input t) && readable (vt_input t) &&
  bool_decide (num_or (vt_output t) zero = vt_output t) && readable (vt_output t) &&
  bool_decide (vt_extra t = List.map (fun cv => (cv.1, extra_cost t cv)) BILLING_CACHE_VAR_MAP) &&
  forallb (fun cv => readable (extra_cost t cv)) BILLING_CACHE_VAR_MAP &&
  (vt_cache_mode t === if nltb zero (extra_cost t (cache_1h_field, js "cc1h"))
                       then CACHE_MODE_TIMED else CACHE_MODE_GENERIC).

Lemma cache_map_unambiguous : unambiguous BILLING_CACHE_VAR_MAP.
Proof. repeat first [constructor | split]; vm_compute; reflexivity. Qed.

Lemma cache_map_nodup : NoDup (BILLING_CACHE_VAR_MAP).*1.
Proof. apply (bool_decide_eq_true (NoDup _)). vm_compute. reflexivity. Qed.

Lemma strip_version_tier t : strip_version (js "tier(" ++ t) = js "tier(" ++ t.
Proof. unfold strip_version. cbn [RSeqs]. rewrite re_match_start. by rewrite step_lit_fail. Qed.

(** [p * x] in the pattern: the variable, the cost and what follows. *)
Lemma succ_body_part {A} (k : rst -> option A) y v x i t r caps :
  readable x = true -> stops num_unit t ->
  succeeds k y r t ((i, num_to_str x) :: caps) ->
  succeeds k y (RSeq (RLit v) (RSeq ws_star (RSeq (RLit (js "*")) (RSeq ws_star (RSeq (re_cost i) r)))))
    (body_part v x ++ t) caps.
Proof.
  intros (Hne & Hnum & _)%readable_spec Ht H. unfold body_part.
  change (js " * ") with ([32%N] ++ js "*" ++ [32%N]). rewrite <-!app_assoc.
  apply succ_lit. apply succ_star; [by repeat constructor|done|].
  apply succ_lit. apply succ_star; [by repeat constructor| |by apply succ_class].
  destruct (num_to_str x) as [|c ?]; [done|]. apply Forall_cons in Hnum as [Hc _]. by apply num_unit_not_ws.
Qed.

Definition single_caps (t : VisualTier) : list (nat * jstr) :=
  extra_caps (extra_cost t) 4 BILLING_CACHE_VAR_MAP
    [(3, num_to_str (vt_output t)); (2, num_to_str (vt_input t)); (1, vt_label t)].

Lemma single_match t :
  editor_tier t = true ->
  re_match re_single (tier_call (vt_label t) t) = Some (MkRst (Some 41%N) [] (single_caps t)).
Proof.
  unfold editor_tier. intros H. bools.
  repeat match goal with E : bool_decide _ = true |- _ => apply bool_decide_eq_true in E end.
  match goal with E : forallb _ _ = true |- _ => rewrite forallb_forall in E; rename E into Hcosts end.
  unfold re_single, re_tier_head, re_body. cbn [app]. cbn [RSeqs]. rewrite re_match_start.
  unfold tier_call. rewrite body_text.
  repeat match goal with E : num_or _ zero = _ |- _ => rewrite E; clear E end.
  rewrite <-!app_assoc.
  change (js "tier(" ++ dq ++ ?s) with ((js "tier(" ++ dq) ++ s).
  change (dq ++ js ", " ++ ?s) with ((dq ++ js ",") ++ [32%N] ++ s).
  match goal with |- run ?r (init ?s) ?k = Some ?x => enough (succeeds k x r s []) as E by apply E end.
  apply succ_lit. apply succ_class0.
  { apply Forall_forall. intros c Hc. apply negb_true_iff, N.eqb_neq. intros E. by subst c. }
  { done. }
  apply succ_lit. apply succ_star; [by repeat constructor|done|].
  apply succ_body_part; [done|done|].
  change (js " + ") with ([32%N] ++ js "+" ++ [32%N]). rewrite <-!app_assoc.
  apply succ_star; [by repeat constructor|done|]. apply succ_lit.
  apply succ_star; [by repeat constructor|done|].
  apply succ_body_part; [done|by apply extras_stop|].
  apply extras_match; [apply cache_map_unambiguous|by apply Forall_forall; intros cv Hcv%list_elem_of_In; apply Hcosts|].
  intros prev. done.
Qed.

Lemma num_or_idem x : num_or (num_or x zero) zero = num_or x zero.
Proof. by destruct x. Qed.

Lemma obj_get_map (f : jstr * jstr -> number) vars cv :
  NoDup vars.*1 -> cv ∈ vars -> obj_get cv.1 (List.map (fun cw => (cw.1, f cw)) vars) = Some (f cv).
Proof.
  induction vars as [|cw vars IH]; intros Hnd Hin; [set_solver|].
  cbn [fmap list_fmap] in Hnd. apply NoDup_cons in Hnd as [Hnin Hnd]. cbn [List.map obj_get].
  apply elem_of_cons in Hin as [->|Hin]; [by rewrite js_eqb_refl|].
  rewrite js_eqb_ne; [by apply IH|]. intros E. apply Hnin. cbn [fst] in E. rewrite <-E.
  apply list_elem_of_fmap; eauto.
Qed.

Lemma map_ext_cache {A} (f g : jstr * jstr -> A) :
  (forall cv, cv ∈ BILLING_CACHE_VAR_MAP -> f cv = g cv) ->
  List.map f BILLING_CACHE_VAR_MAP = List.map g BILLING_CACHE_VAR_MAP.
Proof. intros H. apply map_ext_in. intros cv Hcv. by apply H, list_elem_of_In. Qed.

(** Normalizing twice is normalizing once. *)
Lemma normalize_idem p :
  normalizeVisualTier (partial_of (normalizeVisualTier p)) = normalizeVisualTier p.
Proof.
  unfold normalizeVisualTier at 1. cbn [partial_of pa_label pa_conditions pa_input pa_output pa_cache_mode pa_extra
    normalizeVisualTier vt_label vt_conditions vt_input vt_output vt_cache_mode vt_extra from_option id].
  unfold normalizeVisualTier. f_equal. apply map_ext_cache. intros cv Hcv. f_equal.
  rewrite (obj_get_map (fun cw => num_or (cost (obj_get cw.1 (pa_extra p))) zero))
    by (done || apply cache_map_nodup).
  apply num_or_idem.
Qed.

Lemma nltb_zero_num_or x : nltb zero x = nltb zero (num_or x zero).
Proof. by destruct x as [s|s| |s m e]. Qed.

Lemma read_single_tier t :
  editor_tier t = true ->
  normalizeVisualTier
    (tier_of_match (MkRst (Some 41%N) [] (single_caps t)) 2 (cap' 1 (MkRst (Some 41%N) [] (single_caps t))) []) = t.
Proof.
  intros H. unfold editor_tier in H. bools.
  repeat match goal with E : bool_decide _ = true |- _ => apply bool_decide_eq_true in E end.
  match goal with E : forallb _ _ = true |- _ => rewrite forallb_forall in E; rename E into Hcosts end.
  destruct (readable_spec (vt_input t)) as (_ & _ & Hin); [done|].
  destruct (readable_spec (vt_output t)) as (_ & _ & Hout); [done|].
  unfold tier_of_match, cap', cap. cbn [r_caps]. unfold single_caps.
  rewrite !extra_caps_below by lia. cbn [cap_of Nat.eqb from_option id].
  rewrite (extra_caps_read _ _ 4 _ (fun cv w => (cv.1, Number w))).
  2:{ intros j Hj. do 4 (destruct j as [|j]; [lia|]). done. }
  rewrite Hin, Hout.
  assert (omap (fun cv => if neqb (extra_cost t cv) zero then None
                          else Some (cv.1, Number (num_to_str (extra_cost t cv)))) BILLING_CACHE_VAR_MAP =
          omap (fun cv => if neqb (extra_cost t cv) zero then None else Some (cv.1, extra_cost t cv))
            BILLING_CACHE_VAR_MAP) as ->.
  { revert Hcosts. generalize BILLING_CACHE_VAR_MAP. clear. intros vars Hc.
    induction vars as [|cv vars IH]; [done|]. cbn [omap list_omap]. rewrite IH by (intros; apply Hc; by right).
    destruct (readable_spec (extra_cost t cv)) as (_ & _ & ->); [apply Hc; by left|done]. }
  assert (forall cv, cv ∈ BILLING_CACHE_VAR_MAP ->
    num_or (cost (obj_get cv.1 (omap (fun cv => if neqb (extra_cost t cv) zero then None
      else Some (cv.1, extra_cost t cv)) BILLING_CACHE_VAR_MAP))) zero = extra_cost t cv) as Hx.
  { intros cv Hcv. rewrite (obj_get_costs (extra_cost t)) by (done || apply cache_map_nodup).
    unfold extra_cost. destruct (neqb _ zero) eqn:E; [apply num_or_zero_eqb in E; by rewrite E|]. apply num_or_idem. }
  revert Hx. generalize (omap (fun cv => if neqb (extra_cost t cv) zero then None
    else Some (cv.1, extra_cost t cv)) BILLING_CACHE_VAR_MAP). intros extra Hx.
  unfold normalizeVisualTier. cbn [pa_label pa_conditions pa_input pa_output pa_cache_mode pa_extra from_option id].
  assert (getTierCacheMode (Some (MkPartialTier (Some (vt_label t)) (Some []) (Some (vt_input t))
            (Some (vt_output t)) None extra)) = vt_cache_mode t) as ->.
  { unfold getTierCacheMode. cbn [mbind option_bind pa_cache_mode pa_extra].
    rewrite !js_eqb_ne by done.
    assert ((cache_1h_field, js "cc1h") ∈ BILLING_CACHE_VAR_MAP) as H1h
      by (apply list_elem_of_In; vm_compute; tauto).
    specialize (Hx _ H1h). cbn [fst] in Hx. by rewrite nltb_zero_num_or, Hx. }
  rewrite (map_ext_cache _ (fun cv => (cv.1, extra_cost t cv))) by (intros; f_equal; auto).
  repeat match goal with
    | E : vt_conditions t = [] |- _ => rewrite <-E; clear E
    | E : vt_extra t = _ |- _ => rewrite <-E; clear E
    end.
  by destruct t.
Qed.

Lemma editor_tier_read t :
  editor_tier t = true ->
  tryParseVisualConfig (Some (generateExprFromVisualConfig (Some [t]))) = Some [t].
Proof.
  intros Ht. pose proof (single_match t Ht) as Hm. revert Hm. pose proof Ht as H.
  unfold editor_tier in H. bools.
  repeat match goal with E : bool_decide _ = true |- _ => apply bool_decide_eq_true in E end.
  assert (generateExprFromVisualConfig (Some [t]) = tier_call (vt_label t) t) as ->.
  { cbn [generateExprFromVisualConfig]. unfold str_or.
    match goal with E : truthy _ = true |- _ => rewrite E end.
    match goal with E : vt_conditions t = [] |- _ => rewrite E end. done. }
  intros Hm. unfold tryParseVisualConfig.
  destruct (tier_call (vt_label t) t) as [|c e] eqn:E; [done|]. rewrite <-E in *. clear c e E.
  unfold tier_call at 1 2. rewrite strip_version_tier. fold (tier_call (vt_label t) t). rewrite Hm.
  cbn [normalizeVisualConfig List.map]. by rewrite normalize_idem, read_single_tier.
Qed.

(** The names of the seven optional costs, and a cost as it counts: a missing
    one and NaN are zero. *)
Definition cost_fields : list jstr :=
  [js "cache_read_unit_cost"; js "cache_create_unit_cost"; js "cache_create_1h_unit_cost"; js "image_unit_cost";
   js "image_output_unit_cost"; js "audio_input_unit_cost"; js "audio_output_unit_cost"].

Definition cost_held (t : VisualTier) (field : jstr) : number :=
  match obj_get field (vt_extra t) with Some x => if is_nan x then zero else num_or x zero | None => zero end.

Definition price_held (x : number) : number := if is_nan x then zero else num_or x zero.

(** A tier that the generated text can hold: no quote in the label, no
    complete condition, prices that print as numbers and read back. *)
Definition printable_tier (t : VisualTier) : bool :=
  bool_decide (34%N ∉ vt_label t) && forallb (fun c => negb (cond_complete c)) (vt_conditions t) &&
  readable (price_held (vt_input t)) && readable (price_held (vt_output t)) &&
  forallb (fun field => readable (cost_held t field)) cost_fields.

(** What is left of such a tier. *)
Definition tier_kept (t : VisualTier) : VisualTier :=
  MkVisual (match vt_label t with [] => js "default" | l => l end) []
    (price_held (vt_input t)) (price_held (vt_output t))
    (if nltb zero (cost_held t (js "cache_create_1h_unit_cost")) then js "timed" else js "generic")
    (List.map (fun field => (field, cost_held t field)) cost_fields).

Lemma price_held_or x : price_held x = num_or x zero.
Proof. by destruct x. Qed.

Lemma cost_held_extra t cv : extra_cost t cv = cost_held t cv.1.
Proof. unfold extra_cost, cost_held. destruct (obj_get _ _) as [x|]; [by destruct x|done]. Qed.

Lemma map_cost_fields {A} (f : jstr -> A) :
  List.map (fun cv => f cv.1) BILLING_CACHE_VAR_MAP = List.map f cost_fields.
Proof.
  change cost_fields with ltac:(let v := eval vm_compute in cost_fields in exact v).
  change BILLING_CACHE_VAR_MAP with ltac:(let v := eval vm_compute in BILLING_CACHE_VAR_MAP in exact v).
  reflexivity.
Qed.

Lemma kept_extra t cv : cv ∈ BILLING_CACHE_VAR_MAP -> extra_cost (tier_kept t) cv = extra_cost t cv.
Proof.
  intros Hcv. rewrite !cost_held_extra. unfold cost_held at 1, tier_kept. cbn [vt_extra].
  rewrite <-(map_cost_fields (fun field => (field, cost_held t field))).
  rewrite (obj_get_map (fun cv => cost_held t cv.1)) by (done || apply cache_map_nodup).
  unfold cost_held. destruct (obj_get _ _) as [x|]; [by destruct x|done].
Qed.

Lemma kept_is_editor_tier t : printable_tier t = true -> editor_tier (tier_kept t) = true.
Proof.
  unfold printable_tier. intros H. bools.
  match goal with E : bool_decide _ = true |- _ => apply bool_decide_eq_true in E; rename E into Hl end.
  match goal with E : forallb _ cost_fields = true |- _ => rewrite forallb_forall in E; rename E into Hc end.
  assert (forall cv, cv ∈ BILLING_CACHE_VAR_MAP -> cv.1 ∈ cost_fields) as Hf.
  { intros cv Hcv. assert (BILLING_CACHE_VAR_MAP.*1 = cost_fields) as <- by (vm_compute; reflexivity).
    apply list_elem_of_fmap. eauto. }
  unfold editor_tier. rewrite !andb_true_iff, !bool_decide_eq_true. repeat apply conj.
  - by destruct t as [[|c l] ? ? ? ? ?].
  - destruct t as [[|c l] ? ? ? ? ?]; [|done]. vm_compute. set_solver.
  - done.
  - cbn [tier_kept vt_input]. by rewrite price_held_or, num_or_idem.
  - done.
  - cbn [tier_kept vt_output]. by rewrite price_held_or, num_or_idem.
  - done.
  - rewrite (map_ext_cache _ (fun cv => (cv.1, cost_held t cv.1)))
      by (intros cv Hcv; by rewrite kept_extra, cost_held_extra).
    by rewrite (map_cost_fields (fun field => (field, cost_held t field))).
  - apply forallb_forall. intros cv Hcv%list_elem_of_In. rewrite kept_extra, cost_held_extra by done.
    apply Hc, list_elem_of_In. by apply Hf.
  - assert ((cache_1h_field, js "cc1h") ∈ BILLING_CACHE_VAR_MAP) as H1h
      by (apply list_elem_of_In; vm_compute; tauto).
    rewrite kept_extra, cost_held_extra by done. apply js_eqb_refl.
Qed.

Lemma kept_same_text t :
  printable_tier t = true ->
  generateExprFromVisualConfig (Some [t]) = generateExprFromVisualConfig (Some [tier_kept t]).
Proof.
  intros H. unfold printable_tier in H. bools.
  assert (buildTierBodyExpr (tier_kept t) = buildTierBodyExpr t) as Hb.
  { unfold buildTierBodyExpr. cbn [tier_kept vt_input vt_output]. rewrite !price_held_or, !num_or_idem.
    do 2 f_equal. pose proof (kept_extra t) as Hk. revert Hk. fold (tier_kept t). generalize (tier_kept t). intros u Hk.
    revert Hk. generalize BILLING_CACHE_VAR_MAP. induction l as [|cv l IH]; intros Hk; [done|].
    cbn [omap list_omap]. rewrite Hk by (by left). rewrite IH by (intros; apply Hk; by right). done. }
  assert (buildConditionStr (vt_conditions t) = []) as Hcond.
  { unfold buildConditionStr. match goal with E : forallb _ (vt_conditions t) = true |- _ => revert E end.
    induction (vt_conditions t) as [|c cs IH]; intros E; [done|]. cbn [forallb List.filter] in *. bools.
    destruct (cond_complete c); [done|]. by apply IH. }
  cbn [generateExprFromVisualConfig]. rewrite Hcond. unfold tier_call. rewrite Hb.
  by destruct t as [[|c l] ? ? ? ? ?].
Qed.

(** C3: a configuration of a single tier without a complete condition, with a
    label without quotes, generated as an expression and read back by the
    visual editor, gives this tier: the label (default for an empty one), both
    prices and each of the seven optional costs as they count (a missing one
    and NaN are zero), no conditions, and the cache mode the costs imply: timed
    when the cost of one-hour cache writes is positive, generic otherwise,
    whatever mode the tier had. The prices must print as numbers that read
    back. *)
Theorem visual_tier_roundtrip t :
  printable_tier t = true ->
  tryParseVisualConfig (Some (generateExprFromVisualConfig (Some [t]))) = Some [tier_kept t].
Proof. intros H. rewrite kept_same_text by done. by apply editor_tier_read, kept_is_editor_tier. Qed.

Definition sample_tier : VisualTier :=
  normalizeVisualTier (MkPartialTier (Some (js "base")) (Some []) (Some (Number (js "0.3"))) (Some (num_of_Z 15)) None
    [(js "cache_read_unit_cost", Number (js "0.03")); (cache_1h_field, num_of_Z 6)]).

(** A timed tier without a one-hour cost, and without a label. *)
Definition timed_tier : VisualTier :=
  MkVisual [] [MkInput (js "p") (js "<") None] (num_of_Z 3) (num_of_Z 15) CACHE_MODE_TIMED
    [(js "cache_read_unit_cost", Number (js "0.3"))].

Lemma visual_tier_roundtrip_witness :
  tryParseVisualConfig (Some (generateExprFromVisualConfig (Some [sample_tier]))) = Some [sample_tier] /\
  option_map (List.map vt_cache_mode) (tryParseVisualConfig (Some (generateExprFromVisualConfig (Some [timed_tier]))))
    = Some [CACHE_MODE_GENERIC].
Proof.
  split; [rewrite (visual_tier_roundtrip sample_tier)|rewrite (visual_tier_roundtrip timed_tier)];
    vm_compute; reflexivity.
Defined.

(** ** What a reading guarantees *)

(** When the editor accepts an expression that is not a single plain tier,
    generating the configuration it read gives the same expression up to white
    space: opening an expression in the visual editor and saving it cannot
    change the prices. *)
Lemma visual_parse_sound e cfg :
  tryParseVisualConfig (Some e) = Some cfg ->
  re_match re_single (strip_version e) = None ->
  strip_ws (generateExprFromVisualConfig (Some cfg)) = strip_ws (strip_version e).
Proof.
  intros H Hs. unfold tryParseVisualConfig in H. destruct e as [|c e]; [done|]. rewrite Hs in H.
  destruct (List.map _ _) as [|t ts] eqn:E; [done|].
  destruct (negb _) eqn:En in H; [done|]. simplify_eq. by bools.
Qed.

Definition tiered_sample : jstr :=
  js "p <= 32000 ? tier(" ++ dq ++ js "small" ++ dq ++ js ", p * 1 + c * 2) : tier(" ++ dq ++ js "big" ++ dq
  ++ js ", p * 3 + c*4)".

Lemma visual_parse_sound_witness :
  exists cfg, length cfg = 2 /\
    strip_ws (generateExprFromVisualConfig (Some cfg)) = strip_ws (strip_version tiered_sample).
Proof.
  eexists. split; [|apply (visual_parse_sound tiered_sample); [vm_compute; reflexivity|vm_compute; reflexivity]].
  vm_compute. reflexivity.
Defined.

Definition tier_values (coeffs : list (jstr * number)) : list (jstr * number) :=
  foldl (fun tier p =>
           obj_set p.2 (match obj_get p.1 coeffs with Some x => num_or x zero | None => zero end) tier)
        [] BILLING_VAR_KEY_TO_FIELD.

Lemma tier_values_shape coeffs :
  tier_values coeffs =
  List.map (fun p => (p.2, match obj_get p.1 coeffs with Some x => num_or x zero | None => zero end))
           BILLING_VAR_KEY_TO_FIELD.
Proof.
  unfold tier_values.
  change BILLING_VAR_KEY_TO_FIELD with ltac:(let v := eval vm_compute in BILLING_VAR_KEY_TO_FIELD in exact v).
  cbn [foldl List.map fst snd].
  repeat match goal with |- context [match obj_get ?k coeffs with Some x => _ | None => _ end] =>
    generalize (match obj_get k coeffs with Some x => num_or x zero | None => zero end); intros ? end.
  vm_compute. reflexivity.
Qed.

(** Every tier read for display has exactly the price fields of the variable
    registry, in its order, whatever the expression; a price that is missing or
    not a number is zero, so no field is NaN. *)
Lemma parsed_tier_fields exprStr t :
  t ∈ parseTiersFromExpr exprStr ->
  (pt_fields t).*1 = BILLING_VAR_KEY_TO_FIELD.*2 /\ Forall (fun p => is_nan p.2 = false) (pt_fields t).
Proof.
  unfold parseTiersFromExpr. case_match; [set_solver|].
  intros (m & <- & _)%list_elem_of_In%in_map_iff. cbn [pt_fields]. unfold parseTierBody.
  generalize (foldl add_coeff [] (exec_all BILLING_VAR_REGEX (cap' 3 m))). intros coeffs.
  change (foldl _ [] BILLING_VAR_KEY_TO_FIELD) with (tier_values coeffs). rewrite tier_values_shape. split.
  - vm_compute. reflexivity.
  - apply Forall_forall. intros [a x] (p & E & _)%list_elem_of_In%in_map_iff. simplify_eq/=.
    destruct (obj_get p.1 coeffs) as [x|]; [|done]. by destruct x.
Qed.

Lemma parsed_tier_fields_witness :
  exists t, (pt_fields t).*1 = BILLING_VAR_KEY_TO_FIELD.*2 /\ Forall (fun p => is_nan p.2 = false) (pt_fields t).
Proof.
  eexists (default (MkTier [] [] []) (head (parseTiersFromExpr tiered_sample))).
  apply (parsed_tier_fields tiered_sample). vm_compute. left.
Defined.

(** A configuration whose first tier has no condition is generated as two tiers
    joined by a colon, with no question mark, which is no expression; the editor
    accepts it again. *)
Lemma unconditional_chain :
  let e := generateExprFromVisualConfig (Some [sample_tier; sample_tier]) in
  63%N ∉ e /\ tryParseVisualConfig (Some e) = Some [sample_tier; sample_tier].
Proof.
  split; [|vm_compute; reflexivity]. apply (bool_decide_eq_true (_ ∉ _)). vm_compute. reflexivity.
Qed.

(** A threshold below one millionth is printed with a negative exponent, which
    the condition pattern cannot read: the editor refuses its own output. *)
Lemma tiny_threshold_lost :
  let t := normalizeVisualTier (MkPartialTier (Some (js "a"))
             (Some [MkInput (js "p") (js "<") (Some (VNum (Number (js "1e-7"))))]) (Some (num_of_Z 1)) (Some (num_of_Z 1)) None []) in
  tryParseVisualConfig (Some (generateExprFromVisualConfig (Some [t; sample_tier]))) = None.
Proof. vm_compute. reflexivity. Qed.
