(* ===== verification/Pricing.v ===== *)
(** * The model catalogue: [features/pricing/lib/price.ts], [filters.ts] and
      [dynamic-price.ts]

    Prices per model and group, filters, sorting, and the summary of a dynamic
    (tiered) price.  Case mapping and collation of the language depend on
    Unicode data and on the locale: they are parameters. *)
From S2P Require Import Prelude Regex Numbers Json BillingExpr Currency Tiers.

(** ** Data *)

Inductive TokenUnit := UnitM | UnitK.
Inductive PriceType := PInput | POutput | PCache | PCreateCache | PImage | PAudioInput | PAudioOutput.

Definition TOKEN_UNIT_DIVISORS (u : TokenUnit) : number :=
  match u with UnitM => num_of_Z 1 | UnitK => num_of_Z 1000 end.

Definition QUOTA_TOKEN : Z := 0.
Definition QUOTA_REQUEST : Z := 1.

Record PricingModel := MkModel {
  model_name : jstr;
  description : option jstr;
  vendor_name : option jstr;
  quota_type : Z;
  model_ratio : number;
  completion_ratio : number;
  model_price : option number;
  cache_ratio : option number;
  create_cache_ratio : option number;
  image_ratio : option number;
  audio_ratio : option number;
  audio_completion_ratio : option number;
  enable_groups : option (list jstr);
  tags : option jstr;
  supported_endpoint_types : option (list jstr);
  group_ratio : option (list (jstr * number));
  billing_mode : option jstr;
  billing_expr : option jstr
}.

(** ** Prices: [price.ts] *)

(** A symbol, a number with commas and an optional [k]. *)
Definition re_formatted : re :=
  RSeqs [RStart; RCap 1 (RStar (RSet (fun c => negb (is_digit c) && negb (c =? 45)%N)));
         RCap 2 (RSeqs [RPlus (RSet (fun c => (c =? 45)%N || is_digit c || (c =? 44)%N));
                        ROpt (RLit (js ".")); RStar (RSet is_digit)]);
         RCap 3 (ROpt (RLit (js "k"))); REnd].

Definition stripTrailingZeros (formatted : jstr) : jstr :=
  match re_match re_formatted formatted with
  | None => formatted
  | Some m =>
      let cleanNumber := List.filter (fun c => negb (c =? 44)%N) (cap' 2 m) in
      let parsed := parseFloat cleanNumber in
      if is_nan parsed then formatted
      else
        let result := num_to_str parsed in
        let result' :=
          if includes (js "e") result
          then re_replace (RSeqs [ROpt (RLit (js ".")); RPlus (RLit (js "0")); REnd]) (fun _ => []) (toFixed parsed 20)
          else result in
        cap' 1 m ++ result' ++ cap' 3 m
  end.

(** One round of the loop over the groups. *)
Definition min_step (ratios : list (jstr * number)) (minRatio : number) (group : jstr) : number :=
  match obj_get group ratios with
  | Some ratio => if nltb ratio minRatio then ratio else minRatio
  | None => minRatio
  end.

Definition getMinGroupRatio (enableGroups : list jstr) (groupRatio : list (jstr * number)) : number :=
  match enableGroups with
  | [] => num_of_Z 1
  | _ =>
      let minRatio := foldl (min_step groupRatio) infinity enableGroups in
      if neqb minRatio infinity then num_of_Z 1 else minRatio
  end.

Definition hasRatio (value : option number) : bool :=
  match value with Some x => is_finite x | None => false end.

Definition two : number := num_of_Z 2.

Definition ratio_price (base : number) (value : option number) : number :=
  match value with Some x => if hasRatio value then nmul base x else nan | None => nan end.

Definition calculateTokenPrice (model : PricingModel) (type : PriceType) (ratio : number) : number :=
  let base := nmul (nmul (model_ratio model) two) ratio in
  match type with
  | PInput => base
  | POutput => nmul base (completion_ratio model)
  | PCache => ratio_price base (cache_ratio model)
  | PCreateCache => ratio_price base (create_cache_ratio model)
  | PImage => ratio_price base (image_ratio model)
  | PAudioInput => ratio_price base (audio_ratio model)
  | PAudioOutput =>
      match audio_ratio model, audio_completion_ratio model with
      | Some a, Some c => if is_finite a && is_finite c then nmul (nmul base a) c else nan
      | _, _ => nan
      end
  end.

Definition applyRechargeRate (price : number) (showWithRecharge : bool) (priceRate usdExchangeRate : number) : number :=
  if showWithRecharge then ndiv (nmul price priceRate) usdExchangeRate else price.

Definition price_options (large small : nat) : option CurrencyFormatOptions :=
  Some (MkOptions (Some large) (Some small) (Some false) None).

Definition model_groups (model : PricingModel) : list jstr := default [] (enable_groups model).
Definition model_ratios (model : PricingModel) : list (jstr * number) := default [] (group_ratio model).

(** [groupRatio[group] || 1]. *)
Definition ratio_or_one (group : jstr) (groupRatio : list (jstr * number)) : number :=
  match obj_get group groupRatio with Some x => num_or x (num_of_Z 1) | None => num_of_Z 1 end.

Section display.
Context (intl_currency : jstr -> nat -> number -> jstr) (intl_decimal : nat -> number -> jstr).
Context (store : option StoredCurrency).

Definition show_usd (price : number) (options : option CurrencyFormatOptions) : jstr :=
  formatCurrencyFromUSD intl_currency intl_decimal store (Some price) options.

Definition formatPrice (model : PricingModel) (type : PriceType) (tokenUnit : TokenUnit)
    (showWithRecharge : bool) (priceRate usdExchangeRate : number) : jstr :=
  if (quota_type model =? QUOTA_REQUEST)%Z then js "-"
  else
    let minRatio := getMinGroupRatio (model_groups model) (model_ratios model) in
    let priceInUSD := applyRechargeRate (calculateTokenPrice model type minRatio)
                        showWithRecharge priceRate usdExchangeRate in
    show_usd (ndiv priceInUSD (TOKEN_UNIT_DIVISORS tokenUnit)) (price_options 4 6).

Definition formatGroupPrice (model : PricingModel) (group : jstr) (type : PriceType) (tokenUnit : TokenUnit)
    (showWithRecharge : bool) (priceRate usdExchangeRate : number) (groupRatio : list (jstr * number)) : jstr :=
  if (quota_type model =? QUOTA_REQUEST)%Z then js "-"
  else
    let priceInUSD := applyRechargeRate (calculateTokenPrice model type (ratio_or_one group groupRatio))
                        showWithRecharge priceRate usdExchangeRate in
    show_usd (ndiv priceInUSD (TOKEN_UNIT_DIVISORS tokenUnit)) (price_options 4 6).

Definition request_price (model : PricingModel) (ratio : number) : number :=
  nmul (match model_price model with Some p => num_or p zero | None => zero end) ratio.

Definition formatFixedPrice (model : PricingModel) (group : jstr)
    (showWithRecharge : bool) (priceRate usdExchangeRate : number) (groupRatio : list (jstr * number)) : jstr :=
  if negb (quota_type model =? QUOTA_REQUEST)%Z then js "-"
  else show_usd (applyRechargeRate (request_price model (ratio_or_one group groupRatio))
                   showWithRecharge priceRate usdExchangeRate) (price_options 4 4).

Definition formatRequestPrice (model : PricingModel)
    (showWithRecharge : bool) (priceRate usdExchangeRate : number) : jstr :=
  if negb (quota_type model =? QUOTA_REQUEST)%Z then js "-"
  else show_usd (applyRechargeRate (request_price model (getMinGroupRatio (model_groups model) (model_ratios model)))
                   showWithRecharge priceRate usdExchangeRate) (price_options 4 4).

(** ** Dynamic prices: [dynamic-price.ts] *)

Record DynamicPriceOptions := MkDyn {
  tokenUnit : TokenUnit;
  showRechargePrice : option bool;
  priceRate : option number;
  dyn_usdExchangeRate : option number;
  groupRatioMultiplier : option number
}.

Definition formatDynamicUnitPrice (valuePerMillionTokens : number) (options : DynamicPriceOptions) : jstr :=
  let one := num_of_Z 1 in
  let groupRatio := default one (groupRatioMultiplier options) in
  let priceRate := default one (priceRate options) in
  let usdExchangeRate := default one (dyn_usdExchangeRate options) in
  let priceUSD := ndiv (nmul valuePerMillionTokens groupRatio) (TOKEN_UNIT_DIVISORS (tokenUnit options)) in
  let displayPrice := applyRechargeRate priceUSD (default false (showRechargePrice options)) priceRate usdExchangeRate in
  formatBillingCurrencyFromUSD intl_currency intl_decimal store (Some displayPrice) (price_options 4 6).

Record DynamicPriceEntry := MkEntry {
  e_field : jstr;
  e_value : number;
  e_formatted : jstr;
  e_variable : BillingVar
}.

Definition PRIMARY_DYNAMIC_FIELDS : list jstr := [js "inputPrice"; js "outputPrice"].

Definition is_primary (e : DynamicPriceEntry) : bool := mem (e_field e) PRIMARY_DYNAMIC_FIELDS.

(** The comparator is at most zero: equal classes, or only [a] is primary. *)
Definition entry_le (a b : DynamicPriceEntry) : bool := Bool.eqb (is_primary a) (is_primary b) || is_primary a.

Definition price_entry (tier : ParsedTier) (options : DynamicPriceOptions) (variable : BillingVar) : option DynamicPriceEntry :=
  match v_field variable with
  | None | Some [] => None
  | Some field =>
      let value := match obj_get field (pt_fields tier) with Some x => x | None => nan end in
      if negb (is_finite value) || nleb value zero then None
      else Some (MkEntry field value (formatDynamicUnitPrice value options) variable)
  end.

Definition getDynamicPriceEntries (tier : option ParsedTier) (options : DynamicPriceOptions) : list DynamicPriceEntry :=
  match tier with
  | None => []
  | Some t => sort_by entry_le (omap (price_entry t options) BILLING_PRICING_VARS)
  end.

Definition isDynamicPricingModel (model : PricingModel) : bool :=
  js_eqb (billing_mode model) (Some (js "tiered_expr")) &&
  match billing_expr model with Some e => truthy e | None => false end.

Definition getDynamicDisplayGroupRatio (model : PricingModel) : number :=
  match model_groups model with
  | [] => num_of_Z 1
  | groups =>
      let minRatio := foldl (min_step (model_ratios model)) infinity groups in
      if neqb minRatio infinity then num_of_Z 1 else minRatio
  end.

Definition raw_expression (model : PricingModel) : jstr := opt_str_or (billing_expr model) [].

(** The rule parser may throw, and nothing here catches it. *)
Definition getDynamicPricingTiers (model : PricingModel) : outcome (list ParsedTier) :=
  if negb (isDynamicPricingModel model) then Ret []
  else let! sp := splitBillingExprAndRequestRules (raw_expression model) in
       Ret (parseTiersFromExpr (billingExpr sp)).

Definition hasDynamicRequestRules (model : PricingModel) : outcome bool :=
  if negb (isDynamicPricingModel model) then Ret false
  else let! sp := splitBillingExprAndRequestRules (raw_expression model) in
       let! gs := tryParseRequestRuleExpr (opt_str_or (Some (requestRuleExpr sp)) []) in
       Ret (match gs with Some (_ :: _) => true | _ => false end).

Record DynamicPricingSummary := MkSummary {
  s_tiers : list ParsedTier;
  s_tier : option ParsedTier;
  s_tierCount : nat;
  s_hasRequestRules : bool;
  s_isSpecialExpression : bool;
  s_rawExpression : jstr;
  s_entries : list DynamicPriceEntry;
  s_primaryEntries : list DynamicPriceEntry;
  s_secondaryEntries : list DynamicPriceEntry
}.

Definition getDynamicPricingSummary (model : PricingModel) (options : DynamicPriceOptions)
    : outcome (option DynamicPricingSummary) :=
  if negb (isDynamicPricingModel model) then Ret None
  else
    let! tiers := getDynamicPricingTiers model in
    let tier := head tiers in
    let entries := getDynamicPriceEntries tier options in
    let rawExpression := raw_expression model in
    let! rules := hasDynamicRequestRules model in
    Ret (Some (MkSummary tiers tier (length tiers) rules
      (truthy (trim rawExpression) && match tiers with [] => true | _ => false end)
      rawExpression entries
      (List.filter is_primary entries) (List.filter (fun e => negb (is_primary e)) entries))).
End display.

(** ** Filters: [filters.ts] *)

Section filters.
(** [String.prototype.toLowerCase] and whether [a.localeCompare(b) <= 0]. *)
Context (toLowerCase : jstr -> jstr) (localeLe : jstr -> jstr -> bool).

Definition FILTER_ALL : jstr := js "all".

(** [field?.toLowerCase().includes(q)]. *)
Definition field_includes (q : jstr) (field : option jstr) : bool :=
  match field with Some s => includes q (toLowerCase s) | None => false end.

Definition matches_search (query : jstr) (m : PricingModel) : bool :=
  let lowerQuery := toLowerCase query in
  field_includes lowerQuery (Some (model_name m)) || field_includes lowerQuery (description m)
  || field_includes lowerQuery (tags m) || field_includes lowerQuery (vendor_name m).

Definition filterBySearch (models : list PricingModel) (query : jstr) : list PricingModel :=
  if truthy query then List.filter (matches_search query) models else models.

Definition filterByVendor (models : list PricingModel) (vendor : jstr) : list PricingModel :=
  if vendor === FILTER_ALL then models
  else List.filter (fun m => js_eqb (vendor_name m) (Some vendor)) models.

Definition opt_includes (x : jstr) (l : option (list jstr)) : bool :=
  match l with Some l => mem x l | None => false end.

Definition filterByGroup (models : list PricingModel) (group : jstr) : list PricingModel :=
  if group === FILTER_ALL then models
  else List.filter (fun m => opt_includes group (enable_groups m)) models.

Definition filterByQuotaType (models : list PricingModel) (quotaType : jstr) : list PricingModel :=
  if quotaType === js "all" then models
  else
    let targetType := if quotaType === js "token" then QUOTA_TOKEN else QUOTA_REQUEST in
    List.filter (fun m => (quota_type m =? targetType)%Z) models.

Definition filterByEndpointType (models : list PricingModel) (endpointType : jstr) : list PricingModel :=
  if endpointType === js "all" then models
  else List.filter (fun m => opt_includes endpointType (supported_endpoint_types m)) models.

Definition getModelPrice (model : PricingModel) : number :=
  if (quota_type model =? 0)%Z then model_ratio model
  else match model_price model with Some p => num_or p zero | None => zero end.

(** A numeric comparator is at most zero; [NaN] counts as zero. *)
Definition diff_le (x y : number) : bool := negb (nltb zero (nsub x y)).

Definition sortModels (models : list PricingModel) (sortBy : jstr) : list PricingModel :=
  if sortBy === js "name" then sort_by (fun a b => localeLe (model_name a) (model_name b)) models
  else if sortBy === js "price-low" then sort_by (fun a b => diff_le (getModelPrice a) (getModelPrice b)) models
  else if sortBy === js "price-high" then sort_by (fun a b => diff_le (getModelPrice b) (getModelPrice a)) models
  else models.

Definition re_tag_sep : re := RPlus (RSet (fun c => (c =? 44) || (c =? 59) || (c =? 124) || is_ws c)%N).

Definition parseTags (tagsString : option jstr) : list jstr :=
  match tagsString with
  | None | Some [] => []
  | Some s => filter_truthy (List.map trim (re_split re_tag_sep s))
  end.

Definition has_tag (tag : jstr) (m : PricingModel) : bool :=
  match tags m with
  | None | Some [] => false
  | Some s => mem (toLowerCase tag) (List.map toLowerCase (parseTags (Some s)))
  end.

Definition filterByTag (models : list PricingModel) (tag : jstr) : list PricingModel :=
  if tag === FILTER_ALL then models else List.filter (has_tag tag) models.

Definition extractAllTags (models : list PricingModel) : list jstr :=
  sort_by localeLe (dedup (mjoin (List.map (fun m => List.map toLowerCase (parseTags (tags m))) models))).

Record Filters := MkFilters {
  fl_search : jstr;
  fl_vendor : jstr;
  fl_group : jstr;
  fl_quotaType : jstr;
  fl_endpointType : jstr;
  fl_tag : jstr;
  fl_sortBy : jstr
}.

Definition filterAndSortModels (models : list PricingModel) (filters : Filters) : list PricingModel :=
  let result := filterBySearch models (fl_search filters) in
  let result := filterByVendor result (fl_vendor filters) in
  let result := filterByGroup result (fl_group filters) in
  let result := filterByQuotaType result (fl_quotaType filters) in
  let result := filterByEndpointType result (fl_endpointType filters) in
  let result := filterByTag result (fl_tag filters) in
  sortModels result (fl_sortBy filters).
End filters.

(** ** Theorems *)

Lemma min_step_bound ratios groups acc g x :
  (g ∈ groups /\ obj_get g ratios = Some x) \/ nltb x acc = false ->
  nltb x (foldl (min_step ratios) acc groups) = false.
Proof.
  revert acc. induction groups as [|h groups IH]; intros acc H; simpl.
  { destruct H as [[H _]|H]; [set_solver|done]. }
  apply IH. unfold min_step. destruct H as [[[->|Hin]%elem_of_cons Hx]|H]; [|by left|].
  - right. rewrite Hx. destruct (nltb x acc) eqn:E; [apply nltb_irrefl|done].
  - right. destruct (obj_get h ratios) as [r|]; [|done]. destruct (nltb r acc) eqn:E; [|done].
    destruct (nltb x r) eqn:Ex; [|done]. by rewrite (nltb_trans x r acc) in H.
Qed.

Lemma min_step_origin ratios groups acc :
  foldl (min_step ratios) acc groups = acc \/
  exists g, g ∈ groups /\ obj_get g ratios = Some (foldl (min_step ratios) acc groups).
Proof.
  revert acc. induction groups as [|h groups IH]; intros acc; simpl; [by left|].
  destruct (IH (min_step ratios acc h)) as [E|(g & Hg & E)]; [|right; exists g; set_solver].
  rewrite E. unfold min_step. destruct (obj_get h ratios) as [r|] eqn:Er; [|by left].
  destruct (nltb r acc); [right; exists h; set_solver|by left].
Qed.

(** The ratio the catalogue shows a model's price with is the lowest one among
    the groups the model is enabled for: no enabled group with a ratio has a
    lower one, and it is the ratio of one of them, or one when there is none. *)
Lemma getMinGroupRatio_least groups ratios :
  let r := getMinGroupRatio groups ratios in
  (forall g x, g ∈ groups -> obj_get g ratios = Some x -> nltb x r = false) /\
  (r = num_of_Z 1 \/ exists g, g ∈ groups /\ obj_get g ratios = Some r).
Proof.
  unfold getMinGroupRatio. destruct groups as [|g0 gs]; [split; [set_solver|by left]|].
  set (groups := g0 :: gs). set (m := foldl (min_step ratios) infinity groups).
  assert (forall g x, g ∈ groups -> obj_get g ratios = Some x -> nltb x m = false) as Hb
    by (intros g x Hg Hx; apply (min_step_bound ratios groups infinity g); by left).
  destruct (neqb m infinity) eqn:E; cbv zeta; [|split; [done|]].
  - apply neqb_infinity in E. split; [|by left]. intros g x Hg Hx. specialize (Hb g x Hg Hx). rewrite E in Hb.
    destruct x as [[]|[]| |[] mx ex]; try discriminate; reflexivity.
  - right. destruct (min_step_origin ratios groups infinity) as [Em|(g & Hg & Eg)]; [|by exists g].
    fold m in Em. rewrite Em in E. done.
Qed.

(** What every filter asks of a model. *)
Definition passes (toLowerCase : jstr -> jstr) (f : Filters) (m : PricingModel) : bool :=
  (negb (truthy (fl_search f)) || matches_search toLowerCase (fl_search f) m) &&
  ((fl_vendor f === FILTER_ALL) || js_eqb (vendor_name m) (Some (fl_vendor f))) &&
  ((fl_group f === FILTER_ALL) || opt_includes (fl_group f) (enable_groups m)) &&
  ((fl_quotaType f === js "all") ||
   (quota_type m =? if fl_quotaType f === js "token" then QUOTA_TOKEN else QUOTA_REQUEST)%Z) &&
  ((fl_endpointType f === js "all") || opt_includes (fl_endpointType f) (supported_endpoint_types m)) &&
  ((fl_tag f === FILTER_ALL) || has_tag toLowerCase (fl_tag f) m).

Lemma sortModels_perm localeLe models sortBy : sortModels localeLe models sortBy ≡ₚ models.
Proof. unfold sortModels. repeat case_match; by rewrite ?sort_by_perm. Qed.

Lemma filter_if {A} (b : bool) (p : A -> bool) l :
  (if b then l else List.filter p l) = List.filter (fun x => b || p x) l.
Proof. destruct b; simpl; [|done]. symmetry. apply lfilter_id. by apply Forall_true. Qed.

Lemma filter_and {A} (p q : A -> bool) l :
  List.filter q (List.filter p l) = List.filter (fun x => p x && q x) l.
Proof. induction l as [|x l IH]; simpl; [done|]. destruct (p x); simpl; [|done]. by rewrite IH. Qed.

(** The catalogue page lists exactly the models that pass every active
    filter, each as often as it was given; sorting only reorders them. *)
Lemma filterAndSort_exact toLowerCase localeLe models f :
  filterAndSortModels toLowerCase localeLe models f ≡ₚ List.filter (passes toLowerCase f) models.
Proof.
  unfold filterAndSortModels. rewrite sortModels_perm.
  unfold filterByTag, filterByEndpointType, filterByQuotaType, filterByGroup, filterByVendor, filterBySearch.
  rewrite !filter_if.
  replace (if truthy (fl_search f) then _ else models)
    with (List.filter (fun m => negb (truthy (fl_search f)) || matches_search toLowerCase (fl_search f) m) models)
    by (rewrite <-filter_if; by destruct (truthy _)).
  rewrite !filter_and. erewrite filter_ext; [reflexivity|]. intros m. unfold passes. by rewrite !andb_assoc.
Qed.

(** Sorting by a two-valued key is a stable partition. *)
Lemma sort_partition {A} (p : A -> bool) (le : A -> A -> bool) l :
  (forall a b, le a b = Bool.eqb (p a) (p b) || p a) ->
  sort_by le l = List.filter p l ++ List.filter (fun x => negb (p x)) l.
Proof.
  intros Hle. induction l as [|x l IH]; [done|]. cbn [sort_by foldr]. fold (sort_by le l). rewrite IH.
  cbn [List.filter]. destruct (p x) eqn:Ex; cbn [negb].
  - destruct (List.filter p l ++ _) as [|y r] eqn:E; cbn [insert_sorted app]; [by rewrite E|].
    rewrite Hle, Ex, orb_true_r. by rewrite E.
  - assert (forall u v, Forall (fun y => p y = true) u -> Forall (fun y => p y = false) v ->
      insert_sorted le x (u ++ v) = u ++ x :: v) as Hins.
    { intros u v Hu Hv. induction Hu as [|y u Hy _ IHu]; cbn [app insert_sorted].
      - destruct Hv as [|z v Hz _]; [done|]. cbn [insert_sorted]. by rewrite Hle, Ex, Hz.
      - by rewrite Hle, Ex, Hy, IHu. }
    apply Hins; apply Forall_forall; intros y [_ Hy]%elem_of_lfilter; [done|by bools].
Qed.

(** The entries of a dynamic price are listed primary fields first, both
    parts in the order of the variable registry, and every entry shown has a
    finite, strictly positive price of the tier. *)
Lemma dynamic_entries_order ic id store t options :
  let all := omap (price_entry ic id store t options) BILLING_PRICING_VARS in
  let es := getDynamicPriceEntries ic id store (Some t) options in
  es = List.filter is_primary all ++ List.filter (fun e => negb (is_primary e)) all /\
  Forall (fun e => is_finite (e_value e) = true /\ nltb zero (e_value e) = true /\
                   obj_get (e_field e) (pt_fields t) = Some (e_value e)) es.
Proof.
  intros all es. assert (es = List.filter is_primary all ++ List.filter (fun e => negb (is_primary e)) all) as E
    by (by apply sort_partition).
  split; [done|]. rewrite E. apply Forall_app.
  assert (Forall (fun e => is_finite (e_value e) = true /\ nltb zero (e_value e) = true /\
                           obj_get (e_field e) (pt_fields t) = Some (e_value e)) all) as Hall.
  { apply Forall_forall. intros e (v & _ & Hv)%list_elem_of_omap. unfold price_entry in Hv.
    destruct (v_field v) as [[|c field]|]; [done| |done].
    destruct (obj_get (c :: field) (pt_fields t)) as [x|] eqn:Ex; [|done].
    destruct (negb (is_finite x) || nleb x zero) eqn:Ec; [done|]. simplify_eq/=. bools.
    split; [done|]. split; [|done]. by destruct x as [[]|[]| |[] m e]. }
  by split; apply Forall_forall; intros e [He _]%elem_of_lfilter; rewrite Forall_forall in Hall; apply Hall.
Qed.

(** Every tag offered in the filter list selects at least one model. *)
Lemma extracted_tag_selects toLowerCase localeLe models tag
    (lower_idem : forall s, toLowerCase (toLowerCase s) = toLowerCase s) :
  tag ∈ extractAllTags toLowerCase localeLe models ->
  exists m, m ∈ filterByTag toLowerCase models tag /\ m ∈ models.
Proof.
  unfold extractAllTags. rewrite sort_by_perm, elem_of_dedup.
  intros (ts & Htag & (m & <- & Hm)%list_elem_of_In%in_map_iff)%list_elem_of_join.
  apply list_elem_of_In in Hm. exists m. split; [|done].
  unfold filterByTag. case_match; [done|]. apply elem_of_lfilter. split; [done|]. unfold has_tag.
  destruct (tags m) as [[|c s]|]; [set_solver| |set_solver]. apply mem_true.
  apply list_elem_of_In, in_map_iff in Htag as (t & <- & Ht). rewrite lower_idem.
  apply list_elem_of_In, in_map_iff. eauto.
Qed.

Definition ascii_lower (s : jstr) : jstr :=
  List.map (fun c => if ((65 <=? c) && (c <=? 90))%N then (c + 32)%N else c) s.

Lemma ascii_lower_idem s : ascii_lower (ascii_lower s) = ascii_lower s.
Proof.
  unfold ascii_lower. rewrite map_map. apply map_ext. intros c.
  destruct ((65 <=? c) && (c <=? 90))%N eqn:E; [|by rewrite E]. bools.
  repeat match goal with H : (_ <=? _)%N = true |- _ => apply N.leb_le in H end.
  rewrite (proj2 (N.leb_gt (c + 32) 90)) by lia. by rewrite andb_false_r.
Qed.

Definition sample_model : PricingModel :=
  MkModel (js "gpt") None None 0 (num_of_Z 1) (num_of_Z 2) None None None None None None
    (Some [js "default"]) (Some (js "Chat, Vision")) None (Some [(js "default", num_of_Z 1)]) None None.

Lemma extracted_tag_selects_witness :
  exists m, m ∈ filterByTag ascii_lower [sample_model] (js "vision") /\ m ∈ [sample_model].
Proof.
  apply (extracted_tag_selects ascii_lower (fun _ _ => true)); [apply ascii_lower_idem|].
  apply (bool_decide_eq_true (_ ∈ _)). vm_compute. reflexivity.
Defined.
