(* ===== verification/StatusCodes.v ===== *)
(** * Status code rules: [lib/http-status-code-rules.ts] and
      [features/channels/lib/status-code-risk-guard.ts]

    Lists of codes and ranges such as [401,403,500-599], their merged normal
    form, and the check that a status code mapping does not hide a gateway
    time-out. *)
From S2P Require Import Prelude Regex Numbers Json.

(** ** Rules *)

Record StatusCodeRange := MkRange { start : Z; end_ : Z }.

#[export] Instance StatusCodeRange_eq_dec : EqDecision StatusCodeRange.
Proof. solve_decision. Defined.

Record ParsedHttpStatusCodeRules := MkRules {
  ok : bool;
  ranges : list StatusCodeRange;
  tokens : list jstr;
  normalized : jstr;
  invalidTokens : list jstr
}.

(** [/^\d+$/.test(s)]. *)
Definition isNumber (s : jstr) : bool := truthy s && forallb is_digit s.

Definition isValidCode (code : Z) : bool := ((100 <=? code) && (code <=? 599))%Z.

(** [Number.parseInt(s, 10)] of a digit string. *)
Definition parseInt_digits (s : jstr) : Z := Z.of_N (digits_val s).

Definition parseToken (token : jstr) : option StatusCodeRange :=
  let cleaned := List.filter (fun c => negb (is_ws c)) (trim token) in
  if negb (truthy cleaned) then None
  else if includes (js "-") cleaned then
    match split_char 45 cleaned with
    | a :: b :: _ =>
        if negb (isNumber a) || negb (isNumber b) then None
        else
          let start := parseInt_digits a in
          let end_ := parseInt_digits b in
          if negb (isValidCode start) || negb (isValidCode end_) || (end_ <? start)%Z then None
          else Some (MkRange start end_)
    | _ => None
    end
  else if negb (isNumber cleaned) then None
  else
    let code := parseInt_digits cleaned in
    if negb (isValidCode code) then None else Some (MkRange code code).

(** The comparator is at most zero. *)
Definition range_le (a b : StatusCodeRange) : bool :=
  if (start a =? start b)%Z then (end_ a <=? end_ b)%Z else (start a <=? start b)%Z.

(** One step of the [reduce]; [merged] is kept in reverse, its head is the last
    range. *)
Definition merge_step (merged : list StatusCodeRange) (current : StatusCodeRange) : list StatusCodeRange :=
  match merged with
  | last :: rest =>
      if (end_ last + 1 <? start current)%Z then current :: merged
      else MkRange (start last) (Z.max (end_ last) (end_ current)) :: rest
  | [] => [current]
  end.

Definition mergeRanges (rs : list StatusCodeRange) : list StatusCodeRange :=
  rev (foldl merge_step [] (sort_by range_le rs)).

Definition range_token (r : StatusCodeRange) : jstr :=
  if (start r =? end_ r)%Z then Z_to_str (start r) else Z_to_str (start r) ++ js "-" ++ Z_to_str (end_ r).

(** The trimmed nonempty segments, full-width commas counting as commas. *)
Definition rule_segments (raw : jstr) : list jstr :=
  filter_truthy (List.map trim (split_char 44 (List.map (fun c => if (c =? 65292)%N then 44%N else c) raw))).

(** [input] is [None] for null and undefined. *)
Definition parseHttpStatusCodeRules (input : option jstr) : ParsedHttpStatusCodeRules :=
  let raw := trim (default [] input) in
  if negb (truthy raw) then MkRules true [] [] [] []
  else
    let segments := rule_segments raw in
    let invalid := List.filter (fun s => match parseToken s with Some _ => false | None => true end) segments in
    match invalid with
    | _ :: _ => MkRules false [] [] raw invalid
    | [] =>
        let merged := mergeRanges (omap parseToken segments) in
        let ts := List.map range_token merged in
        MkRules true merged ts (join (js ",") ts) []
    end.

(** ** Mappings *)

Definition NON_REDIRECTABLE_STATUS_CODES : list Z := [504; 524]%Z.

(** [/^[1-5]\d{2}$/] *)
Definition re_code : re :=
  RSeqs [RStart; RSet (fun c => (49 <=? c) && (c <=? 53))%N; RSet is_digit; RSet is_digit; REnd].

Definition parseStatusCodeKey (rawKey : jstr) : option Z :=
  let normalized := trim rawKey in
  if re_test re_code normalized then Some (parseInt_digits normalized) else None.

Definition parseStatusCodeMappingTarget (rawValue : json) : option Z :=
  match rawValue with
  | JNum x =>
      match int_of_num x with
      | Some z => if isValidCode z then Some z else None
      | None => None
      end
  | JStr s =>
      let normalized := trim s in
      if re_test re_code normalized then
        let code := parseInt_digits normalized in if isValidCode code then Some code else None
      else None
  | _ => None
  end.

(** The entries of a mapping string, or none when it is not an object. *)
Definition mapping_entries (s : jstr) : list (jstr * json) :=
  if truthy (trim s) then
    match JSON_parse s with
    | Ret (JObj o) => o
    | _ => []
    end
  else [].

Definition collectInvalidStatusCodeEntries (statusCodeMappingStr : jstr) : list jstr :=
  omap (fun p =>
    match parseStatusCodeKey p.1, parseStatusCodeMappingTarget p.2 with
    | Some _, Some _ => None
    | _, _ => Some (p.1 ++ [32; 8594; 32]%N ++ json_String p.2)
    end) (mapping_entries statusCodeMappingStr).

Definition risky_entry (p : jstr * json) : option jstr :=
  match parseStatusCodeKey p.1, parseStatusCodeMappingTarget p.2 with
  | Some fromCode, Some toCode =>
      if negb (mem fromCode NON_REDIRECTABLE_STATUS_CODES) then None
      else if (fromCode =? toCode)%Z then None
      else Some (Z_to_str fromCode ++ js " -> " ++ Z_to_str toCode)
  | _, _ => None
  end.

Definition collectDisallowedStatusCodeRedirects (statusCodeMappingStr : jstr) : list jstr :=
  sort_by str_leb (dedup (omap risky_entry (mapping_entries statusCodeMappingStr))).

Definition collectNewDisallowedStatusCodeRedirects (originalStr currentStr : jstr) : list jstr :=
  let currentRisky := collectDisallowedStatusCodeRedirects currentStr in
  match currentRisky with
  | [] => []
  | _ =>
      let originalRiskySet := collectDisallowedStatusCodeRedirects originalStr in
      List.filter (fun m => negb (mem m originalRiskySet)) currentRisky
  end.

(** ** Merging *)

Definition covers (rs : list StatusCodeRange) (c : Z) : Prop :=
  exists r, r ∈ rs /\ (start r <= c <= end_ r)%Z.

Definition valid_range (r : StatusCodeRange) : Prop := (100 <= start r <= end_ r /\ end_ r <= 599)%Z.

(** Ascending, with a gap between neighbours. *)
Definition separated : list StatusCodeRange -> Prop :=
  StronglySorted (fun a b => (end_ a + 1 < start b)%Z).

Lemma covers_cons r rs c : covers (r :: rs) c <-> (start r <= c <= end_ r)%Z \/ covers rs c.
Proof. unfold covers. set_solver. Qed.

Lemma covers_app rs rs' c : covers (rs ++ rs') c <-> covers rs c \/ covers rs' c.
Proof. unfold covers. set_solver. Qed.

Lemma covers_perm rs rs' c : rs ≡ₚ rs' -> covers rs c <-> covers rs' c.
Proof. intros H. unfold covers. by setoid_rewrite H. Qed.

(** The reduction over ranges sorted by start: [merged] (reversed) stays
    separated, covers what it has seen, and starts no later than what follows. *)
Lemma merge_loop rs merged :
  Forall valid_range merged -> Forall valid_range rs ->
  StronglySorted (fun a b => (start a <= start b)%Z) rs ->
  StronglySorted (fun a b => (end_ b + 1 < start a)%Z) merged ->
  (forall r l, r ∈ rs -> l ∈ merged -> (start l <= start r)%Z) ->
  let out := foldl merge_step merged rs in
  Forall valid_range out /\ StronglySorted (fun a b => (end_ b + 1 < start a)%Z) out /\
  forall c, covers out c <-> covers merged c \/ covers rs c.
Proof.
  revert merged. induction rs as [|r rs IH]; intros merged Hm Hr Hs Hsep Hle; cbn [foldl].
  { split; [done|]. split; [done|]. intros c. unfold covers at 3. set_solver. }
  apply Forall_cons in Hr as [Hr Hrs].
  inversion Hs as [|? ? Hs' Hmin]; subst. rewrite Forall_forall in Hmin.
  assert (exists m', merge_step merged r = m' /\ Forall valid_range m' /\
    StronglySorted (fun a b => (end_ b + 1 < start a)%Z) m' /\
    (forall q l, q ∈ rs -> l ∈ m' -> (start l <= start q)%Z) /\
    (forall c, covers m' c <-> covers merged c \/ (start r <= c <= end_ r)%Z)) as (m' & -> & H1 & H2 & H3 & H4).
  { eexists. split; [reflexivity|]. unfold merge_step. destruct merged as [|last rest].
    - split; [by apply Forall_singleton|]. split; [repeat constructor|]. split; [set_solver|].
      intros c. rewrite covers_cons. unfold covers. set_solver.
    - apply Forall_cons in Hm as [Hl Hm]. inversion Hsep as [|? ? Hsep' Hgap]; subst.
      assert (start last <= start r)%Z by (apply Hle; left). unfold valid_range in *.
      case_match eqn:E; bools.
      + split; [by constructor; [|constructor]|]. split; [|split; [|intros c; rewrite !covers_cons; tauto]].
        * constructor; [by constructor|]. constructor; [done|]. eapply Forall_impl; [exact Hgap|].
          simpl; intros; lia.
        * intros q l Hq [->|Hin]%elem_of_cons; [by apply Hmin|apply Hle; [by right|done]].
      + split; [constructor; [simpl; lia|done]|]. split; [by constructor|]. split.
        * intros q l Hq [->|Hin]%elem_of_cons; cbn [start].
          { specialize (Hmin q Hq). lia. }
          apply Hle; [by right|by right].
        * intros c. rewrite !covers_cons. cbn [start end_]. split; [intros [?|?]|intros [[?|?]|?]]; try tauto; lia. }
  destruct (IH m' H1 Hrs) as (G1 & G2 & G3); [done..|]. split; [done|]. split; [done|].
  intros c. rewrite G3, H4, covers_cons. tauto.
Qed.

Lemma range_le_total a b : range_le a b = true \/ range_le b a = true.
Proof. unfold range_le. destruct (Z.eqb_spec (start a) (start b)), (Z.eqb_spec (start b) (start a)); rewrite !Z.leb_le; lia. Qed.

Lemma range_le_trans a b c : range_le a b = true -> range_le b c = true -> range_le a c = true.
Proof.
  unfold range_le. destruct (Z.eqb_spec (start a) (start b)), (Z.eqb_spec (start b) (start c)),
    (Z.eqb_spec (start a) (start c)); rewrite !Z.leb_le; lia.
Qed.

Lemma mergeRanges_spec rs :
  Forall valid_range rs ->
  Forall valid_range (mergeRanges rs) /\ separated (mergeRanges rs) /\
  forall c, covers (mergeRanges rs) c <-> covers rs c.
Proof.
  intros Hv. destruct (merge_loop (sort_by range_le rs) []) as (H1 & H2 & H3).
  - constructor.
  - by rewrite sort_by_perm.
  - pose proof (sort_by_sorted range_le range_le_total range_le_trans rs) as Hs. revert Hs.
    apply sorted_impl. intros a b. unfold range_le. case_match; bools; lia.
  - constructor.
  - set_solver.
  - unfold mergeRanges. split; [by apply Forall_rev|]. split; [by apply sorted_rev|].
    intros c. rewrite (covers_perm (rev _) (foldl merge_step [] (sort_by range_le rs))) by (symmetry; apply Permutation_rev).
    rewrite H3, (covers_perm (sort_by range_le rs) rs) by apply sort_by_perm. unfold covers. set_solver.
Qed.

Lemma parseToken_valid s r : parseToken s = Some r -> valid_range r.
Proof.
  unfold parseToken, isValidCode, valid_range. intros H.
  repeat (case_match; try done); simplify_eq/=; bools; lia.
Qed.

Lemma token_ranges_valid segments : Forall valid_range (omap parseToken segments).
Proof. apply Forall_forall. intros r (s & _ & Hs)%list_elem_of_omap. by eapply parseToken_valid. Qed.

(** The segments of an input are the texts between its commas. *)
Definition input_segments (input : option jstr) : list jstr := rule_segments (trim (default [] input)).

(** C37: when the rules are accepted, the ranges are within 100 to 599, ascending
    and separated by gaps, and they cover exactly the codes the segments name:
    merging neither loses nor adds a status code. *)
Theorem accepted_rules input :
  let r := parseHttpStatusCodeRules input in
  ok r = true ->
  Forall valid_range (ranges r) /\ separated (ranges r) /\
  forall c, covers (ranges r) c <-> exists s q, s ∈ input_segments input /\ parseToken s = Some q /\ (start q <= c <= end_ q)%Z.
Proof.
  intros r Hok. subst r. revert Hok. unfold parseHttpStatusCodeRules, input_segments.
  destruct (truthy (trim (default [] input))) eqn:Et; cbn [negb].
  2:{ intros _. apply truthy_false in Et. rewrite Et. cbn [ranges]. split; [constructor|]. split; [constructor|].
      intros c. unfold covers. split; [set_solver|]. intros (s & q & Hs & _). vm_compute in Hs. set_solver. }
  case_match; [|done]. intros _. cbn [ranges].
  destruct (mergeRanges_spec (omap parseToken (rule_segments (trim (default [] input))))) as (H1 & H2 & H3);
    [apply token_ranges_valid|].
  split; [done|]. split; [done|]. intros c. rewrite H3. unfold covers.
  setoid_rewrite list_elem_of_omap. naive_solver.
Qed.

Lemma accepted_rules_witness :
  let r := parseHttpStatusCodeRules (Some (js "500-510, 401,505-520,402")) in
  ranges r = [MkRange 401 402; MkRange 500 520] /\ separated (ranges r).
Proof.
  split; [vm_compute; reflexivity|].
  apply (accepted_rules (Some (js "500-510, 401,505-520,402"))). vm_compute. reflexivity.
Defined.

(** ** The normal form *)

(** What the three digits of a code look like, checked for all of them. *)
Definition code_text_ok (z : Z) : bool :=
  let s := Z_to_str z in
  isNumber s && (parseInt_digits s =? z)%Z &&
  forallb (fun c => negb (c =? 45) && negb (c =? 44) && negb (is_ws c) && negb (c =? 65292))%N s.

Lemma code_texts : forallb code_text_ok (seqZ 100 500) = true.
Proof. vm_compute. reflexivity. Qed.

Lemma code_text z : (100 <= z <= 599)%Z -> code_text_ok z = true.
Proof.
  intros H. pose proof code_texts as Hall. rewrite forallb_forall in Hall. apply Hall.
  apply list_elem_of_In, elem_of_seqZ. lia.
Qed.

(** Text that trimming, splitting at commas and removing spaces leave alone. *)
Definition bare (s : jstr) : Prop :=
  s <> [] /\ Forall (fun c => is_ws c = false /\ c <> 44%N /\ c <> 65292%N) s.

Lemma bare_trim s : bare s -> trim s = s.
Proof.
  intros [_ H]. apply trimmed_no_ws. apply forallb_forall. intros c Hc%list_elem_of_In.
  rewrite Forall_forall in H. destruct (H c Hc) as (-> & _). done.
Qed.

Lemma bare_no_ws s : bare s -> List.filter (fun c => negb (is_ws c)) s = s.
Proof.
  intros [_ H]. apply lfilter_id. eapply Forall_impl; [exact H|]. simpl. intros c (-> & _). done.
Qed.

Lemma code_bare z :
  (100 <= z <= 599)%Z ->
  bare (Z_to_str z) /\ 45%N ∉ Z_to_str z /\ isNumber (Z_to_str z) = true /\ parseInt_digits (Z_to_str z) = z.
Proof.
  intros H%code_text. unfold code_text_ok in H. bools.
  match goal with E : forallb _ _ = true |- _ => rewrite forallb_forall in E; rename E into Hall end.
  split; [split|].
  - apply truthy_true. unfold isNumber in *. by bools.
  - apply Forall_forall. intros c Hc%list_elem_of_In. specialize (Hall c Hc). by bools.
  - split; [|done]. intros Hc%list_elem_of_In%Hall. done.
Qed.

Lemma token_bare r : valid_range r -> bare (range_token r).
Proof.
  intros (H1 & H2). unfold range_token. destruct (code_bare (start r)) as (Hs & _); [lia|].
  destruct (code_bare (end_ r)) as (He & _); [lia|]. case_match; [done|].
  destruct Hs as [Hne Hs], He as [_ He]. split; [by destruct (Z_to_str (start r))|].
  apply Forall_app. split; [done|]. by constructor.
Qed.

Lemma parseToken_range_token r : valid_range r -> parseToken (range_token r) = Some r.
Proof.
  intros Hv. pose proof (token_bare r Hv) as Hb. unfold parseToken. rewrite bare_trim, bare_no_ws by done.
  rewrite (proj2 (truthy_true _) (proj1 Hb)). cbn [negb]. destruct Hv as (H1 & H2). clear Hb.
  destruct (code_bare (start r)) as (_ & Hds & Hns & Hvs); [lia|].
  destruct (code_bare (end_ r)) as (_ & Hde & Hne & Hve); [lia|].
  assert (forall z, (100 <= z <= 599)%Z -> isValidCode z = true) as Hval
    by (intros z Hz; unfold isValidCode; rewrite !(proj2 (Z.leb_le _ _)) by lia; done).
  unfold range_token. destruct (Z.eqb_spec (start r) (end_ r)) as [E|E].
  - assert (includes (js "-") (Z_to_str (start r)) = false) as ->.
    { unfold includes. rewrite index_of_None_intro; [done|]. intros m. apply not_true_is_false.
      intros [t Ht]%starts_with_spec. apply Hds. rewrite <-(take_drop m (Z_to_str (start r))), Ht. set_solver. }
    rewrite Hns, Hvs, Hval by lia. cbn [negb]. rewrite E at 2. by destruct r.
  - assert (includes (js "-") (Z_to_str (start r) ++ js "-" ++ Z_to_str (end_ r)) = true) as ->.
    { unfold includes. destruct (index_of _ _) eqn:Ei; [done|].
      pose proof (index_of_None _ _ Ei (length (Z_to_str (start r)))) as Hs.
      rewrite drop_app_length in Hs. by rewrite starts_with_app in Hs. }
    change (js "-" ++ ?t) with (45%N :: t). rewrite split_char_app, split_char_none by done.
    rewrite Hns, Hne, Hvs, Hve, !Hval by lia. cbn [negb orb].
    rewrite (proj2 (Z.ltb_ge _ _)) by lia. by destruct r.
Qed.

Lemma segments_of_tokens ts :
  ts <> [] -> Forall bare ts -> rule_segments (join (js ",") ts) = ts.
Proof.
  intros Hne H. unfold rule_segments.
  assert (List.map (fun c => if (c =? 65292)%N then 44%N else c) (join (js ",") ts) = join (js ",") ts) as ->.
  { rewrite <-(map_id (join _ ts)) at 2. apply map_ext_in. intros c Hc%list_elem_of_In.
    destruct (N.eqb_spec c 65292); [|done]. exfalso. subst c. clear Hne.
    induction H as [|t ts Ht H IH]; [set_solver|]. destruct ts as [|t' ts].
    - destruct Ht as [_ Ht]. rewrite Forall_forall in Ht. by apply Ht in Hc as (_ & _ & ?).
    - rewrite join_cons in Hc by done. apply elem_of_app in Hc as [Hc|Hc].
      + destruct Ht as [_ Ht]. rewrite Forall_forall in Ht. by apply Ht in Hc as (_ & _ & ?).
      + apply elem_of_app in Hc as [Hc|Hc]; [|by apply IH]. vm_compute in Hc. set_solver. }
  change (js ",") with [44%N]. rewrite split_join_char; [|done|].
  - assert (List.map trim ts = ts) as ->.
    { clear Hne. induction H as [|t ts Ht _ IH]; [done|]. cbn [List.map]. by rewrite IH, bare_trim. }
    apply lfilter_id. eapply Forall_impl; [exact H|]. intros t [Ht _]. by apply truthy_true.
  - eapply Forall_impl; [exact H|]. intros t [_ Ht] Hin. rewrite Forall_forall in Ht. by apply Ht in Hin as (_ & ? & _).
Qed.

Lemma merge_separated rs acc :
  Forall valid_range rs -> separated rs ->
  (forall a b, a ∈ acc -> b ∈ rs -> (end_ a + 1 < start b)%Z) ->
  foldl merge_step acc rs = rev rs ++ acc.
Proof.
  intros Hv Hs. revert acc. induction Hs as [|r rs Hs IH Hr]; intros acc Ha; [done|].
  apply Forall_cons in Hv as [Hv Hvs]. cbn [foldl rev]. rewrite <-app_assoc. cbn [app].
  assert (merge_step acc r = r :: acc) as ->.
  { destruct acc as [|a acc]; [done|]. cbn [merge_step]. rewrite (proj2 (Z.ltb_lt _ _)); [done|].
    apply Ha; left. }
  apply IH; [done|]. intros a b [->|Hin]%elem_of_cons Hb; [|apply Ha; [done|by right]].
  rewrite Forall_forall in Hr. by apply Hr.
Qed.

Lemma mergeRanges_id rs : Forall valid_range rs -> separated rs -> mergeRanges rs = rs.
Proof.
  intros Hv Hs. unfold mergeRanges. rewrite sort_by_id.
  - rewrite merge_separated by (done || set_solver). by rewrite app_nil_r, rev_involutive.
  - induction Hs as [|r rs Hs IH Hr]; constructor; apply Forall_cons in Hv as [Hv Hvs]; [by apply IH|].
    apply Forall_forall. intros q Hq. rewrite Forall_forall in Hr. specialize (Hr q Hq).
    unfold range_le, valid_range in *. rewrite (proj2 (Z.eqb_neq _ _)) by lia. apply Z.leb_le. lia.
Qed.

(** Reading back the tokens of separated ranges. *)
Lemma parse_tokens rs :
  Forall valid_range rs -> separated rs ->
  parseHttpStatusCodeRules (Some (join (js ",") (List.map range_token rs))) =
  MkRules true rs (List.map range_token rs) (join (js ",") (List.map range_token rs)) [].
Proof.
  intros Hv Hs. destruct rs as [|r rs]; [done|]. set (ts := List.map range_token (r :: rs)).
  assert (Forall bare ts) as Hb.
  { unfold ts. clear Hs. induction Hv as [|q qs Hq _ IH]; cbn [List.map]; constructor; [by apply token_bare|done]. }
  assert (ts <> []) as Hne by done.
  assert (join (js ",") ts <> [] /\ Forall (fun c => is_ws c = false) (join (js ",") ts)) as [Hj Hw].
  { clear -Hb Hne. induction Hb as [|t ts [Ht Htw] Hb IH]; [done|]. 
    assert (Forall (fun c => is_ws c = false) t) as Hw by (eapply Forall_impl; [exact Htw|]; naive_solver).
    destruct ts as [|t' ts]; [done|]. rewrite join_cons by done. destruct IH as [_ IH]; [done|].
    split; [by destruct t|]. apply Forall_app. split; [done|]. by constructor. }
  assert (trim (join (js ",") ts) = join (js ",") ts) as Ht.
  { apply trimmed_no_ws. apply forallb_forall. intros c Hc%list_elem_of_In. rewrite Forall_forall in Hw.
    by rewrite Hw. }
  unfold parseHttpStatusCodeRules. cbn [from_option id]. rewrite Ht, (proj2 (truthy_true _) Hj). cbn [negb].
  rewrite segments_of_tokens by done.
  assert (omap parseToken ts = r :: rs /\
    List.filter (fun s => match parseToken s with Some _ => false | None => true end) ts = []) as [-> ->].
  { unfold ts. clear -Hv. induction Hv as [|q qs Hq _ [IH1 IH2]]; [done|].
    cbn [List.map omap list_omap List.filter]. rewrite parseToken_range_token by done. split; [by f_equal|done]. }
  by rewrite mergeRanges_id.
Qed.

(** The normalized text of accepted rules parses to the same ranges, tokens
    and text: normalizing is idempotent and loses nothing. *)
Lemma normalized_rules_roundtrip input :
  ok (parseHttpStatusCodeRules input) = true ->
  parseHttpStatusCodeRules (Some (normalized (parseHttpStatusCodeRules input))) = parseHttpStatusCodeRules input.
Proof.
  unfold parseHttpStatusCodeRules at 1 3 4.
  destruct (truthy (trim (default [] input))); cbn [negb]; [|done]. case_match; [|done]. intros _. cbn [normalized].
  destruct (mergeRanges_spec (omap parseToken (rule_segments (trim (default [] input))))) as (H1 & H2 & _);
    [apply token_ranges_valid|]. by apply parse_tokens.
Qed.

Lemma normalized_rules_roundtrip_witness :
  parseHttpStatusCodeRules (Some (js "401-402,500-520")) =
  parseHttpStatusCodeRules (Some (js "500-510, 401,505-520,402")).
Proof. apply (normalized_rules_roundtrip (Some (js "500-510, 401,505-520,402"))). vm_compute. reflexivity. Defined.

(** Rules are refused exactly when some segment is no code and no range; the
    refused segments are reported, in order, and no range takes effect. *)
Lemma refused_rules input :
  let r := parseHttpStatusCodeRules input in
  (ok r = false <-> exists s, s ∈ input_segments input /\ parseToken s = None) /\
  (ok r = false -> ranges r = [] /\
     invalidTokens r = List.filter (fun s => match parseToken s with Some _ => false | None => true end)
                         (input_segments input)).
Proof.
  intros r. unfold r, parseHttpStatusCodeRules, input_segments.
  destruct (truthy (trim (default [] input))) eqn:Et; cbn [negb].
  2:{ apply truthy_false in Et. rewrite Et. cbn [ok]. split; [|done]. split; [done|].
      intros (s & Hs & _). vm_compute in Hs. set_solver. }
  destruct (List.filter _ _) as [|x l] eqn:E; cbn [ok ranges invalidTokens].
  - split; [|done]. split; [done|]. intros (s & Hs & Hn). exfalso. apply (not_elem_of_nil s). rewrite <-E.
    apply elem_of_lfilter. split; [done|]. by rewrite Hn.
  - split; [|done]. split; [|done]. intros _. exists x.
    assert (x ∈ x :: l) as Hx by left. rewrite <-E in Hx. apply elem_of_lfilter in Hx as [Hin Hx].
    split; [done|]. by destruct (parseToken x).
Qed.

(** A range with more than two ends is accepted; what follows the second end is
    ignored. *)
Lemma extra_ends_ignored :
  ranges (parseHttpStatusCodeRules (Some (js "400-404-nonsense"))) = [MkRange 400 404].
Proof. vm_compute. reflexivity. Qed.

(** ** The risk guard *)

Lemma risky_spec s m :
  m ∈ collectDisallowedStatusCodeRedirects s <-> exists p, p ∈ mapping_entries s /\ risky_entry p = Some m.
Proof.
  unfold collectDisallowedStatusCodeRedirects. rewrite sort_by_perm, elem_of_dedup, list_elem_of_omap. done.
Qed.

(** The warning lists exactly the redirects of a gateway time-out (504 or 524)
    to another code that the current mapping has and the original one had not,
    each once. *)
Lemma new_risky_exact originalStr currentStr m :
  let out := collectNewDisallowedStatusCodeRedirects originalStr currentStr in
  NoDup out /\
  (m ∈ out <-> (exists p, p ∈ mapping_entries currentStr /\ risky_entry p = Some m) /\
               ~ exists p, p ∈ mapping_entries originalStr /\ risky_entry p = Some m).
Proof.
  intros out. rewrite <-!risky_spec. unfold out, collectNewDisallowedStatusCodeRedirects.
  assert (NoDup (collectDisallowedStatusCodeRedirects currentStr)) as Hnd.
  { unfold collectDisallowedStatusCodeRedirects. rewrite sort_by_perm. apply NoDup_dedup. }
  destruct (collectDisallowedStatusCodeRedirects currentStr) as [|x l] eqn:E; [split; [constructor|set_solver]|].
  rewrite <-E in *. split.
  - eapply sublist_NoDup; [exact Hnd|]. apply lfilter_sublist.
  - rewrite elem_of_lfilter, negb_true_iff, mem_false. done.
Qed.

Lemma risky_entry_spec p m :
  risky_entry p = Some m ->
  exists from to, parseStatusCodeKey p.1 = Some from /\ parseStatusCodeMappingTarget p.2 = Some to /\
    from ∈ [504; 524]%Z /\ from <> to /\ (100 <= to <= 599)%Z /\ m = Z_to_str from ++ js " -> " ++ Z_to_str to.
Proof.
  unfold risky_entry. destruct (parseStatusCodeKey p.1) as [from|]; [|done].
  destruct (parseStatusCodeMappingTarget p.2) as [to|] eqn:Et; [|done].
  destruct (mem from _) eqn:Em; cbn [negb]; [|done]. destruct (Z.eqb_spec from to); [done|]. intros [= <-].
  exists from, to. split; [done|]. split; [done|]. split; [by apply mem_true|]. split; [done|]. split; [|done].
  unfold parseStatusCodeMappingTarget, isValidCode in Et.
  repeat (case_match; try done); simplify_eq/=; bools; lia.
Qed.
