(* ===== verification/ModelMapping.v ===== *)
(** * Model lists and model mappings:
      [features/channels/lib/model-mapping-validation.ts]

    A channel's models are a comma-separated list; its mapping is a JSON object
    from the name a client asks for to the name sent upstream. *)
From S2P Require Import Prelude Numbers Json.

(** The trimmed nonempty pieces between commas. *)
Definition comma_list (s : jstr) : list jstr := filter_truthy (List.map trim (split_char 44 s)).

Definition parseModelsString (modelsStr : jstr) : list jstr :=
  if truthy modelsStr then comma_list modelsStr else [].

Definition formatModelsArray (models : list jstr) : jstr := join (js ",") (dedup models).

Definition normalizeModelName (model : jstr) : jstr := trim model.

(** [JSON.parse(s)] when it gives an object that is neither null nor an array. *)
Definition parse_mapping (s : jstr) : option (list (jstr * json)) :=
  match JSON_parse s with Ret (JObj o) => Some o | _ => None end.

Definition extractMappingSourceModels (modelMapping : jstr) : list jstr :=
  let trimmed := trim modelMapping in
  if negb (truthy trimmed) then []
  else match parse_mapping trimmed with
       | None => []
       | Some o => dedup (filter_truthy (List.map trim o.*1))
       end.

Definition extractRedirectModels (modelMapping : jstr) : list jstr :=
  let trimmed := trim modelMapping in
  if negb (truthy trimmed) then []
  else match parse_mapping trimmed with
       | None => []
       | Some o =>
           dedup (omap (fun v => match v with
                                 | JStr s => let w := trim s in if truthy w then Some w else None
                                 | _ => None
                                 end) o.*2)
       end.

(** The loop that compares the two lists position by position. *)
Fixpoint lists_differ (a b : list jstr) : bool :=
  match a, b with
  | x :: a', y :: b' => (x !== y) || lists_differ a' b'
  | _, _ => false
  end.

Definition hasModelConfigChanged (currentModels : list jstr) (currentModelMapping : jstr)
    (initialModels : list jstr) (initialModelMapping : jstr) : bool :=
  if match initialModels with [] => true | _ => false end && negb (truthy initialModelMapping) then true
  else if negb (length currentModels =? length initialModels) then true
  else if lists_differ currentModels initialModels then true
  else trim currentModelMapping !== trim initialModelMapping.

Definition findMissingModelsInMapping (modelMapping : jstr) (currentModels : list jstr) : list jstr :=
  if negb (truthy modelMapping) || (trim modelMapping === []) then []
  else match parse_mapping modelMapping with
       | None => []
       | Some o =>
           let modelSet := List.map normalizeModelName currentModels in
           dedup (List.filter (fun key => truthy key && negb (mem key modelSet)) (List.map normalizeModelName o.*1))
       end.

Definition validateModelMappingJson (modelMapping : jstr) : bool * option jstr :=
  if negb (truthy modelMapping) || (trim modelMapping === []) then (true, None)
  else match JSON_parse modelMapping with
       | Ret (JObj _) => (true, None)
       | Ret _ => (false, Some (js "Model mapping must be a valid JSON object"))
       | Throw => (false, Some (js "Model mapping must be valid JSON format"))
       end.

Definition findExposedTargetModels (modelMapping : jstr) (currentModels : list jstr) : list jstr :=
  match extractRedirectModels modelMapping with
  | [] => []
  | redirectModels =>
      let modelSet := List.map normalizeModelName currentModels in
      List.filter (fun model => mem (normalizeModelName model) modelSet) redirectModels
  end.

Record ModelSets := MkSets {
  normalizedCurrentModels : list jstr;
  normalizedRedirectModels : list jstr;
  classificationSet : list jstr;
  redirectOnlySet : list jstr
}.

Definition categorizeModelsWithRedirect (currentModels redirectModels : list jstr) : ModelSets :=
  let current := dedup (filter_truthy (List.map normalizeModelName currentModels)) in
  let redirect := dedup (filter_truthy (List.map normalizeModelName redirectModels)) in
  MkSets current redirect (dedup (current ++ redirect))
         (dedup (List.filter (fun m => negb (mem m current)) redirect)).

(** ** Theorems *)

(** A model name as the lists keep it: nonempty, trimmed, no comma. *)
Definition clean_name (m : jstr) : Prop := m <> [] /\ trim m = m /\ 44%N ∉ m.

Lemma comma_list_join ms :
  ms <> [] -> Forall clean_name ms -> comma_list (join (js ",") ms) = ms.
Proof.
  intros Hne H. unfold comma_list. change (js ",") with [44%N].
  rewrite split_join_char by first [done | eapply Forall_impl; [exact H|]; by intros m (_ & _ & ?)].
  assert (List.map trim ms = ms) as ->.
  { clear Hne. induction H as [|m ms (_ & Ht & _) _ IH]; [done|]. cbn [List.map]. by rewrite Ht, IH. }
  apply lfilter_id. eapply Forall_impl; [exact H|]. intros m (Hm & _). by apply truthy_true.
Qed.

Lemma comma_list_clean s : Forall clean_name (comma_list s).
Proof.
  apply Forall_forall. intros m [Hm Ht]%elem_of_lfilter. apply list_elem_of_In, in_map_iff in Hm as (w & <- & Hw).
  split; [by apply truthy_true|]. split; [apply trim_idem|]. apply trim_no_unit.
  pose proof (split_char_no_sep 44 s) as H. rewrite Forall_forall in H. by apply H, list_elem_of_In.
Qed.

Lemma models_read_back ms : Forall clean_name ms -> parseModelsString (formatModelsArray ms) = dedup ms.
Proof.
  intros H. unfold formatModelsArray, parseModelsString.
  assert (Forall clean_name (dedup ms)) as Hd.
  { apply Forall_forall. intros m Hm. rewrite Forall_forall in H. by apply H, elem_of_dedup. }
  destruct (dedup ms) as [|m l] eqn:E; [done|]. rewrite comma_list_join by done.
  assert (join (js ",") (m :: l) <> []) as Hj.
  { apply Forall_cons in Hd as [(Hm & _) _]. destruct l; [done|]. rewrite join_cons by done. by destruct m. }
  by rewrite (proj2 (truthy_true _) Hj).
Qed.

#[export] Instance models_format :
  TextFormat (fun ms => Forall clean_name ms /\ NoDup ms) formatModelsArray (fun s => Ret (parseModelsString s)).
Proof. intros ms [Hc Hn]. by rewrite models_read_back, dedup_id. Qed.

(** Formatting a list of model names and parsing it again gives the same names
    without repetitions, in order; what parsing returns always has that form, so
    the two are inverse to each other from then on. *)
Lemma models_roundtrip ms :
  Forall clean_name ms ->
  parseModelsString (formatModelsArray ms) = dedup ms /\
  (forall s, Forall clean_name (parseModelsString s)).
Proof.
  intros H. split; [by apply models_read_back|].
  intros s. unfold parseModelsString. case_match; [apply comma_list_clean|constructor].
Qed.

Lemma models_roundtrip_witness :
  parseModelsString (formatModelsArray [js "gpt-4o"; js "o3"; js "gpt-4o"]) = [js "gpt-4o"; js "o3"].
Proof.
  apply (models_roundtrip [js "gpt-4o"; js "o3"; js "gpt-4o"]).
  repeat (apply Forall_cons; split; [split; [discriminate|split; [vm_compute; reflexivity|]]|]); [..|constructor];
    apply (bool_decide_eq_true (_ ∉ _)); vm_compute; reflexivity.
Defined.

Lemma missing_spec mapping models k :
  k ∈ findMissingModelsInMapping mapping models <->
  exists o, truthy mapping && negb (trim mapping === []) = true /\ parse_mapping mapping = Some o /\
    k ∈ List.map trim o.*1 /\ k <> [] /\ k ∉ List.map trim models.
Proof.
  unfold findMissingModelsInMapping. destruct (truthy mapping); cbn [negb orb andb]; [|set_solver].
  destruct (trim mapping === []); cbn [negb]; [set_solver|]. destruct (parse_mapping mapping) as [o|]; [|set_solver].
  rewrite elem_of_dedup, elem_of_lfilter, andb_true_iff, truthy_true, negb_true_iff, mem_false.
  unfold normalizeModelName. naive_solver.
Qed.

(** The models reported missing are exactly the nonempty names the mapping
    redirects from that the list lacks, each once; after they are added to the
    list nothing is missing any more. *)
Lemma missing_models_complete mapping models :
  let missing := findMissingModelsInMapping mapping models in
  NoDup missing /\ (forall k, k ∈ missing -> k ∉ List.map trim models) /\
  findMissingModelsInMapping mapping (models ++ missing) = [].
Proof.
  intros missing. split; [|split].
  - unfold missing, findMissingModelsInMapping. repeat case_match; try constructor. apply NoDup_dedup.
  - intros k (o & _ & _ & _ & _ & Hk)%missing_spec. done.
  - destruct (findMissingModelsInMapping mapping (models ++ missing)) as [|k l] eqn:E; [done|]. exfalso.
    assert (k ∈ findMissingModelsInMapping mapping (models ++ missing)) as Hk by (rewrite E; left).
    apply missing_spec in Hk as (o & Hg & Ho & Hin & Hne & Hn). apply Hn.
    rewrite map_app, elem_of_app. destruct (decide (k ∈ List.map trim models)); [by left|right].
    assert (trim k = k) as Hkt.
    { apply list_elem_of_In, in_map_iff in Hin as (w & <- & _). apply trim_idem. }
    rewrite <-Hkt. apply list_elem_of_In, in_map. apply list_elem_of_In.
    apply missing_spec. eauto 10.
Qed.

(** A target is reported as exposed exactly when the mapping sends some name to
    it and the model list offers it; taking the reported ones out of the list
    leaves none exposed. *)
Lemma exposed_targets mapping models :
  let exposed := findExposedTargetModels mapping models in
  (forall m, m ∈ exposed <-> m ∈ extractRedirectModels mapping /\ trim m ∈ List.map trim models) /\
  findExposedTargetModels mapping (List.filter (fun m => negb (mem (trim m) (List.map trim exposed))) models) = [].
Proof.
  assert (forall ms m, m ∈ findExposedTargetModels mapping ms <->
    m ∈ extractRedirectModels mapping /\ trim m ∈ List.map trim ms) as Hspec.
  { intros ms m. unfold findExposedTargetModels. destruct (extractRedirectModels mapping) as [|x l]; [set_solver|].
    rewrite elem_of_lfilter, mem_true. done. }
  intros exposed. split; [apply Hspec|].
  destruct (findExposedTargetModels mapping (List.filter _ models)) as [|k l] eqn:E; [done|]. exfalso.
  assert (k ∈ k :: l) as Hk by left. rewrite <-E in Hk. apply Hspec in Hk as [Hr Hin].
  apply list_elem_of_In, in_map_iff in Hin as (w & Hw & Hf). apply filter_In in Hf as [Hwm Hnot].
  apply negb_true_iff, mem_false in Hnot. apply Hnot. rewrite Hw.
  apply list_elem_of_In, in_map, list_elem_of_In. apply Hspec. split; [done|]. rewrite <-Hw.
  by apply list_elem_of_In, in_map.
Qed.

Lemma lists_differ_spec a b : length a = length b -> lists_differ a b = false <-> a = b.
Proof.
  revert b. induction a as [|x a IH]; intros [|y b] Hl; simplify_eq/=; [done|].
  rewrite orb_false_iff, negb_false_iff, (js_eqb_true x y), IH by done. naive_solver.
Qed.

(** An existing channel counts as unchanged only when the model list is the
    same, order included, and the mapping text is the same up to outer white
    space. *)
Lemma config_unchanged cur curMap init initMap :
  hasModelConfigChanged cur curMap init initMap = false <->
  (init <> [] \/ initMap <> []) /\ cur = init /\ trim curMap = trim initMap.
Proof.
  unfold hasModelConfigChanged.
  destruct (match init with [] => true | _ => false end && negb (truthy initMap)) eqn:E1.
  { split; [done|]. intros ([?|?] & _); destruct init, initMap; done. }
  assert (init <> [] \/ initMap <> []) as Hi by (destruct init; [right; by destruct initMap|by left]).
  destruct (Nat.eqb_spec (length cur) (length init)) as [Hl|Hl]; cbn [negb].
  2:{ split; [done|]. intros (_ & -> & _). done. }
  destruct (lists_differ cur init) eqn:E2.
  - split; [done|]. intros (_ & Hc & _). apply (lists_differ_spec cur init Hl) in Hc. congruence.
  - apply (lists_differ_spec cur init Hl) in E2. rewrite negb_false_iff, (js_eqb_true (trim curMap)). naive_solver.
Qed.
