(* ===== verification/Channels.v ===== *)
(** * Channels: [features/channels/lib/channel-utils.ts] and
      [features/channels/constants.ts]

    Type labels and icons, key masking and deduplication, attention flags, and
    the rows that aggregate the channels of one tag. *)
From S2P Require Import Prelude Numbers Json Currency ModelMapping.

(** ** Types *)

Definition CHANNEL_TYPES : list (Z * jstr) :=
  [(0, js "Unknown"); (1, js "OpenAI"); (2, js "Midjourney"); (3, js "Azure"); (4, js "Ollama");
   (5, js "MidjourneyPlus"); (6, js "OpenAIMax"); (7, js "OhMyGPT"); (8, js "Custom"); (9, js "AILS");
   (10, js "AI Proxy"); (11, js "PaLM"); (12, js "API2GPT"); (13, js "AIGC2D"); (14, js "Anthropic");
   (15, js "Baidu"); (16, js "Zhipu"); (17, js "Ali"); (18, js "Xunfei"); (19, js "360");
   (20, js "OpenRouter"); (21, js "AI Proxy Library"); (22, js "FastGPT"); (23, js "Tencent");
   (24, js "Gemini"); (25, js "Moonshot"); (26, js "Zhipu V4"); (27, js "Perplexity"); (31, js "LingYiWanWu");
   (33, js "AWS"); (34, js "Cohere"); (35, js "MiniMax"); (36, js "SunoAPI"); (37, js "Dify"); (38, js "Jina");
   (39, js "Cloudflare"); (40, js "SiliconFlow"); (41, js "Vertex AI"); (42, js "Mistral");
   (43, js "DeepSeek"); (44, js "MokaAI"); (45, js "VolcEngine"); (46, js "Baidu V2"); (47, js "Xinference");
   (48, js "xAI"); (49, js "Coze"); (50, js "Kling"); (51, js "Jimeng"); (52, js "Vidu"); (53, js "Submodel");
   (54, js "DoubaoVideo"); (55, js "Sora"); (56, js "Replicate"); (57, js "Codex"); (58, js "ElevenLabs")]%Z.

Definition CHANNEL_TYPE_DISPLAY_ORDER : list Z :=
  [1; 14; 33; 24; 43; 3; 41; 48; 42; 34; 20; 4; 40; 27; 25; 17; 26; 15; 46; 23; 18; 45; 31; 35; 49; 19; 47; 37; 38; 39; 11; 8; 57; 22; 21; 44; 2; 5; 36; 50; 51; 52; 53; 54; 55; 56; 58]%Z.

(** A lookup in a table of numbers. *)
Fixpoint zget {V} (k : Z) (l : list (Z * V)) : option V :=
  match l with
  | [] => None
  | (j, v) :: l' => if (k =? j)%Z then Some v else zget k l'
  end.

(** The ordered types first, then the others in the order of their numbers;
    type 0 is left out of the second part. *)
Definition CHANNEL_TYPE_OPTIONS : list (Z * jstr) :=
  let ordered := omap (fun id => match zget id CHANNEL_TYPES with
                                 | Some label => if truthy label then Some (id, label) else None
                                 | None => None
                                 end) CHANNEL_TYPE_DISPLAY_ORDER in
  ordered ++ List.filter (fun p => negb (p.1 =? 0)%Z && negb (mem p.1 ordered.*1)) CHANNEL_TYPES.

Definition TYPE_TO_ICON : list (Z * jstr) :=
  [(1, js "OpenAI"); (6, js "OpenAI"); (7, js "OpenAI"); (8, js "OpenAI"); (3, js "Azure"); (14, js "Claude");
   (24, js "Gemini"); (11, js "Google"); (41, js "Gemini"); (33, js "Aws"); (39, js "Cloudflare");
   (15, js "Baidu"); (46, js "Baidu"); (16, js "Zhipu"); (26, js "Zhipu"); (17, js "Qwen"); (18, js "Spark");
   (23, js "Hunyuan"); (19, js "Ai360"); (25, js "Moonshot"); (31, js "Yi"); (35, js "Minimax");
   (45, js "Volcengine"); (4, js "Ollama"); (27, js "Perplexity"); (34, js "Cohere"); (42, js "Mistral");
   (43, js "DeepSeek"); (48, js "XAI"); (49, js "Coze"); (40, js "SiliconCloud"); (44, js "OpenAI");
   (20, js "OpenRouter"); (2, js "Midjourney"); (5, js "Midjourney"); (50, js "Kling"); (51, js "Jimeng");
   (52, js "Vidu"); (36, js "Suno"); (55, js "OpenAI"); (54, js "Doubao"); (56, js "Replicate");
   (37, js "Dify"); (38, js "Jina"); (22, js "FastGPT"); (47, js "Xinference"); (53, js "OpenAI");
   (10, js "OpenAI"); (21, js "OpenAI"); (12, js "OpenAI"); (13, js "OpenAI"); (9, js "OpenAI")]%Z.

Definition TYPE_TO_KEY_PROMPT : list (Z * jstr) :=
  [(15, js "Format: APIKey|SecretKey"); (18, js "Format: APPID|APISecret|APIKey");
   (22, js "Format: APIKey-AppId, e.g., fastgpt-0sp2gtvfdgyi4k30jwlgwf1i-64f335d84283f05518e9e041");
   (23, js "Format: AppId|SecretId|SecretKey"); (33, js "Format: Ak|Sk|Region");
   (50, js "Format: AccessKey|SecretKey (or just ApiKey if upstream is New API)");
   (51, js "Format: Access Key ID|Secret Access Key");
   (57, js "Paste Codex OAuth JSON credential (access_token / refresh_token / account_id)")]%Z.

(** [table[type] || fallback]. *)
Definition zget_or (type : Z) (l : list (Z * jstr)) (fallback : jstr) : jstr := opt_str_or (zget type l) fallback.

Definition getChannelTypeLabel (type : Z) : jstr := zget_or type CHANNEL_TYPES (js "Unknown").
Definition getChannelTypeIcon (type : Z) : jstr := zget_or type TYPE_TO_ICON (js "OpenAI").
Definition getKeyPromptForType (type : Z) : jstr :=
  zget_or type TYPE_TO_KEY_PROMPT (js "Enter API key for this channel").

Definition STATUS_UNKNOWN : Z := 0.
Definition STATUS_ENABLED : Z := 1.
Definition STATUS_MANUAL_DISABLED : Z := 2.
Definition STATUS_AUTO_DISABLED : Z := 3.

Record Badge := MkBadge { variant : jstr; badge_label : jstr }.

Definition CHANNEL_STATUS_CONFIG : list (Z * Badge) :=
  [(STATUS_UNKNOWN, MkBadge (js "neutral") (js "Unknown"));
   (STATUS_ENABLED, MkBadge (js "success") (js "Enabled"));
   (STATUS_MANUAL_DISABLED, MkBadge (js "neutral") (js "Disabled"));
   (STATUS_AUTO_DISABLED, MkBadge (js "danger") (js "Auto Disabled"))].

Definition MULTI_KEY_STATUS_CONFIG : list (Z * Badge) :=
  [(1%Z, MkBadge (js "success") (js "Enabled"));
   (2%Z, MkBadge (js "neutral") (js "Manual Disabled"));
   (3%Z, MkBadge (js "danger") (js "Auto Disabled"))].

Definition getChannelStatusBadge (status : Z) : Badge :=
  default (MkBadge (js "neutral") (js "Unknown")) (zget status CHANNEL_STATUS_CONFIG).

Definition getMultiKeyStatusBadge (status : Z) : Badge :=
  default (MkBadge (js "success") (js "Enabled")) (zget status MULTI_KEY_STATUS_CONFIG).

(** ** Channels *)

(** A field that may be a value, null or missing. *)
Inductive nullish (A : Type) := Undefined | Null | Value (a : A).
Arguments Undefined {A}.
Arguments Null {A}.
Arguments Value {A} a.

#[export] Instance nullish_eq_dec `{EqDecision A} : EqDecision (nullish A).
Proof. solve_decision. Defined.

Record ChannelInfo := MkInfo {
  is_multi_key : bool;
  multi_key_size : Z;
  multi_key_status_list : option (list (jstr * Z))
}.

Record Channel := MkChannel {
  ch_id : Z;
  ch_type : Z;
  ch_key : jstr;
  ch_status : Z;
  ch_name : jstr;
  ch_weight : nullish Z;
  ch_response_time : number;
  ch_balance : number;
  ch_models : jstr;
  ch_group : jstr;
  ch_used_quota : number;
  ch_priority : nullish Z;
  ch_tag : nullish jstr;
  ch_info : option ChannelInfo
}.

Definition isChannelEnabled (channel : Channel) : bool := (ch_status channel =? 1)%Z.

Definition isMultiKeyChannel (channel : Channel) : bool :=
  match ch_info channel with Some i => is_multi_key i | None => false end.

(** ** Keys *)

(** The lines of [s] that are not blank. *)
Definition key_lines (s : jstr) : list jstr := List.filter (fun k => truthy (trim k)) (split_char 10 s).

(** [s.slice(-n)]. *)
Definition last_units (n : nat) (s : jstr) : jstr := drop (length s - n) s.

Definition formatChannelKey (key : jstr) (isMultiKey : bool) : jstr :=
  if negb (truthy key) then []
  else if isMultiKey then Z_to_str (Z.of_nat (length (key_lines key))) ++ js " keys"
  else if length key <=? 16 then take 4 key ++ js "..." ++ last_units 4 key
  else take 8 key ++ js "..." ++ last_units 8 key.

Definition formatKeyPreview (key : jstr) (maxLength : nat) : jstr :=
  if negb (truthy key) then []
  else if length key <=? maxLength then key
  else take maxLength key ++ js "...".

Definition countKeys (key : jstr) : nat := if truthy key then length (key_lines key) else 0.

Record DedupResult := MkDedup {
  deduplicatedText : jstr;
  beforeCount : nat;
  afterCount : nat;
  removedCount : Z
}.

Definition deduplicateKeys (keysText : jstr) : DedupResult :=
  if negb (truthy keysText) || (trim keysText === []) then MkDedup [] 0 0 0
  else
    let keyLines := split_char 10 keysText in
    let deduplicatedKeys := dedup (filter_truthy (List.map trim keyLines)) in
    MkDedup (join [10%N] deduplicatedKeys) (length keyLines) (length deduplicatedKeys)
            (Z.of_nat (length keyLines) - Z.of_nat (length deduplicatedKeys)).

(** ** Lists *)

Definition parseModelsList (models : jstr) : list jstr := if truthy models then comma_list models else [].

Section groups.
(** Whether [a.localeCompare(b) <= 0]. *)
Context (localeLe : jstr -> jstr -> bool).

Definition group_le (a b : jstr) : bool :=
  if a === js "default" then true else if b === js "default" then false else localeLe a b.

Definition parseGroupsList (groups : jstr) : list jstr :=
  if truthy groups then sort_by group_le (comma_list groups) else [].

Definition validateGroups (groups : jstr) : bool :=
  match parseGroupsList groups with [] => false | _ => true end.
End groups.

Definition formatModelsString (models : list jstr) : jstr := join (js ",") models.
Definition formatGroupsString (groups : list jstr) : jstr := join (js ",") groups.

Definition validateModels (models : jstr) : bool := match parseModelsList models with [] => false | _ => true end.
Definition validateChannelName (name : jstr) : bool := truthy (trim name).
Definition validateApiKey (key : jstr) : bool := truthy (trim key).

(** ** Settings *)

Definition parseChannelSettings (settingStr : option jstr) : json :=
  match settingStr with
  | None | Some [] => JObj []
  | Some s => try_catch (JSON_parse s) (JObj [])
  end.

Definition parseChannelOtherSettings (settingsStr : option jstr) : json :=
  match settingsStr with
  | None | Some [] => JObj []
  | Some s => if s === js "{}" then JObj [] else try_catch (JSON_parse s) (JObj [])
  end.

Definition validateChannelSettings (settings : jstr) : bool :=
  if negb (truthy settings) || (trim settings === []) then true
  else match JSON_parse settings with Ret _ => true | Throw => false end.

(** ** Balance, response time, attention *)

Definition ten : number := num_of_Z 10.

Definition getBalanceVariant (balance : number) : jstr :=
  if neqb balance zero then js "neutral"
  else if nltb balance one then js "danger"
  else if nltb balance ten then js "warning"
  else js "success".

(** Without a translation function. *)
Definition formatResponseTime (timeMs : number) : jstr :=
  if neqb timeMs zero then js "Not tested"
  else if nltb timeMs thousand then num_to_str timeMs ++ js "ms"
  else toFixed (ndiv timeMs thousand) 2 ++ js "s".

Definition getPriorityDisplay (priority : nullish Z) : jstr :=
  match priority with Value p => Z_to_str p | _ => js "0" end.

Definition getWeightDisplay (weight : nullish Z) : jstr :=
  match weight with Value w => Z_to_str w | _ => js "0" end.

(** Every key of a multi-key channel has a status entry. *)
Definition all_keys_listed (channel : Channel) : bool :=
  match ch_info channel with
  | Some i =>
      is_multi_key i &&
      match multi_key_status_list i with
      | Some l => (multi_key_size i <=? Z.of_nat (length l))%Z
      | None => false
      end
  | None => false
  end.

Definition low_balance (channel : Channel) : bool :=
  nltb zero (ch_balance channel) && nltb (ch_balance channel) one.

Definition channelNeedsAttention (channel : Channel) : bool :=
  if (ch_status channel =? 3)%Z then true
  else if low_balance channel then true
  else if all_keys_listed channel then true
  else false.

Definition getAttentionReason (channel : Channel) : option jstr :=
  if (ch_status channel =? 3)%Z then Some (js "Auto-disabled")
  else if low_balance channel then Some (js "Low balance")
  else if all_keys_listed channel then Some (js "All keys disabled")
  else None.

(** ** Tag rows

    [tagMap] and [result] share the row objects, so the rows are one list in
    the order they were created; a row starts as a spread of the first child
    with its key, name, type, balance, models and tag overridden ([tr_base]) and
    with the fields below, which stand for those of the same name in the base.
    The row's id is its tag ([tr_tag]; the number in the base is not read), and
    the times, which the row clears, are no fields of [Channel]. *)
Record TagRow := MkTagRow {
  tr_base : Channel;
  tr_tag : jstr;
  tr_status : option Z;
  tr_group : jstr;
  tr_used_quota : number;
  tr_response_time : number;
  tr_priority : nullish Z;
  tr_weight : nullish Z;
  tr_children : list Channel
}.

Definition channel_tag (channel : Channel) : jstr :=
  match ch_tag channel with Value t => t | _ => [] end.

Definition row_base (channel : Channel) : Channel :=
  let tag := channel_tag channel in
  MkChannel (ch_id channel) 0 tag (ch_status channel) tag (ch_weight channel) (ch_response_time channel) zero [] (ch_group channel)
    (ch_used_quota channel) (ch_priority channel) (Value tag) (ch_info channel).
Definition new_row (channel : Channel) : TagRow :=
  MkTagRow (row_base channel) (channel_tag channel) None [] zero zero (Value (-1)%Z) (Value (-1)%Z) [].

(** [-1] stands for no value yet; different values give null. *)
Definition aggregate_value (row child : nullish Z) : nullish Z :=
  if js_eqb row (Value (-1)%Z) then child
  else if js_eqb row child then row
  else Null.

Definition aggregate_group (row child : jstr) : jstr :=
  if row === [] then child
  else
    let existingGroups := filter_truthy (split_char 44 row) in
    let newGroups := filter_truthy (split_char 44 child) in
    foldl (fun acc g => if mem g existingGroups then acc else acc ++ js "," ++ g) row newGroups.

(** The part of the loop body after the row was found or created. *)
Definition update_row (row : TagRow) (channel : Channel) : TagRow :=
  let children := tr_children row ++ [channel] in
  let childCount := Z.of_nat (length children) in
  MkTagRow (tr_base row) (tr_tag row)
    (if (ch_status channel =? 1)%Z then Some 1%Z
     else match tr_status row with None => Some (ch_status channel) | s => s end)
    (aggregate_group (tr_group row) (ch_group channel))
    (nadd (tr_used_quota row) (ch_used_quota channel))
    (ndiv (nadd (nmul (tr_response_time row) (num_of_Z (childCount - 1))) (ch_response_time channel))
          (num_of_Z childCount))
    (aggregate_value (tr_priority row) (ch_priority channel))
    (aggregate_value (tr_weight row) (ch_weight channel))
    children.

(** Find the row of the tag, or append a new one, and update it. *)
Fixpoint add_channel (rows : list TagRow) (channel : Channel) : list TagRow :=
  match rows with
  | [] => [update_row (new_row channel) channel]
  | row :: rows' =>
      if tr_tag row === channel_tag channel then update_row row channel :: rows'
      else row :: add_channel rows' channel
  end.

Definition aggregateChannelsByTag (channels : list Channel) : list TagRow := foldl add_channel [] channels.

(** ** Theorems: tag rows *)

(** The children of one tag, folded into their row. *)
Definition row_of (children : list Channel) : option TagRow :=
  match children with
  | [] => None
  | c :: _ => Some (foldl update_row (new_row c) children)
  end.

Definition with_tag (t : jstr) (cs : list Channel) : list Channel := List.filter (fun c => channel_tag c === t) cs.

(** Grouping by tag, the reference: one row per distinct tag, in the order of
    first appearance, made of that tag's channels in order. *)
Definition group_by_tag (cs : list Channel) : list TagRow :=
  omap (fun t => row_of (with_tag t cs)) (dedup (List.map channel_tag cs)).

Lemma update_row_tag row c : tr_tag (update_row row c) = tr_tag row.
Proof. done. Qed.

Lemma fold_row_tag cs row : tr_tag (foldl update_row row cs) = tr_tag row.
Proof. revert row. induction cs as [|c cs IH]; intros row; simpl; [done|]. by rewrite IH. Qed.

Lemma row_of_tag cs t row : row_of (with_tag t cs) = Some row -> tr_tag row = t.
Proof.
  unfold row_of. destruct (with_tag t cs) as [|c l] eqn:E; [done|]. intros [= <-]. rewrite fold_row_tag.
  assert (c ∈ with_tag t cs) as Hc by (rewrite E; left). apply elem_of_lfilter in Hc as [_ Hc].
  apply (proj1 (js_eqb_true _ _)) in Hc. done.
Qed.

Lemma row_of_snoc cs c :
  row_of (cs ++ [c]) =
  Some (match row_of cs with Some row => update_row row c | None => update_row (new_row c) c end).
Proof. destruct cs as [|d cs]; [done|]. cbn [row_of app].
  change (d :: cs ++ [c]) with ((d :: cs) ++ [c]). by rewrite foldl_app. Qed.

Lemma with_tag_snoc t cs c :
  with_tag t (cs ++ [c]) = with_tag t cs ++ (if channel_tag c === t then [c] else []).
Proof. unfold with_tag. by rewrite List.filter_app. Qed.

Lemma with_tag_nonempty t cs : t ∈ List.map channel_tag cs -> with_tag t cs <> [].
Proof.
  intros (c & Hc & Hin)%list_elem_of_In%in_map_iff E. apply (not_elem_of_nil c). rewrite <-E.
  apply elem_of_lfilter. split; [by apply list_elem_of_In|]. by apply js_eqb_true.
Qed.

Lemma add_channel_absent rows c :
  Forall (fun r => tr_tag r <> channel_tag c) rows ->
  add_channel rows c = rows ++ [update_row (new_row c) c].
Proof.
  induction 1 as [|r rows Hr _ IH]; [done|]. cbn [add_channel]. by rewrite js_eqb_ne, IH.
Qed.

Lemma add_channel_present rows1 r rows2 c :
  Forall (fun r => tr_tag r <> channel_tag c) rows1 -> tr_tag r = channel_tag c ->
  add_channel (rows1 ++ r :: rows2) c = rows1 ++ update_row r c :: rows2.
Proof.
  intros H Hr. induction H as [|q rows Hq _ IH]; cbn [app add_channel].
  - by rewrite Hr, js_eqb_refl.
  - by rewrite js_eqb_ne, IH.
Qed.

(** Adding one channel to the rows of some distinct tags. *)
Lemma add_channel_rows cs c ts :
  NoDup ts -> (forall t, t ∈ ts -> t ∈ List.map channel_tag cs) ->
  add_channel (omap (fun t => row_of (with_tag t cs)) ts) c =
  omap (fun t => row_of (with_tag t (cs ++ [c]))) ts ++
  (if mem (channel_tag c) ts then [] else [update_row (new_row c) c]).
Proof.
  intros Hnd Hts. assert (forall t, t ∈ ts -> exists row, row_of (with_tag t cs) = Some row) as Hrow.
  { intros t Ht. apply Hts, with_tag_nonempty in Ht. unfold row_of. destruct (with_tag t cs); [done|eauto]. }
  clear Hts. induction Hnd as [|t ts Hnin Hnd IH]; [done|]. cbn [omap list_omap].
  destruct (Hrow t) as [row Er]; [left|]. rewrite Er. cbn [add_channel]. rewrite (row_of_tag _ _ _ Er).
  rewrite with_tag_snoc. unfold mem. cbn [existsb]. fold (mem (channel_tag c) ts).
  destruct (decide (t = channel_tag c)) as [->|Hne].
  - rewrite !js_eqb_refl, row_of_snoc, Er. cbn [orb]. rewrite app_nil_r. f_equal.
    apply list_omap_ext. apply Forall_Forall2_diag, Forall_forall. intros t' Ht'.
    rewrite with_tag_snoc, js_eqb_ne by (intros <-; by apply Hnin). by rewrite app_nil_r.
  - rewrite !js_eqb_ne by done. rewrite app_nil_r, Er. cbn [app orb]. f_equal.
    apply IH. intros t' Ht'. apply Hrow. by right.
Qed.

(** C36: the rows the table builds in one pass over a shared map are those of the
    grouping by tag: one row for each distinct tag, in the order of first
    appearance, folding exactly that tag's channels in order. *)
Theorem aggregate_is_group_by cs : aggregateChannelsByTag cs = group_by_tag cs.
Proof.
  unfold aggregateChannelsByTag. induction cs as [|c cs IH] using rev_ind; [done|].
  rewrite foldl_app. cbn [foldl]. rewrite IH. unfold group_by_tag. rewrite map_app. cbn [List.map].
  rewrite dedup_snoc, omap_app, add_channel_rows; [|apply NoDup_dedup|intros t Ht; by apply (proj1 (elem_of_dedup _ t))].
  f_equal. assert (mem (channel_tag c) (dedup (List.map channel_tag cs)) = mem (channel_tag c) (List.map channel_tag cs)) as ->.
  { apply eq_true_iff_eq. by rewrite !mem_true, elem_of_dedup. }
  destruct (mem _ _) eqn:E; [done|]. cbn [omap list_omap]. rewrite with_tag_snoc, js_eqb_refl, row_of_snoc.
  destruct (with_tag (channel_tag c) cs) as [|d l] eqn:Ew; [done|]. exfalso.
  assert (d ∈ with_tag (channel_tag c) cs) as Hd by (rewrite Ew; left). apply elem_of_lfilter in Hd as [Hd Ht].
  apply (proj1 (js_eqb_true _ _)) in Ht. apply mem_false in E. apply E. rewrite <-Ht.
  by apply list_elem_of_In, in_map, list_elem_of_In.
Qed.

Lemma fold_children cs row : tr_children (foldl update_row row cs) = tr_children row ++ cs.
Proof.
  revert row. induction cs as [|c cs IH]; intros row; simpl; [by rewrite app_nil_r|].
  rewrite IH. cbn [update_row tr_children]. by rewrite <-app_assoc.
Qed.

Lemma fold_status cs row :
  tr_status (foldl update_row row cs) =
  if existsb isChannelEnabled cs then Some 1%Z
  else match tr_status row, cs with None, c :: _ => Some (ch_status c) | s, _ => s end.
Proof.
  revert row. induction cs as [|c cs IH]; intros row; cbn [foldl existsb].
  { by destruct (tr_status row). }
  rewrite IH. cbn [update_row tr_status]. unfold isChannelEnabled at 2. destruct (Z.eqb_spec (ch_status c) 1).
  - cbn [orb]. by destruct (existsb isChannelEnabled cs).
  - cbn [orb]. destruct (existsb isChannelEnabled cs); [done|]. by destruct (tr_status row).
Qed.

(** Values other than the sentinel: all equal, or null. *)
Lemma fold_value (get : Channel -> nullish Z) (field : TagRow -> nullish Z) cs row :
  (forall r c, field (update_row r c) = aggregate_value (field r) (get c)) ->
  Forall (fun c => get c <> Value (-1)%Z) cs -> field row <> Value (-1)%Z ->
  field (foldl update_row row cs) =
  if forallb (fun c => js_eqb (field row) (get c)) cs then field row else Null.
Proof.
  intros Hf Hcs. revert row. induction Hcs as [|c cs Hc _ IH]; intros row Hr; [done|]. cbn [foldl forallb].
  rewrite IH; rewrite Hf; unfold aggregate_value; rewrite (js_eqb_ne _ _ Hr).
  - destruct (js_eqb (field row) (get c)) eqn:E; cbn [andb]; [done|]. by case_match.
  - by destruct (js_eqb (field row) (get c)).
Qed.

Lemma row_value (get : Channel -> nullish Z) (field : TagRow -> nullish Z) c cs :
  (forall r c, field (update_row r c) = aggregate_value (field r) (get c)) ->
  field (new_row c) = Value (-1)%Z -> Forall (fun d => get d <> Value (-1)%Z) (c :: cs) ->
  field (foldl update_row (new_row c) (c :: cs)) =
  if forallb (fun d => js_eqb (get c) (get d)) cs then get c else Null.
Proof.
  intros Hf Hn [Hc Hcs]%Forall_cons. cbn [foldl]. pose proof (Hf (new_row c) c) as H0.
  rewrite Hn in H0. unfold aggregate_value in H0. rewrite js_eqb_refl in H0.
  rewrite (fold_value get) by (done || by rewrite H0). by rewrite H0.
Qed.

(** A tag's row lists exactly its channels; it is enabled when one of them is,
    and otherwise shows the first one's status; its priority and weight are the
    common value of its channels, or null when they differ, as long as no
    channel uses the value -1. *)
Lemma tag_row_values c cs row :
  row_of (c :: cs) = Some row ->
  Forall (fun d => ch_priority d <> Value (-1)%Z /\ ch_weight d <> Value (-1)%Z) (c :: cs) ->
  tr_children row = c :: cs /\
  tr_status row = Some (if existsb isChannelEnabled (c :: cs) then 1 else ch_status c)%Z /\
  tr_priority row = (if forallb (fun d => js_eqb (ch_priority c) (ch_priority d)) cs then ch_priority c else Null) /\
  tr_weight row = (if forallb (fun d => js_eqb (ch_weight c) (ch_weight d)) cs then ch_weight c else Null).
Proof.
  unfold row_of. intros E H. assert (row = foldl update_row (new_row c) (c :: cs)) as -> by congruence.
  split; [by rewrite fold_children|]. split.
  - rewrite (fold_status (c :: cs) (new_row c)). by case_match.
  - split; apply row_value; try done; (eapply Forall_impl; [exact H|]); naive_solver.
Qed.

Definition sample_channel (id status : Z) (priority : nullish Z) : Channel :=
  MkChannel id 1 [] status (js "a") (Value 0%Z) zero zero [] (js "default") zero priority (Value (js "t")) None.

Lemma tag_row_values_witness :
  exists row, row_of [sample_channel 1 2 (Value 5%Z); sample_channel 2 1 (Value 7%Z)] = Some row /\
    tr_status row = Some 1%Z /\ tr_priority row = Null.
Proof.
  eexists. split; [reflexivity|].
  destruct (tag_row_values (sample_channel 1 2 (Value 5%Z)) [sample_channel 2 1 (Value 7%Z)] _ eq_refl)
    as (_ & Hs & Hp & _).
  - repeat (apply Forall_cons; split; [split; discriminate|]). constructor.
  - split; [exact Hs|exact Hp].
Defined.

(** With a priority of -1 the sentinel hides a difference: channels of priority
    -1 and 7 are shown as having priority 7. *)
Lemma sentinel_priority :
  tr_priority <$> aggregateChannelsByTag [sample_channel 1 1 (Value (-1)%Z); sample_channel 2 1 (Value 7%Z)] =
  [Value 7%Z].
Proof. vm_compute. reflexivity. Qed.

(** *** Groups of a row *)

Definition groups_of (s : jstr) : list jstr := filter_truthy (split_char 44 s).

Lemma split_char_comma a b : split_char 44 (a ++ 44%N :: b) = split_char 44 a ++ split_char 44 b.
Proof.
  induction a as [|c a IH]; [done|]. cbn [app split_char]. rewrite IH. destruct (N.eqb_spec c 44); [done|].
  destruct (split_char_cons 44 a) as (w & ws & E). by rewrite E.
Qed.

Lemma elem_of_groups_app a b g : g ∈ groups_of (a ++ js "," ++ b) <-> g ∈ groups_of a \/ g ∈ groups_of b.
Proof.
  unfold groups_of, filter_truthy. change (a ++ js "," ++ b) with (a ++ 44%N :: b).
  by rewrite split_char_comma, List.filter_app, elem_of_app.
Qed.

Lemma groups_of_one g : g ∈ groups_of g -> groups_of g = [g].
Proof.
  unfold groups_of. intros [Hg Ht]%elem_of_lfilter.
  pose proof (split_char_no_sep 44 g) as H. rewrite Forall_forall in H.
  rewrite split_char_none by (by apply H). unfold filter_truthy. cbn [List.filter]. by rewrite Ht.
Qed.

Lemma aggregate_group_elem row child g :
  g ∈ groups_of (aggregate_group row child) <-> g ∈ groups_of row \/ g ∈ groups_of child.
Proof.
  unfold aggregate_group. destruct (row === []) eqn:E.
  { apply (proj1 (js_eqb_true _ _)) in E. subst row. unfold groups_of at 2. cbn. set_solver. }
  assert (forall new acc,
    Forall (fun x => x <> [] /\ 44%N ∉ x) new -> (forall x, x ∈ groups_of row -> x ∈ groups_of acc) ->
    g ∈ groups_of (foldl (fun acc g => if mem g (groups_of row) then acc else acc ++ js "," ++ g) acc new) <->
    g ∈ groups_of acc \/ g ∈ new) as Hgen.
  { induction new as [|x new IH]; intros acc Hnew Hacc; cbn [foldl]; [set_solver|].
    apply Forall_cons in Hnew as [[Hx Hcx] Hnew].
    assert (groups_of x = [x]) as Egx.
    { unfold groups_of. rewrite split_char_none by done. unfold filter_truthy. cbn [List.filter].
      by rewrite (proj2 (truthy_true x) Hx). }
    destruct (mem x (groups_of row)) eqn:Em.
    - rewrite IH by done. apply mem_true, Hacc in Em. set_solver.
    - rewrite IH; [|done|intros y Hy; apply elem_of_groups_app; left; by apply Hacc].
      rewrite elem_of_groups_app, Egx. set_solver. }
  apply Hgen; [|done]. apply Forall_forall. intros x [Hx Ht]%elem_of_lfilter. split; [by apply truthy_true|].
  pose proof (split_char_no_sep 44 child) as H. rewrite Forall_forall in H. by apply H.
Qed.

(** The groups shown for a tag are exactly the groups of its channels. *)
Lemma tag_row_groups cs row g :
  row_of cs = Some row -> g ∈ groups_of (tr_group row) <-> exists c, c ∈ cs /\ g ∈ groups_of (ch_group c).
Proof.
  destruct cs as [|c0 cs]; [done|]. unfold row_of. intros E.
  assert (row = foldl update_row (new_row c0) (c0 :: cs)) as -> by congruence.
  assert (forall l r, g ∈ groups_of (tr_group (foldl update_row r l)) <->
    g ∈ groups_of (tr_group r) \/ exists c, c ∈ l /\ g ∈ groups_of (ch_group c)) as Hgen.
  { induction l as [|c l IH]; intros r; cbn [foldl]; [set_solver|].
    rewrite IH. cbn [update_row tr_group]. rewrite aggregate_group_elem. set_solver. }
  rewrite Hgen. cbn. set_solver.
Qed.

Lemma tag_row_groups_witness :
  exists row, row_of [sample_channel 1 2 Null] = Some row /\
    (js "default" ∈ groups_of (tr_group row) <->
     exists c, c ∈ [sample_channel 1 2 Null] /\ js "default" ∈ groups_of (ch_group c)).
Proof. eexists. split; [reflexivity|]. apply tag_row_groups. reflexivity. Defined.

(** ** Theorems: keys, groups, attention *)

Lemma newline_list_join ks :
  ks <> [] -> Forall (fun k => k <> [] /\ trim k = k /\ 10%N ∉ k) ks ->
  split_char 10 (join [10%N] ks) = ks /\ filter_truthy (List.map trim ks) = ks.
Proof.
  intros Hne H. split.
  - apply split_join_char; [done|]. eapply Forall_impl; [exact H|]. by intros k (_ & _ & ?).
  - assert (List.map trim ks = ks) as ->.
    { clear Hne. induction H as [|k ks (_ & Ht & _) _ IH]; [done|]. cbn [List.map]. by rewrite Ht, IH. }
    apply lfilter_id. eapply Forall_impl; [exact H|]. intros k (Hk & _). by apply truthy_true.
Qed.

Lemma dedup_keys_clean s :
  Forall (fun k => k <> [] /\ trim k = k /\ 10%N ∉ k) (dedup (filter_truthy (List.map trim (split_char 10 s)))).
Proof.
  apply Forall_forall. intros k Hk. apply elem_of_dedup, elem_of_lfilter in Hk as [Hk Ht].
  apply list_elem_of_In, in_map_iff in Hk as (w & <- & Hw).
  split; [by apply truthy_true|]. split; [apply trim_idem|]. apply trim_no_unit.
  pose proof (split_char_no_sep 10 s) as H. rewrite Forall_forall in H. by apply H, list_elem_of_In.
Qed.

Lemma join_clean_trim ks :
  ks <> [] -> Forall (fun k => k <> [] /\ trim k = k /\ 10%N ∉ k) ks -> trim (join [10%N] ks) <> [].
Proof.
  intros Hne H E. destruct H as [|k ks (Hk & Ht & _) _]; [done|].
  destruct k as [|c k]; [done|]. apply trimmed_head in Ht.
  assert (exists t, join [10%N] ((c :: k) :: ks) = c :: t) as [t Et] by (destruct ks; [by eexists|rewrite join_cons by done; by eexists]).
  rewrite Et in E. unfold trim in E. rewrite trim_start_head, trim_end_cons in E by done. done.
Qed.

(** Removing duplicate keys keeps the first of each trimmed nonblank key, in
    order, counts what it removed, and doing it again removes nothing. *)
Lemma deduplicateKeys_idempotent s :
  let r := deduplicateKeys s in
  (removedCount r = Z.of_nat (beforeCount r) - Z.of_nat (afterCount r))%Z /\
  (0 <= removedCount r)%Z /\
  deduplicatedText (deduplicateKeys (deduplicatedText r)) = deduplicatedText r /\
  removedCount (deduplicateKeys (deduplicatedText r)) = 0%Z.
Proof.
  intros r. assert (r = deduplicateKeys s) as Hr by done. clearbody r. unfold deduplicateKeys in Hr.
  destruct (negb (truthy s) || (trim s === [])); subst r; [done|].
  cbn [removedCount beforeCount afterCount deduplicatedText].
  split; [done|]. pose proof (dedup_keys_clean s) as Hc.
  assert (length (dedup (filter_truthy (List.map trim (split_char 10 s)))) <= length (split_char 10 s)) as Hle.
  { etransitivity; [eapply sublist_length, dedup_sublist|]. unfold filter_truthy.
    etransitivity; [eapply sublist_length, lfilter_sublist|]. by rewrite length_map. }
  split; [lia|]. clear Hle. revert Hc. pose proof (NoDup_dedup (filter_truthy (List.map trim (split_char 10 s)))) as Hnd.
  revert Hnd. generalize (dedup (filter_truthy (List.map trim (split_char 10 s)))) as ks. intros ks Hnd Hc.
  destruct ks as [|k ks]; [done|]. destruct (newline_list_join (k :: ks)) as [H1 H2]; [done..|].
  pose proof (join_clean_trim (k :: ks) ltac:(done) Hc) as Ht.
  unfold deduplicateKeys. rewrite (proj2 (truthy_true _)) by (intros E; by rewrite E in Ht).
  rewrite js_eqb_ne by done. cbn [negb orb]. rewrite H1, H2, dedup_id by done. cbn [deduplicatedText removedCount].
  split; [done|lia].
Qed.

(** A short key is not masked: up to eight units, the shown start and end
    together hold the whole key. *)
Lemma short_key_disclosed key :
  4 <= length key <= 8 ->
  formatChannelKey key false = take 4 key ++ js "..." ++ last_units 4 key /\
  take 4 key ++ drop (8 - length key) (last_units 4 key) = key.
Proof.
  intros H. split.
  - unfold formatChannelKey. rewrite (proj2 (truthy_true key)) by (intros ->; simpl in H; lia). cbn [negb].
    by rewrite (proj2 (Nat.leb_le _ _)) by lia.
  - unfold last_units. rewrite drop_drop. replace (length key - 4 + (8 - length key)) with 4 by lia.
    apply take_drop.
Qed.

Lemma short_key_disclosed_witness :
  formatChannelKey (js "sk-12345") false = js "sk-1...2345" /\ js "sk-1" ++ js "2345" = js "sk-12345".
Proof. apply (short_key_disclosed (js "sk-12345")). vm_compute. split; repeat constructor. Defined.

(** A longer key shows at most sixteen of its units, eight at each end. *)
Lemma long_key_masked key :
  16 < length key ->
  formatChannelKey key false = take 8 key ++ js "..." ++ last_units 8 key /\
  length (take 8 key ++ last_units 8 key) = 16.
Proof.
  intros H. split.
  - unfold formatChannelKey. rewrite (proj2 (truthy_true key)) by (intros ->; simpl in H; lia). cbn [negb].
    by rewrite (proj2 (Nat.leb_gt _ _)) by lia.
  - unfold last_units. rewrite length_app, length_take, length_drop. lia.
Qed.

(** The groups of a channel are listed with the default group first, and the
    list is a rearrangement of the trimmed nonempty names. *)
Lemma groups_default_first localeLe s :
  parseGroupsList localeLe s ≡ₚ comma_list s /\
  (js "default" ∈ comma_list s -> head (parseGroupsList localeLe s) = Some (js "default")).
Proof.
  unfold parseGroupsList. destruct (truthy s) eqn:E.
  2:{ apply truthy_false in E. subst s. split; [reflexivity|]. intros H. vm_compute in H. set_solver. }
  split; [apply sort_by_perm|]. generalize (comma_list s) as l. intros l.
  induction l as [|x l IH]; intros Hin; [set_solver|]. cbn [sort_by foldr]. fold (sort_by (group_le localeLe) l).
  destruct (decide (x = js "default")) as [->|Hne].
  - destruct (sort_by (group_le localeLe) l) as [|y r]; [done|]. cbn [insert_sorted]. unfold group_le.
    by rewrite js_eqb_refl.
  - apply elem_of_cons in Hin as [Hin|Hin]; [done|]. specialize (IH Hin).
    destruct (sort_by (group_le localeLe) l) as [|y r]; [done|]. cbn [head] in IH. simplify_eq.
    cbn [insert_sorted]. unfold group_le. by rewrite (js_eqb_ne x), js_eqb_refl.
Qed.

Lemma groups_default_first_witness :
  head (parseGroupsList str_leb (js "vip, default,auto")) = Some (js "default").
Proof.
  apply (groups_default_first str_leb (js "vip, default,auto")).
  apply (bool_decide_eq_true (_ ∈ _)). vm_compute. reflexivity.
Defined.

(** A channel is flagged exactly when there is a reason to show. *)
Lemma attention_has_reason channel :
  channelNeedsAttention channel = true <-> is_Some (getAttentionReason channel).
Proof. unfold channelNeedsAttention, getAttentionReason. repeat case_match; split; try done; by intros [? ?]. Qed.

(** The type menu offers every channel type except the unknown one, exactly
    once, each with its own label. *)
Lemma type_options_complete :
  NoDup CHANNEL_TYPE_OPTIONS.*1 /\
  CHANNEL_TYPE_OPTIONS ≡ₚ List.filter (fun p => negb (p.1 =? 0)%Z) CHANNEL_TYPES.
Proof.
  split.
  - apply (bool_decide_eq_true (NoDup _)). vm_compute. reflexivity.
  - apply (bool_decide_eq_true (_ ≡ₚ _)). vm_compute. reflexivity.
Qed.
