(* ===== verification/ChannelForm.v ===== *)
(** * The channel form: [features/channels/lib/channel-form.ts]

    The form's values, the two JSON texts a channel keeps ([setting] and
    [settings]), and the payloads of the create and update requests. *)
From S2P Require Import Prelude Numbers Json JsonRoundtrip ModelMapping.

(** ** Data *)

(** A form value may be missing ([None]); values read from JSON keep whatever
    type they had. *)
Record ChannelFormValues := MkForm {
  f_name : jstr;
  f_type : Z;
  f_base_url : option jstr;
  f_key : jstr;
  f_openai_organization : option jstr;
  f_models : jstr;
  f_group : list jstr;
  f_model_mapping : option jstr;
  f_priority : option number;
  f_weight : option number;
  f_test_model : option jstr;
  f_auto_ban : option number;
  f_status : number;
  f_status_code_mapping : option jstr;
  f_tag : option jstr;
  f_remark : option jstr;
  f_setting : option jstr;
  f_param_override : option jstr;
  f_header_override : option jstr;
  f_settings : option jstr;
  f_other : option jstr;
  f_multi_key_mode : option jstr;
  f_multi_key_type : option jstr;
  f_batch_add_set_key_prefix_2_name : option bool;
  f_key_mode : option jstr;
  f_force_format : option json;
  f_thinking_to_content : option json;
  f_proxy : option json;
  f_pass_through_body_enabled : option json;
  f_system_prompt : option json;
  f_system_prompt_override : option json;
  f_is_enterprise_account : option json;
  f_vertex_key_type : option json;
  f_aws_key_type : option json;
  f_azure_responses_version : option json;
  f_allow_service_tier : option json;
  f_disable_store : option json;
  f_allow_safety_identifier : option json;
  f_allow_include_obfuscation : option json;
  f_allow_inference_geo : option json;
  f_allow_speed : option json;
  f_claude_beta_query : option json;
  f_check_enabled : option json;
  f_auto_sync_enabled : option json;
  f_ignored_models : option jstr
}.

(** A channel as the server returns it, the fields the form reads. *)
Record ApiChannel := MkApi {
  a_name : jstr;
  a_type : Z;
  a_base_url : option jstr;
  a_openai_organization : option jstr;
  a_models : jstr;
  a_group : jstr;
  a_model_mapping : option jstr;
  a_priority : option number;
  a_weight : option number;
  a_test_model : option jstr;
  a_auto_ban : option number;
  a_status : number;
  a_status_code_mapping : option jstr;
  a_tag : option jstr;
  a_remark : jstr;
  a_setting : option jstr;
  a_param_override : option jstr;
  a_header_override : option jstr;
  a_settings : jstr;
  a_other : jstr;
  a_multi_key_mode : jstr
}.

(** ** JavaScript helpers *)

(** [v.k] on a parsed value: null has no properties and throws. *)
Definition prop (k : jstr) (v : json) : outcome (option json) :=
  match v with
  | JNull => Throw
  | JObj o => Ret (obj_get k o)
  | _ => Ret None
  end.

(** [v || d]. *)
Definition or_json (v : option json) (d : json) : json :=
  match v with Some w => if json_truthy w then w else d | None => d end.

(** [v === true]. *)
Definition is_true (v : option json) : bool := match v with Some (JBool true) => true | _ => false end.

(** [s || null]. *)
Definition or_null (s : option jstr) : json := match opt_str_or s [] with [] => JNull | w => JStr w end.

(** [n || null]. *)
Definition num_or_null (x : option number) : json :=
  match x with Some v => if num_truthy v then JNum v else JNull | None => JNull end.

Definition parseGroups (groups : jstr) : list jstr := if truthy groups then comma_list groups else [].
Definition parseModels (models : jstr) : list jstr := if truthy models then comma_list models else [].
Definition formatGroups (groups : list jstr) : jstr := join (js ",") groups.
Definition formatModels (models : list jstr) : jstr := join (js ",") models.

(** ** Reading a channel *)

(** The six extra settings, in the order of the object literal. *)
Definition extra_defaults : list (jstr * json) :=
  [(js "force_format", JBool false); (js "thinking_to_content", JBool false); (js "proxy", JStr []);
   (js "pass_through_body_enabled", JBool false); (js "system_prompt", JStr []);
   (js "system_prompt_override", JBool false)].

(** [parsed.k || default] for each of them. *)
Fixpoint read_extras (parsed : json) (keys : list (jstr * json)) : outcome (list (jstr * json)) :=
  match keys with
  | [] => Ret []
  | (k, d) :: keys' =>
      let! v := prop k parsed in
      let! rest := read_extras parsed keys' in
      Ret ((k, or_json v d) :: rest)
  end.

Definition read_setting (setting : option jstr) : list (jstr * json) :=
  match setting with
  | None | Some [] => extra_defaults
  | Some s => try_catch (let! parsed := JSON_parse s in read_extras parsed extra_defaults) extra_defaults
  end.

(** What the form reads from the [settings] text. *)
Record SettingsView := MkView {
  w_vertex : json;
  w_azure : json;
  w_enterprise : bool;
  w_aws : json;
  w_service_tier : bool;
  w_disable_store : bool;
  w_safety : bool;
  w_obfuscation : bool;
  w_geo : bool;
  w_speed : bool;
  w_beta : bool;
  w_check : bool;
  w_sync : bool;
  w_ignored : jstr
}.

Definition view_defaults : SettingsView :=
  MkView (JStr (js "json")) (JStr []) false (JStr (js "ak_sk")) false false false false false false false false false [].

(** [Array.isArray(v) ? v.join(',') : '']. *)
Definition join_models (v : option json) : jstr :=
  match v with
  | Some (JArr l) => join (js ",") (List.map (fun w => match w with JNull => [] | _ => json_String w end) l)
  | _ => []
  end.

Definition read_view (get : jstr -> option json) : SettingsView :=
  MkView (or_json (get (js "vertex_key_type")) (JStr (js "json")))
         (or_json (get (js "azure_responses_version")) (JStr []))
         (is_true (get (js "openrouter_enterprise")))
         (or_json (get (js "aws_key_type")) (JStr (js "ak_sk")))
         (is_true (get (js "allow_service_tier")))
         (is_true (get (js "disable_store")))
         (is_true (get (js "allow_safety_identifier")))
         (is_true (get (js "allow_include_obfuscation")))
         (is_true (get (js "allow_inference_geo")))
         (is_true (get (js "allow_speed")))
         (is_true (get (js "claude_beta_query")))
         (is_true (get (js "upstream_model_update_check_enabled")))
         (is_true (get (js "upstream_model_update_auto_sync_enabled")))
         (join_models (get (js "upstream_model_update_ignored_models"))).

(** The first property access of a null throws, before anything was read. *)
Definition read_settings (settings : jstr) : SettingsView :=
  match settings with
  | [] => view_defaults
  | _ =>
      match JSON_parse settings with
      | Ret JNull | Throw => view_defaults
      | Ret (JObj o) => read_view (fun k => obj_get k o)
      | Ret _ => read_view (fun _ => None)
      end
  end.

Definition or_empty (s : option jstr) : option jstr := Some (opt_str_or s []).
Definition or_zero (x : option number) : option number :=
  Some (match x with Some v => num_or v zero | None => zero end).

Definition transformChannelToFormDefaults (channel : ApiChannel) : ChannelFormValues :=
  let extra k := obj_get k (read_setting (a_setting channel)) in
  let w := read_settings (a_settings channel) in
  let flag b := Some (JBool b) in
  MkForm (a_name channel) (a_type channel) (or_empty (a_base_url channel)) []
    (or_empty (a_openai_organization channel)) (a_models channel)
    (parseGroups (str_or (a_group channel) (js "default"))) (or_empty (a_model_mapping channel))
    (or_zero (a_priority channel)) (or_zero (a_weight channel)) (or_empty (a_test_model channel))
    (Some (default (num_of_Z 1) (a_auto_ban channel))) (a_status channel)
    (or_empty (a_status_code_mapping channel)) (or_empty (a_tag channel)) (Some (a_remark channel))
    (or_empty (a_setting channel)) (or_empty (a_param_override channel)) (or_empty (a_header_override channel))
    (Some (str_or (a_settings channel) (js "{}"))) (Some (a_other channel))
    (Some (js "single")) (Some (str_or (a_multi_key_mode channel) (js "random"))) (Some false) (Some (js "append"))
    (extra (js "force_format")) (extra (js "thinking_to_content")) (extra (js "proxy"))
    (extra (js "pass_through_body_enabled")) (extra (js "system_prompt")) (extra (js "system_prompt_override"))
    (flag (w_enterprise w)) (Some (w_vertex w)) (Some (w_aws w)) (Some (w_azure w))
    (flag (w_service_tier w)) (flag (w_disable_store w)) (flag (w_safety w)) (flag (w_obfuscation w))
    (flag (w_geo w)) (flag (w_speed w)) (flag (w_beta w)) (flag (w_check w)) (flag (w_sync w)) (Some (w_ignored w)).

(** ** Writing the two texts *)

Definition setting_object (f : ChannelFormValues) : list (jstr * json) :=
  [(js "force_format", or_json (f_force_format f) (JBool false));
   (js "thinking_to_content", or_json (f_thinking_to_content f) (JBool false));
   (js "proxy", or_json (f_proxy f) (JStr []));
   (js "pass_through_body_enabled", or_json (f_pass_through_body_enabled f) (JBool false));
   (js "system_prompt", or_json (f_system_prompt f) (JStr []));
   (js "system_prompt_override", or_json (f_system_prompt_override f) (JBool false))].

Definition buildSettingJSON (f : ChannelFormValues) : jstr := JSON_stringify (JObj (setting_object f)).

Definition MODEL_FETCHABLE_TYPES : list Z :=
  [1; 4; 14; 17; 20; 23; 24; 25; 26; 27; 31; 34; 35; 40; 42; 43; 47; 48]%Z.

(** [if (cond) o[k] = v else if (k in o) delete o[k]]. *)
Definition put_or_drop (cond : bool) (k : jstr) (v : json) (o : list (jstr * json)) : list (jstr * json) :=
  if cond then obj_set k v o else obj_delete k o.

Definition flag_of (v : option json) : json := JBool (is_true v).

(** The array of ignored models. *)
Definition ignored_array (f : ChannelFormValues) : json :=
  JArr (List.map JStr (dedup (comma_list (opt_str_or (f_ignored_models f) [])))).

(** The type-specific keys in the order the code treats them: when each one is
    kept, and its value.  For Anthropic (14) the code leaves
    [allow_inference_geo] alone and sets it in the next statement, which is the
    same as setting it in its place. *)
Definition type_puts (f : ChannelFormValues) : list (bool * jstr * json) :=
  let t := f_type f in
  let azure := or_json (f_azure_responses_version f) (JStr []) in
  [((t =? 41)%Z, js "vertex_key_type", or_json (f_vertex_key_type f) (JStr (js "json")));
   ((t =? 3)%Z && json_truthy azure, js "azure_responses_version", azure);
   ((t =? 20)%Z, js "openrouter_enterprise", flag_of (f_is_enterprise_account f));
   ((t =? 33)%Z, js "aws_key_type", or_json (f_aws_key_type f) (JStr (js "ak_sk")));
   (((t =? 1) || (t =? 14))%Z, js "allow_service_tier", flag_of (f_allow_service_tier f));
   ((t =? 1)%Z, js "disable_store", flag_of (f_disable_store f));
   ((t =? 1)%Z, js "allow_safety_identifier", flag_of (f_allow_safety_identifier f));
   ((t =? 1)%Z, js "allow_include_obfuscation", flag_of (f_allow_include_obfuscation f));
   (((t =? 1) || (t =? 14))%Z, js "allow_inference_geo", flag_of (f_allow_inference_geo f));
   ((t =? 14)%Z, js "allow_speed", flag_of (f_allow_speed f));
   ((t =? 14)%Z, js "claude_beta_query", flag_of (f_claude_beta_query f))].

Definition apply_puts (puts : list (bool * jstr * json)) (o : list (jstr * json)) : list (jstr * json) :=
  foldl (fun o p => put_or_drop p.1.1 p.1.2 p.2 o) o puts.

Definition apply_type_settings (f : ChannelFormValues) (o : list (jstr * json)) : list (jstr * json) :=
  apply_puts (type_puts f) o.

(** The upstream update keys of the types whose models can be fetched. *)
Definition apply_update_settings (f : ChannelFormValues) (o : list (jstr * json)) : list (jstr * json) :=
  if negb (mem (f_type f) MODEL_FETCHABLE_TYPES) then o
  else
    let check := is_true (f_check_enabled f) in
    let o := obj_set (js "upstream_model_update_check_enabled") (JBool check) o in
    let o := obj_set (js "upstream_model_update_auto_sync_enabled") (JBool (check && is_true (f_auto_sync_enabled f))) o in
    let o := obj_set (js "upstream_model_update_ignored_models") (ignored_array f) o in
    let detected := js "upstream_model_update_last_detected_models" in
    let o := if match obj_get detected o with Some (JArr _) => negb check | _ => true end
             then obj_set detected (JArr []) o else o in
    let time := js "upstream_model_update_last_check_time" in
    match obj_get time o with Some (JNum _) => o | _ => obj_set time (JNum zero) o end.

Definition apply_settings (f : ChannelFormValues) (o : list (jstr * json)) : list (jstr * json) :=
  apply_update_settings f (apply_type_settings f o).

(** The object the text already holds.  A text that parses to null or to a
    primitive makes the first assignment or [in] test throw; on an array the
    named properties are set but not written out. *)
Definition buildSettingsJSON (f : ChannelFormValues) : outcome jstr :=
  let fresh := JSON_stringify (JObj (apply_settings f [])) in
  match f_settings f with
  | None | Some [] => Ret fresh
  | Some s =>
      if s === js "{}" then Ret fresh
      else match JSON_parse s with
           | Throw => Ret fresh
           | Ret (JObj o) => Ret (JSON_stringify (JObj (apply_settings f o)))
           | Ret (JArr l) => Ret (JSON_stringify (JArr l))
           | Ret _ => Throw
           end
  end.

(** ** Payloads *)

(** Empty strings become null. *)
Definition clean_nulls (o : list (jstr * json)) : list (jstr * json) :=
  List.map (fun p => (p.1, match p.2 with JStr [] => JNull | v => v end)) o.

(** The fields both payloads share, before and after the key. *)
Definition payload_tail (f : ChannelFormValues) (settings : jstr) : list (jstr * json) :=
  [(js "openai_organization", or_null (f_openai_organization f));
   (js "models", JStr (f_models f));
   (js "group", JStr (formatGroups (f_group f)));
   (js "model_mapping", or_null (f_model_mapping f));
   (js "priority", num_or_null (f_priority f));
   (js "weight", num_or_null (f_weight f));
   (js "test_model", or_null (f_test_model f));
   (js "auto_ban", JNum (default (num_of_Z 1) (f_auto_ban f)));
   (js "status", JNum (f_status f));
   (js "status_code_mapping", or_null (f_status_code_mapping f));
   (js "tag", or_null (f_tag f));
   (js "remark", JStr (opt_str_or (f_remark f) []));
   (js "setting", JStr (buildSettingJSON f));
   (js "param_override", or_null (f_param_override f));
   (js "header_override", or_null (f_header_override f));
   (js "settings", JStr settings);
   (js "other", JStr (opt_str_or (f_other f) []))].

Record CreatePayload := MkCreate {
  c_mode : jstr;
  c_multi_key_mode : option jstr;
  c_batch_prefix : option bool;
  c_channel : list (jstr * json)
}.

Definition transformFormDataToCreatePayload (f : ChannelFormValues) : outcome CreatePayload :=
  let mode := opt_str_or (f_multi_key_mode f) (js "single") in
  let! settings := buildSettingsJSON f in
  let channel :=
    [(js "name", JStr (f_name f)); (js "type", JNum (num_of_Z (f_type f)));
     (js "base_url", or_null (f_base_url f)); (js "key", JStr (f_key f))] ++ payload_tail f settings in
  Ret (MkCreate mode
         (if mode === js "multi_to_single" then f_multi_key_type f else None)
         (if mode === js "batch" then f_batch_add_set_key_prefix_2_name f else None)
         (clean_nulls channel)).

Definition transformFormDataToUpdatePayload (f : ChannelFormValues) (channelId : Z) : outcome (list (jstr * json)) :=
  let! settings := buildSettingsJSON f in
  let payload :=
    [(js "id", JNum (num_of_Z channelId)); (js "name", JStr (f_name f)); (js "type", JNum (num_of_Z (f_type f)));
     (js "base_url", or_null (f_base_url f))] ++ payload_tail f settings in
  let payload := if truthy (f_key f) && truthy (trim (f_key f)) then obj_set (js "key") (JStr (f_key f)) payload else payload in
  let payload := clean_nulls payload in
  let put k v o := obj_set k (JStr (opt_str_or v [])) o in
  Ret (put (js "header_override") (f_header_override f)
      (put (js "param_override") (f_param_override f)
      (put (js "status_code_mapping") (f_status_code_mapping f)
      (put (js "model_mapping") (f_model_mapping f) payload)))).

Definition validateJSON (value : jstr) : bool :=
  if negb (truthy value) || (trim value === []) then true
  else match JSON_parse value with Ret _ => true | Throw => false end.

Definition validateModelMapping (value : jstr) : bool :=
  if negb (truthy value) || (trim value === []) then true else validateJSON value.

Definition CHANNEL_FORM_DEFAULT_VALUES : ChannelFormValues :=
  let e := Some [] in
  let no := Some (JBool false) in
  MkForm [] 1 e [] e [] [js "default"] e (Some zero) (Some zero) e (Some (num_of_Z 1)) (num_of_Z 1) e e e e e e
    (Some (js "{}")) e (Some (js "single")) (Some (js "random")) (Some false) (Some (js "append"))
    no no (Some (JStr [])) no (Some (JStr [])) no no (Some (JStr (js "json"))) (Some (JStr (js "ak_sk"))) (Some (JStr []))
    no no no no no no no no no (Some []).

(** ** Theorems *)

Lemma get_put_eq c k v o : obj_get k (put_or_drop c k v o) = if c then Some v else None.
Proof. unfold put_or_drop. destruct c; [apply obj_get_set_eq|apply obj_get_delete_eq]. Qed.

Lemma get_put_ne c k j v o : k <> j -> obj_get k (put_or_drop c j v o) = obj_get k o.
Proof. intros H. unfold put_or_drop. destruct c; [by apply obj_get_set_ne|by apply obj_get_delete_ne]. Qed.

Definition put_key (p : bool * jstr * json) : jstr := p.1.2.

Lemma apply_puts_cons p puts o :
  apply_puts (p :: puts) o = apply_puts puts (put_or_drop p.1.1 p.1.2 p.2 o).
Proof. done. Qed.

Lemma get_puts_other puts o k : k ∉ List.map put_key puts -> obj_get k (apply_puts puts o) = obj_get k o.
Proof.
  revert o. induction puts as [|p puts IH]; intros o H; [done|]. cbn [List.map] in H.
  apply not_elem_of_cons in H as [H1 H2]. by rewrite apply_puts_cons, IH, get_put_ne.
Qed.

Lemma get_puts puts o (c : bool) (k : jstr) (v : json) :
  NoDup (List.map put_key puts) -> (c, k, v) ∈ puts ->
  obj_get k (apply_puts puts o) = if c then Some v else None.
Proof.
  revert o. induction puts as [|p puts IH]; intros o Hnd Hin; [set_solver|]. cbn [List.map] in Hnd.
  apply NoDup_cons in Hnd as [Hnin Hnd]. rewrite apply_puts_cons.
  apply elem_of_cons in Hin as [<-|Hin]; [|by apply IH].
  rewrite get_puts_other by done. apply get_put_eq.
Qed.

Definition TYPE_KEYS : list jstr :=
  [js "vertex_key_type"; js "azure_responses_version"; js "openrouter_enterprise"; js "aws_key_type";
   js "allow_service_tier"; js "disable_store"; js "allow_safety_identifier"; js "allow_include_obfuscation";
   js "allow_inference_geo"; js "allow_speed"; js "claude_beta_query"].

Definition UPDATE_KEYS : list jstr :=
  [js "upstream_model_update_check_enabled"; js "upstream_model_update_auto_sync_enabled";
   js "upstream_model_update_ignored_models"; js "upstream_model_update_last_detected_models";
   js "upstream_model_update_last_check_time"].

Lemma type_put_keys f : List.map put_key (type_puts f) = TYPE_KEYS.
Proof. done. Qed.

Lemma get_type_other f o k : k ∉ TYPE_KEYS -> obj_get k (apply_type_settings f o) = obj_get k o.
Proof. rewrite <-(type_put_keys f). apply get_puts_other. Qed.

Lemma type_keys_nodup : NoDup TYPE_KEYS.
Proof. apply (bool_decide_eq_true (NoDup _)). vm_compute. reflexivity. Qed.

Lemma get_update_other f o k : k ∉ UPDATE_KEYS -> obj_get k (apply_update_settings f o) = obj_get k o.
Proof.
  intros H. unfold UPDATE_KEYS in H. rewrite !not_elem_of_cons in H. destruct H as (? & ? & ? & ? & ? & _).
  unfold apply_update_settings. destruct (negb _); [done|].
  match goal with |- obj_get k (match ?g with _ => _ end) = _ => destruct g as [[]|] end;
    rewrite ?obj_get_set_ne by done; match goal with |- context [if ?b then _ else _] => destruct b end;
    by rewrite ?obj_get_set_ne by done.
Qed.

(** The object the form's [settings] text stands for: a fresh one when there is no
    text or it does not parse; none when it parses to something else. *)
Definition base_object (f : ChannelFormValues) : option (list (jstr * json)) :=
  match f_settings f with
  | None | Some [] => Some []
  | Some s =>
      if s === js "{}" then Some []
      else match JSON_parse s with Throw => Some [] | Ret (JObj o) => Some o | Ret _ => None end
  end.

Lemma build_base f o :
  base_object f = Some o -> buildSettingsJSON f = Ret (JSON_stringify (JObj (apply_settings f o))).
Proof.
  unfold base_object, buildSettingsJSON. destruct (f_settings f) as [[|c s]|]; [by intros [= <-]| |by intros [= <-]].
  destruct (_ === _); [by intros [= <-]|]. destruct (JSON_parse _) as [[]|]; by intros [= <-].
Qed.

(** Saving a channel keeps every key of its settings text that the form does
    not manage, whatever the channel's type: the new text holds for such a key
    what the old one held. *)
Lemma unmanaged_settings_kept f o k :
  base_object f = Some o -> k ∉ TYPE_KEYS ++ UPDATE_KEYS ->
  exists o', buildSettingsJSON f = Ret (JSON_stringify (JObj o')) /\ obj_get k o' = obj_get k o.
Proof.
  intros Hb Hk. exists (apply_settings f o). split; [by apply build_base|].
  apply not_elem_of_app in Hk as [H1 H2]. unfold apply_settings.
  rewrite get_update_other by exact H2. by apply get_type_other.
Qed.

(** *** The object stays well formed *)

Lemma obj_ok_put c k v o :
  is_index k = false -> utf16 k -> json_ok v -> obj_ok o -> obj_ok (put_or_drop c k v o).
Proof. intros. unfold put_or_drop. destruct c; [by apply obj_ok_set|by apply obj_ok_delete]. Qed.

(** The values of the form that go into the text. *)
Definition opt_ok (v : option json) : Prop := match v with Some w => json_ok w | None => True end.

Record form_ok (f : ChannelFormValues) : Prop := MkFormOk {
  ok_vertex : opt_ok (f_vertex_key_type f);
  ok_aws : opt_ok (f_aws_key_type f);
  ok_azure : opt_ok (f_azure_responses_version f);
  ok_ignored : utf16 (opt_str_or (f_ignored_models f) [])
}.

Lemma or_json_ok v d : opt_ok v -> json_ok d -> json_ok (or_json v d).
Proof. destruct v as [w|]; simpl; [|done]. intros Hw Hd. by destruct (json_truthy w). Qed.

Lemma ignored_ok f : utf16 (opt_str_or (f_ignored_models f) []) -> json_ok (ignored_array f).
Proof.
  intros H. unfold ignored_array. apply json_ok_arr. apply Forall_forall.
  intros v Hv. apply list_elem_of_In, in_map_iff in Hv as (m & <- & Hm). apply list_elem_of_In in Hm.
  apply elem_of_dedup, elem_of_lfilter in Hm as [Hm _]. apply list_elem_of_In, in_map_iff in Hm as (w & <- & Hw).
  apply trim_utf16. pose proof (split_utf16 44 _ H) as Hs. rewrite Forall_forall in Hs. by apply Hs, list_elem_of_In.
Qed.

Lemma puts_ok puts o :
  Forall (fun p => is_index (put_key p) = false /\ utf16 (put_key p) /\ json_ok p.2) puts ->
  obj_ok o -> obj_ok (apply_puts puts o).
Proof.
  intros H. revert o. induction H as [|p puts (H1 & H2 & H3) _ IH]; intros o Ho; [done|].
  rewrite apply_puts_cons. apply IH. by apply obj_ok_put.
Qed.

Lemma literal_keys_ok ks :
  forallb (fun k => negb (is_index k) && utf16b k) ks = true ->
  Forall (fun k => is_index k = false /\ utf16 k) ks.
Proof.
  rewrite forallb_forall. intros H. apply Forall_forall. intros k Hk%list_elem_of_In. specialize (H k Hk). bools.
  split; [done|]. by apply utf16b_spec.
Qed.

Lemma managed_keys_ok : Forall (fun k => is_index k = false /\ utf16 k) (TYPE_KEYS ++ UPDATE_KEYS).
Proof. apply literal_keys_ok. vm_compute. reflexivity. Qed.

Lemma type_settings_ok f o : form_ok f -> obj_ok o -> obj_ok (apply_type_settings f o).
Proof.
  intros [Hv Hw Ha _] Ho. apply puts_ok; [|done].
  assert (Forall (fun p : bool * jstr * json => json_ok p.2) (type_puts f)) as Hj.
  { repeat (apply Forall_cons; split; [cbn [snd]; first [exact I | apply or_json_ok; [done|apply utf16b_spec; vm_compute; reflexivity]]|]). constructor. }
  pose proof managed_keys_ok as Hk. apply Forall_app in Hk as [Hk _]. rewrite <-(type_put_keys f) in Hk.
  apply Forall_forall. intros p Hp. rewrite Forall_forall in Hj. rewrite Forall_forall in Hk.
  destruct (Hk (put_key p)) as [H1 H2]; [by apply list_elem_of_In, in_map, list_elem_of_In|]. auto.
Qed.

Lemma update_settings_ok f o : form_ok f -> obj_ok o -> obj_ok (apply_update_settings f o).
Proof.
  intros [_ _ _ Hi] Ho. unfold apply_update_settings. destruct (negb _); [done|].
  pose proof managed_keys_ok as Hk. apply Forall_app in Hk as [_ Hk]. unfold UPDATE_KEYS in Hk.
  rewrite !Forall_cons in Hk. destruct Hk as ([] & [] & [] & [] & [] & _).
  assert (forall o, obj_ok o -> obj_ok (match obj_get (js "upstream_model_update_last_check_time") o with
    | Some (JNum _) => o
    | _ => obj_set (js "upstream_model_update_last_check_time") (JNum zero) o end)) as Ht.
  { intros o' Ho'. assert (obj_ok (obj_set (js "upstream_model_update_last_check_time") (JNum zero) o')) as Hz
      by (apply obj_ok_set; [assumption..|apply num_ok_zero|assumption]).
    destruct (obj_get _ o') as [[]|]; assumption. }
  apply Ht. clear Ht. pose proof (ignored_ok f Hi).
  match goal with |- obj_ok (if ?b then _ else _) => destruct b end;
    repeat (apply obj_ok_set; [assumption..|first [exact I|assumption]|]); assumption.
Qed.

Lemma apply_settings_ok f o : form_ok f -> obj_ok o -> json_ok (JObj (apply_settings f o)).
Proof. intros Hf Ho. apply obj_ok_json. by apply update_settings_ok, type_settings_ok. Qed.

(** Two different literal keys. *)
(** *** Reading back *)

(** What the form should show again: the values its type uses, and the defaults for those of other types.  The
    settings for the upstream's models are those of the form where the type can fetch models; for the other types they
    are what the form showed for the old text. *)
Definition expected_view (f : ChannelFormValues) : SettingsView :=
  let t := f_type f in
  let fetchable := mem t [1; 4; 14; 17; 20; 23; 24; 25; 26; 27; 31; 34; 35; 40; 42; 43; 47; 48]%Z in
  let old := read_settings (default [] (f_settings f)) in
  MkView (if (t =? 41)%Z then or_json (f_vertex_key_type f) (JStr (js "json")) else JStr (js "json"))
         (if (t =? 3)%Z then or_json (f_azure_responses_version f) (JStr []) else JStr [])
         ((t =? 20)%Z && is_true (f_is_enterprise_account f))
         (if (t =? 33)%Z then or_json (f_aws_key_type f) (JStr (js "ak_sk")) else JStr (js "ak_sk"))
         (((t =? 1) || (t =? 14))%Z && is_true (f_allow_service_tier f))
         ((t =? 1)%Z && is_true (f_disable_store f))
         ((t =? 1)%Z && is_true (f_allow_safety_identifier f))
         ((t =? 1)%Z && is_true (f_allow_include_obfuscation f))
         (((t =? 1) || (t =? 14))%Z && is_true (f_allow_inference_geo f))
         ((t =? 14)%Z && is_true (f_allow_speed f))
         ((t =? 14)%Z && is_true (f_claude_beta_query f))
         (if fetchable then is_true (f_check_enabled f) else w_check old)
         (if fetchable then is_true (f_check_enabled f) && is_true (f_auto_sync_enabled f) else w_sync old)
         (if fetchable then join (js ",") (dedup (List.filter truthy (List.map trim (split_char 44 (default [] (f_ignored_models f))))))
          else w_ignored old).

(** What the form showed for the old text. *)
Lemma old_view f o : base_object f = Some o -> read_settings (default [] (f_settings f)) = read_view (fun k => obj_get k o).
Proof.
  unfold base_object, read_settings. destruct (f_settings f) as [[|c s]|]; cbn [default from_option id]; [by intros [= <-]| |by intros [= <-]].
  destruct (c :: s === js "{}") eqn:E; [rewrite js_eqb_true in E; rewrite E; by intros [= <-]|].
  destruct (JSON_parse (c :: s)) as [[]|]; by intros [= <-].
Qed.


Lemma type_get f o (c : bool) (k : jstr) (v : json) :
  (c, k, v) ∈ type_puts f -> k ∉ UPDATE_KEYS ->
  obj_get k (apply_settings f o) = if c then Some v else None.
Proof.
  intros Hin Hk. unfold apply_settings. rewrite get_update_other by exact Hk.
  apply get_puts; [rewrite type_put_keys; apply type_keys_nodup|exact Hin].
Qed.

Lemma or_json_fix v d : or_json (Some (or_json v d)) d = or_json v d.
Proof. destruct v as [w|]; simpl; [destruct (json_truthy w) eqn:E; rewrite ?E|]; try done; by destruct (json_truthy d). Qed.

Lemma is_true_flag v : is_true (Some (flag_of v)) = is_true v.
Proof. unfold flag_of. by destruct (is_true v). Qed.

Lemma update_get_flag f o k b :
  k ∈ [js "upstream_model_update_check_enabled"; js "upstream_model_update_auto_sync_enabled"] ->
  mem (f_type f) MODEL_FETCHABLE_TYPES = b ->
  is_true (obj_get k (apply_settings f o)) =
  if b then (if k === js "upstream_model_update_check_enabled" then is_true (f_check_enabled f)
             else is_true (f_check_enabled f) && is_true (f_auto_sync_enabled f))
  else is_true (obj_get k o).
Proof.
  intros Hk Hb. unfold apply_settings, apply_update_settings. rewrite Hb. destruct b; cbn [negb].
  - assert (forall o', is_true (obj_get k (match obj_get (js "upstream_model_update_last_check_time") o' with
      | Some (JNum _) => o' | _ => obj_set (js "upstream_model_update_last_check_time") (JNum zero) o' end)) =
      is_true (obj_get k o')) as ->.
    { intros o'. apply list_elem_of_In in Hk.
      destruct Hk as [<-|[<-|[]]]; destruct (obj_get (js "upstream_model_update_last_check_time") o') as [[]|];
        rewrite ?obj_get_set_ne by keys_ne; reflexivity. }
    apply list_elem_of_In in Hk. destruct Hk as [<-|[<-|[]]];
      (match goal with |- context [if ?b then obj_set (js "upstream_model_update_last_detected_models") _ _ else _] => destruct b end);
      rewrite ?obj_get_set_ne, ?obj_get_set_eq by keys_ne; rewrite ?obj_get_set_ne, ?obj_get_set_eq by keys_ne;
      cbn [is_true]; [rewrite js_eqb_refl|rewrite js_eqb_refl|rewrite js_eqb_ne by keys_ne|rewrite js_eqb_ne by keys_ne];
      by destruct (is_true (f_check_enabled f)), (is_true (f_auto_sync_enabled f)).
  - rewrite get_type_other; [done|]. apply list_elem_of_In in Hk.
    destruct Hk as [<-|[<-|[]]]; apply (bool_decide_eq_true (_ ∉ _)); vm_compute; reflexivity.
Qed.

Lemma update_get_ignored f o :
  join_models (obj_get (js "upstream_model_update_ignored_models") (apply_settings f o)) =
  if mem (f_type f) MODEL_FETCHABLE_TYPES then join (js ",") (dedup (comma_list (opt_str_or (f_ignored_models f) [])))
  else join_models (obj_get (js "upstream_model_update_ignored_models") o).
Proof.
  unfold apply_settings, apply_update_settings. destruct (mem _ _); cbn [negb].
  - match goal with |- context [match obj_get ?t ?o' with Some _ => _ | None => _ end] =>
      transitivity (join_models (obj_get (js "upstream_model_update_ignored_models") o')) end.
    { match goal with |- context [match ?g with Some _ => _ | None => _ end] => destruct g as [[]|] end;
        rewrite ?obj_get_set_ne by keys_ne; reflexivity. }
    match goal with |- context [if ?b then obj_set _ _ _ else _] => destruct b end;
      rewrite ?obj_get_set_ne by keys_ne; rewrite obj_get_set_eq; unfold ignored_array, join_models;
      rewrite map_map; cbn; by rewrite map_id.
  - rewrite get_type_other; [done|]. apply (bool_decide_eq_true (_ ∉ _)); vm_compute; reflexivity.
Qed.

Lemma stringify_not_nil v : json_ok v -> JSON_stringify v <> [].
Proof. by apply write_not_nil. Qed.

Lemma read_settings_stringify o :
  json_ok (JObj o) -> read_settings (JSON_stringify (JObj o)) = read_view (fun k => obj_get k o).
Proof.
  intros H. pose proof (stringify_not_nil _ H) as Hne. pose proof (parse_stringify _ H) as Hp.
  unfold read_settings. destruct (JSON_stringify (JObj o)); [done|]. by rewrite Hp.
Qed.

(** A key of [TYPE_KEYS] in place [n] of the list. *)
Lemma type_get_nth f o (n : nat) (c : bool) (k : jstr) (v : json) :
  type_puts f !! n = Some (c, k, v) -> bool_decide (k ∉ UPDATE_KEYS) = true ->
  obj_get k (apply_settings f o) = if c then Some v else None.
Proof. intros Hn Hk%bool_decide_eq_true. apply type_get; [by eapply list_elem_of_lookup_2|done]. Qed.

Ltac type_key n := rewrite (type_get_nth _ _ n _ _ _ eq_refl eq_refl).

Lemma view_applied f o : base_object f = Some o -> read_view (fun k => obj_get k (apply_settings f o)) = expected_view f.
Proof.
  intros Hb%old_view. unfold expected_view. rewrite Hb. unfold read_view at 1. rewrite update_get_ignored.
  rewrite (update_get_flag f o (js "upstream_model_update_check_enabled") _ ltac:(left) eq_refl).
  rewrite (update_get_flag f o (js "upstream_model_update_auto_sync_enabled") _ ltac:(right; left) eq_refl).
  rewrite js_eqb_refl, js_eqb_ne by keys_ne.
  type_key 0; type_key 1; type_key 2; type_key 3; type_key 4; type_key 5; type_key 6; type_key 7; type_key 8; type_key 9; type_key 10.
  unfold MODEL_FETCHABLE_TYPES. f_equal;
    repeat match goal with |- context [if ?b then _ else _] => destruct b eqn:? end; rewrite ?or_json_fix, ?is_true_flag; try done.
  - apply andb_false_iff in Heqb as [|Ht]; [done|]. destruct (f_azure_responses_version f) as [w|]; [|done].
    simpl in *. by destruct (json_truthy w) eqn:E; [rewrite E in Ht|].
  - by destruct (f_ignored_models f) as [[]|].
Qed.

(** C38: what is saved in the settings text is what the form shows when the channel is opened again, for a form whose
    old settings text is an object, is no JSON or is missing: every setting of the channel's type comes back as it was in the form
    (a blank key type as its default, a flag that is not set as off), and settings of other types as their
    defaults.  For the types whose models can be fetched the update check comes back, automatic sync comes back only with the
    check, and the ignored models come back trimmed, without blank ones and each once, in their order; for
    the other types these three are not written, and come back as the form showed them for
    the old text, whatever was changed in the form. *)
Theorem settings_read_back f o :
  form_ok f -> base_object f = Some o -> obj_ok o ->
  exists t, buildSettingsJSON f = Ret t /\ read_settings t = expected_view f.
Proof.
  intros Hf Hb Ho. exists (JSON_stringify (JObj (apply_settings f o))). split; [by apply build_base|].
  rewrite read_settings_stringify by by apply apply_settings_ok. by apply view_applied.
Qed.

(** A Vertex channel whose settings text has a key of a newer server version. *)
Definition sample_form : ChannelFormValues :=
  transformChannelToFormDefaults
    (MkApi (js "vertex") 41 None None (js "gemini") (js "default") None (Some (num_of_Z 5)) None None None (num_of_Z 1)
       None None [] None None None (JSON_stringify (JObj [(js "x", JStr (js "y"))])) [] []).

Lemma sample_form_base : base_object sample_form = Some [(js "x", JStr (js "y"))].
Proof. vm_compute. reflexivity. Qed.

Lemma unmanaged_settings_kept_witness :
  exists o', buildSettingsJSON sample_form = Ret (JSON_stringify (JObj o')) /\
             obj_get (js "x") o' = Some (JStr (js "y")).
Proof.
  destruct (unmanaged_settings_kept sample_form _ (js "x") sample_form_base) as (o' & H1 & H2).
  - apply (bool_decide_eq_true (_ ∉ _)). vm_compute. reflexivity.
  - exists o'. split; [exact H1|]. rewrite H2. vm_compute. reflexivity.
Defined.

Lemma sample_form_ok : form_ok sample_form.
Proof.
  assert (f_vertex_key_type sample_form = Some (JStr (js "json"))) as E1 by (vm_compute; reflexivity).
  assert (f_aws_key_type sample_form = Some (JStr (js "ak_sk"))) as E2 by (vm_compute; reflexivity).
  assert (f_azure_responses_version sample_form = Some (JStr [])) as E3 by (vm_compute; reflexivity).
  assert (opt_str_or (f_ignored_models sample_form) [] = []) as E4 by (vm_compute; reflexivity).
  apply MkFormOk; rewrite ?E1, ?E2, ?E3, ?E4; apply utf16b_spec; vm_compute; reflexivity.
Qed.

Lemma settings_read_back_witness :
  exists t, buildSettingsJSON sample_form = Ret t /\
            read_settings t = expected_view sample_form.
Proof.
  apply (settings_read_back sample_form [(js "x", JStr (js "y"))]); [exact sample_form_ok|exact sample_form_base|].
  apply (obj_ok_set (js "x") (JStr (js "y")) []); [reflexivity|apply utf16b_spec; vm_compute; reflexivity..|].
  split; constructor.
Defined.

(** *** The extra settings *)

Definition extras_ok (f : ChannelFormValues) : Prop :=
  Forall opt_ok [f_force_format f; f_thinking_to_content f; f_proxy f; f_pass_through_body_enabled f;
                 f_system_prompt f; f_system_prompt_override f].

Lemma setting_object_ok f : extras_ok f -> json_ok (JObj (setting_object f)).
Proof.
  unfold extras_ok. rewrite !Forall_cons. intros (H1 & H2 & H3 & H4 & H5 & H6 & _). apply json_ok_obj. split.
  - vm_compute. reflexivity.
  - unfold setting_object.
    repeat (apply Forall_cons; split; [split; [apply utf16b_spec; vm_compute; reflexivity|apply or_json_ok; [assumption|exact I || constructor]]|]).
    constructor.
Qed.

Lemma read_extras_object o ks :
  read_extras (JObj o) ks = Ret (List.map (fun p => (p.1, or_json (obj_get p.1 o) p.2)) ks).
Proof. induction ks as [|[k d] ks IH]; [done|]. cbn. by rewrite IH. Qed.

Lemma reread_setting f :
  List.map (fun p => (p.1, or_json (obj_get p.1 (setting_object f)) p.2)) extra_defaults = setting_object f.
Proof.
  transitivity (List.map (fun p => (p.1.1, or_json (Some (or_json p.1.2 p.2)) p.2))
    [((js "force_format", f_force_format f), JBool false); ((js "thinking_to_content", f_thinking_to_content f), JBool false);
     ((js "proxy", f_proxy f), JStr []); ((js "pass_through_body_enabled", f_pass_through_body_enabled f), JBool false);
     ((js "system_prompt", f_system_prompt f), JStr []); ((js "system_prompt_override", f_system_prompt_override f), JBool false)]).
  - vm_compute. reflexivity.
  - cbn [List.map fst snd]. rewrite !or_json_fix. reflexivity.
Qed.

(** The extra settings of a channel (format, thinking, proxy, body and system
    prompt) survive saving and opening: the form reads back from the text exactly
    the six values it wrote. *)
Lemma extra_settings_roundtrip f :
  extras_ok f -> read_setting (Some (buildSettingJSON f)) = setting_object f.
Proof.
  intros H. pose proof (setting_object_ok f H) as Hj. unfold buildSettingJSON, read_setting.
  pose proof (stringify_not_nil _ Hj) as Hne. pose proof (parse_stringify _ Hj) as Hp.
  destruct (JSON_stringify _); [done|]. rewrite Hp. cbn [obind try_catch]. rewrite read_extras_object. apply reread_setting.
Qed.

Lemma extra_settings_roundtrip_witness :
  read_setting (Some (buildSettingJSON sample_form)) = extra_defaults.
Proof.
  assert (setting_object sample_form = extra_defaults) as E by (vm_compute; reflexivity).
  rewrite <-E. apply extra_settings_roundtrip. unfold extras_ok.
  repeat (apply Forall_cons; split; [vm_compute; first [exact I | constructor]|]). constructor.
Defined.

(** *** Payloads *)

Lemma clean_nulls_get k o :
  obj_get k (clean_nulls o) = match obj_get k o with Some (JStr []) => Some JNull | v => v end.
Proof.
  induction o as [|[j v] o IH]; [done|]. cbn. unfold obj_get in *. cbn. destruct (_ === _); [|exact IH].
  by destruct v as [| | |[]| |].
Qed.

(** An update request carries the channel's key exactly when a non-blank one
    was typed, and then as typed: saving a form that was only opened never
    replaces the stored key. *)
Lemma update_key_only_typed f id p :
  transformFormDataToUpdatePayload f id = Ret p ->
  obj_get (js "key") p = if truthy (trim (f_key f)) then Some (JStr (f_key f)) else None.
Proof.
  unfold transformFormDataToUpdatePayload. destruct (buildSettingsJSON f) as [t|]; [|done]. cbn [obind]. intros [= <-].
  rewrite !obj_get_set_ne by keys_ne. rewrite clean_nulls_get.
  destruct (f_key f) as [|c k] eqn:E; [vm_compute; reflexivity|]. cbn [truthy andb].
  destruct (truthy (trim (c :: k))); [by rewrite obj_get_set_eq|vm_compute; reflexivity].
Qed.

Lemma update_key_only_typed_witness :
  exists p, transformFormDataToUpdatePayload sample_form 7 = Ret p /\ obj_get (js "key") p = None.
Proof.
  eexists. split; [vm_compute; reflexivity|].
  rewrite (update_key_only_typed sample_form 7); [vm_compute; reflexivity|vm_compute; reflexivity].
Defined.

(** A priority or weight of zero, and a cleared tag or address, is sent as null:
    the server's struct update skips null fields, so the stored value stays. *)
Lemma zero_sent_as_null f id p :
  transformFormDataToUpdatePayload f id = Ret p -> f_priority f = Some zero -> f_tag f = Some [] ->
  obj_get (js "priority") p = Some JNull /\ obj_get (js "tag") p = Some JNull.
Proof.
  unfold transformFormDataToUpdatePayload. destruct (buildSettingsJSON f) as [t|]; [|done]. cbn [obind].
  intros [= <-] Hp Ht. rewrite !obj_get_set_ne by keys_ne. rewrite !clean_nulls_get.
  unfold payload_tail. rewrite Hp, Ht. by destruct (_ && _); rewrite ?obj_get_set_ne by keys_ne.
Qed.

(** Saving fails with an exception when the settings text is valid JSON but not an
    object, which the form's own check of the text accepts. *)
Lemma primitive_settings_throw f :
  f_settings f = Some (js "null") -> validateJSON (js "null") = true /\ buildSettingsJSON f = Throw.
Proof. intros H. split; [vm_compute; reflexivity|]. unfold buildSettingsJSON. rewrite H. vm_compute. reflexivity. Qed.
