(* ===== verification/ParamOverride.v ===== *)
(** * Parameter override rules

    The rules a channel applies to a request before it is relayed, as the editor
    dialog reads, checks and writes them
    (features/channels/components/dialogs/param-override-editor-dialog.tsx): the
    operations and their conditions, the drafts of the two modes that have an
    editor of their own, validation, and the text that is saved.  The dialog's
    state is in [ParamEditor]. *)
From S2P Require Import Prelude Numbers Json JsonRoundtrip JsonPretty.

(** ** The language: exceptions, fresh identifiers and conversions *)

(** Code that makes identifiers threads the number of the next one; what was
    drawn before an exception stays drawn. *)
Definition gen (A : Type) : Type := N -> outcome A * N.

Definition gret {A} (a : A) : gen A := fun n => (Ret a, n).
Definition gbind {A B} (m : gen A) (k : A -> gen B) : gen B :=
  fun n => match m n with (Ret a, n') => k a n' | (Throw, n') => (Throw, n') end.
Definition glift {A} (m : outcome A) : gen A := fun n => (m, n).
(** [try m catch h]. *)
Definition gtry {A} (m h : gen A) : gen A :=
  fun n => match m n with (Ret a, n') => (Ret a, n') | (Throw, n') => h n' end.

Notation "'let*' x := m 'in' k" := (gbind m (fun x => k)) (at level 200, x pattern, right associativity) : js_scope.

Fixpoint gmapM {A B} (f : A -> gen B) (l : list A) : gen (list B) :=
  match l with
  | [] => gret []
  | x :: l' => let* y := f x in let* ys := gmapM f l' in gret (y :: ys)
  end.

(** [v || d] and [v ?? '']. *)
Definition or_else (v : option json) (d : json) : json :=
  match v with Some w => if json_truthy w then w else d | None => d end.
Definition nullish_empty (v : json) : json := match v with JNull => JStr [] | _ => v end.

(** A text for the user: its translation key and the rule it names. *)
Record message : Type := Msg { msg_key : jstr; msg_line : option nat }.

Inductive result (A : Type) : Type :=
| Ok (a : A)
| Err (m : message).
Arguments Ok {A} a.
Arguments Err {A} m.

(** The exception of a failed conversion, with its message. *)
Definition TYPE_ERROR : message := Msg (js "Cannot convert object to primitive value") None.
Definition checked {A} (m : outcome A) : result A :=
  match m with Ret a => Ok a | Throw => Err TYPE_ERROR end.

(** [if (c) o[k] = v]. *)
Definition put (c : bool) (k : jstr) (v : json) (o : list (jstr * json)) : list (jstr * json) :=
  if c then obj_set k v o else o.

(** ** Data *)

Record ParamOverrideCondition : Type := MkCondition {
  c_id : jstr;
  c_path : jstr;
  c_mode : jstr;
  c_value_text : jstr;
  c_invert : bool;
  c_pass_missing_key : bool
}.

Record ParamOverrideOperation : Type := MkOperation {
  o_id : jstr;
  o_description : jstr;
  o_path : jstr;
  o_mode : jstr;
  o_from : jstr;
  o_to : jstr;
  o_value_text : jstr;
  o_keep_origin : bool;
  o_logic : jstr;
  o_conditions : list ParamOverrideCondition
}.

(** ** The modes *)

Definition OPERATION_MODE_OPTIONS : list (jstr * jstr) := [
  (js "Set Field", js "set");
  (js "Delete Field", js "delete");
  (js "Append to End", js "append");
  (js "Prepend to Start", js "prepend");
  (js "Copy Field", js "copy");
  (js "Move Field", js "move");
  (js "String Replace", js "replace");
  (js "Regex Replace", js "regex_replace");
  (js "Trim Prefix", js "trim_prefix");
  (js "Trim Suffix", js "trim_suffix");
  (js "Ensure Prefix", js "ensure_prefix");
  (js "Ensure Suffix", js "ensure_suffix");
  (js "Trim Space", js "trim_space");
  (js "To Lowercase", js "to_lower");
  (js "To Uppercase", js "to_upper");
  (js "Return Custom Error", js "return_error");
  (js "Prune Object Items", js "prune_objects");
  (js "Pass Through Headers", js "pass_headers");
  (js "Sync Fields", js "sync_fields");
  (js "Set Request Header", js "set_header");
  (js "Delete Request Header", js "delete_header");
  (js "Copy Request Header", js "copy_header");
  (js "Move Request Header", js "move_header")
].

Definition OPERATION_MODE_VALUES : list jstr := OPERATION_MODE_OPTIONS.*2.

(** Built by assigning [acc[item.value] = item.label] in order. *)
Definition OPERATION_MODE_LABEL_MAP : list (jstr * jstr) :=
  obj_assign [] (List.map (fun item => (item.2, item.1)) OPERATION_MODE_OPTIONS).

Definition CONDITION_MODE_OPTIONS : list (jstr * jstr) := [
  (js "Exact Match", js "full");
  (js "Prefix", js "prefix");
  (js "Suffix", js "suffix");
  (js "Contains", js "contains");
  (js "Greater Than", js "gt");
  (js "Greater Than or Equal", js "gte");
  (js "Less Than", js "lt");
  (js "Less Than or Equal", js "lte")
].

Definition CONDITION_MODE_VALUES : list jstr := CONDITION_MODE_OPTIONS.*2.

(** The fields a mode uses; a missing flag is false, [to] may also be undefined. *)
Record Meta : Type := MkMeta {
  m_path : bool;
  m_pathOptional : bool;
  m_value : bool;
  m_from : bool;
  m_to : option bool;
  m_keepOrigin : bool;
  m_pathAlias : bool
}.

Definition no_meta : Meta := MkMeta false false false false None false false.
Definition path_meta : Meta := MkMeta true false false false None false false.
Definition path_value_meta : Meta := MkMeta true false true false None false false.
Definition write_meta : Meta := MkMeta true false true false None true false.
Definition from_to_meta : Meta := MkMeta false false false true (Some true) false false.
Definition replace_meta : Meta := MkMeta true false false true (Some false) false false.
Definition header_copy_meta : Meta := MkMeta false false false true (Some true) true true.

Definition MODE_META : list (jstr * Meta) := [
  (js "delete", path_meta);
  (js "set", write_meta);
  (js "append", write_meta);
  (js "prepend", write_meta);
  (js "copy", from_to_meta);
  (js "move", from_to_meta);
  (js "replace", replace_meta);
  (js "regex_replace", replace_meta);
  (js "trim_prefix", path_value_meta);
  (js "trim_suffix", path_value_meta);
  (js "ensure_prefix", path_value_meta);
  (js "ensure_suffix", path_value_meta);
  (js "trim_space", path_meta);
  (js "to_lower", path_meta);
  (js "to_upper", path_meta);
  (js "return_error", MkMeta false false true false None false false);
  (js "prune_objects", MkMeta false true true false None false false);
  (js "pass_headers", MkMeta false false true false None true false);
  (js "sync_fields", from_to_meta);
  (js "set_header", write_meta);
  (js "delete_header", path_meta);
  (js "copy_header", header_copy_meta);
  (js "move_header", header_copy_meta)
].

(** [MODE_META[mode] || MODE_META.set]. *)
Definition meta_of (mode : jstr) : Meta :=
  match obj_get mode MODE_META with Some m => m | None => write_meta end.

Definition VALUE_REQUIRED_MODES : list jstr := [
  js "trim_prefix"; js "trim_suffix"; js "ensure_prefix"; js "ensure_suffix";
  js "set_header"; js "return_error"; js "prune_objects"; js "pass_headers"].

Definition FROM_REQUIRED_MODES : list jstr := [
  js "copy"; js "move"; js "replace"; js "regex_replace"; js "copy_header"; js "move_header"; js "sync_fields"].

Definition TO_REQUIRED_MODES : list jstr := [
  js "copy"; js "move"; js "copy_header"; js "move_header"; js "sync_fields"].

(** ** Values *)

Definition toValueText (value : option json) : jstr :=
  match value with
  | None => []
  | Some (JStr s) => s
  | Some v => JSON_stringify v
  end.

Definition parseLooseValue (valueText : jstr) : json :=
  let raw := trim valueText in
  if raw === [] then JStr []
  else try_catch (JSON_parse raw) (JStr raw).

Definition verifyJSON (text : jstr) : bool :=
  match JSON_parse text with Ret _ => true | Throw => false end.

(** [typeof v.k === 'string' ? v.k : ''], [values.has(v.k) ? v.k : d] and
    [v.k === true]. *)
Definition str_prop (p : option json) : jstr := match p with Some (JStr s) => s | _ => [] end.
Definition mode_prop (values : list jstr) (d : jstr) (p : option json) : jstr :=
  match p with Some (JStr s) => if mem s values then s else d | _ => d end.
Definition true_prop (p : option json) : bool := match p with Some (JBool b) => b | _ => false end.

(** ** Reading operations *)

Section reading.
(** [Date.now()] when the identifier with a given number is made. *)
Context (clock : N -> N).

Definition id_text (n : N) : jstr := js "po_" ++ dec_digits (clock n) ++ js "_" ++ dec_digits n.

Definition nextLocalId : gen jstr := fun n => (Ret (id_text n), (n + 1)%N).

Definition normalizeCondition (condition : json) : gen ParamOverrideCondition :=
  let* id := nextLocalId in
  let* path := glift (js_prop (js "path") condition) in
  let* mode := glift (js_prop (js "mode") condition) in
  let* value := glift (js_prop (js "value") condition) in
  let* invert := glift (js_prop (js "invert") condition) in
  let* pass_missing_key := glift (js_prop (js "pass_missing_key") condition) in
  gret (MkCondition id (str_prop path) (mode_prop CONDITION_MODE_VALUES (js "full") mode)
          (toValueText value) (true_prop invert) (true_prop pass_missing_key)).

Definition createDefaultCondition : gen ParamOverrideCondition := normalizeCondition (JObj []).

Definition normalizeOperation (operation : json) : gen ParamOverrideOperation :=
  let* id := nextLocalId in
  let* description := glift (js_prop (js "description") operation) in
  let* path := glift (js_prop (js "path") operation) in
  let* mode := glift (js_prop (js "mode") operation) in
  let* value := glift (js_prop (js "value") operation) in
  let* keep_origin := glift (js_prop (js "keep_origin") operation) in
  let* from := glift (js_prop (js "from") operation) in
  let* to := glift (js_prop (js "to") operation) in
  let* logic := glift (js_prop (js "logic") operation) in
  let* logic_text := glift (to_String (or_else logic (JStr (js "OR")))) in
  let* conditions := glift (js_prop (js "conditions") operation) in
  let* conditions :=
    match conditions with Some (JArr l) => gmapM normalizeCondition l | _ => gret [] end in
  gret (MkOperation id (str_prop description) (str_prop path)
          (mode_prop OPERATION_MODE_VALUES (js "set") mode) (str_prop from) (str_prop to)
          (toValueText value) (true_prop keep_origin)
          (if upper logic_text === js "AND" then js "AND" else js "OR") conditions).

Definition createDefaultOperation : gen ParamOverrideOperation :=
  normalizeOperation (JObj [(js "mode", JStr (js "set"))]).
End reading.

(** ** Lists of operations *)

(** [l.findIndex(o => o.id === id)]. *)
Fixpoint findIndex (id : jstr) (ops : list ParamOverrideOperation) : option nat :=
  match ops with
  | [] => None
  | o :: ops' => if o_id o === id then Some 0 else S <$> findIndex id ops'
  end.

Inductive DropPosition : Type := before | after.
#[export] Instance DropPosition_eq_dec : EqDecision DropPosition.
Proof. solve_decision. Defined.

Definition reorderOperations (ops : list ParamOverrideOperation) (sourceId targetId : jstr)
    (position : DropPosition) : list ParamOverrideOperation :=
  if negb (truthy sourceId) || negb (truthy targetId) || (sourceId === targetId) then ops
  else match findIndex sourceId ops with
       | None => ops
       | Some srcIdx =>
           match ops !! srcIdx with
           | None => ops
           | Some moved =>
               let next := take srcIdx ops ++ drop (S srcIdx) ops in
               match findIndex targetId next with
               | None => ops
               | Some i =>
                   let insertIdx := match position with after => S i | before => i end in
                   take insertIdx next ++ moved :: drop insertIdx next
               end
           end
       end.

Definition isOperationBlank (operation : ParamOverrideOperation) : bool :=
  let hasCondition := existsb (fun c =>
    truthy (trim (c_path c)) || truthy (trim (c_value_text c)) || (c_mode c !== js "full")
    || c_invert c || c_pass_missing_key c) (o_conditions operation) in
  (o_mode operation === js "set") && negb (truthy (trim (o_path operation)))
  && negb (truthy (trim (o_from operation))) && negb (truthy (trim (o_to operation)))
  && (trim (o_value_text operation) === []) && negb (o_keep_origin operation) && negb hasCondition.

Definition getOperationSummary (operation : ParamOverrideOperation) (index : nat) : jstr :=
  let mode := str_or (o_mode operation) (js "set") in
  let modeLabel := opt_str_or (obj_get mode OPERATION_MODE_LABEL_MAP) mode in
  let head := dec_digits (N.of_nat index + 1) ++ js ". " ++ modeLabel ++ js " " ++ [183%N] ++ js " " in
  let path := trim (o_path operation) in
  let from := trim (o_from operation) in
  let to := trim (o_to operation) in
  if mode === js "sync_fields" then head ++ str_or from (str_or to (js "-"))
  else head ++ str_or path (str_or from (str_or to (js "-"))).

(** ** Labels of the fields *)

Definition getModeTagTailwind (mode : jstr) : jstr :=
  if includes (js "header") mode then
    js "bg-cyan-500/15 text-cyan-700 dark:text-cyan-300 border-cyan-500/20"
  else if includes (js "replace") mode || includes (js "trim") mode then
    js "bg-violet-500/15 text-violet-700 dark:text-violet-300 border-violet-500/20"
  else if includes (js "copy") mode || includes (js "move") mode then
    js "bg-blue-500/15 text-blue-700 dark:text-blue-300 border-blue-500/20"
  else if includes (js "error") mode || includes (js "prune") mode then
    js "bg-red-500/15 text-red-700 dark:text-red-300 border-red-500/20"
  else if includes (js "sync") mode then
    js "bg-green-500/15 text-green-700 dark:text-green-300 border-green-500/20"
  else js "bg-muted text-muted-foreground".

Definition getModePathLabel (mode : jstr) : jstr :=
  if (mode === js "set_header") || (mode === js "delete_header") then js "Header Name"
  else if mode === js "prune_objects" then js "Target Path (optional)"
  else js "Target Field Path".

Definition getModePathPlaceholder (mode : jstr) : jstr :=
  if mode === js "set_header" then js "Authorization"
  else if mode === js "delete_header" then js "X-Debug-Mode"
  else if mode === js "prune_objects" then js "messages"
  else js "temperature".

Definition getModeFromLabel (mode : jstr) : jstr :=
  if mode === js "replace" then js "Match Text"
  else if mode === js "regex_replace" then js "Regex Pattern"
  else if (mode === js "copy_header") || (mode === js "move_header") then js "Source Header"
  else js "Source Field".

Definition getModeFromPlaceholder (mode : jstr) : jstr :=
  if mode === js "replace" then js "openai/"
  else if mode === js "regex_replace" then js "^gpt-"
  else if (mode === js "copy_header") || (mode === js "move_header") then js "Authorization"
  else js "model".

Definition getModeToLabel (mode : jstr) : jstr :=
  if (mode === js "replace") || (mode === js "regex_replace") then js "Replace With"
  else if (mode === js "copy_header") || (mode === js "move_header") then js "Target Header"
  else js "Target Field".

Definition getModeToPlaceholder (mode : jstr) : jstr :=
  if mode === js "replace" then js "(leave empty to delete)"
  else if mode === js "regex_replace" then js "openai/gpt-"
  else if (mode === js "copy_header") || (mode === js "move_header") then js "X-Upstream-Auth"
  else js "original_model".

Definition affix_mode (mode : jstr) : bool :=
  (mode === js "trim_prefix") || (mode === js "trim_suffix")
  || (mode === js "ensure_prefix") || (mode === js "ensure_suffix").

Definition getModeValueLabel (mode : jstr) : jstr :=
  if mode === js "set_header" then js "Header Value (supports string or JSON mapping)"
  else if mode === js "pass_headers" then js "Pass-through Headers (comma-separated or JSON array)"
  else if affix_mode mode then js "Prefix/Suffix Text"
  else if mode === js "prune_objects" then js "Prune Rule (string or JSON object)"
  else js "Value (supports JSON or plain text)".

Definition getModeValuePlaceholder (mode : jstr) : jstr :=
  if mode === js "set_header" then js "Bearer sk-xxx"
  else if mode === js "pass_headers" then js "Authorization, X-Request-Id"
  else if affix_mode mode then js "openai/"
  else if mode === js "prune_objects" then
    js "{" ++ dq ++ js "type" ++ dq ++ js ":" ++ dq ++ js "redacted_thinking" ++ dq ++ js "}"
  else js "0.7".

(** ** Targets of [sync_fields] *)

Record SyncTarget : Type := MkSyncTarget { s_type : jstr; s_key : jstr }.

Definition parseSyncTargetSpec (spec : jstr) : SyncTarget :=
  let raw := trim spec in
  if negb (truthy raw) then MkSyncTarget (js "json") []
  else match index_of (js ":") raw with
       | None => MkSyncTarget (js "json") raw
       | Some idx =>
           let prefix := lower (trim (take idx raw)) in
           let key := trim (drop (S idx) raw) in
           if prefix === js "header" then MkSyncTarget (js "header") key else MkSyncTarget (js "json") key
       end.

Definition buildSyncTargetSpec (type key : jstr) : jstr :=
  let normalizedType := if type === js "header" then js "header" else js "json" in
  let normalizedKey := trim key in
  if negb (truthy normalizedKey) then [] else normalizedType ++ js ":" ++ normalizedKey.

(** ** Drafts of [return_error] *)

Record ReturnErrorDraft : Type := MkErrorDraft {
  e_message : jstr;
  e_statusCode : number;
  e_code : jstr;
  e_type : jstr;
  e_skipRetry : bool;
  e_simpleMode : bool
}.

(** [Number.isInteger(x) && x >= 100 && x <= 599 ? x : 400]. *)
Definition status_or_400 (x : number) : number :=
  match int_of_num x with
  | Some z => if ((100 <=? z) && (z <=? 599))%Z then x else num_of_Z 400
  | None => num_of_Z 400
  end.

Definition error_defaults : ReturnErrorDraft := MkErrorDraft [] (num_of_Z 400) [] [] true true.

(** The draft of a parsed object; [Throw] is an exception of the try block. *)
Definition error_draft_of (parsed : list (jstr * json)) : outcome ReturnErrorDraft :=
  let statusRaw :=
    match obj_get (js "status_code") parsed with Some v => Some v | None => obj_get (js "status") parsed end in
  let! statusValue := to_Number statusRaw in
  let! message := to_String (or_else (obj_get (js "message") parsed)
                              (or_else (obj_get (js "msg") parsed) (JStr []))) in
  let! code := to_String (or_else (obj_get (js "code") parsed) (JStr [])) in
  let! type := to_String (or_else (obj_get (js "type") parsed) (JStr [])) in
  Ret (MkErrorDraft (trim message) (status_or_400 statusValue) (trim code) (trim type)
         (match obj_get (js "skip_retry") parsed with Some (JBool false) => false | _ => true end) false).

Definition plain_error_draft (raw : jstr) : ReturnErrorDraft :=
  MkErrorDraft raw (num_of_Z 400) [] [] true true.

Definition parseReturnErrorDraft (valueText : jstr) : ReturnErrorDraft :=
  let raw := trim valueText in
  if negb (truthy raw) then error_defaults
  else match JSON_parse raw with
       | Ret (JObj parsed) => try_catch (error_draft_of parsed) (plain_error_draft raw)
       | _ => plain_error_draft raw
       end.

Definition error_payload (draft : ReturnErrorDraft) : list (jstr * json) :=
  let payload := [(js "message", JStr (trim (e_message draft)));
                  (js "status_code", JNum (status_or_400 (e_statusCode draft)))] in
  let code := trim (e_code draft) in
  let type := trim (e_type draft) in
  let payload := put (truthy code) (js "code") (JStr code) payload in
  let payload := put (truthy type) (js "type") (JStr type) payload in
  put (negb (e_skipRetry draft)) (js "skip_retry") (JBool false) payload.

Definition buildReturnErrorValueText (draft : ReturnErrorDraft) : jstr :=
  if e_simpleMode draft then trim (e_message draft)
  else JSON_stringify (JObj (error_payload draft)).

(** ** Drafts of [prune_objects] *)

(** A prune rule has the fields of a condition, and is read the same way. *)
Definition PruneRule : Type := ParamOverrideCondition.

Record PruneObjectsDraft : Type := MkPruneDraft {
  p_simpleMode : bool;
  p_typeText : jstr;
  p_logic : jstr;
  p_recursive : bool;
  p_rules : list PruneRule
}.

Definition simple_prune_draft (typeText : jstr) : PruneObjectsDraft :=
  MkPruneDraft true typeText (js "AND") true [].

Section prune.
Context (clock : N -> N).

Definition normalizePruneRule (rule : json) : gen PruneRule := normalizeCondition clock rule.

(** The rules of a map from paths to values. *)
Definition rules_of_entries (entries : list (jstr * json)) : gen (list PruneRule) :=
  gmapM (fun e => normalizePruneRule
    (JObj [(js "path", JStr e.1); (js "mode", JStr (js "full")); (js "value", e.2)])) entries.

Definition is_object_value (v : json) : bool := match v with JArr _ | JObj _ => true | _ => false end.

(** The draft of a parsed object. *)
Definition prune_draft_of (parsed : list (jstr * json)) : gen PruneObjectsDraft :=
  let* where_rules :=
    match obj_get (js "where") parsed with Some (JObj w) => rules_of_entries w | _ => gret [] end in
  let* condition_rules :=
    match obj_get (js "conditions") parsed with
    | Some (JArr l) => gmapM normalizePruneRule (List.filter is_object_value l)
    | Some (JObj c) => rules_of_entries c
    | _ => gret []
    end in
  let* typeText := glift
    match obj_get (js "type") parsed with
    | None => Ret []
    | Some v => let! s := to_String v in Ret (trim s)
    end in
  let* logic := glift (to_String (or_else (obj_get (js "logic") parsed) (JStr (js "AND")))) in
  let hasAdvancedFields := obj_has (js "logic") parsed || obj_has (js "recursive") parsed
    || obj_has (js "where") parsed || obj_has (js "conditions") parsed in
  gret (MkPruneDraft (negb hasAdvancedFields) typeText
          (if upper logic === js "OR" then js "OR" else js "AND")
          (match obj_get (js "recursive") parsed with Some (JBool false) => false | _ => true end)
          (where_rules ++ condition_rules)).

Definition parsePruneObjectsDraft (valueText : jstr) : gen PruneObjectsDraft :=
  let raw := trim valueText in
  if negb (truthy raw) then gret (simple_prune_draft [])
  else gtry
    (let* parsed := glift (JSON_parse raw) in
     match parsed with
     | JStr s => gret (simple_prune_draft (trim s))
     | JObj o => prune_draft_of o
     | _ => let* s := glift (to_String (nullish_empty parsed)) in gret (simple_prune_draft (trim s))
     end)
    (gret (simple_prune_draft raw)).
End prune.

Definition prune_condition (rule : PruneRule) : list (jstr * json) :=
  let conditionPayload := [
    (js "path", JStr (trim (c_path rule)));
    (js "mode", JStr (if mem (c_mode rule) CONDITION_MODE_VALUES then c_mode rule else js "full"))] in
  let valueRaw := trim (c_value_text rule) in
  let conditionPayload := put (valueRaw !== []) (js "value") (parseLooseValue valueRaw) conditionPayload in
  let conditionPayload := put (c_invert rule) (js "invert") (JBool true) conditionPayload in
  put (c_pass_missing_key rule) (js "pass_missing_key") (JBool true) conditionPayload.

Definition prune_payload (draft : PruneObjectsDraft) : list (jstr * json) :=
  let typeText := trim (p_typeText draft) in
  let payload := put (truthy typeText) (js "type") (JStr typeText) [] in
  let payload := put (upper (str_or (p_logic draft) (js "AND")) === js "OR") (js "logic") (JStr (js "OR")) payload in
  let payload := put (negb (p_recursive draft)) (js "recursive") (JBool false) payload in
  let conditions := List.map prune_condition
    (List.filter (fun rule => truthy (trim (c_path rule))) (p_rules draft)) in
  put (0 <? length conditions)%nat (js "conditions") (JArr (List.map JObj conditions)) payload.

(** [!payload[k]]. *)
Definition falsy_prop (k : jstr) (o : list (jstr * json)) : bool :=
  match obj_get k o with Some v => negb (json_truthy v) | None => true end.

Definition buildPruneObjectsValueText (draft : PruneObjectsDraft) : jstr :=
  if p_simpleMode draft then trim (p_typeText draft)
  else
    let payload := prune_payload draft in
    if falsy_prop (js "type") payload && falsy_prop (js "conditions") payload
    then JSON_stringify (JObj [(js "logic", JStr (js "AND"))])
    else JSON_stringify (JObj payload).

(** ** Header names of [pass_headers] *)

(** [l.map(i => String(i ?? '').trim()).filter(Boolean)]. *)
Definition header_names (l : list json) : outcome (list jstr) :=
  let! ws := (fix all (l : list json) : outcome (list jstr) :=
    match l with
    | [] => Ret []
    | i :: l' => let! s := to_String (nullish_empty i) in let! ss := all l' in Ret (trim s :: ss)
    end) l in
  Ret (filter_truthy ws).

Definition parsePassHeaderNames (rawValue : json) : outcome (list jstr) :=
  match rawValue with
  | JArr l => header_names l
  | JObj obj =>
      match obj_get (js "headers") obj with
      | Some (JArr l) => header_names l
      | _ =>
          match obj_get (js "header") obj with
          | Some h =>
              let! s := to_String (nullish_empty h) in
              let single := trim s in
              Ret (if truthy single then [single] else [])
          | None => Ret []
          end
      end
  | JStr s => Ret (filter_truthy (List.map trim (split_char 44 s)))
  | _ => Ret []
  end.

(** ** Validation *)

Definition rule_message (key : jstr) (line : nat) : option message := Some (Msg key (Some line)).

(** The checks of one rule; [Ok None] lets the next rule be checked. *)
Definition validate_operation (op : ParamOverrideOperation) (line : nat) : result (option message) :=
  let mode := str_or (o_mode op) (js "set") in
  let meta := meta_of mode in
  let pathValue := trim (o_path op) in
  let fromValue := trim (o_from op) in
  let toValue := trim (o_to op) in
  let raw := trim (o_value_text op) in
  let alias := m_pathAlias meta && truthy pathValue in
  if m_path meta && negb (truthy pathValue) then
    Ok (rule_message (js "Rule {{line}} is missing target path") line)
  else if mem mode FROM_REQUIRED_MODES && negb (truthy fromValue) && negb alias then
    Ok (rule_message (js "Rule {{line}} is missing source field") line)
  else if mem mode TO_REQUIRED_MODES && negb (truthy toValue) && negb alias then
    Ok (rule_message (js "Rule {{line}} is missing target field") line)
  else if mem mode VALUE_REQUIRED_MODES && (raw === []) then
    Ok (rule_message (js "Rule {{line}} is missing value") line)
  else if mode === js "return_error" then
    if negb (truthy raw) then Ok (rule_message (js "Rule {{line}} is missing value") line)
    else match JSON_parse raw with
         | Ret (JObj parsed) =>
             match to_String (or_else (obj_get (js "message") parsed) (JStr [])) with
             | Ret s =>
                 if negb (truthy (trim s))
                 then Ok (rule_message (js "Rule {{line}} return_error requires a message field") line)
                 else Ok None
             | Throw => Ok None
             end
         | _ => Ok None
         end
  else if mode === js "prune_objects" then
    if negb (truthy raw) then Ok (rule_message (js "Rule {{line}} prune_objects is missing conditions") line)
    else Ok None
  else if mode === js "pass_headers" then
    if negb (truthy raw) then Ok (rule_message (js "Rule {{line}} pass_headers is missing header names") line)
    else match parsePassHeaderNames (parseLooseValue raw) with
         | Throw => Err TYPE_ERROR
         | Ret [] => Ok (rule_message (js "Rule {{line}} pass_headers format is invalid") line)
         | Ret _ => Ok None
         end
  else Ok None.

(** The loop, from the rule with index [i]; the empty text is [Ok None]. *)
Fixpoint validate_from (i : nat) (operations : list ParamOverrideOperation) : result (option message) :=
  match operations with
  | [] => Ok None
  | op :: rest =>
      match validate_operation op (i + 1) with
      | Ok None => validate_from (S i) rest
      | r => r
      end
  end.

Definition validateOperations (operations : list ParamOverrideOperation) : result (option message) :=
  validate_from 0 operations.

(** ** Writing operations *)

Definition buildConditionPayload (condition : ParamOverrideCondition) : option (list (jstr * json)) :=
  let path := trim (c_path condition) in
  if negb (truthy path) then None
  else
    let payload := [(js "path", JStr path);
                    (js "mode", JStr (str_or (c_mode condition) (js "full")));
                    (js "value", parseLooseValue (c_value_text condition))] in
    let payload := put (c_invert condition) (js "invert") (JBool true) payload in
    Some (put (c_pass_missing_key condition) (js "pass_missing_key") (JBool true) payload).

Definition is_to (meta : Meta) : bool := match m_to meta with Some b => b | None => false end.

Definition operation_payload (operation : ParamOverrideOperation) : list (jstr * json) :=
  let mode := str_or (o_mode operation) (js "set") in
  let meta := meta_of mode in
  let descriptionValue := trim (o_description operation) in
  let pathValue := trim (o_path operation) in
  let fromValue := trim (o_from operation) in
  let toValue := trim (o_to operation) in
  let payload := [(js "mode", JStr mode)] in
  let payload := put (truthy descriptionValue) (js "description") (JStr descriptionValue) payload in
  let payload := put (m_path meta) (js "path") (JStr pathValue) payload in
  let payload := put (m_pathOptional meta && truthy pathValue) (js "path") (JStr pathValue) payload in
  let payload := put (m_value meta) (js "value") (parseLooseValue (o_value_text operation)) payload in
  let payload := put (m_keepOrigin meta && o_keep_origin operation) (js "keep_origin") (JBool true) payload in
  let payload := put (m_from meta) (js "from") (JStr fromValue) payload in
  let payload := put (negb (is_to meta) && truthy toValue) (js "to") (JStr toValue) payload in
  let payload := put (is_to meta) (js "to") (JStr toValue) payload in
  let payload := put (m_pathAlias meta && falsy_prop (js "from") payload && truthy pathValue)
                   (js "from") (JStr pathValue) payload in
  let payload := put (m_pathAlias meta && falsy_prop (js "to") payload && truthy pathValue)
                   (js "to") (JStr pathValue) payload in
  let conditions := omap buildConditionPayload (o_conditions operation) in
  let payload := put (0 <? length conditions)%nat (js "conditions") (JArr (List.map JObj conditions)) payload in
  put (0 <? length conditions)%nat (js "logic")
    (JStr (if o_logic operation === js "AND" then js "AND" else js "OR")) payload.

Definition operations_text (ops : list ParamOverrideOperation) : jstr :=
  JSON_pretty (JObj [(js "operations", JArr (List.map (fun o => JObj (operation_payload o)) ops))]).

Definition nonblank (ops : list ParamOverrideOperation) : list ParamOverrideOperation :=
  List.filter (fun o => negb (isOperationBlank o)) ops.

Definition buildOperationsJson (sourceOperations : list ParamOverrideOperation) (validate : bool) : result jstr :=
  let filteredOps := nonblank sourceOperations in
  if (length filteredOps =? 0)%nat then Ok []
  else if validate then
    match validateOperations filteredOps with
    | Err m => Err m
    | Ok (Some m) => Err m
    | Ok None => Ok (operations_text filteredOps)
    end
  else Ok (operations_text filteredOps).

(** ** Opening the dialog *)

Inductive EditMode : Type := visual | json_text.
Inductive VisualMode : Type := operations_mode | legacy.

Record EditorState : Type := MkEditorState {
  i_editMode : EditMode;
  i_visualMode : VisualMode;
  i_legacyValue : jstr;
  i_operations : list ParamOverrideOperation;
  i_jsonText : jstr;
  i_jsonError : jstr
}.

Section opening.
Context (clock : N -> N).

(** [operations.length > 0 ? operations.map(normalizeOperation) : [createDefaultOperation()]]. *)
Definition read_operations (l : list json) : gen (list ParamOverrideOperation) :=
  match l with
  | [] => let* o := createDefaultOperation clock in gret [o]
  | _ => gmapM (normalizeOperation clock) l
  end.

Definition parseInitialState (text : jstr) : gen EditorState :=
  let trimmed := trim text in
  if negb (truthy trimmed) then
    let* o := createDefaultOperation clock in
    gret (MkEditorState visual operations_mode [] [o] [] [])
  else
    match JSON_parse trimmed with
    | Throw =>
        let* o := createDefaultOperation clock in
        gret (MkEditorState json_text operations_mode [] [o] text (js "Invalid JSON format"))
    | Ret parsed =>
        let pretty := JSON_pretty parsed in
        match parsed with
        | JObj obj =>
            match obj_get (js "operations") obj with
            | Some (JArr l) =>
                let* ops := read_operations l in
                gret (MkEditorState visual operations_mode [] ops pretty [])
            | _ =>
                let* o := createDefaultOperation clock in
                gret (MkEditorState visual legacy pretty [o] pretty [])
            end
        | _ =>
            let* o := createDefaultOperation clock in
            gret (MkEditorState json_text operations_mode [] [o] pretty [])
        end
    end.
End opening.
