(* ===== verification/ParamSave.v ===== *)
(** * Saving and reopening parameter override rules

    What the text written by [buildOperationsJson] reads back as, and the round
    trips of the drafts of single values. *)
From S2P Require Import Prelude Numbers Json JsonRoundtrip JsonPretty ParamOverride.

(** ** Lemmas: reading objects *)

Lemma get_put k c j v o : obj_get k (put c j v o) = if c && (k === j) then Some v else obj_get k o.
Proof.
  unfold put. destruct c; [|done]. cbn [andb]. destruct (k === j) eqn:E.
  - apply (proj1 (js_eqb_true _ _)) in E. subst. apply obj_get_set_eq.
  - apply obj_get_set_ne. by apply (proj1 (js_eqb_false _ _)).
Qed.

Lemma put_ok c k v o :
  is_index k = false -> utf16 k -> json_ok v -> obj_ok o -> obj_ok (put c k v o).
Proof. intros. unfold put. destruct c; [by apply obj_ok_set|done]. Qed.

(** Decides comparisons of literal keys and looks through assignments. *)
Ltac lit_keys :=
  repeat match goal with
    | |- context [@js_eqb jstr ?d (js ?a) (js ?b)] =>
        let r := eval vm_compute in (@js_eqb jstr d (js a) (js b)) in
        change (@js_eqb jstr d (js a) (js b)) with r
    end.
Ltac get_keys := rewrite ?get_put; cbn [obj_get]; lit_keys; rewrite ?andb_true_r, ?andb_false_r; cbn [andb].

Lemma gmapM_erase {A B} (f : A -> gen B) (e g : _ -> _) (l : list A) n :
  (forall x m, x ∈ l -> exists y m', f x m = (Ret y, m') /\ e y = g x :> B) ->
  exists ys n', gmapM f l n = (Ret ys, n') /\ List.map e ys = List.map g l.
Proof.
  revert n. induction l as [|x l IH]; intros n H; [by exists [], n|].
  destruct (H x n) as (y & m & E & Hy); [left|].
  destruct (IH m) as (ys & m' & Es & Hys); [intros; apply H; by right|].
  exists (y :: ys), m'. cbn [gmapM List.map]. unfold gbind. by rewrite E, Es, Hy, Hys.
Qed.

(** Conditions and operations up to their identifiers. *)
Definition erase_condition (c : ParamOverrideCondition) : ParamOverrideCondition :=
  MkCondition [] (c_path c) (c_mode c) (c_value_text c) (c_invert c) (c_pass_missing_key c).

Definition erase (o : ParamOverrideOperation) : ParamOverrideOperation :=
  MkOperation [] (o_description o) (o_path o) (o_mode o) (o_from o) (o_to o) (o_value_text o)
    (o_keep_origin o) (o_logic o) (List.map erase_condition (o_conditions o)).

(** The condition an object holds. *)
Definition condition_of (id : jstr) (o : list (jstr * json)) : ParamOverrideCondition :=
  MkCondition id (str_prop (obj_get (js "path") o))
    (mode_prop CONDITION_MODE_VALUES (js "full") (obj_get (js "mode") o))
    (toValueText (obj_get (js "value") o)) (true_prop (obj_get (js "invert") o))
    (true_prop (obj_get (js "pass_missing_key") o)).

Lemma normalizeCondition_obj clock o n :
  normalizeCondition clock (JObj o) n = (Ret (condition_of (id_text clock n) o), (n + 1)%N).
Proof. reflexivity. Qed.

Lemma normalize_conditions clock os n :
  exists cs n', gmapM (normalizeCondition clock) (List.map JObj os) n = (Ret cs, n') /\
    List.map erase_condition cs = List.map (condition_of []) os.
Proof.
  destruct (gmapM_erase (normalizeCondition clock) erase_condition
    (fun v => match v with JObj o => condition_of [] o | _ => condition_of [] [] end) (List.map JObj os) n)
    as (cs & n' & E & H).
  - intros v m Hv. apply list_elem_of_In, in_map_iff in Hv as (o & <- & _).
    rewrite normalizeCondition_obj. eexists _, _. by split.
  - exists cs, n'. split; [done|]. by rewrite H, map_map.
Qed.

(** ** What a saved operation reads back as *)

(** What a value's text looks like after it was saved and read. *)
Definition reshown (valueText : jstr) : jstr := toValueText (Some (parseLooseValue valueText)).

Definition reshown_condition (c : ParamOverrideCondition) : option ParamOverrideCondition :=
  if truthy (trim (c_path c)) then
    Some (MkCondition [] (trim (c_path c)) (c_mode c) (reshown (c_value_text c)) (c_invert c) (c_pass_missing_key c))
  else None.

(** Texts are trimmed; path, source, value and the keep-origin flag are dropped
    where the mode does not use them, the target never is; a header rule
    without source or target takes its path, conditions without path are dropped,
    and the logic of a rule without conditions is forgotten. *)
Definition reopened (op : ParamOverrideOperation) : ParamOverrideOperation :=
  let meta := meta_of (o_mode op) in
  let path := trim (o_path op) in
  let from := if m_from meta then trim (o_from op) else [] in
  let to := trim (o_to op) in
  let conditions := omap reshown_condition (o_conditions op) in
  MkOperation [] (trim (o_description op))
    (if m_path meta || m_pathOptional meta then path else [])
    (o_mode op)
    (if m_pathAlias meta then str_or from path else from)
    (if m_pathAlias meta then str_or to path else to)
    (if m_value meta then reshown (o_value_text op) else [])
    (m_keepOrigin meta && o_keep_origin op)
    (match conditions with [] => js "OR" | _ => o_logic op end)
    conditions.

(** The types of the fields: modes the menus offer, AND or OR. *)
Definition condition_typed (c : ParamOverrideCondition) : Prop := c_mode c ∈ CONDITION_MODE_VALUES.
Definition typed (op : ParamOverrideOperation) : Prop :=
  o_mode op ∈ OPERATION_MODE_VALUES /\ (o_logic op = js "AND" \/ o_logic op = js "OR") /\
  Forall condition_typed (o_conditions op).

(** Strings of UTF-16 units, and values whose numbers print and read back. *)
Definition condition_writable (c : ParamOverrideCondition) : Prop :=
  utf16 (c_path c) /\ json_ok (parseLooseValue (c_value_text c)).
Definition writable (op : ParamOverrideOperation) : Prop :=
  utf16 (o_description op) /\ utf16 (o_path op) /\ utf16 (o_from op) /\ utf16 (o_to op) /\
  json_ok (parseLooseValue (o_value_text op)) /\ Forall condition_writable (o_conditions op).

Lemma mode_not_empty op : typed op -> str_or (o_mode op) (js "set") = o_mode op.
Proof.
  intros (H & _). destruct (o_mode op); [|done]. apply mem_true in H. by vm_compute in H.
Qed.

Lemma mode_reads values d s : s ∈ values -> mode_prop values d (Some (JStr s)) = s.
Proof. intros H%mem_true. cbn [mode_prop]. by rewrite H. Qed.

(** *** Conditions *)

Lemma build_condition_reshown c : condition_typed c ->
  condition_of [] <$> buildConditionPayload c = reshown_condition c.
Proof.
  intros Ht. unfold buildConditionPayload, reshown_condition. destruct (truthy (trim (c_path c))); [|done].
  cbn [negb fmap option_fmap option_map]. f_equal. unfold condition_of. get_keys.
  assert (str_or (c_mode c) (js "full") = c_mode c) as ->.
  { unfold condition_typed in Ht. destruct (c_mode c); [|done]. apply mem_true in Ht. by vm_compute in Ht. }
  rewrite mode_reads by done. by destruct (c_invert c), (c_pass_missing_key c).
Qed.

Lemma conditions_reshown cs : Forall condition_typed cs ->
  List.map (condition_of []) (omap buildConditionPayload cs) = omap reshown_condition cs.
Proof.
  induction 1 as [|c cs Hc _ IH]; [done|]. cbn [omap list_omap]. rewrite <-(build_condition_reshown c) by done.
  destruct (buildConditionPayload c); cbn [fmap option_fmap option_map]; [|done]. cbn [List.map]. by rewrite IH.
Qed.

Lemma condition_payload_ok c p :
  condition_typed c -> condition_writable c -> buildConditionPayload c = Some p -> obj_ok p.
Proof.
  intros Ht [Hp Hv]. unfold buildConditionPayload. destruct (truthy _); [|done]. cbn [negb]. intros [= <-].
  assert (utf16 (str_or (c_mode c) (js "full"))) as Hm.
  { unfold condition_typed in Ht. revert Ht. generalize (c_mode c). intros m Hm.
    assert (Forall (fun m => utf16b (str_or m (js "full")) = true) CONDITION_MODE_VALUES) as Hall
      by (by repeat constructor). rewrite Forall_forall in Hall. by apply utf16b_spec, Hall. }
  repeat (apply put_ok; [done|by apply utf16b_spec|done|]).
  split; [by apply plain_ordered|].
  repeat constructor; try (by apply utf16b_spec); try done. by apply trim_utf16.
Qed.

(** *** Operations *)

Section payload.
Context (op : ParamOverrideOperation) (Hop : typed op).
Let meta := meta_of (o_mode op).
Let payload := operation_payload op.

Lemma payload_mode : obj_get (js "mode") payload = Some (JStr (o_mode op)).
Proof using Hop. unfold payload, operation_payload. get_keys. by rewrite mode_not_empty. Qed.

Lemma payload_description : str_prop (obj_get (js "description") payload) = trim (o_description op).
Proof. unfold payload, operation_payload. get_keys. by destruct (trim (o_description op)). Qed.

Lemma payload_path :
  str_prop (obj_get (js "path") payload) = if m_path meta || m_pathOptional meta then trim (o_path op) else [].
Proof using Hop.
  unfold payload, operation_payload, meta. get_keys. rewrite mode_not_empty by done.
  destruct (m_path _), (m_pathOptional _), (trim (o_path op)); done.
Qed.

Lemma payload_value :
  toValueText (obj_get (js "value") payload) = if m_value meta then reshown (o_value_text op) else [].
Proof using Hop. unfold payload, operation_payload, meta. get_keys. rewrite mode_not_empty by done. by destruct (m_value _). Qed.

Lemma payload_keep : true_prop (obj_get (js "keep_origin") payload) = m_keepOrigin meta && o_keep_origin op.
Proof using Hop.
  unfold payload, operation_payload, meta. get_keys. rewrite mode_not_empty by done.
  by destruct (m_keepOrigin _), (o_keep_origin op).
Qed.

Lemma payload_from :
  str_prop (obj_get (js "from") payload) =
  let from := if m_from meta then trim (o_from op) else [] in
  if m_pathAlias meta then str_or from (trim (o_path op)) else from.
Proof using Hop.
  unfold payload, operation_payload, falsy_prop, meta. get_keys. rewrite mode_not_empty by done.
  destruct (m_pathAlias _), (m_from _), (trim (o_from op)), (trim (o_path op)); done.
Qed.

Lemma payload_to :
  str_prop (obj_get (js "to") payload) =
  if m_pathAlias meta then str_or (trim (o_to op)) (trim (o_path op)) else trim (o_to op).
Proof using Hop.
  unfold payload, operation_payload, falsy_prop, meta. get_keys. rewrite mode_not_empty by done.
  destruct (m_pathAlias _), (is_to _), (trim (o_to op)), (trim (o_path op)); done.
Qed.

Lemma payload_conditions :
  obj_get (js "conditions") payload =
  match omap buildConditionPayload (o_conditions op) with
  | [] => None | l => Some (JArr (List.map JObj l)) end.
Proof. unfold payload, operation_payload. get_keys. by destruct (omap _ _). Qed.

Lemma payload_logic :
  obj_get (js "logic") payload =
  match omap buildConditionPayload (o_conditions op) with [] => None | _ => Some (JStr (o_logic op)) end.
Proof using Hop.
  unfold payload, operation_payload. get_keys. destruct (omap _ _); [done|]. cbn [length Nat.ltb Nat.leb].
  destruct Hop as (_ & [->| ->] & _); done.
Qed.

(** The rule read from what was written. *)
Lemma normalize_payload clock n :
  exists o n', normalizeOperation clock (JObj payload) n = (Ret o, n') /\ erase o = reopened op.
Proof using Hop.
  pose proof (conditions_reshown (o_conditions op) ltac:(apply Hop)) as Hc.
  destruct (normalize_conditions clock (omap buildConditionPayload (o_conditions op)) (n + 1))
    as (cs & n' & E & Hcs). rewrite Hc in Hcs.
  unfold normalizeOperation, gbind, nextLocalId, glift, js_prop.
  rewrite payload_mode, payload_conditions, payload_logic, mode_reads by apply Hop.
  destruct (omap buildConditionPayload (o_conditions op)) as [|p ps] eqn:Ep.
  - cbn [or_else to_String json_String gret]. eexists _, _. split; [reflexivity|].
    unfold erase, reopened. cbn [o_description o_path o_mode o_from o_to o_value_text o_keep_origin o_logic o_conditions].
    rewrite payload_description, payload_path, payload_value, payload_keep, payload_from, payload_to, <-Hc.
    reflexivity.
  - assert (to_String (or_else (Some (JStr (o_logic op))) (JStr (js "OR"))) = Ret (o_logic op)) as ->
      by (by destruct Hop as (_ & [->| ->] & _)).
    rewrite E. eexists _, _. split; [reflexivity|].
    unfold erase, reopened. cbn [o_description o_path o_mode o_from o_to o_value_text o_keep_origin o_logic o_conditions].
    rewrite payload_description, payload_path, payload_value, payload_keep, payload_from, payload_to, <-Hc, Hcs, <-Hc.
    by destruct Hop as (_ & [->| ->] & _).
Qed.

Lemma payload_ok : writable op -> obj_ok payload.
Proof using Hop.
  intros (Hd & Hp & Hf & Ht & Hv & Hc). unfold payload, operation_payload.
  assert (utf16 (str_or (o_mode op) (js "set"))) as Hm.
  { rewrite mode_not_empty by done. destruct Hop as (Hin & _).
    assert (Forall (fun m => utf16b m = true) OPERATION_MODE_VALUES) as Hall by (by repeat constructor).
    rewrite Forall_forall in Hall. by apply utf16b_spec, Hall. }
  repeat (apply put_ok; [done|by apply utf16b_spec|try done; try (by apply trim_utf16)|]).
  - destruct Hop as (_ & [->| ->] & _); by apply utf16b_spec.
  - apply json_ok_arr. apply Forall_forall. intros v Hin. apply list_elem_of_In, in_map_iff in Hin as (p & <- & Hin).
    apply list_elem_of_In, list_elem_of_omap in Hin as (c & Hin & E).
    destruct Hop as (_ & _ & Htc). rewrite Forall_forall in Htc, Hc.
    apply obj_ok_json. eapply condition_payload_ok; eauto.
  - split; [by apply plain_ordered|]. apply Forall_singleton. split; [by apply utf16b_spec|exact Hm].
Qed.
End payload.

(** ** Saving and reopening *)

Lemma built_text ops v text :
  buildOperationsJson ops v = Ok text -> nonblank ops <> [] -> text = operations_text (nonblank ops).
Proof.
  unfold buildOperationsJson. destruct (nonblank ops) as [|o os]; [done|]. cbn [length Nat.eqb].
  destruct v; [destruct (validateOperations _) as [[]|]|]; by intros [= <-].
Qed.

Lemma operations_text_ok ops :
  Forall typed ops -> Forall writable ops ->
  json_ok (JObj [(js "operations", JArr (List.map (fun o => JObj (operation_payload o)) ops))]).
Proof.
  intros Ht Hw. apply json_ok_obj. split; [done|]. apply Forall_singleton. split; [by apply utf16b_spec|].
  apply json_ok_arr, Forall_forall. intros v Hin. apply list_elem_of_In, in_map_iff in Hin as (o & <- & Hin).
  apply list_elem_of_In in Hin. rewrite Forall_forall in Ht, Hw. apply obj_ok_json, payload_ok; auto.
Qed.

Lemma nonblank_Forall (P : ParamOverrideOperation -> Prop) ops : Forall P ops -> Forall P (nonblank ops).
Proof. rewrite !Forall_forall. intros H o [Ho _]%elem_of_lfilter. by apply H. Qed.

Lemma read_payloads clock ops n :
  Forall typed ops -> ops <> [] ->
  exists rs n', read_operations clock (List.map (fun o => JObj (operation_payload o)) ops) n = (Ret rs, n') /\
    List.map erase rs = List.map reopened ops.
Proof.
  intros Ht Hne. destruct ops as [|op ops]; [done|]. cbn [read_operations List.map].
  revert n Ht. clear Hne. intros n Ht.
  assert (forall l m, Forall typed l -> exists rs n',
    gmapM (normalizeOperation clock) (List.map (fun o => JObj (operation_payload o)) l) m = (Ret rs, n') /\
    List.map erase rs = List.map reopened l) as H.
  { clear. induction l as [|o l IH]; intros m Hl; [by exists [], m|]. apply Forall_cons in Hl as [Ho Hl].
    destruct (normalize_payload o Ho clock m) as (r & m' & E & Hr). destruct (IH m' Hl) as (rs & m'' & Es & Hrs).
    exists (r :: rs), m''. cbn [gmapM List.map]. unfold gbind. rewrite E, Es. cbn [List.map]. by rewrite Hr, Hrs. }
  apply (H (op :: ops) n Ht).
Qed.

Lemma reopen_text clock n os :
  Forall typed os -> Forall writable os -> os <> [] ->
  exists rs n',
    parseInitialState clock (operations_text os) n =
      (Ret (MkEditorState visual operations_mode [] rs (operations_text os) []), n') /\
    List.map erase rs = List.map reopened os.
Proof.
  intros Ht Hw Hne. destruct (read_payloads clock os n Ht Hne) as (rs & n' & E & Hrs). exists rs, n'. split; [|done].
  unfold parseInitialState, operations_text. rewrite (pretty_obj_trimmed _).
  rewrite parse_pretty by (by apply operations_text_ok).
  rewrite (proj2 (truthy_true _)) by (by apply (write_not_nil _ eq_refl), operations_text_ok). cbn [negb].
  change (obj_get (js "operations") [(js "operations", ?x)]) with (Some x). unfold gbind. by rewrite E.
Qed.

(** *** The rule that comes back, in terms of the modes *)

Definition modes_with_path : list jstr :=
  [js "delete"; js "set"; js "append"; js "prepend"; js "replace"; js "regex_replace"; js "trim_prefix"; js "trim_suffix";
   js "ensure_prefix"; js "ensure_suffix"; js "trim_space"; js "to_lower"; js "to_upper"; js "prune_objects";
   js "set_header"; js "delete_header"].
Definition modes_with_source : list jstr :=
  [js "copy"; js "move"; js "replace"; js "regex_replace"; js "sync_fields"; js "copy_header"; js "move_header"].
Definition modes_with_value : list jstr :=
  [js "set"; js "append"; js "prepend"; js "trim_prefix"; js "trim_suffix"; js "ensure_prefix"; js "ensure_suffix";
   js "return_error"; js "prune_objects"; js "pass_headers"; js "set_header"].
Definition modes_keeping_origin : list jstr :=
  [js "set"; js "append"; js "prepend"; js "pass_headers"; js "set_header"; js "copy_header"; js "move_header"].
Definition modes_on_headers : list jstr := [js "copy_header"; js "move_header"].

(** A typed value: the string of a JSON string, other JSON as it prints, any
    other text as it is, trimmed. *)
Definition value_again (t : jstr) : jstr :=
  match trim t with
  | [] => []
  | raw => match JSON_parse raw with Ret (JStr s) => s | Ret v => JSON_stringify v | Throw => raw end
  end.

Definition condition_again (c : ParamOverrideCondition) : list ParamOverrideCondition :=
  match trim (c_path c) with
  | [] => []
  | path => [MkCondition [] path (c_mode c) (value_again (c_value_text c)) (c_invert c) (c_pass_missing_key c)]
  end.

Definition rule_again (op : ParamOverrideOperation) : ParamOverrideOperation :=
  let mode := o_mode op in
  let path := trim (o_path op) in
  let stand_in (x : jstr) := if mem mode modes_on_headers then match x with [] => path | _ => x end else x in
  let conditions := flat_map condition_again (o_conditions op) in
  MkOperation [] (trim (o_description op)) (if mem mode modes_with_path then path else []) mode
    (stand_in (if mem mode modes_with_source then trim (o_from op) else [])) (stand_in (trim (o_to op)))
    (if mem mode modes_with_value then value_again (o_value_text op) else [])
    (mem mode modes_keeping_origin && o_keep_origin op)
    (if Nat.eqb (length conditions) 0 then js "OR" else o_logic op) conditions.

Lemma value_again_spec t : reshown t = value_again t.
Proof.
  unfold reshown, value_again, parseLooseValue. destruct (trim t) as [|c s]; [done|].
  cbn [js_eqb]. rewrite js_eqb_ne by done. by destruct (JSON_parse (c :: s)) as [[]|].
Qed.

Lemma conditions_listed cs : omap reshown_condition cs = flat_map condition_again cs.
Proof.
  induction cs as [|c cs IH]; [done|]. cbn [omap list_omap flat_map]. rewrite <-IH.
  unfold reshown_condition, condition_again. rewrite value_again_spec. by destruct (trim (c_path c)).
Qed.

Lemma meta_by_mode mode :
  mode ∈ OPERATION_MODE_VALUES ->
  m_path (meta_of mode) || m_pathOptional (meta_of mode) = mem mode modes_with_path /\
  m_from (meta_of mode) = mem mode modes_with_source /\ m_value (meta_of mode) = mem mode modes_with_value /\
  m_keepOrigin (meta_of mode) = mem mode modes_keeping_origin /\ m_pathAlias (meta_of mode) = mem mode modes_on_headers.
Proof.
  intros H. set (check := fun mode =>
    Bool.eqb (m_path (meta_of mode) || m_pathOptional (meta_of mode)) (mem mode modes_with_path) &&
    Bool.eqb (m_from (meta_of mode)) (mem mode modes_with_source) &&
    Bool.eqb (m_value (meta_of mode)) (mem mode modes_with_value) &&
    Bool.eqb (m_keepOrigin (meta_of mode)) (mem mode modes_keeping_origin) &&
    Bool.eqb (m_pathAlias (meta_of mode)) (mem mode modes_on_headers)).
  assert (check mode = true) as Hc.
  { assert (forallb check OPERATION_MODE_VALUES = true) as Ha by (vm_compute; reflexivity).
    rewrite forallb_forall in Ha. by apply Ha, list_elem_of_In. }
  unfold check in Hc. rewrite !andb_true_iff, !Bool.eqb_true_iff in Hc. tauto.
Qed.

Lemma rule_again_spec op : typed op -> reopened op = rule_again op.
Proof.
  intros (Hm & _). destruct (meta_by_mode _ Hm) as (H1 & H2 & H3 & H4 & H5).
  unfold reopened, rule_again. rewrite H1, H2, H3, H4, H5, conditions_listed, value_again_spec.
  f_equal; [..|by destruct (flat_map condition_again _)]; destruct (mem (o_mode op) modes_on_headers); try done;
    [by destruct (if mem (o_mode op) modes_with_source then _ else _)|by destruct (trim (o_to op))].
Qed.

(** C6: when some rule is not blank, the modes and logics are ones the menus
    offer, and the texts and values are ones JSON can carry (UTF-16 units,
    numbers that print and read back), reopening the dialog on what it saved,
    checked or not, shows the rules that were not blank again, in order and in
    the visual editor, under new ids: description, path, source and target
    trimmed, the mode as it was, and each value as its JSON value prints. The
    path, the source, the value and the keep-origin flag are dropped in modes
    that do not use them; the target is kept in every mode, also in those that
    do not use it; where the path can stand for source and target it is filled
    in for an empty one. Conditions without a path are dropped, and a rule left
    without conditions has the logic OR. *)
Theorem save_reopen clock n ops v text :
  Forall typed ops -> Forall writable ops -> nonblank ops <> [] -> buildOperationsJson ops v = Ok text ->
  exists rs n',
    parseInitialState clock text n = (Ret (MkEditorState visual operations_mode [] rs text []), n') /\
    List.map erase rs = List.map rule_again (nonblank ops).
Proof.
  intros Ht Hw Hne Hb. apply built_text in Hb as ->; [|done].
  destruct (reopen_text clock n (nonblank ops)) as (rs & n' & E & Hrs); [by apply nonblank_Forall..|done|].
  exists rs, n'. split; [done|]. rewrite Hrs. apply map_ext_in. intros o Ho%list_elem_of_In. apply rule_again_spec.
  assert (Forall typed (nonblank ops)) as Hn by (by apply nonblank_Forall). rewrite Forall_forall in Hn. auto.
Qed.

(** ** Saving again *)

(** The value is not typed as a JSON string literal. *)
Definition unquoted (valueText : jstr) : Prop :=
  match JSON_parse (trim valueText) with Ret (JStr _) => False | _ => True end.

Definition values_unquoted (op : ParamOverrideOperation) : Prop :=
  unquoted (o_value_text op) /\ Forall (fun c => unquoted (c_value_text c)) (o_conditions op).

Lemma loose_trim t : parseLooseValue (trim t) = parseLooseValue t.
Proof. unfold parseLooseValue. by rewrite trim_idem. Qed.

(** Such a value stands for the same JSON value after it was shown again. *)
Lemma reshown_same t : unquoted t -> json_ok (parseLooseValue t) ->
  parseLooseValue (reshown t) = parseLooseValue t /\ truthy (trim (reshown t)) = truthy (trim t).
Proof.
  unfold reshown, unquoted. destruct (trim t) as [|c s] eqn:E.
  { intros _ _. assert (parseLooseValue t = JStr []) as -> by (unfold parseLooseValue; by rewrite E). done. }
  assert (parseLooseValue t = try_catch (JSON_parse (c :: s)) (JStr (c :: s))) as ->
    by (unfold parseLooseValue; by rewrite E).
  destruct (JSON_parse (c :: s)) as [v|] eqn:Ep; cbn [try_catch].
  - intros Hu Hok. assert (toValueText (Some v) = JSON_stringify v) as -> by (by destruct v).
    unfold parseLooseValue. rewrite (stringify_trimmed v), js_eqb_ne by (by apply (write_not_nil v eq_refl)).
    rewrite (read_write v Hok). split; [done|]. apply truthy_true. by apply (write_not_nil v eq_refl).
  - intros _ _. cbn [toValueText]. rewrite <-E, trim_idem. unfold parseLooseValue. rewrite trim_idem, E. by rewrite Ep.
Qed.

(** *** Payloads do not depend on identifiers or on what reopening drops *)

Lemma build_condition_again c :
  condition_typed c -> condition_writable c -> unquoted (c_value_text c) ->
  match reshown_condition c with Some c' => buildConditionPayload c' | None => None end = buildConditionPayload c.
Proof.
  intros Ht [_ Hw] Hu. unfold reshown_condition, buildConditionPayload.
  destruct (truthy (trim (c_path c))) eqn:E; [|done]. cbn [c_path c_mode c_value_text c_invert c_pass_missing_key].
  rewrite trim_idem, E. by rewrite (proj1 (reshown_same _ Hu Hw)).
Qed.

Lemma conditions_again cs :
  Forall condition_typed cs -> Forall condition_writable cs -> Forall (fun c => unquoted (c_value_text c)) cs ->
  omap buildConditionPayload (omap reshown_condition cs) = omap buildConditionPayload cs.
Proof.
  induction cs as [|c cs IH]; [done|]. intros [Ht Hts]%Forall_cons [Hw Hws]%Forall_cons [Hu Hus]%Forall_cons.
  cbn [omap list_omap]. rewrite <-(build_condition_again c) by done.
  destruct (reshown_condition c); cbn [omap list_omap]; by rewrite IH.
Qed.

(** The payload in terms of what it is made of. *)
Definition payload_of (meta : Meta) (mode description path from to : jstr) (value : json) (keep : bool)
    (conditions : list (list (jstr * json))) (logic : jstr) : list (jstr * json) :=
  let payload := [(js "mode", JStr mode)] in
  let payload := put (truthy description) (js "description") (JStr description) payload in
  let payload := put (m_path meta) (js "path") (JStr path) payload in
  let payload := put (m_pathOptional meta && truthy path) (js "path") (JStr path) payload in
  let payload := put (m_value meta) (js "value") value payload in
  let payload := put (m_keepOrigin meta && keep) (js "keep_origin") (JBool true) payload in
  let payload := put (m_from meta) (js "from") (JStr from) payload in
  let payload := put (negb (is_to meta) && truthy to) (js "to") (JStr to) payload in
  let payload := put (is_to meta) (js "to") (JStr to) payload in
  let payload := put (m_pathAlias meta && falsy_prop (js "from") payload && truthy path)
                   (js "from") (JStr path) payload in
  let payload := put (m_pathAlias meta && falsy_prop (js "to") payload && truthy path)
                   (js "to") (JStr path) payload in
  let payload := put (0 <? length conditions)%nat (js "conditions") (JArr (List.map JObj conditions)) payload in
  put (0 <? length conditions)%nat (js "logic") (JStr logic) payload.

Lemma operation_payload_of op :
  operation_payload op =
  payload_of (meta_of (str_or (o_mode op) (js "set"))) (str_or (o_mode op) (js "set")) (trim (o_description op))
    (trim (o_path op)) (trim (o_from op)) (trim (o_to op)) (parseLooseValue (o_value_text op))
    (o_keep_origin op) (omap buildConditionPayload (o_conditions op))
    (if o_logic op === js "AND" then js "AND" else js "OR").
Proof. reflexivity. Qed.

Definition METAS : list Meta := [path_meta; write_meta; from_to_meta; replace_meta; path_value_meta;
  meta_of (js "return_error"); meta_of (js "prune_objects"); meta_of (js "pass_headers"); header_copy_meta].

Lemma meta_listed mode : meta_of mode ∈ METAS.
Proof.
  assert (Forall (fun p => p.2 ∈ METAS) MODE_META) as Hall by (repeat constructor; cbn [snd]; unfold METAS; set_solver).
  unfold meta_of. destruct (obj_get mode MODE_META) as [m|] eqn:E; [|by right; left].
  induction Hall as [|[k m'] l Hm _ IH]; [done|]. cbn [obj_get] in E.
  destruct (mode === k); [by injection E as ->|]. by apply IH.
Qed.

(** Dropping the unused fields, and writing the path as source and target
    beforehand, leaves the payload as it is. *)
Lemma payload_of_reopened mode description path from to value value' keep conditions logic logic' :
  let meta := meta_of mode in
  (m_value meta = true -> value' = value) -> (conditions <> [] -> logic' = logic) ->
  payload_of meta mode description (if m_path meta || m_pathOptional meta then path else [])
    (if m_pathAlias meta then str_or (if m_from meta then from else []) path else if m_from meta then from else [])
    (if m_pathAlias meta then str_or to path else to) value' (m_keepOrigin meta && keep) conditions logic' =
  payload_of meta mode description path from to value keep conditions logic.
Proof.
  cbv zeta. intros Hv Hl. pose proof (meta_listed mode) as Hm. revert Hv Hm. generalize (meta_of mode). intros meta Hv Hm.
  unfold payload_of. set (f := put (0 <? _) _).
  assert (forall p, put (0 <? length conditions)%nat (js "logic") (JStr logic') p =
                    put (0 <? length conditions)%nat (js "logic") (JStr logic) p) as ->.
  { intros p. destruct conditions; [done|]. by rewrite Hl. }
  do 2 f_equal. clear f Hl.
  repeat (apply elem_of_cons in Hm as [->|Hm]); [..|by apply not_elem_of_nil in Hm];
    cbn [m_path m_pathOptional m_value m_from m_to m_keepOrigin m_pathAlias orb andb] in *;
    try (rewrite (Hv eq_refl)); clear Hv; destruct description, path, from, to, keep; vm_compute; reflexivity.
Qed.

(** Filling a missing source or target with the path. *)
Lemma trimmed_alias (alias : bool) s path :
  trim s = s -> trim (if alias then str_or s (trim path) else s) = if alias then str_or s (trim path) else s.
Proof. intros H. destruct alias; [|done]. destruct s; cbn [str_or truthy]; [apply trim_idem|done]. Qed.

Lemma trimmed_choice (c : bool) s : trim (if c then trim s else []) = if c then trim s else [].
Proof. destruct c; [apply trim_idem|done]. Qed.

Lemma payload_reopened op :
  typed op -> writable op -> values_unquoted op -> operation_payload (reopened op) = operation_payload op.
Proof.
  intros Ht (_ & _ & _ & _ & Hv & Hw) [Hu Hus]. rewrite !operation_payload_of.
  change (o_mode (reopened op)) with (o_mode op). rewrite !(mode_not_empty op Ht).
  unfold reopened. cbn [o_description o_path o_from o_to o_value_text o_keep_origin o_logic o_conditions].
  rewrite conditions_again by (done || apply Ht).
  rewrite !trimmed_alias, !trimmed_choice, !trim_idem by (apply trimmed_choice || apply trim_idem).
  apply payload_of_reopened.
  - intros ->. by apply reshown_same.
  - intros Hne. rewrite <-conditions_reshown by apply Ht. destruct (omap buildConditionPayload _); [done|].
    cbn [List.map]. done.
Qed.

Lemma payload_erase op : operation_payload (erase op) = operation_payload op.
Proof.
  assert (omap buildConditionPayload (List.map erase_condition (o_conditions op)) =
          omap buildConditionPayload (o_conditions op)) as H.
  { induction (o_conditions op) as [|c cs IH]; [done|]. cbn [List.map omap list_omap].
    change (buildConditionPayload (erase_condition c)) with (buildConditionPayload c).
    by destruct (buildConditionPayload c); rewrite IH. }
  unfold operation_payload, erase. cbn [o_conditions o_mode o_description o_path o_from o_to o_value_text o_keep_origin o_logic].
  by rewrite H.
Qed.

(** ** Validation *)

Lemma loose_object t o : parseLooseValue t = JObj o <-> JSON_parse (trim t) = Ret (JObj o).
Proof.
  unfold parseLooseValue. destruct (trim t === []) eqn:E; [apply (proj1 (js_eqb_true _ _)) in E; by rewrite E|].
  destruct (JSON_parse (trim t)); cbn [try_catch]; naive_solver.
Qed.

(** Whether the message of an error object is more than white space (one that has
    no text at all passes). *)
Definition has_message (o : list (jstr * json)) : bool :=
  match to_String (or_else (obj_get (js "message") o) (JStr [])) with Ret s => truthy (trim s) | Throw => true end.

Definition given (s : jstr) : Prop := trim s <> [].

(** What each mode needs. *)
Record complete (op : ParamOverrideOperation) : Prop := MkComplete {
  has_path : m_path (meta_of (o_mode op)) = true -> given (o_path op);
  has_from : o_mode op ∈ FROM_REQUIRED_MODES ->
    given (o_from op) \/ m_pathAlias (meta_of (o_mode op)) = true /\ given (o_path op);
  has_to : o_mode op ∈ TO_REQUIRED_MODES ->
    given (o_to op) \/ m_pathAlias (meta_of (o_mode op)) = true /\ given (o_path op);
  has_value : o_mode op ∈ VALUE_REQUIRED_MODES -> given (o_value_text op);
  error_has_message : forall o, o_mode op = js "return_error" ->
    parseLooseValue (o_value_text op) = JObj o -> has_message o = true;
  headers_named : o_mode op = js "pass_headers" ->
    exists h hs, parsePassHeaderNames (parseLooseValue (o_value_text op)) = Ret (h :: hs)
}.

Lemma given_truthy s : given s <-> truthy (trim s) = true.
Proof. unfold given. by rewrite truthy_true. Qed.

(** The flags of the modes that need a source, a target or a value. *)
Lemma mode_flags mode : mode ∈ OPERATION_MODE_VALUES ->
  (mem mode FROM_REQUIRED_MODES = true -> m_from (meta_of mode) = true) /\
  (mem mode VALUE_REQUIRED_MODES = true \/ mode = js "return_error" \/ mode = js "prune_objects" \/ mode = js "pass_headers" ->
    m_value (meta_of mode) = true) /\
  (m_pathAlias (meta_of mode) = true -> m_path (meta_of mode) = false) /\
  (mode = js "set" -> m_path (meta_of mode) = true).
Proof.
  intros Hin. pose (check m := (negb (mem m FROM_REQUIRED_MODES) || m_from (meta_of m)) &&
    (negb (mem m VALUE_REQUIRED_MODES || (m === js "return_error") || (m === js "prune_objects") || (m === js "pass_headers"))
     || m_value (meta_of m)) && (negb (m_pathAlias (meta_of m)) || negb (m_path (meta_of m))) &&
    (negb (m === js "set") || m_path (meta_of m))).
  assert (forallb check OPERATION_MODE_VALUES = true) as H by (vm_compute; reflexivity).
  rewrite forallb_forall in H. specialize (H mode). apply list_elem_of_In in Hin. specialize (H Hin).
  unfold check in H. rewrite !andb_true_iff in H. destruct H as [[[H1 H2] H3] H4].
  split; [|split; [|split]].
  - intros E. by rewrite E in H1.
  - intros E. destruct (m_value _); [done|]. rewrite orb_false_r in H2.
    destruct E as [E|[E|[E|E]]]; rewrite E in H2; rewrite ?js_eqb_refl, ?orb_true_r in H2; done.
  - intros E. rewrite E in H3. by destruct (m_path _).
  - intros ->. by vm_compute.
Qed.

(** A guard that is not taken. *)
Lemma guard_free (need have : bool) : need && negb have = false <-> (need = true -> have = true).
Proof. destruct need, have; naive_solver. Qed.

Lemma guard_free_alias (need have alias path : bool) :
  need && negb have && negb (alias && path) = false <-> (need = true -> have = true \/ alias = true /\ path = true).
Proof. destruct need, have, alias, path; naive_solver. Qed.

Lemma first_guard (c : bool) (m : option message) (r : result (option message)) :
  m <> None -> ((if c then Ok m else r) = Ok None <-> c = false /\ r = Ok None).
Proof. destruct c; naive_solver. Qed.

Lemma blank_value raw : (raw === []) = negb (truthy raw).
Proof. destruct raw; [done|]. by apply js_eqb_ne. Qed.

Lemma validate_operation_ok op line :
  typed op -> (validate_operation op line = Ok None <-> complete op).
Proof.
  intros Ht. unfold validate_operation. cbv zeta. rewrite (mode_not_empty op Ht), blank_value.
  rewrite !first_guard by done. rewrite !guard_free_alias, !guard_free, !mem_true, <-!given_truthy, loose_trim.
  split.
  - intros (H1 & H2 & H3 & H4 & H5). constructor; try done.
    + intros o Em Hv. rewrite Em in H4, H5. rewrite js_eqb_refl in H5.
      apply loose_object in Hv. rewrite Hv in H5. apply first_guard in H5 as [_ H5]; [|done].
      unfold has_message. destruct (to_String _); [|done]. by destruct (truthy _).
    + intros Em. rewrite Em in H4, H5. revert H5. lit_keys. rewrite first_guard by done. intros [_ H5].
      destruct (parsePassHeaderNames _) as [[|h hs]|]; try done. by eexists _, _.
  - intros [H1 H2 H3 H4 H5 H6]. repeat (split; [done|]).
    destruct (o_mode op === js "return_error") eqn:E1.
    { apply (proj1 (js_eqb_true _ _)) in E1. rewrite E1 in H4. rewrite first_guard by done.
      split; [apply negb_false_iff, given_truthy, H4; by apply mem_true|].
      destruct (JSON_parse _) as [[]|] eqn:Ep; try done. apply loose_object in Ep. specialize (H5 _ E1 Ep).
      unfold has_message in H5. destruct (to_String _); [|done]. by rewrite H5. }
    destruct (o_mode op === js "prune_objects") eqn:E2.
    { apply (proj1 (js_eqb_true _ _)) in E2. rewrite E2 in H4. rewrite first_guard by done.
      split; [apply negb_false_iff, given_truthy, H4; by apply mem_true|done]. }
    destruct (o_mode op === js "pass_headers") eqn:E3; [|done].
    apply (proj1 (js_eqb_true _ _)) in E3. rewrite E3 in H4. rewrite first_guard by done.
    split; [apply negb_false_iff, given_truthy, H4; by apply mem_true|].
    destruct (H6 E3) as (h & hs & ->). done.
Qed.

(** A reported message names the rule that was checked. *)
Lemma validate_operation_line op line m :
  validate_operation op line = Ok (Some m) -> msg_line m = Some line.
Proof.
  unfold validate_operation, rule_message. cbv zeta.
  repeat match goal with |- context [if ?c then _ else _] => destruct c end;
    repeat match goal with |- context [match ?c with _ => _ end] => destruct c end; by intros [= <-].
Qed.

Lemma validate_from_ok k ops : Forall typed ops -> (validate_from k ops = Ok None <-> Forall complete ops).
Proof.
  intros Ht. revert k. induction Ht as [|op ops Hop Ht IH]; intros k; [by split; constructor|].
  cbn [validate_from]. rewrite Forall_cons, <-(validate_operation_ok op (k + 1) Hop), <-(IH (S k)).
  destruct (validate_operation op (k + 1)) as [[m|]|m]; naive_solver.
Qed.

(** The first rule that fails. *)
Lemma validate_from_first k ops m :
  Forall typed ops -> validate_from k ops = Ok (Some m) ->
  exists i op, ops !! i = Some op /\ msg_line m = Some (S (k + i)) /\ ~ complete op /\ Forall complete (take i ops).
Proof.
  intros Ht. revert k. induction Ht as [|op ops Hop Ht IH]; intros k; [done|].
  cbn [validate_from]. pose proof (validate_operation_ok op (k + 1) Hop) as Hok.
  destruct (validate_operation op (k + 1)) as [[m'|]|m'] eqn:E; [|intros H|done].
  - intros [= <-]. exists 0, op. split; [done|]. split; [|split; [naive_solver|constructor]].
    rewrite (validate_operation_line op (k + 1) m' E). f_equal. lia.
  - destruct (IH (S k) H) as (i & o & Hi & Hl & Hc & Hb). exists (S i), o.
    split; [done|]. split; [rewrite Hl; f_equal; lia|]. split; [done|]. constructor; [by apply Hok|done].
Qed.

(** The check lets the rules pass exactly when every one of them has what its
    mode needs; otherwise it reports the first one that does not, by its number. *)
Lemma validate_exact ops :
  Forall typed ops ->
  (validateOperations ops = Ok None <-> Forall complete ops) /\
  (forall m, validateOperations ops = Ok (Some m) ->
     exists i op, ops !! i = Some op /\ msg_line m = Some (S i) /\ ~ complete op /\ Forall complete (take i ops)).
Proof.
  intros Ht. split; [by apply validate_from_ok|]. intros m Hm. by apply (validate_from_first 0).
Qed.

(** *** Reopened rules are still typed and complete *)

Lemma typed_reopened op : typed op -> typed (reopened op).
Proof.
  intros (Hm & Hl & Hc). split; [done|]. cbn [reopened o_logic o_conditions]. split.
  - destruct (omap reshown_condition _); [by right|done].
  - apply Forall_forall. intros c' (c & Hin & E)%list_elem_of_omap. rewrite Forall_forall in Hc.
    unfold reshown_condition in E. destruct (truthy _); [|done]. injection E as <-. by apply (Hc c).
Qed.

Lemma given_alias (alias : bool) s path :
  given s \/ alias = true /\ given path -> given (if alias then str_or (trim s) (trim path) else trim s).
Proof.
  unfold given. destruct alias; [|rewrite trim_idem; naive_solver].
  destruct (trim s) eqn:E; cbn [str_or truthy]; [rewrite trim_idem; naive_solver|].
  intros _. by rewrite <-E, trim_idem, E.
Qed.

Lemma complete_reopened op :
  typed op -> writable op -> values_unquoted op -> complete op -> complete (reopened op).
Proof.
  intros Ht (_ & _ & _ & _ & Hv & _) [Hu _] [H1 H2 H3 H4 H5 H6].
  destruct (mode_flags (o_mode op)) as (F1 & F2 & F3 & _); [apply Ht|].
  destruct (reshown_same _ Hu Hv) as [Hs Hn].
  constructor; cbn [reopened o_mode o_path o_from o_to o_value_text].
  - intros Hp. rewrite Hp. cbn [orb]. unfold given. rewrite trim_idem. by apply H1.
  - intros Hf. left. rewrite F1 by (by apply mem_true). apply given_alias, H2, Hf.
  - intros Hto. left. apply given_alias, H3, Hto.
  - intros Hin. rewrite F2 by (left; by apply mem_true). apply given_truthy. rewrite Hn. by apply given_truthy, H4.
  - intros o Em. rewrite F2 by tauto. rewrite Hs. by apply H5.
  - intros Em. rewrite F2 by tauto. rewrite Hs. by apply H6.
Qed.

Lemma complete_not_blank op : typed op -> complete op -> isOperationBlank op = false.
Proof.
  intros Ht [Hp _ _ _ _ _]. destruct (mode_flags (o_mode op)) as (_ & _ & _ & F); [apply Ht|].
  unfold isOperationBlank. cbv zeta. destruct (o_mode op === js "set") eqn:E; [|done].
  apply (proj1 (js_eqb_true _ _)) in E. rewrite (proj1 (given_truthy _) (Hp (F E))). done.
Qed.

(** Rules that are the same up to identifiers are checked and written the same. *)
Lemma build_erased rs os :
  List.map erase rs = List.map erase os -> Forall typed rs -> Forall complete rs -> rs <> [] ->
  buildOperationsJson rs true = Ok (operations_text os).
Proof.
  intros He Ht Hc Hne. unfold buildOperationsJson.
  assert (nonblank rs = rs) as ->.
  { apply lfilter_id. rewrite Forall_forall in *. intros o Ho. by rewrite complete_not_blank by auto. }
  destruct (length rs =? 0)%nat eqn:E; [apply Nat.eqb_eq in E; by destruct rs|].
  unfold validateOperations. rewrite (proj2 (validate_from_ok 0 rs Ht) Hc). f_equal. unfold operations_text. do 5 f_equal.
  assert (forall l, List.map (fun o => JObj (operation_payload o)) l =
                    List.map (fun o => JObj (operation_payload o)) (List.map erase l)) as Hm.
  { intros l. rewrite map_map. apply map_ext. intros o. by rewrite payload_erase. }
  by rewrite (Hm rs), (Hm os), He.
Qed.

Lemma typed_erase o : typed (erase o) <-> typed o.
Proof.
  unfold typed, erase. cbn [o_mode o_logic o_conditions]. do 2 (apply and_iff_compat_l).
  induction (o_conditions o) as [|c cs IH]; [done|]. cbn [List.map]. by rewrite !Forall_cons, IH.
Qed.

Lemma complete_erase o : complete (erase o) <-> complete o.
Proof. split; intros []; by constructor. Qed.

Lemma erase_reopened op : erase (reopened op) = reopened op.
Proof.
  unfold erase. cbn [reopened o_description o_path o_mode o_from o_to o_value_text o_keep_origin o_logic o_conditions].
  unfold reopened. f_equal. induction (o_conditions op) as [|c cs IH]; [done|]. cbn [omap list_omap].
  destruct (reshown_condition c) as [c'|] eqn:E; [|done]. cbn [List.map]. rewrite IH. f_equal.
  unfold reshown_condition in E. destruct (truthy _); [|done]. by injection E as <-.
Qed.

Lemma Forall_reopened (P : ParamOverrideOperation -> Prop) rs ops :
  (forall o, P (erase o) <-> P o) -> List.map erase rs = List.map reopened ops ->
  Forall P (List.map reopened ops) -> Forall P rs.
Proof.
  intros HP <-. induction rs as [|r rs IH]; [constructor|]. cbn [List.map]. rewrite !Forall_cons, HP. naive_solver.
Qed.

Lemma built_complete ops text :
  Forall typed ops -> nonblank ops <> [] -> buildOperationsJson ops true = Ok text -> Forall complete (nonblank ops).
Proof.
  intros Ht%nonblank_Forall Hne. unfold buildOperationsJson. destruct (length _ =? 0)%nat eqn:E.
  - apply Nat.eqb_eq in E. by destruct (nonblank ops).
  - intros Hb. apply (validate_from_ok 0 _ Ht). unfold validateOperations in Hb.
    by destruct (validate_from 0 (nonblank ops)) as [[]|].
Qed.

Lemma text_reopened os :
  Forall typed os -> Forall writable os -> Forall values_unquoted os ->
  operations_text (List.map reopened os) = operations_text os.
Proof.
  intros Ht Hw Hu. unfold operations_text. do 5 f_equal. rewrite map_map. apply map_ext_in.
  intros o Ho%list_elem_of_In. rewrite Forall_forall in Ht, Hw, Hu. by rewrite payload_reopened by auto.
Qed.

(** Saved rules are stable: reopening the dialog on the text it saved and saving
    again writes the same text, unless a value was typed as a JSON string. *)
Lemma resave_same clock n ops text :
  Forall typed ops -> Forall writable ops -> Forall values_unquoted ops ->
  nonblank ops <> [] -> buildOperationsJson ops true = Ok text ->
  exists st n', parseInitialState clock text n = (Ret st, n') /\ buildOperationsJson (i_operations st) true = Ok text.
Proof.
  intros Ht Hw Hu Hne Hb. pose proof (built_complete _ _ Ht Hne Hb) as Hc.
  apply built_text in Hb as ->; [|done].
  apply nonblank_Forall in Ht, Hw, Hu. set (os := nonblank ops) in *. clearbody os.
  destruct (reopen_text clock n os) as (rs & n' & E & Hrs); [done..|].
  eexists _, n'. split; [exact E|]. cbn [i_operations]. rewrite <-text_reopened by done.
  rewrite Forall_forall in Ht, Hw, Hu, Hc.
  apply build_erased.
  - rewrite Hrs, map_map. apply map_ext. intros o. by rewrite erase_reopened.
  - eapply Forall_reopened; [exact typed_erase|exact Hrs|]. apply Forall_forall.
    intros o (o' & -> & Ho)%list_elem_of_fmap. by apply typed_reopened, Ht.
  - eapply Forall_reopened; [exact complete_erase|exact Hrs|]. apply Forall_forall.
    intros o (o' & -> & Ho)%list_elem_of_fmap. apply complete_reopened; auto.
  - intros ->. by destruct os.
Qed.

(** ** Examples *)

(** A rule with a number and a condition, a header rule that takes its names from
    the path, and a blank rule. *)
Definition sample_rules : list ParamOverrideOperation := [
  MkOperation (js "a") (js " defaults ") (js "temperature") (js "set") [] [] (js " 0.7 ") true (js "AND")
    [MkCondition (js "c") (js "model ") (js "prefix") (js "openai/") true false;
     MkCondition (js "d") [] (js "full") (js "1") false false];
  MkOperation (js "b") [] (js "X-Trace") (js "copy_header") [] (js "X-Up") [] false (js "OR") [];
  MkOperation (js "e") (js "nothing yet") [] (js "set") [] [] [] false (js "OR") []].

Definition sample_text : jstr :=
  match buildOperationsJson sample_rules true with Ok t => t | Err _ => [] end.

Lemma sample_built : buildOperationsJson sample_rules true = Ok sample_text.
Proof. vm_compute. reflexivity. Qed.

Lemma sample_nonblank : nonblank sample_rules <> [].
Proof. intros H%(f_equal (@length _)). by vm_compute in H. Qed.

Ltac in_list := apply mem_true; vm_compute; reflexivity.

Lemma sample_typed : Forall typed sample_rules.
Proof.
  repeat (apply Forall_cons; split); try (by constructor);
    (split; [in_list|split; [by (left; reflexivity) || (right; reflexivity)|]]);
    repeat constructor; in_list.
Qed.

Ltac writable_eval :=
  match goal with
  | |- utf16 _ => by apply utf16b_spec
  | |- Forall ?P ?l => let l' := eval hnf in l in change (Forall P l'); constructor; writable_eval
  | |- _ /\ _ => split; writable_eval
  | |- json_ok ?v =>
      let w := eval vm_compute in v in change v with w; cbn [json_ok];
      first [by apply utf16b_spec | num_ok_eval | exact I]
  | |- writable _ => unfold writable; writable_eval
  | |- condition_writable _ => unfold condition_writable; writable_eval
  end.

Lemma sample_writable : Forall writable sample_rules.
Proof. unfold sample_rules. writable_eval. Qed.

Lemma sample_unquoted : Forall values_unquoted sample_rules.
Proof. repeat constructor. Qed.

Lemma save_reopen_witness : exists rs n',
    parseInitialState (fun _ => 7%N) sample_text 3%N =
      (Ret (MkEditorState visual operations_mode [] rs sample_text []), n') /\
    List.map erase rs = List.map rule_again (nonblank sample_rules).
Proof.
  apply (save_reopen (fun _ => 7%N) 3%N sample_rules true sample_text sample_typed sample_writable sample_nonblank sample_built).
Defined.

Lemma resave_same_witness : exists st n',
    parseInitialState (fun _ => 7%N) sample_text 3%N = (Ret st, n') /\
    buildOperationsJson (i_operations st) true = Ok sample_text.
Proof.
  apply (resave_same (fun _ => 7%N) 3%N sample_rules sample_text sample_typed sample_writable sample_unquoted
    sample_nonblank sample_built).
Defined.

Lemma validate_exact_witness :
  Forall complete (nonblank sample_rules) /\
  exists i op, sample_rules !! i = Some op /\ Some 3 = Some (S i) /\ ~ complete op /\ Forall complete (take i sample_rules).
Proof.
  split.
  - apply (proj1 (validate_exact (nonblank sample_rules) (nonblank_Forall _ _ sample_typed))). vm_compute. reflexivity.
  - apply (proj2 (validate_exact sample_rules sample_typed) (Msg (js "Rule {{line}} is missing target path") (Some 3))).
    vm_compute. reflexivity.
Defined.

(** What reopening and saving again makes of a text. *)
Definition resaved (text : jstr) : result jstr :=
  match parseInitialState (fun _ => 0%N) text 0%N with
  | (Ret st, _) => buildOperationsJson (i_operations st) true
  | (Throw, _) => Err TYPE_ERROR
  end.

(** A value typed as a JSON string keeps its type only until the rules are opened
    again: the quotes are not shown, and the next save writes a number. *)
Lemma quoted_number_retyped :
  let quoted := [MkOperation (js "a") [] (js "user") (js "set") [] [] (dq ++ js "123" ++ dq) false (js "OR") []] in
  let plain := [MkOperation (js "a") [] (js "user") (js "set") [] [] (js "123") false (js "OR") []] in
  let text := operations_text quoted in
  buildOperationsJson quoted true = Ok text /\ resaved text = Ok (operations_text plain) /\
  operation_payload <$> quoted <> operation_payload <$> plain.
Proof. cbv zeta. split; [|split]; [vm_compute; reflexivity..|]. intros H. vm_compute in H. discriminate H. Qed.

(** Keys beside the operations, which the gateway applies as well, are lost. *)
Lemma other_keys_lost :
  let op := [(js "mode", JStr (js "delete")); (js "path", JStr (js "seed"))] in
  let text := JSON_pretty (JObj [(js "max_tokens", JNum (num_of_Z 1000)); (js "operations", JArr [JObj op])]) in
  resaved text = Ok (JSON_pretty (JObj [(js "operations", JArr [JObj op])])).
Proof. vm_compute. reflexivity. Qed.

(** A null among the operations makes opening the dialog throw. *)
Lemma null_operation_throws :
  parseInitialState (fun _ => 0%N) (JSON_pretty (JObj [(js "operations", JArr [JNull])])) 0%N = (Throw, 1%N).
Proof. vm_compute. reflexivity. Qed.

(** A number too large for a double is saved as null. *)
Lemma huge_number_nulled :
  JSON_stringify (parseLooseValue (js "1e999")) = js "null".
Proof. vm_compute. reflexivity. Qed.
