(* ===== verification/ParamDrafts.v ===== *)
(** * Drafts of single values of parameter override rules

    The editors of [sync_fields], [return_error] and [prune_objects] keep no state
    of their own: they parse the value's text, change the draft and write the text
    again.  What a draft reads back as is what the next edit starts from. *)
From S2P Require Import Prelude Numbers Json JsonRoundtrip JsonPretty ParamOverride ParamSave.

(** ** Targets of [sync_fields] *)

Lemma spec_trimmed w c s : solid w -> w <> [] -> is_ws c = false -> trimmed s -> s <> [] -> trimmed (w ++ c :: s).
Proof.
  intros Hw Hne Hc Hs Hs'. destruct w as [|a w]; [done|]. apply Forall_cons in Hw as [Ha _].
  destruct (exists_last Hs') as (s' & d & ->).
  assert (is_ws d = false) as Hd by (apply (trimmed_last (s' ++ [d])); [done|by rewrite last_snoc]).
  rewrite app_comm_cons, app_assoc. cbn [app]. by apply (trimmed_ends a (w ++ c :: s') d).
Qed.

(** A target of a sync rule reads back from its text as the kind and the trimmed
    key it was built from; with an empty key there is no text, and the kind reads
    back as a body field. *)
Lemma sync_target_roundtrip type key :
  parseSyncTargetSpec (buildSyncTargetSpec type key) =
  if truthy (trim key)
  then MkSyncTarget (if type === js "header" then js "header" else js "json") (trim key)
  else MkSyncTarget (js "json") [].
Proof.
  unfold buildSyncTargetSpec. cbv zeta. destruct (truthy (trim key)) eqn:E; cbn [negb]; [|done].
  apply truthy_true in E. set (t := if type === js "header" then js "header" else js "json").
  assert (solid t /\ t <> [] /\ 58%N ∉ t /\ (lower (trim t) === js "header") = (type === js "header") /\
          (if type === js "header" then js "header" else js "json") = t) as (H1 & H2 & H3 & H4 & H5).
  { unfold t. destruct (type === js "header"); (split; [by repeat constructor|]); split; [done| |done|];
      (split; [apply mem_false; vm_compute; reflexivity|done]). }
  clearbody t. unfold parseSyncTargetSpec. change (js ":") with [58%N]. cbn [app].
  rewrite (spec_trimmed t 58%N (trim key)) by (done || apply trimmed_trim).
  rewrite (proj2 (truthy_true _)) by (by destruct t). cbn [negb]. rewrite index_of_head by done.
  rewrite take_app_length, drop_app, drop_ge by lia. replace (S (length t) - length t) with 1 by lia.
  change (drop 1 (58%N :: trim key)) with (trim key). cbn [app]. rewrite trim_idem, H4, <-H5. by destruct (type === js "header").
Qed.

(** ** Drafts of [return_error] *)

(** A status in range is the double of its integer. *)
Definition status_canonical (x : number) : Prop :=
  forall z, int_of_num x = Some z -> (100 <= z <= 599)%Z -> x = num_of_Z z.

(** All status codes print and read back, and are kept. *)
Definition status_check (z : Z) : bool :=
  let x := num_of_Z z in
  is_finite x && (num_to_str x === dec_digits (Z.to_N z)) && bool_decide (num_of_dec false (Z.to_N z) 0 = x) &&
  bool_decide (status_or_400 x = x).

Lemma status_checks : forallb status_check (seqZ 100 500) = true.
Proof. vm_compute. reflexivity. Qed.

Lemma status_good z : (100 <= z <= 599)%Z -> num_ok (num_of_Z z) /\ status_or_400 (num_of_Z z) = num_of_Z z.
Proof.
  intros Hz. pose proof status_checks as H. rewrite forallb_forall in H. specialize (H z).
  rewrite <-list_elem_of_In, elem_of_seqZ in H. specialize (H ltac:(lia)). unfold status_check in H.
  rewrite !andb_true_iff, !bool_decide_eq_true, js_eqb_true in H. destruct H as [[[H1 H2] H3] H4].
  split; [|done]. by apply (num_ok_digits _ (Z.to_N z)).
Qed.

Lemma status_or_400_good x : status_canonical x ->
  num_ok (status_or_400 x) /\ status_or_400 (status_or_400 x) = status_or_400 x.
Proof.
  intros Hx. unfold status_or_400 at 1 3 4. destruct (int_of_num x) as [z|] eqn:E; [|by apply status_good].
  destruct ((100 <=? z) && (z <=? 599))%Z eqn:Ez; [|by apply status_good].
  apply andb_true_iff in Ez as [H1%Z.leb_le H2%Z.leb_le].
  rewrite (Hx z E) by lia. by apply status_good.
Qed.

(** A draft as its text keeps it. *)
Definition error_kept (d : ReturnErrorDraft) : ReturnErrorDraft :=
  if e_simpleMode d then plain_error_draft (trim (e_message d))
  else MkErrorDraft (trim (e_message d)) (status_or_400 (e_statusCode d)) (trim (e_code d)) (trim (e_type d))
         (e_skipRetry d) false.

Definition error_writable (d : ReturnErrorDraft) : Prop :=
  utf16 (e_message d) /\ utf16 (e_code d) /\ utf16 (e_type d) /\ status_canonical (e_statusCode d).

Lemma error_payload_ok d : error_writable d -> obj_ok (error_payload d).
Proof.
  intros (Hm & Hc & Ht & Hs). unfold error_payload. cbv zeta.
  repeat (apply put_ok; [done|by apply utf16b_spec|try done; by apply trim_utf16|]).
  split; [by apply plain_ordered|].
  apply Forall_cons. split; [split; [by apply utf16b_spec|by apply trim_utf16]|].
  apply Forall_singleton. split; [by apply utf16b_spec|by apply status_or_400_good].
Qed.

(** [String(x || '')] of a text that is present only when it is not empty. *)
Lemma text_or_empty (s : jstr) :
  to_String (or_else (if truthy s then Some (JStr s) else None) (JStr [])) = Ret s.
Proof. by destruct s. Qed.

(** The draft of a custom error reads back from the text it writes: message,
    status, code, type and retry flag of the full form (the status 400 when it is not
    an HTTP status), the message alone of the simple form, unless that message is
    itself the text of a JSON object. *)
Lemma error_draft_roundtrip d :
  error_writable d ->
  (e_simpleMode d = true -> forall o, JSON_parse (trim (e_message d)) <> Ret (JObj o)) ->
  parseReturnErrorDraft (buildReturnErrorValueText d) = error_kept d.
Proof.
  intros Hw Hs. unfold parseReturnErrorDraft, buildReturnErrorValueText, error_kept.
  destruct (e_simpleMode d); cbv zeta.
  - rewrite trim_idem. specialize (Hs eq_refl). destruct (trim (e_message d)) as [|c s]; [done|]. cbn [truthy negb].
    destruct (JSON_parse (c :: s)) as [[]|]; try done. by destruct (Hs o).
  - pose proof (error_payload_ok d Hw) as Hok%obj_ok_json. rewrite (stringify_trimmed _).
    rewrite (proj2 (truthy_true _)) by (by apply (write_not_nil _ eq_refl)). cbn [negb].
    rewrite (read_write _ Hok). unfold error_draft_of, error_payload. cbv zeta. get_keys.
    cbn [to_Number obind]. rewrite (proj2 (status_or_400_good _ (proj2 (proj2 (proj2 Hw))))).
    assert (to_String (or_else (Some (JStr (trim (e_message d)))) (or_else None (JStr []))) = Ret (trim (e_message d))) as ->
      by (by destruct (trim (e_message d))).
    cbn [obind]. rewrite !text_or_empty. cbn [obind try_catch]. rewrite !trim_idem. by destruct (e_skipRetry d).
Qed.

(** ** Drafts of [prune_objects] *)

Definition erase_draft (d : PruneObjectsDraft) : PruneObjectsDraft :=
  MkPruneDraft (p_simpleMode d) (p_typeText d) (p_logic d) (p_recursive d) (List.map erase_condition (p_rules d)).

(** A full draft as its text keeps it: rules without path are dropped; a draft with
    neither type nor rules is reset; one with nothing but a type is a simple one. *)
Definition prune_kept (d : PruneObjectsDraft) : PruneObjectsDraft :=
  let rules := omap reshown_condition (p_rules d) in
  let type := trim (p_typeText d) in
  match rules, type with
  | [], [] => MkPruneDraft false [] (js "AND") true []
  | _, _ => MkPruneDraft ((p_logic d === js "AND") && p_recursive d && match rules with [] => true | _ => false end)
              type (p_logic d) (p_recursive d) rules
  end.

Definition prune_typed (d : PruneObjectsDraft) : Prop :=
  (p_logic d = js "AND" \/ p_logic d = js "OR") /\ Forall condition_typed (p_rules d).
Definition prune_writable (d : PruneObjectsDraft) : Prop :=
  utf16 (p_typeText d) /\ Forall condition_writable (p_rules d).

Lemma prune_condition_reshown r : condition_typed r -> truthy (trim (c_path r)) = true ->
  reshown_condition r = Some (condition_of [] (prune_condition r)).
Proof.
  intros Ht%mem_true Hp. unfold reshown_condition, condition_of, prune_condition. rewrite Hp. cbv zeta. get_keys.
  rewrite Ht, loose_trim, mode_reads by (by apply mem_true). f_equal.
  destruct (trim (c_value_text r) === []) eqn:E; cbn [negb].
  - apply (proj1 (js_eqb_true _ _)) in E.
    assert (reshown (c_value_text r) = []) as -> by (unfold reshown, parseLooseValue; by rewrite E).
    by destruct (c_invert r), (c_pass_missing_key r).
  - by destruct (c_invert r), (c_pass_missing_key r).
Qed.

Lemma prune_conditions_reshown rs : Forall condition_typed rs ->
  List.map (condition_of []) (List.map prune_condition (List.filter (fun r => truthy (trim (c_path r))) rs)) =
  omap reshown_condition rs.
Proof.
  induction 1 as [|r rs Hr _ IH]; [done|]. cbn [List.filter omap list_omap].
  destruct (truthy (trim (c_path r))) eqn:E.
  - rewrite prune_condition_reshown by done. cbn [List.map]. by rewrite IH.
  - unfold reshown_condition. by rewrite E.
Qed.

Lemma prune_condition_ok r : condition_typed r -> condition_writable r -> obj_ok (prune_condition r).
Proof.
  intros Ht%mem_true [Hp Hv]. unfold prune_condition. rewrite Ht, loose_trim. cbv zeta.
  repeat (apply put_ok; [done|by apply utf16b_spec|done|]).
  split; [by apply plain_ordered|]. apply Forall_cons. split; [split; [by apply utf16b_spec|by apply trim_utf16]|].
  apply Forall_singleton. split; [by apply utf16b_spec|].
  assert (Forall (fun m => utf16b m = true) CONDITION_MODE_VALUES) as Hall by (by repeat constructor).
  rewrite Forall_forall in Hall. by apply utf16b_spec, Hall, mem_true.
Qed.

Lemma prune_payload_ok d : prune_typed d -> prune_writable d -> obj_ok (prune_payload d).
Proof.
  intros [_ Ht] [Hu Hw]. unfold prune_payload. cbv zeta.
  repeat (apply put_ok; [done|by apply utf16b_spec|try done; try (by apply trim_utf16)|]).
  - apply json_ok_arr, Forall_forall. intros v Hin. rewrite map_map in Hin.
    apply list_elem_of_In, in_map_iff in Hin as (r & <- & Hin). apply list_elem_of_In, elem_of_lfilter in Hin as [Hin _].
    rewrite Forall_forall in Ht, Hw. apply obj_ok_json, prune_condition_ok; auto.
  - by apply utf16b_spec.
  - by split; [apply ordered_nil|constructor].
Qed.

Lemma filter_objects {A} (f : A -> list (jstr * json)) l :
  List.filter is_object_value (List.map (fun x => JObj (f x)) l) = List.map (fun x => JObj (f x)) l.
Proof. induction l as [|x l IH]; [done|]. cbn [List.map List.filter is_object_value]. by rewrite IH. Qed.

Lemma falsy_payload d :
  prune_typed d ->
  falsy_prop (js "type") (prune_payload d) && falsy_prop (js "conditions") (prune_payload d) =
  match omap reshown_condition (p_rules d), trim (p_typeText d) with [], [] => true | _, _ => false end.
Proof.
  intros [_ Ht]. rewrite <-(prune_conditions_reshown _ Ht). unfold falsy_prop, prune_payload. cbv zeta. get_keys.
  rewrite !length_map. set (l := List.filter (fun r => truthy (trim (c_path r))) (p_rules d)). destruct l, (trim (p_typeText d)); reflexivity.
Qed.

Lemma type_or_empty s : trimmed s ->
  match (if truthy s then Some (JStr s) else None) with
  | Some v => let! t := to_String v in Ret (trim t) | None => Ret [] end = Ret s.
Proof. destruct s; [done|]. intros H. cbn [truthy to_String json_String obind]. by rewrite H. Qed.

Lemma prune_draft_of_payload clock d n :
  prune_typed d ->
  exists d' n', prune_draft_of clock (prune_payload d) n = (Ret d', n') /\
    erase_draft d' =
    let rules := omap reshown_condition (p_rules d) in
    MkPruneDraft ((p_logic d === js "AND") && p_recursive d && match rules with [] => true | _ => false end)
      (trim (p_typeText d)) (p_logic d) (p_recursive d) rules.
Proof.
  intros [Hl Ht]. rewrite <-(prune_conditions_reshown _ Ht).
  set (conds := List.map prune_condition (List.filter (fun r => truthy (trim (c_path r))) (p_rules d))).
  destruct (normalize_conditions clock conds n) as (cs & n' & E & Hcs).
  unfold prune_draft_of, prune_payload, obj_has. cbv zeta. fold conds. get_keys.
  assert (to_String (or_else (if upper (str_or (p_logic d) (js "AND")) === js "OR" then Some (JStr (js "OR")) else None) (JStr (js "AND")))
    = Ret (p_logic d)) as -> by (by destruct Hl as [->| ->]).
  assert ((upper (str_or (p_logic d) (js "AND")) === js "OR") = negb (p_logic d === js "AND")) as ->
    by (by destruct Hl as [->| ->]).
  assert ((if upper (p_logic d) === js "OR" then js "OR" else js "AND") = p_logic d) as Hlogic by (by destruct Hl as [->| ->]).
  rewrite type_or_empty by apply trimmed_trim.
  unfold gbind, glift, gret.
  destruct conds as [|p ps] eqn:Ec.
  - cbn [length Nat.ltb Nat.leb]. eexists _, _. split; [reflexivity|]. unfold erase_draft.
    cbn [p_simpleMode p_typeText p_logic p_recursive p_rules app List.map]. rewrite Hlogic.
    by destruct (p_logic d === js "AND"), (p_recursive d).
  - cbn [length Nat.ltb Nat.leb]. change (JObj p :: List.map JObj ps) with (List.map JObj (p :: ps)).
    rewrite (filter_objects id). change (normalizePruneRule clock) with (normalizeCondition clock). change (List.map (fun x => JObj (id x)) ?l) with (List.map JObj l).
    change PruneRule with ParamOverrideCondition. rewrite E. eexists _, _. split; [reflexivity|]. unfold erase_draft.
    cbn [p_simpleMode p_typeText p_logic p_recursive p_rules app]. rewrite Hcs, Hlogic.
    by destruct (p_logic d === js "AND"), (p_recursive d).
Qed.

(** The full draft of a prune rule reads back from the text it writes, up to
    the identifiers of its rules, as described by [prune_kept]. *)
Lemma prune_draft_roundtrip clock n d :
  p_simpleMode d = false -> prune_typed d -> prune_writable d ->
  exists d' n', parsePruneObjectsDraft clock (buildPruneObjectsValueText d) n = (Ret d', n') /\
    erase_draft d' = prune_kept d.
Proof.
  intros Hs Ht Hw. unfold buildPruneObjectsValueText, prune_kept. rewrite Hs, falsy_payload by done. cbv zeta.
  destruct (match omap reshown_condition (p_rules d) with [] => _ | _ => _ end) eqn:E.
  - destruct (omap reshown_condition (p_rules d)), (trim (p_typeText d)); try done. by eexists _, _.
  - pose proof (prune_payload_ok d Ht Hw) as Hok%obj_ok_json. unfold parsePruneObjectsDraft. rewrite (stringify_trimmed _).
    rewrite (proj2 (truthy_true _)) by (by apply (write_not_nil _ eq_refl)). cbn [negb]. rewrite (read_write _ Hok).
    destruct (prune_draft_of_payload clock d n Ht) as (d' & n' & E' & He). exists d', n'.
    unfold gtry, gbind, glift. rewrite E'. split; [done|]. rewrite He.
    by destruct (omap reshown_condition (p_rules d)), (trim (p_typeText d)).
Qed.

(** ** Examples *)

Lemma error_draft_roundtrip_witness :
  let d := MkErrorDraft (js " busy ") (num_of_Z 429) (js "rate_limited") [] false false in
  parseReturnErrorDraft (buildReturnErrorValueText d) =
  MkErrorDraft (js "busy") (num_of_Z 429) (js "rate_limited") [] false false.
Proof.
  cbv zeta. rewrite error_draft_roundtrip; [reflexivity| |discriminate].
  split; [by apply utf16b_spec|]. split; [by apply utf16b_spec|]. split; [constructor|].
  intros z E _. vm_compute in E. injection E as <-. reflexivity.
Defined.

Lemma prune_draft_roundtrip_witness :
  let d := MkPruneDraft false (js "thinking ") (js "OR") true
    [MkCondition (js "x") (js "role") (js "prefix") (js "sys") false true;
     MkCondition (js "y") [] (js "full") [] false false] in
  exists d' n', parsePruneObjectsDraft (fun _ => 5%N) (buildPruneObjectsValueText d) 2%N = (Ret d', n') /\
    erase_draft d' = MkPruneDraft false (js "thinking") (js "OR") true
      [MkCondition [] (js "role") (js "prefix") (js "sys") false true].
Proof.
  apply (prune_draft_roundtrip (fun _ => 5%N) 2%N (MkPruneDraft false (js "thinking ") (js "OR") true
    [MkCondition (js "x") (js "role") (js "prefix") (js "sys") false true;
     MkCondition (js "y") [] (js "full") [] false false])); [reflexivity| |].
  - split; [by right|]. repeat constructor; in_list.
  - split; [by apply utf16b_spec|]. writable_eval.
Defined.

(** Switching a prune rule that has a type to the advanced form does not last: the
    text is that of a simple one. *)
Lemma advanced_form_reverts :
  let advanced := MkPruneDraft false (js "thinking") (js "AND") true [] in
  p_simpleMode (prune_kept advanced) = true.
Proof. vm_compute. reflexivity. Qed.

(** Choosing OR for a draft without type and rules is lost. *)
Lemma empty_draft_logic_lost :
  p_logic (prune_kept (MkPruneDraft false [] (js "OR") false [])) = js "AND".
Proof. vm_compute. reflexivity. Qed.

(** A message that is the text of an object takes the draft out of the simple form
    and is gone. *)
Lemma object_message_lost :
  let d := parseReturnErrorDraft (buildReturnErrorValueText (plain_error_draft (js "{}"))) in
  e_simpleMode d = false /\ e_message d = [].
Proof. vm_compute. done. Qed.
