(* ===== verification/ParamEditor.v ===== *)
(** * The parameter override editor

    The state of the dialog in
    features/channels/components/dialogs/param-override-editor-dialog.tsx and its
    callbacks, as one step function on events.  Identifiers come from a counter, so
    the invariants of the state (rules with different identifiers, one of them
    selected) are proved for every run of the dialog. *)
From S2P Require Import Prelude Numbers Json JsonRoundtrip JsonPretty ParamOverride ParamSave ParamDrafts.

(** ** Templates *)

Definition LEGACY_TEMPLATE : json :=
  JObj [(js "temperature", JNum zero); (js "max_tokens", JNum (num_of_Z 1000))].

Definition condition_json (path mode value : jstr) : json :=
  JObj [(js "path", JStr path); (js "mode", JStr mode); (js "value", JStr value)].

Definition OPERATION_TEMPLATE : json :=
  JObj [(js "operations", JArr [
    JObj [(js "description", JStr (js "Set default temperature for openai/* models."));
          (js "path", JStr (js "temperature"));
          (js "mode", JStr (js "set"));
          (js "value", JNum (Number (js "0.7")));
          (js "conditions", JArr [condition_json (js "model") (js "prefix") (js "openai/")]);
          (js "logic", JStr (js "AND"))]])].

Definition HEADER_PASSTHROUGH_TEMPLATE : json :=
  JObj [(js "operations", JArr [
    JObj [(js "description", JStr (js "Pass through X-Request-Id header to upstream."));
          (js "mode", JStr (js "pass_headers"));
          (js "value", JArr [JStr (js "X-Request-Id")]);
          (js "keep_origin", JBool true)]])].

Definition GEMINI_IMAGE_4K_TEMPLATE : json :=
  JObj [(js "operations", JArr [
    JObj [(js "description", JStr (js "Set imageSize to 4K when model contains gemini/image and ends with 4k."));
          (js "mode", JStr (js "set"));
          (js "path", JStr (js "generationConfig.imageConfig.imageSize"));
          (js "value", JStr (js "4K"));
          (js "conditions", JArr [
            condition_json (js "original_model") (js "contains") (js "gemini");
            condition_json (js "original_model") (js "contains") (js "image");
            condition_json (js "original_model") (js "suffix") (js "4k")]);
          (js "logic", JStr (js "AND"))]])].

Definition CODEX_CLI_HEADER_PASSTHROUGH_HEADERS : list jstr := [
  js "Originator"; js "Session_id"; js "User-Agent"; js "X-Codex-Beta-Features"; js "X-Codex-Turn-Metadata"].

Definition CLAUDE_CLI_HEADER_PASSTHROUGH_HEADERS : list jstr := [
  js "X-Stainless-Arch"; js "X-Stainless-Lang"; js "X-Stainless-Os"; js "X-Stainless-Package-Version";
  js "X-Stainless-Retry-Count"; js "X-Stainless-Runtime"; js "X-Stainless-Runtime-Version";
  js "X-Stainless-Timeout"; js "User-Agent"; js "X-App"; js "Anthropic-Beta";
  js "Anthropic-Dangerous-Direct-Browser-Access"; js "Anthropic-Version"].

Definition buildPassHeadersTemplate (headers : list jstr) : json :=
  JObj [(js "operations", JArr [
    JObj [(js "mode", JStr (js "pass_headers")); (js "value", JArr (List.map JStr headers));
          (js "keep_origin", JBool true)]])].

Definition CODEX_CLI_HEADER_PASSTHROUGH_TEMPLATE : json :=
  buildPassHeadersTemplate CODEX_CLI_HEADER_PASSTHROUGH_HEADERS.
Definition CLAUDE_CLI_HEADER_PASSTHROUGH_TEMPLATE : json :=
  buildPassHeadersTemplate CLAUDE_CLI_HEADER_PASSTHROUGH_HEADERS.

Definition AWS_BEDROCK_ANTHROPIC_COMPAT_TEMPLATE : json :=
  JObj [(js "operations", JArr [
    JObj [(js "description", JStr (js "Normalize anthropic-beta header tokens for Bedrock compatibility."));
          (js "mode", JStr (js "set_header"));
          (js "path", JStr (js "anthropic-beta"));
          (js "value", JObj [
            (js "advanced-tool-use-2025-11-20", JStr (js "tool-search-tool-2025-10-19"));
            (js "bash_20241022", JNull);
            (js "bash_20250124", JNull);
            (js "code-execution-2025-08-25", JNull);
            (js "compact-2026-01-12", JStr (js "compact-2026-01-12"));
            (js "computer-use-2025-01-24", JStr (js "computer-use-2025-01-24"));
            (js "computer-use-2025-11-24", JStr (js "computer-use-2025-11-24"));
            (js "context-1m-2025-08-07", JStr (js "context-1m-2025-08-07"));
            (js "context-management-2025-06-27", JStr (js "context-management-2025-06-27"));
            (js "effort-2025-11-24", JNull);
            (js "fast-mode-2026-02-01", JNull);
            (js "files-api-2025-04-14", JNull);
            (js "fine-grained-tool-streaming-2025-05-14", JNull);
            (js "interleaved-thinking-2025-05-14", JStr (js "interleaved-thinking-2025-05-14"));
            (js "mcp-client-2025-11-20", JNull);
            (js "mcp-client-2025-04-04", JNull);
            (js "mcp-servers-2025-12-04", JNull);
            (js "output-128k-2025-02-19", JNull);
            (js "structured-output-2024-03-01", JNull);
            (js "prompt-caching-scope-2026-01-05", JNull);
            (js "skills-2025-10-02", JNull);
            (js "structured-outputs-2025-11-13", JNull);
            (js "text_editor_20241022", JNull);
            (js "text_editor_20250124", JNull);
            (js "token-efficient-tools-2025-02-19", JNull);
            (js "tool-search-tool-2025-10-19", JStr (js "tool-search-tool-2025-10-19"));
            (js "web-fetch-2025-09-10", JNull);
            (js "web-search-2025-03-05", JNull);
            (js "oauth-2025-04-20", JNull)])];
    JObj [(js "description", JStr (js "Remove all tools[*].custom.input_examples before upstream relay."));
          (js "mode", JStr (js "delete"));
          (js "path", JStr (js "tools.*.custom.input_examples"))]])].

Record TemplatePresetConfig : Type := MkPreset { t_label : jstr; t_kind : VisualMode; t_payload : json }.

Definition TEMPLATE_PRESET_CONFIG : list (jstr * TemplatePresetConfig) := [
  (js "operations_default", MkPreset (js "New Format Template") operations_mode OPERATION_TEMPLATE);
  (js "legacy_default", MkPreset (js "Legacy Format Template") legacy LEGACY_TEMPLATE);
  (js "pass_headers_auth", MkPreset (js "Header Passthrough (X-Request-Id)") operations_mode HEADER_PASSTHROUGH_TEMPLATE);
  (js "gemini_image_4k", MkPreset (js "Gemini Image 4K") operations_mode GEMINI_IMAGE_4K_TEMPLATE);
  (js "claude_cli_headers_passthrough",
    MkPreset (js "Claude CLI Header Passthrough") operations_mode CLAUDE_CLI_HEADER_PASSTHROUGH_TEMPLATE);
  (js "codex_cli_headers_passthrough",
    MkPreset (js "Codex CLI Header Passthrough") operations_mode CODEX_CLI_HEADER_PASSTHROUGH_TEMPLATE);
  (js "aws_bedrock_anthropic_beta_override",
    MkPreset (js "AWS Bedrock Claude Compat") operations_mode AWS_BEDROCK_ANTHROPIC_COMPAT_TEMPLATE)].

(** [TEMPLATE_PRESET_CONFIG[key] || TEMPLATE_PRESET_CONFIG.operations_default]. *)
Definition preset_of (key : jstr) : TemplatePresetConfig :=
  match obj_get key TEMPLATE_PRESET_CONFIG with
  | Some p => p
  | None => MkPreset (js "New Format Template") operations_mode OPERATION_TEMPLATE
  end.

(** ** State *)

Record Editor : Type := MkEditor {
  st_editMode : EditMode;
  st_visualMode : VisualMode;
  st_legacyValue : jstr;
  st_operations : list ParamOverrideOperation;
  st_jsonText : jstr;
  st_jsonError : option message;  (** the empty text is [None] *)
  st_operationSearch : jstr;
  st_selectedOperationId : jstr;
  st_expandedConditions : list (jstr * bool);
  st_draggedOperationId : jstr;
  st_dragOverOperationId : jstr;
  st_dragOverPosition : DropPosition;
  st_templatePresetKey : jstr
}.

(** Setters that several callbacks share. *)
Definition setOperations (ops : list ParamOverrideOperation) (s : Editor) : Editor :=
  MkEditor (st_editMode s) (st_visualMode s) (st_legacyValue s) ops (st_jsonText s) (st_jsonError s)
    (st_operationSearch s) (st_selectedOperationId s) (st_expandedConditions s) (st_draggedOperationId s)
    (st_dragOverOperationId s) (st_dragOverPosition s) (st_templatePresetKey s).
Definition setSelectedOperationId (id : jstr) (s : Editor) : Editor :=
  MkEditor (st_editMode s) (st_visualMode s) (st_legacyValue s) (st_operations s) (st_jsonText s) (st_jsonError s)
    (st_operationSearch s) id (st_expandedConditions s) (st_draggedOperationId s)
    (st_dragOverOperationId s) (st_dragOverPosition s) (st_templatePresetKey s).
Definition setExpandedConditions (m : list (jstr * bool)) (s : Editor) : Editor :=
  MkEditor (st_editMode s) (st_visualMode s) (st_legacyValue s) (st_operations s) (st_jsonText s) (st_jsonError s)
    (st_operationSearch s) (st_selectedOperationId s) m (st_draggedOperationId s)
    (st_dragOverOperationId s) (st_dragOverPosition s) (st_templatePresetKey s).
Definition setDrag (dragged over : jstr) (position : DropPosition) (s : Editor) : Editor :=
  MkEditor (st_editMode s) (st_visualMode s) (st_legacyValue s) (st_operations s) (st_jsonText s) (st_jsonError s)
    (st_operationSearch s) (st_selectedOperationId s) (st_expandedConditions s) dragged over position
    (st_templatePresetKey s).
Definition setOperationSearch (q : jstr) (s : Editor) : Editor :=
  MkEditor (st_editMode s) (st_visualMode s) (st_legacyValue s) (st_operations s) (st_jsonText s) (st_jsonError s)
    q (st_selectedOperationId s) (st_expandedConditions s) (st_draggedOperationId s)
    (st_dragOverOperationId s) (st_dragOverPosition s) (st_templatePresetKey s).
Definition setTemplatePresetKey (k : jstr) (s : Editor) : Editor :=
  MkEditor (st_editMode s) (st_visualMode s) (st_legacyValue s) (st_operations s) (st_jsonText s) (st_jsonError s)
    (st_operationSearch s) (st_selectedOperationId s) (st_expandedConditions s) (st_draggedOperationId s)
    (st_dragOverOperationId s) (st_dragOverPosition s) k.
(** The texts and modes. *)
Definition setTexts (edit : EditMode) (visual' : VisualMode) (legacyValue jsonText : jstr) (jsonError : option message)
    (s : Editor) : Editor :=
  MkEditor edit visual' legacyValue (st_operations s) jsonText jsonError
    (st_operationSearch s) (st_selectedOperationId s) (st_expandedConditions s) (st_draggedOperationId s)
    (st_dragOverOperationId s) (st_dragOverPosition s) (st_templatePresetKey s).

(** What a callback does besides changing the state. *)
Inductive effect : Type :=
| Toast (m : message)
| OnSave (value : jstr)
| OnOpenChange (open : bool).

(** Partial updates; a missing field is [None]. *)
Record OperationPatch : Type := MkOperationPatch {
  u_description : option jstr; u_path : option jstr; u_mode : option jstr; u_from : option jstr;
  u_to : option jstr; u_value_text : option jstr; u_keep_origin : option bool; u_logic : option jstr
}.

Record ConditionPatch : Type := MkConditionPatch {
  uc_path : option jstr; uc_mode : option jstr; uc_value_text : option jstr;
  uc_invert : option bool; uc_pass_missing_key : option bool
}.

Record ErrorPatch : Type := MkErrorPatch {
  ue_message : option jstr; ue_statusCode : option number; ue_code : option jstr; ue_type : option jstr;
  ue_skipRetry : option bool; ue_simpleMode : option bool
}.

Record PrunePatch : Type := MkPrunePatch {
  ur_simpleMode : option bool; ur_typeText : option jstr; ur_logic : option jstr; ur_recursive : option bool
}.

(** [{ ...o, ...patch }]. *)
Definition patch_operation (p : OperationPatch) (o : ParamOverrideOperation) : ParamOverrideOperation :=
  MkOperation (o_id o) (default (o_description o) (u_description p)) (default (o_path o) (u_path p))
    (default (o_mode o) (u_mode p)) (default (o_from o) (u_from p)) (default (o_to o) (u_to p))
    (default (o_value_text o) (u_value_text p)) (default (o_keep_origin o) (u_keep_origin p))
    (default (o_logic o) (u_logic p)) (o_conditions o).

Definition patch_condition (p : ConditionPatch) (c : ParamOverrideCondition) : ParamOverrideCondition :=
  MkCondition (c_id c) (default (c_path c) (uc_path p)) (default (c_mode c) (uc_mode p))
    (default (c_value_text c) (uc_value_text p)) (default (c_invert c) (uc_invert p))
    (default (c_pass_missing_key c) (uc_pass_missing_key p)).

Definition patch_error (p : ErrorPatch) (d : ReturnErrorDraft) : ReturnErrorDraft :=
  MkErrorDraft (default (e_message d) (ue_message p)) (default (e_statusCode d) (ue_statusCode p))
    (default (e_code d) (ue_code p)) (default (e_type d) (ue_type p))
    (default (e_skipRetry d) (ue_skipRetry p)) (default (e_simpleMode d) (ue_simpleMode p)).

Definition patch_prune (p : PrunePatch) (d : PruneObjectsDraft) : PruneObjectsDraft :=
  MkPruneDraft (default (p_simpleMode d) (ur_simpleMode p)) (default (p_typeText d) (ur_typeText p))
    (default (p_logic d) (ur_logic p)) (default (p_recursive d) (ur_recursive p)) (p_rules d).

Definition with_conditions (cs : list ParamOverrideCondition) (o : ParamOverrideOperation) : ParamOverrideOperation :=
  MkOperation (o_id o) (o_description o) (o_path o) (o_mode o) (o_from o) (o_to o) (o_value_text o)
    (o_keep_origin o) (o_logic o) cs.

Definition with_value_text (t : jstr) (o : ParamOverrideOperation) : ParamOverrideOperation :=
  MkOperation (o_id o) (o_description o) (o_path o) (o_mode o) (o_from o) (o_to o) t
    (o_keep_origin o) (o_logic o) (o_conditions o).

(** [prev.map(o => o.id === id ? f(o) : o)]. *)
Definition map_operation (id : jstr) (f : ParamOverrideOperation -> ParamOverrideOperation)
    (ops : list ParamOverrideOperation) : list ParamOverrideOperation :=
  List.map (fun o => if o_id o === id then f o else o) ops.

(** ** What the dialog shows *)

Definition operationCount (s : Editor) : nat := length (nonblank (st_operations s)).

Definition filteredOperations (toLowerCase : jstr -> jstr) (s : Editor) : list ParamOverrideOperation :=
  let keyword := toLowerCase (trim (st_operationSearch s)) in
  if negb (truthy keyword) then st_operations s
  else List.filter (fun op =>
    includes keyword (toLowerCase (join (js " ")
      (filter_truthy [o_description op; o_mode op; o_path op; o_from op; o_to op; o_value_text op]))))
    (st_operations s).

Definition find_operation (id : jstr) (ops : list ParamOverrideOperation) : option ParamOverrideOperation :=
  List.find (fun o => o_id o === id) ops.

Definition selectedOperation (s : Editor) : option ParamOverrideOperation :=
  find_operation (st_selectedOperationId s) (st_operations s).

Definition selectedOperationIndex (s : Editor) : option nat :=
  findIndex (st_selectedOperationId s) (st_operations s).

Definition returnErrorDraft (s : Editor) : option ReturnErrorDraft :=
  match selectedOperation s with
  | Some o => if o_mode o === js "return_error" then Some (parseReturnErrorDraft (o_value_text o)) else None
  | None => None
  end.

(** Counts of the modes in order of first use, most frequent first (a stable
    sort), at most four. *)
Definition count_mode (counts : list (jstr * nat)) (op : ParamOverrideOperation) : list (jstr * nat) :=
  let mode := str_or (o_mode op) (js "set") in
  obj_set mode (default 0 (obj_get mode counts) + 1) counts.

Definition topOperationModes (s : Editor) : list (jstr * nat) :=
  take 4 (sort_by (fun a b => (b.2 <=? a.2)%nat) (foldl count_mode [] (st_operations s))).

(** The text of the visual editor, or the message it fails with. *)
Definition buildVisualJson (s : Editor) : result jstr :=
  match st_visualMode s with
  | legacy =>
      let trimmed := trim (st_legacyValue s) in
      if negb (truthy trimmed) then Ok []
      else match JSON_parse trimmed with
           | Throw => Err (Msg (js "Parameter override must be valid JSON format") None)
           | Ret (JObj o) => Ok (JSON_pretty (JObj o))
           | Ret _ => Err (Msg (js "Legacy format must be a JSON object") None)
           end
  | operations_mode => buildOperationsJson (st_operations s) true
  end.

Definition visualValidationError (s : Editor) : option message :=
  match st_editMode s with
  | json_text => None
  | visual => match buildVisualJson s with Ok _ => None | Err m => Some m end
  end.

(** ** Callbacks *)

Section callbacks.
Context (clock : N -> N).

Definition pruneObjectsDraft (s : Editor) : gen (option PruneObjectsDraft) :=
  match selectedOperation s with
  | Some o =>
      if o_mode o === js "prune_objects"
      then let* d := parsePruneObjectsDraft clock (o_value_text o) in gret (Some d)
      else gret None
  | None => gret None
  end.

Definition first_id (ops : list ParamOverrideOperation) : jstr :=
  match ops with o :: _ => o_id o | [] => [] end.

(** The effect that runs when the dialog opens or its value changes. *)
Definition open_dialog (value : jstr) : gen Editor :=
  let* state := parseInitialState clock value in
  gret (MkEditor (i_editMode state) (i_visualMode state) (i_legacyValue state) (i_operations state)
          (i_jsonText state) (if truthy (i_jsonError state) then Some (Msg (i_jsonError state) None) else None)
          [] (first_id (i_operations state)) [] [] [] before
          (match i_visualMode state with legacy => js "legacy_default" | operations_mode => js "operations_default" end)).

(** The effect that keeps the selection on one of the rules. *)
Definition keep_selection (s : Editor) : Editor :=
  match st_operations s with
  | [] => setSelectedOperationId [] s
  | o :: _ =>
      if existsb (fun o => o_id o === st_selectedOperationId s) (st_operations s) then s
      else setSelectedOperationId (o_id o) s
  end.

Definition updateOperation (operationId : jstr) (patch : OperationPatch) (s : Editor) : Editor :=
  setOperations (map_operation operationId (patch_operation patch) (st_operations s)) s.

Definition addOperation (s : Editor) : gen Editor :=
  let* created := createDefaultOperation clock in
  gret (setSelectedOperationId (o_id created) (setOperations (st_operations s ++ [created]) s)).

(** The values [duplicateOperation] hands to [normalizeOperation]. *)
Definition copy_condition (c : ParamOverrideCondition) : json :=
  JObj [(js "path", JStr (c_path c)); (js "mode", JStr (c_mode c)); (js "value", parseLooseValue (c_value_text c));
        (js "invert", JBool (c_invert c)); (js "pass_missing_key", JBool (c_pass_missing_key c))].
Definition copy_operation (source : ParamOverrideOperation) : json :=
  JObj [(js "description", JStr (o_description source)); (js "path", JStr (o_path source));
        (js "mode", JStr (o_mode source)); (js "value", parseLooseValue (o_value_text source));
        (js "keep_origin", JBool (o_keep_origin source)); (js "from", JStr (o_from source));
        (js "to", JStr (o_to source)); (js "logic", JStr (o_logic source));
        (js "conditions", JArr (List.map copy_condition (o_conditions source)))].

(** [eager] tells whether React has run the updater before the callback looks at
    [insertedId]; if not, the selection stays. *)
Definition duplicateOperation (eager : bool) (operationId : jstr) (s : Editor) : gen Editor :=
  match findIndex operationId (st_operations s) with
  | None => gret s
  | Some idx =>
      match st_operations s !! idx with
      | None => gret s
      | Some source =>
          let* cloned := normalizeOperation clock (copy_operation source) in
          let next := take (S idx) (st_operations s) ++ cloned :: drop (S idx) (st_operations s) in
          let s' := setOperations next s in
          gret (if eager && truthy (o_id cloned) then setSelectedOperationId (o_id cloned) s' else s')
      end
  end.

Definition removeOperation (operationId : jstr) (s : Editor) : gen Editor :=
  if (length (st_operations s) <=? 1)%nat then
    let* o := createDefaultOperation clock in gret (setOperations [o] s)
  else gret (setOperations (List.filter (fun o => o_id o !== operationId) (st_operations s)) s).

Definition addCondition (operationId : jstr) (s : Editor) : gen Editor :=
  let* created := createDefaultCondition clock in
  gret (setExpandedConditions (obj_set (c_id created) true (st_expandedConditions s))
    (setOperations (map_operation operationId (fun op => with_conditions (o_conditions op ++ [created]) op)
       (st_operations s)) s)).

Definition updateCondition (operationId conditionId : jstr) (patch : ConditionPatch) (s : Editor) : Editor :=
  setOperations (map_operation operationId (fun op =>
    with_conditions (List.map (fun c => if c_id c === conditionId then patch_condition patch c else c)
      (o_conditions op)) op) (st_operations s)) s.

Definition removeCondition (operationId conditionId : jstr) (s : Editor) : Editor :=
  setOperations (map_operation operationId (fun op =>
    with_conditions (List.filter (fun c => c_id c !== conditionId) (o_conditions op)) op) (st_operations s)) s.

Definition updateReturnErrorDraft (operationId : jstr) (draftPatch : ErrorPatch) (s : Editor) : Editor :=
  setOperations (map_operation operationId (fun op =>
    let draft := parseReturnErrorDraft (o_value_text op) in
    with_value_text (buildReturnErrorValueText (patch_error draftPatch draft)) op) (st_operations s)) s.

Definition updatePruneObjectsDraft (operationId : jstr) (updater : PruneObjectsDraft -> gen PruneObjectsDraft)
    (s : Editor) : gen Editor :=
  let* ops := gmapM (fun op =>
    if o_id op !== operationId then gret op
    else let* draft := parsePruneObjectsDraft clock (o_value_text op) in
         let* nextDraft := updater draft in
         gret (with_value_text (buildPruneObjectsValueText nextDraft) op)) (st_operations s) in
  gret (setOperations ops s).

Definition addPruneRule (operationId : jstr) (s : Editor) : gen Editor :=
  updatePruneObjectsDraft operationId (fun draft =>
    let* rule := normalizePruneRule clock (JObj []) in
    gret (MkPruneDraft false (p_typeText draft) (p_logic draft) (p_recursive draft) (p_rules draft ++ [rule]))) s.

Definition updatePruneRule (operationId ruleId : jstr) (patch : ConditionPatch) (s : Editor) : gen Editor :=
  updatePruneObjectsDraft operationId (fun draft =>
    gret (MkPruneDraft (p_simpleMode draft) (p_typeText draft) (p_logic draft) (p_recursive draft)
      (List.map (fun r => if c_id r === ruleId then patch_condition patch r else r) (p_rules draft)))) s.

Definition removePruneRule (operationId ruleId : jstr) (s : Editor) : gen Editor :=
  updatePruneObjectsDraft operationId (fun draft =>
    gret (MkPruneDraft (p_simpleMode draft) (p_typeText draft) (p_logic draft) (p_recursive draft)
      (List.filter (fun r => c_id r !== ruleId) (p_rules draft)))) s.

Definition resetDragState (s : Editor) : Editor := setDrag [] [] before s.

Definition handleDragStart (operationId : jstr) (s : Editor) : Editor :=
  setSelectedOperationId operationId (setDrag operationId (st_dragOverOperationId s) (st_dragOverPosition s) s).

(** [position] is where the pointer is in the row. *)
Definition handleDragOver (operationId : jstr) (position : DropPosition) (s : Editor) : Editor :=
  if negb (truthy (st_draggedOperationId s)) || (st_draggedOperationId s === operationId) then s
  else setDrag (st_draggedOperationId s) operationId position s.

(** [transferred] is the text the drag carries. *)
Definition handleDrop (transferred operationId : jstr) (s : Editor) : Editor :=
  let sourceId := str_or (st_draggedOperationId s) transferred in
  let position := if st_dragOverOperationId s === operationId then st_dragOverPosition s else before in
  let s' :=
    if truthy sourceId && truthy operationId && (sourceId !== operationId) then
      setSelectedOperationId sourceId
        (setOperations (reorderOperations (st_operations s) sourceId operationId position) s)
    else s in
  resetDragState s'.

(** *** Modes, templates and saving *)

Definition switchToJsonMode (s : Editor) : Editor * list effect :=
  match st_editMode s with
  | json_text => (s, [])
  | visual =>
      match buildVisualJson s with
      | Ok t => (setTexts json_text (st_visualMode s) (st_legacyValue s) t None s, [])
      | Err m =>
          let t := match st_visualMode s with
                   | legacy => st_legacyValue s
                   | operations_mode =>
                       match buildOperationsJson (st_operations s) false with Ok t => t | Err _ => st_jsonText s end
                   end in
          (setTexts json_text (st_visualMode s) (st_legacyValue s) t (Some m) s, [Toast m])
      end
  end.

Definition switchToVisualMode (s : Editor) : gen (Editor * list effect) :=
  match st_editMode s with
  | visual => gret (s, [])
  | json_text =>
      let trimmed := trim (st_jsonText s) in
      if negb (truthy trimmed) then
        let* fallback := createDefaultOperation clock in
        gret (setTexts visual operations_mode [] (st_jsonText s) None
                (setSelectedOperationId (o_id fallback) (setOperations [fallback] s)), [])
      else
        match JSON_parse trimmed with
        | Throw => gret (s, [Toast (Msg (js "Parameter override must be valid JSON format") None)])
        | Ret (JObj obj) =>
            match obj_get (js "operations") obj with
            | Some (JArr l) =>
                let* nextOps := read_operations clock l in
                gret (setTemplatePresetKey (js "operations_default")
                  (setTexts visual operations_mode [] (st_jsonText s) None
                    (setSelectedOperationId (first_id nextOps) (setOperations nextOps s))), [])
            | _ =>
                let* fallback := createDefaultOperation clock in
                gret (setTemplatePresetKey (js "legacy_default")
                  (setTexts visual legacy (JSON_pretty (JObj obj)) (st_jsonText s) None
                    (setSelectedOperationId (o_id fallback) (setOperations [fallback] s))), [])
            end
        | Ret _ => gret (s, [Toast (Msg (js "Parameter override must be a valid JSON object") None)])
        end
  end.

Inductive FillMode : Type := fill | append_.

(** The legacy branch of [fillTemplate], with the text it sets. *)
Definition fill_legacy (text : jstr) (s : Editor) : gen (Editor * list effect) :=
  let* o := createDefaultOperation clock in
  gret (setTexts visual legacy text text None (setOperations [o] s), []).

Definition operations_of (payload : json) : list json :=
  match opt_prop (js "operations") (Some payload) with Some (JArr l) => l | _ => [] end.

Definition fillTemplate (mode : FillMode) (s : Editor) : gen (Editor * list effect) :=
  let preset := preset_of (st_templatePresetKey s) in
  let payload := t_payload preset in
  match t_kind preset with
  | legacy =>
      match mode, st_visualMode s with
      | append_, legacy =>
          let trimmed := trim (st_legacyValue s) in
          if truthy trimmed then
            match JSON_parse trimmed with
            | Throw => gret (s, [Toast (Msg (js "Current legacy JSON is invalid, cannot append") None)])
            | Ret parsedCurrent =>
                fill_legacy (JSON_pretty (JObj (obj_assign (obj_assign [] (spread payload)) (spread parsedCurrent)))) s
            end
          else fill_legacy (JSON_pretty (JObj (obj_assign [] (spread payload)))) s
      | _, _ => fill_legacy (JSON_pretty payload) s
      end
  | operations_mode =>
      let operationsPayload := operations_of payload in
      match mode with
      | append_ =>
          let* appended := gmapM (normalizeOperation clock) operationsPayload in
          let existing := match st_visualMode s with operations_mode => nonblank (st_operations s) | legacy => [] end in
          let nextOps := existing ++ appended in
          gret (setTexts visual operations_mode [] [] None
            (setSelectedOperationId (str_or (first_id nextOps) (first_id appended))
              (setOperations (match nextOps with [] => appended | _ => nextOps end) s)), [])
      | fill =>
          let* nextOps := gmapM (normalizeOperation clock) operationsPayload in
          let* finalOps := match nextOps with
                           | [] => let* o := createDefaultOperation clock in gret [o]
                           | _ => gret nextOps
                           end in
          gret (setTexts visual operations_mode (st_legacyValue s)
              (JSON_pretty (JObj [(js "operations", JArr operationsPayload)])) None
            (setSelectedOperationId (first_id finalOps) (setOperations finalOps s)), [])
      end
  end.

Definition resetEditorState (s : Editor) : gen Editor :=
  let* fallback := createDefaultOperation clock in
  gret (setTemplatePresetKey (js "operations_default")
    (setTexts visual operations_mode [] [] None
      (setSelectedOperationId (o_id fallback) (setOperations [fallback] s)))).

Definition setJson (text : jstr) (error : option message) (s : Editor) : Editor :=
  setTexts (st_editMode s) (st_visualMode s) (st_legacyValue s) text error s.

Definition handleJsonChange (nextValue : jstr) (s : Editor) : Editor :=
  let trimmed := trim nextValue in
  setJson nextValue
    (if negb (truthy trimmed) || verifyJSON trimmed then None else Some (Msg (js "JSON format error") None)) s.

Definition formatJson (s : Editor) : Editor * list effect :=
  let trimmed := trim (st_jsonText s) in
  if negb (truthy trimmed) then (s, [])
  else match JSON_parse trimmed with
       | Throw => (s, [Toast (Msg (js "Parameter override must be valid JSON format") None)])
       | Ret v => (setJson (JSON_pretty v) None s, [])
       end.

(** The text [handleSave] hands over, or the message it shows. *)
Definition saved_text (s : Editor) : result jstr :=
  match st_editMode s with
  | json_text =>
      let trimmed := trim (st_jsonText s) in
      if truthy trimmed then
        match JSON_parse trimmed with
        | Throw => Err (Msg (js "Parameter override must be valid JSON format") None)
        | Ret v => Ok (JSON_pretty v)
        end
      else Ok []
  | visual => buildVisualJson s
  end.

Definition handleSave (s : Editor) : list effect :=
  match saved_text s with
  | Ok result => [OnSave result; OnOpenChange false]
  | Err m => [Toast m]
  end.

(** [setExpandedConditions(prev => ({ ...prev, ...map }))] for the selected rule. *)
Definition expand_selected (expanded : bool) (s : Editor) : Editor :=
  match selectedOperation s with
  | None => s
  | Some o =>
      setExpandedConditions (obj_assign (st_expandedConditions s)
        (obj_assign [] (List.map (fun c => (c_id c, expanded)) (o_conditions o)))) s
  end.

Definition expandAllConditions : Editor -> Editor := expand_selected true.
Definition collapseAllConditions : Editor -> Editor := expand_selected false.
End callbacks.

(** ** Events *)

Inductive event : Type :=
| SelectOperation (id : jstr)
| SetSearch (q : jstr)
| SetLegacyValue (t : jstr)
| ChoosePreset (key : jstr)
| UpdateOperation (id : jstr) (p : OperationPatch)
| AddOperation
| DuplicateOperation (eager : bool) (id : jstr)
| RemoveOperation (id : jstr)
| AddCondition (id : jstr)
| UpdateCondition (id cid : jstr) (p : ConditionPatch)
| RemoveCondition (id cid : jstr)
| ExpandCondition (cid : jstr) (expanded : bool)
| ExpandAll
| CollapseAll
| UpdateErrorDraft (id : jstr) (p : ErrorPatch)
| UpdatePruneDraft (id : jstr) (p : PrunePatch)
| AddPruneRule (id : jstr)
| UpdatePruneRule (id rid : jstr) (p : ConditionPatch)
| RemovePruneRule (id rid : jstr)
| DragStart (id : jstr)
| DragOver (id : jstr) (position : DropPosition)
| Drop (transferred id : jstr)
| DragEnd
| SwitchToJson
| SwitchToVisual
| FillTemplate (mode : FillMode)
| ResetEditor
| JsonChange (t : jstr)
| FormatJson
| Save.

Definition silent (s : Editor) : Editor * list effect := (s, []).
Definition gsilent (m : gen Editor) : gen (Editor * list effect) := let* s := m in gret (silent s).

Definition handle (clock : N -> N) (e : event) (s : Editor) : gen (Editor * list effect) :=
  match e with
  | SelectOperation id => gret (silent (setSelectedOperationId id s))
  | SetSearch q => gret (silent (setOperationSearch q s))
  | SetLegacyValue t =>
      gret (silent (setTexts (st_editMode s) (st_visualMode s) t (st_jsonText s) (st_jsonError s) s))
  | ChoosePreset key => gret (silent (setTemplatePresetKey (str_or key (js "operations_default")) s))
  | UpdateOperation id p => gret (silent (updateOperation id p s))
  | AddOperation => gsilent (addOperation clock s)
  | DuplicateOperation eager id => gsilent (duplicateOperation clock eager id s)
  | RemoveOperation id => gsilent (removeOperation clock id s)
  | AddCondition id => gsilent (addCondition clock id s)
  | UpdateCondition id cid p => gret (silent (updateCondition id cid p s))
  | RemoveCondition id cid => gret (silent (removeCondition id cid s))
  | ExpandCondition cid expanded =>
      gret (silent (setExpandedConditions (obj_set cid expanded (st_expandedConditions s)) s))
  | ExpandAll => gret (silent (expandAllConditions s))
  | CollapseAll => gret (silent (collapseAllConditions s))
  | UpdateErrorDraft id p => gret (silent (updateReturnErrorDraft id p s))
  | UpdatePruneDraft id p => gsilent (updatePruneObjectsDraft clock id (fun d => gret (patch_prune p d)) s)
  | AddPruneRule id => gsilent (addPruneRule clock id s)
  | UpdatePruneRule id rid p => gsilent (updatePruneRule clock id rid p s)
  | RemovePruneRule id rid => gsilent (removePruneRule clock id rid s)
  | DragStart id => gret (silent (handleDragStart id s))
  | DragOver id position => gret (silent (handleDragOver id position s))
  | Drop transferred id => gret (silent (handleDrop transferred id s))
  | DragEnd => gret (silent (resetDragState s))
  | SwitchToJson => gret (switchToJsonMode s)
  | SwitchToVisual => switchToVisualMode clock s
  | FillTemplate mode => fillTemplate clock mode s
  | ResetEditor => gsilent (resetEditorState clock s)
  | JsonChange t => gret (silent (handleJsonChange t s))
  | FormatJson => gret (formatJson s)
  | Save => gret (s, handleSave s)
  end.

(** The menus only offer the listed modes, and AND or OR. *)
Definition offered (e : event) : Prop :=
  match e with
  | UpdateOperation _ p =>
      (forall m, u_mode p = Some m -> m ∈ OPERATION_MODE_VALUES) /\
      (forall l, u_logic p = Some l -> l = js "AND" \/ l = js "OR")
  | UpdateCondition _ _ p => forall m, uc_mode p = Some m -> m ∈ CONDITION_MODE_VALUES
  | _ => True
  end.

(** The states of an open dialog, with the number of the next identifier: after an
    event React renders and runs the selection effect; rendering a prune rule draws
    identifiers too. *)
Inductive reachable (clock : N -> N) : Editor -> N -> Prop :=
| reach_open n value s n' :
    open_dialog clock value n = (Ret s, n') -> reachable clock (keep_selection s) n'
| reach_event s n e s' fx n' :
    reachable clock s n -> offered e -> handle clock e s n = (Ret (s', fx), n') ->
    reachable clock (keep_selection s') n'
| reach_render s n n' : reachable clock s n -> (n <= n')%N -> reachable clock s n'.
