(* ===== verification/ParamInvariant.v ===== *)
(** * Invariants of the parameter override editor

    Identifiers come from a counter and are never drawn twice; every callback keeps
    the rules well formed, and none of them throws. *)
From S2P Require Import Prelude Numbers Json JsonRoundtrip JsonPretty ParamOverride ParamSave ParamDrafts ParamEditor.

(** ** Identifiers *)

Section identifiers.
Context (clock : N -> N).

Lemma id_text_split n : split_char 95 (id_text clock n) = [js "po"; dec_digits (clock n); dec_digits n].
Proof.
  assert (forall k, 95%N ∉ dec_digits k) as Hd by (intros k Hk%dec_digits_unit; done).
  unfold id_text. change (js "po_" ++ ?u) with (js "po" ++ 95%N :: u). change (js "_" ++ ?u) with (95%N :: u).
  rewrite split_char_app by (apply mem_false; vm_compute; reflexivity).
  by rewrite split_char_app, split_char_none by apply Hd.
Qed.

Lemma id_text_inj n m : id_text clock n = id_text clock m -> n = m.
Proof.
  intros H. apply (f_equal (split_char 95)) in H. rewrite !id_text_split in H.
  apply (f_equal (fun l => List.nth 2 l [])) in H. by apply dec_digits_inj.
Qed.

(** Drawn from the numbers [n] to [n'], the latter excluded. *)
Definition fresh (n n' : N) (id : jstr) : Prop := exists k, (n <= k < n')%N /\ id = id_text clock k.

Lemma fresh_mono n n' m m' id : (m <= n)%N -> (n' <= m')%N -> fresh n n' id -> fresh m m' id.
Proof. intros H1 H2 (k & Hk & ->). exists k. split; [lia|done]. Qed.

Lemma fresh_disjoint n n' m m' id : (n' <= m)%N -> fresh n n' id -> ~ fresh m m' id.
Proof. intros H (k & Hk & ->) (j & Hj & E%id_text_inj). lia. Qed.

Lemma fresh_not_empty n n' id : fresh n n' id -> truthy id = true.
Proof. by intros (k & _ & ->). Qed.

(** Drawing for the elements of a list, in order. *)
Lemma gmapM_fresh {A B} (f : A -> gen B) (key : B -> jstr) (Q : N -> N -> B -> Prop) l n ys n' :
  (forall x n y n', f x n = (Ret y, n') -> (n <= n')%N /\ fresh n n' (key y) /\ Q n n' y) ->
  (forall n n' m m' y, (m <= n)%N -> (n' <= m')%N -> Q n n' y -> Q m m' y) ->
  gmapM f l n = (Ret ys, n') ->
  (n <= n')%N /\ Forall (fun y => fresh n n' (key y) /\ Q n n' y) ys /\ NoDup (List.map key ys).
Proof.
  intros Hf Hmono. revert n ys. induction l as [|x l IH]; intros n ys; cbn [gmapM].
  { intros [= <- <-]. split; [lia|]. split; constructor. }
  unfold gbind. destruct (f x n) as [[y|] n1] eqn:E1; [|done].
  destruct (gmapM f l n1) as [[zs|] n2] eqn:E2; [|done]. intros [= <- <-].
  apply Hf in E1 as (H1 & Hy & Qy). apply IH in E2 as (H2 & Hzs & Hnd).
  split; [lia|]. split.
  - constructor; [split; [by eapply fresh_mono; [| |exact Hy]; lia|by eapply Hmono; [| |exact Qy]; lia]|].
    eapply Forall_impl; [exact Hzs|]. intros z [Hz Qz].
    split; [by eapply fresh_mono; [| |exact Hz]; lia|by eapply Hmono; [| |exact Qz]; lia].
  - cbn [List.map]. constructor; [|done]. intros Hin. apply list_elem_of_In, in_map_iff in Hin as (z & Ez & Hz%list_elem_of_In).
    rewrite Forall_forall in Hzs. destruct (Hzs z Hz) as [Hfz _]. rewrite Ez in Hfz.
    by apply (fresh_disjoint n n1 n1 n2 (key y)) in Hfz; [|lia|].
Qed.

Lemma gmapM_length {A B} (f : A -> gen B) l n ys n' : gmapM f l n = (Ret ys, n') -> length ys = length l.
Proof.
  revert n ys n'. induction l as [|x l IH]; intros n ys n'; cbn [gmapM]; [by intros [= <- _]|].
  unfold gbind. destruct (f x n) as [[y|] n1]; [|done]. destruct (gmapM f l n1) as [[zs|] n2] eqn:E; [|done].
  intros [= <- _]. cbn [length]. f_equal. by eapply IH.
Qed.
End identifiers.

(** ** The rules of the editor *)

Section invariant.
Context (clock : N -> N).

(** A rule whose identifiers were drawn between two numbers, those of its
    conditions being different, and whose fields have their types. *)
Record rule_ok (n n' : N) (o : ParamOverrideOperation) : Prop := MkRuleOk {
  rule_id : fresh clock n n' (o_id o);
  rule_typed : typed o;
  rule_condition_ids : Forall (fun c => fresh clock n n' (c_id c)) (o_conditions o);
  rule_conditions_differ : NoDup (List.map c_id (o_conditions o))
}.

Record rules_ok (n : N) (ops : list ParamOverrideOperation) : Prop := MkRulesOk {
  rules_some : ops <> [];
  rules_differ : NoDup (List.map o_id ops);
  rules_each : Forall (rule_ok 0 n) ops
}.

Lemma rule_ok_mono n n' m m' o : (m <= n)%N -> (n' <= m')%N -> rule_ok n n' o -> rule_ok m m' o.
Proof.
  intros H1 H2 [Hi Ht Hc Hd]. constructor; [by eapply fresh_mono|done| |done].
  eapply Forall_impl; [exact Hc|]. intros c. by apply fresh_mono.
Qed.

Lemma rules_ok_mono n n' ops : (n <= n')%N -> rules_ok n ops -> rules_ok n' ops.
Proof.
  intros Hle [H1 H2 H3]. constructor; [done..|]. eapply Forall_impl; [exact H3|]. intros o.
  apply rule_ok_mono; [done|exact Hle].
Qed.

(** *** Reading rules *)

Lemma mode_prop_in values d p : d ∈ values -> mode_prop values d p ∈ values.
Proof.
  intros Hd. destruct p as [[| | |s| |]|]; try done. cbn [mode_prop]. destruct (mem s values) eqn:E; [|done].
  by apply mem_true.
Qed.

Lemma normalizeCondition_fresh v n c n' :
  normalizeCondition clock v n = (Ret c, n') -> (n <= n')%N /\ fresh clock n n' (c_id c) /\ condition_typed c.
Proof.
  unfold normalizeCondition, gbind, nextLocalId, glift, gret.
  destruct v; cbn [js_prop]; [done|..]; intros [= <- <-]; (split; [lia|]; split; [exists n; split; [lia|done]|]);
    first [in_list | apply mode_prop_in; in_list].
Qed.

Lemma normalizeOperation_ok v n o n' :
  normalizeOperation clock v n = (Ret o, n') -> (n <= n')%N /\ fresh clock n n' (o_id o) /\ rule_ok n n' o.
Proof.
  intros H.
  assert (exists cs,
    (cs = [] /\ n' = (n + 1)%N \/ exists l, gmapM (normalizeCondition clock) l (n + 1)%N = (Ret cs, n')) /\
    o_conditions o = cs /\ o_id o = id_text clock n /\ o_mode o ∈ OPERATION_MODE_VALUES /\
    (o_logic o = js "AND" \/ o_logic o = js "OR")) as (cs & Hcs & Ec & Ei & Em & El).
  { revert H. unfold normalizeOperation, gbind, nextLocalId, glift.
    assert (forall p, mode_prop OPERATION_MODE_VALUES (js "set") p ∈ OPERATION_MODE_VALUES) as Hm
      by (intros p; apply mode_prop_in; apply mem_true; vm_compute; reflexivity).
    assert (forall b : bool, (if b then js "AND" else js "OR") = js "AND" \/ (if b then js "AND" else js "OR") = js "OR") as Hl
      by (intros []; tauto).
    destruct v as [| | | | |obj]; unfold js_prop; [done|..];
      [intros [= <- <-]; exists []; repeat split; [by left|first [apply Hm | in_list]|first [apply Hl | by right]]..|].
    destruct (to_String _) as [lt|]; [|done].
    destruct (obj_get (js "conditions") obj) as [[| | | |l|]|];
      [intros [= <- <-]; exists []; repeat split; [by left|first [apply Hm | in_list]|first [apply Hl | by right]]..| | |];
      try (intros [= <- <-]; exists []; repeat split; [by left|first [apply Hm | in_list]|first [apply Hl | by right]]).
    destruct (gmapM _ l _) as [[cs|] m] eqn:E; [|done]. intros [= <- <-]. exists cs. repeat split; [|first [apply Hm | in_list]|first [apply Hl | by right]].
    right. by exists l. }
  assert ((n + 1 <= n')%N /\ Forall (fun c => fresh clock (n + 1) n' (c_id c) /\ condition_typed c) cs /\ NoDup (List.map c_id cs))
    as (Hle & Hf & Hd).
  { destruct Hcs as [[-> ->]|[l E]]; [split; [lia|split; constructor]|].
    apply (gmapM_fresh clock _ c_id (fun _ _ c => condition_typed c)) in E; [done| |done].
    intros x m y m'. apply normalizeCondition_fresh. }
  assert (fresh clock n n' (o_id o)) as Hi by (exists n; split; [lia|done]).
  split; [lia|]. split; [done|]. constructor; [done| | |by rewrite Ec].
  - split; [done|split; [done|]]. rewrite Ec. eapply Forall_impl; [exact Hf|]. by intros c [_ ?].
  - rewrite Ec. eapply Forall_impl; [exact Hf|]. intros c [Hc _]. by eapply fresh_mono; [| |exact Hc]; lia.
Qed.

Lemma normalize_all_ok l n os n' :
  gmapM (normalizeOperation clock) l n = (Ret os, n') ->
  (n <= n')%N /\ Forall (rule_ok n n') os /\ NoDup (List.map o_id os).
Proof.
  intros H. apply (gmapM_fresh clock _ o_id rule_ok) in H as (H1 & H2 & H3).
  - split; [done|]. split; [|done]. eapply Forall_impl; [exact H2|]. by intros o [_ ?].
  - intros x m y m'. apply normalizeOperation_ok.
  - intros. by eapply rule_ok_mono.
Qed.

Lemma default_ok n :
  exists o n', createDefaultOperation clock n = (Ret o, n') /\ (n < n')%N /\ rules_ok n' [o] /\ rule_ok n n' o.
Proof.
  destruct (createDefaultOperation clock n) as [[o|] n'] eqn:E; [|by vm_compute in E].
  exists o, n'. split; [done|]. apply normalizeOperation_ok in E as (Hle & Hf & Ho).
  split; [destruct Hf as (k & Hk & _); lia|]. split; [|done].
  constructor; [done|by apply NoDup_singleton|]. apply Forall_singleton. by eapply rule_ok_mono; [| |exact Ho]; lia.
Qed.

Lemma read_operations_ok l n os n' :
  read_operations clock l n = (Ret os, n') -> (n <= n')%N /\ rules_ok n' os.
Proof.
  destruct l as [|v l]; cbn [read_operations].
  - destruct (default_ok n) as (o & m & E & Hlt & Ho & _). unfold gbind. rewrite E. intros [= <- <-]. split; [lia|done].
  - intros H. pose proof (gmapM_length _ _ _ _ _ H) as Hlen. apply normalize_all_ok in H as (Hle & Hall & Hnd).
    split; [done|]. constructor; [by destruct os|done|]. eapply Forall_impl; [exact Hall|]. intros o.
    apply rule_ok_mono; lia.
Qed.

Lemma parseInitialState_ok value n st n' :
  parseInitialState clock value n = (Ret st, n') -> rules_ok n' (i_operations st).
Proof.
  unfold parseInitialState. destruct (default_ok n) as (o & m & E & _ & Ho & _).
  destruct (negb _); [unfold gbind; rewrite E; by intros [= <- <-]|].
  destruct (JSON_parse _) as [[| | | | |obj]|]; try (unfold gbind; rewrite E; by intros [= <- <-]).
  destruct (obj_get _ obj) as [[| | | |l|]|]; try (unfold gbind; rewrite E; by intros [= <- <-]).
  unfold gbind. destruct (read_operations clock l n) as [[os|] m'] eqn:H; [|done].
  apply read_operations_ok in H as [_ H]. by intros [= <- <-].
Qed.

Lemma open_ok value n s n' : open_dialog clock value n = (Ret s, n') -> rules_ok n' (st_operations s).
Proof.
  unfold open_dialog, gbind. destruct (parseInitialState clock value n) as [[st|] m] eqn:E; [|done].
  apply parseInitialState_ok in E. by intros [= <- <-].
Qed.

(** *** Changing rules in place *)

Lemma map_operation_ids id f ops : (forall o, o_id (f o) = o_id o) -> List.map o_id (map_operation id f ops) = List.map o_id ops.
Proof.
  intros Hf. unfold map_operation. rewrite map_map. apply map_ext. intros o. by destruct (o_id o === id).
Qed.

Lemma map_operation_ok n id f ops :
  (forall o, o_id (f o) = o_id o) -> (forall o, rule_ok 0 n o -> rule_ok 0 n (f o)) ->
  rules_ok n ops -> rules_ok n (map_operation id f ops).
Proof.
  intros Hid Hf [H1 H2 H3]. constructor.
  - by destruct ops.
  - by rewrite map_operation_ids.
  - unfold map_operation. apply Forall_forall. intros o' Ho'. apply list_elem_of_In, in_map_iff in Ho' as (o & <- & Ho%list_elem_of_In).
    rewrite Forall_forall in H3. destruct (o_id o === id); auto.
Qed.

Lemma patch_operation_ok n p o :
  (forall m, u_mode p = Some m -> m ∈ OPERATION_MODE_VALUES) ->
  (forall l, u_logic p = Some l -> l = js "AND" \/ l = js "OR") ->
  rule_ok 0 n o -> rule_ok 0 n (patch_operation p o).
Proof.
  intros Hm Hl [Hi (Ht1 & Ht2 & Ht3) Hc Hd]. constructor; [done| |done|done].
  split; [|split; [|done]]; cbn [patch_operation o_mode o_logic].
  - destruct (u_mode p); [by apply Hm|done].
  - destruct (u_logic p); [by apply Hl|done].
Qed.

(** Changing the conditions of a rule. *)
Lemma with_conditions_ok n o cs :
  rule_ok 0 n o -> Forall condition_typed cs -> Forall (fun c => fresh clock 0 n (c_id c)) cs ->
  NoDup (List.map c_id cs) -> rule_ok 0 n (with_conditions cs o).
Proof. intros [Hi (Ht1 & Ht2 & _) _ _] H1 H2 H3. by constructor; [|split; [|split]| |]. Qed.

Lemma patch_condition_ok p cid cs n :
  (forall m, uc_mode p = Some m -> m ∈ CONDITION_MODE_VALUES) ->
  let cs' := List.map (fun c => if c_id c === cid then patch_condition p c else c) cs in
  (Forall condition_typed cs -> Forall condition_typed cs') /\
  (Forall (fun c => fresh clock 0 n (c_id c)) cs -> Forall (fun c => fresh clock 0 n (c_id c)) cs') /\
  List.map c_id cs' = List.map c_id cs.
Proof.
  intros Hm. induction cs as [|c cs (IH1 & IH2 & IH3)]; [by repeat split|]. cbn [List.map]. cbv zeta in *.
  assert (c_id (if c_id c === cid then patch_condition p c else c) = c_id c) as Hid by (by destruct (c_id c === cid)).
  repeat split.
  - intros [Hc Hcs]%Forall_cons. constructor; [|auto]. destruct (c_id c === cid); [|done].
    unfold condition_typed. cbn [patch_condition c_mode]. destruct (uc_mode p); [by apply Hm|done].
  - intros [Hc Hcs]%Forall_cons. constructor; [by rewrite Hid|auto].
  - cbn [List.map]. by rewrite Hid, IH3.
Qed.
End invariant.

(** *** Moving, adding and removing rules *)

(** Keys stay different in a filtered list. *)
Lemma NoDup_map_filter {A} (key : A -> jstr) (f : A -> bool) l :
  NoDup (List.map key l) -> NoDup (List.map key (List.filter f l)).
Proof.
  induction l as [|x l IH]; [done|]. cbn [List.map List.filter]. intros [Hx Hnd]%NoDup_cons.
  destruct (f x); [|by apply IH]. cbn [List.map]. constructor; [|by apply IH].
  intros Hin. apply Hx. apply list_elem_of_In, in_map_iff in Hin as (a & <- & Ha%list_elem_of_In).
  apply elem_of_lfilter in Ha as [Ha _]. apply list_elem_of_In, in_map, list_elem_of_In, Ha.
Qed.

Lemma findIndex_Some id ops i :
  findIndex id ops = Some i ->
  exists l1 o l2, ops = l1 ++ o :: l2 /\ length l1 = i /\ o_id o = id /\ Forall (fun o' => o_id o' <> id) l1.
Proof.
  revert i. induction ops as [|o ops IH]; intros i; cbn [findIndex]; [done|].
  destruct (o_id o === id) eqn:E.
  - intros [= <-]. exists [], o, ops. apply (proj1 (js_eqb_true _ _)) in E. by repeat split.
  - destruct (findIndex id ops) as [j|]; [|done]. cbn. intros [= <-].
    destruct (IH j eq_refl) as (l1 & o' & l2 & -> & <- & Ho & Hl). exists (o :: l1), o', l2.
    repeat split; [done|]. constructor; [|done]. by apply (proj1 (js_eqb_false _ _)).
Qed.

Lemma findIndex_In id ops : id ∈ List.map o_id ops -> exists i, findIndex id ops = Some i.
Proof.
  induction ops as [|o ops IH]; cbn [List.map findIndex]; [set_solver|]. intros Hin.
  destruct (o_id o === id) eqn:E; [by eexists|]. apply (proj1 (js_eqb_false _ _)) in E.
  apply elem_of_cons in Hin as [->|Hin]; [done|]. destruct (IH Hin) as [i ->]. by eexists.
Qed.

(** Removing the element at an index, and inserting one. *)
Lemma take_drop_middle_S {A} (l1 : list A) x l2 :
  take (length l1) (l1 ++ x :: l2) ++ drop (S (length l1)) (l1 ++ x :: l2) = l1 ++ l2.
Proof.
  rewrite take_app_length, drop_app, drop_ge by lia. replace (S (length l1) - length l1) with 1 by lia. done.
Qed.

Lemma insert_at {A} (l1 : list A) x y l2 (p : DropPosition) :
  let i := match p with after => S (length l1) | before => length l1 end in
  take i (l1 ++ x :: l2) ++ y :: drop i (l1 ++ x :: l2) =
  match p with before => l1 ++ y :: x :: l2 | after => l1 ++ x :: y :: l2 end.
Proof.
  destruct p; cbv zeta.
  - by rewrite take_app_length, drop_app_length.
  - rewrite take_app, drop_app, take_ge, drop_ge by lia. replace (S (length l1) - length l1) with 1 by lia.
    cbn. by rewrite <-app_assoc.
Qed.

(** What reordering does: nothing, or take one rule out and put it beside another. *)
Lemma reorder_cases ops sourceId targetId position :
  reorderOperations ops sourceId targetId position = ops \/
  exists src tgt l r, findIndex sourceId ops = Some (length l) /\ ops = l ++ src :: r /\ o_id src = sourceId /\
    Forall (fun o => o_id o <> sourceId) l /\ o_id tgt = targetId /\
    exists l1 l2, l ++ r = l1 ++ tgt :: l2 /\
      reorderOperations ops sourceId targetId position =
      match position with before => l1 ++ src :: tgt :: l2 | after => l1 ++ tgt :: src :: l2 end.
Proof.
  unfold reorderOperations. destruct (_ || _); [by left|].
  destruct (findIndex sourceId ops) as [i|] eqn:E; [|by left].
  destruct (findIndex_Some _ _ _ E) as (l & src & r & -> & <- & Hs & Hl). rewrite list_lookup_middle by done.
  cbv zeta. rewrite take_drop_middle_S. destruct (findIndex targetId (l ++ r)) as [j|] eqn:E'; [|by left].
  destruct (findIndex_Some _ _ _ E') as (l1 & tgt & l2 & Hlr & <- & Ht & _). right.
  exists src, tgt, l, r. repeat (split; [done|]). exists l1, l2. split; [done|].
  rewrite Hlr. apply (insert_at l1 tgt src l2 position).
Qed.

Lemma reorder_perm ops sourceId targetId position : reorderOperations ops sourceId targetId position ≡ₚ ops.
Proof.
  destruct (reorder_cases ops sourceId targetId position) as [->|(src & tgt & l & r & _ & -> & _ & _ & _ & l1 & l2 & Hlr & ->)];
    [done|]. rewrite <-(Permutation_middle l r src), Hlr. destruct position.
  - by rewrite <-(Permutation_middle l1 (tgt :: l2) src).
  - rewrite <-(Permutation_middle l1 (src :: l2) tgt), <-(Permutation_middle l1 l2 src), <-(Permutation_middle l1 l2 tgt).
    apply Permutation_swap.
Qed.

Lemma unique_id ops a b :
  NoDup (List.map o_id ops) -> a ∈ ops -> b ∈ ops -> o_id a = o_id b -> a = b.
Proof.
  induction ops as [|o ops IH]; [set_solver|]. cbn [List.map].
  intros [Ho Hnd]%NoDup_cons Ha Hb E.
  assert (forall c, c ∈ ops -> o_id c <> o_id o) as Hne
    by (intros c Hc Ec; apply Ho; rewrite <-Ec; apply list_elem_of_In, in_map, list_elem_of_In, Hc).
  apply elem_of_cons in Ha as [->|Ha], Hb as [->|Hb]; [done|by apply Hne in Hb|by apply Hne in Ha|by apply IH].
Qed.

(** Dropping a rule on another puts it directly before or after that one and
    leaves the order of all the other rules as it was. *)
Lemma reorder_places ops src tgt position :
  NoDup (List.map o_id ops) -> src ∈ ops -> tgt ∈ ops -> o_id src <> o_id tgt ->
  truthy (o_id src) = true -> truthy (o_id tgt) = true ->
  exists l1 l2, List.filter (fun o => o_id o !== o_id src) ops = l1 ++ tgt :: l2 /\
    reorderOperations ops (o_id src) (o_id tgt) position =
    match position with before => l1 ++ src :: tgt :: l2 | after => l1 ++ tgt :: src :: l2 end.
Proof.
  intros Hnd Hs Ht Hne Ts Tt. unfold reorderOperations. rewrite Ts, Tt, js_eqb_ne by done. cbn [negb orb].
  destruct (list_elem_of_split _ _ Hs) as (l & r & ->). pose proof Hnd as Hu.
  rewrite map_app in Hnd. cbn [List.map] in Hnd. apply NoDup_app in Hnd as (Hl & Hd & [Hr _]%NoDup_cons).
  assert (findIndex (o_id src) (l ++ src :: r) = Some (length l)) as E.
  { clear -Hd. induction l as [|o l IH]; cbn [app findIndex length]; [by rewrite js_eqb_refl|].
    rewrite js_eqb_ne. 2:{ intros E. apply (Hd (o_id o)); [left|]. rewrite E. left. }
    rewrite IH; [done|]. intros x Hx. apply Hd. by right. }
  assert (Forall (fun o => (o_id o !== o_id src) = true) l /\ Forall (fun o => (o_id o !== o_id src) = true) r) as [Fl Fr].
  { split; apply Forall_forall; intros o Ho; rewrite js_eqb_ne; [done| |done|].
    - intros E'. apply (Hd (o_id o)); [apply list_elem_of_In, in_map, list_elem_of_In, Ho|rewrite E'; left].
    - intros E'. apply Hr. rewrite <-E'. apply list_elem_of_In, in_map, list_elem_of_In, Ho. }
  assert (List.filter (fun o => o_id o !== o_id src) (l ++ src :: r) = l ++ r) as ->.
  { rewrite List.filter_app. cbn [List.filter]. rewrite js_eqb_refl. cbn [negb]. by rewrite !lfilter_id. }
  assert (tgt ∈ l ++ r) as Ht' by set_solver.
  destruct (findIndex_In (o_id tgt) (l ++ r)) as [j E']; [apply list_elem_of_In, in_map, list_elem_of_In, Ht'|].
  rewrite E, list_lookup_middle by done. cbv zeta. rewrite take_drop_middle_S, E'.
  destruct (findIndex_Some _ _ _ E') as (l1 & tgt' & l2 & Hlr & <- & Hid & Hl1).
  assert (tgt' = tgt) as ->.
  { apply (unique_id _ _ _ Hu); [|done|done].
    assert (tgt' ∈ l ++ r) by (rewrite Hlr; set_solver). set_solver. }
  exists l1, l2. split; [done|]. rewrite Hlr. apply (insert_at l1 tgt src l2 position).
Qed.

(** ** The counter only grows *)

Definition grows {A} (m : gen A) : Prop := forall n r n', m n = (r, n') -> (n <= n')%N.

Lemma grows_ret {A} (a : A) : grows (gret a).
Proof. intros n r n' [= _ <-]. lia. Qed.

Lemma grows_lift {A} (m : outcome A) : grows (glift m).
Proof. intros n r n' [= _ <-]. lia. Qed.

Lemma grows_bind {A B} (m : gen A) (k : A -> gen B) : grows m -> (forall a, grows (k a)) -> grows (gbind m k).
Proof.
  intros Hm Hk n r n'. unfold gbind. destruct (m n) as [[a|] n1] eqn:E; apply Hm in E.
  - intros H%Hk. lia.
  - by intros [= _ <-].
Qed.

Lemma grows_try {A} (m h : gen A) : grows m -> grows h -> grows (gtry m h).
Proof.
  intros Hm Hh n r n'. unfold gtry. destruct (m n) as [[a|] n1] eqn:E; apply Hm in E.
  - by intros [= _ <-].
  - intros H%Hh. lia.
Qed.

Lemma grows_gmapM {A B} (f : A -> gen B) l : (forall x, grows (f x)) -> grows (gmapM f l).
Proof.
  intros Hf. induction l as [|x l IH]; cbn [gmapM]; [apply grows_ret|].
  repeat (apply grows_bind; [auto|]; intros ?). apply grows_ret.
Qed.

Lemma grows_nextLocalId clock : grows (nextLocalId clock).
Proof. intros n r n' [= _ <-]. lia. Qed.

Create HintDb grows.
#[export] Hint Resolve grows_ret grows_lift grows_bind grows_try grows_gmapM grows_nextLocalId : grows.
#[export] Hint Extern 2 (grows (match ?x with _ => _ end)) => destruct x : grows.
#[export] Hint Extern 2 (grows (if ?x then _ else _)) => destruct x : grows.

Lemma grows_condition clock v : grows (normalizeCondition clock v).
Proof. unfold normalizeCondition. auto 20 with grows. Qed.
#[export] Hint Resolve grows_condition : grows.

Lemma grows_operation clock v : grows (normalizeOperation clock v).
Proof. unfold normalizeOperation. repeat (apply grows_bind; [auto with grows|intros ?]); auto with grows. Qed.
#[export] Hint Resolve grows_operation : grows.

Lemma grows_prune_draft clock t : grows (parsePruneObjectsDraft clock t).
Proof.
  assert (forall l, grows (rules_of_entries clock l)) as Hr by (intros l; apply grows_gmapM; intros ?; apply grows_condition).
  unfold parsePruneObjectsDraft, prune_draft_of, normalizePruneRule. cbv zeta.
  destruct (negb _); [apply grows_ret|]. apply grows_try; [|apply grows_ret].
  apply grows_bind; [apply grows_lift|]. intros [| | | | |o]; auto with grows.
  repeat (apply grows_bind; [|intros ?]); auto with grows; repeat case_match; auto with grows.
Qed.
#[export] Hint Resolve grows_prune_draft : grows.

(** ** Every callback keeps the rules well formed *)

Section callbacks_ok.
Context (clock : N -> N).

Lemma rules_perm n ops ops' : ops' ≡ₚ ops -> rules_ok clock n ops -> rules_ok clock n ops'.
Proof.
  intros Hp [H1 H2 H3]. constructor.
  - intros ->. by apply Permutation_nil_l in Hp.
  - by rewrite Hp.
  - by rewrite Hp.
Qed.

Lemma rules_join n n' old new :
  (n <= n')%N -> NoDup (List.map o_id old) -> Forall (rule_ok clock 0 n) old ->
  NoDup (List.map o_id new) -> Forall (rule_ok clock n n') new -> old ++ new <> [] ->
  rules_ok clock n' (old ++ new).
Proof.
  intros Hle Ho1 Ho2 Hn1 Hn2 Hne. constructor; [done| |].
  - rewrite map_app. apply NoDup_app. split; [done|]. split; [|done].
    intros id Hi Hj. apply list_elem_of_In, in_map_iff in Hi as (a & <- & Ha%list_elem_of_In).
    apply list_elem_of_In, in_map_iff in Hj as (b & Eb & Hb%list_elem_of_In). rewrite Forall_forall in Ho2, Hn2.
    destruct (Ho2 a Ha) as [Fa _ _ _], (Hn2 b Hb) as [Fb _ _ _]. rewrite Eb in Fb.
    by apply (fresh_disjoint clock 0 n n n' (o_id a)) in Fb; [|lia|].
  - apply Forall_app. split; (eapply Forall_impl; [eassumption|]; intros o Ho); by eapply rule_ok_mono; [| |exact Ho]; lia.
Qed.

Lemma rules_insert n n' ops ops' o :
  (n <= n')%N -> rules_ok clock n ops -> rule_ok clock n n' o -> ops' ≡ₚ ops ++ [o] -> rules_ok clock n' ops'.
Proof.
  intros Hle [H1 H2 H3] Ho Hp. apply (rules_perm _ (ops ++ [o])); [done|].
  apply (rules_join n); [done..|by apply NoDup_singleton|by apply Forall_singleton|by destruct ops].
Qed.

Lemma rules_filter n f ops :
  rules_ok clock n ops -> List.filter f ops <> [] -> rules_ok clock n (List.filter f ops).
Proof.
  intros [H1 H2 H3] Hne. constructor; [done|by apply NoDup_map_filter|].
  rewrite Forall_forall in *. intros o [Ho _]%elem_of_lfilter. by apply H3.
Qed.

Lemma add_ok s n s' n' :
  rules_ok clock n (st_operations s) -> addOperation clock s n = (Ret s', n') -> rules_ok clock n' (st_operations s').
Proof.
  intros Hs. unfold addOperation, gbind. destruct (default_ok clock n) as (o & m & E & Hlt & _ & Ho). rewrite E.
  intros [= <- <-]. cbn [st_operations setSelectedOperationId setOperations].
  apply (rules_insert n m (st_operations s) _ o); [lia|done..].
Qed.

Lemma duplicate_ok eager id s n s' n' :
  rules_ok clock n (st_operations s) -> duplicateOperation clock eager id s n = (Ret s', n') ->
  rules_ok clock n' (st_operations s').
Proof.
  intros Hs. unfold duplicateOperation. destruct (findIndex _ _) as [i|]; [|by intros [= <- <-]].
  destruct (_ !! i) as [src|]; [|by intros [= <- <-]]. unfold gbind.
  destruct (normalizeOperation _ _ n) as [[o|] m] eqn:E; [|done].
  apply normalizeOperation_ok in E as (Hle & _ & Ho).
  assert (rules_ok clock m (take (S i) (st_operations s) ++ o :: drop (S i) (st_operations s))) as H.
  { apply (rules_insert n m (st_operations s) _ o); [done..|].
    rewrite <-(Permutation_middle (take (S i) (st_operations s)) _ o), take_drop. by rewrite Permutation_app_comm. }
  destruct (eager && _); by intros [= <- <-].
Qed.

Lemma remove_ok id s n s' n' :
  rules_ok clock n (st_operations s) -> removeOperation clock id s n = (Ret s', n') -> rules_ok clock n' (st_operations s').
Proof.
  intros Hs. unfold removeOperation. destruct (Nat.leb_spec (length (st_operations s)) 1) as [Hlen|Hlen].
  - unfold gbind. destruct (default_ok clock n) as (o & m & E & _ & Ho & _). rewrite E. by intros [= <- <-].
  - intros [= <- <-]. cbn [st_operations setOperations]. apply rules_filter; [done|].
    destruct Hs as [_ Hnd _]. destruct (st_operations s) as [|a [|b ops]]; cbn [length] in Hlen; [lia..|].
    cbn [List.filter]. destruct (o_id a === id) eqn:Ea; cbn [negb]; [|done].
    destruct (o_id b === id) eqn:Eb; cbn [negb]; [|done]. exfalso.
    apply (proj1 (js_eqb_true _ _)) in Ea, Eb. cbn [List.map] in Hnd. apply NoDup_cons in Hnd as [Hnd _].
    apply Hnd. rewrite Ea, Eb. left.
Qed.

Lemma add_condition_ok id s n s' n' :
  rules_ok clock n (st_operations s) -> addCondition clock id s n = (Ret s', n') -> rules_ok clock n' (st_operations s').
Proof.
  intros Hs. unfold addCondition, gbind, createDefaultCondition. rewrite normalizeCondition_obj. intros [= <- <-].
  cbn [st_operations setExpandedConditions setOperations].
  pose proof (normalizeCondition_fresh clock (JObj []) n _ _ (normalizeCondition_obj clock [] n)) as (_ & Hf & Ht).
  set (c := condition_of (id_text clock n) []) in *. clearbody c.
  assert (rules_ok clock (n + 1) (st_operations s)) as Hs' by (eapply rules_ok_mono; [|exact Hs]; lia).
  (* a rule of the old state gets a condition drawn after it *)
  constructor.
  - destruct Hs as [H _ _]. by destruct (st_operations s).
  - rewrite map_operation_ids by done. by destruct Hs.
  - destruct Hs as [_ _ Hall]. unfold map_operation. apply Forall_forall. intros o' Ho'.
    apply list_elem_of_In, in_map_iff in Ho' as (o & <- & Ho%list_elem_of_In). rewrite Forall_forall in Hall.
    specialize (Hall o Ho). assert (rule_ok clock 0 (n + 1) o) as Hup by (eapply rule_ok_mono; [| |exact Hall]; lia).
    destruct (o_id o === id); [|done]. destruct Hall as [_ (_ & _ & Hct) Hc Hd].
    apply with_conditions_ok; [done|by apply Forall_app_2; [|apply Forall_singleton]| |].
    + apply Forall_app_2; [by destruct Hup|]. apply Forall_singleton. by eapply fresh_mono; [| |exact Hf]; lia.
    + rewrite map_app. apply NoDup_app. split; [done|]. split; [|by apply NoDup_singleton].
      intros i Hi Hj. apply list_elem_of_singleton in Hj. subst i.
      apply list_elem_of_In, in_map_iff in Hi as (c' & Ec & Hc'%list_elem_of_In). rewrite Forall_forall in Hc.
      specialize (Hc c' Hc'). cbn in Hc. rewrite Ec in Hc.
      by apply (fresh_disjoint clock 0 n n (n + 1) (c_id c)) in Hf; [|lia|].
Qed.
(** Changing only the text of a rule's value. *)
Lemma with_value_text_ok n t o : rule_ok clock 0 n o -> rule_ok clock 0 n (with_value_text t o).
Proof. intros [H1 H2 H3 H4]. by constructor. Qed.

Lemma prune_ok id upd s n s' n' :
  (forall d, grows (upd d)) -> rules_ok clock n (st_operations s) ->
  updatePruneObjectsDraft clock id upd s n = (Ret s', n') -> rules_ok clock n' (st_operations s').
Proof.
  intros Hupd Hs. unfold updatePruneObjectsDraft. set (f := fun op => _).
  assert (forall l m os m', gmapM f l m = (Ret os, m') -> (m <= m')%N /\ List.map o_id os = List.map o_id l /\
    forall k, Forall (rule_ok clock 0 k) l -> Forall (rule_ok clock 0 k) os) as H.
  { assert (forall o m o' m', f o m = (Ret o', m') -> (m <= m')%N /\ (o' = o \/ exists t, o' = with_value_text t o)) as Hf.
    { intros o m o' m'. unfold f. destruct (negb _); [intros [= <- <-]; split; [lia|by left]|].
      unfold gbind. destruct (parsePruneObjectsDraft clock _ m) as [[d|] m1] eqn:E1; [|done].
      apply grows_prune_draft in E1. destruct (upd d m1) as [[d'|] m2] eqn:E2; [|done]. apply Hupd in E2.
      intros [= <- <-]. split; [lia|right; by eexists]. }
    induction l as [|o l IH]; intros m os m'; cbn [gmapM]; [intros [= <- <-]; split; [lia|done]|].
    unfold gbind. destruct (f o m) as [[o'|] m1] eqn:E1; [|done]. destruct (gmapM f l m1) as [[os'|] m2] eqn:E2; [|done].
    intros [= <- <-]. apply Hf in E1 as [H1 Ho]. apply IH in E2 as (H2 & H3 & H4). split; [lia|]. cbn [List.map].
    rewrite H3. split; [by destruct Ho as [->|[t ->]]|]. intros k [Hk Hl]%Forall_cons. constructor; [|by apply H4].
    destruct Ho as [->|[t ->]]; [done|by apply with_value_text_ok]. }
  unfold gbind. destruct (gmapM f (st_operations s) n) as [[os|] m] eqn:E; [|done]. intros [= <- <-].
  cbn [st_operations setOperations]. apply H in E as (Hle & Hid & Hall). destruct Hs as [H1 H2 H3].
  apply (rules_ok_mono clock n); [done|]. constructor; [|by rewrite Hid|by apply Hall].
  intros ->. cbn [List.map] in Hid. by destruct (st_operations s).
Qed.

(** *** Templates and modes *)

(** A template of rules has some. *)
Lemma preset_operations key :
  t_kind (preset_of key) = operations_mode -> operations_of (t_payload (preset_of key)) <> [].
Proof.
  assert (Forall (fun p => t_kind p.2 = operations_mode -> operations_of (t_payload p.2) <> []) TEMPLATE_PRESET_CONFIG) as H
    by (repeat constructor; discriminate).
  unfold preset_of. destruct (obj_get key TEMPLATE_PRESET_CONFIG) as [p|] eqn:E; [|discriminate].
  induction H as [|[k q] l Hq _ IH]; [done|]. cbn [obj_get] in E. destruct (key === k); [by injection E as ->|by apply IH].
Qed.

Lemma fill_ok mode s n s' fx n' :
  rules_ok clock n (st_operations s) -> fillTemplate clock mode s n = (Ret (s', fx), n') ->
  rules_ok clock n' (st_operations s').
Proof.
  intros Hs. unfold fillTemplate. cbv zeta. pose proof (preset_operations (st_templatePresetKey s)) as Hp.
  assert (forall t, fill_legacy clock t s n = (Ret (s', fx), n') -> rules_ok clock n' (st_operations s')) as Hl.
  { intros t. unfold fill_legacy, gbind. destruct (default_ok clock n) as (o & m & E & _ & Ho & _). rewrite E. by intros [= <- _ <-]. }
  destruct (t_kind (preset_of (st_templatePresetKey s))).
  - specialize (Hp eq_refl). set (l := operations_of _) in *. clearbody l.
    destruct mode; unfold gbind; destruct (gmapM (normalizeOperation clock) l n) as [[os|] m] eqn:E; try done;
      pose proof (gmapM_length _ _ _ _ _ E) as Hlen; apply normalize_all_ok in E as (Hle & Hall & Hnd);
      (destruct os as [|o os]; [by destruct l|]).
    + intros [= <- _ <-]. cbn [st_operations setTexts setSelectedOperationId setOperations].
      apply (rules_join n m []); [done|constructor|constructor|done..].
    + assert (forall old, NoDup (List.map o_id old) -> Forall (rule_ok clock 0 n) old -> rules_ok clock m (old ++ o :: os)) as Hj
        by (intros old H1 H2; apply (rules_join n); [done..|]; by destruct old).
      intros [= <- _ <-]. cbn [st_operations setTexts setSelectedOperationId setOperations].
      assert (rules_ok clock m ((match st_visualMode s with operations_mode => nonblank (st_operations s) | legacy => [] end) ++ o :: os)) as H.
      { apply Hj; destruct (st_visualMode s); try constructor; destruct Hs as [_ H2 H3];
          [by apply NoDup_map_filter|by apply nonblank_Forall]. }
      by destruct (_ ++ o :: os) in H |- *; [destruct H|].
  - destruct mode, (st_visualMode s); try (by apply Hl). destruct (truthy _); [|by apply Hl].
    destruct (JSON_parse _); [by apply Hl|]. by intros [= <- _ <-].
Qed.

Lemma visual_ok s n s' fx n' :
  rules_ok clock n (st_operations s) -> switchToVisualMode clock s n = (Ret (s', fx), n') ->
  rules_ok clock n' (st_operations s').
Proof.
  intros Hs. unfold switchToVisualMode. destruct (st_editMode s); [by intros [= <- _ <-]|].
  destruct (default_ok clock n) as (o & m & E & _ & Ho & _).
  destruct (negb _); [unfold gbind; rewrite E; by intros [= <- _ <-]|].
  destruct (JSON_parse _) as [[| | | | |obj]|]; try (by intros [= <- _ <-]).
  destruct (obj_get _ obj) as [[| | | |l|]|]; try (unfold gbind; rewrite E; by intros [= <- _ <-]).
  unfold gbind. destruct (read_operations clock l n) as [[os|] m'] eqn:H; [|done].
  apply read_operations_ok in H as [_ H]. by intros [= <- _ <-].
Qed.

Lemma drop_ok transferred id s n :
  rules_ok clock n (st_operations s) -> rules_ok clock n (st_operations (handleDrop transferred id s)).
Proof.
  intros Hs. unfold handleDrop. cbv zeta. destruct (_ && _); [|done].
  cbn [st_operations resetDragState setDrag setSelectedOperationId setOperations].
  by apply (rules_perm n (st_operations s)); [apply reorder_perm|].
Qed.

Lemma remove_condition_ok n cid o :
  rule_ok clock 0 n o ->
  rule_ok clock 0 n (with_conditions (List.filter (fun c => c_id c !== cid) (o_conditions o)) o).
Proof.
  intros Ho. pose proof Ho as [_ (_ & _ & Ht) Hc Hd]. rewrite Forall_forall in Ht, Hc.
  apply with_conditions_ok; [done|apply Forall_forall; intros c [Hin _]%elem_of_lfilter; auto..|].
  by apply NoDup_map_filter.
Qed.

Lemma handle_ok e s n s' fx n' :
  offered e -> rules_ok clock n (st_operations s) -> handle clock e s n = (Ret (s', fx), n') ->
  rules_ok clock n' (st_operations s').
Proof.
  intros Hoff Hs.
  assert (forall m, gsilent m n = (Ret (s', fx), n') -> m n = (Ret s', n')) as Hg.
  { intros m. unfold gsilent, gbind. destruct (m n) as [[t|] k]; [|done]. by intros [= <- _ <-]. }
  destruct e; cbn [handle];
    match goal with
    | |- gsilent _ _ = _ -> _ => intros H%Hg
    | |- gret (silent _) _ = _ -> _ => unfold silent, gret; intros [= <- _ <-]; try exact Hs
    | _ => idtac
    end.
  - apply map_operation_ok; [done| |done]. intros o. by apply patch_operation_ok; apply Hoff.
  - by apply (add_ok s n).
  - by apply (duplicate_ok eager id s n).
  - by apply (remove_ok id s n).
  - by apply (add_condition_ok id s n).
  - apply map_operation_ok; [done| |done]. intros o Ho.
    destruct (patch_condition_ok clock p cid (o_conditions o) n Hoff) as (H1 & H2 & H3). pose proof Ho as [_ (_ & _ & Ht) Hc Hd].
    apply with_conditions_ok; [done|by apply H1|by apply H2|by rewrite H3].
  - apply map_operation_ok; [done| |done]. apply remove_condition_ok.
  - unfold expandAllConditions, expand_selected. by destruct (selectedOperation s).
  - unfold collapseAllConditions, expand_selected. by destruct (selectedOperation s).
  - apply map_operation_ok; [done| |done]. intros o. apply with_value_text_ok.
  - eapply prune_ok; [intros d; apply grows_ret|exact Hs|exact H].
  - eapply prune_ok; [|exact Hs|exact H]. intros d. unfold normalizePruneRule. auto with grows.
  - eapply prune_ok; [intros d; apply grows_ret|exact Hs|exact H].
  - eapply prune_ok; [intros d; apply grows_ret|exact Hs|exact H].
  - unfold handleDragOver. by destruct (_ || _).
  - by apply drop_ok.
  - unfold switchToJsonMode, gret. destruct (st_editMode s); [destruct (buildVisualJson s)|]; intros [= <- _ <-]; exact Hs.
  - by apply visual_ok.
  - by apply fill_ok.
  - revert H. unfold resetEditorState, gbind. destruct (default_ok clock n) as (o & m & E & _ & Ho & _). rewrite E.
    intros [= <- <-]. exact Ho.
  - unfold formatJson, gret. cbv zeta. destruct (negb _); [|destruct (JSON_parse _)]; intros [= <- _ <-]; exact Hs.
  - unfold gret. intros [= <- _ <-]. exact Hs.
Qed.
End callbacks_ok.

(** ** Invariants of the dialog *)

Lemma keep_selection_operations s : st_operations (keep_selection s) = st_operations s.
Proof. unfold keep_selection. destruct (st_operations s) eqn:E; [done|]. rewrite <-E. by destruct (existsb _ _). Qed.

Lemma keep_selection_selects s :
  st_operations s <> [] -> st_selectedOperationId (keep_selection s) ∈ List.map o_id (st_operations s).
Proof.
  intros Hne. unfold keep_selection. destruct (st_operations s) as [|o ops] eqn:E; [done|]. rewrite <-E at 1.
  destruct (existsb _ _) eqn:Ex.
  - rewrite E in Ex. apply existsb_exists in Ex as (o' & Ho' & Eq). apply (proj1 (js_eqb_true _ _)) in Eq.
    rewrite <-Eq. by apply list_elem_of_In, in_map.
  - cbn [setSelectedOperationId st_selectedOperationId List.map]. left.
Qed.

Lemma reachable_ok clock s n :
  reachable clock s n ->
  rules_ok clock n (st_operations s) /\ st_selectedOperationId s ∈ List.map o_id (st_operations s).
Proof.
  induction 1 as [n value s n' E|s n e s' fx n' _ [IH _] Hoff E|s n n' _ [IH1 IH2] Hle].
  - apply open_ok in E. rewrite keep_selection_operations. split; [done|]. by apply keep_selection_selects, E.
  - apply handle_ok in E; [|done..]. rewrite keep_selection_operations. split; [done|]. by apply keep_selection_selects, E.
  - split; [by eapply rules_ok_mono|done].
Qed.

Lemma find_selected id ops : id ∈ List.map o_id ops -> exists o, find_operation id ops = Some o /\ o_id o = id.
Proof.
  intros Hin. unfold find_operation. induction ops as [|o ops IH]; cbn [List.map List.find] in *; [set_solver|].
  destruct (o_id o === id) eqn:E; [exists o; by apply (proj1 (js_eqb_true _ _)) in E|].
  apply (proj1 (js_eqb_false _ _)) in E. apply IH. set_solver.
Qed.

(** C5: in every state of an open dialog, whatever was opened and whatever was done
    since, there is at least one rule, no two rules have the same identifier, nor
    have two conditions of a rule, every rule has one of the known modes, AND or OR,
    and conditions of known modes, and exactly one rule is shown as selected. *)
Theorem editor_invariant clock s n :
  reachable clock s n ->
  st_operations s <> [] /\ NoDup (List.map o_id (st_operations s)) /\
  Forall (fun o => typed o /\ NoDup (List.map c_id (o_conditions o))) (st_operations s) /\
  exists o, selectedOperation s = Some o /\ o ∈ st_operations s /\ o_id o = st_selectedOperationId s.
Proof.
  intros [[H1 H2 H3] Hsel]%reachable_ok. split; [done|]. split; [done|]. split.
  - eapply Forall_impl; [exact H3|]. by intros o [_ ? _ ?].
  - destruct (find_selected _ _ Hsel) as (o & E & Ho). exists o. split; [done|]. split; [|done].
    unfold find_operation in E. apply List.find_some in E as [E _]. by apply list_elem_of_In.
Qed.

(** ** No callback throws *)

(** A value [normalizeOperation] can read. *)
Definition rule_readable (v : json) : bool :=
  match v with
  | JNull => false
  | JObj o =>
      match to_String (or_else (obj_get (js "logic") o) (JStr (js "OR"))) with Ret _ => true | Throw => false end &&
      match obj_get (js "conditions") o with
      | Some (JArr l) => forallb (fun c => match c with JNull => false | _ => true end) l
      | _ => true
      end
  | _ => true
  end.

Definition total {A} (m : gen A) : Prop := forall n, exists a n', m n = (Ret a, n').

Lemma total_ret {A} (a : A) : total (gret a).
Proof. intros n. by eexists _, _. Qed.

Lemma total_bind {A B} (m : gen A) (k : A -> gen B) : total m -> (forall a, total (k a)) -> total (gbind m k).
Proof. intros Hm Hk n. unfold gbind. destruct (Hm n) as (a & n1 & ->). apply Hk. Qed.

Lemma total_gmapM {A B} (f : A -> gen B) l : Forall (fun x => total (f x)) l -> total (gmapM f l).
Proof.
  induction 1 as [|x l Hx _ IH]; cbn [gmapM]; [apply total_ret|].
  apply total_bind; [done|intros y]. apply total_bind; [done|intros ys]. apply total_ret.
Qed.

Lemma total_condition clock v : v <> JNull -> total (normalizeCondition clock v).
Proof. intros Hv n. destruct v; try done; by eexists _, _. Qed.

Lemma total_operation clock v : rule_readable v = true -> total (normalizeOperation clock v).
Proof.
  intros Hv n. destruct v as [|b|x|t|l|o]; [done|by eexists _, _..|]. cbn [rule_readable] in Hv.
  apply andb_true_iff in Hv as [Hl Hc]. unfold normalizeOperation, gbind, nextLocalId, glift, js_prop.
  destruct (to_String _) as [lt|]; [|done].
  destruct (obj_get (js "conditions") o) as [[| | | |l|]|]; try (by eexists _, _).
  destruct (total_gmapM (normalizeCondition clock) l) with (n := (n + 1)%N) as (cs & n' & ->); [|by eexists _, _].
  apply Forall_forall. intros c Hin%list_elem_of_In. rewrite forallb_forall in Hc. specialize (Hc c Hin).
  apply total_condition. by intros ->.
Qed.

Lemma total_default clock : total (createDefaultOperation clock).
Proof. by apply total_operation. Qed.

Lemma total_prune_draft clock t : total (parsePruneObjectsDraft clock t).
Proof.
  intros n. unfold parsePruneObjectsDraft. cbv zeta. destruct (negb _); [by eexists _, _|].
  unfold gtry. destruct (gbind _ _ n) as [[d|] n']; by eexists _, _.
Qed.

Create HintDb total.
#[export] Hint Resolve total_ret total_bind total_default total_prune_draft : total.

Lemma total_silent m : total m -> total (gsilent m).
Proof. intros H. apply total_bind; [done|]. intros s. apply total_ret. Qed.

Lemma total_prune clock id upd s : (forall d, total (upd d)) -> total (updatePruneObjectsDraft clock id upd s).
Proof.
  intros Hu. unfold updatePruneObjectsDraft. apply total_bind; [|intros; apply total_ret].
  apply total_gmapM, Forall_forall. intros o _. destruct (negb _); [apply total_ret|].
  apply total_bind; [apply total_prune_draft|intros d]. apply total_bind; [done|intros d']. apply total_ret.
Qed.

Lemma total_read clock l : Forall (fun v => rule_readable v = true) l -> total (read_operations clock l).
Proof.
  intros H. destruct l as [|v l]; cbn [read_operations]; [apply total_bind; auto with total|].
  apply total_gmapM. eapply Forall_impl; [exact H|]. intros w. apply total_operation.
Qed.

Lemma source_readable o : rule_readable (copy_operation o) = true.
Proof.
  unfold copy_operation. cbn [rule_readable obj_get]. lit_keys. apply andb_true_iff. split.
  - unfold or_else, json_truthy. by destruct (o_logic o).
  - apply forallb_forall. intros v Hv. by apply in_map_iff in Hv as (c & <- & _).
Qed.

Lemma presets_readable key : Forall (fun v => rule_readable v = true) (operations_of (t_payload (preset_of key))).
Proof.
  assert (forallb (fun p => forallb rule_readable (operations_of (t_payload p.2))) TEMPLATE_PRESET_CONFIG = true) as H
    by (vm_compute; reflexivity).
  assert (forallb rule_readable (operations_of (t_payload (preset_of key))) = true) as Hk.
  { unfold preset_of. destruct (obj_get key TEMPLATE_PRESET_CONFIG) as [p|] eqn:E; [|vm_compute; reflexivity].
    revert E H. generalize TEMPLATE_PRESET_CONFIG. intros l. induction l as [|[k q] l IH]; [done|]. cbn [obj_get forallb snd].
    intros E [Hq Hl]%andb_true_iff. destruct (key === k); [by injection E as ->|by apply IH]. }
  rewrite forallb_forall in Hk. apply Forall_forall. intros v Hv%list_elem_of_In. by apply Hk.
Qed.

(** The rules in the JSON text, which the user may have typed. *)
Definition text_readable (t : jstr) : Prop :=
  forall o l, JSON_parse (trim t) = Ret (JObj o) -> obj_get (js "operations") o = Some (JArr l) ->
  Forall (fun v => rule_readable v = true) l.

Lemma total_visual clock s : text_readable (st_jsonText s) -> total (switchToVisualMode clock s).
Proof.
  intros Ht. unfold switchToVisualMode. destruct (st_editMode s); [apply total_ret|]. cbv zeta.
  destruct (negb _); [apply total_bind; auto with total|].
  destruct (JSON_parse (trim (st_jsonText s))) as [[| | | | |o]|] eqn:E; try apply total_ret.
  destruct (obj_get _ o) as [[| | | |l|]|] eqn:El; try (by apply total_bind; auto with total).
  apply total_bind; [|intros; apply total_ret]. apply total_read. by apply (Ht o l).
Qed.

Lemma total_fill clock mode s : total (fillTemplate clock mode s).
Proof.
  assert (forall t, total (fill_legacy clock t s)) as Hl by (intros t; apply total_bind; auto with total).
  unfold fillTemplate. cbv zeta. pose proof (presets_readable (st_templatePresetKey s)) as Hp.
  assert (total (gmapM (normalizeOperation clock) (operations_of (t_payload (preset_of (st_templatePresetKey s)))))) as Hg
    by (apply total_gmapM; eapply Forall_impl; [exact Hp|]; intros w; apply total_operation).
  destruct (t_kind _).
  - destruct mode; apply total_bind; try done; intros os; [|apply total_ret].
    apply total_bind; [|intros; apply total_ret]. destruct os; [apply total_bind; auto with total|apply total_ret].
  - destruct mode, (st_visualMode s); try apply Hl. destruct (truthy _); [|apply Hl].
    destruct (JSON_parse _); [apply Hl|apply total_ret].
Qed.

Lemma total_handle clock e s :
  (e = SwitchToVisual -> text_readable (st_jsonText s)) -> total (handle clock e s).
Proof.
  intros Ht.
  destruct e; cbn [handle]; try apply total_ret; try apply total_silent.
  - apply total_bind; auto with total.
  - unfold duplicateOperation. destruct (findIndex _ _); [|apply total_ret]. destruct (_ !! _); [|apply total_ret].
    apply total_bind; [apply total_operation, source_readable|intros; apply total_ret].
  - unfold removeOperation. destruct (_ <=? _)%nat; [apply total_bind; auto with total|apply total_ret].
  - apply total_bind; [by apply total_condition|intros; apply total_ret].
  - apply total_prune. intros; apply total_ret.
  - apply total_prune. intros d. apply total_bind; [by apply total_condition|intros; apply total_ret].
  - apply total_prune. intros; apply total_ret.
  - apply total_prune. intros; apply total_ret.
  - by apply total_visual, Ht.
  - apply total_fill.
  - apply total_bind; auto with total.
Qed.

(** No callback of the dialog throws: every event in every state leads to a next
    state, except switching to the visual editor on a text whose rules cannot be read
    (a null, or a logic without a text). *)
Lemma handle_total clock e s n :
  (e = SwitchToVisual -> text_readable (st_jsonText s)) ->
  exists s' fx n', handle clock e s n = (Ret (s', fx), n').
Proof. intros Ht. destruct (total_handle clock e s Ht n) as ([s' fx] & n' & E). by eexists _, _, _. Qed.

(** ** Examples *)

Definition noon : N -> N := fun _ => 12%N.

Lemma handle_total_witness :
  let s := MkEditor json_text operations_mode [] [] (js "{}") None [] [] [] [] [] before [] in
  exists s' fx n', handle noon SwitchToVisual s 4%N = (Ret (s', fx), n').
Proof.
  apply (handle_total noon SwitchToVisual (MkEditor json_text operations_mode [] [] (js "{}") None [] [] [] [] [] before []) 4%N).
  intros _ o l Ho Hl. vm_compute in Ho. injection Ho as <-. discriminate Hl.
Defined.

(** The dialog opened on nothing, with a rule added. *)
Definition sample_rule (k : N) : ParamOverrideOperation :=
  MkOperation (id_text noon k) [] [] (js "set") [] [] [] false (js "OR") [].
Definition sample_editor : Editor :=
  MkEditor visual operations_mode [] [sample_rule 0; sample_rule 1] [] None [] (id_text noon 1) [] [] [] before
    (js "operations_default").

Lemma sample_reachable : reachable noon sample_editor 2.
Proof.
  assert (reachable noon (keep_selection (MkEditor visual operations_mode [] [sample_rule 0] [] None [] (id_text noon 0)
    [] [] [] before (js "operations_default"))) 1) as H by (apply (reach_open noon 0 []); vm_compute; reflexivity).
  apply (reach_event noon _ 1 AddOperation sample_editor [] 2 H); [exact I|vm_compute; reflexivity].
Qed.

Lemma editor_invariant_witness :
  NoDup (List.map o_id (st_operations sample_editor)) /\ exists o, selectedOperation sample_editor = Some o.
Proof.
  destruct (editor_invariant noon sample_editor 2 sample_reachable) as (_ & H & _ & o & Ho & _). split; [exact H|].
  exists o. exact Ho.
Defined.

Lemma reorder_places_witness :
  exists l1 l2, List.filter (fun o => o_id o !== id_text noon 0) (st_operations sample_editor) = l1 ++ sample_rule 1 :: l2 /\
    reorderOperations (st_operations sample_editor) (id_text noon 0) (id_text noon 1) after =
    l1 ++ sample_rule 1 :: sample_rule 0 :: l2.
Proof.
  apply (reorder_places (st_operations sample_editor) (sample_rule 0) (sample_rule 1) after).
  - apply (bool_decide_eq_true (NoDup _)). vm_compute. reflexivity.
  - left.
  - right. left.
  - intros H%id_text_inj. discriminate H.
  - reflexivity.
  - reflexivity.
Defined.
