(* ===== verification/ParamPrune.v ===== *)
(** * Editing single values in the parameter override editor

    What becomes of edits of the drafts of [prune_objects] and [return_error]. *)
From S2P Require Import Prelude Numbers Json JsonRoundtrip JsonPretty ParamOverride ParamSave ParamDrafts ParamEditor ParamInvariant.

(** ** Editing the rules of a prune operation *)

Section prune_rules.
Context (clock : N -> N).

Lemma conditions_fresh {A} (f : A -> json) l n rs n' :
  gmapM (fun x => normalizePruneRule clock (f x)) l n = (Ret rs, n') ->
  (n <= n')%N /\ Forall (fun r => fresh clock n n' (c_id r)) rs.
Proof.
  intros E. apply (gmapM_fresh clock _ c_id (fun _ _ _ => True)) in E as (Hle & Hall & _); [| |done].
  - split; [done|]. eapply Forall_impl; [exact Hall|]. by intros r [? _].
  - intros x m r m' H. apply normalizeCondition_fresh in H. naive_solver.
Qed.

Lemma both_fresh n m n' a b :
  (n <= m)%N -> (m <= n')%N -> Forall (fun r => fresh clock n m (c_id r)) a -> Forall (fun r => fresh clock m n' (c_id r)) b ->
  Forall (fun r => fresh clock n n' (c_id r)) (a ++ b).
Proof.
  intros H1 H2 Ha Hb. apply Forall_app. split; (eapply Forall_impl; [eassumption|]; intros r Hr; cbn in *);
    by eapply fresh_mono; [| |exact Hr]; lia.
Qed.

Lemma prune_draft_of_fresh o n d n' :
  prune_draft_of clock o n = (Ret d, n') -> Forall (fun r => fresh clock n n' (c_id r)) (p_rules d).
Proof.
  unfold prune_draft_of.
  set (wr := match obj_get (js "where") o with Some (JObj w) => rules_of_entries clock w | _ => gret [] end).
  set (cr := match obj_get (js "conditions") o with
    | Some (JArr l) => gmapM (normalizePruneRule clock) (List.filter is_object_value l)
    | Some (JObj c) => rules_of_entries clock c | _ => gret [] end).
  assert (forall m rs m', wr m = (Ret rs, m') -> (m <= m')%N /\ Forall (fun r => fresh clock m m' (c_id r)) rs) as Hw.
  { intros m rs m'. unfold wr. destruct (obj_get (js "where") o) as [[]|]; try (intros [= <- <-]; split; [lia|constructor]).
    apply conditions_fresh. }
  assert (forall m rs m', cr m = (Ret rs, m') -> (m <= m')%N /\ Forall (fun r => fresh clock m m' (c_id r)) rs) as Hc.
  { intros m rs m'. unfold cr. destruct (obj_get (js "conditions") o) as [[]|]; try (intros [= <- <-]; split; [lia|constructor]).
    - apply (conditions_fresh (fun x => x)).
    - apply conditions_fresh. }
  clearbody wr cr. unfold gbind at 1. destruct (wr n) as [[ws|] n1] eqn:E1; [|done]. apply Hw in E1 as [L1 F1].
  unfold gbind at 1. destruct (cr n1) as [[cs|] n2] eqn:E2; [|done]. apply Hc in E2 as [L2 F2].
  unfold gbind at 1, glift at 1. destruct (match obj_get (js "type") o with None => _ | Some _ => _ end) as [tt|]; [|done].
  unfold gbind at 1, glift at 1. destruct (to_String _) as [lg|]; [|done].
  intros [= <- <-]. cbn [p_rules]. by apply (both_fresh n n1 n2).
Qed.

Lemma prune_draft_fresh t n d n' :
  parsePruneObjectsDraft clock t n = (Ret d, n') -> Forall (fun r => fresh clock n n' (c_id r)) (p_rules d).
Proof.
  unfold parsePruneObjectsDraft. cbv zeta. destruct (negb _); [intros [= <- _]; constructor|].
  unfold gtry. destruct (gbind _ _ n) as [[d'|] m] eqn:E; [|intros [= <- _]; constructor].
  intros [= <- <-]. revert E. unfold gbind at 1, glift at 1.
  destruct (JSON_parse _) as [[| | |s|l|o]|]; try done; try (by intros [= <- _]; constructor).
  - unfold gbind, glift. destruct (to_String _); [|done]. by intros [= <- _]; constructor.
  - apply prune_draft_of_fresh.
Qed.

(** Rules parsed again have other identifiers than those on display. *)
Lemma stale_id t m d m' rid n n' :
  fresh clock n n' rid -> (n' <= m)%N -> parsePruneObjectsDraft clock t m = (Ret d, m') ->
  Forall (fun r => c_id r <> rid) (p_rules d).
Proof.
  intros Hr Hle E%prune_draft_fresh. eapply Forall_impl; [exact E|]. cbn. intros r Hf Er. rewrite Er in Hf.
  by apply (fresh_disjoint clock n n' m m' rid) in Hf.
Qed.

Lemma gmapM_ext {A B} (f g : A -> gen B) l n :
  (forall x, grows (f x)) -> (forall x m, x ∈ l -> (n <= m)%N -> f x m = g x m) -> gmapM f l n = gmapM g l n.
Proof.
  intros Hg. revert n. induction l as [|x l IH]; intros n H; [done|]. cbn [gmapM]. unfold gbind.
  rewrite <-(H x n) by (left || lia). destruct (f x n) as [[y|] m] eqn:E; [|done]. apply Hg in E.
  rewrite IH; [done|]. intros z k Hz Hk. apply H; [by right|lia].
Qed.

(** Two updates that agree on drafts without a given identifier. *)
Lemma prune_update_ext id upd upd' s m rid n n' :
  fresh clock n n' rid -> (n' <= m)%N -> (forall d, grows (upd d)) ->
  (forall d, Forall (fun r => c_id r <> rid) (p_rules d) -> upd d = upd' d) ->
  updatePruneObjectsDraft clock id upd s m = updatePruneObjectsDraft clock id upd' s m.
Proof.
  intros Hr Hle Hg Hext. unfold updatePruneObjectsDraft, gbind at 1 4.
  match goal with |- context [gmapM ?f _ m] => set (F := f) end.
  match goal with |- _ = match gmapM ?g _ m with _ => _ end => set (G := g) end.
  assert (forall x, grows (F x)) as HF.
  { intros x. unfold F. destruct (negb _); [apply grows_ret|]. apply grows_bind; [apply grows_prune_draft|intros d].
    apply grows_bind; [done|intros ?; apply grows_ret]. }
  rewrite (gmapM_ext F G); [done|done|].
  intros x k _ Hk. unfold F, G. destruct (negb _); [done|]. unfold gbind.
  destruct (parsePruneObjectsDraft clock (o_value_text x) k) as [[d|] k'] eqn:E; [|done].
  rewrite Hext; [done|]. eapply stale_id; [exact Hr| |exact E]. lia.
Qed.

(** An edit of a prune rule on display is lost.  The rules shown were parsed
    when the dialog was rendered; the update parses the text again, gives the rules
    new identifiers, and finds none with the one it was given.  Whatever the patch,
    updating or removing the rule only writes the parsed draft back. *)
Lemma prune_rule_edits_lost s n d n' r id patch m :
  pruneObjectsDraft clock s n = (Ret (Some d), n') -> r ∈ p_rules d -> (n' <= m)%N ->
  updatePruneRule clock id (c_id r) patch s m = updatePruneObjectsDraft clock id gret s m /\
  removePruneRule clock id (c_id r) s m = updatePruneObjectsDraft clock id gret s m.
Proof.
  intros E Hr Hm.
  assert (fresh clock n n' (c_id r)) as Hf.
  { revert E. unfold pruneObjectsDraft. destruct (selectedOperation s); [|done]. destruct (_ === _); [|done].
    unfold gbind. destruct (parsePruneObjectsDraft clock _ n) as [[d'|] k] eqn:E; [|done]. intros [= <- <-].
    apply prune_draft_fresh in E. rewrite Forall_forall in E. by apply E. }
  split; (eapply prune_update_ext; [exact Hf|exact Hm|intros ?; apply grows_ret|]); intros [b t l rec rs] Hall;
    cbn [p_simpleMode p_typeText p_logic p_recursive p_rules] in *; do 2 f_equal.
  - induction Hall as [|x l' Hx _ IH]; [done|]. cbn [List.map]. by rewrite js_eqb_ne, IH.
  - apply lfilter_id. eapply Forall_impl; [exact Hall|]. intros x Hx. by rewrite js_eqb_ne.
Qed.
End prune_rules.

(** A rule without a path is not written, so a rule that was just added is gone at
    once. *)
Lemma blank_prune_rule_not_written b t l r rs rule :
  trim (c_path rule) = [] ->
  buildPruneObjectsValueText (MkPruneDraft b t l r (rs ++ [rule])) = buildPruneObjectsValueText (MkPruneDraft b t l r rs).
Proof.
  intros H. unfold buildPruneObjectsValueText, prune_payload. cbn [p_simpleMode p_typeText p_logic p_recursive p_rules].
  rewrite List.filter_app. cbn [List.filter]. rewrite H. cbn [truthy]. by rewrite app_nil_r.
Qed.

(** A space typed at the end of an error's message is gone at once. *)
Lemma typed_space_lost d m :
  let set_message t := MkErrorDraft t (e_statusCode d) (e_code d) (e_type d) (e_skipRetry d) (e_simpleMode d) in
  buildReturnErrorValueText (set_message (m ++ js " ")) = buildReturnErrorValueText (set_message m).
Proof.
  cbv zeta. assert (trim (m ++ js " ") = trim m) as H.
  { unfold trim. destruct (trim_start m) as [|c t] eqn:E.
    - assert (trim_start (m ++ js " ") = []) as ->; [|done].
      revert E. clear. induction m as [|c m IH]; [done|]. cbn [app trim_start]. destruct (is_ws c); [apply IH|done].
    - rewrite trim_start_app by (by rewrite E). rewrite E. change (js " ") with [32%N]. by rewrite (trim_end_snoc_ws (c :: t) 32%N). }
  unfold buildReturnErrorValueText, error_payload. cbn [e_message e_statusCode e_code e_type e_skipRetry e_simpleMode].
  by rewrite H.
Qed.

(** ** Examples *)

(** A prune rule with one condition, selected. *)
Definition prune_text : jstr :=
  buildPruneObjectsValueText (MkPruneDraft false [] (js "OR") true
    [MkCondition [] (js "role") (js "full") (js "system") false false]).
Definition prune_editor : Editor :=
  MkEditor visual operations_mode []
    [MkOperation (js "p") [] [] (js "prune_objects") [] [] prune_text false (js "OR") []]
    [] None [] (js "p") [] [] [] before (js "operations_default").

Lemma prune_rule_edits_lost_witness :
  let patch := MkConditionPatch (Some (js "name")) None None None None in
  updatePruneRule noon (js "p") (id_text noon 7) patch prune_editor 8%N =
    updatePruneObjectsDraft noon (js "p") gret prune_editor 8%N /\
  removePruneRule noon (js "p") (id_text noon 7) prune_editor 8%N =
    updatePruneObjectsDraft noon (js "p") gret prune_editor 8%N.
Proof.
  set (r := MkCondition (id_text noon 7) (js "role") (js "full") (js "system") false false).
  apply (prune_rule_edits_lost noon prune_editor 7%N (MkPruneDraft false [] (js "OR") true [r]) 8%N r (js "p")
    (MkConditionPatch (Some (js "name")) None None None None) 8%N).
  - vm_compute. reflexivity.
  - left.
  - discriminate.
Defined.

(** The update does not change the text: the rule is still there, unpatched. *)
Lemma prune_rule_still_there :
  let patch := MkConditionPatch (Some (js "name")) None None None None in
  (fun r => List.map o_value_text (st_operations r)) <$>
    match (updatePruneRule noon (js "p") (id_text noon 7) patch prune_editor 8%N).1 with Ret s => Some s | Throw => None end
  = Some [prune_text].
Proof. vm_compute. reflexivity. Qed.

(** The text mode saves documents that are no objects. *)
Lemma text_mode_saves_arrays :
  handleSave (MkEditor json_text operations_mode [] [] (js "[1]") None [] [] [] [] [] before []) =
  [OnSave (JSON_pretty (JArr [JNum (num_of_Z 1)])); OnOpenChange false].
Proof. vm_compute. reflexivity. Qed.
