(* ===== verification/ParamRefine.v ===== *)
(** * The rule list of the editor refines a list with a position

    What the list of rules promises its user, with identifiers left out: rules are
    addressed by position, and one position is current.  The callbacks, which find
    rules by identifier and rely on an effect to repair the selection, implement it. *)
From S2P Require Import Prelude Numbers Json JsonRoundtrip JsonPretty ParamOverride ParamSave ParamDrafts ParamEditor ParamInvariant.

(** ** The abstract list *)

Record view : Type := MkView { v_rules : list ParamOverrideOperation; v_current : nat }.

Definition blank_rule : ParamOverrideOperation :=
  MkOperation [] [] [] (js "set") [] [] [] false (js "OR") [].

(** A copy has the values as their JSON values print. *)
Definition copied (o : ParamOverrideOperation) : ParamOverrideOperation :=
  MkOperation [] (o_description o) (o_path o) (o_mode o) (o_from o) (o_to o) (reshown (o_value_text o))
    (o_keep_origin o) (o_logic o)
    (List.map (fun c => MkCondition [] (c_path c) (c_mode c) (reshown (c_value_text c)) (c_invert c)
                          (c_pass_missing_key c)) (o_conditions o)).

Inductive command : Type :=
| CSelect (j : nat)
| CUpdate (j : nat) (p : OperationPatch)
| CAdd
| CDuplicate (select : bool) (j : nat)
| CRemove (j : nat)
| CMove (j k : nat) (position : DropPosition).

(** Where the rule at [k] is once the one at [j] is gone. *)
Definition index_without (j k : nat) : nat := if (k <? j)%nat then k else k - 1.

Definition run_command (c : command) (v : view) : view :=
  let '(MkView l i) := v in
  match c with
  | CSelect j => MkView l j
  | CUpdate j p => MkView (alter (patch_operation p) j l) i
  | CAdd => MkView (l ++ [blank_rule]) (length l)
  | CDuplicate select j =>
      match l !! j with
      | Some o => MkView (take (S j) l ++ copied o :: drop (S j) l)
                    (if select then S j else if (i <=? j)%nat then i else S i)
      | None => v
      end
  | CRemove j =>
      if (length l <=? 1)%nat then MkView [blank_rule] 0
      else MkView (delete j l) (if (i =? j)%nat then 0 else index_without j i)
  | CMove j k position =>
      match l !! j with
      | Some o =>
          let rest := delete j l in
          let p := match position with before => index_without j k | after => S (index_without j k) end in
          MkView (take p rest ++ o :: drop p rest) p
      | None => v
      end
  end.

(** ** The editor's list stands for it *)

Definition represents (s : Editor) (v : view) : Prop :=
  List.map erase (st_operations s) = v_rules v /\
  exists o, st_operations s !! v_current v = Some o /\ o_id o = st_selectedOperationId s.

(** The command an event is. *)
Definition command_of (s : Editor) (e : event) : option command :=
  let at_ id := findIndex id (st_operations s) in
  match e with
  | SelectOperation id => CSelect <$> at_ id
  | UpdateOperation id p => (fun j => CUpdate j p) <$> at_ id
  | AddOperation => Some CAdd
  | DuplicateOperation eager id => CDuplicate eager <$> at_ id
  | RemoveOperation id => CRemove <$> at_ id
  | Drop transferred id =>
      let sourceId := str_or (st_draggedOperationId s) transferred in
      let position := if st_dragOverOperationId s === id then st_dragOverPosition s else before in
      match at_ sourceId, at_ id with
      | Some j, Some k => if (j =? k)%nat then None else Some (CMove j k position)
      | _, _ => None
      end
  | _ => None
  end.

(** ** Positions and identifiers *)

Lemma findIndex_lookup id ops j :
  findIndex id ops = Some j -> exists o, ops !! j = Some o /\ o_id o = id.
Proof.
  intros (l1 & o & l2 & -> & <- & Ho & _)%findIndex_Some. exists o. split; [|done]. by rewrite list_lookup_middle.
Qed.

Lemma lookup_findIndex ops j o :
  NoDup (List.map o_id ops) -> ops !! j = Some o -> findIndex (o_id o) ops = Some j.
Proof.
  revert j. induction ops as [|o' ops IH]; intros j Hnd Hj; [done|]. cbn [List.map] in Hnd.
  apply NoDup_cons in Hnd as [Ho' Hnd]. cbn [findIndex]. destruct j as [|j]; cbn in Hj.
  - injection Hj as ->. by rewrite js_eqb_refl.
  - rewrite js_eqb_ne; [by rewrite (IH j)|]. intros E. apply Ho'. rewrite E.
    apply list_elem_of_lookup_2 in Hj. apply list_elem_of_In, in_map, list_elem_of_In, Hj.
Qed.

(** The same identifier means the same position. *)
Lemma same_position ops i j a b :
  NoDup (List.map o_id ops) -> ops !! i = Some a -> ops !! j = Some b -> o_id a = o_id b -> i = j.
Proof.
  intros Hnd Ha Hb E. apply (lookup_findIndex _ _ _ Hnd) in Ha, Hb. rewrite E in Ha. congruence.
Qed.

Lemma map_operation_alter id f ops j :
  NoDup (List.map o_id ops) -> findIndex id ops = Some j -> map_operation id f ops = alter f j ops.
Proof.
  unfold map_operation. revert j. induction ops as [|o ops IH]; intros j Hnd Hj; [done|]. cbn [List.map findIndex] in *.
  apply NoDup_cons in Hnd as [Ho Hnd]. destruct (o_id o === id) eqn:E.
  - injection Hj as <-. cbn. f_equal. apply (proj1 (js_eqb_true _ _)) in E. subst id.
    rewrite <-(map_id ops) at 2. apply map_ext_in. intros a Ha. rewrite js_eqb_ne; [done|].
    intros Ea. apply Ho. rewrite <-Ea. by apply list_elem_of_In, in_map.
  - destruct (findIndex id ops) as [k|]; [|done]. injection Hj as <-. cbn. f_equal. by apply IH.
Qed.

Lemma filter_delete id ops j :
  NoDup (List.map o_id ops) -> findIndex id ops = Some j -> List.filter (fun o => o_id o !== id) ops = delete j ops.
Proof.
  revert j. induction ops as [|o ops IH]; intros j Hnd Hj; [done|]. cbn [List.map findIndex List.filter] in *.
  apply NoDup_cons in Hnd as [Ho Hnd]. destruct (o_id o === id) eqn:E; cbn [negb].
  - injection Hj as <-. cbn. apply (proj1 (js_eqb_true _ _)) in E. subst id. apply lfilter_id, Forall_forall.
    intros a Ha. rewrite js_eqb_ne; [done|]. intros Ea. apply Ho. rewrite <-Ea. apply list_elem_of_In, in_map, list_elem_of_In, Ha.
  - destruct (findIndex id ops) as [k|]; [|done]. injection Hj as <-. cbn. f_equal. by apply IH.
Qed.

Lemma lookup_delete_index {A} (l : list A) j i x :
  l !! i = Some x -> i <> j -> delete j l !! index_without j i = Some x.
Proof.
  intros Hx Hne. unfold index_without. destruct (Nat.ltb_spec i j).
  - by rewrite list_lookup_delete_lt.
  - rewrite list_lookup_delete_ge by lia. by replace (S (i - 1)) with i by lia.
Qed.

Lemma findIndex_delete id ops j k :
  NoDup (List.map o_id ops) -> findIndex id ops = Some k -> j <> k -> findIndex id (delete j ops) = Some (index_without j k).
Proof.
  intros Hnd Hk Hne. destruct (findIndex_lookup _ _ _ Hk) as (o & Ho & <-).
  apply lookup_findIndex; [|by apply lookup_delete_index].
  rewrite delete_take_drop. rewrite <-(take_drop j ops) in Hnd. revert Hnd.
  destruct (drop j ops) as [|a r] eqn:E.
  - rewrite app_nil_r. assert (drop (S j) ops = []) as ->; [|by rewrite app_nil_r].
    rewrite <-Nat.add_1_r, <-drop_drop, E. done.
  - assert (drop (S j) ops = r) as -> by (rewrite <-Nat.add_1_r, <-drop_drop, E; done).
    rewrite !map_app. cbn [List.map]. rewrite !NoDup_app, NoDup_cons. intros (H1 & H2 & H3 & H4).
    split; [done|]. split; [|done]. intros x Hx Hr. apply (H2 x Hx). by right.
Qed.

(** The effect leaves a valid selection alone. *)
Lemma keep_selection_id s :
  st_selectedOperationId s ∈ List.map o_id (st_operations s) -> keep_selection s = s.
Proof.
  intros Hin. unfold keep_selection. destruct (st_operations s) as [|o ops] eqn:E; [cbn in Hin; set_solver|].
  assert (existsb (fun o => o_id o === st_selectedOperationId s) (o :: ops) = true) as ->; [|done].
  apply existsb_exists. apply list_elem_of_In, in_map_iff in Hin as (a & Ea & Ha). exists a. split; [done|].
  by apply js_eqb_true.
Qed.

(** A selection that is valid right after the event. *)
Lemma represents_kept s v : represents s v -> represents (keep_selection s) v.
Proof.
  intros [H1 (o & Ho & Hs)]. rewrite keep_selection_id; [by split; [|exists o]|].
  rewrite <-Hs. apply list_elem_of_lookup_2 in Ho. apply list_elem_of_In, in_map, list_elem_of_In, Ho.
Qed.

Lemma lookup_map {A B} (f : A -> B) l j : List.map f l !! j = f <$> l !! j.
Proof. apply (list_lookup_fmap f). Qed.

Lemma map_alter {A B} (f : A -> B) (g : A -> A) (h : B -> B) j l :
  (forall x, f (g x) = h (f x)) -> List.map f (alter g j l) = alter h j (List.map f l).
Proof. intros H. revert j. induction l as [|x l IH]; intros [|j]; cbn; [done..|by rewrite H|]. f_equal. apply IH. Qed.

(** ** The callbacks *)

Section refinement.
Context (clock : N -> N) (s : Editor) (n : N) (v : view).
Hypothesis Hok : rules_ok clock n (st_operations s).
Hypothesis Hv : represents s v.

Lemma select_refines id j :
  findIndex id (st_operations s) = Some j -> represents (setSelectedOperationId id s) (run_command (CSelect j) v).
Proof using Hv.
  intros Hj. destruct Hv as [H1 _]. destruct v as [l i]. split; [done|]. by apply findIndex_lookup.
Qed.

Lemma update_refines id p j :
  findIndex id (st_operations s) = Some j -> represents (updateOperation id p s) (run_command (CUpdate j p) v).
Proof using Hok Hv.
  intros Hj. destruct Hok as [_ Hnd _]. destruct Hv as [H1 (o & Ho & Hs)]. destruct v as [l i]. cbn [v_rules v_current] in *.
  unfold represents, updateOperation, run_command. cbn [st_operations setOperations st_selectedOperationId v_rules v_current].
  rewrite (map_operation_alter id _ _ j) by done. split.
  - rewrite <-H1. by apply map_alter.
  - destruct (decide (i = j)) as [->|Hne].
    + exists (patch_operation p o). split; [|done]. rewrite list_lookup_alter_eq. by rewrite Ho.
    + exists o. split; [|done]. by rewrite list_lookup_alter_ne.
Qed.

Lemma add_refines s' n' :
  addOperation clock s n = (Ret s', n') -> represents s' (run_command CAdd v).
Proof using Hv.
  unfold addOperation, gbind. destruct (createDefaultOperation clock n) as [[o|] m] eqn:E; [|done]. intros [= <- <-].
  destruct Hv as [H1 _]. destruct v as [l i]. cbn [v_rules v_current] in *.
  assert (erase o = blank_rule) as Eo by (vm_compute in E; injection E as <- _; reflexivity).
  unfold represents, run_command. cbn [st_operations setOperations setSelectedOperationId st_selectedOperationId v_rules v_current].
  split; [rewrite map_app; cbn [List.map]; by rewrite H1, Eo|]. exists o. split; [|done].
  rewrite <-H1, length_map. by apply list_lookup_middle.
Qed.

Lemma lookup_after {A} (l : list A) x y j i :
  l !! i = Some x -> S j <= length l ->
  (take (S j) l ++ y :: drop (S j) l) !! (if (i <=? j)%nat then i else S i) = Some x /\
  (take (S j) l ++ y :: drop (S j) l) !! S j = Some y.
Proof.
  intros Hx Hj. assert (length (take (S j) l) = S j) as Hlen by (rewrite length_take; lia). split.
  - destruct (Nat.leb_spec i j).
    + rewrite lookup_app_l by lia. by rewrite lookup_take_lt by lia.
    + rewrite lookup_app_r by lia. rewrite Hlen. replace (S i - S j) with (S (i - S j)) by lia. change ((y :: drop (S j) l) !! S (i - S j)) with (drop (S j) l !! (i - S j)).
      rewrite lookup_drop. by replace (S j + (i - S j)) with i by lia.
  - rewrite lookup_app_r by lia. by rewrite Hlen, Nat.sub_diag.
Qed.

(** Reading the copy of a well-typed rule. *)
Lemma normalize_source o :
  typed o -> exists c n', normalizeOperation clock (copy_operation o) n = (Ret c, n') /\ erase c = copied o.
Proof.
  intros (Hm & Hl & Hc). unfold normalizeOperation, gbind, nextLocalId, glift, js_prop, copy_operation. get_keys.
  assert (to_String (or_else (Some (JStr (o_logic o))) (JStr (js "OR"))) = Ret (o_logic o)) as ->
    by (by destruct Hl as [->| ->]).
  destruct (gmapM_erase (normalizeCondition clock) erase_condition
    (fun w => match w with JObj c => condition_of [] c | _ => condition_of [] [] end)
    (List.map copy_condition (o_conditions o)) (n + 1)%N) as (cs & n' & E & Hcs).
  { intros w m Hw. apply list_elem_of_In, in_map_iff in Hw as (c & <- & _). unfold copy_condition.
    rewrite normalizeCondition_obj. eexists _, _. by split. }
  rewrite E, mode_reads by done. eexists _, n'. split; [reflexivity|]. unfold erase, copied.
  cbn [o_description o_path o_mode o_from o_to o_value_text o_keep_origin o_logic o_conditions].
  rewrite Hcs, map_map. f_equal; [by destruct Hl as [->| ->]|].
  apply map_ext_in. intros c Hin%list_elem_of_In. rewrite Forall_forall in Hc. specialize (Hc c Hin).
  unfold copy_condition, condition_of. get_keys. by rewrite mode_reads by done.
Qed.

Lemma typed_copied o : copied (erase o) = copied o.
Proof. unfold copied, erase. cbn. f_equal. by rewrite map_map. Qed.

Lemma duplicate_refines eager id j s' n' :
  findIndex id (st_operations s) = Some j -> duplicateOperation clock eager id s n = (Ret s', n') ->
  represents s' (run_command (CDuplicate eager j) v).
Proof using Hok Hv.
  intros Hj. destruct (findIndex_lookup _ _ _ Hj) as (o & Ho & _). unfold duplicateOperation. rewrite Hj, Ho.
  destruct Hok as [_ _ Hall]. pose proof (proj1 (Forall_lookup _ _) Hall j o Ho) as [_ Ht _ _].
  destruct (normalize_source o Ht) as (c & m & E & Ec). unfold gbind. rewrite E. intros [= <- <-].
  apply normalizeOperation_ok in E as (_ & Hc%fresh_not_empty & _). rewrite Hc, andb_true_r.
  destruct Hv as [H1 (a & Ha & Hs)]. destruct v as [l i]. cbn [v_rules v_current run_command] in *. subst l.
  rewrite lookup_map, Ho. cbn [fmap option_fmap option_map].
  pose proof (lookup_lt_Some _ _ _ Ho) as Hlt. destruct (lookup_after _ _ c j i Ha Hlt) as [L1 L2].
  split.
  - cbn [v_rules]. rewrite typed_copied, <-Ec. destruct eager; cbn [st_operations setOperations setSelectedOperationId];
      rewrite map_app; cbn [List.map]; rewrite <-firstn_map, <-skipn_map; done.
  - cbn [v_current]. destruct eager; cbn [st_operations setOperations setSelectedOperationId st_selectedOperationId];
      [by exists c|by exists a].
Qed.

Lemma remove_refines id j s' n' :
  findIndex id (st_operations s) = Some j -> removeOperation clock id s n = (Ret s', n') ->
  represents (keep_selection s') (run_command (CRemove j) v).
Proof using Hok Hv.
  intros Hj. destruct (findIndex_lookup _ _ _ Hj) as (o & Ho & Hid). unfold removeOperation.
  destruct Hok as [_ Hnd _]. destruct Hv as [H1 (a & Ha & Hs)]. destruct v as [l i]. cbn [v_rules v_current run_command] in *.
  rewrite <-H1, length_map. destruct (Nat.leb_spec (length (st_operations s)) 1) as [Hlen|Hlen].
  - unfold gbind. destruct (createDefaultOperation clock n) as [[b|] m] eqn:E; [|done]. intros [= <- <-].
    assert (erase b = blank_rule) as Eb by (vm_compute in E; injection E as <- _; reflexivity).
    unfold keep_selection. cbn [st_operations setOperations existsb]. destruct (o_id b === _) eqn:Es; cbn [orb].
    + split; [cbn; by rewrite Eb|]. exists b. split; [done|]. by apply (proj1 (js_eqb_true _ _)) in Es.
    + split; [cbn; by rewrite Eb|]. by exists b.
  - intros [= <- <-]. rewrite (filter_delete id _ j) by done.
    assert (List.map erase (delete j (st_operations s)) = delete j (List.map erase (st_operations s))) as Em
      by (by rewrite !delete_take_drop, map_app, firstn_map, skipn_map).
    destruct (Nat.eqb_spec i j) as [->|Hne].
    + (* the selected rule went: the first of the others is selected *)
      assert (st_selectedOperationId s ∉ List.map o_id (delete j (st_operations s))) as Hout.
      { rewrite <-(filter_delete id) by done. intros Hin. apply list_elem_of_In, in_map_iff in Hin as (b & Eb & Hb%list_elem_of_In).
        apply elem_of_lfilter in Hb as [_ Hb]. rewrite Eb, <-Hs in Hb. rewrite Ho in Ha. injection Ha as ->.
        rewrite Hid, js_eqb_refl in Hb. done. }
      split; [by rewrite keep_selection_operations|]. cbn [v_current]. rewrite keep_selection_operations.
      unfold keep_selection. cbn [st_operations setOperations st_selectedOperationId].
      destruct (delete j (st_operations s)) as [|b ops] eqn:Ed.
      { apply (f_equal length) in Ed. rewrite length_delete in Ed by (by exists o). cbn in Ed. lia. }
      exists b. split; [done|]. assert (existsb (fun o => o_id o === st_selectedOperationId s) (b :: ops) = false) as ->; [|done].
      apply not_true_iff_false. intros Hex. apply existsb_exists in Hex as (d & Hd & E). apply Hout.
      apply (proj1 (js_eqb_true _ _)) in E. rewrite <-E. by apply list_elem_of_In, in_map.
    + apply represents_kept. split; [done|]. exists a. split; [|done]. by apply lookup_delete_index.
Qed.

Lemma move_refines transferred id j k :
  let sourceId := str_or (st_draggedOperationId s) transferred in
  let position := if st_dragOverOperationId s === id then st_dragOverPosition s else before in
  findIndex sourceId (st_operations s) = Some j -> findIndex id (st_operations s) = Some k -> j <> k ->
  represents (handleDrop transferred id s) (run_command (CMove j k position) v).
Proof using Hok Hv.
  cbv zeta. set (sourceId := str_or _ transferred). set (position := if st_dragOverOperationId s === id then _ else _). intros Hj Hk Hne.
  destruct (findIndex_lookup _ _ _ Hj) as (o & Ho & Hid). destruct (findIndex_lookup _ _ _ Hk) as (t & Ht & Htid).
  pose proof Hok as [_ Hnd Hall]. pose proof (proj1 (Forall_lookup _ _) Hall _ _ Ho) as [Fo%fresh_not_empty _ _ _].
  pose proof (proj1 (Forall_lookup _ _) Hall _ _ Ht) as [Ft%fresh_not_empty _ _ _]. rewrite Hid in Fo. rewrite Htid in Ft.
  assert (sourceId <> id) as Hids by (intros E; rewrite E in Hj; congruence).
  unfold handleDrop. fold sourceId position. rewrite Fo, Ft, js_eqb_ne by done. cbn [andb negb].
  unfold reorderOperations. rewrite Fo, Ft, js_eqb_ne by done. cbn [negb orb]. rewrite Hj, Ho. cbv zeta.
  rewrite <-delete_take_drop, (findIndex_delete id _ j k) by done.
  destruct Hv as [H1 _]. destruct v as [l i]. cbn [v_rules v_current run_command] in *. subst l.
  rewrite lookup_map, Ho. cbn [fmap option_fmap option_map]. cbv zeta.
  set (p := match position with before => index_without j k | after => S (index_without j k) end).
  assert (p <= length (delete j (st_operations s))) as Hp.
  { pose proof (lookup_delete_index _ j k t Ht (not_eq_sym Hne)) as Hl%lookup_lt_Some. unfold p. destruct position; lia. }
  unfold represents. cbn [resetDragState setDrag st_operations setSelectedOperationId setOperations st_selectedOperationId v_rules v_current].
  split.
  - rewrite map_app. cbn [List.map]. rewrite !delete_take_drop, <-!firstn_map, <-!skipn_map, !map_app, <-!firstn_map, <-!skipn_map. done.
  - exists o. split; [|done]. rewrite lookup_app_r by (rewrite length_take; lia). rewrite length_take.
    by replace (p - p `min` length (delete j (st_operations s))) with 0 by lia.
Qed.
End refinement.

(** C4: the list of rules refines the abstract list: whatever state the dialog is
    in, selecting, updating, adding, duplicating, removing and dragging a rule do what
    they do on a list of rules with a current position, identifiers left out. *)
Theorem editor_refines clock s n v e c :
  reachable clock s n -> represents s v -> command_of s e = Some c ->
  exists s' fx n', handle clock e s n = (Ret (s', fx), n') /\ represents (keep_selection s') (run_command c v).
Proof.
  intros [Hok _]%reachable_ok Hv Hc.
  assert (exists s' fx n', handle clock e s n = (Ret (s', fx), n')) as (s' & fx & n' & E).
  { destruct (total_handle clock e s) with (n := n) as ([s' fx] & n' & E); [by intros ->|by eexists _, _, _]. }
  exists s', fx, n'. split; [done|].
  assert (forall m, gsilent m n = (Ret (s', fx), n') -> m n = (Ret s', n')) as Hg.
  { intros m. unfold gsilent, gbind. destruct (m n) as [[t|] k]; [|done]. by intros [= <- _ <-]. }
  destruct e; try discriminate Hc; cbn [handle command_of] in *;
    try (destruct (findIndex id (st_operations s)) as [j|] eqn:Hj; [|discriminate Hc]; injection Hc as <-).
  - injection E as <- _ <-. apply represents_kept. by eapply select_refines.
  - injection E as <- _ <-. apply represents_kept. by eapply update_refines.
  - injection Hc as <-. apply represents_kept. eapply add_refines; [done|by apply Hg].
  - apply represents_kept. eapply duplicate_refines; [done..|by apply Hg].
  - eapply remove_refines; [done..|by apply Hg].
  - destruct (findIndex (str_or _ transferred) _) as [j|] eqn:Hj; [|done].
    destruct (findIndex id _) as [k|] eqn:Hk; [|done]. destruct (Nat.eqb_spec j k); [done|]. injection Hc as <-.
    injection E as <- _ <-. apply represents_kept. by eapply move_refines.
Qed.

(** A state of the dialog always stands for some list. *)
Lemma reachable_represents clock s n : reachable clock s n -> exists v, represents s v.
Proof.
  intros [_ Hsel]%reachable_ok. destruct (findIndex_In _ _ Hsel) as [i Hi].
  exists (MkView (List.map erase (st_operations s)) i). split; [done|]. by apply findIndex_lookup.
Qed.

Lemma editor_refines_witness :
  exists s' fx n', handle noon (RemoveOperation (id_text noon 1)) sample_editor 2%N = (Ret (s', fx), n') /\
    represents (keep_selection s') (MkView [blank_rule] 0).
Proof.
  apply (editor_refines noon sample_editor 2%N (MkView [blank_rule; blank_rule] 1)
    (RemoveOperation (id_text noon 1)) (CRemove 1)).
  - apply sample_reachable.
  - split; [reflexivity|]. exists (sample_rule 1). split; reflexivity.
  - vm_compute. reflexivity.
Defined.

(** ** Between the visual editor and the text *)

Lemma to_json_text s :
  st_editMode s = visual -> st_visualMode s = operations_mode -> nonblank (st_operations s) <> [] ->
  let s1 := (switchToJsonMode s).1 in
  st_editMode s1 = json_text /\ st_jsonText s1 = operations_text (nonblank (st_operations s)).
Proof.
  intros He Hm Hne. unfold switchToJsonMode. rewrite He. cbv zeta.
  assert (buildOperationsJson (st_operations s) false = Ok (operations_text (nonblank (st_operations s)))) as Hf.
  { unfold buildOperationsJson. by destruct (nonblank (st_operations s)). }
  destruct (buildVisualJson s) as [t|m] eqn:E; cbn [fst st_editMode st_jsonText setTexts]; (split; [done|]).
  - unfold buildVisualJson in E. rewrite Hm in E. by apply built_text in E.
  - by rewrite Hm, Hf.
Qed.

(** Switching to the text and back keeps the rules, valid or not: the rules that
    were not blank come back as saving and reopening would show them. *)
Lemma toggle_keeps_rules clock s n :
  st_editMode s = visual -> st_visualMode s = operations_mode -> nonblank (st_operations s) <> [] ->
  Forall typed (st_operations s) -> Forall writable (st_operations s) ->
  exists s2 fx n', switchToVisualMode clock (switchToJsonMode s).1 n = (Ret (s2, fx), n') /\
    st_editMode s2 = visual /\ st_visualMode s2 = operations_mode /\
    List.map erase (st_operations s2) = List.map reopened (nonblank (st_operations s)).
Proof.
  intros He Hm Hne Ht Hw. destruct (to_json_text s He Hm Hne) as [E1 E2]. apply nonblank_Forall in Ht, Hw.
  unfold switchToVisualMode. rewrite E1, E2. cbv zeta. set (os := nonblank (st_operations s)) in *. clearbody os.
  unfold operations_text. rewrite (pretty_obj_trimmed _), parse_pretty by (by apply operations_text_ok).
  rewrite (proj2 (truthy_true _)) by (by apply (write_not_nil _ eq_refl), operations_text_ok). cbn [negb].
  change (obj_get (js "operations") [(js "operations", ?x)]) with (Some x).
  destruct (read_payloads clock os n Ht Hne) as (rs & n' & E & Hrs). unfold gbind. rewrite E.
  by eexists _, _, _.
Qed.

Lemma toggle_keeps_rules_witness :
  let s := MkEditor visual operations_mode [] sample_rules [] None [] (js "a") [] [] [] before (js "operations_default") in
  exists s2 fx n', switchToVisualMode noon (switchToJsonMode s).1 5%N = (Ret (s2, fx), n') /\
    st_editMode s2 = visual /\ st_visualMode s2 = operations_mode /\
    List.map erase (st_operations s2) = List.map reopened (nonblank sample_rules).
Proof.
  apply (toggle_keeps_rules noon (MkEditor visual operations_mode [] sample_rules [] None [] (js "a") [] [] [] before
    (js "operations_default")) 5%N eq_refl eq_refl sample_nonblank sample_typed sample_writable).
Defined.
