(* ===== verification/Playground.v ===== *)
(** * The chat playground: [features/playground]

    Messages and think tags ([lib/message-utils.ts]), the request payload
    ([lib/payload-builder.ts]), and the streaming of an answer
    ([hooks/use-stream-request.ts], [hooks/use-chat-handler.ts]) as a state
    machine over the events of the server-sent event source.

    The identifiers of new messages ([nanoid]) and the events of the event source
    ([sse.js]) come from outside: they are arguments. *)
From S2P Require Import Prelude Numbers Json.

(** ** Data: [types.ts] *)

Inductive MessageRole := RoleUser | RoleAssistant | RoleSystem.
Inductive MessageStatus := StatusLoading | StatusStreaming | StatusComplete | StatusError.

#[export] Instance MessageRole_eq_dec : EqDecision MessageRole.
Proof. solve_decision. Defined.
#[export] Instance MessageStatus_eq_dec : EqDecision MessageStatus.
Proof. solve_decision. Defined.

(** A version whose spread source was missing has no [id]. *)
Record MessageVersion := MkVersion { v_id : option jstr; v_content : jstr }.

Record Reasoning := MkReasoning { r_content : jstr; r_duration : number }.

(** [errorCode] can be missing, null or a value.  [sources], which no function of
    these files reads or writes, is left out. *)
Record Message := MkMessage {
  m_key : jstr;
  m_from : MessageRole;
  m_versions : list MessageVersion;
  m_reasoning : option Reasoning;
  m_isReasoningStreaming : option bool;
  m_isReasoningComplete : option bool;
  m_isContentComplete : option bool;
  m_status : option MessageStatus;
  m_errorCode : option json
}.

Definition with_versions (v : list MessageVersion) (m : Message) : Message :=
  MkMessage (m_key m) (m_from m) v (m_reasoning m) (m_isReasoningStreaming m) (m_isReasoningComplete m)
    (m_isContentComplete m) (m_status m) (m_errorCode m).

Definition with_reasoning (r : option Reasoning) (streaming : bool) (m : Message) : Message :=
  MkMessage (m_key m) (m_from m) (m_versions m) r (Some streaming) (m_isReasoningComplete m)
    (m_isContentComplete m) (m_status m) (m_errorCode m).

Definition with_status (s : MessageStatus) (m : Message) : Message :=
  MkMessage (m_key m) (m_from m) (m_versions m) (m_reasoning m) (m_isReasoningStreaming m) (m_isReasoningComplete m)
    (m_isContentComplete m) (Some s) (m_errorCode m).

Definition with_errorCode (c : json) (m : Message) : Message :=
  MkMessage (m_key m) (m_from m) (m_versions m) (m_reasoning m) (m_isReasoningStreaming m) (m_isReasoningComplete m)
    (m_isContentComplete m) (m_status m) (Some c).

Definition API_REQUEST_ERROR : jstr := js "Request error occurred".
Definition PARSE_ERROR : jstr := js "Error parsing response data".
Definition STREAM_START_ERROR : jstr := js "Error establishing connection".
Definition CONNECTION_CLOSED : jstr := js "Connection closed".
Definition INTERRUPTED : jstr := js "Generation was interrupted".

(** ** Messages: [message-utils.ts] *)

Definition createMessageVersion (nanoid : jstr) (content : jstr) : MessageVersion := MkVersion (Some nanoid) content.

Definition getCurrentVersion (message : Message) : MessageVersion :=
  match m_versions message with
  | v :: _ => v
  | [] => MkVersion (Some (js "default")) []
  end.

Definition updateCurrentVersionContent (message : Message) (content : jstr) : Message :=
  with_versions [MkVersion (v_id (getCurrentVersion message)) content] message.

Definition createUserMessage (key id : jstr) (content : jstr) : Message :=
  MkMessage key RoleUser [createMessageVersion id content] None None None None None None.

Definition createLoadingAssistantMessage (key id : jstr) : Message :=
  MkMessage key RoleAssistant [createMessageVersion id []] None (Some false) (Some false) (Some false)
    (Some StatusLoading) None.

Inductive ContentPart := PText (text : option jstr) | PImage (url : jstr).
Inductive MessageContent := CText (s : jstr) | CParts (l : list ContentPart).

Definition buildMessageContent (text : jstr) (imageUrls : list jstr) : MessageContent :=
  match List.filter (fun url => truthy (trim url)) imageUrls with
  | [] => CText text
  | valid => CParts (PText (Some text) :: List.map (fun url => PImage (trim url)) valid)
  end.

Fixpoint find_text (l : list ContentPart) : option jstr :=
  match l with
  | [] => None
  | PText t :: _ => t
  | PImage _ :: l' => find_text l'
  end.

Definition getTextContent (content : MessageContent) : jstr :=
  match content with
  | CText s => s
  | CParts l => opt_str_or (find_text l) []
  end.

Definition formatMessageForAPI (message : Message) : MessageRole * jstr :=
  (m_from message, v_content (getCurrentVersion message)).

Definition isValidMessage (message : Message) : bool :=
  match m_versions message with
  | [] => false
  | v :: _ => negb ((m_from message === RoleAssistant) && negb (truthy (trim (v_content v))))
  end.

(** *** Think tags *)

Record ThinkParts := MkThink { visibleContent : jstr; reasoning : jstr; hasUnclosedTag : bool }.

Definition open_tag : jstr := js "<think>".
Definition close_tag : jstr := js "</think>".

(** The loop, from [currentPos]; the parts found so far are in order.  [None] when
    the fuel runs out, which it never does ([think_loop_reads]). *)
Fixpoint think_loop (fuel : nat) (content : jstr) (currentPos : nat) (visibleParts reasoningParts : list jstr)
    : option (list jstr * list jstr * bool) :=
  match fuel with
  | O => None
  | S fuel' =>
      match index_of_from open_tag content currentPos with
      | None =>
          Some ((if currentPos <? length content then visibleParts ++ [drop currentPos content] else visibleParts),
                reasoningParts, false)
      | Some openPos =>
          let visibleParts :=
            if currentPos <? openPos then visibleParts ++ [substring content currentPos openPos] else visibleParts in
          match index_of_from close_tag content (openPos + 7) with
          | None => Some (visibleParts, reasoningParts ++ [drop (openPos + 7) content], true)
          | Some closePos =>
              think_loop fuel' content (closePos + 8) visibleParts
                (reasoningParts ++ [substring content (openPos + 7) closePos])
          end
      end
  end.

Definition blank_line : jstr := [10; 10]%N.

Definition parseThinkTags (content : jstr) : ThinkParts :=
  if negb (includes open_tag content) then MkThink content [] false
  else match think_loop (S (length content)) content 0 [] [] with
       | Some (v, r, u) => MkThink (trim (join [] v)) (trim (join blank_line r)) u
       | None => MkThink [] [] false
       end.

(** *** The last assistant message *)

Definition updateLastAssistantMessage (messages : list Message) (updater : Message -> Message) : list Message :=
  match last messages with
  | None => messages
  | Some m => if m_from m !== RoleAssistant then messages else removelast messages ++ [updater m]
  end.

(** [`${API_REQUEST_ERROR}: ${msg}`]. *)
Definition error_text (msg : jstr) : jstr := API_REQUEST_ERROR ++ js ": " ++ msg.

Definition set_error (errorMessage : jstr) (errorCode : option json) (message : Message) : Message :=
  let m := updateCurrentVersionContent message (error_text errorMessage) in
  let code := match errorCode with Some c => if json_truthy c then c else JNull | None => JNull end in
  with_errorCode code (with_status StatusError (with_reasoning (m_reasoning m) false m)).

Definition updateAssistantMessageWithError (messages : list Message) (errorMessage : jstr) (errorCode : option json)
    : list Message :=
  updateLastAssistantMessage messages (set_error errorMessage errorCode).

Definition processStreamingContent (message : Message) (contentChunk : option jstr) : Message :=
  let fullContent := v_content (getCurrentVersion message) ++ opt_str_or contentChunk [] in
  let parsed := parseThinkTags fullContent in
  let finalReasoning := if truthy (reasoning parsed) then Some (MkReasoning (reasoning parsed) zero) else m_reasoning message in
  with_reasoning finalReasoning (hasUnclosedTag parsed) (updateCurrentVersionContent message fullContent).

Definition reasoning_content (message : Message) : option jstr := r_content <$> m_reasoning message.

Definition finalizeMessage (message : Message) (apiReasoningContent : option jstr) : Message :=
  let parsed := parseThinkTags (v_content (getCurrentVersion message)) in
  let finalReasoning := opt_str_or apiReasoningContent (opt_str_or (reasoning_content message) (reasoning parsed)) in
  let duration := match m_reasoning message with Some r => num_or (r_duration r) zero | None => zero end in
  with_reasoning (if truthy finalReasoning then Some (MkReasoning finalReasoning duration) else None) false
    (updateCurrentVersionContent message (visibleContent parsed)).

(** *** Loading a saved conversation *)

Definition stuck (m : Message) : bool :=
  (m_from m === RoleAssistant) && ((m_status m === Some StatusLoading) || (m_status m === Some StatusStreaming)).

Definition settle (m : Message) : Message :=
  let finalized := finalizeMessage m None in
  let hasContent := match m_versions finalized with v :: _ => truthy (trim (v_content v)) | [] => false end in
  let hasReasoning := match m_reasoning finalized with Some r => truthy (trim (r_content r)) | None => false end in
  if hasContent || hasReasoning then with_status StatusComplete (with_reasoning (m_reasoning finalized) false finalized)
  else let e := updateCurrentVersionContent finalized (error_text INTERRUPTED) in
       with_status StatusError (with_reasoning (m_reasoning e) false e).

(** The search runs from the end; [rev_settle] is the same on the reversed list. *)
Fixpoint rev_settle (messages : list Message) : list Message :=
  match messages with
  | [] => []
  | m :: rest => if stuck m then settle m :: rest else m :: rev_settle rest
  end.

Definition sanitizeMessagesOnLoad (messages : list Message) : list Message := rev (rev_settle (rev messages)).

(** ** The request: [payload-builder.ts] *)

Record PlaygroundConfig := MkConfig {
  pc_model : jstr;
  pc_group : jstr;
  pc_temperature : option number;
  pc_top_p : option number;
  pc_max_tokens : option number;
  pc_frequency_penalty : option number;
  pc_presence_penalty : option number;
  pc_seed : option number;
  pc_stream : bool
}.

Record ParameterEnabled := MkEnabled {
  pe_temperature : bool;
  pe_top_p : bool;
  pe_max_tokens : bool;
  pe_frequency_penalty : bool;
  pe_presence_penalty : bool;
  pe_seed : bool
}.

Definition parameter_entries (config : PlaygroundConfig) (enabled : ParameterEnabled) : list (jstr * bool * option number) :=
  [(js "temperature", pe_temperature enabled, pc_temperature config);
   (js "top_p", pe_top_p enabled, pc_top_p config);
   (js "max_tokens", pe_max_tokens enabled, pc_max_tokens config);
   (js "frequency_penalty", pe_frequency_penalty enabled, pc_frequency_penalty config);
   (js "presence_penalty", pe_presence_penalty enabled, pc_presence_penalty config);
   (js "seed", pe_seed enabled, pc_seed config)].

Record ChatCompletionRequest := MkRequest {
  q_model : jstr;
  q_group : jstr;
  q_messages : list (MessageRole * jstr);
  q_stream : bool;
  q_parameters : list (jstr * number)
}.

Definition enabled_parameter (p : jstr * bool * option number) : option (jstr * number) :=
  if p.1.2 then pair p.1.1 <$> p.2 else None.

Definition buildChatCompletionPayload (messages : list Message) (config : PlaygroundConfig) (enabled : ParameterEnabled)
    : ChatCompletionRequest :=
  MkRequest (pc_model config) (pc_group config)
    (List.map formatMessageForAPI (List.filter isValidMessage messages)) (pc_stream config)
    (omap enabled_parameter (parameter_entries config enabled)).

Definition DEFAULT_CONFIG : PlaygroundConfig :=
  MkConfig (js "gpt-4o") (js "auto") (Some (num_of_dec false 7 (-1))) (Some (num_of_Z 1)) (Some (num_of_Z 4096))
    (Some zero) (Some zero) None true.

Definition DEFAULT_PARAMETER_ENABLED : ParameterEnabled := MkEnabled true true false true true false.

(** ** The chat handler: [use-chat-handler.ts] *)

Inductive UpdateKind := UReasoning | UContent.

Definition stream_update (type : UpdateKind) (chunk : jstr) (message : Message) : Message :=
  if m_status message === Some StatusError then message
  else match type with
       | UReasoning =>
           with_status StatusStreaming
             (with_reasoning (Some (MkReasoning (opt_str_or (reasoning_content message) [] ++ chunk) zero)) true message)
       | UContent => with_status StatusStreaming (processStreamingContent message (Some chunk))
       end.

Definition handleStreamUpdate (type : UpdateKind) (chunk : jstr) (prev : list Message) : list Message :=
  updateLastAssistantMessage prev (stream_update type chunk).

Definition complete_message (message : Message) : Message := with_status StatusComplete (finalizeMessage message None).

Definition handleStreamComplete (prev : list Message) : list Message :=
  updateLastAssistantMessage prev (fun message =>
    if (m_status message === Some StatusComplete) || (m_status message === Some StatusError) then message
    else complete_message message).

Definition handleStreamError (error : jstr) (errorCode : option json) (prev : list Message) : list Message :=
  updateAssistantMessageWithError prev error errorCode.

(** The updater of [stopGeneration]. *)
Definition stop_messages (prev : list Message) : list Message :=
  updateLastAssistantMessage prev (fun message =>
    if (m_status message === Some StatusLoading) || (m_status message === Some StatusStreaming)
    then complete_message message else message).

(** What the non-streaming request gave: a response, with the first choice's
    content and reasoning when there is one, or an error with the server's message,
    its own message, and the server's code. *)
Inductive ChatResult :=
| GotResponse (choice : option (option jstr * option jstr))
| GotError (data_message message : option jstr) (code : option json).

Definition answer_message (content reasoning_content : option jstr) (message : Message) : Message :=
  let id := match m_versions message with v :: _ => v_id v | [] => None end in
  with_status StatusComplete
    (finalizeMessage (with_versions [MkVersion id (opt_str_or content [])] message) reasoning_content).

Definition sendNonStreamingChat (result : ChatResult) (prev : list Message) : list Message :=
  match result with
  | GotResponse None => prev
  | GotResponse (Some (content, r)) => updateLastAssistantMessage prev (answer_message content r)
  | GotError data own code => handleStreamError (opt_str_or data (opt_str_or own API_REQUEST_ERROR)) code prev
  end.

(** ** The stream: [use-stream-request.ts] *)

(** Sources are numbered in the order they are opened; [s_source] and
    [s_complete] are the two refs, which all sources share. *)
Record StreamState := MkStream {
  s_messages : list Message;
  s_source : option nat;
  s_complete : bool;
  s_closed : list nat;
  s_opened : nat
}.

Inductive StreamEvent :=
| Send (stream_throws : bool)
| OnMessage (source : nat) (data : jstr)
| OnError (source : nat) (readyState : Z) (data : option jstr)
| OnReadyState (source : nat) (readyState : option Z) (status : option Z)
| StopGeneration.

Definition set_messages (f : list Message -> list Message) (s : StreamState) : StreamState :=
  MkStream (f (s_messages s)) (s_source s) (s_complete s) (s_closed s) (s_opened s).

Definition closeSource (source : nat) (s : StreamState) : StreamState :=
  MkStream (s_messages s) None (s_complete s) (source :: s_closed s) (s_opened s).

Definition mark_complete (s : StreamState) : StreamState :=
  MkStream (s_messages s) (s_source s) true (s_closed s) (s_opened s).

Definition handleError (source : nat) (errorMessage : jstr) (errorCode : option json) (s : StreamState) : StreamState :=
  if s_complete s then s
  else closeSource source (set_messages (handleStreamError errorMessage errorCode) s).

(** [v?.[0]]: of a string, its first unit. *)
Definition opt_first (v : option json) : option json :=
  match v with
  | Some (JArr (w :: _)) => Some w
  | Some (JStr (c :: _)) => Some (JStr [c])
  | Some (JObj o) => obj_get (js "0") o
  | _ => None
  end.

(** [chunk.choices?.[0]?.delta] of the parsed text; null has no properties. *)
Definition read_delta (data : jstr) : outcome (option json) :=
  match JSON_parse data with
  | Throw | Ret JNull => Throw
  | Ret chunk => Ret (opt_prop (js "delta") (opt_first (opt_prop (js "choices") (Some chunk))))
  end.

(** [if (delta.k) onUpdate(type, delta.k)]; what is not a string is turned into one
    by the concatenation that uses it. *)
Definition update_from (k : jstr) (type : UpdateKind) (delta : json) (s : StreamState) : StreamState :=
  match opt_prop k (Some delta) with
  | Some v => if json_truthy v then set_messages (handleStreamUpdate type (json_String v)) s else s
  | None => s
  end.

Definition on_message (source : nat) (data : jstr) (s : StreamState) : StreamState :=
  if data === js "[DONE]" then set_messages handleStreamComplete (closeSource source (mark_complete s))
  else match read_delta data with
       | Throw => handleError source PARSE_ERROR None s
       | Ret None => s
       | Ret (Some delta) =>
           if json_truthy delta
           then update_from (js "content") UContent delta (update_from (js "reasoning_content") UReasoning delta s)
           else s
       end.

(** The message and the code of an error event. *)
Definition error_of (data : option jstr) : jstr * option json :=
  let raw := opt_str_or data API_REQUEST_ERROR in
  match data with
  | None | Some [] => (raw, None)
  | Some d =>
      match JSON_parse d with
      | Throw => (raw, None)
      | Ret parsed =>
          match opt_prop (js "error") (Some parsed) with
          | Some e =>
              if json_truthy e then
                (match opt_prop (js "message") (Some e) with
                 | Some v => if json_truthy v then json_String v else raw
                 | None => raw
                 end, opt_prop (js "code") (Some e))
              else (raw, None)
          | None => (raw, None)
          end
      end
  end.

Definition on_error (source : nat) (readyState : Z) (data : option jstr) (s : StreamState) : StreamState :=
  if (readyState =? 2)%Z then s
  else let '(msg, code) := error_of data in handleError source msg code s.

Definition on_ready_state (source : nat) (readyState status : option Z) (s : StreamState) : StreamState :=
  match readyState, status with
  | Some r, Some st =>
      if ((2 <=? r) && negb (st =? 200))%Z
      then handleError source (js "HTTP " ++ Z_to_str st ++ js ": " ++ CONNECTION_CLOSED) None s
      else s
  | _, _ => s
  end.

(** A stream that cannot start reports the error and clears the ref. *)
Definition sendStreamRequest (stream_throws : bool) (s : StreamState) : StreamState :=
  let s := MkStream (s_messages s) (Some (s_opened s)) false (s_closed s) (S (s_opened s)) in
  if stream_throws
  then let s := set_messages (handleStreamError STREAM_START_ERROR None) s in
       MkStream (s_messages s) None (s_complete s) (s_closed s) (s_opened s)
  else s.

Definition stopStream (s : StreamState) : StreamState :=
  match s_source s with
  | Some source => closeSource source s
  | None => s
  end.

Definition stopGeneration (s : StreamState) : StreamState := set_messages stop_messages (stopStream s).

Definition stream_step (e : StreamEvent) (s : StreamState) : StreamState :=
  match e with
  | Send throws => sendStreamRequest throws s
  | OnMessage source data => on_message source data s
  | OnError source readyState data => on_error source readyState data s
  | OnReadyState source readyState status => on_ready_state source readyState status s
  | StopGeneration => stopGeneration s
  end.

Definition stream_run (es : list StreamEvent) (s : StreamState) : StreamState := foldl (fun s e => stream_step e s) s es.

Definition isStreaming (s : StreamState) : bool := match s_source s with Some _ => true | None => false end.

(** ** Theorems: think tags *)

(** A first unit that does not come back: no two occurrences of such a tag
    overlap. *)
Lemma starts_with_cut c t v x : c ∉ t -> starts_with t (v ++ c :: x) = true -> starts_with t v = true.
Proof.
  revert v. induction t as [|d t IH]; intros v Hc H; [done|]. apply not_elem_of_cons in Hc as [Hd Hc].
  destruct v as [|e v]; simpl in *; bools; [congruence|]. subst. rewrite N.eqb_refl. by apply IH.
Qed.

Lemma index_of_tag c t v r :
  c ∉ t -> index_of (c :: t) v = None -> index_of (c :: t) (v ++ c :: t ++ r) = Some (length v).
Proof.
  intros Hc. induction v as [|d v IH]; intros Hv.
  - simpl. by rewrite N.eqb_refl, starts_with_app.
  - simpl in Hv |- *. destruct ((c =? d)%N && starts_with t v) eqn:E; [done|].
    destruct (index_of (c :: t) v) eqn:Ei; [done|]. rewrite IH by done.
    destruct ((c =? d)%N && starts_with t (v ++ c :: t ++ r)) eqn:E2; [|done].
    bools. subst. rewrite N.eqb_refl in E. simpl in E. erewrite starts_with_cut in E by eassumption. done.
Qed.

(** A text as closed think blocks, each after some visible text, then visible
    text, and perhaps an unclosed block. *)
Record Decomposition := MkDecomposition {
  d_blocks : list (jstr * jstr);
  d_tail : jstr;
  d_open : option jstr
}.

Fixpoint render_blocks (l : list (jstr * jstr)) (rest : jstr) : jstr :=
  match l with
  | [] => rest
  | (v, r) :: l' => v ++ open_tag ++ r ++ close_tag ++ render_blocks l' rest
  end.

Definition render (d : Decomposition) : jstr :=
  render_blocks (d_blocks d) (d_tail d ++ match d_open d with Some u => open_tag ++ u | None => [] end).

Record decomposed (d : Decomposition) : Prop := MkDecomposed {
  ok_blocks : Forall (fun b => index_of open_tag b.1 = None /\ index_of close_tag b.2 = None) (d_blocks d);
  ok_tail : index_of open_tag (d_tail d) = None;
  ok_open : forall u, d_open d = Some u -> index_of close_tag u = None
}.

Definition visible_of (d : Decomposition) : jstr := concat (d_blocks d).*1 ++ d_tail d.
Definition reasonings_of (d : Decomposition) : list jstr := (d_blocks d).*2 ++ option_list (d_open d).
Definition has_block (d : Decomposition) : bool :=
  match d_blocks d, d_open d with [], None => false | _, _ => true end.

(** What the parser should return: text without any block is untouched. *)
Definition think_spec (d : Decomposition) : ThinkParts :=
  if has_block d
  then MkThink (trim (visible_of d)) (trim (join blank_line (reasonings_of d)))
         (match d_open d with Some _ => true | None => false end)
  else MkThink (visible_of d) [] false.

Lemma index_of_open v r : index_of open_tag v = None -> index_of open_tag (v ++ open_tag ++ r) = Some (length v).
Proof. apply (index_of_tag 60 (js "think>")). apply (bool_decide_eq_true (_ ∉ _)). vm_compute. reflexivity. Qed.

Lemma index_of_close v r : index_of close_tag v = None -> index_of close_tag (v ++ close_tag ++ r) = Some (length v).
Proof. apply (index_of_tag 60 (js "/think>")). apply (bool_decide_eq_true (_ ∉ _)). vm_compute. reflexivity. Qed.

Lemma drop_at {A} (u v : list A) n : n = length u -> drop n (u ++ v) = v.
Proof. intros ->. apply drop_app_length. Qed.

Lemma substring_at u v w a b : a = length u -> b = a + length v -> substring (u ++ v ++ w) a b = v.
Proof. intros -> ->. unfold substring. rewrite drop_app_length. replace (_ + _ - _) with (length v) by lia. apply take_app_length. Qed.

(** [if (a < b) parts.push(text)], for the text between [a] and [b]. *)
Lemma concat_push (parts : list jstr) (x : jstr) a b :
  b = a + length x -> concat (if a <? b then parts ++ [x] else parts) = concat parts ++ x.
Proof.
  intros ->. destruct (Nat.ltb_spec a (a + length x)).
  - rewrite concat_app. simpl. by rewrite app_nil_r.
  - assert (x = []) as -> by (apply length_zero_iff_nil; lia). by rewrite app_nil_r.
Qed.

Lemma open_length : length open_tag = 7.
Proof. reflexivity. Qed.
Lemma close_length : length close_tag = 8.
Proof. reflexivity. Qed.

Ltac lengths := rewrite ?length_app, ?open_length, ?close_length; lia.

Lemma loop_block fuel pre v r rest vis rea :
  index_of open_tag v = None -> index_of close_tag r = None ->
  exists vis', concat vis' = concat vis ++ v /\
    think_loop (S fuel) (pre ++ v ++ open_tag ++ r ++ close_tag ++ rest) (length pre) vis rea =
    think_loop fuel ((pre ++ v ++ open_tag ++ r ++ close_tag) ++ rest)
      (length (pre ++ v ++ open_tag ++ r ++ close_tag)) vis' (rea ++ [r]).
Proof.
  intros Hv Hr. eexists. split; [|cbn [think_loop]; unfold index_of_from; rewrite drop_app_length, index_of_open by exact Hv;
    cbn [fmap option_fmap option_map]].
  2: { assert (drop (length pre + length v + 7) (pre ++ v ++ open_tag ++ r ++ close_tag ++ rest) = r ++ close_tag ++ rest) as ->.
       { rewrite (app_assoc v), (app_assoc pre). apply drop_at. lengths. }
       rewrite index_of_close by exact Hr. cbn [fmap option_fmap option_map].
       assert (substring (pre ++ v ++ open_tag ++ r ++ close_tag ++ rest) (length pre + length v + 7)
                 (length pre + length v + 7 + length r) = r) as ->.
       { rewrite (app_assoc v), (app_assoc pre). apply substring_at; lengths. }
       f_equal; [by rewrite <-!app_assoc|lengths]. }
  rewrite substring_at by lia. apply concat_push. done.
Qed.

Lemma loop_open fuel pre t u vis rea :
  index_of open_tag t = None -> index_of close_tag u = None ->
  exists vis', concat vis' = concat vis ++ t /\
    think_loop (S fuel) (pre ++ t ++ open_tag ++ u) (length pre) vis rea = Some (vis', rea ++ [u], true).
Proof.
  intros Ht Hu. eexists. split; [|cbn [think_loop]; unfold index_of_from; rewrite drop_app_length, index_of_open by exact Ht;
    cbn [fmap option_fmap option_map]].
  2: { assert (drop (length pre + length t + 7) (pre ++ t ++ open_tag ++ u) = u) as ->.
       { rewrite (app_assoc t), (app_assoc pre). apply drop_at. lengths. }
       rewrite Hu. reflexivity. }
  rewrite substring_at by lia. apply concat_push. done.
Qed.

Lemma loop_tail fuel pre t vis rea :
  index_of open_tag t = None ->
  exists vis', concat vis' = concat vis ++ t /\
    think_loop (S fuel) (pre ++ t) (length pre) vis rea = Some (vis', rea, false).
Proof.
  intros Ht. eexists. split; [|cbn [think_loop]; unfold index_of_from; rewrite drop_app_length, Ht; reflexivity].
  apply concat_push. apply length_app.
Qed.

Lemma think_loop_reads l t o fuel pre vis rea :
  decomposed (MkDecomposition l t o) -> length l < fuel ->
  exists vis', concat vis' = concat vis ++ concat l.*1 ++ t /\
    think_loop fuel (pre ++ render (MkDecomposition l t o)) (length pre) vis rea =
      Some (vis', rea ++ l.*2 ++ option_list o, match o with Some _ => true | None => false end).
Proof.
  intros [Hl Ht Ho]. cbn [d_blocks d_tail d_open] in *. unfold render. cbn [d_blocks d_tail d_open].
  revert fuel pre vis rea. induction l as [|[v r] l IH]; intros fuel pre vis rea Hf; (destruct fuel as [|fuel]; [cbn in Hf; lia|]).
  - cbn [render_blocks fmap list_fmap concat app]. destruct o as [u|].
    + apply loop_open; auto.
    + rewrite !app_nil_r. by apply loop_tail.
  - apply Forall_cons in Hl as [[Hv Hr] Hl]. cbn [fst snd] in Hv, Hr. cbn [length] in Hf. cbn [render_blocks].
    destruct (loop_block fuel pre v r (render_blocks l (t ++ match o with Some u => open_tag ++ u | None => [] end)) vis rea Hv Hr)
      as (vis1 & H1 & ->).
    destruct (IH Hl fuel (pre ++ v ++ open_tag ++ r ++ close_tag) vis1 (rea ++ [r])) as (vis2 & H2 & ->); [lia|].
    exists vis2. split; [rewrite H2, H1; cbn; by rewrite <-!app_assoc|]. cbn. by rewrite <-!app_assoc.
Qed.

Lemma join_nil (l : list jstr) : join [] l = concat l.
Proof. induction l as [|w l IH]; [done|]. destruct l; simpl in *; [by rewrite app_nil_r|]. by rewrite IH. Qed.

Lemma index_of_none_app p v w : index_of p (v ++ w) = None -> p <> [] -> index_of p v = None.
Proof.
  intros H Hp. apply index_of_None_intro. intros m. destruct (starts_with p (drop m v)) eqn:E; [|done].
  apply starts_with_spec in E as [t Ht]. pose proof (index_of_None _ _ H m) as Hm. rewrite drop_app, Ht, <-app_assoc in Hm.
  by rewrite starts_with_app in Hm.
Qed.

Lemma render_blocks_length l rest : length l <= length (render_blocks l rest).
Proof. induction l as [|[v r] l IH]; cbn [length render_blocks]; [lia|]. lengths. Qed.

Lemma includes_open v r : includes open_tag (v ++ open_tag ++ r) = true.
Proof.
  unfold includes. destruct (index_of open_tag _) eqn:E; [done|].
  pose proof (index_of_None _ _ E (length v)) as H. by rewrite drop_app_length, starts_with_app in H.
Qed.

Lemma parse_render d : decomposed d -> parseThinkTags (render d) = think_spec d.
Proof.
  intros Hd. destruct d as [l t o]. unfold parseThinkTags, think_spec.
  destruct (has_block (MkDecomposition l t o)) eqn:Hb.
  - assert (includes open_tag (render (MkDecomposition l t o)) = true) as ->.
    { unfold has_block in Hb. destruct l as [|[v r] l]; unfold render; cbn in Hb |- *; [|apply includes_open].
      destruct o; [apply includes_open|done]. }
    cbn [negb]. destruct (think_loop_reads l t o (S (length (render (MkDecomposition l t o)))) [] [] []) as (vis & Hv & Heq);
      [done|apply Nat.lt_succ_r, render_blocks_length|].
    cbn [app length] in Heq. rewrite Heq, join_nil, Hv. reflexivity.
  - unfold has_block in Hb. cbn in Hb. destruct l; [|done]. destruct o; [done|]. destruct Hd as [_ Ht _]. cbn in Ht.
    unfold render, visible_of. cbn. rewrite app_nil_r. unfold includes. rewrite Ht. done.
Qed.

Lemma first_split p s n :
  index_of p s = Some n -> p <> [] -> exists u t, s = u ++ p ++ t /\ index_of p u = None.
Proof.
  intros H Hp. apply index_of_spec in H as (u & t & -> & Hu & Hmin). exists u, t. split; [done|].
  apply index_of_None_intro. intros m. destruct (starts_with p (drop m u)) eqn:E; [|done].
  destruct (decide (m < n)) as [Hm|Hm].
  - specialize (Hmin m Hm). apply starts_with_spec in E as [w Hw]. rewrite drop_app_le in Hmin by lia.
    by rewrite Hw, <-app_assoc, starts_with_app in Hmin.
  - rewrite drop_ge in E by lia. by apply starts_with_nil in E.
Qed.

Lemma decompose content : exists d, decomposed d /\ render d = content.
Proof.
  remember (length content) as n eqn:Hn. revert content Hn. induction (lt_wf n) as [n _ IH]. intros content ->.
  destruct (index_of open_tag content) as [i|] eqn:Ei.
  2: { exists (MkDecomposition [] content None). split; [by constructor; [constructor| |]|]. unfold render. cbn. apply app_nil_r. }
  apply first_split in Ei as (u & t & -> & Hu); [|done].
  destruct (index_of close_tag t) as [j|] eqn:Ej.
  2: { exists (MkDecomposition [] u (Some t)). split; [constructor; [constructor|done|by intros ? [= <-]]|done]. }
  apply first_split in Ej as (r & rest & -> & Hr); [|done].
  destruct (IH (length rest)) with (content := rest) as ([l tl o] & [H1 H2 H3] & Hd); [lengths|done|].
  exists (MkDecomposition ((u, r) :: l) tl o). split; [by constructor; [constructor|..]|]. by rewrite <-Hd.
Qed.

(** Where the first tag is. *)
Lemma render_first d :
  decomposed d ->
  index_of open_tag (render d) =
  match d_blocks d, d_open d with
  | (v, _) :: _, _ => Some (length v)
  | [], Some _ => Some (length (d_tail d))
  | [], None => None
  end.
Proof.
  destruct d as [[|[v r] l] t [u|]]; intros [Hb Ht _]; unfold render; cbn in *.
  - by apply index_of_open.
  - by rewrite app_nil_r.
  - apply Forall_cons in Hb as [[Hv _] _]. by apply index_of_open.
  - apply Forall_cons in Hb as [[Hv _] _]. by apply index_of_open.
Qed.

Lemma close_first r x : index_of close_tag r = None -> index_of close_tag (r ++ close_tag ++ x) = Some (length r).
Proof. apply index_of_close. Qed.

(** A text has one reading. *)
Lemma render_inj d d' : decomposed d -> decomposed d' -> render d = render d' -> d = d'.
Proof.
  destruct d as [l t o], d' as [l' t' o']. revert l'. induction l as [|[v r] l IH]; intros l' Hd Hd' He;
    pose proof (render_first _ Hd) as H1; pose proof (render_first _ Hd') as H2; rewrite He, H2 in H1; cbn [d_blocks d_open d_tail] in H1;
    destruct Hd as [Hb Ht Ho], Hd' as [Hb' Ht' Ho']; unfold render in He; cbn [d_blocks d_open d_tail render_blocks] in *.
  - destruct l' as [|[v' r'] l']; cbn [render_blocks] in He.
    + destruct o as [u|], o' as [u'|]; try discriminate.
      * injection H1 as H1. apply app_inj_1 in He as [-> He]; [|done]. by apply app_inv_head in He as ->.
      * rewrite !app_nil_r in He. by subst.
    + destruct o as [u|]; [|done]. injection H1 as H1. apply app_inj_1 in He as [_ He]; [|done]. apply app_inv_head in He. subst u.
      apply Forall_cons in Hb' as [[_ Hr] _]. specialize (Ho _ eq_refl). by rewrite close_first in Ho.
  - apply Forall_cons in Hb as [[_ Hr] Hb]. destruct l' as [|[v' r'] l']; cbn [render_blocks] in He.
    + destruct o' as [u|]; [|done]. injection H1 as H1. apply app_inj_1 in He as [_ He]; [|done]. apply app_inv_head in He. subst u.
      specialize (Ho' _ eq_refl). by rewrite close_first in Ho'.
    + injection H1 as H1. apply app_inj_1 in He as [-> He]; [|done]. apply app_inv_head in He.
      apply Forall_cons in Hb' as [[_ Hr'] Hb'].
      assert (length r = length r') as Hl.
      { pose proof (close_first r (render_blocks l (t ++ match o with Some u => open_tag ++ u | None => [] end)) Hr) as Hc.
        rewrite He, close_first in Hc by done. by injection Hc. }
      apply app_inj_1 in He as [-> He]; [|done]. apply app_inv_head in He.
      by injection (IH l' (MkDecomposed (MkDecomposition l t o) Hb Ht Ho) (MkDecomposed (MkDecomposition l' t' o') Hb' Ht' Ho') He) as -> -> ->.
Qed.

(** The think-tag parser splits every text correctly: a text has exactly one
    reading as closed think blocks between visible text, perhaps ending in an
    unclosed block, and the parser returns exactly the visible text and the blocks'
    contents of that reading, with the unclosed flag set when the last block is open;
    text without a block comes back untouched. *)
Lemma think_tags_split content :
  exists d, decomposed d /\ render d = content /\ parseThinkTags content = think_spec d /\
    forall d', decomposed d' -> render d' = content -> d' = d.
Proof.
  destruct (decompose content) as (d & Hd & <-). exists d. split; [done|]. split; [done|]. split; [by apply parse_render|].
  intros d' Hd' He. by apply render_inj.
Qed.

(** ** Theorems: streaming *)

Lemma update_last_app l m f :
  m_from m = RoleAssistant -> updateLastAssistantMessage (l ++ [m]) f = l ++ [f m].
Proof.
  intros H. unfold updateLastAssistantMessage. rewrite last_snoc, H, js_eqb_refl. cbn [negb].
  by rewrite removelast_last.
Qed.

Lemma update_last_cases l f :
  updateLastAssistantMessage l f = l \/
  exists l' m, l = l' ++ [m] /\ m_from m = RoleAssistant /\ updateLastAssistantMessage l f = l' ++ [f m].
Proof.
  destruct l as [|m l' _] using rev_ind; [by left|]. destruct (decide (m_from m = RoleAssistant)) as [H|H].
  - right. exists l', m. by rewrite update_last_app.
  - left. unfold updateLastAssistantMessage. rewrite last_snoc, js_eqb_ne by done. done.
Qed.

(** Every update of the last message keeps its author, its key and an error. *)
Definition keeps_author (f : Message -> Message) : Prop :=
  forall m, m_from (f m) = m_from m /\ m_key (f m) = m_key m /\
    (m_status m = Some StatusError -> m_status (f m) = Some StatusError).

(** The changes a step makes to the conversation. *)
Inductive updates : list Message -> list Message -> Prop :=
| updates_refl l : updates l l
| updates_last l f : keeps_author f -> updates l (updateLastAssistantMessage l f)
| updates_trans l1 l2 l3 : updates l1 l2 -> updates l2 l3 -> updates l1 l3.

Lemma keeps_error msg code : keeps_author (set_error msg code).
Proof. done. Qed.

Lemma keeps_update type chunk : keeps_author (stream_update type chunk).
Proof.
  intros m. unfold stream_update. destruct (_ === _) eqn:E; [done|]. bools. by destruct type.
Qed.

Lemma keeps_if (c : Message -> bool) (f : Message -> Message) :
  (forall m, c m = true -> m_status m <> Some StatusError) -> (forall m, m_from (f m) = m_from m /\ m_key (f m) = m_key m) ->
  keeps_author (fun m => if c m then f m else m).
Proof. intros Hc Hf m. destruct (c m) eqn:E; [|done]. destruct (Hf m). split; [done|]. split; [done|]. intros He. by apply Hc in E. Qed.

Lemma keeps_complete : keeps_author (fun message =>
  if (m_status message === Some StatusComplete) || (m_status message === Some StatusError) then message else complete_message message).
Proof.
  intros m. destruct (_ || _) eqn:E; [done|]. bools. done.
Qed.

Lemma keeps_stop : keeps_author (fun message =>
  if (m_status message === Some StatusLoading) || (m_status message === Some StatusStreaming) then complete_message message else message).
Proof. apply keeps_if; [|done]. intros m H He. rewrite He in H. done. Qed.

Lemma updates_handleError src msg code s : updates (s_messages s) (s_messages (handleError src msg code s)).
Proof. unfold handleError. destruct (s_complete s); [constructor|]. apply updates_last, keeps_error. Qed.

Lemma updates_from k type delta s : updates (s_messages s) (s_messages (update_from k type delta s)).
Proof.
  unfold update_from. destruct (opt_prop _ _) as [v|]; [|constructor]. destruct (json_truthy v); [|constructor].
  apply updates_last, keeps_update.
Qed.

Lemma step_updates e s : updates (s_messages s) (s_messages (stream_step e s)).
Proof.
  destruct e as [throws|src data|src rs data|src rs st|]; cbn [stream_step].
  - unfold sendStreamRequest. destruct throws; [apply updates_last, keeps_error|constructor].
  - unfold on_message. destruct (_ === _).
    + apply updates_last, keeps_complete.
    + destruct (read_delta data) as [[delta|]|]; [|constructor|apply updates_handleError].
      destruct (json_truthy delta); [|constructor].
      eapply updates_trans; [|apply updates_from]. apply updates_from.
  - unfold on_error. destruct (_ =? _)%Z; [constructor|]. destruct (error_of data). apply updates_handleError.
  - unfold on_ready_state. destruct rs, st; try constructor. destruct (_ && _); [apply updates_handleError|constructor].
  - unfold stopGeneration, stopStream. assert (forall l, updates l (stop_messages l)) as H.
    { intros l. apply updates_last, keeps_stop. }
    destruct (s_source s); apply H.
Qed.

Lemma updates_earlier l1 l2 :
  updates l1 l2 -> removelast l2 = removelast l1 /\ List.map m_key l2 = List.map m_key l1 /\ List.map m_from l2 = List.map m_from l1.
Proof.
  induction 1 as [l|l f Hf|l1 l2 l3 _ (H1 & H2 & H3) _ (H4 & H5 & H6)]; [done| |by rewrite H4, H5, H6].
  destruct (update_last_cases l f) as [->|(l' & m & -> & _ & ->)]; [done|].
  destruct (Hf m) as (H1 & H2 & _). rewrite !removelast_last, !map_app. cbn. by rewrite H1, H2.
Qed.

Lemma run_updates es s : updates (s_messages s) (s_messages (stream_run es s)).
Proof.
  revert s. induction es as [|e es IH]; intros s; [constructor|].
  eapply updates_trans; [apply step_updates|apply IH].
Qed.

(** Whatever the event source reports, in whatever order, streaming only ever
    changes the last message of the conversation: the earlier messages stay as they
    are, and no message is added, dropped, renamed or given another author. *)
Lemma history_preserved es s :
  let l := s_messages (stream_run es s) in
  removelast l = removelast (s_messages s) /\
  List.map m_key l = List.map m_key (s_messages s) /\ List.map m_from l = List.map m_from (s_messages s).
Proof.
  cbn zeta. apply updates_earlier, run_updates.
Qed.

Lemma updates_error l1 l2 m :
  updates l1 l2 -> last l1 = Some m -> m_status m = Some StatusError ->
  exists m', last l2 = Some m' /\ m_status m' = Some StatusError.
Proof.
  intros H. revert m. induction H as [l|l f Hf|l1 l2 l3 _ IH1 _ IH2]; intros m Hl He; [eauto| |].
  - destruct (update_last_cases l f) as [->|(l' & m' & -> & _ & ->)]; [eauto|].
    rewrite last_snoc in Hl. injection Hl as ->. rewrite last_snoc. eexists. split; [done|]. by apply Hf.
  - destruct (IH1 m Hl He) as (m' & Hl' & He'). eauto.
Qed.

(** An error is final: once the last message reports an error, no later event of
    any source, and no press of the stop button, turns it into an answer again. *)
Lemma error_is_final es s m :
  last (s_messages s) = Some m -> m_status m = Some StatusError ->
  exists m', last (s_messages (stream_run es s)) = Some m' /\ m_status m' = Some StatusError.
Proof. apply updates_error, run_updates. Qed.

(** *** A whole answer *)

(** A field of a delta that is a text; one that is missing or null is the empty text. *)
Definition text_field (k : jstr) (o : list (jstr * json)) (t : jstr) : Prop :=
  obj_get k o = Some (JStr t) \/ (t = [] /\ (obj_get k o = None \/ obj_get k o = Some JNull)).

(** An event text that carries a piece of reasoning and a piece of content, either of which may be empty. *)
Definition delta_event (data : jstr) (p : jstr * jstr) : Prop :=
  data <> js "[DONE]" /\
  exists o, read_delta data = Ret (Some (JObj o)) /\ text_field (js "reasoning_content") o p.1 /\ text_field (js "content") o p.2.

Definition text_or_none (s : jstr) : option jstr := match s with [] => None | _ => Some s end.

(** The message that has received the reasoning [rea] and the content [full] so far. *)
Record streamed (m : Message) (rea full : jstr) : Prop := MkStreamed {
  st_from : m_from m = RoleAssistant;
  st_status : m_status m = Some StatusLoading \/ m_status m = Some StatusStreaming;
  st_content : v_content (getCurrentVersion m) = full;
  st_blocks : rea = [] -> truthy (reasoning (parseThinkTags full)) = true -> reasoning_content m = Some (reasoning (parseThinkTags full));
  st_plain : index_of open_tag full = None -> reasoning_content m = text_or_none rea
}.

Lemma streamed_loading key id : streamed (createLoadingAssistantMessage key id) [] [].
Proof. constructor; [done|by left|done| |done]. intros _. vm_compute. discriminate. Qed.

Lemma no_error m rea full : streamed m rea full -> (m_status m === Some StatusError) = false.
Proof. intros [_ Hs _ _ _]. apply js_eqb_ne. destruct Hs; congruence. Qed.

Lemma plain_parse full : index_of open_tag full = None -> parseThinkTags full = MkThink full [] false.
Proof. intros H. unfold parseThinkTags, includes. by rewrite H. Qed.

Lemma streamed_content m rea full c chunk : streamed m rea full -> streamed (stream_update UContent (c :: chunk) m) rea (full ++ c :: chunk).
Proof.
  intros Hm. unfold stream_update. rewrite (no_error _ _ _ Hm). destruct Hm as [Hf Hs Hc Hb Hp].
  constructor; [done|by right|cbn; by rewrite Hc|..]; unfold reasoning_content, processStreamingContent; cbn; rewrite Hc.
  - by intros _ ->.
  - intros Hi. rewrite (plain_parse _ Hi). cbn. apply Hp. by eapply index_of_none_app.
Qed.

Lemma streamed_reasoning m rea full c chunk : streamed m rea full -> streamed (stream_update UReasoning (c :: chunk) m) (rea ++ c :: chunk) full.
Proof.
  intros Hm. unfold stream_update. rewrite (no_error _ _ _ Hm). destruct Hm as [Hf Hs Hc Hb Hp].
  constructor; [done|by right|exact Hc|..].
  - intros E. by destruct rea.
  - intros Hi. specialize (Hp Hi). unfold reasoning_content at 1. cbn. rewrite Hp. by destruct rea.
Qed.

Lemma finalize_reasoning m r :
  reasoning_content m = Some r -> truthy r = true -> reasoning_content (finalizeMessage m None) = Some r.
Proof.
  unfold reasoning_content, finalizeMessage. intros Hm Hr. unfold reasoning_content. rewrite Hm. by destruct r as [|c r].
Qed.

Lemma streamed_complete m rea full :
  streamed m rea full ->
  m_status (complete_message m) = Some StatusComplete /\
  v_content (getCurrentVersion (complete_message m)) = visibleContent (parseThinkTags full) /\
  (rea = [] -> truthy (reasoning (parseThinkTags full)) = true -> reasoning_content (complete_message m) = Some (reasoning (parseThinkTags full))) /\
  (index_of open_tag full = None -> reasoning_content (complete_message m) = text_or_none rea).
Proof.
  intros [Hf Hs Hc Hb Hp]. split; [done|]. split; [cbn; by rewrite Hc|]. split.
  - intros He Ht. by apply finalize_reasoning; [apply Hb|].
  - intros Hi. specialize (Hp Hi). destruct rea as [|c rea]; [|by apply finalize_reasoning].
    unfold reasoning_content, complete_message, finalizeMessage. rewrite Hp, Hc, (plain_parse _ Hi). done.
Qed.

Definition with_messages (l : list Message) (s : StreamState) : StreamState := set_messages (fun _ => l) s.

Lemma update_field k type o t l m s : text_field k o t -> m_from m = RoleAssistant -> s_messages s = l ++ [m] ->
  update_from k type (JObj o) s = with_messages (l ++ [match t with [] => m | _ => stream_update type t m end]) s.
Proof.
  intros Ht Hf Hs. unfold update_from. cbn [opt_prop]. assert (s = with_messages (l ++ [m]) s) as E by (destruct s; cbn in *; by rewrite <-Hs).
  destruct Ht as [->|[-> [->| ->]]]; cbn [json_truthy json_String]; try exact E. destruct t as [|c t]; [exact E|]. cbn [truthy].
  unfold with_messages, set_messages, handleStreamUpdate. by rewrite Hs, update_last_app.
Qed.

Lemma delta_step src data p l m rea full s :
  delta_event data p -> streamed m rea full -> s_messages s = l ++ [m] ->
  exists m', streamed m' (rea ++ p.1) (full ++ p.2) /\ on_message src data s = with_messages (l ++ [m']) s.
Proof.
  intros (Hd & o & Ho & Hr & Hc) Hm Hs. unfold on_message. rewrite js_eqb_ne, Ho by exact Hd. cbn [json_truthy].
  rewrite (update_field _ UReasoning o p.1 l m s Hr (st_from _ _ _ Hm) Hs).
  set (m1 := match p.1 with [] => m | _ => stream_update UReasoning p.1 m end).
  assert (streamed m1 (rea ++ p.1) full) as H1.
  { unfold m1. destruct p.1 as [|c t]; [by rewrite app_nil_r|by apply streamed_reasoning]. }
  rewrite (update_field _ UContent o p.2 l m1 _ Hc (st_from _ _ _ H1)) by done.
  eexists. split; [|by destruct s]. destruct p.2 as [|c t]; [by rewrite app_nil_r|by apply streamed_content].
Qed.

Lemma deltas_run src l datas pieces m rea full s :
  Forall2 delta_event datas pieces -> streamed m rea full -> s_messages s = l ++ [m] ->
  exists m', streamed m' (rea ++ concat (List.map fst pieces)) (full ++ concat (List.map snd pieces)) /\
    stream_run (List.map (OnMessage src) datas) s = with_messages (l ++ [m']) s.
Proof.
  intros H. revert m rea full s. induction H as [|data p datas pieces Hc _ IH]; intros m rea full s Hm Hs.
  - exists m. cbn. rewrite !app_nil_r. split; [done|]. destruct s. cbn in *. by rewrite <-Hs.
  - destruct (delta_step src _ _ _ _ _ _ _ Hc Hm Hs) as (m1 & H1 & E1).
    destruct (IH m1 _ _ (with_messages (l ++ [m1]) s) H1 eq_refl) as (m2 & H2 & E2).
    exists m2. cbn [List.map concat]. rewrite !app_assoc. split; [done|]. cbn. rewrite E1. exact E2.
Qed.

Lemma done_step src l m rea full s :
  streamed m rea full -> s_messages s = l ++ [m] ->
  on_message src (js "[DONE]") s =
  MkStream (l ++ [complete_message m]) None true (src :: s_closed s) (s_opened s).
Proof.
  intros Hm Hs. unfold on_message. rewrite js_eqb_refl. unfold set_messages, closeSource, mark_complete, handleStreamComplete.
  cbn [s_messages s_source s_complete s_closed s_opened]. rewrite Hs, update_last_app by apply Hm.
  by destruct (st_status _ _ _ Hm) as [-> | ->].
Qed.

Lemma late_error src code data s : s_complete s = true -> on_error src code data s = s.
Proof. intros H. unfold on_error, handleError. destruct (_ =? _)%Z; [done|]. destruct (error_of data). by rewrite H. Qed.

Lemma late_ready_state src rs st s : s_complete s = true -> on_ready_state src rs st s = s.
Proof. intros H. unfold on_ready_state, handleError. destruct rs, st; try done. destruct (_ && _); [by rewrite H|done]. Qed.

Lemma no_block_plain d : decomposed d -> has_block d = false -> index_of open_tag (render d) = None.
Proof. intros Hd Hb. rewrite render_first by done. unfold has_block in Hb. destruct d as [[|[] ?] t [u|]]; by cbn in Hb |- *. Qed.

(** C39: a streamed answer, each event of which carries a piece of reasoning, a piece of content, both or neither, is delivered however the server cut
    it: when the pieces and the end mark have arrived, the last message is complete, the stream is over, and error and state events
    that come later change nothing.  The joined content has one reading as think blocks between visible text; the message's text is the
    visible text of that reading, trimmed when there is a block.  Its reasoning is, for an answer without reasoning pieces whose blocks are
    not all blank, the blocks' contents with empty lines between them, trimmed; for content without a think block, the reasoning
    pieces joined, or none when there are none.  Nothing is said of the reasoning of other answers: when all blocks are blank
    ([empty_block_leaks]) or blocks come with reasoning pieces it depends on the cut. *)
Theorem answer_delivered s l key id datas pieces code data rs st :
  s_messages s = l ++ [createLoadingAssistantMessage key id] -> Forall2 delta_event datas pieces ->
  let src := s_opened s in
  let s' := stream_run (Send false :: List.map (OnMessage src) datas ++
              [OnMessage src (js "[DONE]"); OnError src code data; OnReadyState src rs st]) s in
  exists m d, s_messages s' = l ++ [m] /\ m_status m = Some StatusComplete /\ isStreaming s' = false /\
    decomposed d /\ render d = concat (List.map snd pieces) /\
    v_content (getCurrentVersion m) = (if has_block d then trim (visible_of d) else visible_of d) /\
    (Forall (fun p => p.1 = []) pieces -> trim (join blank_line (reasonings_of d)) <> [] ->
       reasoning_content m = Some (trim (join blank_line (reasonings_of d)))) /\
    (has_block d = false -> reasoning_content m = text_or_none (concat (List.map fst pieces))).
Proof.
  intros Hs Hd src s'. unfold s', stream_run. cbn [foldl]. rewrite foldl_app.
  destruct (deltas_run src l datas pieces _ [] [] (stream_step (Send false) s) Hd (streamed_loading key id) Hs) as (m & Hm & E).
  unfold stream_run in E. rewrite E. cbn [foldl stream_step]. cbn [app] in Hm.
  rewrite (done_step src l m _ _ (with_messages (l ++ [m]) _) Hm eq_refl), late_error, late_ready_state by done.
  destruct (decompose (concat (List.map snd pieces))) as (d & Hdec & Hren). destruct (streamed_complete _ _ _ Hm) as (H1 & H2 & H3 & H4).
  rewrite <-Hren, (parse_render d Hdec) in H2, H3. rewrite <-Hren in H4. exists (complete_message m), d. do 5 (split; [done|]). split; [|split].
  - rewrite H2. unfold think_spec. by destruct (has_block d).
  - intros Hp Hne. assert (concat (List.map fst pieces) = []) as Hr by (clear -Hp; induction Hp as [|p ps E _ IH]; [done|]; cbn; by rewrite E).
    unfold think_spec in H3. destruct (has_block d) eqn:Eb; [by apply H3, truthy_true|].
    exfalso. apply Hne. unfold has_block in Eb. destruct d as [[|? ?] t [u|]]; by cbn in Eb.
  - intros Hb. by apply H4, no_block_plain.
Qed.

(** The text of an event with one content chunk. *)
Definition content_data (chunk : jstr) : jstr :=
  JSON_stringify (JObj [(js "choices", JArr [JObj [(js "delta", JObj [(js "content", JStr chunk)])]])]).

Definition start_state : StreamState :=
  MkStream [createUserMessage (js "k1") (js "v1") (js "hello"); createLoadingAssistantMessage (js "k2") (js "v2")] None false [] 0.

Definition sample_chunks : list jstr := [js "<think>let me"; js " see</th"; js "ink>Hel"; js "lo"].

Lemma sample_events : Forall2 delta_event (List.map content_data sample_chunks) (List.map (pair []) sample_chunks).
Proof.
  repeat (constructor; [split; [apply js_eqb_false; vm_compute; reflexivity|];
    eexists; split; [vm_compute; reflexivity|split; [right; split; [reflexivity|left; vm_compute; reflexivity]|left; vm_compute; reflexivity]]|]). constructor.
Qed.

Lemma answer_delivered_witness :
  let s' := stream_run (Send false :: List.map (OnMessage 0) (List.map content_data sample_chunks) ++
              [OnMessage 0 (js "[DONE]"); OnError 0 0 None; OnReadyState 0 (Some 4%Z) (Some 200%Z)]) start_state in
  exists m, last (s_messages s') = Some m /\ m_status m = Some StatusComplete /\
    v_content (getCurrentVersion m) = js "Hello" /\ reasoning_content m = Some (js "let me see").
Proof.
  destruct (answer_delivered start_state [createUserMessage (js "k1") (js "v1") (js "hello")] (js "k2") (js "v2")
    (List.map content_data sample_chunks) (List.map (pair []) sample_chunks) 0 None (Some 4%Z) (Some 200%Z) eq_refl sample_events)
    as (m & d & H1 & H2 & _ & Hd & Hr & H3 & H4 & _).
  assert (d = MkDecomposition [([], js "let me see")] (js "Hello") None) as ->.
  { apply render_inj; [exact Hd| |rewrite Hr; vm_compute; reflexivity]. split; cbn; [|reflexivity|discriminate]. constructor; [split; reflexivity|constructor]. }
  exists m. cbn [s_opened start_state] in H1. rewrite H1, last_snoc. split; [done|]. split; [done|]. split; [rewrite H3; vm_compute; reflexivity|].
  rewrite H4; [vm_compute; reflexivity|repeat constructor|vm_compute; discriminate].
Defined.

Definition failed_state : StreamState := stream_run [Send true] start_state.

Lemma error_is_final_witness :
  exists m', last (s_messages (stream_run [OnMessage 0 (content_data (js "x")); StopGeneration] failed_state)) = Some m' /\
             m_status m' = Some StatusError.
Proof. eapply error_is_final; vm_compute; reflexivity. Defined.

(** An empty think block whose closing tag arrives in two chunks leaves a piece of
    the tag as the answer's reasoning: a parse without reasoning does not clear what
    an earlier chunk showed. *)
Lemma empty_block_leaks :
  let s' := stream_run (Send false :: List.map (OnMessage 0) (List.map content_data [js "<think>"; js "</"; js "think>"; js "Hi"]) ++
              [OnMessage 0 (js "[DONE]")]) start_state in
  exists m, last (s_messages s') = Some m /\ v_content (getCurrentVersion m) = js "Hi" /\
    reasoning_content m = Some (js "</") /\ reasoning (parseThinkTags (js "<think></think>Hi")) = [].
Proof. eexists. split; [vm_compute; reflexivity|]. split; vm_compute; [reflexivity|split; reflexivity]. Qed.

(** A response without choices leaves the answer loading for ever. *)
Lemma empty_response_stays_loading l key id :
  sendNonStreamingChat (GotResponse None) (l ++ [createLoadingAssistantMessage key id]) =
  l ++ [createLoadingAssistantMessage key id].
Proof. done. Qed.

(** ** Theorems: requests and saved conversations *)

Lemma enabled_parameter_in (ps : list (jstr * bool * option number)) (k : jstr) (x : number) :
  (k, x) ∈ omap enabled_parameter ps <-> (k, true, Some x) ∈ ps.
Proof.
  rewrite list_elem_of_omap. split.
  - intros ([[j b] v] & Hin & He). unfold enabled_parameter in He. cbn in He. destruct b, v; simplify_eq/=. done.
  - intros H. by exists (k, true, Some x).
Qed.

(** A request carries the usable messages and nothing else: the placeholder of
    the answer being written adds nothing to it, no blank assistant message is sent,
    every user message is, and a sampling parameter is sent exactly when it is
    enabled and has a value. *)
Lemma payload_exact messages config enabled key id :
  let q := buildChatCompletionPayload messages config enabled in
  buildChatCompletionPayload (messages ++ [createLoadingAssistantMessage key id]) config enabled = q /\
  (forall c, (RoleAssistant, c) ∈ q_messages q -> trim c <> []) /\
  (forall m v vs, m ∈ messages -> m_from m = RoleUser -> m_versions m = v :: vs -> (RoleUser, v_content v) ∈ q_messages q) /\
  (forall (k : jstr) (x : number), (k, x) ∈ q_parameters q <-> (k, true, Some x) ∈ parameter_entries config enabled).
Proof.
  cbn zeta. split.
  { unfold buildChatCompletionPayload. rewrite List.filter_app. cbn. by rewrite app_nil_r. }
  split; [|split; [|intros; apply enabled_parameter_in]].
  - intros c Hc. cbn [q_messages buildChatCompletionPayload] in Hc. apply list_elem_of_In, in_map_iff in Hc as (m & Hm & Hin).
    apply filter_In in Hin as [_ Hv]. unfold isValidMessage in Hv. unfold formatMessageForAPI, getCurrentVersion in Hm.
    destruct (m_versions m) as [|v vs]; [done|]. injection Hm as Hf <-. rewrite Hf, js_eqb_refl in Hv. cbn [andb] in Hv.
    apply truthy_true. by destruct (truthy _).
  - intros m v vs Hin Hf Hv. cbn [q_messages buildChatCompletionPayload]. apply list_elem_of_In, in_map_iff. exists m.
    unfold formatMessageForAPI, getCurrentVersion. rewrite Hf, Hv. split; [done|]. apply filter_In. split; [by apply list_elem_of_In|].
    unfold isValidMessage. by rewrite Hv, Hf.
Qed.

Lemma rev_settle_cases l :
  (rev_settle l = l /\ Forall (fun m => stuck m = false) l) \/
  exists a m b, l = a ++ m :: b /\ stuck m = true /\ Forall (fun m => stuck m = false) a /\ rev_settle l = a ++ settle m :: b.
Proof.
  induction l as [|m l IH]; [by left|]. cbn. destruct (stuck m) eqn:E; [right; by exists [], m, l|].
  destruct IH as [[-> H]|(a & m' & b & -> & Hm & Ha & ->)]; [left; by repeat constructor|].
  right. exists (m :: a), m', b. by repeat constructor.
Qed.

(** A settled message: an answer that says something, or an error. *)
Definition settled (m : Message) : Prop :=
  (m_status m = Some StatusComplete /\
   (trim (v_content (getCurrentVersion m)) <> [] \/ exists r, m_reasoning m = Some r /\ trim (r_content r) <> [])) \/
  (m_status m = Some StatusError /\ v_content (getCurrentVersion m) = error_text INTERRUPTED).

Lemma settle_settled m : settled (settle m) /\ m_from (settle m) = m_from m /\ m_key (settle m) = m_key m.
Proof.
  unfold settle. cbn zeta. set (f := finalizeMessage m None).
  assert (m_from f = m_from m /\ m_key f = m_key m) as [<- <-] by done.
  assert (exists v, m_versions f = [v]) as [v Hv] by (by eexists). clearbody f. rewrite Hv.
  destruct (truthy (trim (v_content v))) eqn:Ec; cbn [orb].
  - split; [|done]. left. split; [done|]. left. unfold getCurrentVersion. cbn. rewrite Hv. by apply truthy_true.
  - destruct (m_reasoning f) as [r|] eqn:Er; [destruct (truthy (trim (r_content r))) eqn:Et|].
    + split; [|done]. left. split; [done|]. right. exists r. split; [done|by apply truthy_true].
    + split; [|done]. by right.
    + split; [|done]. by right.
Qed.

(** A saved conversation loads without a stuck last answer: either no answer was
    still being written and the messages come back unchanged, or exactly the latest
    such answer is replaced by one that is complete and says something, or that
    reports the interruption. *)
Lemma load_settles messages :
  (sanitizeMessagesOnLoad messages = messages /\ Forall (fun m => stuck m = false) messages) \/
  exists a m b m', messages = a ++ m :: b /\ stuck m = true /\ Forall (fun m => stuck m = false) b /\
    sanitizeMessagesOnLoad messages = a ++ m' :: b /\ settled m' /\ m_from m' = m_from m /\ m_key m' = m_key m.
Proof.
  unfold sanitizeMessagesOnLoad. destruct (rev_settle_cases (rev messages)) as [[-> H]|(a & m & b & Hm & Hs & Ha & ->)].
  - left. rewrite rev_involutive. split; [done|]. rewrite <-(rev_involutive messages). by apply Forall_rev.
  - right. exists (rev b), m, (rev a), (settle m). apply (f_equal (@rev _)) in Hm. rewrite rev_involutive in Hm.
    rewrite Hm, !rev_app_distr. cbn. rewrite <-!app_assoc. cbn. destruct (settle_settled m) as (H1 & H2 & H3).
    repeat split; try done. by apply Forall_rev.
Qed.
