(* ===== verification/Sidebar.v ===== *)
(** * The sidebar: [hooks/use-sidebar-config.ts]

    Which navigation entries a user sees: the administrator's module settings,
    completed with the defaults, and the user's own settings as a second layer. *)
From S2P Require Import Prelude Numbers Json.

(** ** Data *)

(** Section name to section object; both layers come from JSON texts, so a section
    can be any value. *)
Notation SidebarConfig := (list (jstr * json)).

Definition all_on (modules : list jstr) : json := JObj (List.map (fun m => (m, JBool true)) modules).

Definition DEFAULT_SIDEBAR_MODULES : SidebarConfig :=
  [(js "chat", all_on [js "enabled"; js "playground"; js "chat"]);
   (js "console", all_on [js "enabled"; js "detail"; js "token"; js "log"; js "midjourney"; js "task"]);
   (js "personal", all_on [js "enabled"; js "topup"; js "personal"]);
   (js "marketplace", all_on [js "enabled"; js "skills"; js "mySkills"]);
   (js "admin", all_on [js "enabled"; js "channel"; js "models"; js "redemption"; js "user"; js "setting"; js "subscription"])].

Definition url_entry (url section module : String.string) : jstr * (jstr * jstr) := (js url, (js section, js module)).
Arguments url_entry (url section module)%_string_scope.

Definition URL_TO_CONFIG_MAP : list (jstr * (jstr * jstr)) :=
  [url_entry "/playground" "chat" "playground"; url_entry "/dashboard" "console" "detail";
   url_entry "/dashboard/overview" "console" "detail"; url_entry "/dashboard/models" "console" "detail";
   url_entry "/dashboard/users" "console" "detail"; url_entry "/keys" "console" "token";
   url_entry "/usage-logs" "console" "log"; url_entry "/usage-logs/common" "console" "log";
   url_entry "/usage-logs/drawing" "console" "midjourney"; url_entry "/usage-logs/task" "console" "task";
   url_entry "/wallet" "personal" "topup"; url_entry "/profile" "personal" "personal";
   url_entry "/skills" "marketplace" "skills"; url_entry "/skills/my" "marketplace" "mySkills";
   url_entry "/channels" "admin" "channel"; url_entry "/models" "admin" "models";
   url_entry "/models/metadata" "admin" "models"; url_entry "/models/deployments" "admin" "models";
   url_entry "/users" "admin" "user"; url_entry "/redemption-codes" "admin" "redemption";
   url_entry "/subscriptions" "admin" "subscription"; url_entry "/system-settings" "admin" "setting";
   url_entry "/system-settings/site" "admin" "setting"].

(** The items of a navigation group, the fields the filter reads. *)
Record NavSub := MkSub { sub_title : jstr; sub_url : jstr }.

Inductive NavItem :=
| NavLink (title url : jstr) (configUrls : option (list jstr))
| NavCollapsible (title : jstr) (items : list NavSub)
| NavChatPresets (title : jstr).

Record NavGroup := MkGroup { g_title : jstr; g_items : list NavItem }.

(** ** Reading the two layers *)

(** One default section.  The loop over undefined modules has nothing to do: the
    defaults were spread first and JSON has no undefined. *)
Definition merge_section (merged : SidebarConfig) (entry : jstr * json) : SidebarConfig :=
  let '(sectionKey, defaultSection) := entry in
  match obj_get sectionKey merged with
  | Some existing =>
      if json_truthy existing
      then obj_set sectionKey (JObj (obj_assign (spread defaultSection) (spread existing))) merged
      else obj_set sectionKey defaultSection merged
  | None => obj_set sectionKey defaultSection merged
  end.

Definition mergeWithDefaultSidebarModules (config : json) : SidebarConfig :=
  foldl merge_section (obj_assign [] (spread config)) DEFAULT_SIDEBAR_MODULES.

Definition blank (value : option jstr) : bool := negb (truthy (trim (default [] value))).

Definition parseSidebarConfig (value : option jstr) : SidebarConfig :=
  if blank value then DEFAULT_SIDEBAR_MODULES
  else match JSON_parse (default [] value) with
       | Ret parsed => mergeWithDefaultSidebarModules parsed
       | Throw => DEFAULT_SIDEBAR_MODULES
       end.

Definition is_object (v : json) : bool := match v with JObj _ | JArr _ => true | _ => false end.

Definition parseUserSidebarConfig (value : option jstr) : option json :=
  if blank value then None
  else match JSON_parse (default [] value) with
       | Ret parsed => if is_object parsed then Some parsed else None
       | Throw => None
       end.

Definition persona_of (value : json) : option jstr :=
  match opt_prop (js "persona") (Some value) with Some (JStr s) => Some s | _ => None end.

Definition readPersona (setting : option json) : option jstr :=
  match setting with
  | None => None
  | Some v =>
      if negb (json_truthy v) then None
      else match v with
           | JStr s => match JSON_parse s with Ret value => persona_of value | Throw => None end
           | _ => persona_of v
           end
  end.

(** [v === false]. *)
Definition is_false (v : option json) : bool := match v with Some (JBool false) => true | _ => false end.

Definition casual_console : json :=
  JObj [(js "enabled", JBool true); (js "detail", JBool false); (js "token", JBool true); (js "log", JBool false);
        (js "midjourney", JBool false); (js "task", JBool false)].

Definition upgradeLegacyCasualConfig (config : option json) (persona : option jstr) : option json :=
  match config with
  | Some (JObj o) =>
      if (persona === Some (js "casual")) && is_false (opt_prop (js "enabled") (obj_get (js "console") o))
      then Some (JObj (obj_set (js "console") casual_console o))
      else config
  | _ => config
  end.

(** ** Filtering *)

(** [section && section.enabled && section[module] === true]. *)
Definition admin_allows (adminConfig : SidebarConfig) (section module : jstr) : bool :=
  let s := obj_get section adminConfig in
  match opt_prop (js "enabled") s with
  | Some e => json_truthy e && match opt_prop module s with Some (JBool true) => true | _ => false end
  | None => false
  end.

Definition user_allows (userConfig : option json) (section module : jstr) : bool :=
  match opt_prop section userConfig with
  | Some s =>
      if negb (json_truthy s) then true
      else if is_false (opt_prop (js "enabled") (Some s)) then false
      else negb (is_false (opt_prop module (Some s)))
  | None => true
  end.

Definition isModuleEnabled (url : jstr) (adminConfig : SidebarConfig) (userConfig : option json) : bool :=
  match obj_get url URL_TO_CONFIG_MAP with
  | None => true
  | Some (section, module) =>
      if negb (admin_allows adminConfig section module) then false else user_allows userConfig section module
  end.

Definition isNavItemVisible (item : NavItem) (adminConfig : SidebarConfig) (userConfig : option json) : bool :=
  match item with
  | NavChatPresets _ =>
      if negb (admin_allows adminConfig (js "chat") (js "chat")) then false
      else user_allows userConfig (js "chat") (js "chat")
  | NavLink _ url configUrls =>
      if truthy url then existsb (fun u => isModuleEnabled u adminConfig userConfig) (default [url] configUrls) else true
  | NavCollapsible _ items => existsb (fun sub => isModuleEnabled (sub_url sub) adminConfig userConfig) items
  end.

Definition filter_sub_items (adminConfig : SidebarConfig) (userConfig : option json) (item : NavItem) : NavItem :=
  match item with
  | NavCollapsible title items =>
      NavCollapsible title (List.filter (fun sub => isModuleEnabled (sub_url sub) adminConfig userConfig) items)
  | _ => item
  end.

Definition filterNavItems (items : list NavItem) (adminConfig : SidebarConfig) (userConfig : option json) : list NavItem :=
  List.filter (fun item => isNavItemVisible item adminConfig userConfig)
    (List.map (filter_sub_items adminConfig userConfig) items).

(** What the hook reads of the signed-in user. *)
Record SidebarUser := MkUser {
  u_sidebar_settings : option json;
  u_sidebar_modules : option jstr;
  u_setting : option json
}.

Definition user_config (user : SidebarUser) : option json :=
  if is_false (u_sidebar_settings user) then None
  else upgradeLegacyCasualConfig (parseUserSidebarConfig (u_sidebar_modules user)) (readPersona (u_setting user)).

Definition filter_groups (navGroups : list NavGroup) (adminConfig : SidebarConfig) (userConfig : option json) : list NavGroup :=
  List.filter (fun g => match g_items g with [] => false | _ => true end)
    (List.map (fun g => MkGroup (g_title g) (filterNavItems (g_items g) adminConfig userConfig)) navGroups).

Definition useSidebarConfig (SidebarModulesAdmin : option jstr) (user : SidebarUser) (navGroups : list NavGroup) : list NavGroup :=
  filter_groups navGroups (parseSidebarConfig SidebarModulesAdmin) (user_config user).

(** ** Theorems *)

(** What one can click: a link with the URLs that decide about it, a sub-item, the
    chat presets. *)
Inductive Leaf :=
| LeafLink (title url : jstr) (configUrls : option (list jstr))
| LeafSub (title : jstr) (sub : NavSub)
| LeafChat (title : jstr).

Definition item_leaves (item : NavItem) : list Leaf :=
  match item with
  | NavLink title url c => [LeafLink title url c]
  | NavCollapsible title items => List.map (LeafSub title) items
  | NavChatPresets title => [LeafChat title]
  end.

Definition leaves (groups : list NavGroup) : list Leaf := concat (List.map (fun g => concat (List.map item_leaves (g_items g))) groups).

(** Who may see a leaf. *)
Definition leaf_allowed (adminConfig : SidebarConfig) (userConfig : option json) (leaf : Leaf) : bool :=
  match leaf with
  | LeafLink _ url c => negb (truthy url) || existsb (fun u => isModuleEnabled u adminConfig userConfig) (default [url] c)
  | LeafSub _ sub => isModuleEnabled (sub_url sub) adminConfig userConfig
  | LeafChat _ => admin_allows adminConfig (js "chat") (js "chat") && user_allows userConfig (js "chat") (js "chat")
  end.

Lemma filter_leaves_item a u item :
  (if isNavItemVisible (filter_sub_items a u item) a u then item_leaves (filter_sub_items a u item) else []) =
  List.filter (leaf_allowed a u) (item_leaves item).
Proof.
  destruct item as [title url c|title items|title]; cbn.
  - destruct (truthy url); cbn; [|done]. by destruct (existsb _ _).
  - induction items as [|sub items IH]; [done|]. cbn. destruct (isModuleEnabled (sub_url sub) a u) eqn:E; cbn; [rewrite E; cbn|exact IH].
    rewrite <-IH. destruct (existsb _ _) eqn:Ex; [done|]. f_equal.
    destruct (List.filter _ items) as [|s l] eqn:El; [done|]. cbn in Ex. apply orb_false_iff in Ex as [Ex _].
    assert (In s (s :: l)) as Hs by (by left). rewrite <-El in Hs. apply filter_In in Hs as [_ Hs]. congruence.
  - destruct (admin_allows _ _ _); cbn; [|done]. by destruct (user_allows _ _ _).
Qed.

Lemma filter_concat {A} (p : A -> bool) (ls : list (list A)) :
  List.filter p (concat ls) = concat (List.map (List.filter p) ls).
Proof. induction ls as [|l ls IH]; [done|]. cbn. by rewrite List.filter_app, IH. Qed.

Lemma filter_leaves_items a u items :
  concat (List.map item_leaves (filterNavItems items a u)) = List.filter (leaf_allowed a u) (concat (List.map item_leaves items)).
Proof.
  unfold filterNavItems. induction items as [|item items IH]; [done|]. cbn. rewrite List.filter_app, <-filter_leaves_item, <-IH.
  by destruct (isNavItemVisible _ a u).
Qed.

Lemma filter_leaves_groups a u groups : leaves (filter_groups groups a u) = List.filter (leaf_allowed a u) (leaves groups).
Proof.
  unfold leaves, filter_groups. induction groups as [|g groups IH]; [done|]. cbn. rewrite List.filter_app, <-filter_leaves_items, <-IH.
  by destruct (filterNavItems (g_items g) a u).
Qed.

(** No section title or expandable entry without content. *)
Definition no_empty (groups : list NavGroup) : Prop :=
  Forall (fun g => g_items g <> [] /\ Forall (fun i => forall t, i <> NavCollapsible t []) (g_items g)) groups.

Lemma filter_groups_no_empty a u groups : no_empty (filter_groups groups a u).
Proof.
  apply Forall_forall. intros g Hg. apply elem_of_lfilter in Hg as [Hg Hne].
  apply list_elem_of_In, in_map_iff in Hg as (g' & <- & _). cbn in *. split; [by destruct (filterNavItems _ _ _)|].
  apply Forall_forall. intros i Hi t ->. apply elem_of_lfilter in Hi as [_ Hi]. done.
Qed.

(** The sidebar shows exactly the entries that both layers allow: of all links,
    sub-items and chat presets, in their order, those the administrator's settings
    enable and the user's settings do not hide, and no empty group or expandable
    entry is left. *)
Lemma sidebar_exact admin user navGroups :
  let out := useSidebarConfig admin user navGroups in
  leaves out = List.filter (leaf_allowed (parseSidebarConfig admin) (user_config user)) (leaves navGroups) /\ no_empty out.
Proof. split; [apply filter_leaves_groups|apply filter_groups_no_empty]. Qed.

Lemma module_narrows url a u : isModuleEnabled url a u = true -> isModuleEnabled url a None = true.
Proof. unfold isModuleEnabled. destruct (obj_get _ _) as [[section module]|]; [|done]. by destruct (admin_allows _ _ _). Qed.

Lemma leaf_narrows a u leaf : leaf_allowed a u leaf = true -> leaf_allowed a None leaf = true.
Proof.
  destruct leaf as [title url c|title sub|title]; cbn.
  - destruct (truthy url); cbn; [|done]. rewrite !existsb_exists. intros (x & Hx & H). exists x. split; [done|]. by eapply module_narrows.
  - apply module_narrows.
  - by destruct (admin_allows _ _ _).
Qed.

(** A user's own sidebar settings can only hide entries: whatever text they hold,
    and whatever persona the user has, every entry the user sees is one the
    administrator's settings alone would show. *)
Lemma user_only_narrows admin user navGroups leaf :
  leaf ∈ leaves (useSidebarConfig admin user navGroups) ->
  leaf ∈ leaves (filter_groups navGroups (parseSidebarConfig admin) None).
Proof.
  unfold useSidebarConfig. rewrite !filter_leaves_groups, !elem_of_lfilter.
  intros [Hl Ha]. split; [done|]. by eapply leaf_narrows.
Qed.

(** *** The administrator's settings and the defaults *)

Lemma merge_get_ne k entry o : k <> entry.1 -> obj_get k (merge_section o entry) = obj_get k o.
Proof. destruct entry as [j d]. cbn. intros H. destruct (obj_get j o) as [v|]; [destruct (json_truthy v)|]; by apply obj_get_set_ne. Qed.

(** The section after the merge. *)
Definition merged_section (existing : option json) (defaultSection : json) : json :=
  match existing with
  | Some v => if json_truthy v then JObj (obj_assign (spread defaultSection) (spread v)) else defaultSection
  | None => defaultSection
  end.

Lemma merge_get_eq k d o : obj_get k (merge_section o (k, d)) = Some (merged_section (obj_get k o) d).
Proof. cbn. destruct (obj_get k o) as [v|]; cbn; [destruct (json_truthy v)|]; by rewrite obj_get_set_eq. Qed.

Lemma merge_fold_ne k ds o : k ∉ ds.*1 -> obj_get k (foldl merge_section o ds) = obj_get k o.
Proof.
  revert o. induction ds as [|e ds IH]; intros o H; [done|]. cbn in H |- *. apply not_elem_of_cons in H as [H1 H2].
  rewrite IH by done. by apply merge_get_ne.
Qed.

Lemma merge_fold_eq k d ds o :
  NoDup ds.*1 -> (k, d) ∈ ds -> obj_get k (foldl merge_section o ds) = Some (merged_section (obj_get k o) d).
Proof.
  revert o. induction ds as [|e ds IH]; intros o Hnd Hin; [by apply elem_of_nil in Hin|]. cbn in Hnd |- *.
  apply NoDup_cons in Hnd as [Hn Hnd]. apply elem_of_cons in Hin as [<-|Hin].
  - rewrite merge_fold_ne by done. apply merge_get_eq.
  - rewrite IH by done. rewrite merge_get_ne; [done|]. intros ->. apply Hn. apply list_elem_of_fmap. by exists (e.1, d).
Qed.

Lemma assign_get {V} k (o l : list (jstr * V)) :
  obj_get k (obj_assign o l) = match obj_get k (rev l) with Some v => Some v | None => obj_get k o end.
Proof.
  induction l as [|[j v] l IH] using rev_ind; [done|]. unfold obj_assign in *. rewrite foldl_app, rev_app_distr. cbn.
  destruct (k === j) eqn:E; bools; [subst; apply obj_get_set_eq|]. by rewrite obj_get_set_ne.
Qed.

(** What the administrator's object [o] says about a module, the default filled in
    for what it leaves out. *)
Definition stated (o : json) (section module : jstr) : option json :=
  match obj_get section (rev (spread o)) with
  | Some v => if json_truthy v then obj_get module (rev (spread v)) else None
  | None => None
  end.

Lemma all_on_get m ms : m ∈ ms -> obj_get m (spread (all_on ms)) = Some (JBool true).
Proof.
  cbn. induction ms as [|x ms IH]; [by intros ?%elem_of_nil|]. intros H. cbn. destruct (m === x) eqn:E; [done|].
  apply IH. apply elem_of_cons in H as [->|H]; [by rewrite js_eqb_refl in E|done].
Qed.

Definition module_names (section : jstr) : list jstr :=
  match obj_get section DEFAULT_SIDEBAR_MODULES with Some (JObj o) => o.*1 | _ => [] end.

Lemma default_sections : NoDup DEFAULT_SIDEBAR_MODULES.*1.
Proof. apply (bool_decide_eq_true (NoDup _)). vm_compute. reflexivity. Qed.

Lemma default_section_get (section : jstr) :
  section ∈ DEFAULT_SIDEBAR_MODULES.*1 ->
  exists ms, (section, all_on ms) ∈ DEFAULT_SIDEBAR_MODULES /\ module_names section = ms.
Proof.
  intros H. unfold DEFAULT_SIDEBAR_MODULES in H. cbn [fmap list_fmap fst] in H.
  repeat (apply elem_of_cons in H as [->|H];
    [eexists; split; [unfold DEFAULT_SIDEBAR_MODULES; repeat first [apply list_elem_of_here | apply list_elem_of_further]|vm_compute; reflexivity]|]).
  by apply elem_of_nil in H.
Qed.

Lemma merged_module o section module :
  section ∈ DEFAULT_SIDEBAR_MODULES.*1 -> module ∈ module_names section ->
  opt_prop module (obj_get section (mergeWithDefaultSidebarModules o)) = Some (default (JBool true) (stated o section module)).
Proof.
  intros Hs Hm. destruct (default_section_get section Hs) as (ms & Hin & Hms). rewrite Hms in Hm.
  unfold mergeWithDefaultSidebarModules. rewrite (merge_fold_eq _ _ _ _ default_sections Hin).
  rewrite assign_get. cbn [obj_get]. unfold stated, merged_section.
  destruct (obj_get section (rev (spread o))) as [v|]; [destruct (json_truthy v)|]; cbn [opt_prop].
  - rewrite assign_get. destruct (obj_get module (rev (spread v))); [done|]. by apply all_on_get.
  - by apply all_on_get.
  - by apply all_on_get.
Qed.

(** The module switch: on unless stated otherwise, and then only for the boolean
    [true]; the section's [enabled] only has to be truthy. *)
Definition stated_on (o : json) (section module : jstr) : bool :=
  json_truthy (default (JBool true) (stated o section (js "enabled"))) &&
  match stated o section module with None | Some (JBool true) => true | Some _ => false end.

Lemma mapped_module url section module :
  obj_get url URL_TO_CONFIG_MAP = Some (section, module) ->
  section ∈ DEFAULT_SIDEBAR_MODULES.*1 /\ module ∈ module_names section /\ js "enabled" ∈ module_names section.
Proof.
  intros H.
  assert (Forall (fun e => e.2.1 ∈ DEFAULT_SIDEBAR_MODULES.*1 /\ e.2.2 ∈ module_names e.2.1 /\ js "enabled" ∈ module_names e.2.1)
    URL_TO_CONFIG_MAP) as Hall by (apply (bool_decide_eq_true (Forall _ _)); vm_compute; reflexivity).
  rewrite Forall_forall in Hall. apply (Hall (url, (section, module))). clear Hall.
  revert H. generalize URL_TO_CONFIG_MAP. induction l as [|[j v] l IH]; [done|]. cbn. destruct (url === j) eqn:E.
  - intros [= ->]. bools. subst. apply list_elem_of_here.
  - intros H. apply list_elem_of_further. by apply IH.
Qed.

(** An administrator's settings text that is valid JSON need only name what it
    turns off: a page is on for everybody exactly when its section is not switched
    off and its module is true or not mentioned, so a page added after the settings
    were saved is visible. *)
Lemma admin_states_exceptions text o url section module :
  JSON_parse text = Ret o -> trim text <> [] -> obj_get url URL_TO_CONFIG_MAP = Some (section, module) ->
  isModuleEnabled url (parseSidebarConfig (Some text)) None = stated_on o section module.
Proof.
  intros Hp Ht Hu. unfold isModuleEnabled. rewrite Hu. unfold parseSidebarConfig, blank. cbn [default].
  apply truthy_true in Ht. unfold default, id. rewrite Ht. cbn [negb]. rewrite Hp.
  destruct (mapped_module _ _ _ Hu) as (Hs & Hm & He). unfold admin_allows.
  rewrite (merged_module o _ _ Hs He), (merged_module o _ _ Hs Hm). unfold stated_on, default, id.
  destruct (json_truthy _); cbn; [|done]. by destruct (stated o section module) as [[| [] | | | |]|].
Qed.

Lemma admin_states_exceptions_witness :
  let o := JObj [(js "console", JObj [(js "log", JBool false)])] in
  isModuleEnabled (js "/usage-logs") (parseSidebarConfig (Some (JSON_stringify o))) None = stated_on o (js "console") (js "log").
Proof.
  cbn zeta. eapply admin_states_exceptions; [vm_compute; reflexivity| |vm_compute; reflexivity].
  apply truthy_true. vm_compute. reflexivity.
Defined.

Lemma user_only_narrows_witness :
  let groups := [MkGroup (js "c") [NavLink (js "k") (js "/keys") None; NavChatPresets (js "p")]] in
  let user := MkUser None (Some (JSON_stringify (JObj [(js "chat", JObj [(js "enabled", JBool false)])]))) None in
  LeafLink (js "k") (js "/keys") None ∈ leaves (filter_groups groups (parseSidebarConfig None) None).
Proof.
  cbn zeta.
  apply (user_only_narrows None
    (MkUser None (Some (JSON_stringify (JObj [(js "chat", JObj [(js "enabled", JBool false)])]))) None)).
  assert (leaves (useSidebarConfig None
    (MkUser None (Some (JSON_stringify (JObj [(js "chat", JObj [(js "enabled", JBool false)])]))) None)
    [MkGroup (js "c") [NavLink (js "k") (js "/keys") None; NavChatPresets (js "p")]]) = [LeafLink (js "k") (js "/keys") None]) as ->
    by (vm_compute; reflexivity).
  apply list_elem_of_here.
Defined.

(** A casual user whose old settings hide the whole console sees the API keys page
    again, and no other console page. *)
Lemma casual_sees_keys a o :
  is_false (opt_prop (js "enabled") (obj_get (js "console") o)) = true ->
  let u := upgradeLegacyCasualConfig (Some (JObj o)) (Some (js "casual")) in
  isModuleEnabled (js "/keys") a u = admin_allows a (js "console") (js "token") /\
  Forall (fun url => isModuleEnabled url a u = false) [js "/dashboard"; js "/usage-logs"; js "/usage-logs/drawing"; js "/usage-logs/task"].
Proof.
  cbn zeta. unfold upgradeLegacyCasualConfig. intros ->. rewrite js_eqb_refl. cbn [andb].
  assert (forall url m, obj_get url URL_TO_CONFIG_MAP = Some (js "console", m) ->
    isModuleEnabled url a (Some (JObj (obj_set (js "console") casual_console o))) =
    admin_allows a (js "console") m && negb (is_false (opt_prop m (Some casual_console)))) as H.
  { intros url m Hu. unfold isModuleEnabled. rewrite Hu. destruct (admin_allows _ _ _); cbn [negb andb]; [|done].
    unfold user_allows. cbn [opt_prop]. by rewrite obj_get_set_eq. }
  split; [|repeat (constructor; [erewrite H by (vm_compute; reflexivity); apply andb_false_r|]); constructor].
  erewrite H by (vm_compute; reflexivity). apply andb_true_r.
Qed.

(** A settings text that was encoded twice, which the description of [readPersona]
    provides for, gives no persona. *)
Lemma double_encoded_persona :
  let setting := JSON_stringify (JObj [(js "persona", JStr (js "casual"))]) in
  readPersona (Some (JStr setting)) = Some (js "casual") /\ readPersona (Some (JStr (JSON_stringify (JStr setting)))) = None.
Proof. split; vm_compute; reflexivity. Qed.
