(* ===== verification/Marketplace.v ===== *)
(** * The skill marketplace: [features/marketplace]

    Which action a skill card offers ([lib.ts]), the state of a row of the user's
    own skills ([lib/my-skills-row-state.ts]) with the lock taxonomy
    ([components/lock-state-utils.ts]), and the helpers of the package download
    ([download-utils.ts]) that do not need a browser. *)
From S2P Require Import Prelude Regex Numbers Json.

(** ** Data: [types.ts] *)

Inductive SkillPlan := PlanFree | PlanPro | PlanEnterprise.
Inductive SkillStatus := Draft | Published | Deprecated | Archived.
Inductive SkillCTAAction :=
| CtaView | CtaDownload | CtaEnable | CtaUse | CtaUpgrade | CtaRenew | CtaContactSales | CtaLogin | CtaRemove | CtaUnavailable.

#[export] Instance SkillPlan_eq_dec : EqDecision SkillPlan.
Proof. solve_decision. Defined.
#[export] Instance SkillStatus_eq_dec : EqDecision SkillStatus.
Proof. solve_decision. Defined.
#[export] Instance SkillCTAAction_eq_dec : EqDecision SkillCTAAction.
Proof. solve_decision. Defined.

Definition cta_name (a : SkillCTAAction) : jstr :=
  match a with
  | CtaView => js "view"
  | CtaDownload => js "download"
  | CtaEnable => js "enable"
  | CtaUse => js "use"
  | CtaUpgrade => js "upgrade"
  | CtaRenew => js "renew"
  | CtaContactSales => js "contact_sales"
  | CtaLogin => js "login"
  | CtaRemove => js "remove"
  | CtaUnavailable => js "unavailable"
  end.

(** [enabled] may be missing ([None]), null ([Some None]) or a boolean; the texts of
    [lock_code] and [cta] come from the server. *)
Record SkillAvailability := MkAvailability {
  enabled : option (option bool);
  executable : option bool;
  locked : option bool;
  lock_code : option jstr;
  cta : option jstr
}.

Definition no_availability : SkillAvailability := MkAvailability None None None None None.

(** The fields the functions read; [sk_rest] stands for the others, which are
    passed on. *)
Record MarketplaceSkill := MkSkill {
  sk_id : jstr;
  sk_slug : jstr;
  sk_required_plan : SkillPlan;
  sk_status : option SkillStatus;
  sk_availability : option SkillAvailability;
  sk_rest : list (jstr * json)
}.

Definition with_availability (a : SkillAvailability) (s : MarketplaceSkill) : MarketplaceSkill :=
  MkSkill (sk_id s) (sk_slug s) (sk_required_plan s) (sk_status s) (Some a) (sk_rest s).

Definition availability (s : MarketplaceSkill) : SkillAvailability := default no_availability (sk_availability s).

(** ** Skill cards: [lib.ts] *)

(** The user's group, [None] when nobody is signed in. *)
Definition userPlan (user : option jstr) : option SkillPlan :=
  match user with
  | None => None
  | Some group =>
      Some (if group === js "enterprise" then PlanEnterprise else if group === js "pro" then PlanPro else PlanFree)
  end.

Definition planLevel (plan : SkillPlan) : nat :=
  match plan with PlanEnterprise => 2 | PlanPro => 1 | PlanFree => 0 end.

Definition planSatisfied (required current : SkillPlan) : bool := planLevel required <=? planLevel current.

(** The actions a card can show; "view" and "remove" are not among them. *)
Definition CARD_CTAS : list SkillCTAAction :=
  [CtaDownload; CtaEnable; CtaUse; CtaUpgrade; CtaRenew; CtaContactSales; CtaLogin; CtaUnavailable].

Definition normalizeCTA (action : option jstr) : option SkillCTAAction :=
  match action with
  | None => None
  | Some a => find (fun c => a === cta_name c) CARD_CTAS
  end.

Definition is_on (v : option (option bool)) : bool := match v with Some (Some true) => true | _ => false end.

(** [v ?? d] for [enabled]. *)
Definition enabled_or (v : option (option bool)) (d : bool) : option (option bool) :=
  match v with Some (Some b) => Some (Some b) | _ => Some (Some d) end.

Definition resolved_availability (skill : MarketplaceSkill) (user : option jstr) : SkillAvailability :=
  let existing := availability skill in
  let set e x l code c := MkAvailability e x l code (Some (cta_name c)) in
  match normalizeCTA (cta existing) with
  | Some c => set (enabled existing) (executable existing) (locked existing) (lock_code existing) c
  | None =>
      match user with
      | None => set (Some None) (executable existing) (Some true) (Some (js "auth_required")) CtaLogin
      | Some _ =>
          if (sk_status skill === Some Archived) || (sk_status skill === Some Draft)
          then set (enabled existing) (executable existing) (Some true) (Some (js "skill_not_published")) CtaUnavailable
          else if (sk_status skill === Some Deprecated) && negb (is_on (enabled existing))
          then set (Some (Some false)) (executable existing) (Some true) (Some (js "skill_not_published")) CtaUnavailable
          else
            let currentPlan := default PlanFree (userPlan user) in
            if negb (planSatisfied (sk_required_plan skill) currentPlan)
            then set (enabled_or (enabled existing) false) (executable existing) (Some true) (Some (js "plan_required"))
                   (if sk_required_plan skill === PlanEnterprise then CtaContactSales else CtaUpgrade)
            else if is_on (enabled existing) || (executable existing === Some true)
            then set (Some (Some true)) (Some (default true (executable existing)))
                   (Some (default false (locked existing))) (lock_code existing) CtaUse
            else set (Some (Some false)) (executable existing) (Some (default false (locked existing)))
                   (lock_code existing) CtaEnable
      end
  end.

Definition resolveMarketplaceSkill (skill : MarketplaceSkill) (user : option jstr) : MarketplaceSkill :=
  with_availability (resolved_availability skill user) skill.

Inductive StatusFilter := FAll | FAvailable | FEnabled | FLocked | FUnavailable.

#[export] Instance StatusFilter_eq_dec : EqDecision StatusFilter.
Proof. solve_decision. Defined.

Definition skillStatusFilterValue (skill : MarketplaceSkill) : StatusFilter :=
  let a := availability skill in
  if (cta a === Some (js "unavailable")) || (sk_status skill === Some Archived) || (sk_status skill === Some Draft)
  then FUnavailable
  else if is_on (enabled a) then FEnabled
  else if (locked a === Some true) && (cta a !== Some (js "enable")) then FLocked
  else FAvailable.

Record MarketplaceFilters := MkFilters {
  mf_query : jstr;
  mf_category : jstr;
  mf_plan : option SkillPlan;
  mf_status : StatusFilter;
  mf_kidsSafeOnly : bool
}.

Definition filterMarketplaceSkills (skills : list MarketplaceSkill) (filters : MarketplaceFilters) : list MarketplaceSkill :=
  List.filter (fun skill =>
    negb ((mf_status filters !== FAll) && (skillStatusFilterValue skill !== mf_status filters))) skills.

Inductive EmptyState := ELoadError | EMarketplace | EKids | ESearch | ECategory | EFilters.

Definition marketplaceEmptyState (totalCount filteredCount : nat) (filters : MarketplaceFilters) (isError : bool) : EmptyState :=
  if isError then ELoadError
  else if 0 <? filteredCount then EMarketplace
  else if mf_kidsSafeOnly filters then EKids
  else if truthy (trim (mf_query filters)) then ESearch
  else if truthy (mf_category filters) then ECategory
  else if match mf_plan filters with Some _ => true | None => mf_status filters !== FAll end then EFilters
  else if totalCount =? 0 then EMarketplace
  else EFilters.

(** ** Locks: [lock-state-utils.ts] *)

Inductive LockStateKind := LockPlan | LockSubscription | LockQuota | LockKids | LockUnavailable.

#[export] Instance LockStateKind_eq_dec : EqDecision LockStateKind.
Proof. solve_decision. Defined.

Definition LOCK_REASONS : list (jstr * LockStateKind) :=
  [(js "plan_required", LockPlan); (js "SKILL_PLAN_REQUIRED", LockPlan);
   (js "subscription_inactive", LockSubscription); (js "SKILL_SUBSCRIPTION_INACTIVE", LockSubscription);
   (js "quota_exceeded", LockQuota); (js "SKILL_QUOTA_EXCEEDED", LockQuota);
   (js "kids_blocked", LockKids); (js "kids_mode_blocked", LockKids); (js "SKILL_KIDS_MODE_BLOCKED", LockKids);
   (js "skill_not_published", LockUnavailable); (js "SKILL_NOT_PUBLISHED", LockUnavailable)].

Definition normalizeLockState (reason : option jstr) : option LockStateKind :=
  match reason with Some r => obj_get r LOCK_REASONS | None => None end.

(** ** Rows of the user's skills: [my-skills-row-state.ts] *)

Record MySkill := MkMySkill {
  ms_skill_id : option jstr;
  ms_id : option jstr;
  ms_slug : jstr;
  ms_skill_status : option SkillStatus;
  ms_status : option SkillStatus;
  ms_availability : option SkillAvailability
}.

Inductive MySkillRowState := RExecutable | RPlanLocked | RQuotaExceeded | RKidsBlocked | RDeprecated | RArchived | RUnavailable.
Inductive FilterBucket := BAvailable | BLocked | BDeprecated.

#[export] Instance MySkillRowState_eq_dec : EqDecision MySkillRowState.
Proof. solve_decision. Defined.
#[export] Instance FilterBucket_eq_dec : EqDecision FilterBucket.
Proof. solve_decision. Defined.

Definition skillStatusOf (skill : MySkill) : option SkillStatus :=
  match ms_skill_status skill with Some s => Some s | None => ms_status skill end.

Definition ms_locked (skill : MySkill) : bool :=
  match ms_availability skill with Some a => locked a === Some true | None => false end.

Definition ms_executable (skill : MySkill) : bool :=
  match ms_availability skill with Some a => executable a === Some true | None => false end.

Definition ms_lock (skill : MySkill) : option LockStateKind :=
  normalizeLockState (match ms_availability skill with Some a => lock_code a | None => None end).

Definition deriveRowState (skill : MySkill) : MySkillRowState :=
  let status := skillStatusOf skill in
  if status === Some Archived then RArchived
  else if ms_locked skill then
    match ms_lock skill with
    | Some LockKids => RKidsBlocked
    | Some LockQuota => RQuotaExceeded
    | Some LockPlan | Some LockSubscription => RPlanLocked
    | _ => RUnavailable
    end
  else if status === Some Deprecated then (if ms_executable skill then RDeprecated else RUnavailable)
  else if ms_executable skill then RExecutable
  else RUnavailable.

Definition filterBucketFor (rowState : MySkillRowState) (isDeprecated : bool) : FilterBucket :=
  if isDeprecated then BDeprecated else if rowState === RExecutable then BAvailable else BLocked.

Definition lockReasonFor (rowState : MySkillRowState) (skill : MySkill) : option LockStateKind :=
  match rowState with
  | RPlanLocked => Some (if ms_lock skill === Some LockSubscription then LockSubscription else LockPlan)
  | RQuotaExceeded => Some LockQuota
  | RKidsBlocked => Some LockKids
  | RArchived | RUnavailable => Some LockUnavailable
  | RExecutable | RDeprecated => None
  end.

Definition STATUS_LABEL_KEY (rowState : MySkillRowState) : jstr :=
  match rowState with
  | RExecutable => js "Available"
  | RPlanLocked => js "Plan required"
  | RQuotaExceeded => js "Quota exceeded"
  | RKidsBlocked => js "Blocked in Kids Mode"
  | RDeprecated => js "Deprecated"
  | RArchived | RUnavailable => js "Unavailable"
  end.

Definition DEPRECATED_WARNING_KEY : jstr :=
  js "This Skill is deprecated. You can keep using it for now, but it may be retired.".

Record MySkillRowView := MkRowView {
  rowState : MySkillRowState;
  isDeprecated : bool;
  filterBucket : FilterBucket;
  statusLabelKey : jstr;
  canUse : bool;
  canOpen : bool;
  canRemove : bool;
  lockReason : option LockStateKind;
  warningKey : option jstr
}.

Definition resolveMySkillRow (skill : MySkill) : MySkillRowView :=
  let state := deriveRowState skill in
  let deprecated := skillStatusOf skill === Some Deprecated in
  let open := skillStatusOf skill === Some Published in
  MkRowView state deprecated (filterBucketFor state deprecated) (STATUS_LABEL_KEY state)
    ((state === RExecutable) && open) open true (lockReasonFor state skill)
    (if deprecated then Some DEPRECATED_WARNING_KEY else None).

Definition skillKey (skill : MySkill) : jstr :=
  match ms_skill_id skill, ms_id skill with
  | Some i, _ => i
  | None, Some i => i
  | None, None => ms_slug skill
  end.

Definition rowMatchesFilter (view : MySkillRowView) (filter : option FilterBucket) : bool :=
  match filter with None => true | Some b => filterBucket view === b end.

(** ** Downloads: [download-utils.ts] *)

Definition is_separator (c : N) : bool := ((c =? 47) || (c =? 92))%N.
Definition is_quote (c : N) : bool := ((c =? 34) || (c =? 39))%N.

(** [s.replace(/[/\\]/g, '')]. *)
Definition strip_separators (s : jstr) : jstr := List.filter (fun c => negb (is_separator c)) s.

(** [s.replace(/^["']|["']$/g, '')]: the second alternative needs a unit that the
    first one has not taken. *)
Definition strip_quotes (s : jstr) : jstr :=
  let s1 := match s with c :: s' => if is_quote c then s' else s | [] => [] end in
  match last s1 with Some c => if is_quote c then removelast s1 else s1 | None => s1 end.

Definition sanitizeFilename (name : option jstr) (fallback : jstr) : jstr :=
  let safeFallbackBase := str_or (trim (strip_separators fallback)) (js "skill") in
  let fallbackName := if ends_with (js ".zip") safeFallbackBase then safeFallbackBase else safeFallbackBase ++ js ".zip" in
  match name with
  | None | Some [] => fallbackName
  | Some n =>
      let cleaned := trim (strip_separators (strip_quotes n)) in
      if truthy cleaned then cleaned else fallbackName
  end.

Record DownloadSkillError := MkDownloadError { e_code : json; e_message : json }.

(** [super(message || code)]. *)
Definition download_error (code : json) (message : option json) : DownloadSkillError :=
  MkDownloadError code (match message with Some m => if json_truthy m then m else code | None => code end).

(** The body of a failed response: a blob with the text it gave, a string, or a
    value. *)
Inductive ErrorBody := BodyBlob (text : option jstr) | BodyText (text : jstr) | BodyValue (v : option json).

(** [v?.error?.code] when it is truthy, with the message. *)
Definition error_envelope (v : json) : option DownloadSkillError :=
  let e := opt_prop (js "error") (Some v) in
  match opt_prop (js "code") e with
  | Some c => if json_truthy c then Some (download_error c (opt_prop (js "message") e)) else None
  | None => None
  end.

Definition DOWNLOAD_FAILED : DownloadSkillError := download_error (JStr (js "DOWNLOAD_FAILED")) None.

Definition extractDownloadError (data : ErrorBody) : DownloadSkillError :=
  let from_text t :=
    match t with
    | None | Some [] => DOWNLOAD_FAILED
    | Some s =>
        match JSON_parse s with
        | Ret v => default DOWNLOAD_FAILED (error_envelope v)
        | Throw => DOWNLOAD_FAILED
        end
    end in
  match data with
  | BodyBlob t => from_text t
  | BodyText t => from_text (Some t)
  | BodyValue (Some v) => default DOWNLOAD_FAILED (error_envelope v)
  | BodyValue None => DOWNLOAD_FAILED
  end.

(** ** Theorems *)

Lemma normalizeCTA_name c : c <> CtaView -> c <> CtaRemove -> normalizeCTA (Some (cta_name c)) = Some c.
Proof. destruct c; [done|..|done|]; intros _ _; vm_compute; reflexivity. Qed.

Lemma normalizeCTA_card a c : normalizeCTA a = Some c -> c <> CtaView /\ c <> CtaRemove.
Proof. destruct a as [a|]; [|done]. cbn [normalizeCTA]. intros H. apply find_some in H as [H _]. by destruct c; vm_compute in H; intuition. Qed.

(** Resolving again, for whatever user, changes nothing: the action is decided once. *)
Lemma resolve_idempotent skill user user' :
  resolveMarketplaceSkill (resolveMarketplaceSkill skill user) user' = resolveMarketplaceSkill skill user.
Proof.
  assert (exists c, cta (resolved_availability skill user) = Some (cta_name c) /\ c <> CtaView /\ c <> CtaRemove) as (c & Hc & Hv & Hr).
  { unfold resolved_availability. destruct (normalizeCTA _) as [c|] eqn:E; [exists c; split; [done|by eapply normalizeCTA_card]|].
    repeat (case_match; try by eexists; split). }
  unfold resolveMarketplaceSkill at 1. unfold resolved_availability at 1. cbn -[resolved_availability normalizeCTA].
  rewrite Hc, normalizeCTA_name by done. unfold resolveMarketplaceSkill. destruct (resolved_availability skill user). cbn in *. by subst.
Qed.

Definition resolved_cta (skill : MarketplaceSkill) (user : option jstr) : option SkillCTAAction :=
  normalizeCTA (cta (availability (resolveMarketplaceSkill skill user))).

(** Who can use a skill the server left open. *)
Definition entitled (skill : MarketplaceSkill) (user : option jstr) : Prop :=
  exists plan, userPlan user = Some plan /\ planLevel (sk_required_plan skill) <= planLevel plan /\
    sk_status skill <> Some Archived /\ sk_status skill <> Some Draft /\
    (sk_status skill = Some Deprecated -> is_on (enabled (availability skill)) = true).

(** When the server did not decide the action of a skill card, the card offers
    "use" or "enable" exactly to a signed-in user whose plan covers the skill and
    only for a skill that is published, or deprecated and already enabled; every
    other card is locked. *)
Lemma cta_gate skill user :
  normalizeCTA (cta (availability skill)) = None ->
  (resolved_cta skill user = Some CtaUse \/ resolved_cta skill user = Some CtaEnable <-> entitled skill user) /\
  (~ entitled skill user -> locked (availability (resolveMarketplaceSkill skill user)) = Some true).
Proof.
  intros Hn. unfold resolved_cta, resolveMarketplaceSkill, resolved_availability, entitled. rewrite Hn.
  cbn [availability sk_availability with_availability default]. unfold default, id.
  destruct user as [group|]; cbn [cta locked].
  2: { rewrite normalizeCTA_name by done. split; [|done]. split; [by intros [|]|by intros (p & Hp & _)]. }
  destruct (userPlan (Some group)) as [plan|] eqn:Hp; [|done].
  destruct ((sk_status skill === Some Archived) || (sk_status skill === Some Draft)) eqn:Ea.
  { cbn [cta locked]. rewrite normalizeCTA_name by done. split; [|done]. split; [by intros [|]|].
    intros (p & _ & _ & H1 & H2 & _). apply orb_true_iff in Ea as [Ea|Ea]; bools; congruence. }
  destruct ((sk_status skill === Some Deprecated) && negb (is_on (enabled (availability skill)))) eqn:Ed.
  { cbn [cta locked]. rewrite normalizeCTA_name by done. split; [|done]. split; [by intros [|]|].
    intros (p & _ & _ & _ & _ & H). bools. rewrite H in * by done. done. }
  unfold planSatisfied. destruct (planLevel (sk_required_plan skill) <=? planLevel plan) eqn:El; cbn [negb].
  2: { cbn [cta locked]. rewrite normalizeCTA_name by (by destruct (sk_required_plan skill === PlanEnterprise)). apply Nat.leb_gt in El. split; [|done]. split.
       - intros [H|H]; destruct (sk_required_plan skill === PlanEnterprise); discriminate.
       - intros (p & [= <-] & Hl & _). lia. }
  apply Nat.leb_le in El. bools.
  assert (exists p, Some plan = Some p /\ planLevel (sk_required_plan skill) <= planLevel p /\
    sk_status skill <> Some Archived /\ sk_status skill <> Some Draft /\
    (sk_status skill = Some Deprecated -> is_on (enabled (availability skill)) = true)) as He.
  { exists plan. repeat split; try done. intros Hs. rewrite Hs, js_eqb_refl in Ed. by destruct (is_on _). }
  destruct (is_on _ || _); cbn [cta locked]; rewrite normalizeCTA_name by done; (split; [split; auto|by intros []]).
Qed.

Lemma cta_gate_witness :
  let skill := MkSkill (js "1") (js "s") PlanPro (Some Published) None [] in
  (resolved_cta skill (Some (js "pro")) = Some CtaUse \/ resolved_cta skill (Some (js "pro")) = Some CtaEnable) <->
  entitled skill (Some (js "pro")).
Proof. cbn zeta. apply cta_gate. vm_compute. reflexivity. Defined.

(** A row of the user's skills never offers more than its lock allows: it can be
    used exactly when the skill is published, not locked and executable, it shows a
    lock reason exactly when its state is neither usable nor merely deprecated, and
    the deprecation warning does not depend on locks. *)
Lemma row_actions skill :
  let view := resolveMySkillRow skill in
  (canUse view = true <-> skillStatusOf skill = Some Published /\ ms_locked skill = false /\ ms_executable skill = true) /\
  (canUse view = true -> canOpen view = true /\ lockReason view = None /\ filterBucket view = BAvailable) /\
  (lockReason view = None <-> rowState view = RExecutable \/ rowState view = RDeprecated) /\
  (ms_locked skill = true -> lockReason view <> None) /\
  (isDeprecated view = true <-> skillStatusOf skill = Some Deprecated) /\
  (warningKey view <> None <-> isDeprecated view = true).
Proof.
  cbn zeta. unfold resolveMySkillRow, deriveRowState. cbn [canUse canOpen lockReason filterBucket rowState isDeprecated warningKey].
  unfold lockReasonFor.
  destruct (skillStatusOf skill) as [[]|];
    (destruct (ms_locked skill); [destruct (ms_lock skill) as [[]|]|destruct (ms_executable skill)]); vm_compute; naive_solver.
Qed.

Lemma status_value_concrete skill : skillStatusFilterValue skill <> FAll.
Proof. unfold skillStatusFilterValue. by repeat case_match. Qed.

(** The skills under one status. *)
Definition under (status : StatusFilter) (skills : list MarketplaceSkill) : list MarketplaceSkill :=
  List.filter (fun skill => skillStatusFilterValue skill === status) skills.

Lemma filter_under skills filters :
  mf_status filters <> FAll -> filterMarketplaceSkills skills filters = under (mf_status filters) skills.
Proof.
  intros H. unfold filterMarketplaceSkills. rewrite (js_eqb_ne _ _ H). cbn [negb andb].
  apply filter_ext. intros k. apply negb_involutive.
Qed.

Lemma under_partition skills :
  under FAvailable skills ++ under FEnabled skills ++ under FLocked skills ++ under FUnavailable skills ≡ₚ skills.
Proof.
  induction skills as [|k skills IH]; [done|]. pose proof (status_value_concrete k) as Hk. unfold under in *. cbn [List.filter].
  destruct (skillStatusFilterValue k); [done|..]; rewrite ?js_eqb_refl; repeat rewrite js_eqb_ne by done; cbn [app]; (etrans; [|constructor; exact IH]); [done|..].
  - symmetry. apply Permutation_middle.
  - rewrite (app_assoc _ _ (_ :: _)), (app_assoc _ _ (_ ++ _)). symmetry. apply Permutation_middle.
  - rewrite !app_assoc. symmetry. apply Permutation_middle.
Qed.

Definition with_status_filter (filters : MarketplaceFilters) (status : StatusFilter) : MarketplaceFilters :=
  MkFilters (mf_query filters) (mf_category filters) (mf_plan filters) status (mf_kidsSafeOnly filters).

(** The four status filters of the marketplace share the skills out: together
    they show every skill as often as it occurs, no skill appears under two of them,
    and "all" shows the list as it is. *)
Lemma status_filters_partition skills filters :
  let shown s := filterMarketplaceSkills skills (with_status_filter filters s) in
  shown FAvailable ++ shown FEnabled ++ shown FLocked ++ shown FUnavailable ≡ₚ skills /\ shown FAll = skills /\
  (forall s t skill, s <> FAll -> t <> FAll -> skill ∈ shown s -> skill ∈ shown t -> s = t).
Proof.
  cbn zeta. split; [|split].
  - rewrite !filter_under by done. apply under_partition.
  - by apply lfilter_id, Forall_forall.
  - intros s t k Hs Ht. rewrite !filter_under by done. unfold under. rewrite !elem_of_lfilter. intros [_ H1] [_ H2]. bools.
    cbn in *. congruence.
Qed.

Lemma strip_separators_safe s : Forall (fun c => is_separator c = false) (strip_separators s).
Proof. apply Forall_forall. intros c Hc. apply elem_of_lfilter in Hc as [_ Hc]. by apply negb_true_iff. Qed.

Lemma trim_forall (P : N -> Prop) s : Forall P s -> Forall P (trim s).
Proof.
  rewrite !Forall_forall. intros H c Hc. apply H. apply trim_incl. done.
Qed.

(** A downloaded package is saved under a name that is not blank and has no path
    separator, whatever name the server sends. *)
Lemma filename_safe name fallback :
  let f := sanitizeFilename name fallback in
  f <> [] /\ Forall (fun c => is_separator c = false) f.
Proof.
  cbn zeta. unfold sanitizeFilename.
  set (base := str_or (trim (strip_separators fallback)) (js "skill")).
  assert (base <> [] /\ Forall (fun c => is_separator c = false) base) as [Hb1 Hb2].
  { unfold base, str_or. destruct (truthy (trim (strip_separators fallback))) eqn:E.
    - split; [by apply truthy_true|]. apply trim_forall, strip_separators_safe.
    - split; [done|]. repeat constructor. }
  set (d := if ends_with _ base then base else _).
  assert (d <> [] /\ Forall (fun c => is_separator c = false) d) as Hd.
  { unfold d. destruct (ends_with _ base); [done|]. split; [by destruct base|]. apply Forall_app. split; [done|repeat constructor]. }
  destruct name as [[|c n]|]; [done| |done].
  destruct (truthy (trim (strip_separators (strip_quotes (c :: n))))) eqn:E; [|done].
  split; [by apply truthy_true|]. apply trim_forall, strip_separators_safe.
Qed.
