(* ===== verification/Verification.v ===== *)
(** * Secure verification

    Sensitive requests are made again after the user has proved who they are, with a
    code or a passkey: features/auth/secure-verification (api.ts and the hook
    use-secure-verification.ts) and lib/secure-verification.ts.  The hook's
    asynchronous functions are split at their awaits: a run of [executeVerification]
    is a value of the state, and the answers it waits for are events, so all their
    interleavings with the user's events are modelled. *)
From S2P Require Import Prelude Numbers Json.

(** ** Errors that ask for verification *)

(** A caught value: not an object, or an object with the response an HTTP error
    carries, if any: its status and its body. *)
Inductive caught : Type :=
| NotObject
| ErrorObject (response : option (Z * json)).

(** [error.response?.data?.k]. *)
Definition body_prop (k : jstr) (error : caught) : option json :=
  match error with
  | ErrorObject (Some (_, JObj data)) => obj_get k data
  | _ => None
  end.

Definition verificationCodes : list jstr :=
  [js "VERIFICATION_REQUIRED"; js "VERIFICATION_EXPIRED"; js "VERIFICATION_INVALID"].

Definition isVerificationRequiredError (error : caught) : bool :=
  match error with
  | NotObject => false
  | ErrorObject response =>
      match response with
      | Some (status, _) =>
          if negb (status =? 403)%Z then false
          else match body_prop (js "code") error with
               | Some (JStr code) => truthy code && mem code verificationCodes
               | _ => false
               end
      | None => false
      end
  end.

Record VerificationRequiredInfo : Type := MkInfo {
  vi_code : option json;
  vi_message : json;
  vi_required : bool
}.

Definition extractVerificationInfo (error : caught) : VerificationRequiredInfo :=
  MkInfo (body_prop (js "code") error)
    (match body_prop (js "message") error with
     | Some JNull | None => JStr (js "Secure verification is required")
     | Some m => m
     end)
    true.

(** ** Methods *)

Inductive VerificationMethod : Type := twofa | passkey.
#[export] Instance VerificationMethod_eq_dec : EqDecision VerificationMethod.
Proof. solve_decision. Defined.

Record VerificationMethods : Type := MkMethods {
  has2FA : bool;
  hasPasskey : bool;
  passkeySupported : bool
}.

Definition defaultMethods : VerificationMethods := MkMethods false false false.

(** The answer of a status request: [success] and [data?.enabled], each as a
    boolean; the request itself may fail. *)
Record status_answer : Type := MkStatus { a_success : bool; a_enabled : bool }.

(** [Promise.all] fails when one of the three fails. *)
Definition checkVerificationMethods (twoFA passkey' : outcome status_answer) (supported : outcome bool) : VerificationMethods :=
  try_catch
    (let! t := twoFA in let! p := passkey' in let! s := supported in
     Ret (MkMethods (a_success t && a_enabled t) (a_success p && a_enabled p) s))
    (MkMethods false false false).

Definition canUseMethod (methods : VerificationMethods) (method : VerificationMethod) : bool :=
  match method with
  | twofa => has2FA methods
  | passkey => hasPasskey methods && passkeySupported methods
  end.

Definition recommendedMethod (methods : VerificationMethods) : option VerificationMethod :=
  if hasPasskey methods && passkeySupported methods then Some passkey
  else if has2FA methods then Some twofa
  else None.

Definition hasAnyMethod (methods : VerificationMethods) : bool := has2FA methods || hasPasskey methods.

(** ** One verification *)

(** How [verify] ends. *)
Inductive verify_result : Type :=
| Accepted
| Refused (message : jstr).

(** The answer to a request: [data?.success] and [data?.message]. *)
Record answer : Type := MkAnswer { an_success : bool; an_message : option jstr }.

(** [verifyTwoFA]: the code to send, if there is one, and what the answer means. *)
Definition code_to_send (code : jstr) : option jstr :=
  let trimmed := trim code in if truthy trimmed then Some trimmed else None.

Definition NO_CODE : jstr := js "Please enter the verification code or backup code".

Definition read_answer (fallback : jstr) (a : answer) : verify_result :=
  if an_success a then Accepted else Refused (opt_str_or (an_message a) fallback).

Definition verifyTwoFA (post : jstr -> answer) (code : option jstr) : verify_result :=
  match code with
  | None => Refused NO_CODE
  | Some c =>
      match code_to_send c with
      | None => Refused NO_CODE
      | Some trimmed => read_answer (js "Verification failed") (post trimmed)
      end
  end.

(** What goes wrong in the passkey ceremony: an exception of the browser, by name,
    or another error with its message. *)
Inductive failure : Type :=
| DOMException (name message : jstr)
| Failure (message : jstr).

Definition failure_message (f : failure) : jstr :=
  match f with
  | Failure m => m
  | DOMException name m =>
      if name === js "NotAllowedError" then js "Passkey verification was cancelled or timed out"
      else if name === js "InvalidStateError" then js "Passkey verification is not available in the current state"
      else m
  end.

(** The steps of the ceremony, each of which may fail. *)
Record ceremony (options prepared credential assertion : Type) : Type := MkCeremony {
  supported_env : bool;                               (** [navigator.credentials] is there *)
  begin_ : failure + answer * options;                (** [beginPasskeyVerification] with its options *)
  prepare : options -> failure + prepared;            (** [prepareCredentialRequestOptions] *)
  get_credential : prepared -> failure + option credential;
  build : credential -> failure + option assertion;   (** [buildAssertionResult] *)
  finish : assertion -> failure + answer;
  complete_ : failure + answer
}.
Arguments supported_env {_ _ _ _} _.
Arguments begin_ {_ _ _ _} _.
Arguments prepare {_ _ _ _} _.
Arguments get_credential {_ _ _ _} _.
Arguments build {_ _ _ _} _.
Arguments finish {_ _ _ _} _.
Arguments complete_ {_ _ _ _} _.

Definition sbind {A B} (m : failure + A) (k : A -> failure + B) : failure + B :=
  match m with inl f => inl f | inr a => k a end.
Notation "'step!' x := m 'in' k" := (sbind m (fun x => k)) (at level 200, x name, right associativity) : js_scope.

(** [if (!r.success) throw new Error(r.message || fallback)]. *)
Definition ensure (fallback : jstr) (a : answer) : failure + unit :=
  if an_success a then inr tt else inl (Failure (opt_str_or (an_message a) fallback)).
Definition present {A} (message : jstr) (o : option A) : failure + A :=
  match o with Some a => inr a | None => inl (Failure message) end.

Definition verifyPasskey {O P C A} (c : ceremony O P C A) : verify_result :=
  if negb (supported_env c) then Refused (js "Passkey verification is not supported in this environment")
  else
    match
      (step! response := begin_ c in
       step! ok := ensure (js "Failed to start verification") response.1 in
       step! publicKey := prepare c response.2 in
       step! credential := get_credential c publicKey in
       step! credential := present (js "Passkey verification was cancelled") credential in
       step! assertion := build c credential in
       step! assertion := present (js "Unable to build Passkey assertion") assertion in
       step! finishResponse := finish c assertion in
       step! ok := ensure (js "Passkey verification failed") finishResponse in
       step! verifyResponse := complete_ c in
       ensure (js "Failed to complete verification") verifyResponse)
    with
    | inr _ => Accepted
    | inl f => Refused (failure_message f)
    end.

(** ** The hook *)

Section hook.
(** The protected requests. *)
Context {call : Type}.

Record InternalState : Type := MkInternal {
  vs_method : option VerificationMethod;
  vs_loading : bool;
  vs_code : jstr;
  vs_title : option jstr;
  vs_description : option jstr;
  vs_apiCall : option call
}.

Definition initialState : InternalState := MkInternal None false [] None None None.

Record StartVerificationOptions : Type := MkStart {
  preferredMethod : option VerificationMethod;
  so_title : option jstr;
  so_description : option jstr
}.

(** A run of [executeVerification] between its awaits: waiting for [verify], or for
    the protected request. *)
Inductive phase : Type := verifying | calling.

Record run_ : Type := MkRun {
  r_call : call;
  r_method : VerificationMethod;
  r_code : jstr;
  r_phase : phase
}.

(** What can be seen from outside, in order. *)
Inductive entry : Type :=
| LToast (message : jstr)
| LInfo (message : json)
| LPosted (code : jstr)                            (** a code is sent to the server *)
| LCalled (c : call)                               (** a protected request is made *)
| LSucceeded (c : call) (m : VerificationMethod)  (** [onSuccess] *)
| LFailed (message : jstr).                        (** [onError] *)

Record Hook : Type := MkHook {
  h_methods : VerificationMethods;
  h_state : InternalState;
  h_open : bool;
  h_attempts : list (call * StartVerificationOptions);  (** first attempts of [withVerification] under way *)
  h_starts : list (call * StartVerificationOptions);    (** [startVerification]s that wait for the methods *)
  h_runs : list run_;
  h_log : list entry
}.

(** The hook's options, as far as they matter: whether a run resets the hook. *)
Context (autoReset : bool) (successMessage : option jstr).

Definition set_state (f : InternalState -> InternalState) (h : Hook) : Hook :=
  MkHook (h_methods h) (f (h_state h)) (h_open h) (h_attempts h) (h_starts h) (h_runs h) (h_log h).
Definition set_open (b : bool) (h : Hook) : Hook :=
  MkHook (h_methods h) (h_state h) b (h_attempts h) (h_starts h) (h_runs h) (h_log h).
Definition set_attempts (l : list (call * StartVerificationOptions)) (h : Hook) : Hook :=
  MkHook (h_methods h) (h_state h) (h_open h) l (h_starts h) (h_runs h) (h_log h).
Definition set_starts (l : list (call * StartVerificationOptions)) (h : Hook) : Hook :=
  MkHook (h_methods h) (h_state h) (h_open h) (h_attempts h) l (h_runs h) (h_log h).
Definition set_runs (rs : list run_) (h : Hook) : Hook :=
  MkHook (h_methods h) (h_state h) (h_open h) (h_attempts h) (h_starts h) rs (h_log h).
Definition log (es : list entry) (h : Hook) : Hook :=
  MkHook (h_methods h) (h_state h) (h_open h) (h_attempts h) (h_starts h) (h_runs h) (h_log h ++ es).

Definition set_loading (b : bool) (s : InternalState) : InternalState :=
  MkInternal (vs_method s) b (vs_code s) (vs_title s) (vs_description s) (vs_apiCall s).

Definition fetchVerificationMethods (result : VerificationMethods) (h : Hook) : Hook :=
  MkHook result (h_state h) (h_open h) (h_attempts h) (h_starts h) (h_runs h) (h_log h).

Definition reset (h : Hook) : Hook := set_open false (set_state (fun _ => initialState) h).

Definition setCode (code : jstr) (h : Hook) : Hook :=
  set_state (fun s => MkInternal (vs_method s) (vs_loading s) code (vs_title s) (vs_description s) (vs_apiCall s)) h.

Definition switchMethod (method : VerificationMethod) (h : Hook) : Hook :=
  set_state (fun s => MkInternal (Some method) (vs_loading s) [] (vs_title s) (vs_description s) (vs_apiCall s)) h.

Definition cancel (h : Hook) : Hook := reset h.

(** The method the dialog starts with: [preferredMethod ?? null], or else the
    recommended one. *)
Definition defaultMethod (config : StartVerificationOptions) (available : VerificationMethods) : option VerificationMethod :=
  match preferredMethod config with
  | Some m => Some m
  | None => recommendedMethod available
  end.

(** [startVerification] once the methods are known. *)
Definition startVerification (apiCall : call) (config : StartVerificationOptions) (available : VerificationMethods)
    (h : Hook) : Hook * bool :=
  let h := fetchVerificationMethods available h in
  if negb (has2FA available) && negb (hasPasskey available) then
    (log [LToast (js "Please enable Two-factor Authentication or Passkey before proceeding");
          LFailed (js "No verification methods available. Enable 2FA or Passkey to continue.")] h, false)
  else
    (set_open true (set_state (fun prev =>
       MkInternal (defaultMethod config available) (vs_loading prev) (vs_code prev)
         (so_title config) (so_description config) (Some apiCall)) h), true).

(** Up to its await. *)
Definition start_requested (apiCall : call) (config : StartVerificationOptions) (h : Hook) : Hook :=
  set_starts (h_starts h ++ [(apiCall, config)]) h.

(** The methods for the start at position [i]. *)
Definition methods_answered (i : nat) (available : VerificationMethods) (h : Hook) : option Hook :=
  match h_starts h !! i with
  | None => None
  | Some (apiCall, config) => Some (startVerification apiCall config available (set_starts (delete i (h_starts h)) h)).1
  end.

(** [withVerification] makes the request at once, unverified. *)
Definition withVerification (apiCall : call) (config : StartVerificationOptions) (h : Hook) : Hook :=
  log [LCalled apiCall] (set_attempts (h_attempts h ++ [(apiCall, config)]) h).

(** The attempt at position [i] ends, with an error or without. *)
Definition attempt_answered (i : nat) (error : option caught) (h : Hook) : option Hook :=
  match h_attempts h !! i with
  | None => None
  | Some (apiCall, config) =>
      let h := set_attempts (delete i (h_attempts h)) h in
      Some (match error with
            | Some error =>
                if isVerificationRequiredError error
                then start_requested apiCall config (log [LInfo (vi_message (extractVerificationInfo error))] h)
                else h
            | None => h
            end)
  end.

(** [executeVerification] up to its first await. *)
Definition executeVerification (method : option VerificationMethod) (code : option jstr) (h : Hook) : Hook :=
  match vs_apiCall (h_state h) with
  | None => log [LToast (js "Verification is not configured properly")] h
  | Some apiCall =>
      let actualMethod := match method with Some m => Some m | None => vs_method (h_state h) end in
      match actualMethod with
      | None => log [LToast (js "Select a verification method first")] h
      | Some m =>
          let code := match code with Some c => c | None => vs_code (h_state h) end in
          log (match m, code_to_send code with twofa, Some trimmed => [LPosted trimmed] | _, _ => [] end)
            (set_runs (h_runs h ++ [MkRun apiCall m code verifying]) (set_state (set_loading true) h))
      end
  end.

(** [finally]. *)
Definition settle_run (h : Hook) : Hook := set_state (set_loading false) h.

Definition fail_run (message : jstr) (h : Hook) : Hook :=
  settle_run (log [LToast message; LFailed message] h).

(** The end of the try block. *)
Definition succeed_run (r : run_) (h : Hook) : Hook :=
  let h := log (match successMessage with
                | Some m => if truthy m then [LToast m] else []
                | None => [] end ++ [LSucceeded (r_call r) (r_method r)]) h in
  settle_run (if autoReset then reset h else h).

(** What comes back to a run that verifies: the answer to the code, or the error of
    the request; or how the passkey ceremony ended. *)
Inductive verify_reply : Type :=
| CodeReply (a : jstr + answer)
| PasskeyReply (v : verify_result).

(** How [verify] ends for the run: a blank code fails before anything is sent. *)
Definition verify (r : run_) (rp : verify_reply) : option verify_result :=
  match r_method r, rp with
  | twofa, CodeReply a =>
      Some (match code_to_send (r_code r), a with
            | None, _ => Refused NO_CODE
            | Some _, inl message => Refused message
            | Some _, inr a => read_answer (js "Verification failed") a
            end)
  | passkey, PasskeyReply v => Some v
  | _, _ => None
  end.

(** The reply to the run at position [i]: the protected request is made, or the run
    fails. *)
Definition verify_answered (i : nat) (rp : verify_reply) (h : Hook) : option Hook :=
  match h_runs h !! i with
  | Some r =>
      match r_phase r with
      | calling => None
      | verifying =>
          match verify r rp with
          | None => None
          | Some (Refused m) => Some (fail_run m (set_runs (delete i (h_runs h)) h))
          | Some Accepted =>
              Some (log [LCalled (r_call r)]
                (set_runs (<[i := MkRun (r_call r) (r_method r) (r_code r) calling]> (h_runs h)) h))
          end
      end
  | None => None
  end.

(** The protected request of the run at position [i] ends, with an error's message or
    a result. *)
Definition call_answered (i : nat) (error : option jstr) (h : Hook) : option Hook :=
  match h_runs h !! i with
  | Some r =>
      match r_phase r with
      | verifying => None
      | calling =>
          let h := set_runs (delete i (h_runs h)) h in
          Some (match error with Some m => fail_run m h | None => succeed_run r h end)
      end
  | None => None
  end.

(** *** Events *)

Inductive hook_event : Type :=
| EFetched (available : VerificationMethods)
| EStart (apiCall : call) (config : StartVerificationOptions)
| EMethods (i : nat) (available : VerificationMethods)
| EWith (apiCall : call) (config : StartVerificationOptions)
| EAttempted (i : nat) (error : option caught)
| EExecute (method : option VerificationMethod) (code : option jstr)
| ESetCode (code : jstr)
| ESwitch (method : VerificationMethod)
| ECancel
| ESetOpen (b : bool)
| EVerified (i : nat) (rp : verify_reply)
| EAnswered (i : nat) (error : option jstr).

Definition hook_step (e : hook_event) (h : Hook) : option Hook :=
  match e with
  | EFetched available => Some (fetchVerificationMethods available h)
  | EStart apiCall config => Some (start_requested apiCall config h)
  | EMethods i available => methods_answered i available h
  | EWith apiCall config => Some (withVerification apiCall config h)
  | EAttempted i error => attempt_answered i error h
  | EExecute method code => Some (executeVerification method code h)
  | ESetCode code => Some (setCode code h)
  | ESwitch method => Some (switchMethod method h)
  | ECancel => Some (cancel h)
  | ESetOpen b => Some (set_open b h)
  | EVerified i rp => verify_answered i rp h
  | EAnswered i error => call_answered i error h
  end.

Definition mounted : Hook := MkHook defaultMethods initialState false [] [] [] [].

Inductive hook_reachable : Hook -> Prop :=
| hook_mounted : hook_reachable mounted
| hook_event_step h e h' : hook_reachable h -> hook_step e h = Some h' -> hook_reachable h'.
End hook.
Arguments Hook call : clear implicits.
Arguments InternalState call : clear implicits.
Arguments run_ call : clear implicits.
Arguments entry call : clear implicits.
Arguments hook_event call : clear implicits.

(** ** Errors *)

Lemma required_exact error :
  isVerificationRequiredError error = true <->
  exists data code, error = ErrorObject (Some (403%Z, JObj data)) /\ obj_get (js "code") data = Some (JStr code) /\
    code ∈ verificationCodes.
Proof.
  split.
  - destruct error as [|[[status body]|]]; cbn [isVerificationRequiredError]; try done.
    destruct (Z.eqb_spec status 403) as [->|]; [|done]. cbn [negb body_prop].
    destruct body as [| | | | |data]; try done. destruct (obj_get (js "code") data) as [[| | |code| |]|] eqn:E; try done.
    rewrite andb_true_iff, mem_true. intros [_ H]. by exists data, code.
  - intros (data & code & -> & E & H). cbn [isVerificationRequiredError body_prop Z.eqb Pos.eqb negb]. rewrite E.
    apply andb_true_iff. split; [|by apply mem_true]. destruct code; [|done].
    apply mem_true in H. by vm_compute in H.
Qed.

(** ** The passkey ceremony *)

Lemma sbind_inr {A B} (m : failure + A) (k : A -> failure + B) b :
  sbind m k = inr b <-> exists a, m = inr a /\ k a = inr b.
Proof. destruct m; cbn [sbind]; naive_solver. Qed.

Lemma ensure_inr fallback a u : ensure fallback a = inr u <-> an_success a = true.
Proof. unfold ensure. destruct (an_success a), u; naive_solver. Qed.

Lemma present_inr {A} m (o : option A) a : present m o = inr a <-> o = Some a.
Proof. destruct o; cbn; naive_solver. Qed.

(** A passkey is accepted exactly when the browser has passkeys, the server
    started the ceremony, the browser gave a credential, the server accepted its
    assertion, and the server then recorded the verification; any failure on the way
    refuses it. *)
Lemma passkey_accepted_exact {O P C A} (c : ceremony O P C A) :
  verifyPasskey c = Accepted <->
  supported_env c = true /\
  exists started opts pk cred asrt finished recorded,
    begin_ c = inr (started, opts) /\ an_success started = true /\ prepare c opts = inr pk /\
    get_credential c pk = inr (Some cred) /\ build c cred = inr (Some asrt) /\
    finish c asrt = inr finished /\ an_success finished = true /\
    complete_ c = inr recorded /\ an_success recorded = true.
Proof.
  unfold verifyPasskey. destruct (supported_env c); cbn [negb]; [|naive_solver].
  match goal with |- context [match ?b with inl _ => _ | inr _ => _ end] => set (body := b) end.
  assert ((match body with inl f => Refused (failure_message f) | inr _ => Accepted end = Accepted) <-> body = inr tt) as ->
    by (destruct body as [f|[]]; naive_solver).
  unfold body. clear body. repeat setoid_rewrite sbind_inr. repeat setoid_rewrite ensure_inr. repeat setoid_rewrite present_inr.
  split.
  - intros ([st opts] & E1 & [] & S1 & pk & E2 & oc & E3 & cred & -> & oa & E4 & asrt & -> & fin & E5 & [] & S2 & rec & E6 & S3).
    split; [done|]. exists st, opts, pk, cred, asrt, fin, rec. repeat split; done.
  - intros (_ & st & opts & pk & cred & asrt & fin & rec & E1 & S1 & E2 & E3 & E4 & E5 & S2 & E6 & S3).
    exists (st, opts). split; [done|]. exists tt. split; [done|]. exists pk. split; [done|]. exists (Some cred). split; [done|].
    exists cred. split; [done|]. exists (Some asrt). split; [done|]. exists asrt. split; [done|]. exists fin. split; [done|].
    exists tt. split; [done|]. by exists rec.
Qed.

(** ** Invariants of the hook *)

Section properties.
Context {call : Type} (autoReset : bool) (successMessage : option jstr).
Implicit Types (h : Hook call) (c : call) (r : run_ call).
Local Notation step := (hook_step (call := call) autoReset successMessage).
Local Notation reach := (hook_reachable (call := call) autoReset successMessage).

Fixpoint run_events (es : list (hook_event call)) (h : Hook call) : option (Hook call) :=
  match es with
  | [] => Some h
  | e :: es' => match step e h with Some h' => run_events es' h' | None => None end
  end.

Lemma run_events_snoc es e h h' h'' : run_events es h = Some h' -> step e h' = Some h'' -> run_events (es ++ [e]) h = Some h''.
Proof.
  revert h. induction es as [|x es IH]; intros h; cbn [run_events app]; [by intros [= ->] ->|].
  destruct (step x h); [apply IH|done].
Qed.

(** *** What is called was verified *)

(** The reply by which a method is accepted. *)
Definition accepts (m : VerificationMethod) (rp : verify_reply) : Prop :=
  match m, rp with
  | twofa, CodeReply (inr a) => an_success a = true
  | passkey, PasskeyReply Accepted => True
  | _, _ => False
  end.

(** The request was handed to the hook in [es]. *)
Definition handed_over (es : list (hook_event call)) (c : call) : Prop :=
  exists config, EStart c config ∈ es \/ EWith c config ∈ es.

(** In [es] the user has confirmed the dialog of request [c] with the method [m], and
    with a code that is not blank if that is the method. *)
Definition confirmed (es : list (hook_event call)) (c : call) (m : VerificationMethod) (code : jstr) : Prop :=
  exists es0 method code0 es1 h0, es = es0 ++ EExecute method code0 :: es1 /\ run_events es0 mounted = Some h0 /\
    handed_over es0 c /\ vs_apiCall (h_state h0) = Some c /\
    match method with Some m' => m' = m | None => vs_method (h_state h0) = Some m end /\
    code = match code0 with Some t => t | None => vs_code (h_state h0) end.

(** The call of [c] at the end of [es] follows from an accepted verification. *)
Definition called_by (es : list (hook_event call)) (c : call) (m : VerificationMethod) : Prop :=
  exists es0 i rp h0 h1 code, es = es0 ++ [EVerified i rp] /\ run_events es0 mounted = Some h0 /\
    step (EVerified i rp) h0 = Some h1 /\ h_log h1 = h_log h0 ++ [LCalled c] /\
    accepts m rp /\ confirmed es0 c m code /\ (m = twofa -> trim code <> []).

Record runs_right (es : list (hook_event call)) (h : Hook call) : Prop := MkRunsRight {
  rr_attempts : forall c config, (c, config) ∈ h_attempts h -> handed_over es c;
  rr_starts : forall c config, (c, config) ∈ h_starts h -> handed_over es c;
  rr_dialog : forall c, vs_apiCall (h_state h) = Some c -> handed_over es c;
  rr_runs : forall r, r ∈ h_runs h -> confirmed es (r_call r) (r_method r) (r_code r);
  rr_calling : forall r, r ∈ h_runs h -> r_phase r = calling ->
    exists es0 es1, es = es0 ++ es1 /\ called_by es0 (r_call r) (r_method r)
}.

Lemma handed_more es e c : handed_over es c -> handed_over (es ++ [e]) c.
Proof. intros (config & H). exists config. rewrite !elem_of_app. tauto. Qed.

Lemma confirmed_more es e c m code : confirmed es c m code -> confirmed (es ++ [e]) c m code.
Proof.
  intros (es0 & method & code0 & es1 & h0 & -> & H). exists es0, method, code0, (es1 ++ [e]), h0.
  split; [by rewrite <-app_assoc|done].
Qed.

Lemma delete_sub {A} (l : list A) i x : x ∈ delete i l -> x ∈ l.
Proof.
  revert i. induction l as [|y l IH]; intros [|i] H; cbn in H; [set_solver|set_solver|by right|].
  apply elem_of_cons in H as [->|H]; [left|]. right. by eapply IH.
Qed.

(** A step after which every attempt, start, dialog and run was there before. *)
Lemma right_sub es e h h' : runs_right es h ->
  (forall x, x ∈ h_attempts h' -> x ∈ h_attempts h) -> (forall x, x ∈ h_starts h' -> x ∈ h_starts h) ->
  (forall c, vs_apiCall (h_state h') = Some c -> vs_apiCall (h_state h) = Some c) ->
  (forall r, r ∈ h_runs h' -> r ∈ h_runs h) -> runs_right (es ++ [e]) h'.
Proof.
  intros [H1 H2 H3 H4 H5] Ha Hs Hd Hr. constructor.
  - intros c config H%Ha. by eapply handed_more, H1.
  - intros c config H%Hs. by eapply handed_more, H2.
  - intros c H%Hd. by apply handed_more, H3.
  - intros r H%Hr. by apply confirmed_more, H4.
  - intros r H%Hr Hp. destruct (H5 r H Hp) as (es0 & es1 & -> & Hc). exists es0, (es1 ++ [e]). by rewrite app_assoc.
Qed.

Lemma accepted_reply r rp : verify r rp = Some Accepted -> accepts (r_method r) rp /\ (r_method r = twofa -> trim (r_code r) <> []).
Proof.
  unfold verify, accepts. destruct (r_method r), rp as [a|v]; try done; [|by intros [= ->]].
  unfold code_to_send. destruct (truthy (trim (r_code r))) eqn:E; [|done]. apply truthy_true in E.
  destruct a as [|a]; [done|]. unfold read_answer. by destruct (an_success a).
Qed.

Lemma verified_cases i rp h h' : verify_answered i rp h = Some h' ->
  (exists m, h' = fail_run m (set_runs (delete i (h_runs h)) h)) \/
  (exists r, h_runs h !! i = Some r /\ accepts (r_method r) rp /\ (r_method r = twofa -> trim (r_code r) <> []) /\
     h' = log [LCalled (r_call r)] (set_runs (<[i := MkRun (r_call r) (r_method r) (r_code r) calling]> (h_runs h)) h)).
Proof.
  unfold verify_answered. destruct (h_runs h !! i) as [r|]; [|done]. destruct (r_phase r); [|done].
  destruct (verify r rp) as [[|m]|] eqn:E; [| |done]; intros [= <-]; [right|left; by eexists].
  exists r. by destruct (accepted_reply r rp E).
Qed.

Lemma verified_right es i rp h h' : run_events es mounted = Some h -> runs_right es h ->
  verify_answered i rp h = Some h' -> runs_right (es ++ [EVerified i rp]) h'.
Proof.
  intros He Hr Hs. pose proof Hs as Hv. apply verified_cases in Hv as [(m & ->)|(r & Hi & Ha & Hc & ->)].
  { apply (right_sub es _ h); [done|done|done|done|]. intros r. apply delete_sub. }
  pose proof (list_elem_of_lookup_2 _ _ _ Hi) as Hin. set (r' := MkRun (r_call r) (r_method r) (r_code r) calling) in *.
  assert (forall x, x ∈ <[i := r']> (h_runs h) -> x = r' \/ x ∈ h_runs h) as Hx.
  { intros x [j Hj]%list_elem_of_lookup. destruct (decide (i = j)) as [<-|Hne].
    - rewrite list_lookup_insert_eq in Hj by (by eapply lookup_lt_Some). injection Hj as <-. by left.
    - rewrite list_lookup_insert_ne in Hj by done. apply list_elem_of_lookup_2 in Hj. by right. }
  destruct (right_sub es (EVerified i rp) h h Hr) as [H1 H2 H3 H4 H5]; [done..|].
  constructor; cbn [h_attempts h_starts h_state h_runs log set_runs]; [done|done|done| |].
  - intros x [->|H]%Hx; [by apply (H4 r)|by apply H4].
  - intros x [->|H]%Hx Hp; [|by apply H5]. exists (es ++ [EVerified i rp]), []. rewrite app_nil_r. split; [done|].
    exists es, i, rp, h. eexists _, (r_code r). split; [done|]. split; [done|]. split; [exact Hs|]. split; [done|].
    split; [done|]. split; [|done]. exact (rr_runs _ _ Hr r Hin).
Qed.

Lemma execute_right es method code h : run_events es mounted = Some h -> runs_right es h ->
  runs_right (es ++ [EExecute method code]) (executeVerification method code h).
Proof.
  intros He Hr. unfold executeVerification. destruct (vs_apiCall (h_state h)) as [c|] eqn:Ec; [|by apply (right_sub es _ h)].
  destruct (match method with Some m => Some m | None => _ end) as [m|] eqn:Em; [|by apply (right_sub es _ h)].
  destruct (right_sub es (EExecute method code) h h Hr) as [H1 H2 H3 H4 H5]; [done..|].
  constructor; cbn [h_attempts h_starts h_state h_runs log set_runs set_state set_loading vs_apiCall]; [done|done|done| |].
  - intros r [H|H%list_elem_of_singleton]%elem_of_app; [by apply H4|]. subst r.
    exists es, method, code, [], h. do 3 (split; [done || by apply Hr|]). split; [done|]. split; [|done].
    destruct method; by simplify_eq.
  - intros r [H|H%list_elem_of_singleton]%elem_of_app; [by apply H5|by subst r].
Qed.

Lemma runs_after es h : run_events es mounted = Some h -> runs_right es h.
Proof.
  revert h. induction es as [|e es IH] using rev_ind; intros h He.
  { injection He as <-. constructor; cbn; set_solver. }
  assert (exists h0, run_events es mounted = Some h0 /\ step e h0 = Some h) as (h0 & He0 & Hs).
  { clear IH. revert He. generalize (mounted (call := call)). induction es as [|x es IHe]; intros h1; cbn [run_events app].
    - destruct (step e h1) eqn:E; [|done]. intros [= ->]. eauto.
    - destruct (step x h1); [apply IHe|done]. }
  specialize (IH h0 He0). destruct e; cbn [hook_step] in Hs; try (injection Hs as <-; by apply (right_sub es _ h0)).
  - injection Hs as <-. destruct (right_sub es (EStart apiCall config) h0 h0 IH) as [H1 H2 H3 H4 H5]; [done..|].
    constructor; cbn [h_attempts h_starts h_state h_runs start_requested set_starts]; try done.
    intros c cf [H|H%list_elem_of_singleton]%elem_of_app; [by eapply H2|]. injection H as -> ->. exists config. set_solver.
  - unfold methods_answered in Hs. destruct (h_starts h0 !! i) as [[c cf]|] eqn:Ei; [|done]. injection Hs as <-.
    apply list_elem_of_lookup_2 in Ei. unfold startVerification. cbv zeta. destruct (_ && _); cbn [fst].
    + apply (right_sub es _ h0); [done|done| |done|done]. intros x. apply delete_sub.
    + destruct (right_sub es (EMethods i available) h0 h0 IH) as [H1 H2 H3 H4 H5]; [done..|].
      constructor; cbn [h_attempts h_starts h_state h_runs set_open set_state fetchVerificationMethods set_starts vs_apiCall]; try done.
      * intros x xf H%delete_sub. by eapply H2.
      * intros x [= ->]. by eapply H2.
  - injection Hs as <-. destruct (right_sub es (EWith apiCall config) h0 h0 IH) as [H1 H2 H3 H4 H5]; [done..|].
    constructor; cbn [h_attempts h_starts h_state h_runs withVerification log set_attempts]; try done.
    intros c cf [H|H%list_elem_of_singleton]%elem_of_app; [by eapply H1|]. injection H as -> ->. exists config. set_solver.
  - unfold attempt_answered in Hs. destruct (h_attempts h0 !! i) as [[c cf]|] eqn:Ei; [|done]. injection Hs as <-.
    apply list_elem_of_lookup_2 in Ei.
    destruct (right_sub es (EAttempted i error) h0 h0 IH) as [H1 H2 H3 H4 H5]; [done..|].
    assert (runs_right (es ++ [EAttempted i error]) (set_attempts (delete i (h_attempts h0)) h0)) as Hd.
    { apply (right_sub es _ h0); [done| |done|done|done]. intros x. apply delete_sub. }
    destruct error as [error|]; [|done]. destruct (isVerificationRequiredError error); [|done]. destruct Hd as [D1 D2 D3 D4 D5].
    constructor; cbn [h_attempts h_starts h_state h_runs start_requested log set_starts]; try done.
    intros x xf [H|H%list_elem_of_singleton]%elem_of_app; [by eapply D2|]. injection H as -> ->. by eapply H1.
  - injection Hs as <-. by apply execute_right.
  - by eapply verified_right.
  - revert Hs. unfold call_answered. destruct (h_runs h0 !! i) as [r|]; [|done]. destruct (r_phase r); [done|].
    destruct error; intros [= <-]; (apply (right_sub es _ h0); [done|..]); try done; try (intros x; apply delete_sub);
      unfold succeed_run; destruct autoReset; try done; intros x; apply delete_sub.
Qed.

(** Entries that are neither a request nor a success. *)
Definition quiet_entry (x : entry call) : Prop := match x with LCalled _ | LSucceeded _ _ => False | _ => True end.

(** What a step adds to the log. *)
Lemma step_logs e h h' : step e h = Some h' ->
  exists l, h_log h' = h_log h ++ l /\
    (Forall quiet_entry l \/
     (exists c config, e = EWith c config /\ l = [LCalled c]) \/
     (exists i rp r, e = EVerified i rp /\ l = [LCalled (r_call r)] /\ h_runs h !! i = Some r /\ accepts (r_method r) rp /\
        (r_method r = twofa -> trim (r_code r) <> [])) \/
     (exists i r l0, e = EAnswered i None /\ l = l0 ++ [LSucceeded (r_call r) (r_method r)] /\ Forall quiet_entry l0 /\
        h_runs h !! i = Some r /\ r_phase r = calling)).
Proof.
  intros Hs. assert (forall l, h_log h' = h_log h ++ l -> Forall quiet_entry l -> exists l, h_log h' = h_log h ++ l /\
    (Forall quiet_entry l \/ (exists c config, e = EWith c config /\ l = [LCalled c]) \/
     (exists i rp r, e = EVerified i rp /\ l = [LCalled (r_call r)] /\ h_runs h !! i = Some r /\ accepts (r_method r) rp /\
        (r_method r = twofa -> trim (r_code r) <> [])) \/
     (exists i r l0, e = EAnswered i None /\ l = l0 ++ [LSucceeded (r_call r) (r_method r)] /\ Forall quiet_entry l0 /\
        h_runs h !! i = Some r /\ r_phase r = calling))) as Hq by eauto.
  assert (h_log h' = h_log h -> h_log h' = h_log h ++ []) as Hnil by (intros ->; by rewrite app_nil_r).
  destruct e; cbn [hook_step] in Hs; try (injection Hs as <-; eapply Hq; [by apply Hnil|constructor]).
  - unfold methods_answered in Hs. destruct (h_starts h !! i) as [[c cf]|]; [|done]. injection Hs as <-.
    unfold startVerification in *. cbv zeta in *. destruct (_ && _); eapply Hq; [done|by repeat constructor|by apply Hnil|constructor].
  - injection Hs as <-. eexists. split; [done|]. right. left. eauto.
  - unfold attempt_answered in Hs. destruct (h_attempts h !! i) as [[c cf]|]; [|done]. injection Hs as <-.
    destruct error as [error|]; [|eapply Hq; [by apply Hnil|constructor]].
    destruct (isVerificationRequiredError error); eapply Hq; [done|by repeat constructor|by apply Hnil|constructor].
  - injection Hs as <-. unfold executeVerification in *. destruct (vs_apiCall _); [|eapply Hq; [done|by repeat constructor]].
    destruct (match method with Some m => Some m | None => _ end) as [m|]; [|eapply Hq; [done|by repeat constructor]].
    eapply Hq; [done|]. destruct m; [destruct (code_to_send _)|]; by repeat constructor.
  - apply verified_cases in Hs as [(m & ->)|(r & Hi & Ha & Hc & ->)]; [eapply Hq; [done|by repeat constructor]|].
    eexists. split; [done|]. right. right. left. eauto 10.
  - revert Hs Hq Hnil. unfold call_answered. destruct (h_runs h !! i) as [r|] eqn:Ei; [|done]. destruct (r_phase r) eqn:Ep; [done|].
    destruct error as [m|]; intros [= <-] Hq _; [eapply Hq; [done|by repeat constructor]|].
    eexists. split; [unfold succeed_run; by destruct autoReset|]. right. right. right.
    eexists i, r, _. split; [done|]. split; [done|]. split; [|done].
    destruct successMessage as [t|]; [destruct (truthy t)|]; by repeat constructor.
Qed.

(** C13: apart from the first, unverified attempt that withVerification makes at once,
    a protected request is only ever made by a step that takes up the acceptance of a
    verification, from the server for a code and of the ceremony for a passkey; the user
    had confirmed the dialog of that very request with that method before, with a code
    that is not blank if that is the method, and the request had been handed to the hook.
    Each acceptance makes one request. And success is only reported when a request ends
    without an error that was made in this way, with the method by which it was
    verified. *)
Theorem called_after_verified es e h h' :
  run_events es mounted = Some h -> step e h = Some h' ->
  exists l, h_log h' = h_log h ++ l /\
  (forall c, LCalled c ∈ l -> l = [LCalled c] /\
     ((exists config, e = EWith c config) \/ exists m, called_by (es ++ [e]) c m)) /\
  (forall c m, LSucceeded c m ∈ l ->
     (exists i, e = EAnswered i None) /\ exists es0 es1, es = es0 ++ es1 /\ called_by es0 c m).
Proof.
  intros He Hs. pose proof (runs_after es h He) as Hr. destruct (step_logs e h h' Hs) as (l & Hl & H). exists l. split; [done|].
  destruct H as [H|[(c & config & -> & ->)|[(i & rp & r & -> & -> & Hi & Ha & Hc)|(i & r & l0 & -> & -> & Hq & Hi & Hp)]]].
  - rewrite Forall_forall in H. by split; [intros c Hc%H|intros c m Hc%H].
  - split; [|intros x m Hx%list_elem_of_singleton; done]. intros x Hx%list_elem_of_singleton. injection Hx as ->. eauto.
  - split; [|intros x m Hx%list_elem_of_singleton; done]. intros x Hx%list_elem_of_singleton. injection Hx as ->.
    split; [done|]. right. exists (r_method r), es, i, rp, h, h', (r_code r). do 5 (split; [done|]). split; [|done].
    apply (rr_runs _ _ Hr). by eapply list_elem_of_lookup_2.
  - rewrite Forall_forall in Hq. split.
    + intros c [Hx%Hq|Hx%list_elem_of_singleton]%elem_of_app; done.
    + intros c m [Hx%Hq|Hx%list_elem_of_singleton]%elem_of_app; [done|]. injection Hx as -> ->. split; [by eexists|].
      apply (rr_calling _ _ Hr); [by eapply list_elem_of_lookup_2|done].
Qed.

(** *** Runs end *)

Definition is_answer (e : hook_event call) : Prop :=
  match e with EVerified _ _ | EAnswered _ _ => True | _ => False end.

(** The answers the runs still wait for. *)
Definition run_weight (r : run_ call) : nat := match r_phase r with verifying => 2 | calling => 1 end.
Definition weight (h : Hook call) : nat := list_sum (List.map run_weight (h_runs h)).

Lemma weight_bound h : weight h <= 2 * length (h_runs h).
Proof.
  unfold weight. induction (h_runs h) as [|r rs IH]; cbn [List.map length]; [done|].
  change (list_sum (run_weight r :: ?l)) with (run_weight r + list_sum l).
  assert (run_weight r <= 2) by (unfold run_weight; destruct (r_phase r); lia). lia.
Qed.

Lemma weight_split (rs : list (run_ call)) i r :
  rs !! i = Some r -> list_sum (List.map run_weight rs) = run_weight r + list_sum (List.map run_weight (delete i rs)).
Proof.
  revert i. induction rs as [|x rs IH]; intros [|i] H; [done|done|by injection H as ->|].
  cbn [List.map]. change (delete (S i) (x :: rs)) with (x :: delete i rs). cbn [List.map].
  change (list_sum (run_weight x :: ?l)) with (run_weight x + list_sum l). rewrite (IH i H). lia.
Qed.

Lemma weight_insert (rs : list (run_ call)) i r r' :
  rs !! i = Some r ->
  run_weight r + list_sum (List.map run_weight (<[i := r']> rs)) = run_weight r' + list_sum (List.map run_weight rs).
Proof.
  revert i. induction rs as [|x rs IH]; intros [|i] H; [done|done|..].
  - injection H as ->. cbn [list_insert insert List.map]. change (list_sum (?a :: ?l)) with (a + list_sum l). lia.
  - specialize (IH i H). change (<[S i := r']> (x :: rs)) with (x :: <[i := r']> rs). cbn [List.map].
    change (list_sum (run_weight x :: ?l)) with (run_weight x + list_sum l). lia.
Qed.

(** An answer brings the runs forward. *)
Lemma answer_progress e h h' : is_answer e -> step e h = Some h' -> weight h' < weight h.
Proof.
  intros Ha. destruct e; try done; cbn [hook_step].
  - unfold verify_answered. destruct (h_runs h !! i) as [r|] eqn:Ei; [|done]. destruct (r_phase r) eqn:Ep; [|done].
    unfold weight. destruct (verify r rp) as [[|m]|]; [| |done].
    + intros [= <-]. cbn [log set_runs h_runs].
      pose proof (weight_insert _ i r (MkRun (r_call r) (r_method r) (r_code r) calling) Ei) as H.
      unfold run_weight in H at 1 3. rewrite Ep in H. cbn [r_phase] in H. lia.
    + intros [= <-]. cbn [fail_run settle_run set_state log set_runs h_runs]. rewrite (weight_split _ i r Ei).
      unfold run_weight at 2. rewrite Ep. lia.
  - unfold call_answered. destruct (h_runs h !! i) as [r|] eqn:Ei; [|done]. destruct (r_phase r) eqn:Ep; [done|].
    intros [= <-]. unfold weight. rewrite (weight_split (h_runs h) i r Ei). unfold run_weight at 2. rewrite Ep.
    assert (h_runs (match error with Some m => fail_run m (set_runs (delete i (h_runs h)) h)
                                   | None => succeed_run autoReset successMessage r (set_runs (delete i (h_runs h)) h) end)
            = delete i (h_runs h)) as -> by (destruct error; [done|]; unfold succeed_run; by destruct autoReset).
    lia.
Qed.

Lemma answer_possible h : h_runs h <> [] -> exists e h', is_answer e /\ step e h = Some h'.
Proof.
  destruct (h_runs h) as [|r rs] eqn:E; [done|]. intros _. destruct (r_phase r) eqn:Ep.
  - exists (EVerified 0 (match r_method r with twofa => CodeReply (inl []) | passkey => PasskeyReply (Refused []) end)).
    unfold hook_step, verify_answered, verify. rewrite E. cbn. rewrite Ep.
    destruct (r_method r); [destruct (code_to_send _)|]; by eexists.
  - exists (EAnswered 0 None). unfold hook_step, call_answered. rewrite E. cbn. rewrite Ep. by eexists.
Qed.

(** The hook is busy only while there are runs. *)
Lemma idle_not_loading h : reach h -> h_runs h = [] -> vs_loading (h_state h) = false.
Proof.
  induction 1 as [|h e h' _ IH E]; [done|]. destruct e; cbn [hook_step] in E; try (injection E as <-; first [done | by apply IH]).
  - revert E. unfold methods_answered. destruct (h_starts h !! i) as [[]|]; [|done]. intros [= <-].
    unfold startVerification. cbv zeta. destruct (_ && _); by apply IH.
  - revert E. unfold attempt_answered. destruct (h_attempts h !! i) as [[]|]; [|done]. intros [= <-].
    destruct error as [error|]; [destruct (isVerificationRequiredError error)|]; by apply IH.
  - injection E as <-. unfold executeVerification. destruct (vs_apiCall _); [|by apply IH].
    destruct (match method with Some m => Some m | None => _ end); [|by apply IH].
    cbn [h_runs set_runs]. intros H. by destruct (h_runs h).
  - revert E. unfold verify_answered. destruct (h_runs h !! i) as [r|] eqn:Ei; [|done]. destruct (r_phase r); [|done].
    destruct (verify r rp) as [[|m]|]; [|by intros [= <-]|done].
    intros [= <-]. cbn [log set_runs h_runs]. intros H. apply (f_equal length) in H. rewrite length_insert in H. by destruct (h_runs h).
  - revert E. unfold call_answered. destruct (h_runs h !! i) as [r|] eqn:Ei; [|done]. destruct (r_phase r); [done|].
    destruct error; intros [= <-]; [done|]. unfold succeed_run. by destruct autoReset.
Qed.

Lemma run_events_reach es h h' : reach h -> run_events es h = Some h' -> reach h'.
Proof.
  revert h. induction es as [|e es IH]; intros h Hr; cbn [run_events]; [by intros [= <-]|].
  destruct (step e h) as [h1|] eqn:E; [|done]. apply IH. by eapply hook_event_step.
Qed.

Lemma run_events_weight es h h' :
  Forall is_answer es -> run_events es h = Some h' -> length es + weight h' <= weight h.
Proof.
  revert h. induction es as [|e es IH]; intros h Ha; cbn [run_events length]; [intros [= <-]; lia|].
  apply Forall_cons in Ha as [He Ha]. destruct (step e h) as [h1|] eqn:E; [|done].
  intros H%IH; [|done]. apply answer_progress in E; [|done]. lia.
Qed.

(** C40: the hook always comes to rest.  From any state, after any answers that
    arrive, either no run is left and the hook is not loading, or another answer can
    arrive; and no more than two answers per run can, so once all have arrived the
    hook is idle. *)
Theorem verification_settles h es h' :
  reach h -> Forall is_answer es -> run_events es h = Some h' ->
  length es <= 2 * length (h_runs h) /\
  (h_runs h' = [] /\ vs_loading (h_state h') = false \/
   exists e h'', is_answer e /\ step e h' = Some h'').
Proof.
  intros Hr Ha E. split.
  - pose proof (run_events_weight es h h' Ha E). pose proof (weight_bound h). lia.
  - apply (run_events_reach es h h' Hr) in E. destruct (h_runs h') eqn:Er.
    + left. split; [done|]. by apply idle_not_loading.
    + right. apply answer_possible. by rewrite Er.
Qed.
End properties.

(** ** Examples *)

Definition with_code : VerificationMethods := MkMethods true false false.
Definition no_config : StartVerificationOptions := MkStart None None None.

(** The server asks for a verification. *)
Definition required : caught :=
  ErrorObject (Some (403%Z, JObj [(js "code", JStr (js "VERIFICATION_REQUIRED"))])).

(** The request 7 is tried, verified with a code and made. *)
Definition one_run : list (hook_event N) :=
  [EWith 7%N no_config; EAttempted 0 (Some required); EMethods 0 with_code; ESetCode (js "123456"); EExecute None None;
   EVerified 0 (CodeReply (inr (MkAnswer true None)))].

Definition after (es : list (hook_event N)) : Hook N :=
  match run_events true None es mounted with Some h => h | None => mounted end.

Lemma after_reachable (es : list (hook_event N)) (h : Hook N) : run_events true None es mounted = Some h -> hook_reachable true None h.
Proof. apply run_events_reach. constructor. Qed.

Lemma one_run_reachable : hook_reachable true None (after one_run).
Proof. apply (after_reachable one_run). vm_compute. reflexivity. Qed.

Definition before_reply : list (hook_event N) := take 5 one_run.
Definition accepted_code : verify_reply := CodeReply (inr (MkAnswer true None)).

Lemma called_after_verified_witness :
  (exists m, called_by true None one_run 7%N m) /\
  exists es0 es1, one_run = es0 ++ es1 /\ called_by true None es0 7%N twofa.
Proof.
  split.
  - destruct (called_after_verified true None before_reply (EVerified 0 accepted_code) (after before_reply) (after one_run))
      as (l & Hl & H & _); [vm_compute; reflexivity..|].
    assert (l = [LCalled 7%N]) as ->.
    { apply (app_inv_head (h_log (after before_reply))). rewrite <-Hl. vm_compute. reflexivity. }
    destruct (H 7%N) as (_ & [(config & Hc)|Hm]); [by left|discriminate Hc|exact Hm].
  - destruct (called_after_verified true None one_run (EAnswered 0 None) (after one_run) (after (one_run ++ [EAnswered 0 None])))
      as (l & Hl & _ & H); [vm_compute; reflexivity..|].
    assert (l = [LSucceeded 7%N twofa]) as ->.
    { apply (app_inv_head (h_log (after one_run))). rewrite <-Hl. vm_compute. reflexivity. }
    destruct (H 7%N twofa) as (_ & Hm); [by left|exact Hm].
Defined.

Lemma verification_settles_witness :
  length [EAnswered (call := N) 0 None] <= 2 * length (h_runs (after one_run)) /\
  (h_runs (after (one_run ++ [EAnswered 0 None])) = [] /\
   vs_loading (h_state (after (one_run ++ [EAnswered 0 None]))) = false \/
   exists e h'', is_answer e /\ hook_step true None e (after (one_run ++ [EAnswered 0 None])) = Some h'').
Proof.
  apply (verification_settles true None (after one_run) [EAnswered 0 None] (after (one_run ++ [EAnswered 0 None]))).
  - apply one_run_reachable.
  - repeat constructor.
  - vm_compute. reflexivity.
Defined.

(** Cancelling does not stop a run: closing the dialog while the code is checked
    still makes the request when the answer comes. *)
Lemma cancelled_run_continues :
  let h := after [EStart 7%N no_config; EMethods 0 with_code; ESetCode (js "123456"); EExecute None None;
                  ECancel; EVerified 0 accepted_code; EAnswered 0 None] in
  h_log h = [LPosted (js "123456"); LCalled 7%N; LSucceeded 7%N twofa].
Proof. vm_compute. reflexivity. Qed.

(** And a run that ends late resets the hook under the next verification: the dialog
    opened for request 8 closes, and its request is forgotten. *)
Lemma late_run_resets_next :
  let h := after [EStart 7%N no_config; EMethods 0 with_code; ESetCode (js "123456"); EExecute None None; ECancel;
                  EStart 8%N no_config; EMethods 0 with_code; EVerified 0 accepted_code; EAnswered 0 None] in
  h_open h = false /\ vs_apiCall (h_state h) = None.
Proof. split; vm_compute; reflexivity. Qed.

(** While a second run is under way the hook does not show it, once the first ended. *)
Lemma loading_hides_second_run :
  let h := after [EStart 7%N no_config; EMethods 0 with_code; ESetCode (js "123456"); EExecute None None; ECancel;
                  EStart 8%N no_config; EMethods 0 with_code; ESetCode (js "654321"); EExecute None None;
                  EVerified 0 (CodeReply (inl []))] in
  vs_loading (h_state h) = false /\ length (h_runs h) = 1.
Proof. split; vm_compute; reflexivity. Qed.

Lemma passkey_ceremony_accepted :
  let ok := MkAnswer true None in
  let c := MkCeremony N N N N true (inr (ok, 1%N)) inr (fun o => inr (Some o)) (fun x => inr (Some x)) (fun _ => inr ok) (inr ok) in
  verifyPasskey c = Accepted.
Proof. vm_compute. reflexivity. Qed.
