(* ===== verification/Passkey.v ===== *)
(** * Passkeys

    [lib/passkey.ts]: buffers as base64url texts, the options of a credential as the
    browser wants them, the payloads made of a credential, and the test for support;
    and the ceremony of [features/auth/secure-verification/api.ts] run with them.

    An [ArrayBuffer] is a list of bytes.  The credential interface of the browser is
    an argument, and so are the messages of the errors the browser itself throws. *)
From S2P Require Import Prelude Regex Numbers Json JsonRoundtrip Encoding Verification.

Section passkey.
Context (h : host) (decode_error type_error : jstr).

(** ** Buffers *)

Definition UNSUPPORTED_DECODING : jstr := js "Base64 decoding is not supported in this environment".
Definition UNSUPPORTED_ENCODING : jstr := js "Base64 encoding is not supported in this environment".

Definition decode (input : jstr) : failure + list N :=
  if has_base64 h then
    match atob input with Ret b => inr b | Throw => inl (DOMException (js "InvalidCharacterError") decode_error) end
  else match buffer h with Some f => inr (f input) | None => inl (Failure UNSUPPORTED_DECODING) end.

Definition encode (input : list N) : failure + jstr :=
  if has_base64 h then
    match btoa input with Ret s => inr s | Throw => inl (DOMException (js "InvalidCharacterError") decode_error) end
  else match buffer h with Some _ => inr (base64 input) | None => inl (Failure UNSUPPORTED_ENCODING) end.

(** [s.replace(/a/g, b)] for one unit. *)
Definition replace_unit (a b : N) (s : jstr) : jstr := List.map (fun c => if (c =? a)%N then b else c) s.

Definition padding (n : nat) : jstr := replicate ((4 - n mod 4) mod 4) 61%N.

(** The value may be anything the server sent; one without a length gets no
    padding. *)
Definition base64UrlToArrayBuffer (value : option json) : failure + list N :=
  match value with
  | None => inr []
  | Some v =>
      if negb (json_truthy v) then inr []
      else
        let padding := match v with JStr s => padding (length s) | JArr l => padding (length l) | _ => [] end in
        match to_String v with
        | Throw => inl (Failure type_error)
        | Ret s => decode (replace_unit 95 47 (replace_unit 45 43 (s ++ padding)))
        end
  end.

(** [/=+$/] *)
Fixpoint drop_equals (s : jstr) : jstr :=
  match s with c :: s' => if (c =? 61)%N then drop_equals s' else s | [] => [] end.
Definition strip_padding (s : jstr) : jstr := rev (drop_equals (rev s)).

Definition arrayBufferToBase64Url (buffer : option (list N)) : failure + jstr :=
  match buffer with
  | None => inr []
  | Some bytes =>
      step! s := encode bytes in
      inr (strip_padding (replace_unit 47 95 (replace_unit 43 45 s)))
  end.

(** ** Options of a credential

    What the browser gets: values as the server sent them, buffers, and the objects
    and arrays that hold them. *)
Inductive value : Type :=
| VJson (v : json)
| VBuffer (b : list N)
| VObj (o : list (jstr * value))
| VArr (l : list value).

Definition copy (v : option json) : list (jstr * value) :=
  match v with Some v => List.map (fun kv => (kv.1, VJson kv.2)) (spread v) | None => [] end.

(** [v.k], where null has no properties. *)
Definition property_of (k : jstr) (v : json) : failure + option json :=
  match v with JNull => inl (Failure type_error) | _ => inr (opt_prop k (Some v)) end.

(** [a ?? b] *)
Definition coalesce (a b : option json) : option json :=
  match a with None | Some JNull => b | _ => a end.

Definition response_options (payload : option json) : option json :=
  coalesce (opt_prop (js "publicKey") payload)
    (coalesce (opt_prop (js "PublicKey") payload)
      (coalesce (opt_prop (js "response") payload) (opt_prop (js "Response") payload))).

(** [{ ...item, id: base64UrlToArrayBuffer(item.id) }] *)
Definition with_buffer_id (item : json) : failure + value :=
  step! id := property_of (js "id") item in
  step! id := base64UrlToArrayBuffer id in
  inr (VObj (obj_set (js "id") (VBuffer id) (copy (Some item)))).

Fixpoint all_items (l : list json) : failure + list value :=
  match l with
  | [] => inr []
  | item :: l' => step! v := with_buffer_id item in step! vs := all_items l' in inr (v :: vs)
  end.

(** The list under a key, if there is one, with its identifiers as buffers. *)
Definition with_credentials (key : jstr) (options : json) (publicKey : list (jstr * value))
    : failure + list (jstr * value) :=
  match opt_prop key (Some options) with
  | Some (JArr l) => step! l := all_items l in inr (obj_set key (VArr l) publicKey)
  | _ => inr publicKey
  end.

Definition truthy_options (message : jstr) (options : option json) : failure + json :=
  match options with
  | Some v => if json_truthy v then inr v else inl (Failure message)
  | None => inl (Failure message)
  end.

Definition prepareCredentialCreationOptions (payload : option json) : failure + list (jstr * value) :=
  step! options := truthy_options (js "Unable to parse Passkey registration options from response") (response_options payload) in
  step! challenge := base64UrlToArrayBuffer (opt_prop (js "challenge") (Some options)) in
  let user := opt_prop (js "user") (Some options) in
  step! user_id := base64UrlToArrayBuffer (opt_prop (js "id") user) in
  let publicKey := obj_set (js "user") (VObj (obj_set (js "id") (VBuffer user_id) (copy user)))
                     (obj_set (js "challenge") (VBuffer challenge) (copy (Some options))) in
  step! publicKey := with_credentials (js "excludeCredentials") options publicKey in
  inr (match opt_prop (js "attestationFormats") (Some options) with
       | Some (JArr []) => obj_delete (js "attestationFormats") publicKey
       | _ => publicKey
       end).

Definition prepareCredentialRequestOptions (payload : option json) : failure + list (jstr * value) :=
  step! options := truthy_options (js "Unable to parse Passkey login options from response") (response_options payload) in
  step! challenge := base64UrlToArrayBuffer (opt_prop (js "challenge") (Some options)) in
  let publicKey := obj_set (js "challenge") (VBuffer challenge) (copy (Some options)) in
  with_credentials (js "allowCredentials") options publicKey.

(** ** Payloads of a credential *)

Record Credential (response : Type) : Type := MkCredential {
  cr_id : jstr;
  cr_rawId : list N;
  cr_type : jstr;
  cr_attachment : option jstr;
  cr_response : response;
  cr_extensions : option json      (** [getClientExtensionResults], where there is one *)
}.
Arguments cr_id {_} _.
Arguments cr_rawId {_} _.
Arguments cr_type {_} _.
Arguments cr_attachment {_} _.
Arguments cr_response {_} _.
Arguments cr_extensions {_} _.

Record Attestation : Type := MkAttestation {
  at_attestationObject : list N;
  at_clientDataJSON : list N;
  at_transports : option (list jstr)
}.

Record Assertion : Type := MkAssertion {
  as_authenticatorData : list N;
  as_clientDataJSON : list N;
  as_signature : list N;
  as_userHandle : option (list N)
}.

Definition null_or (s : option jstr) : json := match s with Some s => JStr s | None => JNull end.

(** The outer object; an undefined property is not sent and is left out. *)
Definition credential_payload {R} (credential : Credential R) (rawId : jstr) (response : list (jstr * json)) : json :=
  JObj [(js "id", JStr (cr_id credential));
        (js "rawId", JStr rawId);
        (js "type", JStr (cr_type credential));
        (js "authenticatorAttachment", null_or (cr_attachment credential));
        (js "response", JObj response);
        (js "clientExtensionResults", match coalesce (cr_extensions credential) None with Some v => v | None => JObj [] end)].

Definition buildRegistrationResult (credential : option (Credential Attestation)) : failure + option json :=
  match credential with
  | None => inr None
  | Some c =>
      let response := cr_response c in
      step! rawId := arrayBufferToBase64Url (Some (cr_rawId c)) in
      step! attestationObject := arrayBufferToBase64Url (Some (at_attestationObject response)) in
      step! clientDataJSON := arrayBufferToBase64Url (Some (at_clientDataJSON response)) in
      inr (Some (credential_payload c rawId
        ([(js "attestationObject", JStr attestationObject); (js "clientDataJSON", JStr clientDataJSON)] ++
         match at_transports response with Some l => [(js "transports", JArr (List.map JStr l))] | None => [] end)))
  end.

Definition buildAssertionResult (credential : option (Credential Assertion)) : failure + option json :=
  match credential with
  | None => inr None
  | Some c =>
      let response := cr_response c in
      step! rawId := arrayBufferToBase64Url (Some (cr_rawId c)) in
      step! authenticatorData := arrayBufferToBase64Url (Some (as_authenticatorData response)) in
      step! clientDataJSON := arrayBufferToBase64Url (Some (as_clientDataJSON response)) in
      step! signature := arrayBufferToBase64Url (Some (as_signature response)) in
      step! userHandle := match as_userHandle response with
                          | Some b => step! s := arrayBufferToBase64Url (Some b) in inr (JStr s)
                          | None => inr JNull
                          end in
      inr (Some (credential_payload c rawId
        [(js "authenticatorData", JStr authenticatorData); (js "clientDataJSON", JStr clientDataJSON);
         (js "signature", JStr signature); (js "userHandle", userHandle)]))
  end.

(** ** Support *)

(** What the window offers: the two tests of [PublicKeyCredential], where they are
    functions, with what they answer. *)
Record credentials_api : Type := MkCredentialsApi {
  isConditionalMediationAvailable : option (outcome bool);
  isUserVerifyingPlatformAuthenticatorAvailable : option (outcome bool)
}.

Definition isPasskeySupported (window : option (option credentials_api)) : bool :=
  match window with
  | None | Some None => false
  | Some (Some api) =>
      let available := match isConditionalMediationAvailable api with
                       | Some answer => try_catch answer false
                       | None => false
                       end in
      if available then true
      else match isUserVerifyingPlatformAuthenticatorAvailable api with
           | Some answer => try_catch answer false
           | None => true
           end
  end.

(** ** The verification ceremony with these functions *)

(** [beginResponse.data?.options ?? beginResponse.data] *)
Definition begin_options (data : option json) : option json := coalesce (opt_prop (js "options") data) data.

Definition passkey_ceremony (supported : bool) (begin_ : failure + answer * option json)
    (get_credential : list (jstr * value) -> failure + option (Credential Assertion))
    (finish : json -> failure + answer) (complete_ : failure + answer)
    : ceremony (option json) (list (jstr * value)) (Credential Assertion) json :=
  MkCeremony _ _ _ _ supported begin_ (fun data => prepareCredentialRequestOptions (begin_options data))
    get_credential (fun c => buildAssertionResult (Some c)) finish complete_.

(** ** Buffers are read back *)

Definition url_char (v : N) : N := if (v =? 62)%N then 45%N else if (v =? 63)%N then 95%N else b64_char v.
Definition url_text (b : list N) : jstr := List.map url_char (sixes b).

(** The alphabet of base64url. *)
Definition url_unit (c : N) : bool := is_word c || (c =? 45)%N.

Lemma url_checked v : (v < 64)%N ->
  replace_unit 47 95 (replace_unit 43 45 [b64_char v]) = [url_char v] /\
  replace_unit 95 47 (replace_unit 45 43 [url_char v]) = [b64_char v] /\
  url_char v <> 61%N /\ url_unit (url_char v) = true.
Proof.
  intros Hv.
  assert (forallb (fun n => let v := N.of_nat n in
    (replace_unit 47 95 (replace_unit 43 45 [b64_char v]) === [url_char v]) &&
    (replace_unit 95 47 (replace_unit 45 43 [url_char v]) === [b64_char v]) &&
    (url_char v !== 61%N) && url_unit (url_char v)) (seq 0 64) = true) as H by (vm_compute; reflexivity).
  rewrite forallb_forall in H. specialize (H (N.to_nat v)). cbv zeta in H. rewrite N2Nat.id in H.
  assert (In (N.to_nat v) (seq 0 64)) as Hin by (apply in_seq; lia).
  specialize (H Hin). rewrite !andb_true_iff, !negb_true_iff, !js_eqb_true, js_eqb_false in H. tauto.
Qed.

Lemma replace_app a b s t : replace_unit a b (s ++ t) = replace_unit a b s ++ replace_unit a b t.
Proof. apply map_app. Qed.

Lemma replace_map a b c d (f g : N -> N) vs :
  Forall (fun v => replace_unit a b (replace_unit c d [f v]) = [g v]) vs ->
  replace_unit a b (replace_unit c d (List.map f vs)) = List.map g vs.
Proof.
  induction 1 as [|v vs Hv _ IH]; [done|]. cbn [List.map]. change (f v :: ?t) with ([f v] ++ t).
  by rewrite !replace_app, Hv, IH.
Qed.

Lemma replace_padding a b n : a <> 61%N -> replace_unit a b (replicate n 61%N) = replicate n 61%N.
Proof.
  intros Ha. induction n as [|n IH]; [done|]. cbn [replicate]. unfold replace_unit in *. cbn [List.map].
  by rewrite (proj2 (N.eqb_neq 61 a)), IH by done.
Qed.

Lemma strip_padded t n : Forall (fun c => c <> 61%N) t -> strip_padding (t ++ replicate n 61%N) = t.
Proof.
  intros Ht. unfold strip_padding. rewrite rev_app_distr.
  assert (forall m (s : jstr), drop_equals (replicate m 61%N ++ s) = drop_equals s) as Hd by (induction m; done).
  assert (rev (replicate n 61%N) = replicate n 61%N) as ->.
  { symmetry. apply replicate_as_elem_of. split; [by rewrite length_rev, length_replicate|].
    intros c Hc. rewrite list_elem_of_In, <- in_rev, <- list_elem_of_In in Hc. by apply elem_of_replicate in Hc as [-> _]. }
  rewrite Hd. assert (drop_equals (rev t) = rev t) as ->; [|apply rev_involutive].
  apply Forall_rev in Ht. destruct (rev t) as [|c r]; [done|]. apply Forall_cons in Ht as [Hc _]. cbn [drop_equals].
  by rewrite (proj2 (N.eqb_neq c 61)).
Qed.

Lemma padding_exact b : padding (length (sixes b)) = replicate ((3 - length b mod 3) mod 3) 61%N.
Proof.
  unfold padding. f_equal. destruct (sixes_padding b) as (Hk & H1 & H4).
  revert Hk H4. generalize ((3 - length b mod 3) mod 3) as k. intros k Hk H4.
  rewrite Nat.Div0.add_mod in H4. pose proof (Nat.mod_upper_bound (length (sixes b)) 4 ltac:(lia)) as B.
  destruct (length (sixes b) mod 4) as [|[|[|[|r]]]], k as [|[|[|k]]]; cbn in *; lia || done.
Qed.

Lemma url_Forall b : bytes b ->
  Forall (fun v => replace_unit 47 95 (replace_unit 43 45 [b64_char v]) = [url_char v] /\
    replace_unit 95 47 (replace_unit 45 43 [url_char v]) = [b64_char v] /\
    url_char v <> 61%N /\ url_unit (url_char v) = true) (sixes b).
Proof. intros Hb. eapply Forall_impl; [apply sixes_small, Hb|]. apply url_checked. Qed.

Lemma encode_bytes b : host_ok h -> bytes b -> encode b = inr (base64 b).
Proof.
  intros Hh Hb. unfold encode. destruct (has_base64 h) eqn:E.
  - unfold btoa. by rewrite (proj2 (bytes_bool b)).
  - destruct Hh as [?|(f & -> & _)]; [congruence|done].
Qed.

Lemma decode_bytes b : host_ok h -> bytes b -> decode (base64 b) = inr b.
Proof.
  intros Hh Hb. unfold decode. destruct (has_base64 h) eqn:E.
  - by rewrite atob_base64.
  - destruct Hh as [?|(f & -> & Hf)]; [congruence|by rewrite Hf].
Qed.

Lemma url_of_bytes b : host_ok h -> bytes b -> arrayBufferToBase64Url (Some b) = inr (url_text b).
Proof.
  intros Hh Hb. unfold arrayBufferToBase64Url. rewrite encode_bytes by done. cbn [sbind]. f_equal.
  pose proof (url_Forall b Hb) as Hu. unfold base64. rewrite !replace_app, !replace_padding by done.
  rewrite (replace_map _ _ _ _ _ url_char) by (eapply Forall_impl; [exact Hu|]; by intros v (? & _)).
  apply strip_padded, Forall_map. eapply Forall_impl; [exact Hu|]. by intros v (_ & _ & ? & _).
Qed.

Lemma bytes_of_url b : host_ok h -> bytes b -> base64UrlToArrayBuffer (Some (JStr (url_text b))) = inr b.
Proof.
  intros Hh Hb. unfold base64UrlToArrayBuffer. cbn [json_truthy to_String json_String].
  destruct (truthy (url_text b)) eqn:Et; cbn [negb].
  - unfold url_text at 2. rewrite length_map, padding_exact, !replace_app, !replace_padding by done.
    unfold url_text. rewrite (replace_map _ _ _ _ _ b64_char).
    + by apply decode_bytes.
    + eapply Forall_impl; [exact (url_Forall b Hb)|]. by intros v (_ & ? & _).
  - apply truthy_false, map_eq_nil in Et. by destruct b as [|? [|? [|? ?]]].
Qed.

(** A buffer sent to the server as text holds only units of the base64url
    alphabet, without padding, and is read back as the same bytes, in any host that
    has a decoder of base64. *)
Lemma buffer_roundtrip b :
  host_ok h -> bytes b ->
  exists s, arrayBufferToBase64Url (Some b) = inr s /\ Forall (fun c => url_unit c = true) s /\
    base64UrlToArrayBuffer (Some (JStr s)) = inr b.
Proof.
  intros Hh Hb. exists (url_text b). split; [by apply url_of_bytes|]. split; [|by apply bytes_of_url].
  apply Forall_map. eapply Forall_impl; [exact (url_Forall b Hb)|]. by intros v (_ & _ & _ & ?).
Qed.

(** ** Options keep everything but the buffers *)

Lemma copy_get k o : obj_get k (copy (Some (JObj o))) = VJson <$> obj_get k o.
Proof.
  cbn [copy spread]. induction o as [|[j v] o IH]; [done|]. cbn [List.map obj_get fst snd].
  destruct (k === j); [done|exact IH].
Qed.

(** A descriptor whose identifier is a text, and what becomes of it. *)
Definition descriptor (item : list (jstr * json)) (id : list N) : Prop :=
  obj_get (js "id") item = Some (JStr (url_text id)) /\ bytes id.
Definition prepared (item : list (jstr * json)) (id : list N) (v : value) : Prop :=
  exists o, v = VObj o /\ obj_get (js "id") o = Some (VBuffer id) /\
    forall k, k <> js "id" -> obj_get k o = VJson <$> obj_get k item.

Lemma item_prepared item id : host_ok h -> descriptor item id ->
  exists v, with_buffer_id (JObj item) = inr v /\ prepared item id v.
Proof.
  intros Hh [Hi Hb]. unfold with_buffer_id, property_of. cbn [opt_prop sbind]. rewrite Hi, bytes_of_url by done.
  eexists. split; [done|]. eexists. split; [done|]. split; [apply obj_get_set_eq|].
  intros k Hk. rewrite obj_get_set_ne by done. apply copy_get.
Qed.

Lemma items_prepared items ids : host_ok h -> Forall2 descriptor items ids ->
  exists vs, all_items (List.map JObj items) = inr vs /\ Forall3 prepared items ids vs.
Proof.
  intros Hh. induction 1 as [|item id items ids Hd _ (vs & E & Hvs)]; [by exists []; repeat constructor|].
  destruct (item_prepared item id Hh Hd) as (v & Ev & Hv). exists (v :: vs). cbn [List.map all_items].
  rewrite Ev. cbn [sbind]. rewrite E. by repeat constructor.
Qed.

(** The options for the browser are the ones the server sent, with the challenge
    and the identifiers of the allowed credentials as the bytes the texts stand for. *)
Lemma request_options_exact payload o items ids b :
  host_ok h -> bytes b ->
  opt_prop (js "publicKey") payload = Some (JObj o) ->
  obj_get (js "challenge") o = Some (JStr (url_text b)) ->
  obj_get (js "allowCredentials") o = Some (JArr (List.map JObj items)) ->
  Forall2 descriptor items ids ->
  exists pk vs, prepareCredentialRequestOptions payload = inr pk /\
    obj_get (js "challenge") pk = Some (VBuffer b) /\
    obj_get (js "allowCredentials") pk = Some (VArr vs) /\ Forall3 prepared items ids vs /\
    forall k, k <> js "challenge" -> k <> js "allowCredentials" -> obj_get k pk = VJson <$> obj_get k o.
Proof.
  intros Hh Hb Ho Hc Ha Hd. destruct (items_prepared items ids Hh Hd) as (vs & E & Hvs).
  unfold prepareCredentialRequestOptions, response_options. rewrite Ho. cbn [coalesce truthy_options json_truthy sbind].
  cbn [opt_prop]. rewrite Hc, bytes_of_url by done. cbn [sbind]. unfold with_credentials. cbn [opt_prop]. rewrite Ha, E.
  cbn [sbind]. eexists _, vs. split; [done|]. split_and!; [|apply obj_get_set_eq|done|].
  - rewrite obj_get_set_ne by keys_ne. apply obj_get_set_eq.
  - intros k H1 H2. rewrite !obj_get_set_ne by done. apply copy_get.
Qed.

(** ** An accepted verification *)

(** What the authenticator signed is made of bytes. *)
Definition credential_bytes (c : Credential Assertion) : Prop :=
  bytes (cr_rawId c) /\ bytes (as_authenticatorData (cr_response c)) /\ bytes (as_clientDataJSON (cr_response c)) /\
  bytes (as_signature (cr_response c)) /\ (forall b, as_userHandle (cr_response c) = Some b -> bytes b).

(** The payload holds the credential: its name, kind and attachment as they are, each
    buffer as the base64url text of its bytes. *)
Definition carries (payload : json) (c : Credential Assertion) : Prop :=
  let field k := opt_prop k (Some payload) in
  let inner k := opt_prop k (field (js "response")) in
  field (js "id") = Some (JStr (cr_id c)) /\ field (js "type") = Some (JStr (cr_type c)) /\
  field (js "authenticatorAttachment") = Some (match cr_attachment c with Some a => JStr a | None => JNull end) /\
  field (js "rawId") = Some (JStr (url_text (cr_rawId c))) /\
  inner (js "authenticatorData") = Some (JStr (url_text (as_authenticatorData (cr_response c)))) /\
  inner (js "clientDataJSON") = Some (JStr (url_text (as_clientDataJSON (cr_response c)))) /\
  inner (js "signature") = Some (JStr (url_text (as_signature (cr_response c)))) /\
  inner (js "userHandle") = Some (match as_userHandle (cr_response c) with Some u => JStr (url_text u) | None => JNull end).

Lemma assertion_carries c : host_ok h -> credential_bytes c ->
  exists payload, buildAssertionResult (Some c) = inr (Some payload) /\ carries payload c.
Proof.
  intros Hh (H1 & H2 & H3 & H4 & H5). unfold buildAssertionResult. rewrite !url_of_bytes by done. cbn [sbind].
  destruct (as_userHandle (cr_response c)) as [u|] eqn:Eu;
    [rewrite url_of_bytes by auto; cbn [sbind]|]; eexists; (split; [reflexivity|]); unfold carries; rewrite Eu;
    (split_and!; [reflexivity..|]); reflexivity.
Qed.

(** The options in the answer of the server that starts the ceremony: an object under
    publicKey, in the data or in the data's options. *)
Definition options_sent (data : option json) (o : list (jstr * json)) : Prop :=
  exists d, data = Some (JObj d) /\
    (obj_get (js "options") d = None /\ obj_get (js "publicKey") d = Some (JObj o) \/
     exists d', obj_get (js "options") d = Some (JObj d') /\ obj_get (js "publicKey") d' = Some (JObj o)).

Lemma options_found data o : options_sent data o -> opt_prop (js "publicKey") (begin_options data) = Some (JObj o).
Proof.
  intros (d & -> & [[Ho Hp]|(d' & Ho & Hp)]); unfold begin_options; cbn [opt_prop]; rewrite Ho; exact Hp.
Qed.

(** C14: the server starts the ceremony with options whose challenge and identifiers of
    allowed credentials are base64url texts of bytes. When the verification is accepted,
    the server had agreed to start it, and the browser was asked with exactly these
    options: the bytes of the challenge, the allowed credentials in order with the bytes
    of their identifiers and their other properties, and every other option unchanged.
    The browser gave a credential, and the payload the server accepted has its name, kind
    and attachment, and each of its buffers (identifier, authenticator data, client data,
    signature, and user handle if there is one) as the base64url text of its bytes; and
    the server then recorded the verification. This holds in every host that has a
    decoder of base64 that agrees with the standard on texts it encodes. *)
Theorem accepted_assertion supported started data o b items ids get fin compl :
  host_ok h -> (forall pk c, get pk = inr (Some c) -> credential_bytes c) ->
  options_sent data o -> bytes b -> obj_get (js "challenge") o = Some (JStr (url_text b)) ->
  obj_get (js "allowCredentials") o = Some (JArr (List.map JObj items)) -> Forall2 descriptor items ids ->
  verifyPasskey (passkey_ceremony supported (inr (started, data)) get fin compl) = Accepted ->
  an_success started = true /\
  exists pk vs c payload finished recorded,
    get pk = inr (Some c) /\
    obj_get (js "challenge") pk = Some (VBuffer b) /\
    obj_get (js "allowCredentials") pk = Some (VArr vs) /\ Forall3 prepared items ids vs /\
    (forall k, k <> js "challenge" -> k <> js "allowCredentials" -> obj_get k pk = VJson <$> obj_get k o) /\
    fin payload = inr finished /\ an_success finished = true /\ carries payload c /\
    compl = inr recorded /\ an_success recorded = true.
Proof.
  intros Hh Hget Ho Hb Hc Ha Hd
    (_ & st & data' & pk & c & p & fd & rc & E1 & S1 & E2 & E3 & E4 & E5 & S2 & E6 & S3)%passkey_accepted_exact.
  cbn [begin_ prepare get_credential build finish complete_ passkey_ceremony] in *. injection E1 as <- <-. split; [done|].
  destruct (assertion_carries c Hh (Hget pk c E3)) as (p' & Ep & Hp). rewrite Ep in E4. injection E4 as <-.
  destruct (request_options_exact (begin_options data) o items ids b Hh Hb (options_found _ _ Ho) Hc Ha Hd)
    as (pk' & vs & Epk & H1 & H2 & H3 & H4). rewrite Epk in E2. injection E2 as <-.
  exists pk', vs, c, p', fd, rc. done.
Qed.

(** Passkeys count as supported exactly when the browser offers them and neither
    test rules them out. *)
Lemma supported_exact window :
  isPasskeySupported window = true <->
  exists api, window = Some (Some api) /\
    (isConditionalMediationAvailable api = Some (Ret true) \/
     isUserVerifyingPlatformAuthenticatorAvailable api = Some (Ret true) \/
     isUserVerifyingPlatformAuthenticatorAvailable api = None).
Proof.
  unfold isPasskeySupported. destruct window as [[[a b]|]|]; cbn; [|naive_solver..].
  destruct a as [[[]|]|], b as [[[]|]|]; cbn; naive_solver.
Qed.
End passkey.

(** ** Examples *)

Lemma buffer_roundtrip_witness :
  exists s, arrayBufferToBase64Url browser [] (Some [251; 255; 0; 7]%N) = inr s /\ Forall (fun c => url_unit c = true) s /\
    base64UrlToArrayBuffer browser [] [] (Some (JStr s)) = inr [251; 255; 0; 7]%N.
Proof. apply (buffer_roundtrip browser [] [] [251; 255; 0; 7]%N); [by left|by repeat constructor]. Defined.

Lemma url_text_example : url_text [251; 255; 0; 7]%N = js "-_8ABw".
Proof. reflexivity. Qed.

Definition sample_options : list (jstr * json) :=
  [(js "challenge", JStr (js "-_8ABw")); (js "timeout", JNum (num_of_Z 60000));
   (js "allowCredentials", JArr [JObj [(js "type", JStr (js "public-key")); (js "id", JStr (js "AQI"))]])].

Lemma request_options_exact_witness :
  exists pk vs, prepareCredentialRequestOptions browser [] [] (Some (JObj [(js "publicKey", JObj sample_options)])) = inr pk /\
    obj_get (js "challenge") pk = Some (VBuffer [251; 255; 0; 7]%N) /\
    obj_get (js "allowCredentials") pk = Some (VArr vs) /\
    Forall3 prepared [[(js "type", JStr (js "public-key")); (js "id", JStr (js "AQI"))]] [[1; 2]%N] vs /\
    forall k, k <> js "challenge" -> k <> js "allowCredentials" -> obj_get k pk = VJson <$> obj_get k sample_options.
Proof.
  apply (request_options_exact browser [] [] (Some (JObj [(js "publicKey", JObj sample_options)])) sample_options
    [[(js "type", JStr (js "public-key")); (js "id", JStr (js "AQI"))]] [[1; 2]%N] [251; 255; 0; 7]%N);
    [by left|by repeat constructor|reflexivity|reflexivity|reflexivity|].
  constructor; [|constructor]. split; [reflexivity|by repeat constructor].
Defined.

Definition sample_credential : Credential Assertion :=
  MkCredential _ (js "AQI") [1; 2]%N (js "public-key") None (MkAssertion [9]%N [8; 7]%N [255; 254]%N None) None.

Lemma accepted_assertion_witness :
  exists (pk : list (jstr * value)) vs c payload,
    obj_get (js "challenge") pk = Some (VBuffer [251; 255; 0; 7]%N) /\
    Forall3 prepared [[(js "type", JStr (js "public-key")); (js "id", JStr (js "AQI"))]] [[1; 2]%N] vs /\
    c = sample_credential /\ carries payload c.
Proof.
  destruct (accepted_assertion browser [] [] true (MkAnswer true None) (Some (JObj [(js "publicKey", JObj sample_options)]))
    sample_options [251; 255; 0; 7]%N [[(js "type", JStr (js "public-key")); (js "id", JStr (js "AQI"))]] [[1; 2]%N]
    (fun _ => inr (Some sample_credential)) (fun _ => inr (MkAnswer true None)) (inr (MkAnswer true None)))
    as (_ & pk & vs & c & payload & fd & rc & H1 & H2 & _ & H3 & _ & _ & _ & H4 & _).
  - by left.
  - intros pk c [= <-]. split_and!; [by repeat constructor..|discriminate].
  - eexists. split; [reflexivity|]. left. by split.
  - by repeat constructor.
  - reflexivity.
  - reflexivity.
  - constructor; [|constructor]. split; [reflexivity|by repeat constructor].
  - vm_compute. reflexivity.
  - exists pk, vs, c, payload. injection H1 as <-. done.
Defined.
