(* ===== verification/ChatLinks.v ===== *)
(** * Links to chat clients

    [features/chat/lib/chat-links.ts]: the presets of the administrator, and the
    link of a preset with the address of the server and the key of the user filled
    in, either in place or as a configuration that the client decodes. *)
From S2P Require Import Prelude Regex Numbers Json JsonRoundtrip Encoding.

Inductive ChatLinkType : Type := web | custom_protocol | fluent.
#[export] Instance ChatLinkType_eq_dec : EqDecision ChatLinkType.
Proof. solve_decision. Defined.

Record ChatPreset : Type := MkPreset {
  cp_id : jstr;
  cp_name : jstr;
  cp_url : jstr;
  cp_type : ChatLinkType
}.

Record ActiveApiKey : Type := MkActiveKey { ak_key : jstr; ak_status : number }.

(** A letter in either case. *)
Definition letter (c : N) : re := RSet (fun d => (d =? c)%N || (d =? c - 32)%N).

(** [/^https?:\/\//i] *)
Definition HTTP_REGEX : re :=
  RSeqs [RStart; letter 104; letter 116; letter 116; letter 112; ROpt (letter 115); RLit (js "://")].

(** [window.btoa] takes the units as bytes; a [Buffer] is made of the UTF-8 bytes. *)
Definition toBase64 (h : host) (value : jstr) : outcome jstr :=
  if has_base64 h then btoa value
  else match buffer h with
       | Some _ => Ret (base64 (utf8_bytes value))
       | None => Ret []
       end.

Definition detectChatLinkType (url : jstr) : ChatLinkType :=
  if re_test HTTP_REGEX url then web
  else if starts_with (js "fluent") (lower url) then fluent
  else custom_protocol.

Definition KEY : jstr := js "{key}".
Definition ADDRESS : jstr := js "{address}".
Definition CHERRY : jstr := js "{cherryConfig}".
Definition AIONUI : jstr := js "{aionuiConfig}".
Definition DEEPCHAT : jstr := js "{deepchatConfig}".

Definition chatLinkRequiresApiKey (url : jstr) : bool :=
  includes KEY url || includes CHERRY url || includes AIONUI url || includes DEEPCHAT url.

(** One entry of the configuration: an object with one key, a name and a URL. *)
Definition preset_of_entry (index : nat) (entry : json) : option ChatPreset :=
  match entry with
  | JObj [(name, JStr value)] =>
      let url := trim value in
      if negb (truthy url) then None
      else Some (MkPreset (dec_digits (N.of_nat index)) name url (detectChatLinkType url))
  | _ => None
  end.

Definition parseChatConfig (raw : option json) : list ChatPreset :=
  let parsed := match raw with
                | Some (JStr s) => match JSON_parse s with Ret v => Some v | Throw => None end
                | _ => raw
                end in
  match parsed with
  | Some (JArr entries) => omap id (imap preset_of_entry entries)
  | _ => []
  end.

(** [s.split(token)] for a token that is not empty. *)
Fixpoint split_str_n (n : nat) (token s : jstr) : list jstr :=
  match n with
  | O => [s]
  | S n =>
      match index_of token s with
      | None => [s]
      | Some i => take i s :: split_str_n n token (drop (i + length token) s)
      end
  end.
Definition split_str (token s : jstr) : list jstr := split_str_n (length s) token s.

Definition replaceToken (source token value : jstr) : jstr := join value (split_str token source).

Definition normalizeApiKey (apiKey : jstr) : jstr :=
  let trimmed := trim apiKey in
  if negb (truthy trimmed) then []
  else if starts_with (js "sk-") trimmed then trimmed else js "sk-" ++ trimmed.

(** The configuration for a client, with its name for the product's key. *)
Definition config_payload (name : jstr) (baseUrl apiKey : jstr) : json :=
  JObj [(name, JStr (js "new-api")); (js "baseUrl", JStr baseUrl); (js "apiKey", JStr apiKey)].

Definition fill_config (h : host) (url token name baseUrl apiKey : jstr) : outcome jstr :=
  let! base64 := toBase64 h (JSON_stringify (config_payload name baseUrl apiKey)) in
  let! encoded := encodeURIComponent base64 in
  Ret (replaceToken url token encoded).

Definition resolveChatUrl (h : host) (template : jstr) (apiKey : option jstr) (serverAddress : jstr) : outcome jstr :=
  let url := template in
  let safeServerAddress := serverAddress in
  let safeApiKey := normalizeApiKey (opt_str_or apiKey []) in
  if includes CHERRY url then fill_config h url CHERRY (js "id") safeServerAddress safeApiKey
  else if includes AIONUI url then fill_config h url AIONUI (js "platform") safeServerAddress safeApiKey
  else if includes DEEPCHAT url then fill_config h url DEEPCHAT (js "id") safeServerAddress safeApiKey
  else
    let! url := if truthy safeServerAddress then
                  let! encodedAddress := encodeURIComponent safeServerAddress in
                  Ret (replaceToken url ADDRESS encodedAddress)
                else Ret url in
    Ret (if truthy safeApiKey then replaceToken url KEY safeApiKey else url).

Definition ENABLED : number := num_of_Z 1.
Definition getFirstActiveKey (keys : option (list ActiveApiKey)) : option ActiveApiKey :=
  match keys with
  | None => None
  | Some l => List.find (fun item => neqb (ak_status item) ENABLED) l
  end.

(** ** Replacing a token *)

Section replace.
Context (token value : jstr) (Htoken : token <> []).

Lemma index_of_cons c s :
  starts_with token (c :: s) = false -> index_of token (c :: s) = S <$> index_of token s.
Proof. intros H. cbn [index_of]. by rewrite H. Qed.

Lemma index_of_start s : starts_with token s = true -> index_of token s = Some 0.
Proof. destruct s as [|c s]; cbn [index_of]; by intros ->. Qed.

Lemma index_of_nil : index_of token [] = None.
Proof. cbn [index_of]. destruct (starts_with token []) eqn:E; [by apply starts_with_nil in E|done]. Qed.

Lemma split_nil n : split_str_n n token [] = [[]].
Proof. destruct n as [|n]; [done|]. cbn [split_str_n]. by rewrite index_of_nil. Qed.

Lemma split_fuel n m s : length s <= n -> length s <= m -> split_str_n n token s = split_str_n m token s.
Proof.
  revert m s. induction n as [|n IH]; intros m s Hn Hm; [destruct s; [by rewrite !split_nil|cbn in Hn; lia]|].
  destruct m as [|m]; [destruct s; [by rewrite !split_nil|cbn in Hm; lia]|].
  cbn [split_str_n]. destruct (index_of token s) as [i|]; [|done]. f_equal.
  apply IH; rewrite length_drop; (destruct token; [done|cbn; lia]).
Qed.

Lemma split_step s :
  split_str token s =
  match index_of token s with None => [s] | Some i => take i s :: split_str token (drop (i + length token) s) end.
Proof.
  unfold split_str. destruct s as [|c s]; [by rewrite index_of_nil|]. cbn [length split_str_n].
  destruct (index_of token (c :: s)) as [i|]; [|done]. f_equal.
  apply split_fuel; rewrite length_drop; destruct token; [done|cbn; lia|done|cbn; lia].
Qed.

Lemma join_head c w ws : join value ((c :: w) :: ws) = c :: join value (w :: ws).
Proof. by destruct ws. Qed.

(** The rules of replacement. *)
Lemma replace_skip c s : starts_with token (c :: s) = false -> replaceToken (c :: s) token value = c :: replaceToken s token value.
Proof.
  intros H. unfold replaceToken. rewrite (split_step (c :: s)), (split_step s), index_of_cons by done.
  destruct (index_of token s) as [i|]; cbn [fmap option_fmap option_map]; [|done].
  cbn [Nat.add take drop]. by rewrite join_head.
Qed.

Lemma replace_start s : replaceToken (token ++ s) token value = value ++ replaceToken s token value.
Proof.
  unfold replaceToken. rewrite (split_step (token ++ s)), index_of_start by apply starts_with_app.
  cbn [take Nat.add]. rewrite drop_app_length, join_cons; [done|]. rewrite split_step. by destruct (index_of token s).
Qed.

(** Text in which no token can start. *)
Lemma replace_plain c u s : head token = Some c -> c ∉ u -> replaceToken (u ++ s) token value = u ++ replaceToken s token value.
Proof.
  intros Hh. induction u as [|d u IH]; intros Hu; [done|]. apply not_elem_of_cons in Hu as [Hd Hu]. cbn [app].
  rewrite replace_skip; [by rewrite IH|]. destruct token as [|t tk]; [done|]. injection Hh as ->.
  cbn [starts_with]. apply andb_false_iff. left. by apply N.eqb_neq.
Qed.
End replace.

(** ** Links with placeholders *)

(** A template of texts without braces and placeholders. *)
Inductive piece : Type := Text (s : jstr) | Address | Key.

Definition piece_text (address key : jstr) (p : piece) : jstr :=
  match p with Text s => s | Address => address | Key => key end.
Definition link_of (address key : jstr) (ps : list piece) : jstr := flat_map (piece_text address key) ps.
Definition plain_piece (p : piece) : Prop := match p with Text s => 123%N ∉ s | _ => True end.

(** A token in braces does not start where the text has no brace. *)
Lemma index_of_plain token u s : head token = Some 123%N -> 123%N ∉ u ->
  index_of token (u ++ s) = (fun i => length u + i) <$> index_of token s.
Proof.
  intros Hh. induction u as [|d u IH]; intros Hu; [cbn [app length]; by destruct (index_of token s)|].
  apply not_elem_of_cons in Hu as [Hd Hu]. cbn [app]. rewrite index_of_cons.
  - rewrite IH by done. by destruct (index_of token s) as [i|].
  - destruct token as [|t tk]; [done|]. injection Hh as ->. cbn [starts_with]. apply andb_false_iff. left. by apply N.eqb_neq.
Qed.

Lemma plain_eval s : forallb (fun c => negb (c =? 123)%N) s = true -> 123%N ∉ s.
Proof.
  intros H Hin. rewrite forallb_forall in H. apply list_elem_of_In, H in Hin. done.
Qed.

Lemma index_of_placeholder token w s : head token = Some 123%N -> 123%N ∉ w ->
  starts_with token (123%N :: w ++ s) = false -> index_of token s = None -> index_of token (123%N :: w ++ s) = None.
Proof. intros Hh Hw Hs Hn. by rewrite index_of_cons, index_of_plain, Hn. Qed.

Lemma no_config token ps :
  token = CHERRY \/ token = AIONUI \/ token = DEEPCHAT -> Forall plain_piece ps ->
  includes token (link_of ADDRESS KEY ps) = false.
Proof.
  intros Ht Hps. assert (head token = Some 123%N) as Hh by (by destruct Ht as [->|[->| ->]]).
  assert (index_of token (link_of ADDRESS KEY ps) = None) as H; [|unfold includes; by rewrite H].
  induction Hps as [|p ps Hp _ IH]; [by destruct Ht as [->|[->| ->]]|]. unfold link_of. cbn [flat_map].
  fold (link_of ADDRESS KEY ps). destruct p as [s| |]; cbn [piece_text].
  - by rewrite index_of_plain, IH.
  - apply (index_of_placeholder token (js "address}")); [done|by apply plain_eval|by destruct Ht as [->|[->| ->]]|done].
  - apply (index_of_placeholder token (js "key}")); [done|by apply plain_eval|by destruct Ht as [->|[->| ->]]|done].
Qed.

Lemma fill_address e ps : Forall plain_piece ps -> replaceToken (link_of ADDRESS KEY ps) ADDRESS e = link_of e KEY ps.
Proof.
  induction 1 as [|p ps Hp _ IH]; [done|]. unfold link_of. cbn [flat_map]. fold (link_of ADDRESS KEY ps) (link_of e KEY ps).
  destruct p as [s| |]; cbn [piece_text].
  - by rewrite (replace_plain ADDRESS e ltac:(done) 123%N), IH.
  - by rewrite replace_start, IH.
  - change (KEY ++ ?t) with (123%N :: js "key}" ++ t). rewrite replace_skip by done.
    by rewrite (replace_plain ADDRESS e ltac:(done) 123%N), IH by (by try apply plain_eval).
Qed.

Lemma fill_key e k ps : 123%N ∉ e -> Forall plain_piece ps -> replaceToken (link_of e KEY ps) KEY k = link_of e k ps.
Proof.
  intros He. induction 1 as [|p ps Hp _ IH]; [done|]. unfold link_of. cbn [flat_map]. fold (link_of e k ps) (link_of e KEY ps).
  destruct p as [s| |]; cbn [piece_text].
  - by rewrite (replace_plain KEY k ltac:(done) 123%N), IH.
  - by rewrite (replace_plain KEY k ltac:(done) 123%N), IH.
  - by rewrite replace_start, IH.
Qed.

Lemma uri_no_brace e : Forall (fun c => uri_unit c = true) e -> 123%N ∉ e.
Proof. intros H Hin. rewrite Forall_forall in H. specialize (H _ Hin). discriminate H. Qed.

Lemma normalized_key key : trim key <> [] -> truthy (normalizeApiKey key) = true /\ starts_with (js "sk-") (normalizeApiKey key) = true.
Proof.
  intros Hk. unfold normalizeApiKey. rewrite (proj2 (truthy_true _) Hk). cbn [negb].
  destruct (starts_with (js "sk-") (trim key)) eqn:E; [|done]. split; [by apply truthy_true|done].
Qed.

(** In the link of a template every placeholder of the address is replaced by the
    address, encoded as a component that decodes to it, and every placeholder of the
    key by the key with its prefix; nothing else of the template changes, and nothing
    in the address is taken for a placeholder. *)
Lemma placeholders_filled h ps key address :
  Forall plain_piece ps -> address <> [] -> well_formed address = true -> trim key <> [] ->
  exists e k, resolveChatUrl h (link_of ADDRESS KEY ps) (Some key) address = Ret (link_of e k ps) /\
    decodeURIComponent e = Ret address /\ Forall (fun c => uri_unit c = true) e /\
    starts_with (js "sk-") k = true /\ ends_with (trim key) k = true.
Proof.
  intros Hps Ha Hw Hk. destruct (encode_decode address Hw) as (e & Ee & Hu & Hd).
  destruct (normalized_key key Hk) as [Ht Hs]. exists e, (normalizeApiKey key).
  assert (opt_str_or (Some key) [] = key) as Ek by (by destruct key).
  split_and!; [|done..|].
  - unfold resolveChatUrl. rewrite !no_config by auto. rewrite (proj2 (truthy_true _) Ha), Ee, Ek, Ht. cbn [obind].
    by rewrite fill_address, fill_key by auto using uri_no_brace.
  - unfold normalizeApiKey. rewrite (proj2 (truthy_true _) Hk). cbn [negb]. unfold ends_with.
    case_match; [|rewrite rev_app_distr; apply starts_with_app].
    rewrite <- (app_nil_r (rev (trim key))) at 2. apply starts_with_app.
Qed.

(** ** Links with a configuration *)

Lemma quote_unit_bytes c : (c < 256)%N -> bytes (quote_unit c).
Proof.
  intros Hc. assert (forallb (fun n => forallb is_byte (quote_unit (N.of_nat n))) (seq 0 256) = true) as H
    by (vm_compute; reflexivity).
  rewrite forallb_forall in H. specialize (H (N.to_nat c)). rewrite N2Nat.id in H.
  apply bytes_bool, H, in_seq. lia.
Qed.

Lemma byte_no_surrogate c : (c < 256)%N -> is_lead c = false /\ is_trail c = false.
Proof. intros H. unfold is_lead, is_trail. split; apply andb_false_iff; left; apply N.leb_gt; lia. Qed.

Lemma quote_bytes s : bytes s -> bytes (quote s).
Proof.
  intros Hs. unfold quote. apply Forall_app. split; [by repeat constructor|]. apply Forall_app.
  split; [|by repeat constructor]. induction Hs as [|c s Hc _ IH]; [constructor|]. cbn [quote_body].
  destruct (byte_no_surrogate c Hc) as [-> ->]. apply Forall_app. split; [by apply quote_unit_bytes|done].
Qed.

Lemma config_bytes name a k : bytes name -> bytes a -> bytes k -> bytes (JSON_stringify (config_payload name a k)).
Proof.
  intros Hn Ha Hk. cbn [JSON_stringify config_payload List.map fst snd join].
  assert (bytes (js "new-api") /\ bytes (js "baseUrl") /\ bytes (js "apiKey")) as (H1 & H2 & H3)
    by (split_and!; by repeat constructor).
  unfold bytes. rewrite !Forall_app. split_and!; first [by apply quote_bytes|by repeat constructor].
Qed.

Lemma bytes_utf16 s : bytes s -> utf16 s.
Proof. intros H. eapply Forall_impl; [exact H|]. cbn. lia. Qed.

Lemma base64_well_formed b : bytes b -> well_formed (base64 b) = true.
Proof.
  intros Hb. assert (Forall (fun c => (c < 128)%N) (base64 b)) as H.
  { apply Forall_app. split; [|by apply Forall_replicate]. apply Forall_map.
    eapply Forall_impl; [apply sixes_small, Hb|]. intros v Hv. cbn. unfold b64_char. repeat case_match; rewrite ?N.ltb_lt, ?N.ltb_ge in *; lia. }
  induction H as [|c s Hc _ IH]; [done|]. cbn [well_formed]. destruct (byte_no_surrogate c ltac:(lia)) as [-> ->].
  rewrite IH. cbn [negb andb]. by rewrite (proj2 (N.ltb_lt c 65536)) by lia.
Qed.

(** How a client reads the configuration out of a link. *)
Definition client_reads (e : jstr) (config : json) : Prop :=
  exists text b, decodeURIComponent e = Ret text /\ atob text = Ret b /\ JSON_parse b = Ret config.

(** The placeholders of a configuration and the name each client wants. *)
Definition CONFIGS : list (jstr * jstr) := [(CHERRY, js "id"); (AIONUI, js "platform"); (DEEPCHAT, js "id")].

Lemma config_checked token name : (token, name) ∈ CONFIGS ->
  head token = Some 123%N /\ bytes name /\ is_index name = false /\ name <> js "baseUrl" /\ name <> js "apiKey" /\
  forall pre post, 123%N ∉ pre -> 123%N ∉ post -> forall h a k, resolveChatUrl h (pre ++ token ++ post) k a =
    fill_config h (pre ++ token ++ post) token name a (normalizeApiKey (opt_str_or k [])).
Proof.
  unfold CONFIGS. rewrite !list_elem_of_In. intros Hin.
  assert (forall tok tok' w pre post, tok' = 123%N :: w -> head tok = Some 123%N -> 123%N ∉ pre -> 123%N ∉ post -> 123%N ∉ w ->
    starts_with tok (tok' ++ post) = false -> includes tok (pre ++ tok' ++ post) = false) as Hno.
  { intros tok tok' w pre post -> Hh Hpre Hpost Hw Hs. unfold includes. rewrite index_of_plain by done. cbn [app] in *.
    rewrite index_of_placeholder; [done..|]. rewrite <- (app_nil_r post), index_of_plain by done. by destruct tok. }
  assert (forall tok pre post, head tok = Some 123%N -> 123%N ∉ pre -> includes tok (pre ++ tok ++ post) = true) as Hyes.
  { intros tok pre post Hh Hpre. unfold includes. rewrite index_of_plain by done.
    by rewrite index_of_start by apply starts_with_app. }
  destruct Hin as [[= <- <-]|[[= <- <-]|[[= <- <-]|[]]]];
    (split_and!; [done|by repeat constructor|done|keys_ne|keys_ne|]); intros pre post Hpre Hpost h a k; unfold resolveChatUrl.
  - by rewrite Hyes.
  - rewrite (Hno CHERRY AIONUI (js "aionuiConfig}")) by (done || by apply plain_eval). by rewrite Hyes.
  - rewrite (Hno CHERRY DEEPCHAT (js "deepchatConfig}")) by (done || by apply plain_eval).
    rewrite (Hno AIONUI DEEPCHAT (js "deepchatConfig}")) by (done || by apply plain_eval). by rewrite Hyes.
Qed.

Lemma config_ok token name a k : (token, name) ∈ CONFIGS -> bytes a -> bytes k -> json_ok (config_payload name a k).
Proof.
  intros (_ & Hn & Hi & H1 & H2 & _)%config_checked Ha Hk. apply obj_ok_json. split.
  - apply plain_ordered. unfold plain_keys. cbn [fmap list_fmap fst forallb]. rewrite Hi. cbn [negb andb].
    apply andb_true_iff. split; [done|]. apply bool_decide_eq_true.
    repeat (apply NoDup_cons; split); [|by vm_compute; set_solver|set_solver|constructor].
    rewrite !not_elem_of_cons. split_and!; [done|done|set_solver].
  - repeat (apply Forall_cons; split); try apply Forall_nil_2; cbn [fst snd json_ok];
      (split; [|]); auto using bytes_utf16; by repeat constructor.
Qed.

Lemma config_link h token name pre post key address :
  has_base64 h = true -> (token, name) ∈ CONFIGS -> 123%N ∉ pre -> 123%N ∉ post -> bytes address -> bytes key ->
  exists e, resolveChatUrl h (pre ++ token ++ post) (Some key) address = Ret (pre ++ e ++ post) /\
    Forall (fun c => uri_unit c = true) e /\ client_reads e (config_payload name address (normalizeApiKey key)).
Proof.
  intros Hh Hc Hpre Hpost Ha Hk. pose proof (config_checked token name Hc) as (Ht & Hn & _ & _ & _ & ->); [|done..].
  assert (opt_str_or (Some key) [] = key) as -> by (by destruct key).
  assert (bytes (normalizeApiKey key)) as Hk'.
  { unfold normalizeApiKey. assert (bytes (trim key)) by (unfold bytes in *; rewrite Forall_forall in *; eauto using trim_incl).
    repeat case_match; [constructor|done|apply Forall_app; split; [by repeat constructor|done]]. }
  set (payload := config_payload name address (normalizeApiKey key)).
  assert (bytes (JSON_stringify payload)) as Hp by (by apply config_bytes).
  destruct (encode_decode (base64 (JSON_stringify payload)) (base64_well_formed _ Hp)) as (e & Ee & Hu & Hd).
  exists e. split_and!; [|done|].
  - unfold fill_config, toBase64, btoa. rewrite Hh. fold payload. rewrite (proj2 (bytes_bool _) Hp). cbn [obind].
    rewrite Ee. cbn [obind]. f_equal. assert (token <> []) as Hne by (by destruct token).
    rewrite (replace_plain token e Hne 123%N) by done. rewrite replace_start by done.
    rewrite <- (app_nil_r post) at 1. rewrite (replace_plain token e Hne 123%N) by done.
    unfold replaceToken. rewrite split_step, index_of_nil by done. cbn [join]. by rewrite app_nil_r.
  - exists (base64 (JSON_stringify payload)), (JSON_stringify payload). split_and!; [done|by apply atob_base64|].
    apply read_write. by apply (config_ok token).
Qed.

(** The placeholders of the three clients, and the name each has for the product. *)
Definition clients : list (jstr * jstr) :=
  [(js "{cherryConfig}", js "id"); (js "{aionuiConfig}", js "platform"); (js "{deepchatConfig}", js "id")].

(** A key with its prefix; a blank one is none. *)
Definition full_key (key : jstr) : jstr :=
  match trim key with
  | [] => []
  | k => if bool_decide (take 3 k = js "sk-") then k else js "sk-" ++ k
  end.

(** What the client is to read. *)
Definition client_config (name address key : jstr) : json :=
  JObj [(name, JStr (js "new-api")); (js "baseUrl", JStr address); (js "apiKey", JStr (full_key key))].

Lemma full_key_spec key : normalizeApiKey key = full_key key.
Proof.
  unfold normalizeApiKey, full_key. destruct (trim key) as [|c k]; [done|]. cbn [truthy negb].
  destruct (starts_with (js "sk-") (c :: k)) eqn:E.
  - apply starts_with_spec in E as [t E]. rewrite E. by rewrite bool_decide_eq_true_2.
  - rewrite bool_decide_eq_false_2; [done|]. intros Ht.
    assert (starts_with (js "sk-") (c :: k) = true) as E'; [|congruence].
    apply starts_with_spec. exists (drop 3 (c :: k)). by rewrite <-Ht, take_drop.
Qed.

(** C20: of a template with the placeholder of a configuration and no other brace, filled
    in a host with btoa for an address and a key of Latin-1 units: the link is the template
    with a text of URL-safe units in place of the placeholder. A client that decodes this
    text (as a component of a URL, then as base64, then as JSON) reads the document with the
    name the client has for the product, new-api; the address of the server as baseUrl; and
    the trimmed key, with the prefix sk- if it had none, as apiKey. *)
Theorem config_delivered h token name pre post key address :
  has_base64 h = true -> (token, name) ∈ clients -> 123%N ∉ pre -> 123%N ∉ post -> bytes address -> bytes key ->
  exists e, resolveChatUrl h (pre ++ token ++ post) (Some key) address = Ret (pre ++ e ++ post) /\
    Forall (fun c => uri_unit c = true) e /\ client_reads e (client_config name address key).
Proof.
  intros Hh Hc Hpre Hpost Ha Hk. unfold client_config. rewrite <-full_key_spec.
  by apply (config_link h token name pre post key address).
Qed.

(** ** Presets *)

(** The presets are the entries with a name and a URL, in order, each under its
    position, so that no two have the same identifier. *)
Lemma presets_exact entries :
  (forall p, p ∈ parseChatConfig (Some (JArr entries)) <->
     exists i name value, entries !! i = Some (JObj [(name, JStr value)]) /\ trim value <> [] /\
       p = MkPreset (dec_digits (N.of_nat i)) name (trim value) (detectChatLinkType (trim value))) /\
  NoDup (List.map cp_id (parseChatConfig (Some (JArr entries)))).
Proof.
  cbn [parseChatConfig]. assert (forall i e p, preset_of_entry i e = Some p <->
    exists name value, e = JObj [(name, JStr value)] /\ trim value <> [] /\
      p = MkPreset (dec_digits (N.of_nat i)) name (trim value) (detectChatLinkType (trim value))) as He.
  { intros i e p. unfold preset_of_entry. split.
    - destruct e as [| | | | |[|[name [| | |value| |]] []]]; try done.
      destruct (truthy (trim value)) eqn:Et; [|done]. intros [= <-]. exists name, value. split; [done|].
      split; [by apply truthy_true|done].
    - intros (name & value & -> & Hv & ->). by rewrite (proj2 (truthy_true _) Hv). }
  split.
  - intros p. rewrite list_elem_of_omap. split.
    + intros (o & Ho & Hp). apply list_elem_of_lookup in Ho as [i Hi]. rewrite list_lookup_imap in Hi.
      destruct (entries !! i) as [e|] eqn:Ee; [|done]. cbn in Hi. injection Hi as <-. cbn in Hp.
      apply He in Hp as (name & value & -> & Hv & ->). by exists i, name, value.
    + intros (i & name & value & Hi & Hv & ->). exists (preset_of_entry i (JObj [(name, JStr value)])).
      split; [|by apply He; exists name, value]. apply list_elem_of_lookup. exists i. by rewrite list_lookup_imap, Hi.
  - assert (forall k, NoDup (List.map cp_id (omap id (imap (fun i => preset_of_entry (k + i)) entries))) /\
      Forall (fun x => exists i, x = dec_digits (N.of_nat (k + i))) (List.map cp_id (omap id (imap (fun i => preset_of_entry (k + i)) entries))))
      as H; [|apply (H 0)].
    induction entries as [|e es IH]; intros k; [by repeat constructor|]. cbn [imap].
    assert (imap ((fun i => preset_of_entry (k + i)) ∘ S) es = imap (fun i => preset_of_entry (S k + i)) es) as ->.
    { apply imap_ext. intros i x _. cbn. by rewrite Nat.add_succ_r. }
    destruct (IH (S k)) as [Hn Hf]. rewrite Nat.add_0_r. cbn [omap list_omap id].
    assert (Forall (fun x => exists i, x = dec_digits (N.of_nat (k + i)))
      (List.map cp_id (omap id (imap (fun i => preset_of_entry (S k + i)) es)))) as Hf'.
    { eapply Forall_impl; [exact Hf|]. intros x [i ->]. exists (S i). by rewrite Nat.add_succ_r. }
    destruct (preset_of_entry k e) as [p|] eqn:Ep; [|done].
    apply He in Ep as (name & value & -> & Hv & ->). cbn [List.map cp_id]. split.
    + apply NoDup_cons. split; [|done]. rewrite Forall_forall in Hf. intros [i Hi]%Hf. apply dec_digits_inj in Hi. lia.
    + constructor; [|done]. exists 0. by rewrite Nat.add_0_r.
Qed.

(** ** Examples *)

Lemma placeholders_filled_witness :
  exists e k,
    resolveChatUrl browser (link_of ADDRESS KEY [Text (js "app://add?u="); Address; Text (js "&k="); Key]) (Some (js " abc "))
      (js "https://a.b/{key}") = Ret (link_of e k [Text (js "app://add?u="); Address; Text (js "&k="); Key]) /\
    decodeURIComponent e = Ret (js "https://a.b/{key}") /\ Forall (fun c => uri_unit c = true) e /\
    starts_with (js "sk-") k = true /\ ends_with (trim (js " abc ")) k = true.
Proof.
  apply (placeholders_filled browser [Text (js "app://add?u="); Address; Text (js "&k="); Key] (js " abc ") (js "https://a.b/{key}"));
    [|discriminate|reflexivity|discriminate].
  repeat constructor; by apply plain_eval.
Defined.

Lemma config_delivered_witness :
  exists e, resolveChatUrl browser (js "cherrystudio://keys?data=" ++ CHERRY ++ []) (Some (js "abc")) (js "https://a.b")
      = Ret (js "cherrystudio://keys?data=" ++ e ++ []) /\
    Forall (fun c => uri_unit c = true) e /\
    client_reads e (client_config (js "id") (js "https://a.b") (js "abc")).
Proof.
  apply (config_delivered browser CHERRY (js "id") (js "cherrystudio://keys?data=") [] (js "abc") (js "https://a.b"));
    [reflexivity|left|by apply plain_eval|apply not_elem_of_nil|by repeat constructor|by repeat constructor].
Defined.

(** The other placeholders of a template with a configuration stay as they are. *)
Lemma config_leaves_placeholders :
  includes KEY (try_catch (resolveChatUrl browser (js "app://x?c={cherryConfig}&k={key}") (Some (js "abc")) (js "https://a.b")) []) = true.
Proof. vm_compute. reflexivity. Qed.

(** An address or a key that is not Latin-1 makes the link throw. *)
Lemma unicode_address_throws :
  resolveChatUrl browser (js "app://x?c={cherryConfig}") (Some (js "abc")) (js "https://" ++ [20363%N]) = Throw.
Proof. vm_compute. reflexivity. Qed.

Lemma link_types :
  List.map detectChatLinkType [js "HTTPS://a"; js "http:/a"; js "Fluent"; js "app://x"] = [web; custom_protocol; fluent; custom_protocol].
Proof. vm_compute. reflexivity. Qed.
