(* ===== verification/ApiKeys.v ===== *)
(** * API keys

    [features/keys/lib/api-key-form.ts] and the handlers of
    [features/keys/components/api-keys-mutate-drawer.tsx]: the form of a key, its
    check, the payload it is saved as, the form of a stored key, and creating or
    updating keys as the sequence of requests and notices that follows from the
    answers of the server.

    A date is its time value in milliseconds. *)
From S2P Require Import Prelude Numbers Exact Currency.
From Stdlib Require Import SpecFloat.
Local Open Scope js_scope.

Definition SIMPLE_PURPOSE_IDS : list jstr :=
  [js "chat"; js "coding"; js "image"; js "video"; js "voice"; js "all"].
Definition SIMPLE_BRANDS : list jstr := [js "claude"; js "openai"; js "gemini"; js "deepseek"].
Definition SIMPLE_PRICE_TIERS : list jstr := [js "economy"; js "standard"; js "premium"; js "ultra"].

Inductive CreateMode : Type := simple | advanced.
#[export] Instance CreateMode_eq_dec : EqDecision CreateMode.
Proof. solve_decision. Defined.

Record ApiKeyFormValues : Type := MkValues {
  v_name : option jstr;
  v_remain_quota_dollars : option number;
  v_expired_time : option number;
  v_unlimited_quota : bool;
  v_model_limits : list jstr;
  v_allow_ips : option jstr;
  v_group : option jstr;
  v_cross_group_retry : option bool;
  v_tokenCount : option number;
  v_mode : CreateMode;
  v_simple_purpose : option jstr;
  v_simple_brand : option jstr;
  v_simple_price_tier : option jstr;
  v_rpm_limit : option number;
  v_tpm_limit : option number;
  v_monthly_limit : option number
}.

(** A key as the server stores it. *)
Record ApiKey : Type := MkApiKey {
  k_id : number;
  k_name : jstr;
  k_remain_quota : number;
  k_unlimited_quota : bool;
  k_expired_time : number;
  k_group : option jstr;
  k_cross_group_retry : option bool;
  k_model_limits_enabled : bool;
  k_model_limits : option jstr;
  k_allow_ips : option jstr;
  k_simple_purpose : option jstr;
  k_simple_brand : option jstr;
  k_simple_price_tier : option jstr;
  k_rpm_limit : option number;
  k_tpm_limit : option number;
  k_monthly_limit : option number
}.

Record ApiKeyFormData : Type := MkFormData {
  p_name : jstr;
  p_remain_quota : number;
  p_expired_time : number;
  p_unlimited_quota : bool;
  p_model_limits_enabled : bool;
  p_model_limits : jstr;
  p_allow_ips : jstr;
  p_group : jstr;
  p_cross_group_retry : bool;
  p_simple_purpose : option jstr;
  p_simple_brand : option jstr;
  p_simple_price_tier : option jstr;
  p_rpm_limit : number;
  p_tpm_limit : number;
  p_monthly_limit : number
}.

Definition is_given (s : option jstr) : bool := match s with Some s => truthy s | None => false end.
Definition num_default (x : option number) : number := default zero x.

(** ** The check *)

(** [superRefine]: the fields with an issue and its message. *)
Definition refine_issues (data : ApiKeyFormValues) : list (jstr * jstr) :=
  match v_mode data with
  | simple =>
      (if negb (is_given (v_simple_purpose data))
       then [(js "simple_purpose", js "Please choose what you will use this key for")] else []) ++
      (if (v_simple_purpose data === Some (js "all")) && negb (is_given (v_simple_price_tier data))
       then [(js "simple_price_tier", js "Please choose a price tier for Auto mode")] else [])
  | advanced =>
      if negb (is_given (v_name data)) || (trim (default [] (v_name data)) === [])
      then [(js "name", js "Name is required")] else []
  end.

(** ** Defaults *)

Definition DEFAULT_GROUP : jstr := [].

Definition API_KEY_FORM_DEFAULT_VALUES : ApiKeyFormValues :=
  MkValues (Some []) (Some (num_of_Z 10)) None true [] (Some []) (Some DEFAULT_GROUP) (Some true)
    (Some (num_of_Z 1)) simple None None None (Some zero) (Some zero) (Some zero).

Definition getApiKeyFormDefaultValues (defaultUseAutoGroup : bool) (mode : CreateMode) : ApiKeyFormValues :=
  let d := API_KEY_FORM_DEFAULT_VALUES in
  MkValues (v_name d) (v_remain_quota_dollars d) (v_expired_time d) (v_unlimited_quota d) (v_model_limits d)
    (v_allow_ips d) (Some (if defaultUseAutoGroup then js "auto" else DEFAULT_GROUP)) (Some defaultUseAutoGroup)
    (v_tokenCount d) mode (v_simple_purpose d) (v_simple_brand d) (v_simple_price_tier d)
    (v_rpm_limit d) (v_tpm_limit d) (v_monthly_limit d).

(** ** Saving *)

Section store.
(** The settings of the currency display. *)
Context (store : option StoredCurrency).

Definition payload_name (data : ApiKeyFormValues) : jstr :=
  let name := default [] (v_name data) in
  if is_given (v_name data) && (trim name !== []) then name
  else match v_mode data, v_simple_purpose data with
       | simple, Some purpose => if truthy purpose then js "my-" ++ purpose ++ js "-key" else name
       | _, _ => name
       end.

Definition transformFormDataToPayload (data : ApiKeyFormValues) : ApiKeyFormData :=
  let isSimple := v_mode data === simple in
  MkFormData (payload_name data)
    (if v_unlimited_quota data then zero
     else parseQuotaFromDollars store (num_or (num_default (v_remain_quota_dollars data)) zero))
    (match v_expired_time data with
     | Some t => math_floor (ndiv t (num_of_Z 1000))
     | None => num_of_Z (-1)
     end)
    (v_unlimited_quota data)
    (if isSimple then false else (0 <? length (v_model_limits data))%nat)
    (if isSimple then [] else join (js ",") (v_model_limits data))
    (opt_str_or (v_allow_ips data) []) (opt_str_or (v_group data) [])
    (if v_group data === Some (js "auto") then default false (v_cross_group_retry data) else false)
    (if isSimple then v_simple_purpose data else Some [])
    (if isSimple then v_simple_brand data else Some [])
    (if isSimple then v_simple_price_tier data else Some [])
    (num_default (v_rpm_limit data)) (num_default (v_tpm_limit data)) (num_default (v_monthly_limit data)).

(** ** Opening *)

(** [new Date(v).getTime()] *)
Definition math_trunc (x : number) : number :=
  if nltb x zero then nopp (math_floor (nopp x)) else math_floor x.
Definition time_clip (x : number) : number :=
  if negb (is_finite x) || nltb (num_of_Z 8640000000000000) (nabs x) then nan else nadd (math_trunc x) zero.

(** [s || undefined] *)
Definition or_undefined (s : option jstr) : option jstr := if is_given s then s else None.

Definition transformApiKeyToFormDefaults (apiKey : ApiKey) : ApiKeyFormValues :=
  let mode := if is_given (k_simple_purpose apiKey) then simple else advanced in
  MkValues (Some (k_name apiKey))
    (Some (quotaUnitsToDollars store (k_remain_quota apiKey)))
    (if nltb zero (k_expired_time apiKey)
     then Some (time_clip (nmul (k_expired_time apiKey) (num_of_Z 1000))) else None)
    (k_unlimited_quota apiKey)
    (match k_model_limits apiKey with
     | Some l => if truthy l then filter_truthy (split_char 44 l) else []
     | None => []
     end)
    (Some (opt_str_or (k_allow_ips apiKey) []))
    (Some (opt_str_or (k_group apiKey) DEFAULT_GROUP))
    (Some (default false (k_cross_group_retry apiKey)))
    (Some (num_of_Z 1)) mode
    (or_undefined (k_simple_purpose apiKey)) (or_undefined (k_simple_brand apiKey))
    (or_undefined (k_simple_price_tier apiKey))
    (Some (num_default (k_rpm_limit apiKey))) (Some (num_default (k_tpm_limit apiKey)))
    (Some (num_default (k_monthly_limit apiKey))).

(** [x && x > 0] *)
Definition positive_limit (x : option number) : bool :=
  match x with Some x => num_truthy x && nltb zero x | None => false end.

Definition detectAdvancedMode (apiKey : ApiKey) (userDefaultGroup : jstr) : bool :=
  if k_model_limits_enabled apiKey then true
  else if is_given (k_model_limits apiKey) then true
  else if is_given (k_allow_ips apiKey) then true
  else if is_given (k_group apiKey) && (k_group apiKey !== Some userDefaultGroup) then true
  else if (k_group apiKey === Some (js "auto")) && (k_cross_group_retry apiKey === Some false) then true
  else if positive_limit (k_rpm_limit apiKey) then true
  else if positive_limit (k_tpm_limit apiKey) then true
  else if positive_limit (k_monthly_limit apiKey) then true
  else false.

(** What the browser's storage holds; reading and writing may fail. *)
Definition loadPreferredMode (stored : outcome (option jstr)) : CreateMode :=
  match stored with
  | Ret v => if v === Some (js "advanced") then advanced else simple
  | Throw => simple
  end.

(** ** The drawer *)

Record Drawer : Type := MkDrawer { d_form : ApiKeyFormValues; d_mode : CreateMode }.

Definition userDefaultGroup (defaultUseAutoGroup : bool) : jstr :=
  if defaultUseAutoGroup then js "auto" else DEFAULT_GROUP.

Definition open_update (defaultUseAutoGroup : bool) (fetched : ApiKey) : Drawer :=
  MkDrawer (transformApiKeyToFormDefaults fetched)
    (if detectAdvancedMode fetched (userDefaultGroup defaultUseAutoGroup) then advanced else simple).

Definition open_create (defaultUseAutoGroup : bool) (stored : outcome (option jstr)) : Drawer :=
  let preferredMode := loadPreferredMode stored in
  MkDrawer (getApiKeyFormDefaultValues defaultUseAutoGroup preferredMode) preferredMode.

(** What a submission does, in order. *)
Inductive action : Type :=
| Update (id : number) (payload : ApiKeyFormData)
| Create (payload : ApiKeyFormData)
| ToastError (message : jstr)
| ToastCreated (count : nat)
| ToastUpdated
| Refresh
| Close
| ShowCreated (key : jstr) (purpose : option jstr).

(** An answer of the server: success with the key, if any, or a message. *)
Inductive key_answer : Type := Done (key : option jstr) | Rejected (message : option jstr).

Definition with_name (name : jstr) (p : ApiKeyFormData) : ApiKeyFormData :=
  MkFormData name (p_remain_quota p) (p_expired_time p) (p_unlimited_quota p) (p_model_limits_enabled p)
    (p_model_limits p) (p_allow_ips p) (p_group p) (p_cross_group_retry p) (p_simple_purpose p) (p_simple_brand p)
    (p_simple_price_tier p) (p_rpm_limit p) (p_tpm_limit p) (p_monthly_limit p).

Definition CREATE_FAILED : jstr := js "Failed to create API key".
Definition UPDATE_FAILED : jstr := js "Failed to update API key".
Definition UNEXPECTED : jstr := js "An unexpected error occurred".

(** [answer i] is the answer to the request of round [i], [suffix i] its random text. *)
Section create.
Context (answer : nat -> outcome key_answer) (suffix : nat -> jstr) (base : ApiKeyFormData).

Definition request_name (i : nat) : jstr :=
  if (i =? 0)%nat && truthy (p_name base) then p_name base
  else str_or (p_name base) (js "default") ++ js "-" ++ suffix i.

(** The rounds from [i] on: the actions, how many keys were created, the first key,
    and whether a request threw. *)
Fixpoint create_rounds (n i : nat) : list action * nat * option jstr * bool :=
  match n with
  | O => ([], 0, None, false)
  | S n =>
      let request := Create (with_name (request_name i) base) in
      match answer i with
      | Throw => ([request], 0, None, true)
      | Ret (Rejected m) => ([request; ToastError (opt_str_or m CREATE_FAILED)], 0, None, false)
      | Ret (Done key) =>
          let '(acts, count, _, threw) := create_rounds n (S i) in
          (request :: acts, S count, if (i =? 0)%nat && is_given key then key else None, threw)
      end
  end.
End create.

(** The rounds of [for (i = 0; i < count; i++)]. *)
Definition rounds (count : number) : nat :=
  match count with
  | S754_finite s m e => let '(a, b) := fraction s m e in Z.to_nat ((a + b - 1) / b)
  | _ => 0
  end.

Definition onSubmit (currentRow : option number) (mode : CreateMode) (answer : nat -> outcome key_answer)
    (suffix : nat -> jstr) (data : ApiKeyFormValues) : list action :=
  let basePayload := transformFormDataToPayload data in
  match currentRow with
  | Some id =>
      Update id basePayload ::
      match answer 0 with
      | Throw => [ToastError UNEXPECTED]
      | Ret (Done _) => [ToastUpdated; Close; Refresh]
      | Ret (Rejected m) => [ToastError (opt_str_or m UPDATE_FAILED)]
      end
  | None =>
      let count := num_or (num_default (v_tokenCount data)) (num_of_Z 1) in
      let '(acts, successCount, firstKey, threw) := create_rounds answer suffix basePayload (rounds count) 0 in
      acts ++
      if threw then [ToastError UNEXPECTED]
      else if (0 <? successCount)%nat then
        Refresh ::
        match firstKey with
        | Some key =>
            if (mode === simple) && neqb count (num_of_Z 1)
            then [ShowCreated key (v_simple_purpose data); Close]
            else [ToastCreated successCount; Close]
        | None => [ToastCreated successCount; Close]
        end
      else []
  end.
End store.

(** ** Dates *)

(** A time in seconds that a date can hold. *)
Definition seconds_ok (t : Z) : Prop := (0 < t <= 8640000000000)%Z.

Lemma nabs_of_Z z : (0 <= z < 2 ^ 53)%Z -> nabs (num_of_Z z) = num_of_Z z.
Proof.
  intros H. destruct (Z.eq_dec z 0%Z) as [->|Nz]; [done|]. rewrite num_of_pos by (unfold small; lia). done.
Qed.

Lemma finite_of_Z z : small_abs z -> is_finite (num_of_Z z) = true.
Proof. intros H. destruct (Z.eq_dec z 0%Z) as [->|Nz]; [done|]. by rewrite num_of_Z_canon. Qed.

Lemma seconds_roundtrip t : seconds_ok t ->
  math_floor (ndiv (time_clip (nmul (num_of_Z t) (num_of_Z 1000))) (num_of_Z 1000)) = num_of_Z t.
Proof.
  unfold seconds_ok. intros Ht. rewrite nmul_exact by lia. unfold time_clip, math_trunc.
  assert (small_abs (t * 1000)) as Hs by (unfold small_abs; lia).
  rewrite finite_of_Z, nabs_of_Z, nltb_exact by (done || unfold small_abs; lia).
  rewrite (proj2 (Z.ltb_ge _ _)) by lia. cbn [negb orb].
  change zero with (num_of_Z 0). rewrite nltb_exact by (done || unfold small_abs; lia). rewrite (proj2 (Z.ltb_ge _ _)) by lia.
  rewrite math_floor_exact, nadd_exact, Z.add_0_r by (try rewrite Z.add_0_r; done || unfold small_abs; lia).
  rewrite ndiv_exact, math_floor_exact by (unfold small_abs; lia). done.
Qed.

(** ** A stored key and its form *)

(** The limits on models as the form writes them. *)
Definition limits_canonical (k : ApiKey) : Prop :=
  exists l, k_model_limits k = Some (join (js ",") l) /\ Forall (fun m => m <> [] /\ 44%N ∉ m) l /\
    k_model_limits_enabled k = (0 <? length l)%nat.

Definition expiry_ok (k : ApiKey) : Prop :=
  k_expired_time k = num_of_Z (-1) \/ exists t, k_expired_time k = num_of_Z t /\ seconds_ok t.

(** The payload a key is saved as when nothing is changed. *)
Definition resaved_payload (store : option StoredCurrency) (k : ApiKey) : ApiKeyFormData :=
  let isSimple := is_given (k_simple_purpose k) in
  MkFormData (k_name k)
    (if k_unlimited_quota k then zero
     else parseQuotaFromDollars store (num_or (quotaUnitsToDollars store (k_remain_quota k)) zero))
    (k_expired_time k) (k_unlimited_quota k)
    (if isSimple then false else k_model_limits_enabled k)
    (if isSimple then [] else default [] (k_model_limits k))
    (default [] (k_allow_ips k)) (default [] (k_group k))
    (if k_group k === Some (js "auto") then default false (k_cross_group_retry k) else false)
    (if isSimple then k_simple_purpose k else Some [])
    (if isSimple then or_undefined (k_simple_brand k) else Some [])
    (if isSimple then or_undefined (k_simple_price_tier k) else Some [])
    (num_default (k_rpm_limit k)) (num_default (k_tpm_limit k)) (num_default (k_monthly_limit k)).

Lemma opt_str_or_nil s : opt_str_or s [] = default [] s.
Proof. by destruct s as [[|]|]. Qed.

Lemma filter_truthy_id l : Forall (fun m : jstr => m <> []) l -> filter_truthy l = l.
Proof. intros H. apply lfilter_id. eapply Forall_impl; [exact H|]. intros m. apply truthy_true. Qed.

Lemma limits_read_back l : Forall (fun m : jstr => m <> [] /\ 44%N ∉ m) l ->
  (if truthy (join (js ",") l) then filter_truthy (split_char 44 (join (js ",") l)) else []) = l.
Proof.
  intros Hl. destruct l as [|m l]; [done|].
  assert (truthy (join (js ",") (m :: l)) = true) as ->.
  { apply truthy_true. apply Forall_cons in Hl as [[Hm _] _]. destruct l; [done|]. by destruct m. }
  change (js ",") with [44%N]. rewrite split_join_char; [|done|].
  - apply filter_truthy_id. eapply Forall_impl; [exact Hl|]. by intros x [? _].
  - eapply Forall_impl; [exact Hl|]. by intros x [_ ?].
Qed.

Lemma expiry_read_back k : expiry_ok k ->
  match (if nltb zero (k_expired_time k) then Some (time_clip (nmul (k_expired_time k) (num_of_Z 1000))) else None) with
  | Some t => math_floor (ndiv t (num_of_Z 1000))
  | None => num_of_Z (-1)
  end = k_expired_time k.
Proof.
  intros [->|(t & -> & Ht)]; [done|]. change zero with (num_of_Z 0). unfold seconds_ok in Ht.
  rewrite nltb_exact, (proj2 (Z.ltb_lt _ _)) by (unfold small_abs; lia). by apply seconds_roundtrip.
Qed.

(** A key that is opened and saved without changes keeps its name, expiry, limits,
    addresses, group, rate limits and the choices of the simple mode; a limited quota is
    what its display in the currency reads as. *)
Lemma key_resaved store k :
  trim (k_name k) <> [] -> expiry_ok k -> limits_canonical k ->
  transformFormDataToPayload store (transformApiKeyToFormDefaults store k) = resaved_payload store k.
Proof.
  intros Hn He (l & El & Hl & Ee). unfold transformFormDataToPayload, transformApiKeyToFormDefaults, resaved_payload.
  cbn [v_name v_remain_quota_dollars v_expired_time v_unlimited_quota v_model_limits v_allow_ips v_group
       v_cross_group_retry v_tokenCount v_mode v_simple_purpose v_simple_brand v_simple_price_tier v_rpm_limit
       v_tpm_limit v_monthly_limit num_default default].
  rewrite El, limits_read_back, Ee, expiry_read_back by done.
  assert (forall s : option jstr, opt_str_or (Some (opt_str_or s [])) [] = default [] s) as Hs by (by intros [[|]|]).
  unfold DEFAULT_GROUP. rewrite !Hs, opt_str_or_nil. f_equal.
  - unfold payload_name. cbn [v_name is_given default]. rewrite (proj2 (js_eqb_false _ _) Hn).
    destruct (k_name k); [done|]. done.
  - by destruct (is_given (k_simple_purpose k)).
  - by destruct (is_given (k_simple_purpose k)).
  - by destruct (k_group k) as [[|c g]|].
  - unfold or_undefined. by destruct (is_given (k_simple_purpose k)) eqn:E; cbn; rewrite ?E.
  - by destruct (is_given (k_simple_purpose k)).
  - by destruct (is_given (k_simple_purpose k)).
Qed.

(** A form that passes the check is saved under a name that is not blank. *)
Lemma submitted_named store data :
  refine_issues data = [] -> trim (p_name (transformFormDataToPayload store data)) <> [].
Proof.
  unfold refine_issues, transformFormDataToPayload, payload_name. cbn [p_name].
  destruct (is_given (v_name data) && (trim (default [] (v_name data)) !== [])) eqn:En.
  - intros _. apply andb_prop in En as [_ En]. by apply js_eqb_false, negb_true_iff.
  - destruct (v_mode data).
    + intros [H _]%app_eq_nil. destruct (v_simple_purpose data) as [p|]; [|done]. cbn [is_given] in H.
      destruct (truthy p); [|done].
      change (js "my-" ++ p ++ js "-key") with (109%N :: (js "y-" ++ p ++ js "-ke" ++ [121%N])).
      rewrite !app_assoc, <- (app_assoc (js "y-")). by rewrite (trimmed_ends 109%N _ 121%N).
    + destruct (is_given (v_name data)); [|done]. cbn [negb orb andb] in *. by apply negb_false_iff in En as ->.
Qed.

(** A key shown in the simple mode has none of the restrictions that mode hides. *)
Lemma simple_hides_nothing store auto k :
  d_mode (open_update store auto k) = simple ->
  k_model_limits_enabled k = false /\ default [] (k_model_limits k) = [] /\ default [] (k_allow_ips k) = [] /\
  (default [] (k_group k) = [] \/ k_group k = Some (userDefaultGroup auto)) /\
  positive_limit (k_rpm_limit k) = false /\ positive_limit (k_tpm_limit k) = false /\ positive_limit (k_monthly_limit k) = false.
Proof.
  unfold open_update, detectAdvancedMode. cbn [d_mode].
  assert (forall s : option jstr, is_given s = false -> default [] s = []) as Hg by (by intros [[|]|]).
  repeat (case_match; try discriminate). intros _. split_and!; auto.
  match goal with H : is_given (k_group k) && _ = false |- _ => apply andb_false_iff in H as [H|H] end; [by left; apply Hg|].
  right. apply js_eqb_true. by apply negb_false_iff.
Qed.

(** Limits on models that are edited for a key made in the simple mode are not
    saved.  The drawer shows such a key, which the server has is_given limits, in the
    advanced mode, but the form keeps the simple mode, and its payload has no limits. *)
Lemma simple_key_limits_dropped store auto k limits :
  is_given (k_simple_purpose k) = true -> k_model_limits_enabled k = true ->
  let d := open_update store auto k in
  let f := d_form d in
  let edited := MkValues (v_name f) (v_remain_quota_dollars f) (v_expired_time f) (v_unlimited_quota f) limits
                  (v_allow_ips f) (v_group f) (v_cross_group_retry f) (v_tokenCount f) (v_mode f) (v_simple_purpose f)
                  (v_simple_brand f) (v_simple_price_tier f) (v_rpm_limit f) (v_tpm_limit f) (v_monthly_limit f) in
  d_mode d = advanced /\ transformFormDataToPayload store edited = transformFormDataToPayload store f /\
  p_model_limits (transformFormDataToPayload store edited) = [] /\
  p_model_limits_enabled (transformFormDataToPayload store edited) = false.
Proof.
  intros Hp Hl. cbv zeta. unfold open_update, detectAdvancedMode. cbn [d_mode d_form]. rewrite Hl.
  unfold transformFormDataToPayload, transformApiKeyToFormDefaults, payload_name. cbn. rewrite Hp. done.
Qed.

(** ** Creating keys *)

Section batch.
Context (store : option StoredCurrency) (mode : CreateMode) (answer : nat -> outcome key_answer) (suffix : nat -> jstr).

(** The requests among the actions. *)
Definition requests (acts : list action) : list ApiKeyFormData :=
  omap (fun a => match a with Create p => Some p | _ => None end) acts.

(** How many of the answers from [i] on are successes before the first that is not. *)
Fixpoint accepted (n i : nat) : nat :=
  match n with
  | O => 0
  | S n => match answer i with Ret (Done _) => S (accepted n (S i)) | _ => 0 end
  end.

Definition is_rejected (a : outcome key_answer) : bool := match a with Ret (Rejected _) => true | _ => false end.

Lemma accepted_le n i : accepted n i <= n.
Proof. revert i. induction n as [|n IH]; intros i; cbn [accepted]; [done|]. repeat case_match; [|lia..]. specialize (IH (S i)). lia. Qed.

Lemma rounds_exact base n i :
  let '(acts, count, _, threw) := create_rounds answer suffix base n i in
  let a := accepted n i in
  count = a /\ Refresh ∉ acts /\ (forall c, ToastCreated c ∉ acts) /\
  threw = ((a <? n)%nat && negb (is_rejected (answer (i + a)))) /\
  requests acts = List.map (fun j => with_name (request_name suffix base j) base) (seq i (Nat.min n (S a))).
Proof.
  revert i. induction n as [|n IH]; intros i; cbn [create_rounds accepted]; [split_and!; set_solver|].
  destruct (answer i) as [[key|m]|] eqn:Ea.
  - specialize (IH (S i)). destruct (create_rounds answer suffix base n (S i)) as [[[acts count] fk] threw].
    destruct IH as (-> & H1 & H2 & -> & H3). split_and!; [done|set_solver|set_solver| |].
    + rewrite Nat.add_succ_r. done.
    + cbn [requests omap list_omap]. fold (requests acts). rewrite H3. done.
  - split_and!; [done|set_solver|set_solver| |].
    + rewrite Nat.add_0_r, Ea. done.
    + rewrite Nat.min_r by lia. done.
  - split_and!; [done|set_solver|set_solver| |].
    + rewrite Nat.add_0_r, Ea. done.
    + rewrite Nat.min_r by lia. done.
Qed.

(** Creating several keys sends the requests one by one, the first under the given
    name and the others under it with a suffix, and stops at the first that fails; the
    keys that were created are counted, and the list is refreshed when there are some,
    unless the request that failed threw. *)
Lemma batch_exact data :
  let base := transformFormDataToPayload store data in
  let n := rounds (num_or (num_default (v_tokenCount data)) (num_of_Z 1)) in
  let a := accepted n 0 in
  let acts := onSubmit store None mode answer suffix data in
  requests acts = List.map (fun i => with_name (request_name suffix base i) base) (seq 0 (Nat.min n (S a))) /\
  (Refresh ∈ acts <-> 0 < a /\ (a = n \/ is_rejected (answer a) = true)) /\
  (forall c, ToastCreated c ∈ acts -> c = a).
Proof.
  cbv zeta. unfold onSubmit. set (base := transformFormDataToPayload store data). set (n := rounds _).
  pose proof (rounds_exact base n 0) as H. pose proof (accepted_le n 0) as Hle.
  destruct (create_rounds answer suffix base n 0) as [[[acts count] fk] threw].
  destruct H as (-> & H1 & H2 & -> & H3). cbn [Nat.add]. set (a := accepted n 0) in *.
  assert (forall tl, requests (acts ++ tl) = requests acts ++ requests tl) as Hr by (intros; apply omap_app).
  rewrite Hr, H3. destruct ((a <? n)%nat && negb (is_rejected (answer a))) eqn:Et.
  - apply andb_prop in Et as [Hlt%Nat.ltb_lt Hrj%negb_true_iff]. split_and!; [apply app_nil_r| |set_solver].
    split; [set_solver|]. intros [_ [?|?]]; [lia|congruence].
  - assert (a = n \/ is_rejected (answer a) = true) as Hd.
    { apply andb_false_iff in Et as [?%Nat.ltb_ge|?%negb_false_iff]; [left; lia|by right]. }
    destruct (Nat.ltb_spec 0 a) as [Hp|Hp].
    + split_and!; [destruct fk; [case_match|]; apply app_nil_r| |].
      * split; [intros _; done|set_solver].
      * intros c. destruct fk; [case_match|]; set_solver.
    + split_and!; [apply app_nil_r| |set_solver]. split; [set_solver|lia].
Qed.
End batch.

(** ** Examples *)

(** A key with a limit on models that expires, and one made in the simple mode. *)
Definition limited_key : ApiKey :=
  MkApiKey (num_of_Z 7) (js "work") (num_of_Z 500000) false (num_of_Z 1893456000) (Some (js "auto")) (Some true) true
    (Some (js "gpt-4,claude")) None None None None (Some (num_of_Z 60)) None None.
Definition coding_key : ApiKey :=
  MkApiKey (num_of_Z 8) (js "code") zero true (num_of_Z (-1)) None None true (Some (js "claude-sonnet")) None
    (Some (js "coding")) None None None None None.

Lemma key_resaved_witness :
  transformFormDataToPayload None (transformApiKeyToFormDefaults None limited_key) = resaved_payload None limited_key.
Proof.
  apply (key_resaved None limited_key).
  - discriminate.
  - right. exists 1893456000%Z. split; [reflexivity|]. split; reflexivity || discriminate.
  - exists [js "gpt-4"; js "claude"]. split; [reflexivity|]. split; [|reflexivity].
    repeat constructor; [discriminate| |discriminate|]; by apply mem_false.
Defined.

Definition coding_form : ApiKeyFormValues :=
  MkValues None None None true [] None None None None simple (Some (js "coding")) None None None None None.

Lemma submitted_named_witness : trim (p_name (transformFormDataToPayload None coding_form)) <> [].
Proof. apply (submitted_named None coding_form). reflexivity. Defined.

Lemma simple_key_limits_dropped_witness :
  let f := d_form (open_update None false coding_key) in
  let edited := MkValues (v_name f) (v_remain_quota_dollars f) (v_expired_time f) (v_unlimited_quota f) [js "gpt-4"]
                  (v_allow_ips f) (v_group f) (v_cross_group_retry f) (v_tokenCount f) (v_mode f) (v_simple_purpose f)
                  (v_simple_brand f) (v_simple_price_tier f) (v_rpm_limit f) (v_tpm_limit f) (v_monthly_limit f) in
  d_mode (open_update None false coding_key) = advanced /\
  transformFormDataToPayload None edited = transformFormDataToPayload None f /\
  p_model_limits (transformFormDataToPayload None edited) = [] /\
  p_model_limits_enabled (transformFormDataToPayload None edited) = false.
Proof. apply (simple_key_limits_dropped None false coding_key [js "gpt-4"]); reflexivity. Defined.

(** A key without restrictions is shown in the simple mode, but a purpose chosen for it
    there is not saved. *)
Lemma purpose_dropped :
  let k := MkApiKey (num_of_Z 9) (js "plain") zero true (num_of_Z (-1)) None None false None None None None None None None None in
  let d := open_update None false k in
  let f := d_form d in
  let edited := MkValues (v_name f) (v_remain_quota_dollars f) (v_expired_time f) (v_unlimited_quota f) (v_model_limits f)
                  (v_allow_ips f) (v_group f) (v_cross_group_retry f) (v_tokenCount f) (v_mode f) (Some (js "coding"))
                  (v_simple_brand f) (v_simple_price_tier f) (v_rpm_limit f) (v_tpm_limit f) (v_monthly_limit f) in
  d_mode d = simple /\ p_simple_purpose (transformFormDataToPayload None edited) = Some [].
Proof. vm_compute. done. Qed.

(** When a later request of a batch throws, the keys created before it are not shown. *)
Lemma thrown_batch_not_refreshed :
  let data := MkValues (Some (js "k")) None None true [] None None None (Some (num_of_Z 3)) advanced None None None None None None in
  let answer i := if (i =? 0)%nat then Ret (Done None) else Throw in
  let acts := onSubmit None None advanced answer (fun _ => js "x1") data in
  List.map p_name (requests acts) = [js "k"; js "k-x1"] /\
  existsb (fun a => match a with Refresh => true | _ => false end) acts = false.
Proof. vm_compute. done. Qed.

Lemma half_token_count : rounds (Number (js "2.5")) = 3.
Proof. vm_compute. reflexivity. Qed.
