(* ===== verification/TableState.v ===== *)
(** * Table state in the URL

    [hooks/use-table-url-state.ts]: the page, the filters of the columns and the text
    filter of a table live in the search parameters of the URL.  The hook reads them
    from there and navigates to change them.

    The parameters are a finite map; a parameter set to undefined is one that is not
    there, as in the URL.  Navigation and the synchronisation effect are steps of a
    state machine, which also has navigations made elsewhere (the back button). *)
From S2P Require Import Prelude Numbers Exact Json.
From stdpp Require Import gmap.
Local Open Scope js_scope.

Abbreviation params := (gmap jstr json).

(** [{ ...prev, [k]: v }] *)
Definition set_param (k : jstr) (v : option json) (s : params) : params :=
  match v with Some v => <[k := v]> s | None => delete k s end.

Inductive column_type : Type := string_type | array_type.

Record column_cfg : Type := MkColumn {
  cc_columnId : jstr;
  cc_searchKey : jstr;
  cc_type : option column_type;
  cc_serialize : option (json -> option json);
  cc_deserialize : option (option json -> option json)
}.

(** The settings, with their defaults filled in. *)
Record config : Type := MkConfig {
  pageKey : jstr;
  pageSizeKey : jstr;
  defaultPage : number;
  defaultPageSize : number;
  globalFilterKey : jstr;
  globalFilterEnabled : bool;
  trimGlobal : bool;
  columnFiltersCfg : list column_cfg
}.

Definition config_of (page_ pageSize_ : option jstr) (defaultPage_ defaultPageSize_ : option number)
    (key : option jstr) (enabled trim_ : option bool) (columns : list column_cfg) : config :=
  MkConfig (default (js "page") page_) (default (js "pageSize") pageSize_) (default (num_of_Z 1) defaultPage_)
    (default (num_of_Z 20) defaultPageSize_) (default (js "filter") key) (default true enabled) (default true trim_) columns.

Record filter_ : Type := MkFilter { fl_id : jstr; fl_value : json }.
Record PaginationState : Type := MkPagination { pageIndex : number; pageSize : number }.

Definition deserialize (cfg : column_cfg) (v : option json) : option json :=
  match cc_deserialize cfg with Some f => f v | None => v end.
Definition serialize (cfg : column_cfg) (v : json) : option json :=
  match cc_serialize cfg with Some f => f v | None => Some v end.

(** A text that is not blank, a list that is not empty. *)
Definition shown_text (v : option json) : option json :=
  match v with Some (JStr s) => if trim s !== [] then v else None | _ => None end.
Definition shown_list (v : option json) : option json :=
  match v with Some (JArr (_ :: _)) => v | _ => None end.
Definition shown (cfg : column_cfg) (v : option json) : option json :=
  match cc_type cfg with Some string_type => shown_text v | _ => shown_list v end.

Section hook.
Context (c : config).

Definition column_filter (search : params) (cfg : column_cfg) : option filter_ :=
  MkFilter (cc_columnId cfg) <$> shown cfg (deserialize cfg (search !! cc_searchKey cfg)).

Definition initialColumnFilters (search : params) : list filter_ := omap (column_filter search) (columnFiltersCfg c).

(** [typeof raw === 'number' ? raw : d] *)
Definition number_param (k : jstr) (d : number) (search : params) : number :=
  match search !! k with Some (JNum x) => x | _ => d end.

(** [Math.max(0, x)] *)
Definition max_zero (x : number) : number := if is_nan x then nan else if nltb zero x then x else zero.

Definition pagination (search : params) : PaginationState :=
  MkPagination (max_zero (nsub (number_param (pageKey c) (defaultPage c) search) (num_of_Z 1)))
    (number_param (pageSizeKey c) (defaultPageSize c) search).

(** ** The state and its steps *)

Record Table : Type := MkTable {
  t_search : params;
  t_columnFilters : list filter_;
  t_globalFilter : option jstr
}.

Definition initial_global (search : params) : option jstr :=
  if globalFilterEnabled c then
    Some (match search !! globalFilterKey c with Some (JStr s) => s | _ => [] end)
  else None.

Definition mount (search : params) : Table :=
  MkTable search (initialColumnFilters search) (initial_global search).

(** A navigation, followed by the effect that depends on the parameters. *)
Definition navigate (f : params -> params) (t : Table) : Table :=
  let search := f (t_search t) in
  if bool_decide (search = t_search t) then t
  else MkTable search (initialColumnFilters search) (t_globalFilter t).

Definition onPaginationChange (updater : PaginationState -> PaginationState) (t : Table) : Table :=
  let next := updater (pagination (t_search t)) in
  let nextPage := nadd (pageIndex next) (num_of_Z 1) in
  let nextPageSize := pageSize next in
  navigate (fun prev =>
    set_param (pageSizeKey c) (if neqb nextPageSize (defaultPageSize c) then None else Some (JNum nextPageSize))
      (set_param (pageKey c) (if nleb nextPage (defaultPage c) then None else Some (JNum nextPage)) prev)) t.

Definition onGlobalFilterChange (updater : jstr -> jstr) (t : Table) : Table :=
  if globalFilterEnabled c then
    let next := updater (default [] (t_globalFilter t)) in
    let value := if trimGlobal c then trim next else next in
    navigate (fun prev =>
      set_param (globalFilterKey c) (if truthy value then Some (JStr value) else None)
        (set_param (pageKey c) None prev))
      (MkTable (t_search t) (t_columnFilters t) (Some value))
  else t.

Definition find_filter (id : jstr) (fs : list filter_) : option filter_ := List.find (fun f => fl_id f === id) fs.

Definition patch_value (next : list filter_) (cfg : column_cfg) : option json :=
  match shown cfg (fl_value <$> find_filter (cc_columnId cfg) next) with
  | Some v => serialize cfg v
  | None => None
  end.

Definition apply_patch (next : list filter_) (search : params) : params :=
  foldl (fun s cfg => set_param (cc_searchKey cfg) (patch_value next cfg) s) search (columnFiltersCfg c).

Definition onColumnFiltersChange (updater : list filter_ -> list filter_) (t : Table) : Table :=
  let next := updater (t_columnFilters t) in
  navigate (fun prev => apply_patch next (set_param (pageKey c) None prev))
    (MkTable (t_search t) next (t_globalFilter t)).

Inductive reset_to : Type := first | last_.

Definition ensurePageInRange (pageCount : number) (resetTo : reset_to) (t : Table) : Table :=
  let pageNum := number_param (pageKey c) (defaultPage c) (t_search t) in
  if nltb zero pageCount && nltb pageCount pageNum then
    navigate (fun prev => set_param (pageKey c) (match resetTo with last_ => Some (JNum pageCount) | first => None end) prev) t
  else t.

(** What the hook returns as the text filter. *)
Definition globalFilter (t : Table) : option jstr :=
  if globalFilterEnabled c then Some (default [] (t_globalFilter t)) else None.

Inductive table_event : Type :=
| Paginate (updater : PaginationState -> PaginationState)
| FilterText (updater : jstr -> jstr)
| FilterColumns (updater : list filter_ -> list filter_)
| EnsureRange (pageCount : number) (resetTo : reset_to)
| Navigated (search : params).

Definition table_step (e : table_event) (t : Table) : Table :=
  match e with
  | Paginate u => onPaginationChange u t
  | FilterText u => onGlobalFilterChange u t
  | FilterColumns u => onColumnFiltersChange u t
  | EnsureRange n r => ensurePageInRange n r t
  | Navigated search => navigate (fun _ => search) t
  end.

Inductive table_reachable : Table -> Prop :=
| table_mounted search : table_reachable (mount search)
| table_stepped e t : table_reachable t -> table_reachable (table_step e t).

(** ** Parameters *)

Lemma set_param_eq k v s : set_param k v s !! k = v.
Proof. destruct v; cbn [set_param]; [apply lookup_insert_eq|apply lookup_delete_eq]. Qed.

Lemma set_param_ne k j v s : k <> j -> set_param k v s !! j = s !! j.
Proof. intros H. destruct v; cbn [set_param]; [by apply lookup_insert_ne|by apply lookup_delete_ne]. Qed.

Lemma navigate_search f t : t_search (navigate f t) = f (t_search t).
Proof. unfold navigate. case_bool_decide as E; [by rewrite E|done]. Qed.

Lemma navigate_filters f t : f (t_search t) <> t_search t ->
  t_columnFilters (navigate f t) = initialColumnFilters (f (t_search t)).
Proof. intros H. unfold navigate. by rewrite bool_decide_eq_false_2. Qed.

(** *** The patch *)

(** The columns have different parameters, none of which is the page's, and what a
    column writes it reads back. *)
Record columns_ok : Prop := MkColumnsOk {
  keys_distinct : NoDup (List.map cc_searchKey (columnFiltersCfg c));
  ids_distinct : NoDup (List.map cc_columnId (columnFiltersCfg c));
  page_apart : pageKey c ∉ List.map cc_searchKey (columnFiltersCfg c);
  written_read : Forall (fun cfg => shown cfg (deserialize cfg None) = None /\
    forall v, shown cfg (Some v) = Some v -> deserialize cfg (serialize cfg v) = Some v) (columnFiltersCfg c)
}.

Definition apply_columns (next : list filter_) (s : params) (cfgs : list column_cfg) : params :=
  foldl (fun s cfg => set_param (cc_searchKey cfg) (patch_value next cfg) s) s cfgs.

Lemma apply_cons next s cfg cfgs :
  apply_columns next s (cfg :: cfgs) = apply_columns next (set_param (cc_searchKey cfg) (patch_value next cfg) s) cfgs.
Proof. done. Qed.

Lemma patch_other next cfgs k s : k ∉ List.map cc_searchKey cfgs -> apply_columns next s cfgs !! k = s !! k.
Proof.
  revert s. induction cfgs as [|cfg cfgs IH]; intros s Hk; [done|]. cbn [List.map] in Hk.
  apply not_elem_of_cons in Hk as [H Hk]. rewrite apply_cons, IH by done. by apply set_param_ne.
Qed.

Lemma patch_own next cfgs cfg s : NoDup (List.map cc_searchKey cfgs) -> cfg ∈ cfgs ->
  apply_columns next s cfgs !! cc_searchKey cfg = patch_value next cfg.
Proof.
  revert s. induction cfgs as [|d cfgs IH]; intros s Hn Hin; [by apply not_elem_of_nil in Hin|]. cbn [List.map] in Hn.
  apply NoDup_cons in Hn as [Hd Hn]. rewrite apply_cons. apply elem_of_cons in Hin as [->|Hin]; [|by apply IH].
  rewrite patch_other by done.
  apply set_param_eq.
Qed.

(** The filters that a change amounts to: those of known columns with something in
    them, in the order of the columns. *)
Definition normalized (next : list filter_) : list filter_ :=
  omap (fun cfg => MkFilter (cc_columnId cfg) <$> shown cfg (fl_value <$> find_filter (cc_columnId cfg) next))
    (columnFiltersCfg c).

Lemma shown_some cfg v w : shown cfg v = Some w -> v = Some w /\ shown cfg (Some w) = Some w.
Proof.
  unfold shown. intros H. assert (v = Some w) as ->; [|done]. revert H. unfold shown_text, shown_list.
  destruct (cc_type cfg) as [[]|], v as [[| | |s|[]|]|]; try done; by case_match.
Qed.

Lemma omap_ext_in {A B} (f g : A -> option B) (l : list A) : (forall x, x ∈ l -> f x = g x) -> omap f l = omap g l.
Proof.
  induction l as [|x l IH]; intros H; [done|]. cbn [omap list_omap]. rewrite H by left. rewrite IH; [done|].
  intros y Hy. apply H. by right.
Qed.

Lemma patched_filters next s : columns_ok -> initialColumnFilters (apply_patch next s) = normalized next.
Proof.
  intros [Hk _ _ Hw]. unfold initialColumnFilters, normalized. apply omap_ext_in. intros cfg Hin. unfold column_filter.
  change (apply_patch next s) with (apply_columns next s (columnFiltersCfg c)). rewrite patch_own by done. f_equal.
  rewrite Forall_forall in Hw. destruct (Hw cfg Hin) as [H0 H1]. unfold patch_value.
  destruct (shown cfg (fl_value <$> _)) as [v|] eqn:E; [|done]. apply shown_some in E as [_ E]. by rewrite H1.
Qed.

(** After a change of the column filters the parameters hold exactly the filters of
    known columns that are not blank, whatever the table passed; the page is the default
    one again, and all other parameters are as before. *)
Lemma column_filters_in_url u t :
  columns_ok ->
  let next := u (t_columnFilters t) in
  let t' := onColumnFiltersChange u t in
  initialColumnFilters (t_search t') = normalized next /\
  (t_search t' <> t_search t -> t_columnFilters t' = normalized next) /\
  pagination (t_search t') = MkPagination (max_zero (nsub (defaultPage c) (num_of_Z 1))) (pageSize (pagination (t_search t'))) /\
  forall k, k <> pageKey c -> k ∉ List.map cc_searchKey (columnFiltersCfg c) -> t_search t' !! k = t_search t !! k.
Proof.
  intros Hok next t'. unfold t', onColumnFiltersChange. fold next. rewrite navigate_search. cbn [t_search].
  set (s := apply_patch next (set_param (pageKey c) None (t_search t))).
  assert (initialColumnFilters s = normalized next) as Hs by (by apply patched_filters).
  split; [done|]. split; [intros Hne; by rewrite navigate_filters|]. split.
  - unfold pagination, number_param. cbn [pageSize]. do 2 f_equal.
    unfold s. change (apply_patch ?n ?p) with (apply_columns n p (columnFiltersCfg c)).
    rewrite patch_other by apply Hok. by rewrite set_param_eq.
  - intros k Hk Hin. unfold s. change (apply_patch ?n ?p) with (apply_columns n p (columnFiltersCfg c)).
    rewrite patch_other by done. by apply set_param_ne.
Qed.

(** *** The parameters are the source of the filters *)

Lemma find_initial search cfg cfgs : NoDup (List.map cc_columnId cfgs) -> cfg ∈ cfgs ->
  find_filter (cc_columnId cfg) (omap (column_filter search) cfgs) = column_filter search cfg.
Proof.
  induction cfgs as [|d cfgs IH]; intros Hn Hin; [by apply not_elem_of_nil in Hin|]. cbn [List.map] in Hn.
  apply NoDup_cons in Hn as [Hd Hn].
  assert (forall x l, cc_columnId x ∉ List.map cc_columnId l -> find_filter (cc_columnId x) (omap (column_filter search) l) = None) as Hno.
  { intros x l. induction l as [|e l IHl]; intros Hx; [done|]. cbn [List.map] in Hx. apply not_elem_of_cons in Hx as [Hne Hx].
    cbn [omap list_omap]. unfold column_filter at 1. destruct (shown e _); cbn [fmap option_fmap option_map]; [|by apply IHl].
    cbn [find_filter List.find fl_id]. rewrite js_eqb_ne by done. by apply IHl. }
  cbn [omap list_omap]. apply elem_of_cons in Hin as [->|Hin].
  - destruct (column_filter search d) as [f|] eqn:E; [|by apply Hno]. unfold column_filter in E.
    destruct (shown d _); [|done]. injection E as <-. cbn [find_filter List.find fl_id]. by rewrite js_eqb_refl.
  - assert (cc_columnId d <> cc_columnId cfg) as Hne by (intros E; apply Hd; rewrite E; apply list_elem_of_In, in_map, list_elem_of_In, Hin).
    unfold column_filter at 1. destruct (shown d _); cbn [fmap option_fmap option_map]; [|by apply IH].
    cbn [find_filter List.find fl_id]. rewrite js_eqb_ne by done. by apply IH.
Qed.

(** A text that is not blank for a column of texts, a list that is not empty for any
    other. *)
Definition counts (cfg : column_cfg) (v : json) : bool :=
  match cc_type cfg, v with
  | Some string_type, JStr s => bool_decide (trim s <> [])
  | Some string_type, _ => false
  | _, JArr l => negb (Nat.eqb (length l) 0)
  | _, _ => false
  end.
Definition if_counts (cfg : column_cfg) (v : option json) : option json :=
  match v with Some v => if counts cfg v then Some v else None | None => None end.

(** What the table filters a column by: the first filter of that name, if it counts. *)
Definition filtered_by (fs : list filter_) (cfg : column_cfg) : option json :=
  if_counts cfg (option_map fl_value (List.find (fun f => bool_decide (fl_id f = cc_columnId cfg)) fs)).

(** What the parameters say about a column, and what they should say for a value. *)
Definition read_param (search : params) (cfg : column_cfg) : option json :=
  if_counts cfg (match cc_deserialize cfg with Some f => f (search !! cc_searchKey cfg) | None => search !! cc_searchKey cfg end).
Definition written_param (cfg : column_cfg) (v : option json) : option json :=
  match v with
  | Some v => match cc_serialize cfg with Some f => f v | None => Some v end
  | None => None
  end.

Lemma shown_counts cfg v : shown cfg v = if_counts cfg v.
Proof.
  unfold shown, if_counts, counts, shown_text, shown_list. destruct (cc_type cfg) as [[]|], v as [[| | |s|[]|]|]; try done.
  destruct (decide (trim s = [])) as [E|E].
  - rewrite E. done.
  - rewrite js_eqb_ne by done. by rewrite bool_decide_eq_true_2.
Qed.

Lemma filtered_shown fs cfg : shown cfg (fl_value <$> find_filter (cc_columnId cfg) fs) = filtered_by fs cfg.
Proof.
  rewrite shown_counts. unfold filtered_by, find_filter. by f_equal.
Qed.

Lemma read_shown search cfg : shown cfg (deserialize cfg (search !! cc_searchKey cfg)) = read_param search cfg.
Proof. rewrite shown_counts. done. Qed.

Definition in_sync (t : Table) : Prop :=
  forall cfg, cfg ∈ columnFiltersCfg c -> filtered_by (t_columnFilters t) cfg = read_param (t_search t) cfg.

Lemma initial_in_sync search cfg : columns_ok -> cfg ∈ columnFiltersCfg c ->
  filtered_by (initialColumnFilters search) cfg = read_param search cfg.
Proof.
  intros Hok Hin. rewrite <-filtered_shown, <-read_shown. unfold initialColumnFilters.
  rewrite (find_initial search cfg) by (apply Hok || done). unfold column_filter.
  destruct (shown cfg (deserialize cfg _)) as [v|] eqn:E; cbn [fmap option_fmap option_map fl_value].
  - by apply shown_some in E as [_ E].
  - unfold shown, shown_text, shown_list. by destruct (cc_type cfg) as [[]|].
Qed.

Lemma navigate_in_sync f t : columns_ok ->
  (f (t_search t) = t_search t -> in_sync t) -> in_sync (navigate f t).
Proof.
  intros Hok H. unfold navigate. case_bool_decide as E; [by apply H|]. intros cfg Hin. by apply initial_in_sync.
Qed.

Lemma patch_reads next s cfg : columns_ok -> cfg ∈ columnFiltersCfg c -> read_param (apply_patch next s) cfg = filtered_by next cfg.
Proof.
  intros [Hk _ _ Hw] Hin. rewrite <-filtered_shown, <-read_shown.
  change (apply_patch next s) with (apply_columns next s (columnFiltersCfg c)). rewrite patch_own by done.
  rewrite Forall_forall in Hw. destruct (Hw cfg Hin) as [H0 H1]. unfold patch_value.
  destruct (shown cfg (fl_value <$> _)) as [v|] eqn:E; [|done]. apply shown_some in E as [_ E]. by rewrite H1.
Qed.

Lemma reached_in_sync t : columns_ok -> table_reachable t -> in_sync t.
Proof.
  intros Hok. induction 1 as [search|e t _ IH]; [intros cfg Hin; by apply initial_in_sync|].
  destruct e as [u|u|u|n r|search]; cbn [table_step].
  - by apply navigate_in_sync.
  - unfold onGlobalFilterChange. destruct (globalFilterEnabled c); [|done]. by apply navigate_in_sync.
  - apply navigate_in_sync; [done|]. cbn [t_search]. intros E cfg Hin. cbn [t_columnFilters t_search].
    rewrite <- E. symmetry. by apply patch_reads.
  - unfold ensurePageInRange. case_match; [|done]. by apply navigate_in_sync.
  - by apply navigate_in_sync.
Qed.

(** C19: the column filters of a table, for settings in which the columns have different
    names and parameters, none of them the page's, and each column reads back what it
    writes and nothing from a missing parameter. In every state, whatever was done and
    wherever one has navigated, each column is filtered by exactly what its parameter says
    (a text that is not blank, a list that is not empty, or nothing). And a change of the
    column filters takes: each column is then filtered as the change asks, its parameter is
    what the column writes for this, or is gone if there is nothing; the parameter of the
    page is gone, and all others stay. (The text filter of the whole table does not follow
    the parameters, and is not part of this.) *)
Theorem filters_follow_url t : columns_ok -> table_reachable t ->
  (forall cfg, cfg ∈ columnFiltersCfg c -> filtered_by (t_columnFilters t) cfg = read_param (t_search t) cfg) /\
  (forall u, let t' := table_step (FilterColumns u) t in
     (forall cfg, cfg ∈ columnFiltersCfg c ->
        filtered_by (t_columnFilters t') cfg = filtered_by (u (t_columnFilters t)) cfg /\
        t_search t' !! cc_searchKey cfg = written_param cfg (filtered_by (u (t_columnFilters t)) cfg)) /\
     t_search t' !! pageKey c = None /\
     forall k, k <> pageKey c -> k ∉ List.map cc_searchKey (columnFiltersCfg c) -> t_search t' !! k = t_search t !! k).
Proof.
  intros Hok Hr. split; [by apply reached_in_sync|]. intros u t'.
  assert (t_search t' = apply_columns (u (t_columnFilters t)) (set_param (pageKey c) None (t_search t)) (columnFiltersCfg c)) as Es.
  { unfold t'. cbn [table_step]. unfold onColumnFiltersChange. by rewrite navigate_search. }
  split; [|split].
  - intros cfg Hin. assert (filtered_by (t_columnFilters t') cfg = filtered_by (u (t_columnFilters t)) cfg) as E.
    { rewrite (reached_in_sync t' Hok (table_stepped _ _ Hr) cfg Hin), Es. by apply patch_reads. }
    split; [done|]. rewrite Es, patch_own by (apply Hok || done). unfold patch_value. rewrite filtered_shown. done.
  - rewrite Es, patch_other by apply Hok. apply set_param_eq.
  - intros k Hk Hin. rewrite Es, patch_other by done. by apply set_param_ne.
Qed.

(** *** Pages *)

Definition page_int (z : Z) : Prop := (0 <= z < 2 ^ 53 - 1)%Z.

Lemma max_zero_int z : small_abs z -> max_zero (num_of_Z z) = num_of_Z (Z.max 0 z).
Proof.
  intros Hz. unfold max_zero. assert (is_nan (num_of_Z z) = false) as ->.
  { destruct (Z.eq_dec z 0%Z) as [->|Nz]; [done|]. by rewrite num_of_Z_canon. }
  change zero with (num_of_Z 0) at 1. rewrite nltb_exact by (done || unfold small_abs; lia).
  destruct (Z.ltb_spec 0 z); [by rewrite Z.max_r by lia|by rewrite Z.max_l by lia].
Qed.

(** A page and a page size that are chosen are the ones shown, except that a page
    before the default one cannot be reached: the default page is shown instead. *)
Lemma page_in_url t d i n m :
  pageKey c <> pageSizeKey c -> defaultPage c = num_of_Z d -> defaultPageSize c = num_of_Z m ->
  (1 <= d < 2 ^ 53)%Z -> page_int i -> small_abs n -> small_abs m ->
  let t' := onPaginationChange (fun _ => MkPagination (num_of_Z i) (num_of_Z n)) t in
  pagination (t_search t') = MkPagination (num_of_Z (Z.max i (d - 1))) (num_of_Z n).
Proof.
  intros Hk Hd Hm Bd Hi Hn Bm t'. unfold page_int in Hi. unfold t', onPaginationChange. cbn [pageIndex pageSize].
  rewrite navigate_search, nadd_exact, Hd, Hm, nleb_exact, neqb_exact by (unfold small_abs in *; lia).
  unfold pagination, number_param. rewrite set_param_ne, !set_param_eq, Hd, Hm by done. f_equal.
  - destruct (Z.leb_spec (i + 1) d).
    + rewrite nsub_exact, max_zero_int by (unfold small_abs; lia). f_equal. lia.
    + rewrite nsub_exact, max_zero_int by (unfold small_abs; lia). f_equal. lia.
  - by destruct (Z.eqb_spec n m) as [->|].
Qed.

(** When the page shown is beyond the last one, the hook goes to the last or the
    default page; afterwards the page is in range if the default page is, and a page in
    range is left alone. *)
Lemma page_in_range t d n r :
  defaultPage c = num_of_Z d -> (1 <= d < 2 ^ 53)%Z -> (d <= n < 2 ^ 53)%Z ->
  (forall z, number_param (pageKey c) (defaultPage c) (t_search t) = num_of_Z z -> small_abs z ->
     let t' := ensurePageInRange (num_of_Z n) r t in
     exists z', number_param (pageKey c) (defaultPage c) (t_search t') = num_of_Z z' /\ (z' <= n)%Z /\
       ((z <= n)%Z -> t' = t)).
Proof.
  intros Hd Bd Bn z Hz Bz t'. unfold t', ensurePageInRange. rewrite Hz. change zero with (num_of_Z 0).
  rewrite !nltb_exact by (unfold small_abs in *; lia). rewrite (proj2 (Z.ltb_lt 0 n)) by lia. cbn [andb].
  destruct (Z.ltb_spec n z) as [Hlt|Hle].
  - rewrite navigate_search. unfold number_param. rewrite set_param_eq. destruct r.
    + exists d. split; [done|]. split; [lia|]. intros ?. lia.
    + exists n. split; [done|]. split; [lia|]. intros ?. lia.
  - exists z. done.
Qed.

(** The text filter is saved without the white space around it and brings back the
    default page. *)
Lemma text_filter_in_url u t :
  globalFilterEnabled c = true -> trimGlobal c = true -> globalFilterKey c <> pageKey c ->
  let t' := onGlobalFilterChange u t in
  globalFilter t' = Some (trim (u (default [] (t_globalFilter t)))) /\
  initial_global (t_search t') = globalFilter t' /\ t_search t' !! pageKey c = None.
Proof.
  intros He Ht Hk t'. unfold t', onGlobalFilterChange, globalFilter, initial_global. rewrite He, Ht, navigate_search.
  cbn [t_search]. set (value := trim _).
  assert (t_globalFilter (navigate (fun prev => set_param (globalFilterKey c) (if truthy value then Some (JStr value) else None)
    (set_param (pageKey c) None prev)) (MkTable (t_search t) (t_columnFilters t) (Some value))) = Some value) as ->
    by (unfold navigate; by case_bool_decide).
  split; [done|]. rewrite set_param_eq, set_param_ne, set_param_eq by done. split; [|done].
  destruct (truthy value) eqn:E; [done|]. by apply truthy_false in E as ->.
Qed.
End hook.

(** ** Examples *)

Definition status_column : column_cfg := MkColumn (js "status") (js "status") (Some array_type) None None.
Definition name_column : column_cfg := MkColumn (js "name") (js "q") (Some string_type) None None.
Definition sample_config : config := config_of None None None None None None None [status_column; name_column].
Definition sample_search : params := {[ js "page" := JNum (num_of_Z 3); js "tab" := JStr (js "all") ]}.
Definition sample_filters : list filter_ :=
  [MkFilter (js "name") (JStr (js "gpt")); MkFilter (js "status") (JArr [JStr (js "1")]); MkFilter (js "other") (JBool true)].

Lemma sample_columns_ok : columns_ok sample_config.
Proof.
  split.
  - apply (bool_decide_eq_true_1 _). reflexivity.
  - apply (bool_decide_eq_true_1 _). reflexivity.
  - by apply mem_false.
  - repeat constructor.
Qed.

Lemma column_filters_in_url_witness :
  let t := mount sample_config sample_search in
  let t' := onColumnFiltersChange sample_config (fun _ => sample_filters) t in
  initialColumnFilters sample_config (t_search t') = normalized sample_config sample_filters /\
  (t_search t' <> t_search t -> t_columnFilters t' = normalized sample_config sample_filters) /\
  pagination sample_config (t_search t') =
    MkPagination (max_zero (nsub (defaultPage sample_config) (num_of_Z 1))) (pageSize (pagination sample_config (t_search t'))) /\
  forall k, k <> pageKey sample_config -> k ∉ List.map cc_searchKey (columnFiltersCfg sample_config) -> t_search t' !! k = t_search t !! k.
Proof.
  exact (column_filters_in_url sample_config (fun _ => sample_filters) (mount sample_config sample_search) sample_columns_ok).
Defined.

Lemma filters_follow_url_witness :
  let t := table_step sample_config (FilterColumns (fun _ => sample_filters)) (mount sample_config sample_search) in
  filtered_by (t_columnFilters t) status_column = read_param (t_search t) status_column /\ t_search t !! js "page" = None.
Proof.
  split.
  - apply (proj1 (filters_follow_url sample_config _ sample_columns_ok (table_stepped sample_config _ _ (table_mounted sample_config sample_search)))).
    by left.
  - apply (proj2 (filters_follow_url sample_config _ sample_columns_ok (table_mounted sample_config sample_search)) (fun _ => sample_filters)).
Defined.

Lemma page_in_url_witness :
  pagination sample_config (t_search (onPaginationChange sample_config (fun _ => MkPagination (num_of_Z 4) (num_of_Z 50))
    (mount sample_config sample_search))) = MkPagination (num_of_Z (Z.max 4 (1 - 1))) (num_of_Z 50).
Proof.
  apply (page_in_url sample_config (mount sample_config sample_search) 1 4 50 20);
    [discriminate|reflexivity|reflexivity|lia|unfold page_int; lia|unfold small_abs; lia|unfold small_abs; lia].
Defined.

Lemma page_in_range_witness :
  let t := mount sample_config sample_search in
  let t' := ensurePageInRange sample_config (num_of_Z 2) last_ t in
  exists z', number_param (pageKey sample_config) (defaultPage sample_config) (t_search t') = num_of_Z z' /\ (z' <= 2)%Z /\
    ((3 <= 2)%Z -> t' = t).
Proof.
  apply (page_in_range sample_config (mount sample_config sample_search) 1 2 last_ eq_refl ltac:(lia) ltac:(lia) 3%Z);
    [vm_compute; reflexivity|unfold small_abs; lia].
Defined.

(** A column without a type is read as a list, although the type of the settings says
    it is a text: its text is not found. *)
Lemma untyped_column_dropped :
  let c := config_of None None None None None None None [MkColumn (js "name") (js "q") None None None] in
  initialColumnFilters c {[ js "q" := JStr (js "gpt") ]} = [].
Proof. vm_compute. reflexivity. Qed.

(** After going back the text filter is still the later one: only the column filters
    follow the parameters. *)
Lemma text_filter_stale :
  let t := table_step sample_config (FilterText (fun _ => js "gpt")) (mount sample_config sample_search) in
  let back := table_step sample_config (Navigated sample_search) t in
  globalFilter sample_config back = Some (js "gpt") /\ initial_global sample_config (t_search back) = Some [].
Proof. vm_compute. done. Qed.
