(* ===== verification/UsageLogs.v ===== *)
(** * Usage logs

    [features/usage-logs/lib/format.ts], [lib/utils.ts] and the requests of [api.ts]:
    reading the details of a log entry, the tier that a request was billed by, and the
    request for a page of logs.

    The details are a JSON value.  Texts, numbers and flags are read from it at the
    types that [types.ts] gives its fields; the time of day is an argument. *)
From S2P Require Import Prelude Regex Numbers Json JsonRoundtrip Encoding Tiers.
From Stdlib Require Import SpecFloat.
Local Open Scope js_scope.

(** ** Reading an entry *)

Definition PARAM_OVERRIDE_ACTION_MAP : list (jstr * jstr) := [
  (js "set", js "Set"); (js "delete", js "Delete"); (js "copy", js "Copy"); (js "move", js "Move");
  (js "append", js "Append"); (js "prepend", js "Prepend"); (js "trim_prefix", js "Trim Prefix");
  (js "trim_suffix", js "Trim Suffix"); (js "ensure_prefix", js "Ensure Prefix"); (js "ensure_suffix", js "Ensure Suffix");
  (js "trim_space", js "Trim Space"); (js "to_lower", js "To Lower"); (js "to_upper", js "To Upper");
  (js "replace", js "Replace"); (js "regex_replace", js "Regex Replace"); (js "set_header", js "Set Header");
  (js "delete_header", js "Delete Header"); (js "copy_header", js "Copy Header"); (js "move_header", js "Move Header");
  (js "pass_headers", js "Pass Headers"); (js "sync_fields", js "Sync Fields"); (js "return_error", js "Return Error")].

Definition getParamOverrideActionLabel (toLowerCase t : jstr -> jstr) (action : jstr) : jstr :=
  match obj_get (toLowerCase action) PARAM_OVERRIDE_ACTION_MAP with Some key => t key | None => action end.

(** Action and content of a line. *)
Definition parseAuditLine (line : jstr) : jstr * jstr :=
  match index_of (js " ") line with
  | Some (S n) => (take (S n) line, drop (S (S n)) line)
  | _ => (line, line)
  end.

Definition field (k : jstr) (other : option json) : option json := opt_prop k other.
Definition is_set (v : option json) : bool := match v with Some v => json_truthy v | None => false end.
Definition text_of (v : option json) : option jstr := match v with Some (JStr s) => Some s | _ => None end.
Definition number_of (v : option json) : option number := match v with Some (JNum x) => Some x | _ => None end.

Definition isViolationFeeLog (other : option json) : bool :=
  is_set other &&
  ((field (js "violation_fee") other === Some (JBool true)) || is_set (field (js "violation_fee_code") other) ||
   is_set (field (js "violation_fee_marker") other)).

Definition parseLogOther (other : jstr) : option json :=
  if negb (truthy other) then None else match JSON_parse other with Ret v => Some v | Throw => None end.

Inductive color : Type := success | warning | danger.

Definition below (x : number) (z : Z) : bool := nltb x (num_of_Z z).

Definition getTimeColor (seconds : number) : color :=
  if below seconds 10 then success else if below seconds 30 then warning else danger.
Definition getFirstResponseTimeColor (seconds : number) : color :=
  if below seconds 5 then success else if below seconds 10 then warning else danger.
Definition getThroughputColor (tokensPerSecond : number) : color :=
  if nleb (num_of_Z 30) tokensPerSecond then success
  else if nleb (num_of_Z 15) tokensPerSecond then warning else danger.
Definition getResponseTimeColor (seconds completionTokens : number) : color :=
  if below completionTokens 100 || nleb seconds zero then getTimeColor seconds
  else getThroughputColor (ndiv completionTokens seconds).

(** The name of the model, whether it was mapped, and to what. *)
Definition formatModelName (model_name log_other : jstr) : jstr * bool * option jstr :=
  let other := parseLogOther log_other in
  let upstream := text_of (field (js "upstream_model_name") other) in
  let isMapped := is_set (field (js "is_model_mapped") other) && match upstream with Some u => truthy u | None => false end in
  (model_name, isMapped, if isMapped then upstream else None).

(** Hexadecimal digits in lower case. *)
Definition percent_lower (b : N) : jstr := [37%N; hex_digit (b / 16); hex_digit (b mod 16)].

(** [has_decoder]: there is a TextDecoder. *)
Definition decodeBillingExprB64 (h : host) (has_decoder : bool) (exprB64 : option json) : jstr :=
  if negb (is_set exprB64) then []
  else
    try_catch (
      let! text := to_String (default JNull exprB64) in
      let! bytes := if has_base64 h then atob text
                    else match buffer h with Some f => Ret (f text) | None => Throw end in
      if has_decoder then Ret (TextDecoder_decode bytes)
      else decodeURIComponent (flat_map percent_lower bytes)) [].

Section labels.
Context (toLowerCase : jstr -> jstr).

Definition resolveMatchedTier (tiers : list ParsedTier) (matchedLabel : option jstr) : option ParsedTier :=
  if (length tiers =? 0)%nat then None
  else match matchedLabel with
       | None | Some [] => None
       | Some _ =>
           List.find (fun tier =>
             let l1 := normalizeTierLabel toLowerCase (Some (pt_label tier)) in
             let l2 := normalizeTierLabel toLowerCase matchedLabel in
             (l1 === l2) && (l1 !== [])) tiers
       end.

(** [(x || 0) > 0] *)
Definition positive_count (v : option json) : bool :=
  match number_of v with Some x => nltb zero (num_or x zero) | None => false end.

Definition hasAnyCacheTokens (other : option json) : bool :=
  is_set other &&
  (positive_count (field (js "cache_tokens") other) || positive_count (field (js "cache_creation_tokens") other) ||
   positive_count (field (js "cache_creation_tokens_5m") other) || positive_count (field (js "cache_creation_tokens_1h") other)).

Record PriceEntry : Type := MkPriceEntry { pe_field : jstr; pe_shortLabel : jstr; pe_price : number }.
Record TieredBillingSummary : Type := MkSummary {
  su_tiers : list ParsedTier;
  su_tier : ParsedTier;
  su_priceEntries : list PriceEntry
}.

Definition summary_price (cacheTokensPresent : bool) (tier : ParsedTier) (v : BillingVar) : option PriceEntry :=
  match v_field v with
  | None | Some [] => None
  | Some f =>
      if (v_group v === Some (js "cache")) && negb cacheTokensPresent then None
      else
        let price := match obj_get f (pt_fields tier) with Some x => x | None => nan end in
        if is_finite price && nltb zero price then Some (MkPriceEntry f (v_shortLabel v) price) else None
  end.

Definition getTieredBillingSummary (h : host) (has_decoder : bool) (other : option json) : option TieredBillingSummary :=
  if negb (is_set other) || (field (js "billing_mode") other !== Some (JStr (js "tiered_expr"))) then None
  else
    let exprStr := decodeBillingExprB64 h has_decoder (field (js "expr_b64") other) in
    if negb (truthy exprStr) then None
    else
      let tiers := parseTiersFromExpr exprStr in
      match resolveMatchedTier tiers (text_of (field (js "matched_tier") other)) with
      | None => None
      | Some tier => Some (MkSummary tiers tier (omap (summary_price (hasAnyCacheTokens other) tier) BILLING_PRICING_VARS))
      end.
End labels.

Inductive time_unit : Type := seconds_unit | milliseconds_unit.

Definition formatDuration (submitTime finishTime : option number) (unit : time_unit) : option (number * jstr) :=
  match submitTime, finishTime with
  | Some s, Some f =>
      if negb (num_truthy s) || negb (num_truthy f) then None
      else
        let durationSec := match unit with
                           | milliseconds_unit => ndiv (nsub f s) (num_of_Z 1000)
                           | seconds_unit => nsub f s
                           end in
        Some (durationSec, if nltb (num_of_Z 60) durationSec then js "red" else js "green")
  | _, _ => None
  end.

(** ** Types of entries *)

Definition DISPLAYABLE_LOG_TYPES : list Z := [0; 2; 5; 6]%Z.
Definition TIMING_LOG_TYPES : list Z := [2; 5]%Z.
Definition one_of (l : list Z) (type : number) : bool := existsb (fun z => neqb (num_of_Z z) type) l.

Definition isDisplayableLogType : number -> bool := one_of DISPLAYABLE_LOG_TYPES.
Definition isTimingLogType : number -> bool := one_of TIMING_LOG_TYPES.

Record LogType : Type := MkLogType { lt_value : number; lt_label : jstr; lt_color : jstr }.
Definition UNKNOWN_TYPE : LogType := MkLogType zero (js "Unknown") (js "default").
Definition LOG_TYPES : list LogType :=
  UNKNOWN_TYPE :: List.map (fun '(z, l, c) => MkLogType (num_of_Z z) l c)
    [(1%Z, js "Top-up", js "cyan"); (2%Z, js "Consume", js "green"); (3%Z, js "Manage", js "orange");
     (4%Z, js "System", js "purple"); (5%Z, js "Error", js "red"); (6%Z, js "Refund", js "blue")].
Definition getLogTypeConfig (type : number) : LogType :=
  default UNKNOWN_TYPE (List.find (fun t => neqb (lt_value t) type) LOG_TYPES).

Definition isPerCallBilling (modelPrice : option number) : bool := nltb zero (default zero modelPrice).

(** ** Requests *)

(** Parameters of a request.  One that is undefined is not among them: if a filter gives it
    a value later it comes last instead of in its place, which only changes the order
    of the query. *)
Abbreviation request_params := (list (jstr * json)).

Definition put_param (k : jstr) (v : option json) (ps : request_params) : request_params :=
  match v with Some v => obj_set k v ps | None => obj_delete k ps end.

Definition no_value (v : json) : bool := match v with JNull => true | JStr [] => true | _ => false end.

Fixpoint query_pairs (ps : request_params) : outcome (list (jstr * jstr)) :=
  match ps with
  | [] => Ret []
  | (k, v) :: ps' =>
      if no_value v then query_pairs ps'
      else let! s := to_String v in let! r := query_pairs ps' in Ret ((k, s) :: r)
  end.
Definition buildQueryParams (ps : request_params) : outcome jstr := let! pairs := query_pairs ps in Ret (query_string pairs).

Definition timestampToSeconds (ms : number) : number := math_floor (ndiv ms (num_of_Z 1000)).

(** Today from midnight to an hour from now. *)
Record time_range : Type := MkRange_ { tr_start : number; tr_end : number }.

Section requests.
Context (today : time_range).

Definition searched (k : jstr) (search : request_params) : option json := obj_get k search.
Definition nullish_or (a b : option json) : option json := match a with None | Some JNull => b | _ => a end.

(** [time ? convertTimestamp(time) : undefined] *)
Definition timestamp (useMilliseconds : bool) (param : option json) (default_ : option number) : outcome (option json) :=
  let time := match param with
              | Some v => if json_truthy v then Some v else JNum <$> default_
              | None => JNum <$> default_
              end in
  match time with
  | Some v =>
      if negb (json_truthy v) then Ret None
      else if useMilliseconds then Ret (Some v)
      else let! x := to_Number (Some v) in Ret (Some (JNum (timestampToSeconds x)))
  | None => Ret None
  end.

Definition buildTimeRangeParams (search : request_params) (useMilliseconds : bool) (ps : request_params) : outcome request_params :=
  let hasTimeParams := is_set (nullish_or (searched (js "startTime") search) (searched (js "endTime") search)) in
  let defaults := if hasTimeParams then None else Some today in
  let! start_ := timestamp useMilliseconds (searched (js "startTime") search) (tr_start <$> defaults) in
  let! end_ := timestamp useMilliseconds (searched (js "endTime") search) (tr_end <$> defaults) in
  Ret (put_param (js "end_timestamp") end_ (put_param (js "start_timestamp") start_ ps)).

Definition buildBaseParams (page pageSize : number) (search : request_params) (useMilliseconds : bool) : outcome request_params :=
  let ps := [(js "p", JNum page); (js "page_size", JNum pageSize)] in
  let! ps := if is_set (searched (js "channel") search)
             then let! s := to_String (default JNull (searched (js "channel") search)) in
                  Ret (put_param (js "channel_id") (Some (JStr s)) ps)
             else Ret ps in
  buildTimeRangeParams search useMilliseconds ps.

(** The one type that was chosen. *)
Definition processType (value : json) : outcome (option json) :=
  match value with
  | JArr [v] => let! x := to_Number (Some v) in Ret (Some (JNum x))
  | _ => Ret None
  end.

Definition as_text (v : json) : outcome (option json) := let! s := to_String v in Ret (Some (JStr s)).
(** [Number(v) || 0] *)
Definition as_number (v : json) : outcome (option json) := let! x := to_Number (Some v) in Ret (Some (JNum (num_or x zero))).

(** [...(c && search.k ? { name: f(search.k) } : {})] *)
Definition from_search (c : bool) (k name : jstr) (f : json -> outcome (option json)) (search ps : request_params)
    : outcome request_params :=
  match searched k search with
  | Some v => if c && json_truthy v then let! w := f v in Ret (put_param name w ps) else Ret ps
  | None => Ret ps
  end.

Definition apply_filter (isAdmin : bool) (ps : request_params) (filter : jstr * json) : outcome request_params :=
  let '(id, value) := filter in
  if no_value value then Ret ps
  else if id === js "type" then let! w := processType value in Ret (put_param (js "type") w ps)
  else if (id === js "model_name") || (id === js "token_name") || (id === js "group") then
    let! w := as_text value in Ret (put_param id w ps)
  else if id === js "channel" then
    if isAdmin then let! w := as_number value in Ret (put_param (js "channel") w ps) else Ret ps
  else if id === js "username" then
    if isAdmin then let! w := as_text value in Ret (put_param (js "username") w ps) else Ret ps
  else Ret ps.

Fixpoint apply_filters (isAdmin : bool) (filters : list (jstr * json)) (ps : request_params) : outcome request_params :=
  match filters with
  | [] => Ret ps
  | f :: fs => let! ps := apply_filter isAdmin ps f in apply_filters isAdmin fs ps
  end.

Definition buildApiParams (page pageSize : number) (search : request_params) (filters : list (jstr * json)) (isAdmin : bool)
    : outcome request_params :=
  let! ps := from_search true (js "type") (js "type") processType search [(js "p", JNum page); (js "page_size", JNum pageSize)] in
  let! ps := from_search true (js "model") (js "model_name") as_text search ps in
  let! ps := from_search true (js "token") (js "token_name") as_text search ps in
  let! ps := from_search true (js "group") (js "group") as_text search ps in
  let! ps := from_search isAdmin (js "channel") (js "channel") as_number search ps in
  let! ps := from_search isAdmin (js "username") (js "username") as_text search ps in
  let! ps := from_search true (js "requestId") (js "request_id") as_text search ps in
  let! ps := buildTimeRangeParams search false ps in
  apply_filters isAdmin filters ps.

(** *** The search parameters of the filter bar *)

Record LogFilters : Type := MkLogFilters {
  lf_startTime : option number;  (** [getTime] of the date *)
  lf_endTime : option number;
  lf_channel : option jstr;
  lf_model : option jstr;
  lf_token : option jstr;
  lf_group : option jstr;
  lf_username : option jstr;
  lf_requestId : option jstr;
  lf_mjId : option jstr;
  lf_taskId : option jstr
}.

(** [...(v && { k: v })] *)
Definition nonempty (v : option jstr) : option jstr := match v with Some s => if truthy s then Some s else None | None => None end.
Definition given (k : jstr) (v : option json) (ps : request_params) : request_params :=
  match v with Some w => obj_set k w ps | None => ps end.
Definition given_text (k : jstr) (v : option jstr) : request_params -> request_params := given k (JStr <$> nonempty v).

Inductive LogCategory : Type := common | drawing | task.

Definition buildSearchParams (filters : LogFilters) (logCategory : LogCategory) : request_params :=
  let base := given_text (js "channel") (lf_channel filters)
    (given (js "endTime") (JNum <$> lf_endTime filters) (given (js "startTime") (JNum <$> lf_startTime filters) [])) in
  match logCategory with
  | common =>
      given_text (js "requestId") (lf_requestId filters) (given_text (js "username") (lf_username filters)
        (given_text (js "group") (lf_group filters) (given_text (js "token") (lf_token filters)
          (given_text (js "model") (lf_model filters) base))))
  | drawing => given_text (js "filter") (lf_mjId filters) base
  | task => given_text (js "filter") (lf_taskId filters) base
  end.

(** *** The request itself *)

Definition buildApiPath (endpoint : jstr) (isAdmin : bool) : jstr := if isAdmin then endpoint else endpoint ++ js "/self".

(** The path of the GET request; the defaults are overwritten by the parameters. *)
Definition fetchLogs (endpoint : jstr) (ps : request_params) (isAdmin : bool) : outcome (jstr * jstr) :=
  let! query := buildQueryParams (obj_assign [(js "p", json_or (obj_get (js "p") ps) (JNum (num_of_Z 1)));
                                              (js "page_size", json_or (obj_get (js "page_size") ps) (JNum (num_of_Z 20)))] ps) in
  Ret (buildApiPath endpoint isAdmin, query).

Definition fetchLogsByCategory (category : LogCategory) (isAdmin : bool) (page pageSize : number) (search : request_params)
    (filters : list (jstr * json)) : outcome (jstr * jstr) :=
  match category with
  | common =>
      let! ps := buildApiParams page pageSize search filters isAdmin in
      fetchLogs (js "/api/log") ps isAdmin
  | drawing =>
      let! ps := buildBaseParams page pageSize search true in
      fetchLogs (js "/api/mj") (put_param (js "mj_id") (searched (js "filter") search) ps) isAdmin
  | task =>
      let! ps := buildBaseParams page pageSize search false in
      fetchLogs (js "/api/task") (put_param (js "task_id") (searched (js "filter") search) ps) isAdmin
  end.
End requests.

(** ** The expression of a log *)

Lemma percent_lower_writes : writes_bytes percent_lower.
Proof.
  intros b t Hb.
  assert (forallb (fun n => let b := N.of_nat n in
    match hex_val (hex_digit (b / 16)), hex_val (hex_digit (b mod 16)) with
    | Some x, Some y => (16 * x + y =? b)%N | _, _ => false end) (seq 0 256) = true) as H by (vm_compute; reflexivity).
  rewrite forallb_forall in H. specialize (H (N.to_nat b)). cbv zeta in H. rewrite N2Nat.id in H.
  assert (In (N.to_nat b) (seq 0 256)) as Hin by (apply in_seq; lia). specialize (H Hin).
  unfold percent_lower. cbn [app read_percent]. rewrite N.eqb_refl.
  destruct (hex_val (hex_digit (b / 16))) as [x|]; [|done]. destruct (hex_val (hex_digit (b mod 16))) as [y|]; [|done].
  by apply N.eqb_eq in H as ->.
Qed.

(** The billing expression that the gateway writes into a log, as base64 of its
    UTF-8 form, is read back, with either decoder the browser may have. *)
Lemma expr_read_back h has_decoder s :
  host_ok h -> well_formed s = true -> head s <> Some 65279%N ->
  decodeBillingExprB64 h has_decoder (Some (JStr (base64 (utf8_bytes s)))) = s.
Proof.
  intros Hh Hw Hb. pose proof (utf8_bytes_bounded s Hw) as Hbs. unfold decodeBillingExprB64.
  cbn [is_set json_truthy default from_option id to_String json_String obind].
  destruct (truthy (base64 (utf8_bytes s))) eqn:Et; cbn [negb].
  - assert ((if has_base64 h then atob (base64 (utf8_bytes s))
             else match buffer h with Some f => Ret (f (base64 (utf8_bytes s))) | None => Throw end) = Ret (utf8_bytes s)) as ->.
    { destruct (has_base64 h) eqn:E; [by apply atob_base64|]. destruct Hh as [?|(f & -> & Hf)]; [congruence|by rewrite Hf]. }
    cbn [obind]. destruct has_decoder; [by rewrite TextDecoder_roundtrip|].
    by rewrite (percent_all_decodes percent_lower s percent_lower_writes).
  - apply truthy_false in Et. assert (atob (base64 (utf8_bytes s)) = atob []) as E by (by rewrite Et).
    rewrite atob_base64 in E by done. injection E as E. rewrite <- (utf8_roundtrip s Hw). by rewrite E.
Qed.

(** ** The tier of a log *)

Section tiers.
Context (toLowerCase : jstr -> jstr).

(** The label of a tier is the one in the log, up to how it is written. *)
Definition labelled (label : jstr) (tier : ParsedTier) : Prop :=
  normalizeTierLabel toLowerCase (Some (pt_label tier)) = normalizeTierLabel toLowerCase (Some label) /\
  normalizeTierLabel toLowerCase (Some label) <> [].

Lemma find_split {A} (f : A -> bool) l x :
  List.find f l = Some x -> exists pre post, l = pre ++ x :: post /\ f x = true /\ Forall (fun y => f y = false) pre.
Proof.
  induction l as [|y l IH]; [done|]. cbn [List.find]. destruct (f y) eqn:E.
  - intros [= ->]. by exists [], l.
  - intros (pre & post & -> & Hx & Hp)%IH. exists (y :: pre), post. by repeat constructor.
Qed.

(** What the list of prices has to say about a variable. *)
Definition priced (other : option json) (tier : ParsedTier) (e : PriceEntry) : Prop :=
  exists v, v ∈ BILLING_PRICING_VARS /\ v_field v = Some (pe_field e) /\ v_shortLabel v = pe_shortLabel e /\
    obj_get (pe_field e) (pt_fields tier) = Some (pe_price e) /\ is_finite (pe_price e) = true /\
    nltb zero (pe_price e) = true /\ (v_group v = Some (js "cache") -> hasAnyCacheTokens other = true).

Lemma entries_priced other tier :
  Forall (priced other tier) (omap (summary_price (hasAnyCacheTokens other) tier) BILLING_PRICING_VARS).
Proof.
  apply Forall_forall. intros e. rewrite list_elem_of_omap. intros (v & Hv & He). unfold summary_price in He.
  destruct (v_field v) as [[|d f]|] eqn:Ef; [done| |done].
  destruct ((v_group v === Some (js "cache")) && negb (hasAnyCacheTokens other)) eqn:Ec; [done|].
  destruct (obj_get (d :: f) (pt_fields tier)) as [x|] eqn:Ex; [|done].
  destruct (is_finite x && nltb zero x) eqn:Ep; [|done]. injection He as <-. apply andb_prop in Ep as [Hfin Hpos].
  exists v. split_and!; try done. intros Hg. rewrite Hg, js_eqb_refl in Ec. by apply negb_false_iff.
Qed.

(** Prices are never guessed.  A summary is only given for the first tier of the
    log's expression that has the label in the log; every price in it is a positive
    price of that tier, and cache prices are only there when the request used the cache. *)
Lemma summary_not_guessed h has_decoder other su :
  getTieredBillingSummary toLowerCase h has_decoder other = Some su ->
  exists label pre post,
    field (js "matched_tier") other = Some (JStr label) /\
    parseTiersFromExpr (decodeBillingExprB64 h has_decoder (field (js "expr_b64") other)) = pre ++ su_tier su :: post /\
    labelled label (su_tier su) /\ Forall (fun t => ~ labelled label t) pre /\
    Forall (priced other (su_tier su)) (su_priceEntries su).
Proof.
  unfold getTieredBillingSummary. case_match; [done|]. case_match; [done|].
  destruct (resolveMatchedTier _ _ _) as [tier|] eqn:Er; [|done]. intros Hsu.
  pose proof (entries_priced other tier) as He. revert Hsu He. generalize (omap (summary_price (hasAnyCacheTokens other) tier) BILLING_PRICING_VARS).
  intros entries [= <-] He. cbn [su_tier su_priceEntries].
  unfold resolveMatchedTier in Er. case_match; [done|].
  destruct (text_of (field (js "matched_tier") other)) as [[|c label]|] eqn:Et; [done| |done].
  apply find_split in Er as (pre & post & El & Hf & Hpre). exists (c :: label), pre, post. split; [|split; [done|]].
  { unfold text_of in Et. by repeat case_match; simplify_eq. }
  rewrite andb_true_iff, negb_true_iff, js_eqb_true, js_eqb_false in Hf. destruct Hf as [Heq Hne].
  split; [split; [exact Heq|by rewrite <- Heq]|]. split; [|done].
  eapply Forall_impl; [exact Hpre|]. intros t Ht [E1 E2]. cbv beta in Ht.
  rewrite E1, js_eqb_refl, (js_eqb_ne _ [] E2) in Ht. discriminate Ht.
Qed.
End tiers.

(** ** Requests of users *)

Lemma obind_ret {A B} (m : outcome A) (f : A -> outcome B) b : obind m f = Ret b -> exists a, m = Ret a /\ f a = Ret b.
Proof. destruct m as [a|]; [|done]. intros H. by exists a. Qed.

(** No parameter that only an administrator may send. *)
Definition plain_params (ps : request_params) : Prop :=
  Forall (fun p : jstr * json => p.1 <> js "channel" /\ p.1 <> js "username") ps.

Lemma plain_put k v ps : k <> js "channel" -> k <> js "username" -> plain_params ps -> plain_params (put_param k v ps).
Proof. intros H1 H2 Hp. destruct v; cbn [put_param]; [by apply Forall_set|by apply Forall_delete]. Qed.

Lemma plain_from_search c k name f search ps ps' :
  (c = true -> name <> js "channel" /\ name <> js "username") -> plain_params ps ->
  from_search c k name f search ps = Ret ps' -> plain_params ps'.
Proof.
  intros Hn Hp. unfold from_search. destruct (searched k search) as [v|]; [|by intros [= <-]].
  destruct (c && json_truthy v) eqn:E; [|by intros [= <-]]. apply andb_prop in E as [-> _].
  intros (w & _ & [= <-])%obind_ret. by apply plain_put; [apply Hn..|].
Qed.

Lemma plain_times today search ms ps ps' :
  plain_params ps -> buildTimeRangeParams today search ms ps = Ret ps' -> plain_params ps'.
Proof.
  intros Hp. unfold buildTimeRangeParams. intros (a & _ & (b & _ & [= <-])%obind_ret)%obind_ret.
  apply plain_put; [keys_ne|keys_ne|]. by apply plain_put; [keys_ne|keys_ne|].
Qed.

Lemma plain_filter ps f ps' : plain_params ps -> apply_filter false ps f = Ret ps' -> plain_params ps'.
Proof.
  intros Hp. destruct f as [id value]. unfold apply_filter. destruct (no_value value); [by intros [= <-]|].
  destruct (id === js "type") eqn:E1; [intros (w & _ & [= <-])%obind_ret; by apply plain_put; [keys_ne|keys_ne|]|].
  destruct ((id === js "model_name") || (id === js "token_name") || (id === js "group")) eqn:E2.
  - intros (w & _ & [= <-])%obind_ret.
    rewrite !orb_true_iff, !js_eqb_true in E2. by apply plain_put; [destruct E2 as [[->| ->]| ->]; keys_ne..|].
  - destruct (id === js "channel"); [by intros [= <-]|]. destruct (id === js "username"); by intros [= <-].
Qed.

Lemma plain_filters fs ps ps' : plain_params ps -> apply_filters false fs ps = Ret ps' -> plain_params ps'.
Proof.
  revert ps. induction fs as [|f fs IH]; intros ps Hp; cbn [apply_filters]; [by intros [= <-]|].
  intros (ps1 & E & H)%obind_ret. eapply IH; [|exact H]. by eapply plain_filter.
Qed.

Lemma plain_api today page size search filters ps :
  buildApiParams today page size search filters false = Ret ps -> plain_params ps.
Proof.
  unfold buildApiParams. intros (p1 & E1 & (p2 & E2 & (p3 & E3 & (p4 & E4 & (p5 & E5 & (p6 & E6 & (p7 & E7 & (p8 & E8 & E9)%obind_ret)%obind_ret)%obind_ret)%obind_ret)%obind_ret)%obind_ret)%obind_ret)%obind_ret.
  eapply plain_filters; [|exact E9]. eapply plain_times; [|exact E8].
  eapply plain_from_search; [|  |exact E7]; [intros _; split; keys_ne|].
  eapply plain_from_search; [|  |exact E6]; [done|]. eapply plain_from_search; [|  |exact E5]; [done|].
  eapply plain_from_search; [|  |exact E4]; [intros _; split; keys_ne|].
  eapply plain_from_search; [|  |exact E3]; [intros _; split; keys_ne|].
  eapply plain_from_search; [|  |exact E2]; [intros _; split; keys_ne|].
  eapply plain_from_search; [|  |exact E1]; [intros _; split; keys_ne|]. repeat constructor; keys_ne.
Qed.

Lemma plain_pairs ps pairs : plain_params ps -> query_pairs ps = Ret pairs ->
  Forall (fun p : jstr * jstr => p.1 <> js "channel" /\ p.1 <> js "username") pairs.
Proof.
  revert pairs. induction ps as [|[k v] ps IH]; intros pairs Hp; cbn [query_pairs]; [intros [= <-]; constructor|].
  apply Forall_cons in Hp as [Hk Hp]. destruct (no_value v); [by apply IH|].
  intros (s & _ & (r & Er & [= <-])%obind_ret)%obind_ret. constructor; [done|by apply IH].
Qed.

(** A user who is no administrator only ever asks for logs of their own, and the
    request for the common logs has no channel and no user name in it, whatever is in
    the address bar and in the filters. *)
Lemma own_logs_only today category page size search filters path query :
  fetchLogsByCategory today category false page size search filters = Ret (path, query) ->
  path ∈ [js "/api/log/self"; js "/api/mj/self"; js "/api/task/self"] /\
  (category = common -> exists pairs, query = query_string pairs /\
     Forall (fun p : jstr * jstr => p.1 <> js "channel" /\ p.1 <> js "username") pairs).
Proof.
  unfold fetchLogsByCategory, fetchLogs. destruct category.
  - intros (ps & Ep & (q & Eq & [= <- <-])%obind_ret)%obind_ret. split; [left|]. intros _. unfold buildQueryParams in Eq.
    apply obind_ret in Eq as (pairs & Epairs & [= <-]). exists pairs. split; [done|].
    eapply plain_pairs; [|exact Epairs]. apply plain_api in Ep. clear Epairs. unfold obj_assign.
    set (o := [_; _]). assert (plain_params o) as Ho by (unfold o; repeat constructor; keys_ne). clearbody o.
    revert o Ho. induction Ep as [|[k v] ps [H1 H2] _ IH]; intros o Ho; [done|]. cbn [foldl fst snd].
    apply IH. by apply Forall_set.
  - intros (ps & Ep & (q & Eq & [= <- <-])%obind_ret)%obind_ret. split; [right; left|done].
  - intros (ps & Ep & (q & Eq & [= <- <-])%obind_ret)%obind_ret. split; [right; right; left|done].
Qed.

(** The server reads back the parameters that have a value. *)
Lemma params_read_back ps pairs :
  query_pairs ps = Ret pairs -> Forall (fun p : jstr * jstr => well_formed p.1 = true /\ well_formed p.2 = true) pairs ->
  exists q, buildQueryParams ps = Ret q /\ read_query q = pairs.
Proof. intros E Hw. exists (query_string pairs). unfold buildQueryParams. rewrite E. split; [done|by apply query_roundtrip]. Qed.

(** ** The filter bar reaches the request *)

Lemma given_get_eq k v ps : obj_get k ps = None -> obj_get k (given k v ps) = v.
Proof. intros H. destruct v; cbn [given]; [apply obj_get_set_eq|done]. Qed.
Lemma given_get_ne k k' v ps : k <> k' -> obj_get k (given k' v ps) = obj_get k ps.
Proof. intros H. destruct v; cbn [given]; [by apply obj_get_set_ne|done]. Qed.

Lemma put_get_ne k k' v ps : k <> k' -> obj_get k (put_param k' v ps) = obj_get k ps.
Proof. intros H. destruct v; cbn [put_param]; [by apply obj_get_set_ne|by apply obj_get_delete_ne]. Qed.

Ltac given_get :=
  unfold given_text;
  repeat first [rewrite given_get_ne by keys_ne | rewrite given_get_eq; [|given_get; fail]]; try reflexivity.

Lemma from_search_text k name v search ps :
  searched k search = JStr <$> nonempty v -> from_search true k name as_text search ps = Ret (given_text name v ps).
Proof.
  intros H. unfold from_search. rewrite H. unfold given_text, nonempty. destruct v as [s|]; [|done].
  destruct (truthy s) eqn:E; [|done]. cbn. by rewrite E.
Qed.

Lemma from_search_number k name v search ps :
  searched k search = JStr <$> nonempty v ->
  from_search true k name as_number search ps =
  Ret (given name ((fun s => JNum (num_or (Number s) zero)) <$> nonempty v) ps).
Proof.
  intros H. unfold from_search. rewrite H. unfold nonempty. destruct v as [s|]; [|done].
  destruct (truthy s) eqn:E; [|done]. cbn. by rewrite E.
Qed.

Lemma times_total today search a b ps :
  searched (js "startTime") search = JNum <$> a -> searched (js "endTime") search = JNum <$> b ->
  exists x y, buildTimeRangeParams today search false ps = Ret (put_param (js "end_timestamp") y (put_param (js "start_timestamp") x ps)) /\
    (forall t, a = Some t -> num_truthy t = true -> x = Some (JNum (timestampToSeconds t))).
Proof.
  intros Ha Hb. unfold buildTimeRangeParams. rewrite Ha, Hb.
  assert (forall c d, exists x, timestamp false (JNum <$> c) d = Ret x /\
            (forall t, c = Some t -> num_truthy t = true -> x = Some (JNum (timestampToSeconds t)))) as Ht.
  { intros c d. unfold timestamp. destruct c as [t|]; cbn [fmap option_fmap option_map json_truthy].
    - destruct (num_truthy t) eqn:E; cbn [json_truthy]; rewrite ?E; cbn [negb].
      + eexists. split; [reflexivity|]. by intros ? [= <-].
      + destruct d as [z|]; cbn [fmap option_fmap option_map json_truthy]; [destruct (num_truthy z)|]; cbn [negb];
          (eexists; split; [reflexivity|]; intros ? [= <-]; by rewrite E).
    - destruct d as [z|]; cbn [fmap option_fmap option_map json_truthy]; [destruct (num_truthy z)|]; cbn [negb];
        (eexists; split; [reflexivity|done]). }
  edestruct (Ht a) as (x & -> & Hx). edestruct (Ht b) as (y & -> & _). by exists x, y.
Qed.

(** What an administrator enters in the filter bar is what the request for the common logs
    asks for: each text under the name the server knows it by, the start in seconds. *)
Lemma filter_bar_sent today page size f :
  exists ps, buildApiParams today page size (buildSearchParams f common) [] true = Ret ps /\
    obj_get (js "model_name") ps = JStr <$> nonempty (lf_model f) /\
    obj_get (js "token_name") ps = JStr <$> nonempty (lf_token f) /\
    obj_get (js "group") ps = JStr <$> nonempty (lf_group f) /\
    obj_get (js "username") ps = JStr <$> nonempty (lf_username f) /\
    obj_get (js "request_id") ps = JStr <$> nonempty (lf_requestId f) /\
    (forall t, lf_startTime f = Some t -> num_truthy t = true ->
       obj_get (js "start_timestamp") ps = Some (JNum (timestampToSeconds t))).
Proof.
  unfold buildApiParams. set (search := buildSearchParams f common).
  assert (searched (js "type") search = None) as Etype by (unfold searched, search, buildSearchParams; given_get).
  unfold from_search at 1. rewrite Etype. cbn [obind].
  rewrite (from_search_text _ _ (lf_model f)) by (unfold searched, search, buildSearchParams; given_get). cbn [obind].
  rewrite (from_search_text _ _ (lf_token f)) by (unfold searched, search, buildSearchParams; given_get). cbn [obind].
  rewrite (from_search_text _ _ (lf_group f)) by (unfold searched, search, buildSearchParams; given_get). cbn [obind].
  rewrite (from_search_number _ _ (lf_channel f)) by (unfold searched, search, buildSearchParams; given_get). cbn [obind].
  rewrite (from_search_text _ _ (lf_username f)) by (unfold searched, search, buildSearchParams; given_get). cbn [obind].
  rewrite (from_search_text _ _ (lf_requestId f)) by (unfold searched, search, buildSearchParams; given_get). cbn [obind].
  edestruct (times_total today search (lf_startTime f) (lf_endTime f)) as (x & y & -> & Hx);
    [unfold searched, search, buildSearchParams; given_get..|].
  cbn [obind apply_filters]. eexists. split; [reflexivity|].
  do 5 (split; [rewrite !put_get_ne by keys_ne; given_get|]).
  intros t Ht Hz. rewrite put_get_ne by keys_ne. rewrite (Hx t Ht Hz). apply obj_get_set_eq.
Qed.

(** ** Examples *)

Definition sample_expr : jstr := js "v1: tier(" ++ dq ++ js "base" ++ dq ++ js ", p * 2 + c * 8 + cr * 0.5)".

Lemma expr_read_back_witness :
  decodeBillingExprB64 browser true (Some (JStr (base64 (utf8_bytes (sample_expr ++ [233%N]))))) = sample_expr ++ [233%N].
Proof. apply (expr_read_back browser true (sample_expr ++ [233%N])); [by left|reflexivity|discriminate]. Defined.

Definition sample_log : json :=
  JObj [(js "billing_mode", JStr (js "tiered_expr")); (js "expr_b64", JStr (base64 (utf8_bytes sample_expr)));
        (js "matched_tier", JStr (js "base"))].

Definition sample_summary : TieredBillingSummary :=
  match getTieredBillingSummary (fun s => s) browser true (Some sample_log) with
  | Some su => su
  | None => MkSummary [] (MkTier [] [] []) []
  end.

(** The prices of a log without cache tokens. *)
Lemma sample_prices :
  List.map (fun e => (pe_shortLabel e, pe_price e)) (su_priceEntries sample_summary) =
  [(js "Input", num_of_Z 2); (js "Output", num_of_Z 8)].
Proof. vm_compute. reflexivity. Qed.

Lemma summary_not_guessed_witness :
  exists label pre post,
    field (js "matched_tier") (Some sample_log) = Some (JStr label) /\
    parseTiersFromExpr (decodeBillingExprB64 browser true (field (js "expr_b64") (Some sample_log))) =
      pre ++ su_tier sample_summary :: post /\
    labelled (fun s => s) label (su_tier sample_summary) /\ Forall (fun t => ~ labelled (fun s => s) label t) pre /\
    Forall (priced (Some sample_log) (su_tier sample_summary)) (su_priceEntries sample_summary).
Proof. apply (summary_not_guessed (fun s => s) browser true (Some sample_log) sample_summary). vm_compute. reflexivity. Defined.

Definition noon_today : time_range := MkRange_ (num_of_Z 1700000000000) (num_of_Z 1700040000000).

Definition sample_request : jstr * jstr :=
  try_catch (fetchLogsByCategory noon_today common false (num_of_Z 1) (num_of_Z 20)
    [(js "channel", JNum (num_of_Z 7)); (js "model", JStr (js "gpt 4"))] [(js "username", JStr (js "root"))]) ([], []).

Lemma own_logs_only_witness :
  (js "/api/log/self") ∈ [js "/api/log/self"; js "/api/mj/self"; js "/api/task/self"] /\
  (common = common -> exists pairs, sample_request.2 = query_string pairs /\
     Forall (fun p : jstr * jstr => p.1 <> js "channel" /\ p.1 <> js "username") pairs).
Proof.
  apply (own_logs_only noon_today common (num_of_Z 1) (num_of_Z 20)
    [(js "channel", JNum (num_of_Z 7)); (js "model", JStr (js "gpt 4"))] [(js "username", JStr (js "root"))]).
  vm_compute. reflexivity.
Defined.

Lemma sample_query :
  sample_request.2 = js "p=1&page_size=20&model_name=gpt+4&start_timestamp=1700000000&end_timestamp=1700040000".
Proof. vm_compute. reflexivity. Qed.

(** Choosing two types filters by none: the parameter is dropped. *)
Lemma two_types_dropped :
  let ps := buildApiParams noon_today (num_of_Z 1) (num_of_Z 20) [(js "type", JArr [JStr (js "2")])]
              [(js "type", JArr [JStr (js "2"); JStr (js "5")])] true in
  obj_has (js "type") (try_catch ps [(js "type", JNull)]) = false.
Proof. vm_compute. reflexivity. Qed.

(** The channel of the address bar is sent to the drawing logs for every user. *)
Lemma drawing_channel_for_users :
  exists q, fetchLogsByCategory noon_today drawing false (num_of_Z 1) (num_of_Z 20) [(js "channel", JNum (num_of_Z 7))] [] =
      Ret (js "/api/mj/self", q) /\ includes (js "channel_id=7") q = true.
Proof. eexists. split; vm_compute; reflexivity. Qed.
