(* ===== verification/UpstreamUpdates.v ===== *)
(** * Upstream model updates of channels

    [features/channels/lib/upstream-update-utils.ts] and
    [features/channels/hooks/use-channel-upstream-updates.ts]: the lists of models a
    provider has added or removed, and the hook that applies or detects them.  The
    hook guards each of its four requests with a flag of its own; it is a state machine
    in which requests are under way until their answers arrive.

    What the server answers is a JSON value; the refresh of the list, which the hook
    awaits, and the messages of the browser's own errors are arguments of the events. *)
From S2P Require Import Prelude Numbers Json.
Local Open Scope js_scope.

(** ** Lists of models *)

(** [String(model || '')] *)
Definition model_text (v : json) : outcome jstr := if json_truthy v then to_String v else Ret [].

Fixpoint model_texts (l : list json) : outcome (list jstr) :=
  match l with
  | [] => Ret []
  | v :: l' => let! s := model_text v in let! r := model_texts l' in Ret (s :: r)
  end.

Definition clean_names (l : list jstr) : list jstr := dedup (filter_truthy (List.map trim l)).

(** Something that is not a list has no [map]. *)
Definition normalizeModelList (models : option json) : outcome (list jstr) :=
  match models with
  | Some (JArr l) => let! ws := model_texts l in Ret (clean_names ws)
  | Some v => if json_truthy v then Throw else Ret []
  | None => Ret []
  end.

Record UpstreamUpdateMeta : Type := MkMeta_ {
  um_enabled : bool;
  um_pendingAddModels : list jstr;
  um_pendingRemoveModels : list jstr
}.

Definition parse_settings (settings : option json) : option json :=
  match settings with
  | Some (JStr s) => match JSON_parse s with Ret v => Some v | Throw => None end
  | _ => None
  end.

Definition parseUpstreamUpdateMeta (settings : option json) : outcome UpstreamUpdateMeta :=
  let parsed := match settings with Some (JObj _) => settings | _ => parse_settings settings end in
  match parsed with
  | Some (JObj _) | Some (JArr _) =>
      let! add := normalizeModelList (opt_prop (js "upstream_model_update_last_detected_models") parsed) in
      let! remove := normalizeModelList (opt_prop (js "upstream_model_update_last_removed_models") parsed) in
      Ret (MkMeta_ (opt_prop (js "upstream_model_update_check_enabled") parsed === Some (JBool true)) add remove)
  | _ => Ret (MkMeta_ false [] [])
  end.

Definition getManualIgnoredModelCount (settings : option json) : outcome nat :=
  let parsed := match settings with Some (JObj _) | Some (JArr _) => settings | _ => parse_settings settings end in
  match parsed with
  | Some v =>
      if json_truthy v
      then let! l := normalizeModelList (opt_prop (js "upstream_model_update_ignored_models") parsed) in Ret (length l)
      else Ret 0
  | None => Ret 0
  end.

(** ** The hook *)

Inductive tab : Type := add_tab | remove_tab.

Inductive request : Type :=
| Apply (id : number) (add_models ignore_models remove_models : list jstr)
| ApplyAll
| Detect (id : number)
| DetectAll.

(** The four requests have a flag each. *)
Inductive kind : Type := KApply | KApplyAll | KDetect | KDetectAll.
#[export] Instance kind_eq_dec : EqDecision kind.
Proof. solve_decision. Defined.
Definition kind_of (r : request) : kind :=
  match r with Apply _ _ _ _ => KApply | ApplyAll => KApplyAll | Detect _ => KDetect | DetectAll => KDetectAll end.

(** A request waits for the server, then for the refresh. *)
Inductive wait : Type := posting | refreshing.

(** What can be seen from outside: requests, and messages with the values they are
    filled in with, of which [None] is undefined. *)
Inductive notice : Type :=
| Posted (r : request)
| Info (message : jstr)
| Error_ (message : json)
| Applied (added removed : json) (ignored totalIgnored : nat)
| Detected (added removed : json)
| Batch (k : kind) (channels added removed : json) (fails : option json).

Record Updates : Type := MkUpdates {
  u_showModal : bool;
  u_channel : option number;
  u_addModels : list jstr;
  u_removeModels : list jstr;
  u_preferredTab : tab;
  u_refs : kind -> bool;
  u_loading : kind -> bool;
  u_flight : list (request * wait);
  u_log : list notice
}.

Definition idle : Updates := MkUpdates false None [] [] add_tab (fun _ => false) (fun _ => false) [] [].

Definition say (n : notice) (u : Updates) : Updates :=
  MkUpdates (u_showModal u) (u_channel u) (u_addModels u) (u_removeModels u) (u_preferredTab u) (u_refs u) (u_loading u)
    (u_flight u) (u_log u ++ [n]).
Definition set_flight (fl : list (request * wait)) (u : Updates) : Updates :=
  MkUpdates (u_showModal u) (u_channel u) (u_addModels u) (u_removeModels u) (u_preferredTab u) (u_refs u) (u_loading u)
    fl (u_log u).
Definition upd (k : kind) (b : bool) (f : kind -> bool) : kind -> bool := fun k' => if k' === k then b else f k'.

(** [detectChannelUpdates] has a flag but no loading state. *)
Definition shows_loading (k : kind) : bool := match k with KDetect => false | _ => true end.

Definition set_busy (k : kind) (b : bool) (u : Updates) : Updates :=
  MkUpdates (u_showModal u) (u_channel u) (u_addModels u) (u_removeModels u) (u_preferredTab u) (upd k b (u_refs u))
    (if shows_loading k then upd k b (u_loading u) else u_loading u) (u_flight u) (u_log u).

(** [!record?.id] *)
Definition present_id (id : option number) : option number :=
  match id with Some x => if num_truthy x then Some x else None | None => None end.

Definition openModal (record : option number) (pendingAdd pendingRemove : list jstr) (t : tab) (u : Updates) : Updates :=
  let normAdd := clean_names pendingAdd in
  let normRemove := clean_names pendingRemove in
  match present_id record with
  | Some id =>
      if (length normAdd =? 0)%nat && (length normRemove =? 0)%nat
      then say (Info (js "No processable upstream model updates for this channel")) u
      else MkUpdates true (Some id) normAdd normRemove t (u_refs u) (u_loading u) (u_flight u) (u_log u)
  | None => say (Info (js "No processable upstream model updates for this channel")) u
  end.

Definition closeModal (u : Updates) : Updates :=
  MkUpdates false None [] [] add_tab (u_refs u) (u_loading u) (u_flight u) (u_log u).

(** Setting the flag and sending the request. *)
Definition send (r : request) (u : Updates) : Updates :=
  let u := say (Posted r) (set_busy (kind_of r) true u) in
  set_flight (u_flight u ++ [(r, posting)]) u.

Definition applyUpdates (selectedAdd selectedRemove : list jstr) (u : Updates) : Updates :=
  if u_refs u KApply then u
  else match present_id (u_channel u) with
       | None => closeModal u
       | Some id =>
           let normSelectedAdd := clean_names selectedAdd in
           let ignoreModels := List.filter (fun m => negb (mem m normSelectedAdd)) (u_addModels u) in
           send (Apply id normSelectedAdd ignoreModels (clean_names selectedRemove)) u
       end.

Definition applyAllUpdates (u : Updates) : Updates := if u_refs u KApplyAll then u else send ApplyAll u.

Definition detectChannelUpdates (ch : option number) (u : Updates) : Updates :=
  if u_refs u KDetect then u
  else match present_id ch with None => u | Some id => send (Detect id) u end.

Definition detectAllUpdates (u : Updates) : Updates := if u_refs u KDetectAll then u else send DetectAll u.

(** *** Answers *)

Inductive post_answer : Type :=
| Body (data : option json)                                (** [res.data] *)
| Failed (response message : option json).                 (** the error that was caught *)

Definition fallback (k : kind) : jstr :=
  match k with
  | KApply => js "Operation failed"
  | KApplyAll => js "Batch processing failed"
  | KDetect => js "Detection failed"
  | KDetectAll => js "Batch detection failed"
  end.

(** [v?.length] *)
Definition length_of (v : option json) : option json :=
  match v with
  | Some (JArr l) => Some (JNum (num_of_Z (Z.of_nat (length l))))
  | Some (JStr s) => Some (JNum (num_of_Z (Z.of_nat (length s))))
  | Some (JObj o) => obj_get (js "length") o
  | _ => None
  end.

(** [data?.k?.length || 0], [data?.k || 0], [(data?.k || []).length] *)
Definition length_or_0 (k : jstr) (data : option json) : json := json_or (length_of (opt_prop k data)) (JNum (num_of_Z 0)).
Definition count_or_0 (k : jstr) (data : option json) : json := json_or (opt_prop k data) (JNum (num_of_Z 0)).
Definition fails_of (data : option json) : option json :=
  length_of (Some (json_or (opt_prop (js "failed_channel_ids") data) (JArr []))).

(** The notice of a success; reading the settings may throw. *)
Definition success_notice (r : request) (data : option json) : outcome notice :=
  match r with
  | Apply _ _ ignore _ =>
      let! total := getManualIgnoredModelCount (opt_prop (js "settings") data) in
      Ret (Applied (length_or_0 (js "added_models") data) (length_or_0 (js "removed_models") data)
             (length (clean_names ignore)) total)
  | ApplyAll =>
      Ret (Batch KApplyAll (count_or_0 (js "processed_channels") data) (count_or_0 (js "added_models") data)
             (count_or_0 (js "removed_models") data) (fails_of data))
  | Detect _ => Ret (Detected (length_or_0 (js "add_models") data) (length_or_0 (js "remove_models") data))
  | DetectAll =>
      Ret (Batch KDetectAll (count_or_0 (js "processed_channels") data) (count_or_0 (js "detected_add_models") data)
             (count_or_0 (js "detected_remove_models") data) (fails_of data))
  end.

(** [finally] *)
Definition finish_ (i : nat) (r : request) (u : Updates) : Updates :=
  set_flight (delete i (u_flight u)) (set_busy (kind_of r) false u).

Definition is_success (body : option json) : bool :=
  match opt_prop (js "success") body with Some v => json_truthy v | None => false end.
(** The answer to the request at position [i]. *)
Definition answered (type_error : jstr) (i : nat) (a : post_answer) (u : Updates) : option Updates :=
  match u_flight u !! i with
  | Some (r, posting) =>
      Some (match a with
            | Failed response message =>
                finish_ i r (say (Error_ (json_or response (json_or message (JStr (fallback (kind_of r)))))) u)
            | Body body =>
                if negb (is_success body)
                then finish_ i r (say (Error_ (json_or (opt_prop (js "message") body) (JStr (fallback (kind_of r))))) u)
                else match success_notice r (opt_prop (js "data") body) with
                     | Throw => finish_ i r (say (Error_ (json_or (Some (JStr type_error)) (JStr (fallback (kind_of r))))) u)
                     | Ret n =>
                         let u := say n u in
                         let u := match r with Apply _ _ _ _ => closeModal u | _ => u end in
                         set_flight (<[i := (r, refreshing)]> (u_flight u)) u
                     end
            end)
  | _ => None
  end.

(** The refresh after the request at position [i] ends, or throws. *)
Definition refreshed (i : nat) (error : option (option json * option json)) (u : Updates) : option Updates :=
  match u_flight u !! i with
  | Some (r, refreshing) =>
      Some (finish_ i r (match error with
                         | Some (response, message) =>
                             say (Error_ (json_or response (json_or message (JStr (fallback (kind_of r)))))) u
                         | None => u
                         end))
  | _ => None
  end.

Inductive update_event : Type :=
| EOpen (record : option number) (pendingAdd pendingRemove : list jstr) (t : tab)
| EClose
| EApply (selectedAdd selectedRemove : list jstr)
| EApplyAll
| EDetect (ch : option number)
| EDetectAll
| EAnswer (i : nat) (a : post_answer)
| ERefreshed (i : nat) (error : option (option json * option json)).

Definition update_step (type_error : jstr) (e : update_event) (u : Updates) : option Updates :=
  match e with
  | EOpen record add remove t => Some (openModal record add remove t u)
  | EClose => Some (closeModal u)
  | EApply add remove => Some (applyUpdates add remove u)
  | EApplyAll => Some (applyAllUpdates u)
  | EDetect ch => Some (detectChannelUpdates ch u)
  | EDetectAll => Some (detectAllUpdates u)
  | EAnswer i a => answered type_error i a u
  | ERefreshed i error => refreshed i error u
  end.

Inductive updates_reachable (type_error : jstr) : Updates -> Prop :=
| updates_idle : updates_reachable type_error idle
| updates_stepped u e u' : updates_reachable type_error u -> update_step type_error e u = Some u' -> updates_reachable type_error u'.

Fixpoint updates_run (type_error : jstr) (es : list update_event) (u : Updates) : option Updates :=
  match es with
  | [] => Some u
  | e :: es' => match update_step type_error e u with Some u' => updates_run type_error es' u' | None => None end
  end.

(** ** The invariant *)

Definition kinds (u : Updates) : list kind := (fun p => kind_of p.1) <$> u_flight u.

(** A model name as the lists hold it. *)
Definition cleaned (l : list jstr) : Prop := NoDup l /\ Forall (fun m => m <> [] /\ trim m = m) l.

Record updates_ok (u : Updates) : Prop := MkOk {
  ok_kinds : NoDup (kinds u);
  ok_refs : forall k, u_refs u k = true <-> k ∈ kinds u;
  ok_loading : forall k, u_loading u k = shows_loading k && u_refs u k;
  ok_lists : cleaned (u_addModels u) /\ cleaned (u_removeModels u);
  ok_open : u_showModal u = true ->
    present_id (u_channel u) = u_channel u /\ u_channel u <> None /\ u_addModels u ++ u_removeModels u <> [];
  ok_closed : u_showModal u = false -> u_channel u = None /\ u_addModels u = [] /\ u_removeModels u = []
}.

Lemma clean_names_cleaned l : cleaned (clean_names l).
Proof.
  split; [apply NoDup_dedup|]. apply Forall_forall. intros m Hm. apply elem_of_dedup, elem_of_lfilter in Hm as [Hm Ht].
  apply list_elem_of_In, in_map_iff in Hm as (w & <- & _). split; [by apply truthy_true|apply trim_idem].
Qed.

Lemma cleaned_nil : cleaned [].
Proof. split; constructor. Qed.

Lemma upd_at k b f : upd k b f k = b.
Proof. unfold upd. by rewrite js_eqb_refl. Qed.
Lemma upd_other k b f k' : k' <> k -> upd k b f k' = f k'.
Proof. intros H. unfold upd. by rewrite js_eqb_ne. Qed.

Lemma loading_set k b refs loading :
  (forall k', loading k' = shows_loading k' && refs k') ->
  forall k', (if shows_loading k then upd k b loading else loading) k' = shows_loading k' && upd k b refs k'.
Proof.
  intros H k'. destruct (decide (k' = k)) as [->|Hk].
  - rewrite upd_at. destruct (shows_loading k) eqn:E; [apply upd_at|]. by rewrite H, E.
  - rewrite upd_other by done. destruct (shows_loading k); [rewrite upd_other by done|]; apply H.
Qed.

Lemma say_ok n u : updates_ok u -> updates_ok (say n u).
Proof. intros []. by constructor. Qed.

Lemma close_ok u : updates_ok u -> updates_ok (closeModal u).
Proof. intros []. constructor; try done. split; apply cleaned_nil. Qed.

Lemma present_present id x : present_id id = Some x -> present_id (Some x) = Some x.
Proof. destruct id as [y|]; [|done]. cbn. destruct (num_truthy y) eqn:E; [|done]. intros [= <-]. by rewrite E. Qed.

Lemma dialog_ok record add remove t u : updates_ok u -> updates_ok (openModal record add remove t u).
Proof.
  intros H. unfold openModal. destruct (present_id record) as [id|] eqn:Ei; [|by apply say_ok].
  destruct (_ && _) eqn:E; [by apply say_ok|]. destruct H. constructor; try done.
  - split; apply clean_names_cleaned.
  - intros _. cbn [u_channel u_addModels u_removeModels]. split; [by eapply present_present|]. split; [done|].
    intros [Ha Hr]%app_eq_nil. by rewrite Ha, Hr in E.
Qed.

Lemma send_ok r u : updates_ok u -> u_refs u (kind_of r) = false -> updates_ok (send r u).
Proof.
  intros [] Hf. assert (kind_of r ∉ kinds u) as Hn by (rewrite <- ok_refs0, Hf; done).
  assert (kinds (send r u) = kinds u ++ [kind_of r]) as Hk by (unfold kinds; cbn; by rewrite fmap_app).
  constructor; try done.
  - rewrite Hk. apply NoDup_app. split; [done|]. split; [|apply NoDup_singleton].
    intros k Hi ->%list_elem_of_singleton. done.
  - intros k. rewrite Hk, elem_of_app, list_elem_of_singleton. cbn. destruct (decide (k = kind_of r)) as [->|Hd].
    + rewrite upd_at. tauto.
    + rewrite upd_other, ok_refs0 by done. tauto.
  - cbn. by apply loading_set.
Qed.

Lemma flight_split i r w u :
  u_flight u !! i = Some (r, w) ->
  exists l1 l2, u_flight u = l1 ++ (r, w) :: l2 /\ delete i (u_flight u) = l1 ++ l2 /\
                forall w', <[i := (r, w')]> (u_flight u) = l1 ++ (r, w') :: l2.
Proof.
  intros H. apply list_elem_of_split_length in H as (l1 & l2 & -> & ->). exists l1, l2. split; [done|].
  split; [by rewrite delete_middle|]. intros w'. rewrite insert_app_r_alt, Nat.sub_diag by done. done.
Qed.

Lemma finish_ok i r w u : updates_ok u -> u_flight u !! i = Some (r, w) -> updates_ok (finish_ i r u).
Proof.
  intros [] (l1 & l2 & El & Ed & _)%flight_split.
  assert (kinds (finish_ i r u) = ((fun p => kind_of p.1) <$> l1) ++ ((fun p => kind_of p.1) <$> l2)) as Hk
    by (unfold kinds; cbn; by rewrite Ed, fmap_app).
  unfold kinds in ok_kinds0, ok_refs0. rewrite El, fmap_app in ok_kinds0, ok_refs0. cbn in ok_kinds0, ok_refs0.
  assert (NoDup (kind_of r :: ((fun p => kind_of p.1) <$> l1) ++ ((fun p => kind_of p.1) <$> l2))) as [Hn Hd]%NoDup_cons
    by (by rewrite Permutation_middle).
  constructor; try done.
  - by rewrite Hk.
  - intros k. rewrite Hk. cbn. destruct (decide (k = kind_of r)) as [->|Hne].
    + rewrite upd_at. by split.
    + rewrite upd_other, ok_refs0, !elem_of_app, elem_of_cons by done. tauto.
  - cbn. by apply loading_set.
Qed.

Lemma refresh_ok i r w w' u :
  updates_ok u -> u_flight u !! i = Some (r, w) -> updates_ok (set_flight (<[i := (r, w')]> (u_flight u)) u).
Proof.
  intros [] (l1 & l2 & El & _ & Ei)%flight_split.
  assert (kinds (set_flight (<[i := (r, w')]> (u_flight u)) u) = kinds u) as Hk
    by (unfold kinds; cbn; by rewrite Ei, El, !fmap_app).
  constructor; try done; rewrite Hk; done.
Qed.
#[export] Hint Resolve say_ok close_ok dialog_ok send_ok finish_ok refresh_ok : updates.

Lemma answer_ok type_error i a u u' : updates_ok u -> answered type_error i a u = Some u' -> updates_ok u'.
Proof.
  intros H. unfold answered. destruct (u_flight u !! i) as [[r []]|] eqn:Ei; [|done..].
  intros [= <-]. destruct a as [body|]; [|eauto with updates]. destruct (negb _); [eauto with updates|].
  destruct (success_notice _ _) as [n|]; [|eauto with updates]. destruct r; eapply refresh_ok; eauto with updates.
Qed.

Lemma step_ok type_error e u u' : updates_ok u -> update_step type_error e u = Some u' -> updates_ok u'.
Proof.
  intros H. destruct e as [record add remove t| |add remove| |ch| |i a|i error]; cbn [update_step]; intros E;
    try injection E as <-; eauto using answer_ok with updates.
  - unfold applyUpdates. destruct (u_refs u KApply) eqn:Er; [done|]. destruct (present_id _); eauto with updates.
  - unfold applyAllUpdates. destruct (u_refs u KApplyAll) eqn:Er; eauto with updates.
  - unfold detectChannelUpdates. destruct (u_refs u KDetect) eqn:Er; [done|]. destruct (present_id ch); eauto with updates.
  - unfold detectAllUpdates. destruct (u_refs u KDetectAll) eqn:Er; eauto with updates.
  - revert E. unfold refreshed. destruct (u_flight u !! i) as [[r []]|] eqn:Ei; [done| |done].
    intros [= <-]. destruct error as [[]|]; eauto with updates.
Qed.

Lemma idle_ok : updates_ok idle.
Proof.
  constructor; try done; change (kinds idle) with (@nil kind).
  - constructor.
  - intros k. by rewrite elem_of_nil.
  - intros k. by destruct k.
  - split; apply cleaned_nil.
Qed.

Lemma updates_reachable_ok type_error u : updates_reachable type_error u -> updates_ok u.
Proof. induction 1 as [|u e u' _ IH E]; [apply idle_ok|by eapply step_ok]. Qed.

Lemma updates_run_reach type_error es u u' :
  updates_reachable type_error u -> updates_run type_error es u = Some u' -> updates_reachable type_error u'.
Proof.
  revert u. induction es as [|e es IH]; intros u Hr; cbn [updates_run]; [by intros [= <-]|].
  destruct (update_step type_error e u) as [u1|] eqn:E; [|done]. apply IH. by eapply updates_stepped.
Qed.

(** ** Answers settle the hook *)

Definition update_answer (e : update_event) : Prop :=
  match e with EAnswer _ _ | ERefreshed _ _ => True | _ => False end.

Definition wait_weight (p : request * wait) : nat := match p.2 with posting => 2 | refreshing => 1 end.
Definition flight_weight (u : Updates) : nat := sum_list_with wait_weight (u_flight u).

Lemma flight_weight_bound u : flight_weight u <= 2 * length (u_flight u).
Proof. unfold flight_weight. induction (u_flight u) as [|[r []] l IH]; cbn [sum_list_with length]; unfold wait_weight in *; cbn [snd]; lia. Qed.

Lemma finish_flight i r u : u_flight (finish_ i r u) = delete i (u_flight u).
Proof. done. Qed.

Lemma finish_weight i r w u : u_flight u !! i = Some (r, w) -> flight_weight (finish_ i r u) < flight_weight u.
Proof.
  intros (l1 & l2 & El & Ed & _)%flight_split. unfold flight_weight. rewrite finish_flight, Ed, El, !sum_list_with_app.
  cbn [sum_list_with]. unfold wait_weight at 4. cbn [snd]. destruct w; lia.
Qed.

Lemma answer_weight type_error e u u' :
  update_answer e -> update_step type_error e u = Some u' -> flight_weight u' < flight_weight u.
Proof.
  destruct e as [| | | | | |i a|i error]; try done; intros _; cbn [update_step].
  - unfold answered. destruct (u_flight u !! i) as [[r []]|] eqn:Ei; [|done..]. intros [= <-].
    destruct a as [body|]; [|by apply (finish_weight i r posting (say _ u))].
    destruct (negb _); [by apply (finish_weight i r posting (say _ u))|].
    destruct (success_notice _ _); [|by apply (finish_weight i r posting (say _ u))].
    destruct (flight_split _ _ _ _ Ei) as (l1 & l2 & El & _ & Ew).
    destruct r; cbn; unfold flight_weight; cbn [u_flight set_flight]; rewrite Ew, El, !sum_list_with_app; cbn; lia.
  - unfold refreshed. destruct (u_flight u !! i) as [[r []]|] eqn:Ei; [done| |done]. intros [= <-].
    destruct error as [[]|]; [by apply (finish_weight i r refreshing (say _ u))|by apply (finish_weight i r refreshing)].
Qed.

Lemma updates_run_weight type_error es u u' :
  Forall update_answer es -> updates_run type_error es u = Some u' -> length es + flight_weight u' <= flight_weight u.
Proof.
  revert u. induction es as [|e es IH]; intros u Ha; cbn [updates_run length]; [intros [= <-]; lia|].
  apply Forall_cons in Ha as [He Ha]. destruct (update_step _ e u) as [u1|] eqn:E; [|done].
  intros H%IH; [|done]. apply answer_weight in E; [|done]. lia.
Qed.

Lemma some_answer type_error u : u_flight u <> [] -> exists e u', update_answer e /\ update_step type_error e u = Some u'.
Proof.
  destruct (u_flight u) as [|[r w] l] eqn:E; [done|intros _]. destruct w.
  - exists (EAnswer 0 (Body None)). cbn [update_step update_answer]. unfold answered. rewrite E. cbn. eauto.
  - exists (ERefreshed 0 None). cbn [update_step update_answer]. unfold refreshed. rewrite E. cbn. eauto.
Qed.

Lemma at_rest u : updates_ok u -> u_flight u = [] -> forall k, u_refs u k = false /\ u_loading u k = false.
Proof.
  intros [] E k. assert (u_refs u k = false) as Hf.
  { apply not_true_is_false. rewrite ok_refs0. unfold kinds. rewrite E. apply not_elem_of_nil. }
  split; [done|]. by rewrite ok_loading0, Hf, andb_false_r.
Qed.

(** ** Properties *)

Section properties.
Context (type_error : jstr).

(** However the dialog is used and however late answers come, at most one request
    of each of the four kinds is under way; its flag is set exactly while it is, and
    so is its loading state where it has one.  An open dialog always has a channel and
    something to choose from. *)
Lemma one_request_per_kind u :
  updates_reachable type_error u ->
  NoDup (kinds u) /\
  (forall k, u_refs u k = true <-> exists r w, (r, w) ∈ u_flight u /\ kind_of r = k) /\
  (forall k, u_loading u k = shows_loading k && u_refs u k) /\
  (u_showModal u = true -> u_channel u <> None /\ u_addModels u ++ u_removeModels u <> []).
Proof.
  intros [? Hr ? _ Ho _]%updates_reachable_ok. split; [done|]. split; [|naive_solver].
  intros k. rewrite Hr. unfold kinds. rewrite list_elem_of_fmap. split.
  - intros ([r w] & -> & Hp). by exists r, w.
  - intros (r & w & Hp & <-). by exists (r, w).
Qed.

(** Applying a selection from the open dialog sends, once, the cleaned selection;
    every model that was offered is either added or ignored, never both, and nothing
    is ignored that was not offered. *)
Lemma offered_models_decided u selectedAdd selectedRemove :
  updates_reachable type_error u -> u_showModal u = true -> u_refs u KApply = false ->
  exists id ignore,
    u_channel u = Some id /\
    u_log (applyUpdates selectedAdd selectedRemove u) =
      u_log u ++ [Posted (Apply id (clean_names selectedAdd) ignore (clean_names selectedRemove))] /\
    NoDup ignore /\
    (forall m, m ∈ ignore <-> m ∈ u_addModels u /\ m ∉ clean_names selectedAdd) /\
    (forall m, m ∈ u_addModels u -> m ∈ clean_names selectedAdd \/ m ∈ ignore).
Proof.
  intros Hr Hs Hf. apply updates_reachable_ok in Hr as [_ _ _ [[Hn _] _] Ho _]. destruct (Ho Hs) as (Hp & Hc & _).
  destruct (u_channel u) as [id|] eqn:Ec; [|done].
  exists id, (List.filter (fun m => negb (mem m (clean_names selectedAdd))) (u_addModels u)).
  unfold applyUpdates. rewrite Hf, Ec, Hp. split; [done|]. split; [done|].
  assert (forall m, m ∈ List.filter (fun m => negb (mem m (clean_names selectedAdd))) (u_addModels u) <->
                    m ∈ u_addModels u /\ m ∉ clean_names selectedAdd) as Hi.
  { intros m. rewrite elem_of_lfilter, negb_true_iff, <- not_true_iff_false, mem_true. done. }
  split; [|split; [done|]].
  - apply NoDup_ListNoDup, List.NoDup_filter. by apply NoDup_ListNoDup.
  - intros m Hm. rewrite Hi. destruct (decide (m ∈ clean_names selectedAdd)); [by left|by right].
Qed.

(** The hook always comes to rest: at most two answers per request can arrive, and
    while some request is under way another can, so once they have all arrived no flag
    and no loading state is left set, whether the server accepted, refused or failed. *)
Lemma updates_settle u es u' :
  updates_reachable type_error u -> Forall update_answer es -> updates_run type_error es u = Some u' ->
  length es <= 2 * length (u_flight u) /\
  ((u_flight u' = [] /\ forall k, u_refs u' k = false /\ u_loading u' k = false) \/
   exists e u'', update_answer e /\ update_step type_error e u' = Some u'').
Proof.
  intros Hr Ha E. split.
  - pose proof (updates_run_weight type_error es u u' Ha E). pose proof (flight_weight_bound u). lia.
  - apply (updates_run_reach type_error es u u' Hr) in E. destruct (u_flight u') eqn:Ef.
    + left. split; [done|]. apply at_rest; [by eapply updates_reachable_ok|done].
    + right. apply some_answer. by rewrite Ef.
Qed.
End properties.

(** ** Examples *)

Definition accepted_answer : post_answer := Body (Some (JObj [(js "success", JBool true)])).

Definition updates_after (es : list update_event) : Updates :=
  match updates_run (js "type error") es idle with Some u => u | None => idle end.

Lemma updates_after_reachable es u : updates_run (js "type error") es idle = Some u -> updates_reachable (js "type error") u.
Proof. apply updates_run_reach. constructor. Qed.

(** Two models are offered for channel 7, with a blank name and a repetition. *)
Definition opened : list update_event :=
  [EOpen (Some (num_of_Z 7)) [js " gpt-4o "; []; js "gpt-4o"; js "o3"] [] add_tab].

Lemma opened_reachable : updates_reachable (js "type error") (updates_after opened).
Proof. apply (updates_after_reachable opened). vm_compute. reflexivity. Qed.

Lemma one_request_per_kind_witness :
  let u := updates_after (opened ++ [EApply [js "o3"] []; EDetect (Some (num_of_Z 7)); EApply [] []; EDetectAll; EDetectAll]) in
  kinds u = [KApply; KDetect; KDetectAll] /\ NoDup (kinds u).
Proof.
  cbv zeta. split; [vm_compute; reflexivity|].
  apply (one_request_per_kind (js "type error")
    (updates_after (opened ++ [EApply [js "o3"] []; EDetect (Some (num_of_Z 7)); EApply [] []; EDetectAll; EDetectAll]))).
  apply (updates_after_reachable (opened ++ [EApply [js "o3"] []; EDetect (Some (num_of_Z 7)); EApply [] []; EDetectAll; EDetectAll])).
  vm_compute. reflexivity.
Defined.

Lemma offered_models_decided_witness :
  exists id ignore,
    u_channel (updates_after opened) = Some id /\
    u_log (applyUpdates [js "o3 "] [] (updates_after opened)) =
      u_log (updates_after opened) ++ [Posted (Apply id (clean_names [js "o3 "]) ignore (clean_names []))] /\
    NoDup ignore /\
    (forall m, m ∈ ignore <-> m ∈ u_addModels (updates_after opened) /\ m ∉ clean_names [js "o3 "]) /\
    (forall m, m ∈ u_addModels (updates_after opened) -> m ∈ clean_names [js "o3 "] \/ m ∈ ignore).
Proof. apply (offered_models_decided (js "type error") (updates_after opened) [js "o3 "] [] opened_reachable); vm_compute; reflexivity. Defined.

Lemma updates_settle_witness :
  let u := updates_after (opened ++ [EApply [js "o3"] []]) in
  let u' := updates_after (opened ++ [EApply [js "o3"] []; EAnswer 0 accepted_answer; ERefreshed 0 None]) in
  length [EAnswer 0 accepted_answer; ERefreshed 0 None] <= 2 * length (u_flight u) /\
  ((u_flight u' = [] /\ forall k, u_refs u' k = false /\ u_loading u' k = false) \/
   exists e u'', update_answer e /\ update_step (js "type error") e u' = Some u'').
Proof.
  cbv zeta. apply (updates_settle (js "type error") (updates_after (opened ++ [EApply [js "o3"] []]))
    [EAnswer 0 accepted_answer; ERefreshed 0 None]
    (updates_after (opened ++ [EApply [js "o3"] []; EAnswer 0 accepted_answer; ERefreshed 0 None]))).
  - apply (updates_after_reachable (opened ++ [EApply [js "o3"] []])). reflexivity.
  - repeat constructor.
  - vm_compute. reflexivity.
Defined.

(** The answer to an update that was applied closes whatever dialog is open by then:
    here the dialog of channel 7 was closed while the request was under way, and the one
    opened for channel 8 disappears. *)
Lemma late_answer_closes_next_dialog :
  let es := opened ++ [EApply [js "o3"] []; EClose; EOpen (Some (num_of_Z 8)) [js "o4"] [] add_tab] in
  u_channel (updates_after es) = Some (num_of_Z 8) /\
  u_showModal (updates_after (es ++ [EAnswer 0 accepted_answer])) = false.
Proof. split; vm_compute; reflexivity. Qed.

(** A list of ignored models that is not a list makes the success an error: the update
    has been made, the dialog stays open and the list is not refreshed. *)
Lemma unreadable_settings_hide_success :
  let answer := Body (Some (JObj [(js "success", JBool true);
    (js "data", JObj [(js "settings", JObj [(js "upstream_model_update_ignored_models", JStr (js "o3"))])])])) in
  let u := updates_after (opened ++ [EApply [js "o3"] []; EAnswer 0 answer]) in
  u_showModal u = true /\ u_flight u = [] /\ last (u_log u) = Some (Error_ (JStr (js "type error"))).
Proof. repeat split; vm_compute; reflexivity. Qed.

Lemma sample_meta :
  parseUpstreamUpdateMeta (Some (JObj [(js "upstream_model_update_check_enabled", JBool true);
    (js "upstream_model_update_last_detected_models", JArr [JStr (js " a "); JNull; JStr (js "a"); JNum (num_of_Z 3)])])) =
  Ret (MkMeta_ true [js "a"; js "3"] []).
Proof. reflexivity. Qed.
