(* ===== verification/Settings.v ===== *)
(** * System settings: texts, options and forms

    [features/system-settings/utils/json-parser.ts], [utils/json-validators.ts] and
    [models/utils.ts]: reading, checking and normalising the JSON texts of the settings;
    [hooks/use-system-options.ts]: options as typed values; [hooks/use-settings-form.ts]
    and [hooks/use-update-option.ts]: a form over options with dotted names, which sends
    the options that were changed, one request each.

    The message of the error that [JSON.parse] throws is an argument, and so is the tree of
    fields that the form library marks as dirty.  Form values are JSON values. *)
From S2P Require Import Prelude Regex Numbers Json JsonRoundtrip JsonPretty.
Local Open Scope js_scope.

(** ** Errors of JSON texts *)

(** A letter in either case. *)
Definition any_case (c : N) : re := RSet (fun d => (d =? c)%N || ((d =? c - 32)%N && (97 <=? c)%N && (c <=? 122)%N)).
Definition RLitI (w : jstr) : re := RSeqs (List.map any_case w).
Definition digits_cap (i : nat) : re := RCap i (RPlus (RSet is_digit)).

(** [/at position (\d+)/i] and [/at line (\d+) column (\d+)/i] *)
Definition re_position : re := RSeq (RLitI (js "at position ")) (digits_cap 1).
Definition re_line_column : re :=
  RSeqs [RLitI (js "at line "); digits_cap 1; RLitI (js " column "); digits_cap 2].

(** [parseInt(s, 10)] of digits. *)
Definition parse_digits (ds : jstr) : number := num_of_dec false (digits_val ds) 0.

(** [s.substring(0, n)] *)
Definition before_position (text ds : jstr) : jstr := take (N.to_nat (N.min (digits_val ds) (N.of_nat (length text)))) text.

Record JsonErrorPosition : Type := MkPosition {
  ep_line : option number;
  ep_column : option number;
  ep_position : option number
}.

Definition num_of_nat (n : nat) : number := num_of_Z (Z.of_nat n).

Definition getLineAndColumn (text ds : jstr) : number * number :=
  let lines := split_char 10 (before_position text ds) in
  (num_of_nat (length lines), num_of_nat (length (default [] (last lines)) + 1)).

Definition extractErrorPosition (message jsonString : jstr) : JsonErrorPosition :=
  match re_match re_position message with
  | Some m =>
      let '(line, column) := getLineAndColumn jsonString (cap' 1 m) in
      MkPosition (Some line) (Some column) (Some (parse_digits (cap' 1 m)))
  | None =>
      match re_match re_line_column message with
      | Some m => MkPosition (Some (parse_digits (cap' 1 m))) (Some (parse_digits (cap' 2 m))) None
      | None => MkPosition None None None
      end
  end.

Definition opt_num_truthy (x : option number) : bool := match x with Some x => num_truthy x | None => false end.

Definition isMissingCommaError (message : jstr) : bool :=
  includes (js "Expected ','") message || includes (js "Expected property name") message
  || includes (js "Unexpected string") message.

Definition one : number := num_of_Z 1.

(** The error is always one that [JSON.parse] threw. *)
Definition formatErrorDescription (message jsonString : jstr) : jstr :=
  let position := extractErrorPosition message jsonString in
  match ep_line position, ep_column position with
  | Some line, Some column =>
      if num_truthy line && num_truthy column
      then let hint := if isMissingCommaError message && nltb one line
                       then js " (check line " ++ num_to_str (nsub line one) ++ js " for missing comma)" else [] in
           js "Error at line " ++ num_to_str line ++ js ", column " ++ num_to_str column ++ js ": " ++ message ++ hint
      else match ep_position position with
           | Some p => js "Error at position " ++ num_to_str p ++ js ": " ++ message
           | None => message
           end
  | _, _ =>
      match ep_position position with
      | Some p => js "Error at position " ++ num_to_str p ++ js ": " ++ message
      | None => message
      end
  end.

(** [models/utils.ts] has its own copy of [extractErrorPosition] and of this function, with the position computed in place. *)
Definition formatErrorMessage (message jsonString : jstr) : jstr := formatErrorDescription message jsonString.

(** ** Reading JSON texts *)

Definition blank_text (value : option jstr) : bool :=
  match value with Some s => negb (truthy s) || (trim s === []) | None => true end.

(** [fallback ?? null] *)
Definition safeJsonParse (value : option jstr) (fallback : option json) : json :=
  if blank_text value then default JNull fallback
  else try_catch (JSON_parse (trim (default [] value))) (default JNull fallback).

Definition safeJsonParseWithValidation (value : option jstr) (fallback : json) (validator : json -> bool) : json :=
  let parsed := safeJsonParse value (Some fallback) in
  if negb (validator parsed) then fallback else parsed.

Inductive JsonParseResult : Type := ParseSuccess (data : json) | ParseError (error : jstr).

Definition tryJsonParse (error_of : jstr -> jstr) (value : option jstr) : JsonParseResult :=
  if blank_text value then ParseError (js "Empty value")
  else match JSON_parse (trim (default [] value)) with
       | Ret data => ParseSuccess data
       | Throw => ParseError (error_of (trim (default [] value)))
       end.

Definition isObjectRecord (data : json) : bool := match data with JObj _ => true | _ => false end.
Definition isArray (data : json) : bool := match data with JArr _ => true | _ => false end.
Definition isStringArray (data : json) : bool :=
  match data with JArr l => forallb (fun v => match v with JStr _ => true | _ => false end) l | _ => false end.
Definition isNumberArray (data : json) : bool :=
  match data with JArr l => forallb (fun v => match v with JNum _ => true | _ => false end) l | _ => false end.
Definition isObjectArray (data : json) : bool :=
  match data with JArr l => forallb isObjectRecord l | _ => false end.
Definition createObjectValidator (requiredKeys : list jstr) (data : json) : bool :=
  match data with JObj o => forallb (fun k => obj_has k o) requiredKeys | _ => false end.
Definition createArrayValidator (itemValidator : json -> bool) (data : json) : bool :=
  match data with JArr l => forallb itemValidator l | _ => false end.

Definition formatJsonForTextarea (value : jstr) : jstr :=
  if negb (truthy value) || negb (truthy (trim value)) then []
  else match JSON_parse value with Ret parsed => JSON_pretty parsed | Throw => value end.

Definition normalizeJsonString (value : jstr) : jstr :=
  let trimmed := trim value in
  if negb (truthy trimmed) then []
  else match JSON_parse trimmed with Ret parsed => JSON_stringify parsed | Throw => trimmed end.

Record JsonValidation : Type := MkValidation { jv_valid : bool; jv_message : option jstr }.

Definition validateJsonString (error_of : jstr -> jstr) (value : jstr) (allowEmpty : bool)
    (predicate : option (json -> bool)) (predicateMessage : option jstr) : JsonValidation :=
  let trimmed := trim value in
  if negb (truthy trimmed) then MkValidation allowEmpty (if allowEmpty then None else Some (js "Value is required"))
  else match JSON_parse trimmed with
       | Ret parsed =>
           if match predicate with Some p => negb (p parsed) | None => false end
           then MkValidation false (Some (opt_str_or predicateMessage (js "JSON structure is invalid")))
           else MkValidation true None
       | Throw => MkValidation false (Some (formatErrorMessage (error_of trimmed) trimmed))
       end.

(** ** Options *)

(** The type of a default decides how its option is read. *)
Inductive typeof_ : Type := TString | TNumber | TBoolean | TObject.
#[export] Instance typeof_eq_dec : EqDecision typeof_.
Proof. solve_decision. Defined.
Definition typeof (v : json) : typeof_ :=
  match v with JStr _ => TString | JNum _ => TNumber | JBool _ => TBoolean | _ => TObject end.
Definition type_name (t : typeof_) : jstr :=
  match t with TString => js "string" | TNumber => js "number" | TBoolean => js "boolean" | TObject => js "object" end.

Inductive ParseResult : Type :=
| Parsed (value : json)
| Unparsed (error : jstr) (fallback : json).

Definition parseOptionValueSafe (error_of : jstr -> jstr) (value : jstr) (defaultValue : json) : ParseResult :=
  match defaultValue with
  | JBool _ => Parsed (JBool ((value === js "true") || (value === js "1")))
  | JNum _ =>
      let trimmed := trim value in
      if trimmed === [] then Unparsed (js "Empty string for number field") defaultValue
      else let parsed := Number trimmed in
           if is_nan parsed then Unparsed (js "Invalid number: " ++ dq ++ value ++ dq) defaultValue
           else Parsed (JNum parsed)
  | JArr ds =>
      match JSON_parse value with
      | Ret (JArr l) =>
          match ds with
          | d :: _ =>
              match List.find (fun el => typeof el !== typeof d) l with
              | Some el => Unparsed (js "Array element type mismatch: expected " ++ type_name (typeof d) ++ js ", got " ++ type_name (typeof el)) defaultValue
              | None => Parsed (JArr l)
              end
          | [] => Parsed (JArr l)
          end
      | Ret _ => Unparsed (js "Expected array but got non-array JSON") defaultValue
      | Throw => Unparsed (js "JSON parse failed: " ++ error_of value) defaultValue
      end
  | _ => Parsed (JStr value)
  end.

Definition option_result (r : ParseResult) : json := match r with Parsed v => v | Unparsed _ fallback => fallback end.

Definition getOptionValue (error_of : jstr -> jstr) (options : option (list (jstr * jstr))) (defaults : list (jstr * json))
    : list (jstr * json) :=
  match options with
  | None => defaults
  | Some options =>
      foldl (fun result option =>
        match obj_get option.1 defaults with
        | Some d => obj_set option.1 (option_result (parseOptionValueSafe error_of option.2 d)) result
        | None => result
        end) (obj_assign [] defaults) options
  end.

(** ** Forms over dotted names *)

(** [parentKey ? `${parentKey}.${key}` : key] *)
Definition next_key (parentKey : option jstr) (key : jstr) : jstr :=
  match parentKey with Some p => if truthy p then p ++ js "." ++ key else key | None => key end.

Fixpoint flatten_at (parentKey : option jstr) (v : json) (result : list (jstr * json)) : list (jstr * json) :=
  match v with
  | JObj o =>
      (fix entries (o : list (jstr * json)) (result : list (jstr * json)) : list (jstr * json) :=
         match o with
         | [] => result
         | (key, value) :: o' => entries o' (flatten_at (Some (next_key parentKey key)) value result)
         end) o result
  | _ => match parentKey with Some k => obj_set k v result | None => result end
  end.
Definition flattenValues (values : json) : list (jstr * json) := flatten_at None values [].

(** The fields the form library marks: a field, or the fields below it. *)
Inductive dirty : Type :=
| Dirty (marked : bool)
| DirtyIn (fields : list (jstr * dirty)).

(** [values[key]] of an object or a list. *)
Definition child (values : option json) (key : jstr) : option json :=
  match values with
  | Some (JObj o) => obj_get key o
  | Some (JArr l) => if is_index key then l !! N.to_nat (digits_val key) else None
  | _ => None
  end.

(** Values that are missing are undefined. *)
Fixpoint collectDirtyValues (dirtyFields : dirty) (values : option json) (parentKey : option jstr)
    (result : list (jstr * option json)) : list (jstr * option json) :=
  match dirtyFields with
  | Dirty true => match parentKey with Some k => obj_set k values result | None => result end
  | Dirty false => result
  | DirtyIn fields =>
      (fix entries (fields : list (jstr * dirty)) (result : list (jstr * option json)) : list (jstr * option json) :=
         match fields with
         | [] => result
         | (key, d) :: fields' => entries fields' (collectDirtyValues d (child values key) (Some (next_key parentKey key)) result)
         end) fields result
  end.

Fixpoint set_deep (o : list (jstr * json)) (segments : list jstr) (value : json) : list (jstr * json) :=
  match segments with
  | [] => o
  | [segment] => obj_set segment value o
  | segment :: rest =>
      let inner := match obj_get segment o with Some (JObj o') => o' | _ => [] end in
      obj_set segment (JObj (set_deep inner rest value)) o
  end.
Definition setDeepValue (target : list (jstr * json)) (path : jstr) (value : json) : list (jstr * json) :=
  set_deep target (split_char 46 path) value.

Fixpoint expandDotPaths (values : json) : json :=
  match values with
  | JObj o =>
      JObj ((fix entries (o result : list (jstr * json)) : list (jstr * json) :=
         match o with
         | [] => result
         | (key, value) :: o' =>
             entries o' (if includes (js ".") key then setDeepValue result key value
                         else match value with
                              | JObj _ => obj_set key (expandDotPaths value) result
                              | _ => obj_set key value result
                              end)
         end) o [])
  | _ => values
  end.

(** [a === b]; lists and objects are compared by what they print. *)
Definition defaultCompare (a b : option json) : bool :=
  match a, b with
  | None, None => true
  | Some a, Some b =>
      match a, b with
      | JNull, JNull => true
      | JBool x, JBool y => eqb x y
      | JNum x, JNum y => neqb x y
      | JStr x, JStr y => x === y
      | (JArr _ | JObj _), (JArr _ | JObj _) => JSON_stringify a === JSON_stringify b
      | _, _ => false
      end
  | _, _ => false
  end.

(** *** The requests *)

(** The answer to a request for one option: the mutation only throws when the request
    itself failed. *)
Inductive option_answer : Type :=
| Updated
| Refused (message : option jstr)
| RequestFailed (message : option jstr).

Inductive form_notice : Type :=
| NoChanges
| SettingUpdated (key : jstr) (refresh_status : bool)
| UpdateError (message : jstr)
| FormReset.

Definition STATUS_RELATED_KEYS : list jstr :=
  [js "theme.frontend"; js "HeaderNavModules"; js "SidebarModulesAdmin"; js "Notice"; js "LogConsumeEnabled";
   js "QuotaPerUnit"; js "USDExchangeRate"; js "DisplayInCurrencyEnabled"; js "DisplayTokenStatEnabled";
   js "general_setting.quota_display_type"; js "general_setting.custom_currency_symbol";
   js "general_setting.custom_currency_exchange_rate"].

Definition update_notice (key : jstr) (a : option_answer) : form_notice :=
  match a with
  | Updated => SettingUpdated key (mem key STATUS_RELATED_KEYS)
  | Refused m | RequestFailed m => UpdateError (opt_str_or m (js "Failed to update setting"))
  end.

(** [for (...) await updateOption.mutateAsync(...)]: the requests that were made with what was shown
    for them, and whether the loop ended. *)
Fixpoint send_updates (answer : jstr -> option json -> option_answer) (updates : list (jstr * option json))
    : list (jstr * option json) * list form_notice * bool :=
  match updates with
  | [] => ([], [], true)
  | (key, value) :: updates' =>
      let a := answer key value in
      match a with
      | RequestFailed _ => ([(key, value)], [update_notice key a], false)
      | _ => let '(sent, notices, done_) := send_updates answer updates' in
             ((key, value) :: sent, update_notice key a :: notices, done_)
      end
  end.

(** *** The hook *)

Record SettingsForm : Type := MkForm {
  sf_values : json;                        (** the values in the form *)
  sf_defaults : json;                      (** what resetting the form goes back to *)
  sf_baseline : list (jstr * json);        (** what changes are compared with *)
  sf_serialized : jstr
}.

Definition open_form (defaultValues : list (jstr * json)) : SettingsForm :=
  let expanded := expandDotPaths (JObj defaultValues) in
  MkForm expanded expanded (flattenValues expanded) (JSON_stringify (JObj (flattenValues expanded))).

(** The effect that runs when the options were loaded again. *)
Definition new_defaults (defaultValues : list (jstr * json)) (f : SettingsForm) : SettingsForm :=
  let expanded := expandDotPaths (JObj defaultValues) in
  let flattened := flattenValues expanded in
  let serialized := JSON_stringify (JObj flattened) in
  if serialized === sf_serialized f then f else MkForm expanded expanded flattened serialized.

Definition changed_entries (compare : option json -> option json -> bool) (d : dirty) (f : SettingsForm)
    : list (jstr * option json) :=
  List.filter (fun p => negb (compare p.2 (obj_get p.1 (sf_baseline f))))
    (collectDirtyValues d (Some (sf_values f)) None []).

(** [onSubmit] gives the requests it made, what was shown for them, and whether it ended without
    throwing. *)
Definition handleSubmit (compare : option json -> option json -> bool)
    (onSubmit : list (jstr * option json) -> list (jstr * option json) * list form_notice * bool)
    (d : dirty) (f : SettingsForm) : SettingsForm * list (jstr * option json) * list form_notice :=
  match changed_entries compare d f with
  | [] => (f, [], [NoChanges])
  | changed =>
      let '(sent, notices, done_) := onSubmit (obj_assign [] changed) in
      if done_
      then let data := sf_values f in
           (MkForm data data (flattenValues data) (JSON_stringify (JObj (flattenValues data))), sent, notices)
      else (f, sent, notices)
  end.

Definition handleReset (f : SettingsForm) : SettingsForm * list form_notice :=
  (MkForm (sf_defaults f) (sf_defaults f) (sf_baseline f) (sf_serialized f), [FormReset]).

(** Typing into a field. *)
Definition type_field (values : json) (f : SettingsForm) : SettingsForm :=
  MkForm values (sf_defaults f) (sf_baseline f) (sf_serialized f).

(** ** Paths *)

Fixpoint get_path (v : json) (segs : list jstr) : option json :=
  match segs with
  | [] => Some v
  | s :: segs' => match v with
                  | JObj o => match obj_get s o with Some w => get_path w segs' | None => None end
                  | _ => None
                  end
  end.

Definition leaf (v : json) : Prop := match v with JObj _ => False | _ => True end.

(** A part of a dotted name. *)
Definition segment_ok (s : jstr) : Prop := s <> [] /\ 46%N ∉ s.

Fixpoint clean (v : json) : Prop :=
  match v with
  | JObj o => NoDup o.*1 /\
      (fix all (o : list (jstr * json)) : Prop :=
         match o with [] => True | (k, w) :: o' => segment_ok k /\ clean w /\ all o' end) o
  | _ => True
  end.

Lemma clean_obj o : clean (JObj o) <-> NoDup o.*1 /\ Forall (fun p => segment_ok p.1 /\ clean p.2) o.
Proof.
  cbn [clean]. assert (forall l : list (jstr * json), (fix all (o : list (jstr * json)) : Prop :=
      match o with [] => True | (k, w) :: o' => segment_ok k /\ clean w /\ all o' end) l <->
      Forall (fun p => segment_ok p.1 /\ clean p.2) l) as ->; [|done].
  induction l as [|[k w] l IH]; [done|]. rewrite Forall_cons, IH. cbn [fst snd]. tauto.
Qed.

Definition dotted (segs : list jstr) : jstr := join (js ".") segs.
Definition parent_of (P : list jstr) : option jstr := match P with [] => None | _ => Some (dotted P) end.

Lemma dotted_inj P Q : P <> [] -> Q <> [] -> Forall segment_ok P -> Forall segment_ok Q -> dotted P = dotted Q -> P = Q.
Proof.
  intros HP HQ H1 H2 E. unfold dotted in E. change (js ".") with [46%N] in E.
  rewrite <- (split_join_char 46 P), <- (split_join_char 46 Q), E; [done|done| |done|];
    eapply Forall_impl; try eassumption; by intros ? [].
Qed.

Lemma dotted_truthy P : P <> [] -> Forall segment_ok P -> truthy (dotted P) = true.
Proof.
  destruct P as [|s P]; [done|]. intros _ [[Hs _] _]%Forall_cons. apply truthy_true. unfold dotted.
  destruct P as [|s' P]; [done|]. rewrite join_cons by done. by destruct s.
Qed.

Lemma dotted_snoc P s : P <> [] -> dotted (P ++ [s]) = dotted P ++ js "." ++ s.
Proof.
  unfold dotted. induction P as [|a P IH]; [done|]. intros _. destruct P as [|b P]; [done|].
  cbn [app]. rewrite (join_cons _ a) by done. rewrite (join_cons _ a (b :: P)) by done.
  rewrite <- !app_assoc. f_equal. f_equal. by apply IH.
Qed.

Lemma next_parent P key : Forall segment_ok P -> Some (next_key (parent_of P) key) = parent_of (P ++ [key]).
Proof.
  intros H. destruct (decide (P = [])) as [->|Hn]; [done|].
  assert (parent_of P = Some (dotted P)) as -> by (by destruct P). unfold next_key.
  rewrite dotted_truthy by done. rewrite <- dotted_snoc by done. by destruct P.
Qed.

(** *** What flattening finds *)

Lemma flatten_leaf P v result : leaf v -> P <> [] -> flatten_at (parent_of P) v result = obj_set (dotted P) v result.
Proof. destruct P as [|s P]; [done|]. by destruct v. Qed.

Fixpoint flatten_entries (P : list jstr) (o result : list (jstr * json)) : list (jstr * json) :=
  match o with
  | [] => result
  | (key, value) :: o' => flatten_entries P o' (flatten_at (parent_of (P ++ [key])) value result)
  end.

Lemma flatten_obj P o result : Forall segment_ok P -> flatten_at (parent_of P) (JObj o) result = flatten_entries P o result.
Proof.
  intros HP. cbn [flatten_at]. revert result. induction o as [|[key value] o IH]; intros result; [done|].
  cbn [flatten_entries]. rewrite <- IH. by rewrite next_parent.
Qed.

(** No leaf below [v] has the name [k]. *)
Definition unnamed (P : list jstr) (v : json) (k : jstr) : Prop :=
  forall segs w, get_path v segs = Some w -> leaf w -> k <> dotted (P ++ segs).

Definition flatten_exact (v : json) : Prop :=
  clean v -> forall P result, Forall segment_ok P -> (P <> [] \/ ~ leaf v) ->
  (forall segs w, get_path v segs = Some w -> leaf w ->
     obj_get (dotted (P ++ segs)) (flatten_at (parent_of P) v result) = Some w) /\
  (forall k, unnamed P v k -> obj_get k (flatten_at (parent_of P) v result) = obj_get k result).

Lemma flatten_exact_leaf v : leaf v -> flatten_exact v.
Proof.
  intros Hv _ P result HP [Hn|]; [|done]. rewrite flatten_leaf by done. split.
  - intros segs w Hw _. destruct segs as [|s segs]; [|by destruct v]. injection Hw as <-. rewrite app_nil_r. apply obj_get_set_eq.
  - intros k Hk. apply obj_get_set_ne. specialize (Hk [] v eq_refl Hv). by rewrite app_nil_r in Hk.
Qed.

Lemma get_path_obj o segs w :
  get_path (JObj o) segs = Some w -> leaf w -> exists key value rest,
    segs = key :: rest /\ obj_get key o = Some value /\ get_path value rest = Some w.
Proof.
  destruct segs as [|key rest]; cbn [get_path]; [by intros [= <-]|].
  destruct (obj_get key o) as [value|] eqn:E; [|done]. intros Hw _. by exists key, value, rest.
Qed.

Lemma obj_get_elem {V} k (v : V) o : obj_get k o = Some v -> (k, v) ∈ o.
Proof.
  induction o as [|[j w] o IH]; [done|]. cbn [obj_get]. destruct (k === j) eqn:E.
  - apply js_eqb_true in E as ->. intros [= ->]. left.
  - intros H. right. by apply IH.
Qed.

Lemma elem_obj_get {V} k (v : V) o : NoDup o.*1 -> (k, v) ∈ o -> obj_get k o = Some v.
Proof.
  induction o as [|[j w] o IH]; [by intros _ ?%elem_of_nil|]. cbn [fmap list_fmap fst]. intros [Hj Hn]%NoDup_cons.
  intros [[= -> ->]|Hin]%elem_of_cons; cbn [obj_get]; [by rewrite js_eqb_refl|].
  rewrite js_eqb_ne; [by apply IH|]. intros ->. apply Hj. apply list_elem_of_fmap. by exists (j, v).
Qed.

Lemma clean_entry o key value : clean (JObj o) -> obj_get key o = Some value -> segment_ok key /\ clean value.
Proof. intros [_ H]%clean_obj E%obj_get_elem. rewrite Forall_forall in H. apply (H _ E). Qed.

Lemma clean_path v segs w : clean v -> get_path v segs = Some w -> Forall segment_ok segs.
Proof.
  revert v. induction segs as [|s segs IH]; intros v Hc; [constructor|]. cbn [get_path].
  destruct v as [| | | | |o]; try done. destruct (obj_get s o) as [x|] eqn:E; [|done]. intros H.
  destruct (clean_entry o s x Hc E) as [Hs Hx]. constructor; [done|by eapply IH].
Qed.

Lemma clean_tail p o : clean (JObj (p :: o)) -> p.1 ∉ o.*1 /\ segment_ok p.1 /\ clean p.2 /\ clean (JObj o).
Proof.
  rewrite !clean_obj. cbn [fmap list_fmap]. rewrite NoDup_cons, Forall_cons. tauto.
Qed.

Lemma obj_get_none {V} k (o : list (jstr * V)) : k ∉ o.*1 -> obj_get k o = None.
Proof. intros H%obj_has_false. unfold obj_has in H. by destruct (obj_get k o). Qed.

Lemma flatten_entries_exact P o result :
  clean (JObj o) -> Forall segment_ok P -> Forall (fun p => flatten_exact p.2) o ->
  (forall segs w, get_path (JObj o) segs = Some w -> leaf w -> obj_get (dotted (P ++ segs)) (flatten_entries P o result) = Some w) /\
  (forall k, unnamed P (JObj o) k -> obj_get k (flatten_entries P o result) = obj_get k result).
Proof.
  intros Hc HP Hx. revert result Hc. induction Hx as [|[k0 v0] o Hv _ IH]; intros result Hc.
  { split; [|done]. intros [|s segs] w; cbn; [by intros [= <-]|done]. }
  cbn [fst snd] in *. destruct (clean_tail _ _ Hc) as (Hk0 & Hs0 & Hc0 & Hct). cbn [fst snd] in *. cbn [flatten_entries].
  assert (Forall segment_ok (P ++ [k0])) as HP0 by (apply Forall_app; split; [done|by constructor]).
  destruct (Hv Hc0 (P ++ [k0]) result HP0) as [Ha Hb]; [left; by destruct P|].
  destruct (IH (flatten_at (parent_of (P ++ [k0])) v0 result) Hct) as [Ta Tb]. split.
  - intros segs w Hw Hl. destruct (get_path_obj _ _ _ Hw Hl) as (key & value & rest & -> & Hg & Hr).
    cbn [obj_get] in Hg. destruct (key === k0) eqn:E.
    + apply js_eqb_true in E as ->. injection Hg as <-. rewrite Tb.
      * pose proof (Ha rest w Hr Hl) as H. rewrite <- app_assoc in H. exact H.
      * intros segs' w' Hw' Hl' E. destruct (get_path_obj _ _ _ Hw' Hl') as (key' & value' & rest' & -> & Hg' & Hr').
        apply dotted_inj in E; [|by destruct P|by destruct P|..].
        -- apply app_inv_head in E. injection E as <- _. by rewrite obj_get_none in Hg'.
        -- apply Forall_app; split; [done|]. constructor; [done|]. by apply (clean_path v0 rest w).
        -- apply Forall_app; split; [done|]. by apply (clean_path (JObj o) (key' :: rest') w').
    + apply Ta; [|done]. cbn [get_path]. by rewrite Hg.
  - intros k Hk. rewrite Tb, Hb; [done| |].
    + intros segs w Hw Hl. rewrite <- app_assoc. apply (Hk (k0 :: segs) w); [|done]. cbn [get_path obj_get]. by rewrite js_eqb_refl.
    + intros segs w Hw Hl. destruct (get_path_obj _ _ _ Hw Hl) as (key & value & rest & -> & Hg & Hr).
      apply (Hk (key :: rest) w); [|done]. cbn [get_path obj_get]. rewrite js_eqb_ne; [by rewrite Hg|].
      intros ->. by rewrite obj_get_none in Hg.
Qed.

Lemma flatten_all v : flatten_exact v.
Proof.
  induction v as [|b|x|s|l IH|o IH] using json_induction; [by apply flatten_exact_leaf..|].
  intros Hc P result HP _. rewrite flatten_obj by done. by apply flatten_entries_exact.
Qed.

(** The flat object has a name for each leaf, and no other. *)
Lemma flatten_get v segs w :
  clean v -> ~ leaf v -> get_path v segs = Some w -> leaf w -> obj_get (dotted segs) (flattenValues v) = Some w.
Proof. intros Hc Hv Hp Hw. by apply (proj1 (flatten_all v Hc [] [] (Forall_nil_2 _) (or_intror Hv))). Qed.

Lemma flatten_none v k : clean v -> ~ leaf v -> unnamed [] v k -> obj_get k (flattenValues v) = None.
Proof. intros Hc Hv Hk. by apply (proj2 (flatten_all v Hc [] [] (Forall_nil_2 _) (or_intror Hv))). Qed.

(** *** Setting a path *)

Lemma set_deep_cons o s s' segs v :
  set_deep o (s :: s' :: segs) v =
  obj_set s (JObj (set_deep (match obj_get s o with Some (JObj o') => o' | _ => [] end) (s' :: segs) v)) o.
Proof. done. Qed.

Lemma get_set_deep_eq segs o v t : segs <> [] -> get_path (JObj (set_deep o segs v)) (segs ++ t) = get_path v t.
Proof.
  revert o. induction segs as [|s segs IH]; intros o; [done|]. intros _. destruct segs as [|s' segs].
  - cbn [set_deep app get_path]. by rewrite obj_get_set_eq.
  - rewrite set_deep_cons. cbn [app get_path]. rewrite obj_get_set_eq. by apply IH.
Qed.

(** A proper prefix of the path is an object. *)
Lemma get_set_deep_prefix segs o v p t : t <> [] -> segs = p ++ t -> exists o', get_path (JObj (set_deep o segs v)) p = Some (JObj o').
Proof.
  revert o p. induction segs as [|s segs IH]; intros o p Ht E; [by destruct p, t|].
  destruct p as [|s' p]; cbn [app] in E; [by eexists|]. injection E as <- E. destruct segs as [|s2 segs]; [by destruct p, t|].
  rewrite set_deep_cons. cbn [get_path]. rewrite obj_get_set_eq. by apply IH.
Qed.

Definition apart (p q : list jstr) : Prop := ~ p `prefix_of` q /\ ~ q `prefix_of` p.

Lemma get_set_deep_ne segs o v q : apart segs q -> get_path (JObj (set_deep o segs v)) q = get_path (JObj o) q.
Proof.
  revert o q. induction segs as [|s segs IH]; intros o q [H1 H2]; [by destruct H1; apply prefix_nil|].
  destruct q as [|s' q]; [by destruct H2; apply prefix_nil|].
  destruct (decide (s' = s)) as [->|Hs].
  - assert (apart segs q) as Ha by (split; intros H; [apply H1|apply H2]; by apply prefix_cons).
    destruct segs as [|s2 segs]; [by destruct Ha as [[] _]; apply prefix_nil|]. rewrite set_deep_cons. cbn [get_path].
    rewrite obj_get_set_eq, IH by done. destruct q as [|s3 q]; [by destruct Ha as [_ []]; apply prefix_nil|].
    destruct (obj_get s o) as [[| | | | |o']|]; done.
  - destruct segs as [|s2 segs]; cbn [set_deep get_path]; by rewrite obj_get_set_ne.
Qed.

Lemma obj_add_perm {V} k (v : V) o : obj_add k v o ≡ₚ (k, v) :: o.
Proof.
  induction o as [|[j w] o IH]; cbn [obj_add]; [done|]. case_match; [done|]. rewrite IH. apply perm_swap.
Qed.

Lemma NoDup_set {V} k (v : V) o : NoDup o.*1 -> NoDup (obj_set k v o).*1.
Proof.
  intros H. unfold obj_set. destruct (obj_has k o) eqn:E; [by rewrite obj_replace_keys|].
  apply obj_has_false in E. rewrite obj_add_perm. by apply NoDup_cons.
Qed.

Lemma clean_set s v o : segment_ok s -> clean v -> clean (JObj o) -> clean (JObj (obj_set s v o)).
Proof. rewrite !clean_obj. intros Hs Hv [Hn Ho]. split; [by apply NoDup_set|by apply Forall_set]. Qed.

Lemma clean_set_deep segs o v : Forall segment_ok segs -> clean v -> clean (JObj o) -> clean (JObj (set_deep o segs v)).
Proof.
  intros Hs Hv. revert o. induction Hs as [|s segs Hs Hss IH]; intros o Ho; [done|].
  destruct segs as [|s' segs]; [by apply clean_set|]. rewrite set_deep_cons. apply clean_set; [done| |done].
  apply IH. destruct (obj_get s o) as [[| | | | |o']|] eqn:E; [by split; [constructor|]..| |by split; [constructor|]].
  by apply (clean_entry o s (JObj o') Ho E).
Qed.

(** ** Options in a form *)

(** Options a form can hold: no value is an object, the parts of the names are not empty, no
    name continues another. *)
Definition flat_options (o : list (jstr * json)) : Prop :=
  NoDup o.*1 /\
  Forall (fun p => leaf p.2 /\ Forall segment_ok (split_char 46 p.1)) o /\
  forall k k', k ∈ o.*1 -> k' ∈ o.*1 -> k <> k' -> ~ split_char 46 k `prefix_of` split_char 46 k'.

Lemma dotted_split k : dotted (split_char 46 k) = k.
Proof. apply (join_split_char 46 k). Qed.

Lemma split_not_nil k : split_char 46 k <> [].
Proof. destruct (split_char_cons 46 k) as (w & ws & ->). done. Qed.

Fixpoint expand_entries (o result : list (jstr * json)) : list (jstr * json) :=
  match o with
  | [] => result
  | (key, value) :: o' => expand_entries o' (set_deep result (split_char 46 key) value)
  end.

Lemma expand_flat o : Forall (fun p => leaf p.2) o -> expandDotPaths (JObj o) = JObj (expand_entries o []).
Proof.
  intros H. cbn [expandDotPaths]. f_equal. generalize (@nil (jstr * json)). induction H as [|[k v] o Hv _ IH]; intros r; [done|].
  cbn [expand_entries]. rewrite <- IH. f_equal. cbn [snd] in Hv. unfold setDeepValue.
  destruct (includes (js ".") k) eqn:E; [done|]. rewrite split_char_none; [by destruct v|].
  intros Hin. apply list_elem_of_split in Hin as (u & t & ->). unfold includes in E.
  destruct (index_of (js ".") (u ++ 46%N :: t)) eqn:E2; [done|].
  pose proof (index_of_None _ _ E2 (length u)) as H3. rewrite drop_app_length in H3. by destruct t.
Qed.

Section expand.
Context (all : list (jstr * json)) (Hall : flat_options all).

(** What has been expanded so far. *)
Definition expanded_ok (todo result : list (jstr * json)) : Prop :=
  clean (JObj result) /\
  (forall k v, (k, v) ∈ all -> (k, v) ∉ todo -> get_path (JObj result) (split_char 46 k) = Some v) /\
  (forall segs w, get_path (JObj result) segs = Some w -> leaf w -> exists k, segs = split_char 46 k /\ (k, w) ∈ all /\ (k, w) ∉ todo).

Lemma prefix_cases (p q : list jstr) : (exists t, q = p ++ t) \/ (exists t, t <> [] /\ p = q ++ t) \/ apart p q.
Proof.
  destruct (decide (p `prefix_of` q)) as [H|H]; [by left|].
  destruct (decide (q `prefix_of` p)) as [[t Ht]|H']; [|by right; right].
  right; left. exists t. split; [|done]. intros ->. apply H. rewrite app_nil_r in Ht. by rewrite Ht.
Qed.

Lemma expand_step k v todo result :
  (k, v) ∈ all -> k ∉ todo.*1 -> NoDup ((k, v) :: todo).*1 -> (forall p, p ∈ todo -> p ∈ all) ->
  expanded_ok ((k, v) :: todo) result -> expanded_ok todo (set_deep result (split_char 46 k) v).
Proof.
  destruct Hall as (Hn & Hf & Hp). intros Hkv Hk _ Hsub (Hc & H1 & H2). rewrite Forall_forall in Hf.
  destruct (Hf _ Hkv) as [Hl Hs]. cbn [fst snd] in Hl, Hs. assert ((k, v) ∉ todo) as Hnt.
  { intros Hin. apply Hk, list_elem_of_fmap. by exists (k, v). }
  split; [|split].
  - apply clean_set_deep; [done|by destruct v|done].
  - intros k' v' Hin Hnin. destruct (decide (k' = k)) as [->|Hne].
    + assert (v' = v) as ->.
      { pose proof (elem_obj_get _ _ _ Hn Hin) as E1. pose proof (elem_obj_get _ _ _ Hn Hkv) as E2. congruence. }
      rewrite <- (app_nil_r (split_char 46 k)) at 2. by rewrite get_set_deep_eq by apply split_not_nil.
    + rewrite get_set_deep_ne; [apply H1; [done|]; intros [E|E]%elem_of_cons; [by injection E as -> _|done]|].
      assert (k ∈ all.*1 /\ k' ∈ all.*1) as [? ?] by (split; apply list_elem_of_fmap; [by exists (k, v)|by exists (k', v')]). split; apply Hp; congruence.
  - intros segs w Hw Hlw. destruct (prefix_cases (split_char 46 k) segs) as [[t ->]|[(t & Ht & E)|Ha]].
    + rewrite get_set_deep_eq in Hw by apply split_not_nil. exists k. destruct t as [|s t]; [|by destruct v].
      injection Hw as <-. by rewrite app_nil_r.
    + destruct (get_set_deep_prefix _ result v _ _ Ht E) as [o' Ho']. rewrite Ho' in Hw. by injection Hw as <-.
    + rewrite get_set_deep_ne in Hw by done. destruct (H2 _ _ Hw Hlw) as (k' & -> & Hin & Hni).
      exists k'. split; [done|]. split; [done|]. intros ?. apply Hni. by right.
Qed.

Lemma expand_all todo result :
  NoDup todo.*1 -> (forall p, p ∈ todo -> p ∈ all) -> expanded_ok todo result -> expanded_ok [] (expand_entries todo result).
Proof.
  revert result. induction todo as [|[k v] todo IH]; intros result Hn Hsub H; [done|]. cbn [expand_entries].
  pose proof Hn as Hn2. cbn [fmap list_fmap fst] in Hn2. apply NoDup_cons in Hn2 as [Hk Hn2].
  apply IH; [done|intros p Hp; apply Hsub; by right|]. apply expand_step; [apply Hsub; left|done|done| |done].
  intros p Hp. apply Hsub. by right.
Qed.

(** Expanding the names and flattening the result gives every option back, and no other. *)
Lemma expand_flatten k : obj_get k (flattenValues (expandDotPaths (JObj all))) = obj_get k all.
Proof.
  destruct Hall as (Hn & Hf & _). rewrite expand_flat.
  2:{ eapply Forall_impl; [exact Hf|]. by intros ? []. }
  destruct (expand_all all []) as (Hc & H1 & H2); [done|done| |].
  { split; [split; constructor|]. split; [done|]. intros [|s segs] w; cbn; [by intros [= <-]|done]. }
  destruct (obj_get k all) as [v|] eqn:E.
  - apply obj_get_elem in E. rewrite <- (dotted_split k) at 1. rewrite Forall_forall in Hf.
    apply flatten_get; [done|tauto|apply H1; [done|apply not_elem_of_nil]|]. apply (Hf _ E).
  - apply flatten_none; [done|tauto|]. intros segs w Hw Hl. destruct (H2 _ _ Hw Hl) as (k' & -> & Hin & _).
    cbn [app]. rewrite dotted_split. intros ->. apply (elem_obj_get _ _ _ Hn) in Hin. congruence.
Qed.
End expand.

(** ** What the form collects *)

Section dirty_ind.
Context (P : dirty -> Prop) (Hleaf : forall b, P (Dirty b)) (Hin : forall fs, Forall (fun p => P p.2) fs -> P (DirtyIn fs)).

Fixpoint dirty_induction (d : dirty) : P d :=
  match d with
  | Dirty b => Hleaf b
  | DirtyIn fs => Hin fs ((fix all (fs : list (jstr * dirty)) : Forall (fun p => P p.2) fs :=
      match fs with
      | [] => Forall_nil_2 _
      | p :: fs' => Forall_cons_2 _ p fs' (dirty_induction p.2) (all fs')
      end) fs)
  end.
End dirty_ind.

(** The marks are at fields that hold a value. *)
Fixpoint fits (d : dirty) (v : option json) : Prop :=
  match d with
  | Dirty true => match v with Some w => leaf w | None => False end
  | Dirty false => True
  | DirtyIn fs =>
      (fs <> [] -> match v with Some (JObj _) => True | _ => False end) /\
      (fix all (fs : list (jstr * dirty)) : Prop :=
         match fs with [] => True | (k, d') :: fs' => fits d' (child v k) /\ all fs' end) fs
  end.

Lemma get_path_app v p q : get_path v (p ++ q) = get_path v p ≫= fun w => get_path w q.
Proof.
  revert v. induction p as [|s p IH]; intros v; [done|]. cbn [app get_path].
  destruct v as [| | | | |o]; try done. destruct (obj_get s o); [apply IH|done].
Qed.

Definition collected_ok (root : json) (p : jstr * option json) : Prop :=
  exists segs w, p = (dotted segs, Some w) /\ segs <> [] /\ get_path root segs = Some w /\ leaf w.

Lemma elem_set_or {V} (Q : jstr * V -> Prop) k v o : Q (k, v) -> (forall p, p ∈ o -> Q p) -> forall p, p ∈ obj_set k v o -> Q p.
Proof. intros Hk Ho p [->|Hp]%elem_of_set; [done|by apply Ho]. Qed.

Lemma collect_ok root d : clean root -> forall P v result,
  get_path root P = Some v -> fits d (Some v) -> (forall p, p ∈ result -> collected_ok root p) ->
  forall p, p ∈ collectDirtyValues d (Some v) (parent_of P) result -> collected_ok root p.
Proof.
  intros Hc. induction d as [b|fs IH] using dirty_induction; intros P v result HP Hf Hr.
  - destruct b; [|done]. cbn [collectDirtyValues]. destruct P as [|s P]; [done|]. cbn [parent_of].
    apply elem_set_or; [|done]. exists (s :: P), v. done.
  - destruct Hf as [Hobj Hf]. cbn [collectDirtyValues]. revert result Hr Hobj Hf.
    induction IH as [|[k d'] fs Hd _ IHf]; intros result Hr Hobj Hf; [done|].
    destruct v as [| | | | |o]; try by destruct Hobj. destruct Hf as [Hf1 Hf2].
    intros p. apply IHf; [|done|done]. clear IHf. intros q.
    rewrite next_parent by (by eapply clean_path). cbn [child] in *. destruct (obj_get k o) as [w|] eqn:E.
    + cbn [snd] in Hd. apply Hd; [|done|done]. rewrite get_path_app, HP. cbn. by rewrite E.
    + clear Hd. revert Hf1. destruct d' as [[]|fs']; [done|intros _; apply Hr|].
      intros [Hno _]. destruct fs'; [apply Hr|]. by destruct Hno.
Qed.

Fixpoint no_nan (v : json) : bool :=
  match v with
  | JNum x => negb (is_nan x)
  | JObj o => (fix all (o : list (jstr * json)) : bool := match o with [] => true | (_, w) :: o' => no_nan w && all o' end) o
  | _ => true
  end.

Lemma no_nan_obj o : no_nan (JObj o) = forallb (fun p => no_nan p.2) o.
Proof. induction o as [|[k w] o IH]; [done|]. cbn [forallb snd]. rewrite <- IH. done. Qed.

Lemma no_nan_path v segs w : no_nan v = true -> get_path v segs = Some w -> w <> JNum nan.
Proof.
  revert v. induction segs as [|s segs IH]; intros v Hv; cbn [get_path]; [intros [= <-]; by intros ->|].
  destruct v as [| | | | |o]; try done. destruct (obj_get s o) as [x|] eqn:E; [|done]. apply IH.
  rewrite no_nan_obj, forallb_forall in Hv. apply obj_get_elem in E. by apply (Hv (s, x)), list_elem_of_In.
Qed.

Lemma compare_same v : v <> JNum nan -> defaultCompare (Some v) (Some v) = true.
Proof.
  intros Hv. destruct v as [|b|x|s|l|o]; cbn; try done; rewrite ?js_eqb_refl; try done; [by destruct b|].
  apply neqb_refl. by destruct x.
Qed.

Lemma send_all answer updates :
  (forall k v m, answer k v <> RequestFailed m) -> exists notices, send_updates answer updates = (updates, notices, true).
Proof.
  intros Ha. induction updates as [|[k v] l [ns IH]]; [by exists []|]. cbn [send_updates]. rewrite IH.
  destruct (answer k v) eqn:E; [by eexists..|]. by destruct (Ha k v message).
Qed.

(** ** Properties *)

(** A text of the settings that is shown and not touched counts as unchanged. *)
Lemma untouched_text value v :
  trim value = value -> JSON_parse value = Ret v -> json_ok v ->
  normalizeJsonString (formatJsonForTextarea value) = normalizeJsonString value.
Proof.
  intros Ht Hp Hok. unfold formatJsonForTextarea, normalizeJsonString. rewrite !Ht.
  assert (truthy value = true) as Hv by (apply truthy_true; by intros ->). rewrite Hv. cbn [negb orb]. rewrite Hp.
  assert (trim (JSON_pretty v) = JSON_pretty v) as -> by apply pretty_trimmed. rewrite parse_pretty by done.
  destruct (truthy (JSON_pretty v)) eqn:E; [done|]. apply truthy_false in E.
  pose proof (parse_pretty v Hok) as H. by rewrite E in H.
Qed.

(** The names of the options survive the form: a form opened on options with
    dotted names holds them as a tree, and flattening the tree gives back
    exactly the options, so what an untouched form compares with is what was loaded. *)
Lemma form_holds_options o k :
  flat_options o -> obj_get k (sf_baseline (open_form o)) = obj_get k o.
Proof. intros H. by apply expand_flatten. Qed.

(** A change the server refuses is forgotten: unless a request fails outright, the
    form takes what it holds as saved whatever the answers were, so submitting again
    sends nothing and says that there are no changes. *)
Lemma refused_change_forgotten answer answer' d f :
  clean (sf_values f) -> ~ leaf (sf_values f) -> fits d (Some (sf_values f)) ->
  no_nan (sf_values f) = true ->
  (forall k v m, answer k v <> RequestFailed m) ->
  changed_entries defaultCompare d f <> [] ->
  let '(f', sent, _) := handleSubmit defaultCompare (send_updates answer) d f in
  sent = obj_assign [] (changed_entries defaultCompare d f) /\
  handleSubmit defaultCompare (send_updates answer') d f' = (f', [], [NoChanges]).
Proof.
  intros Hc Hl Hf Hnan Ha Hch. unfold handleSubmit at 1. destruct (changed_entries defaultCompare d f) as [|e es] eqn:E; [done|].
  destruct (send_all answer (obj_assign [] (e :: es)) Ha) as [ns ->]. split; [done|].
  unfold handleSubmit, changed_entries. cbn [sf_values sf_baseline].
  assert (forall p, p ∈ collectDirtyValues d (Some (sf_values f)) None [] -> collected_ok (sf_values f) p) as Hcol.
  { apply (collect_ok (sf_values f) d Hc [] (sf_values f)); [done|done|]. by intros ? ?%elem_of_nil. }
  destruct (List.filter _ _) as [|p l] eqn:El; [done|].
  assert (p ∈ p :: l) as Hp by left. rewrite <- El in Hp. apply elem_of_lfilter in Hp as [Hp Hneg].
  destruct (Hcol p Hp) as (segs & w & -> & _ & Hw & Hlw). cbn [fst snd] in Hneg.
  rewrite (flatten_get _ segs w) in Hneg by done. rewrite compare_same in Hneg; [done|].
  by eapply no_nan_path.
Qed.

(** A value of the type of its default. *)
Definition option_typed (d v : json) : Prop :=
  match d with
  | JBool _ => exists b, v = JBool b
  | JNum _ => exists x, v = JNum x
  | JStr _ => exists s, v = JStr s
  | JArr ds => v = d \/ exists l, v = JArr l /\ forall d0 ds', ds = d0 :: ds' -> Forall (fun el => typeof el = typeof d0) l
  | _ => False
  end.

Lemma find_none_all {A} (f : A -> bool) l : List.find f l = None -> Forall (fun x => f x = false) l.
Proof. intros H. apply Forall_forall. intros x Hx. eapply List.find_none; [exact H|by apply list_elem_of_In]. Qed.

Lemma parsed_typed e value d :
  match d with JNull | JObj _ => False | _ => True end -> option_typed d (option_result (parseOptionValueSafe e value d)).
Proof.
  intros Hd. destruct d as [|b|x|s|ds|o]; try done; cbn [parseOptionValueSafe option_typed].
  - by eexists.
  - destruct (trim value === []); [by eexists|]. destruct (is_nan _); by eexists.
  - by eexists.
  - destruct (JSON_parse value) as [v|]; [|by left]. destruct v as [| | | |l|]; try by left.
    destruct ds as [|d0 ds]; [right; by exists l|]. destruct (List.find _ l) eqn:E; [by left|]. right. exists l. split; [done|].
    intros d1 ds1 [= <- <-]. apply find_none_all in E. eapply Forall_impl; [exact E|]. intros x Hx.
    apply negb_false_iff in Hx. by apply (proj1 (js_eqb_true _ _)) in Hx.
Qed.

Lemma obj_get_assign {V} k (l acc : list (jstr * V)) : NoDup l.*1 ->
  obj_get k (obj_assign acc l) = match obj_get k l with Some v => Some v | None => obj_get k acc end.
Proof.
  revert acc. induction l as [|[j w] l IH]; intros acc; [done|]. cbn [fmap list_fmap fst]. intros [Hj Hn]%NoDup_cons.
  cbn [obj_assign foldl fst snd]. fold (obj_assign (obj_set j w acc) l). rewrite IH by done. cbn [obj_get].
  destruct (k === j) eqn:E.
  - apply js_eqb_true in E as ->. rewrite obj_get_none by done. apply obj_get_set_eq.
  - destruct (obj_get k l); [done|]. apply obj_get_set_ne. by apply js_eqb_false in E.
Qed.

(** Whatever texts the server stores, each option arrives with the type of its default
    (a list with elements of the type of the first default element, or the default list),
    every option has a value, and no option appears that has no default. *)
Lemma options_typed e options defaults k :
  NoDup defaults.*1 -> Forall (fun p => match p.2 with JNull | JObj _ => False | _ => True end) defaults ->
  match obj_get k defaults with
  | Some d => exists v, obj_get k (getOptionValue e (Some options) defaults) = Some v /\ (v = d \/ option_typed d v)
  | None => obj_get k (getOptionValue e (Some options) defaults) = None
  end.
Proof.
  intros Hn Hd. unfold getOptionValue.
  set (f := fun result option => _). set (acc := obj_assign [] defaults).
  assert (match obj_get k defaults with
          | Some d => exists v, obj_get k acc = Some v /\ (v = d \/ option_typed d v)
          | None => obj_get k acc = None
          end) as Hacc.
  { unfold acc. rewrite obj_get_assign by done. destruct (obj_get k defaults) as [d|]; [|done]. exists d. by split; [|left]. }
  clearbody acc. revert acc Hacc. induction options as [|[j value] options IH]; intros acc Hacc; [done|].
  cbn [foldl]. apply IH. unfold f. cbn [fst snd]. destruct (obj_get j defaults) as [dj|] eqn:Ej; [|done].
  destruct (decide (k = j)) as [<-|Hne]; [|by rewrite obj_get_set_ne].
  rewrite Ej in *. eexists. split; [apply obj_get_set_eq|]. right. apply parsed_typed.
  apply obj_get_elem in Ej. rewrite Forall_forall in Hd. apply (Hd _ Ej).
Qed.

(** ** Examples *)

Definition quota_options : list (jstr * json) :=
  [(js "QuotaForNewUser", JNum (num_of_Z 500)); (js "general_setting.docs_link", JStr (js "https://x"));
   (js "general_setting.ping", JBool true)].

Ltac flat_eval :=
  split; [apply (bool_decide_unpack _); vm_compute; reflexivity|]; split;
  [repeat constructor; cbn; try done; apply (bool_decide_unpack _); vm_compute; reflexivity|];
  intros ? ? Hk Hk' Hne; cbn [fmap list_fmap fst] in Hk, Hk';
  repeat (apply elem_of_cons in Hk as [->|Hk]); try (by apply elem_of_nil in Hk);
  repeat (apply elem_of_cons in Hk' as [->|Hk']); try (by apply elem_of_nil in Hk'); try done;
  apply (bool_decide_unpack _); vm_compute; reflexivity.

Ltac clean_eval :=
  apply clean_obj; split; [apply (bool_decide_unpack _); vm_compute; reflexivity|];
  repeat (apply Forall_cons; split;
    [split; [split; [discriminate|apply (bool_decide_unpack _); vm_compute; reflexivity]|first [exact I|clean_eval]]|]);
  apply Forall_nil_2.

Lemma form_holds_options_witness :
  flat_options quota_options /\
  obj_get (js "general_setting.ping") (sf_baseline (open_form quota_options)) = Some (JBool true).
Proof.
  assert (flat_options quota_options) as H by flat_eval. split; [exact H|].
  rewrite (form_holds_options quota_options (js "general_setting.ping") H). reflexivity.
Defined.

Lemma options_typed_witness :
  exists v, obj_get (js "QuotaForNewUser")
              (getOptionValue (fun _ => []) (Some [(js "QuotaForNewUser", js " 12 "); (js "Other", js "1")]) quota_options) = Some v /\
    (v = JNum (num_of_Z 500) \/ option_typed (JNum (num_of_Z 500)) v).
Proof.
  apply (options_typed (fun _ => []) [(js "QuotaForNewUser", js " 12 "); (js "Other", js "1")] quota_options (js "QuotaForNewUser")).
  - apply (bool_decide_unpack _). vm_compute. reflexivity.
  - repeat constructor.
Defined.

(** The ping was switched off, and the server refuses the change. *)
Definition ping_off : SettingsForm :=
  type_field (expandDotPaths (JObj (obj_set (js "general_setting.ping") (JBool false) quota_options))) (open_form quota_options).
Definition ping_dirty : dirty := DirtyIn [(js "general_setting", DirtyIn [(js "ping", Dirty true)])].

Lemma refused_change_forgotten_witness :
  let '(f', sent, _) := handleSubmit defaultCompare (send_updates (fun _ _ => Refused None)) ping_dirty ping_off in
  sent = [(js "general_setting.ping", Some (JBool false))] /\
  handleSubmit defaultCompare (send_updates (fun _ _ => Updated)) ping_dirty f' = (f', [], [NoChanges]).
Proof.
  assert (H := refused_change_forgotten (fun _ _ => Refused None) (fun _ _ => Updated) ping_dirty ping_off).
  assert (changed_entries defaultCompare ping_dirty ping_off = [(js "general_setting.ping", Some (JBool false))]) as E
    by (vm_compute; reflexivity).
  rewrite E in H. apply H.
  - let v := eval vm_compute in (sf_values ping_off) in change (sf_values ping_off) with v. clean_eval.
  - intros Hl. exact Hl.
  - vm_compute. repeat split; intros _; exact I.
  - vm_compute. reflexivity.
  - discriminate.
  - discriminate.
Defined.
