(* ===== verification/PricingSheet.v ===== *)
(** * The price editor of a model

    [features/system-settings/models/model-pricing-sheet.tsx]: an administrator enters
    prices in dollars per million tokens; the gateway stores ratios.  The editor keeps the prices
    of six lanes, a switch for each, and a form with the ratios that will be saved, which its
    handlers derive from the prices.

    The state is what the component keeps between events; the handlers are functions on
    it.  The check of the form schema is [submit_form]. *)
From S2P Require Import Prelude Regex Numbers BillingExpr.
Local Open Scope js_scope.

(** ** Data *)

Inductive PricingMode : Type := per_token | per_request | tiered_expr.
#[export] Instance PricingMode_eq_dec : EqDecision PricingMode.
Proof. solve_decision. Defined.

Inductive LaneKey : Type := completion | cache | createCache | image | audioInput | audioOutput.
#[export] Instance LaneKey_eq_dec : EqDecision LaneKey.
Proof. solve_decision. Defined.

(** [Record<LaneKey, A>] *)
Record Lanes (A : Type) : Type := MkLanes {
  l_completion : A; l_cache : A; l_createCache : A; l_image : A; l_audioInput : A; l_audioOutput : A
}.
Arguments MkLanes {A}.
Arguments l_completion {A}. Arguments l_cache {A}. Arguments l_createCache {A}.
Arguments l_image {A}. Arguments l_audioInput {A}. Arguments l_audioOutput {A}.

Definition lane {A} (l : Lanes A) (k : LaneKey) : A :=
  match k with
  | completion => l_completion l | cache => l_cache l | createCache => l_createCache l
  | image => l_image l | audioInput => l_audioInput l | audioOutput => l_audioOutput l
  end.

(** [{ ...lanes, [k]: v }] *)
Definition with_lane {A} (k : LaneKey) (v : A) (l : Lanes A) : Lanes A :=
  match k with
  | completion => MkLanes v (l_cache l) (l_createCache l) (l_image l) (l_audioInput l) (l_audioOutput l)
  | cache => MkLanes (l_completion l) v (l_createCache l) (l_image l) (l_audioInput l) (l_audioOutput l)
  | createCache => MkLanes (l_completion l) (l_cache l) v (l_image l) (l_audioInput l) (l_audioOutput l)
  | image => MkLanes (l_completion l) (l_cache l) (l_createCache l) v (l_audioInput l) (l_audioOutput l)
  | audioInput => MkLanes (l_completion l) (l_cache l) (l_createCache l) (l_image l) v (l_audioOutput l)
  | audioOutput => MkLanes (l_completion l) (l_cache l) (l_createCache l) (l_image l) (l_audioInput l) v
  end.

Definition EMPTY_LANE_PRICES : Lanes jstr := MkLanes [] [] [] [] [] [].
Definition EMPTY_LANE_ENABLED : Lanes bool := MkLanes false false false false false false.

Record ModelPricingFormValues : Type := MkFormValues {
  v_name : jstr; v_price : jstr; v_ratio : jstr;
  v_cacheRatio : jstr; v_createCacheRatio : jstr; v_completionRatio : jstr;
  v_imageRatio : jstr; v_audioRatio : jstr; v_audioCompletionRatio : jstr
}.
Definition empty_values : ModelPricingFormValues := MkFormValues [] [] [] [] [] [] [] [] [].

(** The form field of a lane, read and set. *)
Definition ratioFieldByLane (k : LaneKey) (v : ModelPricingFormValues) : jstr :=
  match k with
  | completion => v_completionRatio v | cache => v_cacheRatio v | createCache => v_createCacheRatio v
  | image => v_imageRatio v | audioInput => v_audioRatio v | audioOutput => v_audioCompletionRatio v
  end.
Definition set_ratio_field (k : LaneKey) (x : jstr) (v : ModelPricingFormValues) : ModelPricingFormValues :=
  let '(MkFormValues name price ratio cr ccr cpr ir ar acr) := v in
  match k with
  | completion => MkFormValues name price ratio cr ccr x ir ar acr
  | cache => MkFormValues name price ratio x ccr cpr ir ar acr
  | createCache => MkFormValues name price ratio cr x cpr ir ar acr
  | image => MkFormValues name price ratio cr ccr cpr x ar acr
  | audioInput => MkFormValues name price ratio cr ccr cpr ir x acr
  | audioOutput => MkFormValues name price ratio cr ccr cpr ir ar x
  end.
Definition set_ratio (x : jstr) (v : ModelPricingFormValues) : ModelPricingFormValues :=
  let '(MkFormValues name price _ cr ccr cpr ir ar acr) := v in MkFormValues name price x cr ccr cpr ir ar acr.
Definition set_price (x : jstr) (v : ModelPricingFormValues) : ModelPricingFormValues :=
  let '(MkFormValues name _ ratio cr ccr cpr ir ar acr) := v in MkFormValues name x ratio cr ccr cpr ir ar acr.
Definition set_name (x : jstr) (v : ModelPricingFormValues) : ModelPricingFormValues :=
  let '(MkFormValues _ price ratio cr ccr cpr ir ar acr) := v in MkFormValues x price ratio cr ccr cpr ir ar acr.

Record ModelRatioData : Type := MkRatioData {
  d_name : jstr; d_price : option jstr; d_ratio : option jstr;
  d_cacheRatio : option jstr; d_createCacheRatio : option jstr; d_completionRatio : option jstr;
  d_imageRatio : option jstr; d_audioRatio : option jstr; d_audioCompletionRatio : option jstr;
  d_billingMode : option PricingMode; d_billingExpr : option jstr; d_requestRuleExpr : option jstr
}.
Definition data_lane (d : ModelRatioData) (k : LaneKey) : option jstr :=
  match k with
  | completion => d_completionRatio d | cache => d_cacheRatio d | createCache => d_createCacheRatio d
  | image => d_imageRatio d | audioInput => d_audioRatio d | audioOutput => d_audioCompletionRatio d
  end.

Definition laneConfigs : list LaneKey := [completion; cache; createCache; image; audioInput; audioOutput].

(** Nothing, digits with an optional point and digits, or a point and digits. *)
Definition numericDraftRegex : re :=
  RSeqs [RStart;
         ROpt (RAlt (RSeq (RPlus (RSet is_digit)) (ROpt (RSeq (RLit (js ".")) (RStar (RSet is_digit)))))
                    (RSeq (RLit (js ".")) (RStar (RSet is_digit))));
         REnd].

(** ** Numbers in the form *)

Definition hasValue (value : option jstr) : bool := match value with Some s => truthy s | None => false end.

Definition finite_or_null (x : number) : option number := if is_finite x then Some x else None.
Definition toNumberOrNull (value : option jstr) : option number :=
  match value with
  | Some s => if negb (truthy s) then None else finite_or_null (Number s)
  | None => None
  end.

Definition formatNumber (value : number) : jstr :=
  match finite_or_null value with Some num => num_to_str (parseFloat (toFixed num 12)) | None => [] end.

Definition two : number := num_of_Z 2.

Definition ratioToBasePrice (ratio : option jstr) : jstr :=
  match toNumberOrNull ratio with Some num => formatNumber (nmul num two) | None => [] end.

Definition deriveLanePrice (ratio : option jstr) (denominator : jstr) : jstr :=
  match toNumberOrNull ratio, toNumberOrNull (Some denominator) with
  | Some r, Some d => formatNumber (nmul r d)
  | _, _ => []
  end.

Record LaneState : Type := MkLaneState { ls_promptPrice : jstr; ls_prices : Lanes jstr; ls_enabled : Lanes bool }.

Definition createInitialLaneState (data : option ModelRatioData) : LaneState :=
  match data with
  | None => MkLaneState [] EMPTY_LANE_PRICES EMPTY_LANE_ENABLED
  | Some d =>
      let promptPrice := ratioToBasePrice (d_ratio d) in
      let audioInputPrice := deriveLanePrice (d_audioRatio d) promptPrice in
      MkLaneState promptPrice
        (MkLanes (deriveLanePrice (d_completionRatio d) promptPrice) (deriveLanePrice (d_cacheRatio d) promptPrice)
           (deriveLanePrice (d_createCacheRatio d) promptPrice) (deriveLanePrice (d_imageRatio d) promptPrice)
           audioInputPrice (deriveLanePrice (d_audioCompletionRatio d) audioInputPrice))
        (MkLanes (hasValue (d_completionRatio d)) (hasValue (d_cacheRatio d)) (hasValue (d_createCacheRatio d))
           (hasValue (d_imageRatio d)) (hasValue (d_audioRatio d)) (hasValue (d_audioCompletionRatio d)))
  end.

Definition getModeLabel (mode : PricingMode) : jstr :=
  match mode with per_request => js "Per-request" | tiered_expr => js "Expression" | per_token => js "Per-token" end.

Definition getModeBadgeVariant (mode : PricingMode) : jstr :=
  match mode with per_request => js "secondary" | tiered_expr => js "default" | per_token => js "outline" end.

(** ** The panel *)

Record Panel : Type := MkPanel {
  p_mode : PricingMode;
  p_promptPrice : jstr;
  p_lanePrices : Lanes jstr;
  p_laneEnabled : Lanes bool;
  p_billingExpr : jstr;
  p_requestRuleExpr : jstr;
  p_editData : option ModelRatioData;
  p_values : ModelPricingFormValues
}.

(** The effect that runs for new [editData]. *)
Definition open_panel (editData : option ModelRatioData) : Panel :=
  let next := createInitialLaneState editData in
  match editData with
  | Some d =>
      let text v := opt_str_or v [] in
      MkPanel (if d_billingMode d === Some tiered_expr then tiered_expr
               else if hasValue (d_price d) then per_request else per_token)
        (ls_promptPrice next) (ls_prices next) (ls_enabled next) (text (d_billingExpr d)) (text (d_requestRuleExpr d)) editData
        (MkFormValues (d_name d) (text (d_price d)) (text (d_ratio d)) (text (d_cacheRatio d)) (text (d_createCacheRatio d))
           (text (d_completionRatio d)) (text (d_imageRatio d)) (text (d_audioRatio d)) (text (d_audioCompletionRatio d)))
  | None => MkPanel per_token (ls_promptPrice next) (ls_prices next) (ls_enabled next) [] [] None empty_values
  end.

Definition deriveLaneRatio (k : LaneKey) (price promptPrice : jstr) (lanePrices : Lanes jstr) : jstr :=
  match toNumberOrNull (Some price) with
  | None => []
  | Some priceNumber =>
      let base := match k with audioOutput => lane lanePrices audioInput | _ => promptPrice end in
      match toNumberOrNull (Some base) with
      | None => []
      | Some b => if neqb b zero then [] else formatNumber (ndiv priceNumber b)
      end
  end.

Definition set_values (v : ModelPricingFormValues) (p : Panel) : Panel :=
  MkPanel (p_mode p) (p_promptPrice p) (p_lanePrices p) (p_laneEnabled p) (p_billingExpr p) (p_requestRuleExpr p) (p_editData p) v.
Definition set_lanes (prompt : jstr) (prices : Lanes jstr) (enabled : Lanes bool) (p : Panel) : Panel :=
  MkPanel (p_mode p) prompt prices enabled (p_billingExpr p) (p_requestRuleExpr p) (p_editData p) (p_values p).

Definition syncLaneRatios (promptPrice : jstr) (lanePrices : Lanes jstr) (laneEnabled : Lanes bool)
    (v : ModelPricingFormValues) : ModelPricingFormValues :=
  let v := set_ratio (match toNumberOrNull (Some promptPrice) with
                      | Some inputPrice => formatNumber (ndiv inputPrice two)
                      | None => []
                      end) v in
  foldl (fun v k =>
    set_ratio_field k (if negb (lane laneEnabled k) then [] else deriveLaneRatio k (lane lanePrices k) promptPrice lanePrices) v)
    v laneConfigs.

Definition handlePromptPriceChange (value : jstr) (p : Panel) : Panel :=
  if negb (re_test numericDraftRegex value) then p
  else set_values (syncLaneRatios value (p_lanePrices p) (p_laneEnabled p) (p_values p))
         (set_lanes value (p_lanePrices p) (p_laneEnabled p) p).

Definition handleLanePriceChange (k : LaneKey) (value : jstr) (p : Panel) : Panel :=
  if negb (re_test numericDraftRegex value) then p
  else
    let next := with_lane k value (p_lanePrices p) in
    let v := p_values p in
    let v := if lane (p_laneEnabled p) k then set_ratio_field k (deriveLaneRatio k value (p_promptPrice p) next) v else v in
    let v := if (k === audioInput) && lane (p_laneEnabled p) audioOutput
             then set_ratio_field audioOutput (deriveLaneRatio audioOutput (lane next audioOutput) (p_promptPrice p) next) v
             else v in
    set_values v (set_lanes (p_promptPrice p) next (p_laneEnabled p) p).

Definition handleLaneToggle (k : LaneKey) (checked : bool) (p : Panel) : Panel :=
  let enabled := with_lane k checked (p_laneEnabled p) in
  if negb checked then
    let prices := with_lane k [] (p_lanePrices p) in
    let v := set_ratio_field k [] (p_values p) in
    if k === audioInput
    then set_values (set_ratio_field audioOutput [] v)
           (set_lanes (p_promptPrice p) (with_lane audioOutput [] prices) (with_lane audioOutput false enabled) p)
    else set_values v (set_lanes (p_promptPrice p) prices enabled p)
  else
    set_values (set_ratio_field k (deriveLaneRatio k (lane (p_lanePrices p) k) (p_promptPrice p) (p_lanePrices p)) (p_values p))
      (set_lanes (p_promptPrice p) (p_lanePrices p) enabled p).

Definition base_expr : jstr := js "tier(" ++ dq ++ js "base" ++ dq ++ js ", p * 0 + c * 0)".

Definition handleModeChange (mode : PricingMode) (p : Panel) : Panel :=
  MkPanel mode (p_promptPrice p) (p_lanePrices p) (p_laneEnabled p)
    (if (mode === tiered_expr) && negb (truthy (p_billingExpr p)) then base_expr else p_billingExpr p)
    (p_requestRuleExpr p) (p_editData p) (p_values p).

(** The fields the administrator types into directly. *)
Definition type_price (value : jstr) (p : Panel) : Panel :=
  if re_test numericDraftRegex value then set_values (set_price value (p_values p)) p else p.
Definition enter_name (value : jstr) (p : Panel) : Panel :=
  match p_editData p with Some _ => p | None => set_values (set_name value (p_values p)) p end.
Definition change_exprs (billingExpr requestRuleExpr : jstr) (p : Panel) : Panel :=
  MkPanel (p_mode p) (p_promptPrice p) (p_lanePrices p) (p_laneEnabled p) billingExpr requestRuleExpr (p_editData p) (p_values p).

(** ** Warnings and saving *)

Definition dependent_price (p : Panel) : bool :=
  existsb (fun k => lane (p_laneEnabled p) k && hasValue (Some (lane (p_lanePrices p) k))) laneConfigs.

Definition input_missing (p : Panel) : bool :=
  (p_mode p === per_token) && (match toNumberOrNull (Some (p_promptPrice p)) with None => true | Some _ => false end)
  && dependent_price p.
Definition audio_missing (p : Panel) : bool :=
  (p_mode p === per_token) && lane (p_laneEnabled p) audioOutput && negb (hasValue (Some (lane (p_lanePrices p) audioInput))).

Inductive warning : Type := Conflicting | InputRequired | AudioInputRequired.

Definition warnings (p : Panel) : list warning :=
  let conflict := match p_editData p with
                  | Some d => hasValue (d_price d) &&
                      existsb hasValue [d_ratio d; d_completionRatio d; d_cacheRatio d; d_createCacheRatio d; d_imageRatio d;
                                        d_audioRatio d; d_audioCompletionRatio d]
                  | None => false
                  end in
  (if conflict then [Conflicting] else []) ++ (if input_missing p then [InputRequired] else [])
  ++ (if audio_missing p then [AudioInputRequired] else []).

(** What submitting does: an error at a field, or the data that is saved. *)
Inductive submitted : Type :=
| NameRequired
| RatioError
| AudioError
| Saved (data : ModelRatioData).

Definition panel_data (p : Panel) : ModelRatioData :=
  let v := p_values p in
  let expr b := if p_mode p === tiered_expr then Some b else None in
  MkRatioData (trim (v_name v)) (Some (v_price v)) (Some (v_ratio v)) (Some (v_cacheRatio v)) (Some (v_createCacheRatio v))
    (Some (v_completionRatio v)) (Some (v_imageRatio v)) (Some (v_audioRatio v)) (Some (v_audioCompletionRatio v))
    (Some (p_mode p)) (expr (p_billingExpr p)) (expr (p_requestRuleExpr p)).

Definition submit_form (p : Panel) : submitted :=
  if negb (truthy (v_name (p_values p))) then NameRequired
  else if input_missing p then RatioError
  else if audio_missing p then AudioError
  else Saved (panel_data p).

(** ** The preview *)

Record PreviewRow : Type := MkPreview { pr_key : jstr; pr_label : jstr; pr_value : jstr }.

Definition dollars (t : jstr -> jstr) (shown : bool) (price : jstr) : jstr :=
  if shown && truthy price then js "$" ++ price else t (js "Empty").

Definition buildPreviewRows (t : jstr -> jstr) (p : Panel) : list PreviewRow :=
  match p_mode p with
  | tiered_expr =>
      [MkPreview (js "mode") (js "BillingMode") (js "tiered_expr");
       MkPreview (js "expr") (t (js "Expression"))
         (str_or (combineBillingExpr (p_billingExpr p) (p_requestRuleExpr p)) (t (js "Empty")))]
  | per_request => [MkPreview (js "price") (js "ModelPrice") (str_or (v_price (p_values p)) (t (js "Empty")))]
  | per_token =>
      let row key label k := MkPreview key (t label) (dollars t (lane (p_laneEnabled p) k) (lane (p_lanePrices p) k)) in
      [MkPreview (js "inputPrice") (t (js "Input price")) (dollars t true (p_promptPrice p));
       row (js "completion") (js "Completion price") completion;
       row (js "cache") (js "Cache read price") cache;
       row (js "createCache") (js "Cache write price") createCache;
       row (js "image") (js "Image input price") image;
       row (js "audio") (js "Audio input price") audioInput;
       row (js "audioCompletion") (js "Audio output price") audioOutput]
  end.

(** ** Events *)

Inductive panel_event : Type :=
| OnPrompt (value : jstr)
| OnLane (k : LaneKey) (value : jstr)
| OnToggle (k : LaneKey) (checked : bool)
| OnMode (mode : PricingMode)
| OnPrice (value : jstr)
| OnName (value : jstr)
| OnExprs (billingExpr requestRuleExpr : jstr).

Definition panel_step (e : panel_event) (p : Panel) : Panel :=
  match e with
  | OnPrompt value => handlePromptPriceChange value p
  | OnLane k value => handleLanePriceChange k value p
  | OnToggle k checked => handleLaneToggle k checked p
  | OnMode mode => handleModeChange mode p
  | OnPrice value => type_price value p
  | OnName value => enter_name value p
  | OnExprs b r => change_exprs b r p
  end.

Definition edited (editData : option ModelRatioData) (es : list panel_event) : Panel := foldl (fun p e => panel_step e p) (open_panel editData) es.

(** ** Lemmas *)

Lemma lane_with {A} k k' (v : A) l : lane (with_lane k v l) k' = if k' === k then v else lane l k'.
Proof. by destruct k, k'. Qed.

Lemma field_set k k' x v : ratioFieldByLane k' (set_ratio_field k x v) = if k' === k then x else ratioFieldByLane k' v.
Proof. destruct v. by destruct k, k'. Qed.

Lemma field_set_ratio k x v : ratioFieldByLane k (set_ratio x v) = ratioFieldByLane k v.
Proof. destruct v. by destruct k. Qed.

Lemma ratio_set_field k x v : v_ratio (set_ratio_field k x v) = v_ratio v.
Proof. destruct v. by destruct k. Qed.

(** The ratio of a lane follows from the prices that are shown. *)
Definition derived (p : Panel) (k : LaneKey) : Prop :=
  ratioFieldByLane k (p_values p) =
  if lane (p_laneEnabled p) k then deriveLaneRatio k (lane (p_lanePrices p) k) (p_promptPrice p) (p_lanePrices p) else [].

(** Everything the ratio of a lane depends on is as when the panel was opened. *)
Definition untouched (p0 p : Panel) (k : LaneKey) : Prop :=
  ratioFieldByLane k (p_values p) = ratioFieldByLane k (p_values p0) /\
  lane (p_lanePrices p) k = lane (p_lanePrices p0) k /\
  lane (p_laneEnabled p) k = lane (p_laneEnabled p0) k /\
  p_promptPrice p = p_promptPrice p0 /\
  (k = audioOutput -> lane (p_lanePrices p) audioInput = lane (p_lanePrices p0) audioInput).

Definition base_ratio (prompt : jstr) : jstr :=
  match toNumberOrNull (Some prompt) with Some x => formatNumber (ndiv x two) | None => [] end.

Record consistent (p0 p : Panel) : Prop := MkConsistent {
  c_lanes : forall k, derived p k \/ untouched p0 p k;
  c_base : v_ratio (p_values p) = base_ratio (p_promptPrice p) \/
           (v_ratio (p_values p) = v_ratio (p_values p0) /\ p_promptPrice p = p_promptPrice p0);
  c_off : forall k, lane (p_laneEnabled p) k = false -> ratioFieldByLane k (p_values p) = []
}.

Lemma open_consistent d : consistent (open_panel d) (open_panel d).
Proof.
  split; [by right|by right|]. intros k. destruct d as [d|]; [|by destruct k].
  assert (forall o, hasValue o = false -> opt_str_or o [] = []) as Ho.
  { intros [s|]; [|done]. cbn. unfold str_or. by intros ->. }
  destruct k; apply Ho.
Qed.

Lemma derive_depends k price prompt l l' :
  (k = audioOutput -> lane l audioInput = lane l' audioInput) -> deriveLaneRatio k price prompt l = deriveLaneRatio k price prompt l'.
Proof. intros H. unfold deriveLaneRatio. destruct k; try done. by rewrite H. Qed.

(** A handler that leaves what a lane depends on keeps the lane as it is. *)
Lemma lane_kept p0 p p' k :
  ratioFieldByLane k (p_values p') = ratioFieldByLane k (p_values p) -> lane (p_lanePrices p') k = lane (p_lanePrices p) k ->
  lane (p_laneEnabled p') k = lane (p_laneEnabled p) k -> p_promptPrice p' = p_promptPrice p ->
  (k = audioOutput -> lane (p_lanePrices p') audioInput = lane (p_lanePrices p) audioInput) ->
  derived p k \/ untouched p0 p k -> derived p' k \/ untouched p0 p' k.
Proof.
  intros E1 E2 E3 E4 E5 [H|(H1 & H2 & H3 & H4 & H5)].
  - left. unfold derived. rewrite E1, E2, E3, E4, H. case_match; [|done]. apply derive_depends. intros Hk. by rewrite E5.
  - right. split; [congruence|]. split; [congruence|]. split; [congruence|]. split; [congruence|]. intros Hk. rewrite E5 by done. by apply H5.
Qed.

Lemma sync_field k prompt prices enabled v :
  ratioFieldByLane k (syncLaneRatios prompt prices enabled v) =
  if lane enabled k then deriveLaneRatio k (lane prices k) prompt prices else [].
Proof.
  unfold syncLaneRatios, laneConfigs. cbn [foldl]. rewrite !field_set.
  destruct k; cbn [js_eqb bool_decide decide]; repeat (case_match; try done; try by destruct (lane enabled _)).
Qed.

Lemma sync_base prompt prices enabled v : v_ratio (syncLaneRatios prompt prices enabled v) = base_ratio prompt.
Proof. unfold syncLaneRatios, laneConfigs. cbn [foldl]. rewrite !ratio_set_field. by destruct v. Qed.

Ltac panel := cbn [p_values p_lanePrices p_laneEnabled p_promptPrice set_values set_lanes] in *.

Lemma prompt_consistent p0 p value : consistent p0 p -> consistent p0 (handlePromptPriceChange value p).
Proof.
  intros H. unfold handlePromptPriceChange. destruct (negb _); [done|]. constructor.
  - intros k. left. unfold derived. panel. by rewrite sync_field.
  - left. panel. apply sync_base.
  - intros k Hk. panel. by rewrite sync_field, Hk.
Qed.

Lemma lane_price_consistent p0 p k0 value : consistent p0 p -> consistent p0 (handleLanePriceChange k0 value p).
Proof.
  intros [Hl Hb Ho]. unfold handleLanePriceChange. destruct (negb _); [done|].
  set (next := with_lane k0 value (p_lanePrices p)). set (v := if lane (p_laneEnabled p) k0 then _ else _).
  set (v' := if _ && _ then _ else _).
  assert (forall k, k <> k0 -> ~ (k = audioOutput /\ k0 = audioInput) -> ratioFieldByLane k v' = ratioFieldByLane k (p_values p)) as Hkeep.
  { intros k Hk Hd. assert (ratioFieldByLane k v = ratioFieldByLane k (p_values p)) as Hv.
    { unfold v. destruct (lane _ k0); [|done]. by rewrite field_set, js_eqb_ne. }
    unfold v'. destruct (_ && _) eqn:E; [|done]. apply andb_prop in E as [E _]. rewrite js_eqb_true in E.
    rewrite field_set, js_eqb_ne; [done|]. intros ->. by apply Hd. }
  assert (forall k, lane (p_laneEnabled p) k = false -> ratioFieldByLane k v' = []) as Hoff.
  { intros k Hk. unfold v', v. destruct (_ && _) eqn:E; [|].
    - apply andb_prop in E as [_ E]. rewrite field_set. destruct (k === audioOutput) eqn:Ek.
      + rewrite js_eqb_true in Ek. congruence.
      + destruct (lane (p_laneEnabled p) k0) eqn:E0; [|by apply Ho]. rewrite field_set. destruct (k === k0) eqn:Ek0; [|by apply Ho].
        rewrite js_eqb_true in Ek0. congruence.
    - destruct (lane (p_laneEnabled p) k0) eqn:E0; [|by apply Ho]. rewrite field_set. destruct (k === k0) eqn:Ek0; [|by apply Ho].
      rewrite js_eqb_true in Ek0. congruence. }
  constructor; [| |exact Hoff].
  - intros k. destruct (lane (p_laneEnabled p) k) eqn:Ek; [|left; unfold derived; panel; rewrite Ek; by apply Hoff].
    destruct (decide (k = k0)) as [->|Hne].
    { left. unfold derived. panel. rewrite Ek. unfold next. rewrite lane_with, js_eqb_refl. fold next.
      unfold v'. destruct (k0 === audioInput) eqn:E; cbn [andb]; [|unfold v; by rewrite Ek, field_set, js_eqb_refl].
      rewrite js_eqb_true in E; subst k0. destruct (lane (p_laneEnabled p) audioOutput); unfold v; rewrite Ek, ?field_set; done. }
    destruct (decide (k = audioOutput /\ k0 = audioInput)) as [[-> ->]|Hd].
    { left. unfold derived. panel. rewrite Ek. unfold v'. cbn [andb]. rewrite js_eqb_refl, Ek. cbn [andb]. by rewrite field_set. }
    apply (lane_kept p0 p); panel; [by apply Hkeep| |done|done| |apply Hl].
    + unfold next. by rewrite lane_with, js_eqb_ne.
    + intros ->. unfold next. rewrite lane_with, js_eqb_ne; [done|]. intros <-. by apply Hd.
  - assert (v_ratio v' = v_ratio (p_values p)) as Hv.
    { unfold v', v. destruct (_ && _), (lane _ k0); by rewrite ?ratio_set_field. }
    panel. by rewrite Hv.
Qed.

Lemma toggle_consistent p0 p k0 checked : consistent p0 p -> consistent p0 (handleLaneToggle k0 checked p).
Proof.
  intros [Hl Hb Ho]. unfold handleLaneToggle. destruct checked; cbn [negb]; [|destruct (k0 === audioInput) eqn:E].
  - constructor; panel; [|by rewrite ratio_set_field|].
    + intros k. destruct (decide (k = k0)) as [->|Hne].
      * left. unfold derived. panel. by rewrite field_set, lane_with, js_eqb_refl.
      * apply (lane_kept p0 p); panel; rewrite ?field_set, ?lane_with, ?(js_eqb_ne k k0) by done; done || apply Hl.
    + intros k. rewrite lane_with, field_set. destruct (k === k0); [done|apply Ho].
  - rewrite js_eqb_true in E. subst k0. constructor; panel; [|by rewrite !ratio_set_field|].
    + intros k. destruct (decide (k = audioInput)) as [->|H1]; [by left; unfold derived; panel; rewrite !field_set, !lane_with|].
      destruct (decide (k = audioOutput)) as [->|H2]; [by left; unfold derived; panel; rewrite !field_set, !lane_with|].
      apply (lane_kept p0 p); panel; rewrite ?field_set, ?lane_with, ?(js_eqb_ne k audioInput), ?(js_eqb_ne k audioOutput) by done;
        done || apply Hl.
    + intros k. rewrite !lane_with, !field_set. destruct (k === audioOutput); [done|]. destruct (k === audioInput); [done|apply Ho].
  - rewrite js_eqb_false in E. constructor; panel; [|by rewrite ratio_set_field|].
    + intros k. destruct (decide (k = k0)) as [->|Hne].
      * left. unfold derived. panel. by rewrite field_set, !lane_with, js_eqb_refl.
      * apply (lane_kept p0 p); panel; rewrite ?field_set, ?lane_with, ?(js_eqb_ne k k0), ?(js_eqb_ne audioInput k0) by done; done || apply Hl.
    + intros k. rewrite lane_with, field_set. destruct (k === k0); [done|apply Ho].
Qed.

(** Handlers that do not touch prices, switches and ratios. *)
Lemma same_consistent p0 p p' :
  p_lanePrices p' = p_lanePrices p -> p_laneEnabled p' = p_laneEnabled p -> p_promptPrice p' = p_promptPrice p ->
  (forall k, ratioFieldByLane k (p_values p') = ratioFieldByLane k (p_values p)) -> v_ratio (p_values p') = v_ratio (p_values p) ->
  consistent p0 p -> consistent p0 p'.
Proof.
  intros E1 E2 E3 E4 E5 [Hl Hb Ho]. constructor.
  - intros k. apply (lane_kept p0 p); rewrite ?E1, ?E2, ?E3, ?E4; done || apply Hl.
  - by rewrite E5, E3.
  - intros k. rewrite E2, E4. apply Ho.
Qed.
#[export] Hint Resolve prompt_consistent lane_price_consistent toggle_consistent open_consistent : panel.

Lemma step_consistent p0 p e : consistent p0 p -> consistent p0 (panel_step e p).
Proof.
  intros H. destruct e; cbn [panel_step]; auto with panel.
  - by apply (same_consistent p0 p).
  - unfold type_price. destruct (re_test _ _); [|done].
    apply (same_consistent p0 p); try done; destruct p as [? ? ? ? ? ? ? []]; [by intros []|done].
  - unfold enter_name. destruct (p_editData p); [done|].
    apply (same_consistent p0 p); try done; destruct p as [? ? ? ? ? ? ? []]; [by intros []|done].
  - by apply (same_consistent p0 p).
Qed.

Lemma edited_consistent d es : consistent (open_panel d) (edited d es).
Proof.
  unfold edited. assert (consistent (open_panel d) (open_panel d)) as H by apply open_consistent. revert H.
  generalize (open_panel d) at 2 4. induction es as [|e es IH]; intros p H; [done|]. cbn [foldl]. by apply IH, step_consistent.
Qed.

Lemma panel_data_lane p k : data_lane (panel_data p) k = Some (ratioFieldByLane k (p_values p)).
Proof. by destruct k. Qed.

(** ** Properties *)

(** *** The ratios the prices stand for *)

(** The number of a text, if it is not empty and finite. *)
Definition amount (text : jstr) : option number :=
  match text with [] => None | _ => if is_finite (Number text) then Some (Number text) else None end.

(** A quotient, rounded to twelve decimals, without trailing zeros. *)
Definition quotient (x y : number) : jstr :=
  let q := ndiv x y in if is_finite q then num_to_str (parseFloat (toFixed q 12)) else [].

(** The ratio for a price over another one: none without both, and none over zero. *)
Definition ratio_text (price base : jstr) : jstr :=
  match amount price, amount base with
  | Some x, Some y => if neqb y zero then [] else quotient x y
  | _, _ => []
  end.

(** The price another one is divided by. *)
Definition base_price (p : Panel) (k : LaneKey) : jstr :=
  match k with audioOutput => l_audioInput (p_lanePrices p) | _ => p_promptPrice p end.

(** The text a model has for a lane when the panel opens. *)
Definition stored_ratio (editData : option ModelRatioData) (k : LaneKey) : jstr :=
  match editData with Some d => default [] (data_lane d k) | None => [] end.

(** Nothing the ratio of a lane depends on was changed. *)
Definition lane_unchanged (p0 p : Panel) (k : LaneKey) : Prop :=
  lane (p_lanePrices p) k = lane (p_lanePrices p0) k /\ lane (p_laneEnabled p) k = lane (p_laneEnabled p0) k /\
  p_promptPrice p = p_promptPrice p0 /\ base_price p k = base_price p0 k.

Lemma amount_spec text : toNumberOrNull (Some text) = amount text.
Proof. by destruct text. Qed.

Lemma derive_is_ratio p k :
  deriveLaneRatio k (lane (p_lanePrices p) k) (p_promptPrice p) (p_lanePrices p) = ratio_text (lane (p_lanePrices p) k) (base_price p k).
Proof.
  unfold deriveLaneRatio, ratio_text. rewrite amount_spec. destruct (amount (lane _ k)) as [x|]; [|done].
  assert ((match k with audioOutput => lane (p_lanePrices p) audioInput | _ => p_promptPrice p end) = base_price p k) as -> by (by destruct k).
  rewrite amount_spec. destruct (amount (base_price p k)) as [y|]; [|done]. destruct (neqb y zero); [done|].
  unfold formatNumber, finite_or_null, quotient. by destruct (is_finite (ndiv x y)).
Qed.

Lemma base_is_half prompt : base_ratio prompt = match amount prompt with Some x => quotient x (num_of_Z 2) | None => [] end.
Proof.
  unfold base_ratio. rewrite amount_spec. destruct (amount prompt) as [x|]; [|done].
  unfold formatNumber, finite_or_null, quotient, two. by destruct (is_finite (ndiv x (num_of_Z 2))).
Qed.

Lemma opened_stored editData k : ratioFieldByLane k (p_values (open_panel editData)) = stored_ratio editData k.
Proof.
  destruct editData as [d|]; [|by destruct k]. cbn [open_panel p_values].
  assert (forall v : option jstr, opt_str_or v [] = default [] v) as E by (by intros [[|]|]).
  destruct k; apply E.
Qed.

(** C16: what is saved is what is shown. After any edits, a lane that is switched off is
    saved without a ratio. The ratio of a lane that is on is its price over the input price
    (for audio output, over the audio input price), as they are shown, rounded to twelve
    decimals; there is none if one of the two is missing or no number, or the second is
    zero; and the base ratio is half the input price. Only when neither the price, the switch
    nor the price it is divided by was changed since the panel was opened, the stored text
    may be kept. And a price that is typed (digits, with a point or without) or a switch that
    is set is shown as such, while all other prices and switches stay, except that switching
    a lane off clears its price, and switching audio input off also clears and switches off
    audio output. *)
Theorem saved_ratios_shown editData es data :
  let p := edited editData es in
  submit_form p = Saved data ->
  (forall k, lane (p_laneEnabled p) k = false -> data_lane data k = Some []) /\
  (forall k, lane (p_laneEnabled p) k = true ->
     data_lane data k = Some (ratio_text (lane (p_lanePrices p) k) (base_price p k)) \/
     (lane_unchanged (open_panel editData) p k /\ data_lane data k = Some (stored_ratio editData k))) /\
  (d_ratio data = Some (match amount (p_promptPrice p) with Some x => quotient x (num_of_Z 2) | None => [] end) \/
   (p_promptPrice p = p_promptPrice (open_panel editData) /\
    d_ratio data = Some (match editData with Some d => default [] (d_ratio d) | None => [] end))) /\
  (forall k value, re_test numericDraftRegex value = true ->
     p_promptPrice (panel_step (OnPrompt value) p) = value /\ p_lanePrices (panel_step (OnPrompt value) p) = p_lanePrices p /\
     p_laneEnabled (panel_step (OnPrompt value) p) = p_laneEnabled p /\
     p_lanePrices (panel_step (OnLane k value) p) = with_lane k value (p_lanePrices p) /\
     p_promptPrice (panel_step (OnLane k value) p) = p_promptPrice p /\
     p_laneEnabled (panel_step (OnLane k value) p) = p_laneEnabled p) /\
  (forall k k' on,
     lane (p_laneEnabled (panel_step (OnToggle k on) p)) k' =
       (if decide (k' = k) then on else if decide (on = false /\ k = audioInput /\ k' = audioOutput) then false else lane (p_laneEnabled p) k') /\
     lane (p_lanePrices (panel_step (OnToggle k on) p)) k' =
       (if decide (on = false /\ (k' = k \/ k = audioInput /\ k' = audioOutput)) then [] else lane (p_lanePrices p) k')).
Proof.
  intros p Hs. assert (data = panel_data p) as ->.
  { revert Hs. unfold submit_form. destruct (negb _); [done|]. destruct (input_missing p); [done|]. destruct (audio_missing p); [done|]. by intros [= <-]. }
  destruct (edited_consistent editData es) as [Hl Hb Ho]. fold p in Hl, Hb, Ho. split; [|split; [|split; [|split]]].
  - intros k Hk. by rewrite panel_data_lane, Ho.
  - intros k Hk. rewrite panel_data_lane. destruct (Hl k) as [H|(H1 & H2 & H3 & H4 & H5)].
    + left. unfold derived in H. by rewrite H, Hk, derive_is_ratio.
    + right. rewrite H1, opened_stored. split; [|done]. do 3 (split; [done|]). unfold base_price. destruct k; try done. by apply H5.
  - cbn [panel_data d_ratio]. rewrite <-base_is_half. destruct Hb as [->|[-> ->]]; [by left|right]. split; [done|].
    destruct editData as [d|]; [|done]. cbn [open_panel p_values v_ratio]. by destruct (d_ratio d) as [[]|].
  - intros k value Hv. cbn [panel_step]. unfold handlePromptPriceChange, handleLanePriceChange. by rewrite Hv.
  - intros k k' on. cbn [panel_step]. unfold handleLaneToggle. destruct on; cbn [negb].
    + by destruct k, k'.
    + by destruct k, k'.
Qed.

(** Saving a named model is refused exactly when one of the two warnings about missing
    prices is shown. *)
Lemma refused_when_warned p :
  truthy (v_name (p_values p)) = true ->
  (exists data, submit_form p = Saved data) <-> InputRequired ∉ warnings p /\ AudioInputRequired ∉ warnings p.
Proof.
  intros Hn. unfold submit_form, warnings. rewrite Hn. cbn [negb].
  set (c := match p_editData p with Some _ => _ | None => _ end).
  destruct c, (input_missing p), (audio_missing p); cbn [app]; split;
    try (intros [? [=]]); try (intros [H1 H2]; (by destruct H1; set_solver) || (by destruct H2; set_solver) || by eexists);
    split; set_solver.
Qed.

(** ** Examples *)

Definition new_gpt : list panel_event :=
  [OnName (js "gpt-x"); OnPrompt (js "3"); OnToggle completion true; OnLane completion (js "15"); OnToggle cache true; OnLane cache (js "1")].

Lemma saved_ratios_shown_witness :
  let p := edited None new_gpt in
  (forall k, lane (p_laneEnabled p) k = false -> data_lane (panel_data p) k = Some []) /\
  d_completionRatio (panel_data p) = Some (js "5").
Proof.
  split; [|vm_compute; reflexivity].
  apply (saved_ratios_shown None new_gpt (panel_data (edited None new_gpt))). vm_compute. reflexivity.
Defined.

(** A price that is no short multiple of the input price comes back different: a cache price of 1
    dollar with an input price of 3 is shown as 0.999999999999 when the model is opened again. *)
Lemma price_drifts :
  lane (p_lanePrices (edited None new_gpt)) cache = js "1" /\
  lane (p_lanePrices (open_panel (Some (panel_data (edited None new_gpt))))) cache = js "0.999999999999".
Proof. split; vm_compute; reflexivity. Qed.

(** With an input price of zero the prices of the lanes are dropped without a warning. *)
Lemma zero_input_drops_lanes :
  let p := edited None [OnName (js "m"); OnPrompt (js "0"); OnToggle completion true; OnLane completion (js "15")] in
  warnings p = [] /\ submit_form p = Saved (panel_data p) /\ d_completionRatio (panel_data p) = Some [].
Proof. repeat split; vm_compute; reflexivity. Qed.

(** A name of spaces passes the check and is saved as the empty name. *)
Lemma blank_name_saved :
  exists data, submit_form (edited None [OnName (js "  "); OnPrompt (js "1")]) = Saved data /\ d_name data = [].
Proof. eexists. split; vm_compute; reflexivity. Qed.
