(* ===== verification/RatioEditor.v ===== *)
(** * The prices of all models

    [features/system-settings/models/model-ratio-visual-editor.tsx]: ten settings, each a JSON
    object from model names to a price, a ratio, a mode or an expression, shown as one row
    per model.  Saving the price editor ([PricingSheet]) rewrites the entries of a model, or
    of all models that were selected, in the ten texts; [ratio-settings-card.tsx] sends the
    texts that changed to the server.

    The settings are objects.  For a text that is some other JSON document the definitions give
    [None]: what the editor does then is not modelled.  Names are own keys of the objects. *)
From S2P Require Import Prelude Regex Numbers Json JsonRoundtrip JsonPretty BillingExpr Settings PricingSheet.
Local Open Scope js_scope.

(** ** The ten settings *)

Inductive ratio_field : Type :=
| FPrice | FRatio | FCache | FCreateCache | FCompletion | FImage | FAudio | FAudioCompletion | FMode | FExpr.
#[export] Instance ratio_field_eq_dec : EqDecision ratio_field.
Proof. solve_decision. Defined.
Definition ratio_fields : list ratio_field :=
  [FPrice; FRatio; FCache; FCreateCache; FCompletion; FImage; FAudio; FAudioCompletion; FMode; FExpr].

Record Ten (A : Type) : Type := MkTen {
  modelPrice : A; modelRatio : A; cacheRatio : A; createCacheRatio : A; completionRatio : A;
  imageRatio : A; audioRatio : A; audioCompletionRatio : A; billingMode_ : A; billingExpr_ : A
}.
Arguments MkTen {A}.
Arguments modelPrice {A}. Arguments modelRatio {A}. Arguments cacheRatio {A}. Arguments createCacheRatio {A}.
Arguments completionRatio {A}. Arguments imageRatio {A}. Arguments audioRatio {A}. Arguments audioCompletionRatio {A}.
Arguments billingMode_ {A}. Arguments billingExpr_ {A}.

Definition at_field {A} (t : Ten A) (f : ratio_field) : A :=
  match f with
  | FPrice => modelPrice t | FRatio => modelRatio t | FCache => cacheRatio t | FCreateCache => createCacheRatio t
  | FCompletion => completionRatio t | FImage => imageRatio t | FAudio => audioRatio t
  | FAudioCompletion => audioCompletionRatio t | FMode => billingMode_ t | FExpr => billingExpr_ t
  end.
Definition build {A} (g : ratio_field -> A) : Ten A :=
  MkTen (g FPrice) (g FRatio) (g FCache) (g FCreateCache) (g FCompletion) (g FImage) (g FAudio) (g FAudioCompletion) (g FMode) (g FExpr).

(** The name of an option for [onChange]. *)
Definition option_key (f : ratio_field) : jstr :=
  match f with
  | FPrice => js "ModelPrice" | FRatio => js "ModelRatio" | FCache => js "CacheRatio" | FCreateCache => js "CreateCacheRatio"
  | FCompletion => js "CompletionRatio" | FImage => js "ImageRatio" | FAudio => js "AudioRatio"
  | FAudioCompletion => js "AudioCompletionRatio" | FMode => js "billing_setting.billing_mode" | FExpr => js "billing_setting.billing_expr"
  end.

Abbreviation object := (list (jstr * json)).

Definition read_map (text : jstr) : option object :=
  match safeJsonParse (Some text) (Some (JObj [])) with JObj o => Some o | _ => None end.

Definition read_maps (texts : Ten jstr) : option (Ten object) :=
  if forallb (fun f => match read_map (at_field texts f) with Some _ => true | None => false end) ratio_fields
  then Some (build (fun f => default [] (read_map (at_field texts f))))
  else None.

(** ** Rows *)

Record ModelRow : Type := MkRow {
  r_name : jstr; r_price : jstr; r_ratio : jstr; r_cache : jstr; r_createCache : jstr; r_completion : jstr;
  r_image : jstr; r_audio : jstr; r_audioCompletion : jstr;
  r_mode : PricingMode; r_expr : option SplitExpr; r_hasConflict : bool
}.

(** [map[name]?.toString() || ''] *)
Definition value_text (v : option json) : outcome jstr :=
  match v with Some JNull | None => Ret [] | Some w => to_String w end.

(** [map[name] || ''], as a text; something else has no [trim]. *)
Definition expr_text (v : option json) : outcome jstr :=
  match v with
  | Some (JStr s) => Ret s
  | Some w => if json_truthy w then Throw else Ret []
  | None => Ret []
  end.

Definition ratio_row (maps : Ten object) (name : jstr) : outcome ModelRow :=
  let text f := value_text (obj_get name (at_field maps f)) in
  let! price := text FPrice in
  let! ratio := text FRatio in
  let! cache := text FCache in
  let! createCache := text FCreateCache in
  let! completion := text FCompletion in
  let! image := text FImage in
  let! audio := text FAudio in
  let! audioCompletion := text FAudioCompletion in
  if obj_get name (billingMode_ maps) === Some (JStr (js "tiered_expr")) then
    let! fullExpr := expr_text (obj_get name (billingExpr_ maps)) in
    let! pair := splitBillingExprAndRequestRules fullExpr in
    Ret (MkRow name price ratio cache createCache completion image audio audioCompletion tiered_expr (Some pair) false)
  else
    Ret (MkRow name price ratio cache createCache completion image audio audioCompletion
           (if price !== [] then per_request else per_token) None
           ((price !== []) && ((ratio !== []) || (completion !== []) || (cache !== []) || (createCache !== [])
                               || (image !== []) || (audio !== []) || (audioCompletion !== [])))).

Fixpoint rows_of (maps : Ten object) (names : list jstr) : outcome (list ModelRow) :=
  match names with
  | [] => Ret []
  | n :: ns => let! r := ratio_row maps n in let! rs := rows_of maps ns in Ret (r :: rs)
  end.

Definition model_names (maps : Ten object) : list jstr := dedup (concat (List.map (fun f => (at_field maps f).*1) ratio_fields)).

(** [name_le a b] stands for [a.localeCompare(b) <= 0]. *)
Definition models (name_le : jstr -> jstr -> bool) (maps : Ten object) : outcome (list ModelRow) :=
  let! rows := rows_of maps (model_names maps) in
  Ret (sort_by (fun a b => name_le (r_name a) (r_name b)) rows).

Definition modeCounts (rows : list ModelRow) : nat * nat * nat :=
  foldl (fun acc r =>
    let '(token, request, tiered) := acc in
    match r_mode r with
    | per_token => (S token, request, tiered) | per_request => (token, S request, tiered) | tiered_expr => (token, request, S tiered)
    end) (0, 0, 0) rows.

(** *** What a row shows *)

Definition ratioToPrice (ratio : jstr) (denominator : option jstr) : jstr :=
  let d := match denominator with
           | Some s => if truthy s then toNumberOrNull (Some s) else Some two
           | None => Some two
           end in
  match toNumberOrNull (Some ratio), d with
  | Some r, Some d => num_to_str (parseFloat (toFixed (nmul r d) 12))
  | _, _ => []
  end.

(** [expr.match(/tier\(/g)]: the occurrences of the text, which cannot overlap. *)
Fixpoint count_occurrences (w s : jstr) : nat :=
  match s with
  | [] => 0
  | _ :: s' => (if starts_with w s then 1 else 0) + count_occurrences w s'
  end.

Section shown.
Context (t : jstr -> jstr).

Definition getExpressionSummary (r : ModelRow) : jstr :=
  let tierCount := count_occurrences (js "tier(") (match r_expr r with Some e => billingExpr e | None => [] end) in
  if (0 <? tierCount)%nat
  then t (js "Tiered pricing") ++ [32%N; 183%N; 32%N] ++ num_to_str (num_of_nat tierCount) ++ js " " ++ t (js "tiers")
  else t (js "Expression pricing").

Definition getPriceSummary (r : ModelRow) : jstr :=
  match r_mode r with
  | tiered_expr => getExpressionSummary r
  | per_request => if truthy (r_price r) then js "$" ++ r_price r ++ js " / " ++ t (js "request") else t (js "Unset price")
  | per_token =>
      let inputPrice := ratioToPrice (r_ratio r) None in
      if negb (truthy inputPrice) then t (js "Unset price")
      else
        let extraCount := length (filter_truthy [r_completion r; r_cache r; r_createCache r; r_image r; r_audio r; r_audioCompletion r]) in
        if (0 <? extraCount)%nat
        then t (js "Input") ++ js " $" ++ inputPrice ++ [32%N; 183%N; 32%N] ++ num_to_str (num_of_nat extraCount) ++ js " " ++ t (js "extras")
        else t (js "Input") ++ js " $" ++ inputPrice
  end.

Definition getPriceDetail (r : ModelRow) : jstr :=
  match r_mode r with
  | tiered_expr =>
      if truthy (match r_expr r with Some e => requestRuleExpr e | None => [] end) then t (js "Includes request rules") else t (js "Expression based")
  | per_request => t (js "Fixed request price")
  | per_token =>
      let inputPrice := ratioToPrice (r_ratio r) None in
      if negb (truthy inputPrice) then t (js "No base input price")
      else
        let detail label ratio := if truthy ratio then t label ++ js " $" ++ ratioToPrice ratio (Some inputPrice) else [] in
        let details := filter_truthy [detail (js "Output") (r_completion r); detail (js "Cache") (r_cache r);
                                      detail (js "Cache write") (r_createCache r)] in
        if (0 <? length details)%nat then join [32%N; 183%N; 32%N] details else t (js "Base input price only")
  end.
End shown.

(** ** Writing *)

Definition setIfPresent (value : option jstr) (name : jstr) (target : object) : object :=
  match value with
  | Some s => if truthy s then let parsed := parseFloat s in if is_finite parsed then obj_set name (JNum parsed) target else target
              else target
  | None => target
  end.

(** The text of the data for a field that holds a number. *)
Definition data_field (data : ModelRatioData) (f : ratio_field) : option jstr :=
  match f with
  | FPrice => d_price data | FRatio => d_ratio data | FCache => d_cacheRatio data | FCreateCache => d_createCacheRatio data
  | FCompletion => d_completionRatio data | FImage => d_imageRatio data | FAudio => d_audioRatio data
  | FAudioCompletion => d_audioCompletionRatio data | FMode | FExpr => None
  end.

Definition combined_expr (data : ModelRatioData) : jstr :=
  combineBillingExpr (opt_str_or (d_billingExpr data) []) (opt_str_or (d_requestRuleExpr data) []).

Definition clear_name (name : jstr) (maps : Ten object) : Ten object := build (fun f => obj_delete name (at_field maps f)).

Definition persist_one (data : ModelRatioData) (maps : Ten object) (name : jstr) : Ten object :=
  let maps := clear_name name maps in
  let number f := setIfPresent (data_field data f) name (at_field maps f) in
  if d_billingMode data === Some tiered_expr then
    let combined := combined_expr data in
    build (fun f => match f with
                    | FMode => if truthy combined then obj_set name (JStr (js "tiered_expr")) (billingMode_ maps) else billingMode_ maps
                    | FExpr => if truthy combined then obj_set name (JStr combined) (billingExpr_ maps) else billingExpr_ maps
                    | _ => number f
                    end)
  else if hasValue (d_price data) then
    build (fun f => match f with FPrice => number FPrice | _ => at_field maps f end)
  else
    build (fun f => match f with FPrice | FMode | FExpr => at_field maps f | _ => number f end).

Definition write_maps (maps : Ten object) : Ten jstr := build (fun f => JSON_pretty (JObj (at_field maps f))).

Definition persistPricingData (data : ModelRatioData) (targetNames : list jstr) (texts : Ten jstr) : option (Ten jstr) :=
  match read_maps texts with
  | Some maps => Some (write_maps (foldl (persist_one data) maps targetNames))
  | None => None
  end.

Definition handleDelete (name : jstr) (texts : Ten jstr) : option (Ten jstr) :=
  match read_maps texts with
  | Some maps => Some (write_maps (clear_name name maps))
  | None => None
  end.

(** ** The editor *)

Definition edit_data (r : ModelRow) : ModelRatioData :=
  MkRatioData (r_name r) (Some (r_price r)) (Some (r_ratio r)) (Some (r_cache r)) (Some (r_createCache r)) (Some (r_completion r))
    (Some (r_image r)) (Some (r_audio r)) (Some (r_audioCompletion r))
    (Some (match r_mode r with tiered_expr => tiered_expr | _ => if truthy (r_price r) then per_request else per_token end))
    (billingExpr <$> r_expr r) (requestRuleExpr <$> r_expr r).

Inductive editor_notice : Type := OpenSourceFirst | SelectTarget | CopiedPricing (name : jstr) (count : nat).

Record VisualEditor : Type := MkVisual {
  ve_texts : Ten jstr;
  ve_editData : option ModelRatioData;
  ve_editorOpen : bool;
  ve_sheetOpen : bool;
  ve_globalFilter : jstr;
  ve_notices : list editor_notice
}.

Definition set_editing (d : option ModelRatioData) (editorOpen sheetOpen : bool) (e : VisualEditor) : VisualEditor :=
  MkVisual (ve_texts e) d editorOpen sheetOpen (ve_globalFilter e) (ve_notices e).
Definition set_texts (texts : Ten jstr) (e : VisualEditor) : VisualEditor :=
  MkVisual texts (ve_editData e) (ve_editorOpen e) (ve_sheetOpen e) (ve_globalFilter e) (ve_notices e).
Definition notify (n : editor_notice) (e : VisualEditor) : VisualEditor :=
  MkVisual (ve_texts e) (ve_editData e) (ve_editorOpen e) (ve_sheetOpen e) (ve_globalFilter e) (ve_notices e ++ [n]).

Definition handleEdit (isMobile : bool) (r : ModelRow) (e : VisualEditor) : VisualEditor :=
  set_editing (Some (edit_data r)) true (isMobile || ve_sheetOpen e) e.
Definition handleAdd (isMobile : bool) (e : VisualEditor) : VisualEditor := set_editing None true (isMobile || ve_sheetOpen e) e.
Definition handleCancel (e : VisualEditor) : VisualEditor := set_editing None false false e.
Definition handleGlobalFilterChange (next : jstr) (e : VisualEditor) : VisualEditor :=
  let e' := if next !== ve_globalFilter e then handleCancel e else e in
  MkVisual (ve_texts e') (ve_editData e') (ve_editorOpen e') (ve_sheetOpen e') next (ve_notices e').

Definition handleSave (data : ModelRatioData) (e : VisualEditor) : option VisualEditor :=
  match persistPricingData data [d_name data] (ve_texts e) with
  | Some texts => Some (set_editing (Some data) true (ve_sheetOpen e) (set_texts texts e))
  | None => None
  end.

(** The panel saves, then cancels. *)
Definition save_panel (p : Panel) (e : VisualEditor) : option VisualEditor :=
  match submit_form p with
  | Saved data => match handleSave data e with Some e' => Some (handleCancel e') | None => None end
  | _ => Some e
  end.

(** [targetNames] are the selected rows that pass the filters. *)
Definition handleBatchCopy (targetNames : list jstr) (e : VisualEditor) : option VisualEditor :=
  match ve_editData e with
  | None => Some (notify OpenSourceFirst e)
  | Some data =>
      if (length targetNames =? 0)%nat then Some (notify SelectTarget e)
      else match persistPricingData data targetNames (ve_texts e) with
           | Some texts => Some (notify (CopiedPricing (d_name data) (length targetNames)) (set_texts texts e))
           | None => None
           end
  end.

(** ** Lemmas *)

Lemma at_build {A} (g : ratio_field -> A) f : at_field (build g) f = g f.
Proof. by destruct f. Qed.

Lemma read_maps_at texts maps f : read_maps texts = Some maps -> read_map (at_field texts f) = Some (at_field maps f).
Proof.
  unfold read_maps. destruct (forallb _ _) eqn:E; [|done]. intros [= <-]. rewrite at_build.
  rewrite forallb_forall in E. assert (In f ratio_fields) as Hf by (destruct f; cbn; tauto).
  specialize (E f Hf). by destruct (read_map (at_field texts f)).
Qed.

Lemma read_maps_intro texts maps : (forall f, read_map (at_field texts f) = Some (at_field maps f)) -> read_maps texts = Some maps.
Proof.
  intros H. unfold read_maps. rewrite (proj2 (forallb_forall _ _)) by (intros f _; by rewrite H).
  f_equal. destruct maps. unfold build. by rewrite !H.
Qed.

Definition maps_ok (maps : Ten object) : Prop := forall f, obj_ok (at_field maps f).

(** What the editor writes it reads back. *)
Lemma read_written o : obj_ok o -> read_map (JSON_pretty (JObj o)) = Some o.
Proof.
  intros Ho. unfold read_map, safeJsonParse, id. cbn [blank_text from_option id].
  pose proof (parse_pretty (JObj o) (obj_ok_json o Ho)) as Hp.
  assert (trim (JSON_pretty (JObj o)) = JSON_pretty (JObj o)) as -> by apply pretty_trimmed.
  assert (JSON_pretty (JObj o) <> []) as Hn by (intros E; by rewrite E in Hp).
  rewrite (proj2 (truthy_true _)), js_eqb_ne by done. cbn [negb orb]. by rewrite Hp.
Qed.

Lemma read_write_maps maps : maps_ok maps -> read_maps (write_maps maps) = Some maps.
Proof. intros H. apply read_maps_intro. intros f. unfold write_maps. rewrite at_build. by apply read_written. Qed.

(** *** The entries of a model *)

Definition number_entry (value : option jstr) : option json :=
  match value with
  | Some s => if truthy s && is_finite (parseFloat s) then Some (JNum (parseFloat s)) else None
  | None => None
  end.

(** What saving stores for a model in each of the ten settings. *)
Definition entry (data : ModelRatioData) (f : ratio_field) : option json :=
  if d_billingMode data === Some tiered_expr then
    match f with
    | FMode => if truthy (combined_expr data) then Some (JStr (js "tiered_expr")) else None
    | FExpr => if truthy (combined_expr data) then Some (JStr (combined_expr data)) else None
    | _ => number_entry (data_field data f)
    end
  else if hasValue (d_price data) then match f with FPrice => number_entry (d_price data) | _ => None end
  else match f with FPrice | FMode | FExpr => None | _ => number_entry (data_field data f) end.

Lemma set_if_present value name j o :
  obj_get j (setIfPresent value name o) =
  if j === name then match number_entry value with Some v => Some v | None => obj_get j o end else obj_get j o.
Proof.
  unfold setIfPresent, number_entry. destruct value as [s|]; [|by destruct (j === name)].
  destruct (truthy s); cbn [andb]; [|by destruct (j === name)]. destruct (is_finite _); [|by destruct (j === name)].
  destruct (j === name) eqn:E.
  - rewrite js_eqb_true in E. subst j. apply obj_get_set_eq.
  - rewrite js_eqb_false in E. by apply obj_get_set_ne.
Qed.

Lemma delete_get j name (o : object) : obj_get j (obj_delete name o) = if j === name then None else obj_get j o.
Proof.
  destruct (j === name) eqn:E.
  - rewrite js_eqb_true in E. subst j. apply obj_get_delete_eq.
  - rewrite js_eqb_false in E. by apply obj_get_delete_ne.
Qed.

Lemma set_get j name v (o : object) : obj_get j (obj_set name v o) = if j === name then Some v else obj_get j o.
Proof.
  destruct (j === name) eqn:E.
  - rewrite js_eqb_true in E. subst j. apply obj_get_set_eq.
  - rewrite js_eqb_false in E. by apply obj_get_set_ne.
Qed.

Lemma persist_one_get data maps name j f :
  obj_get j (at_field (persist_one data maps name) f) = if j === name then entry data f else obj_get j (at_field maps f).
Proof.
  unfold persist_one, entry. destruct (d_billingMode data === Some tiered_expr); [|destruct (hasValue _)]; rewrite at_build;
    destruct f; cbv beta iota; unfold clear_name;
    repeat match goal with |- context [if truthy ?s then _ else _] => destruct (truthy s) end;
    rewrite ?set_if_present, ?set_get;
    repeat match goal with |- context [?p (build ?g)] => change (p (build g)) with (at_field (build g) FMode) || change (p (build g)) with (at_field (build g) FExpr) end;
    rewrite ?at_build, ?delete_get; destruct (j === name); try done; cbn [data_field]; by destruct (number_entry _).
Qed.

Lemma persist_get data names maps j f :
  obj_get j (at_field (foldl (persist_one data) maps names) f) = if mem j names then entry data f else obj_get j (at_field maps f).
Proof.
  revert maps. induction names as [|n names IH]; intros maps; [done|]. cbn [foldl]. rewrite IH, persist_one_get.
  destruct (decide (j = n)) as [->|Hne].
  - rewrite js_eqb_refl. assert (mem n (n :: names) = true) as -> by (apply mem_true; left). by destruct (mem n names).
  - rewrite js_eqb_ne by done. assert (mem j (n :: names) = mem j names) as ->; [|done].
    apply eq_true_iff_eq. rewrite !mem_true, elem_of_cons. tauto.
Qed.

(** Data that can be written: its numbers print and read back, its expression is a text. *)
Definition data_ok (data : ModelRatioData) : Prop :=
  (forall f v, number_entry (data_field data f) = Some v -> json_ok v) /\ utf16 (combined_expr data).

Lemma set_if_present_ok value name o :
  utf16 name -> (forall v, number_entry value = Some v -> json_ok v) -> obj_ok o -> obj_ok (setIfPresent value name o).
Proof.
  intros Hn Hv Ho. unfold setIfPresent. unfold number_entry in Hv. destruct value as [s|]; [|done].
  destruct (truthy s); [|done]. destruct (is_finite (parseFloat s)); [|done]. apply obj_ok_set_any; [done|by apply Hv|done].
Qed.

Lemma tiered_name_ok : json_ok (JStr (js "tiered_expr")).
Proof. apply (utf16b_spec (js "tiered_expr")). reflexivity. Qed.

Lemma clear_ok name maps : maps_ok maps -> maps_ok (clear_name name maps).
Proof. intros H f. unfold clear_name. rewrite at_build. apply obj_ok_delete, H. Qed.

Lemma persist_one_ok data maps name : utf16 name -> data_ok data -> maps_ok maps -> maps_ok (persist_one data maps name).
Proof.
  intros Hn [Hd He] Hm f. pose proof (clear_ok name maps Hm) as Hc.
  assert (forall g, obj_ok (setIfPresent (data_field data g) name (at_field (clear_name name maps) g))) as Hs.
  { intros g. apply set_if_present_ok; [done|apply Hd|apply Hc]. }
  unfold persist_one. destruct (_ === _); [|destruct (hasValue _)]; rewrite at_build; destruct f; try apply Hs; try apply Hc.
  - destruct (truthy _); [|apply (Hc FMode)]. apply obj_ok_set_any; [done|apply tiered_name_ok|apply (Hc FMode)].
  - destruct (truthy _); [|apply (Hc FExpr)]. apply obj_ok_set_any; [done|done|apply (Hc FExpr)].
Qed.

Lemma persist_ok data names maps : Forall utf16 names -> data_ok data -> maps_ok maps -> maps_ok (foldl (persist_one data) maps names).
Proof.
  intros Hn Hd. revert maps. induction Hn as [|n names Hn _ IH]; intros maps Hm; [done|]. cbn [foldl]. by apply IH, persist_one_ok.
Qed.

(** ** Properties *)

(** *** The settings a save leaves, from the texts of the data *)

(** A text that starts with a finite number. *)
Definition number_of_text (value : option jstr) : option json :=
  match value with
  | None | Some [] => None
  | Some text => if is_finite (parseFloat text) then Some (JNum (parseFloat text)) else None
  end.

(** The price expression, multiplied by that of the rules if there are any. *)
Definition expression_of (data : ModelRatioData) : jstr :=
  match trim (default [] (d_billingExpr data)), trim (default [] (d_requestRuleExpr data)) with
  | [], _ => []
  | base, [] => base
  | base, rules => js "(" ++ base ++ js ") * " ++ rules
  end.

Definition is_expression (data : ModelRatioData) : bool :=
  match d_billingMode data with Some tiered_expr => true | _ => false end.

(** The entry of a target in each setting. Data that is no expression and has a text for
    the fixed price loses its ratios, whatever mode the panel was in. *)
Definition saved_entry (data : ModelRatioData) (f : ratio_field) : option json :=
  let ratio value :=
    if is_expression data then number_of_text value
    else match d_price data with None | Some [] => number_of_text value | Some _ => None end in
  let expression value := if is_expression data then match expression_of data with [] => None | _ => Some (JStr value) end else None in
  match f with
  | FPrice => number_of_text (d_price data)
  | FRatio => ratio (d_ratio data)
  | FCache => ratio (d_cacheRatio data)
  | FCreateCache => ratio (d_createCacheRatio data)
  | FCompletion => ratio (d_completionRatio data)
  | FImage => ratio (d_imageRatio data)
  | FAudio => ratio (d_audioRatio data)
  | FAudioCompletion => ratio (d_audioCompletionRatio data)
  | FMode => expression (js "tiered_expr")
  | FExpr => expression (expression_of data)
  end.

Lemma number_of_text_spec value : number_entry value = number_of_text value.
Proof. by destruct value as [[|]|]. Qed.

Lemma expression_of_spec data : combined_expr data = expression_of data.
Proof.
  unfold combined_expr, expression_of, combineBillingExpr.
  assert (forall v : option jstr, opt_str_or v [] = default [] v) as E by (by intros [[|]|]). rewrite !E.
  destruct (trim (default [] (d_billingExpr data))); [done|]. by destruct (trim (default [] (d_requestRuleExpr data))).
Qed.

Lemma saved_entry_spec data f : entry data f = saved_entry data f.
Proof.
  unfold entry, saved_entry, is_expression. rewrite expression_of_spec.
  assert ((d_billingMode data === Some tiered_expr) = match d_billingMode data with Some tiered_expr => true | _ => false end) as ->
    by (by destruct (d_billingMode data) as [[]|]).
  rewrite ?number_of_text_spec.
  destruct (match d_billingMode data with Some tiered_expr => true | _ => false end).
  - destruct f; cbn [data_field]; rewrite ?number_of_text_spec; try done; by destruct (expression_of data).
  - destruct (d_price data) as [[|c t]|]; cbn [hasValue]; destruct f; cbn [data_field]; by rewrite ?number_of_text_spec.
Qed.

(** The text of a setting holds an object; a blank one none. *)
Definition setting_holds (text : jstr) (o : object) : Prop :=
  JSON_parse (trim text) = Ret (JObj o) \/ trim text = [] /\ o = [].

Lemma read_setting text o : setting_holds text o -> read_map text = Some o.
Proof.
  unfold setting_holds, read_map, safeJsonParse, blank_text. intros [H|[H ->]].
  - destruct text as [|c t]; [done|]. cbn [truthy negb orb from_option id]. destruct (trim (c :: t)) as [|c' t'] eqn:E; [done|].
    rewrite js_eqb_ne by done. by rewrite H.
  - destruct text as [|c t]; [done|]. by rewrite H.
Qed.

(** C15: of ten settings that hold JSON objects (or are blank), with numbers that print and
    read back and texts of UTF-16 units, saving the data of the panel for some models makes
    ten texts that hold objects again. In them every model that was a target has exactly the
    entries of the data, and every other model the entries it had. Data of an expression
    gives the mode, the expression (with the rules, if there are any) and all prices and
    ratios that are numbers. Other data gives a fixed price or ratios, never both, and no
    expression: if its text for the fixed price is not empty, only the fixed price, also
    when the panel was in the mode per token; else only the ratios. *)
Theorem persist_exact data names texts maps :
  (forall f, setting_holds (at_field texts f) (at_field maps f)) -> maps_ok maps -> Forall utf16 names -> data_ok data ->
  exists texts' maps',
    persistPricingData data names texts = Some texts' /\
    (forall f, JSON_parse (at_field texts' f) = Ret (JObj (at_field maps' f))) /\
    (forall j f, obj_get j (at_field maps' f) = if mem j names then saved_entry data f else obj_get j (at_field maps f)) /\
    (d_billingMode data <> Some tiered_expr -> saved_entry data FPrice = None \/ forall f, f <> FPrice -> saved_entry data f = None).
Proof.
  intros Hr Hm Hn Hd. eexists _, (foldl (persist_one data) maps names). unfold persistPricingData.
  rewrite (read_maps_intro texts maps) by (intros f; by apply read_setting).
  split; [done|]. split.
  - intros f. unfold write_maps. rewrite at_build. apply parse_pretty, obj_ok_json. by apply persist_ok.
  - split; [intros j f; by rewrite persist_get, saved_entry_spec|]. intros Hne.
    assert (is_expression data = false) as E by (unfold is_expression; by destruct (d_billingMode data) as [[]|]).
    unfold saved_entry. rewrite E. destruct (d_price data) as [[|c t]|]; [by left| |by left]. right. by intros [].
Qed.

(** Deleting a model removes its entries and keeps all others. *)
Lemma delete_exact name texts maps :
  read_maps texts = Some maps -> maps_ok maps ->
  exists texts' maps', handleDelete name texts = Some texts' /\ read_maps texts' = Some maps' /\
    forall j f, obj_get j (at_field maps' f) = if j === name then None else obj_get j (at_field maps f).
Proof.
  intros Hr Hm. eexists _, (clear_name name maps). unfold handleDelete. rewrite Hr. split; [done|].
  split; [by apply read_write_maps, clear_ok|]. intros j f. unfold clear_name. rewrite at_build. apply delete_get.
Qed.

(** *** Leaving a fixed price *)

Definition types_price (e : panel_event) : bool := match e with OnPrice _ => true | _ => false end.

Lemma price_set_field k x v : v_price (set_ratio_field k x v) = v_price v.
Proof. destruct v. by destruct k. Qed.

Lemma price_kept p e : types_price e = false -> v_price (p_values (panel_step e p)) = v_price (p_values p).
Proof.
  destruct e as [value|k value|k checked|mode|value|value|b r]; intros He; try done; cbn [panel_step].
  - unfold handlePromptPriceChange. destruct (negb _); [done|]. cbn [p_values set_values]. unfold syncLaneRatios, laneConfigs.
    cbn [foldl]. rewrite !price_set_field. by destruct (p_values p).
  - unfold handleLanePriceChange. destruct (negb _); [done|]. cbn [p_values set_values].
    destruct (_ && _), (lane _ k); by rewrite ?price_set_field.
  - unfold handleLaneToggle. destruct (negb checked); [destruct (k === audioInput)|]; cbn [p_values set_values]; by rewrite ?price_set_field.
  - unfold enter_name. destruct (p_editData p); [done|]. cbn [p_values set_values]. by destruct (p_values p).
Qed.

Lemma price_kept_all d es : forallb (fun e => negb (types_price e)) es = true ->
  v_price (p_values (edited d es)) = v_price (p_values (open_panel d)).
Proof.
  unfold edited. generalize (open_panel d). induction es as [|e es IH]; intros p; [done|]. cbn [forallb foldl].
  intros [He H]%andb_prop. rewrite IH by done. apply price_kept. by apply negb_true_iff.
Qed.

Lemma saved_data p data : submit_form p = Saved data -> data = panel_data p.
Proof.
  unfold submit_form. destruct (negb _); [done|]. destruct (input_missing p); [done|]. destruct (audio_missing p); [done|]. by intros [= <-].
Qed.

(** A model with a fixed price keeps it: switching the editor to prices per token and entering
    them changes nothing, since the price that was typed before still goes first, so the
    ratios are not saved; only emptying the price field of the other mode helps. *)
Lemma fixed_price_stays r es data :
  truthy (r_price r) = true -> forallb (fun e => negb (types_price e)) es = true ->
  submit_form (edited (Some (edit_data r)) es) = Saved data -> d_billingMode data <> Some tiered_expr ->
  entry data FPrice = number_entry (Some (r_price r)) /\ forall f, f <> FPrice -> entry data f = None.
Proof.
  intros Hp Hes ->%saved_data Hm. pose proof (price_kept_all (Some (edit_data r)) es Hes) as Hv.
  assert (v_price (p_values (open_panel (Some (edit_data r)))) = r_price r) as Hv0.
  { unfold open_panel, edit_data. cbn. unfold str_or. by rewrite Hp. }
  unfold entry. rewrite js_eqb_ne by done. cbn [panel_data d_price hasValue]. rewrite Hv, Hv0, Hp. split; [done|]. by intros [].
Qed.

(** *** Saving a model as it is *)

(** A stored number that its text gives back. *)
Definition stored_number (v : option json) : Prop :=
  v = None \/ exists x, v = Some (JNum x) /\ is_finite x = true /\ parseFloat (num_to_str x) = x.

Lemma stored_text v s : stored_number v -> value_text v = Ret s -> number_entry (Some s) = v /\ (truthy s = false <-> v = None).
Proof.
  intros [->|(x & -> & Hf & Hx)]; cbn [value_text to_String]; intros [= <-]; [done|].
  assert (truthy (num_to_str x) = true) as Ht.
  { apply truthy_true. intros E. rewrite E in Hx. assert (parseFloat [] = nan) as En by (vm_compute; reflexivity).
    rewrite En in Hx. by subst x. }
  unfold number_entry. rewrite Ht, Hx, Hf. done.
Qed.

(** Expressions that split and combine to themselves. *)
Definition stored_exprs (mode expr : option json) : Prop :=
  (mode = None /\ expr = None) \/
  (mode = Some (JStr (js "tiered_expr")) /\ exists e, expr = Some (JStr e) /\ truthy e = true /\
     forall pair, splitBillingExprAndRequestRules e = Ret pair -> combineBillingExpr (billingExpr pair) (requestRuleExpr pair) = e).

Definition number_fields : list ratio_field := [FPrice; FRatio; FCache; FCreateCache; FCompletion; FImage; FAudio; FAudioCompletion].

Definition row_field (r : ModelRow) (f : ratio_field) : jstr :=
  match f with
  | FPrice => r_price r | FRatio => r_ratio r | FCache => r_cache r | FCreateCache => r_createCache r | FCompletion => r_completion r
  | FImage => r_image r | FAudio => r_audio r | FAudioCompletion => r_audioCompletion r | FMode | FExpr => []
  end.

Lemma row_of_fields maps name r : ratio_row maps name = Ret r ->
  r_name r = name /\ (forall f, f ∈ number_fields -> value_text (obj_get name (at_field maps f)) = Ret (row_field r f)) /\
  if obj_get name (billingMode_ maps) === Some (JStr (js "tiered_expr"))
  then exists e pair, expr_text (obj_get name (billingExpr_ maps)) = Ret e /\ splitBillingExprAndRequestRules e = Ret pair /\
         r_mode r = tiered_expr /\ r_expr r = Some pair
  else r_mode r <> tiered_expr /\
       (r_hasConflict r = false -> truthy (r_price r) = true -> forall f, f ∈ number_fields -> f <> FPrice -> row_field r f = []).
Proof.
  unfold ratio_row. intros H.
  repeat match type of H with obind ?m ?k = Ret _ => let E := fresh "E" in destruct m eqn:E; cbn [obind] in H; [|done] end.
  destruct (obj_get name (billingMode_ maps) === _).
  - destruct (expr_text _) as [e|]; [|done]. cbn [obind] in H. destruct (splitBillingExprAndRequestRules e) as [pair|] eqn:Es; [|done].
    cbn [obind] in H. injection H as <-. split; [done|]. split; [|by exists e, pair].
    intros f Hf. unfold number_fields in Hf. set_unfold in Hf. destruct_or? Hf; by subst f.
  - injection H as <-. split; [done|]. split.
    { intros f Hf. unfold number_fields in Hf. set_unfold in Hf. destruct_or? Hf; by subst f. }
    cbn [r_mode r_hasConflict r_price]. split; [by destruct (_ !== _)|]. intros Hc Hp f Hf Hne.
    apply truthy_true in Hp. rewrite (js_eqb_ne a []) in Hc by done. cbn [negb andb] in Hc.
    repeat (apply orb_false_iff in Hc as [Hc ?]).
    repeat match goal with HH : negb (_ === _) = false |- _ => apply negb_false_iff in HH; rewrite js_eqb_true in HH end.
    unfold number_fields in Hf. set_unfold in Hf. destruct_or? Hf; by subst f.
Qed.

Lemma saved_field r f : f ∈ number_fields -> data_field (panel_data (open_panel (Some (edit_data r)))) f = Some (row_field r f).
Proof.
  assert (forall s, opt_str_or (Some s) [] = s) as Hs by (intros s; cbn; unfold str_or; by destruct s).
  intros Hf. unfold number_fields in Hf. set_unfold in Hf. destruct_or? Hf; subst f; cbn [data_field panel_data d_price d_ratio d_cacheRatio
    d_createCacheRatio d_completionRatio d_imageRatio d_audioRatio d_audioCompletionRatio open_panel edit_data p_values v_price v_ratio v_cacheRatio
    v_createCacheRatio v_completionRatio v_imageRatio v_audioRatio v_audioCompletionRatio row_field]; by rewrite Hs.
Qed.

Lemma saved_mode r : d_billingMode (panel_data (open_panel (Some (edit_data r)))) =
  Some (match r_mode r with tiered_expr => tiered_expr | _ => if truthy (r_price r) then per_request else per_token end).
Proof. cbn. destruct (r_mode r); cbn; by destruct (truthy _). Qed.

Lemma number_or_expr f : f ∈ number_fields \/ f = FMode \/ f = FExpr.
Proof. destruct f; unfold number_fields; set_solver. Qed.

(** Opening a model and saving it without a change stores what was stored: each of the ten
    settings keeps the entry of the model, for a model whose numbers their texts give back, whose
    expression splits and combines to itself, and which has not both a fixed price and ratios. *)
Lemma unchanged_model_resaved maps name r data :
  ratio_row maps name = Ret r -> r_hasConflict r = false ->
  (forall f, f ∈ number_fields -> stored_number (obj_get name (at_field maps f))) ->
  stored_exprs (obj_get name (billingMode_ maps)) (obj_get name (billingExpr_ maps)) ->
  submit_form (open_panel (Some (edit_data r))) = Saved data ->
  forall f, entry data f = obj_get name (at_field maps f).
Proof.
  intros Hr Hc Hn Hx ->%saved_data. destruct (row_of_fields _ _ _ Hr) as (_ & Ht & Hmode).
  assert (forall f, f ∈ number_fields -> number_entry (data_field (panel_data (open_panel (Some (edit_data r)))) f) = obj_get name (at_field maps f)) as Hnum.
  { intros f Hf. rewrite saved_field by done. by apply (stored_text _ _ (Hn f Hf) (Ht f Hf)). }
  unfold entry. rewrite saved_mode. destruct Hx as [[Em Ee]|(Em & e & Ee & Hte & Hsp)].
  - rewrite Em in Hmode. rewrite js_eqb_ne in Hmode by done. destruct Hmode as [Hm Hnc].
    rewrite js_eqb_ne by (destruct (r_mode r); [destruct (truthy _)..|]; done).
    assert (d_price (panel_data (open_panel (Some (edit_data r)))) = Some (r_price r)) as Hp
      by (apply (saved_field r FPrice); unfold number_fields; set_solver).
    rewrite Hp. cbn [hasValue]. intros f. destruct (truthy (r_price r)) eqn:Et.
    + destruct (number_or_expr f) as [Hf|[->| ->]]; [|exact (eq_sym Em)|exact (eq_sym Ee)].
      destruct (decide (f = FPrice)) as [->|Hne]; [rewrite <- Hp; by apply (Hnum FPrice)|].
      assert (obj_get name (at_field maps f) = None) as ->; [|by destruct f].
      apply (stored_text _ _ (Hn f Hf) (Ht f Hf)). by rewrite (Hnc Hc eq_refl f Hf Hne).
    + destruct (number_or_expr f) as [Hf|[->| ->]]; [|exact (eq_sym Em)|exact (eq_sym Ee)].
      destruct (decide (f = FPrice)) as [->|Hne].
      * symmetry. by apply (stored_text _ _ (Hn FPrice Hf) (Ht FPrice Hf)).
      * rewrite <- Hnum by done. by destruct f.
  - rewrite Em, js_eqb_refl in Hmode. destruct Hmode as (e' & pair & Ee' & Hs & Hm & Hpair). rewrite Hm, js_eqb_refl.
    rewrite Ee in Ee'. injection Ee' as <-. specialize (Hsp pair Hs).
    assert (combined_expr (panel_data (open_panel (Some (edit_data r)))) = e) as Hce.
    { unfold combined_expr. cbn [panel_data d_billingExpr d_requestRuleExpr open_panel edit_data d_billingMode p_mode p_billingExpr p_requestRuleExpr].
      assert (forall s, str_or s [] = s) as Hs2 by (by intros []).
      rewrite Hm, js_eqb_refl, Hpair. cbn [fmap option_fmap option_map opt_str_or]. by rewrite !Hs2. }
    rewrite Hce, Hte. intros f. destruct (number_or_expr f) as [Hf|[->| ->]]; [|exact (eq_sym Em)|exact (eq_sym Ee)].
    rewrite <- Hnum by done. by destruct f; unfold number_fields in Hf; set_unfold in Hf; destruct_or? Hf.
Qed.

(** ** Sending the settings

    [ratio-settings-card.tsx]: the texts are normalised and compared with what was loaded; the options
    that differ are sent one after the other. *)

Inductive setting : Type := Text (s : jstr) | Flag (b : bool).
#[export] Instance setting_eq_dec : EqDecision setting.
Proof. solve_decision. Defined.

Definition normalize_setting (v : setting) : setting := match v with Text s => Text (normalizeJsonString s) | Flag b => Flag b end.
Definition show_setting (v : setting) : setting := match v with Text s => Text (formatJsonForTextarea s) | Flag b => Flag b end.
Definition setting_json (v : setting) : json := match v with Text s => JStr s | Flag b => JBool b end.

Record ModelFormValues : Type := MkModelForm { mf_texts : Ten jstr; mf_ExposeRatioEnabled : bool }.

(** The fields in the order of the object, with the option each is stored as. *)
Definition model_settings (v : ModelFormValues) : list (jstr * setting) :=
  List.map (fun f => (option_key f, Text (at_field (mf_texts v) f)))
    [FPrice; FRatio; FCache; FCreateCache; FCompletion; FImage; FAudio; FAudioCompletion]
  ++ [(js "ExposeRatioEnabled", Flag (mf_ExposeRatioEnabled v))]
  ++ List.map (fun f => (option_key f, Text (at_field (mf_texts v) f))) [FMode; FExpr].

Record GroupFormValues : Type := MkGroupForm {
  GroupRatio : jstr; TopupGroupRatio : jstr; UserUsableGroups : jstr; GroupGroupRatio : jstr; AutoGroups : jstr;
  DefaultUseAutoGroup : bool; GroupSpecialUsableGroup : jstr
}.

Definition group_settings (v : GroupFormValues) : list (jstr * setting) :=
  [(js "GroupRatio", Text (GroupRatio v)); (js "TopupGroupRatio", Text (TopupGroupRatio v));
   (js "UserUsableGroups", Text (UserUsableGroups v)); (js "GroupGroupRatio", Text (GroupGroupRatio v));
   (js "AutoGroups", Text (AutoGroups v)); (js "DefaultUseAutoGroup", Flag (DefaultUseAutoGroup v));
   (js "group_ratio_setting.group_special_usable_group", Text (GroupSpecialUsableGroup v))].

(** The options whose normalised value differs from the one that was loaded. *)
Definition setting_updates (loaded values : list (jstr * setting)) : list (jstr * option json) :=
  omap (fun '((_, d), (key, v)) =>
          if normalize_setting v === normalize_setting d then None else Some (key, Some (setting_json (normalize_setting v))))
    (zip loaded values).

Definition saveModelRatios (answer : jstr -> option json -> option_answer) (loaded values : ModelFormValues)
    : list (jstr * option json) * list form_notice * bool :=
  send_updates answer (setting_updates (model_settings loaded) (model_settings values)).
Definition saveGroupRatios (answer : jstr -> option json -> option_answer) (loaded values : GroupFormValues)
    : list (jstr * option json) * list form_notice * bool :=
  send_updates answer (setting_updates (group_settings loaded) (group_settings values)).

(** The checks of the two schemas. *)
Definition valid_text (error_of : jstr -> jstr) (v : setting) : bool :=
  match v with Text s => jv_valid (validateJsonString error_of s true None None) | Flag _ => true end.
Definition modelSchema (error_of : jstr -> jstr) (v : ModelFormValues) : bool :=
  forallb (fun p => valid_text error_of p.2) (model_settings v).
Definition groupSchema (error_of : jstr -> jstr) (v : GroupFormValues) : bool :=
  forallb (fun p => valid_text error_of p.2) (group_settings v)
  && jv_valid (validateJsonString error_of (AutoGroups v) true (Some isStringArray)
                 (Some (js "Expected a JSON array of group identifiers"))).

(** What the form shows for the settings that were loaded. *)
Definition show_models (loaded : ModelFormValues) : ModelFormValues :=
  MkModelForm (build (fun f => formatJsonForTextarea (at_field (mf_texts loaded) f))) (mf_ExposeRatioEnabled loaded).

(** A stored text: without white space around it, and what it parses to prints and reads back. *)
Definition stored_text_ok (s : jstr) : Prop := trim s = s /\ forall v, JSON_parse s = Ret v -> json_ok v.

Lemma shown_text_same s : stored_text_ok s -> normalizeJsonString (formatJsonForTextarea s) = normalizeJsonString s.
Proof.
  intros [Ht Hv]. destruct (JSON_parse s) as [v|] eqn:E; [by apply (untouched_text s v); [| |apply Hv]|].
  unfold formatJsonForTextarea. rewrite Ht, E. destruct (truthy s) eqn:Es; [done|]. by apply truthy_false in Es as ->.
Qed.

Lemma updates_nil loaded values :
  Forall2 (fun l v => normalize_setting v.2 = normalize_setting l.2) loaded values -> setting_updates loaded values = [].
Proof.
  unfold setting_updates. induction 1 as [|[k d] [k' v] l vs E _ IH]; [done|]. cbn [zip zip_with omap list_omap].
  cbn [snd] in E. rewrite E, js_eqb_refl. exact IH.
Qed.

(** Saving the form as it was loaded sends nothing. *)
Lemma untouched_card_sends_nothing answer loaded :
  (forall f, stored_text_ok (at_field (mf_texts loaded) f)) ->
  saveModelRatios answer loaded (show_models loaded) = ([], [], true).
Proof.
  intros H. unfold saveModelRatios. rewrite updates_nil; [done|]. unfold model_settings, show_models. cbn [mf_texts mf_ExposeRatioEnabled].
  apply Forall2_app; [|constructor; [done|]]; repeat (constructor; [cbn [snd normalize_setting]; rewrite at_build; f_equal; apply shown_text_same, H|]); constructor.
Qed.

(** ** Examples *)

Definition empty_texts : Ten jstr := build (fun _ => []).
Definition two_models : Ten jstr :=
  build (fun f => match f with
    | FPrice => js "{" ++ quote (js "mj") ++ js ":0.1}"
    | FRatio => js "{" ++ quote (js "gpt") ++ js ":1.5}"
    | FCompletion => js "{" ++ quote (js "gpt") ++ js ":4}"
    | _ => []
    end).
Definition two_maps : Ten object := match read_maps two_models with Some m => m | None => build (fun _ => []) end.
Definition gpt_data : ModelRatioData := panel_data (edited None new_gpt).

Lemma gpt_data_ok : data_ok gpt_data.
Proof.
  split; [|apply utf16b_spec; vm_compute; reflexivity]. intros f v H.
  assert (number_entry (data_field gpt_data f) = match f with
            | FRatio => Some (JNum (Number (js "1.5"))) | FCompletion => Some (JNum (Number (js "5")))
            | FCache => Some (JNum (Number (js "0.333333333333"))) | _ => None end) as E by (destruct f; vm_compute; reflexivity).
  rewrite E in H. destruct f; lazymatch type of H with None = _ => discriminate H | _ => apply (inj Some) in H; subst v end; num_ok_eval.
Qed.

Lemma two_maps_ok : maps_ok two_maps.
Proof.
  intros f. assert (at_field two_maps f = match f with
            | FPrice => [(js "mj", JNum (Number (js "0.1")))] | FRatio => [(js "gpt", JNum (Number (js "1.5")))]
            | FCompletion => [(js "gpt", JNum (Number (js "4")))] | _ => [] end) as -> by (destruct f; vm_compute; reflexivity).
  destruct f; (split; [apply plain_ordered; reflexivity|]); try apply Forall_nil_2;
    (apply Forall_cons; split; [|apply Forall_nil_2]; split; [apply utf16b_spec; reflexivity|num_ok_eval]).
Qed.

Lemma persist_exact_witness :
  exists texts' maps',
    persistPricingData gpt_data [js "gpt"] two_models = Some texts' /\
    (forall f, JSON_parse (at_field texts' f) = Ret (JObj (at_field maps' f))) /\
    (forall j f, obj_get j (at_field maps' f) = if mem j [js "gpt"] then saved_entry gpt_data f else obj_get j (at_field two_maps f)) /\
    (d_billingMode gpt_data <> Some tiered_expr -> saved_entry gpt_data FPrice = None \/ forall f, f <> FPrice -> saved_entry gpt_data f = None).
Proof.
  apply (persist_exact gpt_data [js "gpt"] two_models two_maps).
  - intros f. destruct f; [left|left|right|right|left|right|right|right|right|right]; vm_compute; try reflexivity; split; reflexivity.
  - apply two_maps_ok.
  - repeat constructor.
  - apply gpt_data_ok.
Defined.

Definition row_named (name : jstr) : ModelRow :=
  match ratio_row two_maps name with Ret r => r | Throw => MkRow [] [] [] [] [] [] [] [] [] per_token None false end.

(** The fixed price of 0.1 stays although prices per token were entered. *)
Definition to_tokens : list panel_event := [OnMode per_token; OnPrompt (js "3")].

Lemma fixed_price_stays_witness :
  let data := panel_data (edited (Some (edit_data (row_named (js "mj")))) to_tokens) in
  entry data FPrice = Some (JNum (Number (js "0.1"))) /\ entry data FRatio = None.
Proof.
  destruct (fixed_price_stays (row_named (js "mj")) to_tokens (panel_data (edited (Some (edit_data (row_named (js "mj")))) to_tokens)))
    as [H1 H2]; [vm_compute; reflexivity|reflexivity|vm_compute; reflexivity|vm_compute; discriminate|].
  split; [rewrite H1; vm_compute; reflexivity|by apply H2].
Defined.

Lemma unchanged_model_resaved_witness :
  r_hasConflict (row_named (js "gpt")) = false /\ forall f, entry (panel_data (open_panel (Some (edit_data (row_named (js "gpt")))))) f = obj_get (js "gpt") (at_field two_maps f).
Proof.
  split; [vm_compute; reflexivity|].
  apply (unchanged_model_resaved two_maps (js "gpt") (row_named (js "gpt"))).
  - vm_compute. reflexivity.
  - vm_compute. reflexivity.
  - assert (forall f, obj_get (js "gpt") (at_field two_maps f) = match f with
            | FRatio => Some (JNum (Number (js "1.5"))) | FCompletion => Some (JNum (Number (js "4"))) | _ => None end) as E
      by (intros f; destruct f; vm_compute; reflexivity).
    intros f _. rewrite E. destruct f; try (by left); right; eexists; (split; [reflexivity|]); split; vm_compute; reflexivity.
  - left. split; vm_compute; reflexivity.
  - vm_compute. reflexivity.
Defined.

(** The warning of the panel says that saving the current mode rewrites the conflicting fields; for a
    model with a fixed price and ratios, saving in the mode per token keeps the fixed price
    and drops the ratios. *)
Lemma conflict_resolved_to_price :
  let r := MkRow (js "m") (js "0.1") (js "1.5") [] [] [] [] [] [] per_request None true in
  let p := edited (Some (edit_data r)) to_tokens in
  warnings p = [Conflicting] /\ p_mode p = per_token /\
  entry (panel_data p) FPrice = Some (JNum (Number (js "0.1"))) /\ entry (panel_data p) FRatio = None.
Proof. repeat split; vm_compute; reflexivity. Qed.
