(* ===== verification/RatioSync.v ===== *)
(** * Synchronising prices with upstream providers

    [features/system-settings/models/upstream-ratio-sync.tsx], its table and
    [upstream-ratio-sync-helpers.ts]: the server reports, per model and kind of price, where the local value
    differs from the values of upstream channels; the administrator chooses values, which are written
    into the settings of [RatioEditor].

    Kinds of prices, models and sources are keys of objects, in the order of the objects.  A value of an
    upstream is a number, a text or the text [same]. *)
From S2P Require Import Prelude Regex Numbers Json JsonRoundtrip JsonPretty BillingExpr Settings PricingSheet RatioEditor.
Local Open Scope js_scope.

(** ** Data *)

Record RatioDifference : Type := MkDiff { df_current : option json; df_upstreams : object }.
Abbreviation ratio_types := (list (jstr * RatioDifference)).
Abbreviation DifferencesMap := (list (jstr * ratio_types)).
Abbreviation ResolutionsMap := (list (jstr * object)).

Definition RATIO_SYNC_FIELDS : list jstr :=
  [js "model_ratio"; js "completion_ratio"; js "cache_ratio"; js "create_cache_ratio"; js "image_ratio"; js "audio_ratio";
   js "audio_completion_ratio"].
Definition SYNC_FIELD_ORDER : list jstr := RATIO_SYNC_FIELDS ++ [js "model_price"; js "billing_mode"; js "billing_expr"].
Definition NUMERIC_SYNC_FIELDS : list jstr := RATIO_SYNC_FIELDS ++ [js "model_price"].

Definition RATIO_TYPE_OPTIONS : list (jstr * jstr) :=
  [(js "Model ratio", js "model_ratio"); (js "Completion ratio", js "completion_ratio"); (js "Cache ratio", js "cache_ratio");
   (js "Create cache ratio", js "create_cache_ratio"); (js "Image ratio", js "image_ratio"); (js "Audio ratio", js "audio_ratio");
   (js "Audio completion ratio", js "audio_completion_ratio"); (js "Fixed price", js "model_price");
   (js "Expression billing", js "billing_expr")].

Definition getSyncFieldLabel (ratioType : jstr) (t : jstr -> jstr) : jstr :=
  match List.find (fun o => o.2 === ratioType) RATIO_TYPE_OPTIONS with Some o => t o.1 | None => ratioType end.

Definition getOrderedRatioTypes (ratioTypes : ratio_types) (filter : option jstr) : list jstr :=
  let keys := ratioTypes.*1 in
  let ordered := List.filter (fun f => mem f keys) SYNC_FIELD_ORDER ++ List.filter (fun f => negb (mem f SYNC_FIELD_ORDER)) keys in
  match filter with
  | Some f => if negb (truthy f) || (f === js "__all__") then ordered else List.filter (fun k => k === f) ordered
  | None => ordered
  end.

Definition isSelectableUpstreamValue (value : option json) : bool :=
  match value with Some JNull | None => false | Some (JStr s) => s !== js "same" | Some _ => true end.

(** [ratioTypes[k]?.upstreams?.[sourceName]] *)
Definition upstream_value (ratioTypes : ratio_types) (k sourceName : jstr) : option json :=
  match obj_get k ratioTypes with Some d => obj_get sourceName (df_upstreams d) | None => None end.

Definition getPreferredSyncField (ratioTypes : ratio_types) (ratioType sourceName : jstr) : jstr :=
  if (ratioType !== js "billing_expr") && isSelectableUpstreamValue (upstream_value ratioTypes (js "billing_expr") sourceName)
  then js "billing_expr" else ratioType.

Inductive category : Type := CPrice | CRatio | CTiered.
#[export] Instance category_eq_dec : EqDecision category.
Proof. solve_decision. Defined.

Definition getBillingCategory (ratioType : jstr) : category :=
  if ratioType === js "model_price" then CPrice
  else if (ratioType === js "billing_mode") || (ratioType === js "billing_expr") then CTiered
  else CRatio.

(** [word.charAt(0).toUpperCase() + word.slice(1)] *)
Definition capitalize (w : jstr) : jstr := upper (take 1 w) ++ drop 1 w.

Definition optionKeyBySyncField (ratioType : jstr) : jstr :=
  if ratioType === js "billing_mode" then js "billing_setting.billing_mode"
  else if ratioType === js "billing_expr" then js "billing_setting.billing_expr"
  else concat (List.map capitalize (split_char 95 ratioType)).

(** ** Channels to fetch from *)

Record UpstreamChannel : Type := MkUpstreamChannel { uc_id : Z; uc_name : jstr; uc_base_url : jstr; uc_type : option Z }.
Record UpstreamConfig : Type := MkUpstreamConfig { cf_id : Z; cf_name : jstr; cf_base_url : jstr; cf_endpoint : jstr }.

Definition DEFAULT_ENDPOINT : jstr := js "/api/pricing".
Definition OFFICIAL_CHANNEL_ID : Z := -100.
Definition OFFICIAL_CHANNEL_ENDPOINT : jstr := js "/llm-metadata/api/newapi/ratio_config-v1-base.json".
Definition MODELS_DEV_PRESET_ID : Z := -101.
Definition MODELS_DEV_PRESET_ENDPOINT : jstr := js "https://models.dev/api.json".
Definition OPENROUTER_ENDPOINT : jstr := js "openrouter".
Definition OPENROUTER_CHANNEL_TYPE : Z := 20.

Definition getDefaultEndpointForChannel (channel : UpstreamChannel) : jstr :=
  if (uc_id channel =? MODELS_DEV_PRESET_ID)%Z then MODELS_DEV_PRESET_ENDPOINT
  else if (uc_id channel =? OFFICIAL_CHANNEL_ID)%Z then OFFICIAL_CHANNEL_ENDPOINT
  else if match uc_type channel with Some ty => (ty =? OPENROUTER_CHANNEL_TYPE)%Z | None => false end then OPENROUTER_ENDPOINT
  else DEFAULT_ENDPOINT.

(** [channelEndpoints[id]], an object with the identifiers as keys. *)
Abbreviation endpoints := (list (jstr * jstr)).
Definition endpoint_of (eps : endpoints) (id : Z) : jstr := opt_str_or (obj_get (Z_to_str id) eps) [].

Definition fill_endpoints (channels : list UpstreamChannel) (prev : endpoints) : endpoints :=
  foldl (fun next channel =>
    if truthy (endpoint_of next (uc_id channel)) then next
    else obj_set (Z_to_str (uc_id channel)) (getDefaultEndpointForChannel channel) next) prev channels.

Definition handleConfirmChannelSelection (channels : list UpstreamChannel) (eps : endpoints) (selectedIds : list Z)
    : option (list UpstreamConfig) :=
  match List.filter (fun ch => mem (uc_id ch) selectedIds) channels with
  | [] => None
  | selected => Some (List.map (fun ch => MkUpstreamConfig (uc_id ch) (uc_name ch) (uc_base_url ch)
                                            (str_or (endpoint_of eps (uc_id ch)) DEFAULT_ENDPOINT)) selected)
  end.

(** ** Choosing values *)

Definition deleteResolutionField (res : ResolutionsMap) (model ratioType : jstr) : ResolutionsMap :=
  match obj_get model res with
  | None => res
  | Some m =>
      let m := obj_delete ratioType m in
      let m := if ratioType === js "billing_expr" then obj_delete (js "billing_mode") m else m in
      let m := if ratioType === js "billing_mode" then obj_delete (js "billing_expr") m else m in
      match m with [] => obj_delete model res | _ => obj_set model m res end
  end.

(** The value that is chosen, and its kind: an expression of the source goes before its other values. *)
Definition preferred (modelDiffs : option ratio_types) (ratioType : jstr) (value : json) (sourceName : jstr) : jstr * json :=
  let ty := if truthy sourceName then getPreferredSyncField (default [] modelDiffs) ratioType sourceName else ratioType in
  (ty, if ty === ratioType then value
       else match modelDiffs ≫= fun d => upstream_value d ty sourceName with
            | Some JNull | None => value
            | Some v => v
            end).

(** Values of the category that excludes the chosen one are dropped. *)
Definition clear_conflicting (c : category) (m : object) : object :=
  List.filter (fun p => negb ((c !== CTiered) && (getBillingCategory p.1 !== CTiered) && (getBillingCategory p.1 !== c))) m.

(** Mode and expression of the same source come together. *)
Definition pair_tiered (modelDiffs : option ratio_types) (finalType sourceName : jstr) (m : object) : object :=
  match modelDiffs with
  | Some d =>
      if (getBillingCategory finalType === CTiered) && truthy sourceName then
        let modeVal := upstream_value d (js "billing_mode") sourceName in
        let exprVal := upstream_value d (js "billing_expr") sourceName in
        let m := if isSelectableUpstreamValue modeVal then obj_set (js "billing_mode") (default JNull modeVal) m
                 else if finalType === js "billing_expr" then obj_set (js "billing_mode") (JStr (js "tiered_expr")) m
                 else m in
        if isSelectableUpstreamValue exprVal then obj_set (js "billing_expr") (default JNull exprVal) m else m
      else m
  | None => m
  end.

Definition handleSelectValue (differences : DifferencesMap) (model ratioType : jstr) (value : json) (sourceName : jstr)
    (prev : ResolutionsMap) : ResolutionsMap :=
  let modelDiffs := obj_get model differences in
  let '(finalType, finalValue) := preferred modelDiffs ratioType value sourceName in
  let m := clear_conflicting (getBillingCategory finalType) (default [] (obj_get model prev)) in
  let m := pair_tiered modelDiffs finalType sourceName (obj_set finalType finalValue m) in
  obj_set model m prev.

Definition handleUnselectValue (model ratioType : jstr) (prev : ResolutionsMap) : ResolutionsMap := deleteResolutionField prev model ratioType.

Definition handleBulkSelect (differences : DifferencesMap) (filter : option jstr) (upstream : jstr) (rows : DifferencesMap)
    (prev : ResolutionsMap) : ResolutionsMap :=
  foldl (fun res row =>
    foldl (fun res ratioType =>
      let v := upstream_value row.2 ratioType upstream in
      if (getPreferredSyncField row.2 ratioType upstream === ratioType) && isSelectableUpstreamValue v
      then handleSelectValue differences row.1 ratioType (default JNull v) upstream res else res)
      res (getOrderedRatioTypes row.2 filter)) prev rows.

Definition handleBulkUnselect (filter : option jstr) (upstream : jstr) (rows : DifferencesMap) (prev : ResolutionsMap) : ResolutionsMap :=
  foldl (fun res row =>
    foldl (fun res ratioType =>
      match upstream_value row.2 ratioType upstream with Some _ => handleUnselectValue row.1 ratioType res | None => res end)
      res (getOrderedRatioTypes row.2 filter)) prev rows.

(** ** Writing the chosen values *)

Definition parseJsonRecord (raw : jstr) : option object :=
  match JSON_parse (str_or raw (js "{}")) with Ret (JObj o) => Some o | Ret _ => None | Throw => Some [] end.

Definition getLocalBillingCategory (model : jstr) (current : Ten object) : option category :=
  let has f := obj_has model (at_field current f) in
  if has FPrice then Some CPrice
  else if has FRatio || has FCompletion || has FCache || has FCreateCache || has FImage || has FAudio || has FAudioCompletion then Some CRatio
  else None.

(** The order of [finalRatios]. *)
Definition final_fields : list ratio_field :=
  [FRatio; FCompletion; FCache; FCreateCache; FImage; FAudio; FAudioCompletion; FPrice; FMode; FExpr].

(** [finalRatios[key]]; another key is undefined. *)
Definition final_field (key : jstr) : option ratio_field := List.find (fun f => option_key f === key) final_fields.

Definition is_ratio_field (f : ratio_field) : bool := match f with FPrice | FMode | FExpr => false | _ => true end.

Definition set_field (f : ratio_field) (o : object) (maps : Ten object) : Ten object :=
  build (fun g => if g === f then o else at_field maps g).

Definition write_value (model : jstr) (maps : Ten object) (p : jstr * json) : outcome (Ten object) :=
  match final_field (optionKeyBySyncField p.1) with
  | None => Throw
  | Some f =>
      let! v := if mem p.1 NUMERIC_SYNC_FIELDS then let! x := to_Number (Some p.2) in Ret (JNum x) else Ret p.2 in
      Ret (set_field f (obj_set model v (at_field maps f)) maps)
  end.

Fixpoint write_values (model : jstr) (l : object) (maps : Ten object) : outcome (Ten object) :=
  match l with
  | [] => Ret maps
  | p :: l' => let! maps := write_value model maps p in write_values model l' maps
  end.

Definition hasPrice (ratios : object) : bool := obj_has (js "model_price") ratios.
Definition hasRatio (ratios : object) : bool := existsb (fun rt => mem rt RATIO_SYNC_FIELDS) ratios.*1.

Definition clear_replaced (model : jstr) (ratios : object) (maps : Ten object) : Ten object :=
  build (fun f =>
    if (hasPrice ratios && is_ratio_field f) || (hasRatio ratios && (f === FPrice))
    then obj_delete model (at_field maps f) else at_field maps f).

Fixpoint final_ratios (resolutions : ResolutionsMap) (maps : Ten object) : outcome (Ten object) :=
  match resolutions with
  | [] => Ret maps
  | (model, ratios) :: rest =>
      let! maps := write_values model ratios (clear_replaced model ratios maps) in final_ratios rest maps
  end.

(** The requests of a synchronisation, one per setting. *)
Definition performSync (resolutions : ResolutionsMap) (current : Ten object) : outcome (list (jstr * option json)) :=
  let! maps := final_ratios resolutions current in
  Ret (List.map (fun f => (option_key f, Some (JStr (JSON_pretty (JObj (at_field maps f)))))) final_fields).

(** *** Conflicts *)

Definition findSourceChannel (differences : DifferencesMap) (model ratioType : jstr) (value : json) : jstr :=
  match obj_get model differences ≫= obj_get ratioType with
  | None => js "Unknown"
  | Some d => match List.find (fun p => defaultCompare (Some p.2) (Some value)) (df_upstreams d) with
              | Some p => p.1
              | None => js "Unknown"
              end
  end.

Definition newCategory (ratios : object) : category :=
  if hasPrice ratios then CPrice else if existsb (fun rt => mem rt ratios.*1) RATIO_SYNC_FIELDS then CRatio else CTiered.

(** The two texts of a conflict are kept as their labels and values; a value that is missing is shown as a dash. *)
Record ConflictItem : Type := MkConflict {
  ci_channel : jstr; ci_model : jstr; ci_current : list (jstr * option json); ci_newVal : list (jstr * option json)
}.

Definition describe (c : category) (price ratio completionRatio : option json) : list (jstr * option json) :=
  match c with
  | CPrice => [(js "Fixed price", price)]
  | _ => [(js "Model ratio", ratio); (js "Completion ratio", completionRatio)]
  end.

Definition currentDesc (l : category) (model : jstr) (current : Ten object) : list (jstr * option json) :=
  let at_ f := obj_get model (at_field current f) in describe l (at_ FPrice) (at_ FRatio) (at_ FCompletion).
Definition newDesc (c : category) (ratios : object) : list (jstr * option json) :=
  describe c (obj_get (js "model_price") ratios) (obj_get (js "model_ratio") ratios) (obj_get (js "completion_ratio") ratios).

Definition conflict_of (differences : DifferencesMap) (current : Ten object) (p : jstr * object) : option ConflictItem :=
  let '(model, ratios) := p in
  let c := newCategory ratios in
  match getLocalBillingCategory model current with
  | Some l =>
      if (c !== CTiered) && (l !== c)
      then Some (MkConflict (join (js ", ") (dedup (List.map (fun q => findSourceChannel differences model q.1 q.2) ratios))) model
                   (currentDesc l model current) (newDesc c ratios))
      else None
  | None => None
  end.

Definition conflicts (differences : DifferencesMap) (current : Ten object) (resolutions : ResolutionsMap) : list ConflictItem :=
  omap (conflict_of differences current) resolutions.

(** Applying shows the conflicts, or sends the requests. *)
Inductive applied : Type := ShowConflicts (l : list ConflictItem) | SendUpdates (updates : outcome (list (jstr * option json))).

Definition handleApplySync (differences : DifferencesMap) (current : Ten object) (resolutions : ResolutionsMap) : applied :=
  match conflicts differences current resolutions with
  | [] => SendUpdates (performSync resolutions current)
  | l => ShowConflicts l
  end.

(** *** The mutation *)

(** Requests stop at one that throws; whether the server accepted is not looked at. *)
Fixpoint sync_requests (answer : jstr -> option_answer) (updates : list (jstr * option json)) : list (jstr * option json) * bool :=
  match updates with
  | [] => ([], true)
  | (key, v) :: updates' =>
      match answer key with
      | RequestFailed _ => ([(key, v)], false)
      | _ => let '(sent, ok) := sync_requests answer updates' in ((key, v) :: sent, ok)
      end
  end.

Record SyncState : Type := MkSync { sy_differences : DifferencesMap; sy_resolutions : ResolutionsMap }.

Definition drop_difference (model : jstr) (diffs : DifferencesMap) (ratioType : jstr) : DifferencesMap :=
  match obj_get model diffs with
  | Some d => if obj_has ratioType d
              then match obj_delete ratioType d with [] => obj_delete model diffs | d' => obj_set model d' diffs end
              else diffs
  | None => diffs
  end.

Definition sync_succeeded (s : SyncState) : SyncState :=
  MkSync (foldl (fun diffs p => foldl (drop_difference p.1) diffs p.2.*1) (sy_differences s) (sy_resolutions s)) [].

Definition run_sync (answer : jstr -> option_answer) (current : Ten object) (s : SyncState)
    : outcome (SyncState * list (jstr * option json) * bool) :=
  let! updates := performSync (sy_resolutions s) current in
  let '(sent, ok) := sync_requests answer updates in
  Ret (if ok then sync_succeeded s else s, sent, ok).

Definition fetched (diffs : DifferencesMap) (s : SyncState) : SyncState := MkSync diffs [].

(** ** Lemmas *)

(** The kind of price a setting holds. *)
Definition sync_type (f : ratio_field) : jstr :=
  match f with
  | FPrice => js "model_price" | FRatio => js "model_ratio" | FCache => js "cache_ratio" | FCreateCache => js "create_cache_ratio"
  | FCompletion => js "completion_ratio" | FImage => js "image_ratio" | FAudio => js "audio_ratio"
  | FAudioCompletion => js "audio_completion_ratio" | FMode => js "billing_mode" | FExpr => js "billing_expr"
  end.

Lemma sync_type_inj f g : sync_type f = sync_type g -> f = g.
Proof. intros H. destruct f, g; try done; vm_compute in H; discriminate H. Qed.

Lemma sync_type_field f : final_field (optionKeyBySyncField (sync_type f)) = Some f.
Proof. destruct f; vm_compute; reflexivity. Qed.

Lemma sync_order_type k : k ∈ SYNC_FIELD_ORDER -> exists f, k = sync_type f.
Proof.
  intros H. cbn in H. repeat (apply elem_of_cons in H as [->|H]); [by exists FRatio|by exists FCompletion|by exists FCache|by exists FCreateCache|
    by exists FImage|by exists FAudio|by exists FAudioCompletion|by exists FPrice|by exists FMode|by exists FExpr|by apply elem_of_nil in H].
Qed.

Lemma type_in_order f : sync_type f ∈ SYNC_FIELD_ORDER.
Proof. apply mem_true. by destruct f. Qed.

Lemma sync_category f : getBillingCategory (sync_type f) = if is_ratio_field f then CRatio else if f === FPrice then CPrice else CTiered.
Proof. destruct f; vm_compute; reflexivity. Qed.

(** Values and objects as the types of the code have them. *)
Definition scalar (v : json) : Prop := match v with JNum _ | JStr _ => True | _ => False end.
Definition entries_ok (m : object) : Prop := NoDup m.*1 /\ Forall (fun p => p.1 ∈ SYNC_FIELD_ORDER /\ scalar p.2) m.
Definition diffs_typed (d : DifferencesMap) : Prop :=
  forall model ty source v rts, obj_get model d = Some rts -> upstream_value rts ty source = Some v -> scalar v.

(** What is stored for a chosen value. *)
Definition stored_value (k : jstr) (v : json) : json :=
  if mem k NUMERIC_SYNC_FIELDS then JNum (match v with JNum x => x | JStr s => Number s | _ => nan end) else v.

Lemma at_set_field f g o maps : at_field (set_field f o maps) g = if g === f then o else at_field maps g.
Proof. unfold set_field. apply at_build. Qed.

Lemma write_value_exact model maps f v : scalar v ->
  write_value model maps (sync_type f, v) = Ret (set_field f (obj_set model (stored_value (sync_type f) v) (at_field maps f)) maps).
Proof.
  intros Hv. unfold write_value. cbn [fst snd]. rewrite sync_type_field. unfold stored_value.
  destruct (mem _ _); [|done]. by destruct v.
Qed.

Lemma write_values_exact model l maps : entries_ok l ->
  exists maps', write_values model l maps = Ret maps' /\
    forall j f, obj_get j (at_field maps' f) =
      match (if j === model then obj_get (sync_type f) l else None) with
      | Some v => Some (stored_value (sync_type f) v)
      | None => obj_get j (at_field maps f)
      end.
Proof.
  intros [Hn Hl]. revert maps Hn. induction Hl as [|[k v] l [Hk Hv] _ IH]; intros maps Hn.
  { exists maps. split; [done|]. intros j f. by destruct (j === model). }
  cbn [fst snd] in Hk, Hv. cbn [fmap list_fmap fst] in Hn. apply NoDup_cons in Hn as [Hni Hn].
  destruct (sync_order_type k Hk) as [g ->]. cbn [write_values]. rewrite write_value_exact by done. cbn [obind].
  destruct (IH (set_field g (obj_set model (stored_value (sync_type g) v) (at_field maps g)) maps) Hn) as (maps' & E & H).
  exists maps'. split; [done|]. intros j f. rewrite H, at_set_field. cbn [obj_get].
  destruct (decide (f = g)) as [->|Hfg].
  - rewrite !js_eqb_refl, set_get, (obj_get_none _ _ Hni). by destruct (j === model).
  - rewrite (js_eqb_ne f g), (js_eqb_ne (sync_type f)); [done|by intros ?%sync_type_inj|done].
Qed.

Lemma clear_replaced_get model ratios maps j f :
  obj_get j (at_field (clear_replaced model ratios maps) f) =
  if (j === model) && ((hasPrice ratios && is_ratio_field f) || (hasRatio ratios && (f === FPrice))) then None else obj_get j (at_field maps f).
Proof.
  unfold clear_replaced. rewrite at_build. destruct (_ || _); [|by rewrite andb_false_r]. rewrite andb_true_r. apply delete_get.
Qed.

(** The entry of a model after a synchronisation. *)
Definition synced_entry (ratios : object) (f : ratio_field) (old : option json) : option json :=
  match obj_get (sync_type f) ratios with
  | Some v => Some (stored_value (sync_type f) v)
  | None => if (hasPrice ratios && is_ratio_field f) || (hasRatio ratios && (f === FPrice)) then None else old
  end.

Definition resolutions_ok (res : ResolutionsMap) : Prop := NoDup res.*1 /\ Forall (fun p => entries_ok p.2) res.

Lemma final_ratios_exact res maps : resolutions_ok res ->
  exists maps', final_ratios res maps = Ret maps' /\
    forall j f, obj_get j (at_field maps' f) =
      match obj_get j res with
      | Some ratios => synced_entry ratios f (obj_get j (at_field maps f))
      | None => obj_get j (at_field maps f)
      end.
Proof.
  intros [Hn Hr]. revert maps Hn. induction Hr as [|[model ratios] res Hm _ IH]; intros maps Hn; [by exists maps|].
  cbn [fmap list_fmap fst snd] in Hn, Hm. apply NoDup_cons in Hn as [Hni Hn]. cbn [final_ratios].
  destruct (write_values_exact model ratios (clear_replaced model ratios maps) Hm) as (maps1 & -> & H1). cbn [obind].
  destruct (IH maps1 Hn) as (maps' & -> & H2). exists maps'. split; [done|]. intros j f. rewrite H2. cbn [obj_get].
  destruct (j === model) eqn:E.
  - rewrite js_eqb_true in E. subst j. rewrite (obj_get_none _ _ Hni), H1, js_eqb_refl. unfold synced_entry.
    destruct (obj_get (sync_type f) ratios); [done|]. by rewrite clear_replaced_get, js_eqb_refl.
  - rewrite H1, E, clear_replaced_get, E. done.
Qed.

(** ** What can be chosen *)

Inductive chosen (differences : DifferencesMap) : ResolutionsMap -> Prop :=
| chosen_none : chosen differences []
| chosen_select res model ratioType value source :
    chosen differences res -> ratioType ∈ SYNC_FIELD_ORDER -> scalar value ->
    chosen differences (handleSelectValue differences model ratioType value source res)
| chosen_unselect res model ratioType : chosen differences res -> chosen differences (handleUnselectValue model ratioType res).

(** Never a price and a ratio together, and no model without a choice. *)
Definition exclusive (m : object) : Prop :=
  forall k1 k2, k1 ∈ m.*1 -> k2 ∈ m.*1 -> getBillingCategory k1 = CPrice -> getBillingCategory k2 <> CRatio.
Definition choice_ok (m : object) : Prop := entries_ok m /\ exclusive m /\ m <> [].

Lemma entries_set k v m : k ∈ SYNC_FIELD_ORDER -> scalar v -> entries_ok m -> entries_ok (obj_set k v m).
Proof. intros Hk Hv [Hn Hm]. split; [by apply NoDup_set|by apply Forall_set]. Qed.

Lemma NoDup_filter_keys {V} (g : jstr * V -> bool) (m : list (jstr * V)) : NoDup m.*1 -> NoDup (List.filter g m).*1.
Proof.
  induction m as [|p m IH]; [done|]. cbn [fmap list_fmap List.filter]. intros [Hp Hm]%NoDup_cons.
  destruct (g p); [|by apply IH]. cbn [fmap list_fmap]. apply NoDup_cons. split; [|by apply IH].
  contradict Hp. apply list_elem_of_fmap in Hp as (q & E & [Hq _]%elem_of_lfilter). apply list_elem_of_fmap. by exists q.
Qed.

Lemma entries_filter g m : entries_ok m -> entries_ok (List.filter g m).
Proof.
  intros [Hn Hm]. split; [by apply NoDup_filter_keys|]. rewrite Forall_forall in *. intros p [Hp _]%elem_of_lfilter. by apply Hm.
Qed.

Lemma keys_set {V} k (v : V) m j : j ∈ (obj_set k v m).*1 <-> j = k \/ j ∈ m.*1.
Proof.
  rewrite <- !obj_has_true. unfold obj_has. destruct (decide (j = k)) as [->|Hne].
  - rewrite obj_get_set_eq. naive_solver.
  - rewrite obj_get_set_ne by done. naive_solver.
Qed.

Lemma set_not_nil {V} k (v : V) m : obj_set k v m <> [].
Proof. intros E. pose proof (obj_get_set_eq k v m) as H. by rewrite E in H. Qed.

Lemma exclusive_tiered k v m : getBillingCategory k = CTiered -> exclusive m -> exclusive (obj_set k v m).
Proof. intros Hk Hm k1 k2 [->|H1]%keys_set [->|H2]%keys_set Hc; try congruence. by apply (Hm k1 k2). Qed.

Lemma exclusive_cleared k v m : exclusive m -> exclusive (obj_set k v (clear_conflicting (getBillingCategory k) m)).
Proof.
  intros Hm. assert (forall j, j ∈ (clear_conflicting (getBillingCategory k) m).*1 ->
    j ∈ m.*1 /\ (getBillingCategory k = CTiered \/ getBillingCategory j = CTiered \/ getBillingCategory j = getBillingCategory k)) as Hj.
  { intros j Hj. apply list_elem_of_fmap in Hj as (p & -> & [Hp Hc]%elem_of_lfilter). split; [apply list_elem_of_fmap; by exists p|].
    destruct (decide (getBillingCategory k = CTiered)) as [|H1]; [by left|]. right.
    destruct (decide (getBillingCategory p.1 = CTiered)) as [|H2]; [by left|]. right.
    rewrite !js_eqb_ne in Hc by done. cbn [negb andb] in Hc. apply negb_true_iff, negb_false_iff in Hc. by rewrite js_eqb_true in Hc. }
  intros k1 k2 [->|H1]%keys_set [->|H2]%keys_set Hc.
  - congruence.
  - destruct (Hj _ H2) as (_ & [H|[H|H]]); congruence.
  - destruct (Hj _ H1) as (_ & [H|[H|H]]); congruence.
  - eapply Hm; [apply Hj, H1|apply Hj, H2|done].
Qed.

Lemma exclusive_filter g m : exclusive m -> exclusive (List.filter g m).
Proof.
  intros Hm k1 k2 (p1 & -> & [H1 _]%elem_of_lfilter)%list_elem_of_fmap (p2 & -> & [H2 _]%elem_of_lfilter)%list_elem_of_fmap.
  apply Hm; apply list_elem_of_fmap; [by exists p1|by exists p2].
Qed.

Lemma tiered_key k : k ∈ SYNC_FIELD_ORDER -> getBillingCategory k = CTiered -> k = js "billing_mode" \/ k = js "billing_expr".
Proof. intros [f ->]%sync_order_type. destruct f; vm_compute; auto; discriminate. Qed.

Definition choices_ok (res : ResolutionsMap) : Prop := NoDup res.*1 /\ Forall (fun p => choice_ok p.2) res.

Section Choosing.
Context (differences : DifferencesMap) (Hd : diffs_typed differences).

Lemma pair_tiered_ok model ty source m :
  entries_ok m -> exclusive m -> m <> [] -> choice_ok (pair_tiered (obj_get model differences) ty source m).
Proof.
  intros He Hx Hne. unfold pair_tiered. destruct (obj_get model differences) as [d|] eqn:Ed; [|by split].
  assert (forall k v (q : object), upstream_value d k source = Some v -> k = js "billing_mode" \/ k = js "billing_expr" -> choice_ok q ->
    choice_ok (obj_set k v q)) as Hset.
  { intros k v q Hv Hk (H1 & H2 & H3). split_and!; [|apply exclusive_tiered|apply set_not_nil].
    - apply entries_set; [apply mem_true; by destruct Hk as [-> | ->]|by eapply Hd|done].
    - by destruct Hk as [-> | ->].
    - done. }
  destruct (_ && truthy source); [|by split]. set (modeVal := upstream_value d (js "billing_mode") source).
  set (exprVal := upstream_value d (js "billing_expr") source). set (q := if isSelectableUpstreamValue modeVal then _ else _).
  assert (choice_ok q) as Hq.
  { subst q. destruct (isSelectableUpstreamValue modeVal) eqn:E.
    - subst modeVal. destruct (upstream_value d (js "billing_mode") source) eqn:Ev; [|done]. apply Hset; [done|by left|by split].
    - destruct (ty === js "billing_expr"); [|by split]. split_and!; [|by apply exclusive_tiered|apply set_not_nil].
      apply entries_set; [by apply mem_true|done|done]. }
  destruct (isSelectableUpstreamValue exprVal) eqn:E; [|done]. subst exprVal.
  destruct (upstream_value d (js "billing_expr") source) eqn:Ev; [|done]. apply Hset; [done|by right|done].
Qed.

Lemma choice_get res model m : choices_ok res -> obj_get model res = Some m -> choice_ok m.
Proof. intros [_ H] Hm. apply obj_get_elem in Hm. rewrite Forall_forall in H. by apply (H (model, m)). Qed.

Lemma entries_default res model : choices_ok res -> entries_ok (default [] (obj_get model res)) /\ exclusive (default [] (obj_get model res)).
Proof.
  intros Hr. destruct (obj_get model res) as [m|] eqn:E; [|split; [split; [constructor|constructor]|]].
  - by destruct (choice_get _ _ _ Hr E) as (? & ? & _).
  - intros k1 k2 H. by apply elem_of_nil in H.
Qed.

Lemma preferred_ok model ty value source : ty ∈ SYNC_FIELD_ORDER -> scalar value ->
  (preferred (obj_get model differences) ty value source).1 ∈ SYNC_FIELD_ORDER /\
  scalar (preferred (obj_get model differences) ty value source).2.
Proof.
  intros Ht Hv. unfold preferred. cbn [fst snd]. set (ty' := if truthy source then _ else _).
  assert (ty' ∈ SYNC_FIELD_ORDER).
  { subst ty'. destruct (truthy source); [|done]. unfold getPreferredSyncField. destruct (_ && _); [by apply mem_true|done]. }
  split; [done|]. destruct (ty' === ty); [done|]. destruct (obj_get model differences) as [d|] eqn:Ed; [|done]. cbn [mbind option_bind].
  destruct (upstream_value d ty' source) as [v|] eqn:Ev; [|done]. pose proof (Hd _ _ _ _ _ Ed Ev). by destruct v.
Qed.

Lemma select_ok model ty value source res : ty ∈ SYNC_FIELD_ORDER -> scalar value -> choices_ok res ->
  choices_ok (handleSelectValue differences model ty value source res).
Proof.
  intros Ht Hv Hr. destruct (entries_default res model Hr) as [He Hx]. destruct (preferred_ok model ty value source Ht Hv) as [H1 H2].
  unfold handleSelectValue. destruct (preferred _ _ _ _) as [ty' v']. cbn [fst snd] in H1, H2.
  split; [by apply NoDup_set, Hr|]. apply Forall_set; [|apply Hr]. cbn [snd].
  apply pair_tiered_ok; [apply entries_set, entries_filter; done|by apply exclusive_cleared|apply set_not_nil].
Qed.

Lemma unselect_ok model ty res : choices_ok res -> choices_ok (handleUnselectValue model ty res).
Proof.
  intros Hr. unfold handleUnselectValue, deleteResolutionField. destruct (obj_get model res) as [m|] eqn:E; [|done].
  destruct (choice_get _ _ _ Hr E) as (He & Hx & _). set (q := if ty === js "billing_mode" then _ else _).
  assert (entries_ok q /\ exclusive q) as [Hq1 Hq2].
  { subst q. split; repeat case_match; repeat first [apply entries_filter|apply exclusive_filter]; done. }
  destruct Hr as [Hn Hf]. destruct q as [|p q'] eqn:Eq.
  - split; [by apply NoDup_filter_keys|by apply Forall_delete].
  - split; [by apply NoDup_set|]. apply Forall_set; [|done]. by split.
Qed.

Lemma chosen_ok res : chosen differences res -> choices_ok res.
Proof.
  induction 1 as [|res model ty value source _ IH Ht Hv|res model ty _ IH];
    [split; constructor|by apply select_ok|by apply unselect_ok].
Qed.

(** Choosing or dropping a whole source is a sequence of single choices. *)
Lemma bulk_select_chosen filter upstream rows res :
  Forall (fun row => obj_get row.1 differences = Some row.2 /\ Forall (.∈ SYNC_FIELD_ORDER) row.2.*1) rows -> chosen differences res ->
  chosen differences (handleBulkSelect differences filter upstream rows res).
Proof.
  intros Hrows. revert res. induction Hrows as [|row rows [Hrow Hkeys] _ IH]; intros res Hres; [done|]. cbn [handleBulkSelect foldl].
  apply IH. assert (Forall (.∈ SYNC_FIELD_ORDER) (getOrderedRatioTypes row.2 filter)) as Ho.
  { apply Forall_forall. intros k Hk. assert (k ∈ List.filter (fun f => mem f row.2.*1) SYNC_FIELD_ORDER ++
      List.filter (fun f => negb (mem f SYNC_FIELD_ORDER)) row.2.*1) as [H|H]%elem_of_app.
    { unfold getOrderedRatioTypes in Hk. destruct filter as [f|]; [|done]. destruct (_ || _); [done|]. by apply elem_of_lfilter in Hk as [? _]. }
    - by apply elem_of_lfilter in H as [? _].
    - apply elem_of_lfilter in H as [H _]. rewrite Forall_forall in Hkeys. by apply Hkeys. }
  revert res Hres. induction Ho as [|k ks Hk _ IHk]; intros res Hres; [done|]. cbn [foldl]. apply IHk.
  destruct (_ && isSelectableUpstreamValue _) eqn:E; [|done]. apply andb_true_iff in E as [_ E].
  destruct (upstream_value row.2 k upstream) as [v|] eqn:Ev; [|done]. apply chosen_select; [done|done|by eapply Hd].
Qed.

Lemma bulk_unselect_chosen filter upstream rows res : chosen differences res ->
  chosen differences (handleBulkUnselect filter upstream rows res).
Proof.
  revert res. induction rows as [|row rows IH]; intros res Hres; [done|]. cbn [handleBulkUnselect foldl]. apply IH.
  revert res Hres. induction (getOrderedRatioTypes row.2 filter) as [|k ks IHk]; intros res Hres; [done|]. cbn [foldl]. apply IHk.
  case_match; [by apply chosen_unselect|done].
Qed.
End Choosing.

Lemma choices_resolutions res : choices_ok res -> resolutions_ok res.
Proof. intros [Hn Hf]. split; [done|]. eapply Forall_impl; [exact Hf|]. by intros p [H _]. Qed.

Definition requests (maps : Ten object) : list (jstr * option json) :=
  List.map (fun f => (option_key f, Some (JStr (JSON_pretty (JObj (at_field maps f)))))) final_fields.

Lemma performSync_exact differences res current : diffs_typed differences -> chosen differences res ->
  exists maps, performSync res current = Ret (requests maps) /\
    forall j f, obj_get j (at_field maps f) =
      match obj_get j res with
      | Some ratios => synced_entry ratios f (obj_get j (at_field current f))
      | None => obj_get j (at_field current f)
      end.
Proof.
  intros Hd Hc. destruct (final_ratios_exact res current) as (maps & E & H).
  { by eapply choices_resolutions, chosen_ok. }
  exists maps. split; [|done]. unfold performSync. by rewrite E.
Qed.

(** A price and a ratio are chosen together for no model. *)
Lemma has_ratio_type m f : is_ratio_field f = true -> sync_type f ∈ m.*1 -> hasRatio m = true.
Proof.
  intros Hf Hm. apply existsb_exists. exists (sync_type f). split; [by apply list_elem_of_In|]. destruct f; first [discriminate Hf|vm_compute; reflexivity].
Qed.

Lemma has_ratio_key m : hasRatio m = true -> exists k, k ∈ m.*1 /\ k ∈ RATIO_SYNC_FIELDS.
Proof. intros (k & Hk%list_elem_of_In & Hm%mem_true)%existsb_exists. by exists k. Qed.

Lemma ratio_key_category k : k ∈ RATIO_SYNC_FIELDS -> getBillingCategory k = CRatio.
Proof.
  intros H. assert (k ∈ SYNC_FIELD_ORDER) as [f ->]%sync_order_type by (apply elem_of_app; by left).
  rewrite sync_category. apply mem_true in H. by destruct f.
Qed.

Lemma exclusive_price m : exclusive m -> hasPrice m = true -> hasRatio m = false.
Proof.
  intros Hx Hp. apply not_true_iff_false. intros (k & Hk & Hr)%has_ratio_key.
  apply (Hx (js "model_price") k); [by apply obj_has_true|done|done|by apply ratio_key_category].
Qed.

Lemma newCategory_ratio m : hasPrice m = false -> hasRatio m = true -> newCategory m = CRatio.
Proof.
  intros Hp (k & Hk & Hr)%has_ratio_key. unfold newCategory. rewrite Hp.
  rewrite (proj2 (existsb_exists _ _)); [done|]. exists k. split; [by apply list_elem_of_In|by apply mem_true].
Qed.

Lemma local_price model current : obj_has model (at_field current FPrice) = true -> getLocalBillingCategory model current = Some CPrice.
Proof. intros H. unfold getLocalBillingCategory. by rewrite H. Qed.

Lemma local_ratio model current f : is_ratio_field f = true -> obj_has model (at_field current FPrice) = false ->
  obj_has model (at_field current f) = true -> getLocalBillingCategory model current = Some CRatio.
Proof.
  intros Hf Hp H. unfold getLocalBillingCategory. rewrite Hp.
  destruct f; try discriminate Hf; rewrite H, ?orb_true_r; done.
Qed.

Lemma no_conflict differences current res model ratios : conflicts differences current res = [] -> obj_get model res = Some ratios ->
  newCategory ratios = CTiered \/ getLocalBillingCategory model current = None \/
  getLocalBillingCategory model current = Some (newCategory ratios).
Proof.
  intros Hc Hm%obj_get_elem. assert (conflict_of differences current (model, ratios) = None) as H.
  { destruct (conflict_of _ _ _) as [c|] eqn:E; [|done]. assert (c ∈ conflicts differences current res) as Hi.
    { apply list_elem_of_omap. by eexists. } rewrite Hc in Hi. by apply elem_of_nil in Hi. }
  unfold conflict_of in H. destruct (getLocalBillingCategory model current) as [l|]; [|auto].
  destruct (decide (newCategory ratios = CTiered)) as [|H1]; [auto|]. destruct (decide (l = newCategory ratios)) as [->|H2]; [auto|].
  rewrite !js_eqb_ne in H by done. done.
Qed.

(** Local prices of the two kinds, at most one of them. *)
Definition single_priced (current : Ten object) : Prop :=
  forall model f, is_ratio_field f = true -> obj_has model (at_field current FPrice) = true -> obj_has model (at_field current f) = false.

Lemma cleared_needs_conflict differences current res model ratios f v :
  single_priced current -> conflicts differences current res = [] -> obj_get model res = Some ratios -> choice_ok ratios ->
  obj_get model (at_field current f) = Some v ->
  (hasPrice ratios && is_ratio_field f) || (hasRatio ratios && (f === FPrice)) = false.
Proof.
  intros Hs Hc Hm (_ & Hx & _) Hv. assert (obj_has model (at_field current f) = true) as Hh by (unfold obj_has; by rewrite Hv).
  apply orb_false_iff. split; apply not_true_iff_false; intros [H1 H2]%andb_true_iff.
  - assert (newCategory ratios = CPrice) as En by (unfold newCategory; by rewrite H1).
    destruct (obj_has model (at_field current FPrice)) eqn:Ep; [by rewrite (Hs _ _ H2 Ep) in Hh|].
    destruct (no_conflict _ _ _ _ _ Hc Hm) as [H|[H|H]]; rewrite ?En, ?(local_ratio _ _ _ H2 Ep Hh) in H; discriminate H.
  - rewrite js_eqb_true in H2. subst f. destruct (hasPrice ratios) eqn:Ep; [by rewrite (exclusive_price _ Hx Ep) in H1|].
    destruct (no_conflict _ _ _ _ _ Hc Hm) as [H|[H|H]]; rewrite ?(newCategory_ratio _ Ep H1), ?(local_price _ _ Hh) in H; discriminate H.
Qed.

(** ** Theorems *)

(** C17: whatever values are chosen, one by one or for a whole source, a synchronisation throws nothing and sends
    the ten settings in which each model of the choice has the chosen values (numbers for ratios and prices) and
    keeps its other values, except that a chosen fixed price removes its ratios and a chosen ratio its fixed
    price; models that are not chosen keep all of theirs. No choice holds a fixed price and a ratio together. *)
Theorem sync_exact differences res current :
  diffs_typed differences -> chosen differences res ->
  exists maps, performSync res current = Ret (requests maps) /\
    (forall model ratios f, obj_get model res = Some ratios ->
       obj_get model (at_field maps f) = synced_entry ratios f (obj_get model (at_field current f))) /\
    (forall model f, obj_get model res = None -> obj_get model (at_field maps f) = obj_get model (at_field current f)) /\
    (forall model ratios f, obj_get model res = Some ratios -> hasPrice ratios = true -> is_ratio_field f = true ->
       obj_get model (at_field maps f) = None).
Proof.
  intros Hd Hc. destruct (performSync_exact _ _ current Hd Hc) as (maps & E & H). exists maps. split; [done|].
  split_and!; [intros model ratios f Hm; by rewrite H, Hm|intros model f Hm; by rewrite H, Hm|].
  intros model ratios f Hm Hp Hf. rewrite H, Hm. destruct (choice_get _ _ _ (chosen_ok _ Hd _ Hc) Hm) as (_ & Hx & _).
  unfold synced_entry. rewrite Hp, Hf. cbn [andb orb]. destruct (obj_get (sync_type f) ratios) eqn:Ef; [|done].
  assert (hasRatio ratios = true) as Hr by (apply (has_ratio_type _ f Hf), obj_has_true; unfold obj_has; by rewrite Ef).
  by rewrite (exclusive_price _ Hx Hp) in Hr.
Qed.

(** C18: when every model has a fixed price or ratios and not both, a synchronisation that is sent without asking
    for a confirmation removes no local value: every model that has a value of some kind before still has one of
    that kind afterwards. *)
Theorem unconfirmed_sync_keeps differences res current updates :
  diffs_typed differences -> chosen differences res -> single_priced current ->
  handleApplySync differences current res = SendUpdates updates ->
  exists maps, updates = Ret (requests maps) /\
    forall model f v, obj_get model (at_field current f) = Some v -> exists v', obj_get model (at_field maps f) = Some v'.
Proof.
  intros Hd Hc Hs Ha. unfold handleApplySync in Ha. destruct (conflicts differences current res) eqn:Ec; [|discriminate Ha].
  injection Ha as <-. destruct (performSync_exact _ _ current Hd Hc) as (maps & E & H). exists maps. split; [done|].
  intros model f v Hv. rewrite H. destruct (obj_get model res) as [ratios|] eqn:Em; [|by exists v]. unfold synced_entry.
  rewrite (cleared_needs_conflict _ _ _ _ _ _ _ Hs Ec Em (choice_get _ _ _ (chosen_ok _ Hd _ Hc) Em) Hv), Hv.
  destruct (obj_get (sync_type f) ratios); by eexists.
Qed.

(** Two models with differences from one source: one with another ratio, one with a fixed price. *)
Definition sample_diffs : DifferencesMap :=
  [(js "gpt", [(js "model_ratio", MkDiff (Some (JNum (num_of_Z 1))) [(js "up", JNum (num_of_Z 2))])]);
   (js "img", [(js "model_price", MkDiff None [(js "up", JStr (js "0.5"))])])].

Definition sample_maps : Ten object :=
  build (fun f => match f with
                  | FRatio => [(js "gpt", JNum (num_of_Z 1)); (js "img", JNum (num_of_Z 3))]
                  | FCompletion => [(js "gpt", JNum (num_of_Z 4))]
                  | _ => [] end).

Definition sample_choice (model : jstr) (v : json) : ResolutionsMap :=
  handleSelectValue sample_diffs model (if model === js "gpt" then js "model_ratio" else js "model_price") v (js "up") [].

Lemma sample_diffs_typed : diffs_typed sample_diffs.
Proof.
  intros model ty source v rts Hm%obj_get_elem Hu. unfold sample_diffs in Hm.
  repeat (apply elem_of_cons in Hm as [[= -> ->]|Hm]); [| |by apply elem_of_nil in Hm]; unfold upstream_value in Hu; cbn [obj_get] in Hu;
    (destruct (ty === _); [|done]); cbn [df_upstreams obj_get] in Hu; (destruct (source === _); [|done]); by injection Hu as <-.
Qed.

Lemma sample_chosen model v : scalar v -> chosen sample_diffs (sample_choice model v).
Proof. intros Hv. apply chosen_select; [constructor|apply mem_true; by destruct (_ === _)|done]. Qed.

Lemma sync_exact_witness :
  exists maps, performSync (sample_choice (js "img") (JStr (js "0.5"))) sample_maps = Ret (requests maps) /\
    obj_get (js "img") (at_field maps FPrice) = Some (JNum (Number (js "0.5"))) /\
    obj_get (js "img") (at_field maps FRatio) = None /\
    obj_get (js "gpt") (at_field maps FRatio) = Some (JNum (num_of_Z 1)).
Proof.
  destruct (sync_exact sample_diffs (sample_choice (js "img") (JStr (js "0.5"))) sample_maps sample_diffs_typed) as (maps & E & H1 & H2 & H3);
    [by apply sample_chosen|]. exists maps. split; [exact E|].
  assert (obj_get (js "img") (sample_choice (js "img") (JStr (js "0.5"))) = Some [(js "model_price", JStr (js "0.5"))]) as Ei
    by (vm_compute; reflexivity).
  rewrite !(H1 _ _ _ Ei), H2 by (vm_compute; reflexivity). vm_compute. split_and!; reflexivity.
Defined.

Lemma sample_single : single_priced sample_maps.
Proof. intros model f Hf Hp. discriminate Hp. Qed.

Lemma unconfirmed_sync_keeps_witness :
  exists updates maps, handleApplySync sample_diffs sample_maps (sample_choice (js "gpt") (JNum (num_of_Z 2))) = SendUpdates updates /\
    updates = Ret (requests maps) /\
    forall model f v, obj_get model (at_field sample_maps f) = Some v -> exists v', obj_get model (at_field maps f) = Some v'.
Proof.
  destruct (handleApplySync sample_diffs sample_maps (sample_choice (js "gpt") (JNum (num_of_Z 2)))) as [l|updates] eqn:E;
    [vm_compute in E; discriminate E|].
  destruct (unconfirmed_sync_keeps sample_diffs _ sample_maps updates sample_diffs_typed (sample_chosen (js "gpt") (JNum (num_of_Z 2)) I) sample_single E)
    as (maps & H1 & H2).
  exists updates, maps. split_and!; [reflexivity|exact H1|exact H2].
Defined.

(** ** Departures *)

(** A chosen fixed price over local ratios asks first; over a local price with ratios it removes the ratios
    and asks nothing. *)
Lemma mixed_price_unasked : let maps := set_field FPrice [(js "img", JNum (num_of_Z 1))] sample_maps in
  let res := sample_choice (js "img") (JStr (js "0.5")) in
  (exists l, handleApplySync sample_diffs sample_maps res = ShowConflicts l) /\
  (exists updates, handleApplySync sample_diffs maps res = SendUpdates updates) /\
  obj_get (js "img") (at_field maps FRatio) = Some (JNum (num_of_Z 3)) /\
  (exists after, final_ratios res maps = Ret after /\ obj_get (js "img") (at_field after FRatio) = None).
Proof.
  cbv zeta. split_and!.
  - eexists. vm_compute. reflexivity.
  - eexists. reflexivity.
  - vm_compute. reflexivity.
  - eexists. split; vm_compute; reflexivity.
Qed.

(** A ratio that is chosen for a model billed by an expression is stored and the model stays with the expression. *)
Lemma expression_stays : let maps := set_field FMode [(js "gpt", JStr (js "tiered_expr"))] sample_maps in
  let res := sample_choice (js "gpt") (JNum (num_of_Z 2)) in
  conflicts sample_diffs maps res = [] /\
  exists after, final_ratios res maps = Ret after /\ obj_get (js "gpt") (at_field after FRatio) = Some (JNum (num_of_Z 2)) /\
    obj_get (js "gpt") (at_field after FMode) = Some (JStr (js "tiered_expr")).
Proof. cbv zeta. split; [vm_compute; reflexivity|]. eexists. split_and!; vm_compute; reflexivity. Qed.

(** Settings that the server refuses count as synchronised: the differences are gone and success is reported. *)
Lemma refused_sync_succeeds message :
  exists s' sent, run_sync (fun _ => Refused message) sample_maps (MkSync sample_diffs (sample_choice (js "gpt") (JNum (num_of_Z 2))))
    = Ret (s', sent, true) /\ obj_get (js "gpt") (sy_differences s') = None.
Proof. eexists _, _. split; vm_compute; reflexivity. Qed.

(** Settings go one by one, the ratios first: a failure before the prices leaves a model that moves to a fixed
    price without any price. *)
Lemma failed_sync_loses_price :
  exists s' sent, run_sync (fun key => if key === js "ModelPrice" then RequestFailed None else Updated) sample_maps
      (MkSync sample_diffs (sample_choice (js "img") (JStr (js "0.5")))) = Ret (s', sent, false) /\
    obj_get (js "ModelRatio") sent = Some (Some (JStr (JSON_pretty (JObj [(js "gpt", JNum (num_of_Z 1))])))) /\
    sent.*1 = [js "ModelRatio"; js "CompletionRatio"; js "CacheRatio"; js "CreateCacheRatio"; js "ImageRatio"; js "AudioRatio";
               js "AudioCompletionRatio"; js "ModelPrice"].
Proof. eexists _, _. split_and!; vm_compute; reflexivity. Qed.
