(* ===== verification/TieredEditor.v ===== *)
(** * The editor of billing expressions

    [features/system-settings/models/tiered-pricing-editor.tsx]: a billing expression is edited as a list of
    tiers and rule groups or as a text, and every change is handed to the panel around it ([PricingSheet]).

    The component keeps its own state beside the expressions of the panel, and four effects bring the two in
    line after every rendering.  [pass] is one rendering: the effects whose dependencies changed run in order
    on the rendered state, and what they set is rendered next.  [settle_effects] is as many renderings as it takes.
    [toLocaleString] is an argument; the estimator runs the expression as JavaScript and is not modelled. *)
From S2P Require Import Prelude Regex Numbers Json BillingExpr BillingRules Tiers TierEditor.
Local Open Scope js_scope.

(** ** Numbers as they are typed *)

Definition unitCostToPrice (uc : number) : number := num_or uc zero.
Definition priceToUnitCost (price : number) : number := num_or price zero.

(** A number or a text. *)
Definition draft_number (v : CondValue) : number := match v with VNum x => x | VText s => Number s end.

Definition formatTokenHint (locale : number -> jstr) (n : option CondValue) : jstr :=
  match n with
  | None | Some (VText []) => []
  | Some n =>
      let v := draft_number n in
      if is_nan v then []
      else if neqb v zero then js "= 0"
      else if nleb (num_of_Z 1000000) v then js "= " ++ locale (ndiv v (num_of_Z 1000000)) ++ js "M tokens"
      else if nleb (num_of_Z 1000) v then js "= " ++ locale (ndiv v (num_of_Z 1000)) ++ js "K tokens"
      else js "= " ++ locale v ++ js " tokens"
  end.

Definition formatNumberDraft (value : CondValue) : jstr :=
  match value with VNum x => if is_finite x then num_to_str x else js "0" | VText s => s end.

Definition parseNumberDraft (value : jstr) : number :=
  if trim value === [] then zero else let next := Number value in if is_finite next then next else zero.

Definition isZeroDraft (value : jstr) : bool := (trim value !== []) && neqb (parseNumberDraft value) zero.

(** The input: its text and whether it has the focus.  Each operation gives the value it reports. *)
Record DraftInput : Type := MkDraft { dr_draft : jstr; dr_focused : bool }.

Definition open_draft (value : CondValue) : DraftInput := MkDraft (formatNumberDraft value) false.
Definition sync_draft (value : CondValue) (d : DraftInput) : DraftInput :=
  if dr_focused d then d else MkDraft (formatNumberDraft value) false.
Definition draft_change (nextDraft : jstr) (d : DraftInput) : DraftInput * number := (MkDraft nextDraft (dr_focused d), parseNumberDraft nextDraft).
(** Focusing also tells whether the text gets selected. *)
Definition draft_focus (selectZeroOnFocus : bool) (d : DraftInput) : DraftInput * bool :=
  (MkDraft (dr_draft d) true, selectZeroOnFocus && isZeroDraft (dr_draft d)).
Definition draft_blur (d : DraftInput) : DraftInput * number :=
  let normalized := parseNumberDraft (dr_draft d) in (MkDraft (num_to_str normalized) false, normalized).

(** ** Tiers *)

Definition CACHE_PRICE_VARS : list BillingVar := List.filter (fun v => v_group v === Some (js "cache")) BILLING_EXTRA_VARS.
Definition MEDIA_PRICE_VARS : list BillingVar := List.filter (fun v => v_group v === Some (js "media")) BILLING_EXTRA_VARS.
Definition CONDITION_INPUT_OPTIONS : list (jstr * jstr) :=
  [(js "len", js "Full input length"); (js "p", js "Billable input tokens"); (js "c", js "Billable output tokens")].
Definition OPS : list jstr := [js "<"; js "<="; js ">"; js ">="].

Abbreviation VisualConfig := (list VisualTier).

(** [list.filter((_, i) => i !== index)] and [list[index] = next] on a copy. *)
Definition remove_at {A} (index : nat) (l : list A) : list A := take index l ++ drop (S index) l.
Definition set_at {A} (index : nat) (x : A) (l : list A) : list A := take index l ++ x :: drop (S index) l.

Definition with_tier_conditions (cs : list TierConditionInput) (t : VisualTier) : VisualTier :=
  MkVisual (vt_label t) cs (vt_input t) (vt_output t) (vt_cache_mode t) (vt_extra t).

(** The changes of a tier that its card offers. *)
Inductive price_field : Type := InputCost | OutputCost | ExtraCost (field : jstr).
Inductive tier_change : Type :=
| TierLabel (label : jstr)
| TierCondition_ (index : nat) (next : TierConditionInput)
| TierConditionRemove (index : nat)
| TierPrice (f : price_field) (price : number)
| TierCacheMode (timed : bool).

Definition change_tier (c : tier_change) (t : VisualTier) : VisualTier :=
  match c with
  | TierLabel label => MkVisual label (vt_conditions t) (vt_input t) (vt_output t) (vt_cache_mode t) (vt_extra t)
  | TierCondition_ i next => with_tier_conditions (set_at i next (vt_conditions t)) t
  | TierConditionRemove i => with_tier_conditions (remove_at i (vt_conditions t)) t
  | TierPrice InputCost x => MkVisual (vt_label t) (vt_conditions t) (priceToUnitCost x) (vt_output t) (vt_cache_mode t) (vt_extra t)
  | TierPrice OutputCost x => MkVisual (vt_label t) (vt_conditions t) (vt_input t) (priceToUnitCost x) (vt_cache_mode t) (vt_extra t)
  | TierPrice (ExtraCost f) x => MkVisual (vt_label t) (vt_conditions t) (vt_input t) (vt_output t) (vt_cache_mode t) (obj_set f (priceToUnitCost x) (vt_extra t))
  | TierCacheMode timed =>
      MkVisual (vt_label t) (vt_conditions t) (vt_input t) (vt_output t) (if timed then CACHE_MODE_TIMED else CACHE_MODE_GENERIC)
        (obj_set cache_1h_field (if timed then default zero (obj_get cache_1h_field (vt_extra t)) else zero) (vt_extra t))
  end.

Definition hasMediaPricing (t : VisualTier) : bool :=
  existsb (fun v => nltb zero (unitCostToPrice (default zero (obj_get (default [] (v_tierField v)) (vt_extra t))))) MEDIA_PRICE_VARS.

Definition handleTierChange (index : nat) (next : VisualTier) (config : VisualConfig) : VisualConfig :=
  set_at index (normalizeVisualTier (partial_of next)) config.

Definition default_condition (var : jstr) : TierConditionInput := MkInput var (js "<") (Some (VNum (num_of_Z 200000))).

Definition handleAddTier (config : VisualConfig) : VisualConfig :=
  let tiers := match last config with
               | Some t => match vt_conditions t with
                           | [] => removelast config ++ [normalizeVisualTier (partial_of (with_tier_conditions [default_condition (js "len")] t))]
                           | _ => config
                           end
               | None => config
               end in
  tiers ++ [normalizeVisualTier (MkPartialTier (Some (js "tier_" ++ num_to_str (num_of_Z (Z.of_nat (S (length tiers)))))) (Some [])
                                   (Some zero) (Some zero) None [])].

Definition handleRemoveTier (index : nat) (config : VisualConfig) : VisualConfig :=
  match remove_at index config with [] => config | tiers => tiers end.

Definition handleAddCondition (index : nat) (config : VisualConfig) : VisualConfig :=
  match config !! index with
  | None => config
  | Some tier =>
      if 2 <=? length (vt_conditions tier) then config
      else
        let nextVar := if mem (js "len") (List.map ci_var (vt_conditions tier)) then js "c" else js "len" in
        set_at index (with_tier_conditions (vt_conditions tier ++ [default_condition nextVar]) tier) config
  end.

Inductive config_change : Type :=
| ChangeTier (index : nat) (c : tier_change) | AddTier | RemoveTier (index : nat) | AddCondition (index : nat).

Definition change_config (c : config_change) (config : VisualConfig) : VisualConfig :=
  match c with
  | ChangeTier i c => match config !! i with Some t => handleTierChange i (change_tier c t) config | None => config end
  | AddTier => handleAddTier config
  | RemoveTier i => handleRemoveTier i config
  | AddCondition i => handleAddCondition i config
  end.

(** ** Rule groups *)

Definition handleSourceChange (source : jstr) (condition : RequestCondition) : RequestCondition :=
  if source === SOURCE_TIME then CTime createEmptyTimeCondition
  else if source === SOURCE_HEADER then CPH (MkPH Header [] MATCH_EQ [])
  else if source === SOURCE_PARAM then CPH (MkPH Param [] MATCH_EQ [])
  else condition.

Definition change_mode (mode : jstr) (condition : RequestCondition) : RequestCondition :=
  match condition with
  | CTime c => CTime (MkTime (tc_timeFunc c) (tc_timezone c) mode (tc_value c) (tc_rangeStart c) (tc_rangeEnd c))
  | CPH c => CPH (MkPH (ph_source c) (ph_path c) mode (ph_value c))
  end.

Definition change_condition (index : nat) (next : RequestCondition) (group : RequestRuleGroup) : RequestRuleGroup :=
  MkGroup (set_at index next (rg_conditions group)) (rg_multiplier group).
Definition remove_condition (index : nat) (group : RequestRuleGroup) : RequestRuleGroup :=
  MkGroup (remove_at index (rg_conditions group)) (rg_multiplier group).
Definition add_condition (timeMode : bool) (group : RequestRuleGroup) : RequestRuleGroup :=
  MkGroup (rg_conditions group ++ [if timeMode then CTime createEmptyTimeCondition else CPH createEmptyCondition]) (rg_multiplier group).
Definition change_multiplier (value : number) (group : RequestRuleGroup) : RequestRuleGroup :=
  MkGroup (rg_conditions group) (num_to_str value).

(** ** Presets *)

Record Preset : Type := MkPreset { ps_key : jstr; ps_expr : jstr; ps_rules : list RequestRuleGroup }.

Definition tier_text (name body : jstr) : jstr := js "tier(" ++ dq ++ name ++ dq ++ js ", " ++ body ++ js ")".

Definition opus_expr : jstr := tier_text (js "base") (js "p * 5 + c * 25 + cr * 0.5 + cc * 6.25 + cc1h * 10").
Definition gpt54_expr : jstr :=
  js "len <= 272000 ? " ++ tier_text (js "standard") (js "p * 2.5 + c * 15 + cr * 0.25") ++ js " : "
  ++ tier_text (js "long_context") (js "p * 5 + c * 22.5 + cr * 0.5").
Definition base_3_15 : jstr := tier_text (js "base") (js "p * 3 + c * 15").
Definition at_weekday (d : jstr) : RequestRuleGroup :=
  MkGroup [CTime (MkTime weekday (js "Asia/Shanghai") MATCH_EQ d [] [])] (js "0.8").
Definition service_tier (v m : jstr) : RequestRuleGroup := MkGroup [CPH (MkPH Param (js "service_tier") MATCH_EQ v)] m.

Definition PRESET_GROUPS : list (jstr * list Preset) :=
  [(js "Fixed price",
    [MkPreset (js "flat") (tier_text (js "base") (js "p * 2 + c * 4")) [];
     MkPreset (js "claude-opus") opus_expr [];
     MkPreset (js "gpt-5.4") gpt54_expr []]);
   (js "Tiered",
    [MkPreset (js "claude-sonnet")
       (js "len <= 200000 ? " ++ tier_text (js "standard") (js "p * 3 + c * 15 + cr * 0.3 + cc * 3.75 + cc1h * 6") ++ js " : "
        ++ tier_text (js "long_context") (js "p * 6 + c * 22.5 + cr * 0.6 + cc * 7.5 + cc1h * 12")) [];
     MkPreset (js "qwen3-max")
       (js "len <= 32000 ? " ++ tier_text (js "short") (js "p * 1.2 + c * 6 + cr * 0.24 + cc * 1.5") ++ js " : "
        ++ js "len <= 128000 ? " ++ tier_text (js "mid") (js "p * 2.4 + c * 12 + cr * 0.48 + cc * 3") ++ js " : "
        ++ tier_text (js "long") (js "p * 3 + c * 15 + cr * 0.6 + cc * 3.75")) [];
     MkPreset (js "glm-4.5-air")
       (js "len < 32000 && c < 200 ? " ++ tier_text (js "short_output") (js "p * 0.8 + c * 2 + cr * 0.16") ++ js " : "
        ++ js "len < 32000 && c >= 200 ? " ++ tier_text (js "long_output") (js "p * 0.8 + c * 6 + cr * 0.16") ++ js " : "
        ++ tier_text (js "mid_context") (js "p * 1.2 + c * 8 + cr * 0.24")) [];
     MkPreset (js "doubao-seed-1.8")
       (js "len <= 32000 && c <= 200 ? " ++ tier_text (js "discount") (js "p * 0.8 + c * 2 + cr * 0.16 + cc * 0.17") ++ js " : "
        ++ js "len <= 32000 ? " ++ tier_text (js "short") (js "p * 0.8 + c * 8 + cr * 0.16 + cc * 0.17") ++ js " : "
        ++ js "len <= 128000 ? " ++ tier_text (js "mid") (js "p * 1.2 + c * 16 + cr * 0.16 + cc * 0.17") ++ js " : "
        ++ tier_text (js "long") (js "p * 2.4 + c * 24 + cr * 0.16 + cc * 0.17")) []]);
   (js "Multimodal",
    [MkPreset (js "gpt-image-1-mini") (tier_text (js "base") (js "p * 2 + c * 8 + img * 2.5")) [];
     MkPreset (js "gemini-2.5-flash") (tier_text (js "base") (js "p * 0.3 + c * 2.5 + cr * 0.03 + ai * 1.0")) [];
     MkPreset (js "gemini-3-pro-image") (tier_text (js "base") (js "p * 2 + c * 12 + img_o * 120")) [];
     MkPreset (js "qwen3-omni-flash") (tier_text (js "base") (js "p * 0.43 + c * 3.06 + img * 0.78 + ai * 3.81 + ao * 15.11")) []]);
   (js "Request rule",
    [MkPreset (js "claude-opus-fast") opus_expr
       [MkGroup [CPH (MkPH Header (js "anthropic-beta") MATCH_CONTAINS (js "fast-mode-2026-02-01"))] (js "6")];
     MkPreset (js "gpt-5.4-tiers") gpt54_expr [service_tier (js "priority") (js "2"); service_tier (js "flex") (js "0.5")]]);
   (js "Time-based",
    [MkPreset (js "night-discount") base_3_15
       [MkGroup [CTime (MkTime hour (js "Asia/Shanghai") MATCH_RANGE [] (js "21") (js "6"))] (js "0.5")];
     MkPreset (js "weekend-discount") base_3_15 [at_weekday (js "0"); at_weekday (js "6")]])].

(** ** The component *)

Inductive EditorMode : Type := visual | raw.
#[export] Instance editor_mode_eq_dec : EqDecision EditorMode.
Proof. solve_decision. Defined.

(** The properties: the name of the model and the two expressions of the panel. *)
Record Props : Type := MkProps { pr_modelName : jstr; pr_expr : jstr; pr_rules : jstr }.

(** The state, with the dependencies of the first two effects when they last ran. *)
Record TieredEditor : Type := MkTiered {
  te_mode : EditorMode; te_config : option VisualConfig; te_raw : jstr; te_groups : list RequestRuleGroup;
  te_init : bool; te_seen : option (jstr * jstr); te_seen_model : option jstr
}.

(** [tryParseRequestRuleExpr(e) || []] *)
Definition rule_groups (rules : jstr) : outcome (list RequestRuleGroup) :=
  let! gs := tryParseRequestRuleExpr rules in Ret (default [] gs).

Definition mount_editor (p : Props) : outcome TieredEditor :=
  let! gs := rule_groups (pr_rules p) in
  Ret (MkTiered visual (tryParseVisualConfig (Some (pr_expr p))) (combineBillingExpr (pr_expr p) (pr_rules p)) gs false None None).

Definition canUseVisualRules (p : Props) : outcome bool :=
  if negb (truthy (pr_rules p)) then Ret true
  else let! gs := tryParseRequestRuleExpr (pr_rules p) in Ret (match gs with Some _ => true | None => false end).

Definition effectiveExpr (e : TieredEditor) : outcome jstr :=
  match te_mode e with
  | visual => Ret (generateExprFromVisualConfig (te_config e))
  | raw => let! s := splitBillingExprAndRequestRules (te_raw e) in Ret (billingExpr s)
  end.

(** The first effect: the state is made of the expressions, unless it was before. *)
Definition load (p : Props) (e : TieredEditor) : outcome TieredEditor :=
  let! gs := rule_groups (pr_rules p) in
  let '(mode, config) :=
    match tryParseVisualConfig (Some (pr_expr p)) with
    | Some cfg => (visual, Some cfg)
    | None => if truthy (pr_expr p) then (raw, None) else (te_mode e, Some createDefaultVisualConfig)
    end in
  Ret (MkTiered mode config (combineBillingExpr (pr_expr p) (pr_rules p)) gs true (te_seen e) (te_seen_model e)).

Definition run_load (p : Props) (e : TieredEditor) : outcome TieredEditor :=
  if te_seen e === Some (pr_expr p, pr_rules p) then Ret e
  else
    let! e := if te_init e then Ret e else load p e in
    Ret (MkTiered (te_mode e) (te_config e) (te_raw e) (te_groups e) (te_init e) (Some (pr_expr p, pr_rules p)) (te_seen_model e)).

Definition run_model (p : Props) (e : TieredEditor) : TieredEditor :=
  if te_seen_model e === Some (pr_modelName p) then e
  else MkTiered (te_mode e) (te_config e) (te_raw e) (te_groups e) false (te_seen e) (Some (pr_modelName p)).

(** The last two effects hand the expressions to the panel. *)
Definition hand_over (e : TieredEditor) (p : Props) : outcome Props :=
  let! expr := effectiveExpr e in
  Ret (MkProps (pr_modelName p) expr (match te_mode e with visual => buildRequestRuleExpr (te_groups e) | raw => pr_rules p end)).

Definition pass (s : TieredEditor * Props) : outcome (TieredEditor * Props) :=
  let '(e, p) := s in
  let! loaded := run_load p e in
  let! p' := hand_over e p in
  Ret (run_model p loaded, p').

Fixpoint renderings (n : nat) (s : TieredEditor * Props) : outcome (TieredEditor * Props) :=
  match n with O => Ret s | S n' => let! s := pass s in renderings n' s end.

(** Enough renderings for the effects to come to rest. *)
Definition settle_effects (s : TieredEditor * Props) : outcome (TieredEditor * Props) := renderings 5 s.

(** *** Events *)

Definition set_config (c : option VisualConfig) (e : TieredEditor) : TieredEditor :=
  MkTiered (te_mode e) c (te_raw e) (te_groups e) (te_init e) (te_seen e) (te_seen_model e).
Definition set_raw (r : jstr) (e : TieredEditor) : TieredEditor :=
  MkTiered (te_mode e) (te_config e) r (te_groups e) (te_init e) (te_seen e) (te_seen_model e).
Definition set_groups (gs : list RequestRuleGroup) (e : TieredEditor) : TieredEditor :=
  MkTiered (te_mode e) (te_config e) (te_raw e) gs (te_init e) (te_seen e) (te_seen_model e).
Definition set_mode (m : EditorMode) (e : TieredEditor) : TieredEditor :=
  MkTiered m (te_config e) (te_raw e) (te_groups e) (te_init e) (te_seen e) (te_seen_model e).
Definition with_rules (r : jstr) (p : Props) : Props := MkProps (pr_modelName p) (pr_expr p) r.

Definition handleRawChange (value : jstr) (s : TieredEditor * Props) : outcome (TieredEditor * Props) :=
  let! split := splitBillingExprAndRequestRules value in
  Ret (set_raw value s.1, with_rules (requestRuleExpr split) s.2).

Definition handleEditorMode (next : EditorMode) (s : TieredEditor * Props) : outcome (TieredEditor * Props) :=
  let '(e, p) := s in
  match next with
  | visual =>
      let! split := splitBillingExprAndRequestRules (te_raw e) in
      let! gs := rule_groups (requestRuleExpr split) in
      let config := match tryParseVisualConfig (Some (billingExpr split)) with Some c => c | None => createDefaultVisualConfig end in
      Ret (set_mode visual (set_groups gs (set_config (Some config) e)), with_rules (requestRuleExpr split) p)
  | raw =>
      let expr := generateExprFromVisualConfig (te_config e) in
      Ret (set_mode raw (set_raw (str_or (combineBillingExpr expr (buildRequestRuleExpr (te_groups e))) expr) e), p)
  end.

Definition applyPreset (preset : Preset) (s : TieredEditor * Props) : TieredEditor * Props :=
  let '(e, p) := s in
  let ruleExpr := buildRequestRuleExpr (ps_rules preset) in
  let e := set_raw (str_or (combineBillingExpr (ps_expr preset) ruleExpr) (ps_expr preset)) e in
  let e := match tryParseVisualConfig (Some (ps_expr preset)) with
           | Some c => set_mode visual (set_config (Some c) e)
           | None => set_config None (set_mode raw e)
           end in
  (set_groups (ps_rules preset) e, with_rules ruleExpr p).

Inductive tiered_event : Type :=
| OnConfig (c : config_change)
| OnGroups (groups : list RequestRuleGroup)
| OnRaw (value : jstr)
| OnMode (next : EditorMode)
| OnPreset (preset : Preset)
| OnProps (p : Props).

Definition tiered_step (ev : tiered_event) (s : TieredEditor * Props) : outcome (TieredEditor * Props) :=
  match ev with
  | OnConfig c => Ret (set_config (Some (change_config c (normalizeVisualConfig (te_config s.1)))) s.1, s.2)
  | OnGroups gs => Ret (set_groups gs s.1, s.2)
  | OnRaw value => handleRawChange value s
  | OnMode next => handleEditorMode next s
  | OnPreset preset => Ret (applyPreset preset s)
  | OnProps p => Ret (s.1, p)
  end.

(** Opening the editor, and an event in it. *)
Definition open_editor (p : Props) : outcome (TieredEditor * Props) := let! e := mount_editor p in settle_effects (e, p).
Definition on_event (ev : tiered_event) (s : TieredEditor * Props) : outcome (TieredEditor * Props) :=
  let! s := tiered_step ev s in settle_effects s.

(** ** The effects come to rest *)

Definition resting (s : TieredEditor * Props) : Prop := pass s = Ret s.

Lemma rest_passes n s : resting s -> renderings n s = Ret s.
Proof. intros H. induction n as [|n IH]; cbn [renderings]; [done|]. by rewrite H. Qed.

Lemma passes_snoc n s : renderings (S n) s = obind (renderings n s) pass.
Proof.
  revert s. induction n as [|n IH]; intros s; [cbn; by destruct (pass s)|].
  cbn [renderings] in *. destruct (pass s) as [s1|]; [|done]. cbn [obind]. apply IH.
Qed.

Definition rests (n : nat) (s : TieredEditor * Props) : Prop := forall s', renderings n s = Ret s' -> resting s'.

Lemma rests_more n s : rests n s -> rests (S n) s.
Proof.
  intros H s'. rewrite passes_snoc. destruct (renderings n s) as [s1|] eqn:E; [|done]. cbn [obind].
  pose proof (H s1 E) as Hr. rewrite Hr. intros [= <-]. exact Hr.
Qed.

Lemma rests_next n s : (forall s1, pass s = Ret s1 -> rests n s1) -> rests (S n) s.
Proof. intros H s'. cbn [renderings]. destruct (pass s) as [s1|]; [|done]. cbn [obind]. by apply H. Qed.

(** What the panel gets depends on neither its expression nor on what the effects have seen. *)
Definition same_view (e e' : TieredEditor) : Prop :=
  te_mode e' = te_mode e /\ te_config e' = te_config e /\ te_raw e' = te_raw e /\ te_groups e' = te_groups e.

Lemma hand_over_again e e' p p' : same_view e e' -> hand_over e p = Ret p' -> hand_over e' p' = Ret p'.
Proof.
  intros (Hm & Hc & Hr & Hg) H. unfold hand_over, effectiveExpr in *. rewrite Hm, Hc, Hr, Hg.
  destruct (te_mode e); [injection H as <-; done|]. destruct (splitBillingExprAndRequestRules (te_raw e)); [|done].
  cbn [obind] in *. by injection H as <-.
Qed.

Lemma hand_over_model e p p' : hand_over e p = Ret p' -> pr_modelName p' = pr_modelName p.
Proof. unfold hand_over. destruct (effectiveExpr e); [|done]. by intros [= <-]. Qed.

Definition seen_at (p : Props) (e : TieredEditor) : TieredEditor :=
  MkTiered (te_mode e) (te_config e) (te_raw e) (te_groups e) (te_init e) (Some (pr_expr p, pr_rules p)) (te_seen_model e).

Lemma run_model_same p e : te_seen_model e = Some (pr_modelName p) -> run_model p e = e.
Proof. intros H. unfold run_model. by rewrite H, js_eqb_refl. Qed.

Lemma run_load_done p e : te_init e = true -> run_load p e = Ret (if te_seen e === Some (pr_expr p, pr_rules p) then e else seen_at p e).
Proof. intros H. unfold run_load. destruct (_ === _); [done|]. by rewrite H. Qed.

(** A state that has been loaded only hands its expressions over. *)
Lemma pass_loaded e p p1 : te_init e = true -> te_seen_model e = Some (pr_modelName p) -> hand_over e p = Ret p1 ->
  exists e1, pass (e, p) = Ret (e1, p1) /\ same_view e e1 /\ te_init e1 = true /\ te_seen_model e1 = Some (pr_modelName p1) /\
    te_seen e1 = Some (pr_expr p, pr_rules p).
Proof.
  intros Hi Hm E. exists (if te_seen e === Some (pr_expr p, pr_rules p) then e else seen_at p e). unfold pass. rewrite run_load_done, E by done. cbn [obind].
  rewrite (hand_over_model _ _ _ E). destruct (te_seen e === _) eqn:Es; (split_and!; [by rewrite run_model_same|done|done|done|]); [|done].
  by rewrite js_eqb_true in Es.
Qed.

Lemma loaded_passes n e p p1 : te_init e = true -> te_seen_model e = Some (pr_modelName p) -> hand_over e p = Ret p1 ->
  exists e1, renderings (S (S n)) (e, p) = Ret (e1, p1) /\ same_view e e1 /\ resting (e1, p1).
Proof.
  intros Hi Hm E. destruct (pass_loaded e p p1 Hi Hm E) as (e1 & H1 & Hv1 & Hi1 & Hm1 & _).
  destruct (pass_loaded e1 p1 p1 Hi1 Hm1 (hand_over_again _ _ _ _ Hv1 E)) as (e2 & H2 & Hv2 & Hi2 & Hm2 & Hs2).
  assert (same_view e e2) as Hv by (destruct Hv1 as (? & ? & ? & ?), Hv2 as (? & ? & ? & ?); repeat split; congruence).
  assert (resting (e2, p1)) as Hr.
  { unfold resting, pass, run_load. rewrite Hs2, js_eqb_refl. cbn [obind]. rewrite (hand_over_again _ _ _ _ Hv E). cbn [obind]. by rewrite run_model_same. }
  exists e2. split_and!; [|done|done]. cbn [renderings]. rewrite H1. cbn [obind]. rewrite H2. cbn [obind]. by apply rest_passes.
Qed.

Lemma rests_loaded e p : te_init e = true -> te_seen_model e = Some (pr_modelName p) -> rests 2 (e, p).
Proof.
  intros Hi Hm s'. destruct (hand_over e p) as [p1|] eqn:E.
  - destruct (loaded_passes 0 e p p1 Hi Hm E) as (e1 & -> & _ & Hr). by intros [= <-].
  - cbn [renderings]. unfold pass at 1. rewrite run_load_done, E by done. done.
Qed.

Lemma load_init p e e' : load p e = Ret e' -> te_init e' = true /\ te_seen_model e' = te_seen_model e.
Proof.
  unfold load. destruct (rule_groups (pr_rules p)); [|done]. cbn [obind]. destruct (tryParseVisualConfig _); [|destruct (truthy _)];
    by intros [= <-].
Qed.

Lemma run_load_fresh p e e' : te_init e = false -> te_seen e <> Some (pr_expr p, pr_rules p) -> run_load p e = Ret e' ->
  te_init e' = true /\ te_seen_model e' = te_seen_model e.
Proof.
  intros Hi Hs. unfold run_load. rewrite js_eqb_ne, Hi by done. destruct (load p e) as [e1|] eqn:E; [|done]. cbn [obind].
  intros [= <-]. by apply load_init in E.
Qed.

Lemma rests_known e p : te_seen_model e = Some (pr_modelName p) -> rests 4 (e, p).
Proof.
  intros Hm. destruct (te_init e) eqn:Hi; [by apply rests_more, rests_more, rests_loaded|].
  destruct (decide (te_seen e = Some (pr_expr p, pr_rules p))) as [Hs|Hs].
  - apply rests_next. intros s1. unfold pass. unfold run_load. rewrite Hs, js_eqb_refl. cbn [obind].
    destruct (hand_over e p) as [p1|] eqn:E; [|done]. cbn [obind]. pose proof (hand_over_model _ _ _ E) as En.
    rewrite run_model_same by done. intros [= <-]. apply rests_next. intros s2. unfold pass.
    destruct (run_load p1 e) as [e1|] eqn:El; [|done]. cbn [obind].
    rewrite (hand_over_again e e p p1); [|done|done]. cbn [obind].
    destruct (decide (te_seen e = Some (pr_expr p1, pr_rules p1))) as [Hs1|Hs1].
    + unfold run_load in El. rewrite Hs1, js_eqb_refl in El. injection El as <-. rewrite run_model_same by (by rewrite En).
      intros [= <-]. apply rests_more, rests_more. intros s' [= <-]. unfold resting, pass, run_load. rewrite Hs1, js_eqb_refl. cbn [obind].
      rewrite (hand_over_again e e p p1) by done. cbn [obind]. by rewrite run_model_same by (by rewrite En).
    + destruct (run_load_fresh _ _ _ Hi Hs1 El) as [Hi1 Hm1]. rewrite run_model_same by (by rewrite Hm1, En). intros [= <-].
      apply rests_loaded; [done|]. by rewrite Hm1, En.
  - apply rests_next. intros s1. unfold pass. destruct (run_load p e) as [e1|] eqn:El; [|done]. cbn [obind].
    destruct (hand_over e p) as [p1|] eqn:E; [|done]. cbn [obind]. pose proof (hand_over_model _ _ _ E) as En.
    destruct (run_load_fresh _ _ _ Hi Hs El) as [Hi1 Hm1]. rewrite run_model_same by (by rewrite Hm1). intros [= <-].
    apply rests_more, rests_loaded; [done|]. by rewrite Hm1, En.
Qed.

Lemma run_model_seen p e : te_seen_model (run_model p e) = Some (pr_modelName p).
Proof. unfold run_model. destruct (_ === _) eqn:E; [by rewrite js_eqb_true in E|done]. Qed.

Lemma settle_rests s s' : settle_effects s = Ret s' -> resting s'.
Proof.
  assert (rests 5 s) as H; [|apply H]. destruct s as [e p]. apply rests_next. intros s1. unfold pass.
  destruct (run_load p e) as [e1|]; [|done]. cbn [obind]. destruct (hand_over e p) as [p1|] eqn:E; [|done]. cbn [obind].
  intros [= <-]. apply rests_known. by rewrite run_model_seen, (hand_over_model _ _ _ E).
Qed.

(** ** Opening *)

Lemma zero_unreadable : tryParseVisualConfig (Some zero_expr) = None.
Proof. vm_compute. reflexivity. Qed.

Lemma zero_split : splitBillingExprAndRequestRules zero_expr = Ret (MkSplit zero_expr []).
Proof. vm_compute. reflexivity. Qed.

Lemma no_groups : rule_groups [] = Ret [].
Proof. reflexivity. Qed.

Lemma split_trim e : splitBillingExprAndRequestRules (trim e) = splitBillingExprAndRequestRules e.
Proof. unfold splitBillingExprAndRequestRules. by rewrite trim_idem. Qed.

Lemma combine_no_rules e : combineBillingExpr e [] = trim e.
Proof. unfold combineBillingExpr. by destruct (trim e). Qed.

(** A readable expression that the editor would write itself. *)
Section Readable.
Context (name e r : jstr) (cfg : VisualConfig).
Hypothesis (Hparse : tryParseVisualConfig (Some e) = Some cfg) (Hgen : generateExprFromVisualConfig (Some cfg) = e).

Lemma load_readable p ed gs : pr_expr p = e -> rule_groups (pr_rules p) = Ret gs ->
  load p ed = Ret (MkTiered visual (Some cfg) (combineBillingExpr e (pr_rules p)) gs true (te_seen ed) (te_seen_model ed)).
Proof. intros He Hg. unfold load. by rewrite Hg, He, Hparse. Qed.

Definition opened_state (p : Props) (gs : list RequestRuleGroup) (init : bool) : TieredEditor :=
  MkTiered visual (Some cfg) (combineBillingExpr e (pr_rules p)) gs init (Some (e, pr_rules p)) (Some name).

Lemma readable_rests gs init rr : buildRequestRuleExpr gs = rr ->
  resting (opened_state (MkProps name e rr) gs init, MkProps name e rr).
Proof.
  intros Hb. unfold resting, pass, run_load, opened_state. cbn [te_seen pr_expr pr_rules]. rewrite js_eqb_refl. cbn [obind].
  unfold hand_over, effectiveExpr. cbn [te_mode te_config te_groups obind pr_modelName]. rewrite Hgen, Hb.
  unfold run_model. cbn [te_seen_model pr_modelName]. by rewrite js_eqb_refl.
Qed.

(** Mounting and the first rendering. *)
Lemma first_pass gs : rule_groups r = Ret gs ->
  open_editor (MkProps name e r) =
  renderings 4 (opened_state (MkProps name e r) gs false, MkProps name e (buildRequestRuleExpr gs)).
Proof.
  intros Hg. unfold open_editor, mount_editor. cbn [pr_rules pr_expr]. rewrite Hg. cbn [obind]. unfold settle_effects. cbn [renderings].
  unfold pass at 1. unfold run_load. cbn [te_seen te_init pr_expr pr_rules].
  change (@None (jstr * jstr) === Some (e, r)) with false. cbn [obind]. rewrite (load_readable _ _ gs) by done. cbn [obind].
  unfold hand_over, effectiveExpr. cbn [te_mode te_config te_groups obind pr_modelName]. rewrite Hparse, Hgen. cbn [obind].
  unfold run_model. cbn [te_seen_model pr_modelName te_mode te_config te_raw te_groups te_seen].
  change (@None jstr === Some name) with false. done.
Qed.

Lemma opened_readable gs : tryParseRequestRuleExpr r = Ret (Some gs) -> buildRequestRuleExpr gs = r ->
  open_editor (MkProps name e r) = Ret (opened_state (MkProps name e r) gs false, MkProps name e r).
Proof.
  intros Hp Hb. rewrite (first_pass gs) by (unfold rule_groups; by rewrite Hp). rewrite Hb. by apply rest_passes, readable_rests.
Qed.

Lemma opened_unreadable_rules : tryParseRequestRuleExpr r = Ret None ->
  open_editor (MkProps name e r) = Ret (opened_state (MkProps name e []) [] true, MkProps name e []).
Proof.
  intros Hp. assert (r <> []) as Hr by (intros ->; discriminate Hp).
  rewrite (first_pass []) by (unfold rule_groups; by rewrite Hp). change (buildRequestRuleExpr []) with (@nil N).
  change 4 with (S 3). cbn [renderings]. unfold pass at 1. unfold run_load. cbn [opened_state te_seen te_init pr_expr pr_rules].
  rewrite js_eqb_ne by (intros [= H]; by apply Hr). rewrite (load_readable _ _ []) by done. cbn [obind pr_rules].
  unfold hand_over, effectiveExpr. cbn [opened_state te_mode te_config te_groups obind pr_modelName pr_rules]. rewrite Hgen. cbn [obind].
  rewrite run_model_same by done. change (buildRequestRuleExpr []) with (@nil N). cbn [te_mode te_config te_raw te_groups te_init te_seen_model].
  apply (rest_passes 3 (opened_state (MkProps name e []) [] true, MkProps name e [])). by apply readable_rests.
Qed.
End Readable.

(** ** Theorems *)

(** States that a user can reach. *)
Inductive editing : TieredEditor * Props -> Prop :=
| editing_open p s : open_editor p = Ret s -> editing s
| editing_event ev s s' : editing s -> on_event ev s = Ret s' -> editing s'.

Lemma editing_rests s : editing s -> resting s.
Proof.
  intros [p s' H|ev s0 s' _ H].
  - unfold open_editor in H. destruct (mount_editor p); [|done]. by apply settle_rests in H.
  - unfold on_event in H. destruct (tiered_step ev s0); [|done]. by apply settle_rests in H.
Qed.

(** C7: the effects of the editor come to rest after at most five renderings, whatever was typed, chosen or opened,
    and then the panel has exactly the expression that the editor shows, and in the visual mode the rules of its
    groups. *)
Theorem shown_is_handed_over s : editing s ->
  pass s = Ret s /\
  effectiveExpr s.1 = Ret (pr_expr s.2) /\
  (te_mode s.1 = visual -> pr_rules s.2 = buildRequestRuleExpr (te_groups s.1)).
Proof.
  intros Hs%editing_rests. split; [exact Hs|]. destruct s as [e p]. cbn [fst snd]. unfold resting, pass in Hs.
  destruct (run_load p e); [|done]. cbn [obind] in Hs. unfold hand_over in Hs. destruct (effectiveExpr e) as [x|]; [|done]. cbn [obind] in Hs.
  injection Hs as _ <-. split; [done|]. cbn [pr_rules]. by intros ->.
Qed.

(** C8: opening a model whose expression and rules the editor can read and would write the same changes neither of
    them, and shows the tiers and groups that were read. *)
Theorem opening_keeps name e r cfg gs :
  tryParseVisualConfig (Some e) = Some cfg -> generateExprFromVisualConfig (Some cfg) = e ->
  tryParseRequestRuleExpr r = Ret (Some gs) -> buildRequestRuleExpr gs = r ->
  exists ed, open_editor (MkProps name e r) = Ret (ed, MkProps name e r) /\
    te_mode ed = visual /\ te_config ed = Some cfg /\ te_groups ed = gs.
Proof. intros Hp Hg Hr Hb. eexists. split; [by apply (opened_readable name e r cfg Hp Hg gs)|done]. Qed.

(** The first rendering of an expression that cannot be read hands over the expression of no tiers. *)
Lemma first_pass_unreadable name e : e <> [] -> tryParseVisualConfig (Some e) = None ->
  open_editor (MkProps name e []) =
  renderings 4 (MkTiered raw None (trim e) [] false (Some (e, [])) (Some name), MkProps name zero_expr []).
Proof.
  intros Hne Hp. assert (truthy e = true) as Ht by (by destruct e). unfold open_editor, mount_editor. cbn [pr_rules pr_expr].
  rewrite no_groups, Hp, combine_no_rules. cbn [obind]. unfold settle_effects. change 5 with (S 4). cbn [renderings]. unfold pass at 1. unfold run_load.
  cbn [te_seen te_init pr_expr pr_rules]. change (@None (jstr * jstr) === Some (e, [])) with false. cbn [obind].
  unfold load. cbn [pr_rules pr_expr]. rewrite no_groups, Hp, Ht, combine_no_rules. done.
Qed.

Lemma load_zero name m c w g sn sm : load (MkProps name zero_expr []) (MkTiered m c w g false sn sm) = Ret (MkTiered raw None zero_expr [] true sn sm).
Proof. unfold load. cbn [pr_rules pr_expr]. rewrite no_groups, zero_unreadable. reflexivity. Qed.

(** C10: opening a model without rules whose expression the visual editor cannot read replaces the expression by one
    that charges nothing, in the panel and in the editor. *)
Theorem unreadable_expr_zeroed name e sp :
  e <> [] -> tryParseVisualConfig (Some e) = None -> splitBillingExprAndRequestRules e = Ret sp ->
  exists ed, open_editor (MkProps name e []) = Ret (ed, MkProps name zero_expr []) /\ te_mode ed = raw /\ te_raw ed = zero_expr.
Proof.
  intros Hne Hp Hs. rewrite first_pass_unreadable by done.
  assert (forall w, splitBillingExprAndRequestRules w = Ret (MkSplit zero_expr []) -> forall i sn sm,
    hand_over (MkTiered raw None w [] i sn sm) (MkProps name zero_expr []) = Ret (MkProps name zero_expr [])) as Hz.
  { intros w Hw i sn sm. unfold hand_over, effectiveExpr. cbn [te_mode te_raw]. by rewrite Hw. }
  destruct (decide (e = zero_expr)) as [->|Hez].
  - exists (MkTiered raw None (trim zero_expr) [] false (Some (zero_expr, [])) (Some name)). split; [|split; reflexivity]. apply rest_passes. unfold resting, pass, run_load. cbn [te_seen pr_expr pr_rules].
    rewrite js_eqb_refl. cbn [obind]. change (trim zero_expr) with zero_expr. rewrite Hz by apply zero_split. cbn [obind]. by rewrite run_model_same.
  - change 4 with (S (S (S 1))). cbn [renderings]. unfold pass at 1. unfold run_load. cbn [te_seen te_init pr_expr pr_rules].
    rewrite js_eqb_ne by congruence. rewrite load_zero. cbn [obind te_mode te_config te_raw te_groups te_init te_seen_model].
    unfold hand_over, effectiveExpr. cbn [te_mode te_raw pr_modelName pr_rules]. rewrite split_trim, Hs. cbn [obind]. rewrite run_model_same by done.
    destruct (loaded_passes 1 (MkTiered raw None zero_expr [] true (Some (zero_expr, [])) (Some name)) (MkProps name (billingExpr sp) [])
      (MkProps name zero_expr [])) as (ed & H & (Hm & _ & Hw & _) & _); [done|done| |].
    + unfold hand_over, effectiveExpr. cbn [te_mode te_raw]. by rewrite zero_split.
    + exists ed. split; [exact H|]. by rewrite Hm, Hw.
Qed.

(** Opening a model with a readable expression whose rules do not parse back, which are all rules with a comparison or
    a search in a request parameter that the editor itself writes, removes every rule of the model. *)
Lemma guarded_rules_wiped name e cfg gs1 c m gs2 :
  tryParseVisualConfig (Some e) = Some cfg -> generateExprFromVisualConfig (Some cfg) = e ->
  forallb ok_group gs1 = true -> forallb ok_group gs2 = true -> guarded_ph c = true -> is_numeric m = true ->
  exists ed, open_editor (MkProps name e (buildRequestRuleExpr (gs1 ++ guarded_factor c m :: gs2))) = Ret (ed, MkProps name e []) /\
    te_groups ed = [].
Proof.
  intros Hp Hg H1 H2 Hc Hm. eexists. split; [apply (opened_unreadable_rules name e _ cfg Hp Hg); by apply guarded_rules_lost|done].
Qed.

(** The list of tiers never becomes empty, and a condition is added to a tier with at most one. *)
Lemma tiers_stay c config : config <> [] -> change_config c config <> [].
Proof.
  intros Hne. destruct c as [i c| |i|i]; cbn [change_config].
  - destruct (config !! i); [|done]. unfold handleTierChange, set_at. by destruct (take i config).
  - unfold handleAddTier. intros [_ H]%app_eq_nil. discriminate H.
  - unfold handleRemoveTier. by destruct (remove_at i config).
  - unfold handleAddCondition. destruct (config !! i); [|done]. destruct (2 <=? _); [done|]. unfold set_at. by destruct (take i config).
Qed.

(** Every preset is read by the visual editor, and its rules parse back. *)
Lemma presets_open :
  forallb (fun g => forallb (fun p =>
    match tryParseVisualConfig (Some (ps_expr p)), tryParseRequestRuleExpr (buildRequestRuleExpr (ps_rules p)) with
    | Some cfg, Ret (Some gs) =>
        match tryParseVisualConfig (Some (generateExprFromVisualConfig (Some cfg))) with Some _ => length gs =? length (ps_rules p) | None => false end
    | _, _ => false
    end) g.2) PRESET_GROUPS = true.
Proof. vm_compute. reflexivity. Qed.

(** ** Examples *)

Definition priority_rules : list RequestRuleGroup := [service_tier (js "priority") (js "2"); service_tier (js "flex") (js "0.5")].
Definition flat_model : Props := MkProps (js "gpt") base_3_15 (buildRequestRuleExpr priority_rules).

Lemma opening_keeps_witness :
  exists cfg ed, tryParseVisualConfig (Some base_3_15) = Some cfg /\ open_editor flat_model = Ret (ed, flat_model) /\ te_groups ed = priority_rules.
Proof.
  destruct (tryParseVisualConfig (Some base_3_15)) as [cfg|] eqn:E; [|vm_compute in E; discriminate E].
  destruct (opening_keeps (js "gpt") base_3_15 (buildRequestRuleExpr priority_rules) cfg priority_rules E) as (ed & H & _ & _ & Hg).
  - vm_compute in E. injection E as <-. vm_compute. reflexivity.
  - vm_compute. reflexivity.
  - reflexivity.
  - exists cfg, ed. split; [reflexivity|]. split; [exact H|exact Hg].
Defined.

Lemma opened_flat : exists s, editing s /\ pr_expr s.2 = base_3_15.
Proof.
  destruct (open_editor flat_model) as [s|] eqn:E; [|vm_compute in E; discriminate E]. exists s. split; [by eapply editing_open|].
  vm_compute in E. injection E as <-. reflexivity.
Qed.

Lemma shown_is_handed_over_witness : exists s, editing s /\ pass s = Ret s /\ effectiveExpr s.1 = Ret base_3_15.
Proof.
  destruct opened_flat as (s & Hs & He). exists s. split; [exact Hs|]. rewrite <- He.
  destruct (shown_is_handed_over s Hs) as (H1 & H2 & _). split; [exact H1|exact H2].
Defined.

Lemma unreadable_expr_zeroed_witness :
  exists ed, open_editor (MkProps (js "gpt") (js "max(p * 3, c * 15)") []) = Ret (ed, MkProps (js "gpt") zero_expr []) /\
    te_mode ed = raw /\ te_raw ed = zero_expr.
Proof.
  apply (unreadable_expr_zeroed (js "gpt") (js "max(p * 3, c * 15)") (MkSplit (js "max(p * 3, c * 15)") []));
    [discriminate|vm_compute; reflexivity|vm_compute; reflexivity].
Defined.

Lemma guarded_rules_wiped_witness :
  exists ed, open_editor (MkProps (js "gpt") base_3_15 (buildRequestRuleExpr ([] ++ guarded_factor sample_guarded (js "2") :: priority_rules)))
      = Ret (ed, MkProps (js "gpt") base_3_15 []) /\ te_groups ed = [].
Proof.
  destruct (tryParseVisualConfig (Some base_3_15)) as [cfg|] eqn:E; [|vm_compute in E; discriminate E].
  apply (guarded_rules_wiped (js "gpt") base_3_15 cfg [] sample_guarded (js "2") priority_rules E);
    [vm_compute in E; injection E as <-; vm_compute; reflexivity|vm_compute; reflexivity ..].
Defined.

(** ** Departures *)

Definition after (evs : list tiered_event) (p : Props) : option (TieredEditor * Props) :=
  match foldl (fun s ev => obind s (on_event ev)) (open_editor p) evs with Ret s => Some s | Throw => None end.

Definition to_price (x : Z) : tiered_event := OnConfig (ChangeTier 0 (TierPrice InputCost (num_of_Z x))).

(** A model that is opened after another one was edited gets the expression of that one. *)
Lemma next_model_overwritten :
  let a := MkProps (js "a") (tier_text (js "base") (js "p * 1 + c * 2")) [] in
  let b := MkProps (js "b") (tier_text (js "base") (js "p * 8 + c * 9")) [] in
  option_map (fun s => pr_expr s.2) (after [to_price 5; OnProps b] a) = Some (tier_text (js "base") (js "p * 5 + c * 2")).
Proof. vm_compute. reflexivity. Qed.

(** The first change after opening loads the state again, so a rule group that is being filled in disappears when a
    price is changed. *)
Lemma first_change_drops_groups :
  option_map (fun s => te_groups s.1) (after [OnGroups [createEmptyRuleGroup]; to_price 5] (MkProps (js "a") base_3_15 [])) = Some [].
Proof. vm_compute. reflexivity. Qed.

(** Typing an expression that can be read leaves the text mode. *)
Lemma typing_leaves_raw_mode :
  option_map (fun s => te_mode s.1) (after [OnMode raw; OnRaw (tier_text (js "base") (js "p * 3 + c * 1"))] (MkProps (js "a") base_3_15 []))
  = Some visual.
Proof. vm_compute. reflexivity. Qed.

(** Going to the visual mode with a text it cannot read replaces the expression by the default one. *)
Lemma visual_mode_resets :
  option_map (fun s => pr_expr s.2) (after [to_price 5; OnMode raw; OnRaw (js "max(p * 3, c * 15)"); OnMode visual] (MkProps (js "a") base_3_15 []))
  = Some (generateExprFromVisualConfig (Some createDefaultVisualConfig)).
Proof. vm_compute. reflexivity. Qed.

(** A rule that compares a request parameter is removed as soon as it is complete, when it is the first change. *)
Lemma guarded_rule_removed :
  option_map (fun s => (te_groups s.1, pr_rules s.2))
    (after [OnGroups [guarded_factor sample_guarded (js "2")]] (MkProps (js "a") base_3_15 [])) = Some ([], []).
Proof. vm_compute. reflexivity. Qed.
