(* ===== verification/Dashboard.v ===== *)
(** * The usage charts of the dashboard

    [features/dashboard/lib/charts.ts], [stats.ts], [api-info.ts] and [text.ts], with [formatChartTime] of
    [lib/time.ts]: usage records are added up per time and model, and per time and user, and become
    the values of the charts.

    The date library (dayjs, in the local time zone), [Intl.NumberFormat], [localeCompare], the colours of
    the page and those of the chart library are arguments.  Of the specifications of the charts their
    values, colours and texts are modelled, not the layout constants. *)
From S2P Require Import Prelude Regex Numbers Exact Json Currency Pricing.
Local Open Scope js_scope.

(** ** Maps in the order of insertion *)

Fixpoint map_get {V} (k : jstr) (m : list (jstr * V)) : option V :=
  match m with [] => None | (j, v) :: m' => if k === j then Some v else map_get k m' end.

Fixpoint map_set {V} (k : jstr) (v : V) (m : list (jstr * V)) : list (jstr * V) :=
  match m with [] => [(k, v)] | (j, w) :: m' => if k === j then (j, v) :: m' else (j, w) :: map_set k v m' end.

(** ** Data *)

Record QuotaDataItem : Type := MkItem {
  q_username : option jstr; q_model_name : option jstr; q_created_at : number;
  q_token_used : option number; q_count : option number; q_quota : option number
}.

(** [Number(x) || 0] for a number that may be undefined. *)
Definition number_or_0 (x : option number) : number := match x with Some v => num_or v zero | None => zero end.

Inductive TimeGranularity : Type := hour | day | week.
#[export] Instance granularity_eq_dec : EqDecision TimeGranularity.
Proof. solve_decision. Defined.

(** What is used of a date, made of milliseconds: its month and day, its hour, and the date some days later. *)
Record Dayjs : Type := MkDayjs { month_day : number -> jstr; hour_text : number -> jstr; add_days : Z -> number -> number }.

Record Metrics : Type := MkMetrics { quota : number; count : number; tokens : number }.
Definition no_metrics : Metrics := MkMetrics zero zero zero.
Definition add_metrics (a b : Metrics) : Metrics :=
  MkMetrics (nadd (quota a) (quota b)) (nadd (count a) (count b)) (nadd (tokens a) (tokens b)).

Definition item_model (item : QuotaDataItem) : jstr := opt_str_or (q_model_name item) (js "Unknown").
Definition item_metrics (item : QuotaDataItem) : Metrics :=
  MkMetrics (number_or_0 (q_quota item)) (number_or_0 (q_count item)) (number_or_0 (q_token_used item)).

Abbreviation metrics_map := (list (jstr * Metrics)).

(** [map.set(k, add(map.get(k) || none, x))] *)
Definition bump (k : jstr) (x : Metrics) (m : metrics_map) : metrics_map :=
  map_set k (add_metrics (default no_metrics (map_get k m)) x) m.

(** ** Statistics *)

Definition safeDivide (value divisor : number) (precision : nat) : number :=
  let result := ndiv value divisor in
  if is_nan result || negb (is_finite result) then zero
  else let factor := num_of_Z (10 ^ Z.of_nat precision) in ndiv (math_round (nmul result factor)) factor.

Definition calculateDashboardStats (data : list QuotaDataItem) : Metrics :=
  foldl (fun acc item => add_metrics acc (item_metrics item)) no_metrics data.

Definition getLatencyColorClass (latency : number) : jstr :=
  if nltb latency (num_of_Z 200) then js "text-success"
  else if nltb latency (num_of_Z 500) then js "text-warning" else js "text-destructive".

Record PingStatus : Type := MkPing { pg_latency : option number; pg_testing : bool; pg_error : bool }.
Definition getDefaultPingStatus : PingStatus := MkPing None false false.

(** The answer to the request, with the times before and after it; [None] when it fails. *)
Definition testUrlLatency (answer : option (number * number)) : PingStatus :=
  match answer with
  | Some (startTime, endTime) => MkPing (Some (math_round (nsub endTime startTime))) false false
  | None => MkPing None false true
  end.

(** [/<[^>]*>/g] and [/[#*_]/g] *)
Definition re_tag : re := RSeqs [RLit (js "<"); RStar (RSet (not_unit 62)); RLit (js ">")].
Definition re_markdown : re := RSet (fun c => (c =? 35)%N || (c =? 42)%N || (c =? 95)%N).

Definition getPreviewText (content : jstr) (maxLength : nat) : jstr :=
  if negb (truthy content) then []
  else
    let plainText := trim (re_replace_all re_markdown [] (re_replace_all re_tag [] content)) in
    if maxLength <? length plainText then substring plainText 0 maxLength ++ js "..." else plainText.

(** ** Colours *)

Definition cycle (colors : list jstr) (n : nat) : list jstr :=
  List.map (fun i => nth (Nat.modulo i (length colors)) colors []) (seq 0 n).

(** The colour schemes of the chart library, each with the number of values it is made for. *)
Definition getVChartDefaultColors (themeColors : list jstr) (schemes : list (option nat * list jstr)) (domainLength : nat) : list jstr :=
  match themeColors with
  | [] =>
      match List.find (fun s => match s.1 with Some m => (m =? 0) || (domainLength <=? m) | None => true end) schemes with
      | Some s => s.2
      | None => match last schemes with Some s => s.2 | None => [] end
      end
  | _ => cycle themeColors (Nat.max domainLength (length themeColors))
  end.

Definition USER_COLOR_FALLBACKS : list jstr :=
  [js "#5B8FF9"; js "#5AD8A6"; js "#F6BD16"; js "#E8684A"; js "#6DC8EC"; js "#9270CA"; js "#FF9D4D"; js "#269A99"; js "#FF99C3"; js "#5D7092"].

Definition userColorRange (themeColors : list jstr) (limit : nat) : list jstr :=
  match themeColors with [] => USER_COLOR_FALLBACKS | _ => cycle themeColors (Nat.max limit (length themeColors)) end.

(** ** Charts of models *)

Record PieValue : Type := MkPie { pv_type : jstr; pv_value : number }.
Record UsageValue : Type := MkUsage { uv_Time : jstr; uv_Model : jstr; uv_rawQuota : number; uv_Usage : number; uv_TimeSum : number }.
Record CountValue : Type := MkCount { cv_Time : jstr; cv_Model : jstr; cv_Count : number }.
Record RankValue : Type := MkRank { rv_Model : jstr; rv_Count : number }.

Definition MAX_CHART_TREND_POINTS : nat := 7.
Definition MAX_AREA_MODELS : nat := 15.
Definition MAX_TREND_MODELS : nat := 20.
Definition MAX_RANK_MODELS : nat := 20.
Definition MAX_TOOLTIP_MODELS : nat := 15.

(** [cmp(a, b) = key(b) - key(a)] *)
Definition by_desc {A} (key : A -> number) (a b : A) : bool := diff_le (key b) (key a).

(** Sums of numbers, in the order of the list. *)
Definition total_of {A} (f : A -> number) (l : list A) : number := foldl (fun sum x => nadd sum (f x)) zero l.

(** [Math.max(...l)] of numbers that are no NaN. *)
Definition math_max (l : list number) : number := foldl (fun a b => if nltb a b then b else a) (nopp infinity) l.

Section Charts.
Context (dayjs : Dayjs) (locale_le : jstr -> jstr -> bool) (locale_number : number -> jstr) (intl_int : number -> jstr).
Context (store : option StoredCurrency) (themeColors : list jstr) (schemes : list (option nat * list jstr)) (tt : jstr -> jstr).

Definition formatChartTime (timestamp : number) (granularity : TimeGranularity) : jstr :=
  let d := nmul timestamp (num_of_Z 1000) in
  month_day dayjs d ++
  match granularity with
  | hour => js " " ++ hour_text dayjs d ++ js ":00"
  | week => js " - " ++ month_day dayjs (add_days dayjs 6 d)
  | day => []
  end.

Definition renderQuotaCompat (rawQuota : number) (digits : nat) : jstr :=
  let '(config, meta) := getCurrencyDisplay store in
  let amount symbol rate :=
    let value := nmul (ndiv rawQuota (quotaPerUnit config)) rate in
    let fixed := toFixed value digits in
    if neqb (parseFloat fixed) zero && nltb zero rawQuota && nltb zero value
    then symbol ++ toFixed (pow10_neg digits) digits else symbol ++ fixed in
  match meta with
  | MTokens _ => locale_number rawQuota
  | MCurrency symbol _ rate => amount symbol rate
  | MCustom symbol rate => amount symbol rate
  end.

Definition quotaPerUnit_ : number := quotaPerUnit (getCurrencyDisplay store).1.
Definition otherLabel : jstr := tt (js "Other").

Section Models.
Context (data : list QuotaDataItem) (timeGranularity : TimeGranularity).

Definition item_time (item : QuotaDataItem) : jstr := formatChartTime (q_created_at item) timeGranularity.

(** The two maps, filled record by record. *)
Definition add_time (m : list (jstr * metrics_map)) (item : QuotaDataItem) : list (jstr * metrics_map) :=
  let timeKey := item_time item in
  map_set timeKey (bump (item_model item) (item_metrics item) (default [] (map_get timeKey m))) m.
Definition timeModelMap : list (jstr * metrics_map) := foldl add_time [] data.
Definition modelTotalsMap : metrics_map := foldl (fun m item => bump (item_model item) (item_metrics item) m) [] data.

Definition stats (time model : jstr) : Metrics :=
  default no_metrics (map_get time timeModelMap ≫= map_get model).

Definition sortedTimes : list jstr := sort_by str_leb timeModelMap.*1.
Definition sortedModels : list jstr := sort_by str_leb modelTotalsMap.*1.
Definition modelColorDomain : list jstr := dedup (sortedModels ++ [otherLabel]).
Definition modelColorRange : list jstr := getVChartDefaultColors themeColors schemes (length modelColorDomain).

Definition intervalSec : Z := match timeGranularity with week => 604800 | day => 86400 | hour => 3600 end.

Definition fillTimePoints (times : list jstr) : list jstr :=
  if MAX_CHART_TREND_POINTS <=? length times then times
  else
    let lastTime := math_max (List.map (fun item => num_or (q_created_at item) zero) data) in
    List.map (fun i => formatChartTime
      (nsub lastTime (num_of_Z ((Z.of_nat MAX_CHART_TREND_POINTS - 1 - Z.of_nat i) * intervalSec))) timeGranularity)
      (seq 0 MAX_CHART_TREND_POINTS).
Definition chartTimes : list jstr := fillTimePoints sortedTimes.

Definition totalTimes : number := total_of (fun p => num_or (count p.2) zero) modelTotalsMap.
Definition totalQuotaRaw : number := total_of (fun p => num_or (quota p.2) zero) modelTotalsMap.

Definition pieValues : list PieValue :=
  sort_by (by_desc pv_value) (List.map (fun p => MkPie p.1 (num_or (count p.2) zero)) modelTotalsMap).

(** [usd ? Number(usd.toFixed(4)) : 0] of [rawQuota ? rawQuota / quotaPerUnit : 0] *)
Definition usage_of (rawQuota : number) : number :=
  let usd := if num_truthy rawQuota then ndiv rawQuota quotaPerUnit_ else zero in
  if num_truthy usd then Number (toFixed usd 4) else zero.

Definition line_at (time : jstr) : list UsageValue :=
  let timeData := List.map (fun model =>
    let rawQuota := num_or (quota (stats time model)) zero in MkUsage time model rawQuota (usage_of rawQuota) zero) sortedModels in
  let timeSum := total_of uv_rawQuota timeData in
  List.map (fun v => MkUsage (uv_Time v) (uv_Model v) (uv_rawQuota v) (uv_Usage v) timeSum)
    (sort_by (by_desc uv_rawQuota) timeData).
Definition lineValues : list UsageValue :=
  sort_by (fun a b => locale_le (uv_Time a) (uv_Time b)) (concat (List.map line_at chartTimes)).

Definition rankedQuotaModels : metrics_map := sort_by (by_desc (fun p => num_or (quota p.2) zero)) modelTotalsMap.
Definition topAreaModels : list jstr := (take MAX_AREA_MODELS rankedQuotaModels).*1.

(** The quota and the usage of the models that share a series. *)
Definition add_bucket (time : jstr) (buckets : list (jstr * (number * number))) (model : jstr) : list (jstr * (number * number)) :=
  let rawQuota := num_or (quota (stats time model)) zero in
  let key := if mem model topAreaModels then model else otherLabel in
  let prev := default (zero, zero) (map_get key buckets) in
  map_set key (nadd prev.1 rawQuota, Number (toFixed (nadd prev.2 (usage_of rawQuota)) 4)) buckets.

Definition area_at (time : jstr) : list UsageValue :=
  let timeSum := total_of (fun model => num_or (quota (stats time model)) zero) sortedModels in
  List.map (fun p => MkUsage time p.1 p.2.1 p.2.2 timeSum) (foldl (add_bucket time) [] sortedModels).
Definition areaValues : list UsageValue :=
  sort_by (fun a b => locale_le (uv_Time a) (uv_Time b)) (concat (List.map area_at chartTimes)).

Definition rankedTrendModels : list RankValue :=
  sort_by (by_desc rv_Count) (List.map (fun p => MkRank p.1 (num_or (count p.2) zero)) modelTotalsMap).
Definition topTrendModels : list jstr := List.map rv_Model (take MAX_TREND_MODELS rankedTrendModels).
Definition otherTrendModels : list jstr := List.map rv_Model (drop MAX_TREND_MODELS rankedTrendModels).

Definition calls (time model : jstr) : number := num_or (count (stats time model)) zero.
Definition trend_at (time : jstr) : list CountValue :=
  List.map (fun model => MkCount time model (calls time model)) topTrendModels ++
  match otherTrendModels with
  | [] => []
  | _ => [MkCount time otherLabel (total_of (calls time) otherTrendModels)]
  end.
Definition modelLineValues : list CountValue :=
  sort_by (fun a b => locale_le (cv_Time a) (cv_Time b)) (concat (List.map trend_at chartTimes)).

Definition rankValues : list RankValue :=
  let allRankValues := rankedTrendModels in
  if MAX_RANK_MODELS <? length allRankValues
  then take MAX_RANK_MODELS allRankValues ++ [MkRank otherLabel (total_of rv_Count (drop MAX_RANK_MODELS allRankValues))]
  else allRankValues.
End Models.

Record ProcessedChartData : Type := MkProcessed {
  spec_pie : list PieValue; spec_line : list UsageValue; spec_area : list UsageValue; spec_model_line : list CountValue;
  spec_rank_bar : list RankValue; model_color : option (list jstr * list jstr); pie_subtext : option jstr;
  totalQuotaDisplay : jstr; totalCountDisplay : jstr
}.

Definition processChartData (data : list QuotaDataItem) (g : TimeGranularity) : ProcessedChartData :=
  match data with
  | [] => MkProcessed [] [] [] [] [] None (Some (tt (js "No data available"))) (renderQuotaCompat zero 2) (intl_int zero)
  | _ => MkProcessed (pieValues data) (lineValues data g) (areaValues data g) (modelLineValues data g) (rankValues data)
           (Some (modelColorDomain data, modelColorRange data)) None
           (renderQuotaCompat (totalQuotaRaw data) 2) (intl_int (totalTimes data))
  end.

(** *** Tooltips *)

Inductive tooltip_value : Type := VNumber (x : number) | VText (s : jstr).
Definition value_number (v : tooltip_value) : number := num_or (match v with VNumber x => x | VText s => Number s end) zero.

Record TooltipLineItem : Type := MkLine { tl_key : jstr; tl_value : tooltip_value; tl_datum : option UsageValue }.

Definition isOtherTooltipKey (key : jstr) : bool := (key === js "Other") || (key === otherLabel).
Definition line_number (item : TooltipLineItem) : number := value_number (tl_value item).
Definition show_line (shown : number -> jstr) (item : TooltipLineItem) : TooltipLineItem :=
  MkLine (tl_key item) (VText (shown (line_number item))) (tl_datum item).

(** Models by falling value, then the others. *)
Definition tooltip_order (array : list TooltipLineItem) : list TooltipLineItem * list TooltipLineItem :=
  (sort_by (by_desc line_number) (List.filter (fun i => negb (isOtherTooltipKey (tl_key i))) array),
   List.filter (fun i => isOtherTooltipKey (tl_key i)) array).

Definition quota_text (x : number) : jstr := renderQuotaCompat x 4.

(** The total of the time that the values carry: the last one that is not zero. *)
Definition time_sum (array : list TooltipLineItem) : number :=
  foldl (fun sum i => match tl_datum i with
                      | Some d => if num_truthy (uv_TimeSum d) then uv_TimeSum d else sum
                      | None => sum
                      end) zero array.

Definition makeTooltipDimensionUpdateContent (collapseOverflow : bool) (array : list TooltipLineItem) : list TooltipLineItem :=
  let '(modelItems, otherItems) := tooltip_order array in
  let lines := modelItems ++ otherItems in
  let shown := List.map (show_line quota_text) lines in
  let collapsed :=
    if collapseOverflow && (MAX_TOOLTIP_MODELS <? length lines)
    then List.map (show_line quota_text) (take MAX_TOOLTIP_MODELS modelItems) ++
         [MkLine otherLabel
            (VText (quota_text (total_of (fun i => match tl_datum i with Some d => num_or (uv_rawQuota d) zero | None => zero end)
                                      (drop MAX_TOOLTIP_MODELS modelItems ++ otherItems)))) None]
    else shown in
  MkLine (tt (js "Total:")) (VText (quota_text (time_sum lines))) None :: collapsed.

(** The tooltip of the trend of calls. *)
Definition trend_tooltip (array : list TooltipLineItem) : list TooltipLineItem :=
  let '(modelItems, otherItems) := tooltip_order array in
  let lines := modelItems ++ otherItems in
  MkLine (tt (js "Total:")) (VText (intl_int (total_of line_number lines))) None :: List.map (show_line intl_int) lines.

(** ** Charts of users *)

Record UserRank : Type := MkUserRank { ur_User : jstr; ur_rawQuota : number; ur_Usage : number }.
Record UserTrend : Type := MkUserTrend { ut_Time : jstr; ut_User : jstr; ut_rawQuota : number; ut_Usage : number }.

Definition item_user (item : QuotaDataItem) : jstr := opt_str_or (q_username item) (js "unknown").

(** [m.set(k, (m.get(k) || 0) + x)] *)
Definition bump_number (k : jstr) (x : number) (m : list (jstr * number)) : list (jstr * number) :=
  map_set k (nadd (number_or_0 (map_get k m)) x) m.

Definition user_usage (rawQuota : number) : number := Number (toFixed (ndiv rawQuota quotaPerUnit_) 4).

Section Users.
Context (data : list QuotaDataItem) (timeGranularity : TimeGranularity) (limit : nat).

Definition userQuotaTotal : list (jstr * number) :=
  foldl (fun m item => bump_number (item_user item) (number_or_0 (q_quota item)) m) [] data.
Definition sorted_users : list (jstr * number) := sort_by (by_desc snd) userQuotaTotal.
Definition topUsers : list jstr := (take limit sorted_users).*1.
Definition top_quota : number := total_of snd (take limit sorted_users).

Definition user_rank : list UserRank := List.map (fun p => MkUserRank p.1 p.2 (user_usage p.2)) (take limit sorted_users).

Definition userColorMap : list (jstr * jstr) :=
  let range := userColorRange themeColors limit in
  foldl (fun acc p => obj_set p.2 (nth (Nat.modulo p.1 (length range)) range []) acc) []
    (zip (seq 0 (length topUsers)) topUsers).

Definition add_user (m : list (jstr * list (jstr * number))) (item : QuotaDataItem) : list (jstr * list (jstr * number)) :=
  let timeKey := formatChartTime (q_created_at item) timeGranularity in
  if negb (mem (item_user item) topUsers) then m
  else map_set timeKey (bump_number (item_user item) (number_or_0 (q_quota item)) (default [] (map_get timeKey m))) m.
Definition timeUserMap : list (jstr * list (jstr * number)) := foldl add_user [] data.

Definition sortedTimePoints : list jstr :=
  sort_by str_leb (dedup (List.map (fun item => formatChartTime (q_created_at item) timeGranularity) data)).

Definition user_trend : list UserTrend :=
  concat (List.map (fun time => List.map (fun user =>
    let q := number_or_0 (map_get time timeUserMap ≫= map_get user) in MkUserTrend time user q (user_usage q)) topUsers) sortedTimePoints).
End Users.

Record ProcessedUserChartData : Type := MkUserCharts {
  spec_user_rank : list UserRank; spec_user_trend : list UserTrend; user_subtext : jstr; user_color : list (jstr * jstr)
}.

Definition processUserChartData (data : list QuotaDataItem) (g : TimeGranularity) (limit : nat) : ProcessedUserChartData :=
  match data with
  | [] => MkUserCharts [] [] (tt (js "No data available")) []
  | _ => MkUserCharts (user_rank data limit) (user_trend data g limit)
           (tt (js "Total:") ++ js " " ++ renderQuotaCompat (top_quota data limit) 2) (userColorMap data limit)
  end.

Definition user_mark_tooltip (array : list TooltipLineItem) : list TooltipLineItem :=
  List.map (fun i => MkLine (tl_key i)
    (VText (renderQuotaCompat (match tl_datum i with Some d => num_or (uv_rawQuota d) zero | None => line_number i end) 2)) (tl_datum i)) array.

Definition user_tooltip (array : list TooltipLineItem) : list TooltipLineItem :=
  let lines := sort_by (by_desc line_number) array in
  MkLine (tt (js "Total:")) (VText (renderQuotaCompat (total_of line_number lines) 2)) None ::
  List.map (show_line (fun x => renderQuotaCompat x 2)) lines.
End Charts.

(** ** Maps *)

Lemma map_get_set {V} j k (v : V) m : map_get j (map_set k v m) = if j === k then Some v else map_get j m.
Proof.
  induction m as [|[i w] m IH]; cbn [map_set map_get]; [done|]. destruct (k === i) eqn:Eki; cbn [map_get].
  - rewrite js_eqb_true in Eki. subst i. by destruct (j === k).
  - destruct (j === i) eqn:Eji; [|done]. rewrite js_eqb_true in Eji. subst i. by rewrite js_eqb_ne by (intros ->; by rewrite js_eqb_refl in Eki).
Qed.

(** The map with the keys [ks] and a value for each. *)
Definition tabulate {V} (f : jstr -> V) (ks : list jstr) : list (jstr * V) := List.map (fun k => (k, f k)) ks.

Lemma tabulate_keys {V} (f : jstr -> V) ks : (tabulate f ks).*1 = ks.
Proof. induction ks as [|k ks IH]; cbn; [done|]. by f_equal. Qed.

Lemma tabulate_get {V} (f : jstr -> V) ks k : map_get k (tabulate f ks) = if mem k ks then Some (f k) else None.
Proof.
  induction ks as [|j ks IH]; cbn [tabulate List.map map_get]; [done|]. cbn [mem existsb]. destruct (k === j) eqn:E; [|exact IH].
  rewrite js_eqb_true in E. by subst j.
Qed.

Lemma tabulate_ext {V} (f g : jstr -> V) ks : (forall k, k ∈ ks -> f k = g k) -> tabulate f ks = tabulate g ks.
Proof. intros H. apply map_ext_in. intros k Hk%list_elem_of_In. by rewrite H. Qed.

Lemma tabulate_set {V} (f : jstr -> V) ks k v : NoDup ks ->
  map_set k v (tabulate f ks) = tabulate (fun j => if j === k then v else f j) (if mem k ks then ks else ks ++ [k]).
Proof.
  induction 1 as [|j ks Hj Hn IH]; cbn [tabulate List.map map_set mem existsb app]; [by rewrite js_eqb_refl|].
  destruct (k === j) eqn:E; cbn [orb].
  - rewrite js_eqb_true in E. subst j. cbn [List.map]. rewrite js_eqb_refl. f_equal. apply tabulate_ext. intros i Hi.
    rewrite js_eqb_ne; [done|]. by intros ->.
  - fold (tabulate f ks). rewrite IH. fold (mem k ks). assert (j === k = false) as Ej.
    { apply js_eqb_ne. intros ->. by rewrite js_eqb_refl in E. }
    by destruct (mem k ks); cbn [tabulate List.map app]; rewrite Ej.
Qed.

(** Filling a map record by record groups the records by their keys. *)
Section GroupBy.
Context {A V : Type} (key : A -> jstr) (op : V -> A -> V) (init : V).

Definition fill (m : list (jstr * V)) (x : A) : list (jstr * V) := map_set (key x) (op (default init (map_get (key x) m)) x) m.
Definition having (k : jstr) (l : list A) : list A := List.filter (fun x => key x === k) l.

Lemma having_snoc k l x : having k (l ++ [x]) = having k l ++ if key x === k then [x] else [].
Proof. unfold having. rewrite List.filter_app. cbn. by destruct (key x === k). Qed.

Lemma having_none k l : k ∉ List.map key l -> having k l = [].
Proof.
  intros H. apply elem_of_nil_inv. intros x [Hx Hk]%elem_of_lfilter. rewrite js_eqb_true in Hk. apply H.
  apply list_elem_of_In, in_map_iff. exists x. split; [done|by apply list_elem_of_In].
Qed.

Lemma group_by l : foldl fill [] l = tabulate (fun k => foldl op init (having k l)) (dedup (List.map key l)).
Proof.
  induction l as [|x l IH] using rev_ind; [done|]. rewrite foldl_app. cbn [foldl]. rewrite IH. unfold fill.
  rewrite tabulate_get, tabulate_set by apply NoDup_dedup. rewrite map_app. cbn [List.map]. rewrite dedup_snoc.
  assert (mem (key x) (dedup (List.map key l)) = mem (key x) (List.map key l)) as ->.
  { destruct (mem (key x) (List.map key l)) eqn:E; [apply mem_true, elem_of_dedup; by apply mem_true|].
    apply mem_false. rewrite elem_of_dedup. by apply mem_false. }
  replace (if mem (key x) (List.map key l) then dedup (List.map key l) else dedup (List.map key l) ++ [key x])
    with (dedup (List.map key l) ++ (if mem (key x) (List.map key l) then [] else [key x]))
    by (destruct (mem _ _); [apply app_nil_r|done]).
  apply tabulate_ext. intros k _. rewrite having_snoc, foldl_app. destruct (k === key x) eqn:E.
  - rewrite js_eqb_true in E. subst k. rewrite js_eqb_refl. cbn [foldl]. destruct (mem (key x) (List.map key l)) eqn:Em; [done|].
    apply mem_false in Em. by rewrite having_none.
  - rewrite (js_eqb_ne (key x) k); [done|]. intros H. by rewrite H, js_eqb_refl in E.
Qed.

Lemma group_get l k : default init (map_get k (foldl fill [] l)) = foldl op init (having k l).
Proof.
  rewrite group_by, tabulate_get. destruct (mem k _) eqn:E; [done|]. apply mem_false in E. rewrite elem_of_dedup in E.
  by rewrite having_none.
Qed.
End GroupBy.

(** ** Aggregation *)

Definition with_model (m : jstr) : list QuotaDataItem -> list QuotaDataItem := having item_model m.
Definition sum_metrics (l : list QuotaDataItem) : Metrics := foldl (fun acc item => add_metrics acc (item_metrics item)) no_metrics l.

Lemma totals_grouped data : modelTotalsMap data = tabulate (fun m => sum_metrics (with_model m data)) (dedup (List.map item_model data)).
Proof. apply (group_by item_model (fun acc item => add_metrics acc (item_metrics item)) no_metrics data). Qed.

Section Times.
Context (dayjs : Dayjs) (g : TimeGranularity).
Local Notation time_of := (item_time dayjs g).

Definition with_time (t : jstr) : list QuotaDataItem -> list QuotaDataItem := having time_of t.

Lemma times_grouped data :
  timeModelMap dayjs data g = tabulate (fun t => modelTotalsMap (with_time t data)) (dedup (List.map time_of data)).
Proof. apply (group_by time_of (fun acc item => bump (item_model item) (item_metrics item) acc) [] data). Qed.

Lemma stats_exact data time model :
  stats dayjs data g time model = sum_metrics (with_model model (with_time time data)).
Proof.
  unfold stats. transitivity (default no_metrics (map_get model (default [] (map_get time (timeModelMap dayjs data g))))).
  { by destruct (map_get time _). }
  etransitivity; [apply f_equal, f_equal, (group_get time_of (fun acc item => bump (item_model item) (item_metrics item) acc) [] data)|].
  apply (group_get item_model (fun acc item => add_metrics acc (item_metrics item)) no_metrics).
Qed.
End Times.

(** ** Sums of whole numbers *)

Definition zsum {A} (f : A -> Z) (l : list A) : Z := foldr (fun x acc => (f x + acc)%Z) 0%Z l.

Section Zsum.
Context {A : Type}.
Implicit Types (f : A -> Z) (l : list A).
Local Open Scope Z_scope.

Lemma zsum_app f l l' : zsum f (l ++ l') = zsum f l + zsum f l'.
Proof. unfold zsum. induction l as [|x l IH]; cbn; [done|]. rewrite IH. lia. Qed.

Lemma zsum_ext f f' l : (forall x, x ∈ l -> f x = f' x) -> zsum f l = zsum f' l.
Proof.
  intros H. induction l as [|x l IH]; cbn; [done|]. rewrite H by left. f_equal. apply IH. intros y Hy. apply H. by right.
Qed.

Lemma zsum_perm f l l' : l ≡ₚ l' -> zsum f l = zsum f l'.
Proof. unfold zsum. induction 1; cbn; lia. Qed.

Lemma zsum_nonneg f l : (forall x, x ∈ l -> 0 <= f x) -> 0 <= zsum f l.
Proof.
  intros H. induction l as [|x l IH]; cbn; [done|]. assert (0 <= f x) by (apply H; left). assert (0 <= zsum f l) by (apply IH; intros y Hy; apply H; by right).
  unfold zsum in *. lia.
Qed.

Lemma zsum_filter_le f (p : A -> bool) l : (forall x, x ∈ l -> 0 <= f x) -> zsum f (List.filter p l) <= zsum f l.
Proof.
  intros H. induction l as [|x l IH]; cbn; [done|]. assert (0 <= f x) by (apply H; left).
  assert (zsum f (List.filter p l) <= zsum f l) by (apply IH; intros y Hy; apply H; by right).
  unfold zsum in *. destruct (p x); cbn; lia.
Qed.

Lemma zsum_zero f l : (forall x, x ∈ l -> f x = 0) -> zsum f l = 0.
Proof. intros H. rewrite (zsum_ext f (fun _ => 0)) by done. induction l as [|x l IH]; cbn; [done|]. apply IH. intros y Hy. apply H. by right. Qed.

Lemma zsum_add f f' l : zsum (fun x => f x + f' x) l = zsum f l + zsum f' l.
Proof. induction l as [|x l IH]; cbn; [done|]. unfold zsum in *. lia. Qed.
End Zsum.

Lemma zsum_map {A B} (g : A -> B) f l : zsum f (List.map g l) = zsum (fun x => f (g x)) l.
Proof. induction l as [|x l IH]; cbn; [done|]. unfold zsum in *. lia. Qed.

Lemma zsum_concat {A} (f : A -> Z) ls : zsum f (concat ls) = zsum (zsum f) ls.
Proof. induction ls as [|l ls IH]; [done|]. cbn [concat]. by rewrite zsum_app, IH. Qed.

(** Adding up group by group adds up all. *)
Lemma zsum_indicator (c : Z) k ks : NoDup ks -> k ∈ ks -> zsum (fun j : jstr => if k === j then c else 0%Z) ks = c.
Proof.
  induction 1 as [|j ks Hj Hn IH]; [by intros ?%elem_of_nil|]. intros [->|Hk]%elem_of_cons; cbn [zsum foldr].
  - rewrite js_eqb_refl. fold (zsum (fun i => if j === i then c else 0%Z) ks). rewrite zsum_zero; [lia|].
    intros i Hi. rewrite js_eqb_ne; [done|]. by intros ->.
  - rewrite js_eqb_ne by (by intros ->). by apply IH.
Qed.

Lemma zsum_group {A} (key : A -> jstr) (f : A -> Z) ks l : NoDup ks -> (forall x, x ∈ l -> key x ∈ ks) ->
  zsum (fun k => zsum f (having key k l)) ks = zsum f l.
Proof.
  intros Hn. induction l as [|x l IH]; intros H.
  - apply zsum_zero. done.
  - rewrite (zsum_ext _ (fun k => (if key x === k then f x else 0) + zsum f (having key k l))%Z).
    + rewrite zsum_add, zsum_indicator, IH; [done| |done|apply H; left]. intros y Hy. apply H. by right.
    + intros k _. unfold having. cbn [List.filter]. by destruct (key x === k).
Qed.

(** Numbers that hold whole amounts, with a sum below 2 to the 53. *)
Definition whole {A} (f : A -> number) (z : A -> Z) (l : list A) : Prop :=
  (forall x, x ∈ l -> 0 <= z x /\ f x = num_of_Z (z x))%Z /\ (zsum z l < 2 ^ 53)%Z.

Section Whole.
Context {A : Type} (f : A -> number) (z : A -> Z).
Local Open Scope Z_scope.

Lemma total_from a l : 0 <= a -> (forall x, x ∈ l -> 0 <= z x /\ f x = num_of_Z (z x)) -> a + zsum z l < 2 ^ 53 ->
  foldl (fun sum x => nadd sum (f x)) (num_of_Z a) l = num_of_Z (a + zsum z l).
Proof.
  revert a. induction l as [|x l IH]; intros a Ha Hl Hs; [by rewrite Z.add_0_r|]. cbn [foldl zsum foldr] in *. fold (zsum z l) in *.
  destruct (Hl x) as [Hx ->]; [left|]. assert (forall y, y ∈ l -> 0 <= z y /\ f y = num_of_Z (z y)) as Hl' by (intros y Hy; apply Hl; by right).
  assert (0 <= zsum z l) by (apply zsum_nonneg; intros y Hy; by apply Hl'). unfold small_abs in *.
  rewrite nadd_exact by (unfold small_abs; lia). rewrite IH by (done || lia). f_equal. lia.
Qed.

Lemma total_whole l : whole f z l -> total_of f l = num_of_Z (zsum z l).
Proof. intros [Hl Hs]. apply (total_from 0); [done|done|lia]. Qed.

Lemma whole_sub (p : A -> bool) l : whole f z l -> whole f z (List.filter p l).
Proof.
  intros [Hl Hs]. split; [intros x [Hx _]%elem_of_lfilter; by apply Hl|].
  pose proof (zsum_filter_le z p l (fun x Hx => proj1 (Hl x Hx))). lia.
Qed.

Lemma whole_nonneg l : whole f z l -> 0 <= zsum z l.
Proof. intros [Hl _]. apply zsum_nonneg. intros x Hx. by apply Hl. Qed.
End Whole.

Lemma whole_or z : (0 <= z < 2 ^ 53)%Z -> num_or (num_of_Z z) zero = num_of_Z z.
Proof.
  intros Hz. unfold num_or. rewrite num_truthy_exact by (unfold small_abs; lia). destruct (Z.eqb_spec z 0) as [->|]; [done|done].
Qed.

Lemma whole_perm {A} (f : A -> number) z l l' : l ≡ₚ l' -> whole f z l -> whole f z l'.
Proof. intros Hp [Hl Hs]. split; [intros x Hx; apply Hl; by rewrite Hp|]. by rewrite <- (zsum_perm z l l'). Qed.

(** A field of the sums of records is the sum of the field. *)
Lemma quota_sum l : quota (sum_metrics l) = total_of (fun i => number_or_0 (q_quota i)) l.
Proof.
  unfold sum_metrics, total_of. change zero with (quota no_metrics). generalize no_metrics.
  induction l as [|x l IH]; intros a; cbn [foldl]; [done|]. by rewrite IH.
Qed.

Lemma count_sum l : count (sum_metrics l) = total_of (fun i => number_or_0 (q_count i)) l.
Proof.
  unfold sum_metrics, total_of. change zero with (count no_metrics). generalize no_metrics.
  induction l as [|x l IH]; intros a; cbn [foldl]; [done|]. by rewrite IH.
Qed.

(** The values of a chart that are the sums of groups of records add up to the sum of the records. *)
Lemma whole_groups {A} (key : A -> jstr) (amount : A -> number) z l (f : jstr -> number) ks :
  whole amount z l -> NoDup ks -> (forall x, x ∈ l -> key x ∈ ks) ->
  (forall k, f k = num_or (total_of amount (having key k l)) zero) ->
  whole f (fun k => zsum z (having key k l)) ks /\ zsum (fun k => zsum z (having key k l)) ks = zsum z l.
Proof.
  intros Hl Hn Hk Hf. pose proof (zsum_group key z ks l Hn Hk) as E. split; [|done]. split; [|rewrite E; apply Hl].
  intros k _. pose proof (whole_sub _ _ (fun x => key x === k) l Hl) as Hw. pose proof (whole_nonneg _ _ _ Hw). split; [done|].
  rewrite Hf. unfold having. rewrite (total_whole _ _ _ Hw), whole_or; [done|]. split; [done|apply Hw].
Qed.

(** Numbers that add up to a whole number, in whatever order. *)
Definition add_all (l : list number) : number := foldl nadd zero l.

Lemma total_all {A} (f : A -> number) l : total_of f l = add_all (List.map f l).
Proof. unfold total_of, add_all. generalize zero. induction l as [|x l IH]; intros a; cbn; [done|]. apply IH. Qed.

Definition adds_up (ns : list number) (z : Z) : Prop :=
  exists zs, ns = List.map num_of_Z zs /\ Forall (fun x => 0 <= x)%Z zs /\ zsum id zs = z /\ (z < 2 ^ 53)%Z.

Lemma adds_up_all ns z : adds_up ns z -> add_all ns = num_of_Z z.
Proof.
  intros (zs & -> & Hf & <- & Hs). rewrite <- total_all. apply (total_whole num_of_Z id). split; [|done].
  intros x Hx. rewrite Forall_forall in Hf. split; [by apply Hf|done].
Qed.

Lemma adds_up_perm ns ns' z : ns ≡ₚ ns' -> adds_up ns z -> adds_up ns' z.
Proof.
  intros Hp (zs & -> & Hf & Hz & Hs). symmetry in Hp. apply Permutation_map_inv in Hp as (zs' & -> & Hp).
  exists zs'. split_and!; [done|by rewrite <- Hp|by rewrite <- (zsum_perm id _ _ Hp)|done].
Qed.

Lemma whole_adds_up {A} (f : A -> number) z l : whole f z l -> adds_up (List.map f l) (zsum z l).
Proof.
  intros [Hl Hs]. exists (List.map z l). split_and!; [|apply Forall_map, Forall_forall; intros x Hx; by apply Hl|by rewrite zsum_map|done].
  rewrite map_map. apply map_ext_in. intros x Hx%list_elem_of_In. by apply Hl.
Qed.

Lemma adds_up_app a b x y : adds_up a x -> adds_up b y -> (x + y < 2 ^ 53)%Z -> adds_up (a ++ b) (x + y).
Proof.
  intros (zs & -> & Hf & Hz & _) (zs' & -> & Hf' & Hz' & _) Hs. exists (zs ++ zs').
  split_and!; [by rewrite map_app|by apply Forall_app|rewrite zsum_app; lia|done].
Qed.

Lemma adds_up_concat {A} (h : A -> list number) (z : A -> Z) l :
  (forall x, x ∈ l -> adds_up (h x) (z x)) -> (forall x, x ∈ l -> 0 <= z x)%Z -> (zsum z l < 2 ^ 53)%Z ->
  adds_up (concat (List.map h l)) (zsum z l).
Proof.
  induction l as [|x l IH]; intros Hh Hz Hs; [by exists []|]. cbn [List.map concat zsum foldr] in *. fold (zsum z l) in *.
  assert (0 <= z x)%Z by (apply Hz; left). apply adds_up_app; [apply Hh; left| |done].
  apply IH; [intros y Hy; apply Hh; by right|intros y Hy; apply Hz; by right|lia].
Qed.

(** The last numbers may be replaced by their sum. *)
Lemma adds_up_collapse a b z : adds_up (a ++ b) z -> adds_up (a ++ [add_all b]) z.
Proof.
  intros (zs & E & Hf & Hz & Hs). symmetry in E. apply map_eq_app in E as (za & zb & -> & <- & <-).
  apply Forall_app in Hf as [Ha Hb]. rewrite zsum_app in Hz.
  assert (forall l, Forall (fun x => 0 <= x)%Z l -> 0 <= zsum id l)%Z as Hpos.
  { intros l Hl. apply zsum_nonneg. by rewrite Forall_forall in Hl. }
  pose proof (Hpos _ Ha). pose proof (Hpos _ Hb).
  assert (adds_up (List.map num_of_Z zb) (zsum id zb)) as Hb' by (exists zb; split_and!; try done; lia).
  exists (za ++ [zsum id zb]). split_and!; [|apply Forall_app; split; [done|apply Forall_singleton; exact H0]|rewrite zsum_app; change (zsum id [zsum id zb]) with (zsum id zb + 0)%Z; lia|done].
  rewrite map_app. cbn. by rewrite (adds_up_all _ _ Hb').
Qed.

Lemma map_sorted {A B} (f : A -> B) le l : List.map f (sort_by le l) ≡ₚ List.map f l.
Proof. apply Permutation_map, sort_by_perm. Qed.

(** ** The charts of models *)

Abbreviation quota_of := (fun i => number_or_0 (q_quota i)).
Abbreviation calls_of := (fun i => number_or_0 (q_count i)).

Lemma models_keys data : modelTotalsMap data = tabulate (fun m => sum_metrics (with_model m data)) (modelTotalsMap data).*1.
Proof. rewrite totals_grouped at 1. by rewrite totals_grouped, tabulate_keys. Qed.

Lemma models_nodup data : NoDup (modelTotalsMap data).*1.
Proof. rewrite totals_grouped, tabulate_keys. apply NoDup_dedup. Qed.

Lemma models_cover data x : x ∈ data -> item_model x ∈ (modelTotalsMap data).*1.
Proof.
  intros Hx. rewrite totals_grouped, tabulate_keys. apply elem_of_dedup, list_elem_of_In, in_map. by apply list_elem_of_In.
Qed.

Lemma map_tabulate {V B} (h : jstr * V -> B) f ks : List.map h (tabulate f ks) = List.map (fun k => h (k, f k)) ks.
Proof. apply map_map. Qed.

(** A number per model that is the sum of its records. *)
Lemma totals_add_up data (amount : QuotaDataItem -> number) z (h : jstr * Metrics -> number) :
  whole amount z data -> (forall k l, h (k, sum_metrics l) = num_or (total_of amount l) zero) ->
  adds_up (List.map h (modelTotalsMap data)) (zsum z data).
Proof.
  intros Hw Hh. rewrite models_keys, map_tabulate. destruct (whole_groups item_model amount z data
    (fun m => h (m, sum_metrics (with_model m data))) (modelTotalsMap data).*1 Hw (models_nodup data) (models_cover data)) as [H1 H2].
  { intros m. apply Hh. } rewrite <- H2. by apply whole_adds_up.
Qed.

Lemma quota_total (k : jstr) l : num_or (quota (k, sum_metrics l).2) zero = num_or (total_of quota_of l) zero.
Proof. cbn [snd]. by rewrite quota_sum. Qed.
Lemma calls_total (k : jstr) l : num_or (count (k, sum_metrics l).2) zero = num_or (total_of calls_of l) zero.
Proof. cbn [snd]. by rewrite count_sum. Qed.

Section Conserved.
Context (dayjs : Dayjs) (g : TimeGranularity) (data : list QuotaDataItem).
Local Notation models := (sortedModels data).
Local Notation at_time t := (with_time dayjs g t data).

Lemma sorted_models_perm : models ≡ₚ (modelTotalsMap data).*1.
Proof. apply sort_by_perm. Qed.

(** The numbers of the models at a time are the sums of their records of that time. *)
Lemma cells_whole amount z (f : jstr -> jstr -> number) t ks : whole amount z data ->
  ks ≡ₚ models -> (forall m, f t m = num_or (total_of amount (with_model m (at_time t))) zero) ->
  whole (f t) (fun m => zsum z (with_model m (at_time t))) ks /\
  zsum (fun m => zsum z (with_model m (at_time t))) ks = zsum z (at_time t).
Proof.
  intros Hw Hks Hf. apply (whole_groups item_model amount z (at_time t)); [by apply whole_sub| | |done].
  - rewrite Hks, sorted_models_perm. apply models_nodup.
  - intros x [Hx _]%elem_of_lfilter. rewrite Hks, sorted_models_perm. by apply models_cover.
Qed.

Lemma quota_cell t m : num_or (quota (stats dayjs data g t m)) zero = num_or (total_of quota_of (with_model m (at_time t))) zero.
Proof. by rewrite stats_exact, quota_sum. Qed.
Lemma calls_cell t m : calls dayjs data g t m = num_or (total_of calls_of (with_model m (at_time t))) zero.
Proof. unfold calls. by rewrite stats_exact, count_sum. Qed.

Lemma line_adds_up store z t : whole quota_of z data ->
  adds_up (List.map uv_rawQuota (line_at dayjs store data g t)) (zsum z (at_time t)).
Proof.
  intros Hw. unfold line_at. rewrite map_map. cbn [uv_rawQuota].
  eapply adds_up_perm; [symmetry; apply map_sorted|]. rewrite map_map. cbn [uv_rawQuota].
  destruct (cells_whole quota_of z (fun t m => num_or (quota (stats dayjs data g t m)) zero) t models Hw) as [H1 H2];
    [done|apply quota_cell|]. rewrite <- H2. by apply whole_adds_up.
Qed.

Lemma bucket_quota store t l a : (foldl (fun (prev : number * number) m =>
    (nadd prev.1 (num_or (quota (stats dayjs data g t m)) zero),
     Number (toFixed (nadd prev.2 (usage_of store (num_or (quota (stats dayjs data g t m)) zero))) 4))) a l).1 =
  foldl (fun sum m => nadd sum (num_or (quota (stats dayjs data g t m)) zero)) a.1 l.
Proof. revert a. induction l as [|m l IH]; intros a; cbn [foldl]; [done|]. by rewrite IH. Qed.

Lemma area_adds_up store tt z t : whole quota_of z data ->
  adds_up (List.map uv_rawQuota (area_at dayjs store tt data g t)) (zsum z (at_time t)).
Proof.
  intros Hw. unfold area_at. rewrite map_map. cbn [uv_rawQuota].
  set (Q := fun m => num_or (quota (stats dayjs data g t m)) zero).
  destruct (cells_whole quota_of z (fun _ => Q) t models Hw) as [H1 H2]; [done|intros m; apply quota_cell|].
  change (whole Q (fun m => zsum z (with_model m (at_time t))) models) in H1.
  set (key := fun m => if mem m (topAreaModels data) then m else otherLabel tt).
  set (op := fun (prev : number * number) m => (nadd prev.1 (Q m), Number (toFixed (nadd prev.2 (usage_of store (Q m))) 4))).
  change (foldl (add_bucket dayjs store tt data g t) [] models) with (foldl (fill key op (zero, zero)) [] models).
  rewrite group_by, map_tabulate. cbn [fst snd].
  destruct (whole_groups key Q _ models (fun k => total_of Q (having key k models)) (dedup (List.map key models)) H1) as [H3 H4].
  - apply NoDup_dedup.
  - intros m Hm. apply elem_of_dedup, list_elem_of_In, in_map. by apply list_elem_of_In.
  - intros k. pose proof (whole_sub _ _ (fun x => key x === k) models H1) as H5. unfold having.
    rewrite (total_whole _ _ _ H5), whole_or; [done|]. split; [by eapply whole_nonneg|apply H5].
  - rewrite <- H2, <- H4. erewrite map_ext; [by apply whole_adds_up|]. intros k. cbn [snd]. apply bucket_quota.
Qed.

Lemma ranked_models : List.map rv_Model (rankedTrendModels data) ≡ₚ models.
Proof.
  unfold rankedTrendModels. rewrite map_sorted, map_map. cbn [rv_Model]. symmetry. apply sorted_models_perm.
Qed.

Lemma trend_adds_up tt z t : whole calls_of z data ->
  adds_up (List.map cv_Count (trend_at dayjs tt data g t)) (zsum z (at_time t)).
Proof.
  intros Hw. destruct (cells_whole calls_of z (calls dayjs data g) t (topTrendModels data ++ otherTrendModels data) Hw) as [H1 H2].
  { unfold topTrendModels, otherTrendModels. rewrite <- map_app, take_drop. apply ranked_models. }
  { apply calls_cell. }
  apply whole_adds_up in H1. rewrite H2, map_app in H1. unfold trend_at. rewrite map_app, map_map. cbn [cv_Count].
  destruct (otherTrendModels data) as [|m l]; [done|]. cbn [List.map cv_Count]. rewrite total_all. by apply adds_up_collapse.
Qed.
End Conserved.

(** Charts over the times of the records. *)
Section AllTimes.
Context (dayjs : Dayjs) (g : TimeGranularity) (data : list QuotaDataItem).
Local Notation at_time t := (with_time dayjs g t data).

Lemma all_times_sum (z : QuotaDataItem -> Z) : zsum (fun t => zsum z (at_time t)) (sortedTimes dayjs data g) = zsum z data.
Proof.
  assert (sortedTimes dayjs data g ≡ₚ dedup (List.map (item_time dayjs g) data)) as Hp.
  { unfold sortedTimes. rewrite times_grouped, tabulate_keys. apply sort_by_perm. }
  apply (zsum_group (item_time dayjs g)); [rewrite Hp; apply NoDup_dedup|].
  intros x Hx. rewrite Hp. apply elem_of_dedup, list_elem_of_In, in_map. by apply list_elem_of_In.
Qed.

Lemma times_add_up {V} (f : V -> number) (h : jstr -> list V) le amount z :
  MAX_CHART_TREND_POINTS <= length (sortedTimes dayjs data g) -> whole amount z data ->
  (forall t, adds_up (List.map f (h t)) (zsum z (at_time t))) ->
  adds_up (List.map f (sort_by le (concat (List.map h (chartTimes dayjs data g))))) (zsum z data).
Proof.
  intros Hlen Hw Hh. eapply adds_up_perm; [symmetry; apply map_sorted|]. rewrite concat_map, map_map.
  unfold chartTimes, fillTimePoints. rewrite (proj2 (Nat.leb_le _ _) Hlen), <- all_times_sum.
  apply adds_up_concat; [intros t _; apply Hh| |rewrite all_times_sum; apply Hw].
  intros t _. eapply whole_nonneg. by apply whole_sub.
Qed.
End AllTimes.

(** ** The charts of users *)

Definition add_quota (acc : number) (item : QuotaDataItem) : number := nadd (num_or acc zero) (quota_of item).

Lemma number_or_default x : number_or_0 x = num_or (default zero x) zero.
Proof. by destruct x. Qed.

Lemma foldl_same {A B} (f h : A -> B -> A) a l : (forall a b, f a b = h a b) -> foldl f a l = foldl h a l.
Proof. intros H. revert a. induction l as [|b l IH]; intros a; cbn; [done|]. by rewrite H, IH. Qed.

Lemma foldl_skip {A B} (f : A -> B -> A) (p : B -> bool) a l : foldl (fun a b => if negb (p b) then a else f a b) a l = foldl f a (List.filter p l).
Proof. revert a. induction l as [|b l IH]; intros a; cbn; [done|]. rewrite IH. by destruct (p b). Qed.

Lemma quotas_from a z l : (0 <= a)%Z -> (forall x, x ∈ l -> 0 <= z x /\ quota_of x = num_of_Z (z x))%Z -> (a + zsum z l < 2 ^ 53)%Z ->
  foldl add_quota (num_of_Z a) l = num_of_Z (a + zsum z l).
Proof.
  revert a. induction l as [|x l IH]; intros a Ha Hl Hs; [by rewrite Z.add_0_r|]. cbn [foldl zsum foldr] in *. fold (zsum z l) in *.
  destruct (Hl x) as [Hx Ex]; [left|]. assert (forall y, y ∈ l -> 0 <= z y /\ quota_of y = num_of_Z (z y))%Z as Hl' by (intros y Hy; apply Hl; by right).
  assert (0 <= zsum z l)%Z by (apply zsum_nonneg; intros y Hy; by apply Hl').
  unfold add_quota at 2. rewrite whole_or, Ex, nadd_exact by (unfold small_abs; lia). rewrite IH by (done || lia). f_equal. lia.
Qed.

Lemma quotas_whole z l : whole quota_of z l -> foldl add_quota zero l = num_of_Z (zsum z l).
Proof. intros [Hl Hs]. apply (quotas_from 0); [done|done|lia]. Qed.

Lemma users_grouped data :
  userQuotaTotal data = tabulate (fun u => foldl add_quota zero (having item_user u data)) (dedup (List.map item_user data)).
Proof.
  rewrite <- (group_by item_user add_quota zero). apply foldl_same. intros m x. unfold bump_number, fill, add_quota. by rewrite number_or_default.
Qed.

Lemma user_get data u : num_or (default zero (map_get u (userQuotaTotal data))) zero = num_or (foldl add_quota zero (having item_user u data)) zero.
Proof.
  rewrite <- (group_get item_user add_quota zero). do 2 f_equal. f_equal. apply foldl_same. intros m x. unfold bump_number, fill, add_quota. by rewrite number_or_default.
Qed.

Lemma having_among {A} (key : A -> jstr) k ks l : k ∈ ks -> having key k (List.filter (fun x => mem (key x) ks) l) = having key k l.
Proof.
  intros Hk. induction l as [|x l IH]; [done|]. unfold having in *. cbn [List.filter]. destruct (mem (key x) ks) eqn:E; cbn [List.filter]; rewrite IH; [done|].
  rewrite js_eqb_ne; [done|]. intros Hx. rewrite Hx in E. apply mem_false in E. by apply E.
Qed.

Section UserCharts.
Context (dayjs : Dayjs) (g : TimeGranularity) (data : list QuotaDataItem) (limit : nat).
Local Notation top := (topUsers data limit).
Local Notation time_of := (item_time dayjs g).
Local Notation of_top := (List.filter (fun i => mem (item_user i) top) data).

Lemma times_of_users t : default [] (map_get t (timeUserMap dayjs data g limit)) = userQuotaTotal (having time_of t of_top).
Proof.
  rewrite <- (group_get time_of (fun acc item => bump_number (item_user item) (quota_of item) acc) []). do 2 f_equal.
  unfold timeUserMap. rewrite <- foldl_skip. by apply foldl_same.
Qed.

Lemma user_cell t u : number_or_0 (map_get t (timeUserMap dayjs data g limit) ≫= map_get u) =
  num_or (foldl add_quota zero (having item_user u (having time_of t of_top))) zero.
Proof.
  rewrite number_or_default, <- user_get, <- times_of_users. by destruct (map_get t _).
Qed.

Lemma top_nodup : NoDup top.
Proof.
  unfold topUsers. rewrite fmap_take. eapply sublist_NoDup; [|apply sublist_take].
  assert ((sorted_users data).*1 ≡ₚ (userQuotaTotal data).*1) as -> by apply fmap_Permutation, sort_by_perm.
  rewrite users_grouped, tabulate_keys. apply NoDup_dedup.
Qed.

(** The sum of the top users, by their records. *)
Lemma top_sum (z : QuotaDataItem -> Z) : zsum (fun u => zsum z (having item_user u data)) top = zsum z of_top.
Proof.
  rewrite <- (zsum_group item_user z top of_top top_nodup).
  - apply zsum_ext. intros u Hu. by rewrite having_among.
  - intros x [_ Hx]%elem_of_lfilter. by apply mem_true.
Qed.

Lemma rank_adds_up z : whole quota_of z data -> adds_up (List.map snd (take limit (sorted_users data))) (zsum z of_top).
Proof.
  intros Hw. assert (List.map snd (take limit (sorted_users data)) = List.map (fun u => foldl add_quota zero (having item_user u data)) top) as ->.
  { unfold topUsers. change (take limit (sorted_users data)).*1 with (List.map fst (take limit (sorted_users data))). rewrite map_map. apply map_ext_in. intros p Hp%list_elem_of_In. apply elem_of_take in Hp as (i & Hp & _).
    apply list_elem_of_lookup_2 in Hp. unfold sorted_users in Hp. rewrite sort_by_perm, users_grouped in Hp.
    apply list_elem_of_In, in_map_iff in Hp as (u & <- & _). done. }
  rewrite <- top_sum. apply whole_adds_up. split; [|rewrite top_sum; apply (whole_sub _ _ (fun i => mem (item_user i) top) data Hw)].
  intros u _. pose proof (whole_sub _ _ (fun i => item_user i === u) data Hw) as Hu. split; [by eapply whole_nonneg|by apply quotas_whole].
Qed.

Lemma trend_users_add_up store z : whole quota_of z data -> adds_up (List.map ut_rawQuota (user_trend dayjs store data g limit)) (zsum z of_top).
Proof.
  intros Hw. pose proof (whole_sub _ _ (fun i => mem (item_user i) top) data Hw) as Ht.
  unfold user_trend. rewrite concat_map, map_map.
  assert (NoDup (sortedTimePoints dayjs data g) /\ forall x, x ∈ of_top -> time_of x ∈ sortedTimePoints dayjs data g) as [Hn Hc].
  { assert (sortedTimePoints dayjs data g ≡ₚ dedup (List.map time_of data)) as Hp by apply sort_by_perm. split; [rewrite Hp; apply NoDup_dedup|].
    intros x [Hx _]%elem_of_lfilter. rewrite Hp. apply elem_of_dedup, list_elem_of_In, in_map. by apply list_elem_of_In. }
  rewrite <- (zsum_group time_of z (sortedTimePoints dayjs data g) of_top Hn Hc).
  assert (forall t, whole quota_of z (having time_of t of_top)) as Hat by (intros t; by apply whole_sub).
  apply adds_up_concat; [|intros t _; by eapply whole_nonneg|rewrite zsum_group by done; apply Ht].
  intros t _. rewrite map_map. cbn [ut_rawQuota].
  destruct (whole_groups item_user quota_of z (having time_of t of_top)
    (fun u => number_or_0 (map_get t (timeUserMap dayjs data g limit) ≫= map_get u)) top (Hat t) top_nodup) as [H1 H2].
  - intros x [[_ Hx]%elem_of_lfilter _]%elem_of_lfilter. by apply mem_true.
  - intros u. rewrite user_cell. pose proof (whole_sub _ _ (fun i => item_user i === u) _ (Hat t)) as Hu.
    by rewrite (quotas_whole z), (total_whole _ z).
  - rewrite <- H2. by apply whole_adds_up.
Qed.
End UserCharts.

(** ** Theorems *)

Section Theorems.
Context (dayjs : Dayjs) (locale_le : jstr -> jstr -> bool) (locale_number : number -> jstr) (intl_int : number -> jstr).
Context (store : option StoredCurrency) (themeColors : list jstr) (schemes : list (option nat * list jstr)) (tt : jstr -> jstr).
Local Notation charts := (processChartData dayjs locale_le locale_number intl_int store themeColors schemes tt).
Local Notation user_charts := (processUserChartData dayjs locale_number store themeColors tt).

(** C9: with whole amounts whose sum is below 2 to the 53, the pie, the ranking and the two displays of the
    dashboard add up to all recorded calls and to all recorded quota; and when the records have at least seven
    time points, so do the bars and the areas of quota and the trend of calls, whatever is put together as
    other models. *)
Theorem usage_conserved data g zq zc : data <> [] -> whole quota_of zq data -> whole calls_of zc data ->
  let c := charts data g in
  total_of pv_value (spec_pie c) = num_of_Z (zsum zc data) /\
  total_of rv_Count (spec_rank_bar c) = num_of_Z (zsum zc data) /\
  totalCountDisplay c = intl_int (num_of_Z (zsum zc data)) /\
  totalQuotaDisplay c = renderQuotaCompat locale_number store (num_of_Z (zsum zq data)) 2 /\
  (MAX_CHART_TREND_POINTS <= length (sortedTimes dayjs data g) ->
   total_of uv_rawQuota (spec_line c) = num_of_Z (zsum zq data) /\
   total_of uv_rawQuota (spec_area c) = num_of_Z (zsum zq data) /\
   total_of cv_Count (spec_model_line c) = num_of_Z (zsum zc data)).
Proof.
  intros Hne Hq Hc c. assert (c = MkProcessed (pieValues data) (lineValues dayjs locale_le store data g) (areaValues dayjs locale_le store tt data g)
    (modelLineValues dayjs locale_le tt data g) (rankValues tt data) (Some (modelColorDomain tt data, modelColorRange themeColors schemes tt data)) None
    (renderQuotaCompat locale_number store (totalQuotaRaw data) 2) (intl_int (totalTimes data))) as ->.
  { subst c. by destruct data. }
  cbn [spec_pie spec_rank_bar totalCountDisplay totalQuotaDisplay spec_line spec_area spec_model_line].
  pose proof (totals_add_up data _ zc (fun p => num_or (count p.2) zero) Hc calls_total) as Hcalls. pose proof (totals_add_up data _ zq (fun p => num_or (quota p.2) zero) Hq quota_total) as Hquota.
  assert (adds_up (List.map rv_Count (rankedTrendModels data)) (zsum zc data)) as Hranked.
  { eapply adds_up_perm; [symmetry; apply map_sorted|]. by rewrite map_map. }
  split_and!; [rewrite total_all; apply adds_up_all ..| | |].
  - eapply adds_up_perm; [symmetry; apply map_sorted|]. by rewrite map_map.
  - unfold rankValues. destruct (_ <? _); [|done]. rewrite map_app. cbn [List.map rv_Count]. rewrite total_all.
    apply adds_up_collapse. by rewrite <- map_app, take_drop.
  - f_equal. unfold totalTimes. rewrite total_all. by apply adds_up_all.
  - f_equal. unfold totalQuotaRaw. rewrite total_all. by apply adds_up_all.
  - intros Hlen. split_and!; rewrite total_all; apply adds_up_all; eapply times_add_up; try done; intros t;
      [by apply line_adds_up|by apply area_adds_up|by apply trend_adds_up].
Qed.
(** With whole amounts, the ranking of users, their trend over time and the total shown above both agree: each is
    the sum of the records of the users that are shown. *)
Lemma user_totals_agree data g limit z : data <> [] -> whole quota_of z data ->
  let c := user_charts data g limit in
  let shown := num_of_Z (zsum z (List.filter (fun i => mem (item_user i) (List.map ur_User (spec_user_rank c))) data)) in
  total_of ur_rawQuota (spec_user_rank c) = shown /\
  total_of ut_rawQuota (spec_user_trend c) = shown /\
  user_subtext c = tt (js "Total:") ++ js " " ++ renderQuotaCompat locale_number store shown 2.
Proof.
  intros Hne Hw c shown. assert (c = MkUserCharts (user_rank store data limit) (user_trend dayjs store data g limit)
    (tt (js "Total:") ++ js " " ++ renderQuotaCompat locale_number store (top_quota data limit) 2) (userColorMap themeColors data limit)) as Ec.
  { subst c. by destruct data. }
  assert (List.map ur_User (spec_user_rank c) = topUsers data limit) as Eu.
  { rewrite Ec. cbn [spec_user_rank]. unfold user_rank. by rewrite map_map. }
  subst shown. rewrite Eu, Ec. cbn [spec_user_rank spec_user_trend user_subtext].
  pose proof (adds_up_all _ _ (rank_adds_up data limit z Hw)) as Hr. pose proof (adds_up_all _ _ (trend_users_add_up dayjs g data limit store z Hw)) as Ht.
  split_and!.
  - rewrite total_all. unfold user_rank. by rewrite map_map.
  - by rewrite total_all.
  - unfold top_quota. by rewrite total_all, Hr.
Qed.
End Theorems.

(** ** Examples *)

(** A clock of the zone UTC. *)
Definition two_digits (z : Z) : jstr := [Z.to_N (48 + z / 10); Z.to_N (48 + z mod 10)]%Z.
Definition utc_month_day (ms : number) : jstr :=
  (let z := default 0 (int_of_num ms) / 86400000 + 719468 in
   let doe := z mod 146097 in
   let yoe := (doe - doe / 1460 + doe / 36524 - doe / 146096) / 365 in
   let doy := doe - (365 * yoe + yoe / 4 - yoe / 100) in
   let mp := (5 * doy + 2) / 153 in
   let month := if mp <? 10 then mp + 3 else mp - 9 in
   two_digits month ++ js "-" ++ two_digits (doy - (153 * mp + 2) / 5 + 1))%Z.
Definition utc_hour (ms : number) : jstr := two_digits (default 0 (int_of_num ms) / 3600000 mod 24)%Z.
Definition utc : Dayjs := MkDayjs utc_month_day utc_hour (fun d ms => nadd ms (num_of_Z (d * 86400000))).

(** A record of a user and a model, so many hours after the start of 2026. *)
Definition record_at (user model : jstr) (h : Z) (calls q : Z) : QuotaDataItem :=
  MkItem (Some user) (Some model) (num_of_Z (1767225600 + 3600 * h)) (Some zero) (Some (num_of_Z calls)) (Some (num_of_Z q)).

Definition of_quota (i : QuotaDataItem) : Z := default 0%Z (int_of_num (quota_of i)).
Definition of_calls (i : QuotaDataItem) : Z := default 0%Z (int_of_num (calls_of i)).

Definition a_week : list QuotaDataItem :=
  [record_at (js "ann") (js "gpt") 0 1 100; record_at (js "bob") (js "gpt") 30 2 50; record_at (js "ann") (js "img") 50 1 7; record_at (js "bob") (js "gpt") 75 3 60;
   record_at (js "ann") (js "gpt") 100 1 10; record_at (js "ann") (js "img") 125 4 8; record_at (js "bob") (js "gpt") 150 1 90; record_at (js "ann") (js "gpt") 151 1 5].

Lemma a_week_whole : whole quota_of of_quota a_week /\ whole calls_of of_calls a_week.
Proof.
  split; (split; [|vm_compute; reflexivity]); intros x Hx; unfold a_week in Hx;
    repeat (apply elem_of_cons in Hx as [->|Hx]; [split; vm_compute; [discriminate|reflexivity]|]); by apply elem_of_nil in Hx.
Qed.

Lemma usage_conserved_witness :
  let c := processChartData utc str_leb (fun _ => []) num_to_str None [] [(None, [js "red"])] (fun s => s) a_week day in
  7 <= length (sortedTimes utc a_week day) /\
  total_of pv_value (spec_pie c) = num_of_Z 14 /\
  (total_of uv_rawQuota (spec_line c) = num_of_Z 330 /\ total_of uv_rawQuota (spec_area c) = num_of_Z 330 /\
   total_of cv_Count (spec_model_line c) = num_of_Z 14).
Proof.
  assert (7 <= length (sortedTimes utc a_week day)) as Hl by (apply Nat.leb_le; vm_compute; reflexivity).
  destruct (usage_conserved utc str_leb (fun _ => []) num_to_str None [] [(None, [js "red"])] (fun s => s) a_week day of_quota of_calls)
    as (H1 & _ & _ & _ & H2); [discriminate|apply a_week_whole|apply a_week_whole|].
  split; [exact Hl|]. split; [exact H1|]. exact (H2 Hl).
Defined.

Lemma user_totals_agree_witness :
  let c := processUserChartData utc (fun _ => []) None [] (fun s => s) a_week day 1 in
  total_of ur_rawQuota (spec_user_rank c) = num_of_Z 200 /\ total_of ut_rawQuota (spec_user_trend c) = num_of_Z 200.
Proof.
  destruct (user_totals_agree utc (fun _ => []) None [] (fun s => s) a_week day 1 of_quota) as (H1 & H2 & _);
    [discriminate|apply a_week_whole|]. split; [exact H1|exact H2].
Defined.

(** ** Departures *)

(** With fewer than seven time points the charts show the last seven intervals, and what was recorded before them
    is missing although the displays count it. *)
Lemma early_usage_missing :
  let data := [record_at (js "ann") (js "gpt") 0 1 100; record_at (js "ann") (js "gpt") 10 1 5] in
  let c := processChartData utc str_leb (fun _ => []) num_to_str None [] [] (fun s => s) data hour in
  total_of uv_rawQuota (spec_line c) = num_of_Z 5 /\ totalQuotaRaw data = num_of_Z 105 /\
  total_of cv_Count (spec_model_line c) = num_of_Z 1 /\ totalCountDisplay c = js "2".
Proof. cbv zeta. split_and!; vm_compute; reflexivity. Qed.

(** The labels of the times have no year and are sorted as texts, so the new year comes before the old one. *)
Lemma new_year_first :
  sortedTimes utc [record_at (js "ann") (js "gpt") (-24)%Z 1 1; record_at (js "ann") (js "gpt") 0 1 1] day = [js "01-01"; js "12-31"].
Proof. vm_compute. reflexivity. Qed.

(** The weeks start at each record, so records of the same week are not added up. *)
Lemma weeks_overlap :
  sortedTimes utc [record_at (js "ann") (js "gpt") 100 1 1; record_at (js "ann") (js "gpt") 124 1 1] week = [js "01-05 - 01-11"; js "01-06 - 01-12"].
Proof. vm_compute. reflexivity. Qed.
