(* ===== verification/Wallet.v ===== *)
(** * The wallet

    [features/wallet]: the settings of top-ups as the server sends them
    (hooks/use-topup-info.ts, lib/payment.ts), the prices that are shown
    (lib/format.ts, lib/billing.ts), the page with its requests (index.tsx,
    hooks/use-payment.ts and the hooks of the other payment providers), the preview of
    the Airwallex price (components/recharge-form-card.tsx), automatic top-ups
    (components/auto-topup-card.tsx, dialogs/auto-topup-prompt-dialog.tsx), the
    billing history (hooks/use-billing-history.ts) and affiliate rewards.

    The asynchronous functions are split at their awaits: a request under way is a
    value of the state, and its answer is an event, so that answers can arrive in any
    order. *)
From S2P Require Import Prelude Numbers Json.
From stdpp Require Import gmap.
Local Open Scope js_scope.

(** ** Settings of top-ups *)

Definition DEFAULT_PRESET_MULTIPLIERS : list number := List.map num_of_Z [1; 5; 10; 30; 50; 100; 300; 500]%Z.
Definition STRIPE : jstr := js "stripe".
Definition WAFFO : jstr := js "waffo".
Definition WAFFO_PANCAKE : jstr := js "waffo_pancake".
Definition DEFAULT_PAYMENT_TYPE : jstr := js "alipay".
Definition DEFAULT_DISCOUNT_RATE : number := num_of_Z 1.
Definition DEFAULT_MIN_TOPUP : number := num_of_Z 1.
Definition QUOTA_PER_DOLLAR : number := num_of_Z 500000.

Record PaymentMethod : Type := MkMethod {
  pm_name : jstr; pm_type : jstr; pm_color : option jstr; pm_min_topup : number; pm_icon : option jstr
}.
Record WaffoPayMethod : Type := MkWaffo {
  wf_name : jstr; wf_icon : option jstr; wf_payMethodType : option jstr; wf_payMethodName : option jstr
}.
Record CreemProduct : Type := MkCreem {
  cp_name : jstr; cp_productId : jstr; cp_price : number; cp_quota : number; cp_currency : jstr
}.
Record AirwallexCurrency : Type := MkCurrency { ac_currency : jstr; ac_unit_price : number; ac_min_topup : number }.
Record PresetAmount : Type := MkPreset { pa_value : number; pa_discount : option number }.

(** Discounts by amount: an object whose keys are the texts of the amounts. *)
Abbreviation discounts := (gmap jstr number).

(** The answer of the server; the five fields the code parses may hold anything. *)
Record TopupData : Type := MkData {
  td_enable_online : bool; td_enable_stripe : bool; td_min_topup : number; td_stripe_min_topup : number;
  td_enable_waffo : bool; td_waffo_min_topup : option number;
  td_enable_pancake : bool; td_pancake_min_topup : option number;
  td_enable_airwallex : bool; td_airwallex_currencies : option (list AirwallexCurrency);
  td_pay_methods : option json; td_amount_options : option json; td_discount : option json;
  td_creem_products : option json; td_waffo_pay_methods : option json
}.

Record TopupInfo : Type := MkTopup {
  ti_data : TopupData;
  ti_pay_methods : list PaymentMethod;
  ti_amount_options : list number;
  ti_discount : discounts;
  ti_creem_products : list CreemProduct;
  ti_waffo_pay_methods : list WaffoPayMethod
}.

Definition parseJsonArray (data : option json) : list json :=
  match data with
  | Some (JArr l) => l
  | Some (JStr s) => match JSON_parse s with Ret (JArr l) => l | _ => [] end
  | _ => []
  end.

(** [!!item && typeof item === 'object'], with the item's properties; an array has
    none of those that are read. *)
Definition records (l : list json) : list (list (jstr * json)) :=
  omap (fun item => match item with JObj o => Some o | JArr _ => Some [] | _ => None end) l.

(** [typeof v === 'string' ? v : undefined] and [typeof v === 'string' ? v : '']. *)
Definition string_prop (k : jstr) (o : list (jstr * json)) : option jstr :=
  match obj_get k o with Some (JStr s) => Some s | _ => None end.
Definition text_prop (k : jstr) (o : list (jstr * json)) : jstr := default [] (string_prop k o).

(** [l.map(f)] for a function that may throw. *)
Fixpoint map_out {A B} (f : A -> outcome B) (l : list A) : outcome (list B) :=
  match l with
  | [] => Ret []
  | x :: l' => let! y := f x in let! ys := map_out f l' in Ret (y :: ys)
  end.

Definition payment_method (stripeMinTopup : number) (item : list (jstr * json)) : outcome PaymentMethod :=
  let! rawMinTopup := to_Number (obj_get (js "min_topup") item) in
  let normalizedMinTopup := if is_finite rawMinTopup then rawMinTopup else zero in
  let type := text_prop (js "type") item in
  Ret (MkMethod (text_prop (js "name") item) type (string_prop (js "color") item)
         (if (type === STRIPE) && nleb normalizedMinTopup zero then stripeMinTopup else normalizedMinTopup) None).

Definition parsePaymentMethods (data : option json) (stripeMinTopup : number) : outcome (list PaymentMethod) :=
  let! methods := map_out (payment_method stripeMinTopup) (records (parseJsonArray data)) in
  Ret (List.filter (fun m => truthy (pm_name m) && truthy (pm_type m) && (pm_type m !== WAFFO)) methods).

Definition parseWaffoPayMethods (data : option json) : list WaffoPayMethod :=
  List.filter (fun m => truthy (wf_name m))
    (List.map (fun item => MkWaffo (text_prop (js "name") item) (string_prop (js "icon") item)
       (string_prop (js "payMethodType") item) (string_prop (js "payMethodName") item)) (records (parseJsonArray data))).

Definition creem_product (item : list (jstr * json)) : outcome CreemProduct :=
  let currency := if string_prop (js "currency") item === Some (js "EUR") then js "EUR" else js "USD" in
  let! price := to_Number (obj_get (js "price") item) in
  let! quota := to_Number (obj_get (js "quota") item) in
  Ret (MkCreem (text_prop (js "name") item) (text_prop (js "productId") item) (num_or price zero) (num_or quota zero) currency).
Definition parseCreemProducts (data : option json) : outcome (list CreemProduct) :=
  let! products := map_out creem_product (records (parseJsonArray data)) in
  Ret (List.filter (fun p => truthy (cp_name p) && truthy (cp_productId p)) products).

Definition parseAmountOptions (data : option json) : outcome (list number) :=
  let! amounts := map_out (fun item => to_Number (Some item)) (parseJsonArray data) in
  Ret (List.filter (fun x => is_finite x && nltb zero x) amounts).

(** [result[numericKey] = numericValue] for the entries of an object. *)
Definition add_discount (acc : outcome discounts) (wallet_entry : jstr * json) : outcome discounts :=
  let! result := acc in
  let numericKey := Number wallet_entry.1 in
  let! numericValue := to_Number (Some wallet_entry.2) in
  Ret (if is_finite numericKey && is_finite numericValue then <[num_to_str numericKey := numericValue]> result else result).

Definition parseDiscountMap (data : option json) : outcome discounts :=
  match data with
  | Some (JObj o) => foldl add_discount (Ret ∅) o
  | Some (JStr s) => match JSON_parse s with Ret (JObj o) => foldl add_discount (Ret ∅) o | _ => Ret ∅ end
  | _ => Ret ∅
  end.

Definition isStripePayment (paymentType : jstr) : bool := paymentType === STRIPE.
Definition isWaffoPancakePayment (paymentType : jstr) : bool := paymentType === WAFFO_PANCAKE.

Definition getDefaultPaymentType (topupInfo : option TopupInfo) : jstr :=
  match topupInfo with
  | None => DEFAULT_PAYMENT_TYPE
  | Some info =>
      match ti_pay_methods info with
      | m :: _ => pm_type m
      | [] =>
          if td_enable_stripe (ti_data info) then STRIPE
          else if td_enable_waffo (ti_data info) then WAFFO
          else if td_enable_pancake (ti_data info) then WAFFO_PANCAKE
          else DEFAULT_PAYMENT_TYPE
      end
  end.

Definition number_or (x : option number) (d : number) : number := match x with Some v => num_or v d | None => d end.

Definition getMinTopupAmount (topupInfo : option TopupInfo) : number :=
  match topupInfo with
  | None => DEFAULT_MIN_TOPUP
  | Some info =>
      let d := ti_data info in
      if td_enable_online d then td_min_topup d
      else if td_enable_stripe d then td_stripe_min_topup d
      else if td_enable_waffo d then number_or (td_waffo_min_topup d) DEFAULT_MIN_TOPUP
      else if td_enable_pancake d then number_or (td_pancake_min_topup d) DEFAULT_MIN_TOPUP
      else DEFAULT_MIN_TOPUP
  end.

Definition generatePresetAmounts (minAmount : number) : list PresetAmount :=
  List.map (fun multiplier => MkPreset (nmul minAmount multiplier) None) DEFAULT_PRESET_MULTIPLIERS.

(** [discounts[amount]]: the key is the text of the amount. *)
Definition discount_at (d : discounts) (amount : number) : option number := d !! num_to_str amount.

Definition mergePresetAmounts (amountOptions : list number) (d : discounts) : list PresetAmount :=
  List.map (fun amount => MkPreset amount (Some (number_or (discount_at d amount) (num_of_Z 1)))) amountOptions.

(** [fetchTopupInfo] with the answer of the server: the settings and the presets. *)
Definition processed_info (d : TopupData) : outcome TopupInfo :=
  let! methods := parsePaymentMethods (td_pay_methods d) (td_stripe_min_topup d) in
  let! amounts := parseAmountOptions (td_amount_options d) in
  let! discount := parseDiscountMap (td_discount d) in
  let! products := parseCreemProducts (td_creem_products d) in
  Ret (MkTopup d methods amounts discount products (parseWaffoPayMethods (td_waffo_pay_methods d))).

Definition preset_amounts (info : TopupInfo) : list PresetAmount :=
  match ti_amount_options info with
  | [] => generatePresetAmounts (getMinTopupAmount (Some info))
  | l => mergePresetAmounts l (ti_discount info)
  end.

(** ** Prices that are shown *)

Record PresetPricing : Type := MkPricing {
  displayValue : number; originalPrice : number; actualPrice : number; savedAmount : number; hasDiscount : bool
}.
Definition calculatePresetPricing (presetValue priceRatio discount usdExchangeRate : number) : PresetPricing :=
  let originalPrice := nmul presetValue priceRatio in
  let actualPrice := nmul originalPrice discount in
  MkPricing (nmul presetValue usdExchangeRate) originalPrice actualPrice (nsub originalPrice actualPrice)
    (nltb discount (num_of_Z 1)).

(** The discount of a preset in the list of amounts. *)
Definition preset_discount (info : option TopupInfo) (preset : PresetAmount) : number :=
  number_or (pa_discount preset)
    (number_or (match info with Some i => discount_at (ti_discount i) (pa_value preset) | None => None end) (num_of_Z 1)).

Definition getDiscountLabel (discount : number) : jstr :=
  if nleb DEFAULT_DISCOUNT_RATE discount then []
  else num_to_str (math_round (nmul (nsub (num_of_Z 1) discount) (num_of_Z 100))) ++ js "% OFF".

(** The euro sign is the unit 8364. *)
Definition formatCreemPrice (price : number) (currency : jstr) : jstr :=
  (if currency === js "EUR" then [8364%N] else js "$") ++ toFixed price 2.

Definition formatQuotaShort (quota : number) : jstr :=
  if nleb (num_of_Z 1000000) quota then toFixed (ndiv quota (num_of_Z 1000000)) 1 ++ js "M"
  else if nleb (num_of_Z 1000) quota then toFixed (ndiv quota (num_of_Z 1000)) 1 ++ js "K"
  else num_to_str quota.

(** [Intl.NumberFormat] with a maximum of decimals is [intl]. *)
Definition formatCurrency (intl : nat -> number -> jstr) (amount : number + jstr) : jstr :=
  let numeric := match amount with inl x => x | inr s => parseFloat s end in
  if negb (is_finite numeric) then js "-"
  else intl (if nleb (num_of_Z 1) (nabs numeric) then 2 else 4)%nat numeric.

(** The confirmation dialog: the price before the discount and the discount. *)
Definition confirm_prices (discountRate paymentAmount : number) : bool * number * number :=
  let hasDiscount := nltb zero discountRate && nltb discountRate (num_of_Z 1) && nltb zero paymentAmount in
  let originalAmount := if hasDiscount then ndiv paymentAmount discountRate else zero in
  (hasDiscount, originalAmount, if hasDiscount then nsub originalAmount paymentAmount else zero).

Inductive TopupStatus : Type := success | pending | expired.
Definition getStatusConfig (status : option TopupStatus) : jstr * jstr :=
  match status with
  | Some success => (js "success", js "Success")
  | Some expired => (js "danger", js "Expired")
  | Some pending | None => (js "warning", js "Pending")
  end.
Definition PAYMENT_METHOD_NAMES : list (jstr * jstr) :=
  [(js "stripe", js "Stripe"); (js "alipay", js "Alipay"); (js "wxpay", js "WeChat Pay"); (js "waffo", js "Waffo")].
Definition getPaymentMethodName (t : jstr -> jstr) (method : jstr) : jstr :=
  t (opt_str_or (obj_get method PAYMENT_METHOD_NAMES) method).

(** ** Requests and answers *)

Record ApiResponse : Type := MkResponse {
  rs_success : option bool; rs_message : option jstr; rs_data : option json; rs_url : option jstr
}.
Definition isApiSuccess (r : ApiResponse) : bool :=
  (rs_success r === Some true) || (rs_message r === Some (js "success")).

Inductive endpoint : Type := EStripe | EPancake | EOnline.
#[export] Instance endpoint_eq_dec : EqDecision endpoint.
Proof. solve_decision. Defined.
Definition amount_endpoint (paymentType : jstr) : endpoint :=
  if isStripePayment paymentType then EStripe else if isWaffoPancakePayment paymentType then EPancake else EOnline.

(** The payments of the page: by the dialog, by Waffo's buttons, by Airwallex. *)
Inductive payment : Type :=
| PayStripe (amount : number)
| PayOnline (amount : number) (method : jstr)
| PayPancake (amount : number)
| PayWaffo (amount : number) (index : nat)
| PayAirwallex (amount : number) (currency : jstr) (save : bool).

(** What can be seen from outside. *)
Inductive wallet_entry : Type :=
| LQuote (e : endpoint) (amount : number)
| LPay (p : payment)
| LError (message : jstr)
| LRedirecting
| LOpen (url : jstr)
| LForm (url : jstr) (new_tab : bool) (inputs : list (jstr * jstr))
| LFetchUser.

Definition FAILED : jstr := js "Payment request failed".

Definition isSafariBrowser (userAgent : jstr) : bool :=
  match index_of (js "Safari") userAgent, index_of (js "Chrome") userAgent with
  | Some _, None | Some _, Some O => true
  | _, _ => false
  end.

Definition submitPaymentForm (userAgent url : jstr) (params : list (jstr * json)) : outcome wallet_entry :=
  let! inputs := map_out (fun kv => let! v := to_String kv.2 in Ret (kv.1, v)) params in
  Ret (LForm url (negb (isSafariBrowser userAgent)) inputs).

(** [data.k] when it is a string ([getCheckoutUrl], [getPaymentUrl]). *)
Definition url_in (k : jstr) (data : option json) : option jstr :=
  match data with Some (JObj o) => string_prop k o | _ => None end.

Definition getErrorMessage (message : option jstr) (data : option json) : jstr :=
  match data with
  | Some (JStr s) => if truthy (trim s) then s else opt_str_or message FAILED
  | _ => opt_str_or message FAILED
  end.

(** [new URL(s).protocol], or nothing when the text is not a URL. *)
Definition isSafeHttpCheckoutUrl (protocol : jstr -> option jstr) (value : jstr) : bool :=
  let trimmed := trim value in
  if negb (truthy trimmed) then false
  else match protocol trimmed with Some p => (p === js "http:") || (p === js "https:") | None => false end.

(** A property of the answer that must be a truthy string. *)
Definition link_in (k : jstr) (data : option json) : option jstr :=
  match url_in k data with Some u => if truthy u then Some u else None | None => None end.

(** What an answer to a payment makes the page do, and whether it counts as success;
    [None] is a request that failed. *)
Definition payment_result (protocol : jstr -> option jstr) (userAgent : jstr) (p : payment) (answer : option ApiResponse)
    : list wallet_entry * bool :=
  match answer with
  | None => ([LError FAILED], false)
  | Some r =>
      match p with
      | PayStripe _ =>
          if negb (isApiSuccess r) then ([LError (opt_str_or (rs_message r) FAILED)], false)
          else match link_in (js "pay_link") (rs_data r) with
               | Some u => ([LOpen u; LRedirecting], true)
               | None => ([], false)
               end
      | PayOnline _ _ =>
          if negb (isApiSuccess r) then ([LError (opt_str_or (rs_message r) FAILED)], false)
          else match rs_data r, rs_url r with
               | Some data, Some url =>
                   if json_truthy data && truthy url then
                     match submitPaymentForm userAgent url (spread data) with
                     | Ret form => ([form; LRedirecting], true)
                     | Throw => ([LError FAILED], false)
                     end
                   else ([], false)
               | _, _ => ([], false)
               end
      | PayPancake _ =>
          match (if isApiSuccess r then link_in (js "checkout_url") (rs_data r) else None) with
          | Some u =>
              if negb (isSafeHttpCheckoutUrl protocol u) then ([LError (js "Invalid payment redirect URL")], false)
              else ([LOpen u; LRedirecting], true)
          | None => ([LError (getErrorMessage (rs_message r) (rs_data r))], false)
          end
      | PayWaffo _ _ =>
          match (if isApiSuccess r then link_in (js "payment_url") (rs_data r) else None) with
          | Some u => ([LOpen u; LRedirecting], true)
          | None => ([LError (getErrorMessage (rs_message r) (rs_data r))], false)
          end
      | PayAirwallex _ _ _ =>
          if negb (isApiSuccess r) then ([LError (opt_str_or (rs_message r) FAILED)], false)
          else match link_in (js "pay_link") (rs_data r) with
               | Some u => ([LOpen u; LRedirecting], true)
               | None => ([LError FAILED], false)
               end
      end
  end.

(** The price in an answer; anything else shows zero. *)
Definition quoted_amount (answer : option ApiResponse) : number :=
  match answer with
  | Some r =>
      if isApiSuccess r then
        match rs_data r with
        | Some v => if json_truthy v then try_catch (let! s := to_String v in Ret (parseFloat s)) zero else zero
        | None => zero
        end
      else zero
  | None => zero
  end.

(** ** The page *)

(** A price that is being calculated; [qt_select] when choosing a payment method
    asked for it, which then opens the dialog. *)
Record asked_price : Type := MkQuote { qt_amount : number; qt_type : jstr; qt_select : bool }.

Record Page : Type := MkPage {
  w_info : option TopupInfo;
  w_presets : list PresetAmount;
  w_loading : bool;
  w_topupAmount : number;
  w_selectedPreset : option number;
  w_method : option PaymentMethod;
  w_paymentLoading : option jstr;
  w_confirm : bool;
  w_amount : number;
  w_calculating : bool;
  w_processing : bool;    (** of [usePayment] *)
  w_pancake : bool;       (** of [useWaffoPancakePayment] *)
  w_airwallex : bool;     (** of [useAirwallexPayment] *)
  w_quotes : list asked_price;
  w_payments : list payment;
  w_log : list wallet_entry
}.

Definition new_page : Page := MkPage None [] true zero None None None false zero false false false false [] [] [].

Definition set_info (i : TopupInfo) (p : Page) : Page :=
  MkPage (Some i) (preset_amounts i) (w_loading p) (w_topupAmount p) (w_selectedPreset p) (w_method p) (w_paymentLoading p)
    (w_confirm p) (w_amount p) (w_calculating p) (w_processing p) (w_pancake p) (w_airwallex p) (w_quotes p) (w_payments p) (w_log p).
Definition set_page_loading (b : bool) (p : Page) : Page :=
  MkPage (w_info p) (w_presets p) b (w_topupAmount p) (w_selectedPreset p) (w_method p) (w_paymentLoading p)
    (w_confirm p) (w_amount p) (w_calculating p) (w_processing p) (w_pancake p) (w_airwallex p) (w_quotes p) (w_payments p) (w_log p).
Definition set_topup (x : number) (preset : option number) (p : Page) : Page :=
  MkPage (w_info p) (w_presets p) (w_loading p) x preset (w_method p) (w_paymentLoading p)
    (w_confirm p) (w_amount p) (w_calculating p) (w_processing p) (w_pancake p) (w_airwallex p) (w_quotes p) (w_payments p) (w_log p).
Definition set_method (m : PaymentMethod) (p : Page) : Page :=
  MkPage (w_info p) (w_presets p) (w_loading p) (w_topupAmount p) (w_selectedPreset p) (Some m) (w_paymentLoading p)
    (w_confirm p) (w_amount p) (w_calculating p) (w_processing p) (w_pancake p) (w_airwallex p) (w_quotes p) (w_payments p) (w_log p).
Definition set_paymentLoading (k : option jstr) (p : Page) : Page :=
  MkPage (w_info p) (w_presets p) (w_loading p) (w_topupAmount p) (w_selectedPreset p) (w_method p) k
    (w_confirm p) (w_amount p) (w_calculating p) (w_processing p) (w_pancake p) (w_airwallex p) (w_quotes p) (w_payments p) (w_log p).
Definition set_confirm (b : bool) (p : Page) : Page :=
  MkPage (w_info p) (w_presets p) (w_loading p) (w_topupAmount p) (w_selectedPreset p) (w_method p) (w_paymentLoading p)
    b (w_amount p) (w_calculating p) (w_processing p) (w_pancake p) (w_airwallex p) (w_quotes p) (w_payments p) (w_log p).
Definition set_page_price (amount : number) (calculating : bool) (qs : list asked_price) (p : Page) : Page :=
  MkPage (w_info p) (w_presets p) (w_loading p) (w_topupAmount p) (w_selectedPreset p) (w_method p) (w_paymentLoading p)
    (w_confirm p) amount calculating (w_processing p) (w_pancake p) (w_airwallex p) qs (w_payments p) (w_log p).
Definition set_payments (ps : list payment) (p : Page) : Page :=
  MkPage (w_info p) (w_presets p) (w_loading p) (w_topupAmount p) (w_selectedPreset p) (w_method p) (w_paymentLoading p)
    (w_confirm p) (w_amount p) (w_calculating p) (w_processing p) (w_pancake p) (w_airwallex p) (w_quotes p) ps (w_log p).
Definition wlog (es : list wallet_entry) (p : Page) : Page :=
  MkPage (w_info p) (w_presets p) (w_loading p) (w_topupAmount p) (w_selectedPreset p) (w_method p) (w_paymentLoading p)
    (w_confirm p) (w_amount p) (w_calculating p) (w_processing p) (w_pancake p) (w_airwallex p) (w_quotes p) (w_payments p) (w_log p ++ es).

(** The busy flag of the hook that makes a payment; Waffo's hook has one that the page
    does not read. *)
Definition set_pay_busy (pay : payment) (b : bool) (p : Page) : Page :=
  let '(pr, pa, ai) :=
    match pay with
    | PayStripe _ | PayOnline _ _ => (b, w_pancake p, w_airwallex p)
    | PayPancake _ => (w_processing p, b, w_airwallex p)
    | PayAirwallex _ _ _ => (w_processing p, w_pancake p, b)
    | PayWaffo _ _ => (w_processing p, w_pancake p, w_airwallex p)
    end in
  MkPage (w_info p) (w_presets p) (w_loading p) (w_topupAmount p) (w_selectedPreset p) (w_method p) (w_paymentLoading p)
    (w_confirm p) (w_amount p) (w_calculating p) pr pa ai (w_quotes p) (w_payments p) (w_log p).

(** [calculatePaymentAmount] up to its await. *)
Definition calculatePaymentAmount (topupAmount : number) (paymentType : jstr) (select : bool) (p : Page) : Page :=
  wlog [LQuote (amount_endpoint paymentType) topupAmount]
    (set_page_price (w_amount p) true (w_quotes p ++ [MkQuote topupAmount paymentType select]) p).

(** Its end, for the request at position [i], and the end of
    [handlePaymentMethodSelect] when that has asked. *)
Definition quote_answered (i : nat) (answer : option ApiResponse) (p : Page) : Page :=
  match w_quotes p !! i with
  | None => p
  | Some q =>
      let p := set_page_price (quoted_amount answer) false (delete i (w_quotes p)) p in
      if qt_select q then set_paymentLoading None (set_confirm true p) else p
  end.

Definition getCurrentPaymentType (p : Page) : jstr :=
  opt_str_or (pm_type <$> w_method p) (getDefaultPaymentType (w_info p)).

Definition handleSelectPreset (preset : PresetAmount) (p : Page) : Page :=
  calculatePaymentAmount (pa_value preset) (getCurrentPaymentType p) false (set_topup (pa_value preset) (Some (pa_value preset)) p).

Definition handleTopupAmountChange (amount : number) (p : Page) : Page :=
  calculatePaymentAmount amount (getCurrentPaymentType p) false (set_topup amount None p).

(** [parseInt(value) || 0] of the amount field; a number field gives an empty text or
    a decimal literal, so the digits after an optional sign are read. *)
Definition parse_amount (value : jstr) : number :=
  let '(neg, r) := match value with
                   | c :: r => if (c =? 45)%N then (true, r) else if (c =? 43)%N then (false, r) else (false, value)
                   | [] => (false, []) end in
  num_or (num_of_dec neg (digits_val (span_digits r).1) 0) zero.

Definition handleAmountChange (value : jstr) (p : Page) : Page :=
  let numValue := parse_amount value in
  if nleb zero numValue then handleTopupAmountChange numValue p else p.

Definition handlePaymentMethodSelect (method : PaymentMethod) (p : Page) : Page :=
  let p := set_paymentLoading (Some (pm_type method)) (set_method method p) in
  if nltb (w_topupAmount p) (getMinTopupAmount (w_info p)) then set_paymentLoading None p
  else calculatePaymentAmount (w_topupAmount p) (pm_type method) true p.

(** A payment is requested: the hook becomes busy. *)
Definition request_payment (pay : payment) (p : Page) : Page :=
  wlog [LPay pay] (set_pay_busy pay true (set_payments (w_payments p ++ [pay]) p)).

Definition handlePaymentConfirm (p : Page) : Page :=
  match w_method p with
  | None => p
  | Some m =>
      let amount := math_floor (w_topupAmount p) in
      request_payment
        (if isWaffoPancakePayment (pm_type m) then PayPancake amount
         else if isStripePayment (pm_type m) then PayStripe amount
         else PayOnline amount (pm_type m)) p
  end.

Definition handleWaffoMethodSelect (index : nat) (p : Page) : Page :=
  request_payment (PayWaffo (math_floor (w_topupAmount p)) index)
    (set_paymentLoading (Some (js "waffo-" ++ dec_digits (N.of_nat index))) p).

Definition handleAirwallexPay (currency : jstr) (saveForFuture : bool) (p : Page) : Page :=
  if nleb (w_topupAmount p) zero then p
  else request_payment (PayAirwallex (math_floor (w_topupAmount p)) currency saveForFuture) p.

Section Page.
Context (protocol : jstr -> option jstr) (userAgent : jstr) (casual : bool).

Definition payment_answered (i : nat) (answer : option ApiResponse) (p : Page) : Page :=
  match w_payments p !! i with
  | None => p
  | Some pay =>
      let '(es, done_) := payment_result protocol userAgent pay answer in
      let p := set_pay_busy pay false (wlog es (set_payments (delete i (w_payments p)) p)) in
      match pay with
      | PayStripe _ | PayOnline _ _ | PayPancake _ => if done_ then wlog [LFetchUser] (set_confirm false p) else p
      | PayWaffo _ _ => set_paymentLoading None p
      | PayAirwallex _ _ _ => p
      end
  end.

(** [fetchTopupInfo] with its answer. *)
Definition info_answered (answer : option TopupData) (p : Page) : Page :=
  set_page_loading false
    match answer with
    | Some d => match processed_info d with Ret info => set_info info p | Throw => p end
    | None => p
    end.

(** The effect that starts with the minimum once the settings are there; it runs when
    the settings or the amount have changed. *)
Definition init_amount (p : Page) : Page :=
  match w_info p with
  | Some info =>
      if neqb (w_topupAmount p) zero then
        let minTopup := getMinTopupAmount (Some info) in
        calculatePaymentAmount minTopup (getDefaultPaymentType (Some info)) false (set_topup minTopup (w_selectedPreset p) p)
      else p
  | None => p
  end.

(** ** What the user can do *)

(** [!!paymentLoading] *)
Definition truthy_key (k : option jstr) : bool := match k with Some s => truthy s | None => false end.

(** The buttons that are enabled: a method's own minimum, Waffo's, Airwallex's, and
    nothing under way. *)
Definition method_enabled (m : PaymentMethod) (p : Page) : bool :=
  negb (nltb (w_topupAmount p) (num_or (pm_min_topup m) zero)) && negb (truthy_key (w_paymentLoading p)).
Definition waffo_enabled (p : Page) : bool :=
  negb (nltb (w_topupAmount p) (number_or (w_info p ≫= (fun i => td_waffo_min_topup (ti_data i))) zero))
  && negb (truthy_key (w_paymentLoading p)).

Definition airwallex_currencies (p : Page) : list AirwallexCurrency :=
  default [] (w_info p ≫= (fun i => td_airwallex_currencies (ti_data i))).
Definition airwallexMin (currency : jstr) (p : Page) : number :=
  number_or (ac_min_topup <$> List.find (fun c => ac_currency c === currency) (airwallex_currencies p)) zero.
Definition airwallexBelowMin (currency : jstr) (p : Page) : bool := nltb (w_topupAmount p) (airwallexMin currency p).

(** [enableAirwallexTopup] and [hasAirwallexCurrencies]: the part of the page is shown. *)
Definition airwallex_shown (p : Page) : bool :=
  match w_info p with Some i => td_enable_airwallex (ti_data i) | None => false end
  && match airwallex_currencies p with [] => false | _ => true end.

(** [hasConfigurableTopup]: the amounts and the methods are shown. *)
Definition hasConfigurableTopup (p : Page) : bool :=
  match w_info p with
  | Some i => let d := ti_data i in
      td_enable_online d || td_enable_stripe d || td_enable_waffo d || td_enable_pancake d || td_enable_airwallex d
  | None => false
  end.

(** The form can be used: it is shown, and no dialog covers it. *)
Definition form_open (p : Page) : bool := hasConfigurableTopup p && negb (w_confirm p).

Inductive page_event : Type :=
| InfoAnswered (answer : option TopupData)
| SelectPreset (i : nat)
| TypeAmount (value : jstr)
| SelectMethod (i : nat)
| Confirm
| Dismiss
| SelectWaffo (i : nat)
| PayWithAirwallex (currency : jstr) (save : bool)
| QuoteAnswered (i : nat) (answer : option ApiResponse)
| PaymentAnswered (i : nat) (answer : option ApiResponse).

Definition handle_event (ev : page_event) (p : Page) : Page :=
  match ev with
  | InfoAnswered answer => if w_loading p then info_answered answer p else p
  | SelectPreset i => match w_presets p !! i with Some preset => if form_open p then handleSelectPreset preset p else p | None => p end
  | TypeAmount value => if form_open p && negb casual then handleAmountChange value p else p
  | SelectMethod i =>
      match w_info p ≫= (fun info => ti_pay_methods info !! i) with
      | Some m => if form_open p && method_enabled m p then handlePaymentMethodSelect m p else p
      | None => p
      end
  | Confirm => if w_confirm p && negb (w_processing p || w_pancake p) then handlePaymentConfirm p else p
  | Dismiss => set_confirm false p
  | SelectWaffo i =>
      match w_info p ≫= (fun info => if td_enable_waffo (ti_data info) then ti_waffo_pay_methods info !! i else None) with
      | Some _ => if form_open p && waffo_enabled p then handleWaffoMethodSelect i p else p
      | None => p
      end
  | PayWithAirwallex currency save =>
      if airwallex_shown p && mem currency (List.map ac_currency (airwallex_currencies p)) && form_open p
         && negb (airwallexBelowMin currency p || w_airwallex p)
      then handleAirwallexPay currency save p else p
  | QuoteAnswered i answer => quote_answered i answer p
  | PaymentAnswered i answer => payment_answered i answer p
  end.

(** After an event the effect runs when what it depends on has changed, and once more
    when it has changed the amount itself (from a zero to another). *)
Definition page_step (ev : page_event) (p : Page) : Page :=
  let p1 := handle_event ev p in
  let p2 := if (match w_info p, w_info p1 with None, Some _ => true | _, _ => false end) || (w_topupAmount p !== w_topupAmount p1)
            then init_amount p1 else p1 in
  if w_topupAmount p1 !== w_topupAmount p2 then init_amount p2 else p2.
End Page.

(** ** One payment at a time *)

Definition count_if {A} (f : A -> bool) (l : list A) : nat := length (List.filter f l).
#[local] Arguments count_if : simpl never.

Lemma count_if_app {A} (f : A -> bool) l l' : count_if f (l ++ l') = count_if f l + count_if f l'.
Proof. unfold count_if. by rewrite List.filter_app, length_app. Qed.

Lemma count_if_one {A} (f : A -> bool) x : count_if f [x] = if f x then 1 else 0.
Proof. unfold count_if. cbn. by destruct (f x). Qed.

Lemma count_if_delete {A} (f : A -> bool) l i x :
  l !! i = Some x -> count_if f l = count_if f (delete i l) + if f x then 1 else 0.
Proof.
  revert i. induction l as [|y l IH]; intros [|i] E; [done..| |]; cbn in E.
  - simplify_eq. unfold count_if. cbn. destruct (f x); cbn; lia.
  - change (delete (S i) (y :: l)) with (y :: delete i l). specialize (IH _ E). unfold count_if in *.
    cbn [List.filter]. destruct (f y); cbn [length]; lia.
Qed.

Definition by_hook (p : payment) : bool := match p with PayStripe _ | PayOnline _ _ => true | _ => false end.
Definition by_pancake (p : payment) : bool := match p with PayPancake _ => true | _ => false end.
Definition by_dialog (p : payment) : bool := by_hook p || by_pancake p.
Definition by_waffo (p : payment) : bool := match p with PayWaffo _ _ => true | _ => false end.
Definition by_airwallex (p : payment) : bool := match p with PayAirwallex _ _ _ => true | _ => false end.

Definition flag (b : bool) : nat := if b then 1 else 0.

(** What the flags of the page stand for. *)
Record flags_right (p : Page) : Prop := MkRight {
  right_methods : forall i m, w_info p = Some i -> m ∈ ti_pay_methods i -> truthy (pm_type m) = true;
  right_hook : count_if by_hook (w_payments p) = flag (w_processing p);
  right_pancake : count_if by_pancake (w_payments p) = flag (w_pancake p);
  right_airwallex : count_if by_airwallex (w_payments p) = flag (w_airwallex p);
  right_loading : count_if qt_select (w_quotes p) + count_if by_waffo (w_payments p) = flag (truthy_key (w_paymentLoading p));
  right_exclusive : w_processing p && w_pancake p = false
}.

Lemma map_out_Ret {A B} (f : A -> outcome B) l ys : map_out f l = Ret ys -> Forall (fun y => exists x, x ∈ l /\ f x = Ret y) ys.
Proof.
  revert ys. induction l as [|x l IH]; intros ys H; cbn in H; [by simplify_eq|].
  destruct (f x) eqn:Ef; cbn in H; [|done]. destruct (map_out f l) eqn:El; cbn in H; [|done]. simplify_eq.
  constructor; [exists x; split; [left|done]|]. eapply Forall_impl; [by apply IH|]. intros y (z & Hz & E). exists z. split; [by right|done].
Qed.

(** Every method that is offered has a name and a type, is not Waffo, and its minimum
    is a finite number; Stripe's own minimum replaces one that is not positive. *)
Lemma methods_offered data stripeMin ms : parsePaymentMethods data stripeMin = Ret ms ->
  Forall (fun m => truthy (pm_name m) = true /\ truthy (pm_type m) = true /\ pm_type m <> WAFFO /\
                   (is_finite (pm_min_topup m) = true \/ pm_type m = STRIPE /\ pm_min_topup m = stripeMin)) ms.
Proof.
  unfold parsePaymentMethods. destruct (map_out _ _) as [l|] eqn:E; cbn; [|done]. intros [= <-].
  apply map_out_Ret in E. apply List.Forall_forall. intros m [Hm Hf]%List.filter_In.
  rewrite !andb_true_iff in Hf. destruct Hf as [[Hn Ht] Hw]. apply negb_true_iff in Hw.
  rewrite Forall_forall in E. destruct (E m) as (item & _ & Ei); [by apply list_elem_of_In|].
  unfold payment_method in Ei. destruct (to_Number _) as [x|]; [|done]. cbn [obind] in Ei.
  match type of Ei with Ret ?a = Ret ?b => assert (b = a) as -> by congruence end. clear Ei.
  cbn [pm_type pm_name pm_min_topup] in *. revert Hn Ht Hw. generalize (text_prop (js "name") item), (text_prop (js "type") item).
  intros name type Hn Ht Hw. repeat split; [done..| |].
  - intros ->. by vm_compute in Hw.
  - destruct (type === STRIPE) eqn:Es; cbn [andb]; [rewrite js_eqb_true in Es|]; destruct (is_finite x) eqn:Ef; auto;
      destruct (nleb _ _); auto.
Qed.

Lemma processed_methods d i : processed_info d = Ret i -> Forall (fun m => truthy (pm_type m) = true) (ti_pay_methods i).
Proof.
  unfold processed_info. destruct (parsePaymentMethods _ _) as [ms|] eqn:E; cbn; [|done].
  destruct (parseAmountOptions _); cbn; [|done]. destruct (parseDiscountMap _); cbn; [|done].
  destruct (parseCreemProducts _); cbn; [|done]. intros [= <-]. cbn.
  eapply Forall_impl; [by eapply methods_offered|]. by intros m (_ & ? & _).
Qed.

Section Invariant.
Context (protocol : jstr -> option jstr) (userAgent : jstr) (casual : bool).
Abbreviation step := (page_step protocol userAgent casual).
Abbreviation handle := (handle_event protocol userAgent casual).

(** The pages that events in any order can lead to. *)
Inductive page_reachable : Page -> Prop :=
| reach_new : page_reachable new_page
| reach_step ev p : page_reachable p -> page_reachable (step ev p).

Lemma right_quote amount type p : flags_right p -> flags_right (calculatePaymentAmount amount type false p).
Proof. intros [Hm Hh Hp Ha Hl He]. constructor; cbn; try done. rewrite count_if_app. cbn. by rewrite Nat.add_0_r. Qed.

Lemma right_topup x preset p : flags_right p -> flags_right (set_topup x preset p).
Proof. intros [Hm Hh Hp Ha Hl He]. by constructor. Qed.

Lemma right_init p : flags_right p -> flags_right (init_amount p).
Proof.
  intros H. unfold init_amount. destruct (w_info p); [|done]. destruct (neqb _ _); [|done].
  by apply right_quote, right_topup.
Qed.

Lemma right_select m p : flags_right p -> truthy (pm_type m) = true -> truthy_key (w_paymentLoading p) = false ->
  flags_right (handlePaymentMethodSelect m p).
Proof.
  intros [Hm Hh Hp Ha Hl He] Hk Hf. rewrite Hf in Hl. unfold handlePaymentMethodSelect. destruct (nltb _ _).
  - constructor; cbn; done.
  - constructor; cbn; try done. rewrite count_if_app, count_if_one. cbn in *. rewrite Hk. cbn. lia.
Qed.

Lemma right_dialog_payment p : flags_right p -> w_processing p || w_pancake p = false -> flags_right (handlePaymentConfirm p).
Proof.
  intros [Hm Hh Hp Ha Hl He] [Hpr Hpa]%orb_false_iff. unfold handlePaymentConfirm. destruct (w_method p) as [m|]; [|by constructor].
  rewrite Hpr in Hh. rewrite Hpa in Hp.
  destruct (isWaffoPancakePayment _); [|destruct (isStripePayment _)]; constructor; cbn; try done;
    rewrite ?count_if_app, ?count_if_one; cbn; rewrite ?Hpr, ?Hpa; cbn in *; lia || done.
Qed.

Lemma right_waffo i p : flags_right p -> truthy_key (w_paymentLoading p) = false -> flags_right (handleWaffoMethodSelect i p).
Proof.
  intros [Hm Hh Hp Ha Hl He] Hf. rewrite Hf in Hl. constructor; cbn; try done; rewrite ?count_if_app, ?count_if_one; cbn in *; lia.
Qed.

Lemma right_airwallex_pay c b p : flags_right p -> w_airwallex p = false -> flags_right (handleAirwallexPay c b p).
Proof.
  intros [Hm Hh Hp Ha Hl He] Hf. unfold handleAirwallexPay. destruct (nleb _ _); [by constructor|].
  rewrite Hf in Ha. constructor; cbn; try done; rewrite ?count_if_app, ?count_if_one; cbn in *; lia.
Qed.

Lemma right_quote_answered i a p : flags_right p -> flags_right (quote_answered i a p).
Proof.
  intros [Hm Hh Hp Ha Hl He]. unfold quote_answered. destruct (w_quotes p !! i) as [q|] eqn:E; [|by constructor].
  rewrite (count_if_delete qt_select _ _ _ E) in Hl.
  destruct (qt_select q); constructor; cbn in *; try done; destruct (truthy_key _); cbn in *; lia.
Qed.

Lemma right_payment_answered i a p : flags_right p -> flags_right (payment_answered protocol userAgent i a p).
Proof.
  intros [Hm Hh Hp Ha Hl He]. unfold payment_answered. destruct (w_payments p !! i) as [pay|] eqn:E; [|by constructor].
  destruct (payment_result _ _ _ _) as [es ok].
  rewrite (count_if_delete by_hook _ _ _ E) in Hh. rewrite (count_if_delete by_pancake _ _ _ E) in Hp.
  rewrite (count_if_delete by_airwallex _ _ _ E) in Ha. rewrite (count_if_delete by_waffo _ _ _ E) in Hl.
  destruct pay; cbn [by_hook by_pancake by_waffo by_airwallex] in *; try destruct ok; constructor; cbn in *; try done;
    destruct (w_processing p), (w_pancake p), (w_airwallex p), (truthy_key (w_paymentLoading p)); cbn in *; lia || done.
Qed.

Lemma right_handle ev p : flags_right p -> flags_right (handle ev p).
Proof.
  intros H. destruct ev as [answer|i|value|i| | |i|currency save|i answer|i answer]; cbn [handle_event].
  - destruct (w_loading p); [|done]. unfold info_answered. destruct answer as [d|]; [|by destruct H; constructor].
    destruct (processed_info d) as [info|] eqn:E; [|by destruct H; constructor]. apply processed_methods in E.
    destruct H as [Hm Hh Hp Ha Hl He]. constructor; cbn; try done. intros i m [= <-] Hin. by eapply Forall_forall in E.
  - destruct (w_presets p !! i); [|done]. destruct (form_open p); [|done]. by apply right_quote, right_topup.
  - destruct (form_open p && negb casual); [|done]. unfold handleAmountChange. destruct (nleb _ _); [|done].
    by apply right_quote, right_topup.
  - destruct (w_info p) as [info|] eqn:Ei; [|done]. cbn [mbind option_bind]. destruct (ti_pay_methods info !! i) as [m|] eqn:Em; [|done].
    destruct (form_open p && method_enabled m p) eqn:Eg; [|done]. apply andb_true_iff in Eg as [_ Eg].
    unfold method_enabled in Eg. apply andb_true_iff in Eg as [_ Eg%negb_true_iff].
    apply right_select; [done| |done]. eapply right_methods; [done..|]. by eapply list_elem_of_lookup_2.
  - destruct (w_confirm p && _) eqn:Eg; [|done]. apply andb_true_iff in Eg as [_ Eg%negb_true_iff]. by apply right_dialog_payment.
  - by destruct H; constructor.
  - destruct (w_info p ≫= _); [|done]. destruct (form_open p && waffo_enabled p) eqn:Eg; [|done].
    apply andb_true_iff in Eg as [_ Eg]. unfold waffo_enabled in Eg. apply andb_true_iff in Eg as [_ Eg%negb_true_iff].
    by apply right_waffo.
  - destruct (_ && _ && _ && _) eqn:Eg; [|done]. apply andb_true_iff in Eg as [_ Eg%negb_true_iff].
    apply orb_false_iff in Eg as [_ Eg]. by apply right_airwallex_pay.
  - by apply right_quote_answered.
  - by apply right_payment_answered.
Qed.

Lemma right_reachable p : page_reachable p -> flags_right p.
Proof.
  induction 1 as [|ev p _ IH]; [by constructor|]. unfold page_step.
  pose proof (right_handle ev p IH) as H. repeat case_match; auto using right_init.
Qed.

(** C12: However the events of the wallet and the answers of the server follow each
    other, at most one payment of the dialog, one payment by Waffo and one payment by
    Airwallex are under way at a time, and while one is, the button that would make
    another has no effect. *)
Theorem one_payment_at_a_time p : page_reachable p ->
  let under_way by_ := count_if by_ (w_payments p) in
  under_way by_dialog <= 1 /\ under_way by_waffo <= 1 /\ under_way by_airwallex <= 1 /\
  (under_way by_dialog = 1 -> handle Confirm p = p) /\
  (under_way by_waffo = 1 -> forall i, handle (SelectWaffo i) p = p) /\
  (under_way by_airwallex = 1 -> forall c b, handle (PayWithAirwallex c b) p = p).
Proof.
  intros [Hm Hh Hp Ha Hl He]%right_reachable. cbn zeta.
  assert (Hd : count_if by_dialog (w_payments p) = (count_if by_hook (w_payments p) + count_if by_pancake (w_payments p))%nat).
  { generalize (w_payments p). intros l. unfold count_if. induction l as [|x l IH]; [done|]. destruct x; cbn; lia. }
  repeat split.
  - rewrite Hd, Hh, Hp. destruct (w_processing p), (w_pancake p); cbn in *; lia || done.
  - destruct (truthy_key _); cbn in Hl; lia.
  - rewrite Ha. destruct (w_airwallex p); cbn; lia.
  - intros E. cbn [handle_event]. replace (w_processing p || w_pancake p) with true; [by rewrite andb_false_r|].
    rewrite Hd, Hh, Hp in E. by destruct (w_processing p), (w_pancake p).
  - intros E i. cbn [handle_event]. destruct (w_info p ≫= _); [|done]. unfold waffo_enabled.
    replace (truthy_key (w_paymentLoading p)) with true; [by rewrite !andb_false_r|]. destruct (truthy_key _); cbn in Hl; [done|lia].
  - intros E c b. cbn [handle_event]. replace (w_airwallex p) with true; [by rewrite orb_true_r, andb_false_r|].
    rewrite Ha in E. by destruct (w_airwallex p).
Qed.
End Invariant.

(** ** The price in the dialog *)

Section Price.
Context (protocol : jstr -> option jstr) (userAgent : jstr) (casual : bool).
Abbreviation step := (page_step protocol userAgent casual).
Abbreviation handle := (handle_event protocol userAgent casual).

(** The server answers the same question in the same way. *)
Context (price : endpoint -> number -> option ApiResponse).
Definition price_for (type : jstr) (amount : number) : number := quoted_amount (price (amount_endpoint type) amount).

(** Prices are answered in the order they were asked for, and no amount is set to
    zero. *)
Inductive orderly : Page -> Prop :=
| orderly_new : orderly new_page
| orderly_event ev p : orderly p ->
    match ev with QuoteAnswered _ _ => False | _ => True end ->
    (neqb (w_topupAmount (handle ev p)) zero = true -> w_topupAmount (handle ev p) = w_topupAmount p) ->
    orderly (step ev p)
| orderly_quote p q qs : orderly p -> w_quotes p = q :: qs ->
    orderly (step (QuoteAnswered 0 (price (amount_endpoint (qt_type q)) (qt_amount q))) p).

(** The last question asked, or the price that is shown, is for the present amount
    and method. *)
Definition current (p : Page) : Prop :=
  match last (w_quotes p) with
  | Some q => qt_amount q = w_topupAmount p /\ amount_endpoint (qt_type q) = amount_endpoint (getCurrentPaymentType p)
  | None => w_amount p = price_for (getCurrentPaymentType p) (w_topupAmount p)
  end.

(** The dialog is open or about to open. *)
Definition paying (p : Page) : Prop := w_confirm p = true \/ count_if qt_select (w_quotes p) <> 0.

Record page_priced (p : Page) : Prop := MkPriced {
  priced_flags : flags_right p;
  priced_loaded : w_info p <> None -> w_loading p = false;
  priced_current : paying p -> current p /\ w_info p <> None
}.

Lemma current_asked amount type select p :
  amount = w_topupAmount p -> amount_endpoint type = amount_endpoint (getCurrentPaymentType p) ->
  current (calculatePaymentAmount amount type select p).
Proof. intros -> E. unfold current. cbn. by rewrite last_snoc. Qed.

Lemma step_handle ev p : w_info (handle ev p) = w_info p ->
  (neqb (w_topupAmount (handle ev p)) zero = true -> w_topupAmount (handle ev p) = w_topupAmount p) -> step ev p = handle ev p.
Proof.
  intros Ei Hz. unfold page_step. rewrite Ei.
  replace (match w_info p with Some _ => _ | None => _ end) with false by (by destruct (w_info p)). cbn [orb].
  assert (H : (if w_topupAmount p !== w_topupAmount (handle ev p) then init_amount (handle ev p) else handle ev p) = handle ev p).
  { destruct (w_topupAmount p === _) eqn:E; [done|]. cbn [negb]. unfold init_amount. destruct (w_info (handle ev p)); [|done].
    destruct (neqb _ _) eqn:Ez; [|done]. rewrite (Hz eq_refl), js_eqb_refl in E. done. }
  by rewrite H, js_eqb_refl.
Qed.

Lemma not_paying p : w_confirm p = false -> truthy_key (w_paymentLoading p) = false -> flags_right p -> ~ paying p.
Proof. intros Hc Hk [_ _ _ _ Hl _] [H|H]; [congruence|]. rewrite Hk in Hl. cbn in Hl. lia. Qed.

Lemma form_open_closed p : form_open p = true -> w_confirm p = false /\ w_info p <> None.
Proof.
  unfold form_open, hasConfigurableTopup. intros [H Hc%negb_true_iff]%andb_true_iff. split; [done|]. by destruct (w_info p).
Qed.

(** Another amount asks for its price. *)
Lemma priced_amount amount preset p : page_priced p -> form_open p = true ->
  page_priced (calculatePaymentAmount amount (getCurrentPaymentType p) false (set_topup amount preset p)).
Proof.
  intros [Hf Hl Hc] [_ Hi]%form_open_closed. constructor; [by apply right_quote, right_topup|done|].
  intros _. split; [|done]. by apply current_asked.
Qed.

Lemma priced_select m p : page_priced p -> w_info p <> None -> truthy (pm_type m) = true -> w_confirm p = false ->
  truthy_key (w_paymentLoading p) = false -> page_priced (handlePaymentMethodSelect m p).
Proof.
  intros [Hf Hl Hc] Hi Ht Hw Hk. pose proof (right_select m p Hf Ht Hk) as Hr. constructor; [done| |].
  - unfold handlePaymentMethodSelect. by destruct (nltb _ _).
  - revert Hr. unfold handlePaymentMethodSelect. destruct (nltb _ _); intros Hr Hp.
    + exfalso. revert Hp. by apply not_paying.
    + split; [|done]. apply current_asked; [done|]. unfold getCurrentPaymentType. cbn. unfold str_or. by rewrite Ht.
Qed.

(** What neither asks for a price nor changes the amount or the method. *)
Lemma priced_keep p p' : page_priced p -> flags_right p' -> w_info p' = w_info p -> w_loading p' = w_loading p ->
  w_quotes p' = w_quotes p -> w_amount p' = w_amount p -> w_topupAmount p' = w_topupAmount p -> w_method p' = w_method p ->
  (w_confirm p' = true -> w_confirm p = true) -> page_priced p'.
Proof.
  intros [Hf Hl Hc] Hf' Ei El Eq Ea Et Em Hcf. constructor; [done|by rewrite Ei, El|].
  unfold paying, current, getCurrentPaymentType in *. rewrite Eq, Ea, Et, Em, Ei. intros [H|H]; apply Hc; auto.
Qed.

Lemma priced_answer p q qs : page_priced p -> w_quotes p = q :: qs ->
  page_priced (quote_answered 0 (price (amount_endpoint (qt_type q)) (qt_amount q)) p).
Proof.
  intros Hp Eq. pose proof Hp as [Hf Hl Hc]. constructor; [by apply right_quote_answered| |].
  - unfold quote_answered. rewrite Eq. cbn. by destruct (qt_select q).
  - intros Hpay. assert (Hpay0 : paying p).
    { unfold paying, quote_answered in *. rewrite Eq in *. cbn in Hpay. unfold count_if in *. cbn.
      destruct (qt_select q); cbn in *; [by right|done]. }
    destruct (Hc Hpay0) as [Hcur Hi]. unfold quote_answered. rewrite Eq. cbn. unfold current in *. rewrite Eq in Hcur.
    destruct qs as [|q' qs]; cbn in Hcur |- *.
    + destruct Hcur as [Ha He]. unfold getCurrentPaymentType in *.
      destruct (qt_select q); cbn; (split; [|done]); unfold price_for; by rewrite <- He, <- Ha.
    + unfold getCurrentPaymentType in *. destruct (last (q' :: qs)) eqn:El; [|by apply last_None in El].
      by destruct (qt_select q); cbn; rewrite El; split.
Qed.

Lemma priced_handle ev p : page_priced p -> match ev with QuoteAnswered _ _ | InfoAnswered _ => False | _ => True end -> page_priced (handle ev p).
Proof.
  intros H Hev. pose proof (right_handle protocol userAgent casual ev p (priced_flags p H)) as Hr.
  destruct ev as [answer|i|value|i| | |i|currency save|i answer|i answer]; try done; cbn [handle_event] in *.
  - destruct (w_presets p !! i); [|done]. destruct (form_open p) eqn:Ef; [|done]. by apply priced_amount.
  - destruct (form_open p && negb casual) eqn:Ef; [|done]. apply andb_true_iff in Ef as [Ef _].
    unfold handleAmountChange. destruct (nleb _ _); [|done]. by apply priced_amount.
  - destruct (w_info p) as [info|] eqn:Ei; [|done]. cbn [mbind option_bind] in *. destruct (ti_pay_methods info !! i) as [m|] eqn:Em; [|done].
    destruct (form_open p && method_enabled m p) eqn:Eg; [|done]. apply andb_true_iff in Eg as [Ho Eg].
    unfold method_enabled in Eg. apply andb_true_iff in Eg as [_ Eg%negb_true_iff]. apply form_open_closed in Ho as [Hc Hi].
    apply priced_select; try done. eapply (right_methods p); [by apply priced_flags|done|]. by eapply list_elem_of_lookup_2.
  - destruct (w_confirm p && _) eqn:Eg; [|done]. revert Hr. unfold handlePaymentConfirm. destruct (w_method p) as [m|]; [|done].
    intros Hr. by destruct (isWaffoPancakePayment _); [|destruct (isStripePayment _)]; apply (priced_keep p).
  - by apply (priced_keep p).
  - destruct (w_info p ≫= _); [|done]. destruct (form_open p && waffo_enabled p) eqn:Eg; [|done]. by apply (priced_keep p).
  - destruct (_ && _ && _ && _) eqn:Eg; [|done]. revert Hr. unfold handleAirwallexPay. destruct (nleb _ _); [done|].
    intros Hr. by apply (priced_keep p).
  - revert Hr. unfold payment_answered. destruct (w_payments p !! i) as [pay|]; [|done].
    destruct (payment_result _ _ _ _) as [es ok]. intros Hr. by destruct pay; try destruct ok; apply (priced_keep p).
Qed.

Lemma handle_same_info ev p : match ev with InfoAnswered _ => False | _ => True end -> w_info (handle ev p) = w_info p.
Proof.
  intros Hev. destruct ev as [answer|i|value|i| | |i|currency save|i answer|i answer]; try done; cbn [handle_event];
    unfold handleAmountChange, handlePaymentMethodSelect, handlePaymentConfirm, handleAirwallexPay, quote_answered, payment_answered;
    repeat case_match; try done; by destruct p0.
Qed.

(** Before the settings have arrived nothing can be paid. *)
Lemma priced_info answer p : page_priced p -> page_priced (step (InfoAnswered answer) p).
Proof.
  intros [Hf Hl Hc]. destruct (w_loading p) eqn:El.
  - assert (Ei : w_info p = None). { destruct (w_info p); [|done]. by discriminate Hl. }
    assert (Hn : ~ paying p). { intros Hp. by destruct (Hc Hp). }
    assert (Hq : forall q, ~ paying q <-> w_confirm q = false /\ count_if qt_select (w_quotes q) = 0).
    { intros q. unfold paying. destruct (w_confirm q), (count_if qt_select (w_quotes q)); naive_solver. }
    apply Hq in Hn as [Hcf Hs].
    assert (Hi : forall q, w_confirm q = false -> count_if qt_select (w_quotes q) = 0 -> w_loading q = false ->
      w_confirm (init_amount q) = false /\ count_if qt_select (w_quotes (init_amount q)) = 0 /\ w_loading (init_amount q) = false).
    { intros q H1 H2 H3. unfold init_amount. destruct (w_info q); [|done]. destruct (neqb _ _); [|done]. cbn.
      by rewrite count_if_app, H2. }
    assert (Hh : let q := handle (InfoAnswered answer) p in w_confirm q = false /\ count_if qt_select (w_quotes q) = 0 /\ w_loading q = false).
    { cbn [handle_event]. rewrite El. unfold info_answered. destruct answer as [d|]; [destruct (processed_info d)|]; by cbn. }
    destruct Hh as (H1 & H2 & H3).
    assert (H : let q := step (InfoAnswered answer) p in w_confirm q = false /\ count_if qt_select (w_quotes q) = 0 /\ w_loading q = false).
    { unfold page_step. cbv zeta. destruct (_ || _); [destruct (Hi _ H1 H2 H3) as (? & ? & ?)|]; destruct (negb _); auto. }
    destruct H as (? & ? & ?). constructor; [|done|intros Hp; exfalso; revert Hp; by apply Hq].
    unfold page_step. pose proof (right_handle protocol userAgent casual (InfoAnswered answer) p Hf). repeat case_match; auto using right_init.
  - replace (step (InfoAnswered answer) p) with p; [by constructor|].
    unfold page_step. cbn [handle_event]. rewrite El, js_eqb_refl. destruct (w_info p); cbn; by rewrite js_eqb_refl.
Qed.

Lemma priced_orderly p : orderly p -> page_priced p.
Proof.
  induction 1 as [|ev p _ IH Hev Hz|p q qs _ IH Eq].
  - constructor; [by constructor|done|]. intros [H|H]; done.
  - destruct ev as [answer| | | | | | | | |]; try done; [by apply priced_info|..];
      (rewrite step_handle; [by apply priced_handle|by apply handle_same_info|done]).
  - rewrite step_handle.
    + by eapply priced_answer.
    + by apply handle_same_info.
    + intros _. cbn [handle_event]. unfold quote_answered. rewrite Eq. cbn. by destruct (qt_select q).
Qed.

(** While prices are answered in the order they were asked for and no amount is set to
    zero, an open payment dialog that waits for no price shows the price the server
    gives for the amount and the method on the page, and confirming requests the
    payment of that amount, rounded down, by that method. *)
Lemma dialog_price_current p : orderly p -> w_confirm p = true -> w_quotes p = [] ->
  w_amount p = price_for (getCurrentPaymentType p) (w_topupAmount p) /\
  (w_processing p || w_pancake p = false -> forall m, w_method p = Some m ->
   exists pay, w_payments (handle Confirm p) = w_payments p ++ [pay] /\
     pay = (if isWaffoPancakePayment (pm_type m) then PayPancake (math_floor (w_topupAmount p))
            else if isStripePayment (pm_type m) then PayStripe (math_floor (w_topupAmount p))
            else PayOnline (math_floor (w_topupAmount p)) (pm_type m))).
Proof.
  intros [_ _ Hc]%priced_orderly Hw Hq. destruct (Hc (or_introl Hw)) as [Hcur _]. unfold current in Hcur. rewrite Hq in Hcur.
  split; [done|]. intros Hb m Hm. cbn [handle_event]. rewrite Hw, Hb. cbn [andb negb]. unfold handlePaymentConfirm. rewrite Hm.
  eexists. split; [|done]. by destruct (isWaffoPancakePayment _); [|destruct (isStripePayment _)].
Qed.
End Price.

(** ** The preview of the Airwallex price *)

(** What the effect depends on. *)
Record deps : Type := MkDeps { d_enabled : bool; d_has : bool; d_below : bool; d_currency : jstr; d_amount : number }.
#[export] Instance deps_eq_dec : EqDecision deps.
Proof. solve_decision. Defined.

Definition preview_deps (currency : jstr) (p : Page) : deps :=
  MkDeps (match w_info p with Some i => td_enable_airwallex (ti_data i) | None => false end)
    (match airwallex_currencies p with [] => false | _ => true end) (airwallexBelowMin currency p) currency (w_topupAmount p).

(** The currency is replaced when the settings do not have it. *)
Definition keep_currency (currencies : list AirwallexCurrency) (currency : jstr) : jstr :=
  match currencies with
  | c :: _ => if mem currency (List.map ac_currency currencies) then currency else ac_currency c
  | [] => currency
  end.

(** A request of the preview: what was asked, and whether its effect was cleaned up. *)
Record probe : Type := MkProbe { pr_amount : number; pr_currency : jstr; pr_cancelled : bool }.

Record Preview : Type := MkPreview {
  pv_deps : deps; pv_amount : option number; pv_loading : bool; pv_probes : list probe; pv_asked : list (jstr * number)
}.

Definition cancel_probe (b : probe) : probe := MkProbe (pr_amount b) (pr_currency b) true.

Definition wanted (d : deps) : bool := d_enabled d && d_has d && negb (d_below d) && negb (nleb (d_amount d) zero).

(** The clean-up of the last effect, and the effect. *)
Definition run_preview (d : deps) (v : Preview) : Preview :=
  let probes := List.map cancel_probe (pv_probes v) in
  if wanted d then
    MkPreview d (pv_amount v) true (probes ++ [MkProbe (math_floor (d_amount d)) (d_currency d) false])
      (pv_asked v ++ [(d_currency d, math_floor (d_amount d))])
  else MkPreview d None (pv_loading v) probes (pv_asked v).

Definition preview_changed (d : deps) (v : Preview) : Preview := if pv_deps v === d then v else run_preview d v.

Definition preview_amount (answer : option ApiResponse) : option number :=
  match answer with
  | Some r =>
      if isApiSuccess r then
        match rs_data r with
        | Some x => if json_truthy x then try_catch (let! s := to_String x in Ret (Some (parseFloat s))) None else None
        | None => None
        end
      else None
  | None => None
  end.

Definition preview_answered (i : nat) (answer : option ApiResponse) (v : Preview) : Preview :=
  match pv_probes v !! i with
  | None => v
  | Some b =>
      let probes := delete i (pv_probes v) in
      if pr_cancelled b then MkPreview (pv_deps v) (pv_amount v) (pv_loading v) probes (pv_asked v)
      else MkPreview (pv_deps v) (preview_amount answer) false probes (pv_asked v)
  end.

(** The first effect, when the card is mounted. *)
Definition mount_preview (d : deps) : Preview := run_preview d (MkPreview d None false [] []).

(** What is shown: nothing while it is loading. *)
Definition preview_shown (v : Preview) : option number := if pv_loading v then None else pv_amount v.

Section Preview.
(** The server answers the same question in the same way. *)
Context (rate : jstr -> number -> option ApiResponse).

(** Answers arrive in any order, between any changes. *)
Inductive previewing : Preview -> Prop :=
| previewing_mount d : previewing (mount_preview d)
| previewing_change d v : previewing v -> previewing (preview_changed d v)
| previewing_answer i b v : previewing v -> pv_probes v !! i = Some b ->
    previewing (preview_answered i (rate (pr_currency b) (pr_amount b)) v).

Definition probe_fresh (b : probe) : bool := negb (pr_cancelled b).

Record preview_right (v : Preview) : Prop := MkPreviewRight {
  fresh_current : forall b, b ∈ pv_probes v -> pr_cancelled b = false ->
    pr_currency b = d_currency (pv_deps v) /\ pr_amount b = math_floor (d_amount (pv_deps v)) /\ wanted (pv_deps v) = true;
  fresh_loading : pv_loading v = false -> count_if probe_fresh (pv_probes v) = 0;
  fresh_one : count_if probe_fresh (pv_probes v) <= 1;
  shown_current : forall x, preview_shown v = Some x -> wanted (pv_deps v) = true /\
    preview_amount (rate (d_currency (pv_deps v)) (math_floor (d_amount (pv_deps v)))) = Some x
}.

Lemma cancelled_none l : count_if probe_fresh (List.map cancel_probe l) = 0.
Proof. unfold count_if. induction l; [done|]. by cbn. Qed.

Lemma run_right d v : preview_right (run_preview d v).
Proof.
  unfold run_preview. destruct (wanted d) eqn:Ew; constructor; cbn.
  - intros b [Hb|Hb]%elem_of_app Hc; [|by apply list_elem_of_singleton in Hb as ->].
    apply list_elem_of_fmap in Hb as (b' & -> & _). done.
  - done.
  - rewrite count_if_app, cancelled_none, count_if_one. cbn. lia.
  - done.
  - intros b Hb Hc. apply list_elem_of_fmap in Hb as (b' & -> & _). done.
  - intros _. apply cancelled_none.
  - rewrite cancelled_none. apply Nat.le_0_l.
  - intros x. unfold preview_shown. cbn. by destruct (pv_loading v).
Qed.

Lemma previewing_right v : previewing v -> preview_right v.
Proof.
  induction 1 as [d|d v _ IH|i b v _ IH E].
  - apply run_right.
  - unfold preview_changed. destruct (_ === _); [done|apply run_right].
  - destruct IH as [Hf Hl Ho Hs]. unfold preview_answered. rewrite E. pose proof (list_elem_of_lookup_2 _ _ _ E) as Hb.
    rewrite (count_if_delete probe_fresh _ _ _ E) in Hl, Ho.
    pose proof (fun b' => list_elem_of_delete_inv b' i (pv_probes v)) as Hsub.
    assert (Ef : probe_fresh b = negb (pr_cancelled b)) by done. rewrite Ef in Hl, Ho.
    destruct (pr_cancelled b) eqn:Ec; constructor; cbn [pv_probes pv_deps pv_loading pv_amount negb] in *; eauto; try lia.
    + intros E'. specialize (Hl E'). lia.
    + unfold preview_shown. cbn. intros x. destruct (Hf b Hb Ec) as (-> & -> & ?). done.
Qed.

(** The Airwallex price that is shown is the one the server gives for the present
    amount and currency, in whatever order the answers to earlier questions arrive;
    and a price is shown only when Airwallex is offered and the amount is allowed. *)
Lemma airwallex_price_current v x : previewing v -> preview_shown v = Some x ->
  wanted (pv_deps v) = true /\
  preview_amount (rate (d_currency (pv_deps v)) (math_floor (d_amount (pv_deps v)))) = Some x.
Proof. intros Hv. apply (shown_current v), previewing_right, Hv. Qed.
End Preview.

(** ** The billing history *)

Record query : Type := MkQuery { bq_page : nat; bq_size : nat; bq_keyword : jstr }.
#[export] Instance query_eq_dec : EqDecision query.
Proof. solve_decision. Defined.

(** A list under way; [ft_order] when the completion of an order asked for it. *)
Record fetch : Type := MkFetch { ft_query : query; ft_order : bool }.

(** An order that is being completed, with the query of the list when that began. *)
Record order : Type := MkOrder { or_trade : jstr; or_query : query }.

Inductive history_entry : Type :=
| HList (all : bool) (q : query)
| HComplete (trade : jstr)
| HError (message : jstr)
| HDone.

(** The answer to a list: its records and their number. *)
Record history_answer : Type := MkHistoryAnswer {
  ha_success : bool; ha_message : option jstr; ha_data : option (option (list json) * option nat)
}.

Record History : Type := MkHistory {
  hs_admin : bool; hs_records : list json; hs_total : nat; hs_query : query; hs_loading : bool; hs_completing : bool;
  hs_fetches : list fetch; hs_orders : list order; hs_log : list history_entry
}.

Definition set_list (records : list json) (total : nat) (loading : bool) (fs : list fetch) (h : History) : History :=
  MkHistory (hs_admin h) records total (hs_query h) loading (hs_completing h) fs (hs_orders h) (hs_log h).
Definition set_query (q : query) (h : History) : History :=
  MkHistory (hs_admin h) (hs_records h) (hs_total h) q (hs_loading h) (hs_completing h) (hs_fetches h) (hs_orders h) (hs_log h).
Definition set_orders (completing : bool) (os : list order) (h : History) : History :=
  MkHistory (hs_admin h) (hs_records h) (hs_total h) (hs_query h) (hs_loading h) completing (hs_fetches h) os (hs_log h).
Definition note (es : list history_entry) (h : History) : History :=
  MkHistory (hs_admin h) (hs_records h) (hs_total h) (hs_query h) (hs_loading h) (hs_completing h) (hs_fetches h) (hs_orders h)
    (hs_log h ++ es).

(** [fetchBillingHistory] made for a query, up to its await. *)
Definition fetchBillingHistory (q : query) (after_order : bool) (h : History) : History :=
  note [HList (hs_admin h) q] (set_list (hs_records h) (hs_total h) true (hs_fetches h ++ [MkFetch q after_order]) h).

Definition LOAD_FAILED : jstr := js "Failed to load billing history".
Definition COMPLETE_FAILED : jstr := js "Failed to complete order".

Definition list_answered (i : nat) (answer : option history_answer) (h : History) : History :=
  match hs_fetches h !! i with
  | None => h
  | Some f =>
      let fs := delete i (hs_fetches h) in
      let h :=
        match answer with
        | Some a =>
            match (if ha_success a then ha_data a else None) with
            | Some (items, total) => set_list (default [] items) (default 0 total) false fs h
            | None => note [HError (opt_str_or (ha_message a) LOAD_FAILED)] (set_list [] 0 false fs h)
            end
        | None => note [HError LOAD_FAILED] (set_list [] 0 false fs h)
        end in
      if ft_order f then set_orders false (hs_orders h) h else h
  end.

Definition handleCompleteOrder (tradeNo : jstr) (h : History) : History :=
  if negb (hs_admin h) then note [HError (js "Admin access required")] h
  else note [HComplete tradeNo] (set_orders true (hs_orders h ++ [MkOrder tradeNo (hs_query h)]) h).

Definition order_answered (i : nat) (answer : option (bool * option jstr)) (h : History) : History :=
  match hs_orders h !! i with
  | None => h
  | Some o =>
      let os := delete i (hs_orders h) in
      match answer with
      | Some (true, _) => fetchBillingHistory (or_query o) true (note [HDone] (set_orders (hs_completing h) os h))
      | Some (false, message) => note [HError (opt_str_or message COMPLETE_FAILED)] (set_orders false os h)
      | None => note [HError COMPLETE_FAILED] (set_orders false os h)
      end
  end.

Definition handlePageChange (newPage : nat) (h : History) : History :=
  set_query (MkQuery newPage (bq_size (hs_query h)) (bq_keyword (hs_query h))) h.
Definition handlePageSizeChange (newPageSize : nat) (h : History) : History :=
  set_query (MkQuery 1 newPageSize (bq_keyword (hs_query h))) h.
Definition handleSearch (newKeyword : jstr) (h : History) : History :=
  set_query (MkQuery 1 (bq_size (hs_query h)) newKeyword) h.

Inductive history_event : Type :=
| ToPage (n : nat) | ToPageSize (n : nat) | Search_ (keyword : jstr) | CompleteOrder (trade : jstr)
| ListAnswered (i : nat) (answer : option history_answer) | OrderAnswered (i : nat) (answer : option (bool * option jstr)).

(** An event, and the effect that fetches the list when the query has changed. *)
Definition history_step (ev : history_event) (h : History) : History :=
  let h' := match ev with
            | ToPage n => handlePageChange n h
            | ToPageSize n => handlePageSizeChange n h
            | Search_ k => handleSearch k h
            | CompleteOrder t => handleCompleteOrder t h
            | ListAnswered i a => list_answered i a h
            | OrderAnswered i a => order_answered i a h
            end in
  if hs_query h === hs_query h' then h' else fetchBillingHistory (hs_query h') false h'.

Definition open_history (admin : bool) : History :=
  let q := MkQuery 1 10 [] in
  fetchBillingHistory q false (MkHistory admin [] 0 q false false [] [] []).

Inductive history_of (admin : bool) : History -> Prop :=
| history_open : history_of admin (open_history admin)
| history_event_ ev h : history_of admin h -> history_of admin (history_step ev h).

(** Users who are no administrators ask for their own list only, and complete no
    orders. *)
Definition own_request (e : history_entry) : bool :=
  match e with HList all _ => negb all | HComplete _ => false | _ => true end.

Lemma note_own es h : forallb own_request (hs_log h) = true -> forallb own_request es = true -> forallb own_request (hs_log (note es h)) = true.
Proof. intros. cbn. by rewrite forallb_app, H, H0. Qed.

Lemma history_private h : history_of false h -> hs_admin h = false /\ hs_orders h = [] /\ forallb own_request (hs_log h) = true.
Proof.
  induction 1 as [|ev h _ (Ha & Ho & Hl)]; [done|].
  assert (H : forall h', hs_admin h' = false /\ hs_orders h' = [] /\ forallb own_request (hs_log h') = true ->
    let h2 := if hs_query h === hs_query h' then h' else fetchBillingHistory (hs_query h') false h' in
    hs_admin h2 = false /\ hs_orders h2 = [] /\ forallb own_request (hs_log h2) = true).
  { intros h' (A & O & L). cbv zeta. destruct (_ === _); [done|]. cbn. rewrite A, O, forallb_app, L. done. }
  apply H. destruct ev as [n|n|k|t|i a|i a]; cbn.
  1-3: done.
  - unfold handleCompleteOrder. rewrite Ha. cbn. by rewrite forallb_app, Hl.
  - unfold list_answered. destruct (hs_fetches h !! i) as [f|]; [|done].
    repeat case_match; cbn; rewrite ?forallb_app, ?Hl; done.
  - unfold order_answered. rewrite Ho. done.
Qed.

(** ** Redemption, rewards, Creem *)

Inductive wallet_notice : Type := Added (quota : number) | Succeeded (message : jstr) | Failed (message : jstr).

(** [redeemCode] refuses a blank code before it asks the server. *)
Definition redeem_request (code : jstr) : jstr + wallet_notice :=
  if negb (truthy code) || (trim code === []) then inr (Failed (js "Please enter a redemption code")) else inl code.

(** The answer to a code: the quota that was added. *)
Definition redeem_answered (answer : option (bool * option jstr * option number)) : wallet_notice * bool :=
  match answer with
  | Some (ok, message, data) =>
      match (if ok then data else None) with
      | Some quotaAdded => if num_truthy quotaAdded then (Added quotaAdded, true) else (Failed (opt_str_or message (js "Redemption failed")), false)
      | None => (Failed (opt_str_or message (js "Redemption failed")), false)
      end
  | None => (Failed (js "Redemption failed"), false)
  end.

(** [handleRedeem]: the field is emptied after success. *)
Definition code_after (answer : option (bool * option jstr * option number)) (redemptionCode : jstr) : jstr :=
  if (redeem_answered answer).2 then [] else redemptionCode.

Definition transferQuota (answer : option (bool * option jstr)) : wallet_notice * bool :=
  match answer with
  | Some (true, message) => (Succeeded (opt_str_or message (js "Transfer successful")), true)
  | Some (false, message) => (Failed (opt_str_or message (js "Transfer failed")), false)
  | None => (Failed (js "Transfer failed"), false)
  end.

Definition generateAffiliateLink (origin affCode : jstr) : jstr := origin ++ js "/register?aff=" ++ affCode.

Definition creem_result (answer : option ApiResponse) : list wallet_entry * bool :=
  match answer with
  | Some r =>
      match (if isApiSuccess r then link_in (js "checkout_url") (rs_data r) else None) with
      | Some u => ([LOpen u; LRedirecting], true)
      | None => ([LError (opt_str_or (rs_message r) FAILED)], false)
      end
  | None => ([LError FAILED], false)
  end.

(** ** Automatic top-ups *)

Definition QUOTA_PER_USD : Z := 100000.
Definition PRESETS_USD : list number := List.map num_of_Z [5; 10; 20; 100; 1000]%Z.
Definition DEFAULT_USD : number := num_of_Z 10.

Record UserWalletData : Type := MkUserWallet {
  uw_stripe_customer : option jstr; uw_auto_enabled : option bool; uw_auto_amount : option number
}.

Record AutoTopup : Type := MkAuto { at_enabled : bool; at_usd : number }.

(** The state of the card when it is mounted; later users do not change it. *)
Definition mount_auto (user : option UserWalletData) : AutoTopup :=
  let initUsd := match user ≫= uw_auto_amount with
                 | Some a => if num_truthy a then math_round (ndiv a (num_of_Z QUOTA_PER_USD)) else DEFAULT_USD
                 | None => DEFAULT_USD
                 end in
  MkAuto (default true (user ≫= uw_auto_enabled)) (if mem initUsd PRESETS_USD then initUsd else DEFAULT_USD).

(** What saving sends: enabled, amount and threshold. *)
Definition save_auto (a : AutoTopup) : bool * number * number :=
  let amountQuota := nmul (at_usd a) (num_of_Z QUOTA_PER_USD) in (at_enabled a, amountQuota, amountQuota).
Definition choose_usd (usd : number) (a : AutoTopup) : AutoTopup := if at_enabled a then MkAuto (at_enabled a) usd else a.
Definition toggle_auto (b : bool) (a : AutoTopup) : AutoTopup := MkAuto b (at_usd a).

(** The prompt after the first payment with a card. *)
Definition offer_auto (seen : bool) (user : option UserWalletData) : bool :=
  match user with
  | Some u => truthy (default [] (uw_stripe_customer u)) && negb (default false (uw_auto_enabled u)) && negb seen
  | None => false
  end.

(** A stored amount that is one of the presets is saved again as it was. *)
Lemma auto_resaved u usd : usd ∈ [5; 10; 20; 100; 1000]%Z -> uw_auto_amount u = Some (num_of_Z (usd * QUOTA_PER_USD)) ->
  uw_auto_enabled u <> None ->
  save_auto (mount_auto (Some u)) = (default true (uw_auto_enabled u), num_of_Z (usd * QUOTA_PER_USD), num_of_Z (usd * QUOTA_PER_USD)).
Proof.
  destruct u as [card [b|] amount]; cbn [uw_auto_amount uw_auto_enabled]; [|done]. intros H -> _.
  set_unfold in H. destruct H as [->|[->|[->|[->|[->|[]]]]]]; destruct b; vm_compute; reflexivity.
Qed.

(** ** Examples *)

Definition json_field (k : jstr) (v : json) : jstr * json := (k, v).
Definition alipay_and_stripe : json :=
  JArr [JObj [json_field (js "name") (JStr (js "Alipay")); json_field (js "type") (JStr (js "alipay")); json_field (js "icon") (JStr (js "/a.svg"))];
        JObj [json_field (js "name") (JStr (js "Stripe")); json_field (js "type") (JStr (js "stripe"))]].
Definition settings_with (minTopup : Z) (amounts : option json) : TopupData :=
  MkData true true (num_of_Z minTopup) (num_of_Z 5) true None false None false None
    (Some alipay_and_stripe) amounts None None (Some (JArr [JObj [json_field (js "name") (JStr (js "Card"))]])).

(** A server whose price is the amount itself. *)
Definition answer_text (s : jstr) : option ApiResponse := Some (MkResponse (Some true) None (Some (JStr s)) None).
Definition same_price (e : endpoint) (amount : number) : option ApiResponse := answer_text (num_to_str amount).
Definition steps (evs : list page_event) : Page := foldl (fun p ev => page_step (fun _ => None) [] false ev p) new_page evs.

Lemma reachable_steps evs : page_reachable (fun _ => None) [] false (steps evs).
Proof.
  induction evs as [|ev evs IH] using rev_ind; [constructor|]. unfold steps. rewrite foldl_app. by apply reach_step.
Qed.

Lemma steps_snoc evs ev : steps (evs ++ [ev]) = page_step (fun _ => None) [] false ev (steps evs).
Proof. unfold steps. by rewrite foldl_app. Qed.

Definition loaded_events : list page_event := [InfoAnswered (Some (settings_with 1 None))] ++ [QuoteAnswered 0 (answer_text (js "1"))].
Definition typed_events : list page_event := (loaded_events ++ [TypeAmount (js "20")]) ++ [QuoteAnswered 0 (answer_text (js "20"))].
Definition dialog_events : list page_event := (typed_events ++ [SelectMethod 1]) ++ [QuoteAnswered 0 (answer_text (js "20"))].

Lemma one_payment_at_a_time_witness :
  let p := steps (dialog_events ++ [Confirm]) in
  w_payments p = [PayStripe (num_of_Z 20)] /\ handle_event (fun _ => None) [] false Confirm p = p.
Proof.
  cbv zeta. split; [vm_compute; reflexivity|].
  destruct (one_payment_at_a_time (fun _ => None) [] false _ (reachable_steps (dialog_events ++ [Confirm]))) as (_ & _ & _ & H & _).
  apply H. vm_compute. reflexivity.
Defined.

Abbreviation orderly_here := (orderly (fun _ => None) [] false same_price).

Lemma orderly_answer evs q qs a : orderly_here (steps evs) -> w_quotes (steps evs) = q :: qs ->
  a = same_price (amount_endpoint (qt_type q)) (qt_amount q) -> orderly_here (steps (evs ++ [QuoteAnswered 0 a])).
Proof. intros H E ->. rewrite steps_snoc. exact (orderly_quote _ _ _ same_price _ _ _ H E). Qed.

Lemma orderly_input evs ev : orderly_here (steps evs) -> match ev with QuoteAnswered _ _ => False | _ => True end ->
  neqb (w_topupAmount (handle_event (fun _ => None) [] false ev (steps evs))) zero &&
  (w_topupAmount (handle_event (fun _ => None) [] false ev (steps evs)) !== w_topupAmount (steps evs)) = false ->
  orderly_here (steps (evs ++ [ev])).
Proof.
  intros H Hev E. rewrite steps_snoc. apply orderly_event; [done..|]. intros Ez. rewrite Ez, andb_true_l in E.
  apply negb_false_iff in E. rewrite js_eqb_true in E. exact E.
Qed.

Lemma orderly_dialog : orderly_here (steps dialog_events).
Proof.
  eapply orderly_answer; [|vm_compute; reflexivity..]. apply orderly_input; [|done|vm_compute; reflexivity].
  eapply orderly_answer; [|vm_compute; reflexivity..]. apply orderly_input; [|done|vm_compute; reflexivity].
  eapply orderly_answer; [|vm_compute; reflexivity..]. apply (orderly_input []); [constructor|done|vm_compute; reflexivity].
Qed.

Lemma dialog_price_current_witness :
  let p := steps dialog_events in
  w_confirm p = true /\ w_quotes p = [] /\ w_amount p = num_of_Z 20 /\
  w_amount p = price_for same_price (getCurrentPaymentType p) (w_topupAmount p).
Proof.
  cbv zeta. assert (Hc : w_confirm (steps dialog_events) = true) by (vm_compute; reflexivity).
  assert (Hq : w_quotes (steps dialog_events) = []) by (vm_compute; reflexivity).
  split; [done|]. split; [done|]. split; [vm_compute; reflexivity|].
  exact (proj1 (dialog_price_current (fun _ => None) [] false same_price _ orderly_dialog Hc Hq)).
Defined.

Definition aud (amount : Z) : deps := MkDeps true true false (js "AUD") (num_of_Z amount).
Definition same_rate (c : jstr) (amount : number) : option ApiResponse := answer_text (num_to_str amount).

(** The answer for the earlier amount arrives last. *)
Definition late_preview : Preview :=
  preview_answered 0 (same_rate (js "AUD") (num_of_Z 10))
    (preview_answered 1 (same_rate (js "AUD") (num_of_Z 20)) (preview_changed (aud 20) (mount_preview (aud 10)))).

Lemma airwallex_price_current_witness :
  preview_shown late_preview = Some (num_of_Z 20) /\ wanted (pv_deps late_preview) = true /\
  preview_amount (same_rate (d_currency (pv_deps late_preview)) (math_floor (d_amount (pv_deps late_preview)))) = Some (num_of_Z 20).
Proof.
  assert (Hs : preview_shown late_preview = Some (num_of_Z 20)) by (vm_compute; reflexivity). split; [exact Hs|].
  apply (airwallex_price_current same_rate late_preview (num_of_Z 20)); [|exact Hs].
  apply (previewing_answer same_rate 0 (MkProbe (num_of_Z 10) (js "AUD") true)); [|vm_compute; reflexivity].
  apply (previewing_answer same_rate 1 (MkProbe (num_of_Z 20) (js "AUD") false)); [|vm_compute; reflexivity].
  apply previewing_change, previewing_mount.
Defined.

(** A price that is answered late is shown in the dialog of another amount. *)
Lemma late_price_shown :
  let p := steps [InfoAnswered (Some (settings_with 1 None)); QuoteAnswered 0 (answer_text (js "1"));
                  TypeAmount (js "100"); TypeAmount (js "10"); SelectMethod 0; QuoteAnswered 2 (answer_text (js "10"));
                  QuoteAnswered 1 (answer_text (js "10")); QuoteAnswered 0 (answer_text (js "100"))] in
  w_confirm p = true /\ w_quotes p = [] /\ w_amount p = num_of_Z 100 /\
  w_payments (page_step (fun _ => None) [] false Confirm p) = [PayOnline (num_of_Z 10) (js "alipay")].
Proof. vm_compute. auto. Qed.

(** The amount can be changed after the check of the minimum. *)
Lemma below_minimum_paid :
  let p := steps [InfoAnswered (Some (settings_with 5 None)); QuoteAnswered 0 (answer_text (js "5")); SelectMethod 0;
                  TypeAmount (js "1"); QuoteAnswered 0 (answer_text (js "5")); QuoteAnswered 0 (answer_text (js "1")); Confirm] in
  w_payments p = [PayOnline (num_of_Z 1) (js "alipay")] /\ nltb (num_of_Z 1) (getMinTopupAmount (w_info p)) = true.
Proof. vm_compute. auto. Qed.

(** Emptying the amount shows the price of the default method, not of the chosen one. *)
Lemma cleared_amount_other_method :
  let p := steps [InfoAnswered (Some (settings_with 5 None)); QuoteAnswered 0 (answer_text (js "5")); SelectMethod 1;
                  QuoteAnswered 0 (answer_text (js "6")); Dismiss; TypeAmount []] in
  getCurrentPaymentType p = STRIPE /\ w_topupAmount p = num_of_Z 5 /\
  last (w_log p) = Some (LQuote EOnline (num_of_Z 5)).
Proof. vm_compute. auto. Qed.

(** A method's own minimum can be below the minimum of the page; choosing it then does
    nothing. *)
Lemma small_amount_ignored :
  let p := steps [InfoAnswered (Some (settings_with 5 None)); QuoteAnswered 0 (answer_text (js "5")); TypeAmount (js "1");
                  QuoteAnswered 0 (answer_text (js "1"))] in
  forallb (fun m => negb (method_enabled m p)) (ti_pay_methods (default (MkTopup (settings_with 0 None) [] [] ∅ [] []) (w_info p))) = false /\
  w_log (page_step (fun _ => None) [] false (SelectMethod 0) p) = w_log p /\
  w_confirm (page_step (fun _ => None) [] false (SelectMethod 0) p) = false.
Proof. vm_compute. auto. Qed.

(** A fraction is priced as it is and paid rounded down. *)
Lemma fraction_priced :
  let p := steps [InfoAnswered (Some (settings_with 1 (Some (JArr [JNum (Number (js "20.5"))])))); QuoteAnswered 0 (answer_text (js "1"));
                  SelectPreset 0; QuoteAnswered 0 (answer_text (js "20.5")); SelectMethod 0;
                  QuoteAnswered 0 (answer_text (js "20.5")); Confirm] in
  drop 2 (w_log p) = [LQuote EOnline (Number (js "20.5")); LPay (PayOnline (num_of_Z 20) (js "alipay"))].
Proof. vm_compute. auto. Qed.

(** A payment that was accepted without a link ends without a message. *)
Lemma accepted_without_link : payment_result (fun _ => None) [] (PayStripe (num_of_Z 5)) (answer_text []) = ([], false).
Proof. vm_compute. auto. Qed.

(** The icons of the methods are not kept. *)
Lemma icon_lost : List.map pm_icon (try_catch (parsePaymentMethods (Some alipay_and_stripe) (num_of_Z 5)) []) = [None; None].
Proof. vm_compute. auto. Qed.

(** An amount below the minimum while a price is under way leaves the preview loading. *)
Lemma preview_stays_loading :
  let v := preview_changed (MkDeps true true true (js "AUD") (num_of_Z 1)) (mount_preview (aud 10)) in
  pv_loading (preview_answered 0 (same_rate (js "AUD") (num_of_Z 10)) v) = true /\
  pv_probes (preview_answered 0 (same_rate (js "AUD") (num_of_Z 10)) v) = [].
Proof. vm_compute. auto. Qed.

Definition page_of (s : jstr) : option history_answer := Some (MkHistoryAnswer true None (Some (Some [JStr s], Some 30))).
Definition browse (admin : bool) (evs : list history_event) : History := foldl (fun h ev => history_step ev h) (open_history admin) evs.

(** The records of an earlier page that arrive late are shown for the present one. *)
Lemma late_page_shown :
  let h := browse false [ToPage 2; ListAnswered 1 (page_of (js "second")); ListAnswered 0 (page_of (js "first"))] in
  hs_fetches h = [] /\ bq_page (hs_query h) = 2 /\ hs_records h = [JStr (js "first")].
Proof. vm_compute. auto. Qed.

(** The list that is fetched after an order was completed is the one of the page on
    which that began. *)
Lemma order_refreshes_old_page :
  let h := browse true [ListAnswered 0 (page_of (js "first")); CompleteOrder (js "T1"); ToPage 2;
                        ListAnswered 0 (page_of (js "second")); OrderAnswered 0 (Some (true, None)); ListAnswered 0 (page_of (js "first"))] in
  hs_fetches h = [] /\ bq_page (hs_query h) = 2 /\ hs_records h = [JStr (js "first")].
Proof. vm_compute. auto. Qed.

(** The card of automatic top-ups is mounted before the user is known, and saving it
    turns them on. *)
Lemma auto_settings_not_shown :
  let u := MkUserWallet (Some (js "cus_1")) (Some false) (Some (num_of_Z (100 * QUOTA_PER_USD))) in
  save_auto (mount_auto None) = (true, num_of_Z 1000000, num_of_Z 1000000) /\
  save_auto (mount_auto (Some u)) = (false, num_of_Z 10000000, num_of_Z 10000000).
Proof. vm_compute. auto. Qed.
