(* ===== verification/AdminForms.v ===== *)
(** * The forms of users, redemption codes and subscription plans

    [features/users/lib/user-form.ts], [features/redemption-codes/lib] and
    [features/subscriptions/lib]: what a form shows of a stored record and what it sends
    back; the drawers around them (users-mutate-drawer.tsx,
    redemptions-mutate-drawer.tsx, subscriptions-mutate-drawer.tsx), which fetch the
    record when they are opened; and the dialog that adjusts a quota
    (user-quota-dialog.tsx).

    A date is its time value in milliseconds; the present time is an argument. *)
From S2P Require Import Prelude Numbers Exact Json Currency ApiKeys.
Local Open Scope js_scope.

(** ** Users *)

Record User : Type := MkUser {
  us_username : jstr; us_display_name : jstr; us_role : number; us_quota : number; us_group : jstr; us_remark : option jstr;
  us_kids_mode : option bool; us_policy_profile : option jstr; us_billing_webhook_url : option jstr;
  us_custom_pricing_id : option jstr; us_webhook_secret : option jstr;
  us_auto_topup_enabled : option bool; us_auto_topup_threshold : option number; us_auto_topup_amount : option number
}.

Record UserFormValues : Type := MkUserForm {
  uf_username : jstr; uf_display_name : option jstr; uf_password : option jstr; uf_role : option number;
  uf_quota_dollars : option number; uf_group : option jstr; uf_remark : option jstr;
  uf_kids_mode : option bool; uf_policy_profile : option jstr; uf_billing_webhook_url : option jstr;
  uf_custom_pricing_id : option jstr; uf_webhook_secret : option jstr;
  uf_auto_topup_enabled : option bool; uf_auto_topup_threshold : option number; uf_auto_topup_amount : option number
}.

Definition USER_GROUP : jstr := js "default".
Definition PASSTHROUGH : jstr := js "passthrough".

Definition USER_FORM_DEFAULT_VALUES : UserFormValues :=
  MkUserForm [] (Some []) (Some []) (Some (num_of_Z 1)) (Some zero) (Some USER_GROUP) (Some []) (Some false)
    (Some PASSTHROUGH) (Some []) (Some []) (Some []) (Some false) (Some zero) (Some zero).

(** What only an update sends. *)
Record UserUpdate : Type := MkUserUpdate {
  uu_id : number; uu_group : option jstr; uu_remark : option jstr; uu_kids_mode : bool; uu_policy_profile : jstr;
  uu_billing_webhook_url : jstr; uu_custom_pricing_id : jstr; uu_webhook_secret : jstr;
  uu_auto_topup_enabled : bool; uu_auto_topup_threshold : number; uu_auto_topup_amount : number
}.
Record UserPayload : Type := MkUserPayload {
  up_username : jstr; up_display_name : jstr; up_password : option jstr; up_rest : number + UserUpdate
}.

Definition transformUserForm (data : UserFormValues) (userId : option number) : UserPayload :=
  MkUserPayload (uf_username data) (opt_str_or (uf_display_name data) (uf_username data)) (or_undefined (uf_password data))
    (match userId with
     | None => inl (match uf_role data with Some r => num_or r (num_of_Z 1) | None => num_of_Z 1 end)
     | Some id =>
         inr (MkUserUpdate id (uf_group data) (or_undefined (uf_remark data)) (default false (uf_kids_mode data))
                (opt_str_or (uf_policy_profile data) PASSTHROUGH) (opt_str_or (uf_billing_webhook_url data) [])
                (opt_str_or (uf_custom_pricing_id data) []) (opt_str_or (uf_webhook_secret data) [])
                (default false (uf_auto_topup_enabled data)) (default zero (uf_auto_topup_threshold data))
                (default zero (uf_auto_topup_amount data)))
     end).

Definition PROFILES : list jstr := [js "kid-safe"; js "adult"; PASSTHROUGH].

Definition transformUserToFormDefaults (store : option StoredCurrency) (user : User) : UserFormValues :=
  let normalisedProfile := match us_policy_profile user with Some p => if mem p PROFILES then p else PASSTHROUGH | None => PASSTHROUGH end in
  MkUserForm (us_username user) (Some (us_display_name user)) (Some []) (Some (us_role user))
    (Some (quotaUnitsToDollars store (us_quota user))) (Some (str_or (us_group user) USER_GROUP))
    (Some (opt_str_or (us_remark user) [])) (Some (default false (us_kids_mode user))) (Some normalisedProfile)
    (Some (opt_str_or (us_billing_webhook_url user) [])) (Some (opt_str_or (us_custom_pricing_id user) []))
    (Some (opt_str_or (us_webhook_secret user) [])) (Some (default false (us_auto_topup_enabled user)))
    (Some (default zero (us_auto_topup_threshold user))) (Some (default zero (us_auto_topup_amount user))).

(** [onSubmit] refuses a new user whose password has the wrong length. *)
Definition password_ok (isUpdate : bool) (data : UserFormValues) : bool :=
  isUpdate || (let n := length (opt_str_or (uf_password data) []) in negb ((n <? 8)%nat || (20 <? n)%nat)).

(** ** The quota dialog *)

Inductive QuotaAdjustMode : Type := add | subtract | override.
#[export] Instance QuotaAdjustMode_eq_dec : EqDecision QuotaAdjustMode.
Proof. solve_decision. Defined.

Definition amount_value (amount : jstr) : number := num_or (parseFloat amount) zero.

(** The request a confirmation makes, if any: the mode and the value. *)
Definition adjust_request (store : option StoredCurrency) (mode : QuotaAdjustMode) (amount : jstr) : option (QuotaAdjustMode * number) :=
  let quotaValue := parseQuotaFromDollars store (nabs (amount_value amount)) in
  if negb (truthy amount) && (mode !== override) then None
  else if nleb quotaValue zero && (mode !== override) then None
  else Some (mode, if mode === override then parseQuotaFromDollars store (amount_value amount) else nabs quotaValue).

(** The quota the preview announces. *)
Definition preview_quota (store : option StoredCurrency) (current : number) (mode : QuotaAdjustMode) (amount : jstr) : number :=
  let val := parseQuotaFromDollars store (nabs (amount_value amount)) in
  match mode with
  | add => nadd current val
  | subtract => nsub current val
  | override => parseQuotaFromDollars store (amount_value amount)
  end.

(** What the server does with a request (controller ManageUser: add, subtract,
    override), on the quota the preview starts from. *)
Definition adjusted (current : number) (request : QuotaAdjustMode * number) : number :=
  match request.1 with add => nadd current request.2 | subtract => nsub current request.2 | override => request.2 end.

(** ** Redemption codes *)

Record Redemption : Type := MkRedemption { rd_name : jstr; rd_quota : number; rd_expired_time : number }.
Record RedemptionFormValues : Type := MkRedemptionForm {
  rf_name : jstr; rf_quota_dollars : number; rf_expired_time : option number; rf_count : option number
}.
Record RedemptionFormData : Type := MkRedemptionData { rp_name : jstr; rp_quota : number; rp_expired_time : number; rp_count : number }.

Definition REDEMPTION_FORM_DEFAULT_VALUES : RedemptionFormValues := MkRedemptionForm [] (num_of_Z 10) None (Some (num_of_Z 1)).

Definition transformRedemptionForm (store : option StoredCurrency) (data : RedemptionFormValues) : RedemptionFormData :=
  MkRedemptionData (rf_name data) (parseQuotaFromDollars store (rf_quota_dollars data))
    (match rf_expired_time data with Some t => math_floor (ndiv t (num_of_Z 1000)) | None => zero end)
    (match rf_count data with Some c => num_or c (num_of_Z 1) | None => num_of_Z 1 end).

Definition transformRedemptionToFormDefaults (store : option StoredCurrency) (r : Redemption) : RedemptionFormValues :=
  MkRedemptionForm (rd_name r) (quotaUnitsToDollars store (rd_quota r))
    (if nltb zero (rd_expired_time r) then Some (time_clip (nmul (rd_expired_time r) (num_of_Z 1000))) else None)
    (Some (num_of_Z 1)).

(** The check of the form: the length of the name, the quota and the count. *)
Definition redemption_valid (data : RedemptionFormValues) : bool :=
  let n := length (rf_name data) in
  (1 <=? n)%nat && (n <=? 20)%nat && nleb zero (rf_quota_dollars data)
  && match rf_count data with Some c => nleb (num_of_Z 1) c && nleb c (num_of_Z 100) | None => true end.

(** [now] is [Date.now()]. *)
Definition isTimestampExpired (now timestamp : number) : bool :=
  if neqb timestamp zero then false else nltb timestamp (ndiv now (num_of_Z 1000)).
Definition isRedemptionExpired (now expired_time : number) (status : number) : bool :=
  neqb status (num_of_Z 1) && isTimestampExpired now expired_time.

(** ** Subscription plans *)

Record SubscriptionPlan : Type := MkPlan {
  sp_title : jstr; sp_subtitle : option jstr; sp_price_amount : number; sp_currency : jstr; sp_duration_unit : jstr;
  sp_duration_value : number; sp_custom_seconds : option number; sp_quota_reset_period : jstr;
  sp_quota_reset_custom_seconds : option number; sp_enabled : bool; sp_sort_order : number;
  sp_max_purchase_per_user : number; sp_total_amount : number; sp_upgrade_group : option jstr;
  sp_stripe_price_id : option jstr; sp_creem_product_id : option jstr
}.

Record PlanFormValues : Type := MkPlanForm {
  pf_title : jstr; pf_subtitle : option jstr; pf_price_amount : number; pf_duration_unit : jstr; pf_duration_value : number;
  pf_custom_seconds : option number; pf_quota_reset_period : jstr; pf_quota_reset_custom_seconds : option number;
  pf_enabled : bool; pf_sort_order : number; pf_max_purchase_per_user : number; pf_total_amount : number;
  pf_upgrade_group : option jstr; pf_stripe_price_id : option jstr; pf_creem_product_id : option jstr
}.

Definition PLAN_FORM_DEFAULTS : PlanFormValues :=
  MkPlanForm [] (Some []) zero (js "month") (num_of_Z 1) (Some zero) (js "never") (Some zero) true zero zero zero
    (Some []) (Some []) (Some []).

(** [Number(x || d)] on a number that may be missing. *)
Definition number_else (x : option number) (d : number) : number := match x with Some v => num_or v d | None => d end.

Definition planToFormValues (plan : SubscriptionPlan) : PlanFormValues :=
  MkPlanForm (sp_title plan) (Some (opt_str_or (sp_subtitle plan) [])) (num_or (sp_price_amount plan) zero)
    (str_or (sp_duration_unit plan) (js "month")) (num_or (sp_duration_value plan) (num_of_Z 1))
    (Some (number_else (sp_custom_seconds plan) zero)) (str_or (sp_quota_reset_period plan) (js "never"))
    (Some (number_else (sp_quota_reset_custom_seconds plan) zero)) (sp_enabled plan) (num_or (sp_sort_order plan) zero)
    (num_or (sp_max_purchase_per_user plan) zero) (num_or (sp_total_amount plan) zero)
    (Some (opt_str_or (sp_upgrade_group plan) [])) (Some (opt_str_or (sp_stripe_price_id plan) []))
    (Some (opt_str_or (sp_creem_product_id plan) [])).

Definition formValuesToPlanPayload (values : PlanFormValues) : SubscriptionPlan :=
  MkPlan (pf_title values) (pf_subtitle values) (num_or (pf_price_amount values) zero) (js "USD") (pf_duration_unit values)
    (num_or (pf_duration_value values) zero) (Some (number_else (pf_custom_seconds values) zero))
    (str_or (pf_quota_reset_period values) (js "never"))
    (Some (if pf_quota_reset_period values === js "custom" then number_else (pf_quota_reset_custom_seconds values) zero else zero))
    (pf_enabled values) (num_or (pf_sort_order values) zero) (num_or (pf_max_purchase_per_user values) zero)
    (num_or (pf_total_amount values) zero) (Some (opt_str_or (pf_upgrade_group values) []))
    (pf_stripe_price_id values) (pf_creem_product_id values).

(** [`${Math.floor(seconds / size)} ${t(unit)}`] for the first size that is reached. *)
Fixpoint seconds_in (t : jstr -> jstr) (sizes : list (Z * jstr)) (seconds : number) : jstr :=
  match sizes with
  | (size, unit_) :: rest =>
      if nleb (num_of_Z size) seconds then num_to_str (math_floor (ndiv seconds (num_of_Z size))) ++ js " " ++ t unit_
      else seconds_in t rest seconds
  | [] => num_to_str seconds ++ js " " ++ t (js "seconds")
  end.

Definition DURATION_UNITS : list (jstr * jstr) :=
  [(js "year", js "years"); (js "month", js "months"); (js "day", js "days"); (js "hour", js "hours"); (js "custom", js "Custom (seconds)")].
Definition RESET_PERIODS : list (jstr * jstr) :=
  [(js "never", js "No Reset"); (js "daily", js "Daily"); (js "weekly", js "Weekly"); (js "monthly", js "Monthly"); (js "custom", js "Custom (seconds)")].

Definition formatPlanDuration (t : jstr -> jstr) (plan : SubscriptionPlan) : jstr :=
  let unit_ := str_or (sp_duration_unit plan) (js "month") in
  let value := num_or (sp_duration_value plan) (num_of_Z 1) in
  if unit_ === js "custom"
  then seconds_in t [(86400, js "days"); (3600, js "hours")]%Z (number_else (sp_custom_seconds plan) zero)
  else num_to_str value ++ js " " ++ match obj_get unit_ DURATION_UNITS with Some l => str_or (t l) unit_ | None => unit_ end.

Definition formatResetPeriod (t : jstr -> jstr) (plan : SubscriptionPlan) : jstr :=
  let period := str_or (sp_quota_reset_period plan) (js "never") in
  if period === js "daily" then t (js "Daily")
  else if period === js "weekly" then t (js "Weekly")
  else if period === js "monthly" then t (js "Monthly")
  else if period === js "custom"
  then seconds_in t [(86400, js "days"); (3600, js "hours"); (60, js "minutes")]%Z (number_else (sp_quota_reset_custom_seconds plan) zero)
  else t (js "No Reset").

(** ** The drawers *)

(** A drawer that fetches the record it is opened for. *)
Section Drawer.
Context {row values : Type} (to_form : row -> values) (defaults : values).

(** [fd_target]: closed, open for a new record, or open for the record of an id;
    [fd_reset]: the values [form.reset()] goes back to. *)
Record FetchDrawer : Type := MkFetchDrawer {
  fd_target : option (option number); fd_values : values; fd_reset : values; fd_fetches : list number;
  fd_sent : list (option number * values)
}.

Definition closed_drawer : FetchDrawer := MkFetchDrawer None defaults defaults [] [].

Inductive fetch_event : Type :=
| OpenFor (target : option number)
| RowAnswered (i : nat) (answer : option row)
| EditValues (v : values)
| CloseDrawer
| SubmitDrawer
| SubmitAccepted.

Definition fetch_step (ev : fetch_event) (d : FetchDrawer) : FetchDrawer :=
  match ev with
  | OpenFor (Some id) => MkFetchDrawer (Some (Some id)) (fd_values d) (fd_reset d) (fd_fetches d ++ [id]) (fd_sent d)
  | OpenFor None => MkFetchDrawer (Some None) defaults defaults (fd_fetches d) (fd_sent d)
  | RowAnswered i answer =>
      match fd_fetches d !! i with
      | None => d
      | Some _ =>
          let fs := delete i (fd_fetches d) in
          match answer with
          | Some r => MkFetchDrawer (fd_target d) (to_form r) (to_form r) fs (fd_sent d)
          | None => MkFetchDrawer (fd_target d) (fd_values d) (fd_reset d) fs (fd_sent d)
          end
      end
  | EditValues v => match fd_target d with Some _ => MkFetchDrawer (fd_target d) v (fd_reset d) (fd_fetches d) (fd_sent d) | None => d end
  | CloseDrawer => MkFetchDrawer None (fd_reset d) (fd_reset d) (fd_fetches d) (fd_sent d)
  | SubmitDrawer =>
      match fd_target d with
      | Some target => MkFetchDrawer (fd_target d) (fd_values d) (fd_reset d) (fd_fetches d) (fd_sent d ++ [(target, fd_values d)])
      | None => d
      end
  | SubmitAccepted => MkFetchDrawer None (fd_values d) (fd_reset d) (fd_fetches d) (fd_sent d)
  end.

Definition run_drawer (evs : list fetch_event) (d : FetchDrawer) : FetchDrawer := foldl (fun d ev => fetch_step ev d) d evs.

(** When nothing is under way, a record that is opened and has arrived is what is sent
    under its id. *)
Lemma opened_record_sent d id r : fd_fetches d = [] ->
  fd_sent (run_drawer [OpenFor (Some id); RowAnswered 0 (Some r); SubmitDrawer] d) = fd_sent d ++ [(Some id, to_form r)].
Proof. intros E. cbn. by rewrite E. Qed.

(** The values of the record before are sent under the id of one that has not arrived,
    or that could not be fetched. *)
Lemma previous_record_sent r id id' (failed : bool) :
  let d := run_drawer [OpenFor (Some id); RowAnswered 0 (Some r); CloseDrawer; OpenFor (Some id')] closed_drawer in
  fd_sent (run_drawer ((if failed then [RowAnswered 0 None] else []) ++ [SubmitDrawer]) d) = [(Some id', to_form r)].
Proof. by destruct failed. Qed.

(** A record that arrives late fills the form of a new one. *)
Lemma late_record_fills_new r id : fd_sent (run_drawer [OpenFor (Some id); CloseDrawer; OpenFor None; RowAnswered 0 (Some r); SubmitDrawer] closed_drawer) = [(None, to_form r)].
Proof. done. Qed.
End Drawer.

(** ** Records that are opened and saved *)

Section store.
Context (store : option StoredCurrency).

(** A user who is opened and saved without changes keeps every field the update
    writes, no new password is set, and neither role nor quota are sent. *)
Lemma user_resaved u id : us_display_name u <> [] -> us_group u <> [] ->
  (forall p, us_policy_profile u = Some p -> p ∈ PROFILES) ->
  transformUserForm (transformUserToFormDefaults store u) (Some id) =
  MkUserPayload (us_username u) (us_display_name u) None
    (inr (MkUserUpdate id (Some (us_group u)) (or_undefined (us_remark u)) (default false (us_kids_mode u))
       (default PASSTHROUGH (us_policy_profile u)) (default [] (us_billing_webhook_url u)) (default [] (us_custom_pricing_id u))
       (default [] (us_webhook_secret u)) (default false (us_auto_topup_enabled u)) (default zero (us_auto_topup_threshold u))
       (default zero (us_auto_topup_amount u)))).
Proof.
  intros Hd Hg Hp. unfold transformUserForm, transformUserToFormDefaults.
  cbn [uf_username uf_display_name uf_password uf_role uf_quota_dollars uf_group uf_remark uf_kids_mode uf_policy_profile
       uf_billing_webhook_url uf_custom_pricing_id uf_webhook_secret uf_auto_topup_enabled uf_auto_topup_threshold uf_auto_topup_amount].
  assert (Hs : forall s : option jstr, opt_str_or (Some (opt_str_or s [])) [] = default [] s) by (by intros [[|]|]).
  rewrite !Hs. f_equal; [by destruct (us_display_name u)|].
  do 2 f_equal; [by destruct (us_group u)|by destruct (us_remark u) as [[|]|]|].
  destruct (us_policy_profile u) as [p|] eqn:E; [|done]. specialize (Hp p eq_refl).
  rewrite (proj2 (mem_true _ _) Hp). cbn. unfold PROFILES in Hp. by destruct p; [set_unfold in Hp; naive_solver|].
Qed.

(** A code that is opened and saved keeps its name and its expiry. *)
Lemma redemption_resaved r : rd_expired_time r = zero \/ (exists t, rd_expired_time r = num_of_Z t /\ seconds_ok t) ->
  transformRedemptionForm store (transformRedemptionToFormDefaults store r) =
  MkRedemptionData (rd_name r) (parseQuotaFromDollars store (quotaUnitsToDollars store (rd_quota r))) (rd_expired_time r) (num_of_Z 1).
Proof.
  intros H. unfold transformRedemptionForm, transformRedemptionToFormDefaults. cbn [rf_name rf_quota_dollars rf_expired_time rf_count].
  f_equal. destruct H as [->|(t & -> & Ht)]; [done|]. unfold seconds_ok in Ht. change zero with (num_of_Z 0).
  rewrite nltb_exact, (proj2 (Z.ltb_lt _ _)) by (unfold small_abs; lia). by apply seconds_roundtrip.
Qed.
End store.

(** A plan that the form has saved once is kept by every further saving. *)
Lemma num_or_twice x d : num_or (num_or x d) d = num_or x d.
Proof. unfold num_or. destruct (num_truthy x) eqn:E; [by rewrite E|]. by destruct (num_truthy d). Qed.

Lemma plan_resaved p : sp_duration_unit p <> [] -> num_truthy (sp_duration_value p) = true -> sp_quota_reset_period p <> [] ->
  let saved := formValuesToPlanPayload (planToFormValues p) in
  formValuesToPlanPayload (planToFormValues saved) = saved /\
  sp_title saved = sp_title p /\ sp_duration_unit saved = sp_duration_unit p /\ sp_duration_value saved = sp_duration_value p /\
  sp_quota_reset_period saved = sp_quota_reset_period p /\ sp_enabled saved = sp_enabled p /\
  sp_price_amount saved = num_or (sp_price_amount p) zero /\ sp_currency saved = js "USD".
Proof.
  intros Hu Hv Hr. cbv zeta. unfold formValuesToPlanPayload, planToFormValues.
  cbn [pf_title pf_subtitle pf_price_amount pf_duration_unit pf_duration_value pf_custom_seconds pf_quota_reset_period
       pf_quota_reset_custom_seconds pf_enabled pf_sort_order pf_max_purchase_per_user pf_total_amount pf_upgrade_group
       pf_stripe_price_id pf_creem_product_id sp_title sp_subtitle sp_price_amount sp_currency sp_duration_unit sp_duration_value
       sp_custom_seconds sp_quota_reset_period sp_quota_reset_custom_seconds sp_enabled sp_sort_order sp_max_purchase_per_user
       sp_total_amount sp_upgrade_group sp_stripe_price_id sp_creem_product_id number_else].
  assert (Hs : forall s : option jstr, opt_str_or (Some (opt_str_or s [])) [] = opt_str_or s []) by (by intros [[|]|]).
  assert (Ht : forall s d : jstr, s <> [] -> str_or s d = s) by (by intros [|]).
  rewrite !Hs, !num_or_twice, !(Ht (sp_duration_unit p)), !(Ht (sp_quota_reset_period p)) by done.
  assert (Hd : forall d, num_or (sp_duration_value p) d = sp_duration_value p) by (intros d; unfold num_or; by rewrite Hv).
  rewrite !Hd. repeat split.
  assert (Hn : forall x, num_or (number_else x zero) zero = number_else x zero) by (intros [x|]; [apply num_or_twice|done]).
  rewrite ?Hn. destruct (_ === _); [by rewrite ?Hn|done].
Qed.

(** ** Examples *)

Definition a_user : User :=
  MkUser (js "ada") (js "Ada") (num_of_Z 10) (num_of_Z 500000) (js "vip") (Some (js "first")) (Some true) (Some (js "kid-safe"))
    None None (Some (js "secret")) None (Some (num_of_Z 5)) None.

Lemma user_resaved_witness :
  (js "kid-safe" ∈ PROFILES) /\
  transformUserForm (transformUserToFormDefaults None a_user) (Some (num_of_Z 7)) =
  MkUserPayload (js "ada") (js "Ada") None
    (inr (MkUserUpdate (num_of_Z 7) (Some (js "vip")) (Some (js "first")) true (js "kid-safe") [] [] (js "secret") false (num_of_Z 5) zero)).
Proof.
  assert (H : js "kid-safe" ∈ PROFILES) by (left). split; [exact H|].
  refine (user_resaved None a_user (num_of_Z 7) _ _ _); [done|done|]. intros p [= <-]. exact H.
Defined.

(** An empty amount in the mode that sets the quota sets it to zero. *)
Lemma empty_override_clears : adjust_request None override [] = Some (override, zero) /\ adjust_request None add [] = None.
Proof. vm_compute. auto. Qed.

(** Saving a plan sets its currency to US dollars. *)
Lemma plan_currency_lost : forall p, sp_currency p = js "EUR" -> sp_currency (formValuesToPlanPayload (planToFormValues p)) = js "USD".
Proof. done. Qed.

(** A profile the form does not know is saved as the default. *)
Lemma unknown_profile_replaced u id : us_policy_profile u = Some (js "strict") ->
  match up_rest (transformUserForm (transformUserToFormDefaults None u) (Some id)) with inr x => uu_policy_profile x = PASSTHROUGH | inl _ => False end.
Proof. intros E. unfold transformUserForm, transformUserToFormDefaults. rewrite E. vm_compute. reflexivity. Qed.
