(* ===== verification/ChannelDrawer.v ===== *)
(** * The channel drawer

    [features/channels/components/drawers/channel-mutate-drawer.tsx]: the form of a
    channel with its buttons, and what happens between pressing save and the request:
    the checks of the key, of the status code mapping and of the model mapping, and the
    two dialogs in which the user confirms risky redirects and models that the mapping
    names and the channel does not offer.

    [submitChannel] waits for those dialogs; what it keeps in its variables meanwhile is a
    value of the state ([pending]), and the answers are events. *)
From S2P Require Import Prelude Numbers Json ModelMapping StatusCodes ChannelForm Channels.
Local Open Scope js_scope.

(** ** The form *)

Definition set_models (v : jstr) (f : ChannelFormValues) : ChannelFormValues :=
  MkForm (f_name f) (f_type f) (f_base_url f) (f_key f) (f_openai_organization f) v (f_group f) (f_model_mapping f)
    (f_priority f) (f_weight f) (f_test_model f) (f_auto_ban f) (f_status f) (f_status_code_mapping f) (f_tag f)
    (f_remark f) (f_setting f) (f_param_override f) (f_header_override f) (f_settings f) (f_other f)
    (f_multi_key_mode f) (f_multi_key_type f) (f_batch_add_set_key_prefix_2_name f) (f_key_mode f) (f_force_format f)
    (f_thinking_to_content f) (f_proxy f) (f_pass_through_body_enabled f) (f_system_prompt f)
    (f_system_prompt_override f) (f_is_enterprise_account f) (f_vertex_key_type f) (f_aws_key_type f)
    (f_azure_responses_version f) (f_allow_service_tier f) (f_disable_store f) (f_allow_safety_identifier f)
    (f_allow_include_obfuscation f) (f_allow_inference_geo f) (f_allow_speed f) (f_claude_beta_query f)
    (f_check_enabled f) (f_auto_sync_enabled f) (f_ignored_models f).
Definition set_key (v : jstr) (f : ChannelFormValues) : ChannelFormValues :=
  MkForm (f_name f) (f_type f) (f_base_url f) v (f_openai_organization f) (f_models f) (f_group f) (f_model_mapping f)
    (f_priority f) (f_weight f) (f_test_model f) (f_auto_ban f) (f_status f) (f_status_code_mapping f) (f_tag f)
    (f_remark f) (f_setting f) (f_param_override f) (f_header_override f) (f_settings f) (f_other f)
    (f_multi_key_mode f) (f_multi_key_type f) (f_batch_add_set_key_prefix_2_name f) (f_key_mode f) (f_force_format f)
    (f_thinking_to_content f) (f_proxy f) (f_pass_through_body_enabled f) (f_system_prompt f)
    (f_system_prompt_override f) (f_is_enterprise_account f) (f_vertex_key_type f) (f_aws_key_type f)
    (f_azure_responses_version f) (f_allow_service_tier f) (f_disable_store f) (f_allow_safety_identifier f)
    (f_allow_include_obfuscation f) (f_allow_inference_geo f) (f_allow_speed f) (f_claude_beta_query f)
    (f_check_enabled f) (f_auto_sync_enabled f) (f_ignored_models f).
Definition set_base_url (v : option jstr) (f : ChannelFormValues) : ChannelFormValues :=
  MkForm (f_name f) (f_type f) v (f_key f) (f_openai_organization f) (f_models f) (f_group f) (f_model_mapping f)
    (f_priority f) (f_weight f) (f_test_model f) (f_auto_ban f) (f_status f) (f_status_code_mapping f) (f_tag f)
    (f_remark f) (f_setting f) (f_param_override f) (f_header_override f) (f_settings f) (f_other f)
    (f_multi_key_mode f) (f_multi_key_type f) (f_batch_add_set_key_prefix_2_name f) (f_key_mode f) (f_force_format f)
    (f_thinking_to_content f) (f_proxy f) (f_pass_through_body_enabled f) (f_system_prompt f)
    (f_system_prompt_override f) (f_is_enterprise_account f) (f_vertex_key_type f) (f_aws_key_type f)
    (f_azure_responses_version f) (f_allow_service_tier f) (f_disable_store f) (f_allow_safety_identifier f)
    (f_allow_include_obfuscation f) (f_allow_inference_geo f) (f_allow_speed f) (f_claude_beta_query f)
    (f_check_enabled f) (f_auto_sync_enabled f) (f_ignored_models f).
Definition set_other (v : option jstr) (f : ChannelFormValues) : ChannelFormValues :=
  MkForm (f_name f) (f_type f) (f_base_url f) (f_key f) (f_openai_organization f) (f_models f) (f_group f)
    (f_model_mapping f) (f_priority f) (f_weight f) (f_test_model f) (f_auto_ban f) (f_status f)
    (f_status_code_mapping f) (f_tag f) (f_remark f) (f_setting f) (f_param_override f) (f_header_override f)
    (f_settings f) v (f_multi_key_mode f) (f_multi_key_type f) (f_batch_add_set_key_prefix_2_name f) (f_key_mode f)
    (f_force_format f) (f_thinking_to_content f) (f_proxy f) (f_pass_through_body_enabled f) (f_system_prompt f)
    (f_system_prompt_override f) (f_is_enterprise_account f) (f_vertex_key_type f) (f_aws_key_type f)
    (f_azure_responses_version f) (f_allow_service_tier f) (f_disable_store f) (f_allow_safety_identifier f)
    (f_allow_include_obfuscation f) (f_allow_inference_geo f) (f_allow_speed f) (f_claude_beta_query f)
    (f_check_enabled f) (f_auto_sync_enabled f) (f_ignored_models f).
Definition set_type (v : Z) (f : ChannelFormValues) : ChannelFormValues :=
  MkForm (f_name f) v (f_base_url f) (f_key f) (f_openai_organization f) (f_models f) (f_group f) (f_model_mapping f)
    (f_priority f) (f_weight f) (f_test_model f) (f_auto_ban f) (f_status f) (f_status_code_mapping f) (f_tag f)
    (f_remark f) (f_setting f) (f_param_override f) (f_header_override f) (f_settings f) (f_other f)
    (f_multi_key_mode f) (f_multi_key_type f) (f_batch_add_set_key_prefix_2_name f) (f_key_mode f) (f_force_format f)
    (f_thinking_to_content f) (f_proxy f) (f_pass_through_body_enabled f) (f_system_prompt f)
    (f_system_prompt_override f) (f_is_enterprise_account f) (f_vertex_key_type f) (f_aws_key_type f)
    (f_azure_responses_version f) (f_allow_service_tier f) (f_disable_store f) (f_allow_safety_identifier f)
    (f_allow_include_obfuscation f) (f_allow_inference_geo f) (f_allow_speed f) (f_claude_beta_query f)
    (f_check_enabled f) (f_auto_sync_enabled f) (f_ignored_models f).

(** [v?.trim()] is truthy; proxy and system prompt are texts, as their types say. *)
Definition filled (v : option jstr) : bool := truthy (trim (default [] v)).
Definition filled_json (v : option json) : bool := match v with Some (JStr s) => truthy (trim s) | _ => false end.
Definition set_number (v : option number) : bool := match v with Some x => num_truthy x | None => false end.
Definition set_flag (v : option json) : bool := match v with Some x => json_truthy x | None => false end.

Definition hasAdvancedSettingsValues (values : ChannelFormValues) : bool :=
  filled (f_model_mapping values) || filled (f_param_override values) || filled (f_header_override values)
  || filled (f_status_code_mapping values) || filled (f_tag values) || filled (f_remark values)
  || set_number (f_priority values) || set_number (f_weight values) || filled_json (f_proxy values)
  || filled_json (f_system_prompt values) || set_flag (f_force_format values) || set_flag (f_thinking_to_content values)
  || set_flag (f_pass_through_body_enabled values) || set_flag (f_system_prompt_override values)
  || set_flag (f_claude_beta_query values) || set_flag (f_check_enabled values) || set_flag (f_auto_sync_enabled values)
  || filled (f_ignored_models values).

Definition parseSettingsRecord (settings : option jstr) : list (jstr * json) :=
  if negb (filled settings) then []
  else match JSON_parse (default [] settings) with Ret (JObj o) => o | _ => [] end.

(** The models the last check has found, for the preview; an element that has no text
    makes the page throw. *)
Fixpoint name_texts (l : list json) : outcome (list jstr) :=
  match l with
  | [] => Ret []
  | v :: l' => let! s := if json_truthy v then to_String v else Ret [] in let! r := name_texts l' in Ret (trim s :: r)
  end.
Definition detected_models (settings : option jstr) : outcome (list jstr) :=
  match obj_get (js "upstream_model_update_last_detected_models") (parseSettingsRecord settings) with
  | Some (JArr l) => let! ws := name_texts l in Ret (dedup (filter_truthy ws))
  | _ => Ret []
  end.

(** ** The guardrail of the model mapping *)

Record ModelMappingGuardrail : Type := MkGuardrail {
  invalidJson : bool; entries : list (jstr * jstr); missingSourceModels : list jstr; exposedTargetModels : list jstr
}.
Definition createEmptyModelMappingGuardrail : ModelMappingGuardrail := MkGuardrail false [] [] [].

(** [String(rawTarget ?? '')] *)
Definition target_text (v : json) : outcome jstr := match v with JNull => Ret [] | _ => to_String v end.

Fixpoint mapping_pairs (o : list (jstr * json)) : outcome (list (jstr * jstr)) :=
  match o with
  | [] => Ret []
  | (rawSource, rawTarget) :: o' =>
      let source := trim rawSource in
      let! text := target_text rawTarget in
      let target := trim text in
      let! rest := mapping_pairs o' in
      Ret (if negb (truthy source) || negb (truthy target) then rest else (source, target) :: rest)
  end.

Definition modelMappingGuardrail (currentModelMapping : option jstr) (currentModels : list jstr) : ModelMappingGuardrail :=
  if negb (filled currentModelMapping) then createEmptyModelMappingGuardrail
  else
    try_catch
      (let! parsed := JSON_parse (default [] currentModelMapping) in
       match parsed with
       | JObj o =>
           let! entries := mapping_pairs o in
           Ret (MkGuardrail false entries
                  (dedup (List.map fst (List.filter (fun e => truthy e.1 && negb (mem e.1 currentModels)) entries)))
                  (dedup (List.map snd (List.filter (fun e => truthy e.2 && mem e.2 currentModels) entries))))
       | _ => Ret (MkGuardrail true [] [] [])
       end)
      (MkGuardrail true [] [] []).

Definition MODEL_MAPPING_PREVIEW_FALLBACK : list (jstr * jstr) := [(js "client-model", js "upstream-model")].
Definition mappingPreviewPairs (g : ModelMappingGuardrail) : list (jstr * jstr) :=
  match entries g with [] => MODEL_MAPPING_PREVIEW_FALLBACK | l => take 3 l end.
Definition remainingMappingCount (g : ModelMappingGuardrail) : nat := if (3 <? length (entries g))%nat then length (entries g) - 3 else 0.

(** ** The drawer *)

(** The channel that is edited: its id, and whether it has several keys. *)
Record editing_ : Type := MkEditing { ed_id : Z; ed_multi : bool }.

Inductive MissingModelsAction : Type := act_cancel | act_add | act_submit.
#[export] Instance MissingModelsAction_eq_dec : EqDecision MissingModelsAction.
Proof. solve_decision. Defined.

Inductive save_request : Type :=
| UpdateChannel (id : Z) (payload : list (jstr * json))
| CreateChannel (payload : CreatePayload).

(** What [submitChannel] keeps while it waits for a dialog: the data and the channel; and
    what the dialog shows. *)
Record pending : Type := MkPending { pd_data : ChannelFormValues; pd_edit : option editing_; pd_items : list jstr }.

(** What happens, in order. *)
Inductive drawer_entry : Type :=
| EKeyRequired
| EError (message : jstr)
| ESuccess (message : jstr)
| EInfo (message : jstr)
| ESend (r : save_request).

Record ChannelSheet : Type := MkDrawer {
  dw_open : bool;
  dw_edit : option editing_;
  dw_form : ChannelFormValues;
  dw_init_models : list jstr;
  dw_init_mapping : jstr;
  dw_init_status : jstr;
  dw_advanced : bool;
  dw_custom : jstr;
  dw_risk : option pending;
  dw_missing : option pending;
  dw_submitting : bool;
  dw_saves : list bool;  (** requests to save, each with whether a channel is edited *)
  dw_fetches : list (list jstr);  (** requests for models, each with the models at its start *)
  dw_log : list drawer_entry
}.

Definition set_form (f : ChannelFormValues) (d : ChannelSheet) : ChannelSheet :=
  MkDrawer (dw_open d) (dw_edit d) f (dw_init_models d) (dw_init_mapping d) (dw_init_status d) (dw_advanced d) (dw_custom d)
    (dw_risk d) (dw_missing d) (dw_submitting d) (dw_saves d) (dw_fetches d) (dw_log d).
Definition tell (es : list drawer_entry) (d : ChannelSheet) : ChannelSheet :=
  MkDrawer (dw_open d) (dw_edit d) (dw_form d) (dw_init_models d) (dw_init_mapping d) (dw_init_status d) (dw_advanced d) (dw_custom d)
    (dw_risk d) (dw_missing d) (dw_submitting d) (dw_saves d) (dw_fetches d) (dw_log d ++ es).
Definition set_dialogs (risk missing : option pending) (d : ChannelSheet) : ChannelSheet :=
  MkDrawer (dw_open d) (dw_edit d) (dw_form d) (dw_init_models d) (dw_init_mapping d) (dw_init_status d) (dw_advanced d) (dw_custom d)
    risk missing (dw_submitting d) (dw_saves d) (dw_fetches d) (dw_log d).
Definition set_saves (b : bool) (saves : list bool) (d : ChannelSheet) : ChannelSheet :=
  MkDrawer (dw_open d) (dw_edit d) (dw_form d) (dw_init_models d) (dw_init_mapping d) (dw_init_status d) (dw_advanced d) (dw_custom d)
    (dw_risk d) (dw_missing d) b saves (dw_fetches d) (dw_log d).
Definition set_custom (s : jstr) (d : ChannelSheet) : ChannelSheet :=
  MkDrawer (dw_open d) (dw_edit d) (dw_form d) (dw_init_models d) (dw_init_mapping d) (dw_init_status d) (dw_advanced d) s
    (dw_risk d) (dw_missing d) (dw_submitting d) (dw_saves d) (dw_fetches d) (dw_log d).
Definition set_fetches (fs : list (list jstr)) (d : ChannelSheet) : ChannelSheet :=
  MkDrawer (dw_open d) (dw_edit d) (dw_form d) (dw_init_models d) (dw_init_mapping d) (dw_init_status d) (dw_advanced d) (dw_custom d)
    (dw_risk d) (dw_missing d) (dw_submitting d) (dw_saves d) fs (dw_log d).
Definition set_advanced (b : bool) (d : ChannelSheet) : ChannelSheet :=
  MkDrawer (dw_open d) (dw_edit d) (dw_form d) (dw_init_models d) (dw_init_mapping d) (dw_init_status d) b (dw_custom d)
    (dw_risk d) (dw_missing d) (dw_submitting d) (dw_saves d) (dw_fetches d) (dw_log d).
Definition set_initial (open : bool) (edit : option editing_) (f : ChannelFormValues) (models : list jstr) (mapping status : jstr)
    (advanced : bool) (d : ChannelSheet) : ChannelSheet :=
  MkDrawer open edit f models mapping status advanced (dw_custom d) (dw_risk d) (dw_missing d) (dw_submitting d) (dw_saves d) (dw_fetches d) (dw_log d).

(** ** Opening *)

(** For a new channel; for a channel the effect does nothing before the data is there,
    and the form still holds the values of a new channel. *)
Definition open_new (d : ChannelSheet) : ChannelSheet := set_initial true None CHANNEL_FORM_DEFAULT_VALUES [] [] [] false d.
Definition open_edit (id : Z) (d : ChannelSheet) : ChannelSheet :=
  set_initial true (Some (MkEditing id false)) (dw_form d) (dw_init_models d) (dw_init_mapping d) (dw_init_status d) (dw_advanced d) d.

(** The data of the channel has arrived; [preference] is what the browser stores. *)
Definition load_channel (preference : option jstr) (id : Z) (multi : bool) (channel : ApiChannel) (d : ChannelSheet) : ChannelSheet :=
  let defaults := transformChannelToFormDefaults channel in
  set_initial true (Some (MkEditing id multi)) defaults (parseModelsString (a_models channel)) (opt_str_or (a_model_mapping channel) [])
    (opt_str_or (a_status_code_mapping channel) []) ((preference === Some (js "true")) || hasAdvancedSettingsValues defaults) d.

Definition handleOpenChange (open : bool) (d : ChannelSheet) : ChannelSheet :=
  if open then d
  else set_initial false (dw_edit d) CHANNEL_FORM_DEFAULT_VALUES (dw_init_models d) (dw_init_mapping d) (dw_init_status d) false d.

(** The advanced settings are shown or hidden; the browser stores the choice. *)
Definition handleAdvancedSettingsOpenChange (nextOpen : bool) (d : ChannelSheet) : ChannelSheet := set_advanced nextOpen d.

(** The effect of the type for a new channel: two types have defaults. *)
Definition type_defaults (isEditing : bool) (f : ChannelFormValues) : ChannelFormValues :=
  if isEditing then f
  else if (f_type f =? 45)%Z && negb (truthy (default [] (f_base_url f))) then set_base_url (Some (js "https://ark.cn-beijing.volces.com")) f
  else if (f_type f =? 18)%Z && negb (truthy (default [] (f_other f))) then set_other (Some (js "v2.1")) f
  else f.
Definition is_editing (d : ChannelSheet) : bool := match dw_edit d with Some _ => true | None => false end.
Definition change_type (type : Z) (d : ChannelSheet) : ChannelSheet := set_form (type_defaults (is_editing d) (set_type type (dw_form d))) d.

(** The warning about an address, shown after half a second. *)
Definition base_url_warned (base_url : option jstr) : bool := ends_with (js "/v1") (default [] base_url).

Definition count_text (n : nat) : jstr := dec_digits (N.of_nat n).

Definition handleDeduplicateKeys (d : ChannelSheet) : ChannelSheet :=
  let currentKey := f_key (dw_form d) in
  if negb (truthy currentKey) || (trim currentKey === []) then tell [EInfo (js "Please enter keys first")] d
  else
    let result := deduplicateKeys currentKey in
    if (removedCount result =? 0)%Z then tell [EInfo (js "No duplicate keys found")] d
    else tell [ESuccess (js "Removed " ++ Z_to_str (removedCount result) ++ js " duplicate key(s). Before: " ++ count_text (beforeCount result) ++ js ", After: " ++ count_text (afterCount result))] (set_form (set_key (deduplicatedText result) (dw_form d)) d).

(** ** Models *)

Definition current_models (d : ChannelSheet) : list jstr := parseModelsString (f_models (dw_form d)).

(** [updateModels] with the models it was made with. *)
Definition updateModels (currentModelsArray newModels : list jstr) (merge : bool) (d : ChannelSheet) : ChannelSheet :=
  set_form (set_models (formatModelsArray (if merge then currentModelsArray ++ newModels else newModels)) (dw_form d)) d.

Definition handleAddCustomModels (d : ChannelSheet) : ChannelSheet :=
  if negb (truthy (trim (dw_custom d))) then d
  else
    let modelArray := parseModelsString (dw_custom d) in
    tell [ESuccess (js "Added " ++ count_text (length modelArray) ++ js " custom model(s)")] (set_custom [] (updateModels (current_models d) modelArray true d)).

Definition basicModels (allModelsList : list jstr) (type : Z) : list jstr :=
  if (type =? 1)%Z then List.filter (fun m => starts_with (js "gpt-") m || starts_with (js "text-") m) allModelsList else allModelsList.

Definition handleFillRelatedModels (allModelsList : list jstr) (d : ChannelSheet) : ChannelSheet :=
  match basicModels allModelsList (f_type (dw_form d)) with
  | [] => tell [EInfo (js "No related models available for this channel type")] d
  | ms => tell [ESuccess (js "Filled " ++ count_text (length ms) ++ js " related model(s)")] (updateModels (current_models d) ms false d)
  end.

Definition handleFillAllModels (allModelsList : list jstr) (d : ChannelSheet) : ChannelSheet :=
  match allModelsList with
  | [] => tell [EInfo (js "No models available")] d
  | ms => tell [ESuccess (js "Filled " ++ count_text (length ms) ++ js " model(s)")] (updateModels (current_models d) ms false d)
  end.

Definition handleClearModels (d : ChannelSheet) : ChannelSheet := tell [ESuccess (js "Cleared all models")] (set_form (set_models [] (dw_form d)) d).

(** The items of a group: a list of strings, or the text of one; other elements enter
    as their texts. *)
Fixpoint item_texts (l : list json) : outcome (list jstr) :=
  match l with
  | [] => Ret []
  | v :: l' => let! s := match v with JNull => Ret [] | _ => to_String v end in let! r := item_texts l' in Ret (s :: r)
  end.
Definition group_items (items : json) : outcome (list jstr) :=
  match items with
  | JArr l => item_texts l
  | JStr s => let! v := JSON_parse s in match v with JArr l => item_texts l | _ => Throw end
  | _ => Throw
  end.
Definition handleAddPrefillGroup (name : jstr) (items : json) (d : ChannelSheet) : ChannelSheet :=
  match group_items items with
  | Ret l => tell [ESuccess (js "Added " ++ count_text (length l) ++ js " models from " ++ dq ++ name ++ dq)] (updateModels (current_models d) l true d)
  | Throw => tell [EError (js "Failed to parse group items")] d
  end.

Definition handleModelsChange (selected : list jstr) (d : ChannelSheet) : ChannelSheet := set_form (set_models (join (js ",") selected) (dw_form d)) d.

(** [handleFetchModels] for a new channel, up to its await; a channel that is edited gets
    a dialog of its own. *)
Definition handleFetchModels (d : ChannelSheet) : ChannelSheet :=
  if negb (mem (f_type (dw_form d)) MODEL_FETCHABLE_TYPES) then tell [EError (js "This channel type does not support fetching models")] d
  else if is_editing d then d
  else if negb (truthy (trim (f_key (dw_form d)))) then tell [EError (js "Please enter API key first")] d
  else set_fetches (dw_fetches d ++ [current_models d]) d.

(** Its end: the answer is the list, a refusal, or an error with its message. *)
Definition models_fetched (i : nat) (answer : (option (list jstr)) + option jstr) (d : ChannelSheet) : ChannelSheet :=
  match dw_fetches d !! i with
  | None => d
  | Some currentModelsArray =>
      let d := set_fetches (delete i (dw_fetches d)) d in
      match answer with
      | inl (Some ms) => tell [ESuccess (js "Fetched " ++ count_text (length ms) ++ js " model(s) from upstream")] (updateModels currentModelsArray ms true d)
      | inl None => tell [EError (js "No models fetched from upstream")] d
      | inr message => tell [EError (opt_str_or message (js "Failed to fetch models"))] d
      end
  end.

(** ** Saving *)

Definition CHANNEL_CREATE_FAILED : jstr := js "Failed to create channel".

(** The request: for a channel with several keys the mode of the key goes along. *)
Definition build_request (edit : option editing_) (data : ChannelFormValues) : outcome save_request :=
  match edit with
  | Some e =>
      let! payload := transformFormDataToUpdatePayload data (ed_id e) in
      Ret (UpdateChannel (ed_id e)
             (if ed_multi e && truthy (default [] (f_key_mode data)) then obj_set (js "key_mode") (JStr (default [] (f_key_mode data))) payload
              else payload))
  | None => let! payload := transformFormDataToCreatePayload data in Ret (CreateChannel payload)
  end.

(** From [setIsSubmitting(true)] to the await; a payload that cannot be built is caught. *)
Definition send_request (edit : option editing_) (data : ChannelFormValues) (d : ChannelSheet) : ChannelSheet :=
  match build_request edit data with
  | Ret r => tell [ESend r] (set_saves true (dw_saves d ++ [match edit with Some _ => true | None => false end]) d)
  | Throw => tell [EError CHANNEL_CREATE_FAILED] (set_saves false (dw_saves d) d)
  end.

Definition mapping_of (f : ChannelFormValues) : jstr := default [] (f_model_mapping f).

(** From the check of the model mapping on. *)
Definition check_mapping (edit : option editing_) (data : ChannelFormValues) (d : ChannelSheet) : ChannelSheet :=
  if negb (filled (f_model_mapping data)) then send_request edit data d
  else
    let '(valid, error) := validateModelMappingJson (mapping_of data) in
    if negb valid then tell [EError (opt_str_or error (js "Invalid model mapping"))] d
    else
      let normalizedModels := parseModelsString (f_models data) in
      let missingModels := findMissingModelsInMapping (mapping_of data) normalizedModels in
      match missingModels with
      | [] => send_request edit data d
      | _ =>
          if hasModelConfigChanged normalizedModels (mapping_of data) (dw_init_models d) (dw_init_mapping d)
          then set_dialogs (dw_risk d) (Some (MkPending data edit missingModels)) d
          else send_request edit data d
      end.

(** [onSubmit] with the values of the form. *)
Definition submitChannel (d : ChannelSheet) : ChannelSheet :=
  let data := dw_form d in
  if negb (is_editing d) && negb (truthy (trim (f_key data))) then tell [EKeyRequired] d
  else
    if filled (f_status_code_mapping data) then
      let mapping := default [] (f_status_code_mapping data) in
      match collectInvalidStatusCodeEntries mapping with
      | (_ :: _) as invalid => tell [EError (js "Invalid status code mapping entries: " ++ join (js ", ") invalid)] d
      | [] =>
          match collectNewDisallowedStatusCodeRedirects (dw_init_status d) mapping with
          | [] => check_mapping (dw_edit d) data d
          | riskyRedirects => set_dialogs (Some (MkPending data (dw_edit d) riskyRedirects)) (dw_missing d) d
          end
      end
    else check_mapping (dw_edit d) data d.

Definition handleStatusCodeRiskAction (confirmed : bool) (d : ChannelSheet) : ChannelSheet :=
  match dw_risk d with
  | None => d
  | Some p =>
      let d := set_dialogs None (dw_missing d) d in
      if confirmed then check_mapping (pd_edit p) (pd_data p) d else d
  end.

(** Adding the missing models changes the data and the form. *)
Definition with_missing (p : pending) : ChannelFormValues :=
  set_models (formatModelsArray (dedup (parseModelsString (f_models (pd_data p)) ++ pd_items p))) (pd_data p).

Definition handleMissingModelsAction (action : MissingModelsAction) (d : ChannelSheet) : ChannelSheet :=
  match dw_missing d with
  | None => d
  | Some p =>
      let d := set_dialogs (dw_risk d) None d in
      match action with
      | act_cancel => d
      | act_submit => send_request (pd_edit p) (pd_data p) d
      | act_add =>
          let data := with_missing p in
          send_request (pd_edit p) data (set_form (set_models (f_models data) (dw_form d)) d)
      end
  end.

(** The answer to the request at position [i], or an error with its message;
    [handleSuccess] closes the drawer. *)
Definition UPDATED : jstr := js "Channel updated successfully".
Definition CREATED : jstr := js "Channel created successfully".
Definition save_answered (i : nat) (answer : bool + option jstr) (d : ChannelSheet) : ChannelSheet :=
  match dw_saves d !! i with
  | None => d
  | Some edited =>
      let d := set_saves false (delete i (dw_saves d)) d in
      match answer with
      | inl true => set_initial false None CHANNEL_FORM_DEFAULT_VALUES [] [] [] false (tell [ESuccess (if (edited : bool) then UPDATED else CREATED)] d)
      | inl false => d
      | inr message => tell [EError (opt_str_or message CHANNEL_CREATE_FAILED)] d
      end
  end.

(** ** Events *)

Inductive drawer_event : Type :=
| OpenNew | OpenEdit (id : Z) | Loaded (preference : option jstr) (id : Z) (multi : bool) (channel : ApiChannel) | CloseDrawer
| EditForm (f : ChannelFormValues) | ChangeType (type : Z) | DeduplicateKeys
| TypeCustom (s : jstr) | AddCustom | FillRelated (all : list jstr) | FillAll (all : list jstr) | ClearModels
| AddGroup (name : jstr) (items : json) | SelectModels (ms : list jstr) | ToggleAdvanced (open : bool)
| FetchModels | ModelsFetched (i : nat) (answer : (option (list jstr)) + option jstr)
| Submit | RiskAnswered (confirmed : bool) | MissingAnswered (action : MissingModelsAction)
| SaveAnswered (i : nat) (answer : bool + option jstr).

Definition drawer_step (ev : drawer_event) (d : ChannelSheet) : ChannelSheet :=
  match ev with
  | OpenNew => open_new d
  | OpenEdit id => open_edit id d
  | Loaded preference id multi channel => load_channel preference id multi channel d
  | CloseDrawer => handleOpenChange false d
  | EditForm f => set_form f d
  | ChangeType type => change_type type d
  | DeduplicateKeys => handleDeduplicateKeys d
  | TypeCustom s => set_custom s d
  | AddCustom => handleAddCustomModels d
  | FillRelated all => handleFillRelatedModels all d
  | FillAll all => handleFillAllModels all d
  | ClearModels => handleClearModels d
  | AddGroup name items => handleAddPrefillGroup name items d
  | SelectModels ms => handleModelsChange ms d
  | ToggleAdvanced b => handleAdvancedSettingsOpenChange b d
  | FetchModels => handleFetchModels d
  | ModelsFetched i answer => models_fetched i answer d
  | Submit => if dw_submitting d then d else submitChannel d
  | RiskAnswered confirmed => handleStatusCodeRiskAction confirmed d
  | MissingAnswered action => handleMissingModelsAction action d
  | SaveAnswered i answer => save_answered i answer d
  end.

Definition new_drawer : ChannelSheet := MkDrawer false None CHANNEL_FORM_DEFAULT_VALUES [] [] [] false [] None None false [] [] [].

Inductive drawer_reachable : ChannelSheet -> Prop :=
| drawer_new : drawer_reachable new_drawer
| drawer_event_ ev d : drawer_reachable d -> drawer_reachable (drawer_step ev d).

Definition drawer_after (evs : list drawer_event) : ChannelSheet := foldl (fun d ev => drawer_step ev d) new_drawer evs.

Lemma drawer_after_snoc evs ev : drawer_after (evs ++ [ev]) = drawer_step ev (drawer_after evs).
Proof. unfold drawer_after. by rewrite foldl_app. Qed.

Lemma drawer_after_reachable evs : drawer_reachable (drawer_after evs).
Proof. induction evs as [|ev evs IH] using rev_ind; [constructor|]. rewrite drawer_after_snoc. by apply drawer_event_. Qed.

(** ** What is sent has been checked *)

(** A risky redirect the channel did not have when it was opened. *)
Definition new_risk (d : ChannelSheet) (m : jstr) : Prop :=
  m ∈ collectDisallowedStatusCodeRedirects (default [] (f_status_code_mapping (dw_form d))) /\
  m ∉ collectDisallowedStatusCodeRedirects (dw_init_status d).

(** A model the mapping redirects from and the channel does not offer. *)
Definition model_lacking (f : ChannelFormValues) (m : jstr) : Prop :=
  trim (mapping_of f) <> [] /\
  exists o, JSON_parse (mapping_of f) = Ret (JObj o) /\ m ∈ List.map trim o.*1 /\ m <> [] /\
    m ∉ List.map trim (parseModelsString (f_models f)).

Definition mapping_right (f : ChannelFormValues) : Prop :=
  trim (mapping_of f) = [] \/ exists o, JSON_parse (mapping_of f) = Ret (JObj o).

(** Models and mapping are those of the channel that was opened. *)
Definition same_config (f : ChannelFormValues) (d : ChannelSheet) : Prop :=
  (dw_init_models d <> [] \/ dw_init_mapping d <> []) /\
  parseModelsString (f_models f) = dw_init_models d /\ trim (mapping_of f) = trim (dw_init_mapping d).

Definition no_risk_answer (ev : drawer_event) : Prop := match ev with RiskAnswered _ => False | _ => True end.
Definition no_missing_answer (ev : drawer_event) : Prop := match ev with MissingAnswered _ => False | _ => True end.

(** [es] are the events from the click after [evs] to the check of the mapping: none when
    there are no new risks; else up to the first answer to the dialog, which shows them,
    and the answer is yes. *)
Definition risks_cleared (evs es : list drawer_event) : Prop :=
  let d := drawer_after evs in
  (es = [] /\ forall m, ~ new_risk d m) \/
  (exists es' p, es = es' ++ [RiskAnswered true] /\ Forall no_risk_answer es' /\
     dw_risk (drawer_after (evs ++ Submit :: es')) = Some p /\ forall m, m ∈ pd_items p <-> new_risk d m).

(** The same for the models, and the data that is sent in the end. *)
Definition models_settled (evs es1 es2 : list drawer_event) (data' : ChannelFormValues) : Prop :=
  let data := dw_form (drawer_after evs) in
  (es2 = [] /\ data' = data /\
     ((forall m, ~ model_lacking data m) \/ same_config data (drawer_after (evs ++ Submit :: es1)))) \/
  (exists es' a p, es2 = es' ++ [MissingAnswered a] /\ Forall no_missing_answer es' /\
     dw_missing (drawer_after (evs ++ Submit :: es1 ++ es')) = Some p /\ (forall m, m ∈ pd_items p <-> model_lacking data m) /\
     ((a = act_submit /\ data' = data) \/
      (a = act_add /\ data' = set_models (join (js ",") (dedup (parseModelsString (f_models data) ++ pd_items p))) data))).

(** The request for the data of a channel, or of a new one. *)
Definition request_for (edit : option editing_) (data : ChannelFormValues) (r : save_request) : Prop :=
  match edit with
  | None => exists payload, transformFormDataToCreatePayload data = Ret payload /\ r = CreateChannel payload
  | Some e => exists payload, transformFormDataToUpdatePayload data (ed_id e) = Ret payload /\
      r = UpdateChannel (ed_id e) (match ed_multi e, f_key_mode data with
                                   | true, Some ((_ :: _) as mode) => obj_set (js "key_mode") (JStr mode) payload
                                   | _, _ => payload
                                   end)
  end.

(** The click after [evs]: the form could be submit_passed, and its first checks pass. *)
Record submit_passed (evs : list drawer_event) : Prop := MkSubmitted {
  sb_idle : dw_submitting (drawer_after evs) = false;
  sb_key : dw_edit (drawer_after evs) = None -> trim (f_key (dw_form (drawer_after evs))) <> [];
  sb_status : collectInvalidStatusCodeEntries (default [] (f_status_code_mapping (dw_form (drawer_after evs)))) = []
}.

Definition waits_with (evs : list drawer_event) (p : pending) : Prop :=
  pd_data p = dw_form (drawer_after evs) /\ pd_edit p = dw_edit (drawer_after evs).

(** The step that [ev] makes sends [r]. *)
Definition sends (d : ChannelSheet) (ev : drawer_event) (r : save_request) : Prop :=
  exists l, dw_log (drawer_step ev d) = dw_log d ++ l /\ ESend r ∈ l.

Definition no_send (e : drawer_entry) : Prop := match e with ESend _ => False | _ => True end.

(** What the two dialogs wait for goes back to a click. *)
Record dialogs_right (evs : list drawer_event) : Prop := MkDialogsRight {
  dg_risk : forall p, dw_risk (drawer_after evs) = Some p -> exists evs0 es, evs = evs0 ++ Submit :: es /\
    Forall no_risk_answer es /\ submit_passed evs0 /\ waits_with evs0 p /\
    (forall m, m ∈ pd_items p <-> new_risk (drawer_after evs0) m);
  dg_missing : forall p, dw_missing (drawer_after evs) = Some p -> exists evs0 es1 es, evs = evs0 ++ Submit :: es1 ++ es /\
    Forall no_missing_answer es /\ submit_passed evs0 /\ waits_with evs0 p /\ risks_cleared evs0 es1 /\ mapping_right (pd_data p) /\
    pd_items p = findMissingModelsInMapping (mapping_of (pd_data p)) (parseModelsString (f_models (pd_data p)))
}.

(** *** The checks *)

Lemma lacking_spec f m :
  m ∈ findMissingModelsInMapping (mapping_of f) (parseModelsString (f_models f)) <-> model_lacking f m.
Proof.
  rewrite missing_spec. unfold model_lacking, parse_mapping. split.
  - intros (o & [_ Hb%negb_true_iff]%andb_true_iff & Hp & Hm). apply js_eqb_false in Hb. split; [done|].
    destruct (JSON_parse _) as [[]|]; simplify_eq. eauto.
  - intros (Hb & o & Hp & Hm). exists o. rewrite Hp. split; [|done].
    rewrite (proj2 (js_eqb_false _ _) Hb), andb_true_r. by destruct (mapping_of f).
Qed.

Lemma new_risk_spec d m :
  m ∈ collectNewDisallowedStatusCodeRedirects (dw_init_status d) (default [] (f_status_code_mapping (dw_form d))) <-> new_risk d m.
Proof. unfold new_risk. rewrite !risky_spec. apply new_risky_exact. Qed.

Lemma no_new_risk d :
  collectNewDisallowedStatusCodeRedirects (dw_init_status d) (default [] (f_status_code_mapping (dw_form d))) = [] ->
  forall m, ~ new_risk d m.
Proof. intros E m Hm%new_risk_spec. rewrite E in Hm. by apply not_elem_of_nil in Hm. Qed.

Lemma build_request_spec edit data r : build_request edit data = Ret r -> request_for edit data r.
Proof.
  unfold build_request, request_for. destruct edit as [e|].
  - destruct (transformFormDataToUpdatePayload _ _) as [payload|]; cbn; [|done]. intros [= <-]. exists payload.
    split; [done|]. f_equal. destruct (ed_multi e); [|done]. by destruct (f_key_mode data) as [[]|].
  - destruct (transformFormDataToCreatePayload _) as [payload|]; cbn; [|done]. intros [= <-]. eauto.
Qed.

(** The state of the dialogs and what was loaded. *)
Definition same_frame (d d' : ChannelSheet) : Prop :=
  dw_risk d' = dw_risk d /\ dw_init_models d' = dw_init_models d /\ dw_init_mapping d' = dw_init_mapping d.

Lemma send_cases edit data d :
  same_frame d (send_request edit data d) /\ dw_missing (send_request edit data d) = dw_missing d /\
  exists e, dw_log (send_request edit data d) = dw_log d ++ [e] /\ match e with ESend r => request_for edit data r | _ => True end.
Proof.
  unfold send_request. destruct (build_request _ _) as [r|] eqn:E; repeat split; cbn.
  - eexists. split; [done|]. by apply build_request_spec.
  - by eexists.
Qed.

(** The check of the mapping refuses, sends, or asks. *)
Lemma check_cases edit data d :
  same_frame d (check_mapping edit data d) /\
  ((dw_missing (check_mapping edit data d) = dw_missing d /\ exists e, dw_log (check_mapping edit data d) = dw_log d ++ [e] /\
      match e with
      | ESend r => request_for edit data r /\ mapping_right data /\ ((forall m, ~ model_lacking data m) \/ same_config data d)
      | _ => True
      end) \/
   (dw_log (check_mapping edit data d) = dw_log d /\ mapping_right data /\
    dw_missing (check_mapping edit data d) =
      Some (MkPending data edit (findMissingModelsInMapping (mapping_of data) (parseModelsString (f_models data)))))).
Proof.
  destruct (send_cases edit data d) as (Hf & Hm & e & Hl & He).
  assert (forall right, mapping_right data -> right = check_mapping edit data d -> right = send_request edit data d ->
    ((forall m, ~ model_lacking data m) \/ same_config data d) -> same_frame d (check_mapping edit data d) /\
    dw_missing (check_mapping edit data d) = dw_missing d /\ exists e, dw_log (check_mapping edit data d) = dw_log d ++ [e] /\
      match e with
      | ESend r => request_for edit data r /\ mapping_right data /\ ((forall m, ~ model_lacking data m) \/ same_config data d)
      | _ => True
      end) as Hsend.
  { intros right Hr -> -> Hc. split; [done|]. split; [done|]. exists e. split; [done|]. by destruct e. }
  assert (forall f, findMissingModelsInMapping (mapping_of f) (parseModelsString (f_models f)) = [] -> forall m, ~ model_lacking f m) as Hno.
  { intros f E m Hm'%lacking_spec. rewrite E in Hm'. by apply not_elem_of_nil in Hm'. }
  unfold check_mapping in *. destruct (filled (f_model_mapping data)) eqn:Ef; cbn [negb] in *.
  2:{ assert (trim (mapping_of data) = []) as Ht by (unfold filled, mapping_of in *; by destruct (trim _)).
      destruct (Hsend _ ltac:(by left) eq_refl eq_refl) as (? & ? & ?); [|by split; [|left]].
      left. apply Hno. unfold findMissingModelsInMapping. rewrite Ht, js_eqb_refl, orb_true_r. done. }
  assert (trim (mapping_of data) <> []) as Ht by (unfold filled, mapping_of in *; by destruct (trim _)).
  destruct (validateModelMappingJson _) as [[|] error] eqn:Ev; cbn [negb] in *.
  2:{ split; [done|]. left. split; [done|]. by eexists. }
  assert (mapping_right data) as Hr.
  { unfold validateModelMappingJson in Ev. rewrite (proj2 (js_eqb_false _ _) Ht), orb_false_r in Ev.
    destruct (mapping_of data) as [|c t] eqn:E; [done|]. cbn [truthy negb] in Ev. right. rewrite E.
    destruct (JSON_parse (c :: t)) as [[]|]; try done. eauto. }
  destruct (findMissingModelsInMapping _ _) as [|m ms] eqn:Em.
  { destruct (Hsend _ Hr eq_refl eq_refl) as (? & ? & ?); [left; by apply Hno|]. by split; [|left]. }
  destruct (hasModelConfigChanged _ _ _ _) eqn:Ec.
  - split; [done|]. right. done.
  - destruct (Hsend _ Hr eq_refl eq_refl) as (? & ? & ?); [right; by apply config_unchanged|]. by split; [|left].
Qed.

(** All other events leave the dialogs alone and send nothing. *)
Definition answers (ev : drawer_event) : bool :=
  match ev with Submit | RiskAnswered _ | MissingAnswered _ => true | _ => false end.

Lemma quiet_step ev d : answers ev = false ->
  dw_risk (drawer_step ev d) = dw_risk d /\ dw_missing (drawer_step ev d) = dw_missing d /\
  exists l, dw_log (drawer_step ev d) = dw_log d ++ l /\ Forall no_send l.
Proof.
  intros Hq. assert (forall d', dw_risk d' = dw_risk d -> dw_missing d' = dw_missing d -> dw_log d' = dw_log d ->
    dw_risk d' = dw_risk d /\ dw_missing d' = dw_missing d /\ exists l, dw_log d' = dw_log d ++ l /\ Forall no_send l) as Hsame.
  { intros d' E1 E2 E3. split; [done|]. split; [done|]. exists []. by rewrite app_nil_r. }
  assert (forall e d', dw_log d' = dw_log d ++ [e] -> dw_risk d' = dw_risk d -> dw_missing d' = dw_missing d -> no_send e ->
    dw_risk d' = dw_risk d /\ dw_missing d' = dw_missing d /\ exists l, dw_log d' = dw_log d ++ l /\ Forall no_send l) as Htell.
  { intros e d' E1 E2 E3 He. split; [done|]. split; [done|]. exists [e]. split; [done|]. by constructor. }
  destruct ev; try discriminate Hq; cbn [drawer_step]; try (by apply Hsame).
  - unfold handleDeduplicateKeys. repeat case_match; (by apply Hsame) || by (eapply Htell; [reflexivity|..]).
  - unfold handleAddCustomModels. repeat case_match; (by apply Hsame) || by (eapply Htell; [reflexivity|..]).
  - unfold handleFillRelatedModels. repeat case_match; (by apply Hsame) || by (eapply Htell; [reflexivity|..]).
  - unfold handleFillAllModels. repeat case_match; (by apply Hsame) || by (eapply Htell; [reflexivity|..]).
  - by (eapply Htell; [reflexivity|..]).
  - unfold handleAddPrefillGroup. repeat case_match; (by apply Hsame) || by (eapply Htell; [reflexivity|..]).
  - unfold handleFetchModels. repeat case_match; (by apply Hsame) || by (eapply Htell; [reflexivity|..]).
  - unfold models_fetched. repeat case_match; (by apply Hsame) || by (eapply Htell; [reflexivity|..]).
  - unfold save_answered. repeat case_match; (by apply Hsame) || by (eapply Htell; [reflexivity|..]).
Qed.

(** *** The invariant *)

(** A click: it is refused, opens the dialog of the risks, or goes on to the mapping. *)
Lemma submit_cases evs : dw_submitting (drawer_after evs) = false ->
  let d := drawer_after evs in
  (dw_risk (submitChannel d) = dw_risk d /\ dw_missing (submitChannel d) = dw_missing d /\
     exists e, dw_log (submitChannel d) = dw_log d ++ [e] /\ no_send e) \/
  (submit_passed evs /\ dw_missing (submitChannel d) = dw_missing d /\ dw_log (submitChannel d) = dw_log d /\
     exists p, dw_risk (submitChannel d) = Some p /\ waits_with evs p /\ forall m, m ∈ pd_items p <-> new_risk d m) \/
  (submit_passed evs /\ (forall m, ~ new_risk d m) /\ submitChannel d = check_mapping (dw_edit d) (dw_form d) d).
Proof.
  intros Hi d. unfold submitChannel. destruct (negb (is_editing d) && _) eqn:Ek.
  { left. repeat split. by eexists. }
  assert (collectInvalidStatusCodeEntries (default [] (f_status_code_mapping (dw_form d))) = [] -> submit_passed evs) as Hs.
  { intros Hc. constructor; [done| |done]. fold d. intros E. unfold is_editing in Ek. rewrite E in Ek.
    cbn [negb andb] in Ek. apply negb_false_iff, truthy_true in Ek. done. }
  destruct (filled (f_status_code_mapping (dw_form d))) eqn:Ef.
  - destruct (collectInvalidStatusCodeEntries _) as [|x l]; [|left; repeat split; by eexists].
    destruct (collectNewDisallowedStatusCodeRedirects _ _) as [|x l] eqn:En; right.
    + right. split; [by apply Hs|]. split; [by apply no_new_risk|done].
    + left. split; [by apply Hs|]. do 2 (split; [done|]). eexists. split; [done|]. split; [done|].
      intros m. rewrite <-new_risk_spec, En. done.
  - assert (mapping_entries (default [] (f_status_code_mapping (dw_form d))) = []) as Hm.
    { unfold mapping_entries. unfold filled in Ef. by rewrite Ef. }
    right. right. split; [apply Hs; unfold collectInvalidStatusCodeEntries; by rewrite Hm|]. split; [|done].
    intros m [(q & Hq & _)%risky_spec _]. rewrite Hm in Hq. by apply not_elem_of_nil in Hq.
Qed.

Lemma app_cons_snoc {A} (l : list A) x l1 l2 y : (l ++ x :: l1 ++ l2) ++ [y] = l ++ x :: l1 ++ l2 ++ [y].
Proof. by rewrite <-app_assoc, <-app_comm_cons, <-app_assoc. Qed.

Lemma snoc_cons {A} (l : list A) x l1 y : (l ++ x :: l1) ++ [y] = l ++ x :: l1 ++ [y].
Proof. by rewrite <-app_assoc. Qed.

(** The dialogs that were open stay right through an event that does not answer them. *)
Lemma keep_risk evs ev p : dialogs_right evs -> no_risk_answer ev -> dw_risk (drawer_after evs) = Some p ->
  exists evs0 es, evs ++ [ev] = evs0 ++ Submit :: es /\ Forall no_risk_answer es /\ submit_passed evs0 /\ waits_with evs0 p /\
    (forall m, m ∈ pd_items p <-> new_risk (drawer_after evs0) m).
Proof.
  intros [Hr _] Hn Hp. destruct (Hr p Hp) as (evs0 & es & -> & Hes & H). exists evs0, (es ++ [ev]).
  split; [apply snoc_cons|]. split; [by apply Forall_app; split; [|constructor]|done].
Qed.

Lemma keep_missing evs ev p : dialogs_right evs -> no_missing_answer ev -> dw_missing (drawer_after evs) = Some p ->
  exists evs0 es1 es, evs ++ [ev] = evs0 ++ Submit :: es1 ++ es /\ Forall no_missing_answer es /\ submit_passed evs0 /\
    waits_with evs0 p /\ risks_cleared evs0 es1 /\ mapping_right (pd_data p) /\
    pd_items p = findMissingModelsInMapping (mapping_of (pd_data p)) (parseModelsString (f_models (pd_data p))).
Proof.
  intros [_ Hm] Hn Hp. destruct (Hm p Hp) as (evs0 & es1 & es & -> & Hes & H). exists evs0, es1, (es ++ [ev]).
  split; [apply app_cons_snoc|]. split; [by apply Forall_app; split; [|constructor]|done].
Qed.

(** After the check of the mapping at the end of [es1]. *)
Lemma check_right evs0 es1 (d : ChannelSheet) :
  submit_passed evs0 -> risks_cleared evs0 es1 ->
  drawer_after (evs0 ++ Submit :: es1) = check_mapping (dw_edit (drawer_after evs0)) (dw_form (drawer_after evs0)) d ->
  forall p, dw_missing (drawer_after (evs0 ++ Submit :: es1)) = Some p -> dw_missing d = Some p \/
  exists evs1 es2 es, evs0 ++ Submit :: es1 = evs1 ++ Submit :: es2 ++ es /\ Forall no_missing_answer es /\ submit_passed evs1 /\
    waits_with evs1 p /\ risks_cleared evs1 es2 /\ mapping_right (pd_data p) /\
    pd_items p = findMissingModelsInMapping (mapping_of (pd_data p)) (parseModelsString (f_models (pd_data p))).
Proof.
  intros Hs Hr E p Hp. rewrite E in Hp.
  destruct (check_cases (dw_edit (drawer_after evs0)) (dw_form (drawer_after evs0)) d) as (_ & [(Hm & _)|(_ & Hmap & Hm)]); rewrite Hm in Hp.
  - by left.
  - right. injection Hp as <-. exists evs0, es1, []. rewrite app_nil_r. done.
Qed.

Lemma dialogs_after evs : dialogs_right evs.
Proof.
  induction evs as [|ev evs IH] using rev_ind; [by constructor|].
  destruct (answers ev) eqn:Ea.
  2:{ destruct (quiet_step ev (drawer_after evs) Ea) as (E1 & E2 & _).
      constructor; intros p; rewrite drawer_after_snoc, ?E1, ?E2; [apply keep_risk|apply keep_missing]; try done; by destruct ev. }
  destruct ev as [| | | | | | | | | | | | | | | | | |confirmed|action|]; try discriminate Ea.
  - destruct (dw_submitting (drawer_after evs)) eqn:Ei.
    { constructor; intros p; rewrite drawer_after_snoc; cbn [drawer_step]; rewrite Ei; [by apply keep_risk|by apply keep_missing]. }
    assert (drawer_after (evs ++ [Submit]) = submitChannel (drawer_after evs)) as E
      by (rewrite drawer_after_snoc; cbn [drawer_step]; by rewrite Ei).
    destruct (submit_cases evs Ei) as [(E1 & E2 & _)|[(Hs & E2 & _ & q & E1 & Hw & Hq)|(Hs & Hn & Ec)]];
      constructor; intros p Hp; rewrite E in Hp.
    + rewrite E1 in Hp. by apply keep_risk.
    + rewrite E2 in Hp. by apply keep_missing.
    + rewrite E1 in Hp. injection Hp as <-. exists evs, []. done.
    + rewrite E2 in Hp. by apply keep_missing.
    + rewrite Ec, (proj1 (proj1 (check_cases _ _ _))) in Hp. by apply keep_risk.
    + rewrite <-E in Hp. destruct (check_right evs [] (drawer_after evs) Hs ltac:(by left) ltac:(by rewrite E) p Hp) as [Hd|Hd];
        [by apply keep_missing|done].
  - assert (drawer_after (evs ++ [RiskAnswered confirmed]) = handleStatusCodeRiskAction confirmed (drawer_after evs)) as E
      by apply drawer_after_snoc.
    unfold handleStatusCodeRiskAction in E. destruct (dw_risk (drawer_after evs)) as [q|] eqn:Eq.
    2:{ constructor; intros p; rewrite E; [by rewrite Eq|by apply keep_missing]. }
    destruct confirmed.
    2:{ constructor; intros p; rewrite E; [done|by apply keep_missing]. }
    constructor; intros p Hp.
    + rewrite E, (proj1 (proj1 (check_cases _ _ _))) in Hp. done.
    + destruct (dg_risk _ IH q Eq) as (evs0 & es & -> & Hes & Hs & (Hd & He) & Hq). rewrite snoc_cons, Hd, He in *.
      destruct (check_right evs0 (es ++ [RiskAnswered true]) _ Hs ltac:(right; eauto 10) E p Hp) as [Hd'|Hd']; [|done].
      cbn in Hd'. rewrite <-snoc_cons. by apply keep_missing.
  - assert (drawer_after (evs ++ [MissingAnswered action]) = handleMissingModelsAction action (drawer_after evs)) as E
      by apply drawer_after_snoc.
    unfold handleMissingModelsAction in E. destruct (dw_missing (drawer_after evs)) as [q|] eqn:Eq.
    2:{ constructor; intros p; rewrite E; [by apply keep_risk|by rewrite Eq]. }
    assert (dw_risk (drawer_after (evs ++ [MissingAnswered action])) = dw_risk (drawer_after evs) /\
            dw_missing (drawer_after (evs ++ [MissingAnswered action])) = None) as [E1 E2].
    { rewrite E. destruct action; [done| |];
        match goal with |- context [send_request ?a ?b ?c] => destruct (send_cases a b c) as ((-> & _) & -> & _) end; done. }
    constructor; intros p; rewrite ?E1, ?E2; [by apply keep_risk|done].
Qed.

(** *** The theorem *)

Lemma sent_of d d' e r l : dw_log d' = dw_log d ++ [e] -> dw_log d' = dw_log d ++ l -> ESend r ∈ l -> e = ESend r.
Proof. intros -> E%app_inv_head Hin. subst l. by apply list_elem_of_singleton in Hin. Qed.

Lemma none_sent d d' r l : dw_log d' = dw_log d -> dw_log d' = dw_log d ++ l -> ~ ESend r ∈ l.
Proof.
  intros -> E Hin. assert (l = []) as -> by (apply (app_inv_head (dw_log d)); by rewrite app_nil_r).
  by apply not_elem_of_nil in Hin.
Qed.

(** A request that leaves from the check of the mapping. *)
Lemma check_sends evs0 es1 d r l :
  drawer_after (evs0 ++ Submit :: es1) = check_mapping (dw_edit (drawer_after evs0)) (dw_form (drawer_after evs0)) d ->
  dw_log (drawer_after (evs0 ++ Submit :: es1)) = dw_log d ++ l -> ESend r ∈ l ->
  mapping_right (dw_form (drawer_after evs0)) /\
  exists data', models_settled evs0 es1 [] data' /\ request_for (dw_edit (drawer_after evs0)) data' r.
Proof.
  intros E Hl Hin. rewrite E in Hl.
  destruct (check_cases (dw_edit (drawer_after evs0)) (dw_form (drawer_after evs0)) d)
    as ((_ & Em & Emap) & [(_ & e & He & H)|(Hn & _)]); [|by destruct (none_sent _ _ _ _ Hn Hl Hin)].
  pose proof (sent_of _ _ _ _ _ He Hl Hin) as ->. destruct H as (Hreq & Hmap & Hset). split; [done|].
  eexists. split; [|exact Hreq]. left. split; [done|]. split; [done|]. destruct Hset as [Hset|Hset]; [by left|right].
  unfold same_config in *. rewrite E, Em, Emap. done.
Qed.

(** A request that leaves with the answer to the dialog of the missing models. *)
Lemma answer_sends evs action r l :
  dw_log (drawer_after (evs ++ [MissingAnswered action])) = dw_log (drawer_after evs) ++ l -> ESend r ∈ l ->
  exists evs0 es1 es2, evs ++ [MissingAnswered action] = evs0 ++ Submit :: es1 ++ es2 /\ submit_passed evs0 /\ risks_cleared evs0 es1 /\
    mapping_right (dw_form (drawer_after evs0)) /\
    exists data', models_settled evs0 es1 es2 data' /\ request_for (dw_edit (drawer_after evs0)) data' r.
Proof.
  intros Hl Hin.
  assert (drawer_after (evs ++ [MissingAnswered action]) = handleMissingModelsAction action (drawer_after evs)) as E
    by apply drawer_after_snoc.
  unfold handleMissingModelsAction in E. destruct (dw_missing (drawer_after evs)) as [q|] eqn:Eq;
    [|by rewrite E in Hl; destruct (none_sent _ _ _ _ eq_refl Hl Hin)].
  destruct (dg_missing _ (dialogs_after evs) q Eq) as (evs0 & es1 & es & -> & Hes & Hs & (Hd & He) & Hr & Hmap & Hq).
  rewrite Hd in Hmap, Hq. exists evs0, es1, (es ++ [MissingAnswered action]). split; [apply app_cons_snoc|].
  do 3 (split; [done|]).
  assert (forall data' d, drawer_after ((evs0 ++ Submit :: es1 ++ es) ++ [MissingAnswered action]) =
    send_request (pd_edit q) data' d -> dw_log d = dw_log (drawer_after (evs0 ++ Submit :: es1 ++ es)) ->
    request_for (dw_edit (drawer_after evs0)) data' r) as Hsend.
  { intros data' d E' Ed. rewrite E', <-Ed in Hl. destruct (send_cases (pd_edit q) data' d) as (_ & _ & e & Hle & Hreq).
    pose proof (sent_of _ _ _ _ _ Hle Hl Hin) as ->. by rewrite <-He. }
  assert (forall m, m ∈ pd_items q <-> model_lacking (dw_form (drawer_after evs0)) m) as Hi
    by (intros m; rewrite Hq; apply lacking_spec).
  destruct action.
  - rewrite E in Hl. by destruct (none_sent _ _ _ _ eq_refl Hl Hin).
  - exists (with_missing q). split; [|by eapply Hsend]. right. exists es, act_add, q. do 4 (split; [done|]). right. split; [done|].
    unfold with_missing, formatModelsArray. by rewrite dedup_idem, Hd.
  - exists (pd_data q). split; [|by eapply Hsend]. right. exists es, act_submit, q. do 4 (split; [done|]). by left.
Qed.

(** C11: Whatever the user and the server do, in whatever order: each request that saves a
    channel goes back to a click on the button at a moment when no save was in progress.
    At that moment a new channel had a key and the status code mapping no invalid entry.
    If the form had risky redirects that the channel as it was opened did not have, a
    dialog was open that showed exactly these, and its first answer was to go on. The
    model mapping was blank or an object. If it redirects from models the channel does
    not offer, and the models or the mapping differ from those that were opened, a dialog
    showed exactly these models, and its first answer was to send anyway or to add them.
    What is sent is the payload of the form at the click, with these models added in the
    last case: of the edited channel, with the key mode if it has several keys, or of a
    new one. *)
Theorem sent_is_checked evs ev r :
  sends (drawer_after evs) ev r ->
  exists evs0 es1 es2, evs ++ [ev] = evs0 ++ Submit :: es1 ++ es2 /\ submit_passed evs0 /\ risks_cleared evs0 es1 /\
    mapping_right (dw_form (drawer_after evs0)) /\
    exists data', models_settled evs0 es1 es2 data' /\ request_for (dw_edit (drawer_after evs0)) data' r.
Proof.
  intros (l & Hl & Hin). rewrite <-drawer_after_snoc in Hl. destruct (answers ev) eqn:Ea.
  2:{ destruct (quiet_step ev (drawer_after evs) Ea) as (_ & _ & l' & Hl' & Hf). rewrite drawer_after_snoc, Hl' in Hl.
      apply app_inv_head in Hl as ->. rewrite Forall_forall in Hf. by destruct (Hf _ Hin). }
  destruct ev as [| | | | | | | | | | | | | | | | | |confirmed|action|]; try discriminate Ea.
  - destruct (dw_submitting (drawer_after evs)) eqn:Ei.
    { rewrite drawer_after_snoc in Hl. cbn [drawer_step] in Hl. rewrite Ei in Hl. by destruct (none_sent _ _ _ _ eq_refl Hl Hin). }
    assert (drawer_after (evs ++ [Submit]) = submitChannel (drawer_after evs)) as E
      by (rewrite drawer_after_snoc; cbn [drawer_step]; by rewrite Ei).
    destruct (submit_cases evs Ei) as [(_ & _ & e & He & Hn)|[(_ & _ & He & _)|(Hs & Hn & Ec)]].
    + rewrite E in Hl. pose proof (sent_of _ _ _ _ _ He Hl Hin) as ->. done.
    + rewrite E in Hl. by destruct (none_sent _ _ _ _ He Hl Hin).
    + rewrite Ec in E. destruct (check_sends evs [] (drawer_after evs) r l E Hl Hin) as (Hmap & data' & H).
      exists evs, [], []. split; [done|]. split; [done|]. split; [by left|]. eauto.
  - assert (drawer_after (evs ++ [RiskAnswered confirmed]) = handleStatusCodeRiskAction confirmed (drawer_after evs)) as E
      by apply drawer_after_snoc.
    unfold handleStatusCodeRiskAction in E. destruct (dw_risk (drawer_after evs)) as [q|] eqn:Eq;
      [destruct confirmed|]; [|by rewrite E in Hl; destruct (none_sent _ _ _ _ eq_refl Hl Hin)..].
    destruct (dg_risk _ (dialogs_after evs) q Eq) as (evs0 & es & -> & Hes & Hs & (Hd & He) & Hq). rewrite snoc_cons, Hd, He in *.
    destruct (check_sends evs0 (es ++ [RiskAnswered true]) _ r l E Hl Hin) as (Hmap & data' & H).
    exists evs0, (es ++ [RiskAnswered true]), []. rewrite app_nil_r. split; [done|]. split; [done|]. split; [|by eauto].
    right. exists es, q. done.
  - by eapply answer_sends.
Qed.

(** ** Where the missing models come from *)

Lemma reachable_after d : drawer_reachable d -> exists evs, d = drawer_after evs.
Proof.
  induction 1 as [|ev d _ (evs & ->)]; [by exists []|]. exists (evs ++ [ev]). by rewrite drawer_after_snoc.
Qed.

Lemma missing_asked d p : drawer_reachable d -> dw_missing d = Some p ->
  pd_items p = findMissingModelsInMapping (mapping_of (pd_data p)) (parseModelsString (f_models (pd_data p))).
Proof.
  intros (evs & ->)%reachable_after Hp.
  destruct (dg_missing _ (dialogs_after evs) p Hp) as (? & ? & ? & _ & _ & _ & _ & _ & _ & H). done.
Qed.

(** ** Added models *)

(** The models of the channel with the missing ones added, as they are read again. *)
Lemma added_read p : Forall (fun m => 44%N ∉ m) (pd_items p) ->
  pd_items p = findMissingModelsInMapping (mapping_of (pd_data p)) (parseModelsString (f_models (pd_data p))) ->
  parseModelsString (f_models (with_missing p)) = dedup (parseModelsString (f_models (pd_data p)) ++ pd_items p).
Proof.
  intros Hc Hm. unfold with_missing. cbn [set_models f_models]. rewrite models_read_back, dedup_idem; [done|].
  apply Forall_forall. intros m. rewrite elem_of_dedup, elem_of_app. intros [H|H].
  - unfold parseModelsString in H. destruct (truthy _); [|by apply not_elem_of_nil in H].
    by eapply Forall_forall; [apply comma_list_clean|].
  - pose proof H as H'. rewrite Hm in H'. apply missing_spec in H' as (o & _ & _ & Hin & Hne & _).
    split; [done|]. split; [|by eapply Forall_forall in Hc].
    apply list_elem_of_In, in_map_iff in Hin as (w & <- & _). apply trim_idem.
Qed.

Lemma missing_same mapping l l' : (forall m, m ∈ l <-> m ∈ l') ->
  findMissingModelsInMapping mapping l = [] -> findMissingModelsInMapping mapping l' = [].
Proof.
  intros H E. destruct (findMissingModelsInMapping mapping l') as [|k r] eqn:E'; [done|]. exfalso.
  assert (Hk : k ∈ findMissingModelsInMapping mapping l') by (rewrite E'; by left).
  apply missing_spec in Hk as (o & Hg & Ho & Hin & Hne & Hn).
  apply (not_elem_of_nil k). rewrite <- E. apply missing_spec. exists o. repeat split; try done.
  intros Hk. apply Hn. apply list_elem_of_fmap in Hk as (w & -> & Hw). apply list_elem_of_fmap. exists w. by rewrite <- H.
Qed.

(** Choosing to add the missing models sends and shows a channel that still offers
    every model it did, and that offers every model its mapping redirects from, when
    none of these names has a comma. *)
Lemma added_models_offered d p : drawer_reachable d -> dw_missing d = Some p -> Forall (fun m => 44%N ∉ m) (pd_items p) ->
  let d' := drawer_step (MissingAnswered act_add) d in
  let models := parseModelsString (f_models (dw_form d')) in
  findMissingModelsInMapping (mapping_of (pd_data p)) models = [] /\
  (forall m, m ∈ parseModelsString (f_models (pd_data p)) -> m ∈ models) /\
  f_models (dw_form d') = f_models (with_missing p).
Proof.
  intros Hd Hp Hc. pose proof (missing_asked d p Hd Hp) as Hm.
  assert (Ef : f_models (dw_form (drawer_step (MissingAnswered act_add) d)) = f_models (with_missing p)).
  { cbn [drawer_step]. unfold handleMissingModelsAction. rewrite Hp. unfold send_request. by destruct (build_request _ _). }
  cbv zeta. rewrite Ef, added_read by done. split; [|split; [|done]].
  - eapply missing_same; [|apply (missing_models_complete (mapping_of (pd_data p)) (parseModelsString (f_models (pd_data p))))].
    intros m. by rewrite elem_of_dedup, <- Hm.
  - intros m H. apply elem_of_dedup, elem_of_app. by left.
Qed.

(** ** The guardrail and the check agree *)

Lemma mapping_pairs_sources o l : mapping_pairs o = Ret l -> forall e, e ∈ l -> e.1 ∈ List.map trim o.*1 /\ e.1 <> [].
Proof.
  revert l. induction o as [|[k v] o IH]; intros l H; cbn in H; [simplify_eq; intros e He; by apply not_elem_of_nil in He|].
  destruct (target_text v) as [text|]; cbn in H; [|done]. destruct (mapping_pairs o) as [rest|]; cbn in H; [|done].
  injection H as <-. intros e He. cbn. destruct (truthy (trim k)) eqn:Ek; cbn in He.
  - destruct (truthy (trim text)); cbn in He.
    + apply elem_of_cons in He as [->|He]; [|destruct (IH rest eq_refl e He); split; [by right|done]].
      cbn. split; [by left|by apply truthy_true].
    + destruct (IH rest eq_refl e He). split; [by right|done].
  - destruct (IH rest eq_refl e He). split; [by right|done].
Qed.

(** A model the guardrail shows as missing is one the check before saving asks about. *)
Lemma guardrail_sound mapping models m : Forall clean_name models ->
  m ∈ missingSourceModels (modelMappingGuardrail mapping models) -> m ∈ findMissingModelsInMapping (default [] mapping) models.
Proof.
  intros Hc. unfold modelMappingGuardrail. destruct (filled mapping) eqn:Ef; cbn [negb]; [|intros H; by apply not_elem_of_nil in H].
  destruct (JSON_parse _) as [v|] eqn:Ep; cbn; [|intros H; by apply not_elem_of_nil in H].
  destruct v as [| | | | |o]; cbn; try (intros H; by apply not_elem_of_nil in H).
  destruct (mapping_pairs o) as [l|] eqn:El; cbn; [|intros H; by apply not_elem_of_nil in H].
  rewrite elem_of_dedup. intros (e & -> & He)%list_elem_of_fmap. apply elem_of_lfilter in He as [He Hf].
  apply andb_true_iff in Hf as [_ Hf%negb_true_iff]. rewrite mem_false in Hf.
  destruct (mapping_pairs_sources o l El e He) as [Hs Hne]. apply missing_spec. exists o.
  assert (Ht : trim (default [] mapping) <> []) by (unfold filled in Ef; by apply truthy_true).
  split; [|split; [unfold parse_mapping; by rewrite Ep|split; [done|split; [done|]]]].
  - apply andb_true_iff. split; [|apply negb_true_iff, js_eqb_false; done].
    destruct (default [] mapping); [|done]. by destruct Ht.
  - intros (w & Ew & Hw)%list_elem_of_fmap. apply Hf. rewrite Ew. eapply Forall_forall in Hc as (_ & -> & _); done.
Qed.

(** ** Examples *)

Definition object_text (l : list (jstr * jstr)) : jstr := JSON_stringify (JObj (List.map (fun p => (p.1, JStr p.2)) l)).
Definition filled_form (models key : jstr) (mapping status : list (jstr * jstr)) : ChannelFormValues :=
  let d := CHANNEL_FORM_DEFAULT_VALUES in
  MkForm (js "main") 1 (f_base_url d) key (f_openai_organization d) models (f_group d) (Some (object_text mapping)) (f_priority d) (f_weight d)
    (f_test_model d) (f_auto_ban d) (f_status d) (Some (object_text status)) (f_tag d) (f_remark d) (f_setting d) (f_param_override d)
    (f_header_override d) (f_settings d) (f_other d) (f_multi_key_mode d) (f_multi_key_type d) (f_batch_add_set_key_prefix_2_name d)
    (f_key_mode d) (f_force_format d) (f_thinking_to_content d) (f_proxy d) (f_pass_through_body_enabled d) (f_system_prompt d)
    (f_system_prompt_override d) (f_is_enterprise_account d) (f_vertex_key_type d) (f_aws_key_type d) (f_azure_responses_version d)
    (f_allow_service_tier d) (f_disable_store d) (f_allow_safety_identifier d) (f_allow_include_obfuscation d)
    (f_allow_inference_geo d) (f_allow_speed d) (f_claude_beta_query d) (f_check_enabled d) (f_auto_sync_enabled d) (f_ignored_models d).

(** A new channel with a risky redirect and a mapping from a model it does not offer. *)
Definition asked_events : list drawer_event :=
  [OpenNew; EditForm (filled_form (js "o3") (js "sk-1") [(js "gpt-4o", js "o3")] [(js "504", js "500")]); Submit; RiskAnswered true].

Definition last_request (evs : list drawer_event) : option save_request :=
  match last (dw_log (drawer_after evs)) with Some (ESend r) => Some r | _ => None end.

Lemma sent_is_checked_witness :
  exists r, last_request (asked_events ++ [MissingAnswered act_add]) = Some r /\
  exists evs0 es1 es2, asked_events ++ [MissingAnswered act_add] = evs0 ++ Submit :: es1 ++ es2 /\
    submit_passed evs0 /\ risks_cleared evs0 es1.
Proof.
  destruct (last_request (asked_events ++ [MissingAnswered act_add])) as [r|] eqn:E; [|vm_compute in E; discriminate E].
  exists r. split; [reflexivity|].
  destruct (sent_is_checked asked_events (MissingAnswered act_add) r) as (evs0 & es1 & es2 & H1 & H2 & H3 & _); [|eauto 10].
  exists [ESend r]. split; [|by left]. vm_compute in E. injection E as <-. vm_compute. reflexivity.
Defined.

Lemma added_models_offered_witness :
  exists p, dw_missing (drawer_after asked_events) = Some p /\ pd_items p = [js "gpt-4o"] /\
    findMissingModelsInMapping (mapping_of (pd_data p))
      (parseModelsString (f_models (dw_form (drawer_step (MissingAnswered act_add) (drawer_after asked_events))))) = [].
Proof.
  destruct (dw_missing (drawer_after asked_events)) as [p|] eqn:E; [|vm_compute in E; discriminate E]. exists p.
  assert (Hm : pd_items p = [js "gpt-4o"]).
  { transitivity (match dw_missing (drawer_after asked_events) with Some q => pd_items q | None => [] end); [by rewrite E|vm_compute; reflexivity]. }
  split; [done|]. split; [exact Hm|].
  apply (added_models_offered _ p (drawer_after_reachable asked_events) E). rewrite Hm.
  constructor; [|constructor]. apply (bool_decide_eq_true (_ ∉ _)). vm_compute. reflexivity.
Defined.

(** A name with a comma is still missing after it was added. *)
Lemma comma_source_stays_missing :
  let d := drawer_after [OpenNew; EditForm (filled_form (js "o3") (js "sk-1") [(js "a,b", js "o3")] []); Submit; MissingAnswered act_add] in
  findMissingModelsInMapping (mapping_of (dw_form d)) (parseModelsString (f_models (dw_form d))) = [js "a,b"].
Proof. vm_compute. reflexivity. Qed.

(** Models chosen while others are being fetched are lost. *)
Lemma fetch_overwrites_models :
  f_models (dw_form (drawer_after
    [OpenNew; EditForm (filled_form (js "o3") (js "sk-1") [] []); FetchModels; SelectModels [js "o3"; js "mine"];
     ModelsFetched 0 (inl (Some [js "gpt-4o"]))])) = js "o3,gpt-4o".
Proof. vm_compute. reflexivity. Qed.

(** An answer that comes late closes the drawer of another channel. *)
Lemma late_save_closes_next :
  let evs := [OpenNew; EditForm (filled_form (js "o3") (js "sk-1") [] []); Submit; CloseDrawer; OpenEdit 7] in
  dw_open (drawer_after evs) = true /\ dw_open (drawer_after (evs ++ [SaveAnswered 0 (inl true)])) = false.
Proof. vm_compute. auto. Qed.

(** A mapping to an empty name is asked about, and the guardrail does not show it. *)
Lemma guardrail_incomplete :
  let mapping := object_text [(js "gpt-4o", [])] in
  missingSourceModels (modelMappingGuardrail (Some mapping) [js "o3"]) = [] /\
  findMissingModelsInMapping mapping [js "o3"] = [js "gpt-4o"].
Proof. vm_compute. auto. Qed.

(** A failed update is reported as a failed creation. *)
Lemma update_failure_message :
  last (dw_log (drawer_after [Loaded None 7 false (MkApi (js "main") 1 None None (js "o3") (js "default") None None None None None (num_of_Z 1) None None [] None None None (js "{}") [] (js "single"));
    Submit; SaveAnswered 0 (inr None)])) = Some (EError (js "Failed to create channel")).
Proof. vm_compute. reflexivity. Qed.
