(* ===== verification/GroupEditor.v ===== *)
(** * The groups of users

    [features/system-settings/models/group-ratio-visual-editor.tsx] and
    [group-special-usable-editor.tsx]: tables and dialogs over the six JSON texts of the group
    form ([RatioEditor.GroupFormValues]).  The table of pricing groups keeps its own rows beside
    the texts and rebuilds them when the texts change under it ([sync]); the other parts read
    the texts at every rendering; the special rules are read once, when their editor appears.

    Objects have their own keys only.  The dialogs expect the texts to hold objects; for a text
    that is some other JSON document they give [None] here, and what they do then is not
    modelled.  A row's identifier comes from a counter of the module, which is part of the
    state. *)
From S2P Require Import Prelude Numbers Json JsonRoundtrip JsonPretty Settings RatioEditor.
Local Open Scope js_scope.

(** ** Rows of the table *)

Record GroupPricingRow : Type := MkGroupRow {
  g_id : jstr; g_name : jstr; g_ratio : number; g_selectable : bool; g_description : jstr
}.
#[export] Instance group_row_eq_dec : EqDecision GroupPricingRow.
Proof. solve_decision. Defined.

Definition createGroupPricingId (counter : N) : jstr * N :=
  let counter := (counter + 1)%N in (js "gpr_" ++ dec_digits counter, counter).

Definition normalize_number (parsed : number) : number := if is_finite parsed then parsed else one.
Definition normalizeRatio (value : option json) : outcome number := let! parsed := to_Number value in Ret (normalize_number parsed).

(** [Object.keys] and reading a property: null has none. *)
Definition own_props (v : json) : outcome object := match v with JNull => Throw | _ => Ret (spread v) end.

(** [String(v ?? '')] *)
Definition text_or_blank (v : option json) : outcome jstr :=
  match v with None | Some JNull => Ret [] | Some w => to_String w end.

Fixpoint group_rows (ratioMap usableMap : object) (names : list jstr) (counter : N) : outcome (list GroupPricingRow * N) :=
  match names with
  | [] => Ret ([], counter)
  | name :: rest =>
      let (id, counter) := createGroupPricingId counter in
      let! ratio := normalizeRatio (obj_get name ratioMap) in
      let! description := text_or_blank (obj_get name usableMap) in
      let! rows := group_rows ratioMap usableMap rest counter in
      Ret (MkGroupRow id name ratio (obj_has name usableMap) description :: rows.1, rows.2)
  end.

Definition buildGroupPricingRows (groupRatio userUsableGroups : jstr) (counter : N) : outcome (list GroupPricingRow * N) :=
  let! ratioMap := own_props (safeJsonParse (Some groupRatio) (Some (JObj []))) in
  let! usableMap := own_props (safeJsonParse (Some userUsableGroups) (Some (JObj []))) in
  group_rows ratioMap usableMap (dedup (ratioMap.*1 ++ usableMap.*1)) counter.

(** The two objects the loop of [serializeGroupPricingRows] fills. *)
Definition add_group (acc : object * object) (row : GroupPricingRow) : object * object :=
  let name := trim (g_name row) in
  if truthy name
  then (obj_set name (JNum (normalize_number (g_ratio row))) acc.1,
        if g_selectable row then obj_set name (JStr (g_description row)) acc.2 else acc.2)
  else acc.
Definition group_maps (rows : list GroupPricingRow) : object * object := foldl add_group ([], []) rows.
Definition serializeGroupPricingRows (rows : list GroupPricingRow) : jstr * jstr :=
  (JSON_pretty (JObj (group_maps rows).1), JSON_pretty (JObj (group_maps rows).2)).

Definition sourceGroupPricingSignature (groupRatio userUsableGroups : jstr) : jstr :=
  JSON_stringify (JObj [(js "groupRatio", safeJsonParse (Some groupRatio) (Some (JObj [])));
                        (js "userUsableGroups", safeJsonParse (Some userUsableGroups) (Some (JObj [])))]).
Definition groupPricingSignature (rows : list GroupPricingRow) : jstr :=
  let serialized := serializeGroupPricingRows rows in
  JSON_stringify (JObj [(js "groupRatio", safeJsonParse (Some serialized.1) (Some (JObj [])));
                        (js "userUsableGroups", safeJsonParse (Some serialized.2) (Some (JObj [])))]).

(** [duplicateNames] *)
Definition row_names (rows : list GroupPricingRow) : list jstr := filter_truthy (List.map (fun r => trim (g_name r)) rows).
Definition count (name : jstr) (names : list jstr) : nat := length (List.filter (js_eqb name) names).
Definition duplicateNames (rows : list GroupPricingRow) : list jstr :=
  List.filter (fun n => Nat.ltb 1 (count n (row_names rows))) (dedup (row_names rows)).

(** *** The name of a new row *)

Definition group_label (index : N) : jstr := js "group_" ++ dec_digits index.
Fixpoint free_label (fuel : nat) (existing : list jstr) (index : N) : option jstr :=
  match fuel with
  | O => None
  | S fuel' => if mem (group_label index) existing then free_label fuel' existing (index + 1)%N else Some (group_label index)
  end.

(** [addRow] tries the numbers from one on; one more than there are rows is enough. *)
Definition new_row_name (rows : list GroupPricingRow) : option jstr := free_label (S (length rows)) (List.map g_name rows) 1.

(** ** The table

    [sync] is the effect on the two texts: it runs when the component appears and whenever one
    of them is not the one of the last run. *)

Record GroupTable : Type := MkGroupTable { gt_rows : list GroupPricingRow; gt_seen : option (jstr * jstr); gt_counter : N }.

Definition set_group_texts (ratio usable : jstr) (v : GroupFormValues) : GroupFormValues :=
  MkGroupForm ratio (TopupGroupRatio v) usable (GroupGroupRatio v) (AutoGroups v) (DefaultUseAutoGroup v) (GroupSpecialUsableGroup v).

Definition group_texts (v : GroupFormValues) : jstr * jstr := (GroupRatio v, UserUsableGroups v).

Definition sync (v : GroupFormValues) (t : GroupTable) : outcome GroupTable :=
  if gt_seen t === Some (group_texts v) then Ret t
  else if groupPricingSignature (gt_rows t) === sourceGroupPricingSignature (GroupRatio v) (UserUsableGroups v)
  then Ret (MkGroupTable (gt_rows t) (Some (group_texts v)) (gt_counter t))
  else let! built := buildGroupPricingRows (GroupRatio v) (UserUsableGroups v) (gt_counter t) in
       Ret (MkGroupTable built.1 (Some (group_texts v)) built.2).

Definition mount_table (v : GroupFormValues) (counter : N) : outcome GroupTable :=
  let! built := buildGroupPricingRows (GroupRatio v) (UserUsableGroups v) counter in
  sync v (MkGroupTable built.1 None built.2).

Inductive row_change : Type :=
| RowName (s : jstr) | RowRatio (typed : jstr) | RowSelectable (b : bool) | RowDescription (s : jstr).

Definition change_row (c : row_change) (r : GroupPricingRow) : GroupPricingRow :=
  match c with
  | RowName s => MkGroupRow (g_id r) s (g_ratio r) (g_selectable r) (g_description r)
  | RowRatio typed => MkGroupRow (g_id r) (g_name r) (normalize_number (Number typed)) (g_selectable r) (g_description r)
  | RowSelectable b => MkGroupRow (g_id r) (g_name r) (g_ratio r) b (g_description r)
  | RowDescription s => MkGroupRow (g_id r) (g_name r) (g_ratio r) (g_selectable r) s
  end.

Inductive group_event : Type := UpdateRow (id : jstr) (c : row_change) | AddRow | RemoveRow (id : jstr).

(** The rows an event hands to [emitRows]. *)
Definition next_rows (ev : group_event) (t : GroupTable) : list GroupPricingRow * N :=
  match ev with
  | UpdateRow id c => (List.map (fun r => if g_id r === id then change_row c r else r) (gt_rows t), gt_counter t)
  | AddRow =>
      match new_row_name (gt_rows t) with
      | Some name => let (id, counter) := createGroupPricingId (gt_counter t) in
                     (gt_rows t ++ [MkGroupRow id name one true []], counter)
      | None => (gt_rows t, gt_counter t)
      end
  | RemoveRow id => (List.filter (fun r => g_id r !== id) (gt_rows t), gt_counter t)
  end.

(** [emitRows] *)
Definition emitRows (next : list GroupPricingRow * N) (v : GroupFormValues) (t : GroupTable) : GroupFormValues * GroupTable :=
  let serialized := serializeGroupPricingRows next.1 in
  (set_group_texts serialized.1 serialized.2 v, MkGroupTable next.1 (gt_seen t) next.2).

(** ** Top-up ratios, overrides and the automatic groups *)

Inductive simple_type : Type := OfGroups | OfTopups.
Record SimpleGroup : Type := MkSimple { sg_name : jstr; sg_value : jstr }.
Record GroupOverride : Type := MkGroupOverride { ov_targetGroup : jstr; ov_ratio : json }.

Definition simple_text (type : simple_type) (v : GroupFormValues) : jstr :=
  match type with OfGroups => GroupRatio v | OfTopups => TopupGroupRatio v end.
Definition set_simple (type : simple_type) (text : jstr) (v : GroupFormValues) : GroupFormValues :=
  match type with
  | OfGroups => set_group_texts text (UserUsableGroups v) v
  | OfTopups => MkGroupForm (GroupRatio v) text (UserUsableGroups v) (GroupGroupRatio v) (AutoGroups v) (DefaultUseAutoGroup v) (GroupSpecialUsableGroup v)
  end.
Definition set_overrides (text : jstr) (v : GroupFormValues) : GroupFormValues :=
  MkGroupForm (GroupRatio v) (TopupGroupRatio v) (UserUsableGroups v) text (AutoGroups v) (DefaultUseAutoGroup v) (GroupSpecialUsableGroup v).
Definition set_auto (text : jstr) (v : GroupFormValues) : GroupFormValues :=
  MkGroupForm (GroupRatio v) (TopupGroupRatio v) (UserUsableGroups v) (GroupGroupRatio v) text (DefaultUseAutoGroup v) (GroupSpecialUsableGroup v).
Definition set_special (text : jstr) (v : GroupFormValues) : GroupFormValues :=
  MkGroupForm (GroupRatio v) (TopupGroupRatio v) (UserUsableGroups v) (GroupGroupRatio v) (AutoGroups v) (DefaultUseAutoGroup v) text.

(** The value [JSON.stringify] writes for a number that is not finite is null. *)
Definition save_simple (edited : option SimpleGroup) (name value : jstr) (map : object) : object :=
  let map := match edited with
             | Some e => if sg_name e !== name then obj_delete (sg_name e) map else map
             | None => map
             end in
  obj_set name (JNum (parseFloat value)) map.
Definition handleSimpleSave (type : simple_type) (edited : option SimpleGroup) (name value : jstr) (v : GroupFormValues)
    : option GroupFormValues :=
  map ← read_map (simple_text type v); Some (set_simple type (JSON_pretty (JObj (save_simple edited name value map))) v).
Definition handleSimpleDelete (type : simple_type) (name : jstr) (v : GroupFormValues) : option GroupFormValues :=
  map ← read_map (simple_text type v); Some (set_simple type (JSON_pretty (JObj (obj_delete name map))) v).

Definition auto_list (v : GroupFormValues) : option (list json) :=
  match safeJsonParse (Some (AutoGroups v)) (Some (JArr [])) with JArr l => Some l | _ => None end.
Definition handleAutoGroupSave (input : jstr) (v : GroupFormValues) : option GroupFormValues :=
  if truthy (trim input)
  then l ← auto_list v; Some (set_auto (JSON_pretty (JArr (l ++ [JStr (trim input)]))) v)
  else Some v.
Definition handleAutoGroupDelete (index : nat) (v : GroupFormValues) : option GroupFormValues :=
  l ← auto_list v; Some (set_auto (JSON_pretty (JArr (delete index l))) v).

Inductive direction : Type := Up | Down.
(** The buttons at the ends of the list are disabled and the handler checks again; [index] is the one of a row. *)
Definition swap (i j : nat) (l : list json) : list json :=
  match l !! i, l !! j with Some x, Some y => <[j := x]> (<[i := y]> l) | _, _ => l end.
Definition move (index : nat) (d : direction) (l : list json) : option (list json) :=
  match d with
  | Up => match index with O => None | S i => Some (swap index i l) end
  | Down => if Nat.leb (length l) (S index) then None else Some (swap index (S index) l)
  end.
Definition handleAutoGroupMove (index : nat) (d : direction) (v : GroupFormValues) : option GroupFormValues :=
  l ← auto_list v;
  Some (match move index d l with Some l' => set_auto (JSON_pretty (JArr l')) v | None => v end).

(** [if (!map[userGroup]) map[userGroup] = {}] *)
Definition truthy_prop (k : jstr) (o : object) : bool := match obj_get k o with Some w => json_truthy w | None => false end.
Definition ensure_group (userGroup : jstr) (map : object) : object :=
  if truthy_prop userGroup map then map else obj_set userGroup (JObj []) map.
Definition handleUserGroupSave (input : jstr) (v : GroupFormValues) : option GroupFormValues :=
  if truthy (trim input)
  then map ← read_map (GroupGroupRatio v); Some (set_overrides (JSON_pretty (JObj (ensure_group (trim input) map))) v)
  else Some v.
Definition handleUserGroupDelete (userGroup : jstr) (v : GroupFormValues) : option GroupFormValues :=
  map ← read_map (GroupGroupRatio v); Some (set_overrides (JSON_pretty (JObj (obj_delete userGroup map))) v).

Definition save_override (userGroup targetGroup : jstr) (ratio : number) (old : option jstr) (map : object) : option object :=
  let map := ensure_group userGroup map in
  match obj_get userGroup map with
  | Some (JObj inner) =>
      let inner := match old with
                   | Some o => if truthy o && (o !== targetGroup) then obj_delete o inner else inner
                   | None => inner
                   end in
      Some (obj_set userGroup (JObj (obj_set targetGroup (JNum ratio) inner)) map)
  | _ => None
  end.
Definition handleOverrideSave (userGroup targetGroup : jstr) (ratio : number) (old : option jstr) (v : GroupFormValues)
    : option GroupFormValues :=
  if truthy userGroup
  then map ← read_map (GroupGroupRatio v); map' ← save_override userGroup targetGroup ratio old map;
       Some (set_overrides (JSON_pretty (JObj map')) v)
  else Some v.

Definition delete_override (userGroup targetGroup : jstr) (map : object) : option object :=
  match obj_get userGroup map with
  | Some (JObj inner) =>
      let inner := obj_delete targetGroup inner in
      Some (match inner with [] => obj_delete userGroup map | _ => obj_set userGroup (JObj inner) map end)
  | Some w => if json_truthy w then None else Some map
  | None => Some map
  end.
Definition handleOverrideDelete (userGroup targetGroup : jstr) (v : GroupFormValues) : option GroupFormValues :=
  map ← read_map (GroupGroupRatio v); map' ← delete_override userGroup targetGroup map;
  Some (set_overrides (JSON_pretty (JObj map')) v).

(** *** What the lists show *)

Definition topupRatioList (v : GroupFormValues) : option (outcome (list SimpleGroup)) :=
  map ← read_map (TopupGroupRatio v);
  Some (foldr (fun p acc => let! s := to_String p.2 in let! l := acc in Ret (MkSimple p.1 s :: l)) (Ret []) map).
Definition groupGroupRatioList (v : GroupFormValues) : option (outcome (list (jstr * list GroupOverride))) :=
  map ← read_map (GroupGroupRatio v);
  Some (foldr (fun p acc => let! inner := own_props p.2 in let! l := acc in
                            Ret ((p.1, List.map (fun q => MkGroupOverride q.1 q.2) inner) :: l)) (Ret []) map).

(** ** The dialogs and the whole panel

    A dialog is [None] while it is closed; opening one fills its fields, closing one forgets
    them.  The fields of the ratio only take texts that begin with a number. *)

Record SimpleDialog : Type := MkSimpleDialog { sd_type : simple_type; sd_edit : option SimpleGroup; sd_name : jstr; sd_value : jstr }.
Record OverrideDialog : Type := MkOverrideDialog {
  od_userGroup : jstr; od_edit : option GroupOverride; od_targetGroup : jstr; od_ratio : jstr
}.

Definition open_simple (type : simple_type) (edit : option SimpleGroup) : SimpleDialog :=
  MkSimpleDialog type edit (default [] (sg_name <$> edit)) (default [] (sg_value <$> edit)).
(** [String(editData.ratio)] may throw for a ratio that is an object. *)
Definition open_override (userGroup : jstr) (edit : option GroupOverride) : option OverrideDialog :=
  match edit with
  | None => Some (MkOverrideDialog userGroup None [] [])
  | Some e => match to_String (ov_ratio e) with Ret s => Some (MkOverrideDialog userGroup edit (ov_targetGroup e) s) | Throw => None end
  end.

Definition ratio_typed (val : jstr) : bool := negb (truthy val) || negb (is_nan (parseFloat val)).

(** The texts a dialog hands to its handler, when it does. *)
Definition simple_entry (d : SimpleDialog) : option (jstr * jstr) :=
  if truthy (trim (sd_name d)) && truthy (trim (sd_value d)) then Some (trim (sd_name d), trim (sd_value d)) else None.
Definition override_entry (d : OverrideDialog) : option (jstr * number * option jstr) :=
  if truthy (trim (od_targetGroup d)) && truthy (trim (od_ratio d)) && negb (is_nan (parseFloat (od_ratio d)))
  then Some (trim (od_targetGroup d), parseFloat (od_ratio d), ov_targetGroup <$> od_edit d) else None.

Record GroupPanel : Type := MkGroupPanel {
  gp_form : GroupFormValues; gp_table : GroupTable; gp_simple : option SimpleDialog; gp_auto : option jstr;
  gp_user : option jstr; gp_override : option OverrideDialog
}.

Inductive groups_event : Type :=
| Table (ev : group_event)
| OpenSimple (type : simple_type) (edit : option SimpleGroup) | TypeSimpleName (s : jstr) | TypeSimpleValue (s : jstr)
| SaveSimple | CloseSimple | DeleteSimple (type : simple_type) (name : jstr)
| OpenAuto | TypeAuto (s : jstr) | SaveAuto | CloseAuto | DeleteAuto (index : nat) | MoveAuto (index : nat) (d : direction)
| OpenUser | TypeUser (s : jstr) | SaveUser | CloseUser | DeleteUser (userGroup : jstr)
| OpenOverride (userGroup : jstr) (edit : option GroupOverride) | TypeTarget (s : jstr) | TypeRatio (s : jstr)
| SaveOverride | CloseOverride | DeleteOverride (userGroup targetGroup : jstr)
| FormChanged (v : GroupFormValues).

Definition with_form (v : GroupFormValues) (p : GroupPanel) : GroupPanel :=
  MkGroupPanel v (gp_table p) (gp_simple p) (gp_auto p) (gp_user p) (gp_override p).
Definition with_table (t : GroupTable) (p : GroupPanel) : GroupPanel :=
  MkGroupPanel (gp_form p) t (gp_simple p) (gp_auto p) (gp_user p) (gp_override p).
Definition with_simple (d : option SimpleDialog) (p : GroupPanel) : GroupPanel :=
  MkGroupPanel (gp_form p) (gp_table p) d (gp_auto p) (gp_user p) (gp_override p).
Definition with_auto (d : option jstr) (p : GroupPanel) : GroupPanel :=
  MkGroupPanel (gp_form p) (gp_table p) (gp_simple p) d (gp_user p) (gp_override p).
Definition with_user (d : option jstr) (p : GroupPanel) : GroupPanel :=
  MkGroupPanel (gp_form p) (gp_table p) (gp_simple p) (gp_auto p) d (gp_override p).
Definition with_override (d : option OverrideDialog) (p : GroupPanel) : GroupPanel :=
  MkGroupPanel (gp_form p) (gp_table p) (gp_simple p) (gp_auto p) (gp_user p) d.

(** What the callback of an event does, before the effect. *)
Definition panel_handle (ev : groups_event) (p : GroupPanel) : option GroupPanel :=
  let v := gp_form p in
  match ev with
  | Table ev => let (v', t') := emitRows (next_rows ev (gp_table p)) v (gp_table p) in Some (with_table t' (with_form v' p))
  | OpenSimple type edit => Some (with_simple (Some (open_simple type edit)) p)
  | TypeSimpleName s =>
      Some (with_simple ((fun d => if sd_edit d then d else MkSimpleDialog (sd_type d) (sd_edit d) s (sd_value d)) <$> gp_simple p) p)
  | TypeSimpleValue s =>
      Some (with_simple ((fun d => if ratio_typed s then MkSimpleDialog (sd_type d) (sd_edit d) (sd_name d) s else d) <$> gp_simple p) p)
  | SaveSimple =>
      match gp_simple p with
      | Some d => match simple_entry d with
                  | Some (name, value) => v' ← handleSimpleSave (sd_type d) (sd_edit d) name value v; Some (with_simple None (with_form v' p))
                  | None => Some p
                  end
      | None => Some p
      end
  | CloseSimple => Some (with_simple None p)
  | DeleteSimple type name => v' ← handleSimpleDelete type name v; Some (with_form v' p)
  | OpenAuto => Some (with_auto (Some []) p)
  | TypeAuto s => Some (with_auto ((fun _ => s) <$> gp_auto p) p)
  | SaveAuto =>
      match gp_auto p with
      | Some input => if truthy (trim input) then v' ← handleAutoGroupSave input v; Some (with_auto None (with_form v' p)) else Some p
      | None => Some p
      end
  | CloseAuto => Some (with_auto None p)
  | DeleteAuto index => v' ← handleAutoGroupDelete index v; Some (with_form v' p)
  | MoveAuto index d => v' ← handleAutoGroupMove index d v; Some (with_form v' p)
  | OpenUser => Some (with_user (Some []) p)
  | TypeUser s => Some (with_user ((fun _ => s) <$> gp_user p) p)
  | SaveUser =>
      match gp_user p with
      | Some input => if truthy (trim input) then v' ← handleUserGroupSave input v; Some (with_user None (with_form v' p)) else Some p
      | None => Some p
      end
  | CloseUser => Some (with_user None p)
  | DeleteUser userGroup => v' ← handleUserGroupDelete userGroup v; Some (with_form v' p)
  | OpenOverride userGroup edit => d ← open_override userGroup edit; Some (with_override (Some d) p)
  | TypeTarget s =>
      Some (with_override ((fun d => if od_edit d then d else MkOverrideDialog (od_userGroup d) (od_edit d) s (od_ratio d)) <$> gp_override p) p)
  | TypeRatio s =>
      Some (with_override ((fun d => if ratio_typed s then MkOverrideDialog (od_userGroup d) (od_edit d) (od_targetGroup d) s else d) <$> gp_override p) p)
  | SaveOverride =>
      match gp_override p with
      | Some d => match override_entry d with
                  | Some (target, ratio, old) =>
                      if truthy (od_userGroup d)
                      then v' ← handleOverrideSave (od_userGroup d) target ratio old v; Some (with_override None (with_form v' p))
                      else Some (with_override (Some (MkOverrideDialog (od_userGroup d) (od_edit d) [] [])) p)
                  | None => Some p
                  end
      | None => Some p
      end
  | CloseOverride => Some (with_override None p)
  | DeleteOverride userGroup targetGroup => v' ← handleOverrideDelete userGroup targetGroup v; Some (with_form v' p)
  | FormChanged v' => Some (with_form v' p)
  end.

Definition after_effect (p : GroupPanel) : option GroupPanel :=
  match sync (gp_form p) (gp_table p) with Ret t => Some (with_table t p) | Throw => None end.
Definition groups_step (ev : groups_event) (p : GroupPanel) : option GroupPanel := p' ← panel_handle ev p; after_effect p'.
Definition mount_panel (v : GroupFormValues) (counter : N) : option GroupPanel :=
  match mount_table v counter with Ret t => Some (MkGroupPanel v t None None None None) | Throw => None end.

Inductive panel_reachable : GroupPanel -> Prop :=
| panel_mounted v counter p : mount_panel v counter = Some p -> panel_reachable p
| panel_stepped ev p p' : panel_reachable p -> groups_step ev p = Some p' -> panel_reachable p'.

(** ** Special rules *)

Inductive OpType : Type := OP_ADD | OP_REMOVE | OP_APPEND.
#[export] Instance op_type_eq_dec : EqDecision OpType.
Proof. solve_decision. Defined.

Record Rule : Type := MkRule { ru_id : jstr; ru_userGroup : jstr; ru_op : OpType; ru_targetGroup : jstr; ru_description : jstr }.

Definition uid (counter : N) : jstr * N := let counter := (counter + 1)%N in (js "gsu_" ++ dec_digits counter, counter).

Definition parsePrefix (rawKey : jstr) : OpType * jstr :=
  if starts_with (js "+:") rawKey then (OP_ADD, drop 2 rawKey)
  else if starts_with (js "-:") rawKey then (OP_REMOVE, drop 2 rawKey)
  else (OP_APPEND, rawKey).
Definition toRawKey (op : OpType) (groupName : jstr) : jstr :=
  match op with OP_ADD => js "+:" ++ groupName | OP_REMOVE => js "-:" ++ groupName | OP_APPEND => groupName end.

Definition safeParseJson (str : jstr) : json :=
  if negb (truthy str) || negb (truthy (trim str)) then JObj [] else try_catch (JSON_parse str) (JObj []).

Definition rule_of (userGroup rawKey : jstr) (desc : json) (counter : N) : Rule * N :=
  let (op, groupName) := parsePrefix rawKey in
  let (id, counter) := uid counter in
  (MkRule id userGroup op groupName
     (if op === OP_REMOVE then js "remove" else match desc with JStr s => s | _ => [] end), counter).
Fixpoint rules_of_group (userGroup : jstr) (inner : object) (counter : N) : list Rule * N :=
  match inner with
  | [] => ([], counter)
  | (rawKey, desc) :: inner' =>
      let (r, counter) := rule_of userGroup rawKey desc counter in
      let (rs, counter) := rules_of_group userGroup inner' counter in (r :: rs, counter)
  end.
(** An array is an object too; its keys are its indices. *)
Fixpoint rules_of (nested : object) (counter : N) : list Rule * N :=
  match nested with
  | [] => ([], counter)
  | (userGroup, inner) :: nested' =>
      let (rs, counter) := match inner with
                           | JObj _ | JArr _ => rules_of_group userGroup (spread inner) counter
                           | _ => ([], counter)
                           end in
      let (rest, counter) := rules_of nested' counter in (rs ++ rest, counter)
  end.
Definition flattenRules (nested : json) (counter : N) : outcome (list Rule * N) :=
  let! entries := own_props nested in Ret (rules_of entries counter).

Definition add_rule (result : list (jstr * object)) (r : Rule) : list (jstr * object) :=
  if truthy (ru_userGroup r) && truthy (ru_targetGroup r)
  then let inner := default [] (obj_get (ru_userGroup r) result) in
       obj_set (ru_userGroup r) (obj_set (toRawKey (ru_op r) (ru_targetGroup r)) (JStr (ru_description r)) inner) result
  else result.
Definition nestRules (rules : list Rule) : list (jstr * object) := foldl add_rule [] rules.
Definition nested_json (nested : list (jstr * object)) : json := JObj (List.map (fun p => (p.1, JObj p.2)) nested).
Definition serializeRules (rules : list Rule) : jstr :=
  match nestRules rules with [] => js "{}" | nested => JSON_pretty (nested_json nested) end.

(** *** The editor *)

Record SpecialRules : Type := MkSpecialRules { sr_rules : list Rule; sr_newGroupName : jstr; sr_counter : N }.

Inductive rule_change : Type := RuleOp (op : OpType) | RuleTarget (s : jstr) | RuleDescription (s : jstr).
Definition change_rule (c : rule_change) (r : Rule) : Rule :=
  match c with
  | RuleOp op =>
      let description :=
        if op === OP_REMOVE then js "remove"
        else if (ru_op r === OP_REMOVE) && (ru_description r === js "remove") then [] else ru_description r in
      MkRule (ru_id r) (ru_userGroup r) op (ru_targetGroup r) description
  | RuleTarget s => MkRule (ru_id r) (ru_userGroup r) (ru_op r) s (ru_description r)
  | RuleDescription s => MkRule (ru_id r) (ru_userGroup r) (ru_op r) (ru_targetGroup r) s
  end.

Inductive rules_event : Type :=
| UpdateRule (id : jstr) (c : rule_change) | RemoveRule (id : jstr) | RemoveGroup (groupName : jstr)
| AddRuleToGroup (groupName : jstr) | TypeGroupName (s : jstr) | AddNewGroup.

Definition append_rule (groupName : jstr) (e : SpecialRules) : list Rule * N :=
  let (id, counter) := uid (sr_counter e) in (sr_rules e ++ [MkRule id groupName OP_APPEND [] []], counter).

(** The new state and the text that [onChange] gets, if it is called. *)
Definition rules_step (ev : rules_event) (e : SpecialRules) : SpecialRules * option jstr :=
  let emit (rules : list Rule) (name : jstr) (counter : N) := (MkSpecialRules rules name counter, Some (serializeRules rules)) in
  match ev with
  | UpdateRule id c => emit (List.map (fun r => if ru_id r !== id then r else change_rule c r) (sr_rules e)) (sr_newGroupName e) (sr_counter e)
  | RemoveRule id => emit (List.filter (fun r => ru_id r !== id) (sr_rules e)) (sr_newGroupName e) (sr_counter e)
  | RemoveGroup g => emit (List.filter (fun r => ru_userGroup r !== g) (sr_rules e)) (sr_newGroupName e) (sr_counter e)
  | AddRuleToGroup g => let (rules, counter) := append_rule g e in emit rules (sr_newGroupName e) counter
  | TypeGroupName s => (MkSpecialRules (sr_rules e) s (sr_counter e), None)
  | AddNewGroup =>
      let name := trim (sr_newGroupName e) in
      if truthy name then let (rules, counter) := append_rule name e in emit rules [] counter else (e, None)
  end.

Definition mount_rules (value : jstr) (counter : N) : outcome SpecialRules :=
  let! rules := flattenRules (safeParseJson value) counter in Ret (MkSpecialRules rules.1 [] rules.2).

(** [grouped] *)
Definition grouped (rules : list Rule) : list (jstr * list Rule) :=
  List.map (fun name => (name, List.filter (fun r => ru_userGroup r === name) rules))
    (dedup (filter_truthy (List.map ru_userGroup rules))).

(** ** The table shows the texts *)

(** The rows are written as the texts, or were read from them. *)
Definition in_step (p : GroupPanel) : Prop :=
  let v := gp_form p in
  gt_seen (gp_table p) = Some (group_texts v) /\
  (groupPricingSignature (gt_rows (gp_table p)) = sourceGroupPricingSignature (GroupRatio v) (UserUsableGroups v)
   \/ exists counter counter', buildGroupPricingRows (GroupRatio v) (UserUsableGroups v) counter = Ret (gt_rows (gp_table p), counter')).

Definition matches (v : GroupFormValues) (t : GroupTable) : Prop :=
  groupPricingSignature (gt_rows t) = sourceGroupPricingSignature (GroupRatio v) (UserUsableGroups v)
  \/ exists counter counter', buildGroupPricingRows (GroupRatio v) (UserUsableGroups v) counter = Ret (gt_rows t, counter').

Lemma sync_matches v t t' :
  (gt_seen t = Some (group_texts v) -> matches v t) -> sync v t = Ret t' -> gt_seen t' = Some (group_texts v) /\ matches v t'.
Proof.
  unfold sync. intros Hm. destruct (gt_seen t === _) eqn:E; bools.
  - intros [= <-]. auto.
  - destruct (groupPricingSignature _ === _) eqn:Es; bools.
    + intros [= <-]. split; [done|]. by left.
    + destruct (buildGroupPricingRows _ _ _) as [[rows n]|] eqn:Eb; [|done]. intros [= <-]. split; [done|].
      right. by exists (gt_counter t), n.
Qed.

Lemma emitted_matches next v t : matches (emitRows next v t).1 (emitRows next v t).2.
Proof. by left. Qed.

Lemma handle_table ev p p' : panel_handle ev p = Some p' ->
  (exists tev, ev = Table tev) \/ gp_table p' = gp_table p.
Proof.
  destruct ev; cbn [panel_handle]; intros H; [left; eauto|right..];
    repeat (case_match; simplify_option_eq; try done); simplify_option_eq; done.
Qed.

Lemma texts_matches v v' t : group_texts v = group_texts v' -> matches v t -> matches v' t.
Proof. unfold group_texts, matches. by intros [= -> ->]. Qed.

Lemma step_in_step ev p p' : in_step p -> groups_step ev p = Some p' -> in_step p'.
Proof.
  intros [Hs Hm]. unfold groups_step, after_effect. destruct (panel_handle ev p) as [q|] eqn:Eh; [|done]. cbn.
  destruct (sync _ _) as [t|] eqn:Es; [|done]. intros [= <-]. apply (sync_matches (gp_form q) (gp_table q)); [|done].
  apply handle_table in Eh as Ht. intros Hq. destruct Ht as [[tev ->]|Ht].
  - cbn [panel_handle] in Eh. destruct (emitRows _ _ _) as [v' t'] eqn:Ee. simplify_eq. cbn.
    pose proof (emitted_matches (next_rows tev (gp_table p)) (gp_form p) (gp_table p)) as H. by rewrite Ee in H.
  - rewrite Ht in Hq |- *. rewrite Hs in Hq. injection Hq as H1 H2. by apply (texts_matches (gp_form p)); [unfold group_texts; congruence|].
Qed.

Lemma edit_step tev p : exists p', groups_step (Table tev) p = Some p' /\
  gt_rows (gp_table p') = (next_rows tev (gp_table p)).1 /\ group_texts (gp_form p') = serializeGroupPricingRows (next_rows tev (gp_table p)).1 /\
  set_group_texts [] [] (gp_form p') = set_group_texts [] [] (gp_form p).
Proof.
  unfold groups_step. cbn [panel_handle]. destruct (emitRows _ _ _) as [v t] eqn:Ee. unfold emitRows in Ee. injection Ee as <- <-.
  cbn [mbind option_bind]. unfold after_effect, sync. cbn [gp_form gp_table with_table with_form gt_rows gt_seen].
  destruct (gt_seen _ === _); [by eexists|]. cbn [GroupRatio UserUsableGroups set_group_texts].
  rewrite (proj2 (js_eqb_true (groupPricingSignature _) _)); [by eexists|done].
Qed.

Lemma reachable_in_step p : panel_reachable p -> in_step p.
Proof.
  induction 1 as [v n p H|ev p p' _ IH H].
  - unfold mount_panel, mount_table in H. destruct (buildGroupPricingRows _ _ _) as [[rows m]|]; [|done]. cbn in H.
    destruct (sync _ _) as [t|] eqn:Es; [|done]. simplify_eq. by apply (sync_matches v (MkGroupTable rows None m)).
  - by apply (step_in_step ev p).
Qed.

Definition two_groups : GroupFormValues :=
  MkGroupForm (JSON_pretty (JObj [(js "default", JNum one); (js "vip", JNum (num_of_Z 2))])) (js "{}")
    (JSON_pretty (JObj [(js "default", JStr (js "everyone"))])) (js "{}") (js "[]") false (js "{}").

Definition run_panel (v : GroupFormValues) (evs : list groups_event) : option GroupPanel :=
  foldl (fun o ev => p ← o; groups_step ev p) (mount_panel v 0) evs.

Lemma run_reachable v evs p : run_panel v evs = Some p -> panel_reachable p.
Proof.
  revert p. unfold run_panel. induction evs as [|ev evs IH] using rev_ind; intros p; cbn [foldl]; [apply panel_mounted|].
  rewrite foldl_app. cbn [foldl]. destruct (foldl _ _ _) as [q|]; [|done]. apply panel_stepped. by apply IH.
Qed.

(** ** Reading and writing the rows *)

Lemma group_rows_spec ratio usable names : (forall n, match obj_get n ratio with Some v => exists x, v = JNum x | None => True end) ->
  (forall n, match obj_get n usable with Some v => exists s, v = JStr s | None => True end) ->
  forall counter, exists rows counter', group_rows ratio usable names counter = Ret (rows, counter') /\
    Forall2 (fun name r => g_name r = name /\
      g_ratio r = match obj_get name ratio with Some (JNum x) => normalize_number x | _ => one end /\
      g_selectable r = obj_has name usable /\
      g_description r = match obj_get name usable with Some (JStr s) => s | _ => [] end) names rows.
Proof.
  intros Hr Hu. induction names as [|name names IH]; intros counter; cbn [group_rows].
  - exists [], counter. auto.
  - destruct (createGroupPricingId counter) as [id c] eqn:Ec. specialize (IH c) as (rows & c' & IH & Hall).
    specialize (Hr name). specialize (Hu name).
    assert (exists x, normalizeRatio (obj_get name ratio) = Ret x /\
      x = match obj_get name ratio with Some (JNum x) => normalize_number x | _ => one end) as (x & -> & Hx).
    { destruct (obj_get name ratio) as [v|]; [destruct Hr as [x ->]; by eexists|]. by eexists. }
    assert (exists s, text_or_blank (obj_get name usable) = Ret s /\
      s = match obj_get name usable with Some (JStr s) => s | _ => [] end) as (s & -> & Hs).
    { destruct (obj_get name usable) as [v|]; [destruct Hu as [s ->]; by eexists|]. by eexists. }
    cbn [obind]. rewrite IH. cbn [obind fst snd]. eexists _, _. split; [reflexivity|]. by constructor.
Qed.

Definition ratio_entries (rows : list GroupPricingRow) : object :=
  omap (fun r => if truthy (trim (g_name r)) then Some (trim (g_name r), JNum (normalize_number (g_ratio r))) else None) rows.
Definition usable_entries (rows : list GroupPricingRow) : object :=
  omap (fun r => if truthy (trim (g_name r)) && g_selectable r then Some (trim (g_name r), JStr (g_description r)) else None) rows.

Lemma group_maps_assign rows : group_maps rows = (obj_assign [] (ratio_entries rows), obj_assign [] (usable_entries rows)).
Proof.
  unfold group_maps. assert (forall a b, foldl add_group (a, b) rows = (obj_assign a (ratio_entries rows), obj_assign b (usable_entries rows))) as H; [|apply H].
  induction rows as [|r rows IH]; intros a b; [done|]. cbn [foldl]. unfold add_group at 2. cbn [fst snd ratio_entries usable_entries omap list_omap].
  destruct (truthy (trim (g_name r))); [|apply IH]. destruct (g_selectable r); rewrite IH; done.
Qed.

Lemma get_tabulate {V} (f : jstr -> V) names k : obj_get k (List.map (fun n => (n, f n)) names) = if mem k names then Some (f k) else None.
Proof.
  induction names as [|n names IH]; [done|]. cbn [List.map obj_get mem existsb]. destruct (k === n) eqn:E; bools; [by subst|].
  cbn [orb]. exact IH.
Qed.

Lemma labelled_keys {V} (f : jstr -> V) names : (List.map (fun n => (n, f n)) names).*1 = names.
Proof. induction names; cbn; congruence. Qed.

Lemma obj_ok_assign l : forall o, obj_ok o -> Forall (fun p => utf16 p.1 /\ json_ok p.2) l -> obj_ok (obj_assign o l).
Proof.
  induction l as [|p l IH]; intros o Ho Hl; [done|]. apply Forall_cons in Hl as [[H1 H2] Hl]. cbn [obj_assign foldl].
  by apply IH; [apply obj_ok_set_any|].
Qed.

(** What the two settings hold: numbers and texts, under names without white space around them. *)
Definition group_name_ok (name : jstr) : Prop := trimmed name /\ name <> [].
Record groups_ok (ratio usable : object) : Prop := MkGroupsOk {
  go_ratio : obj_ok ratio; go_usable : obj_ok usable;
  go_numbers : Forall (fun p => exists x, p.2 = JNum x) ratio; go_texts : Forall (fun p => exists s, p.2 = JStr s) usable;
  go_names : Forall group_name_ok (ratio.*1 ++ usable.*1)
}.

Definition ratio_of (ratio : object) (name : jstr) : number :=
  match obj_get name ratio with Some (JNum x) => normalize_number x | _ => one end.
Definition description_of (usable : object) (name : jstr) : jstr := match obj_get name usable with Some (JStr s) => s | _ => [] end.

Definition reads_as (ratio usable : object) (name : jstr) (r : GroupPricingRow) : Prop :=
  g_name r = name /\ g_ratio r = ratio_of ratio name /\ g_selectable r = obj_has name usable /\ g_description r = description_of usable name.

Lemma read_entries ratio usable names rows : Forall group_name_ok names -> Forall2 (reads_as ratio usable) names rows ->
  ratio_entries rows = List.map (fun n => (n, JNum (normalize_number (ratio_of ratio n)))) names /\
  usable_entries rows = List.map (fun n => (n, JStr (description_of usable n))) (List.filter (fun n => obj_has n usable) names).
Proof.
  intros Hn. induction 1 as [|n r names rows (H1 & H2 & H3 & H4) _ IH]; [done|]. apply Forall_cons in Hn as [[Ht He] Hn].
  cbn [ratio_entries usable_entries omap list_omap List.map List.filter]. rewrite H1, Ht, H2, H3, H4.
  rewrite (proj2 (truthy_true n)) by done. cbn [andb]. destruct (IH Hn) as [E1 E2]. unfold ratio_entries, usable_entries in E1, E2.
  cbn [omap] in E1, E2. rewrite E1. split; [done|]. destruct (obj_has n usable); [|done]. cbn [List.map]. by rewrite E2.
Qed.

Lemma read_map_parsed text o : read_map text = Some o -> safeJsonParse (Some text) (Some (JObj [])) = JObj o.
Proof. unfold read_map. case_match; try done. by intros [= ->]. Qed.

Lemma entries_typed {V} (P : V -> Prop) (o : list (jstr * V)) : Forall (fun p => P p.2) o -> forall n, match obj_get n o with Some v => P v | None => True end.
Proof. intros H n. destruct (obj_get n o) eqn:E; [|done]. apply obj_get_elem in E. rewrite Forall_forall in H. by apply (H (n, v)). Qed.

Lemma num_ok_one : num_ok one.
Proof. num_ok_eval. Qed.

Section resaved.
Context (ratio usable : object) (Hok : groups_ok ratio usable).

Abbreviation all_names := (dedup (ratio.*1 ++ usable.*1)).

Lemma names_ok : Forall group_name_ok all_names.
Proof. destruct Hok as [_ _ _ _ H]. rewrite Forall_forall in H |- *. intros n Hn. by apply H, (proj1 (elem_of_dedup _ _)). Qed.

Lemma names_mem name : mem name all_names = obj_has name ratio || obj_has name usable.
Proof.
  apply eq_true_iff_eq. rewrite orb_true_iff, !obj_has_true, mem_true, elem_of_dedup. apply elem_of_app.
Qed.

Lemma ratio_number name v : obj_get name ratio = Some v -> json_ok v /\ v = JNum (normalize_number (ratio_of ratio name)).
Proof.
  intros E. destruct Hok as [[_ Hr] _ Hn _ _]. apply obj_get_elem in E as Hin. rewrite Forall_forall in Hr, Hn.
  apply Hr in Hin as Hj. apply Hn in Hin as [x Hx]. cbn in Hj, Hx. subst v. split; [apply Hj|]. unfold ratio_of. rewrite E.
  destruct Hj as [_ [Hf _]]. unfold normalize_number. by rewrite !Hf.
Qed.

Lemma ratio_saved name : json_ok (JNum (normalize_number (ratio_of ratio name))).
Proof.
  destruct (obj_get name ratio) as [v|] eqn:E; [apply ratio_number in E as [H ->]; exact H|]. unfold ratio_of. rewrite E. exact num_ok_one.
Qed.

Lemma text_saved name v : obj_get name usable = Some v -> json_ok v /\ v = JStr (description_of usable name).
Proof.
  intros E. destruct Hok as [_ [_ Hr] _ Hn _]. apply obj_get_elem in E as Hin. rewrite Forall_forall in Hr, Hn.
  apply Hr in Hin as Hj. apply Hn in Hin as [x Hx]. cbn in Hj, Hx. subst v. split; [apply Hj|]. unfold description_of. by rewrite E.
Qed.

Lemma name_utf16 name : name ∈ all_names -> utf16 name.
Proof.
  intros H. apply (proj1 (elem_of_dedup _ _)), elem_of_app in H as [H|H]; apply list_elem_of_fmap in H as (p & -> & Hp);
    destruct Hok as [[_ H1] [_ H2] _ _ _]; rewrite Forall_forall in H1, H2; naive_solver.
Qed.

(** The objects that are written. *)
Definition saved_ratios : object := obj_assign [] (List.map (fun n => (n, JNum (normalize_number (ratio_of ratio n)))) all_names).
Definition saved_usable : object :=
  obj_assign [] (List.map (fun n => (n, JStr (description_of usable n))) (List.filter (fun n => obj_has n usable) all_names)).

Lemma saved_ok : obj_ok saved_ratios /\ obj_ok saved_usable.
Proof.
  split; (apply obj_ok_assign; [by split; [constructor|]|]); apply Forall_forall; intros p (n & <- & Hn)%list_elem_of_In%in_map_iff; cbn [fst snd];
    apply list_elem_of_In in Hn.
  - split; [by apply name_utf16|apply ratio_saved].
  - apply elem_of_lfilter in Hn as [Hn Hu]. split; [by apply name_utf16|].
    unfold obj_has in Hu. destruct (obj_get n usable) as [v|] eqn:E; [|done]. by apply text_saved in E as [H ->].
Qed.

Lemma saved_get name : obj_get name saved_usable = obj_get name usable /\
  obj_get name saved_ratios = match obj_get name ratio with Some v => Some v | None => if obj_has name usable then Some (JNum one) else None end.
Proof.
  pose proof (NoDup_dedup (ratio.*1 ++ usable.*1)) as Hn. unfold saved_usable, saved_ratios. split.
  - rewrite obj_get_assign, get_tabulate by (rewrite labelled_keys; by eapply sublist_NoDup, lfilter_sublist).
    destruct (mem name _) eqn:E.
    + apply mem_true, elem_of_lfilter in E as [_ E]. unfold obj_has in E. destruct (obj_get name usable) as [v|] eqn:Eg; [|done].
      by apply text_saved in Eg as [_ ->].
    + destruct (obj_get name usable) as [v|] eqn:Eg; [|done]. apply mem_false in E. destruct E. apply elem_of_lfilter.
      assert (obj_has name usable = true) as Hu by (unfold obj_has; by rewrite Eg). split; [|done].
      apply mem_true. rewrite names_mem, Hu. apply orb_true_r.
  - rewrite obj_get_assign, get_tabulate by (by rewrite labelled_keys). rewrite names_mem.
    destruct (obj_get name ratio) as [v|] eqn:E.
    + unfold obj_has at 1. rewrite E. cbn [orb]. by apply ratio_number in E as [_ ->].
    + unfold obj_has at 1. rewrite E. cbn [orb]. destruct (obj_has name usable); [|done]. unfold ratio_of. by rewrite E.
Qed.
End resaved.

(** Reading the two group settings into the table and writing the rows back loses nothing:
    the texts written hold objects again, every selectable group keeps its description, every
    group with a ratio keeps it, and the only change is that a selectable group that had no
    ratio gets the ratio one. *)
Lemma groups_resaved ratioText usableText ratio usable counter :
  read_map ratioText = Some ratio -> read_map usableText = Some usable -> groups_ok ratio usable ->
  exists rows counter' ratio' usable',
    buildGroupPricingRows ratioText usableText counter = Ret (rows, counter') /\
    read_map (serializeGroupPricingRows rows).1 = Some ratio' /\ read_map (serializeGroupPricingRows rows).2 = Some usable' /\
    forall name, obj_get name usable' = obj_get name usable /\
      obj_get name ratio' = match obj_get name ratio with
                            | Some v => Some v
                            | None => if obj_has name usable then Some (JNum one) else None
                            end.
Proof.
  intros E1%read_map_parsed E2%read_map_parsed Hok. unfold buildGroupPricingRows. rewrite E1, E2. cbn [own_props obind spread].
  destruct (group_rows_spec ratio usable (dedup (ratio.*1 ++ usable.*1)) (entries_typed _ _ (go_numbers _ _ Hok))
    (entries_typed _ _ (go_texts _ _ Hok)) counter) as (rows & c & Hr & Hall).
  destruct (read_entries ratio usable _ rows (names_ok _ _ Hok) Hall) as [He1 He2].
  exists rows, c, (saved_ratios ratio usable), (saved_usable ratio usable). split; [done|].
  unfold serializeGroupPricingRows. rewrite group_maps_assign, He1, He2. cbn [fst snd].
  destruct (saved_ok ratio usable Hok) as [H1 H2]. split; [by apply read_written|]. split; [by apply read_written|].
  intros name. by apply saved_get.
Qed.

Lemma groups_resaved_witness :
  let ratio := [(js "vip", JNum (num_of_Z 2))] in let usable := [(js "default", JStr (js "everyone"))] in
  read_map (JSON_pretty (JObj ratio)) = Some ratio /\ groups_ok ratio usable /\
  exists rows counter', buildGroupPricingRows (JSON_pretty (JObj ratio)) (JSON_pretty (JObj usable)) 0 = Ret (rows, counter') /\
    exists ratio', read_map (serializeGroupPricingRows rows).1 = Some ratio' /\ obj_get (js "default") ratio' = Some (JNum one).
Proof.
  cbv zeta. assert (groups_ok [(js "vip", JNum (num_of_Z 2))] [(js "default", JStr (js "everyone"))]) as Hok.
  { assert (num_ok (num_of_Z 2)) by num_ok_eval.
    assert (utf16 (js "vip") /\ utf16 (js "default") /\ utf16 (js "everyone")) as (? & ? & ?) by (split; [|split]; by apply utf16b_spec).
    split; [split; [by apply plain_ordered|]|split; [by apply plain_ordered|]|..].
    all: try (apply Forall_singleton; first [by split|by eexists]). by apply Forall_cons; split; [by split|apply Forall_singleton; by split]. }
  split; [vm_compute; reflexivity|]. split; [exact Hok|].
  destruct (groups_resaved (JSON_pretty (JObj [(js "vip", JNum (num_of_Z 2))])) (JSON_pretty (JObj [(js "default", JStr (js "everyone"))]))
    [(js "vip", JNum (num_of_Z 2))] [(js "default", JStr (js "everyone"))] 0) as (rows & c & r & u & Hb & Hr & Hu & Hall);
    [vm_compute; reflexivity|vm_compute; reflexivity|exact Hok|].
  exists rows, c. split; [exact Hb|]. exists r. split; [exact Hr|]. by destruct (Hall (js "default")) as [_ ->].
Defined.

(** ** The name of a new row *)

Lemma group_label_inj i j : group_label i = group_label j -> i = j.
Proof. unfold group_label. intros H%app_inv_head. by apply dec_digits_inj. Qed.

Lemma free_label_spec fuel existing index :
  match free_label fuel existing index with
  | Some s => exists k, s = group_label (index + N.of_nat k) /\ s ∉ existing /\ forall i, i < k -> group_label (index + N.of_nat i) ∈ existing
  | None => forall i, i < fuel -> group_label (index + N.of_nat i) ∈ existing
  end.
Proof.
  revert index. induction fuel as [|fuel IH]; intros index; cbn [free_label]; [lia|].
  destruct (mem (group_label index) existing) eqn:E.
  - apply mem_true in E. specialize (IH (index + 1)%N).
    assert (forall i, group_label (index + N.of_nat (S i)) = group_label (index + 1 + N.of_nat i)) as Hs by (intros; f_equal; lia).
    assert (group_label (index + N.of_nat 0) ∈ existing) as H0 by (by replace (index + N.of_nat 0)%N with index by lia).
    destruct (free_label fuel existing (index + 1)) as [s|].
    + destruct IH as (k & -> & Hn & Hall). exists (S k). split; [by rewrite Hs|]. split; [done|]. intros [|i] Hi; [done|]. rewrite Hs. apply Hall. lia.
    + intros [|i] Hi; [done|]. rewrite Hs. apply IH. lia.
  - apply mem_false in E. exists 0. replace (index + N.of_nat 0)%N with index by lia. split; [done|]. split; [done|]. lia.
Qed.

Lemma labels_bound existing n : (forall i, i < n -> group_label (1 + N.of_nat i) ∈ existing) -> n <= length existing.
Proof.
  intros H. pose (labels := List.map (fun i => group_label (1 + N.of_nat i)) (seq 0 n)).
  transitivity (length labels); [unfold labels; by rewrite length_map, length_seq|].
  apply submseteq_length, NoDup_submseteq.
  - unfold labels. apply (NoDup_fmap_2_strong (fun i => group_label (1 + N.of_nat i))); [|apply NoDup_seq].
    intros i j _ _ E%group_label_inj. lia.
  - intros s (i & <- & Hi)%list_elem_of_In%in_map_iff. apply in_seq in Hi. apply H. lia.
Qed.

(** C25: adding a row always finds a name: among the numbered names the loop stops, within one
    more attempt than there are rows, at the first that no row has. *)
Theorem new_group_fresh rows :
  exists k, new_row_name rows = Some (group_label (1 + N.of_nat k)) /\ k <= length rows /\
    group_label (1 + N.of_nat k) ∉ List.map g_name rows /\ forall i, i < k -> group_label (1 + N.of_nat i) ∈ List.map g_name rows.
Proof.
  unfold new_row_name. pose proof (free_label_spec (S (length rows)) (List.map g_name rows) 1) as H.
  destruct (free_label _ _ _) as [s|].
  - destruct H as (k & -> & Hn & Hall). exists k. split; [done|]. split; [|done].
    apply labels_bound in Hall. by rewrite length_map in Hall.
  - apply labels_bound in H. rewrite length_map in H. lia.
Qed.

(** ** What the table and the texts say of each other *)

(** A row counts under its name without the white space around it; of several rows of a name
    the last one counts, and a row without a name does not count. *)
Definition called (name : jstr) (r : GroupPricingRow) : bool := truthy name && (trim (g_name r) === name).
Definition written_ratio (r : GroupPricingRow) : json := JNum (if is_finite (g_ratio r) then g_ratio r else one).
Definition last_ratio (name : jstr) (rows : list GroupPricingRow) : option json := written_ratio <$> last (List.filter (called name) rows).
Definition last_description (name : jstr) (rows : list GroupPricingRow) : option json :=
  (fun r => JStr (g_description r)) <$> last (List.filter (fun r => called name r && g_selectable r) rows).

(** A row that can be written down. *)
Definition writable_row (r : GroupPricingRow) : Prop := utf16 (g_name r) /\ utf16 (g_description r) /\ json_ok (written_ratio r).

Lemma assign_last {V} (called : jstr -> GroupPricingRow -> bool) (f : GroupPricingRow -> option (jstr * V)) (g : GroupPricingRow -> V) k rows :
  (forall r, match f r with Some p => p.2 = g r /\ (called k r = true <-> k = p.1) | None => called k r = false end) ->
  obj_get k (obj_assign [] (omap f rows)) = g <$> last (List.filter (called k) rows).
Proof.
  intros Hf. induction rows as [|r rows IH] using rev_ind; [done|]. rewrite omap_app, List.filter_app. cbn [omap list_omap List.filter].
  specialize (Hf r). destruct (f r) as [[j w]|] eqn:E; [|rewrite Hf, !app_nil_r; exact IH].
  destruct Hf as [Hw Hc]. cbn [fst snd] in Hw, Hc. subst w. unfold obj_assign. rewrite foldl_app. cbn [foldl fst snd].
  destruct (called k r) eqn:Ek.
  - rewrite (proj1 Hc) by done. rewrite obj_get_set_eq, last_snoc. done.
  - rewrite obj_get_set_ne by (intros E'; apply Hc in E'; congruence). rewrite app_nil_r. exact IH.
Qed.

Lemma ratios_last name rows : obj_get name (group_maps rows).1 = last_ratio name rows.
Proof.
  rewrite group_maps_assign. apply (assign_last called). intros r. unfold called. destruct (truthy (trim (g_name r))) eqn:E.
  - split; [done|]. rewrite andb_true_iff, js_eqb_true. split; [by intros [_ ->]|intros ->; by split].
  - destruct (trim (g_name r)) eqn:E'; [|done]. by destruct name.
Qed.

Lemma descriptions_last name rows : obj_get name (group_maps rows).2 = last_description name rows.
Proof.
  rewrite group_maps_assign. apply (assign_last (fun k r => called k r && g_selectable r)). intros r. unfold called.
  destruct (truthy (trim (g_name r))) eqn:E; cbn [andb].
  - destruct (g_selectable r); [|apply andb_false_r]. split; [done|]. rewrite andb_true_r, andb_true_iff, js_eqb_true.
    split; [by intros [_ ->]|intros ->; by split].
  - destruct (trim (g_name r)) eqn:E'; [|done]. by destruct name.
Qed.

Lemma maps_writable rows : Forall writable_row rows -> obj_ok (group_maps rows).1 /\ obj_ok (group_maps rows).2.
Proof.
  rewrite group_maps_assign. intros H.
  split; (apply obj_ok_assign; [by split; [constructor|]|]); apply Forall_forall; intros p (r & Hr & Hp)%list_elem_of_omap;
    rewrite Forall_forall in H; destruct (H r Hr) as (H1 & H2 & H3); destruct (truthy (trim (g_name r))); try done;
    [|destruct (g_selectable r); [|done]]; injection Hp as <-; cbn [fst snd]; auto using trim_utf16.
Qed.

(** The texts written for the rows. *)
Lemma written_texts rows : Forall writable_row rows ->
  exists ratio usable, JSON_parse (serializeGroupPricingRows rows).1 = Ret (JObj ratio) /\
    JSON_parse (serializeGroupPricingRows rows).2 = Ret (JObj usable) /\
    forall name, obj_get name ratio = last_ratio name rows /\ obj_get name usable = last_description name rows.
Proof.
  intros [H1 H2]%maps_writable. exists (group_maps rows).1, (group_maps rows).2.
  split; [by apply parse_pretty, obj_ok_json|]. split; [by apply parse_pretty, obj_ok_json|].
  intros name. split; [apply ratios_last|apply descriptions_last].
Qed.

(** A table over the objects of the two texts: of every group the ratio and the description
    they hold; a group that only has a description is shown with the ratio one. *)
Definition shows (rows : list GroupPricingRow) (ratio usable : object) : Prop :=
  forall name, last_description name rows = obj_get name usable /\
    (last_ratio name rows = obj_get name ratio \/
     (obj_get name ratio = None /\ obj_has name usable = true /\ last_ratio name rows = Some (JNum one))).

Lemma built_shows ratioText usableText ratio usable counter rows counter' :
  read_map ratioText = Some ratio -> read_map usableText = Some usable -> groups_ok ratio usable ->
  buildGroupPricingRows ratioText usableText counter = Ret (rows, counter') -> shows rows ratio usable.
Proof.
  intros E1%read_map_parsed E2%read_map_parsed Hok. unfold buildGroupPricingRows. rewrite E1, E2. cbn [own_props obind spread].
  destruct (group_rows_spec ratio usable (dedup (ratio.*1 ++ usable.*1)) (entries_typed _ _ (go_numbers _ _ Hok))
    (entries_typed _ _ (go_texts _ _ Hok)) counter) as (rows' & c & -> & Hall). intros [= -> <-] name.
  destruct (read_entries ratio usable _ rows (names_ok _ _ Hok) Hall) as [He1 He2].
  rewrite <-ratios_last, <-descriptions_last, group_maps_assign, He1, He2. cbn [fst snd].
  destruct (saved_get ratio usable Hok name) as [Hu Hr]. unfold saved_usable, saved_ratios in Hu, Hr. rewrite Hu, Hr. split; [done|].
  destruct (obj_get name ratio); [by left|]. destruct (obj_has name usable); [by right|by left].
Qed.

Lemma sig_shows v rows ratio usable :
  read_map (GroupRatio v) = Some ratio -> read_map (UserUsableGroups v) = Some usable -> groups_ok ratio usable -> Forall writable_row rows ->
  groupPricingSignature rows = sourceGroupPricingSignature (GroupRatio v) (UserUsableGroups v) -> shows rows ratio usable.
Proof.
  intros E1%read_map_parsed E2%read_map_parsed [G1 G2 _ _ _] [H1 H2]%maps_writable.
  unfold groupPricingSignature, sourceGroupPricingSignature, serializeGroupPricingRows. cbn [fst snd]. rewrite E1, E2.
  rewrite (read_map_parsed _ _ (read_written _ H1)), (read_map_parsed _ _ (read_written _ H2)). intros E.
  apply (f_equal JSON_parse) in E. rewrite !parse_stringify in E by
    (apply obj_ok_json; split; [by apply plain_ordered|]; repeat constructor; cbn [fst snd]; try (by apply utf16b_spec); by apply obj_ok_json).
  injection E as <- <-. intros name. rewrite ratios_last, descriptions_last. auto.
Qed.

(** *** The identifiers of the rows *)

Definition numbered (low high : N) (r : GroupPricingRow) : Prop :=
  exists n, (low < n)%N /\ (n <= high)%N /\ g_id r = js "gpr_" ++ dec_digits n.
Definition ids_ok (rows : list GroupPricingRow) (counter : N) : Prop :=
  NoDup (List.map g_id rows) /\ Forall (numbered 0 counter) rows.

Lemma row_id_inj n m : js "gpr_" ++ dec_digits n = js "gpr_" ++ dec_digits m -> n = m.
Proof. intros H%app_inv_head. by apply dec_digits_inj. Qed.

Lemma numbered_weaken l l' h h' r : (l' <= l)%N -> (h <= h')%N -> numbered l h r -> numbered l' h' r.
Proof. intros Hl Hh (n & H1 & H2 & H3). exists n. split; [lia|]. split; [lia|done]. Qed.

Lemma numbered_fresh high r rows : Forall (numbered 0 high) rows -> g_id r = js "gpr_" ++ dec_digits (high + 1) -> g_id r ∉ List.map g_id rows.
Proof.
  intros H E (r' & Er & Hr)%list_elem_of_In%in_map_iff. rewrite Forall_forall in H. apply list_elem_of_In in Hr.
  destruct (H r' Hr) as (n & H1 & H2 & H3). rewrite H3, E in Er. pose proof (row_id_inj _ _ Er). lia.
Qed.

Lemma group_rows_ids ratio usable names : forall counter rows counter', group_rows ratio usable names counter = Ret (rows, counter') ->
  (counter <= counter')%N /\ NoDup (List.map g_id rows) /\ Forall (numbered counter counter') rows.
Proof.
  induction names as [|name names IH]; intros counter rows counter'; cbn [group_rows createGroupPricingId].
  - intros [= <- <-]. split; [lia|]. split; constructor.
  - destruct (normalizeRatio _) as [x|]; [|done]. destruct (text_or_blank _) as [d|]; [|done]. cbn [obind].
    destruct (group_rows _ _ _ _) as [[rest c]|] eqn:E; [|done]. cbn [obind fst snd]. intros [= <- <-].
    apply IH in E as (Hc & Hn & Hf). split; [lia|]. split.
    + cbn [List.map g_id]. constructor; [|done]. intros (r & Er & Hr)%list_elem_of_In%in_map_iff. rewrite Forall_forall in Hf.
      apply list_elem_of_In in Hr. destruct (Hf r Hr) as (n & H1 & H2 & H3). rewrite H3 in Er. pose proof (row_id_inj _ _ Er). lia.
    + constructor; [exists (counter + 1)%N; split; [lia|]; split; [lia|done]|]. eapply Forall_impl; [exact Hf|].
      intros r. apply numbered_weaken; lia.
Qed.

Lemma built_ids ratioText usableText counter rows counter' :
  buildGroupPricingRows ratioText usableText counter = Ret (rows, counter') -> ids_ok rows counter'.
Proof.
  unfold buildGroupPricingRows. destruct (own_props _); [|done]. destruct (own_props _); [|done]. cbn [obind].
  intros (_ & H1 & H2)%group_rows_ids. split; [done|]. eapply Forall_impl; [exact H2|]. intros r. apply numbered_weaken; lia.
Qed.

Lemma sync_ids v t t' : ids_ok (gt_rows t) (gt_counter t) -> sync v t = Ret t' -> ids_ok (gt_rows t') (gt_counter t').
Proof.
  unfold sync. intros H. case_match; [by intros [= <-]|]. case_match; [by intros [= <-]|].
  destruct (buildGroupPricingRows _ _ _) as [[rows n]|] eqn:E; [|done]. intros [= <-]. by apply built_ids in E.
Qed.

(** *** What an edit does to the rows *)

(** One row after a change: the field takes the value, the others stay. *)
Definition changed (c : row_change) (r r' : GroupPricingRow) : Prop :=
  g_id r' = g_id r /\
  g_name r' = (match c with RowName s => s | _ => g_name r end) /\
  g_ratio r' = (match c with RowRatio typed => if is_finite (Number typed) then Number typed else one | _ => g_ratio r end) /\
  g_selectable r' = (match c with RowSelectable b => b | _ => g_selectable r end) /\
  g_description r' = (match c with RowDescription s => s | _ => g_description r end).

Definition rows_edited (ev : group_event) (rows rows' : list GroupPricingRow) : Prop :=
  match ev with
  | UpdateRow id c => Forall2 (fun r r' => (g_id r = id -> changed c r r') /\ (g_id r <> id -> r' = r)) rows rows'
  | AddRow => exists r, rows' = rows ++ [r] /\ g_id r ∉ List.map g_id rows /\ g_name r ∉ List.map g_name rows /\
                trim (g_name r) = g_name r /\ g_name r <> [] /\ g_ratio r = one /\ g_selectable r = true /\ g_description r = []
  | RemoveRow id => sublist rows' rows /\ forall r, r ∈ rows' <-> r ∈ rows /\ g_id r <> id
  end.

Lemma label_trimmed i : trim (group_label i) = group_label i.
Proof. apply solid_trimmed, solid_app; [|apply solid_digits]. by repeat constructor. Qed.

Lemma new_label rows : exists i, new_row_name rows = Some (group_label i) /\ group_label i ∉ List.map g_name rows.
Proof.
  unfold new_row_name. pose proof (free_label_spec (S (length rows)) (List.map g_name rows) 1) as H. destruct (free_label _ _ _) as [s|].
  - destruct H as (k & -> & Hn & _). by eexists.
  - apply labels_bound in H. rewrite length_map in H. lia.
Qed.

Lemma next_edited ev t : ids_ok (gt_rows t) (gt_counter t) ->
  rows_edited ev (gt_rows t) (next_rows ev t).1 /\ ids_ok (next_rows ev t).1 (next_rows ev t).2.
Proof.
  intros [Hn Hf]. destruct ev as [id c| |id]; cbn [next_rows rows_edited].
  - cbn [fst snd]. assert (forall r, g_id (if g_id r === id then change_row c r else r) = g_id r) as Hid by (intros r; case_match; [by destruct c|done]).
    split.
    + induction (gt_rows t) as [|r rows IH]; [constructor|]. apply Forall_cons in Hf as [_ Hf]. apply NoDup_cons in Hn as [_ Hn].
      constructor; [|by apply IH]. split.
      * intros E. rewrite (proj2 (js_eqb_true _ _)) by done. by destruct c.
      * intros E. by rewrite js_eqb_ne.
    + split; [rewrite List.map_map; erewrite List.map_ext; [exact Hn|exact Hid]|]. apply Forall_map.
      eapply Forall_impl; [exact Hf|]. intros r. unfold numbered. cbn. by rewrite Hid.
  - destruct (new_label (gt_rows t)) as (k & Ek & Hk). rewrite Ek. cbn [createGroupPricingId fst snd].
    assert (forall r, g_id r = js "gpr_" ++ dec_digits (gt_counter t + 1) -> g_id r ∉ List.map g_id (gt_rows t)) as Hid by (intros r; by apply numbered_fresh).
    split.
    + eexists. split; [reflexivity|]. split; [by apply Hid|]. split; [exact Hk|]. split; [apply label_trimmed|]. by split.
    + split.
      * rewrite List.map_app. apply NoDup_app. split; [done|]. split; [|apply NoDup_singleton].
        intros s Hs ->%list_elem_of_singleton. by apply (Hid (MkGroupRow (js "gpr_" ++ dec_digits (gt_counter t + 1)) [] one true [])) in Hs.
      * apply Forall_app. split; [|apply Forall_singleton; exists (gt_counter t + 1)%N; split; [lia|]; by split].
        eapply Forall_impl; [exact Hf|]. intros r. apply numbered_weaken; lia.
  - cbn [fst snd]. split; [split|].
    + apply lfilter_sublist.
    + intros r. rewrite elem_of_lfilter. apply and_iff_compat_l. rewrite negb_true_iff. apply js_eqb_false.
    + split; [|rewrite !Forall_forall in Hf |- *; intros r [Hr _]%elem_of_lfilter; by apply Hf]. eapply sublist_NoDup; [exact Hn|].
      apply (fmap_sublist g_id), lfilter_sublist.
Qed.

Lemma step_ids ev p p' : ids_ok (gt_rows (gp_table p)) (gt_counter (gp_table p)) -> groups_step ev p = Some p' ->
  ids_ok (gt_rows (gp_table p')) (gt_counter (gp_table p')).
Proof.
  intros H. unfold groups_step, after_effect. destruct (panel_handle ev p) as [q|] eqn:Eh; [|done]. cbn.
  destruct (sync _ _) as [t|] eqn:Es; [|done]. intros [= <-]. apply sync_ids in Es; [done|].
  apply handle_table in Eh as Ht. destruct Ht as [[tev ->]|Ht]; [|by rewrite Ht].
  cbn [panel_handle] in Eh. unfold emitRows in Eh. simplify_eq. cbn. by apply next_edited.
Qed.

Lemma reachable_ids p : panel_reachable p -> ids_ok (gt_rows (gp_table p)) (gt_counter (gp_table p)).
Proof.
  induction 1 as [v n p H|ev p p' _ IH H]; [|by apply (step_ids ev p)].
  unfold mount_panel, mount_table in H. destruct (buildGroupPricingRows _ _ _) as [[rows m]|] eqn:E; [|done]. cbn in H.
  destruct (sync _ _) as [t|] eqn:Es; [|done]. simplify_eq. apply sync_ids in Es; [done|]. by apply built_ids in E.
Qed.

(** The two texts of the form hold exactly what the rows say. *)
Definition texts_hold (rows : list GroupPricingRow) (v : GroupFormValues) : Prop :=
  exists ratio usable, JSON_parse (GroupRatio v) = Ret (JObj ratio) /\ JSON_parse (UserUsableGroups v) = Ret (JObj usable) /\
    forall name, obj_get name ratio = last_ratio name rows /\ obj_get name usable = last_description name rows.

(** C21: in every state the panel of the groups can reach, by edits of the table, dialogs and
    changes of the form: no two rows of the pricing table have the same identifier; and where
    the two texts hold ratios that are numbers and descriptions that are texts, under names
    that are not empty and have no white space around them, the table shows each group with
    the description and the ratio of the texts, and with the ratio one when it has a
    description only.  Every edit of the table goes through: a change gives the row of that
    identifier the typed value (a ratio that is no finite number counts as one) and leaves its
    other fields and the other rows; a new row comes last, with an identifier and a name no
    row has, the ratio one, selectable; a removal takes the row of that identifier away and
    keeps the order of the others.  The two texts of the form then hold, for every name that is
    not blank, the ratio of the last row of that name and the description of the last
    selectable one, and nothing else; the form's other texts are not touched.  The statements
    about texts are for rows whose texts are UTF-16 and whose ratios read back as printed. *)
Theorem table_in_step p : panel_reachable p ->
  NoDup (List.map g_id (gt_rows (gp_table p))) /\
  (forall ratio usable, read_map (GroupRatio (gp_form p)) = Some ratio -> read_map (UserUsableGroups (gp_form p)) = Some usable ->
     groups_ok ratio usable -> Forall writable_row (gt_rows (gp_table p)) -> shows (gt_rows (gp_table p)) ratio usable) /\
  forall ev, exists p', groups_step (Table ev) p = Some p' /\
    rows_edited ev (gt_rows (gp_table p)) (gt_rows (gp_table p')) /\
    (Forall writable_row (gt_rows (gp_table p')) -> texts_hold (gt_rows (gp_table p')) (gp_form p')) /\
    set_group_texts [] [] (gp_form p') = set_group_texts [] [] (gp_form p).
Proof.
  intros Hp. pose proof (reachable_ids p Hp) as Hid. split; [apply Hid|]. split.
  - intros ratio usable H1 H2 Hg Hw. destruct (reachable_in_step p Hp) as [_ [Hs|(c & c' & Hb)]].
    + by apply (sig_shows (gp_form p)).
    + by apply (built_shows (GroupRatio (gp_form p)) (UserUsableGroups (gp_form p)) _ _ c _ c').
  - intros ev. destruct (edit_step ev p) as (p' & Hs & Hr & Ht & Ho). exists p'. split; [exact Hs|].
    rewrite Hr. split; [by apply next_edited|]. split; [|exact Ho].
    intros (ratio & usable & H1 & H2 & H3)%written_texts. exists ratio, usable.
    unfold group_texts in Ht. rewrite <-Ht in H1, H2. done.
Qed.

Lemma table_in_step_witness : exists p, panel_reachable p /\ NoDup (List.map g_id (gt_rows (gp_table p))) /\
  length (gt_rows (gp_table p)) = 3 /\
  exists p', groups_step (Table (RemoveRow (js "gpr_1"))) p = Some p' /\ texts_hold (gt_rows (gp_table p')) (gp_form p') /\
    last_ratio (js "default") (gt_rows (gp_table p')) = None /\ last_ratio (js "vip") (gt_rows (gp_table p')) = Some (JNum (num_of_Z 2)).
Proof.
  assert ((fun p => length (gt_rows (gp_table p))) <$> run_panel two_groups [Table AddRow] = Some 3) as H by (vm_compute; reflexivity).
  assert ((p ← run_panel two_groups [Table AddRow]; q ← groups_step (Table (RemoveRow (js "gpr_1"))) p; Some (gt_rows (gp_table q))) =
    Some [MkGroupRow (js "gpr_2") (js "vip") (num_of_Z 2) false []; MkGroupRow (js "gpr_3") (js "group_1") one true []]) as H2 by (vm_compute; reflexivity).
  destruct (run_panel _ _) as [p|] eqn:E; [|discriminate H]. apply run_reachable in E. exists p.
  split; [exact E|]. destruct (table_in_step p E) as (Hn & _ & He). split; [exact Hn|]. split; [by injection H|].
  destruct (He (RemoveRow (js "gpr_1"))) as (p' & Hs & _ & Ht & _). exists p'. split; [exact Hs|].
  cbn [mbind option_bind] in H2. rewrite Hs in H2. cbn [mbind option_bind] in H2. injection H2 as H2. rewrite H2 in Ht |- *.
  split; [apply Ht; repeat (constructor; [split; [by apply utf16b_spec|split; [by apply utf16b_spec|num_ok_eval]]|]); constructor|].
  split; vm_compute; reflexivity.
Defined.

(** ** Special rules *)

Lemma prefix_roundtrip rawKey : toRawKey (parsePrefix rawKey).1 (parsePrefix rawKey).2 = rawKey.
Proof.
  unfold parsePrefix. destruct (starts_with (js "+:") rawKey) eqn:E1; [|destruct (starts_with (js "-:") rawKey) eqn:E2; [|done]].
  all: destruct rawKey as [|a [|b rawKey]]; cbn in *; repeat case_match; bools; try done; by subst.
Qed.

Lemma obj_replace_replace {V} k (v w : V) o : obj_replace k v (obj_replace k w o) = obj_replace k v o.
Proof.
  induction o as [|[j x] o IH]; [done|]. cbn [obj_replace]. destruct (k === j) eqn:E; cbn [obj_replace]; rewrite E; [done|]. by rewrite IH.
Qed.
Lemma obj_replace_add {V} k (v w : V) o : obj_has k o = false -> obj_replace k v (obj_add k w o) = obj_add k v o.
Proof.
  intros H. apply obj_has_false in H. induction o as [|[j x] o IH]; cbn [obj_add obj_replace].
  - by rewrite js_eqb_refl.
  - cbn [fmap list_fmap fst] in H. apply not_elem_of_cons in H as [Hj Ho].
    destruct (is_index k && _); cbn [obj_replace]; [by rewrite js_eqb_refl|]. rewrite js_eqb_ne by done. by rewrite IH.
Qed.
Lemma obj_set_set {V} k (v w : V) o : obj_set k v (obj_set k w o) = obj_set k v o.
Proof.
  unfold obj_set at 1. assert (obj_has k (obj_set k w o) = true) as -> by (unfold obj_has; by rewrite obj_get_set_eq).
  unfold obj_set. destruct (obj_has k o) eqn:E; [apply obj_replace_replace|by apply obj_replace_add].
Qed.

(** A rule as it is stored: a group, and a text that is [remove] for a group taken away. *)
Definition special_rule_ok (p : jstr * json) : Prop :=
  (parsePrefix p.1).2 <> [] /\ exists s, p.2 = JStr s /\ ((parsePrefix p.1).1 = OP_REMOVE -> s = js "remove").

Lemma add_stored u p counter acc : u <> [] -> special_rule_ok p ->
  add_rule acc (rule_of u p.1 p.2 counter).1 = obj_set u (obj_set p.1 p.2 (default [] (obj_get u acc))) acc.
Proof.
  intros Hu (Hk & s & Hp & Hr). destruct p as [k v]. cbn [fst snd] in *. subst v.
  unfold rule_of. pose proof (prefix_roundtrip k) as Hpre. destruct (parsePrefix k) as [op g]. cbn [fst snd uid] in *.
  unfold add_rule. cbn [ru_userGroup ru_targetGroup ru_op ru_description].
  rewrite (proj2 (truthy_true u)), (proj2 (truthy_true g)) by done. cbn [andb]. rewrite Hpre.
  destruct op; cbn; try done. by rewrite Hr.
Qed.

Lemma add_group_rules u inner : u <> [] -> Forall special_rule_ok inner -> inner <> [] -> forall counter acc,
  foldl add_rule acc (rules_of_group u inner counter).1 = obj_set u (obj_assign (default [] (obj_get u acc)) inner) acc.
Proof.
  intros Hu. induction inner as [|[k v] inner IH]; intros Hall Hne counter acc; [done|]. apply Forall_cons in Hall as [Hp Hall].
  cbn [rules_of_group]. pose proof (add_stored u (k, v) counter acc Hu Hp) as Ha. cbn [fst snd] in Ha.
  destruct (rule_of u k v counter) as [r c]. cbn [fst] in Ha. cbn [obj_assign foldl fst snd].
  destruct inner as [|q inner]; [cbn; by rewrite Ha|].
  specialize (IH Hall ltac:(done) c (add_rule acc r)). destruct (rules_of_group u (q :: inner) c) as [rs c'].
  cbn [fst foldl] in IH |- *. rewrite IH, Ha, obj_get_set_eq, obj_set_set. done.
Qed.

Record special_ok (nested : list (jstr * object)) : Prop := MkSpecialOk {
  so_keys : ordered nested; so_written : json_ok (nested_json nested);
  so_groups : Forall (fun p => p.1 <> [] /\ p.2 <> [] /\ obj_wf p.2 /\ Forall special_rule_ok p.2) nested
}.

Lemma ordered_NoDup {V} (o : list (jstr * V)) : ordered o -> NoDup o.*1.
Proof.
  unfold ordered. induction (o.*1) as [|k ks IH]; intros H; [constructor|]. inversion H as [|? ? H1 H2]; subst.
  constructor; [|by apply IH]. intros Hin. rewrite Forall_forall in H2. apply H2 in Hin as [Hne _]. by apply Hne.
Qed.

Lemma nest_rules_of nested : Forall (fun p => p.1 <> [] /\ p.2 <> [] /\ obj_wf p.2 /\ Forall special_rule_ok p.2) nested -> NoDup nested.*1 ->
  forall counter acc, (forall k, k ∈ nested.*1 -> obj_get k acc = None) ->
  foldl add_rule acc (rules_of (List.map (fun p => (p.1, JObj p.2)) nested) counter).1 = obj_assign acc nested.
Proof.
  induction nested as [|[u inner] nested IH]; intros Hall Hn counter acc Hacc; [done|].
  apply Forall_cons in Hall as [(Hu & Hi & Hw & Hr) Hall]. cbn [fmap list_fmap fst] in Hn, Hacc. apply NoDup_cons in Hn as [Hnot Hn].
  cbn [List.map rules_of fst snd spread]. pose proof (add_group_rules u inner Hu Hr Hi counter acc) as Hg.
  destruct (rules_of_group u inner counter) as [rs c]. cbn [fst] in Hg. rewrite Hacc in Hg by left. cbn [default] in Hg. change (obj_assign [] inner = inner) in Hw. rewrite Hw in Hg.
  specialize (IH Hall Hn c (obj_set u inner acc)).
  destruct (rules_of _ c) as [rest c']. cbn [fst] in IH |- *. rewrite foldl_app, Hg.
  cbn [obj_assign foldl fst snd]. apply IH.
  intros k Hk. rewrite obj_get_set_ne by (intros ->; done). apply Hacc. by right.
Qed.

(** The special rules of the groups survive their editor: read from their text into the list
    of rules and nested again they are the same groups with the same keys, prefixes and texts,
    in the same order, and the text that is written reads as the same document. *)
Lemma special_rules_resaved text nested counter :
  safeParseJson text = nested_json nested -> special_ok nested ->
  exists e, mount_rules text counter = Ret e /\ nestRules (sr_rules e) = nested /\
    safeParseJson (serializeRules (sr_rules e)) = nested_json nested.
Proof.
  intros Ht [Hk Hw Hg]. unfold mount_rules. rewrite Ht. unfold flattenRules, nested_json. cbn [own_props obind spread].
  eexists. split; [reflexivity|]. cbn [sr_rules].
  assert (nestRules (rules_of (List.map (fun p => (p.1, JObj p.2)) nested) counter).1 = nested) as E.
  { unfold nestRules. rewrite nest_rules_of; [by apply ordered_wf|done|by apply ordered_NoDup|done]. }
  split; [exact E|]. unfold serializeRules. rewrite E. fold (nested_json nested). destruct nested as [|p nested]; [reflexivity|].
  unfold safeParseJson. rewrite (pretty_trimmed (nested_json (p :: nested))), parse_pretty by done. by destruct (truthy _) eqn:E'.
Qed.

Lemma special_rules_resaved_witness :
  let nested := [(js "vip", [(js "+:premium", JStr (js "Premium")); (js "-:default", JStr (js "remove"))])] in
  special_ok nested /\
  exists e, mount_rules (JSON_pretty (nested_json nested)) 0 = Ret e /\ nestRules (sr_rules e) = nested.
Proof.
  cbv zeta. set (nested := [(js "vip", [(js "+:premium", JStr (js "Premium")); (js "-:default", JStr (js "remove"))])]).
  assert (special_ok nested) as Hok.
  { split; [by apply plain_ordered| |].
    - apply json_ok_obj. split; [vm_compute; reflexivity|]. apply Forall_singleton. split; [by apply utf16b_spec|].
      apply json_ok_obj. split; [vm_compute; reflexivity|].
      apply Forall_cons. split; [split; by apply utf16b_spec|]. apply Forall_singleton. split; by apply utf16b_spec.
    - apply Forall_singleton. split; [done|]. split; [done|]. split; [vm_compute; reflexivity|].
      apply Forall_cons. split; [|apply Forall_singleton]; (split; [done|]); eexists; (split; [reflexivity|]); done. }
  split; [exact Hok|].
  destruct (special_rules_resaved (JSON_pretty (nested_json nested)) nested 0) as (e & H1 & H2 & _);
    [vm_compute; reflexivity|exact Hok|]. exists e. split; [exact H1|exact H2].
Defined.

(** ** Overrides and the automatic groups *)

(** The ratio of a group for the users of another. *)
Definition override_at (map : object) (userGroup targetGroup : jstr) : option json :=
  match obj_get userGroup map with Some (JObj inner) => obj_get targetGroup inner | _ => None end.

Lemma override_saved u t ratio old map map' u' t' : save_override u t ratio old map = Some map' ->
  override_at map' u' t' =
    if u' === u then if t' === t then Some (JNum ratio)
                     else if match old with Some o => truthy o && (o === t') | None => false end then None else override_at map u t'
    else override_at map u' t'.
Proof.
  unfold save_override, override_at. destruct (u' === u) eqn:Eu; bools.
  - subst u'. intros H. destruct (obj_get u (ensure_group u map)) as [[]|] eqn:Eg; try done. injection H as <-. rewrite obj_get_set_eq.
    assert (o = [] /\ truthy_prop u map = false \/ obj_get u map = Some (JObj o)) as Hinner.
    { unfold ensure_group in Eg. destruct (truthy_prop u map); [by right|]. rewrite obj_get_set_eq in Eg. left. by injection Eg as <-. }
    assert (match obj_get u map with Some (JObj inner) => obj_get t' inner | _ => None end = obj_get t' o) as ->.
    { destruct Hinner as [[-> Hf]| ->]; [|done]. unfold truthy_prop in Hf. by destruct (obj_get u map) as [[]|]. }
    destruct (t' === t) eqn:Et; bools; [subst; apply obj_get_set_eq|]. rewrite obj_get_set_ne by done.
    destruct old as [x|]; [|done]. destruct (truthy x) eqn:Ex; cbn [andb]; [|done].
    destruct (x === t') eqn:E1; bools.
    + subst. rewrite js_eqb_ne by done. apply obj_get_delete_eq.
    + destruct (x === t) eqn:E2; [done|]. by apply obj_get_delete_ne.
  - intros H. destruct (obj_get u (ensure_group u map)) as [[]|] eqn:Eg; try done. injection H as <-.
    rewrite obj_get_set_ne by done. unfold ensure_group. destruct (truthy_prop u map); [done|]. by rewrite obj_get_set_ne.
Qed.

Lemma override_deleted u t map map' u' t' : delete_override u t map = Some map' ->
  override_at map' u' t' = if (u' === u) && (t' === t) then None else override_at map u' t'.
Proof.
  unfold delete_override, override_at. intros H.
  assert (map' = map /\ (forall inner, obj_get u map <> Some (JObj inner)) \/
    exists inner, obj_get u map = Some (JObj inner) /\
      map' = match obj_delete t inner with [] => obj_delete u map | l => obj_set u (JObj l) map end) as [[-> Hn]|(inner & Eg & ->)].
  { destruct (obj_get u map) as [[| | | | |inner]|]; [left..|right|left]; try (split; [|done]; cbn in H; repeat case_match; congruence).
    exists inner. split; [done|]. cbv zeta in H. destruct (obj_delete t inner); congruence. }
  - destruct (u' === u) eqn:Eu; bools; [|done]. subst. destruct (t' === t); [|done]. by destruct (obj_get u map) as [[]|]; try done; destruct (Hn o).
  - clear H. destruct (u' === u) eqn:Eu; bools; cbn [andb].
    + subst u'. rewrite Eg. destruct (t' === t) eqn:Et; bools; [subst; pose proof (obj_get_delete_eq t inner) as Hd|pose proof (obj_get_delete_ne t' t inner Et) as Hd];
      destruct (obj_delete t inner) as [|q l]; rewrite ?obj_get_delete_eq, ?obj_get_set_eq; done.
    + destruct (obj_delete t inner); [by rewrite obj_get_delete_ne|by rewrite obj_get_set_ne].
Qed.

Lemma swap_perm i j l : swap i j l ≡ₚ l.
Proof.
  unfold swap. destruct (l !! i) as [x|] eqn:Ei; [|done]. destruct (l !! j) as [y|] eqn:Ej; [|done].
  destruct (decide (i = j)) as [->|Hne]; [rewrite Ei in Ej; injection Ej as ->; by rewrite list_insert_insert, decide_True, list_insert_id by done|].
  by apply Permutation_insert_swap.
Qed.

Lemma move_perm index d l l' : move index d l = Some l' -> l' ≡ₚ l.
Proof. unfold move. repeat case_match; intros [= <-]; apply swap_perm. Qed.

(** ** Oddities *)

(** Clearing the ratio of a group to type another one makes the group free at once. *)
Lemma cleared_ratio_free r : g_ratio (change_row (RowRatio []) r) = zero.
Proof. reflexivity. Qed.

(** A stored name with white space around it becomes another group by any edit. *)
Lemma padded_group_renamed :
  (fun p => read_map (GroupRatio (gp_form p))) <$>
    run_panel (set_group_texts (JSON_pretty (JObj [(js "vip ", JNum one)])) (js "{}") two_groups) [Table (RemoveRow (js "gpr_9"))]
  = Some (Some [(js "vip", JNum one)]).
Proof. vm_compute. reflexivity. Qed.

(** The schema accepts the text null, and the table cannot be shown for it. *)
Lemma null_text_throws : groupSchema (fun s => s) (set_group_texts (js "null") (js "{}") two_groups) = true /\
  mount_table (set_group_texts (js "null") (js "{}") two_groups) 0 = Throw.
Proof. split; vm_compute; reflexivity. Qed.

(** A pasted infinite ratio is accepted by the dialog and stored as null. *)
Lemma infinite_topup_null :
  (fun p => read_map (TopupGroupRatio (gp_form p))) <$>
    run_panel two_groups [OpenSimple OfTopups None; TypeSimpleName (js "vip"); TypeSimpleValue (js "Infinity"); SaveSimple]
  = Some (Some [(js "vip", JNull)]).
Proof. vm_compute. reflexivity. Qed.

(** A group whose name begins like a prefix cannot be appended: stored and read again, the rule removes another group. *)
Lemma appended_prefix_removes :
  match mount_rules (serializeRules [MkRule (js "gsu_1") (js "vip") OP_APPEND (js "-:default") (js "Default")]) 1 with
  | Ret e => List.map (fun r => (ru_op r, ru_targetGroup r)) (sr_rules e) = [(OP_REMOVE, js "default")]
  | Throw => False
  end.
Proof. vm_compute. reflexivity. Qed.

(** The rules are read once: when the form gets another text, the next edit writes the rules of the first. *)
Lemma stale_rules_written :
  match mount_rules (JSON_pretty (nested_json [(js "vip", [(js "old", JStr (js "Old"))])])) 0 with
  | Ret e => (rules_step (AddRuleToGroup (js "vip")) e).2 = Some (JSON_pretty (nested_json [(js "vip", [(js "old", JStr (js "Old"))])]))
  | Throw => False
  end.
Proof. vm_compute. reflexivity. Qed.
