(* ===== verification/ContentLists.v ===== *)
(** * The lists of the console page

    [features/system-settings/content]: announcements, API addresses, questions and Uptime Kuma
    groups.  The four sections are the same editor over different entries: each reads a JSON
    array of objects, gives every entry an identifier, edits the list in memory and sends the
    whole array as one option.  [ListEntry] is what differs between them; the section is written
    once over it and instantiated four times.

    Requests are answered later: those under way are part of the state, and their answers are
    events.  An identifier that is an object or an array is compared by its content, where the
    code compares references.  The check of an address is the one of the schema library, an
    argument; so are the clock and the reading of dates. *)
From S2P Require Import Prelude Numbers Exact Json JsonRoundtrip Settings.
Local Open Scope js_scope.

Abbreviation entry := (list (jstr * json)).

(** ** What a section is about *)

Class ListEntry : Type := {
  le_option : jstr;
  le_enabled : jstr;
  le_fields : list jstr;
  le_blank : jstr -> entry;
  le_form : entry -> entry;
  le_valid : entry -> bool
}.

(** The fields a form copies from an entry; a field that is missing stays missing. *)
Definition copy_field (k : jstr) (item : entry) : entry := match obj_get k item with Some v => [(k, v)] | None => [] end.
Definition copy_or_empty (k : jstr) (item : entry) : entry := [(k, json_or (obj_get k item) (JStr []))].

(** [z.string().min(a).max(b)] *)
Definition text_between (a b : nat) (v : option json) : bool :=
  match v with Some (JStr s) => Nat.leb a (length s) && Nat.leb (length s) b | _ => false end.
Definition text_from (a : nat) (v : option json) : bool := match v with Some (JStr s) => Nat.leb a (length s) | _ => false end.
Definition optional_text (b : nat) (v : option json) : bool := match v with None => true | Some _ => text_between 0 b v end.
Definition text_in (l : list jstr) (v : option json) : bool := match v with Some (JStr s) => mem s l | _ => false end.
Definition text_such (f : jstr -> bool) (v : option json) : bool := match v with Some (JStr s) => f s | _ => false end.

(** *** Announcements *)

Definition typeOptions : list (jstr * jstr * jstr) :=
  [(js "default", js "Default", js "neutral"); (js "ongoing", js "Ongoing", js "info"); (js "success", js "Success", js "success");
   (js "warning", js "Warning", js "warning"); (js "error", js "Error", js "danger")].
Definition announcementSchema (v : entry) : bool :=
  text_between 1 500 (obj_get (js "content") v) && text_from 1 (obj_get (js "publishDate") v)
  && text_in (List.map (fun o => o.1.1) typeOptions) (obj_get (js "type") v) && optional_text 100 (obj_get (js "extra") v).
Definition blank_announcement (now : jstr) : entry :=
  [(js "content", JStr []); (js "publishDate", JStr now); (js "type", JStr (js "default")); (js "extra", JStr [])].
Definition announcement_form (item : entry) : entry :=
  copy_field (js "content") item ++ copy_field (js "publishDate") item ++ copy_field (js "type") item ++ copy_or_empty (js "extra") item.

#[local] Instance announcements : ListEntry := {|
  le_option := js "console_setting.announcements"; le_enabled := js "console_setting.announcements_enabled";
  le_fields := [js "content"; js "publishDate"; js "type"; js "extra"];
  le_blank := blank_announcement; le_form := announcement_form; le_valid := announcementSchema |}.

Definition type_badge (type : jstr) : option jstr * jstr :=
  match List.find (fun o => o.1.1 === type) typeOptions with Some o => (Some o.1.2, o.2) | None => (None, js "neutral") end.

(** *** API addresses *)

Definition colorOptions : list (jstr * jstr) :=
  [(js "blue", js "bg-blue-500"); (js "green", js "bg-green-500"); (js "cyan", js "bg-cyan-500"); (js "purple", js "bg-purple-500");
   (js "pink", js "bg-pink-500"); (js "red", js "bg-red-500"); (js "orange", js "bg-orange-500"); (js "amber", js "bg-amber-500");
   (js "yellow", js "bg-yellow-500"); (js "lime", js "bg-lime-500"); (js "teal", js "bg-teal-500"); (js "indigo", js "bg-indigo-500");
   (js "violet", js "bg-violet-500"); (js "slate", js "bg-slate-500")].
Definition getColorClass (color : jstr) : jstr :=
  match List.find (fun o => o.1 === color) colorOptions with Some o => str_or o.2 (js "bg-blue-500") | None => js "bg-blue-500" end.
Definition createApiInfoSchema (is_url : jstr -> bool) (v : entry) : bool :=
  text_such is_url (obj_get (js "url") v) && text_from 1 (obj_get (js "route") v) && text_from 1 (obj_get (js "description") v)
  && text_from 1 (obj_get (js "color") v).
Definition blank_api_info : entry := [(js "url", JStr []); (js "route", JStr []); (js "description", JStr []); (js "color", JStr (js "blue"))].
Definition api_info_form (item : entry) : entry :=
  copy_field (js "url") item ++ copy_field (js "route") item ++ copy_field (js "description") item ++ copy_field (js "color") item.
Definition api_info (is_url : jstr -> bool) : ListEntry := {|
  le_option := js "console_setting.api_info"; le_enabled := js "console_setting.api_info_enabled";
  le_fields := [js "url"; js "route"; js "description"; js "color"];
  le_blank _ := blank_api_info; le_form := api_info_form; le_valid := createApiInfoSchema is_url |}.

(** *** Questions *)

Definition faqSchema (v : entry) : bool := text_between 1 200 (obj_get (js "question") v) && text_between 1 1000 (obj_get (js "answer") v).
Definition blank_faq : entry := [(js "question", JStr []); (js "answer", JStr [])].
Definition faq_form (item : entry) : entry := copy_field (js "question") item ++ copy_field (js "answer") item.
#[local] Instance faq : ListEntry := {|
  le_option := js "console_setting.faq"; le_enabled := js "console_setting.faq_enabled"; le_fields := [js "question"; js "answer"];
  le_blank _ := blank_faq; le_form := faq_form; le_valid := faqSchema |}.

(** *** Uptime Kuma groups *)

(** The pattern is one or more letters, digits, underscores and hyphens. *)
Definition slug_unit (c : N) : bool :=
  is_digit c || ((65 <=? c) && (c <=? 90))%N || ((97 <=? c) && (c <=? 122))%N || (c =? 95)%N || (c =? 45)%N.
Definition slug_text (s : jstr) : bool := Nat.leb 1 (length s) && Nat.leb (length s) 100 && forallb slug_unit s.
Definition createUptimeKumaSchema (is_url : jstr -> bool) (v : entry) : bool :=
  text_between 1 50 (obj_get (js "categoryName") v) && text_such is_url (obj_get (js "url") v) && text_such slug_text (obj_get (js "slug") v).
Definition blank_uptime : entry := [(js "categoryName", JStr []); (js "url", JStr []); (js "slug", JStr [])].
Definition uptime_form (item : entry) : entry := copy_field (js "categoryName") item ++ copy_field (js "url") item ++ copy_field (js "slug") item.
Definition uptime_kuma (is_url : jstr -> bool) : ListEntry := {|
  le_option := js "console_setting.uptime_kuma_groups"; le_enabled := js "console_setting.uptime_kuma_enabled";
  le_fields := [js "categoryName"; js "url"; js "slug"];
  le_blank _ := blank_uptime; le_form := uptime_form; le_valid := createUptimeKumaSchema is_url |}.

(** ** Entries and their identifiers *)

Abbreviation id_key := (js "id").
Definition entry_id (item : entry) : option json := obj_get id_key item.

(** [===] *)
Definition strict_eqb (a b : json) : bool := match a, b with JNum x, JNum y => neqb x y | _, _ => a === b end.
Definition id_eqb (a b : option json) : bool :=
  match a, b with Some x, Some y => strict_eqb x y | None, None => true | _, _ => false end.
(** [Array.prototype.includes] compares NaN with itself as equal. *)
Definition includes_id (ids : list json) (a : option json) : bool :=
  match a with
  | Some x => existsb (fun y => strict_eqb y x || match y, x with JNum m, JNum n => is_nan m && is_nan n | _, _ => false end) ids
  | None => false
  end.

Definition load_item (idx : nat) (item : json) : outcome entry :=
  let! id := js_prop id_key item in
  Ret (obj_set id_key (json_or id (JNum (num_of_Z (Z.of_nat idx + 1)))) (spread item)).
Fixpoint load_items (idx : nat) (l : list json) : outcome (list entry) :=
  match l with
  | [] => Ret []
  | item :: l' => let! e := load_item idx item in let! es := load_items (S idx) l' in Ret (e :: es)
  end.
(** The effect on the stored text: a text that is no array leaves the list, one that cannot be read empties it. *)
Definition load_list (data : jstr) (current : list entry) : list entry :=
  match JSON_parse (str_or data (js "[]")) with
  | Ret (JArr l) => try_catch (load_items 0 l) []
  | Ret _ => current
  | Throw => []
  end.

Definition list_text (items : list entry) : jstr := JSON_stringify (JArr (List.map JObj items)).

(** [Math.max(...ids, 0) + 1] *)
Definition max2 (x y : number) : number := if is_nan x || is_nan y then nan else if nltb x y then y else x.
Fixpoint id_numbers (items : list entry) : outcome (list number) :=
  match items with
  | [] => Ret []
  | item :: items' => let! x := to_Number (entry_id item) in let! xs := id_numbers items' in Ret (x :: xs)
  end.
Definition new_id (items : list entry) : outcome number :=
  let! xs := id_numbers items in Ret (nadd (foldl max2 (nopp infinity) (xs ++ [zero])) one).

(** ** The section *)

Inductive list_request : Type := ToggleRequest (b : bool) | SaveRequest (value : jstr).
Inductive list_notice : Type :=
| SelectFirst | EntryDeleted | EntriesDeleted (n : nat) | EntryUpdated | EntryAdded
| SettingSaved | SettingFailed | ListSaved | ListFailed | Hook (n : form_notice).
Inductive target : Type := Single | Batch.

Record ListState : Type := MkList {
  ls_data : jstr; ls_items : list entry; ls_isEnabled : bool; ls_hasChanges : bool; ls_selected : list json;
  ls_showDialog : bool; ls_form : entry; ls_editing : option entry; ls_showDelete : bool; ls_target : target;
  ls_requests : list list_request; ls_pending : bool; ls_sent : list (jstr * json); ls_notices : list list_notice
}.

Definition set_items (items : list entry) (s : ListState) : ListState :=
  MkList (ls_data s) items (ls_isEnabled s) (ls_hasChanges s) (ls_selected s) (ls_showDialog s) (ls_form s) (ls_editing s)
    (ls_showDelete s) (ls_target s) (ls_requests s) (ls_pending s) (ls_sent s) (ls_notices s).
Definition set_hasChanges (b : bool) (s : ListState) : ListState :=
  MkList (ls_data s) (ls_items s) (ls_isEnabled s) b (ls_selected s) (ls_showDialog s) (ls_form s) (ls_editing s)
    (ls_showDelete s) (ls_target s) (ls_requests s) (ls_pending s) (ls_sent s) (ls_notices s).
Definition set_selected (ids : list json) (s : ListState) : ListState :=
  MkList (ls_data s) (ls_items s) (ls_isEnabled s) (ls_hasChanges s) ids (ls_showDialog s) (ls_form s) (ls_editing s)
    (ls_showDelete s) (ls_target s) (ls_requests s) (ls_pending s) (ls_sent s) (ls_notices s).
Definition set_isEnabled (b : bool) (s : ListState) : ListState :=
  MkList (ls_data s) (ls_items s) b (ls_hasChanges s) (ls_selected s) (ls_showDialog s) (ls_form s) (ls_editing s)
    (ls_showDelete s) (ls_target s) (ls_requests s) (ls_pending s) (ls_sent s) (ls_notices s).
Definition set_entry_dialog (show : bool) (form : entry) (s : ListState) : ListState :=
  MkList (ls_data s) (ls_items s) (ls_isEnabled s) (ls_hasChanges s) (ls_selected s) show form (ls_editing s)
    (ls_showDelete s) (ls_target s) (ls_requests s) (ls_pending s) (ls_sent s) (ls_notices s).
Definition set_edited (e : option entry) (s : ListState) : ListState :=
  MkList (ls_data s) (ls_items s) (ls_isEnabled s) (ls_hasChanges s) (ls_selected s) (ls_showDialog s) (ls_form s) e
    (ls_showDelete s) (ls_target s) (ls_requests s) (ls_pending s) (ls_sent s) (ls_notices s).
Definition set_delete_dialog (show : bool) (tg : target) (s : ListState) : ListState :=
  MkList (ls_data s) (ls_items s) (ls_isEnabled s) (ls_hasChanges s) (ls_selected s) (ls_showDialog s) (ls_form s) (ls_editing s)
    show tg (ls_requests s) (ls_pending s) (ls_sent s) (ls_notices s).
Definition tell_list (n : list list_notice) (s : ListState) : ListState :=
  MkList (ls_data s) (ls_items s) (ls_isEnabled s) (ls_hasChanges s) (ls_selected s) (ls_showDialog s) (ls_form s) (ls_editing s)
    (ls_showDelete s) (ls_target s) (ls_requests s) (ls_pending s) (ls_sent s) (ls_notices s ++ n).
Definition set_list_requests (rs : list list_request) (pending : bool) (sent : list (jstr * json)) (s : ListState) : ListState :=
  MkList (ls_data s) (ls_items s) (ls_isEnabled s) (ls_hasChanges s) (ls_selected s) (ls_showDialog s) (ls_form s) (ls_editing s)
    (ls_showDelete s) (ls_target s) rs pending (ls_sent s ++ sent) (ls_notices s).
Definition set_data (data : jstr) (s : ListState) : ListState :=
  MkList data (load_list data (ls_items s)) (ls_isEnabled s) (ls_hasChanges s) (ls_selected s) (ls_showDialog s) (ls_form s) (ls_editing s)
    (ls_showDelete s) (ls_target s) (ls_requests s) (ls_pending s) (ls_sent s) (ls_notices s).

Section section.
Context (E : ListEntry).

(** [isPending] is about the last request that was made. *)
Definition ask (r : list_request) (key : jstr) (value : json) (s : ListState) : ListState :=
  set_list_requests (ls_requests s ++ [r]) true [(key, value)] s.

Definition handleToggleEnabled (checked : bool) (s : ListState) : ListState := ask (ToggleRequest checked) le_enabled (JBool checked) s.

Definition handleSaveAll (s : ListState) : ListState :=
  if ls_hasChanges s && negb (ls_pending s)
  then ask (SaveRequest (list_text (ls_items s))) le_option (JStr (list_text (ls_items s))) s
  else s.

Definition request_key (r : list_request) : jstr := match r with ToggleRequest _ => le_enabled | SaveRequest _ => le_option end.
Definition request_done (r : list_request) (s : ListState) : ListState :=
  match r with
  | ToggleRequest b => tell_list [SettingSaved] (set_isEnabled b s)
  | SaveRequest _ => tell_list [ListSaved] (set_hasChanges false s)
  end.
(** A refusal is not an exception: the code after the request runs as for an update. *)
Definition request_answered (i : nat) (a : option_answer) (s : ListState) : ListState :=
  match ls_requests s !! i with
  | None => s
  | Some r =>
      let latest := Nat.eqb (S i) (length (ls_requests s)) in
      let s := set_list_requests (delete i (ls_requests s)) (if latest then false else ls_pending s) [] s in
      let s := tell_list [Hook (update_notice (request_key r) a)] s in
      match a with
      | RequestFailed _ => tell_list [match r with ToggleRequest _ => SettingFailed | SaveRequest _ => ListFailed end] s
      | _ => request_done r s
      end
  end.

Definition handleAddEntry (now : jstr) (s : ListState) : ListState := set_entry_dialog true (le_blank now) (set_edited None s).
Definition handleEditEntry (item : entry) (s : ListState) : ListState := set_entry_dialog true (le_form item) (set_edited (Some item) s).
Definition handleDeleteEntry (item : entry) (s : ListState) : ListState := set_delete_dialog true Single (set_edited (Some item) s).
Definition handleBatchDelete (s : ListState) : ListState :=
  match ls_selected s with [] => tell_list [SelectFirst] s | _ => set_delete_dialog true Batch s end.

Definition confirmDelete (s : ListState) : ListState :=
  let s := match ls_target s, ls_editing s with
           | Single, Some e =>
               tell_list [EntryDeleted] (set_hasChanges true
                 (set_items (List.filter (fun item => negb (id_eqb (entry_id item) (entry_id e))) (ls_items s)) s))
           | Batch, _ =>
               tell_list [EntriesDeleted (length (ls_selected s))] (set_hasChanges true (set_selected []
                 (set_items (List.filter (fun item => negb (includes_id (ls_selected s) (entry_id item))) (ls_items s)) s)))
           | Single, None => s
           end in
  set_edited None (set_delete_dialog false (ls_target s) s).

Definition handleSubmitForm (values : entry) (s : ListState) : outcome ListState :=
  let! s := match ls_editing s with
            | Some e =>
                Ret (tell_list [EntryUpdated]
                  (set_items (List.map (fun item => if id_eqb (entry_id item) (entry_id e) then obj_assign item values else item) (ls_items s)) s))
            | None =>
                let! id := new_id (ls_items s) in
                Ret (tell_list [EntryAdded] (set_items (ls_items s ++ [obj_assign [(id_key, JNum id)] values]) s))
            end in
  Ret (set_entry_dialog false (ls_form s) (set_hasChanges true s)).

Definition all_ids (items : list entry) : list json := omap entry_id items.
Definition toggleSelectAll (checked : bool) (s : ListState) : ListState := set_selected (if checked then all_ids (ls_items s) else []) s.
Definition toggleSelectOne (id : json) (checked : bool) (s : ListState) : ListState :=
  set_selected (if checked then ls_selected s ++ [id] else List.filter (fun x => negb (strict_eqb x id)) (ls_selected s)) s.

Inductive list_event : Type :=
| DataChanged (data : jstr) | EnabledChanged (b : bool) | Toggle (b : bool) | SaveAll | Answered (i : nat) (a : option_answer)
| Add (now : jstr) | EditEntry (i : nat) | TypeField (k v : jstr) | CloseForm | SubmitForm
| DeleteEntry (i : nat) | DeleteSelected | ConfirmDelete | CloseDelete | SelectAll (b : bool) | SelectOne (id : json) (b : bool).

(** The buttons of a row have its entry. *)
Definition on_entry (i : nat) (f : entry -> ListState -> ListState) (s : ListState) : ListState :=
  match ls_items s !! i with Some item => f item s | None => s end.

(** The inputs of the dialog are those of the fields.  An exception in a callback changes nothing. *)
Definition list_step (ev : list_event) (s : ListState) : ListState :=
  match ev with
  | DataChanged data => if data === ls_data s then s else set_data data s
  | EnabledChanged b => set_isEnabled b s
  | Toggle b => handleToggleEnabled b s
  | SaveAll => handleSaveAll s
  | Answered i a => request_answered i a s
  | Add now => handleAddEntry now s
  | EditEntry i => on_entry i handleEditEntry s
  | TypeField k v => if mem k le_fields then set_entry_dialog (ls_showDialog s) (obj_set k (JStr v) (ls_form s)) s else s
  | CloseForm => set_entry_dialog false (ls_form s) s
  | SubmitForm => if ls_showDialog s && le_valid (ls_form s) then try_catch (handleSubmitForm (ls_form s) s) s else s
  | DeleteEntry i => on_entry i handleDeleteEntry s
  | DeleteSelected => handleBatchDelete s
  | ConfirmDelete => if ls_showDelete s then confirmDelete s else s
  | CloseDelete => set_delete_dialog false (ls_target s) s
  | SelectAll b => toggleSelectAll b s
  | SelectOne id b => toggleSelectOne id b s
  end.

Definition mount_list (data : jstr) (enabled : bool) (now : jstr) : ListState :=
  MkList data (load_list data []) enabled false [] false (le_blank now) None false Single [] false [] [].

Definition run_list (s : ListState) (evs : list list_event) : ListState := foldl (fun s ev => list_step ev s) s evs.
End section.

(** The four sections. *)
Definition AnnouncementsSection (ev : list_event) (s : ListState) : ListState := list_step announcements ev s.
Definition ApiInfoSection (is_url : jstr -> bool) (ev : list_event) (s : ListState) : ListState := list_step (api_info is_url) ev s.
Definition FAQSection (ev : list_event) (s : ListState) : ListState := list_step faq ev s.
Definition UptimeKumaSection (is_url : jstr -> bool) (ev : list_event) (s : ListState) : ListState := list_step (uptime_kuma is_url) ev s.

(** *** What the announcements show *)

Definition publish_time (time_of : jstr -> number) (item : entry) : number :=
  match obj_get (js "publishDate") item with Some (JStr s) => time_of s | _ => nan end.
Definition sortedAnnouncements (time_of : jstr -> number) (items : list entry) : list entry :=
  sort_by (fun a b => negb (nltb zero (nsub (publish_time time_of b) (publish_time time_of a)))) items.
Definition getRelativeTime (now past : number) : jstr :=
  let diffMins := math_floor (ndiv (nsub now past) (num_of_Z 60000)) in
  let diffHours := math_floor (ndiv diffMins (num_of_Z 60)) in
  let diffDays := math_floor (ndiv diffHours (num_of_Z 24)) in
  if nltb diffMins (num_of_Z 60) then num_to_str diffMins ++ js "m ago"
  else if nltb diffHours (num_of_Z 24) then num_to_str diffHours ++ js "h ago"
  else num_to_str diffDays ++ js "d ago".

(** ** Saving and loading *)

Lemma obj_set_same {V} k (v : V) o : obj_get k o = Some v -> obj_set k v o = o.
Proof.
  intros H. unfold obj_set, obj_has. rewrite H. induction o as [|[j w] o IH]; [done|]. cbn [obj_get obj_replace] in *.
  destruct (k === j) eqn:E; [by injection H as ->|]. by rewrite IH.
Qed.

Definition entry_ok (item : entry) : Prop := obj_ok item /\ exists v, entry_id item = Some v /\ json_truthy v = true.

Lemma load_saved items : Forall entry_ok items -> forall n, load_items n (List.map JObj items) = Ret items.
Proof.
  induction 1 as [|item items (Ho & v & Hv & Ht) _ IH]; intros n; [done|]. cbn [List.map load_items]. rewrite IH.
  unfold load_item, js_prop. unfold entry_id in Hv. rewrite Hv. cbn [obind spread json_or]. rewrite Ht, obj_set_same by done. done.
Qed.

(** What a section saves it reads back: the text of a list whose entries have identifiers loads,
    after the refetch or on the next visit, as the same list with the same identifiers. *)
Lemma saved_list_reloads items current : Forall entry_ok items -> load_list (list_text items) current = items.
Proof.
  intros H. unfold load_list. assert (str_or (list_text items) (js "[]") = list_text items) as -> by done.
  unfold list_text. rewrite parse_stringify; [by rewrite load_saved|]. apply json_ok_arr, Forall_forall.
  intros v (item & <- & Hi)%list_elem_of_In%in_map_iff. rewrite Forall_forall in H. apply obj_ok_json, H. by apply list_elem_of_In.
Qed.

(** ** Identifiers *)

Definition ids_are (B : Z) (items : list entry) (zs : list Z) : Prop :=
  Forall2 (fun item z => entry_id item = Some (JNum (num_of_Z z)) /\ (0 < z <= B)%Z) items zs.
Definition distinct_ids (B : Z) (items : list entry) : Prop := exists zs, ids_are B items zs /\ NoDup zs.

Section ids.
Context (B : Z) (HB : (B < 2 ^ 53)%Z).

Lemma id_small z : (0 < z <= B)%Z -> small_abs z.
Proof. unfold small_abs. lia. Qed.

Lemma id_eqb_Z a b : (0 < a <= B)%Z -> (0 < b <= B)%Z -> id_eqb (Some (JNum (num_of_Z a))) (Some (JNum (num_of_Z b))) = (a =? b)%Z.
Proof. intros Ha Hb. cbn [id_eqb strict_eqb]. apply neqb_exact; by apply id_small. Qed.

Lemma id_numbers_Z items zs : ids_are B items zs -> id_numbers items = Ret (List.map num_of_Z zs).
Proof. induction 1 as [|item z items zs [Hi _] _ IH]; [done|]. cbn [id_numbers List.map]. by rewrite Hi, IH. Qed.

Lemma nan_of_Z z : small_abs z -> is_nan (num_of_Z z) = false.
Proof.
  intros H. pose proof (neqb_exact z z H H) as E. rewrite Z.eqb_refl in E. by destruct (num_of_Z z).
Qed.

Lemma max2_Z a b : small_abs a -> small_abs b -> max2 (num_of_Z a) (num_of_Z b) = num_of_Z (Z.max a b).
Proof.
  intros Ha Hb. unfold max2. rewrite !nan_of_Z, nltb_exact by done. cbn [orb].
  destruct (a <? b)%Z eqn:E; f_equal; lia.
Qed.

Lemma max_fold zs : forall a, small_abs a -> Forall (fun z => (0 < z <= B)%Z) zs ->
  foldl max2 (num_of_Z a) (List.map num_of_Z zs) = num_of_Z (foldl Z.max a zs) /\ small_abs (foldl Z.max a zs).
Proof.
  induction zs as [|z zs IH]; intros a Ha Hz; [done|]. apply Forall_cons in Hz as [Hz Hzs]. cbn [List.map foldl].
  apply id_small in Hz. rewrite max2_Z by done. apply IH; [|done]. unfold small_abs in *. lia.
Qed.

Lemma foldl_max_ge zs : forall a, (a <= foldl Z.max a zs)%Z /\ Forall (fun z => (z <= foldl Z.max a zs)%Z) zs.
Proof.
  induction zs as [|z zs IH]; intros a; [done|]. cbn [foldl]. destruct (IH (Z.max a z)) as [H1 H2]. split; [lia|].
  constructor; [lia|done].
Qed.
Lemma foldl_max_le zs : forall a, (a <= B)%Z -> Forall (fun z => (z <= B)%Z) zs -> (foldl Z.max a zs <= B)%Z.
Proof. induction zs as [|z zs IH]; intros a Ha Hz; [done|]. apply Forall_cons in Hz as [Hz Hzs]. cbn [foldl]. apply IH; [lia|done]. Qed.

Lemma below_all z : small_abs z -> max2 (nopp infinity) (num_of_Z z) = num_of_Z z.
Proof.
  intros Hz. unfold max2. rewrite nan_of_Z by done. destruct (Z.eq_dec z 0%Z) as [->|Hn]; [reflexivity|].
  by rewrite num_of_Z_canon.
Qed.

Lemma new_id_Z items zs : (B + 1 < 2 ^ 53)%Z -> ids_are B items zs ->
  exists m, new_id items = Ret (num_of_Z m) /\ (0 < m)%Z /\ Forall (fun z => (z < m)%Z) zs /\ ((0 <= B)%Z -> (m <= B + 1)%Z).
Proof.
  intros HB' Hi. assert (Forall (fun z => (0 < z <= B)%Z) zs) as Hz by (eapply Forall2_Forall_r; [exact Hi|]; apply Forall_forall; naive_solver).
  unfold new_id. rewrite (id_numbers_Z items zs) by done. cbn [obind]. exists (foldl Z.max 0%Z zs + 1)%Z.
  assert (foldl max2 (nopp infinity) (List.map num_of_Z zs ++ [zero]) = num_of_Z (foldl Z.max 0%Z zs)) as ->.
  { destruct zs as [|z zs]; [reflexivity|]. apply Forall_cons in Hz as [Hz Hzs]. cbn [List.map app foldl].
    rewrite below_all by (by apply id_small). rewrite foldl_app. destruct (max_fold zs z) as [-> Hs]; [by apply id_small|done|].
    cbn [foldl]. rewrite <-num_of_Z_zero, max2_Z by done. f_equal. destruct (foldl_max_ge zs z) as [Hge _].
    replace (Z.max 0 z) with z by lia. lia. }
  destruct (foldl_max_ge zs 0%Z) as [H0 Hall]. destruct (max_fold zs 0%Z) as [_ Hs]; [done|done|].
  assert (foldl Z.max 0%Z zs = 0 \/ foldl Z.max 0%Z zs <= B)%Z as Hle.
  { destruct zs as [|z zs]; [by left|]. right. apply foldl_max_le; [apply Forall_cons in Hz as [? _]; lia|].
    eapply Forall_impl; [exact Hz|]. cbn. lia. }
  change one with (num_of_Z 1). rewrite nadd_exact by (unfold small_abs in *; lia).
  split; [done|]. split; [lia|]. split; [eapply Forall_impl; [exact Hall|]; cbn; lia|]. lia.
Qed.
End ids.

Lemma distinct_filter B f items : distinct_ids B items -> distinct_ids B (List.filter f items).
Proof.
  intros (zs & Hi & Hn). assert (exists zs', ids_are B (List.filter f items) zs' /\ zs' `sublist_of` zs) as (zs' & H1 & H2).
  { clear Hn. induction Hi as [|item z items zs H _ (zs' & IH1 & IH2)]; [by exists []; split; constructor|]. cbn [List.filter]. destruct (f item).
    - exists (z :: zs'). split; by constructor.
    - exists zs'. split; [done|]. by constructor. }
  exists zs'. split; [done|]. by eapply sublist_NoDup.
Qed.

Lemma distinct_more B B' items : (B <= B')%Z -> distinct_ids B items -> distinct_ids B' items.
Proof. intros H (zs & Hi & Hn). exists zs. split; [|done]. eapply Forall2_impl; [exact Hi|]. cbn. intros ? ? [? ?]. split; [done|lia]. Qed.

Lemma assign_id item values : id_key ∉ values.*1 -> entry_id (obj_assign item values) = entry_id item.
Proof.
  unfold entry_id. revert item. induction values as [|[k v] values IH]; intros item; [done|]. cbn [fmap list_fmap fst].
  intros [Hk Hv]%not_elem_of_cons. cbn [obj_assign foldl fst snd]. fold (obj_assign (obj_set k v item) values).
  rewrite IH by done. by apply obj_get_set_ne.
Qed.

Lemma distinct_map B f items : (forall item, entry_id (f item) = entry_id item) -> distinct_ids B items -> distinct_ids B (List.map f items).
Proof.
  intros Hf (zs & Hi & Hn). exists zs. split; [|done]. clear Hn. induction Hi as [|item z items zs H _ IH]; [constructor|].
  cbn [List.map]. constructor; [by rewrite Hf|done].
Qed.

Lemma distinct_add B items values : (0 <= B)%Z -> (B + 1 < 2 ^ 53)%Z -> id_key ∉ values.*1 -> distinct_ids B items ->
  exists m, new_id items = Ret m /\ distinct_ids (B + 1) (items ++ [obj_assign [(id_key, JNum m)] values]).
Proof.
  intros HB HB' Hv (zs & Hi & Hn). destruct (new_id_Z B ltac:(lia) items zs HB' Hi) as (m & Hm & Hpos & Hlt & Hle).
  exists (num_of_Z m). split; [done|]. exists (zs ++ [m]). split.
  - apply Forall2_app; [eapply Forall2_impl; [exact Hi|]; cbn; intros ? ? [? ?]; split; [done|lia]|].
    constructor; [|constructor]. rewrite assign_id by done. split; [done|]. specialize (Hle HB). lia.
  - apply NoDup_app. split; [done|]. split; [|apply NoDup_singleton]. intros z Hz ->%list_elem_of_singleton.
    rewrite Forall_forall in Hlt. specialize (Hlt m Hz). lia.
Qed.

Lemma filter_others {A} (f : A -> bool) l : forall i a, l !! i = Some a ->
  (forall j b, l !! j = Some b -> f b = negb (bool_decide (j = i))) -> List.filter f l = delete i l.
Proof.
  induction l as [|x l IH]; intros i a Hi Hf; [done|]. cbn [List.filter]. rewrite (Hf 0 x) by done. destruct i as [|i].
  - cbn. clear IH Hi. assert (forall j b, l !! j = Some b -> f b = true) as Hl by (intros j b Hb; by rewrite (Hf (S j) b)).
    clear Hf. apply lfilter_id, Forall_forall. intros b Hb. apply list_elem_of_lookup in Hb as [j Hj]. by eapply Hl.
  - cbn. f_equal. apply (IH i a Hi). intros j b Hb. rewrite (Hf (S j) b) by done. f_equal. by apply bool_decide_ext; naive_solver.
Qed.

Lemma map_at {A} (f : A -> bool) (h : A -> A) l i a : l !! i = Some a ->
  (forall j b, l !! j = Some b -> f b = bool_decide (j = i)) -> List.map (fun b => if f b then h b else b) l = <[i := h a]> l.
Proof.
  intros Hi Hf. apply list_eq. intros j. change (List.map ?g l) with (g <$> l). rewrite list_lookup_fmap.
  destruct (decide (j = i)) as [->|Hne].
  - rewrite list_lookup_insert_eq by (by eapply lookup_lt_Some). rewrite Hi. cbn. by rewrite (Hf i a), bool_decide_eq_true_2.
  - rewrite list_lookup_insert_ne by done. destruct (l !! j) as [b|] eqn:Ej; [|done]. cbn. by rewrite (Hf j b), bool_decide_eq_false_2.
Qed.

Section apart.
Context (B : Z) (HB : (B < 2 ^ 53)%Z) (items : list entry) (Hd : distinct_ids B items).

Lemma ids_apart i j a b : items !! i = Some a -> items !! j = Some b -> id_eqb (entry_id a) (entry_id b) = bool_decide (i = j).
Proof.
  destruct Hd as (zs & Hi & Hn). intros Ha Hb.
  destruct (Forall2_lookup_l _ _ _ _ _ Hi Ha) as (x & Hx & Ex & Bx). destruct (Forall2_lookup_l _ _ _ _ _ Hi Hb) as (y & Hy & Ey & By).
  rewrite Ex, Ey, (id_eqb_Z B HB) by done. destruct (bool_decide_reflect (i = j)) as [->|Hne].
  - rewrite Hx in Hy. injection Hy as ->. apply Z.eqb_refl.
  - apply Z.eqb_neq. intros ->. apply Hne. by apply (NoDup_lookup zs i j y).
Qed.

Lemma delete_alone i item : items !! i = Some item ->
  List.filter (fun x => negb (id_eqb (entry_id x) (entry_id item))) items = delete i items.
Proof. intros Hi. apply (filter_others _ _ i item); [done|]. intros j b Hb. f_equal. by apply ids_apart. Qed.

Lemma edit_alone i item values : items !! i = Some item ->
  List.map (fun x => if id_eqb (entry_id x) (entry_id item) then obj_assign x values else x) items = <[i := obj_assign item values]> items.
Proof. intros Hi. apply (map_at (fun x => id_eqb (entry_id x) (entry_id item)) (fun x => obj_assign x values)); [done|]. intros j b Hb. by apply ids_apart. Qed.
End apart.

(** ** The entries of a section stay apart *)

Class LawfulEntry (E : ListEntry) : Prop := {
  fields_no_id : id_key ∉ le_fields;
  blank_fields now : id_key ∉ (le_blank now).*1;
  form_fields item : id_key ∉ (le_form item).*1
}.

Lemma copied_key k item x : x <> k -> x ∉ (copy_field k item).*1.
Proof. unfold copy_field. intros Hne. destruct (obj_get k item); cbn; [|apply not_elem_of_nil]. by intros ->%list_elem_of_singleton. Qed.

Ltac no_id := repeat first [apply not_elem_of_nil | (apply not_elem_of_cons; split; [by keys_ne|])].
Ltac no_id_form := rewrite ?fmap_app, ?not_elem_of_app; repeat split; try (apply copied_key; by keys_ne); no_id.

#[export] Instance announcements_lawful : LawfulEntry announcements.
Proof. split; [cbn; no_id|intros; cbn; no_id|]. intros item. cbn [le_form announcements]. unfold announcement_form. no_id_form. Qed.
#[export] Instance api_info_lawful is_url : LawfulEntry (api_info is_url).
Proof. split; [cbn; no_id|intros; cbn; no_id|]. intros item. cbn [le_form api_info]. unfold api_info_form. no_id_form. Qed.
#[export] Instance faq_lawful : LawfulEntry faq.
Proof. split; [cbn; no_id|intros; cbn; no_id|]. intros item. cbn [le_form faq]. unfold faq_form. no_id_form. Qed.
#[export] Instance uptime_lawful is_url : LawfulEntry (uptime_kuma is_url).
Proof. split; [cbn; no_id|intros; cbn; no_id|]. intros item. cbn [le_form uptime_kuma]. unfold uptime_form. no_id_form. Qed.

(** A stored text whose entries get distinct identifiers of at most [B]. *)
Definition stored_ok (B : Z) (data : jstr) : Prop :=
  match JSON_parse (str_or data (js "[]")) with
  | Ret (JArr l) => match load_items 0 l with Ret items => distinct_ids B items | Throw => True end
  | _ => True
  end.

(** States after [n] events. *)
Inductive list_reachable (E : ListEntry) (B : Z) : nat -> ListState -> Prop :=
| list_mounted data enabled now : stored_ok B data -> list_reachable E B 0 (mount_list E data enabled now)
| list_stepped n ev s : list_reachable E B n s -> (forall data, ev = DataChanged data -> stored_ok B data) ->
    list_reachable E B (S n) (list_step E ev s).

Definition kept_apart (B : Z) (s : ListState) : Prop := distinct_ids B (ls_items s) /\ id_key ∉ (ls_form s).*1.

Lemma distinct_none B : distinct_ids B [].
Proof. exists []. split; constructor. Qed.

Lemma load_distinct B B' data current : (B <= B')%Z -> stored_ok B data -> distinct_ids B' current -> distinct_ids B' (load_list data current).
Proof.
  unfold stored_ok, load_list. intros HB Hs Hc. destruct (JSON_parse _) as [[]|]; try done; [|apply distinct_none].
  destruct (load_items 0 l) as [items|]; cbn [try_catch]; [by eapply distinct_more|apply distinct_none].
Qed.

Section kept.
Context (E : ListEntry) `{!LawfulEntry E} (B : Z) (HB0 : (0 <= B)%Z) (HB : (B + 1 < 2 ^ 53)%Z).

Lemma confirm_apart s : distinct_ids B (ls_items s) -> distinct_ids B (ls_items (confirmDelete s)).
Proof. intros H. unfold confirmDelete. destruct (ls_target s), (ls_editing s); cbn; try done; by apply distinct_filter. Qed.

Lemma submit_apart s values s' : id_key ∉ values.*1 -> distinct_ids B (ls_items s) -> handleSubmitForm values s = Ret s' ->
  distinct_ids (B + 1) (ls_items s') /\ ls_form s' = ls_form s.
Proof.
  intros Hv Hd. unfold handleSubmitForm. destruct (ls_editing s) as [e|].
  - cbn [obind]. intros [= <-]. cbn. split; [|done]. apply (distinct_more B); [lia|]. apply distinct_map; [|done].
    intros item. destruct (id_eqb _ _); [by apply assign_id|done].
  - destruct (distinct_add B (ls_items s) values HB0 HB Hv Hd) as (m & -> & H). cbn [obind]. intros [= <-]. done.
Qed.

Lemma answered_rest i a s : ls_items (request_answered E i a s) = ls_items s /\ ls_form (request_answered E i a s) = ls_form s.
Proof. unfold request_answered. destruct (ls_requests s !! i) as [[]|]; [| |done]; by destruct a. Qed.

Lemma set_keys k v o : k <> id_key -> id_key ∉ o.*1 -> id_key ∉ (obj_set k (JStr v) o).*1.
Proof. intros Hk Ho. rewrite <-obj_has_false in Ho |- *. unfold obj_has in *. by rewrite obj_get_set_ne. Qed.

Lemma step_apart ev s : kept_apart B s -> (forall data, ev = DataChanged data -> stored_ok B data) -> kept_apart (B + 1) (list_step E ev s).
Proof.
  intros [Hd Hf] Hdata. assert (kept_apart (B + 1) s) as Hs by (split; [apply (distinct_more B); [lia|done]|done]).
  destruct ev; cbn [list_step]; try exact Hs.
  - destruct (data === ls_data s); [done|]. split; [|apply Hs]. eapply load_distinct; [|by apply Hdata|apply Hs]. lia.
  - unfold handleSaveAll. destruct (_ && _); exact Hs.
  - unfold kept_apart. destruct (answered_rest i a s) as [-> ->]. exact Hs.
  - split; [apply Hs|]. apply blank_fields.
  - unfold on_entry. destruct (ls_items s !! i); [|done]. split; [apply Hs|]. apply form_fields.
  - destruct (mem k le_fields) eqn:Ek; [|done]. split; [apply Hs|]. cbn. apply set_keys; [|done].
    intros ->. by apply mem_true, fields_no_id in Ek.
  - destruct (_ && _); [|done]. destruct (handleSubmitForm _ _) as [s'|] eqn:Es; [|done]. cbn [try_catch].
    apply submit_apart in Es as [H1 H2]; [|done|done]. split; [done|]. by rewrite H2.
  - unfold on_entry. destruct (ls_items s !! i); done.
  - unfold handleBatchDelete. destruct (ls_selected s); done.
  - destruct (ls_showDelete s); [|done]. split; [by apply (distinct_more B); [lia|apply confirm_apart]|].
    unfold confirmDelete. destruct (ls_target s), (ls_editing s); done.
Qed.
End kept.

Lemma reachable_apart (E : ListEntry) `{!LawfulEntry E} B n s : (0 <= B)%Z -> (B + Z.of_nat n < 2 ^ 53)%Z -> list_reachable E B n s ->
  kept_apart (B + Z.of_nat n) s.
Proof.
  intros HB0 HB Hr. induction Hr as [data enabled now Hs|n ev s Hr IH Hdata].
  - rewrite Z.add_0_r. split; [|apply blank_fields]. cbn. eapply (load_distinct B); [done|done|apply distinct_none].
  - replace (B + Z.of_nat (S n))%Z with (B + Z.of_nat n + 1)%Z by lia.
    apply step_apart; [done|lia|lia|apply IH; lia|]. intros data Hev. specialize (Hdata data Hev). unfold stored_ok in *.
    destruct (JSON_parse _) as [[]|]; try done. destruct (load_items 0 l); [|done]. eapply distinct_more; [|done]. lia.
Qed.

(** C22: in each of the four sections, as long as the stored lists have distinct positive whole
    identifiers and these stay below two to the power 53, no two entries of the list ever share an
    identifier: deleting an entry removes that entry and nothing else, and submitting the form of
    an entry changes that entry and nothing else. *)
Theorem entries_stay_apart (E : ListEntry) `{!LawfulEntry E} B n s :
  (0 <= B)%Z -> (B + Z.of_nat n < 2 ^ 53)%Z -> list_reachable E B n s ->
  forall i item, ls_items s !! i = Some item ->
    (forall j other, ls_items s !! j = Some other -> i <> j -> id_eqb (entry_id item) (entry_id other) = false) /\
    ls_items (confirmDelete (handleDeleteEntry item s)) = delete i (ls_items s) /\
    forall values, exists s', handleSubmitForm values (handleEditEntry E item s) = Ret s' /\ ls_items s' = <[i := obj_assign item values]> (ls_items s).
Proof.
  intros HB0 HB Hr i item Hi. apply reachable_apart in Hr as [Hd _]; [|done|done|done]. split; [|split].
  - intros j other Hj Hne. rewrite (ids_apart _ HB _ Hd i j) by done. by apply bool_decide_eq_false_2.
  - cbn. by apply (delete_alone _ HB).
  - intros values. eexists. split; [reflexivity|]. cbn. by apply (edit_alone _ HB).
Qed.

Lemma stored_list B items : Forall entry_ok items -> distinct_ids B items -> stored_ok B (list_text items).
Proof.
  intros H Hd. unfold stored_ok. assert (str_or (list_text items) (js "[]") = list_text items) as -> by done.
  unfold list_text. rewrite parse_stringify; [by rewrite load_saved|]. apply json_ok_arr, Forall_forall.
  intros v (item & <- & Hi)%list_elem_of_In%in_map_iff. rewrite Forall_forall in H. apply obj_ok_json, H. by apply list_elem_of_In.
Qed.

Definition question (id : Z) (text : jstr) : entry :=
  [(id_key, JNum (num_of_Z id)); (js "question", JStr text); (js "answer", JStr (js "yes"))].
Definition two_questions : list entry := [question 1 (js "first"); question 2 (js "second")].

Lemma two_questions_ok : Forall entry_ok two_questions /\ distinct_ids 2 two_questions.
Proof.
  assert (forall z s, num_ok (num_of_Z z) -> num_truthy (num_of_Z z) = true -> utf16b s = true -> entry_ok (question z s)) as H.
  { intros z s Hz Ht Hs. split; [|eexists; split; [reflexivity|exact Ht]]. split; [by apply plain_ordered|].
    assert (forall k, utf16b k = true -> utf16 k) as Hu by apply utf16b_spec.
    apply Forall_cons; split; [split; [by apply Hu|exact Hz]|]. apply Forall_cons; split; [split; by apply Hu|].
    apply Forall_singleton. split; by apply Hu. }
  split.
  - apply Forall_cons; split; [|apply Forall_singleton]; (apply H; [num_ok_eval|done|done]).
  - exists [1; 2]%Z. split; [|by apply (bool_decide_unpack _); vm_compute].
    apply Forall2_cons; split; [done|]. apply Forall2_cons; split; [done|]. constructor.
Qed.

Lemma saved_list_reloads_witness : Forall entry_ok two_questions /\ load_list (list_text two_questions) [] = two_questions.
Proof. split; [apply two_questions_ok|]. apply saved_list_reloads. apply two_questions_ok. Defined.

Lemma entries_stay_apart_witness :
  let s := run_list faq (mount_list faq (list_text two_questions) true []) [DeleteEntry 0] in
  list_reachable faq 2 1 s /\ ls_items (confirmDelete (handleDeleteEntry (question 2 (js "second")) s)) = [question 1 (js "first")].
Proof.
  cbv zeta. assert (list_reachable faq 2 1 (run_list faq (mount_list faq (list_text two_questions) true []) [DeleteEntry 0])) as Hr.
  { apply (list_stepped faq 2 0 (DeleteEntry 0)); [|done]. apply list_mounted. apply stored_list; apply two_questions_ok. }
  split; [exact Hr|].
  destruct (entries_stay_apart faq 2 1 _ ltac:(lia) ltac:(lia) Hr 1 (question 2 (js "second"))) as (_ & -> & _); vm_compute; reflexivity.
Defined.

(** ** Oddities *)

(** An entry without an identifier takes its position, which another entry may have: deleting one deletes both. *)
Lemma position_collides :
  let s := mount_list faq (list_text [[(id_key, JNum (num_of_Z 2))]; []]) true [] in
  List.map entry_id (ls_items s) = [Some (JNum (num_of_Z 2)); Some (JNum (num_of_Z 2))] /\
  ls_items (run_list faq s [DeleteEntry 0; ConfirmDelete]) = [].
Proof. split; vm_compute; reflexivity. Qed.

Definition questions_open : ListState := mount_list faq (list_text two_questions) true [].
Definition add_question (text : jstr) : list list_event :=
  [Add []; TypeField (js "question") text; TypeField (js "answer") (js "yes"); SubmitForm].

(** A selected entry that is deleted alone stays selected, and the next new entry gets its identifier:
    it appears selected, and deleting the selection deletes it. *)
Lemma new_entry_selected :
  let s := run_list faq questions_open ([SelectOne (JNum (num_of_Z 2)) true; DeleteEntry 1; ConfirmDelete] ++ add_question (js "third")) in
  includes_id (ls_selected s) (Some (JNum (num_of_Z 2))) = true /\
  ls_items s = [question 1 (js "first"); question 2 (js "third")] /\
  ls_items (run_list faq s [DeleteSelected; ConfirmDelete]) = [question 1 (js "first")].
Proof. repeat split; vm_compute; reflexivity. Qed.

(** An entry added while the list is being saved is taken for saved, and the refetch removes it. *)
Lemma edit_during_save_lost :
  let s := run_list faq questions_open ([DeleteEntry 0; ConfirmDelete; SaveAll] ++ add_question (js "third") ++ [Answered 0 Updated]) in
  ls_hasChanges s = false /\ List.map entry_id (ls_items s) = [Some (JNum (num_of_Z 2)); Some (JNum (num_of_Z 3))] /\
  ls_items (run_list faq s [DataChanged (list_text [question 2 (js "second")])]) = [question 2 (js "second")].
Proof. repeat split; vm_compute; reflexivity. Qed.

(** A save the server refuses is reported as done after the error, and the changes no longer count as unsaved. *)
Lemma refused_save_reported :
  let s := run_list faq questions_open [DeleteEntry 0; ConfirmDelete; SaveAll; Answered 0 (Refused (Some (js "no")))] in
  ls_hasChanges s = false /\ ls_notices s = [EntryDeleted; Hook (UpdateError (js "no")); ListSaved].
Proof. split; vm_compute; reflexivity. Qed.

(** With a stored identifier that is no number, every new entry gets NaN, which is saved as null. *)
Lemma text_id_no_number :
  let s := run_list faq (mount_list faq (list_text [[(id_key, JStr (js "a"))]]) true []) (add_question (js "new")) in
  List.map entry_id (ls_items s) = [Some (JStr (js "a")); Some (JNum nan)].
Proof. vm_compute. reflexivity. Qed.

(** Whole minutes of the future count as minutes ago. *)
Lemma future_is_ago : getRelativeTime zero (num_of_Z 120000) = js "-2m ago".
Proof. vm_compute. reflexivity. Qed.
