(* ===== verification/VisualEditors.v ===== *)
(** * Editors over JSON arrays and objects

    [features/system-settings/integrations] and [content]: payment methods, Creem products,
    discount_list, amounts and chat links are JSON texts of the settings forms, each with a table that
    edits the text entry by entry.  Payment methods and Creem products are the same editor over
    different entries ([ArrayEntry]): entries the table does not understand stay in the text.

    An entry is compared with the one that is edited by the values that identify it, not by its
    position. *)
From S2P Require Import Prelude Numbers Exact Json JsonRoundtrip JsonPretty Settings Wallet.
Local Open Scope js_scope.

(** ** Arrays of entries *)

Class ArrayEntry (A : Type) : Type := {
  ae_read : json -> option A;
  ae_same : A -> json -> bool;
  ae_write : A -> json;
  ae_words : A -> list jstr
}.

Definition read_array (value : jstr) : list json :=
  match safeJsonParseWithValidation (Some value) (JArr []) isArray with JArr l => l | _ => [] end.
Definition write_array (l : list json) : jstr := JSON_pretty (JArr l).

Section array.
Context {A : Type} `{!ArrayEntry A}.

(** The entries the table shows. *)
Definition shown_entries (value : jstr) : list A := omap ae_read (read_array value).
Definition filtered (searchText : jstr) (entries : list A) : list A :=
  if truthy searchText then List.filter (fun e => existsb (fun w => includes (lower searchText) (lower w)) (ae_words e)) entries else entries.

Fixpoint find_index {B} (f : B -> bool) (l : list B) : option nat :=
  match l with [] => None | x :: l' => if f x then Some 0 else S <$> find_index f l' end.

Definition save_entry (editData : option A) (data : A) (l : list json) : list json :=
  match editData with
  | Some e => match find_index (ae_same e) l with Some i => <[i := ae_write data]> l | None => l ++ [ae_write data] end
  | None => l ++ [ae_write data]
  end.
Definition delete_entry (e : A) (l : list json) : list json := List.filter (fun item => negb (ae_same e item)) l.

Definition saveEntry (editData : option A) (data : A) (value : jstr) : jstr := write_array (save_entry editData data (read_array value)).
Definition deleteEntry (e : A) (value : jstr) : jstr := write_array (delete_entry e (read_array value)).

(** The editor: its search, its dialog with the entry that is edited, and the text. *)
Record ArrayEditor : Type := MkArrayEditor { ar_value : jstr; ar_search : jstr; ar_open : bool; ar_edit : option A }.
Inductive array_event : Type :=
| ArSearch (s : jstr) | ArAdd | ArEdit (i : nat) | ArClose | ArSave (data : A) | ArDelete (i : nat) | ArText (value : jstr).

(** The buttons of a row are those of a shown_entries entry; the dialog closes when it saves. *)
Definition array_step (valid : A -> bool) (ev : array_event) (s : ArrayEditor) : ArrayEditor :=
  match ev with
  | ArSearch t => MkArrayEditor (ar_value s) t (ar_open s) (ar_edit s)
  | ArAdd => MkArrayEditor (ar_value s) (ar_search s) true None
  | ArEdit i => match filtered (ar_search s) (shown_entries (ar_value s)) !! i with
                | Some e => MkArrayEditor (ar_value s) (ar_search s) true (Some e)
                | None => s
                end
  | ArClose => MkArrayEditor (ar_value s) (ar_search s) false (ar_edit s)
  | ArSave data => if ar_open s && valid data
                   then MkArrayEditor (saveEntry (ar_edit s) data (ar_value s)) (ar_search s) false (ar_edit s) else s
  | ArDelete i => match filtered (ar_search s) (shown_entries (ar_value s)) !! i with
                  | Some e => MkArrayEditor (deleteEntry e (ar_value s)) (ar_search s) (ar_open s) (ar_edit s)
                  | None => s
                  end
  | ArText v => MkArrayEditor v (ar_search s) (ar_open s) (ar_edit s)
  end.
End array.
Arguments ArrayEditor A : clear implicits.
Arguments array_event A : clear implicits.

(** *** Payment methods *)

Record PaymentMethodData : Type := MkPaymentMethod { p_name : jstr; p_type : jstr; p_color : jstr; p_min_topup : option json }.

(** [typeof item === 'object' && item !== null]: an array is one, and has none of the keys. *)
Definition text_prop_of (k : jstr) (item : json) : option jstr :=
  match item with JObj o => match obj_get k o with Some (JStr s) => Some s | _ => None end | _ => None end.
Definition prop_is (k s : jstr) (item : json) : bool := match text_prop_of k item with Some t => t === s | None => false end.

Definition read_payment_method (item : json) : option PaymentMethodData :=
  name ← text_prop_of (js "name") item; type ← text_prop_of (js "type") item; color ← text_prop_of (js "color") item;
  Some (MkPaymentMethod name type color (match item with JObj o => obj_get (js "min_topup") o | _ => None end)).
Definition write_payment_method (m : PaymentMethodData) : json :=
  JObj ([(js "name", JStr (p_name m)); (js "type", JStr (p_type m)); (js "color", JStr (p_color m))]
        ++ match p_min_topup m with Some v => [(js "min_topup", v)] | None => [] end).
#[export] Instance payment_method_entry : ArrayEntry PaymentMethodData := {|
  ae_read := read_payment_method; ae_write := write_payment_method;
  ae_same m item := prop_is (js "name") (p_name m) item && prop_is (js "type") (p_type m) item;
  ae_words m := [p_name m; p_type m] |}.

(** The dialog: its schema and what it hands over. *)
Definition createPaymentMethodDialogSchema (m : PaymentMethodData) : bool :=
  truthy (p_name m) && truthy (p_type m) && truthy (p_color m)
  && match p_min_topup m with None | Some (JStr _) => true | _ => false end.
Definition submit_payment_method (values : PaymentMethodData) : PaymentMethodData :=
  MkPaymentMethod (p_name values) (p_type values) (p_color values)
    (match p_min_topup values with Some (JStr s) => if truthy s && truthy (trim s) then Some (JStr s) else None | _ => None end).

Definition PAYMENT_TEMPLATES : list (jstr * PaymentMethodData) :=
  [(js "Alipay", MkPaymentMethod [25903; 20184; 23453]%N (js "alipay") (js "rgba(var(--semi-blue-5), 1)") None);
   (js "WeChat Pay", MkPaymentMethod [24494; 20449]%N (js "wxpay") (js "rgba(var(--semi-green-5), 1)") None);
   (js "Stripe", MkPaymentMethod (js "Stripe") (js "stripe") (js "rgba(var(--semi-green-5), 1)") None);
   (js "Custom", MkPaymentMethod [33258; 23450; 20041; 49]%N (js "custom1") (js "black") (Some (JStr (js "50"))))].
(** A template literal has its color first, and its minimum before its name. *)
Definition write_template (m : PaymentMethodData) : json :=
  JObj ([(js "color", JStr (p_color m))] ++ match p_min_topup m with Some v => [(js "min_topup", v)] | None => [] end
        ++ [(js "name", JStr (p_name m)); (js "type", JStr (p_type m))]).
Definition handleInsertTemplate (template : PaymentMethodData) (value : jstr) : jstr :=
  let parsed := read_array value in
  if existsb (ae_same template) parsed then value else write_array (parsed ++ [write_template template]).
Definition getColorPreview (color : jstr) : option jstr := if includes (js "var(--") color then None else Some color.

(** *** Creem products *)

Definition number_prop_of (k : jstr) (item : json) : option number :=
  match item with JObj o => match obj_get k o with Some (JNum x) => Some x | _ => None end | _ => None end.
Definition CURRENCIES : list jstr := [js "USD"; js "EUR"].
Definition read_creem_product (item : json) : option CreemProduct :=
  name ← text_prop_of (js "name") item; productId ← text_prop_of (js "productId") item;
  price ← number_prop_of (js "price") item; quota ← number_prop_of (js "quota") item; currency ← text_prop_of (js "currency") item;
  if mem currency CURRENCIES then Some (MkCreem name productId price quota currency) else None.
Definition write_creem_product (p : CreemProduct) : json :=
  JObj [(js "name", JStr (cp_name p)); (js "productId", JStr (cp_productId p)); (js "price", JNum (cp_price p));
        (js "quota", JNum (cp_quota p)); (js "currency", JStr (cp_currency p))].
#[export] Instance creem_product_entry : ArrayEntry CreemProduct := {|
  ae_read := read_creem_product; ae_write := write_creem_product;
  ae_same p item := prop_is (js "productId") (cp_productId p) item;
  ae_words p := [cp_name p; cp_productId p] |}.
Definition creemProductDialogSchema (p : CreemProduct) : bool :=
  truthy (cp_name p) && truthy (cp_productId p) && nleb (Number (js "0.01")) (cp_price p) && is_finite (cp_price p)
  && nleb (num_of_Z 1) (cp_quota p) && is_finite (cp_quota p) && mem (cp_currency p) CURRENCIES.

(** ** Discounts *)

Record AmountDiscountData : Type := MkDiscount { ad_amount : number; ad_discountRate : number }.

(** [parseInt(s, 10)] *)
Definition parseInt10 (s : jstr) : number :=
  let s := trim_start s in
  let '(neg, r) := match s with 45%N :: r => (true, r) | 43%N :: r => (false, r) | _ => (false, s) end in
  match (span_digits r).1 with
  | [] => nan
  | ds => let x := num_of_Z (Z.of_N (digits_val ds)) in if neg then nopp x else x
  end.

Definition read_record (value : jstr) : list (jstr * json) :=
  match safeJsonParseWithValidation (Some value) (JObj []) isObjectRecord with JObj o => o | _ => [] end.
Definition write_record (o : list (jstr * json)) : jstr := JSON_pretty (JObj o).

(** [String] of an object may throw, and then the table does not appear. *)
Fixpoint discount_rows (o : list (jstr * json)) : outcome (list AmountDiscountData) :=
  match o with
  | [] => Ret []
  | (amount, rate) :: o' =>
      let! r := match rate with JNum x => Ret x | _ => let! s := to_String rate in Ret (parseFloat s) end in
      let! rest := discount_rows o' in
      Ret (MkDiscount (parseInt10 amount) r :: rest)
  end.
Definition discount_list (value : jstr) : outcome (list AmountDiscountData) :=
  let! rows := discount_rows (read_record value) in
  Ret (sort_by (fun a b => negb (nltb zero (nsub (ad_amount a) (ad_amount b))))
         (List.filter (fun d => negb (is_nan (ad_amount d)) && negb (is_nan (ad_discountRate d))) rows)).

Definition save_discount (editData : option AmountDiscountData) (data : AmountDiscountData) (o : list (jstr * json)) : list (jstr * json) :=
  let o := match editData with
           | Some e => if negb (neqb (ad_amount e) (ad_amount data)) then obj_delete (num_to_str (ad_amount e)) o else o
           | None => o
           end in
  obj_set (num_to_str (ad_amount data)) (JNum (ad_discountRate data)) o.
Definition saveDiscount (editData : option AmountDiscountData) (data : AmountDiscountData) (value : jstr) : jstr :=
  write_record (save_discount editData data (read_record value)).
Definition deleteDiscount (amount : number) (value : jstr) : jstr := write_record (obj_delete (num_to_str amount) (read_record value)).
Definition formatPercentage (rate : number) : jstr :=
  if nleb (num_of_Z 1) rate then js "0%"
  else num_to_str (math_round (nmul (nsub (num_of_Z 1) rate) (num_of_Z 100))) ++ js "%".

(** A whole number is one that [Math.floor] leaves alone. *)
Definition createAmountDiscountDialogSchema (d : AmountDiscountData) : bool :=
  is_finite (ad_amount d) && nltb zero (ad_amount d) && neqb (math_floor (ad_amount d)) (ad_amount d)
  && is_finite (ad_discountRate d) && nltb zero (ad_discountRate d) && nleb (ad_discountRate d) (num_of_Z 1).
Definition discountPercentage (rate : number) : number :=
  if negb (num_truthy rate) || nleb (num_of_Z 1) rate then zero else math_round (nmul (nsub (num_of_Z 1) rate) (num_of_Z 100)).

(** ** Amounts *)

Definition ascending (a b : number) : bool := negb (nltb zero (nsub a b)).
Fixpoint amount_numbers (l : list json) : outcome (list number) :=
  match l with
  | [] => Ret []
  | v :: l' =>
      let! x := to_Number (Some v) in
      let! xs := amount_numbers l' in
      Ret (match v with JNum _ => x :: xs | _ => if is_nan x then xs else x :: xs end)
  end.
Definition amounts (value : jstr) : outcome (list number) :=
  let! xs := amount_numbers (read_array value) in Ret (sort_by ascending xs).

(** [a.indexOf(v) === i] for each element: the first of equal numbers stays. *)
Fixpoint uniq_from (seen l : list number) : list number :=
  match l with
  | [] => []
  | x :: l' => if is_nan x || existsb (neqb x) seen then uniq_from (seen ++ [x]) l' else x :: uniq_from (seen ++ [x]) l'
  end.
Definition add_amount (amount : number) (l : list number) : list number := sort_by ascending (uniq_from [] (l ++ [amount])).
(** The text and the input afterwards; the button is also disabled for an amount that is not positive. *)
Definition handleAmountAdd (newAmount value : jstr) : outcome (jstr * jstr) :=
  let! l := amounts value in
  let amount := parseFloat newAmount in
  Ret (if is_nan amount || nleb amount zero then (value, newAmount) else (write_array (List.map JNum (add_amount amount l)), [])).
Definition handleAmountRemove (amount : number) (value : jstr) : outcome jstr :=
  let! l := amounts value in Ret (write_array (List.map JNum (List.filter (fun a => negb (neqb a amount)) l))).

(** ** Chat links *)

Record ChatEntryData : Type := MkChatEntry { ce_name : jstr; ce_url : jstr }.

Fixpoint chats_of (l : list json) : outcome (list ChatEntryData) :=
  match l with
  | [] => Ret []
  | JObj [(name, url)] :: l' => let! s := to_String url in let! rest := chats_of l' in Ret (MkChatEntry name s :: rest)
  | _ :: l' => chats_of l'
  end.
Definition chats (value : jstr) : outcome (list ChatEntryData) := chats_of (read_array value).
Definition filteredChats (searchText : jstr) (l : list ChatEntryData) : list ChatEntryData :=
  if truthy searchText
  then List.filter (fun c => includes (lower searchText) (lower (ce_name c)) || includes (lower searchText) (lower (ce_url c))) l
  else l.
Definition names_chat (name : jstr) (item : json) : bool := match item with JObj o => mem name o.*1 | _ => false end.
Definition save_chat (editData : option ChatEntryData) (data : ChatEntryData) (l : list json) : list json :=
  (match editData with Some e => List.filter (fun item => negb (names_chat (ce_name e) item)) l | None => l end)
  ++ [JObj [(ce_name data, JStr (ce_url data))]].
Definition saveChat (editData : option ChatEntryData) (data : ChatEntryData) (value : jstr) : jstr :=
  write_array (save_chat editData data (read_array value)).
Definition deleteChat (name value : jstr) : jstr := write_array (List.filter (fun item => negb (names_chat name item)) (read_array value)).

(** The section: its check and what it sends. *)
Definition createChatSchema (value : jstr) : bool :=
  match JSON_parse (str_or value (js "[]")) with
  | Ret (JArr l) => forallb (fun item => match item with JObj [_] => true | _ => false end) l
  | _ => false
  end.
Definition editor_target (value fallback : jstr) : jstr := if truthy value && truthy (trim value) then value else fallback.
Definition formatJsonForEditor (value fallback : jstr) : jstr :=
  let target := editor_target value fallback in match JSON_parse target with Ret v => JSON_pretty v | Throw => target end.
Definition normalize_json_text (value fallback : jstr) : jstr :=
  let target := editor_target value fallback in match JSON_parse target with Ret v => JSON_stringify v | Throw => trim target end.
Definition submit_chats (initial value : jstr) : option (jstr * json) :=
  let normalized := normalize_json_text value (js "[]") in
  if normalized === normalize_json_text initial (js "[]") then None else Some (js "Chats", JStr normalized).

(** ** What an editor leaves alone *)

Lemma read_written_array l : json_ok (JArr l) -> read_array (write_array l) = l.
Proof.
  intros H. unfold read_array, write_array, safeJsonParseWithValidation, safeJsonParse.
  assert (blank_text (Some (JSON_pretty (JArr l))) = false) as ->.
  { cbn [blank_text]. rewrite (pretty_trimmed (JArr l)). destruct (JSON_pretty (JArr l)) eqn:E; [|done].
    pose proof (parse_pretty (JArr l) H) as Hp. rewrite E in Hp. vm_compute in Hp. done. }
  cbn [default from_option]. unfold id. rewrite pretty_trimmed, parse_pretty by done. done.
Qed.

(** What identifies an entry, if it has it. *)
Class LawfulArrayEntry (A : Type) `{!ArrayEntry A} (has_key : json -> bool) : Prop := {
  same_has_key (e : A) item : ae_same e item = true -> has_key item = true;
  write_has_key (e : A) : has_key (ae_write e) = true
}.

Definition payment_key (item : json) : bool :=
  match text_prop_of (js "name") item, text_prop_of (js "type") item with Some _, Some _ => true | _, _ => false end.
#[export] Instance payment_lawful : LawfulArrayEntry PaymentMethodData payment_key.
Proof.
  split; [|done]. intros e item. cbn [ae_same payment_method_entry]. unfold prop_is, payment_key.
  intros [H1 H2]%andb_true_iff. by destruct (text_prop_of (js "name") item), (text_prop_of (js "type") item).
Qed.
Definition creem_key (item : json) : bool := match text_prop_of (js "productId") item with Some _ => true | None => false end.
#[export] Instance creem_lawful : LawfulArrayEntry CreemProduct creem_key.
Proof. split; [|done]. intros e item. cbn [ae_same creem_product_entry]. unfold prop_is, creem_key. by case_match. Qed.

Section foreign.
Context {A : Type} `{!ArrayEntry A} (has_key : json -> bool) `{!LawfulArrayEntry A has_key}.

(** The entries the editor can neither show nor match. *)
Definition foreign (l : list json) : list json := List.filter (fun item => negb (has_key item)) l.

Lemma foreign_app l l' : foreign (l ++ l') = foreign l ++ foreign l'.
Proof. apply List.filter_app. Qed.

Lemma find_index_some {B} (f : B -> bool) l i : find_index f l = Some i -> exists x, l !! i = Some x /\ f x = true.
Proof.
  revert i. induction l as [|y l IH]; intros i; [done|]. cbn [find_index]. destruct (f y) eqn:E; [intros [= <-]; by exists y|].
  destruct (find_index f l) as [k|]; [|done]. intros [= <-]. by apply IH.
Qed.

Lemma foreign_insert l : forall i x y, l !! i = Some x -> has_key x = true -> has_key y = true -> foreign (<[i := y]> l) = foreign l.
Proof.
  induction l as [|z l IH]; intros i x y Hi Hx Hy; [done|]. destruct i as [|i]; cbn.
  - injection Hi as ->. by rewrite Hx, Hy.
  - unfold foreign in IH. destruct (negb (has_key z)); [f_equal|]; by eapply IH.
Qed.

Lemma foreign_save edit (d : A) l : foreign (save_entry edit d l) = foreign l.
Proof.
  assert (foreign (l ++ [ae_write d]) = foreign l) as Happ.
  { rewrite foreign_app. cbn. rewrite write_has_key. apply app_nil_r. }
  unfold save_entry. destruct edit as [e|]; [|done]. destruct (find_index (ae_same e) l) as [i|] eqn:Ei; [|done].
  apply find_index_some in Ei as (x & Hx & Hs). eapply foreign_insert; [done|by eapply same_has_key|apply write_has_key].
Qed.

Lemma foreign_delete (e : A) l : foreign (delete_entry e l) = foreign l.
Proof.
  unfold foreign, delete_entry. induction l as [|x l IH]; [done|]. cbn [List.filter].
  destruct (ae_same e x) eqn:E; cbn [negb List.filter].
  - rewrite (same_has_key e x E). exact IH.
  - destruct (negb (has_key x)); by rewrite IH.
Qed.

Lemma save_ok edit (d : A) l : json_ok (ae_write d) -> json_ok (JArr l) -> json_ok (JArr (save_entry edit d l)).
Proof.
  rewrite !json_ok_arr. intros Hd Hl. assert (Forall json_ok (l ++ [ae_write d])) as Happ by (by apply Forall_app; split; [|apply Forall_singleton]).
  unfold save_entry. destruct edit as [e|]; [|done]. destruct (find_index _ l); [by apply Forall_insert|done].
Qed.
Lemma delete_ok (e : A) l : json_ok (JArr l) -> json_ok (JArr (delete_entry e l)).
Proof. rewrite !json_ok_arr. rewrite !Forall_forall. intros H x [Hx _]%elem_of_lfilter. by apply H. Qed.

(** The text is only changed by the editor, and what is saved can be written. *)
Definition own_event (ev : array_event A) : Prop :=
  match ev with ArText _ => False | ArSave d => json_ok (ae_write d) | _ => True end.
Definition run_editor (valid : A -> bool) (s : ArrayEditor A) (evs : list (array_event A)) : ArrayEditor A :=
  foldl (fun s ev => array_step valid ev s) s evs.

Lemma step_foreign valid ev s : own_event ev -> json_ok (JArr (read_array (ar_value s))) ->
  json_ok (JArr (read_array (ar_value (array_step valid ev s)))) /\
  foreign (read_array (ar_value (array_step valid ev s))) = foreign (read_array (ar_value s)).
Proof.
  intros Hev Hok. destruct ev as [t| |i| |d|i|v]; cbn [array_step ar_value]; try done.
  - by destruct (_ !! i).
  - destruct (ar_open s && valid d); [|done]. cbn [ar_value]. unfold saveEntry.
    pose proof (save_ok (ar_edit s) d _ Hev Hok) as H. by rewrite read_written_array, foreign_save.
  - destruct (_ !! i) as [e|]; [|done]. cbn [ar_value]. unfold deleteEntry.
    pose proof (delete_ok e _ Hok) as H. by rewrite read_written_array, foreign_delete.
Qed.
End foreign.

(** C23: whatever is added, changed and deleted in the table of payment methods or of Creem products,
    the entries of the stored array that the table cannot identify stay in it, all of them and in
    their order. *)
Theorem foreign_entries_survive {A} `{!ArrayEntry A} has_key `{!LawfulArrayEntry A has_key} valid (s : ArrayEditor A) evs :
  json_ok (JArr (read_array (ar_value s))) -> Forall own_event evs ->
  foreign has_key (read_array (ar_value (run_editor valid s evs))) = foreign has_key (read_array (ar_value s)).
Proof.
  intros Hok Hevs. revert s Hok. induction Hevs as [|ev evs Hev _ IH]; intros s Hok; [done|].
  destruct (step_foreign has_key valid ev s Hev Hok) as [H1 H2]. cbn [run_editor foldl]. rewrite <-H2. by apply IH.
Qed.

Definition bank : PaymentMethodData := MkPaymentMethod (js "Bank") (js "bank") (js "black") None.
Definition odd_methods : list json := [JStr (js "note"); write_payment_method bank; JObj [(js "name", JStr (js "half"))]].

Lemma foreign_entries_survive_witness :
  let s := MkArrayEditor (write_array odd_methods) [] true None in
  json_ok (JArr (read_array (ar_value s))) /\
  foreign payment_key (read_array (ar_value (run_editor (A := PaymentMethodData) (fun _ => true) s [ArDelete 0; ArAdd; ArSave bank])))
  = [JStr (js "note"); JObj [(js "name", JStr (js "half"))]].
Proof.
  cbv zeta. assert (json_ok (ae_write bank)) as Hb.
  { cbn [ae_write payment_method_entry]. apply obj_ok_json. split; [by apply plain_ordered|].
    apply Forall_cons; split; [split; by apply utf16b_spec|]. apply Forall_cons; split; [split; by apply utf16b_spec|].
    apply Forall_singleton. split; by apply utf16b_spec. }
  assert (json_ok (JArr odd_methods)) as Ho.
  { apply json_ok_arr. apply Forall_cons; split; [by apply utf16b_spec|]. apply Forall_cons; split; [exact Hb|]. apply Forall_singleton.
    apply obj_ok_json. split; [by apply plain_ordered|]. apply Forall_singleton. split; by apply utf16b_spec. }
  assert (json_ok (JArr (read_array (write_array odd_methods)))) as Hr by (by rewrite read_written_array).
  split; [exact Hr|]. rewrite (foreign_entries_survive payment_key (fun _ => true)).
  - cbn [ar_value]. by rewrite read_written_array.
  - exact Hr.
  - apply Forall_cons; split; [done|]. apply Forall_cons; split; [done|]. by apply Forall_singleton.
Defined.

(** The first entry that is identified like the edited one is the one that is replaced. *)
Lemma edit_in_place {A} `{!ArrayEntry A} (e d : A) l : forall i x, l !! i = Some x -> ae_same e x = true ->
  (forall j y, j < i -> l !! j = Some y -> ae_same e y = false) -> save_entry (Some e) d l = <[i := ae_write d]> l.
Proof.
  intros i x Hx Hs Hf. unfold save_entry. assert (find_index (ae_same e) l = Some i) as ->; [|done].
  revert i Hx Hf. induction l as [|y l IH]; intros i Hx Hf; [done|]. cbn [find_index]. destruct i as [|i].
  - injection Hx as ->. by rewrite Hs.
  - rewrite (Hf 0 y) by (done || lia). rewrite (IH i Hx); [done|]. intros j z Hj Hz. apply (Hf (S j) z); [lia|done].
Qed.

(** A discount that is saved is read under its amount; the other keys keep theirs, but for the one it was moved from. *)
Lemma discount_saved edit d o k :
  obj_get k (save_discount edit d o) =
    if k === num_to_str (ad_amount d) then Some (JNum (ad_discountRate d))
    else if match edit with Some e => negb (neqb (ad_amount e) (ad_amount d)) && (k === num_to_str (ad_amount e)) | None => false end
    then None else obj_get k o.
Proof.
  unfold save_discount. destruct (k === num_to_str (ad_amount d)) eqn:E; bools; [subst; apply obj_get_set_eq|].
  rewrite obj_get_set_ne by done. destruct edit as [e|]; [|done]. destruct (negb _); [|done]. cbn [andb].
  destruct (k === num_to_str (ad_amount e)) eqn:E'; bools; [subst; apply obj_get_delete_eq|by apply obj_get_delete_ne].
Qed.

(** A link that is saved is in the text, the one that was edited is not, and all others stay. *)
Lemma chat_saved edit d l item : item ∈ save_chat edit d l <->
  item = JObj [(ce_name d, JStr (ce_url d))] \/
  item ∈ l /\ match edit with Some e => names_chat (ce_name e) item = false | None => True end.
Proof.
  unfold save_chat. rewrite elem_of_app, list_elem_of_singleton. destruct edit as [e|]; [|naive_solver].
  rewrite elem_of_lfilter, negb_true_iff. naive_solver.
Qed.

(** ** Oddities *)

Definition bank_with_icon : json := JObj [(js "name", JStr (js "Bank")); (js "type", JStr (js "bank")); (js "color", JStr (js "black")); (js "icon", JStr (js "b.png"))].

(** Changing an entry drops what the dialog has no field for. *)
Lemma edited_icon_dropped :
  read_array (ar_value (run_editor (A := PaymentMethodData) (fun _ => true) (MkArrayEditor (write_array [bank_with_icon]) [] false None)
    [ArEdit 0; ArSave bank])) = [write_payment_method bank].
Proof. vm_compute. reflexivity. Qed.

(** The same method can be added twice, and deleting one deletes both. *)
Lemma twice_added_once_deleted :
  let s := run_editor (A := PaymentMethodData) createPaymentMethodDialogSchema (MkArrayEditor (js "[]") [] false None)
             [ArAdd; ArSave bank; ArAdd; ArSave bank] in
  length (read_array (ar_value s)) = 2 /\
  read_array (ar_value (run_editor (A := PaymentMethodData) createPaymentMethodDialogSchema s [ArDelete 0])) = [].
Proof. split; vm_compute; reflexivity. Qed.

(** An entry the table hides is overwritten in place of the one that was edited. *)
Lemma hidden_entry_overwritten :
  let hidden := JObj [(js "name", JStr (js "Bank")); (js "type", JStr (js "bank"))] in
  let red := MkPaymentMethod (js "Bank") (js "bank") (js "red") None in
  read_array (ar_value (run_editor (A := PaymentMethodData) (fun _ => true) (MkArrayEditor (write_array [hidden; write_payment_method bank]) [] false None)
    [ArEdit 0; ArSave red])) = [write_payment_method red; write_payment_method bank].
Proof. vm_compute. reflexivity. Qed.

(** A discount stored for an amount with a fraction is shown for the whole amount, and deleting it does nothing. *)
Lemma fraction_discount_stays :
  let value := write_record [(js "10.5", JNum (Number (js "0.9")))] in
  discount_list value = Ret [MkDiscount (num_of_Z 10) (Number (js "0.9"))] /\
  read_record (deleteDiscount (num_of_Z 10) value) = [(js "10.5", JNum (Number (js "0.9")))].
Proof. split; vm_compute; reflexivity. Qed.

(** A stored null is offered as the amount zero. *)
Lemma null_amount_zero : amounts (js "[null,5]") = Ret [zero; num_of_Z 5].
Proof. vm_compute. reflexivity. Qed.

(** Changing a link moves it behind the others. *)
Lemma edited_chat_moves :
  let value := write_array [JObj [(js "A", JStr (js "a"))]; JObj [(js "B", JStr (js "b"))]] in
  chats (saveChat (Some (MkChatEntry (js "A") (js "a"))) (MkChatEntry (js "A") (js "c")) value)
  = Ret [MkChatEntry (js "B") (js "b"); MkChatEntry (js "A") (js "c")].
Proof. vm_compute. reflexivity. Qed.
