(* ===== verification/ChannelActions.v ===== *)
(** * Actions on channels

    [features/channels/lib/channel-actions.ts]: what the buttons of the channel list do.  An action
    is the requests it makes and what it shows and calls for their answers; the answers are the
    arguments of the second part.  The actions refresh the list and call back after a success.

    [lib/multi-key-utils.ts] and the dialogs for the keys of a channel, for its tag and for the
    models of its upstream are state machines whose requests are answered later: the requests under way are part of the
    state, with the values the code keeps in its variables meanwhile. *)
From S2P Require Import Prelude Numbers Json Currency ModelMapping Channels.
Local Open Scope js_scope.

(** ** Requests, answers and effects *)

Record api_response : Type := MkResponse {
  rs_success : bool; rs_message : option jstr; rs_data : option json; rs_balance : option number; rs_error_code : option jstr
}.

(** A failed request throws an error with a message, and the server may have sent another. *)
Inductive api_answer : Type := Answer (r : api_response) | Failure (message server : option jstr).

Inductive channel_request : Type :=
| UpdateChannel (id : Z) (fields : list (jstr * json)) | DeleteChannel (id : Z)
| TestChannel (id : Z) (payload : option (list (jstr * json))) | CopyChannel (id : Z) (params : list (jstr * json))
| UpdateBalance (id : Z) | BatchDeleteChannels (ids : list Z) | BatchSetChannelTag (ids : list Z) (tag : option jstr)
| EnableTagChannels (tag : jstr) | DisableTagChannels (tag : jstr) | EditTagChannels (params : list (jstr * json))
| DeleteDisabledChannels | FixChannelAbilities | TestAllChannels | UpdateAllChannelsBalance.

(** A text to translate with its values. *)
Record notice_text : Type := MkNotice { nt_key : jstr; nt_values : list (jstr * json) }.
Definition plain_notice (s : jstr) : notice_text := MkNotice s [].

Inductive action_effect : Type := Succeed (t : notice_text) | Complain (t : notice_text) | RefreshLists | Callback (args : list (option json)).

Record channel_action : Type := MkAction { ac_requests : list channel_request; ac_done : list api_answer -> list action_effect }.

Definition asking (r : channel_request) (k : api_answer -> list action_effect) : channel_action :=
  MkAction [r] (fun l => match l with a :: _ => k a | [] => [] end).
Definition showing (l : list action_effect) : channel_action := MkAction [] (fun _ => l).

Definition perform (server : channel_request -> api_answer) (a : channel_action) : list action_effect := ac_done a (List.map server (ac_requests a)).

(** [if (response.success) ...] with nothing for a refusal, inside [try ... catch]. *)
Definition on_success (k : api_response -> list action_effect) (failed : notice_text) (a : api_answer) : list action_effect :=
  match a with Answer r => if rs_success r then k r else [] | Failure _ _ => [Complain failed] end.
(** The same with a message for a refusal. *)
Definition on_answer (k : api_response -> list action_effect) (refused failed : notice_text) (a : api_answer) : list action_effect :=
  match a with
  | Answer r => if rs_success r then k r else [Complain (match rs_message r with Some m => if truthy m then plain_notice m else refused | None => refused end)]
  | Failure _ _ => [Complain failed]
  end.

Definition STATUS_ON : number := num_of_Z 1.
Definition MANUAL_DISABLED : number := num_of_Z 2.
Definition CHANNEL_UPDATE_FAILED : notice_text := plain_notice (js "Failed to update channel").
Definition DELETE_FAILED : notice_text := plain_notice (js "Failed to delete channel").
Definition TEST_FAILED : notice_text := plain_notice (js "Failed to test channel").

Definition succeeded (t : notice_text) (args : list (option json)) : list action_effect := [Succeed t; RefreshLists; Callback args].

(** ** The actions *)

Definition handleEnableChannel (id : Z) : channel_action :=
  asking (UpdateChannel id [(js "status", JNum STATUS_ON)])
    (on_success (fun _ => succeeded (plain_notice (js "Channel enabled successfully")) []) CHANNEL_UPDATE_FAILED).
Definition handleDisableChannel (id : Z) : channel_action :=
  asking (UpdateChannel id [(js "status", JNum MANUAL_DISABLED)])
    (on_success (fun _ => succeeded (plain_notice (js "Channel disabled successfully")) []) CHANNEL_UPDATE_FAILED).
Definition handleToggleChannelStatus (id : Z) (currentStatus : number) : channel_action :=
  if neqb currentStatus STATUS_ON then handleDisableChannel id else handleEnableChannel id.
Definition handleDeleteChannel (id : Z) : channel_action :=
  asking (DeleteChannel id) (on_success (fun _ => succeeded (plain_notice (js "Channel deleted successfully")) []) DELETE_FAILED).

Definition fieldLabel (fieldName : jstr) : jstr := upper (take 1 fieldName) ++ lower (drop 1 fieldName).
Definition handleUpdateChannelField (id : Z) (fieldName : jstr) (value : number) : channel_action :=
  asking (UpdateChannel id [(fieldName, JNum value)])
    (on_answer (fun _ => succeeded (MkNotice (js "{{field}} updated to {{value}}")
                           [(js "field", JStr (fieldLabel fieldName)); (js "value", JNum value)]) []) CHANNEL_UPDATE_FAILED CHANNEL_UPDATE_FAILED).
Definition handleUpdateTagField (tag fieldName : jstr) (value : number) : channel_action :=
  asking (EditTagChannels (obj_set fieldName (JNum value) [(js "tag", JStr tag)]))
    (on_answer (fun _ => succeeded (MkNotice (js "{{field}} updated to {{value}} for tag: {{tag}}")
                           [(js "field", JStr (fieldLabel fieldName)); (js "value", JNum value); (js "tag", JStr tag)]) []) CHANNEL_UPDATE_FAILED CHANNEL_UPDATE_FAILED).

Record test_options : Type := MkTestOptions { to_testModel : option jstr; to_endpointType : option jstr; to_stream : bool }.
Definition test_field (k : jstr) (v : option jstr) : list (jstr * json) :=
  match v with Some s => if truthy s then [(k, JStr s)] else [] | None => [] end.
Definition test_payload (options : option test_options) : option (list (jstr * json)) :=
  match options with
  | Some o =>
      let fields := test_field (js "model") (to_testModel o) ++ test_field (js "endpoint_type") (to_endpointType o)
                    ++ (if to_stream o then [(js "stream", JBool true)] else []) in
      match fields with [] => None | _ => Some fields end
  | None => None
  end.
Definition prop_of (k : jstr) (v : option json) : option json := match v with Some (JObj o) => obj_get k o | _ => None end.
Definition json_text (s : option jstr) : option json := JStr <$> s.
(** The callback gets whether it worked, the time, the message and the code. *)
Definition handleTestChannel (id : Z) (options : option test_options) : channel_action :=
  asking (TestChannel id (test_payload options)) (fun a =>
    match a with
    | Answer r =>
        if rs_success r
        then [Succeed (plain_notice (js "Channel test completed")); Callback [Some (JBool true); prop_of (js "response_time") (rs_data r)]]
        else [Complain (match rs_message r with Some m => if truthy m then plain_notice m else TEST_FAILED | None => TEST_FAILED end);
              Callback [Some (JBool false); None; json_text (rs_message r); json_text (rs_error_code r)]]
    | Failure _ server =>
        let msg := match server with Some m => if truthy m then m else nt_key TEST_FAILED | None => nt_key TEST_FAILED end in
        [Complain (plain_notice msg); Callback [Some (JBool false); None; Some (JStr msg)]]
    end).

Definition handleCopyChannel (id : Z) (params : list (jstr * json)) : channel_action :=
  asking (CopyChannel id params)
    (on_success (fun r => match prop_of (js "id") (rs_data r) with
                          | Some v => if json_truthy v then succeeded (plain_notice (js "Channel copied successfully")) [Some v] else []
                          | None => []
                          end) (plain_notice (js "Failed to copy channel"))).

(** The balance is shown in the currency of the site; the browser's number formats are arguments of [formatCurrencyFromUSD]. *)
Definition handleUpdateChannelBalance (intl_currency : jstr -> nat -> number -> jstr) (intl_decimal : nat -> number -> jstr)
    (store : option StoredCurrency) (id : Z) : channel_action :=
  asking (UpdateBalance id) (fun a =>
    match a with
    | Answer r =>
        match rs_success r, rs_balance r with
        | true, Some b => succeeded (MkNotice (js "Balance updated: {{balance}}") [(js "balance", JStr
            (formatCurrencyFromUSD intl_currency intl_decimal store (Some b) (Some (MkOptions (Some 2) (Some 4) (Some false) None))))]) [Some (JNum b)]
        | _, _ => [Complain (plain_notice (opt_str_or (rs_message r) (js "Failed to update balance")))]
        end
    | Failure message _ => [Complain (plain_notice (default (js "Failed to update balance") message))]
    end).

(** *** Several channels *)

Definition no_channels : channel_action := showing [Complain (plain_notice (js "No channels selected"))].
Definition count_of (n : json) : list (jstr * json) := [(js "count", n)].
Definition json_of_nat (n : nat) : json := JNum (num_of_Z (Z.of_nat n)).

(** [response.data || n] *)
Definition handleDeleteSelected (ids : list Z) : channel_action :=
  match ids with
  | [] => no_channels
  | _ => asking (BatchDeleteChannels ids)
           (on_success (fun r => let n := json_or (rs_data r) (json_of_nat (length ids)) in
                                 succeeded (MkNotice (js "{{count}} channel(s) deleted") (count_of n)) [Some n]) DELETE_FAILED)
  end.

Definition fulfilled (a : api_answer) : bool := match a with Answer _ => true | Failure _ _ => false end.
Definition batch_update (status : number) (done_text failed_text : jstr) (ids : list Z) : channel_action :=
  match ids with
  | [] => no_channels
  | _ => MkAction (List.map (fun id => UpdateChannel id [(js "status", JNum status)]) ids) (fun results =>
           let successCount := length (List.filter fulfilled results) in
           let failCount := length (List.filter (fun a => negb (fulfilled a)) results) in
           (if Nat.ltb 0 successCount then succeeded (MkNotice done_text (count_of (json_of_nat successCount))) [] else [])
           ++ (if Nat.ltb 0 failCount then [Complain (MkNotice failed_text (count_of (json_of_nat failCount)))] else []))
  end.
Definition handleBatchEnable : list Z -> channel_action :=
  batch_update STATUS_ON (js "{{count}} channel(s) enabled") (js "{{count}} channel(s) failed to enable").
Definition handleBatchDisable : list Z -> channel_action :=
  batch_update MANUAL_DISABLED (js "{{count}} channel(s) disabled") (js "{{count}} channel(s) failed to disable").
Definition handleBatchSetTag (ids : list Z) (tag : option jstr) : channel_action :=
  match ids with
  | [] => no_channels
  | _ => asking (BatchSetChannelTag ids tag)
           (on_success (fun _ => succeeded (plain_notice (js "Tag set successfully")) []) (plain_notice (js "Failed to set tag")))
  end.

(** *** Tags and the whole list *)

Definition handleEnableTagChannels (tag : jstr) : channel_action :=
  asking (EnableTagChannels tag)
    (on_success (fun _ => succeeded (MkNotice (js "Enabled all channels with tag: {{tag}}") [(js "tag", JStr tag)]) [])
       (plain_notice (js "Failed to enable tag channels"))).
Definition handleDisableTagChannels (tag : jstr) : channel_action :=
  asking (DisableTagChannels tag)
    (on_success (fun _ => succeeded (MkNotice (js "Disabled all channels with tag: {{tag}}") [(js "tag", JStr tag)]) [])
       (plain_notice (js "Failed to disable tag channels"))).
Definition handleDeleteAllDisabled : channel_action :=
  asking DeleteDisabledChannels
    (on_success (fun r => let n := json_or (rs_data r) (JNum zero) in
                          succeeded (MkNotice (js "{{count}} disabled channel(s) deleted") (count_of n)) [Some n])
       (plain_notice (js "Failed to delete disabled channels"))).
Definition values_of (k : jstr) (v : option json) : list (jstr * json) := match prop_of k v with Some w => [(k, w)] | None => [] end.
Definition handleFixAbilities : channel_action :=
  asking FixChannelAbilities
    (on_success (fun r => match rs_data r with
                          | Some d => if json_truthy d
                                      then succeeded (MkNotice (js "Fixed abilities: {{success}} succeeded, {{fails}} failed")
                                             (values_of (js "success") (Some d) ++ values_of (js "fails") (Some d))) [Some d]
                                      else []
                          | None => []
                          end) (plain_notice (js "Failed to fix abilities"))).
Definition handleTestAllChannels : channel_action :=
  asking TestAllChannels
    (on_answer (fun _ => succeeded (plain_notice (js "Testing all enabled channels started. Please refresh to see results.")) [])
       (plain_notice (js "Failed to start testing all channels")) (plain_notice (js "Failed to test all channels"))).
Definition handleUpdateAllBalances : channel_action :=
  asking UpdateAllChannelsBalance
    (on_answer (fun _ => succeeded (plain_notice (js "Updating all channel balances. This may take a while. Please refresh to see results.")) [])
       (plain_notice (js "Failed to update all balances")) (plain_notice (js "Failed to update all balances"))).

(** What the list offers. *)
Inductive channel_command : Type :=
| CEnable (id : Z) | CDisable (id : Z) | CToggle (id : Z) (status : number) | CDelete (id : Z) | CField (id : Z) (name : jstr) (value : number)
| CTagField (tag name : jstr) (value : number) | CTest (id : Z) (options : option test_options) | CCopy (id : Z) (params : list (jstr * json))
| CBalance (id : Z) | CBatchDelete (ids : list Z) | CBatchEnable (ids : list Z) | CBatchDisable (ids : list Z)
| CBatchTag (ids : list Z) (tag : option jstr) | CEnableTag (tag : jstr) | CDisableTag (tag : jstr) | CDeleteDisabled | CFix | CTestAll | CBalances.

Section commands.
Context (intl_currency : jstr -> nat -> number -> jstr) (intl_decimal : nat -> number -> jstr) (store : option StoredCurrency).
Definition command_action (c : channel_command) : channel_action :=
  match c with
  | CEnable id => handleEnableChannel id | CDisable id => handleDisableChannel id | CToggle id s => handleToggleChannelStatus id s
  | CDelete id => handleDeleteChannel id | CField id n v => handleUpdateChannelField id n v | CTagField t n v => handleUpdateTagField t n v
  | CTest id o => handleTestChannel id o | CCopy id p => handleCopyChannel id p
  | CBalance id => handleUpdateChannelBalance intl_currency intl_decimal store id | CBatchDelete ids => handleDeleteSelected ids
  | CBatchEnable ids => handleBatchEnable ids | CBatchDisable ids => handleBatchDisable ids | CBatchTag ids t => handleBatchSetTag ids t
  | CEnableTag t => handleEnableTagChannels t | CDisableTag t => handleDisableTagChannels t | CDeleteDisabled => handleDeleteAllDisabled
  | CFix => handleFixAbilities | CTestAll => handleTestAllChannels | CBalances => handleUpdateAllBalances
  end.
End commands.

(** ** The keys of a channel *)

Inductive key_action : Type :=
| KeyEnable (keyIndex : Z) | KeyDisable (keyIndex : Z) | KeyDelete (keyIndex : Z) | EnableAll | DisableAll | DeleteDisabled.

Definition getMultiKeyStatusConfig (status : Z) : Badge := default (MkBadge (js "neutral") (js "Unknown")) (zget status MULTI_KEY_STATUS_CONFIG).
Definition getMultiKeyConfirmMessage (a : option key_action) : jstr :=
  match a with
  | None => []
  | Some (KeyDelete _) => js "Are you sure you want to delete this key? This action cannot be undone."
  | Some (KeyEnable _) => js "Enable this key?"
  | Some (KeyDisable _) => js "Disable this key?"
  | Some EnableAll => js "Are you sure you want to enable all keys?"
  | Some DisableAll => js "Are you sure you want to disable all enabled keys?"
  | Some DeleteDisabled => js "Are you sure you want to delete all auto-disabled keys? This action cannot be undone."
  end.
Definition isDestructiveAction (a : option key_action) : bool :=
  match a with Some (KeyDelete _) | Some DeleteDisabled | Some DisableAll => true | _ => false end.

Record KeyStatus : Type := MkKeyStatus { ks_index : Z; ks_status : Z }.
(** The buttons of a row. *)
Definition key_buttons (k : KeyStatus) : list key_action :=
  [if (ks_status k =? 1)%Z then KeyDisable (ks_index k) else KeyEnable (ks_index k); KeyDelete (ks_index k)].

Record KeyPage : Type := MkKeyPage {
  kp_keys : list KeyStatus; kp_total : Z; kp_page : Z; kp_page_size : Z; kp_total_pages : Z;
  kp_enabled : Z; kp_manual : Z; kp_auto : Z
}.
(** [x || d] for a whole number. *)
Definition or_z (x d : Z) : Z := if (x =? 0)%Z then d else x.

(** A page that was asked for: the channel, the page, its size and the filter. *)
Record key_load : Type := MkKeyLoad { kl_channel : Z; kl_page : Z; kl_size : Z; kl_status : option Z }.

Record KeyDialog : Type := MkKeyDialog {
  kd_open : bool; kd_row : option Z; kd_loading : bool; kd_data : KeyPage; kd_filter : option Z;
  kd_confirm : option key_action; kd_performing : bool;
  kd_loads : list key_load; kd_actions : list (Z * key_action * KeyPage * option Z); kd_sent : list (Z * key_action); kd_shown : list action_effect
}.
Definition no_keys : KeyPage := MkKeyPage [] 0 1 10 0 0 0 0.
Definition new_key_dialog : KeyDialog := MkKeyDialog false None false no_keys None None false [] [] [] [].

Definition with_page (page : Z) (d : KeyPage) : KeyPage :=
  MkKeyPage (kp_keys d) (kp_total d) page (kp_page_size d) (kp_total_pages d) (kp_enabled d) (kp_manual d) (kp_auto d).

(** [loadKeyStatus] up to its request. *)
Definition loadKeyStatus (channel page size : Z) (status : option Z) (s : KeyDialog) : KeyDialog :=
  MkKeyDialog (kd_open s) (kd_row s) true (kd_data s) (kd_filter s) (kd_confirm s) (kd_performing s)
    (kd_loads s ++ [MkKeyLoad channel page size status]) (kd_actions s) (kd_sent s) (kd_shown s).
Definition set_key_page (page : Z) (s : KeyDialog) : KeyDialog :=
  MkKeyDialog (kd_open s) (kd_row s) (kd_loading s) (with_page page (kd_data s)) (kd_filter s) (kd_confirm s) (kd_performing s)
    (kd_loads s) (kd_actions s) (kd_sent s) (kd_shown s).
Definition set_key_filter (f : option Z) (s : KeyDialog) : KeyDialog :=
  MkKeyDialog (kd_open s) (kd_row s) (kd_loading s) (kd_data s) f (kd_confirm s) (kd_performing s)
    (kd_loads s) (kd_actions s) (kd_sent s) (kd_shown s).
Definition set_key_confirm (c : option key_action) (s : KeyDialog) : KeyDialog :=
  MkKeyDialog (kd_open s) (kd_row s) (kd_loading s) (kd_data s) (kd_filter s) c (kd_performing s)
    (kd_loads s) (kd_actions s) (kd_sent s) (kd_shown s).

(** The dialog of a channel opens, or another one shows while it is open. *)
Definition open_keys (row : Z) (s : KeyDialog) : KeyDialog :=
  let s' := MkKeyDialog true (Some row) (kd_loading s) (with_page 1 (kd_data s)) None (kd_confirm s) (kd_performing s)
              (kd_loads s) (kd_actions s) (kd_sent s) (kd_shown s) in
  loadKeyStatus row 1 (kp_page_size (kd_data s)) None s'.
Definition close_keys (s : KeyDialog) : KeyDialog :=
  MkKeyDialog false (kd_row s) (kd_loading s) (kd_data s) (kd_filter s) (kd_confirm s) (kd_performing s)
    (kd_loads s) (kd_actions s) (kd_sent s) (kd_shown s).

Definition page_read (d : KeyPage) : KeyPage :=
  MkKeyPage (kp_keys d) (kp_total d) (or_z (kp_page d) 1) (or_z (kp_page_size d) 10) (kp_total_pages d) (kp_enabled d) (kp_manual d) (kp_auto d).
(** The answer to a page: the data, nothing for a refusal, or an error. *)
Inductive key_page_answer : Type := KeysRead (d : KeyPage) | KeysRefused | KeysFailed (message : option jstr).
Definition keys_answered (i : nat) (a : key_page_answer) (s : KeyDialog) : KeyDialog :=
  match kd_loads s !! i with
  | None => s
  | Some _ =>
      MkKeyDialog (kd_open s) (kd_row s) false (match a with KeysRead d => page_read d | _ => kd_data s end) (kd_filter s)
        (kd_confirm s) (kd_performing s) (delete i (kd_loads s)) (kd_actions s) (kd_sent s)
        (kd_shown s ++ match a with KeysFailed m => [Complain (plain_notice (default (js "Failed to load key status") m))] | _ => [] end)
  end.

(** The confirmation is disabled while an action is under way. *)
Definition performAction (s : KeyDialog) : KeyDialog :=
  match kd_confirm s, kd_row s with
  | Some a, Some row =>
      if kd_performing s then s
      else MkKeyDialog (kd_open s) (kd_row s) (kd_loading s) (kd_data s) (kd_filter s) (kd_confirm s) true
             (kd_loads s) (kd_actions s ++ [(row, a, kd_data s, kd_filter s)]) (kd_sent s ++ [(row, a)]) (kd_shown s)
  | _, _ => s
  end.
Definition is_bulk (a : key_action) : bool := match a with EnableAll | DisableAll | DeleteDisabled => true | _ => false end.
Definition action_ended (i : nat) (shown : list action_effect) (s : KeyDialog) : KeyDialog :=
  MkKeyDialog (kd_open s) (kd_row s) (kd_loading s) (kd_data s) (kd_filter s) None false
    (kd_loads s) (delete i (kd_actions s)) (kd_sent s) (kd_shown s ++ shown).
(** After a success the keys are loaded again, for the channel, the page and the filter of the time of the confirmation. *)
Definition action_answered (i : nat) (a : api_answer) (s : KeyDialog) : KeyDialog :=
  match kd_actions s !! i with
  | None => s
  | Some (row, act, d, f) =>
      match a with
      | Answer r =>
          if rs_success r
          then let s := action_ended i [Succeed (plain_notice (opt_str_or (rs_message r) (js "Operation successful"))); RefreshLists] s in
               if is_bulk act then loadKeyStatus row 1 (kp_page_size d) f (set_key_page 1 s)
               else loadKeyStatus row (kp_page d) (kp_page_size d) f s
          else action_ended i [Complain (plain_notice (opt_str_or (rs_message r) (js "Operation failed")))] s
      | Failure m _ => action_ended i [Complain (plain_notice (default (js "Operation failed") m))] s
      end
  end.

Inductive key_event : Type :=
| OpenKeys (row : Z) | CloseKeys | KeysAnswered (i : nat) (a : key_page_answer) | FilterKeys (f : option Z) | TurnPage (next : bool) | ReloadKeys
| AskKey (row : nat) (button : nat) | AskAll (a : key_action) | CancelKey | ConfirmKey | ActionAnswered (i : nat) (a : api_answer).

(** The buttons that are shown and not disabled. *)
Definition bulk_offered (a : key_action) (d : KeyPage) : bool :=
  match a with
  | EnableAll => (0 <? kp_manual d + kp_auto d)%Z | DisableAll => (0 <? kp_enabled d)%Z | DeleteDisabled => (0 <? kp_auto d)%Z
  | _ => false
  end.
Definition page_offered (next : bool) (s : KeyDialog) : bool :=
  (1 <? kp_total_pages (kd_data s))%Z && negb (kd_loading s)
  && if next then (kp_page (kd_data s) <? kp_total_pages (kd_data s))%Z else negb (kp_page (kd_data s) =? 1)%Z.
Definition for_row (f : Z -> KeyDialog -> KeyDialog) (s : KeyDialog) : KeyDialog := match kd_row s with Some r => f r s | None => s end.

Definition key_step (ev : key_event) (s : KeyDialog) : KeyDialog :=
  match ev with
  | OpenKeys row => open_keys row s
  | CloseKeys => close_keys s
  | KeysAnswered i a => keys_answered i a s
  | FilterKeys f => for_row (fun r s => loadKeyStatus r 1 (kp_page_size (kd_data s)) f (set_key_page 1 (set_key_filter f s))) s
  | TurnPage next =>
      if page_offered next s
      then for_row (fun r s => let page := (if next then kp_page (kd_data s) + 1 else kp_page (kd_data s) - 1)%Z in
                               loadKeyStatus r page (kp_page_size (kd_data s)) (kd_filter s) (set_key_page page s)) s
      else s
  | ReloadKeys => if kd_loading s then s else for_row (fun r s => loadKeyStatus r (kp_page (kd_data s)) (kp_page_size (kd_data s)) (kd_filter s) s) s
  | AskKey row button =>
      if kd_loading s then s
      else match kp_keys (kd_data s) !! row with
           | Some k => match key_buttons k !! button with Some a => set_key_confirm (Some a) s | None => s end
           | None => s
           end
  | AskAll a => if bulk_offered a (kd_data s) then set_key_confirm (Some a) s else s
  | CancelKey => set_key_confirm None s
  | ConfirmKey => performAction s
  | ActionAnswered i a => action_answered i a s
  end.

(** ** The tag of several channels *)

Record TagForm : Type := MkTagForm {
  tf_newTag : jstr; tf_models : list jstr; tf_custom : jstr; tf_mapping : jstr; tf_groups : list jstr
}.
(** The effect on the tag and its models: also when the models arrive. *)
Definition init_tag (tag : jstr) (models : option jstr) : TagForm :=
  MkTagForm tag (match models with Some m => if truthy m then filter_truthy (split_char 44 m) else [] | None => [] end) [] [] [].
Definition add_custom_models (f : TagForm) : TagForm * list notice_text :=
  if negb (truthy (trim (tf_custom f))) then (f, [])
  else let modelsToAdd := List.filter (fun m => negb (mem m (tf_models f))) (filter_truthy (List.map trim (split_char 44 (tf_custom f)))) in
       match modelsToAdd with
       | [] => (f, [plain_notice (js "No new models to add")])
       | _ => (MkTagForm (tf_newTag f) (tf_models f ++ modelsToAdd) [] (tf_mapping f) (tf_groups f),
               [MkNotice (js "Added {{count}} model(s)") (count_of (json_of_nat (length modelsToAdd)))])
       end.
Definition remove_tag_model (model : jstr) (f : TagForm) : TagForm :=
  MkTagForm (tf_newTag f) (List.filter (fun m => m !== model) (tf_models f)) (tf_custom f) (tf_mapping f) (tf_groups f).
Definition toggle_tag_group (group : jstr) (f : TagForm) : TagForm :=
  MkTagForm (tf_newTag f) (tf_models f) (tf_custom f) (tf_mapping f)
    (if mem group (tf_groups f) then List.filter (fun g => g !== group) (tf_groups f) else tf_groups f ++ [group]).
(** [validateForm] *)
Definition mapping_valid (mapping : jstr) : bool :=
  negb (truthy (trim mapping)) || match JSON_parse mapping with Ret _ => true | Throw => false end.
Definition field_if (b : bool) (k v : jstr) : list (jstr * json) := if b then [(k, JStr v)] else [].

(** [handleSubmit] of the edit dialog: what is sent, or the notice. *)
Definition submit_tag (tag : jstr) (f : TagForm) : (list (jstr * json)) + notice_text :=
  if negb (truthy tag) then inr (plain_notice [])
  else if negb (mapping_valid (tf_mapping f)) then inr (plain_notice (js "Model mapping must be valid JSON"))
  else
    let hasChanges := (tf_newTag f !== tag) || truthy (trim (tf_mapping f)) || Nat.ltb 0 (length (tf_models f)) || Nat.ltb 0 (length (tf_groups f)) in
    if negb hasChanges then inr (plain_notice (js "No changes to save"))
    else inl ([(js "tag", JStr tag)]
              ++ field_if (truthy (tf_newTag f) && (tf_newTag f !== tag)) (js "new_tag") (tf_newTag f)
              ++ field_if (truthy (trim (tf_mapping f))) (js "model_mapping") (tf_mapping f)
              ++ field_if (Nat.ltb 0 (length (tf_models f))) (js "models") (join (js ",") (tf_models f))
              ++ field_if (Nat.ltb 0 (length (tf_groups f))) (js "groups") (join (js ",") (tf_groups f))).

(** [handleSave] of the batch dialog: a property whose value is undefined counts as a change and is not sent. *)
Definition save_tag_batch (tag newTag models mapping : jstr) (groups : list jstr) : (list (jstr * json)) + notice_text :=
  if negb (truthy tag) then inr (plain_notice [])
  else if negb (mapping_valid mapping) then inr (plain_notice (js "Model mapping must be valid JSON"))
  else
    let fields := field_if (truthy (trim models)) (js "models") models ++ field_if (truthy (trim mapping)) (js "model_mapping") mapping
                  ++ field_if (Nat.ltb 0 (length groups)) (js "groups") (join (js ",") groups) in
    if (newTag === tag) && Nat.eqb (length fields) 0 then inr (plain_notice (js "No changes made"))
    else inl ([(js "tag", JStr tag)] ++ field_if ((newTag !== tag) && truthy newTag) (js "new_tag") newTag ++ fields).

(** ** The models of the upstream *)

Definition normalizeModelNameList (models : list jstr) : list jstr := dedup (filter_truthy (List.map normalizeModelName models)).
Definition classificationSet (currentModels redirectModels : list jstr) : list jstr :=
  dedup (normalizeModelNameList currentModels ++ normalizeModelNameList redirectModels).
Definition redirectOnlySet (currentModels redirectModels : list jstr) : list jstr :=
  List.filter (fun m => negb (mem m (normalizeModelNameList currentModels))) (normalizeModelNameList redirectModels).

(** [categorizeModels] *)
Definition model_category (model : jstr) : jstr :=
  let has s := includes s (lower model) in
  if has (js "gpt") || has (js "o1") || has (js "o3") then js "OpenAI"
  else if has (js "claude") then js "Anthropic" else if has (js "gemini") then js "Gemini" else if has (js "qwen") then js "Qwen"
  else if has (js "deepseek") then js "DeepSeek" else if has (js "glm") then js "Zhipu" else if has (js "llama") then js "Meta"
  else if has (js "mistral") then js "Mistral" else js "Other".
Definition add_to_category (categories : list (jstr * list jstr)) (model : jstr) : list (jstr * list jstr) :=
  let c := model_category model in obj_set c (default [] (obj_get c categories) ++ [model]) categories.
Definition categorizeModels (models : list jstr) : list (jstr * list jstr) := foldl add_to_category [] models.
(** The order of two names of categories is the browser's; the others come before [Other]. *)
Definition getSortedCategoryEntries (locale_leb : jstr -> jstr -> bool) (categories : list (jstr * list jstr)) : list (jstr * list jstr) :=
  sort_by (fun a b => if a.1 === js "Other" then b.1 === js "Other" else if b.1 === js "Other" then true else locale_leb a.1 b.1) categories.

Definition filteredModels (keyword : jstr) (fetched : list jstr) : list jstr :=
  if truthy keyword then List.filter (fun m => includes (lower keyword) (lower m)) fetched else fetched.
Definition newModels (classes : list jstr) (keyword : jstr) (fetched : list jstr) : list jstr :=
  List.filter (fun m => negb (mem (normalizeModelName m) classes)) (filteredModels keyword fetched).
Definition existingFilteredModels (classes : list jstr) (keyword : jstr) (fetched : list jstr) : list jstr :=
  List.filter (fun m => mem (normalizeModelName m) classes) (filteredModels keyword fetched).
Definition removedModels (sources : list jstr) (keyword : jstr) (fetched selected : list jstr) : list jstr :=
  let kw := trim (lower keyword) in
  List.filter (fun m => negb (mem m (normalizeModelNameList fetched)) && negb (mem m (normalizeModelNameList sources))
                        && (negb (truthy kw) || includes kw (lower m))) (normalizeModelNameList selected).

Definition toggleModel (model : jstr) (selected : list jstr) : list jstr :=
  if mem model selected then List.filter (fun m => m !== model) selected else selected ++ [model].
Definition add_missing (selected : list jstr) (model : jstr) : list jstr := if mem model selected then selected else selected ++ [model].
Definition toggleCategory (categoryModels : list jstr) (isChecked : bool) (selected : list jstr) : list jstr :=
  if isChecked then foldl add_missing selected categoryModels else List.filter (fun m => negb (mem m categoryModels)) selected.
Definition isCategorySelected (categoryModels selected : list jstr) : bool := forallb (fun m => mem m selected) categoryModels.

(** *** The dialog *)

Record Channel_ : Type := MkChannel_ { ch_id : Z; ch_models : jstr }.
Record FetchDialog : Type := MkFetchDialog {
  fd_open : bool; fd_row : option Channel_; fd_fetching : bool; fd_saving : bool; fd_fetched : list jstr; fd_selected : list jstr;
  fd_keyword : jstr; fd_fetches : list Channel_; fd_saves : list Z; fd_filled : list (list jstr); fd_sent : list channel_request; fd_shown : list action_effect
}.
Definition new_fetch_dialog : FetchDialog := MkFetchDialog false None false false [] [] [] [] [] [] [] [].

Definition ask_models (row : Channel_) (s : FetchDialog) : FetchDialog :=
  MkFetchDialog (fd_open s) (fd_row s) true (fd_saving s) (fd_fetched s) (fd_selected s) (fd_keyword s)
    (fd_fetches s ++ [row]) (fd_saves s) (fd_filled s) (fd_sent s) (fd_shown s).
Definition open_fetch (row : Channel_) (s : FetchDialog) : FetchDialog :=
  ask_models row (MkFetchDialog true (Some row) (fd_fetching s) (fd_saving s) (fd_fetched s) (fd_selected s) (fd_keyword s)
    (fd_fetches s) (fd_saves s) (fd_filled s) (fd_sent s) (fd_shown s)).
Definition set_fetch_lists (fetched selected : list jstr) (s : FetchDialog) : FetchDialog :=
  MkFetchDialog (fd_open s) (fd_row s) (fd_fetching s) (fd_saving s) fetched selected (fd_keyword s)
    (fd_fetches s) (fd_saves s) (fd_filled s) (fd_sent s) (fd_shown s).
Definition set_fetch_keyword (k : jstr) (s : FetchDialog) : FetchDialog :=
  MkFetchDialog (fd_open s) (fd_row s) (fd_fetching s) (fd_saving s) (fd_fetched s) (fd_selected s) k
    (fd_fetches s) (fd_saves s) (fd_filled s) (fd_sent s) (fd_shown s).
(** [handleClose]; saving only closes. *)
Definition hide_fetch (s : FetchDialog) : FetchDialog :=
  MkFetchDialog false (fd_row s) (fd_fetching s) (fd_saving s) (fd_fetched s) (fd_selected s) (fd_keyword s)
    (fd_fetches s) (fd_saves s) (fd_filled s) (fd_sent s) (fd_shown s).
Definition close_fetch (s : FetchDialog) : FetchDialog := hide_fetch (set_fetch_keyword [] (set_fetch_lists [] [] s)).

(** The answer to a fetch: a list of models, or the message of a refusal or of an error. *)
Inductive models_answer : Type := ModelsRead (l : list jstr) | ModelsRefused (m : option jstr) | ModelsFailed (m : option jstr).
Definition fetch_answered (i : nat) (a : models_answer) (s : FetchDialog) : FetchDialog :=
  match fd_fetches s !! i with
  | None => s
  | Some row =>
      let s := match a with
               | ModelsRead l => set_fetch_lists l (parseModelsString (ch_models row)) s
               | _ => set_fetch_lists [] (fd_selected s) s
               end in
      MkFetchDialog (fd_open s) (fd_row s) false (fd_saving s) (fd_fetched s) (fd_selected s) (fd_keyword s)
        (delete i (fd_fetches s)) (fd_saves s) (fd_filled s) (fd_sent s)
        (fd_shown s ++ [match a with
                        | ModelsRead l => Succeed (MkNotice (js "Fetched {{count}} models") (count_of (json_of_nat (length l))))
                        | ModelsRefused m => Complain (plain_notice (opt_str_or m (js "Failed to fetch models")))
                        | ModelsFailed m => Complain (plain_notice (default (js "Failed to fetch models") m))
                        end])
  end.

(** The save button is there when there is something to choose from. *)
Definition save_offered (sources : list jstr) (s : FetchDialog) : bool :=
  fd_open s && negb (fd_fetching s) && negb (fd_saving s)
  && negb (Nat.eqb (length (fd_fetched s)) 0 && Nat.eqb (length (removedModels sources (fd_keyword s) (fd_fetched s) (fd_selected s))) 0).
Definition save_fetched (fills_form : bool) (sources : list jstr) (s : FetchDialog) : FetchDialog :=
  match fd_row s with
  | Some row =>
      if save_offered sources s
      then if fills_form
           then hide_fetch (MkFetchDialog (fd_open s) (fd_row s) (fd_fetching s) (fd_saving s) (fd_fetched s) (fd_selected s) (fd_keyword s)
                  (fd_fetches s) (fd_saves s) (fd_filled s ++ [fd_selected s]) (fd_sent s) (fd_shown s ++ [Succeed (plain_notice (js "Models filled to form"))]))
           else MkFetchDialog (fd_open s) (fd_row s) (fd_fetching s) true (fd_fetched s) (fd_selected s) (fd_keyword s)
                  (fd_fetches s) (fd_saves s ++ [ch_id row]) (fd_filled s)
                  (fd_sent s ++ [UpdateChannel (ch_id row) [(js "models", JStr (join (js ",") (fd_selected s)))]]) (fd_shown s)
      else s
  | None => s
  end.
Definition fetched_saved (i : nat) (a : api_answer) (s : FetchDialog) : FetchDialog :=
  match fd_saves s !! i with
  | None => s
  | Some _ =>
      let ok := match a with Answer r => rs_success r | Failure _ _ => false end in
      MkFetchDialog (if ok then false else fd_open s) (fd_row s) (fd_fetching s) false (fd_fetched s) (fd_selected s) (fd_keyword s)
        (fd_fetches s) (delete i (fd_saves s)) (fd_filled s) (fd_sent s)
        (fd_shown s ++ match a with
                       | Answer r => if rs_success r then [Succeed (plain_notice (js "Models updated successfully")); RefreshLists]
                                     else [Complain (plain_notice (opt_str_or (rs_message r) (js "Failed to update models")))]
                       | Failure m _ => [Complain (plain_notice (default (js "Failed to update models") m))]
                       end)
  end.

Inductive fetch_models_event : Type :=
| OpenFetch (row : Channel_) | CloseFetch | FetchAgain | FetchAnswered (i : nat) (a : models_answer) | SearchFetched (k : jstr)
| ToggleModel (m : jstr) | ToggleCategory (ms : list jstr) (b : bool) | SaveFetched | FetchedSaved (i : nat) (a : api_answer).
Definition fetch_models_step (fills_form : bool) (sources : list jstr) (ev : fetch_models_event) (s : FetchDialog) : FetchDialog :=
  match ev with
  | OpenFetch row => open_fetch row s
  | CloseFetch => close_fetch s
  | FetchAgain => match fd_row s with Some row => if fd_fetching s then s else ask_models row s | None => s end
  | FetchAnswered i a => fetch_answered i a s
  | SearchFetched k => set_fetch_keyword k s
  | ToggleModel m => set_fetch_lists (fd_fetched s) (toggleModel m (fd_selected s)) s
  | ToggleCategory ms b => set_fetch_lists (fd_fetched s) (toggleCategory ms b (fd_selected s)) s
  | SaveFetched => save_fetched fills_form sources s
  | FetchedSaved i a => fetched_saved i a s
  end.

(** ** What the actions report *)

(** The one request of an action that makes one. *)
Definition asked_of (c : channel_command) : option channel_request :=
  match c with
  | CEnable id => Some (UpdateChannel id [(js "status", JNum (num_of_Z 1))])
  | CDisable id => Some (UpdateChannel id [(js "status", JNum (num_of_Z 2))])
  | CToggle id s => Some (UpdateChannel id [(js "status", JNum (num_of_Z (if neqb s (num_of_Z 1) then 2 else 1)))])
  | CDelete id => Some (DeleteChannel id)
  | CField id name value => Some (UpdateChannel id [(name, JNum value)])
  | CTagField tag name value => Some (EditTagChannels (obj_set name (JNum value) [(js "tag", JStr tag)]))
  | CCopy id params => Some (CopyChannel id params)
  | CBalance id => Some (UpdateBalance id)
  | CBatchDelete ids => match ids with [] => None | _ => Some (BatchDeleteChannels ids) end
  | CBatchTag ids tag => match ids with [] => None | _ => Some (BatchSetChannelTag ids tag) end
  | CEnableTag tag => Some (EnableTagChannels tag) | CDisableTag tag => Some (DisableTagChannels tag)
  | CDeleteDisabled => Some DeleteDisabledChannels | CFix => Some FixChannelAbilities
  | CTestAll => Some TestAllChannels | CBalances => Some UpdateAllChannelsBalance
  | CTest _ _ | CBatchEnable _ | CBatchDisable _ => None
  end.

(** An answer that says yes and, for three of the actions, has the value the action is about. *)
Definition worked (c : channel_command) (r : api_response) : bool :=
  rs_success r &&
  match c with
  | CCopy _ _ => match prop_of (js "id") (rs_data r) with Some v => json_truthy v | None => false end
  | CBalance _ => bool_decide (rs_balance r <> None)
  | CFix => match rs_data r with Some v => json_truthy v | None => false end
  | _ => true
  end.

(** What the caller is told of a success. *)
Definition told (c : channel_command) (r : api_response) : list (option json) :=
  match c with
  | CCopy _ _ => [prop_of (js "id") (rs_data r)]
  | CBalance _ => [JNum <$> rs_balance r]
  | CBatchDelete ids => [Some (json_or (rs_data r) (JNum (num_of_Z (Z.of_nat (length ids)))))]
  | CDeleteDisabled => [Some (json_or (rs_data r) (JNum zero))]
  | CFix => [rs_data r]
  | _ => []
  end.

(** The actions that say something when the server refuses. *)
Definition tells_refusal (c : channel_command) : bool :=
  match c with CField _ _ _ | CTagField _ _ _ | CBalance _ | CTestAll | CBalances => true | _ => false end.

Definition reports (c : channel_command) (a : api_answer) (l : list action_effect) : Prop :=
  match a with
  | Answer r => if worked c r then exists t, l = [Succeed t; RefreshLists; Callback (told c r)]
                else if tells_refusal c then exists t, l = [Complain t] else l = []
  | Failure _ _ => exists t, l = [Complain t]
  end.

(** The selected channels are updated one by one: the ones that were answered are counted in one
    success, the ones that failed in one complaint. *)
Definition reports_each (answers : list api_answer) (l : list action_effect) : Prop :=
  let failed := length (List.filter (fun a => match a with Failure _ _ => true | Answer _ => false end) answers) in
  let answered := length answers - failed in
  exists t t', nt_values t = [(js "count", JNum (num_of_Z (Z.of_nat answered)))] /\ nt_values t' = [(js "count", JNum (num_of_Z (Z.of_nat failed)))] /\
    l = (match answered with O => [] | _ => [Succeed t; RefreshLists; Callback []] end) ++ (match failed with O => [] | _ => [Complain t'] end).

Lemma filter_complement {A} (f g : A -> bool) l : (forall x, g x = negb (f x)) -> length (List.filter f l) = length l - length (List.filter g l).
Proof.
  intros H. pose proof (filter_length f l) as Hl. rewrite <-Hl. rewrite (List.filter_ext _ _ H). lia.
Qed.

Lemma batch_reports status done_text failed_text ids server : ids <> [] ->
  reports_each (List.map (fun id => server (UpdateChannel id [(js "status", JNum status)])) ids)
    (perform server (batch_update status done_text failed_text ids)).
Proof.
  intros Hne. unfold batch_update. destruct ids as [|id ids]; [done|]. unfold perform. cbn [ac_done ac_requests]. rewrite List.map_map.
  set (answers := List.map _ (id :: ids)). unfold reports_each.
  rewrite <-(filter_complement fulfilled) by (by intros []).
  rewrite (List.filter_ext (fun a => negb (fulfilled a)) (fun a => match a with Failure _ _ => true | Answer _ => false end)) by (by intros []).
  eexists (MkNotice done_text _), (MkNotice failed_text _). split; [reflexivity|]. split; [reflexivity|].
  by destruct (length (List.filter fulfilled answers)), (length (List.filter _ answers)).
Qed.

Lemma single_reports intl_currency intl_decimal store server c q : asked_of c = Some q ->
  ac_requests (command_action intl_currency intl_decimal store c) = [q] /\
  reports c (server q) (perform server (command_action intl_currency intl_decimal store c)).
Proof.
  destruct c; try done; cbn [asked_of]; try (destruct ids; [done|]); intros [= <-]; unfold command_action, handleToggleChannelStatus, STATUS_ON;
    try destruct (neqb status _); (split; [done|]); cbn; destruct (server _) as [r|]; cbn; try (by eexists);
    unfold worked, told; destruct (rs_success r); cbn; try done; try (by eexists).
  - destruct (prop_of _ _) as [w|]; [|done]. by destruct (json_truthy w); [eexists|].
  - by destruct (rs_balance r); eexists.
  - destruct (rs_data r) as [w|]; [|done]. by destruct (json_truthy w); [eexists|].
Qed.

(** C24: what each action of the channel list asks and reports, for every server.  An action with
    one request makes that request; when the answer says yes (and has the copy's identifier, the
    balance or the result of the repair, where the action is about one) it shows one success,
    refreshes the list and calls back with the value, in this order and nothing else; when the
    request fails it shows one complaint and does nothing else; when the server refuses it
    shows one complaint for a changed field, the balances and the test of all channels, and does
    nothing at all for the other actions.  Enabling or disabling several channels asks for each;
    the answered ones, refused or not, are counted in one success with its refresh and callback,
    if there is one, and the failed ones in one complaint, if there is one.  With no channel
    selected nothing is asked and one complaint is shown.  A test asks once and calls back,
    without a refresh, whether it worked, after a success or a complaint. *)
Theorem actions_report intl_currency intl_decimal store server c :
  let action := command_action intl_currency intl_decimal store c in
  let shown := perform server action in
  match c with
  | CTest id options =>
      exists p, ac_requests action = [TestChannel id p] /\
      match server (TestChannel id p) with
      | Answer r => if rs_success r then exists t, shown = [Succeed t; Callback [Some (JBool true); prop_of (js "response_time") (rs_data r)]]
                    else exists t, shown = [Complain t; Callback [Some (JBool false); None; JStr <$> rs_message r; JStr <$> rs_error_code r]]
      | Failure _ _ => exists t, shown = [Complain t; Callback [Some (JBool false); None; Some (JStr (nt_key t))]]
      end
  | CBatchEnable ids | CBatchDisable ids =>
      let update id := UpdateChannel id [(js "status", JNum (num_of_Z (match c with CBatchEnable _ => 1 | _ => 2 end)))] in
      ac_requests action = List.map update ids /\
      match ids with [] => exists t, shown = [Complain t] | _ => reports_each (List.map (fun id => server (update id)) ids) shown end
  | _ => match asked_of c with
         | Some q => ac_requests action = [q] /\ reports c (server q) shown
         | None => ac_requests action = [] /\ exists t, shown = [Complain t]
         end
  end.
Proof.
  cbv zeta. destruct c; try (by apply single_reports).
  - eexists. split; [reflexivity|]. unfold perform. cbn [command_action handleTestChannel asking ac_done ac_requests List.map].
    destruct (server _) as [r|m sv]; [destruct (rs_success r); eexists; reflexivity|]. eexists (plain_notice _). reflexivity.
  - cbn [asked_of]. destruct ids; [split; [done|by eexists]|by apply (single_reports _ _ _ _ (CBatchDelete _))].
  - cbn [command_action]. destruct ids as [|id ids]; [split; [done|by eexists]|]. split; [done|]. by apply batch_reports.
  - cbn [command_action]. destruct ids as [|id ids]; [split; [done|by eexists]|]. split; [done|]. by apply batch_reports.
  - cbn [asked_of]. destruct ids; [split; [done|by eexists]|by apply (single_reports _ _ _ _ (CBatchTag _ _))].
Qed.

(** *** A refusal *)

(** Ten of the actions show nothing at all when the server refuses. *)
Definition refuses_silently (c : channel_command) : bool :=
  match c with
  | CEnable _ | CDisable _ | CToggle _ _ | CDelete _ | CCopy _ _ | CEnableTag _ | CDisableTag _ | CDeleteDisabled | CFix => true
  | CBatchDelete ids | CBatchTag ids _ => Nat.ltb 0 (length ids)
  | _ => false
  end.
Lemma refusal_unreported intl_currency intl_decimal store server c :
  (forall q, exists r, server q = Answer r /\ rs_success r = false) -> refuses_silently c = true ->
  perform server (command_action intl_currency intl_decimal store c) = [].
Proof.
  intros Hs Hc. destruct c; try discriminate Hc; cbn [command_action]; unfold handleToggleChannelStatus; try case_match;
    try (destruct ids; [discriminate Hc|]);
    unfold perform; cbn;
    match goal with |- on_success _ _ (server ?q) = [] => destruct (Hs q) as (r & -> & Hr) end; cbn; by rewrite Hr.
Qed.

(** And several channels count as enabled when the server refused every one. *)
Lemma refused_counted_enabled : perform (fun _ => Answer (MkResponse false (Some (js "no")) None None None)) (handleBatchEnable [7%Z; 8%Z])
  = succeeded (MkNotice (js "{{count}} channel(s) enabled") (count_of (json_of_nat 2))) [].
Proof. reflexivity. Qed.

(** ** The keys *)

Inductive key_reachable : KeyDialog -> Prop :=
| key_new : key_reachable new_key_dialog
| key_stepped ev s : key_reachable s -> key_reachable (key_step ev s).
Definition run_keys (evs : list key_event) : KeyDialog := foldl (fun s ev => key_step ev s) new_key_dialog evs.

Lemma run_keys_reachable evs : key_reachable (run_keys evs).
Proof.
  unfold run_keys. induction evs as [|ev evs IH] using rev_ind; [constructor|]. rewrite foldl_app. cbn [foldl]. by constructor.
Qed.

(** The action that is under way, if one is. *)
Definition one_action (s : KeyDialog) : Prop := length (kd_actions s) = if kd_performing s then 1 else 0.

Lemma answered_one i a s : one_action s -> one_action (action_answered i a s).
Proof.
  unfold one_action, action_answered. intros H. destruct (kd_actions s !! i) as [[[[row act] d] f]|] eqn:E; [|done].
  assert (length (delete i (kd_actions s)) = 0) as Hd.
  { pose proof (lookup_lt_Some _ _ _ E). rewrite length_delete by (by eexists). destruct (kd_performing s); lia. }
  destruct a as [r|m sv]; [destruct (rs_success r); [destruct (is_bulk act)|]|]; exact Hd.
Qed.

Lemma key_step_one ev s : one_action s -> one_action (key_step ev s).
Proof.
  intros H. destruct ev; cbn [key_step]; try exact H.
  - unfold keys_answered. by case_match.
  - unfold for_row. by case_match.
  - unfold for_row. by repeat case_match.
  - unfold for_row. by repeat case_match.
  - by repeat case_match.
  - by case_match.
  - unfold performAction. destruct (kd_confirm s), (kd_row s); try exact H. destruct (kd_performing s) eqn:E; [exact H|].
    unfold one_action in *. cbn. rewrite E in H. rewrite length_app. cbn. lia.
  - by apply answered_one.
Qed.

(** The key dialog has at most one request that changes keys under way: while it is busy confirming
    sends nothing, when it is not none is under way, and each such request is one that was confirmed. *)
Lemma one_key_action s : key_reachable s ->
  length (kd_actions s) = (if kd_performing s then 1 else 0) /\
  (kd_performing s = true -> kd_sent (key_step ConfirmKey s) = kd_sent s) /\
  forall ev, ev <> ConfirmKey -> kd_sent (key_step ev s) = kd_sent s.
Proof.
  intros Hr. split; [|split].
  - induction Hr; [done|]. by apply key_step_one.
  - cbn [key_step]. unfold performAction. intros ->. by destruct (kd_confirm s), (kd_row s).
  - intros ev Hev. destruct ev; cbn [key_step]; try done; unfold keys_answered, for_row, action_answered; repeat case_match; done.
Qed.

Definition key_page (n : Z) : KeyPage := MkKeyPage [MkKeyStatus n 1] 1 1 10 1 1 0 0.

Lemma one_key_action_witness :
  let s := run_keys [OpenKeys 7; KeysAnswered 0 (KeysRead (key_page 3)); AskKey 0 1; ConfirmKey] in
  key_reachable s /\ kd_performing s = true /\ kd_sent (key_step ConfirmKey s) = [(7%Z, KeyDelete 3)].
Proof.
  split; [apply run_keys_reachable|]. split; [vm_compute; reflexivity|].
  destruct (one_key_action (run_keys [OpenKeys 7; KeysAnswered 0 (KeysRead (key_page 3)); AskKey 0 1; ConfirmKey]) (run_keys_reachable _))
    as (_ & H & _). rewrite H; vm_compute; reflexivity.
Defined.

(** The keys of a channel that arrive late show in the dialog of the next one, and deleting the key that is
    shown deletes the one with its number of the other channel. *)
Lemma late_keys_deleted :
  kd_sent (run_keys [OpenKeys 1; CloseKeys; OpenKeys 2; KeysAnswered 1 (KeysRead (key_page 0)); KeysAnswered 0 (KeysRead (key_page 5)); AskKey 0 1; ConfirmKey])
  = [(2%Z, KeyDelete 5)].
Proof. vm_compute. reflexivity. Qed.

(** ** The models of the upstream *)

Lemma add_category_concat cs m : concat ((add_to_category cs m).*2) ≡ₚ concat (cs.*2) ++ [m].
Proof.
  unfold add_to_category. set (c := model_category m). unfold obj_set, obj_has. destruct (obj_get c cs) as [l|] eqn:E; cbn [default].
  - induction cs as [|[k w] cs IH]; [done|]. cbn [obj_get obj_replace] in *.
    destruct (c === k) eqn:Ek.
    + injection E as ->. cbn. rewrite <-!app_assoc. apply Permutation_app_head, Permutation_app_comm.
    + cbn. rewrite <-app_assoc. by apply Permutation_app_head, IH.
  - clear E. induction cs as [|[k w] cs IH]; [done|]. cbn [obj_add]. destruct (is_index c && _).
    + cbn. rewrite app_comm_cons. apply Permutation_cons_append.
    + cbn. rewrite <-app_assoc. by apply Permutation_app_head.
Qed.

Lemma concat_perm {A} (l l' : list (list A)) : l ≡ₚ l' -> concat l ≡ₚ concat l'.
Proof.
  induction 1 as [|x l l' _ IH|x y l|l1 l2 l3 _ IH1 _ IH2]; cbn; [done|by apply Permutation_app_head| |by etransitivity].
  rewrite !app_assoc. apply Permutation_app_tail, Permutation_app_comm.
Qed.

Lemma categorize_perm models : concat ((categorizeModels models).*2) ≡ₚ models.
Proof.
  unfold categorizeModels. induction models as [|m models IH] using rev_ind; [done|]. rewrite foldl_app. cbn [foldl].
  rewrite add_category_concat. by apply Permutation_app_tail.
Qed.

Lemma shown_perm locale_leb models : concat ((getSortedCategoryEntries locale_leb (categorizeModels models)).*2) ≡ₚ models.
Proof.
  rewrite <-(categorize_perm models) at 2. apply concat_perm. unfold getSortedCategoryEntries. apply fmap_Permutation, sort_by_perm.
Qed.

Lemma split_perm {A} (f : A -> bool) l : List.filter (fun x => negb (f x)) l ++ List.filter f l ≡ₚ l.
Proof.
  induction l as [|x l IH]; [done|]. cbn [List.filter]. destruct (f x); cbn [negb app]; [|by constructor].
  rewrite <-Permutation_middle. by constructor.
Qed.

(** The dialog of the upstream's models shows every model that was fetched and matches the search exactly as often as
    it was fetched: the categories of the new models and those of the existing ones together are
    these models, whatever the order of the categories. *)
Lemma fetched_models_shown locale_leb classes keyword fetched :
  concat ((getSortedCategoryEntries locale_leb (categorizeModels (newModels classes keyword fetched))).*2)
  ++ concat ((getSortedCategoryEntries locale_leb (categorizeModels (existingFilteredModels classes keyword fetched))).*2)
  ≡ₚ filteredModels keyword fetched.
Proof. rewrite !shown_perm. apply (split_perm (fun m => mem (normalizeModelName m) classes)). Qed.

Lemma add_missing_mem l : forall selected m, mem m (foldl add_missing selected l) = mem m selected || mem m l.
Proof.
  induction l as [|x l IH]; intros selected m; [by rewrite orb_false_r|]. cbn [foldl]. rewrite IH. unfold add_missing.
  apply eq_true_iff_eq. destruct (mem x selected) eqn:E; rewrite !orb_true_iff, !mem_true, elem_of_cons, ?elem_of_app, ?list_elem_of_singleton; [|tauto].
  apply mem_true in E. naive_solver.
Qed.

(** Checking a category selects its models and leaves the others as they are; unchecking it removes them. *)
Lemma category_toggled ms b selected m : mem m (toggleCategory ms b selected) = if mem m ms then b else mem m selected.
Proof.
  unfold toggleCategory. destruct b.
  - rewrite add_missing_mem. destruct (mem m ms); [apply orb_true_r|apply orb_false_r].
  - apply eq_true_iff_eq. rewrite mem_true, elem_of_lfilter, negb_true_iff. destruct (mem m ms) eqn:E; rewrite ?mem_true; naive_solver.
Qed.

Definition run_fetch (fills_form : bool) (evs : list fetch_models_event) : FetchDialog :=
  foldl (fun s ev => fetch_models_step fills_form [] ev s) new_fetch_dialog evs.

(** Saving does not forget the selection: when fetching the models of the next channel fails, the models of the last one are
    offered, and saving gives them to the next. *)
Lemma selection_given_to_next :
  fd_sent (run_fetch false [OpenFetch (MkChannel_ 1 (js "a,b")); FetchAnswered 0 (ModelsRead [js "a"; js "b"]); SaveFetched;
    FetchedSaved 0 (Answer (MkResponse true None None None None));
    OpenFetch (MkChannel_ 2 (js "c")); FetchAnswered 0 (ModelsFailed None); SaveFetched])
  = [UpdateChannel 1 [(js "models", JStr (js "a,b"))]; UpdateChannel 2 [(js "models", JStr (js "a,b"))]].
Proof. vm_compute. reflexivity. Qed.

(** So do the models of a channel that arrive after those of the next. *)
Lemma late_models_given_to_next :
  fd_sent (run_fetch false [OpenFetch (MkChannel_ 1 (js "a")); CloseFetch; OpenFetch (MkChannel_ 2 (js "c"));
    FetchAnswered 1 (ModelsRead [js "c"]); FetchAnswered 0 (ModelsRead [js "a"]); SaveFetched])
  = [UpdateChannel 2 [(js "models", JStr (js "a"))]].
Proof. vm_compute. reflexivity. Qed.

(** ** Tags *)

(** A tag that was cleared counts as a change, and a request without one is sent. *)
Lemma cleared_tag_unsent : submit_tag (js "vip") (MkTagForm [] [] [] [] []) = inl [(js "tag", JStr (js "vip"))] /\
  save_tag_batch (js "vip") [] [] [] [] = inl [(js "tag", JStr (js "vip"))].
Proof. split; reflexivity. Qed.

(** A tag that was opened and submitted without any change sends its models to all its channels. *)
Lemma untouched_tag_sent : submit_tag (js "vip") (init_tag (js "vip") (Some (js "a,b"))) =
  inl [(js "tag", JStr (js "vip")); (js "models", JStr (js "a,b"))].
Proof. vm_compute. reflexivity. Qed.
