(* ===== verification/ModelDrawer.v ===== *)
(** * The drawer of a model

    [features/models/components/drawers/model-mutate-drawer.tsx], with [lib/model-utils.ts] and
    [lib/model-form.ts]: the form of a model and of its prices.  The model is saved by one request;
    its prices are entries of seven of the settings that [RatioEditor] edits, rewritten after
    the request succeeded, one request per setting that changed.

    The settings are objects, as in [RatioEditor]: for another document the definitions give [None].
    The effect that fills the form is a function of what has arrived: the model's detail and the settings. *)
From S2P Require Import Prelude Numbers Json JsonRoundtrip JsonPretty Settings PricingSheet RatioEditor.
Local Open Scope js_scope.

(** ** Models *)

Record Model : Type := MkModel {
  m_id : Z; m_model_name : jstr; m_description : option jstr; m_icon : option jstr; m_tags : option jstr;
  m_vendor_id : option Z; m_endpoints : option jstr; m_status : Z; m_sync_official : Z; m_name_rule : Z;
  m_enable_groups : option (list jstr); m_quota_types : option (list Z)
}.

Definition parseModelTags (tags : option jstr) : list jstr :=
  match tags with
  | Some s => if truthy s then filter_truthy (List.map trim (split_char 44 s)) else []
  | None => []
  end.
Definition formatTagsString (tags : list jstr) : jstr := join (js ",") tags.
Definition formatTagsArray (tags : list jstr) : jstr := join (js ",") (filter_truthy tags).

Definition blank_endpoints (s : option jstr) : bool := match s with Some s => negb (truthy s) || (trim s === []) | None => true end.
Definition parseEndpoints (endpoints : option jstr) : option json :=
  if blank_endpoints endpoints then None else match JSON_parse (default [] endpoints) with Ret v => Some v | Throw => None end.
(** [parsed.map(String)] may throw for an element with a toString of its own. *)
Fixpoint all_strings (l : list json) : outcome (list jstr) :=
  match l with
  | [] => Ret []
  | v :: l => let! s := to_String v in let! ss := all_strings l in Ret (s :: ss)
  end.
Definition formatEndpointsDisplay (endpoints : option jstr) : outcome (list jstr) :=
  match parseEndpoints endpoints with
  | Some (JObj o) => Ret o.*1
  | Some (JArr l) => all_strings l
  | _ => Ret []
  end.
Definition validateModelName (name : jstr) : bool := Nat.ltb 0 (length (trim name)).
Definition validateModelJSON (value : jstr) : bool :=
  negb (truthy value) || (trim value === []) || match JSON_parse value with Ret _ => true | Throw => false end.
Definition validateEndpoints (endpoints : jstr) : bool := validateModelJSON endpoints.
Definition isModelEnabled (m : Model) : bool := (m_status m =? 1)%Z.
Definition isModelSyncOfficial (m : Model) : bool := (m_sync_official m =? 1)%Z.

(** *** The form of [model-form.ts] *)

Record ModelValues : Type := MkModelValues {
  fv_id : option Z; fv_model_name : jstr; fv_description : jstr; fv_icon : jstr; fv_tags : list jstr; fv_vendor_id : option Z;
  fv_endpoints : jstr; fv_name_rule : Z; fv_status : bool; fv_sync_official : bool; fv_enable_groups : list jstr; fv_quota_types : list Z
}.
Definition modelFormSchema (v : ModelValues) : bool :=
  truthy (fv_model_name v) && (0 <=? fv_name_rule v)%Z && (fv_name_rule v <=? 3)%Z.
Definition transformModelToFormDefaults (m : Model) : ModelValues :=
  MkModelValues (Some (m_id m)) (m_model_name m) (opt_str_or (m_description m) []) (opt_str_or (m_icon m) []) (parseModelTags (m_tags m))
    (m_vendor_id m) (opt_str_or (m_endpoints m) []) (m_name_rule m) (m_status m =? 1)%Z (m_sync_official m =? 1)%Z
    (default [] (m_enable_groups m)) (default [] (m_quota_types m)).
(** The payload is a partial model: the fields that may be missing are the identifier and the vendor. *)
Definition transformFormDataToModelPayload (v : ModelValues) : option Z * Model :=
  (fv_id v, MkModel (default 0%Z (fv_id v)) (fv_model_name v) (Some (fv_description v)) (Some (fv_icon v)) (Some (formatTagsArray (fv_tags v)))
    (fv_vendor_id v) (Some (fv_endpoints v)) (if fv_status v then 1 else 0)%Z (if fv_sync_official v then 1 else 0)%Z (fv_name_rule v)
    (Some (fv_enable_groups v)) (Some (fv_quota_types v))).

(** ** The drawer *)

(** The settings of the drawer, in the order of its updates. *)
Definition drawer_fields : list ratio_field := [FPrice; FRatio; FCache; FCompletion; FImage; FAudio; FAudioCompletion].
Definition drawer_field (f : ratio_field) : bool := match f with FCreateCache | FMode | FExpr => false | _ => true end.

Record ModelForm : Type := MkModelForm {
  mf_model_name : jstr; mf_description : jstr; mf_icon : jstr; mf_tags : list jstr; mf_vendor_id : option Z;
  mf_endpoints : jstr; mf_name_rule : Z; mf_status : bool; mf_sync_official : bool;
  mf_price : jstr; mf_ratio : jstr; mf_cacheRatio : jstr; mf_completionRatio : jstr; mf_imageRatio : jstr;
  mf_audioRatio : jstr; mf_audioCompletionRatio : jstr
}.
Definition form_text (v : ModelForm) (f : ratio_field) : jstr :=
  match f with
  | FPrice => mf_price v | FRatio => mf_ratio v | FCache => mf_cacheRatio v | FCompletion => mf_completionRatio v
  | FImage => mf_imageRatio v | FAudio => mf_audioRatio v | FAudioCompletion => mf_audioCompletionRatio v
  | FCreateCache | FMode | FExpr => []
  end.
(** The same form with other prices. *)
Definition with_prices (g : ratio_field -> jstr) (v : ModelForm) : ModelForm :=
  MkModelForm (mf_model_name v) (mf_description v) (mf_icon v) (mf_tags v) (mf_vendor_id v) (mf_endpoints v) (mf_name_rule v)
    (mf_status v) (mf_sync_official v) (g FPrice) (g FRatio) (g FCache) (g FCompletion) (g FImage) (g FAudio) (g FAudioCompletion).
Definition set_price_text (f : ratio_field) (s : jstr) (v : ModelForm) : ModelForm :=
  with_prices (fun g => if g === f then s else form_text v g) v.
Definition set_model_name (s : jstr) (v : ModelForm) : ModelForm :=
  MkModelForm s (mf_description v) (mf_icon v) (mf_tags v) (mf_vendor_id v) (mf_endpoints v) (mf_name_rule v)
    (mf_status v) (mf_sync_official v) (mf_price v) (mf_ratio v) (mf_cacheRatio v) (mf_completionRatio v) (mf_imageRatio v)
    (mf_audioRatio v) (mf_audioCompletionRatio v).
Definition set_endpoints (s : jstr) (v : ModelForm) : ModelForm :=
  MkModelForm (mf_model_name v) (mf_description v) (mf_icon v) (mf_tags v) (mf_vendor_id v) s (mf_name_rule v)
    (mf_status v) (mf_sync_official v) (mf_price v) (mf_ratio v) (mf_cacheRatio v) (mf_completionRatio v) (mf_imageRatio v)
    (mf_audioRatio v) (mf_audioCompletionRatio v).

Inductive DrawerMode : Type := PerToken | PerRequest.
Inductive DrawerSubMode : Type := AsRatio | AsPrice.

(** A row of the table, or the name of a model that is missing. *)
Record RowRef : Type := MkRowRef { rr_id : option Z; rr_name : jstr }.
Definition isEditing (row : option RowRef) : bool :=
  match row with Some r => match rr_id r with Some i => negb (i =? 0)%Z | None => false end | None => false end.

Record ModelDrawer : Type := MkDrawer {
  dr_open : bool; dr_row : option RowRef; dr_mode : DrawerMode; dr_sub : DrawerSubMode; dr_advanced : bool;
  dr_promptPrice : jstr; dr_completionPrice : jstr; dr_oldName : jstr; dr_form : ModelForm
}.
Definition new_model_form (name : jstr) : ModelForm := MkModelForm name [] [] [] None [] 0 true true [] [] [] [] [] [] [].
Definition new_model_drawer : ModelDrawer := MkDrawer false None PerToken AsRatio false [] [] [] (new_model_form []).

Definition set_drawer_form (v : ModelForm) (d : ModelDrawer) : ModelDrawer :=
  MkDrawer (dr_open d) (dr_row d) (dr_mode d) (dr_sub d) (dr_advanced d) (dr_promptPrice d) (dr_completionPrice d) (dr_oldName d) v.
Definition set_drawer_mode (m : DrawerMode) (d : ModelDrawer) : ModelDrawer :=
  MkDrawer (dr_open d) (dr_row d) m (dr_sub d) (dr_advanced d) (dr_promptPrice d) (dr_completionPrice d) (dr_oldName d) (dr_form d).
Definition set_drawer_prices (prompt completion : jstr) (d : ModelDrawer) : ModelDrawer :=
  MkDrawer (dr_open d) (dr_row d) (dr_mode d) (dr_sub d) (dr_advanced d) prompt completion (dr_oldName d) (dr_form d).
Definition set_drawer_sub (s : DrawerSubMode) (d : ModelDrawer) : ModelDrawer :=
  MkDrawer (dr_open d) (dr_row d) (dr_mode d) s (dr_advanced d) (dr_promptPrice d) (dr_completionPrice d) (dr_oldName d) (dr_form d).
Definition set_drawer_advanced (b : bool) (d : ModelDrawer) : ModelDrawer :=
  MkDrawer (dr_open d) (dr_row d) (dr_mode d) (dr_sub d) b (dr_promptPrice d) (dr_completionPrice d) (dr_oldName d) (dr_form d).
Definition set_drawer_old (s : jstr) (d : ModelDrawer) : ModelDrawer :=
  MkDrawer (dr_open d) (dr_row d) (dr_mode d) (dr_sub d) (dr_advanced d) (dr_promptPrice d) (dr_completionPrice d) s (dr_form d).
Definition set_drawer_open (b : bool) (row : option RowRef) (d : ModelDrawer) : ModelDrawer :=
  MkDrawer b row (dr_mode d) (dr_sub d) (dr_advanced d) (dr_promptPrice d) (dr_completionPrice d) (dr_oldName d) (dr_form d).

(** *** Typing *)

Definition validateNumber (value : jstr) : bool := (value === []) || negb (is_nan (parseFloat value)).

Definition handlePromptPrice (value : jstr) (d : ModelDrawer) : ModelDrawer :=
  let ratio := if truthy value && negb (is_nan (parseFloat value)) then num_to_str (ndiv (parseFloat value) two) else [] in
  set_drawer_form (set_price_text FRatio ratio (dr_form d)) (set_drawer_prices value (dr_completionPrice d) d).

Definition handleCompletionPrice (value : jstr) (d : ModelDrawer) : ModelDrawer :=
  let prompt := dr_promptPrice d in
  let ratio := if truthy value && negb (is_nan (parseFloat value)) && truthy prompt && negb (is_nan (parseFloat prompt))
                  && nltb zero (parseFloat prompt)
               then num_to_str (ndiv (parseFloat value) (parseFloat prompt)) else [] in
  set_drawer_form (set_price_text FCompletion ratio (dr_form d)) (set_drawer_prices prompt value d).

Definition ENDPOINT_TEMPLATES : list (jstr * jstr) :=
  [(js "openai", js "/v1/chat/completions"); (js "openai-response", js "/v1/responses"); (js "anthropic", js "/v1/messages");
   (js "gemini", js "/v1beta/models/{model}:generateContent"); (js "jina-rerank", js "/rerank");
   (js "image-generation", js "/v1/images/generations"); (js "embeddings", js "/v1/embeddings")].
Definition endpoint_template (key : jstr) : option json :=
  match obj_get key ENDPOINT_TEMPLATES with
  | Some path => Some (JObj [(key, JObj [(js "path", JStr path); (js "method", JStr (js "POST"))])])
  | None => None
  end.
Definition handleFillEndpointTemplate (key : jstr) (d : ModelDrawer) : ModelDrawer :=
  match endpoint_template key with Some v => set_drawer_form (set_endpoints (JSON_pretty v) (dr_form d)) d | None => d end.

(** The fields of a price or a ratio take a text that begins like a number. *)
Definition type_ratio (value : jstr) (d : ModelDrawer) : ModelDrawer :=
  if validateNumber value
  then set_drawer_form (set_price_text FRatio value (dr_form d))
         (set_drawer_prices (if truthy value then num_to_str (nmul (parseFloat value) two) else []) (dr_completionPrice d) d)
  else d.
Definition type_completion (value : jstr) (d : ModelDrawer) : ModelDrawer :=
  if validateNumber value
  then let ratio := form_text (dr_form d) FRatio in
       set_drawer_form (set_price_text FCompletion value (dr_form d))
         (set_drawer_prices (dr_promptPrice d)
            (if truthy value && truthy ratio then num_to_str (nmul (nmul (parseFloat ratio) two) (parseFloat value)) else []) d)
  else d.
Definition type_number (f : ratio_field) (value : jstr) (d : ModelDrawer) : ModelDrawer :=
  if validateNumber value then set_drawer_form (set_price_text f value (dr_form d)) d else d.

(** The fields of the form that are shown: a price of its own for a request; for tokens the two ratios or the two prices, and the others. *)
Inductive model_drawer_event : Type :=
| TypeName (s : jstr) | FillEndpoint (key : jstr) | ChooseMode (m : DrawerMode) | ChooseSub (s : DrawerSubMode) | TypeField (f : ratio_field) (s : jstr)
| TypePrompt (s : jstr) | TypeCompletionPrice (s : jstr).
Definition drawer_type (ev : model_drawer_event) (d : ModelDrawer) : ModelDrawer :=
  match ev with
  | TypeName s => set_drawer_form (set_model_name s (dr_form d)) d
  | FillEndpoint key => handleFillEndpointTemplate key d
  | ChooseMode m => set_drawer_mode m d
  | ChooseSub s => set_drawer_sub s d
  | TypeField f s =>
      match dr_mode d, f, dr_sub d with
      | PerRequest, FPrice, _ => type_number FPrice s d
      | PerToken, FRatio, AsRatio => type_ratio s d
      | PerToken, FCompletion, AsRatio => type_completion s d
      | PerToken, (FCache | FImage | FAudio | FAudioCompletion), _ => type_number f s d
      | _, _, _ => d
      end
  | TypePrompt s => match dr_mode d, dr_sub d with PerToken, AsPrice => handlePromptPrice s d | _, _ => d end
  | TypeCompletionPrice s => match dr_mode d, dr_sub d with PerToken, AsPrice => handleCompletionPrice s d | _, _ => d end
  end.

(** *** Opening *)

(** The seven objects; the other three are not looked at. *)
Definition read_drawer (texts : Ten jstr) : option (Ten object) :=
  if forallb (fun f => match read_map (at_field texts f) with Some _ => true | None => false end) drawer_fields
  then Some (build (fun f => if drawer_field f then default [] (read_map (at_field texts f)) else []))
  else None.

Definition base_form (m : Model) : ModelForm :=
  MkModelForm (m_model_name m) (opt_str_or (m_description m) []) (opt_str_or (m_icon m) []) (parseModelTags (m_tags m)) (m_vendor_id m)
    (opt_str_or (m_endpoints m) []) (m_name_rule m) (m_status m =? 1)%Z (m_sync_official m =? 1)%Z [] [] [] [] [] [] [].

Definition present_entry (v : option json) : option json := match v with Some JNull | None => None | Some w => Some w end.
Definition truthy_entry (v : option json) : bool := match v with Some w => json_truthy w | None => false end.

(** The prices that are shown for the ratios: kept from before for a model that has none. *)
Definition shown_prices (ratio completion : option json) (d : ModelDrawer) : outcome ModelDrawer :=
  match present_entry ratio with
  | None => Ret d
  | Some r =>
      let! x := to_Number (Some r) in
      let tokenPrice := nmul x two in
      match present_entry completion with
      | None => Ret (set_drawer_prices (num_to_str tokenPrice) (dr_completionPrice d) d)
      | Some c => let! y := to_Number (Some c) in
                  Ret (set_drawer_prices (num_to_str tokenPrice) (num_to_str (nmul tokenPrice y)) d)
      end
  end.

Definition load_model_prices (maps : Ten object) (m : Model) (d : ModelDrawer) : outcome ModelDrawer :=
  let get f := obj_get (m_model_name m) (at_field maps f) in
  match present_entry (get FPrice) with
  | Some v => let! s := to_String v in
              Ret (set_drawer_form (with_prices (fun f => if f === FPrice then s else []) (base_form m)) (set_drawer_mode PerRequest d))
  | None =>
      let! d := shown_prices (get FRatio) (get FCompletion) (set_drawer_mode PerToken d) in
      let! ratio := value_text (get FRatio) in
      let! cache := value_text (get FCache) in
      let! completion := value_text (get FCompletion) in
      let! image := value_text (get FImage) in
      let! audio := value_text (get FAudio) in
      let! audioCompletion := value_text (get FAudioCompletion) in
      let form := with_prices (fun f => match f with FRatio => ratio | FCache => cache | FCompletion => completion | FImage => image
                                        | FAudio => audio | FAudioCompletion => audioCompletion | _ => [] end) (base_form m) in
      Ret (set_drawer_advanced (truthy_entry (get FCache) || truthy_entry (get FImage) || truthy_entry (get FAudio)
                                || truthy_entry (get FAudioCompletion)) (set_drawer_form form d))
  end.

(** The effect: [detail] is the model once it has arrived, [settings] the texts once they have. *)
Definition drawer_effect (detail : option Model) (settings : option (Ten jstr)) (d : ModelDrawer) : option (outcome ModelDrawer) :=
  if negb (dr_open d) then Some (Ret d)
  else if isEditing (dr_row d) then
    match detail with
    | None => Some (Ret d)
    | Some m =>
        let d := set_drawer_old (m_model_name m) d in
        match settings with
        | Some texts => (fun maps => load_model_prices maps m d) <$> read_drawer texts
        | None => Some (Ret (set_drawer_advanced false (set_drawer_form (base_form m) (set_drawer_mode PerToken d))))
        end
    end
  else Some (Ret (MkDrawer true (dr_row d) PerToken AsRatio false [] [] []
                    (new_model_form (match dr_row d with Some r => rr_name r | None => [] end)))).

(** *** Saving *)

Definition opt_id (k : jstr) (v : option Z) : list (jstr * json) := match v with Some i => [(k, JNum (num_of_Z i))] | None => [] end.
Definition flag_number (b : bool) : json := JNum (num_of_Z (if b then 1 else 0)).
Definition model_payload (d : ModelDrawer) : list (jstr * json) :=
  let v := dr_form d in
  (if isEditing (dr_row d) then opt_id (js "id") (dr_row d ≫= rr_id) else [])
  ++ [(js "model_name", JStr (mf_model_name v)); (js "description", JStr (mf_description v)); (js "icon", JStr (mf_icon v));
      (js "tags", JStr (join (js ",") (mf_tags v)))]
  ++ opt_id (js "vendor_id") (mf_vendor_id v)
  ++ [(js "endpoints", JStr (mf_endpoints v)); (js "name_rule", JNum (num_of_Z (mf_name_rule v)));
      (js "status", flag_number (mf_status v)); (js "sync_official", flag_number (mf_sync_official v))].

Definition hasRatioConfig (mode : DrawerMode) (v : ModelForm) : bool :=
  match mode with
  | PerRequest => truthy (mf_price v) && (mf_price v !== [])
  | PerToken => truthy (mf_ratio v) || truthy (mf_cacheRatio v) || truthy (mf_completionRatio v) || truthy (mf_imageRatio v)
                || truthy (mf_audioRatio v) || truthy (mf_audioCompletionRatio v)
  end.

(** Which settings get the text of the form in a mode. *)
Definition of_mode (mode : DrawerMode) (f : ratio_field) : bool :=
  match mode with PerRequest => f === FPrice | PerToken => drawer_field f && (f !== FPrice) end.

Definition rename (d : ModelDrawer) : bool :=
  isEditing (dr_row d) && truthy (dr_oldName d) && (dr_oldName d !== mf_model_name (dr_form d)).
Definition rewritten (d : ModelDrawer) (f : ratio_field) (map : object) : object :=
  let v := dr_form d in
  let name := mf_model_name v in
  let map := if rename d then obj_delete (dr_oldName d) map else map in
  let map := obj_delete name map in
  if hasRatioConfig (dr_mode d) v && of_mode (dr_mode d) f && truthy (form_text v f)
  then obj_set name (JNum (parseFloat (form_text v f))) map else map.

Definition price_updates (d : ModelDrawer) (texts : Ten jstr) (maps : Ten object) : list (jstr * option json) :=
  concat (List.map (fun f =>
    let next := normalizeJsonString (JSON_stringify (JObj (rewritten d f (at_field maps f)))) in
    if next !== normalizeJsonString (at_field texts f) then [(option_key f, Some (JStr next))] else []) drawer_fields).

Inductive drawer_notice : Type := ModelUpdated | ModelCreated | OptionNotice (n : form_notice) | DrawerError (message : jstr).
Definition operation_failed (message : option jstr) : drawer_notice := DrawerError (opt_str_or message (js "Operation failed")).

(** The message of the request that failed, which ends the loop. *)
Fixpoint failure_of (answer : jstr -> option json -> option_answer) (updates : list (jstr * option json)) : option jstr :=
  match updates with
  | [] => None
  | (k, v) :: updates => match answer k v with RequestFailed m => m | _ => failure_of answer updates end
  end.

(** [onSubmit], for a form with a name: [saved] answers the request for the model, [answer] those for the settings. *)
Definition submit_model (settings : option (Ten jstr)) (saved : option_answer) (answer : jstr -> option json -> option_answer)
    (d : ModelDrawer) : option (list (jstr * option json) * list drawer_notice * ModelDrawer) :=
  if negb (truthy (mf_model_name (dr_form d))) then Some ([], [], d)
  else match saved with
  | Refused m | RequestFailed m => Some ([], [operation_failed m], d)
  | Updated =>
      let told := if isEditing (dr_row d) then ModelUpdated else ModelCreated in
      let closed := set_drawer_open false (dr_row d) d in
      match settings with
      | None => Some ([], [told], closed)
      | Some texts =>
          (fun maps =>
             let updates := price_updates d texts maps in
             let '(sent, notices, finished) := send_updates answer updates in
             let notices := List.map OptionNotice notices in
             if finished then (sent, notices ++ [told], closed)
             else (sent, notices ++ [operation_failed (failure_of answer updates)], d)) <$> read_drawer texts
      end
  end.

(** The settings of a server that stored the updates it accepted. *)
Definition stored_setting (updates : list (jstr * option json)) (f : ratio_field) (text : jstr) : jstr :=
  match obj_get (option_key f) updates with Some (Some (JStr s)) => s | _ => text end.

(** ** Properties *)

Lemma option_key_inj f g : option_key f = option_key g -> f = g.
Proof. by destruct f, g. Qed.

Lemma get_updates {V} (c : ratio_field -> bool) (v : ratio_field -> V) l f :
  obj_get (option_key f) (concat (List.map (fun g => if c g then [(option_key g, v g)] else []) l)) =
  if mem f l && c f then Some (v f) else None.
Proof.
  induction l as [|g l IH]; [done|]. cbn [List.map concat]. destruct (decide (f = g)) as [->|Hne].
  - unfold mem. cbn [existsb]. rewrite js_eqb_refl. cbn [orb andb]. destruct (c g) eqn:E; cbn [app obj_get]; [by rewrite js_eqb_refl|].
    rewrite IH. by rewrite andb_false_r.
  - unfold mem in *. cbn [existsb]. rewrite (js_eqb_ne f g) by done. cbn [orb]. rewrite <-IH.
    destruct (c g); cbn [app obj_get]; [|done]. rewrite js_eqb_ne; [done|]. intros E. apply Hne. by apply option_key_inj.
Qed.

Lemma mem_drawer f : mem f drawer_fields = drawer_field f.
Proof. by destruct f. Qed.

Lemma read_drawer_at texts maps f : read_drawer texts = Some maps -> drawer_field f = true ->
  read_map (at_field texts f) = Some (at_field maps f).
Proof.
  unfold read_drawer. destruct (forallb _ _) eqn:E; [|done]. intros [= <-] Hf. rewrite at_build, Hf.
  rewrite forallb_forall in E. rewrite <-mem_drawer, mem_true in Hf. specialize (E f (proj1 (list_elem_of_In _ _) Hf)).
  by destruct (read_map _).
Qed.

Lemma stringify_inj v w : json_ok v -> json_ok w -> JSON_stringify v = JSON_stringify w -> v = w.
Proof. intros Hv Hw E. pose proof (parse_stringify v Hv) as H. rewrite E, parse_stringify in H by done. by injection H. Qed.

Lemma normalize_stringify v : json_ok v -> normalizeJsonString (JSON_stringify v) = JSON_stringify v /\ JSON_stringify v <> [].
Proof.
  intros Hv. assert (JSON_stringify v <> []) as Hn by (intros E; pose proof (parse_stringify v Hv) as H; by rewrite E in H).
  split; [|done]. unfold normalizeJsonString. rewrite (stringify_trimmed v : trim (JSON_stringify v) = _), (proj2 (truthy_true _) Hn). cbn [negb].
  by rewrite parse_stringify.
Qed.

(** A text that says the same as an object, once both are normalised, reads as the object. *)
Lemma same_normal text o o' : read_map text = Some o -> obj_ok o -> obj_ok o' ->
  JSON_stringify (JObj o') = normalizeJsonString text -> o = o'.
Proof.
  intros Hr Ho Ho' E. pose proof (parse_stringify _ (obj_ok_json o' Ho')) as Hp. rewrite E in Hp.
  unfold read_map, safeJsonParse, normalizeJsonString in *. cbn [blank_text from_option id default] in *.
  destruct (truthy (trim text)) eqn:Et; cbn [negb] in *; [|by cbv in Hp].
  destruct (JSON_parse (trim text)) as [v|] eqn:Ev; [|by rewrite Ev in Hp].
  assert (v = JObj o) as ->; [|pose proof (stringify_inj _ _ (obj_ok_json _ Ho') (obj_ok_json _ Ho) E) as [= ->]; done].
  assert (text <> []) as Hn by (intros ->; done). rewrite (proj2 (truthy_true text) Hn), js_eqb_ne in Hr by (by apply truthy_true).
  cbn [negb orb try_catch] in Hr. by destruct v; inversion Hr.
Qed.

Lemma stringify_reads_map o : obj_ok o -> read_map (JSON_stringify (JObj o)) = Some o.
Proof.
  intros Ho. destruct (normalize_stringify (JObj o) (obj_ok_json o Ho)) as [_ Hn].
  unfold read_map, safeJsonParse, id. cbn [blank_text from_option id].
  rewrite (stringify_trimmed (JObj o) : trim (JSON_stringify (JObj o)) = _), (proj2 (truthy_true _) Hn), js_eqb_ne by done.
  cbn [negb orb]. by rewrite parse_stringify by (by apply obj_ok_json).
Qed.

(** *** The entries *)

(** What saving leaves for the model in a setting: the number typed in its field, if the pricing mode has
    the field and something is typed. *)
Definition priced_entry (d : ModelDrawer) (f : ratio_field) : option json :=
  let typed s := if truthy s then Some (JNum (parseFloat s)) else None in
  match dr_mode d, f with
  | PerRequest, FPrice => typed (mf_price (dr_form d))
  | PerToken, FRatio => typed (mf_ratio (dr_form d))
  | PerToken, FCache => typed (mf_cacheRatio (dr_form d))
  | PerToken, FCompletion => typed (mf_completionRatio (dr_form d))
  | PerToken, FImage => typed (mf_imageRatio (dr_form d))
  | PerToken, FAudio => typed (mf_audioRatio (dr_form d))
  | PerToken, FAudioCompletion => typed (mf_audioCompletionRatio (dr_form d))
  | _, _ => None
  end.

Lemma drawer_entry_mode d f :
  priced_entry d f = if of_mode (dr_mode d) f && truthy (form_text (dr_form d) f) then Some (JNum (parseFloat (form_text (dr_form d) f))) else None.
Proof. unfold priced_entry. by destruct (dr_mode d), f. Qed.

Lemma entry_is_config mode v f : of_mode mode f = true -> truthy (form_text v f) = true -> hasRatioConfig mode v = true.
Proof.
  destruct mode; cbn [of_mode hasRatioConfig].
  - destruct f; cbn; intros Hm Hf; try done; rewrite Hf; by rewrite ?orb_true_r.
  - rewrite js_eqb_true. intros -> Hf. cbn in Hf. rewrite Hf. cbn [andb]. apply negb_true_iff, js_eqb_ne. by apply truthy_true.
Qed.

Lemma rewritten_get d f map j :
  obj_get j (rewritten d f map) =
  if j === mf_model_name (dr_form d) then priced_entry d f
  else if rename d && (j === dr_oldName d) then None else obj_get j map.
Proof.
  rewrite drawer_entry_mode. unfold rewritten.
  assert (hasRatioConfig (dr_mode d) (dr_form d) && of_mode (dr_mode d) f && truthy (form_text (dr_form d) f)
          = of_mode (dr_mode d) f && truthy (form_text (dr_form d) f)) as ->.
  { destruct (of_mode (dr_mode d) f) eqn:Em; [|by rewrite andb_false_r]. destruct (truthy (form_text (dr_form d) f)) eqn:Et; [|by rewrite !andb_false_r].
    by rewrite (entry_is_config _ _ _ Em Et). }
  destruct (of_mode (dr_mode d) f && _); rewrite ?set_get, delete_get; destruct (j === mf_model_name (dr_form d)); try done;
    destruct (rename d); cbn [andb]; by rewrite ?delete_get.
Qed.

Definition drawer_ok (d : ModelDrawer) : Prop :=
  truthy (mf_model_name (dr_form d)) = true /\ utf16 (mf_model_name (dr_form d)) /\
  forall f, of_mode (dr_mode d) f = true -> truthy (form_text (dr_form d) f) = true -> num_ok (parseFloat (form_text (dr_form d) f)).

Lemma rewritten_ok d f map : drawer_ok d -> obj_ok map -> obj_ok (rewritten d f map).
Proof.
  intros (_ & Hn & Hv) Hm. unfold rewritten.
  assert (obj_ok (obj_delete (mf_model_name (dr_form d)) (if rename d then obj_delete (dr_oldName d) map else map))) as Hd
    by (apply obj_ok_delete; destruct (rename d); [by apply obj_ok_delete|done]).
  destruct (hasRatioConfig _ _ && of_mode _ f) eqn:Em; cbn [andb]; [|done]. apply andb_prop in Em as [_ Em].
  destruct (truthy _) eqn:Et; [|done]. apply obj_ok_set_any; [done|by apply Hv|done].
Qed.

Definition all_accepted (key : jstr) (value : option json) : option_answer := Updated.

Lemma accepted_sent updates : exists notices, send_updates all_accepted updates = (updates, notices, true).
Proof. apply send_all. intros. by intros [=]. Qed.

Lemma drawer_stores d texts maps :
  read_drawer texts = Some maps -> (forall f, obj_ok (at_field maps f)) -> drawer_ok d ->
  exists sent notices,
    submit_model (Some texts) Updated all_accepted d = Some (sent, notices, set_drawer_open false (dr_row d) d) /\
    forall f,
      if drawer_field f then
        exists map, read_map (stored_setting sent f (at_field texts f)) = Some map /\
          forall j, obj_get j map = if j === mf_model_name (dr_form d) then priced_entry d f
                                    else if rename d && (j === dr_oldName d) then None else obj_get j (at_field maps f)
      else stored_setting sent f (at_field texts f) = at_field texts f.
Proof.
  intros Hr Hm Hd. destruct (accepted_sent (price_updates d texts maps)) as [ns Hs].
  exists (price_updates d texts maps). eexists. unfold submit_model. destruct Hd as (Ht & Hd). rewrite Ht. cbn [negb].
  rewrite Hr. cbn [fmap option_fmap option_map]. rewrite Hs. split; [done|]. intros f. unfold stored_setting, price_updates.
  rewrite (get_updates (fun f => normalizeJsonString (JSON_stringify (JObj (rewritten d f (at_field maps f)))) !== normalizeJsonString (at_field texts f))
             (fun f => Some (JStr (normalizeJsonString (JSON_stringify (JObj (rewritten d f (at_field maps f)))))))), mem_drawer.
  destruct (drawer_field f) eqn:Ef; cbn [andb]; [|done]. exists (rewritten d f (at_field maps f)).
  split; [|intros j; apply rewritten_get].
  assert (obj_ok (rewritten d f (at_field maps f))) as Hok by (by apply rewritten_ok; [split|]).
  destruct (normalize_stringify _ (obj_ok_json _ Hok)) as [-> _].
  destruct (JSON_stringify _ === _) eqn:E; cbn [negb]; [|by apply stringify_reads_map].
  rewrite js_eqb_true in E. rewrite (read_drawer_at _ _ _ Hr Ef). f_equal.
  exact (same_normal _ _ _ (read_drawer_at _ _ _ Hr Ef) (Hm f) Hok E).
Qed.

Lemma submitted_updates d texts maps sent notices d' : read_drawer texts = Some maps -> drawer_ok d ->
  submit_model (Some texts) Updated all_accepted d = Some (sent, notices, d') -> sent = price_updates d texts maps.
Proof.
  intros Hr (Ht & _). destruct (accepted_sent (price_updates d texts maps)) as [ns Hs]. unfold submit_model. rewrite Ht. cbn [negb].
  rewrite Hr. cbn [fmap option_fmap option_map]. rewrite Hs. congruence.
Qed.

(** An update that is sent carries other entries than the setting had. *)
Lemma updates_differ d texts maps k v : (forall f, obj_ok (at_field maps f)) -> drawer_ok d -> (k, v) ∈ price_updates d texts maps ->
  exists f s, drawer_field f = true /\ k = option_key f /\ v = Some (JStr s) /\
    (JSON_parse (trim (at_field texts f)) = Ret (JObj (at_field maps f)) -> JSON_parse s <> Ret (JObj (at_field maps f))).
Proof.
  intros Hm Hd (l & Hin & Hl)%list_elem_of_In%in_concat. apply in_map_iff in Hin as (f & <- & Hf). apply list_elem_of_In in Hl.
  apply list_elem_of_In, mem_true in Hf. rewrite mem_drawer in Hf.
  destruct (normalize_stringify _ (obj_ok_json _ (rewritten_ok d f _ Hd (Hm f)))) as [En _]. cbv zeta in Hl. rewrite En in Hl.
  destruct (JSON_stringify _ !== _) eqn:E; [|by apply not_elem_of_nil in Hl]. apply list_elem_of_singleton in Hl as [= -> ->].
  exists f, (JSON_stringify (JObj (rewritten d f (at_field maps f)))). do 3 (split; [done|]). intros Ht Hs. rewrite parse_stringify in Hs by (by apply obj_ok_json, rewritten_ok).
  injection Hs as Hs. apply negb_true_iff, js_eqb_false in E. apply E. rewrite Hs. unfold normalizeJsonString. rewrite Ht.
  destruct (trim (at_field texts f)); [by cbv in Ht|done].
Qed.

(** C26: saving a model whose name is not empty, for a server that accepts every request and settings whose seven texts
    are objects (a text that is blank or no JSON counts as the empty object): the drawer closes, and afterwards the model
    has in each of the seven settings the number typed in its field when the pricing mode has the field and it is filled,
    and no entry otherwise; the name an edited model had before has no entry left in the seven; all other models keep
    theirs, and the other three settings their texts.  Only the seven settings are sent, and none that held a JSON object
    and would be sent with the same entries in the same order.  The numbers typed are ones that read back as printed. *)
Theorem drawer_saves_exact d texts maps :
  read_drawer texts = Some maps -> (forall f, obj_ok (at_field maps f)) -> drawer_ok d ->
  exists sent notices,
    submit_model (Some texts) Updated all_accepted d = Some (sent, notices, set_drawer_open false (dr_row d) d) /\
    (forall f,
      if drawer_field f then
        exists map, read_map (stored_setting sent f (at_field texts f)) = Some map /\
          forall j, obj_get j map = if j === mf_model_name (dr_form d) then priced_entry d f
                                    else if isEditing (dr_row d) && truthy j && (j === dr_oldName d) then None else obj_get j (at_field maps f)
      else stored_setting sent f (at_field texts f) = at_field texts f) /\
    forall k v, (k, v) ∈ sent -> exists f s, drawer_field f = true /\ k = option_key f /\ v = Some (JStr s) /\
      (JSON_parse (trim (at_field texts f)) = Ret (JObj (at_field maps f)) -> JSON_parse s <> Ret (JObj (at_field maps f))).
Proof.
  intros Hr Hm Hd. destruct (drawer_stores d texts maps Hr Hm Hd) as (sent & notices & Hs & Hall). exists sent, notices.
  split; [done|]. split.
  - intros f. specialize (Hall f). destruct (drawer_field f); [|done]. destruct Hall as (map & Hread & Hget). exists map. split; [done|].
    intros j. rewrite Hget. destruct (j === mf_model_name (dr_form d)) eqn:Ej; [done|]. unfold rename.
    destruct (j === dr_oldName d) eqn:Eo; [|by rewrite !andb_false_r]. rewrite js_eqb_true in Eo. subst j. rewrite Ej. cbn [negb]. by rewrite !andb_true_r.
  - intros k v. rewrite (submitted_updates d texts maps sent notices _ Hr Hd Hs). by apply updates_differ.
Qed.

(** *** An example *)

Definition gpt : Model := MkModel 7 (js "gpt") None None (Some (js "a, b")) None None 1 1 0 None None.
Definition opened_drawer (m : Model) (texts : Ten jstr) (d : ModelDrawer) : ModelDrawer :=
  match drawer_effect (Some m) (Some texts) (set_drawer_open true (Some (MkRowRef (Some (m_id m)) (m_model_name m))) d) with
  | Some (Ret d) => d
  | _ => d
  end.
Definition gpt_renamed : ModelDrawer :=
  let d := opened_drawer gpt two_models new_model_drawer in set_drawer_form (set_price_text FCache (js "0.25") (set_model_name (js "gpt-2") (dr_form d))) d.

Lemma gpt_renamed_ok : drawer_ok gpt_renamed.
Proof.
  split; [reflexivity|]. split; [apply utf16b_spec; reflexivity|]. intros f Hm Ht.
  assert (form_text (dr_form gpt_renamed) f = match f with FRatio => js "1.5" | FCompletion => js "4" | FCache => js "0.25" | _ => [] end) as E
    by (destruct f; vm_compute; reflexivity).
  rewrite E in *. destruct f; try discriminate Ht; num_ok_eval.
Qed.

Lemma two_drawer : read_drawer two_models = Some two_maps.
Proof. vm_compute. reflexivity. Qed.

Lemma drawer_saves_exact_witness :
  exists sent notices,
    submit_model (Some two_models) Updated all_accepted gpt_renamed = Some (sent, notices, set_drawer_open false (dr_row gpt_renamed) gpt_renamed) /\
    exists map, read_map (stored_setting sent FRatio (at_field two_models FRatio)) = Some map /\
      obj_get (js "gpt-2") map = Some (JNum (Number (js "1.5"))) /\ obj_get (js "gpt") map = None.
Proof.
  destruct (drawer_saves_exact gpt_renamed two_models two_maps two_drawer two_maps_ok gpt_renamed_ok) as (sent & notices & Hs & Hf & _).
  exists sent, notices. split; [exact Hs|]. destruct (Hf FRatio) as (map & Hread & Hget). exists map. split; [exact Hread|].
  rewrite !Hget. split; vm_compute; reflexivity.
Defined.

(** *** A drawer that is opened and saved *)

(** A stored number whose text is read back. *)
Definition price_ok (v : option json) : Prop :=
  match v with
  | None => True
  | Some (JNum x) => num_ok x /\ parseFloat (num_to_str x) = x
  | Some _ => False
  end.
Definition prices_ok (maps : Ten object) (name : jstr) : Prop :=
  (forall f, price_ok (obj_get name (at_field maps f))) /\
  (obj_get name (at_field maps FPrice) = None \/ forall f, drawer_field f = true -> f <> FPrice -> obj_get name (at_field maps f) = None).

Lemma price_text_kept x : num_ok x -> parseFloat (num_to_str x) = x -> truthy (num_to_str x) = true.
Proof.
  intros [Hf _] Hp. apply truthy_true. intros E. rewrite E in Hp. assert (is_finite (parseFloat []) = false) as H by reflexivity. by rewrite Hp, Hf in H.
Qed.

Lemma value_text_ok v : price_ok v -> value_text v = Ret (match v with Some (JNum x) => num_to_str x | _ => [] end).
Proof. by destruct v as [[]|]. Qed.

Lemma shown_prices_ok r c d : price_ok r -> price_ok c -> exists p q, shown_prices r c d = Ret (set_drawer_prices p q d).
Proof.
  intros Hr Hc. destruct r as [[| |x| | |]|]; try done; cbn; [|exists (dr_promptPrice d), (dr_completionPrice d); by destruct d].
  destruct c as [[| |y| | |]|]; try done; cbn; by eexists _, _.
Qed.

(** What the form shows for the entries of a model. *)
Definition entry_text (v : option json) : jstr := match v with Some (JNum x) => num_to_str x | _ => [] end.

Lemma loaded_prices maps m d : prices_ok maps (m_model_name m) ->
  exists d', load_model_prices maps m d = Ret d' /\ dr_row d' = dr_row d /\ dr_oldName d' = dr_oldName d /\
    mf_model_name (dr_form d') = m_model_name m /\
    (dr_mode d' = match obj_get (m_model_name m) (at_field maps FPrice) with Some _ => PerRequest | None => PerToken end) /\
    forall f, drawer_field f = true -> form_text (dr_form d') f = entry_text (obj_get (m_model_name m) (at_field maps f)).
Proof.
  intros [Hp Hx]. unfold load_model_prices. pose proof (Hp FPrice) as H0.
  destruct (obj_get (m_model_name m) (at_field maps FPrice)) as [[| |x| | |]|] eqn:E0; try done; cbn [present_entry].
  - cbn [to_String obind]. eexists. split; [done|]. do 4 (split; [done|]). intros f Hf. destruct Hx as [Hx|Hx]; [done|].
    destruct (decide (f = FPrice)) as [->|Hne]; [by rewrite E0|]. rewrite (Hx f Hf Hne). by destruct f.
  - destruct (shown_prices_ok (obj_get (m_model_name m) (at_field maps FRatio)) (obj_get (m_model_name m) (at_field maps FCompletion))
                (set_drawer_mode PerToken d) (Hp FRatio) (Hp FCompletion)) as (p & q & ->).
    cbn [obind]. rewrite !value_text_ok by apply Hp. cbn [obind]. eexists. split; [done|]. do 4 (split; [done|]).
    intros f Hf. destruct f; try done; try reflexivity. by rewrite E0.
Qed.

Lemma untouched_entry maps m d : prices_ok maps (m_model_name m) ->
  (dr_mode d = match obj_get (m_model_name m) (at_field maps FPrice) with Some _ => PerRequest | None => PerToken end) ->
  (forall f, drawer_field f = true -> form_text (dr_form d) f = entry_text (obj_get (m_model_name m) (at_field maps f))) ->
  forall f, drawer_field f = true -> priced_entry d f = obj_get (m_model_name m) (at_field maps f).
Proof.
  intros [Hp Hx] Hmode Ht f Hf. rewrite drawer_entry_mode, (Ht f Hf), Hmode. specialize (Hp f).
  destruct (obj_get (m_model_name m) (at_field maps f)) as [[| |x| | |]|] eqn:E; try done; cbn [entry_text].
  - destruct Hp as [Hn Hb]. rewrite (price_text_kept x Hn Hb), Hb, andb_true_r.
    destruct (decide (f = FPrice)) as [->|Hne]; [by rewrite E|]. destruct Hx as [->|Hx]; [|by rewrite Hx in E].
    cbn [of_mode]. by rewrite Hf, js_eqb_ne.
  - by rewrite andb_false_r.
Qed.

(** C27: a model opened in the drawer and saved without a change keeps its prices: each of the seven settings has the entries
    it had, for every model, when the model's entries are numbers and it does not have both a fixed price and ratios. *)
Theorem untouched_drawer_keeps texts maps m d :
  read_drawer texts = Some maps -> (forall f, obj_ok (at_field maps f)) -> prices_ok maps (m_model_name m) ->
  truthy (m_model_name m) = true -> utf16 (m_model_name m) -> dr_open d = true -> isEditing (dr_row d) = true ->
  exists d' sent notices,
    drawer_effect (Some m) (Some texts) d = Some (Ret d') /\
    submit_model (Some texts) Updated all_accepted d' = Some (sent, notices, set_drawer_open false (dr_row d') d') /\
    forall f, drawer_field f = true -> exists map, read_map (stored_setting sent f (at_field texts f)) = Some map /\
      forall j, obj_get j map = obj_get j (at_field maps f).
Proof.
  intros Hr Hm Hp Hn Hu Ho He. destruct (loaded_prices maps m (set_drawer_old (m_model_name m) d) Hp) as (d' & Hl & Hrow & Hold & Hname & Hmode & Ht).
  assert (rename d' = false) as Hren by (unfold rename; rewrite Hold, Hname; cbn; by rewrite js_eqb_refl, andb_false_r).
  pose proof (untouched_entry maps m d' Hp Hmode Ht) as Hs.
  assert (drawer_ok d') as Hok.
  { split; [by rewrite Hname|]. split; [by rewrite Hname|]. intros f Hof Htf.
    assert (drawer_field f = true) as Hf by (destruct (dr_mode d'), f; by cbn in Hof).
    specialize (Hs f Hf). rewrite drawer_entry_mode in Hs. rewrite Hof, Htf in Hs. cbn [andb] in Hs.
    destruct Hp as [Hp _]. specialize (Hp f). rewrite <-Hs in Hp. apply Hp. }
  destruct (drawer_stores d' texts maps Hr Hm Hok) as (sent & notices & Hsub & Hall).
  exists d', sent, notices. split; [|split; [done|]].
  - unfold drawer_effect. rewrite Ho, He. cbn [negb]. rewrite Hr. cbn. by rewrite Hl.
  - intros f Hf. specialize (Hall f). rewrite Hf in Hall. destruct Hall as (map & Hread & Hget). exists map. split; [done|].
    intros j. rewrite Hget, Hname, Hren. cbn [andb]. destruct (j === m_model_name m) eqn:E; [|done].
    rewrite js_eqb_true in E. subst j. by apply Hs.
Qed.

Lemma gpt_prices : prices_ok two_maps (js "gpt").
Proof.
  split; [|by left]. intros f.
  assert (obj_get (js "gpt") (at_field two_maps f) = match f with FRatio => Some (JNum (Number (js "1.5"))) | FCompletion => Some (JNum (Number (js "4"))) | _ => None end) as ->
    by (destruct f; vm_compute; reflexivity).
  destruct f; try exact I; (split; [num_ok_eval|vm_compute; reflexivity]).
Qed.

Lemma untouched_drawer_keeps_witness :
  let d := set_drawer_open true (Some (MkRowRef (Some 7%Z) (js "gpt"))) new_model_drawer in
  exists d' sent notices,
    drawer_effect (Some gpt) (Some two_models) d = Some (Ret d') /\
    submit_model (Some two_models) Updated all_accepted d' = Some (sent, notices, set_drawer_open false (dr_row d') d') /\
    forall f, drawer_field f = true -> exists map, read_map (stored_setting sent f (at_field two_models f)) = Some map /\
      forall j, obj_get j map = obj_get j (at_field two_maps f).
Proof.
  apply (untouched_drawer_keeps two_models two_maps gpt); [apply two_drawer|apply two_maps_ok|apply gpt_prices|reflexivity| |reflexivity|reflexivity].
  apply utf16b_spec. reflexivity.
Defined.

(** *** The two tag texts *)

Lemma tags_kept l : Forall (fun t => trimmed t /\ t <> [] /\ 44%N ∉ t) l -> parseModelTags (Some (formatTagsString l)) = l.
Proof.
  intros H. unfold parseModelTags, formatTagsString. destruct (truthy (join (js ",") l)) eqn:E.
  - assert (l <> []) as Hl by (intros ->; done). change (js ",") with [44%N].
    rewrite split_join_char by (try done; by eapply Forall_impl; [exact H|intros t (_ & _ & ?)]). clear E Hl.
    induction H as [|t l (Ht & Hn & _) _ IH]; [done|]. cbn [List.map]. unfold filter_truthy in *. cbn [List.filter].
    rewrite (Ht : trim t = t), (proj2 (truthy_true t) Hn). by rewrite IH.
  - destruct H as [|t l (_ & Hn & _) _]; [done|]. apply truthy_false in E. destruct l; cbn in E; [done|]. by destruct t.
Qed.

(** *** Typing *)

(** Typing only stores texts that begin like a number, whatever is typed: what is saved is no NaN. *)
Definition typed_ok (d : ModelDrawer) : Prop := forall f, validateNumber (form_text (dr_form d) f) = true.

Lemma set_price_get f g s v : drawer_field g = true -> form_text (set_price_text f s v) g = if g === f then s else form_text v g.
Proof. by destruct g. Qed.

Lemma set_price_ok f s d d' : dr_form d' = set_price_text f s (dr_form d) -> validateNumber s = true -> typed_ok d -> typed_ok d'.
Proof.
  intros E Hs Hd g. rewrite E. destruct (drawer_field g) eqn:Eg; [|by destruct g]. rewrite set_price_get by done.
  destruct (g === f); [done|apply Hd].
Qed.

(** A ratio computed from a price is a number unless the price is not finite. *)
Definition computed_ok (ev : model_drawer_event) (d : ModelDrawer) : Prop :=
  match ev with
  | TypePrompt _ => validateNumber (form_text (dr_form (drawer_type ev d)) FRatio) = true
  | TypeCompletionPrice _ => validateNumber (form_text (dr_form (drawer_type ev d)) FCompletion) = true
  | _ => True
  end.

Lemma typed_step ev d : typed_ok d -> computed_ok ev d -> typed_ok (drawer_type ev d).
Proof.
  intros Hd Hc. destruct ev as [s|key|m|sub|f s|s|s]; cbn [drawer_type computed_ok] in *.
  - intros f. specialize (Hd f). by destruct f.
  - unfold handleFillEndpointTemplate. destruct (endpoint_template key); [|done]. intros f. specialize (Hd f). by destruct f.
  - exact Hd.
  - exact Hd.
  - destruct (dr_mode d), f, (dr_sub d); try exact Hd; unfold type_number, type_ratio, type_completion; destruct (validateNumber s) eqn:E;
      try exact Hd; by eapply set_price_ok.
  - destruct (dr_mode d), (dr_sub d); try exact Hd. by eapply set_price_ok.
  - destruct (dr_mode d), (dr_sub d); try exact Hd. by eapply set_price_ok.
Qed.

(** ** Oddities *)

(** A rename leaves the cache write ratio, and the billing mode and expression, with the old name. *)
Lemma rename_leaves_cache_write :
  let texts := build (fun f => match f with FCreateCache => js "{" ++ quote (js "gpt") ++ js ":5}" | f => at_field two_models f end) in
  let d := opened_drawer gpt texts new_model_drawer in
  let d := set_drawer_form (set_model_name (js "gpt-2") (dr_form d)) d in
  match submit_model (Some texts) Updated all_accepted d with
  | Some (sent, _, _) => read_map (stored_setting sent FRatio (modelRatio texts)) = Some [(js "gpt-2", JNum (Number (js "1.5")))] /\
                         read_map (stored_setting sent FCreateCache (createCacheRatio texts)) = Some [(js "gpt", JNum (num_of_Z 5))]
  | None => False
  end.
Proof. vm_compute. split; reflexivity. Qed.

(** The prices of the last model stay in the drawer of a model that has none: typing only its output price stores a ratio
    to the other model's input price. *)
Lemma stale_prompt_price :
  let bare := MkModel 8 (js "new") None None None None None 1 1 0 None None in
  let d := opened_drawer bare two_models (opened_drawer gpt two_models new_model_drawer) in
  dr_promptPrice d = js "3" /\ form_text (dr_form d) FRatio = [] /\
  priced_entry (handleCompletionPrice (js "9") d) FCompletion = Some (JNum (num_of_Z 3)).
Proof. vm_compute. repeat split; reflexivity. Qed.

(** A change of the input price keeps the output ratio: the output price that is shown is not the one that is stored. *)
Lemma completion_price_stale :
  let d := handlePromptPrice (js "6") (opened_drawer gpt two_models new_model_drawer) in
  dr_completionPrice d = js "12" /\ priced_entry d FRatio = Some (JNum (num_of_Z 3)) /\ priced_entry d FCompletion = Some (JNum (num_of_Z 4)).
Proof. vm_compute. repeat split; reflexivity. Qed.

(** A model that has both a fixed price and ratios loses the ratios when it is saved unchanged. *)
Lemma hidden_ratios_removed :
  let texts := build (fun f => match f with FPrice => js "{" ++ quote (js "gpt") ++ js ":1}" | f => at_field two_models f end) in
  match submit_model (Some texts) Updated all_accepted (opened_drawer gpt texts new_model_drawer) with
  | Some (sent, _, _) => read_map (stored_setting sent FRatio (modelRatio texts)) = Some []
  | None => False
  end.
Proof. vm_compute. reflexivity. Qed.

(** Prices that the server refuses are reported as a success, and a failure in between leaves a model that was saved without
    a ratio. *)
Lemma refused_prices_succeed :
  match submit_model (Some two_models) Updated (fun _ _ => Refused (Some (js "no"))) gpt_renamed with
  | Some (_, notices, d) => last notices = Some ModelUpdated /\ dr_open d = false
  | None => False
  end.
Proof. vm_compute. split; reflexivity. Qed.

(** An infinite ratio is accepted and stored as null. *)
Lemma infinite_ratio_null :
  let d := opened_drawer gpt two_models new_model_drawer in
  let d := set_drawer_form (set_price_text FRatio (js "Infinity") (dr_form d)) d in
  validateNumber (js "Infinity") = true /\
  match submit_model (Some two_models) Updated all_accepted d with
  | Some (sent, _, _) => read_map (stored_setting sent FRatio (modelRatio two_models)) = Some [(js "gpt", JNull)]
  | None => False
  end.
Proof. vm_compute. split; reflexivity. Qed.

(** The two texts of tags differ: one keeps empty tags. *)
Lemma empty_tag_formats : formatTagsString [[]; js "a"] = js ",a" /\ formatTagsArray [[]; js "a"] = js "a".
Proof. split; reflexivity. Qed.
