(* ===== verification/ModelsAdmin.v ===== *)
(** * Administration of models

    [features/models]: the actions of the model list ([lib/model-actions.ts], [lib/vendor-actions.ts]), the synchronisation with
    the upstream ([dialogs/sync-wizard-dialog.tsx]) and the dialog that resolves its conflicts
    ([dialogs/upstream-conflict-dialog.tsx]), the prefill groups, vendors, missing models and the import of presets.

    Requests are answered later; a dialog that waits for an answer keeps the request in its state.  The table library
    of the conflict dialog gets neither a filter nor pages, so all its rows are on its one page. *)
From S2P Require Import Prelude Numbers Json JsonRoundtrip JsonPretty Settings ChannelActions.
Local Open Scope js_scope.

(** ** Actions *)

Inductive model_request : Type := UpdateModelStatus (id : Z) (status : Z) | DeleteModel (id : Z) | DeleteVendor (id : Z).

(** A success; the message of a refusal or of an error, or the text for it. *)
Definition on_model_answer (k : list action_effect) (failed : jstr) (a : api_answer) : list action_effect :=
  match a with
  | Answer r => if rs_success r then k else [Complain (plain_notice (opt_str_or (rs_message r) failed))]
  | Failure m _ => [Complain (plain_notice (opt_str_or m failed))]
  end.

Definition handleEnableModel (id : Z) : model_request * (api_answer -> list action_effect) :=
  (UpdateModelStatus id 1, on_model_answer (succeeded (plain_notice (js "Model enabled successfully")) []) (js "Failed to enable model")).
Definition handleDisableModel (id : Z) : model_request * (api_answer -> list action_effect) :=
  (UpdateModelStatus id 0, on_model_answer (succeeded (plain_notice (js "Model disabled successfully")) []) (js "Failed to disable model")).
Definition handleToggleModelStatus (id currentStatus : Z) : model_request * (api_answer -> list action_effect) :=
  if (currentStatus =? 1)%Z then handleDisableModel id else handleEnableModel id.
Definition handleDeleteModel (id : Z) : model_request * (api_answer -> list action_effect) :=
  (DeleteModel id, on_model_answer (succeeded (plain_notice (js "Model deleted successfully")) []) (js "Failed to delete model")).
(** Two lists are refreshed. *)
Definition handleDeleteVendor (id : Z) : model_request * (api_answer -> list action_effect) :=
  (DeleteVendor id, on_model_answer [Succeed (plain_notice (js "Vendor deleted successfully")); RefreshLists; RefreshLists; Callback []]
                      (js "Failed to delete vendor")).

(** [Promise.all]: the answers in the order in which they arrive; the first error ends the wait. *)
Fixpoint first_failure (answers : list api_answer) : option (option jstr) :=
  match answers with
  | [] => None
  | Failure m _ :: _ => Some m
  | Answer _ :: answers => first_failure answers
  end.
Definition answer_accepted (a : api_answer) : bool := match a with Answer r => rs_success r | Failure _ _ => false end.
Definition batch_models (request : Z -> model_request) (done_text failed_text error_text : jstr) (counted : bool) (ids : list Z)
    : list model_request * (list api_answer -> list action_effect) :=
  match ids with
  | [] => ([], fun _ => [Complain (plain_notice (js "Please select at least one model"))])
  | _ => (List.map request ids, fun answers =>
      match first_failure answers with
      | Some m => [Complain (plain_notice (opt_str_or m error_text))]
      | None =>
          let successCount := length (List.filter answer_accepted answers) in
          let failedCount := length (List.filter (fun a => negb (answer_accepted a)) answers) in
          (if Nat.ltb 0 successCount
           then succeeded (MkNotice done_text (count_of (json_of_nat successCount))) (if counted then [Some (json_of_nat successCount)] else [])
           else [])
          ++ (if Nat.ltb 0 failedCount then [Complain (MkNotice failed_text (count_of (json_of_nat failedCount)))] else [])
      end)
  end.
Definition handleBatchDeleteModels : list Z -> list model_request * (list api_answer -> list action_effect) :=
  batch_models DeleteModel (js "Successfully deleted {{count}} model(s)") (js "Failed to delete {{count}} model(s)") (js "Batch delete failed") true.
Definition handleBatchEnableModels : list Z -> list model_request * (list api_answer -> list action_effect) :=
  batch_models (fun id => UpdateModelStatus id 1) (js "Successfully enabled {{count}} model(s)") (js "Failed to enable {{count}} model(s)")
    (js "Batch enable failed") false.
Definition handleBatchDisableModels : list Z -> list model_request * (list api_answer -> list action_effect) :=
  batch_models (fun id => UpdateModelStatus id 0) (js "Successfully disabled {{count}} model(s)") (js "Failed to disable {{count}} model(s)")
    (js "Batch disable failed") false.

(** ** Conflicts with the upstream *)

Record ConflictField : Type := MkConflictField { cf_field : jstr; cf_local : option json; cf_upstream : option json }.
Record Conflict : Type := MkConflict { cf_model_name : jstr; cf_fields : list ConflictField }.

Definition FIELD_LABELS : list (jstr * jstr) :=
  [(js "description", js "Description"); (js "icon", js "Icon"); (js "tags", js "Tags"); (js "vendor", js "Vendor");
   (js "name_rule", js "Name Rule"); (js "status", js "Status"); (js "endpoints", js "Endpoints"); (js "quota_types", js "Quota Types");
   (js "enable_groups", js "Enable Groups")].
Definition field_label (field : jstr) : jstr := default field (obj_get field FIELD_LABELS).

Definition dash : jstr := [8212%N].
Definition formatValue (value : option json) : jstr :=
  match value with
  | None | Some JNull => dash
  | Some (JStr s) => if truthy s then s else dash
  | Some (JNum x) => num_to_str x
  | Some (JBool b) => if b then js "true" else js "false"
  | Some v => JSON_pretty v
  end.

Record ConflictFieldRow : Type := MkConflictRow {
  cr_id : jstr; cr_modelName : jstr; cr_fieldKey : jstr; cr_fieldLabel : jstr; cr_local : option json; cr_upstream : option json
}.
Definition row_id (model field : jstr) : jstr := model ++ js "-" ++ field.
Definition conflict_row (model : jstr) (f : ConflictField) : ConflictFieldRow :=
  MkConflictRow (row_id model (cf_field f)) model (cf_field f) (field_label (cf_field f)) (cf_local f) (cf_upstream f).
Definition conflictRows (conflicts : list Conflict) : list ConflictFieldRow :=
  concat (List.map (fun c => List.map (conflict_row (cf_model_name c)) (cf_fields c)) conflicts).

(** *** Searching *)

Definition field_matches (needle : jstr) (f : ConflictField) : bool :=
  includes needle (lower (field_label (cf_field f))) || includes needle (lower (cf_field f)).
Definition conflict_matches (needle : jstr) (c : Conflict) : bool :=
  includes needle (lower (cf_model_name c)) || existsb (field_matches needle) (cf_fields c).
Definition matchingModelNames (needle : jstr) (conflicts : list Conflict) : list jstr :=
  dedup (List.map cf_model_name (List.filter (conflict_matches needle) conflicts)).
Definition row_matches (needle : jstr) (conflicts : list Conflict) (r : ConflictFieldRow) : bool :=
  mem (cr_modelName r) (matchingModelNames needle conflicts) || includes needle (lower (cr_fieldLabel r))
  || includes needle (lower (cr_fieldKey r)).
Definition visibleRowIds (needle : jstr) (conflicts : list Conflict) : list jstr :=
  List.map cr_id (List.filter (row_matches needle conflicts) (conflictRows conflicts)).
Definition normalizedSearch (search : jstr) : jstr := lower (trim search).
Definition filteredRows (search : jstr) (conflicts : list Conflict) : list ConflictFieldRow :=
  let needle := normalizedSearch search in
  if truthy needle then List.filter (fun r => mem (cr_id r) (visibleRowIds needle conflicts)) (conflictRows conflicts)
  else conflictRows conflicts.

(** *** Pages *)

Definition pages_of (n size : nat) : nat := if Nat.eqb n 0 then 1 else (n + size - 1) / size.
Definition page_rows {A} (index size : nat) (l : list A) : list A := take size (drop (index * size) l).

(** *** The dialog *)

Record overwrite : Type := MkOverwrite { ow_model_name : jstr; ow_fields : list jstr }.
Record ConflictDialog : Type := MkConflictDialog {
  cd_open : bool; cd_conflicts : list Conflict; cd_search : jstr; cd_selection : list jstr; cd_pageSize : nat; cd_pageIndex : nat;
  cd_submitting : bool; cd_waiting : nat; cd_sent : list (list overwrite); cd_shown : list action_effect
}.
Definition new_conflict_dialog : ConflictDialog := MkConflictDialog false [] [] [] 10 0 false 0 [] [].

Definition cd_rows (s : ConflictDialog) : list ConflictFieldRow := filteredRows (cd_search s) (cd_conflicts s).
Definition totalPages (s : ConflictDialog) : nat := pages_of (length (cd_rows s)) (cd_pageSize s).
Definition paginatedRows (s : ConflictDialog) : list ConflictFieldRow := page_rows (cd_pageIndex s) (cd_pageSize s) (cd_rows s).
Definition displayStart (s : ConflictDialog) : nat := if Nat.eqb (length (cd_rows s)) 0 then 0 else cd_pageIndex s * cd_pageSize s + 1.
Definition displayEnd (s : ConflictDialog) : nat :=
  if Nat.eqb (length (cd_rows s)) 0 then 0 else Nat.min (cd_pageIndex s * cd_pageSize s + cd_pageSize s) (length (cd_rows s)).

Definition selectedRows (s : ConflictDialog) : list ConflictFieldRow :=
  List.filter (fun r => mem (cr_id r) (cd_selection s)) (conflictRows (cd_conflicts s)).

(** A set of fields for each model, in the order in which the models are met. *)
Definition add_selected (acc : list (jstr * list jstr)) (r : ConflictFieldRow) : list (jstr * list jstr) :=
  let fields := default [] (obj_get (cr_modelName r) acc) in
  obj_set (cr_modelName r) (if mem (cr_fieldKey r) fields then fields else fields ++ [cr_fieldKey r]) acc.
Definition groupedSelections (rows : list ConflictFieldRow) : list (jstr * list jstr) := foldl add_selected [] rows.
Definition overwrite_payload (rows : list ConflictFieldRow) : list overwrite :=
  List.filter (fun o => Nat.ltb 0 (length (ow_fields o))) (List.map (fun p => MkOverwrite p.1 p.2) (groupedSelections rows)).

Definition set_conflicts (open : bool) (conflicts : list Conflict) (s : ConflictDialog) : ConflictDialog :=
  MkConflictDialog open conflicts (cd_search s) (cd_selection s) (cd_pageSize s) (cd_pageIndex s) (cd_submitting s) (cd_waiting s) (cd_sent s) (cd_shown s).
Definition set_conflict_view (search : jstr) (selection : list jstr) (size index : nat) (s : ConflictDialog) : ConflictDialog :=
  MkConflictDialog (cd_open s) (cd_conflicts s) search selection size index (cd_submitting s) (cd_waiting s) (cd_sent s) (cd_shown s).
Definition set_conflict_requests (submitting : bool) (waiting : nat) (sent : list (list overwrite)) (shown : list action_effect) (s : ConflictDialog)
    : ConflictDialog :=
  MkConflictDialog (cd_open s) (cd_conflicts s) (cd_search s) (cd_selection s) (cd_pageSize s) (cd_pageIndex s) submitting waiting sent shown.

(** The effect of opening and of other conflicts. *)
Definition reset_view (s : ConflictDialog) : ConflictDialog := if cd_open s then set_conflict_view [] [] (cd_pageSize s) 0 s else s.
Definition open_conflicts (conflicts : list Conflict) (s : ConflictDialog) : ConflictDialog := reset_view (set_conflicts true conflicts s).
(** Cancelling, closing and a success drop the conflicts. *)
Definition close_conflicts (s : ConflictDialog) : ConflictDialog := set_conflicts false [] s.

Definition toggle_id (id : jstr) (b : bool) (selection : list jstr) : list jstr :=
  if b then (if mem id selection then selection else selection ++ [id]) else List.filter (fun i => i !== id) selection.
Definition toggle_ids (ids : list jstr) (b : bool) (selection : list jstr) : list jstr := foldl (fun sel id => toggle_id id b sel) selection ids.

Definition PAGE_SIZES : list nat := [5; 10; 20; 50].

Definition handleApplyOverwrite (s : ConflictDialog) : ConflictDialog :=
  if cd_submitting s || Nat.eqb (length (selectedRows s)) 0 then s
  else match overwrite_payload (selectedRows s) with
       | [] => set_conflict_requests (cd_submitting s) (cd_waiting s) (cd_sent s)
                 (cd_shown s ++ [Complain (plain_notice (js "Select at least one field to overwrite."))]) s
       | payload => set_conflict_requests true (S (cd_waiting s)) (cd_sent s ++ [payload]) (cd_shown s) s
       end.
Definition overwrite_answered (a : api_answer) (s : ConflictDialog) : ConflictDialog :=
  match cd_waiting s with
  | O => s
  | S n =>
      let s' := set_conflict_requests false n (cd_sent s)
                  (cd_shown s ++ (if answer_accepted a then [Succeed (plain_notice (js "Selected conflicts were overwritten successfully.")); RefreshLists; RefreshLists]
                                  else match a with
                                       | Answer r => [Complain (plain_notice (opt_str_or (rs_message r) (js "Failed to apply overwrite.")))]
                                       | Failure m _ => [Complain (plain_notice (opt_str_or m (js "Failed to apply overwrite.")))]
                                       end)) s in
      if answer_accepted a then close_conflicts s' else s'
  end.

Inductive conflict_event : Type :=
| OpenConflicts (conflicts : list Conflict) | CloseConflicts | SearchConflicts (text : jstr) | ToggleRow (i : nat) (b : bool) | ToggleAllRows (b : bool)
| ClearSelections | ChangePageSize (size : nat) | PreviousPage | NextPage | ApplyOverwrite | OverwriteAnswered (a : api_answer).

Definition conflict_handle (ev : conflict_event) (s : ConflictDialog) : ConflictDialog :=
  match ev with
  | OpenConflicts conflicts => open_conflicts conflicts s
  | CloseConflicts => close_conflicts s
  | SearchConflicts text => set_conflict_view text (cd_selection s) (cd_pageSize s) 0 s
  | ToggleRow i b => match paginatedRows s !! i with
                     | Some r => set_conflict_view (cd_search s) (toggle_id (cr_id r) b (cd_selection s)) (cd_pageSize s) (cd_pageIndex s) s
                     | None => s
                     end
  | ToggleAllRows b => set_conflict_view (cd_search s) (toggle_ids (List.map cr_id (conflictRows (cd_conflicts s))) b (cd_selection s))
                         (cd_pageSize s) (cd_pageIndex s) s
  | ClearSelections => set_conflict_view (cd_search s) [] (cd_pageSize s) (cd_pageIndex s) s
  | ChangePageSize size => if mem size PAGE_SIZES then set_conflict_view (cd_search s) (cd_selection s) size 0 s else s
  | PreviousPage => set_conflict_view (cd_search s) (cd_selection s) (cd_pageSize s) (cd_pageIndex s - 1) s
  | NextPage => set_conflict_view (cd_search s) (cd_selection s) (cd_pageSize s) (Nat.min (totalPages s - 1) (cd_pageIndex s + 1)) s
  | ApplyOverwrite => handleApplyOverwrite s
  | OverwriteAnswered a => overwrite_answered a s
  end.
(** The effect on the number of pages. *)
Definition clamp_page (before s : ConflictDialog) : ConflictDialog :=
  if Nat.eqb (totalPages s) (totalPages before) then s
  else set_conflict_view (cd_search s) (cd_selection s) (cd_pageSize s) (Nat.min (cd_pageIndex s) (totalPages s - 1)) s.
Definition conflict_step (ev : conflict_event) (s : ConflictDialog) : ConflictDialog := clamp_page s (conflict_handle ev s).

(** ** The synchronisation *)

(** The sources with whether they are disabled. *)
Definition SYNC_SOURCES : list (jstr * bool) := [(js "official", false); (js "config", true)].
Definition SYNC_LOCALES : list jstr := [js "zh"; js "en"; js "ja"].
Definition source_enabled (source : jstr) : bool := match obj_get source SYNC_SOURCES with Some disabled => negb disabled | None => false end.

Record SyncOptions : Type := MkSyncOptions { so_locale : jstr; so_source : jstr }.
(** The effect of opening. *)
Definition open_sync (last : SyncOptions) : SyncOptions :=
  MkSyncOptions (str_or (so_locale last) (js "zh")) (if source_enabled (so_source last) then so_source last else js "official").
Definition choose_source (source : jstr) (o : SyncOptions) : SyncOptions :=
  if source_enabled source then MkSyncOptions (so_locale o) source else o.

Inductive sync_request : Type := PreviewDiff (o : SyncOptions) | SyncUpstream (o : SyncOptions).
Record sync_result : Type := MkSyncResult {
  sy_requests : list sync_request; sy_shown : list action_effect; sy_conflicts : option (list Conflict); sy_closed : bool
}.
Definition plural_s (n : nat) : jstr := if Nat.ltb 1 n then js "s" else [].
Definition conflicts_text (n : nat) : jstr :=
  js "Found " ++ dec_digits (N.of_nat n) ++ js " conflict" ++ plural_s n ++ js ". Please resolve them first.".
Definition synced_count (k : jstr) (data : option json) : outcome jstr :=
  match prop_of k data with Some v => if json_truthy v then to_String v else Ret (js "0") | None => Ret (js "0") end.
Definition synced_text (data : option json) : outcome jstr :=
  let! c := synced_count (js "created_models") data in
  let! u := synced_count (js "updated_models") data in
  let! v := synced_count (js "created_vendors") data in
  Ret (js "Sync completed! Created " ++ c ++ js " models, updated " ++ u ++ js ", and added " ++ v ++ js " vendors.").
(** The preview: the conflicts, the message of a refusal, or that of an error.  The counts of the answer are numbers. *)
Inductive preview_answer : Type := PreviewRead (conflicts : list Conflict) | PreviewRefused (m : option jstr) | PreviewFailed (m : option jstr).
Definition handleSync (preview : preview_answer) (sync : api_answer) (o : SyncOptions) : sync_result :=
  let asked := PreviewDiff o in
  match preview with
  | PreviewRefused m => MkSyncResult [asked] [Complain (plain_notice (opt_str_or m (js "Failed to preview upstream diff")))] None false
  | PreviewFailed m => MkSyncResult [asked] [Complain (plain_notice (opt_str_or m (js "Sync failed")))] None false
  | PreviewRead ((_ :: _) as conflicts) => MkSyncResult [asked] [Complain (plain_notice (conflicts_text (length conflicts)))] (Some conflicts) false
  | PreviewRead [] =>
      let failed m := [Complain (plain_notice (opt_str_or m (js "Sync failed")))] in
      match sync with
      | Answer r =>
          if rs_success r
          then MkSyncResult [asked; SyncUpstream o]
                 (match synced_text (rs_data r) with Ret s => [Succeed (plain_notice s); RefreshLists; RefreshLists] | Throw => failed None end) None
                 (match synced_text (rs_data r) with Ret _ => true | Throw => false end)
          else MkSyncResult [asked; SyncUpstream o] (failed (rs_message r)) None false
      | Failure m _ => MkSyncResult [asked; SyncUpstream o] (failed m) None false
      end
  end.

(** ** Prefill groups *)

Inductive PrefillType : Type := ModelGroup | TagGroup | EndpointGroup.
#[export] Instance PrefillType_eq_dec : EqDecision PrefillType.
Proof. solve_decision. Defined.
(** The items are a text or a list, as the server sends them. *)
Record PrefillGroup : Type := MkPrefill { pg_id : Z; pg_name : jstr; pg_type : PrefillType; pg_items : json; pg_description : option jstr }.
Record PrefillForm : Type := MkPrefillForm { pf_name : jstr; pf_description : jstr; pf_type : PrefillType; pf_items : jstr + list jstr }.
Definition DEFAULT_FORM_VALUES : PrefillForm := MkPrefillForm [] [] ModelGroup (inr []).

Definition trimmed_texts (l : list json) : list jstr := filter_truthy (List.map (fun v => match v with JStr s => trim s | _ => [] end) l).
(** [split(/[\n,]/)] *)
Definition split_items (s : jstr) : list jstr := split_char 44 (List.map (fun c => if (c =? 10)%N then 44%N else c) s).
Definition parseStringItems (items : json) : list jstr :=
  match items with
  | JArr l => trimmed_texts l
  | JStr s =>
      if truthy s then match JSON_parse s with
                       | Ret (JArr l) => trimmed_texts l
                       | Ret _ => []
                       | Throw => filter_truthy (List.map trim (split_items s))
                       end
      else []
  | _ => []
  end.
(** [item?.name] of null is undefined. *)
Definition endpoint_name (v : json) : jstr :=
  match v with JStr s => s | JObj o => match obj_get (js "name") o with Some (JStr s) => s | _ => [] end | _ => [] end.
Definition endpoint_keys (parsed : json) : list jstr :=
  match parsed with JArr l => filter_truthy (List.map endpoint_name l) | JObj o => o.*1 | _ => [] end.
Definition parseEndpointKeys (items : json) : list jstr :=
  match items with
  | JStr s => if truthy s then match JSON_parse s with Ret v => endpoint_keys v | Throw => [] end else []
  | v => endpoint_keys v
  end.
Definition serializeEndpointItems (items : json) : jstr :=
  if json_truthy items then match items with JStr s => s | v => JSON_pretty v end else [].

Definition open_prefill (group : option PrefillGroup) : PrefillForm :=
  match group with
  | Some g => MkPrefillForm (pg_name g) (opt_str_or (pg_description g) []) (pg_type g)
                (match pg_type g with EndpointGroup => inl (serializeEndpointItems (pg_items g)) | _ => inr (parseStringItems (pg_items g)) end)
  | None => DEFAULT_FORM_VALUES
  end.
(** The effect of another type: the items of the other shape are dropped. *)
Definition change_prefill_type (t : PrefillType) (f : PrefillForm) : PrefillForm :=
  MkPrefillForm (pf_name f) (pf_description f) t
    (match t, pf_items f with EndpointGroup, inr _ => inl [] | EndpointGroup, i => i | _, inl _ => inr [] | _, i => i end).
Definition prefill_payload (f : PrefillForm) : PrefillForm :=
  MkPrefillForm (trim (pf_name f)) (trim (pf_description f)) (pf_type f)
    (match pf_type f, pf_items f with EndpointGroup, inr _ => inl [] | EndpointGroup, i => i | _, inl _ => inr [] | _, i => i end).
Definition sortedGroups (locale_leb : jstr -> jstr -> bool) (type_name : PrefillType -> jstr) (groups : list PrefillGroup) : list PrefillGroup :=
  sort_by (fun a b => if pg_type a === pg_type b then locale_leb (pg_name a) (pg_name b)
                      else locale_leb (type_name (pg_type a)) (type_name (pg_type b))) groups.

(** ** Vendors *)

Record Vendor : Type := MkVendor { vd_id : Z; vd_name : jstr; vd_description : option jstr; vd_icon : option jstr; vd_status : Z }.
Record VendorForm : Type := MkVendorForm { vf_id : option Z; vf_name : jstr; vf_description : jstr; vf_icon : jstr; vf_status : Z }.
Definition vendorFormSchema (f : VendorForm) : bool := truthy (vf_name f).
Definition open_vendor (v : option Vendor) : VendorForm :=
  match v with
  | Some v => MkVendorForm (Some (vd_id v)) (vd_name v) (opt_str_or (vd_description v) []) (opt_str_or (vd_icon v) []) (or_z (vd_status v) 1)
  | None => MkVendorForm None [] [] [] 1
  end.

(** ** Missing models *)

Definition missing_filtered (searchTerm : jstr) (missing : list jstr) : list jstr :=
  if truthy (trim searchTerm) then List.filter (fun m => includes (trim (lower searchTerm)) (lower m)) missing else missing.
Definition DEFAULT_PAGE_SIZE : nat := 20.
Record MissingDialog : Type := MkMissing { ms_search : jstr; ms_page : nat; ms_models : list jstr }.
Definition missing_pages (s : MissingDialog) : nat := pages_of (length (missing_filtered (ms_search s) (ms_models s))) DEFAULT_PAGE_SIZE.
Definition paginatedModels (s : MissingDialog) : list jstr :=
  page_rows (ms_page s - 1) DEFAULT_PAGE_SIZE (missing_filtered (ms_search s) (ms_models s)).
Inductive missing_event : Type := OpenMissing | MissingArrive (l : list jstr) | SearchMissing (text : jstr) | PageMissing (next : bool).
Definition missing_handle (ev : missing_event) (s : MissingDialog) : MissingDialog :=
  match ev with
  | OpenMissing => MkMissing [] 1 (ms_models s)
  | MissingArrive l => MkMissing (ms_search s) (ms_page s) l
  | SearchMissing text => MkMissing text 1 (ms_models s)
  | PageMissing next =>
      MkMissing (ms_search s) (if next then Nat.min (missing_pages s) (ms_page s + 1) else Nat.max 1 (ms_page s - 1)) (ms_models s)
  end.
Definition missing_step (ev : missing_event) (s : MissingDialog) : MissingDialog :=
  let s := missing_handle ev s in
  if Nat.ltb (missing_pages s) (ms_page s) then MkMissing (ms_search s) (Nat.max 1 (missing_pages s)) (ms_models s) else s.

(** ** The import of presets *)

Record ModelPreset : Type := MkPreset { pr_model_name : jstr; pr_description : jstr; pr_group : jstr; pr_tags : list jstr; pr_endpoints : jstr }.
Definition selection := list (jstr * bool).
Definition preset_chosen (name : jstr) (s : selection) : bool := default false (obj_get name s).
Definition toggle_preset (name : jstr) (s : selection) : selection := obj_set name (negb (preset_chosen name s)) s.
Definition toggleAll (presets : list ModelPreset) (next : bool) : selection := obj_assign [] (List.map (fun p => (pr_model_name p, next)) presets).
Definition presetsByGroup (presets : list ModelPreset) (group : jstr) : list ModelPreset := List.filter (fun p => pr_group p === group) presets.
Definition toggleGroup (presets : list ModelPreset) (group : jstr) (next : bool) (s : selection) : selection :=
  foldl (fun out p => obj_set (pr_model_name p) next out) s (presetsByGroup presets group).
Definition selectedCount (s : selection) : nat := length (List.filter snd s).
Definition preset_payload (p : ModelPreset) : list (jstr * json) :=
  [(js "model_name", JStr (pr_model_name p)); (js "description", JStr (pr_description p)); (js "tags", JStr (join (js ",") (pr_tags p)));
   (js "endpoints", JStr (pr_endpoints p)); (js "status", JNum zero); (js "sync_official", JNum (num_of_Z 1)); (js "name_rule", JNum zero)].
Inductive created : Type := Created | Skipped | NotCreated (message : jstr).
Definition createOne (server : list (jstr * json) -> api_answer) (p : ModelPreset) : created :=
  match server (preset_payload p) with
  | Answer r =>
      if rs_success r then Created
      else if includes (js "exist") (lower (opt_str_or (rs_message r) [])) then Skipped
      else NotCreated (opt_str_or (rs_message r) (js "Failed to create " ++ pr_model_name p))
  | Failure m _ => NotCreated (default (js "undefined") m)
  end.
Definition is_created (c : created) : bool := match c with Created => true | _ => false end.
Definition is_skipped (c : created) : bool := match c with Skipped => true | _ => false end.
Definition failure_text (pc : ModelPreset * created) : option jstr :=
  match pc.2 with NotCreated m => Some (pr_model_name pc.1 ++ js ": " ++ m) | _ => None end.
Record import_result : Type := MkImport { im_created : nat; im_skipped : nat; im_failures : list jstr; im_total : nat; im_closed : bool }.
(** The presets are created one after another; [None] when none was picked. *)
Definition import_presets (presets : list ModelPreset) (server : list (jstr * json) -> api_answer) (s : selection) : option import_result :=
  match List.filter (fun p => preset_chosen (pr_model_name p) s) presets with
  | [] => None
  | picks =>
      let results := List.map (fun p => (p, createOne server p)) picks in
      let failures := omap failure_text results in
      Some (MkImport (length (List.filter (fun pc => is_created pc.2) results)) (length (List.filter (fun pc => is_skipped pc.2) results))
              failures (length picks) (Nat.eqb (length failures) 0))
  end.

(** ** Deployments *)

Definition normalizeDeploymentStatus (status : option json) : jstr := match status with Some (JStr s) => lower (trim s) | _ => [] end.
Definition formatRemainingMinutes (mins : option json) : option jstr :=
  let n := match mins with Some (JStr s) => Number s | Some (JNum x) => x | _ => nan end in
  if negb (is_finite n) then None
  else
    let r := math_round n in
    let total := if nltb zero r then r else zero in
    let days := math_floor (ndiv total (num_of_Z 1440)) in
    let hours := math_floor (ndiv (nmod total (num_of_Z 1440)) (num_of_Z 60)) in
    let minutes := nmod total (num_of_Z 60) in
    let parts := (if nltb zero days then [num_to_str days ++ js "d"] else []) ++ (if nltb zero hours then [num_to_str hours ++ js "h"] else []) in
    Some (join (js " ") (parts ++ (if Nat.eqb (length parts) 0 || nltb zero minutes then [num_to_str minutes ++ js "m"] else []))).

(** ** Properties *)

(** *** Pages *)

Lemma pages_pos n size : size > 0 -> 1 <= pages_of n size.
Proof.
  intros Hs. unfold pages_of. destruct (Nat.eqb_spec n 0); [done|]. apply Nat.div_le_lower_bound; lia.
Qed.

(** The pages hold all elements, and each but the last is full. *)
Lemma pages_cover n size : size > 0 -> n <= pages_of n size * size /\ (n <> 0 -> (pages_of n size - 1) * size < n).
Proof.
  intros Hs. unfold pages_of. destruct (Nat.eqb_spec n 0) as [->|Hn]; [split; [lia|done]|].
  pose proof (Nat.div_mod (n + size - 1) size ltac:(lia)) as H. pose proof (Nat.mod_upper_bound (n + size - 1) size ltac:(lia)) as Hm.
  set (q := (n + size - 1) / size) in *. split; [nia|]. intros _. destruct q; nia.
Qed.

Lemma page_length {A} index size (l : list A) : size > 0 -> index < pages_of (length l) size -> length l <> 0 ->
  0 < length (page_rows index size l) /\ length (page_rows index size l) = Nat.min (index * size + size) (length l) - index * size.
Proof.
  intros Hs Hi Hn. destruct (pages_cover (length l) size Hs) as [_ Hc]. specialize (Hc Hn). unfold page_rows.
  rewrite length_take, length_drop. nia.
Qed.

Lemma pages_concat {A} size (l : list A) : size > 0 -> concat (List.map (fun i => page_rows i size l) (seq 0 (pages_of (length l) size))) = l.
Proof.
  intros Hs. destruct (pages_cover (length l) size Hs) as [Hc _]. unfold page_rows.
  assert (forall k start, concat (List.map (fun i => take size (drop (i * size) l)) (seq start k)) = take (k * size) (drop (start * size) l)) as H.
  { induction k as [|k IH]; intros start; [done|]. cbn [seq List.map concat]. rewrite IH.
    assert (S start * size = start * size + size) as -> by lia. rewrite <-drop_drop.
    assert (S k * size = size + k * size) as -> by lia. by rewrite take_take_drop. }
  rewrite H. cbn [Nat.mul drop]. by apply take_ge.
Qed.

Inductive conflicts_reachable : ConflictDialog -> Prop :=
| conflicts_new : conflicts_reachable new_conflict_dialog
| conflicts_stepped ev s : conflicts_reachable s -> conflicts_reachable (conflict_step ev s).
Definition run_conflicts (evs : list conflict_event) : ConflictDialog := foldl (fun s ev => conflict_step ev s) new_conflict_dialog evs.

Lemma run_conflicts_reachable evs : conflicts_reachable (run_conflicts evs).
Proof. unfold run_conflicts. induction evs as [|ev evs IH] using rev_ind; [constructor|]. rewrite foldl_app. by constructor. Qed.

Definition page_ok (s : ConflictDialog) : Prop := cd_pageSize s > 0 /\ cd_pageIndex s < totalPages s.

Lemma total_pos s : cd_pageSize s > 0 -> 1 <= totalPages s.
Proof. apply pages_pos. Qed.

Lemma clamp_ok before s : cd_pageSize s > 0 -> (totalPages s = totalPages before -> cd_pageIndex s < totalPages s) -> page_ok (clamp_page before s).
Proof.
  intros Hs H. unfold clamp_page. pose proof (total_pos s Hs) as Hp. destruct (Nat.eqb_spec (totalPages s) (totalPages before)) as [E|E]; [split; auto|].
  split; [done|]. change (totalPages (set_conflict_view _ _ _ _ s)) with (totalPages s). cbn [cd_pageIndex set_conflict_view]. lia.
Qed.

Lemma handle_page ev s : page_ok s -> let s' := conflict_handle ev s in
  cd_pageSize s' > 0 /\ (totalPages s' = totalPages s -> cd_pageIndex s' < totalPages s').
Proof.
  intros [Hs Hi]. destruct ev; cbn [conflict_handle].
  - unfold open_conflicts, reset_view. cbn. split; [done|]. intros ->. lia.
  - split; [done|]. cbn. by intros ->.
  - split; [done|]. cbn. intros ->. lia.
  - case_match; [|done]. split; [done|]. cbn. by intros ->.
  - split; [done|]. cbn. by intros ->.
  - split; [done|]. cbn. by intros ->.
  - destruct (mem size PAGE_SIZES) eqn:E; [|done]. apply mem_true in E. split; [|cbn; intros ->; lia].
    cbn. unfold PAGE_SIZES in E. set_solver by lia.
  - split; [done|]. cbn. intros ->. lia.
  - split; [done|]. cbn. intros ->. pose proof (total_pos s Hs). lia.
  - unfold handleApplyOverwrite. repeat case_match; done.
  - unfold overwrite_answered. destruct (cd_waiting s); [done|]. destruct (answer_accepted a); split; try done; cbn; by intros ->.
Qed.

Lemma reachable_page s : conflicts_reachable s -> page_ok s.
Proof.
  induction 1 as [|ev s _ IH]; [split; cbn; lia|]. destruct (handle_page ev s IH) as [H1 H2]. by apply clamp_ok.
Qed.

(** The page of the conflict dialog exists: whatever was searched, selected, resized and answered, the page that is shown is one of the
    pages; it has a row whenever a row matches the search, the numbers that are displayed count its rows, and the
    pages together are the rows that match, in order. *)
Lemma conflict_pages s : conflicts_reachable s ->
  cd_pageIndex s < totalPages s /\
  (cd_rows s <> [] -> paginatedRows s <> [] /\ length (paginatedRows s) = displayEnd s + 1 - displayStart s /\ displayEnd s <= length (cd_rows s)) /\
  concat (List.map (fun i => page_rows i (cd_pageSize s) (cd_rows s)) (seq 0 (totalPages s))) = cd_rows s.
Proof.
  intros Hr. destruct (reachable_page s Hr) as [Hs Hi]. split; [done|]. split; [|by apply pages_concat].
  intros Hn. assert (length (cd_rows s) <> 0) as Hl by (by destruct (cd_rows s)).
  destruct (page_length (cd_pageIndex s) (cd_pageSize s) (cd_rows s) Hs Hi Hl) as [H1 H2].
  unfold displayEnd, displayStart. destruct (Nat.eqb_spec (length (cd_rows s)) 0); [done|]. unfold paginatedRows in *. rewrite H2.
  split; [intros E; rewrite E in H1; cbn in H1; lia|]. split; lia.
Qed.

Definition some_conflicts : list Conflict :=
  [MkConflict (js "gpt") (List.map (fun f => MkConflictField f None None) [js "icon"; js "tags"; js "status"; js "vendor"]);
   MkConflict (js "claude") (List.map (fun f => MkConflictField f None None) [js "icon"; js "tags"; js "endpoints"])].

Lemma conflict_pages_witness :
  let s := run_conflicts [OpenConflicts some_conflicts; ChangePageSize 5; NextPage; SearchConflicts (js "tag"); NextPage] in
  conflicts_reachable s /\ cd_pageIndex s < totalPages s /\ length (cd_rows s) = 7.
Proof.
  split; [apply run_conflicts_reachable|]. split; [|vm_compute; reflexivity].
  apply (conflict_pages (run_conflicts [OpenConflicts some_conflicts; ChangePageSize 5; NextPage; SearchConflicts (js "tag"); NextPage])).
  apply run_conflicts_reachable.
Defined.

(** *** What is overwritten *)

Definition grouped_ok (rows : list ConflictFieldRow) (acc : list (jstr * list jstr)) : Prop :=
  NoDup acc.*1 /\ Forall (fun p => p.2 <> [] /\ NoDup p.2) acc /\
  forall m f, f ∈ default [] (obj_get m acc) <-> exists r, r ∈ rows /\ cr_modelName r = m /\ cr_fieldKey r = f.

Lemma add_selected_ok rows acc r : grouped_ok rows acc -> grouped_ok (rows ++ [r]) (add_selected acc r).
Proof.
  intros (Hd & Ha & Hm). unfold add_selected. set (fields := default [] (obj_get (cr_modelName r) acc)).
  set (next := if mem (cr_fieldKey r) fields then fields else fields ++ [cr_fieldKey r]).
  assert (NoDup fields) as Hf.
  { unfold fields. destruct (obj_get (cr_modelName r) acc) as [l|] eqn:E; [|constructor]. apply obj_get_elem in E.
    rewrite Forall_forall in Ha. apply (Ha _ E). }
  assert (forall f, f ∈ next <-> f ∈ fields \/ f = cr_fieldKey r) as Hn.
  { intros f. unfold next. destruct (mem _ _) eqn:E; [apply mem_true in E; naive_solver|]. rewrite elem_of_app, list_elem_of_singleton. done. }
  split; [by apply NoDup_set|]. split.
  - apply Forall_set; [|done]. split.
    + intros E. cbn in E. assert (cr_fieldKey r ∈ next) as H by (apply Hn; by right). rewrite E in H. by apply not_elem_of_nil in H.
    + cbn. unfold next. destruct (mem _ _) eqn:E; [done|]. apply mem_false in E. apply NoDup_app. split; [done|]. split; [set_solver|apply NoDup_singleton].
  - intros m f. destruct (decide (m = cr_modelName r)) as [->|Hne].
    + rewrite obj_get_set_eq. cbn [default]. rewrite Hn. unfold fields. rewrite (Hm (cr_modelName r) f). setoid_rewrite elem_of_app. setoid_rewrite list_elem_of_singleton. naive_solver.
    + rewrite obj_get_set_ne by done. rewrite (Hm m f). setoid_rewrite elem_of_app. setoid_rewrite list_elem_of_singleton. naive_solver.
Qed.

Lemma grouped_all rows : grouped_ok rows (groupedSelections rows).
Proof.
  unfold groupedSelections. induction rows as [|r rows IH] using rev_ind; [|rewrite foldl_app; by apply add_selected_ok].
  split; [constructor|]. split; [constructor|]. intros m f. cbn. rewrite elem_of_nil. setoid_rewrite elem_of_nil. naive_solver.
Qed.

Lemma payload_grouped rows : overwrite_payload rows = List.map (fun p => MkOverwrite p.1 p.2) (groupedSelections rows).
Proof.
  unfold overwrite_payload. apply lfilter_id. destruct (grouped_all rows) as (_ & Ha & _). apply Forall_forall. intros o Ho.
  apply list_elem_of_fmap in Ho as (p & -> & Hp). rewrite Forall_forall in Ha. destruct (Ha p Hp) as [Hn _]. cbn. by destruct p.2.
Qed.

(** The payload of some rows. *)
Definition overwrites (rows : list ConflictFieldRow) (payload : list overwrite) : Prop :=
  NoDup (List.map ow_model_name payload) /\ Forall (fun o => ow_fields o <> [] /\ NoDup (ow_fields o)) payload /\
  forall m f, (exists o, o ∈ payload /\ ow_model_name o = m /\ f ∈ ow_fields o) <-> exists r, r ∈ rows /\ cr_modelName r = m /\ cr_fieldKey r = f.

Lemma overwrite_payload_of rows : overwrites rows (overwrite_payload rows).
Proof.
  destruct (grouped_all rows) as (Hd & Ha & Hm). rewrite payload_grouped. split; [|split].
  - rewrite List.map_map. exact Hd.
  - apply Forall_forall. intros o Ho. apply list_elem_of_fmap in Ho as (p & -> & Hp). rewrite Forall_forall in Ha. by apply Ha.
  - intros m f. rewrite <-Hm. split.
    + intros (o & Ho & <- & Hf). apply list_elem_of_fmap in Ho as ([k l] & -> & Hp). cbn in *. by rewrite (elem_obj_get _ _ _ Hd Hp).
    + intros Hf. destruct (obj_get m (groupedSelections rows)) as [l|] eqn:E; [|by apply elem_of_nil in Hf].
      exists (MkOverwrite m l). split; [|done]. apply list_elem_of_fmap. exists (m, l). split; [done|]. by apply obj_get_elem.
Qed.

(** C28: applying the selection asks to overwrite exactly the selected fields: one request, with one entry for each model that has a
    selected field and no other, whose fields are the selected ones, each once.  Nothing is sent when nothing is selected or while
    a request is under way. *)
Theorem overwrite_exact s :
  if cd_submitting s || Nat.eqb (length (selectedRows s)) 0 then handleApplyOverwrite s = s
  else exists payload, cd_sent (handleApplyOverwrite s) = cd_sent s ++ [payload] /\ cd_submitting (handleApplyOverwrite s) = true /\
         overwrites (selectedRows s) payload.
Proof.
  unfold handleApplyOverwrite. destruct (_ || _) eqn:E; [done|]. apply orb_false_iff in E as [_ E].
  pose proof (overwrite_payload_of (selectedRows s)) as H. destruct (overwrite_payload (selectedRows s)) as [|o l]; [|by eexists].
  destruct H as (_ & _ & H). destruct (selectedRows s) as [|r rows]; [done|].
  destruct (proj2 (H (cr_modelName r) (cr_fieldKey r))) as (o & Ho & _); [exists r; split; [left|done]|by apply elem_of_nil in Ho].
Qed.

(** *** The other dialogs *)

(** Models are synchronised only after a preview without conflicts. *)
Lemma sync_after_preview preview sync o : SyncUpstream o ∈ sy_requests (handleSync preview sync o) -> preview = PreviewRead [].
Proof.
  unfold handleSync. destruct preview as [[|c l]|m|m]; [done|..]; cbn; intros H; apply list_elem_of_singleton in H; discriminate H.
Qed.

(** Only a source that is not disabled is asked. *)
Lemma sync_source o s : source_enabled (so_source (choose_source s (open_sync o))) = true.
Proof. unfold choose_source, open_sync. destruct (source_enabled s) eqn:E; [done|]. cbn. by destruct (source_enabled (so_source o)) eqn:E'. Qed.

(** Each picked preset is counted once. *)
Lemma import_counts presets server s r : import_presets presets server s = Some r ->
  im_created r + im_skipped r + length (im_failures r) = im_total r.
Proof.
  unfold import_presets. destruct (List.filter _ presets) as [|p0 picks] eqn:Ep; [done|]. rewrite <-Ep. intros [= <-]. clear Ep.
  cbn [im_created im_skipped im_failures im_total]. generalize (List.filter (fun p => preset_chosen (pr_model_name p) s) presets).
  intros l. induction l as [|p l IH]; [done|]. cbn [List.map List.filter omap list_omap].
  unfold failure_text in *. destruct (createOne server p) as [| |m] eqn:E; cbn [is_created is_skipped snd]; rewrite ?E; cbn [length];
    cbn [omap list_omap] in *; lia.
Qed.

Lemma toggle_all_chosen presets next name : NoDup (List.map pr_model_name presets) ->
  preset_chosen name (toggleAll presets next) = next && mem name (List.map pr_model_name presets).
Proof.
  intros H. unfold preset_chosen, toggleAll. rewrite obj_get_assign.
  - induction presets as [|p l IH]; [by rewrite andb_false_r|]. cbn [List.map obj_get]. cbn [List.map] in H. apply NoDup_cons in H as [_ H].
    unfold mem in *. cbn [existsb]. destruct (name === pr_model_name p); [by destruct next|]. by apply IH.
  - rewrite <-list_fmap_compose. exact H.
Qed.

(** A group of names that is opened and saved keeps its items. *)
Lemma prefill_resaved g l : pg_type g <> EndpointGroup -> pg_items g = JArr (List.map JStr l) -> Forall (fun s => trimmed s /\ s <> []) l ->
  pf_items (prefill_payload (open_prefill (Some g))) = inr l.
Proof.
  intros Ht Hi Hl. unfold prefill_payload, open_prefill. cbn [pf_type pf_items]. rewrite Hi. cbn [parseStringItems].
  assert (trimmed_texts (List.map JStr l) = l) as ->; [|by destruct (pg_type g)].
  clear Hi. unfold trimmed_texts. rewrite List.map_map. induction Hl as [|s l (Hs & Hn) _ IH]; [done|]. cbn [List.map]. unfold filter_truthy in *.
  cbn [List.filter]. rewrite (Hs : trim s = s), (proj2 (truthy_true s) Hn). by rewrite IH.
Qed.

(** ** Oddities *)

(** The box of the header selects the rows that the search hides, too. *)
Lemma select_all_hidden :
  let s := run_conflicts [OpenConflicts some_conflicts; SearchConflicts (js "gpt"); ToggleAllRows true; ApplyOverwrite] in
  length (cd_rows s) = 4 /\ List.map ow_model_name (concat (cd_sent s)) = [js "gpt"; js "claude"].
Proof. vm_compute. split; reflexivity. Qed.

(** The answer to an overwrite closes the dialog of conflicts that were found meanwhile, and they are lost. *)
Lemma late_answer_drops_conflicts :
  let yes := Answer (MkResponse true None None None None) in
  let s := run_conflicts [OpenConflicts some_conflicts; ToggleRow 0 true; ApplyOverwrite; CloseConflicts; OpenConflicts some_conflicts; OverwriteAnswered yes] in
  cd_open s = false /\ cd_conflicts s = [].
Proof. vm_compute. split; reflexivity. Qed.

(** One error hides what the other requests did: two models were deleted and the list is not refreshed. *)
Lemma partial_delete_unreported :
  let yes := Answer (MkResponse true None None None None) in
  (handleBatchDeleteModels [1; 2; 3]%Z).2 [yes; Failure (Some (js "timeout")) None; yes] = [Complain (plain_notice (js "timeout"))].
Proof. reflexivity. Qed.

(** Editing a vendor that is disabled enables it. *)
Lemma vendor_enabled v : vd_status v = 0%Z -> vf_status (open_vendor (Some v)) = 1%Z.
Proof. intros H. cbn. by rewrite H. Qed.

(** A refusal that says that something does not exist counts as a duplicate. *)
Lemma missing_counted_duplicate p :
  createOne (fun _ => Answer (MkResponse false (Some (js "vendor does not exist")) None None None)) p = Skipped.
Proof. reflexivity. Qed.

(** The items of a group stored as a text that is one number are lost. *)
Lemma numeric_item_lost : parseStringItems (JStr (js "4")) = [] /\ parseStringItems (JStr (js "o4, o3")) = [js "o4"; js "o3"].
Proof. split; vm_compute; reflexivity. Qed.

Lemma remaining_minutes : formatRemainingMinutes (Some (JNum (num_of_Z 1505))) = Some (js "1d 1h 5m") /\
  formatRemainingMinutes (Some (JNum (num_of_Z 1440))) = Some (js "1d") /\ formatRemainingMinutes (Some (JStr (js "0"))) = Some (js "0m").
Proof. repeat split; vm_compute; reflexivity. Qed.
