(* ===== verification/ModelFacts.v ===== *)
(** * Facts and sample statistics of models

    [features/pricing/lib/seed.ts], [mock-stats.ts] and [model-metadata.ts]: what the details of a model show until the server has it.
    The values are drawn from a generator that is seeded with a hash of the name, so a model always shows the same.  The hash and
    the generator work on 32-bit integers held in doubles.

    A generator is its state, which is threaded through the definitions.  The browser's [localeCompare], [Math.sin], [Math.pow],
    number and date formats are arguments, and so is the time. *)
From S2P Require Import Prelude Regex Numbers Exact Dyadic Json Pricing.
Local Open Scope js_scope.

(** ** Seeds: [seed.ts] *)

Definition nz (z : Z) : number := num_of_Z z.
(** A literal with decimals. *)
Definition lit (s : String.string) : number := Number (js s).
Arguments lit s%_string_scope.

Definition seed_step (hash : number) (c : N) : number := xor32 (nmul hash (nz 33)) (nz (Z.of_N c)).
Definition hashStringToSeed (input : jstr) : number := nabs (nz (int32_of (foldl seed_step (nz 5381) input))).

(** The state of a generator; [rand()] gives a number and the next state. *)
Definition seededRandom (seed : number) : Z := to_uint32 (num_or seed (nz 1)).
Definition rand (state : Z) : number * Z :=
  let next := to_uint32 (nadd (nmul (nz state) (nz 1664525)) (nz 1013904223)) in (ndiv (nz next) (nz (2 ^ 32)), next).
Definition randomInRange (lo hi : number) (state : Z) : number * Z :=
  let '(r, state) := rand state in (nadd lo (nmul r (nsub hi lo)), state).
Definition randomIntInRange (lo hi : number) (state : Z) : number * Z :=
  let '(r, state) := randomInRange lo (nadd hi (nz 1)) state in (math_floor r, state).
(** [Math.floor(rand() * n)], as an index. *)
Definition rand_index (n : nat) (state : Z) : nat * Z :=
  let '(r, state) := rand state in (Z.to_nat (default 0%Z (int_of_num (math_floor (nmul r (nz (Z.of_nat n)))))), state).

Definition math_min2 (x y : number) : number := if is_nan x || is_nan y then nan else if nltb y x then y else x.
Definition math_max2 (x y : number) : number := if is_nan x || is_nan y then nan else if nltb x y then y else x.

(** ** Statistics: [mock-stats.ts] *)

Record AppTemplate : Type := MkApp { ap_name : jstr; ap_description : jstr; ap_category : jstr; ap_url : option jstr }.
Definition APP_TEMPLATES : list AppTemplate :=
  [MkApp (js "Cline") (js "Autonomous coding agent inside the IDE") (js "Coding") (Some (js "https://cline.bot"));
   MkApp (js "Roo Code") (js "AI agent for VS Code with multi-step planning") (js "Coding") (Some (js "https://roocode.com"));
   MkApp (js "Open WebUI") (js "Self-hosted ChatGPT-like web interface") (js "Chat") (Some (js "https://openwebui.com"));
   MkApp (js "LibreChat") (js "Open-source chat platform with multi-model support") (js "Chat") (Some (js "https://librechat.ai"));
   MkApp (js "Lobe Chat") (js "Modern open-source chat UI with plugins") (js "Chat") (Some (js "https://lobehub.com"));
   MkApp (js "NextChat") (js "Cross-platform private ChatGPT client") (js "Chat") (Some (js "https://nextchat.dev"));
   MkApp (js "Continue") (js "Open-source AI code assistant for editors") (js "Coding") (Some (js "https://continue.dev"));
   MkApp (js "Aider") (js "Pair-programming agent in your terminal") (js "Coding") (Some (js "https://aider.chat"));
   MkApp (js "Dify") (js "LLM application development platform") (js "Platform") (Some (js "https://dify.ai"));
   MkApp (js "FastGPT") (js "Knowledge base orchestration and chat platform") (js "Platform") (Some (js "https://fastgpt.in"));
   MkApp (js "Flowise") (js "Low-code LLM workflow builder") (js "Platform") (Some (js "https://flowiseai.com"));
   MkApp (js "OpenInterpreter") (js "Natural-language code execution agent") (js "Coding") (Some (js "https://openinterpreter.com"));
   MkApp (js "Devika") (js "Open-source AI software engineer") (js "Coding") (Some (js "https://github.com/stitionai/devika"));
   MkApp (js "Cherry Studio") (js "Multi-model desktop chat client") (js "Chat") (Some (js "https://cherry-ai.com"));
   MkApp (js "AnythingLLM") (js "Workspaces around your private documents") (js "Platform") (Some (js "https://anythingllm.com"));
   MkApp (js "OpenHands") (js "Coding agent with browser-and-code tools") (js "Coding") (Some (js "https://docs.all-hands.dev"));
   MkApp (js "Cursor") (js "AI-native code editor") (js "Coding") (Some (js "https://cursor.com"));
   MkApp (js "Zed") (js "Multiplayer code editor with AI") (js "Coding") (Some (js "https://zed.dev"));
   MkApp (js "Notion AI") (js "Documents and writing assistant") (js "Productivity") (Some (js "https://notion.so"));
   MkApp (js "Raycast AI") (js "AI on your macOS launcher") (js "Productivity") (Some (js "https://raycast.com"));
   MkApp (js "Obsidian Smart Connections") (js "Connect notes with semantic search") (js "Productivity") None;
   MkApp (js "Bolt.new") (js "Prompt-to-app full-stack builder") (js "Coding") (Some (js "https://bolt.new"));
   MkApp (js "Pieces") (js "AI workflow companion for developers") (js "Productivity") (Some (js "https://pieces.app"));
   MkApp (js "AmazingAI") (js "Personal AI knowledge assistant") (js "Productivity") None;
   MkApp (js "TypingMind") (js "Better UI for ChatGPT and Claude") (js "Chat") (Some (js "https://typingmind.com"))].

(** [/a|b|c/.test(n)] *)
Definition any_of (l : list jstr) (n : jstr) : bool := existsb (fun w => includes w n) l.

Definition PROFILE_BY_NAME (name : jstr) : jstr :=
  let n := lower name in
  if any_of [js "embed"; js "rerank"] n then js "embedding"
  else if any_of [js "image"; js "sora"; js "veo"; js "kling"; js "pika"; js "jimeng"; js "dalle"; js "imagen"] n then js "image"
  else if any_of [js "whisper"; js "tts"; js "voice"; js "audio"] n then js "audio"
  else if any_of [js "o1"; js "o3"; js "o4"; js "reasoning"; js "thinking"; js "deepseek-r"] n then js "reasoning"
  else if any_of [js "flash"; js "haiku"; js "mini"; js "small"; js "nano"; js "fast"] n then js "fast"
  else if any_of [js "gpt-5"; js "opus"; js "ultra"; js "405"; js "70b"] n then js "large"
  else js "standard".

Record ProfileSpec : Type := MkSpec { sp_ttft : number * number; sp_throughput : number * number; sp_uptime : number * number }.
Definition standard_spec : ProfileSpec := MkSpec (nz 400, nz 900) (nz 70, nz 140) (lit "99.6", lit "99.97").
Definition PROFILE_SPECS : list (jstr * ProfileSpec) :=
  [(js "embedding", MkSpec (nz 40, nz 120) (nz 0, nz 0) (lit "99.9", lit "99.99"));
   (js "image", MkSpec (nz 2500, nz 12000) (nz 0, nz 0) (lit "98.5", lit "99.8"));
   (js "audio", MkSpec (nz 180, nz 600) (nz 0, nz 0) (lit "99.5", lit "99.95"));
   (js "reasoning", MkSpec (nz 1800, nz 5500) (nz 25, nz 70) (lit "99.4", lit "99.95"));
   (js "fast", MkSpec (nz 180, nz 480) (nz 110, nz 240) (lit "99.7", lit "99.99"));
   (js "large", MkSpec (nz 600, nz 1400) (nz 55, nz 95) (lit "99.5", lit "99.95"));
   (js "standard", standard_spec)].
(** Each profile has a spec. *)
Definition spec_of (name : jstr) : ProfileSpec := default standard_spec (obj_get (PROFILE_BY_NAME name) PROFILE_SPECS).

Definition rangeFromSeed (r : number * number) (state : Z) : number * Z := randomInRange r.1 r.2 state.

Record Factors : Type := MkFactors { fa_ttft : number; fa_throughput : number; fa_uptime : number }.
Definition groupFactor (group : jstr) (baseSeed : number) : Factors :=
  let s := seededRandom (xor32 baseSeed (hashStringToSeed (str_or group (js "default")))) in
  let '(a, s) := rand s in
  let '(b, s) := rand s in
  let '(c, _) := rand s in
  MkFactors (nadd (lit "0.85") (nmul a (lit "0.55"))) (nadd (lit "0.85") (nmul b (lit "0.4"))) (nadd (lit "0.997") (nmul c (lit "0.003"))).

Record GroupPerformance : Type := MkPerformance {
  gp_group : jstr; ttft_p50_ms : number; ttft_p95_ms : number; ttft_p99_ms : number; throughput_tps : number; uptime_30d_pct : number;
  request_volume_24h : number
}.
Definition target_groups (model : PricingModel) : list jstr :=
  match List.filter (fun g => truthy g && (g !== js "auto")) (default [] (enable_groups model)) with [] => [js "default"] | groups => groups end.
Definition group_performance (name : jstr) (group : jstr) : GroupPerformance :=
  let spec := spec_of name in
  let baseSeed := hashStringToSeed name in
  let factor := groupFactor group baseSeed in
  let s := seededRandom (xor32 baseSeed (hashStringToSeed group)) in
  let '(t, s) := rangeFromSeed (sp_ttft spec) s in
  let ttftP50 := nmul t (fa_ttft factor) in
  let '(p, s) := rangeFromSeed (sp_throughput spec) s in
  let throughput := nmul p (fa_throughput factor) in
  let '(u, s) := rangeFromSeed (sp_uptime spec) s in
  let uptimePct := math_min2 (lit "99.99") (nmul u (fa_uptime factor)) in
  let '(volume, s) := randomIntInRange (nz 18000) (nz 480000) s in
  let '(r95, s) := rand s in
  let '(r99, _) := rand s in
  MkPerformance group (math_round ttftP50) (math_round (nmul ttftP50 (nadd (lit "1.6") (nmul r95 (lit "0.4")))))
    (math_round (nmul ttftP50 (nadd (lit "2.4") (nmul r99 (lit "0.6")))))
    (if neqb throughput zero then zero else ndiv (math_round (nmul throughput (nz 10))) (nz 10))
    (ndiv (math_round (nmul uptimePct (nz 100))) (nz 100)) volume.
Definition buildGroupPerformance (locale_leb : jstr -> jstr -> bool) (model : PricingModel) : list GroupPerformance :=
  List.map (group_performance (model_name model)) (sort_by locale_leb (target_groups model)).

(** *** Series *)

Record LatencyTimePoint : Type := MkLatency { lp_timestamp : jstr; lp_group : jstr; lp_ttft_ms : number }.
(** The hours [i] from 23 to 0; [now] is the beginning of the hour. *)
Fixpoint latency_points (math_sin : number -> number) (iso : number -> jstr) (now : number) (perf : GroupPerformance) (n : nat) (state : Z)
    : list LatencyTimePoint :=
  match n with
  | O => []
  | S i =>
      let x := nz (Z.of_nat i) in
      let '(r, state) := rand state in
      let noise := nadd (lit "0.7") (nmul r (lit "0.7")) in
      let trend := nadd (lit "0.85") (nmul (math_sin (ndiv x (nz 3))) (lit "0.1")) in
      MkLatency (iso (nsub now (nmul x (nz 3600000)))) (gp_group perf) (math_max2 (nz 50) (math_round (nmul (nmul (ttft_p50_ms perf) noise) trend)))
      :: latency_points math_sin iso now perf i state
  end.
Definition buildLatencyTimeSeries (locale_leb : jstr -> jstr -> bool) (math_sin : number -> number) (iso : number -> jstr) (now : number)
    (model : PricingModel) : list LatencyTimePoint :=
  let baseSeed := hashStringToSeed (model_name model ++ js ":lat") in
  concat (List.map (fun perf => latency_points math_sin iso now perf 24 (seededRandom (xor32 baseSeed (hashStringToSeed (gp_group perf)))))
            (buildGroupPerformance locale_leb model)).

Record UptimeDayPoint : Type := MkUptime { up_date : jstr; up_uptime_pct : number; up_incidents : number; up_outage_minutes : number }.
Fixpoint uptime_points (iso : number -> jstr) (today baseUptime : number) (n : nat) (state : Z) : list UptimeDayPoint :=
  match n with
  | O => []
  | S i =>
      let isoDate := take 10 (iso (nsub today (nmul (nz (Z.of_nat i)) (nz 86400000)))) in
      let '(incidentChance, state) := rand state in
      let incident := nltb (lit "0.92") incidentChance in
      let '(outageMinutes, state) :=
        if incident then let '(r, state) := rand state in (math_round (nadd (nmul r (nz 30)) (nz 5)), state) else (zero, state) in
      let downtimePct := nmul (ndiv outageMinutes (nz 1440)) (nz 100) in
      let dayUptime := math_max2 (nz 85) (math_min2 (nz 100) (nsub baseUptime downtimePct)) in
      MkUptime isoDate (ndiv (math_round (nmul dayUptime (nz 100))) (nz 100)) (if incident then nz 1 else zero) outageMinutes
      :: uptime_points iso today baseUptime i state
  end.
Definition mean_uptime (performances : list GroupPerformance) : number :=
  ndiv (foldl (fun s p => nadd s (uptime_30d_pct p)) zero performances) (nz (Z.of_nat (length performances))).
Definition buildUptimeSeries (locale_leb : jstr -> jstr -> bool) (iso : number -> jstr) (today : number) (model : PricingModel) (group : option jstr)
    : list UptimeDayPoint :=
  let performances := buildGroupPerformance locale_leb model in
  match performances with
  | [] => []
  | _ =>
      let target := match group with Some g => if truthy g then List.find (fun p => gp_group p === g) performances else None | None => None end in
      let baseUptime := match target with Some p => uptime_30d_pct p | None => mean_uptime performances end in
      let baseSeed := hashStringToSeed (model_name model ++ js ":up:" ++ default (js "_all") group) in
      uptime_points iso today baseUptime 30 (seededRandom baseSeed)
  end.

Record Uptime : Type := MkUptimeTotal { ut_uptime_pct : number; ut_incidents : number; ut_outage_minutes : number }.
Definition aggregateUptime (points : list UptimeDayPoint) : Uptime :=
  match points with
  | [] => MkUptimeTotal zero zero zero
  | _ =>
      let incidents := foldl (fun s p => nadd s (up_incidents p)) zero points in
      let outageMinutes := foldl (fun s p => nadd s (up_outage_minutes p)) zero points in
      let totalMinutes := nmul (nz (Z.of_nat (length points))) (nz 1440) in
      let uptimePct := nmul (ndiv (nsub totalMinutes outageMinutes) totalMinutes) (nz 100) in
      MkUptimeTotal (ndiv (math_round (nmul uptimePct (nz 1000))) (nz 1000)) incidents outageMinutes
  end.

(** *** Rankings *)

(** [[l[i], l[j]] = [l[j], l[i]]]; [None] when one of them is no position of the list. *)
Definition swap_at {A} (i j : nat) (l : list A) : option (list A) :=
  x ← l !! i; y ← l !! j; Some (<[j := x]> (<[i := y]> l)).
(** The loop for [i] from [n] down to 1. *)
Fixpoint shuffle {A} (n : nat) (l : list A) (state : Z) : option (list A * Z) :=
  match n with
  | O => Some (l, state)
  | S i => let '(j, state) := rand_index (S n) state in l ← swap_at n j l; shuffle i l state
  end.

Record AppRanking : Type := MkRanking {
  ar_rank : nat; ar_app : AppTemplate; ar_growth_pct : number; ar_monthly_tokens : number; ar_initial : jstr
}.
Fixpoint rank_apps (math_pow : number -> number -> number) (baseTokens : number) (idx : nat) (top : list AppTemplate) (state : Z) : list AppRanking :=
  match top with
  | [] => []
  | app :: top =>
      let decay := math_pow (lit "0.78") (nz (Z.of_nat idx)) in
      let '(r, state) := rand state in
      let monthlyTokens := math_round (nmul (nmul baseTokens decay) (nadd (lit "0.85") (nmul r (lit "0.3")))) in
      let '(raw, state) := randomInRange (nz (-28)) (nz 84) state in
      MkRanking (S idx) app (ndiv (math_round (nmul raw (nz 10))) (nz 10)) monthlyTokens (upper (take 1 (ap_name app)))
      :: rank_apps math_pow baseTokens (S idx) top state
  end.
(** [None]: the shuffle left the list. *)
Definition buildAppRankings (math_pow : number -> number -> number) (model : PricingModel) (count : nat) : option (list AppRanking) :=
  let state := seededRandom (hashStringToSeed (model_name model ++ js ":apps")) in
  '(candidates, state) ← shuffle (length APP_TEMPLATES - 1) APP_TEMPLATES state;
  let '(baseTokens, state) := randomInRange (nz 90000000) (nz 320000000) state in
  Some (rank_apps math_pow baseTokens 0 (take count candidates) state).

Definition formatTokenVolume (n : number) : jstr :=
  if negb (is_finite n) || nleb n zero then js "0"
  else if nleb (nz 1000000000) n then toFixed (ndiv n (nz 1000000000)) 1 ++ js "B"
  else if nleb (nz 1000000) n then toFixed (ndiv n (nz 1000000)) 1 ++ js "M"
  else if nleb (nz 1000) n then toFixed (ndiv n (nz 1000)) 1 ++ js "K"
  else num_to_str n.

(** *** Parameters and limits *)

Inductive param_type : Type := Pnumber | Pinteger | Pboolean | Pstring | Pobject | Parray | Penum.
Record SupportedParameter : Type := MkParam {
  sp_name : jstr; sp_type : param_type; sp_defaultValue : option json; sp_range : option jstr; sp_enumValues : list jstr;
  sp_descriptionKey : jstr; sp_required : bool
}.
Definition COMMON_CHAT_PARAMS : list SupportedParameter :=
  [MkParam (js "temperature") Pnumber (Some (JNum (num_of_Z 1))) (Some (js "0 ~ 2")) [] (js "Sampling temperature; lower is more deterministic") false;
   MkParam (js "top_p") Pnumber (Some (JNum (num_of_Z 1))) (Some (js "0 ~ 1")) [] (js "Nucleus sampling probability mass") false;
   MkParam (js "max_tokens") Pinteger None (Some (js ">= 1")) [] (js "Maximum number of tokens in the response") false;
   MkParam (js "frequency_penalty") Pnumber (Some (JNum (num_of_Z 0))) (Some (js "-2 ~ 2")) [] (js "Penalises repetition of frequent tokens") false;
   MkParam (js "presence_penalty") Pnumber (Some (JNum (num_of_Z 0))) (Some (js "-2 ~ 2")) [] (js "Encourages introducing new topics") false;
   MkParam (js "stop") Parray None None [] (js "Up to 4 strings that stop generation") false;
   MkParam (js "seed") Pinteger None None [] (js "Deterministic sampling seed (best-effort)") false;
   MkParam (js "n") Pinteger (Some (JNum (num_of_Z 1))) (Some (js ">= 1")) [] (js "Number of completions to generate") false;
   MkParam (js "stream") Pboolean (Some (JBool false)) None [] (js "Stream tokens via Server-Sent Events") false;
   MkParam (js "response_format") Pobject None None [] (js "Force JSON object or schema-conforming output") false;
   MkParam (js "tools") Parray None None [] (js "Tool / function declarations the model may call") false;
   MkParam (js "tool_choice") Pstring None None [js "auto"; js "none"; js "required"] (js "Tool-choice policy or specific tool name") false;
   MkParam (js "logprobs") Pboolean (Some (JBool false)) None [] (js "Return per-token log probabilities") false;
   MkParam (js "top_logprobs") Pinteger None (Some (js "0 ~ 20")) [] (js "Number of top log probabilities returned per token") false;
   MkParam (js "logit_bias") Pobject None None [] (js "Per-token logit bias map") false;
   MkParam (js "user") Pstring None None [] (js "End-user identifier for abuse monitoring") false].

Definition REASONING_PARAMS : list SupportedParameter :=
  [MkParam (js "reasoning_effort") Penum (Some (JStr (js "medium"))) None [js "low"; js "medium"; js "high"] (js "Controls how much the model thinks before answering") false;
   MkParam (js "max_completion_tokens") Pinteger None (Some (js ">= 1")) [] (js "Maximum tokens including hidden reasoning tokens") false;
   MkParam (js "stop") Parray None None [] (js "Up to 4 strings that stop generation") false;
   MkParam (js "seed") Pinteger None None [] (js "Deterministic sampling seed (best-effort)") false;
   MkParam (js "stream") Pboolean (Some (JBool false)) None [] (js "Stream tokens via Server-Sent Events") false;
   MkParam (js "response_format") Pobject None None [] (js "Force JSON object or schema-conforming output") false;
   MkParam (js "tools") Parray None None [] (js "Tool / function declarations the model may call") false;
   MkParam (js "tool_choice") Pstring None None [js "auto"; js "none"; js "required"] (js "Tool-choice policy or specific tool name") false;
   MkParam (js "user") Pstring None None [] (js "End-user identifier for abuse monitoring") false].

Definition EMBEDDING_PARAMS : list SupportedParameter :=
  [MkParam (js "input") Pstring None None [] (js "Text or array of texts to embed") true;
   MkParam (js "dimensions") Pinteger None (Some (js ">= 1")) [] (js "Truncate embeddings to this many dimensions") false;
   MkParam (js "encoding_format") Penum (Some (JStr (js "float"))) None [js "float"; js "base64"] (js "Wire encoding for the embedding vectors") false;
   MkParam (js "user") Pstring None None [] (js "End-user identifier for abuse monitoring") false].

Definition IMAGE_PARAMS : list SupportedParameter :=
  [MkParam (js "prompt") Pstring None None [] (js "Text description of the desired image") true;
   MkParam (js "size") Penum (Some (JStr (js "1024x1024"))) None [js "256x256"; js "512x512"; js "1024x1024"; js "1024x1792"; js "1792x1024"] (js "Output image size") false;
   MkParam (js "quality") Penum (Some (JStr (js "standard"))) None [js "standard"; js "hd"] (js "Generation quality preset") false;
   MkParam (js "style") Penum (Some (JStr (js "vivid"))) None [js "vivid"; js "natural"] (js "Aesthetic style") false;
   MkParam (js "n") Pinteger (Some (JNum (num_of_Z 1))) (Some (js "1 ~ 10")) [] (js "Number of images to generate") false;
   MkParam (js "response_format") Penum (Some (JStr (js "url"))) None [js "url"; js "b64_json"] (js "How to deliver the resulting image") false].

Definition VIDEO_PARAMS : list SupportedParameter :=
  [MkParam (js "prompt") Pstring None None [] (js "Text description of the desired video") true;
   MkParam (js "duration") Pinteger None (Some (js "1 ~ 60")) [] (js "Video length in seconds") false;
   MkParam (js "aspect_ratio") Penum (Some (JStr (js "16:9"))) None [js "16:9"; js "9:16"; js "1:1"] (js "Output aspect ratio") false;
   MkParam (js "fps") Pinteger (Some (JNum (num_of_Z 24))) (Some (js "8 ~ 60")) [] (js "Frames per second") false].

Definition apiCategoryOf (model : PricingModel) : jstr :=
  let profile := PROFILE_BY_NAME (model_name model) in
  if (profile === js "embedding") || (profile === js "reasoning") then profile
  else if profile === js "image" then
    (if any_of [js "sora"; js "veo"; js "kling"; js "pika"; js "video"; js "wan-"; js "hunyuanvideo"] (lower (model_name model)) then js "video" else js "image")
  else js "chat".
Definition buildSupportedParameters (model : PricingModel) : list SupportedParameter :=
  let cat := apiCategoryOf model in
  if cat === js "reasoning" then REASONING_PARAMS else if cat === js "embedding" then EMBEDDING_PARAMS
  else if cat === js "image" then IMAGE_PARAMS else if cat === js "video" then VIDEO_PARAMS else COMMON_CHAT_PARAMS.

Record RateLimit : Type := MkLimit { rl_group : jstr; rl_rpm : number; rl_tpm : number; rl_rpd : number }.
Definition buildRateLimits (locale_leb : jstr -> jstr -> bool) (model : PricingModel) : list RateLimit :=
  let cat := apiCategoryOf model in
  let baseSeed := hashStringToSeed (model_name model ++ js ":rl") in
  let isHeavy := (cat === js "image") || (cat === js "video") in
  let isLight := cat === js "embedding" in
  let base heavy light other := nz (if isHeavy then heavy else if isLight then light else other) in
  let baseRpm := base 60%Z 5000%Z 500%Z in
  let baseTpm := base 0%Z 1000000%Z 200000%Z in
  let baseRpd := base 1000%Z 100000%Z 10000%Z in
  let scaled x tier unit := nmul (math_round (ndiv (nmul x tier) (nz unit))) (nz unit) in
  List.map (fun group =>
    let '(r, _) := rand (seededRandom (xor32 baseSeed (hashStringToSeed group))) in
    let tier := nadd (lit "0.6") (nmul r (lit "1.4")) in
    MkLimit group (scaled baseRpm tier 10%Z) (if neqb baseTpm zero then zero else scaled baseTpm tier 1000%Z) (scaled baseRpd tier 100%Z))
    (sort_by locale_leb (target_groups model)).
Definition em_dash : jstr := [8212%N].
Definition formatRateLimit (toLocaleString : number -> jstr) (value : number) : jstr :=
  if nleb value zero then em_dash
  else if nleb (nz 1000000) value then toFixed (ndiv value (nz 1000000)) 1 ++ js "M"
  else if nleb (nz 1000) value then toFixed (ndiv value (nz 1000)) (if nleb (nz 10000) value then 0 else 1) ++ js "K"
  else toLocaleString value.

(** ** Facts: [model-metadata.ts] *)

Inductive Modality : Type := M_text | M_image | M_audio | M_video | M_file.
#[export] Instance Modality_eq_dec : EqDecision Modality.
Proof. solve_decision. Defined.
Inductive ModelCapability : Type :=
| C_function_calling | C_streaming | C_vision | C_json_mode | C_structured_output | C_reasoning | C_tools | C_system_prompt | C_web_search
| C_code_interpreter | C_caching | C_embeddings.
#[export] Instance ModelCapability_eq_dec : EqDecision ModelCapability.
Proof. solve_decision. Defined.

Definition TEXT_INPUT_ENDPOINTS : list jstr := [js "openai"; js "openai-response"; js "anthropic"; js "gemini"; js "embeddings"; js "jina-rerank"].
Definition IMAGE_OUTPUT_ENDPOINTS : list jstr := [js "image-generation"].
Definition VIDEO_OUTPUT_ENDPOINTS : list jstr := [js "openai-video"].
Definition EMBEDDING_ENDPOINTS : list jstr := [js "embeddings"; js "jina-rerank"].

(** The patterns ignore case: they are matched with the name in lower case. *)
Definition any_char (units : jstr) : re := RSet (fun c => existsb (N.eqb c) units).
Definition REASONING_NAME_PATTERNS : list re :=
  [RSeqs [RStart; RLit (js "o"); any_char (js "1234"); ROpt (RSeqs [any_char (js "-:_"); RPlus (RSet dot)]); REnd];
   RLit (js "reasoning"); RLit (js "thinking"); RLit (js "qwq"); RSeqs [RLit (js "deepseek-r"); RSet is_digit];
   RSeqs [RLit (js "grok"); RStar (RSet dot); RLit (js "-"); RAlts [RLit (js "thinking"); RLit (js "reasoning")]]].
Definition VISION_NAME_PATTERNS : list re :=
  [RLit (js "vision"); RSeqs [RLit (js "vl"); RAlts [any_char (js "-_"); REnd]]; RLit (js "multimodal"); RLit (js "-omni")].
Definition AUDIO_NAME_PATTERNS : list re := [RLit (js "audio"); RLit (js "whisper"); RLit (js "tts"); RLit (js "voice"); RLit (js "-realtime")].
Definition VIDEO_NAME_PATTERNS : list re := [RLit (js "video"); RLit (js "sora"); RLit (js "veo"); RLit (js "kling"); RLit (js "pika")].
Definition CODE_NAME_PATTERNS : list re := [RLit (js "code"); RLit (js "-coder")].
Definition WEB_SEARCH_PATTERNS : list re :=
  [RSeqs [RLit (js "web"); ROpt (any_char (js "-_ ")); RLit (js "search")]; RLit (js "-online"); RLit (js "perplexity")].

Definition KNOWLEDGE_CUTOFFS : list jstr :=
  [js "2023-04"; js "2023-10"; js "2023-12"; js "2024-04"; js "2024-06"; js "2024-08"; js "2024-10"; js "2024-12"; js "2025-02"; js "2025-04"; js "2025-08"].
Definition PARAM_BUCKETS : list jstr := [js "1.5B"; js "3B"; js "7B"; js "8B"; js "14B"; js "32B"; js "70B"; js "120B"; js "405B"].
Definition CONTEXT_BUCKETS : list Z := [8192; 16384; 32768; 65536; 128000; 200000; 1000000]%Z.
Definition MAX_OUTPUT_BUCKETS : list Z := [2048; 4096; 8192; 16384; 32768; 65536]%Z.
Definition TAG_TO_CAPABILITY : list (jstr * ModelCapability) :=
  [(js "vision", C_vision); (js "multimodal", C_vision); (js "reasoning", C_reasoning); (js "thinking", C_reasoning); (js "tools", C_tools); (js "function", C_function_calling); (js "function-calling", C_function_calling); (js "streaming", C_streaming); (js "json", C_json_mode); (js "structured", C_structured_output); (js "search", C_web_search); (js "code", C_code_interpreter); (js "embedding", C_embeddings)].
Definition TAG_TO_MODALITY : list (jstr * Modality) :=
  [(js "text", M_text); (js "image", M_image); (js "audio", M_audio); (js "video", M_video); (js "file", M_file); (js "document", M_file); (js "pdf", M_file)].

(** [buckets[Math.floor(rand() * buckets.length)]]; [None] for undefined. *)
Definition pickFromBuckets {A} (buckets : list A) (state : Z) : option A * Z :=
  let '(i, state) := rand_index (length buckets) state in (buckets !! i, state).

(** [split(/[,;|\s]+/)] *)
Definition tag_separator (c : N) : bool := (c =? 44)%N || (c =? 59)%N || (c =? 124)%N || is_ws c.
Definition tag_words (tagsString : option jstr) : list jstr :=
  match tagsString with
  | Some s => if truthy s then filter_truthy (List.map (fun t => lower (trim t)) (re_split (RPlus (RSet tag_separator)) s)) else []
  | None => []
  end.
Definition nameMatches (name : jstr) (patterns : list re) : bool := existsb (fun r => re_test r (lower name)) patterns.

Definition ordered_modalities (set : list Modality) : list Modality := List.filter (fun m => mem m set) [M_text; M_image; M_audio; M_video; M_file].
Definition when {A} (b : bool) (l : list A) : list A := if b then l else [].
Definition given_number (x : option number) : bool := match x with Some _ => true | None => false end.

Definition inferInputModalities (model : PricingModel) (tags endpoints : list jstr) (name : jstr) : list Modality :=
  let set := when (Nat.eqb (length endpoints) 0 || existsb (fun e => mem e TEXT_INPUT_ENDPOINTS) endpoints) [M_text]
             ++ when (given_number (image_ratio model) || nameMatches name VISION_NAME_PATTERNS) [M_image]
             ++ when (given_number (audio_ratio model) || nameMatches name AUDIO_NAME_PATTERNS) [M_audio]
             ++ when (nameMatches name VIDEO_NAME_PATTERNS) [M_video]
             ++ omap (fun tag => obj_get tag TAG_TO_MODALITY) tags in
  ordered_modalities (match set with [] => [M_text] | _ => set end).
Definition inferOutputModalities (model : PricingModel) (endpoints : list jstr) (name : jstr) : list Modality :=
  let some l := existsb (fun e => mem e l) endpoints in
  let set := when (some IMAGE_OUTPUT_ENDPOINTS) [M_image] ++ when (some VIDEO_OUTPUT_ENDPOINTS) [M_video] ++ when (some EMBEDDING_ENDPOINTS) [M_text]
             ++ when (given_number (audio_completion_ratio model) || any_of [js "tts"; js "voice"; js "audio-out"] (lower name)) [M_audio] in
  ordered_modalities (match set with [] => [M_text] | _ => set end).
Definition inferCapabilities (model : PricingModel) (tags endpoints : list jstr) (name : jstr) (outputs inputs : list Modality) : list ModelCapability :=
  dedup (when (mem M_text outputs && negb (mem (js "image-generation") endpoints)) [C_streaming; C_system_prompt]
         ++ when (negb (mem (js "image-generation") endpoints) && negb (mem (js "embeddings") endpoints) && negb (mem (js "jina-rerank") endpoints))
              [C_function_calling; C_tools; C_json_mode; C_structured_output]
         ++ when (mem M_image inputs) [C_vision] ++ when (given_number (cache_ratio model)) [C_caching]
         ++ when (existsb (fun e => mem e EMBEDDING_ENDPOINTS) endpoints) [C_embeddings]
         ++ when (nameMatches name REASONING_NAME_PATTERNS) [C_reasoning] ++ when (nameMatches name CODE_NAME_PATTERNS) [C_code_interpreter]
         ++ when (nameMatches name WEB_SEARCH_PATTERNS) [C_web_search] ++ omap (fun tag => obj_get tag TAG_TO_CAPABILITY) tags).

Definition re_gemini : re :=
  RAlts (List.map (fun w => RSeqs [RLit (js "gemini"); RStar (RSet dot); RLit w]) [js "-2"; js "pro"; js "flash"]).
(** The context and the output; an undefined number for a pick that is out of range. *)
Definition inferContextAndOutputs (name : jstr) (endpoints : list jstr) (state : Z) : option Z * option Z * Z :=
  let has w := mem w endpoints in
  let low := lower name in
  if has (js "embeddings") || has (js "jina-rerank") then (Some 8192%Z, Some 0%Z, state)
  else if has (js "image-generation") || has (js "openai-video") then (Some 4096%Z, Some 0%Z, state)
  else if includes (js "1m") low || includes (js "-long") low then (Some 1000000%Z, Some 65536%Z, state)
  else if includes (js "200k") low || includes (js "claude-3") low || includes (js "claude-4") low then (Some 200000%Z, Some 16384%Z, state)
  else if includes (js "128k") low || any_of [js "gpt-4o"; js "gpt-4.1"; js "gpt-5"; js "o1"; js "o3"; js "o4"] low then (Some 128000%Z, Some 16384%Z, state)
  else if re_test re_gemini low then (Some 1000000%Z, Some 8192%Z, state)
  else if any_of [js "gpt-3.5"; js "claude-2"] low then (Some 16384%Z, Some 4096%Z, state)
  else
    let '(context, state) := pickFromBuckets CONTEXT_BUCKETS state in
    let '(output, state) := pickFromBuckets MAX_OUTPUT_BUCKETS state in
    (context, c ← context; o ← output; Some (Z.min c o), state).

(** The month that lies [offset] months after the one of a text [YYYY-MM]. *)
Definition release_of (cutoff : jstr) (offset : number) : jstr :=
  let parts := List.map Number (split_char 45 cutoff) in
  let year := default nan (parts !! 0%nat) in
  let month := default nan (parts !! 1%nat) in
  let releaseMonth := nadd month offset in
  let releaseYear := nadd year (math_floor (ndiv (nsub releaseMonth (nz 1)) (nz 12))) in
  let finalMonth := nadd (nmod (nsub releaseMonth (nz 1)) (nz 12)) (nz 1) in
  num_to_str releaseYear ++ js "-" ++ pad_zeros 2 (num_to_str finalMonth) ++ js "-15".
Definition inferReleaseAndCutoff (state : Z) : option jstr * option jstr * Z :=
  let '(cutoff, state) := pickFromBuckets KNOWLEDGE_CUTOFFS state in
  let '(i, state) := rand_index 6 state in
  (cutoff, (fun c => release_of c (nadd (nz 4) (nz (Z.of_nat i)))) <$> cutoff, state).

(** The fields that a model may say itself. *)
Record KnownFacts : Type := MkKnown {
  kn_context_length : option Z; kn_max_output_tokens : option Z; kn_knowledge_cutoff : option jstr; kn_release_date : option jstr;
  kn_parameter_count : option jstr; kn_input : option (list Modality); kn_output : option (list Modality); kn_capabilities : option (list ModelCapability)
}.
Record ModelMetadata : Type := MkMetadata {
  context_length : option Z; max_output_tokens : option Z; knowledge_cutoff : option jstr; release_date : option jstr; parameter_count : option jstr;
  input_modalities : list Modality; output_modalities : list Modality; capabilities : list ModelCapability
}.
Definition or_known {A} (known inferred : option A) : option A := match known with Some _ => known | None => inferred end.
Definition inferModelMetadata (model : PricingModel) (known : KnownFacts) : ModelMetadata :=
  let name := model_name model in
  let state := seededRandom (hashStringToSeed name) in
  let tags := tag_words (tags model) in
  let endpoints := default [] (supported_endpoint_types model) in
  let inputs := default (inferInputModalities model tags endpoints name) (kn_input known) in
  let outputs := default (inferOutputModalities model endpoints name) (kn_output known) in
  let caps := default (inferCapabilities model tags endpoints name outputs inputs) (kn_capabilities known) in
  let '(context, output, state) := inferContextAndOutputs name endpoints state in
  let '(cutoff, release, state) := inferReleaseAndCutoff state in
  let '(params, _) := pickFromBuckets PARAM_BUCKETS state in
  MkMetadata (or_known (kn_context_length known) context) (or_known (kn_max_output_tokens known) output)
    (or_known (kn_knowledge_cutoff known) cutoff) (or_known (kn_release_date known) release) (or_known (kn_parameter_count known) params)
    inputs outputs caps.

Definition formatTokenCount (one_decimal : number -> jstr) (tokens : number) : jstr :=
  if negb (is_finite tokens) || nleb tokens zero then em_dash
  else if nleb (nz 1000000) tokens then one_decimal (ndiv tokens (nz 1000000)) ++ js "M"
  else if nleb (nz 1000) tokens then one_decimal (ndiv tokens (nz 1000)) ++ js "K"
  else one_decimal tokens.
Definition formatYearMonth (month_year : number -> number -> jstr) (value : jstr) : jstr :=
  if negb (truthy value) then em_dash
  else
    let parts := split_char 45 value in
    let year := Number (default [] (parts !! 0%nat)) in
    let month := match parts !! 1%nat with Some m => Number m | None => nan end in
    if negb (is_finite year) || negb (is_finite month) then value else month_year year month.

(** *** Vendors *)

Definition VENDOR_LABELS : list (jstr * jstr) :=
  [(js "openai", js "OpenAI");
   (js "anthropic", js "Anthropic");
   (js "google", js "Google");
   (js "meta", js "Meta");
   (js "mistral", js "Mistral AI");
   (js "qwen", js "Alibaba (Qwen)");
   (js "deepseek", js "DeepSeek");
   (js "xai", js "xAI");
   (js "cohere", js "Cohere");
   (js "baidu", js "Baidu");
   (js "zhipu", js "Zhipu AI");
   (js "moonshot", js "Moonshot AI");
   (js "minimax", js "MiniMax");
   (js "tencent", js "Tencent");
   (js "bytedance", js "ByteDance");
   (js "midjourney", js "Midjourney");
   (js "stability", js "Stability AI");
   (js "unknown", js "Unknown")].

Definition TOKENIZER_BY_VENDOR : list (jstr * jstr) :=
  [(js "openai", js "o200k_base");
   (js "anthropic", js "Anthropic Claude tokenizer");
   (js "google", js "SentencePiece (Gemini)");
   (js "meta", js "Llama 3 tokenizer");
   (js "mistral", js "Mistral tokenizer (BPE)");
   (js "qwen", js "Qwen tokenizer (tiktoken-compat)");
   (js "deepseek", js "DeepSeek tokenizer (BPE)");
   (js "xai", js "Grok tokenizer (BPE)");
   (js "cohere", js "Cohere tokenizer");
   (js "baidu", js "Ernie tokenizer");
   (js "zhipu", js "GLM tokenizer");
   (js "moonshot", js "Kimi tokenizer");
   (js "minimax", js "ABAB tokenizer");
   (js "tencent", js "Hunyuan tokenizer");
   (js "bytedance", js "Doubao tokenizer")].

Definition HOMEPAGE_BY_VENDOR : list (jstr * jstr) :=
  [(js "openai", js "https://platform.openai.com/docs/models");
   (js "anthropic", js "https://docs.anthropic.com/claude/docs/models-overview");
   (js "google", js "https://ai.google.dev/models");
   (js "meta", js "https://llama.meta.com/");
   (js "mistral", js "https://docs.mistral.ai/getting-started/models/");
   (js "qwen", js "https://qwenlm.github.io/");
   (js "deepseek", js "https://api-docs.deepseek.com/");
   (js "xai", js "https://x.ai/api");
   (js "cohere", js "https://docs.cohere.com/docs/models");
   (js "baidu", js "https://cloud.baidu.com/product/wenxinworkshop");
   (js "zhipu", js "https://open.bigmodel.cn/dev/api");
   (js "moonshot", js "https://platform.moonshot.cn/docs");
   (js "minimax", js "https://platform.minimaxi.com/document/notice");
   (js "tencent", js "https://cloud.tencent.com/document/product/1729");
   (js "bytedance", js "https://www.volcengine.com/docs/82379");
   (js "midjourney", js "https://www.midjourney.com/");
   (js "stability", js "https://platform.stability.ai/")].

Definition LICENSE_BY_VENDOR : list (jstr * (jstr * jstr)) :=
  [(js "openai", (js "Proprietary (commercial)", js "proprietary"));
   (js "anthropic", (js "Proprietary (commercial)", js "proprietary"));
   (js "google", (js "Proprietary (commercial)", js "proprietary"));
   (js "meta", (js "Llama Community License", js "open-weight"));
   (js "mistral", (js "Apache 2.0 / Commercial", js "open-weight"));
   (js "qwen", (js "Tongyi Qianwen License", js "open-weight"));
   (js "deepseek", (js "DeepSeek License", js "open-weight"));
   (js "xai", (js "Proprietary (commercial)", js "proprietary"));
   (js "cohere", (js "Proprietary (commercial)", js "proprietary"));
   (js "baidu", (js "Proprietary (commercial)", js "proprietary"));
   (js "zhipu", (js "GLM-4 License", js "open-weight"));
   (js "moonshot", (js "Proprietary (commercial)", js "proprietary"));
   (js "minimax", (js "Proprietary (commercial)", js "proprietary"));
   (js "tencent", (js "Hunyuan License", js "open-weight"));
   (js "bytedance", (js "Proprietary (commercial)", js "proprietary"));
   (js "midjourney", (js "Proprietary (commercial)", js "proprietary"));
   (js "stability", (js "Stability AI Community License", js "open-weight"));
   (js "unknown", (js "Provider-specific", js "unknown"))].

Definition re_openai : re :=
  RAlts [RSeqs [RStart; RLit (js "gpt")]; RSeqs [RStart; RLit (js "o"); any_char (js "1234")]; RLit (js "davinci"); RLit (js "babbage"); RLit (js "whisper");
         RLit (js "tts"); RSeqs [RLit (js "dall"); ROpt (RSet dot); RLit (js "e")]; RLit (js "sora"); RSeqs [RStart; RLit (js "omni")]].
Definition re_stability : re :=
  RAlts [RSeqs [RStart; RLit (js "sd-")]; RSeqs [RLit (js "stable"); ROpt (any_char (js "-_")); RLit (js "diffusion")]; RLit (js "sdxl")].
Definition VENDOR_WORDS : list (jstr * list jstr) :=
  [(js "anthropic", [js "claude"]); (js "google", [js "gemini"; js "gemma"; js "imagen"; js "veo"; js "palm"]); (js "meta", [js "llama"]);
   (js "mistral", [js "mistral"; js "mixtral"; js "codestral"; js "magistral"; js "pixtral"]); (js "qwen", [js "qwen"; js "qwq"; js "qvq"]);
   (js "deepseek", [js "deepseek"]); (js "xai", [js "grok"]); (js "cohere", [js "command"; js "cohere"; js "aya"]);
   (js "baidu", [js "ernie"; js "wenxin"]); (js "zhipu", [js "glm"; js "chatglm"; js "cogview"; js "cogvideo"]); (js "moonshot", [js "kimi"; js "moonshot"]);
   (js "minimax", [js "abab"; js "minimax"; js "hailuo"]); (js "tencent", [js "hunyuan"]); (js "bytedance", [js "doubao"; js "seed"; js "jimeng"]);
   (js "midjourney", [js "midjourney"; js "niji"])].
Definition detectVendor (name : jstr) : jstr :=
  let n := lower name in
  if re_test re_openai n then js "openai"
  else match List.find (fun vw => any_of vw.2 n) VENDOR_WORDS with
       | Some vw => vw.1
       | None => if re_test re_stability n then js "stability" else js "unknown"
       end.
Definition inferTokenizer (name vendor : jstr) : jstr * option jstr :=
  if vendor === js "openai" then
    (if any_of [js "gpt-3"; js "davinci"; js "babbage"; js "whisper"; js "tts"] (lower name) then (js "cl100k_base", Some (js "Older GPT-3.5 family"))
     else (js "o200k_base", None))
  else (default (js "BPE (vendor-specific)") (obj_get vendor TOKENIZER_BY_VENDOR), None).
Record ApiInfo : Type := MkApiInfo {
  ai_vendor : jstr; ai_vendor_label : option jstr; ai_tokenizer : jstr; ai_tokenizer_note : option jstr; ai_license : option (jstr * jstr);
  ai_retention : number; ai_opt_out : bool; ai_homepage : option jstr
}.
Definition inferApiInfo (model : PricingModel) : ApiInfo :=
  let vendor := detectVendor (model_name model) in
  let tk := inferTokenizer (model_name model) vendor in
  let '(r, _) := rand (seededRandom (hashStringToSeed (model_name model ++ js ":api"))) in
  MkApiInfo vendor (obj_get vendor VENDOR_LABELS) tk.1 tk.2 (obj_get vendor LICENSE_BY_VENDOR)
    (if vendor === js "openai" then nz 30 else math_round (nmul r (nz 90))) true (obj_get vendor HOMEPAGE_BY_VENDOR).

Local Open Scope Z_scope.

(** ** The hash *)

(** The hash on unsigned 32-bit integers. *)
Definition djb2 (s : jstr) : Z := foldl (fun h c => Z.lxor (h * 33 mod 2 ^ 32) (Z.of_N c)) 5381 s.
Definition char_code (c : N) : bool := (c <? 65536)%N.

Lemma seed_step_int h c : - 2 ^ 31 <= h < 2 ^ 31 -> char_code c = true ->
  seed_step (nz h) c = nz (signed32 (Z.lxor (h * 33 mod 2 ^ 32) (Z.of_N c))).
Proof.
  unfold char_code, seed_step, nz, xor32. intros Hh Hc%N.ltb_lt.
  assert (nmul (num_of_Z h) (num_of_Z 33) = num_of_Z (h * 33)) as ->.
  { destruct (Z.eq_dec h 0) as [->|Nh]; [done|]. apply nmul_signed; unfold small_abs; lia. }
  rewrite !int32_of_exact by (unfold small_abs; lia). rewrite (signed32_id (Z.of_N c)) by lia. f_equal.
  rewrite <-signed32_lxor. symmetry. apply signed32_id, lxor_signed; [apply signed32_range|lia].
Qed.

Lemma hash_fold s h : Forall (fun c => char_code c = true) s ->
  foldl seed_step (nz (signed32 h)) s = nz (signed32 (foldl (fun h c => Z.lxor (h * 33 mod 2 ^ 32) (Z.of_N c)) h s)).
Proof.
  revert h. induction s as [|c s IH]; intros h Hs; [done|]. inversion Hs; subst. cbn [foldl].
  rewrite seed_step_int by (done || apply signed32_range). 
  assert (signed32 h * 33 mod 2 ^ 32 = h * 33 mod 2 ^ 32) as -> by (rewrite Z.mul_mod, signed32_congr, <-Z.mul_mod by lia; done).
  by apply IH.
Qed.

Lemma hash_value s : Forall (fun c => char_code c = true) s -> hashStringToSeed s = nz (Z.abs (signed32 (djb2 s))).
Proof.
  intros Hs. unfold hashStringToSeed. change (nz 5381) with (nz (signed32 5381)). rewrite hash_fold by done. fold (djb2 s).
  pose proof (signed32_range (djb2 s)). unfold nz. rewrite int32_of_exact, signed32_id, nabs_exact by (unfold small_abs; lia). done.
Qed.

(** ** The generator *)

Definition lcg (s : Z) : Z := (s * 1664525 + 1013904223) mod 2 ^ 32.
Definition state_ok (s : Z) : Prop := 0 <= s < 2 ^ 32.

Lemma lcg_ok s : state_ok (lcg s).
Proof. apply Z.mod_pos_bound. lia. Qed.

Lemma to_uint32_ok x : state_ok (to_uint32 x).
Proof. unfold state_ok. destruct x; cbn [to_uint32]; try lia. destruct (fraction _ _ _). apply Z.mod_pos_bound. lia. Qed.

Lemma rand_exact s : state_ok s -> rand s = (ndiv (nz (lcg s)) (nz (2 ^ 32)), lcg s).
Proof.
  unfold state_ok. intros Hs. unfold rand, nz. rewrite nmul_exact, nadd_exact by (unfold small_abs; lia).
  rewrite to_uint32_exact by (unfold small_abs; lia). done.
Qed.

Lemma rand_index_exact n s : state_ok s -> 0 < Z.of_nat n < 2 ^ 20 -> rand_index n s = (Z.to_nat (lcg s * Z.of_nat n / 2 ^ 32), lcg s).
Proof.
  intros Hs Hn. unfold rand_index. rewrite rand_exact by done. pose proof (lcg_ok s) as Hl. unfold state_ok in Hl. unfold nz.
  rewrite scaled_floor by done. rewrite int_of_num_exact; [done|].
  assert (0 <= lcg s * Z.of_nat n / 2 ^ 32 < 2 ^ 21); [|unfold small_abs; lia].
  split; [apply Z.div_pos; nia|apply Z.div_lt_upper_bound; nia].
Qed.

Lemma rand_index_below n s : state_ok s -> 0 < Z.of_nat n < 2 ^ 20 -> (fst (rand_index n s) < n)%nat /\ state_ok (snd (rand_index n s)).
Proof.
  intros Hs Hn. rewrite rand_index_exact by done. cbn [fst snd]. split; [|apply lcg_ok]. pose proof (lcg_ok s) as Hl. unfold state_ok in Hl.
  assert (0 <= lcg s * Z.of_nat n / 2 ^ 32 < Z.of_nat n); [|lia]. split; [apply Z.div_pos; nia|apply Z.div_lt_upper_bound; nia].
Qed.

(** ** The shuffle *)

Lemma swap_at_perm {A} i j (l : list A) : (i < length l)%nat -> (j < length l)%nat -> exists l', swap_at i j l = Some l' /\ l' ≡ₚ l.
Proof.
  intros Hi Hj. unfold swap_at. destruct (lookup_lt_is_Some_2 l i Hi) as [x Hx], (lookup_lt_is_Some_2 l j Hj) as [y Hy].
  rewrite Hx, Hy. eexists. split; [done|]. by apply Permutation_insert_swap.
Qed.

Lemma shuffle_perm {A} n (l : list A) s : state_ok s -> (n < length l)%nat -> Z.of_nat n < 2 ^ 19 ->
  exists l' s', shuffle n l s = Some (l', s') /\ l' ≡ₚ l /\ state_ok s'.
Proof.
  revert l s. induction n as [|n IH]; intros l s Hs Hn Hb; [by exists l, s|]. cbn [shuffle].
  pose proof (rand_index_below (S (S n)) s Hs ltac:(lia)) as [Hj Hs']. destruct (rand_index (S (S n)) s) as [j s1]. cbn [fst snd] in *.
  destruct (swap_at_perm (S n) j l) as (l1 & E1 & P1); [lia..|]. rewrite E1. cbn.
  destruct (IH l1 s1 Hs') as (l' & s' & E & P & Hs2); [rewrite P1; lia|lia|]. exists l', s'. split; [done|]. split; [by rewrite P|done].
Qed.

Lemma rank_apps_list math_pow base k top s :
  List.map ar_app (rank_apps math_pow base k top s) = top /\ List.map ar_rank (rank_apps math_pow base k top s) = seq (S k) (length top).
Proof.
  revert k s. induction top as [|app top IH]; intros k s; [done|]. cbn [rank_apps]. destruct (rand s) as [r s1].
  destruct (randomInRange _ _ s1) as [raw s2]. destruct (IH (S k) s2) as [E1 E2]. cbn [List.map length seq]. by rewrite E1, E2.
Qed.

(** The sample ranking of applications is always produced (the random positions of the shuffle never leave the list), has as
    many rows as asked for, at most the 25 known applications, ranked 1, 2, 3 and so on, and no application occurs twice. *)
Lemma rankings_distinct math_pow model count : exists rows, buildAppRankings math_pow model count = Some rows /\
  List.map ar_rank rows = seq 1 (Nat.min count (length APP_TEMPLATES)) /\ NoDup (List.map (fun r => ap_name (ar_app r)) rows) /\
  forall r, In r rows -> In (ar_app r) APP_TEMPLATES.
Proof.
  unfold buildAppRankings. destruct (shuffle_perm (length APP_TEMPLATES - 1) APP_TEMPLATES (seededRandom (hashStringToSeed (model_name model ++ js ":apps"))))
    as (l & s & E & P & _); [apply to_uint32_ok|cbn; lia|cbn; lia|]. rewrite E. cbn [mbind option_bind]. destruct (randomInRange _ _ s) as [base s1].
  eexists. split; [done|]. destruct (rank_apps_list math_pow base 0 (take count l) s1) as [E1 E2]. split; [|split].
  - rewrite E2, length_take, P. done.
  - rewrite <-(List.map_map ar_app ap_name), E1. assert (NoDup (List.map ap_name l)) as ND.
    { rewrite (Permutation_map ap_name P). apply (bool_decide_unpack (NoDup (List.map ap_name APP_TEMPLATES))). vm_compute. exact I. }
    rewrite <-(take_drop count l), List.map_app in ND. by apply NoDup_app in ND as [? _].
  - intros r Hr. apply (in_map ar_app) in Hr. rewrite E1 in Hr. apply list_elem_of_In in Hr. apply elem_of_take in Hr as (i & Hi & _).
    apply list_elem_of_In. rewrite <-P. by eapply list_elem_of_lookup_2.
Qed.

(** ** Facts *)

Definition no_facts : KnownFacts := MkKnown None None None None None None None None.
(** The month [n], counted from year 0, as [YYYY-MM]. *)
Definition month_text (n : Z) : jstr := num_to_str (nz (n / 12)) ++ js "-" ++ pad_zeros 2 (num_to_str (nz (n mod 12 + 1))).

Lemma pick_some {A} (l : list A) s : state_ok s -> 0 < Z.of_nat (length l) < 2 ^ 20 ->
  exists x s', pickFromBuckets l s = (Some x, s') /\ In x l /\ state_ok s'.
Proof.
  intros Hs Hl. unfold pickFromBuckets. pose proof (rand_index_below (length l) s Hs Hl) as [Hi Hs']. destruct (rand_index _ s) as [i s'].
  cbn [fst snd] in *. destruct (lookup_lt_is_Some_2 l i Hi) as [x Hx]. exists x, s'. rewrite Hx. split; [done|]. split; [|done].
  apply list_elem_of_In. by eapply list_elem_of_lookup_2.
Qed.

Lemma context_output name endpoints s : state_ok s ->
  exists c o s', inferContextAndOutputs name endpoints s = (Some c, Some o, s') /\ 0 <= o <= c /\ 4096 <= c /\ state_ok s'.
Proof.
  intros Hs. unfold inferContextAndOutputs. repeat (case_match; [do 3 eexists; split; [done|]; split; [lia|]; split; [lia|done]|]).
  destruct (pick_some CONTEXT_BUCKETS s Hs ltac:(cbn; lia)) as (c & s1 & -> & Hc & Hs1).
  destruct (pick_some MAX_OUTPUT_BUCKETS s1 Hs1 ltac:(cbn; lia)) as (o & s2 & -> & Ho & Hs2). cbn [mbind option_bind].
  exists c, (Z.min c o), s2. split; [done|]. cbn in Hc, Ho. split; [lia|]. split; [lia|done].
Qed.

Lemma releases_checked : forallb (fun c => existsb (fun n => (c === month_text n) &&
  forallb (fun i => release_of c (nadd (nz 4) (nz (Z.of_nat i))) === month_text (n + 4 + Z.of_nat i) ++ js "-15") (seq 0 6))
  (List.map (fun k => 24240 + Z.of_nat k) (seq 0 120))) KNOWLEDGE_CUTOFFS = true.
Proof. vm_compute. reflexivity. Qed.

Lemma release_cutoff s : state_ok s -> exists n i s', inferReleaseAndCutoff s = (Some (month_text n), Some (month_text (n + i) ++ js "-15"), s') /\
  4 <= i <= 9 /\ state_ok s'.
Proof.
  intros Hs. unfold inferReleaseAndCutoff. destruct (pick_some KNOWLEDGE_CUTOFFS s Hs ltac:(cbn; lia)) as (c & s1 & -> & Hc & Hs1).
  pose proof (rand_index_below 6 s1 Hs1 ltac:(lia)) as [Hi Hs2]. destruct (rand_index 6 s1) as [i s2]. cbn [fst snd fmap option_fmap option_map] in *.
  pose proof releases_checked as Hr. rewrite forallb_forall in Hr. apply Hr in Hc. apply existsb_exists in Hc as (n & _ & Hn).
  apply andb_true_iff in Hn as [->%bool_decide_eq_true Hn]. rewrite forallb_forall in Hn. specialize (Hn i ltac:(apply in_seq; lia)). apply bool_decide_eq_true in Hn.
  exists n, (4 + Z.of_nat i), s2. rewrite Hn, Z.add_assoc. split; [done|]. split; [lia|done].
Qed.

Lemma ordered_nonempty set : set <> [] -> ordered_modalities set <> [].
Proof.
  intros Hs E. destruct set as [|m set]; [done|]. assert (In m (ordered_modalities (m :: set))) as Hm; [|by rewrite E in Hm].
  apply filter_In. split; [destruct m; cbn; tauto|]. by apply mem_true, list_elem_of_here.
Qed.

(** What the details of a model say when the model says nothing itself is defined and consistent: the context holds at least 4096
    tokens and the longest answer fits in it, the release date is the fifteenth of a month four to nine months after the month of the
    knowledge cutoff, across the turn of the year too, the parameter count is one of the listed ones, and some input and some output
    modality are named. *)
Lemma facts_consistent model : let md := inferModelMetadata model no_facts in
  (exists c o, context_length md = Some c /\ max_output_tokens md = Some o /\ 0 <= o <= c /\ 4096 <= c) /\
  (exists n i, knowledge_cutoff md = Some (month_text n) /\ release_date md = Some (month_text (n + i) ++ js "-15") /\ 4 <= i <= 9) /\
  (exists p, parameter_count md = Some p /\ In p PARAM_BUCKETS) /\ input_modalities md <> [] /\ output_modalities md <> [].
Proof.
  unfold inferModelMetadata. cbn [kn_input kn_output kn_capabilities default no_facts].
  destruct (context_output (model_name model) (default [] (supported_endpoint_types model)) (seededRandom (hashStringToSeed (model_name model))))
    as (c & o & s1 & -> & Ho & Hc & Hs1); [apply to_uint32_ok|].
  destruct (release_cutoff s1 Hs1) as (n & i & s2 & -> & Hi & Hs2). destruct (pick_some PARAM_BUCKETS s2 Hs2 ltac:(cbn; lia)) as (p & s3 & -> & Hp & _).
  cbn -[inferInputModalities inferOutputModalities PARAM_BUCKETS]. split; [by exists c, o|]. split; [by exists n, i|]. split; [by exists p|].
  split; apply ordered_nonempty; by case_match.
Qed.

(** The hash of a name is the absolute value of the signed reading of the 32-bit djb2 hash that multiplies by 33 and combines by
    exclusive or: the products of the loop, made in doubles, are exact, so the same name has the same seed everywhere. *)
Lemma hash_is_djb2 s : Forall (fun c => char_code c = true) s ->
  hashStringToSeed s = num_of_Z (Z.abs (signed32 (djb2 s))) /\ 0 <= Z.abs (signed32 (djb2 s)) <= 2 ^ 31.
Proof. intros Hs. split; [by apply hash_value|]. pose proof (signed32_range (djb2 s)). lia. Qed.
Lemma hash_is_djb2_witness : hashStringToSeed (js "gpt-4o") = num_of_Z (Z.abs (signed32 (djb2 (js "gpt-4o")))) /\ djb2 (js "gpt-4o") <> 0.
Proof. split; [|by vm_compute]. apply (proj1 (hash_is_djb2 (js "gpt-4o") ltac:(repeat constructor))). Defined.

(** The generator in doubles is the linear congruential generator on 32-bit integers: no step of it is rounded, and a position it
    draws for a list of up to [2^20] entries is [state * n / 2^32], which is a position of the list. *)
Lemma random_index n s : 0 <= s < 2 ^ 32 -> 0 < Z.of_nat n < 2 ^ 20 ->
  rand_index n s = (Z.to_nat (lcg s * Z.of_nat n / 2 ^ 32), lcg s) /\ (fst (rand_index n s) < n)%nat /\ 0 <= snd (rand_index n s) < 2 ^ 32.
Proof. intros Hs Hn. split; [by apply rand_index_exact|by apply rand_index_below]. Qed.
Lemma random_index_witness : (fst (rand_index 25 4294967295) < 25)%nat /\ lcg 4294967295 = 1012239698.
Proof. split; [|reflexivity]. apply (random_index 25 4294967295); lia. Defined.

(** The seed of this name is [2^31], which does not fit in 31 bits. *)
Lemma hash_32_bits : hashStringToSeed (js "whoslmg") = num_of_Z (2 ^ 31).
Proof. vm_compute. reflexivity. Qed.
