(* ===== verification/HttpClient.v ===== *)
(** * The HTTP client and the store of the user

    [lib/api.ts], [stores/auth-store.ts] and [features/auth/lib/storage.ts]: the client that every request goes through, with the
    sharing of equal requests that are under way, the header that names the user, the notices and the sign-out of its interceptors,
    and the store of the signed-in user, which is mirrored in the local storage.

    A promise is the number of the request it belongs to; the code that waits for one is a value of the type [T] in the list of
    callers, and comes back when the answer does.  The storage of the browser is a list of names and texts.  Where the browser denies
    it, the store cannot be made ([denied_storage_crashes]), so the other definitions have one. *)
From S2P Require Import Prelude Json JsonRoundtrip Settings.
Local Open Scope js_scope.

Abbreviation storage := (list (jstr * jstr)).

(** ** Requests and answers *)

Record request_config : Type := MkConfig {
  cf_params : option (list (jstr * json)); cf_disableDuplicate : bool; cf_skipBusinessError : bool; cf_skipErrorHandler : bool
}.
Definition plain_config : request_config := MkConfig None false false false.

(** A request as it is sent; [rq_user] is the header [New-Api-User]. *)
Record http_request : Type := MkRequest {
  rq_method : jstr; rq_url : jstr; rq_config : request_config; rq_body : option json; rq_user : option jstr
}.

(** The data of a response, or an error: its status and data, when there was a response, and its own message. *)
Inductive reply : Type :=
| Response (data : json)
| RequestError (status : option Z) (data : option json) (message : option jstr).

(** [v?.k] *)
Definition at_prop (k : jstr) (v : option json) : option json := match v with Some (JObj o) => obj_get k o | _ => None end.
(** [v || w] *)
Definition or_else_json (v : option json) (w : json) : json := match v with Some x => if json_truthy x then x else w | None => w end.
Definition truthy_json (v : option json) : bool := match v with Some x => json_truthy x | None => false end.

Inductive toast_kind : Type := ToastSuccess | ToastError | ToastInfo.
Inductive browser_effect : Type :=
| Toast (k : toast_kind) (text : json)
| Navigate (to : jstr) (search : option jstr)
| EnterPage (href : jstr) (user : option json)
| OpenUrl (url : jstr)
| ReplaceLocation (url : jstr)
| ReloadPage
| CloseWindow
| ChangeLanguage (language : jstr).
Definition toast_error (s : jstr) : browser_effect := Toast ToastError (JStr s).
Definition toast_success (s : jstr) : browser_effect := Toast ToastSuccess (JStr s).
Definition toast_info (s : jstr) : browser_effect := Toast ToastInfo (JStr s).

(** ** The state *)

Section client.
Context {T : Type}.

Record Client : Type := MkClient {
  cl_local : storage; cl_tab : storage; cl_user : option json; cl_inflight : list (jstr * nat); cl_open : list (nat * http_request); cl_next : nat;
  cl_callers : list (nat * T); cl_out : list browser_effect
}.

Definition set_local (local : storage) (c : Client) : Client :=
  MkClient local (cl_tab c) (cl_user c) (cl_inflight c) (cl_open c) (cl_next c) (cl_callers c) (cl_out c).
Definition set_tab (tab : storage) (c : Client) : Client :=
  MkClient (cl_local c) tab (cl_user c) (cl_inflight c) (cl_open c) (cl_next c) (cl_callers c) (cl_out c).
Definition set_user (user : option json) (c : Client) : Client :=
  MkClient (cl_local c) (cl_tab c) user (cl_inflight c) (cl_open c) (cl_next c) (cl_callers c) (cl_out c).
Definition set_traffic (inflight : list (jstr * nat)) (open : list (nat * http_request)) (next : nat) (callers : list (nat * T)) (c : Client) : Client :=
  MkClient (cl_local c) (cl_tab c) (cl_user c) inflight open next callers (cl_out c).
Definition emit_effect (e : browser_effect) (c : Client) : Client :=
  MkClient (cl_local c) (cl_tab c) (cl_user c) (cl_inflight c) (cl_open c) (cl_next c) (cl_callers c) (cl_out c ++ [e]).

(** ** The store: [auth-store.ts] *)

(** The user that a new page starts with, and the storage afterwards; [None] when the browser denies the storage.  The handler of the
    error uses the storage again. *)
Definition initUser (local : option storage) : outcome (option json * storage) :=
  match local with
  | None => Throw
  | Some local =>
      match obj_get (js "user") local with
      | None => Ret (None, local)
      | Some saved =>
          if negb (truthy saved) then Ret (None, local)
          else match JSON_parse saved with
               | Ret v => Ret (Some v, local)
               | Throw => Ret (None, obj_delete (js "user") local)
               end
      end
  end.
Definition setUser (user : option json) (c : Client) : Client :=
  let local := match user with
               | Some u => if json_truthy u then obj_set (js "user") (JSON_stringify u) (cl_local c) else obj_delete (js "user") (cl_local c)
               | None => obj_delete (js "user") (cl_local c)
               end in
  set_user user (set_local local c).
Definition reset_user (c : Client) : Client := set_user None (set_local (obj_delete (js "user") (cl_local c)) c).

(** ** The storage: [storage.ts] *)

Definition saveUserId (userId : jstr) (c : Client) : Client := set_local (obj_set (js "uid") userId (cl_local c)) c.
Definition getUserId (c : Client) : option jstr := obj_get (js "uid") (cl_local c).
Definition removeUserId (c : Client) : Client := set_local (obj_delete (js "uid") (cl_local c)) c.
Definition getAffiliateCode (c : Client) : jstr := default [] (obj_get (js "aff") (cl_local c)).
Definition saveAffiliateCode (code : jstr) (c : Client) : Client := set_local (obj_set (js "aff") code (cl_local c)) c.

Definition setWelcomeHandoff (data : json) (c : Client) : Client :=
  set_tab (obj_set (js "dr_welcome_handoff") (JSON_stringify data) (cl_tab c)) c.
Definition takeWelcomeHandoff (c : Client) : option json * Client :=
  match obj_get (js "dr_welcome_handoff") (cl_tab c) with
  | None => (None, c)
  | Some raw =>
      if negb (truthy raw) then (None, c)
      else (match JSON_parse raw with Ret v => Some v | Throw => None end, set_tab (obj_delete (js "dr_welcome_handoff") (cl_tab c)) c)
  end.

Record AcquisitionMeta : Type := MkMeta { am_channel : jstr; am_timezone : jstr }.
Definition fallback_meta : AcquisitionMeta := MkMeta (js "direct") [].
Definition meta_json (m : AcquisitionMeta) : json := JObj [(js "channel", JStr (am_channel m)); (js "timezone", JStr (am_timezone m))].
(** The source and the medium of the address, the host of the referrer ([None]: no valid one) and the zone of the browser. *)
Definition captureAcquisitionMeta (utmSource utmMedium refHost : option jstr) (timeZone : jstr) (c : Client) : AcquisitionMeta * Client :=
  let or a b := match a with Some s => str_or s b | None => b end in
  let meta := MkMeta (or utmSource (or utmMedium (or refHost (js "direct")))) timeZone in
  (meta, set_tab (obj_set (js "dr_acquisition_meta") (JSON_stringify (meta_json meta)) (cl_tab c)) c).
(** What is stored, or the text of the fallback; the fields are read by the caller. *)
Definition readAcquisitionMeta (c : Client) : json :=
  match obj_get (js "dr_acquisition_meta") (cl_tab c) with
  | None => meta_json fallback_meta
  | Some raw => if negb (truthy raw) then meta_json fallback_meta else try_catch (JSON_parse raw) (meta_json fallback_meta)
  end.

(** ** The client: [api.ts] *)

Definition getCommonHeaders (c : Client) : list (jstr * jstr) :=
  (js "Content-Type", js "application/json") :: match getUserId c with Some uid => if truthy uid then [(js "New-Api-User", uid)] else [] | None => [] end.

(** A new request; the header is added by the interceptor. *)
Definition http_send (method url : jstr) (config : request_config) (body : option json) (c : Client) : nat * Client :=
  let uid := match getUserId c with Some u => if truthy u then Some u else None | None => None end in
  (cl_next c, set_traffic (cl_inflight c) (cl_open c ++ [(cl_next c, MkRequest method url config body uid)]) (S (cl_next c)) (cl_callers c) c).
Definition get_key (url : jstr) (config : request_config) : jstr :=
  url ++ js "?" ++ match cf_params config with Some p => JSON_stringify (JObj p) | None => js "{}" end.
Definition api_get (url : jstr) (config : request_config) (c : Client) : nat * Client :=
  if cf_disableDuplicate config then http_send (js "GET") url config None c
  else
    let key := get_key url config in
    match obj_get key (cl_inflight c) with
    | Some id => (id, c)
    | None => let '(id, c) := http_send (js "GET") url config None c in
              (id, set_traffic (cl_inflight c ++ [(key, id)]) (cl_open c) (cl_next c) (cl_callers c) c)
    end.
Definition api_post (url : jstr) (body : json) (config : request_config) (c : Client) : nat * Client := http_send (js "POST") url config (Some body) c.

(** [await promise] *)
Definition await (p : nat * Client) (t : T) : Client :=
  let '(id, c) := p in set_traffic (cl_inflight c) (cl_open c) (cl_next c) (cl_callers c ++ [(id, t)]) c.

(** The interceptors of an answer. *)
Definition on_response (config : request_config) (data : json) (c : Client) : Client :=
  if cf_skipBusinessError config then c
  else match at_prop (js "success") (Some data) with
       | Some (JBool false) => emit_effect (Toast ToastError (or_else_json (at_prop (js "message") (Some data)) (JStr (js "Request failed")))) c
       | _ => c
       end.
Definition on_failure (config : request_config) (status : option Z) (data : option json) (message : option jstr) (c : Client) : Client :=
  if cf_skipErrorHandler config then c
  else if bool_decide (status = Some 401%Z) then reset_user (emit_effect (toast_error (js "Session expired!")) c)
  else emit_effect (Toast ToastError (or_else_json (at_prop (js "message") data) (or_else_json (JStr <$> message) (JStr (js "Request error"))))) c.
Definition intercept (config : request_config) (r : reply) (c : Client) : Client :=
  match r with
  | Response data => on_response config data c
  | RequestError status data message => on_failure config status data message c
  end.

(** [finally(() => inFlightGet.delete(key))], of a request that was shared. *)
Definition finally (rq : http_request) (inflight : list (jstr * nat)) : list (jstr * nat) :=
  if (rq_method rq === js "GET") && negb (cf_disableDuplicate (rq_config rq)) then obj_delete (get_key (rq_url rq) (rq_config rq)) inflight else inflight.
(** A request is answered: the interceptors, the end of the sharing, and the callers that go on, in order. *)
Definition settle_request (id : nat) (r : reply) (c : Client) : option (list T * Client) :=
  match List.find (fun p => Nat.eqb p.1 id) (cl_open c) with
  | None => None
  | Some (_, rq) =>
      let c := intercept (rq_config rq) r c in
      let mine := fun p : nat * T => Nat.eqb p.1 id in
      Some (List.map snd (List.filter mine (cl_callers c)),
            set_traffic (finally rq (cl_inflight c)) (List.filter (fun p => negb (Nat.eqb p.1 id)) (cl_open c))
              (cl_next c) (List.filter (fun p => negb (mine p)) (cl_callers c)) c)
  end.

(** [getSelf()] *)
Definition self_config : request_config := MkConfig None false false true.
Definition getSelf (c : Client) : nat * Client := api_get (js "/api/user/self") self_config c.

End client.
Arguments Client T : clear implicits.

(** ** Who gets which answer *)

(** What a caller asked for: the address and the parameters. *)
Record asked_for : Type := MkAsk { as_url : jstr; as_params : option (list (jstr * json)) }.
Definition plain_url (url : jstr) : bool := forallb (fun c => negb (c =? 123)%N) url.
Definition params_ok (p : option (list (jstr * json))) : Prop := json_ok (JObj (default [] p)).
Definition same_ask (rq : http_request) (a : asked_for) : Prop :=
  rq_url rq = as_url a /\ default [] (cf_params (rq_config rq)) = default [] (as_params a).

(** The runs of the client: shared and unshared reads, writes, and answers in any order. *)
Inductive client_run : Client asked_for -> Prop :=
| run_start local tab user : client_run (MkClient local tab user [] [] 0 [] [])
| run_get url config c : plain_url url = true -> params_ok (cf_params config) -> client_run c ->
    client_run (await (api_get url config c) (MkAsk url (cf_params config)))
| run_post url body config c : client_run c -> client_run (await (api_post url body config c) (MkAsk url (cf_params config)))
| run_settled id r c ts c' : client_run c -> settle_request id r c = Some (ts, c') -> client_run c'.

Definition key_text (config : request_config) : jstr := JSON_stringify (JObj (default [] (cf_params config))).
Lemma get_key_text url config : get_key url config = url ++ 63%N :: key_text config.
Proof. unfold get_key, key_text. by destruct (cf_params config). Qed.

Lemma object_text_brace o : exists t, JSON_stringify (JObj o) = 123%N :: t.
Proof. by eexists. Qed.

(** An address without a brace and the parameters can be read off the key. *)
Lemma split_at_brace u v t t' : plain_url u = true -> plain_url v = true -> u ++ 63%N :: 123%N :: t = v ++ 63%N :: 123%N :: t' -> u = v /\ t = t'.
Proof.
  revert v. induction u as [|c u IH]; intros [|d v] Hu Hv; cbn in *; try (intros; simplify_eq; done).
  - intros E. inversion E; subst. destruct v as [|e v]; cbn in *; [simplify_eq|]. inversion H1; subst. by cbn in Hv.
  - intros E. inversion E; subst. destruct u as [|e u]; cbn in *; [simplify_eq|]. inversion H1; subst. by cbn in Hu.
  - intros E. inversion E; subst. apply andb_true_iff in Hu as [_ Hu]. apply andb_true_iff in Hv as [_ Hv].
    destruct (IH v Hu Hv H1) as [-> ->]. done.
Qed.

Lemma key_inj url config url' config' :
  plain_url url = true -> plain_url url' = true -> params_ok (cf_params config) -> params_ok (cf_params config') ->
  get_key url config = get_key url' config' -> url = url' /\ default [] (cf_params config) = default [] (cf_params config').
Proof.
  intros Hu Hu' Hp Hp'. rewrite !get_key_text. unfold key_text.
  destruct (object_text_brace (default [] (cf_params config))) as [t Ht], (object_text_brace (default [] (cf_params config'))) as [t' Ht'].
  rewrite Ht, Ht'. intros E. apply split_at_brace in E as [-> ->]; [|done..]. split; [done|]. rewrite <-Ht' in Ht.
  pose proof (parse_stringify _ Hp) as E1. rewrite Ht, (parse_stringify _ Hp') in E1. by inversion E1.
Qed.

(** What holds of the numbers, the shared requests and the callers. *)
Definition shared (rq : http_request) : bool := (rq_method rq === js "GET") && negb (cf_disableDuplicate (rq_config rq)).
Record client_ok (c : Client asked_for) : Prop := MkOk {
  ok_ids : NoDup (cl_open c).*1 /\ Forall (fun p => p.1 < cl_next c) (cl_open c);
  ok_inflight : forall key id, (key, id) ∈ cl_inflight c <->
    exists rq, (id, rq) ∈ cl_open c /\ shared rq = true /\ key = get_key (rq_url rq) (rq_config rq);
  ok_keys : NoDup (cl_inflight c).*1;
  ok_plain : forall id rq, (id, rq) ∈ cl_open c -> shared rq = true -> plain_url (rq_url rq) = true /\ params_ok (cf_params (rq_config rq));
  ok_callers : forall id a, (id, a) ∈ cl_callers c -> exists rq, (id, rq) ∈ cl_open c /\ same_ask rq a
}.

Lemma fst_unique {A B} (l : list (A * B)) k a b : NoDup l.*1 -> (k, a) ∈ l -> (k, b) ∈ l -> a = b.
Proof.
  induction l as [|[j c] l IH]; [by intros _ H%elem_of_nil|]. cbn. rewrite NoDup_cons, !elem_of_cons. intros [Hj Hn] [E|Ha] [E'|Hb]; simplify_eq; [done| | |by apply IH].
  - destruct Hj. apply list_elem_of_fmap. by exists (j, b).
  - destruct Hj. apply list_elem_of_fmap. by exists (j, a).
Qed.

Lemma elem_delete {V} k j (v : V) o : (j, v) ∈ obj_delete k o <-> j <> k /\ (j, v) ∈ o.
Proof.
  unfold obj_delete. rewrite !list_elem_of_In, filter_In. cbn [fst]. split.
  - intros [H E%negb_true_iff%js_eqb_false]. done.
  - intros [E H]. by rewrite js_eqb_ne.
Qed.
Lemma delete_keys {V} k (o : list (jstr * V)) : NoDup o.*1 -> NoDup (obj_delete k o).*1.
Proof.
  induction o as [|[j v] o IH]; [done|]. cbn [obj_delete List.filter fst fmap list_fmap]. rewrite NoDup_cons. intros [Hj Hn].
  destruct (_ !== _); [|by apply IH]. cbn. rewrite NoDup_cons. split; [|by apply IH]. intros H. apply Hj.
  apply list_elem_of_fmap in H as ([j' w] & E & H). apply elem_delete in H as [_ H]. apply list_elem_of_fmap. by exists (j', w).
Qed.
Lemma elem_others {B} id i (b : B) l : (i, b) ∈ List.filter (fun p => negb (Nat.eqb p.1 id)) l <-> i <> id /\ (i, b) ∈ l.
Proof. rewrite !list_elem_of_In, filter_In. cbn. destruct (Nat.eqb_spec i id); cbn; intuition congruence. Qed.

(** A new request. *)
Lemma sent_ok c rq : client_ok c ->
  (shared rq = true -> get_key (rq_url rq) (rq_config rq) ∉ (cl_inflight c).*1 /\ plain_url (rq_url rq) = true /\ params_ok (cf_params (rq_config rq))) ->
  client_ok (set_traffic (cl_inflight c ++ if shared rq then [(get_key (rq_url rq) (rq_config rq), cl_next c)] else [])
               (cl_open c ++ [(cl_next c, rq)]) (S (cl_next c)) (cl_callers c) c).
Proof.
  intros [[Hd Hl] Hi Hk Hp Hc] Hn. rewrite Forall_forall in Hl.
  assert (forall i r, (i, r) ∈ cl_open c ++ [(cl_next c, rq)] <-> (i, r) ∈ cl_open c \/ i = cl_next c /\ r = rq) as Ho.
  { intros i r. rewrite elem_of_app, list_elem_of_singleton. intuition congruence. }
  constructor; cbn [set_traffic cl_open cl_inflight cl_next cl_callers].
  - split.
    + rewrite fmap_app. apply NoDup_app. split; [done|]. split; [|cbn; apply NoDup_singleton].
      intros i H. cbn. rewrite list_elem_of_singleton. intros ->. apply list_elem_of_fmap in H as ([i r] & E & H). cbn in E. subst. apply Hl in H. cbn in H. lia.
    + apply Forall_forall. intros [i r]. rewrite Ho. cbn. intros [H|[-> _]]; [apply Hl in H; cbn in H; lia|lia].
  - intros key id. rewrite elem_of_app, Hi. split.
    + intros [(r & H & Hs & ->)|H]; [exists r; rewrite Ho; tauto|]. destruct (shared rq) eqn:Es; [|by apply elem_of_nil in H].
      apply list_elem_of_singleton in H. simplify_eq. exists rq. rewrite Ho. tauto.
    + intros (r & H & Hs & ->). apply Ho in H as [H|[-> ->]]; [left; by exists r|]. right. rewrite Hs. by apply list_elem_of_singleton.
  - rewrite fmap_app. destruct (shared rq) eqn:Es; [|by rewrite app_nil_r]. apply NoDup_app. split; [done|]. split; [|apply NoDup_singleton].
    intros k H. cbn. rewrite list_elem_of_singleton. intros ->. by destruct (Hn eq_refl).
  - intros id r H Hs. apply Ho in H as [H|[-> ->]]; [by eapply Hp|]. by apply Hn.
  - intros id a (r & H & Hs)%Hc. exists r. rewrite Ho. tauto.
Qed.

Lemma await_ok c id rq a : client_ok c -> (id, rq) ∈ cl_open c -> same_ask rq a -> client_ok (await (id, c) a).
Proof.
  intros [Hd Hi Hk Hp Hc] Ho Hs. constructor; try done. intros i b. cbn. rewrite elem_of_app, list_elem_of_singleton.
  intros [H|H]; [by apply Hc|]. simplify_eq. by exists rq.
Qed.

Lemma get_ok url config c : plain_url url = true -> params_ok (cf_params config) -> client_ok c ->
  client_ok (await (api_get url config c) (MkAsk url (cf_params config))).
Proof.
  intros Hu Hp Hc. unfold api_get. set (rq := MkRequest (js "GET") url config None (match getUserId c with Some u => if truthy u then Some u else None | None => None end)).
  assert (forall l, (cl_next c, rq) ∈ cl_open (set_traffic l (cl_open c ++ [(cl_next c, rq)]) (S (cl_next c)) (cl_callers c) c)) as Hin.
  { intros l. cbn. rewrite elem_of_app, list_elem_of_singleton. by right. }
  destruct (cf_disableDuplicate config) eqn:Ed; [|destruct (obj_get (get_key url config) (cl_inflight c)) as [id|] eqn:Eg].
  - pose proof (sent_ok c rq Hc) as H. unfold shared in H. cbn [rq rq_method rq_config] in H. rewrite Ed in H. cbn [negb] in H. rewrite andb_false_r, app_nil_r in H.
    unfold http_send. fold rq. eapply (await_ok _ _ rq); [by apply H|apply Hin|done].
  - apply obj_get_elem in Eg. apply (ok_inflight c Hc) in Eg as (r & Ho & Hs & E). destruct (ok_plain c Hc id r Ho Hs) as [H1 H2].
    apply key_inj in E as [E1 E2]; [|done..]. eapply (await_ok _ _ r); [done|done|]. by split; cbn.
  - unfold http_send. fold rq. cbn [cl_inflight cl_open cl_next cl_callers set_traffic]. pose proof (sent_ok c rq Hc) as H. unfold shared in H. cbn [rq rq_method rq_config rq_url] in H.
    rewrite Ed in H. cbn [negb] in H. rewrite js_eqb_refl in H. cbn [andb] in H. eapply (await_ok _ _ rq); [|apply (Hin _)|done]. apply H. intros _. split; [|done].
    apply obj_has_false. unfold obj_has. by rewrite Eg.
Qed.

Lemma post_ok url body config c : client_ok c -> client_ok (await (api_post url body config c) (MkAsk url (cf_params config))).
Proof.
  intros Hc. unfold api_post, http_send.
  set (rq := MkRequest (js "POST") url config (Some body) (match getUserId c with Some u => if truthy u then Some u else None | None => None end)).
  pose proof (sent_ok c rq Hc) as H. rewrite app_nil_r in H. eapply (await_ok _ _ rq); [by apply H| |done]. cbn. rewrite elem_of_app, list_elem_of_singleton. by right.
Qed.

(** The interceptors leave the requests and the callers alone. *)
Lemma intercept_traffic {T} config r (c : Client T) : let c' := intercept config r c in
  cl_inflight c' = cl_inflight c /\ cl_open c' = cl_open c /\ cl_next c' = cl_next c /\ cl_callers c' = cl_callers c.
Proof. unfold intercept, on_response, on_failure. repeat case_match; done. Qed.

Lemma settled_at {T} id r (c : Client T) ts c' : settle_request id r c = Some (ts, c') ->
  exists rq, (id, rq) ∈ cl_open c /\ ts = List.map snd (List.filter (fun p => Nat.eqb p.1 id) (cl_callers c)) /\
    cl_inflight c' = finally rq (cl_inflight c) /\ cl_open c' = List.filter (fun p => negb (Nat.eqb p.1 id)) (cl_open c) /\
    cl_next c' = cl_next c /\ cl_callers c' = List.filter (fun p => negb (Nat.eqb p.1 id)) (cl_callers c).
Proof.
  unfold settle_request. destruct (List.find _ _) as [[i rq]|] eqn:E; [|done]. apply find_some in E as [Hin Hi%Nat.eqb_eq]. cbn in Hi. subst i.
  destruct (intercept_traffic (rq_config rq) r c) as (H1 & H2 & H3 & H4). intros Es. injection Es as <- <-. exists rq. cbn [cl_inflight cl_open cl_next cl_callers set_traffic].
  rewrite H1, H2, H3, H4. split; [by apply list_elem_of_In|done].
Qed.

Lemma filter_sub {A} (f : A -> bool) l : sublist (List.filter f l) l.
Proof. induction l as [|x l IH]; [constructor|]. cbn. destruct (f x); by constructor. Qed.

Lemma settled_ok id r c ts c' : client_ok c -> settle_request id r c = Some (ts, c') -> client_ok c'.
Proof.
  intros [[Hd Hl] Hi Hk Hp Hc] (rq & Hin & _ & Ei & Eo & En & Ec)%settled_at.
  assert (forall i q, (i, q) ∈ cl_open c' <-> i <> id /\ (i, q) ∈ cl_open c) as Ho by (intros; rewrite Eo; apply elem_others).
  constructor; rewrite ?En.
  - split.
    + rewrite Eo. apply (sublist_NoDup _ (cl_open c).*1); [done|]. apply fmap_sublist, filter_sub.
    + apply Forall_forall. intros [i q] [_ H]%Ho. rewrite Forall_forall in Hl. by apply Hl in H.
  - intros key i. rewrite Ei. unfold finally. fold (shared rq). destruct (shared rq) eqn:Es.
    + rewrite elem_delete, Hi. split.
      * intros [Hne (q & Hq & Hs & ->)]. exists q. rewrite Ho. split; [|done]. split; [|done]. intros ->. by rewrite (fst_unique _ _ _ _ Hd Hin Hq) in Hne.
      * intros (q & [Hne Hq]%Ho & Hs & ->). split; [|by exists q]. intros E. apply Hne.
        apply (fst_unique (cl_inflight c) (get_key (rq_url q) (rq_config q))); [done|apply Hi; by exists q|apply Hi; exists rq; by rewrite E].
    + rewrite Hi. split; intros (q & Hq & Hs & ->); exists q; rewrite Ho in *; [|tauto]. split; [|done]. split; [|done].
      intros ->. rewrite (fst_unique _ _ _ _ Hd Hin Hq), Hs in Es. done.
  - rewrite Ei. unfold finally. case_match; [by apply delete_keys|done].
  - intros i q [_ H]%Ho Hs. by eapply Hp.
  - intros i a. rewrite Ec, elem_others. intros [Hne (q & Hq & Ha)%Hc]. exists q. rewrite Ho. tauto.
Qed.

Lemma run_ok c : client_run c -> client_ok c.
Proof.
  induction 1; [|by apply get_ok|by apply post_ok|by eapply settled_ok]. constructor; cbn; try (intros; by match goal with H : _ ∈ [] |- _ => apply elem_of_nil in H end).
  - split; constructor.
  - intros key id. split; [intros H; by apply elem_of_nil in H|]. intros (rq & H & _). by apply elem_of_nil in H.
  - constructor.
Qed.

(** C30: an answer goes to the callers that asked for it: whatever was read, written and answered before, a request that is answered had the
    address and the parameters that each caller asked for who goes on with the answer, also where equal reads shared one request; no
    other caller waits for the request, and no two requests under way that may be shared have the same key. *)
Theorem answers_belong c id r ts c' : client_run c -> settle_request id r c = Some (ts, c') ->
  (exists rq, (id, rq) ∈ cl_open c /\ Forall (same_ask rq) ts) /\ (forall a, (id, a) ∈ cl_callers c -> a ∈ ts) /\
  (forall a, (id, a) ∉ cl_callers c') /\ NoDup (cl_inflight c').*1.
Proof.
  intros Hr%run_ok Hs. pose proof (settled_ok _ _ _ _ _ Hr Hs) as Hr'. apply settled_at in Hs as (rq & Hin & -> & _ & _ & _ & Ec). split; [|split; [|split]].
  - exists rq. split; [done|]. apply Forall_forall. intros a Ha. apply list_elem_of_In, in_map_iff in Ha as ([i b] & E & [Hb Hi%Nat.eqb_eq]%filter_In).
    cbn in *. subst. apply list_elem_of_In, (ok_callers c Hr) in Hb as (q & Hq & Hs). by rewrite (fst_unique _ _ _ _ (proj1 (ok_ids c Hr)) Hin Hq).
  - intros a Ha. apply list_elem_of_In, in_map_iff. exists (id, a). split; [done|]. apply filter_In. split; [by apply list_elem_of_In|apply Nat.eqb_refl].
  - intros a. rewrite Ec, elem_others. tauto.
  - apply ok_keys, Hr'.
Qed.

Definition two_readers : Client asked_for :=
  let c := MkClient [] [] None [] [] 0 [] [] in
  let a := MkConfig (Some [(js "page", JStr (js "1"))]) false false false in
  let c := await (api_get (js "/api/log") a c) (MkAsk (js "/api/log") (cf_params a)) in
  let c := await (api_get (js "/api/log") plain_config c) (MkAsk (js "/api/log") None) in
  await (api_get (js "/api/log") a c) (MkAsk (js "/api/log") (cf_params a)).
Lemma answers_belong_witness :
  length (cl_open two_readers) = 2 /\
  exists ts c', settle_request 0 (Response JNull) two_readers = Some (ts, c') /\ length ts = 2 /\ forall a, (0, a) ∉ cl_callers c'.
Proof.
  split; [reflexivity|]. do 2 eexists. split; [vm_compute; reflexivity|]. split; [reflexivity|].
  refine (proj1 (proj2 (proj2 (answers_belong two_readers 0 (Response JNull) _ _ _ ltac:(vm_compute; reflexivity))))).
  assert (utf16 (js "page") /\ utf16 (js "1")) as [H1 H2] by (split; apply utf16b_spec; reflexivity).
  repeat (apply run_get; [reflexivity| |]); [..|apply run_start]; unfold params_ok; cbn; repeat split; try done; repeat constructor; try done.
Defined.

(** ** The user in the storage *)

(** A reload finds the user of the store. *)
Definition mirrored {T} (c : Client T) : Prop :=
  exists u, initUser (Some (cl_local c)) = Ret (u, cl_local c) /\ if truthy_json (cl_user c) then u = cl_user c else truthy_json u = false.

Lemma parsed_user u local : json_ok u -> obj_get (js "user") local = Some (JSON_stringify u) -> initUser (Some local) = Ret (Some u, local).
Proof.
  intros Hu E. unfold initUser. rewrite E. assert (truthy (JSON_stringify u) = true) as ->.
  { unfold truthy. destruct (JSON_stringify u) as [|c s] eqn:Es; [|done]. pose proof (parse_stringify u Hu) as H. by rewrite Es in H. }
  cbn [negb]. by rewrite parse_stringify.
Qed.
Lemma setUser_mirrored {T} user (c : Client T) : (forall u, user = Some u -> json_ok u) -> mirrored (setUser user c).
Proof.
  intros Hu. unfold mirrored, setUser. cbn [cl_local cl_user set_user set_local]. destruct user as [u|]; cbn [truthy_json].
  - destruct (json_truthy u) eqn:Et.
    + exists (Some u). split; [|done]. apply parsed_user; [by apply Hu|]. apply obj_get_set_eq.
    + exists None. split; [|done]. unfold initUser. by rewrite obj_get_delete_eq.
  - exists None. split; [|done]. unfold initUser. by rewrite obj_get_delete_eq.
Qed.
Lemma reset_mirrored {T} (c : Client T) : mirrored (reset_user c).
Proof. exists None. split; [|done]. unfold initUser, reset_user. cbn [cl_local set_user set_local]. by rewrite obj_get_delete_eq. Qed.

(** Other names of the storage do not matter. *)
Lemma mirrored_same {T T'} (c : Client T) (c' : Client T') : obj_get (js "user") (cl_local c') = obj_get (js "user") (cl_local c) -> cl_user c' = cl_user c ->
  mirrored c -> mirrored c'.
Proof.
  intros E1 E2 (u & Hi & Ht). exists u. rewrite E2. split; [|done]. revert Hi. unfold initUser. rewrite E1.
  destruct (obj_get _ (cl_local c)) as [saved|] eqn:Es; [|by intros [= <-]]. destruct (negb (truthy saved)); [by intros [= <-]|].
  destruct (JSON_parse saved) as [v|]; [by intros [= <-]|]. intros [= _ Hd]. by rewrite <-Hd, obj_get_delete_eq in Es.
Qed.
Lemma initUser_stable local u local' : initUser (Some local) = Ret (u, local') -> initUser (Some local') = Ret (u, local').
Proof.
  intros E. unfold initUser in E. destruct (obj_get (js "user") local) as [saved|] eqn:Es; [|injection E as <- <-; unfold initUser; by rewrite Es].
  destruct (truthy saved) eqn:Et; [|injection E as <- <-; unfold initUser; by rewrite Es, Et].
  cbn [negb] in E. destruct (JSON_parse saved) as [v|] eqn:Ep; injection E as <- <-; unfold initUser; [by rewrite Es, Et, Ep|]. by rewrite obj_get_delete_eq.
Qed.
Lemma initUser_total local : exists u local', initUser (Some local) = Ret (u, local').
Proof. unfold initUser. repeat case_match; eauto. Qed.

(** A hand-off is read once. *)
Lemma handoff_once {T} d (c : Client T) : json_ok d ->
  (takeWelcomeHandoff (setWelcomeHandoff d c)).1 = Some d /\ (takeWelcomeHandoff (takeWelcomeHandoff (setWelcomeHandoff d c)).2).1 = None.
Proof.
  intros Hd. unfold takeWelcomeHandoff at 1 3, setWelcomeHandoff. cbn [cl_tab set_tab]. rewrite obj_get_set_eq.
  assert (truthy (JSON_stringify d) = true) as ->.
  { unfold truthy. destruct (JSON_stringify d) as [|ch s] eqn:Es; [|done]. pose proof (parse_stringify d Hd) as H. by rewrite Es in H. }
  cbn [negb fst snd]. rewrite parse_stringify by done. split; [done|]. unfold takeWelcomeHandoff. cbn [cl_tab set_tab]. by rewrite obj_get_delete_eq.
Qed.

(** *** Oddities *)

(** Without a storage the store is not made: the handler of the error uses it again. *)
Lemma denied_storage_crashes : initUser None = Throw.
Proof. reflexivity. Qed.
