(* ===== verification/SignIn.v ===== *)
(** * Signing in, registering and signing out

    [features/auth] (the forms for the password, the second factor, WeChat, passkeys, registration and external providers, the redirects
    after a login), [routes/oauth/$provider.tsx], [routes/(auth)/sign-in.tsx] and [oauth.tsx], [routes/_authenticated/route.tsx] (the guard of
    the protected pages), [components/sign-out-dialog.tsx] and [hooks/use-countdown.ts], as one state machine over the client of
    [HttpClient].

    The code after an [await] is a [task] that runs with the answer.  The address builder of the browser (which sets the parameters
    of an address, or throws), the texts of its exceptions, the options and the result of a passkey ceremony, and the time are
    arguments. *)
From S2P Require Import Prelude Numbers Json JsonRoundtrip Settings HttpClient.
Local Open Scope js_scope.

(** ** Codes: [validation.ts] *)

Definition code_char (c : N) : bool := is_digit c || ((65 <=? c) && (c <=? 90))%N.
Definition OTP_LENGTH : nat := 6.
Definition BACKUP_CODE_LENGTH : nat := 9.
Definition isValidOTP (code : jstr) : bool := Nat.eqb (length code) 6 && forallb is_digit code.
(** The expression ignores the case. *)
Definition isValidBackupCode (code : jstr) : bool :=
  Nat.eqb (length code) 9 && forallb code_char (upper (take 4 code)) && (take 1 (drop 4 code) === js "-") && forallb code_char (upper (drop 5 code)).
Definition formatBackupCode (value : jstr) : jstr :=
  let cleaned := List.filter code_char (upper value) in
  let cleaned := if Nat.ltb 8 (length cleaned) then take 8 cleaned else cleaned in
  if Nat.ltb 4 (length cleaned) then take 4 cleaned ++ js "-" ++ drop 4 cleaned else cleaned.
Definition cleanBackupCode (code : jstr) : jstr := List.filter (fun c => negb (c =? 45)%N) code.

(** [loginFormSchema] and [registerFormSchema]: the messages in the order of the fields. *)
Definition when_error (b : bool) (s : jstr) : list jstr := if b then [s] else [].
Definition loginFormSchema (username password : jstr) : list jstr :=
  when_error (Nat.ltb (length username) 1) (js "Please enter your username or email")
  ++ when_error (Nat.ltb (length password) 1) (js "Please enter your password")
  ++ when_error (Nat.ltb (length password) 8) (js "Password must be at least 8 characters long").
Definition registerFormSchema (username password confirmPassword : jstr) : list jstr :=
  let fields := when_error (Nat.ltb (length username) 1) (js "Please enter your username")
    ++ when_error (Nat.ltb (length password) 1) (js "Please enter your password")
    ++ when_error (Nat.ltb (length password) 8) (js "Password must be at least 8 characters long")
    ++ when_error (Nat.ltb 20 (length password)) (js "Password must be at most 20 characters long")
    ++ when_error (Nat.ltb (length confirmPassword) 1) (js "Please confirm your password") in
  match fields with [] => when_error (password !== confirmPassword) (js "Passwords don't match.") | _ => fields end.

(** ** The countdown: [use-countdown.ts] *)

(** [ct_timer] is the interval, when there is one. *)
Record Countdown : Type := MkCountdown { ct_initial : Z; ct_left : Z; ct_active : bool; ct_timer : bool }.
Definition new_countdown (initialSeconds : Z) : Countdown := MkCountdown initialSeconds initialSeconds false false.
Definition start_countdown (seconds : option Z) (c : Countdown) : Countdown := MkCountdown (ct_initial c) (default (ct_initial c) seconds) true true.
Definition stop_countdown (c : Countdown) : Countdown := MkCountdown (ct_initial c) (ct_left c) false false.
Definition reset_countdown (c : Countdown) : Countdown := MkCountdown (ct_initial c) (ct_initial c) false false.
(** The interval fires; without one nothing does. *)
Definition tick (c : Countdown) : Countdown :=
  if negb (ct_timer c) then c
  else if (ct_left c <=? 1)%Z then MkCountdown (ct_initial c) (ct_initial c) false false
  else MkCountdown (ct_initial c) (ct_left c - 1) (ct_active c) true.

(** ** The status of the system *)

Definition status_flag (k : jstr) (status : option json) : bool := truthy_json (at_prop k status).
Definition requiresLegalConsent (status : option json) : bool :=
  status_flag (js "user_agreement_enabled") status || status_flag (js "privacy_policy_enabled") status.
Definition isTurnstileEnabled (status : option json) : bool := status_flag (js "turnstile_check") status && status_flag (js "turnstile_site_key") status.
Definition wechat_login (status : option json) : bool := status_flag (js "wechat_login") status.
(** [status?.k ?? status?.data?.k ?? true] *)
Definition json_nullish (v w : option json) : option json := match v with Some JNull | None => w | _ => v end.
Definition enabled_by_default (k : jstr) (status : option json) : bool :=
  truthy_json (json_nullish (at_prop k status) (json_nullish (at_prop k (at_prop (js "data") status)) (Some (JBool true)))).
Definition passkeyLoginEnabled (status : option json) : bool :=
  truthy_json (json_nullish (at_prop (js "passkey_login") status) (at_prop (js "passkey_login") (at_prop (js "data") status))).
Definition json_text_of (v : option json) : jstr := match v with Some (JStr s) => s | _ => [] end.
(** The first of the properties that is truthy. *)
Definition wechatQrCodeUrl (status : option json) : option json :=
  let data := at_prop (js "data") status in
  List.find json_truthy
    (omap (fun v => v) (List.map (fun k => at_prop k status)
       [js "wechat_qrcode"; js "wechat_qr_code"; js "wechat_qrcode_image_url"; js "wechat_qr_code_image_url"; js "wechat_account_qrcode_image_url";
        js "WeChatAccountQRCodeImageURL"] ++ List.map (fun k => at_prop k data) [js "wechat_qrcode"; js "WeChatAccountQRCodeImageURL"])).

Record OAuthProvider : Type := MkProvider { op_name : jstr; op_type : jstr; op_clientId : option json; op_authEndpoint : option json }.
Definition getAvailableOAuthProviders (status : option json) : list OAuthProvider :=
  let get k := at_prop k status in
  let on k p := if status_flag k status then [p] else [] in
  on (js "github_oauth") (MkProvider (js "GitHub") (js "github") (get (js "github_client_id")) None)
  ++ on (js "discord_oauth") (MkProvider (js "Discord") (js "discord") (get (js "discord_client_id")) None)
  ++ on (js "oidc_enabled") (MkProvider (js "OIDC") (js "oidc") (get (js "oidc_client_id")) (get (js "oidc_authorization_endpoint")))
  ++ on (js "linuxdo_oauth") (MkProvider (js "LinuxDO") (js "linuxdo") (get (js "linuxdo_client_id")) None)
  ++ on (js "telegram_oauth") (MkProvider (js "Telegram") (js "telegram") None None).
Definition hasOAuthProviders (status : option json) : bool :=
  existsb (fun k => status_flag k status) [js "github_oauth"; js "discord_oauth"; js "oidc_enabled"; js "linuxdo_oauth"; js "telegram_oauth"; js "wechat_login"].

(** ** The addresses of the providers: [lib/oauth.ts] *)

Inductive provider : Type :=
| GitHub | Discord | Oidc | LinuxDo
| CustomProvider (name slug client_id endpoint scopes : jstr).

Section addresses.
(** The address with its parameters set; [None] when it is no address. *)
Variable url_with : jstr -> list (jstr * jstr) -> option jstr.
Variable origin : jstr.

Definition buildGitHubOAuthUrl (clientId state : jstr) : jstr :=
  js "https://github.com/login/oauth/authorize?client_id=" ++ clientId ++ js "&state=" ++ state ++ js "&scope=user:email".
Definition buildDiscordOAuthUrl (clientId state : jstr) : option jstr :=
  url_with (js "https://discord.com/oauth2/authorize")
    [(js "client_id", clientId); (js "redirect_uri", origin ++ js "/oauth/discord"); (js "response_type", js "code"); (js "scope", js "identify+openid");
     (js "state", state)].
Definition buildOIDCOAuthUrl (authUrl clientId state : jstr) : option jstr :=
  url_with authUrl [(js "client_id", clientId); (js "redirect_uri", origin ++ js "/oauth/oidc"); (js "response_type", js "code");
                    (js "scope", js "openid profile email"); (js "state", state)].
Definition buildLinuxDOOAuthUrl (clientId state : jstr) : jstr :=
  js "https://connect.linux.do/oauth2/authorize?response_type=code&client_id=" ++ clientId ++ js "&state=" ++ state.
Definition custom_url (slug client_id endpoint scopes state : jstr) : option jstr :=
  url_with endpoint ([(js "client_id", client_id); (js "redirect_uri", origin ++ js "/oauth/" ++ slug); (js "response_type", js "code"); (js "state", state)]
                     ++ if truthy scopes then [(js "scope", scopes)] else []).

Definition client_id_of (p : provider) (status : option json) : jstr :=
  match p with
  | GitHub => json_text_of (at_prop (js "github_client_id") status)
  | Discord => json_text_of (at_prop (js "discord_client_id") status)
  | Oidc => json_text_of (at_prop (js "oidc_client_id") status)
  | LinuxDo => json_text_of (at_prop (js "linuxdo_client_id") status)
  | CustomProvider _ _ id _ _ => id
  end.
(** The provider can be used: it has a client, and an address where one is needed. *)
Definition configured (p : provider) (status : option json) : bool :=
  truthy (client_id_of p status) &&
  match p with
  | Oidc => status_flag (js "oidc_authorization_endpoint") status
  | CustomProvider _ _ _ endpoint _ => truthy endpoint
  | _ => true
  end.
Definition login_url (p : provider) (status : option json) (state : jstr) : option jstr :=
  let id := client_id_of p status in
  match p with
  | GitHub => Some (buildGitHubOAuthUrl id state)
  | Discord => buildDiscordOAuthUrl id state
  | Oidc => buildOIDCOAuthUrl (json_text_of (at_prop (js "oidc_authorization_endpoint") status)) id state
  | LinuxDo => Some (buildLinuxDOOAuthUrl id state)
  | CustomProvider _ slug _ endpoint scopes => custom_url slug id endpoint scopes state
  end.
End addresses.

(** ** The pages *)

(** How a login ended that fetches the user afterwards. *)
Inductive login_way : Type := ByPassword | ByWeChat (signup : bool) | ByPasskey | ByRegistration.
(** The address of a callback; [cb_binding]: the window was opened by another one. *)
Record Callback : Type := MkCallback { cb_provider : jstr; cb_code : option jstr; cb_state : option jstr; cb_redirect : option jstr; cb_binding : bool }.
(** What a callback does when no user could be fetched. *)
Inductive no_user : Type := OAuthUserMissing (message : json) | AlreadyBound (message : json) | LoginFailed (message : json).

(** The code after an [await]. *)
Inductive task : Type :=
| SignInAnswer (redirectTo : option jstr)
| WeChatAnswer (signup : bool) (redirectTo : option jstr)
| PasskeyBegun (redirectTo : option jstr)
| PasskeyFinished (redirectTo : option jstr)
| LoginSelf (redirectTo : option jstr) (way : login_way)
| OtpAnswer
| RegisterAnswer
| CodeSent
| GuardSelf (href : jstr)
| SignOutAnswer
| LoggedOutFor (p : provider)
| StateFor (p : provider)
| CallbackAnswer (cb : Callback)
| CallbackSelf (cb : Callback) (otherwise : no_user)
| OAuthWeChat (redirect : option jstr)
| OAuthSelf (redirect : option jstr).

(** The forms for signing in and for registering. *)
Record AuthForm : Type := MkForm { af_agreed : bool; af_token : jstr; af_loading : bool; af_wechatOpen : bool; af_wechatCode : jstr; af_wechatBusy : bool }.
Definition set_agreed (b : bool) (f : AuthForm) : AuthForm := MkForm b (af_token f) (af_loading f) (af_wechatOpen f) (af_wechatCode f) (af_wechatBusy f).
Definition set_token (t : jstr) (f : AuthForm) : AuthForm := MkForm (af_agreed f) t (af_loading f) (af_wechatOpen f) (af_wechatCode f) (af_wechatBusy f).
Definition set_form_loading (b : bool) (f : AuthForm) : AuthForm := MkForm (af_agreed f) (af_token f) b (af_wechatOpen f) (af_wechatCode f) (af_wechatBusy f).
Definition set_wechat (open : bool) (code : jstr) (busy : bool) (f : AuthForm) : AuthForm := MkForm (af_agreed f) (af_token f) (af_loading f) open code busy.
Definition new_form (status : option json) : AuthForm := MkForm (negb (requiresLegalConsent status)) [] false false [] false.

Record GithubButton : Type := MkGithub { gb_text : jstr; gb_disabled : bool; gb_timer : bool }.
Definition idle_github : GithubButton := MkGithub (js "Continue with GitHub") false false.

Record AuthPage : Type := MkPage {
  pg_client : Client task; pg_status : option json; pg_verified : bool; pg_language : jstr; pg_signin : AuthForm; pg_signup : AuthForm;
  pg_passkeySupported : bool; pg_passkeyBusy : bool; pg_prompts : list (option jstr * option json); pg_code : jstr; pg_sendingCode : bool; pg_countdown : Countdown;
  pg_otpLoading : bool; pg_otpBackup : bool; pg_otp : jstr; pg_oauthLoading : bool; pg_github : GithubButton; pg_navigations : list jstr; pg_closing : bool
}.
Definition with_client (c : Client task) (s : AuthPage) : AuthPage :=
  MkPage c (pg_status s) (pg_verified s) (pg_language s) (pg_signin s) (pg_signup s) (pg_passkeySupported s) (pg_passkeyBusy s) (pg_prompts s) (pg_code s)
    (pg_sendingCode s) (pg_countdown s) (pg_otpLoading s) (pg_otpBackup s) (pg_otp s) (pg_oauthLoading s) (pg_github s) (pg_navigations s) (pg_closing s).
Definition on_client (f : Client task -> Client task) (s : AuthPage) : AuthPage := with_client (f (pg_client s)) s.
Definition show (e : browser_effect) : AuthPage -> AuthPage := on_client (emit_effect e).
Definition with_verified (b : bool) (s : AuthPage) : AuthPage :=
  MkPage (pg_client s) (pg_status s) b (pg_language s) (pg_signin s) (pg_signup s) (pg_passkeySupported s) (pg_passkeyBusy s) (pg_prompts s) (pg_code s)
    (pg_sendingCode s) (pg_countdown s) (pg_otpLoading s) (pg_otpBackup s) (pg_otp s) (pg_oauthLoading s) (pg_github s) (pg_navigations s) (pg_closing s).
Definition with_forms (status : option json) (signin signup : AuthForm) (s : AuthPage) : AuthPage :=
  MkPage (pg_client s) status (pg_verified s) (pg_language s) signin signup (pg_passkeySupported s) (pg_passkeyBusy s) (pg_prompts s) (pg_code s)
    (pg_sendingCode s) (pg_countdown s) (pg_otpLoading s) (pg_otpBackup s) (pg_otp s) (pg_oauthLoading s) (pg_github s) (pg_navigations s) (pg_closing s).
Definition with_language (language : jstr) (s : AuthPage) : AuthPage :=
  MkPage (pg_client s) (pg_status s) (pg_verified s) language (pg_signin s) (pg_signup s) (pg_passkeySupported s) (pg_passkeyBusy s) (pg_prompts s) (pg_code s)
    (pg_sendingCode s) (pg_countdown s) (pg_otpLoading s) (pg_otpBackup s) (pg_otp s) (pg_oauthLoading s) (pg_github s) (pg_navigations s) (pg_closing s).
Definition with_passkey (supported busy : bool) (prompts : list (option jstr * option json)) (s : AuthPage) : AuthPage :=
  MkPage (pg_client s) (pg_status s) (pg_verified s) (pg_language s) (pg_signin s) (pg_signup s) supported busy prompts (pg_code s)
    (pg_sendingCode s) (pg_countdown s) (pg_otpLoading s) (pg_otpBackup s) (pg_otp s) (pg_oauthLoading s) (pg_github s) (pg_navigations s) (pg_closing s).
Definition with_email_code (code : jstr) (sending : bool) (countdown : Countdown) (s : AuthPage) : AuthPage :=
  MkPage (pg_client s) (pg_status s) (pg_verified s) (pg_language s) (pg_signin s) (pg_signup s) (pg_passkeySupported s) (pg_passkeyBusy s) (pg_prompts s) code
    sending countdown (pg_otpLoading s) (pg_otpBackup s) (pg_otp s) (pg_oauthLoading s) (pg_github s) (pg_navigations s) (pg_closing s).
Definition with_otp (loading backup : bool) (otp : jstr) (s : AuthPage) : AuthPage :=
  MkPage (pg_client s) (pg_status s) (pg_verified s) (pg_language s) (pg_signin s) (pg_signup s) (pg_passkeySupported s) (pg_passkeyBusy s) (pg_prompts s) (pg_code s)
    (pg_sendingCode s) (pg_countdown s) loading backup otp (pg_oauthLoading s) (pg_github s) (pg_navigations s) (pg_closing s).
Definition with_oauth (loading : bool) (github : GithubButton) (s : AuthPage) : AuthPage :=
  MkPage (pg_client s) (pg_status s) (pg_verified s) (pg_language s) (pg_signin s) (pg_signup s) (pg_passkeySupported s) (pg_passkeyBusy s) (pg_prompts s) (pg_code s)
    (pg_sendingCode s) (pg_countdown s) (pg_otpLoading s) (pg_otpBackup s) (pg_otp s) loading github (pg_navigations s) (pg_closing s).
Definition with_timers (navigations : list jstr) (closing : bool) (s : AuthPage) : AuthPage :=
  MkPage (pg_client s) (pg_status s) (pg_verified s) (pg_language s) (pg_signin s) (pg_signup s) (pg_passkeySupported s) (pg_passkeyBusy s) (pg_prompts s) (pg_code s)
    (pg_sendingCode s) (pg_countdown s) (pg_otpLoading s) (pg_otpBackup s) (pg_otp s) (pg_oauthLoading s) (pg_github s) navigations closing.

Definition change_signin (f : AuthForm -> AuthForm) (s : AuthPage) : AuthPage := with_forms (pg_status s) (f (pg_signin s)) (pg_signup s) s.
Definition change_signup (f : AuthForm -> AuthForm) (s : AuthPage) : AuthPage := with_forms (pg_status s) (pg_signin s) (f (pg_signup s)) s.
Definition change_form (signup : bool) : (AuthForm -> AuthForm) -> AuthPage -> AuthPage := if signup then change_signup else change_signin.
Definition the_form (signup : bool) (s : AuthPage) : AuthForm := if signup then pg_signup s else pg_signin s.

(** A page that is loaded. *)
Definition load_page (language : jstr) (status : option json) (tab : storage) (local : storage) : outcome AuthPage :=
  let! start := initUser (Some local) in
  Ret (MkPage (MkClient start.2 tab start.1 [] [] 0 [] []) status false language (new_form status) (new_form status) false false [] [] false
         (new_countdown 30) false false [] false idle_github [] false).

(** ** After a login: [use-auth-redirect.ts] *)

Definition saved_id (id : option json) (c : Client task) : Client task :=
  match id with
  | Some v => if json_truthy v then match to_String v with Ret s => saveUserId s c | Throw => c end else c
  | None => c
  end.
Definition handleLoginSuccess (userData : option json) (redirectTo : option jstr) (way : login_way) : AuthPage -> AuthPage :=
  on_client (fun c => await (getSelf (saved_id (at_prop (js "id") userData) c)) (LoginSelf redirectTo way)).
Definition getSavedLanguage (user : json) : option jstr :=
  match at_prop (js "language") (Some user) with
  | Some (JStr l) => Some l
  | _ => match at_prop (js "setting") (Some user) with
         | Some (JStr text) => match JSON_parse text with
                               | Ret setting => match at_prop (js "language") (Some setting) with Some (JStr l) => Some l | _ => None end
                               | Throw => None
                               end
         | _ => None
         end
  end.
Definition success_reply (r : reply) : bool := match r with Response data => truthy_json (at_prop (js "success") (Some data)) | RequestError _ _ _ => false end.
Definition data_of (r : reply) : option json := match r with Response data => at_prop (js "data") (Some data) | RequestError _ _ _ => None end.
Definition message_of (r : reply) : option json := match r with Response data => at_prop (js "message") (Some data) | RequestError _ _ _ => None end.
(** The user of an answer to [getSelf]. *)
Definition self_user (r : reply) : option json :=
  if success_reply r then match data_of r with Some u => if json_truthy u then Some u else None | None => None end else None.

Definition restore_language (user : json) (s : AuthPage) : AuthPage :=
  match getSavedLanguage user with
  | Some l => if truthy l && (l !== pg_language s) then show (ChangeLanguage l) (with_language l s) else s
  | None => s
  end.
Definition or_default (path : option jstr) (d : jstr) : jstr := match path with Some p => str_or p d | None => d end.
(** The end of the handler that called [handleLoginSuccess]. *)
Definition after_login (way : login_way) (s : AuthPage) : AuthPage :=
  match way with
  | ByPassword => change_signin (set_form_loading false) (show (toast_success (js "Welcome back!")) s)
  | ByWeChat signup => change_form signup (set_wechat false [] false) (show (toast_success (js "Signed in via WeChat")) s)
  | ByPasskey => with_passkey (pg_passkeySupported s) false (pg_prompts s) (show (toast_success (js "Signed in with Passkey")) s)
  | ByRegistration => change_signup (set_form_loading false) s
  end.
Definition login_self (redirectTo : option jstr) (way : login_way) (r : reply) (s : AuthPage) : AuthPage :=
  let s := match self_user r with
           | Some u => restore_language u (on_client (fun c => saved_id (at_prop (js "id") (Some u)) (setUser (Some u) c)) s)
           | None => s
           end in
  after_login way (show (Navigate (or_default redirectTo (js "/dashboard")) None) s).

(** ** Signing in: [user-auth-form.tsx] *)

Definition consent_missing (signup : bool) (s : AuthPage) : bool := requiresLegalConsent (pg_status s) && negb (af_agreed (the_form signup s)).
Definition consent_text : jstr := js "Please agree to the legal terms first".
Definition turnstile_ready (token : jstr) (s : AuthPage) : bool := negb (isTurnstileEnabled (pg_status s)) || truthy token.
Definition turnstile_text : browser_effect := toast_info (js "Please wait a moment, human check is initializing...").
Definition params_config (p : list (jstr * json)) : request_config := MkConfig (Some p) false false false.

Definition submit_signin (username password : jstr) (redirectTo : option jstr) (s : AuthPage) : AuthPage :=
  if negb (Nat.eqb (length (loginFormSchema username password)) 0) then s
  else if consent_missing false s then show (toast_error consent_text) s
  else if negb (turnstile_ready (af_token (pg_signin s)) s) then show turnstile_text s
  else on_client (fun c => await (api_post (js "/api/user/login?turnstile=" ++ af_token (pg_signin s))
                                    (JObj [(js "username", JStr username); (js "password", JStr password)]) plain_config c) (SignInAnswer redirectTo))
         (change_signin (set_form_loading true) s).
Definition signin_answered (redirectTo : option jstr) (r : reply) (s : AuthPage) : AuthPage :=
  if success_reply r then
    if truthy_json (at_prop (js "require_2fa") (data_of r)) then change_signin (set_form_loading false) (show (Navigate (js "/otp") None) s)
    else handleLoginSuccess (data_of r) redirectTo ByPassword s
  else change_signin (set_form_loading false) s.

Definition open_wechat (signup : bool) (s : AuthPage) : AuthPage :=
  if consent_missing signup s then show (toast_error consent_text) s
  else change_form signup (fun f => set_wechat true (af_wechatCode f) (af_wechatBusy f) f) s.
Definition submit_wechat (signup : bool) (redirectTo : option jstr) (s : AuthPage) : AuthPage :=
  let code := af_wechatCode (the_form signup s) in
  if negb (truthy (trim code)) then show (toast_error (js "Please enter the verification code")) s
  else on_client (fun c => await (api_get (js "/api/oauth/wechat") (params_config [(js "code", JStr code)]) c) (WeChatAnswer signup redirectTo))
         (change_form signup (fun f => set_wechat (af_wechatOpen f) (af_wechatCode f) true f) s).
Definition wechat_idle (signup : bool) (s : AuthPage) : AuthPage := change_form signup (fun f => set_wechat (af_wechatOpen f) (af_wechatCode f) false f) s.
Definition wechat_answered (signup : bool) (redirectTo : option jstr) (r : reply) (s : AuthPage) : AuthPage :=
  match r with
  | Response _ =>
      if success_reply r then handleLoginSuccess (data_of r) redirectTo (ByWeChat signup) s
      else wechat_idle signup (show (Toast ToastError (or_else_json (message_of r) (JStr (js "Login failed")))) s)
  | RequestError _ _ _ => wechat_idle signup (show (toast_error (js "Login failed")) s)
  end.

Section pages.
Variable url_with : jstr -> list (jstr * jstr) -> option jstr.
Variable origin : jstr.
(** The message of the exception for a property of [null]. *)
Variable type_error : jstr.
(** The options for the browser, or the message of an exception. *)
Variable prepare_options : option json -> jstr + json.
(** An error of the client without a response has the property all the same. *)
Variable response_in_error : bool.

(** *** Passkeys *)

Definition passkey_idle (s : AuthPage) : AuthPage := with_passkey (pg_passkeySupported s) false (pg_prompts s) s.
Definition passkey_failed (message : jstr) (s : AuthPage) : AuthPage := passkey_idle (show (toast_error message) s).
Definition start_passkey (has_credentials : bool) (redirectTo : option jstr) (s : AuthPage) : AuthPage :=
  if consent_missing false s then show (toast_error consent_text) s
  else if negb (pg_passkeySupported s) then show (toast_error (js "Passkey is not supported on this device")) s
  else if negb has_credentials then show (toast_error (js "Passkey is not available in this browser")) s
  else on_client (fun c => await (http_send (js "POST") (js "/api/user/passkey/login/begin") plain_config None c) (PasskeyBegun redirectTo))
         (with_passkey true true (pg_prompts s) s).
(** A toast of a message of the server, which may be any value. *)
Definition message_or (m : option json) (d : jstr) : browser_effect := Toast ToastError (or_else_json m (JStr d)).
Definition passkey_begun (redirectTo : option jstr) (r : reply) (s : AuthPage) : AuthPage :=
  match r with
  | RequestError _ _ message => passkey_failed (default [] message) s
  | Response JNull => passkey_failed type_error s
  | Response _ =>
      if negb (success_reply r) then passkey_idle (show (message_or (message_of r) (js "Failed to start Passkey login")) s)
      else match prepare_options (json_nullish (at_prop (js "options") (data_of r)) (data_of r)) with
           | inl message => passkey_failed message s
           | inr options => with_passkey (pg_passkeySupported s) true (pg_prompts s ++ [(redirectTo, Some options)]) s
           end
  end.
(** What the browser gives: nothing, the payload made of the credential (or none), or an exception: refused, or with a message, or no
    [Error]. *)
Inductive ceremony_result : Type := NoCredential | Assertion (payload : option json) | NotAllowed | CeremonyError (message : option jstr).
Definition credential_given (i : nat) (result : ceremony_result) (s : AuthPage) : AuthPage :=
  match pg_prompts s !! i with
  | None => s
  | Some (redirectTo, _) =>
      let s := with_passkey (pg_passkeySupported s) (pg_passkeyBusy s) (delete i (pg_prompts s)) s in
      match result with
      | NoCredential => passkey_idle (show (toast_info (js "Passkey login was cancelled")) s)
      | Assertion None => passkey_failed (js "Invalid Passkey response") s
      | Assertion (Some payload) =>
          on_client (fun c => await (api_post (js "/api/user/passkey/login/finish") payload plain_config c) (PasskeyFinished redirectTo)) s
      | NotAllowed => passkey_idle (show (toast_info (js "Passkey login was cancelled or timed out")) s)
      | CeremonyError message => passkey_failed (default (js "Passkey login failed") message) s
      end
  end.
Definition passkey_finished (redirectTo : option jstr) (r : reply) (s : AuthPage) : AuthPage :=
  match r with
  | RequestError _ _ message => passkey_failed (default [] message) s
  | Response JNull => passkey_failed type_error s
  | Response _ =>
      if negb (success_reply r) then passkey_idle (show (message_or (message_of r) (js "Failed to complete Passkey login")) s)
      else if negb (truthy_json (data_of r)) then passkey_failed (js "Missing user data from Passkey login response") s
      else handleLoginSuccess (data_of r) redirectTo ByPasskey s
  end.

(** *** The second factor: [otp-form.tsx] *)

Definition type_otp (value : jstr) (s : AuthPage) : AuthPage :=
  with_otp (pg_otpLoading s) (pg_otpBackup s) (if pg_otpBackup s then formatBackupCode value else value) s.
Definition toggle_otp (s : AuthPage) : AuthPage := with_otp (pg_otpLoading s) (negb (pg_otpBackup s)) [] s.
Definition otp_form_valid (s : AuthPage) : bool := Nat.leb (if pg_otpBackup s then BACKUP_CODE_LENGTH else OTP_LENGTH) (length (pg_otp s)).
Definition submit_otp (s : AuthPage) : AuthPage :=
  if negb (otp_form_valid s) || pg_otpLoading s then s
  else if pg_otpBackup s && negb (isValidBackupCode (pg_otp s)) then show (toast_error (js "Backup code must be in format XXXX-XXXX")) s
  else if negb (pg_otpBackup s) && negb (isValidOTP (pg_otp s)) then show (toast_error (js "Verification code must be 6 digits")) s
  else on_client (fun c => await (api_post (js "/api/user/login/2fa")
                                    (JObj [(js "code", JStr (if pg_otpBackup s then cleanBackupCode (pg_otp s) else pg_otp s))]) plain_config c) OtpAnswer)
         (with_otp true (pg_otpBackup s) (pg_otp s) s).
Definition otp_answered (r : reply) (s : AuthPage) : AuthPage :=
  let idle s := with_otp false (pg_otpBackup s) (pg_otp s) s in
  match r with
  | RequestError _ _ message => idle (show (toast_error (default [] message)) s)
  | Response JNull => idle (show (toast_error type_error) s)
  | Response _ =>
      if negb (success_reply r) then idle (show (message_or (message_of r) (js "Invalid code")) s)
      else match data_of r with
           | Some u =>
               if json_truthy u then
                 idle (show (Navigate (js "/sign-in") None)
                   (show (toast_success (js "Signed in")) (on_client (fun c => saved_id (at_prop (js "id") (Some u)) (setUser (Some u) c)) s)))
               else idle (show (toast_error (js "No user data received from login")) s)
           | None => idle (show (toast_error (js "No user data received from login")) s)
           end
  end.

(** *** Registering: [sign-up-form.tsx], [use-email-verification.ts] *)

Definition emailVerificationRequired (s : AuthPage) : bool := status_flag (js "email_verification") (pg_status s).
Definition filled_field (k : jstr) (v : jstr) : list (jstr * json) := if truthy v then [(k, JStr v)] else [].
Definition field_of (k : jstr) (v : option json) : list (jstr * json) := match v with Some x => [(k, x)] | None => [] end.
Definition register_payload (username password email : jstr) (s : AuthPage) : json :=
  let acquisition := readAcquisitionMeta (pg_client s) in
  JObj ([(js "username", JStr username); (js "password", JStr password)] ++ filled_field (js "email") email ++ filled_field (js "verification_code") (pg_code s)
        ++ [(js "aff", JStr (getAffiliateCode (pg_client s))); (js "turnstile", JStr (af_token (pg_signup s)))]
        ++ field_of (js "acquisition_channel") (at_prop (js "channel") (Some acquisition)) ++ field_of (js "timezone") (at_prop (js "timezone") (Some acquisition))).
Definition submit_signup (username password confirmPassword email : jstr) (s : AuthPage) : AuthPage :=
  if negb (Nat.eqb (length (registerFormSchema username password confirmPassword)) 0) then s
  else if consent_missing true s then show (toast_error consent_text) s
  else if emailVerificationRequired s && negb (truthy email) then show (toast_error (js "Please enter your email")) s
  else if emailVerificationRequired s && negb (truthy (pg_code s)) then show (toast_error (js "Please enter the verification code")) s
  else on_client (fun c => await (api_post (js "/api/user/register") (register_payload username password email s)
                                    (params_config [(js "turnstile", JStr (af_token (pg_signup s)))]) c) RegisterAnswer)
         (change_signup (set_form_loading true) s).
Definition register_answered (r : reply) (s : AuthPage) : AuthPage :=
  if success_reply r then
    let s := match data_of r with Some d => if json_truthy d then on_client (setWelcomeHandoff d) s else s | None => s end in
    handleLoginSuccess (data_of r) (Some (js "/welcome")) ByRegistration s
  else change_signup (set_form_loading false) s.
(** The field of the check is shown together with the one for the email only. *)
Definition signup_turnstile_shown (s : AuthPage) : bool := emailVerificationRequired s && isTurnstileEnabled (pg_status s).

Definition sendCode (email : jstr) (s : AuthPage) : AuthPage :=
  if negb (truthy email) then show (toast_error (js "Please enter your email first")) s
  else if negb (turnstile_ready (af_token (pg_signup s)) s) then show turnstile_text s
  else on_client (fun c => await (api_get (js "/api/verification") (params_config [(js "email", JStr email); (js "turnstile", JStr (af_token (pg_signup s)))]) c) CodeSent)
         (with_email_code (pg_code s) true (pg_countdown s) s).
Definition code_sent (r : reply) (s : AuthPage) : AuthPage :=
  let s := if success_reply r then show (toast_success (js "Verification email sent")) (with_email_code (pg_code s) (pg_sendingCode s) (start_countdown None (pg_countdown s)) s) else s in
  with_email_code (pg_code s) false (pg_countdown s) s.

(** *** The guard of the protected pages and the sign-in page *)

Definition enter_protected (href : jstr) (s : AuthPage) : AuthPage :=
  if negb (truthy_json (cl_user (pg_client s))) then show (Navigate (js "/sign-in") (Some href)) s
  else if pg_verified s then show (EnterPage href (cl_user (pg_client s))) s
  else on_client (fun c => await (getSelf c) (GuardSelf href)) s.
Definition guard_answered (href : jstr) (r : reply) (s : AuthPage) : AuthPage :=
  match self_user r with
  | Some u => let s := with_verified true (on_client (setUser (Some u)) s) in show (EnterPage href (cl_user (pg_client s))) s
  | None => show (Navigate (js "/sign-in") (Some href)) (on_client reset_user s)
  end.
Definition open_sign_in (redirect : option jstr) (s : AuthPage) : AuthPage :=
  if truthy_json (cl_user (pg_client s)) then show (Navigate (or_default redirect (js "/dashboard")) None) s else s.

(** *** Signing out: [sign-out-dialog.tsx] *)

Definition sign_out (s : AuthPage) : AuthPage := on_client (fun c => await (api_get (js "/api/user/logout") plain_config c) SignOutAnswer) s.
Definition signed_out (s : AuthPage) : AuthPage := show ReloadPage (show (toast_success (js "Signed out")) (on_client (fun c => removeUserId (reset_user c)) s)).

(** *** External providers: [use-oauth-login.ts] *)

Definition provider_name (p : provider) : jstr :=
  match p with
  | GitHub => js "GitHub" | Discord => js "Discord" | Oidc => js "OIDC" | LinuxDo => js "LinuxDO" | CustomProvider name _ _ _ _ => name
  end.
Definition is_github (p : provider) : bool := match p with GitHub => true | _ => false end.
Definition logout_config : request_config := MkConfig None false false true.
Definition start_oauth (p : provider) (s : AuthPage) : AuthPage :=
  if negb (configured p (pg_status s)) then s
  else if is_github p && gb_disabled (pg_github s) then s
  else
    let github := if is_github p then MkGithub (js "Redirecting to GitHub...") true true else pg_github s in
    on_client (fun c => await (api_get (js "/api/user/logout") logout_config (reset_user c)) (LoggedOutFor p)) (with_oauth true github s).
Definition get_state (p : provider) : AuthPage -> AuthPage :=
  on_client (fun c => await (api_get (js "/api/oauth/state") (params_config [(js "aff", JStr (getAffiliateCode c))]) c) (StateFor p)).
(** The handler ended without leaving the page. *)
Definition oauth_failed (p : provider) (text : jstr) (s : AuthPage) : AuthPage :=
  with_oauth false (if is_github p then idle_github else pg_github s) (show (toast_error text) s).
Definition state_answered (p : provider) (r : reply) (s : AuthPage) : AuthPage :=
  let start_failed := js "Failed to start " ++ provider_name p ++ js " login" in
  match r with
  | RequestError _ _ _ => oauth_failed p start_failed s
  | Response _ =>
      let state := if success_reply r then json_text_of (data_of r) else [] in
      if negb (truthy state) then oauth_failed p (js "Failed to initialize OAuth") s
      else match login_url url_with origin p (pg_status s) state with
           | None => oauth_failed p start_failed s
           | Some url => with_oauth (is_github p && pg_oauthLoading s) (pg_github s) (show (OpenUrl url) s)
           end
  end.
Definition github_timeout (s : AuthPage) : AuthPage :=
  if gb_timer (pg_github s) then with_oauth false (MkGithub (js "Request timed out, please refresh and restart GitHub login") true false) s else s.

(** *** The callback of a provider: [routes/oauth/$provider.tsx] *)

Definition safeNavigate (target : jstr) (s : AuthPage) : AuthPage := with_timers (pg_navigations s ++ [target]) (pg_closing s) (show (Navigate target None) s).
(** The check a moment later, at the path where the page is then. *)
Definition navigation_checked (i : nat) (currentPath : jstr) (s : AuthPage) : AuthPage :=
  match pg_navigations s !! i with
  | None => s
  | Some target =>
      let s := with_timers (delete i (pg_navigations s)) (pg_closing s) s in
      let normalizedTarget := if starts_with (js "/") target then target else js "/" ++ target in
      if (currentPath !== normalizedTarget) && (currentPath !== normalizedTarget ++ js "/") then show (ReplaceLocation target) s else s
  end.
Definition notifyBindingResult (now : json) (cb : Callback) (status : jstr) : AuthPage -> AuthPage :=
  on_client (fun c => set_local (obj_set (js "oauth:binding:result")
    (JSON_stringify (JObj [(js "provider", JStr (cb_provider cb)); (js "status", JStr status); (js "timestamp", now)])) (cl_local c)) c).
Definition window_open_still (s : AuthPage) : AuthPage :=
  if pg_closing s then show (ReplaceLocation (js "/_authenticated/profile/")) (with_timers (pg_navigations s) false s) else s.
Definition redirectAfterLogin (cb : Callback) (s : AuthPage) : AuthPage :=
  show (toast_success (js "Signed in successfully!")) (safeNavigate (or_default (cb_redirect cb) (js "/dashboard")) s).
(** [id != null]: then its text is the user of the requests. *)
Definition adopt_user (u : json) (c : Client task) : Client task :=
  let c := setUser (Some u) c in
  match at_prop (js "id") (Some u) with
  | Some JNull | None => c
  | Some v => match to_String v with Ret s => saveUserId s c | Throw => c end
  end.
Definition finalize (cb : Callback) (otherwise : no_user) : AuthPage -> AuthPage := on_client (fun c => await (getSelf c) (CallbackSelf cb otherwise)).
Definition handleLoginFailure (cb : Callback) (message : json) : AuthPage -> AuthPage := finalize cb (LoginFailed message).
Definition handleBindingFailure (now : json) (cb : Callback) (message : json) (s : AuthPage) : AuthPage :=
  show (Toast ToastError message) (notifyBindingResult now cb (js "error") s).
Definition callback_self (cb : Callback) (otherwise : no_user) (r : reply) (s : AuthPage) : AuthPage :=
  match self_user r with
  | Some u => redirectAfterLogin cb (on_client (adopt_user u) s)
  | None =>
      match otherwise with
      | OAuthUserMissing message | LoginFailed message => safeNavigate (js "/sign-in") (show (Toast ToastError message) s)
      | AlreadyBound message => handleLoginFailure cb message s
      end
  end.
Definition open_callback (cb : Callback) (s : AuthPage) : AuthPage :=
  match cb_code cb with
  | Some code =>
      if truthy code then
        on_client (fun c => await (api_get (js "/api/oauth/" ++ cb_provider cb)
                                     (MkConfig (Some ((js "code", JStr code) :: field_of (js "state") (JStr <$> cb_state cb))) false true false) c)
                              (CallbackAnswer cb)) s
      else safeNavigate (js "/sign-in") (show (toast_error (js "Missing code")) s)
  | None => safeNavigate (js "/sign-in") (show (toast_error (js "Missing code")) s)
  end.
(** The text says that the GitHub account is bound already. *)
Definition already_bound_text : jstr := [35813; 32]%N ++ js "GitHub" ++ [32; 36134; 25143; 24050; 34987; 32465; 23450]%N.
(** A login: the user of the answer, or the one that the server names. *)
Definition callback_user (cb : Callback) (r : reply) (s : AuthPage) : AuthPage :=
  match data_of r with
  | Some u => if json_truthy u then redirectAfterLogin cb (on_client (adopt_user u) s)
              else finalize cb (OAuthUserMissing (or_else_json (message_of r) (JStr (js "OAuth failed")))) s
  | None => finalize cb (OAuthUserMissing (or_else_json (message_of r) (JStr (js "OAuth failed")))) s
  end.
Definition callback_answered (now : json) (cb : Callback) (r : reply) (s : AuthPage) : AuthPage :=
  match r with
  | Response _ =>
      if success_reply r then
        match message_of r with
        | Some (JStr m) =>
            if m === js "bind" then
              let s := notifyBindingResult now cb (js "success") (show (toast_success (js "Binding successful!")) s) in
              if cb_binding cb then with_timers (pg_navigations s) true (show CloseWindow s) else safeNavigate (js "/_authenticated/profile/") s
            else callback_user cb r s
        | _ => callback_user cb r s
        end
      else
        let message := or_else_json (message_of r) (JStr (js "OAuth failed")) in
        if cb_binding cb then handleBindingFailure now cb message s
        else if bool_decide (message = JStr already_bound_text) then finalize cb (AlreadyBound message) s
        else handleLoginFailure cb message s
  | RequestError status data text =>
      let found := match status with Some _ => at_prop (js "message") data | None => if response_in_error then None else Some (JBool false) end in
      let message := match json_nullish found (JStr <$> text) with Some m => m | None => JStr (js "OAuth failed") end in
      if cb_binding cb then handleBindingFailure now cb message s else handleLoginFailure cb message s
  end.

(** *** The page [oauth] *)

Definition oauth_page_self (redirect : option jstr) : AuthPage -> AuthPage := on_client (fun c => await (getSelf c) (OAuthSelf redirect)).
Definition open_oauth_page (provider code redirect : option jstr) (s : AuthPage) : AuthPage :=
  match provider, code with
  | Some p, Some code' =>
      if (p === js "wechat") && truthy code'
      then on_client (fun c => await (api_get (js "/api/oauth/wechat") (params_config [(js "code", JStr code')]) c) (OAuthWeChat redirect)) s
      else oauth_page_self redirect s
  | _, _ => oauth_page_self redirect s
  end.
Definition oauth_page_failed (s : AuthPage) : AuthPage := show (Navigate (js "/sign-in") None) (show (toast_error (js "OAuth failed")) s).
Definition oauth_wechat_answered (redirect : option jstr) (r : reply) (s : AuthPage) : AuthPage :=
  match r with Response _ => oauth_page_self redirect s | RequestError _ _ _ => oauth_page_failed s end.
Definition oauth_self_answered (redirect : option jstr) (r : reply) (s : AuthPage) : AuthPage :=
  if success_reply r then show (Navigate (or_default redirect (js "/dashboard")) None) (on_client (setUser (data_of r)) s) else oauth_page_failed s.

(** *** The machine *)

Definition resume (now : json) (r : reply) (t : task) (s : AuthPage) : AuthPage :=
  match t with
  | SignInAnswer redirectTo => signin_answered redirectTo r s
  | WeChatAnswer signup redirectTo => wechat_answered signup redirectTo r s
  | PasskeyBegun redirectTo => passkey_begun redirectTo r s
  | PasskeyFinished redirectTo => passkey_finished redirectTo r s
  | LoginSelf redirectTo way => login_self redirectTo way r s
  | OtpAnswer => otp_answered r s
  | RegisterAnswer => register_answered r s
  | CodeSent => code_sent r s
  | GuardSelf href => guard_answered href r s
  | SignOutAnswer => signed_out s
  | LoggedOutFor p => get_state p s
  | StateFor p => state_answered p r s
  | CallbackAnswer cb => callback_answered now cb r s
  | CallbackSelf cb otherwise => callback_self cb otherwise r s
  | OAuthWeChat redirect => oauth_wechat_answered redirect r s
  | OAuthSelf redirect => oauth_self_answered redirect r s
  end.
Definition page_answered (now : json) (id : nat) (r : reply) (s : AuthPage) : AuthPage :=
  match settle_request id r (pg_client s) with
  | None => s
  | Some (tasks, c) => foldl (fun s t => resume now r t s) (with_client c s) tasks
  end.

(** The effect of a new status: the agreement starts again when the need of one changes. *)
Definition load_status (status : option json) (s : AuthPage) : AuthPage :=
  let renew f := if Bool.eqb (requiresLegalConsent status) (requiresLegalConsent (pg_status s)) then f
                 else set_agreed (negb (requiresLegalConsent status)) f in
  with_forms status (renew (pg_signin s)) (renew (pg_signup s)) s.

Inductive auth_event : Type :=
| StatusLoaded (status : option json)
| PasskeySupport (supported : bool)
| Agree (signup agreed : bool)
| HumanChecked (signup : bool) (token : jstr)
| SubmitSignIn (username password : jstr) (redirectTo : option jstr)
| OpenWeChat (signup : bool)
| TypeWeChat (signup : bool) (code : jstr)
| CloseWeChat (signup : bool)
| SubmitWeChat (signup : bool) (redirectTo : option jstr)
| StartPasskey (has_credentials : bool) (redirectTo : option jstr)
| CredentialGiven (i : nat) (result : ceremony_result)
| TypeOtp (value : jstr)
| ToggleOtp
| SubmitOtp
| MountSignUp (utmSource utmMedium refHost : option jstr) (timeZone : jstr)
| TypeCode (code : jstr)
| SendCode (email : jstr)
| CountdownTick
| SubmitSignUp (username password confirmPassword email : jstr)
| TakeHandoff
| EnterProtected (href : jstr)
| OpenSignIn (redirect : option jstr)
| SignOut
| StartOAuth (signup : bool) (p : provider)
| GithubTimeout
| OpenCallback (cb : Callback)
| NavigationChecked (i : nat) (currentPath : jstr)
| WindowOpenStill
| OpenOAuthPage (provider code redirect : option jstr)
| AffiliateLink (aff : jstr)
| Answered (now : json) (id : nat) (r : reply)
| Reload (language : jstr) (status : option json).

(** A button that is disabled does nothing. *)
Definition unless (disabled : bool) (f : AuthPage -> AuthPage) (s : AuthPage) : AuthPage := if disabled then s else f s.
Definition auth_step (ev : auth_event) (s : AuthPage) : AuthPage :=
  match ev with
  | StatusLoaded status => load_status status s
  | PasskeySupport b => with_passkey b (pg_passkeyBusy s) (pg_prompts s) s
  | Agree signup b => change_form signup (set_agreed b) s
  | HumanChecked signup token => change_form signup (set_token token) s
  | SubmitSignIn username password redirectTo => unless (af_loading (pg_signin s) || consent_missing false s) (submit_signin username password redirectTo) s
  | OpenWeChat signup => unless (negb (wechat_login (pg_status s)) || af_loading (the_form signup s) || consent_missing signup s || pg_oauthLoading s
                                 || af_wechatBusy (the_form signup s)) (open_wechat signup) s
  | TypeWeChat signup code => change_form signup (fun f => set_wechat (af_wechatOpen f) code (af_wechatBusy f) f) s
  | CloseWeChat signup => change_form signup (set_wechat false [] false) s
  | SubmitWeChat signup redirectTo =>
      unless (negb (af_wechatOpen (the_form signup s)) || af_wechatBusy (the_form signup s) || negb (truthy (trim (af_wechatCode (the_form signup s))))
              || consent_missing signup s) (submit_wechat signup (if signup then None else redirectTo)) s
  | StartPasskey has_credentials redirectTo =>
      unless (pg_passkeyBusy s || negb (pg_passkeySupported s) || consent_missing false s) (start_passkey has_credentials redirectTo) s
  | CredentialGiven i result => credential_given i result s
  | TypeOtp value => type_otp value s
  | ToggleOtp => toggle_otp s
  | SubmitOtp => submit_otp s
  | MountSignUp utmSource utmMedium refHost timeZone => on_client (fun c => (captureAcquisitionMeta utmSource utmMedium refHost timeZone c).2) s
  | TypeCode code => with_email_code code (pg_sendingCode s) (pg_countdown s) s
  | SendCode email => unless (af_loading (pg_signup s) || pg_sendingCode s || ct_active (pg_countdown s) || negb (truthy email)) (sendCode email) s
  | CountdownTick => with_email_code (pg_code s) (pg_sendingCode s) (tick (pg_countdown s)) s
  | SubmitSignUp username password confirmPassword email =>
      unless (af_loading (pg_signup s) || consent_missing true s) (submit_signup username password confirmPassword email) s
  | TakeHandoff => on_client (fun c => (takeWelcomeHandoff c).2) s
  | EnterProtected href => enter_protected href s
  | OpenSignIn redirect => open_sign_in redirect s
  | SignOut => sign_out s
  | StartOAuth signup p =>
      unless (af_loading (the_form signup s) || consent_missing signup s || pg_oauthLoading s || (is_github p && gb_disabled (pg_github s))) (start_oauth p) s
  | GithubTimeout => github_timeout s
  | OpenCallback cb => open_callback cb s
  | NavigationChecked i currentPath => navigation_checked i currentPath s
  | WindowOpenStill => window_open_still s
  | OpenOAuthPage provider code redirect => open_oauth_page provider code redirect s
  | AffiliateLink aff => let aff := trim aff in if truthy aff then on_client (saveAffiliateCode aff) s else s
  | Answered now id r => page_answered now id r s
  | Reload language status => try_catch (load_page language status (cl_tab (pg_client s)) (cl_local (pg_client s))) s
  end.

(** Answers are JSON. *)
Definition reply_ok (r : reply) : Prop := match r with Response data => json_ok data | RequestError _ _ _ => True end.
Definition event_ok (ev : auth_event) : Prop := match ev with Answered _ _ r => reply_ok r | _ => True end.
(** *** The store and the protected pages *)

(** The request that asks the server who is signed in. *)
Definition self_request (rq : http_request) : Prop := rq_method rq = js "GET" /\ rq_url rq = js "/api/user/self".
Definition asked_self (rq : http_request) (t : task) : Prop := match t with GuardSelf _ => self_request rq | _ => True end.

(** The requests under way: their numbers, which of them are shared, and that the guard waits for such a request. *)
Record traffic_ok (c : Client task) : Prop := MkTraffic {
  tr_ids : NoDup (cl_open c).*1; tr_next : Forall (fun p => p.1 < cl_next c) (cl_open c);
  tr_shared : forall key id, (key, id) ∈ cl_inflight c -> exists rq, (id, rq) ∈ cl_open c /\ shared rq = true /\ key = get_key (rq_url rq) (rq_config rq);
  tr_callers : forall id t, (id, t) ∈ cl_callers c -> exists rq, (id, rq) ∈ cl_open c /\ asked_self rq t
}.

Lemma traffic_same c c' : traffic_ok c -> cl_open c' = cl_open c -> cl_inflight c' = cl_inflight c -> cl_next c' = cl_next c -> cl_callers c' = cl_callers c ->
  traffic_ok c'.
Proof. intros [H1 H2 H3 H4] E1 E2 E3 E4. constructor; by rewrite ?E1, ?E2, ?E3, ?E4. Qed.

Lemma traffic_sent method url config body c : traffic_ok c -> traffic_ok (http_send method url config body c).2 /\
  exists rq, ((http_send method url config body c).1, rq) ∈ cl_open (http_send method url config body c).2 /\
    rq_method rq = method /\ rq_url rq = url /\ rq_config rq = config.
Proof.
  intros [H1 H2 H3 H4]. unfold http_send. cbn [fst snd set_traffic cl_open].
  assert (forall p q, p ∈ cl_open c -> p ∈ cl_open c ++ [q]) as Hin by (intros p q H; apply elem_of_app; by left).
  split; [|eexists; rewrite elem_of_app, list_elem_of_singleton; split; [by right|done]].
  constructor; cbn [set_traffic cl_open cl_next cl_inflight cl_callers].
  - rewrite fmap_app. apply NoDup_app. split; [done|]. split; [|apply NoDup_singleton].
    intros i (p & E & Hp)%list_elem_of_fmap E'%list_elem_of_singleton. rewrite Forall_forall in H2. apply H2 in Hp. cbn in *. lia.
  - apply Forall_app. split; [|by apply Forall_singleton; cbn; lia]. eapply Forall_impl; [exact H2|]. cbn. lia.
  - intros key id (rq & Ho & Hs)%H3. exists rq. auto.
  - intros id t (rq & Ho & Hs)%H4. exists rq. auto.
Qed.

Lemma traffic_await c id rq t : traffic_ok c -> (id, rq) ∈ cl_open c -> asked_self rq t -> traffic_ok (await (id, c) t).
Proof.
  intros [H1 H2 H3 H4] Ho Ha. constructor; try done. intros i u. cbn. rewrite elem_of_app, list_elem_of_singleton. intros [H|[= -> ->]]; [by apply H4|by exists rq].
Qed.

Lemma self_key url config : get_key url config = get_key (js "/api/user/self") self_config -> url = js "/api/user/self".
Proof.
  rewrite get_key_text. unfold key_text. destruct (object_text_brace (default [] (cf_params config))) as [t ->]. intros E. vm_compute in E.
  do 14 (destruct url as [|? url]; [discriminate E|]; injection E as -> E). destruct url as [|? url]; [reflexivity|].
  injection E as _ E. do 3 (destruct url as [|? url]; [try discriminate E|]; try (injection E as _ E)); discriminate E.
Qed.

Definition waits_for (url : jstr) (config : request_config) (t : task) : Prop :=
  match t with GuardSelf _ => url = js "/api/user/self" /\ config = self_config | _ => True end.

Definition no_guard (t : task) : Prop := match t with GuardSelf _ => False | _ => True end.

Lemma traffic_get url config c t : waits_for url config t -> traffic_ok c -> traffic_ok (await (api_get url config c) t).
Proof.
  intros Ht Hc. unfold api_get. destruct (traffic_sent (js "GET") url config None c Hc) as [Hs (rq & Ho & Em & Eu & Ec)].
  assert (asked_self rq t) as Ha by (destruct t; try exact I; destruct Ht as [Hu _]; split; congruence).
  destruct (cf_disableDuplicate config) eqn:Ed.
  - destruct (http_send _ _ _ _ _) as [id c']. by apply (traffic_await c' id rq).
  - destruct (obj_get _ _) as [id|] eqn:E.
    + apply obj_get_elem in E. destruct (tr_shared c Hc _ _ E) as (q & Hq & Hsh & Hk). apply (traffic_await c id q); [done|done|].
      destruct t; try exact I. destruct Ht as [-> ->]. split; [|by symmetry in Hk; apply self_key in Hk].
      unfold shared in Hsh. apply andb_true_iff in Hsh as [Hsh _]. by apply js_eqb_true.
    + destruct (http_send _ _ _ _ _) as [id c']. cbn [fst snd] in *. apply (traffic_await _ id rq); [|done|done].
      destruct Hs as [H1 H2 H3 H4]. constructor; try done. cbn. intros key i. rewrite elem_of_app, list_elem_of_singleton. intros [H|[= -> ->]]; [by apply H3|].
      exists rq. split; [done|]. unfold shared. by rewrite Em, Eu, Ec, Ed.
Qed.

Lemma traffic_send method url config body c t : no_guard t -> traffic_ok c -> traffic_ok (await (http_send method url config body c) t).
Proof.
  intros Ht Hc. destruct (traffic_sent method url config body c Hc) as [Hs (rq & Ho & _)]. destruct (http_send _ _ _ _ _) as [id c'].
  apply (traffic_await c' id rq); [done|done|]. by destruct t.
Qed.

Lemma traffic_settled id r c ts c' : traffic_ok c -> settle_request id r c = Some (ts, c') ->
  traffic_ok c' /\ exists rq, (id, rq) ∈ cl_open c /\ Forall (asked_self rq) ts.
Proof.
  intros [H1 H2 H3 H4] (rq & Hin & Ets & Ei & Eo & En & Ec)%settled_at.
  assert (forall i q, (i, q) ∈ cl_open c' <-> i <> id /\ (i, q) ∈ cl_open c) as Ho by (intros; rewrite Eo; apply elem_others).
  split; [constructor|].
  - rewrite Eo. apply (sublist_NoDup _ (cl_open c).*1); [done|]. apply fmap_sublist, filter_sub.
  - rewrite En. apply Forall_forall. intros [i q] [_ H]%Ho. rewrite Forall_forall in H2. by apply H2 in H.
  - intros key i. rewrite Ei. unfold finally. fold (shared rq). intros H. assert ((key, i) ∈ cl_inflight c /\ (shared rq = true -> key <> get_key (rq_url rq) (rq_config rq))) as [Hk Hn].
    { destruct (shared rq); [apply elem_delete in H; tauto|done]. }
    destruct (H3 _ _ Hk) as (q & Hq & Hs & E). exists q. rewrite Ho. split; [|done]. split; [|done]. intros ->.
    rewrite (fst_unique _ _ _ _ H1 Hin Hq) in Hn. by apply Hn.
  - intros i t. rewrite Ec, elem_others. intros [Hne (q & Hq & Ha)%H4]. exists q. rewrite Ho. tauto.
  - exists rq. split; [done|]. rewrite Ets. apply Forall_forall. intros t Ht. apply list_elem_of_In, in_map_iff in Ht as ([i u] & E & [Hb Hi%Nat.eqb_eq]%filter_In).
    cbn in *. subst. apply list_elem_of_In, H4 in Hb as (q & Hq & Ha). by rewrite (fst_unique _ _ _ _ H1 Hin Hq).
Qed.

Definition entered_ok (verified : bool) (e : browser_effect) : Prop :=
  match e with EnterPage _ user => truthy_json user = true /\ verified = true | _ => True end.
Definition session_ok (v : bool) (c : Client task) : Prop := mirrored c /\ Forall (entered_ok v) (cl_out c) /\ traffic_ok c.
Definition auth_ok (s : AuthPage) : Prop := session_ok (pg_verified s) (pg_client s).

Lemma session_same v c c' : session_ok v c -> cl_user c' = cl_user c -> obj_get (js "user") (cl_local c') = obj_get (js "user") (cl_local c) ->
  cl_out c' = cl_out c -> traffic_ok c' -> session_ok v c'.
Proof. intros (H1 & H2 & _) Eu El Eo Ht. split; [by apply (mirrored_same c)|]. by rewrite Eo. Qed.
Lemma session_kept v c c' : session_ok v c -> cl_user c' = cl_user c -> obj_get (js "user") (cl_local c') = obj_get (js "user") (cl_local c) ->
  cl_out c' = cl_out c -> cl_open c' = cl_open c -> cl_inflight c' = cl_inflight c -> cl_next c' = cl_next c -> cl_callers c' = cl_callers c -> session_ok v c'.
Proof. intros H Eu El Eo E1 E2 E3 E4. apply (session_same v c); try done. by apply (traffic_same c); [apply H|..]. Qed.
Lemma session_emit v e c : entered_ok v e -> session_ok v c -> session_ok v (emit_effect e c).
Proof.
  intros He (H1 & H2 & H3). split; [by apply (mirrored_same c)|]. split; [|by apply (traffic_same c)]. apply Forall_app. split; [done|by constructor].
Qed.
Lemma session_set v user c : (forall u, user = Some u -> json_ok u) -> session_ok v c -> session_ok v (setUser user c).
Proof. intros Hu (_ & H2 & H3). split; [by apply setUser_mirrored|]. split; [done|by apply (traffic_same c)]. Qed.
Lemma session_reset v c : session_ok v c -> session_ok v (reset_user c).
Proof. intros (_ & H2 & H3). split; [apply reset_mirrored|]. split; [done|by apply (traffic_same c)]. Qed.
Lemma session_local v k x c : k <> js "user" -> session_ok v c -> session_ok v (set_local (obj_set k x (cl_local c)) c).
Proof. intros Hk H. apply (session_kept v c); try done. cbn. by apply obj_get_set_ne. Qed.
Lemma get_store {T} url config (c : Client T) : cl_user (api_get url config c).2 = cl_user c /\ cl_local (api_get url config c).2 = cl_local c /\ cl_out (api_get url config c).2 = cl_out c.
Proof. unfold api_get, http_send. by repeat case_match; simplify_eq. Qed.
Lemma session_await_get v url config c t : waits_for url config t -> session_ok v c -> session_ok v (await (api_get url config c) t).
Proof.
  intros Ht H. pose proof (traffic_get url config c t Ht (proj2 (proj2 H))) as Htr. destruct (get_store url config c) as (E1 & E2 & E3).
  destruct (api_get url config c) as [id c']. cbn [fst snd] in *. apply (session_same v c); cbn; try done. by rewrite E2.
Qed.
Lemma session_await_self v c t : session_ok v c -> session_ok v (await (getSelf c) t).
Proof. apply session_await_get. by destruct t. Qed.
Lemma session_await_send v method url config body c t : no_guard t -> session_ok v c ->
  session_ok v (await (http_send method url config body c) t).
Proof. intros Ht H. apply (session_same v c); try done. by apply traffic_send; [|apply H]. Qed.
Lemma session_await_post v url body config c t : no_guard t -> session_ok v c ->
  session_ok v (await (api_post url body config c) t).
Proof. apply session_await_send. Qed.
Lemma session_saved_id v id c : session_ok v c -> session_ok v (saved_id id c).
Proof. intros H. unfold saved_id. repeat case_match; try done. by apply session_local. Qed.
Lemma session_adopt v u c : json_ok u -> session_ok v c -> session_ok v (adopt_user u c).
Proof.
  intros Hu H. assert (session_ok v (setUser (Some u) c)) as H' by (apply session_set; [by intros ? [= <-]|done]).
  unfold adopt_user. repeat case_match; try done; by apply session_local.
Qed.
Lemma session_remove_uid v c : session_ok v c -> session_ok v (removeUserId c).
Proof. intros H. apply (session_kept v c); try done. cbn. by apply obj_get_delete_ne. Qed.
Lemma session_tab v tab c : session_ok v c -> session_ok v (set_tab tab c).
Proof. intros H. by apply (session_kept v c). Qed.
Lemma session_intercept v config r c : session_ok v c -> session_ok v (intercept config r c).
Proof. intros H. unfold intercept, on_response, on_failure. repeat case_match; try done; try (by apply session_emit). by apply session_reset, session_emit. Qed.
Lemma session_settled v id r c ts c' : session_ok v c -> settle_request id r c = Some (ts, c') -> session_ok v c'.
Proof.
  intros H E. pose proof (traffic_settled id r c ts c' (proj2 (proj2 H)) E) as [Ht _]. revert E. unfold settle_request.
  destruct (List.find _ _) as [[i rq]|]; [|done]. intros E. injection E as _ <-.
  apply (session_same v (intercept (rq_config rq) r c)); try done. by apply session_intercept.
Qed.

Lemma at_prop_ok k v w : json_ok v -> at_prop k (Some v) = Some w -> json_ok w.
Proof.
  destruct v as [| | | | |o]; try done. intros H E. cbn in E. apply obj_get_elem in E. apply json_ok_obj in H as [_ H].
  rewrite Forall_forall in H. by apply H in E as [_ ?].
Qed.

Lemma ok_show e s : entered_ok (pg_verified s) e -> auth_ok s -> auth_ok (show e s).
Proof. intros He H. by apply session_emit. Qed.
Lemma ok_client f s : (forall c, session_ok (pg_verified s) c -> session_ok (pg_verified s) (f c)) -> auth_ok s -> auth_ok (on_client f s).
Proof. intros Hf H. by apply Hf. Qed.
Lemma ok_forms status f g s : auth_ok s -> auth_ok (with_forms status f g s).
Proof. done. Qed.
Lemma ok_change signup f s : auth_ok s -> auth_ok (change_form signup f s).
Proof. by destruct signup. Qed.
Lemma ok_signin f s : auth_ok s -> auth_ok (change_signin f s).
Proof. done. Qed.
Lemma ok_signup f s : auth_ok s -> auth_ok (change_signup f s).
Proof. done. Qed.
Lemma ok_language l s : auth_ok s -> auth_ok (with_language l s).
Proof. done. Qed.
Lemma ok_passkey a b l s : auth_ok s -> auth_ok (with_passkey a b l s).
Proof. done. Qed.
Lemma ok_code a b l s : auth_ok s -> auth_ok (with_email_code a b l s).
Proof. done. Qed.
Lemma ok_otp a b l s : auth_ok s -> auth_ok (with_otp a b l s).
Proof. done. Qed.
Lemma ok_oauth a b s : auth_ok s -> auth_ok (with_oauth a b s).
Proof. done. Qed.
Lemma ok_timers a b s : auth_ok s -> auth_ok (with_timers a b s).
Proof. done. Qed.
Lemma ok_unless b f s : auth_ok s -> auth_ok (f s) -> auth_ok (unless b f s).
Proof. by destruct b. Qed.

#[local] Hint Resolve ok_show ok_client ok_forms ok_change ok_signin ok_signup ok_language ok_passkey ok_code ok_otp ok_oauth ok_timers ok_unless
  session_emit session_set session_reset session_await_get session_await_self session_await_send session_await_post session_saved_id
  session_adopt session_remove_uid session_tab : page.
#[local] Hint Extern 1 (entered_ok _ _) => exact I : page.
#[local] Hint Extern 1 (waits_for _ _ _) => exact I : page.
#[local] Hint Extern 1 (no_guard _) => exact I : page.
#[local] Hint Extern 1 (forall u, Some _ = Some u -> json_ok u) => (intros ? [= <-]) : page.

Lemma self_user_ok r u : reply_ok r -> self_user r = Some u -> json_ok u /\ json_truthy u = true.
Proof.
  intros Hr. unfold self_user. destruct (success_reply r); [|done]. destruct (data_of r) as [w|] eqn:E; [|done]. destruct (json_truthy w) eqn:Et; [|done].
  intros [= <-]. split; [|done]. destruct r as [d|]; [|done]. by eapply at_prop_ok.
Qed.
Lemma data_of_ok r u : reply_ok r -> data_of r = Some u -> json_ok u.
Proof. intros Hr E. destruct r as [d|]; [|done]. by eapply at_prop_ok. Qed.

Lemma handle_login_ok d redirectTo way s : auth_ok s -> auth_ok (handleLoginSuccess d redirectTo way s).
Proof. unfold handleLoginSuccess. eauto with page. Qed.
Lemma after_login_ok way s : auth_ok s -> auth_ok (after_login way s).
Proof. destruct way; unfold after_login; eauto with page. Qed.
Lemma restore_language_ok u s : auth_ok s -> auth_ok (restore_language u s).
Proof. unfold restore_language. repeat case_match; eauto with page. Qed.
Lemma safe_navigate_ok target s : auth_ok s -> auth_ok (safeNavigate target s).
Proof. unfold safeNavigate. eauto with page. Qed.
Lemma redirect_ok cb s : auth_ok s -> auth_ok (redirectAfterLogin cb s).
Proof. unfold redirectAfterLogin. eauto using safe_navigate_ok with page. Qed.
Lemma finalize_ok cb n s : auth_ok s -> auth_ok (finalize cb n s).
Proof. unfold finalize. eauto with page. Qed.
Lemma notify_ok now cb status s : auth_ok s -> auth_ok (notifyBindingResult now cb status s).
Proof. intros H. unfold notifyBindingResult. apply ok_client; [|done]. intros c Hc. by apply session_local. Qed.
Lemma wechat_idle_ok signup s : auth_ok s -> auth_ok (wechat_idle signup s).
Proof. unfold wechat_idle. eauto with page. Qed.
Lemma passkey_idle_ok s : auth_ok s -> auth_ok (passkey_idle s).
Proof. done. Qed.
Lemma passkey_failed_ok m s : auth_ok s -> auth_ok (passkey_failed m s).
Proof. unfold passkey_failed. eauto using passkey_idle_ok with page. Qed.
Lemma oauth_failed_ok p m s : auth_ok s -> auth_ok (oauth_failed p m s).
Proof. unfold oauth_failed. eauto with page. Qed.
#[local] Hint Resolve handle_login_ok after_login_ok restore_language_ok safe_navigate_ok redirect_ok finalize_ok notify_ok wechat_idle_ok passkey_idle_ok
  passkey_failed_ok oauth_failed_ok : page.

Ltac page_cases := intros; repeat case_match; eauto 12 with page.

Lemma callback_user_ok cb r s : reply_ok r -> auth_ok s -> auth_ok (callback_user cb r s).
Proof. intros Hr H. unfold callback_user. page_cases. apply redirect_ok, ok_client; [|done]. intros c. apply session_adopt. by eapply data_of_ok. Qed.
Lemma callback_answered_ok now cb r s : reply_ok r -> auth_ok s -> auth_ok (callback_answered now cb r s).
Proof. intros Hr H. pose proof (callback_user_ok cb r s Hr H). unfold callback_answered, handleLoginFailure, handleBindingFailure. page_cases. Qed.
Lemma callback_self_ok cb n r s : reply_ok r -> auth_ok s -> auth_ok (callback_self cb n r s).
Proof.
  intros Hr H. unfold callback_self, handleLoginFailure. destruct (self_user r) as [u|] eqn:E; [|page_cases]. destruct (self_user_ok r u Hr E) as [Hu _]. eauto 12 with page.
Qed.
Lemma login_self_ok redirectTo way r s : reply_ok r -> auth_ok s -> auth_ok (login_self redirectTo way r s).
Proof.
  intros Hr H. unfold login_self. destruct (self_user r) as [u|] eqn:E; [|eauto with page]. destruct (self_user_ok r u Hr E) as [Hu _].
  apply after_login_ok, ok_show; [done|]. apply restore_language_ok, ok_client; [|done]. intros c Hc. by apply session_saved_id, session_set; [intros ? [= <-]|].
Qed.
Lemma otp_answered_ok r s : reply_ok r -> auth_ok s -> auth_ok (otp_answered r s).
Proof.
  intros Hr H. unfold otp_answered. destruct r as [d|]; [|eauto with page]. destruct d; page_cases;
    (apply ok_otp, ok_show; [done|]; apply ok_show; [done|]; apply ok_client; [|done]; intros c Hc; apply session_saved_id, session_set; [intros ? [= <-]; by eapply data_of_ok|done]).
Qed.
Lemma guard_ok href r s : reply_ok r -> auth_ok s -> auth_ok (guard_answered href r s).
Proof.
  intros Hr (H1 & H2 & H3). unfold guard_answered. destruct (self_user r) as [u|] eqn:E.
  - destruct (self_user_ok r u Hr E) as [Hu Ht]. apply ok_show; [by split|]. split; [apply setUser_mirrored; by intros ? [= <-]|].
    split; [|by apply (traffic_same (pg_client s))]. cbn. eapply Forall_impl; [exact H2|]. intros [] He; try exact I. by destruct He.
  - apply ok_show; [done|]. by apply ok_client; [intros c; apply session_reset|].
Qed.

Lemma resume_ok now r t s : reply_ok r -> auth_ok s -> auth_ok (resume now r t s).
Proof.
  intros Hr H. destruct t; cbn [resume].
  - unfold signin_answered. page_cases.
  - unfold wechat_answered. page_cases.
  - unfold passkey_begun. page_cases.
  - unfold passkey_finished. page_cases.
  - by apply login_self_ok.
  - by apply otp_answered_ok.
  - unfold register_answered, setWelcomeHandoff. page_cases.
  - unfold code_sent. page_cases.
  - by apply guard_ok.
  - unfold signed_out. eauto 12 with page.
  - unfold get_state. eauto 12 with page.
  - unfold state_answered. page_cases.
  - by apply callback_answered_ok.
  - by apply callback_self_ok.
  - unfold oauth_wechat_answered, oauth_page_self, oauth_page_failed. page_cases.
  - unfold oauth_self_answered, oauth_page_failed. destruct (success_reply r); [|eauto 12 with page]. apply ok_show; [done|]. apply ok_client; [|done].
    intros c. apply session_set. intros u. by apply data_of_ok.
Qed.

Lemma loaded_ok language status tab local s : load_page language status tab local = Ret s -> auth_ok s.
Proof.
  unfold load_page. destruct (initUser (Some local)) as [[u l]|] eqn:E; [|done]. cbn [obind fst snd]. intros [= <-]. split; [|split; [constructor|]].
  - exists u. cbn [pg_client cl_local cl_user]. split; [by eapply initUser_stable|]. by destruct (truthy_json u).
  - split; cbn; try constructor; intros ? ? H; by apply elem_of_nil in H.
Qed.

Lemma auth_step_ok ev s : event_ok ev -> auth_ok s -> auth_ok (auth_step ev s).
Proof.
  intros He H. destruct ev; cbn [auth_step]; eauto 12 with page.
  - apply ok_unless; [done|]. unfold submit_signin. page_cases.
  - apply ok_unless; [done|]. unfold open_wechat. page_cases.
  - apply ok_unless; [done|]. unfold submit_wechat. page_cases.
  - apply ok_unless; [done|]. unfold start_passkey. page_cases.
  - unfold credential_given. page_cases.
  - unfold submit_otp. page_cases.
  - apply ok_client; [|done]. intros c. apply session_tab.
  - unfold sendCode. apply ok_unless; [done|]. page_cases.
  - apply ok_unless; [done|]. unfold submit_signup. page_cases.
  - apply ok_client; [|done]. intros c Hc. unfold takeWelcomeHandoff. repeat case_match; cbn [snd]; auto with page.
  - unfold enter_protected. destruct (truthy_json (cl_user (pg_client s))) eqn:Et; cbn [negb]; [|eauto with page].
    destruct (pg_verified s) eqn:Ev; [|eauto with page]. apply ok_show; [|done]. by rewrite Ev.
  - unfold open_sign_in. page_cases.
  - unfold sign_out. eauto with page.
  - apply ok_unless; [done|]. unfold start_oauth. page_cases.
  - unfold github_timeout. page_cases.
  - unfold open_callback. page_cases.
  - unfold navigation_checked. page_cases.
  - unfold window_open_still. page_cases.
  - unfold open_oauth_page, oauth_page_self. page_cases.
  - case_match; [|done]. apply ok_client; [|done]. intros c Hc. by apply session_local.
  - unfold page_answered. destruct (settle_request id r (pg_client s)) as [[ts c]|] eqn:E; [|done]. assert (auth_ok (with_client c s)) as H' by (by apply (session_settled _ id r (pg_client s) ts)).
    clear E. revert H'. generalize (with_client c s). induction ts as [|t ts IH]; intros s' H'; [done|]. cbn [foldl]. by apply IH, resume_ok.
  - destruct (load_page _ _ _ _) as [s'|] eqn:E; [|done]. by eapply loaded_ok.
Qed.

(** *** The flag of the guard *)

(** The answer of a server that knows the user of the session. *)
Definition knows_user (r : reply) : Prop := exists data user, r = Response data /\ truthy_json (at_prop (js "success") (Some data)) = true /\
  at_prop (js "data") (Some data) = Some user /\ json_truthy user = true.
Definition no_reload (ev : auth_event) : Prop := match ev with Reload _ _ => False | _ => True end.
Definition run_auth (evs : list auth_event) (s : AuthPage) : AuthPage := foldl (fun s ev => auth_step ev s) s evs.

(** Among the events is the answer to a request under way for the user of the session, and it has one. *)
Definition confirmed_by (s : AuthPage) (evs : list auth_event) : Prop :=
  exists before now id r after rq, evs = before ++ Answered now id r :: after /\
    (id, rq) ∈ cl_open (pg_client (run_auth before s)) /\ rq_method rq = js "GET" /\ rq_url rq = js "/api/user/self" /\ knows_user r.

Lemma self_user_knows r u : self_user r = Some u -> knows_user r.
Proof.
  unfold self_user. destruct (success_reply r) eqn:Es; [|done]. destruct (data_of r) as [w|] eqn:Ed; [|done]. destruct (json_truthy w) eqn:Ew; [|done].
  intros _. destruct r as [data|]; [|done]. by exists data, w.
Qed.

Ltac flag_unfold := unfold signin_answered, wechat_answered, passkey_begun, passkey_finished, login_self, otp_answered, register_answered, code_sent, signed_out,
  get_state, state_answered, callback_answered, callback_self, oauth_wechat_answered, oauth_self_answered, handleLoginSuccess, handleLoginFailure,
  handleBindingFailure, callback_user, finalize, notifyBindingResult, redirectAfterLogin, safeNavigate, after_login, restore_language, oauth_page_failed,
  oauth_page_self, oauth_failed, wechat_idle, passkey_idle, passkey_failed, unless, submit_signin, open_wechat, submit_wechat, start_passkey,
  credential_given, type_otp, toggle_otp, submit_otp, sendCode, submit_signup, enter_protected, open_sign_in, sign_out, start_oauth, github_timeout,
  open_callback, navigation_checked, window_open_still, open_oauth_page, load_status, change_form.

Lemma resume_flag now r t s : pg_verified (resume now r t s) = true -> pg_verified s = true \/ (exists href, t = GuardSelf href) /\ knows_user r.
Proof.
  destruct t; cbn [resume].
  9: { unfold guard_answered. destruct (self_user r) as [u|] eqn:E; [|by left]. intros _. right. split; [by eexists|by eapply self_user_knows]. }
  all: intros H; left; revert H; flag_unfold; repeat (case_match; try done); try done.
Qed.

Lemma tasks_flag now r ts : forall s, pg_verified (foldl (fun s t => resume now r t s) s ts) = true ->
  pg_verified s = true \/ (exists href, GuardSelf href ∈ ts) /\ knows_user r.
Proof.
  induction ts as [|t ts IH]; intros s; [by left|]. cbn [foldl]. intros [H|[[href H] Hk]]%IH.
  - apply resume_flag in H as [H|[[href ->] Hk]]; [by left|]. right. split; [exists href; left|done].
  - right. split; [exists href; by right|done].
Qed.

Lemma step_flag ev s : auth_ok s -> no_reload ev -> pg_verified (auth_step ev s) = true ->
  pg_verified s = true \/ exists now id r rq, ev = Answered now id r /\ (id, rq) ∈ cl_open (pg_client s) /\ self_request rq /\ knows_user r.
Proof.
  intros Hs Hev. destruct ev; cbn [auth_step]; try done.
  31: { unfold page_answered. destruct (settle_request id r (pg_client s)) as [[ts c]|] eqn:E; [|by left]. intros [H|[[href Hin] Hk]]%tasks_flag; [by left|].
        right. destruct (traffic_settled _ _ _ _ _ (proj2 (proj2 Hs)) E) as (_ & rq & Ho & Ha). rewrite Forall_forall in Ha. exists now, id, r, rq.
        split; [done|]. split; [done|]. split; [by apply (Ha _ Hin)|done]. }
  all: intros H; left; revert H; flag_unfold; repeat (case_match; try done); cbn; congruence.
Qed.

Lemma run_confirmed s evs : auth_ok s -> pg_verified s = false -> Forall event_ok evs -> Forall no_reload evs ->
  auth_ok (run_auth evs s) /\ (pg_verified (run_auth evs s) = true -> confirmed_by s evs).
Proof.
  intros Hs Hv. induction evs as [|ev evs IH] using rev_ind; intros Ho Hst; [split; [done|]; cbn; congruence|].
  apply Forall_app in Ho as [Ho [He _]%Forall_cons]. apply Forall_app in Hst as [Hst [Hev _]%Forall_cons].
  destruct (IH Ho Hst) as [Hok Hc]. unfold run_auth in *. rewrite foldl_app. cbn [foldl]. split; [by apply auth_step_ok|].
  intros [H|(now & id & r & rq & -> & Hin & [H1 H2] & Hk)]%step_flag; [| |done|done].
  - destruct (Hc H) as (before & now & id & r & after & rq & -> & Hrest). exists before, now, id, r, (after ++ [ev]), rq.
    split; [by rewrite <-app_assoc|done].
  - by exists evs, now, id, r, [], rq.
Qed.

(** C29: from the moment a page is loaded, whatever happens on it (logins of every kind, second factors, callbacks, expired sessions, answers in
    any order): a protected page is entered only with a user, and only after the server answered a request to [/api/user/self] that was
    under way with a success that holds a user; that answer came after this load of the page.  Loading the page anew
    forgets that confirmation and gives the user of the store again: the same one, or none when there was none. *)
Theorem session_guarded language status tab local start evs :
  load_page language status tab local = Ret start -> Forall event_ok evs -> Forall no_reload evs ->
  let s := run_auth evs start in
  (forall href user, EnterPage href user ∈ cl_out (pg_client s) -> truthy_json user = true /\ confirmed_by start evs) /\
  (forall language status, let s' := auth_step (Reload language status) s in
    pg_verified s' = false /\ cl_out (pg_client s') = [] /\
    if truthy_json (cl_user (pg_client s)) then cl_user (pg_client s') = cl_user (pg_client s)
    else truthy_json (cl_user (pg_client s')) = false).
Proof.
  intros Hl He Hst s. assert (pg_verified start = false) as Hv.
  { revert Hl. unfold load_page. destruct (initUser (Some local)); [|done]. by intros [= <-]. }
  destruct (run_confirmed start evs (loaded_ok _ _ _ _ _ Hl) Hv He Hst) as [((u & Hu & Ht) & Ho & _) Hc]. split.
  - intros href user Hin. rewrite Forall_forall in Ho. destruct (Ho (EnterPage href user) Hin). auto.
  - intros l st. cbn [auth_step]. unfold load_page. fold s in Hu. rewrite Hu. cbn [obind try_catch fst snd pg_verified pg_client cl_user cl_out]. done.
Qed.
End pages.

(** ** Codes and countdowns *)

Lemma code_char_range c : code_char c = true <-> (48 <= c <= 57)%N \/ (65 <= c <= 90)%N.
Proof. unfold code_char, is_digit. rewrite orb_true_iff, !andb_true_iff, !N.leb_le. tauto. Qed.
Lemma upper_id s : forallb (fun c => negb ((97 <=? c) && (c <=? 122))%N) s = true -> upper s = s.
Proof.
  induction s as [|c s IH]; [done|]. cbn. intros [H1%negb_true_iff H2]%andb_true_iff. rewrite H1. f_equal. by apply IH.
Qed.
Lemma upper_codes s : forallb code_char s = true -> upper s = s.
Proof.
  intros H. apply upper_id. rewrite forallb_forall in *. intros c Hc%H%code_char_range. apply negb_true_iff, andb_false_iff. rewrite !N.leb_gt. lia.
Qed.
Lemma filter_all {A} (f : A -> bool) l : forallb f l = true -> List.filter f l = l.
Proof. induction l as [|x l IH]; [done|]. cbn. intros [-> H]%andb_true_iff. f_equal. by apply IH. Qed.
Lemma codes_of s : forallb code_char (List.filter code_char s) = true.
Proof. apply forallb_forall. by intros c [_ H]%filter_In. Qed.
Lemma codes_take n s : forallb code_char s = true -> forallb code_char (take n s) = true.
Proof. rewrite !forallb_forall. intros H c Hc. apply H. rewrite <-(take_drop n s). apply in_app_iff. by left. Qed.
Lemma codes_drop n s : forallb code_char s = true -> forallb code_char (drop n s) = true.
Proof. rewrite !forallb_forall. intros H c Hc. apply H. rewrite <-(take_drop n s). apply in_app_iff. by right. Qed.
Lemma codes_no_hyphen s : forallb code_char s = true -> cleanBackupCode s = s.
Proof.
  intros H. apply filter_all. rewrite forallb_forall in *. intros c Hc%H%code_char_range. apply negb_true_iff, N.eqb_neq. lia.
Qed.

(** The letters and digits of what is typed, at most eight. *)
Definition code_letters (v : jstr) : jstr := take 8 (List.filter code_char (upper v)).
Definition hyphenated (l : jstr) : jstr := if Nat.ltb 4 (length l) then take 4 l ++ js "-" ++ drop 4 l else l.
Lemma format_letters v : formatBackupCode v = hyphenated (code_letters v).
Proof.
  unfold formatBackupCode, code_letters, hyphenated. destruct (Nat.ltb_spec 8 (length (List.filter code_char (upper v)))); [done|].
  rewrite (take_ge _ 8); [done|lia].
Qed.
Lemma filter_hyphenated (f : N -> bool) l : forallb f l = true -> f 45%N = false -> List.filter f (hyphenated l) = l.
Proof.
  intros Hl Hf. unfold hyphenated. destruct (Nat.ltb_spec 4 (length l)); [|by apply filter_all]. change (js "-") with [45%N]. rewrite !List.filter_app. cbn [List.filter]. rewrite Hf.
  cbn [app]. rewrite <-List.filter_app, take_drop. by apply filter_all.
Qed.
Lemma upper_hyphenated l : forallb code_char l = true -> upper (hyphenated l) = hyphenated l.
Proof.
  intros H. apply upper_id. apply forallb_forall. intros c Hc. assert (c = 45%N \/ In c l) as [->|Hi]; [|done|].
  - unfold hyphenated in Hc. destruct (Nat.ltb 4 (length l)); [|by right]. rewrite !in_app_iff in Hc. rewrite <-(take_drop 4 l), in_app_iff. cbn in Hc. intuition.
  - rewrite forallb_forall in H. apply H, code_char_range in Hi. apply negb_true_iff, andb_false_iff. rewrite !N.leb_gt. lia.
Qed.

(** What the field for a backup code shows is a code as soon as it is complete: typing gives the first eight letters and digits in capitals with a
    hyphen in the middle, formatting it again changes nothing, it is a valid code exactly when it has nine characters, which is when it can be
    sent, and what is sent are the eight letters and digits. *)
Lemma backup_code v : let shown := formatBackupCode v in
  formatBackupCode shown = shown /\ cleanBackupCode shown = code_letters v /\ length shown <= BACKUP_CODE_LENGTH /\
  isValidBackupCode shown = Nat.leb BACKUP_CODE_LENGTH (length shown).
Proof.
  intros shown. subst shown. rewrite (format_letters v). assert (forallb code_char (code_letters v) = true) as Hl by apply codes_take, codes_of.
  assert (length (code_letters v) <= 8) as Hn by (unfold code_letters; rewrite length_take; lia).
  assert (code_letters (hyphenated (code_letters v)) = code_letters v) as Ei.
  { unfold code_letters at 1. rewrite upper_hyphenated by done. rewrite filter_hyphenated by done. by rewrite (take_ge _ 8) by lia. }
  revert Hl Hn Ei. generalize (code_letters v) as l. intros l Hl Hn Ei. split; [by rewrite format_letters, Ei|]. split; [|split].
  - unfold cleanBackupCode. apply filter_hyphenated; [|done]. rewrite forallb_forall in *. intros c Hc%Hl%code_char_range. apply negb_true_iff, N.eqb_neq. lia.
  - unfold hyphenated, BACKUP_CODE_LENGTH. destruct (Nat.ltb_spec 4 (length l)); [|lia]. change (js "-") with [45%N]. rewrite !length_app, length_take, length_drop. cbn [length]. lia.
  - unfold isValidBackupCode, hyphenated, BACKUP_CODE_LENGTH. destruct (Nat.ltb_spec 4 (length l)) as [H4|H4].
    + change (js "-") with [45%N]. assert (length (take 4 l) = 4) as E4 by (rewrite length_take; lia).
      rewrite take_app_le, take_take, (drop_app_ge (take 4 l) _ 4), (drop_app_ge (take 4 l) _ 5), E4 by lia. change (5 - 4) with 1. cbn [Nat.sub Nat.min drop app take]. rewrite drop_0, firstn_O.
      rewrite !upper_codes by (by apply codes_take || by apply codes_drop). rewrite codes_take, codes_drop by done. rewrite length_app, E4. cbn [length].
      rewrite length_drop. destruct (Nat.eqb_spec (4 + S (length l - 4)) 9), (Nat.leb_spec 9 (4 + S (length l - 4))); try lia; done.
    + destruct (Nat.eqb_spec (length l) 9); [lia|]. symmetry. apply Nat.leb_gt. lia.
Qed.

(** A countdown ends after its seconds, and not before. *)
Fixpoint ticks (n : nat) (c : Countdown) : Countdown := match n with O => c | S n => ticks n (tick c) end.
Lemma ticks_add n m c : ticks (n + m) c = ticks m (ticks n c).
Proof. revert c. induction n as [|n IH]; intros c; [done|]. cbn. apply IH. Qed.
Lemma countdown_ends c seconds : (0 < seconds)%Z ->
  (forall n, (Z.of_nat n < seconds)%Z -> let c' := ticks n (start_countdown (Some seconds) c) in ct_active c' = true /\ ct_left c' = (seconds - Z.of_nat n)%Z) /\
  ticks (Z.to_nat seconds) (start_countdown (Some seconds) c) = MkCountdown (ct_initial c) (ct_initial c) false false.
Proof.
  intros Hs. change (start_countdown (Some seconds) c) with (MkCountdown (ct_initial c) seconds true true). assert (forall n left, (Z.of_nat n < left)%Z ->
    ticks n (MkCountdown (ct_initial c) left true true) = MkCountdown (ct_initial c) (left - Z.of_nat n) true true) as Hn.
  { intros n. induction n as [|n IH]; intros left Hl; [cbn; f_equal; lia|]. cbn [ticks]. unfold tick. cbn [ct_timer ct_left ct_initial negb ct_active].
    destruct (Z.leb_spec left 1); [lia|]. rewrite IH by lia. f_equal; lia. }
  split; [intros n H; by rewrite Hn|].
  replace (Z.to_nat seconds) with (Z.to_nat (seconds - 1) + 1) by lia. rewrite ticks_add, Hn by lia.
  cbn [ticks]. unfold tick. cbn [ct_timer ct_left ct_initial negb]. destruct (Z.leb_spec (seconds - Z.of_nat (Z.to_nat (seconds - 1))) 1); [done|lia].
Qed.

(** ** Examples and oddities *)

Definition sample_url (base : jstr) (_ : list (jstr * jstr)) : option jstr := Some base.
Definition no_options (_ : option json) : jstr + json := inr JNull.
Abbreviation run_page events start := (foldl (fun p ev => auth_step sample_url [] [] no_options false ev p) start events).

Definition user_named (id : Z) : json := JObj [(js "id", JNum (num_of_Z id)); (js "username", JStr (js "u"))].
Definition success (data : json) : reply := Response (JObj [(js "success", JBool true); (js "data", data)]).
Definition refused (m : jstr) : reply := Response (JObj [(js "success", JBool false); (js "message", JStr m)]).
Definition empty_page (status : option json) : AuthPage := try_catch (load_page (js "en") status [] []) (MkPage (MkClient [] [] None [] [] 0 [] []) None false []
  (new_form None) (new_form None) false false [] [] false (new_countdown 30) false false [] false idle_github [] false).
(** Signed in as the user [id]. *)
Definition signed_in (id : Z) (status : option json) : AuthPage := on_client (fun c => saveUserId (num_to_str (num_of_Z id)) (setUser (Some (user_named id)) c)) (empty_page status).
Definition has_effect (e : browser_effect) (s : AuthPage) : Prop := e ∈ cl_out (pg_client s).
Definition login_events : list auth_event :=
  [SubmitSignIn (js "root") (js "12345678") (Some (js "/keys")); Answered JNull 0 (success (user_named 7)); Answered JNull 1 (success (user_named 7));
   EnterProtected (js "/keys"); Answered JNull 2 (success (user_named 7))].

Lemma user_named_ok : json_ok (user_named 7).
Proof.
  apply json_ok_obj. split; [vm_compute; reflexivity|]. apply Forall_cons. split; [split; [by apply utf16b_spec|num_ok_eval]|].
  apply Forall_singleton. split; by apply utf16b_spec.
Qed.
Lemma success_ok d : json_ok d -> reply_ok (success d).
Proof.
  intros Hd. apply json_ok_obj. split; [vm_compute; reflexivity|]. apply Forall_cons. split; [split; [by apply utf16b_spec|done]|].
  apply Forall_singleton. split; [by apply utf16b_spec|done].
Qed.

Lemma session_guarded_witness :
  let s := run_auth sample_url [] [] no_options false login_events (empty_page None) in
  EnterPage (js "/keys") (Some (user_named 7)) ∈ cl_out (pg_client s) /\
  confirmed_by sample_url [] [] no_options false (empty_page None) login_events /\
  cl_user (pg_client (auth_step sample_url [] [] no_options false (Reload (js "en") None) s)) = Some (user_named 7).
Proof.
  intros s. destruct (session_guarded sample_url [] [] no_options false (js "en") None [] [] (empty_page None) login_events eq_refl) as [H1 H2].
  { unfold login_events. pose proof (success_ok _ user_named_ok). repeat (constructor; [first [exact I|done]|]). constructor. }
  { unfold login_events. repeat (constructor; [exact I|]). constructor. }
  assert (EnterPage (js "/keys") (Some (user_named 7)) ∈ cl_out (pg_client s)) as Hin by (apply list_elem_of_In; vm_compute; tauto).
  split; [exact Hin|]. split; [by apply (H1 _ _ Hin)|]. apply (H2 (js "en") None).
Defined.

(** An address with a foreign [redirect] takes a signed-in user there: the failed login fetches the user of the session, reports success and the
    check of the navigation replaces the address, which may also be a script. *)
Definition bad_callback : Callback := MkCallback (js "github") (Some (js "x")) None (Some (js "https://evil.example/")) false.
Lemma open_redirect :
  let s := run_page [OpenCallback bad_callback; Answered JNull 0 (refused (js "invalid code")); Answered JNull 1 (success (user_named 7));
                     NavigationChecked 0 (js "/oauth/github")] (signed_in 7 None) in
  has_effect (ReplaceLocation (js "https://evil.example/")) s /\ has_effect (toast_success (js "Signed in successfully!")) s /\
  ~ has_effect (toast_error (js "invalid code")) s.
Proof. cbv zeta. unfold has_effect. rewrite !list_elem_of_In. vm_compute. intuition congruence. Qed.

(** The user is read with the request of the user before: one that was under way when the account changed. *)
Lemma stale_account :
  let s := run_page [EnterProtected (js "/keys"); SubmitSignIn (js "other") (js "12345678") None; Answered JNull 1 (success (user_named 8))] (signed_in 7 None) in
  List.map (fun p => (p.1, rq_user p.2)) (cl_open (pg_client s)) = [(0, Some (js "7"))] /\ List.map fst (cl_callers (pg_client s)) = [0; 0] /\
  getUserId (pg_client s) = Some (js "8").
Proof. vm_compute. repeat split; reflexivity. Qed.

(** A refusal of a request of the session before signs the new user out. *)
Lemma late_401 :
  let s := run_page [SendCode (js "a@b.c"); SubmitSignIn (js "root") (js "12345678") None; Answered JNull 1 (success (user_named 8)); Answered JNull 2 (success (user_named 8));
                     Answered JNull 0 (RequestError (Some 401%Z) None None)] (empty_page None) in
  getUserId (pg_client s) = Some (js "8") /\ cl_user (pg_client s) = None.
Proof. vm_compute. split; reflexivity. Qed.

(** An expired session leaves the number of the user, which further requests carry. *)
Lemma expired_keeps_uid : let c := intercept plain_config (RequestError (Some 401%Z) None None) (pg_client (signed_in 7 None)) in
  cl_user c = None /\ getUserId c = Some (js "7").
Proof. vm_compute. split; reflexivity. Qed.

(** A login whose user cannot be fetched is reported as done. *)
Lemma welcome_without_user :
  let s := run_page [SubmitSignIn (js "root") (js "12345678") None; Answered JNull 0 (success (user_named 8)); Answered JNull 1 (RequestError None None None)] (empty_page None) in
  cl_user (pg_client s) = None /\ has_effect (toast_success (js "Welcome back!")) s /\ has_effect (Navigate (js "/dashboard") None) s.
Proof. cbv zeta. unfold has_effect. rewrite !list_elem_of_In. vm_compute. intuition. Qed.

(** With a second factor the page that the user wanted is forgotten. *)
Definition second_factor : json := JObj [(js "require_2fa", JBool true)].
Lemma redirect_lost :
  let s := run_page [SubmitSignIn (js "root") (js "12345678") (Some (js "/keys")); Answered JNull 0 (success second_factor); TypeOtp (js "123456"); SubmitOtp;
                     Answered JNull 1 (success (user_named 7)); OpenSignIn None] (empty_page None) in
  has_effect (Navigate (js "/dashboard") None) s /\ ~ has_effect (Navigate (js "/keys") None) s.
Proof. cbv zeta. unfold has_effect. rewrite !list_elem_of_In. vm_compute. intuition congruence. Qed.

(** Where the human check is on and the email check is not, the form for registering has no field for it and sends an empty token. *)
Definition checked_status : json := JObj [(js "turnstile_check", JBool true); (js "turnstile_site_key", JStr (js "k"))].
Lemma register_unchecked :
  let s := run_page [SubmitSignUp (js "new") (js "12345678") (js "12345678") []] (empty_page (Some checked_status)) in
  signup_turnstile_shown s = false /\
  List.map (fun p => (rq_url p.2, cf_params (rq_config p.2))) (cl_open (pg_client s)) = [(js "/api/user/register", Some [(js "turnstile", JStr [])])].
Proof. vm_compute. split; reflexivity. Qed.

(** A refusal is shown twice: by the client and by the form. *)
Lemma refusal_shown_twice :
  let s := run_page [TypeOtp (js "123456"); SubmitOtp; Answered JNull 0 (refused (js "wrong"))] (empty_page None) in
  cl_out (pg_client s) = [toast_error (js "wrong"); toast_error (js "wrong")].
Proof. vm_compute. reflexivity. Qed.
