(* ===== verification/Sections.v ===== *)
(** * Sections of the system settings

    [integrations/payment-settings-section.tsx], [email-settings-section.tsx], [monitoring-settings-section.tsx] and [waffo-settings-section.tsx],
    [auth/oauth-section.tsx] and [request-limits/ssrf-section.tsx]: what each section sends when it is saved, from the values of the form and the
    ones it started with.

    The values of a form are an object; the requests are those of [Settings] ([send_updates]). *)
From S2P Require Import Prelude Regex Numbers Json JsonRoundtrip JsonPretty StatusCodes Settings VisualEditors.
Local Open Scope js_scope.

(** ** Texts: [integrations/utils.ts] *)

Definition re_slashes : re := RSeqs [RPlus (RSet (N.eqb 47)); REnd].
Definition removeTrailingSlash (value : jstr) : jstr :=
  let trimmed := trim value in
  if negb (truthy trimmed) then [] else re_replace re_slashes (fun _ => []) trimmed.
Definition formatSectionJson (value : jstr) : jstr :=
  let trimmed := trim value in
  if negb (truthy trimmed) then []
  else match JSON_parse trimmed with Ret parsed => JSON_pretty parsed | Throw => trimmed end.
Definition normalizeJsonForComparison (value : jstr) : jstr :=
  let trimmed := trim value in
  if negb (truthy trimmed) then []
  else match JSON_parse trimmed with Ret parsed => JSON_stringify parsed | Throw => trimmed end.
Definition isValidJson (value : jstr) (predicate : json -> bool) : bool :=
  let trimmed := trim value in
  negb (truthy trimmed) || match JSON_parse trimmed with Ret parsed => predicate parsed | Throw => false end.
Definition re_http : re := RSeqs [RStart; RLit (js "http"); ROpt (RLit (js "s")); RLit (js "://")].
Definition valid_url (value : jstr) : bool := let trimmed := trim value in negb (truthy trimmed) || re_test re_http trimmed.

(** ** Sections of fields *)

Inductive field_kind : Type := NumberField | FlagField | TextField | SecretField | UrlField | JsonField (predicate : json -> bool).
Record section_field : Type := MkField { fs_name : jstr; fs_key : jstr; fs_kind : field_kind }.
Definition plain_field (name : jstr) (kind : field_kind) : section_field := MkField name name kind.

(** The value that is compared and sent. *)
Definition sanitize (kind : field_kind) (v : option json) : option json :=
  match v, kind with
  | Some (JStr s), (TextField | SecretField | JsonField _) => Some (JStr (trim s))
  | Some (JStr s), UrlField => Some (JStr (removeTrailingSlash s))
  | _, _ => v
  end.
(** [a === b], for values that are no objects. *)
Definition strict_equal (a b : option json) : bool :=
  match a, b with
  | Some (JNum x), Some (JNum y) => neqb x y
  | Some (JStr s), Some (JStr t) => s === t
  | Some (JBool x), Some (JBool y) => Bool.eqb x y
  | Some JNull, Some JNull | None, None => true
  | _, _ => false
  end.
Definition normal_value (v : option json) : option json := match v with Some (JStr s) => Some (JStr (normalizeJsonForComparison s)) | _ => v end.
Definition field_truthy (v : option json) : bool := match v with Some x => json_truthy x | None => false end.
Definition field_changed (kind : field_kind) (new old : option json) : bool :=
  match kind with
  | SecretField => field_truthy new && negb (strict_equal new old)
  | JsonField _ => negb (strict_equal (normal_value new) (normal_value old))
  | _ => negb (strict_equal new old)
  end.
Definition update_of (values initial : list (jstr * json)) (f : section_field) : option (jstr * option json) :=
  let new := sanitize (fs_kind f) (obj_get (fs_name f) values) in
  if field_changed (fs_kind f) new (sanitize (fs_kind f) (obj_get (fs_name f) initial)) then Some (fs_key f, new) else None.
Definition section_updates (fields : list section_field) (values initial : list (jstr * json)) : list (jstr * option json) :=
  omap (update_of values initial) fields.

(** The form of a section for the stored values. *)
Definition shown_value (f : section_field) (o : list (jstr * json)) : list (jstr * json) :=
  match fs_kind f, obj_get (fs_name f) o with
  | JsonField _, Some (JStr s) => obj_set (fs_name f) (JStr (formatSectionJson s)) o
  | _, _ => o
  end.
Definition open_section (fields : list section_field) (initial : list (jstr * json)) : list (jstr * json) := foldr shown_value initial fields.
(** What is wrong with a value. *)
Definition field_valid (f : section_field) (values : list (jstr * json)) : bool :=
  match fs_kind f, obj_get (fs_name f) values with
  | NumberField, Some (JNum x) => nleb zero x
  | FlagField, Some (JBool _) => true
  | UrlField, Some (JStr s) => valid_url s
  | JsonField predicate, Some (JStr s) => isValidJson s predicate
  | (TextField | SecretField), Some (JStr _) => true
  | _, _ => false
  end.

(** ** Payments *)

Definition any_json (_ : json) : bool := true.
Definition pay_method_fields : list section_field :=
  [plain_field (js "Price") NumberField; plain_field (js "MinTopUp") NumberField; plain_field (js "PayMethods") (JsonField any_json);
   MkField (js "AmountOptions") (js "payment_setting.amount_options") (JsonField isArray);
   MkField (js "AmountDiscount") (js "payment_setting.amount_discount") (JsonField isObjectRecord)].
Definition epay_fields : list section_field :=
  [plain_field (js "PayAddress") UrlField; plain_field (js "EpayId") TextField; plain_field (js "EpayKey") SecretField;
   plain_field (js "CustomCallbackAddress") UrlField].
Definition stripe_fields : list section_field :=
  [plain_field (js "StripeApiSecret") SecretField; plain_field (js "StripeWebhookSecret") SecretField; plain_field (js "StripePriceId") TextField;
   plain_field (js "StripeUnitPrice") NumberField; plain_field (js "StripeMinTopUp") NumberField; plain_field (js "StripePromotionCodesEnabled") FlagField].
Definition creem_fields : list section_field :=
  [plain_field (js "CreemApiKey") SecretField; plain_field (js "CreemWebhookSecret") SecretField; plain_field (js "CreemTestMode") FlagField;
   plain_field (js "CreemProducts") (JsonField isArray)].
Definition airwallex_fields : list section_field :=
  [plain_field (js "AirwallexEnabled") FlagField; plain_field (js "AirwallexSandbox") FlagField; plain_field (js "AirwallexClientId") SecretField;
   plain_field (js "AirwallexApiKey") SecretField; plain_field (js "AirwallexWebhookSecret") SecretField;
   plain_field (js "AirwallexCurrencies") (JsonField isArray); plain_field (js "AirwallexReturnUrl") UrlField; plain_field (js "AirwallexCancelUrl") UrlField].
(** The fields that saving everything looks at, in its order. *)
Definition submitted_fields : list section_field :=
  take 3 epay_fields ++ take 2 pay_method_fields ++ drop 3 epay_fields ++ drop 2 pay_method_fields ++ stripe_fields.
Definition payment_fields : list section_field := pay_method_fields ++ epay_fields ++ stripe_fields ++ creem_fields ++ airwallex_fields.
Definition paymentSchema (values : list (jstr * json)) : bool := forallb (fun f => field_valid f values) payment_fields.

Definition saveGeneralSettings := section_updates pay_method_fields.
Definition saveEpaySettings := section_updates epay_fields.
Definition saveStripeSettings := section_updates stripe_fields.
Definition saveCreemSettings := section_updates creem_fields.
Definition saveAirwallexSettings := section_updates airwallex_fields.
(** The button for everything: only when the schema accepts the values. *)
Definition submit_payment (values initial : list (jstr * json)) : list (jstr * option json) :=
  if paymentSchema values then section_updates submitted_fields values initial else [].

(** The section: the values of the form and the ones they are compared with. *)
Record PaymentSection : Type := MkPayment { ps_values : list (jstr * json); ps_initial : list (jstr * json) }.
(** The effect of new options. *)
Definition new_payment_defaults (defaults : list (jstr * json)) : PaymentSection := MkPayment (open_section payment_fields defaults) defaults.

(** The values of the section for the options of the site: [section-registry.tsx]; [or_nullish] is [??]. *)
Definition or_nullish (v : option json) (d : json) : json := match v with Some JNull | None => d | Some x => x end.
Definition payment_registry (get : jstr -> option json) : list (jstr * option json) :=
  let or k d := Some (or_nullish (get k) d) in
    [(js "PayAddress", get (js "PayAddress")); (js "EpayId", get (js "EpayId")); (js "EpayKey", get (js "EpayKey")); (js "Price", get (js "Price"));
     (js "MinTopUp", get (js "MinTopUp")); (js "CustomCallbackAddress", get (js "CustomCallbackAddress")); (js "PayMethods", get (js "PayMethods"));
     (js "AmountOptions", get (js "payment_setting.amount_options")); (js "AmountDiscount", get (js "payment_setting.amount_discount"));
     (js "StripeApiSecret", get (js "StripeApiSecret")); (js "StripeWebhookSecret", get (js "StripeWebhookSecret")); (js "StripePriceId", get (js "StripePriceId"));
     (js "StripeUnitPrice", get (js "StripeUnitPrice")); (js "StripeMinTopUp", get (js "StripeMinTopUp"));
     (js "StripePromotionCodesEnabled", get (js "StripePromotionCodesEnabled")); (js "CreemApiKey", get (js "CreemApiKey"));
     (js "CreemWebhookSecret", get (js "CreemWebhookSecret")); (js "CreemTestMode", get (js "CreemTestMode")); (js "CreemProducts", get (js "CreemProducts"));
     (js "AirwallexEnabled", or (js "AirwallexEnabled") (JBool false)); (js "AirwallexSandbox", or (js "AirwallexSandbox") (JBool true));
     (js "AirwallexClientId", or (js "AirwallexClientId") (JStr [])); (js "AirwallexApiKey", or (js "AirwallexApiKey") (JStr []));
     (js "AirwallexWebhookSecret", or (js "AirwallexWebhookSecret") (JStr []));
     (js "AirwallexCurrencies", or (js "AirwallexCurrencies") (JStr (js "[{" ++ [34%N] ++ js "currency" ++ [34%N] ++ js ":" ++ [34%N] ++ js "AUD" ++ [34%N] ++ js ","
        ++ [34%N] ++ js "unit_price" ++ [34%N] ++ js ":1.5," ++ [34%N] ++ js "min_topup" ++ [34%N] ++ js ":5}]")));
     (js "AirwallexReturnUrl", or (js "AirwallexReturnUrl") (JStr [])); (js "AirwallexCancelUrl", or (js "AirwallexCancelUrl") (JStr []))].
Definition payment_defaults (settings : list (jstr * json)) : list (jstr * json) :=
  omap (fun p => pair p.1 <$> p.2) (payment_registry (fun k => obj_get k settings)).

(** ** Email *)

Definition email_fields : list section_field :=
  [plain_field (js "SMTPServer") TextField; plain_field (js "SMTPPort") TextField; plain_field (js "SMTPAccount") TextField; plain_field (js "SMTPFrom") TextField;
   plain_field (js "SMTPToken") SecretField; plain_field (js "SMTPSSLEnabled") FlagField; plain_field (js "SMTPForceAuthLogin") FlagField].
Definition email_submit := section_updates email_fields.
Definition is_email_char (c : N) : bool := negb (is_ws c) && negb (c =? 64)%N.
Definition re_email : re :=
  RSeqs [RStart; RPlus (RSet is_email_char); RLit (js "@"); RPlus (RSet is_email_char); RLit (js "."); RPlus (RSet is_email_char); REnd].
Definition email_valid (values : list (jstr * json)) : bool :=
  let text k := match obj_get k values with Some (JStr s) => trim s | _ => [] end in
  let port := text (js "SMTPPort") in
  let from := text (js "SMTPFrom") in
  (negb (truthy port) || forallb is_digit port) && (negb (truthy from) || re_test re_email from).

(** ** Monitoring *)

(** The values are compared under the names of the options. *)
Record MonitoringValues : Type := MkMonitoring {
  mo_disableThreshold : jstr; mo_remindThreshold : jstr; mo_disableEnabled : bool; mo_enableEnabled : bool; mo_keywords : jstr; mo_disableCodes : jstr;
  mo_retryCodes : jstr; mo_testEnabled : bool; mo_testMinutes : number
}.
Definition numericString (value : jstr) : bool :=
  let trimmed := trim value in negb (truthy trimmed) || (negb (is_nan (Number trimmed)) && nleb zero (Number trimmed)).
(** [replace(/\r\n/g, '\n')] *)
Fixpoint normalizeLineEndings (value : jstr) : jstr :=
  match value with
  | 13%N :: ((10%N :: _) as rest) => normalizeLineEndings rest
  | c :: rest => c :: normalizeLineEndings rest
  | [] => []
  end.
Definition normalized_codes (text : jstr) : jstr := StatusCodes.normalized (parseHttpStatusCodeRules (Some text)).
Definition normalizeMonitoring (v : MonitoringValues) : MonitoringValues :=
  MkMonitoring (trim (mo_disableThreshold v)) (trim (mo_remindThreshold v)) (mo_disableEnabled v) (mo_enableEnabled v) (normalizeLineEndings (mo_keywords v))
    (normalized_codes (mo_disableCodes v)) (normalized_codes (mo_retryCodes v)) (mo_testEnabled v) (mo_testMinutes v).
Definition monitoringSchema (v : MonitoringValues) : bool :=
  numericString (mo_disableThreshold v) && numericString (mo_remindThreshold v) && ok (parseHttpStatusCodeRules (Some (mo_disableCodes v)))
  && ok (parseHttpStatusCodeRules (Some (mo_retryCodes v)))
  && match int_of_num (mo_testMinutes v) with Some n => (1 <=? n)%Z | None => false end.
Definition monitoring_entries (v : MonitoringValues) : list (jstr * json) :=
  [(js "ChannelDisableThreshold", JStr (mo_disableThreshold v)); (js "QuotaRemindThreshold", JStr (mo_remindThreshold v));
   (js "AutomaticDisableChannelEnabled", JBool (mo_disableEnabled v)); (js "AutomaticEnableChannelEnabled", JBool (mo_enableEnabled v));
   (js "AutomaticDisableKeywords", JStr (mo_keywords v)); (js "AutomaticDisableStatusCodes", JStr (mo_disableCodes v));
   (js "AutomaticRetryStatusCodes", JStr (mo_retryCodes v)); (js "monitor_setting.auto_test_channel_enabled", JBool (mo_testEnabled v));
   (js "monitor_setting.auto_test_channel_minutes", JNum (mo_testMinutes v))].
(** The form for the stored values. *)
Definition monitoring_form (v : MonitoringValues) : MonitoringValues :=
  MkMonitoring (mo_disableThreshold v) (mo_remindThreshold v) (mo_disableEnabled v) (mo_enableEnabled v) (normalizeLineEndings (mo_keywords v)) (mo_disableCodes v)
    (mo_retryCodes v) (mo_testEnabled v) (mo_testMinutes v).
Record Monitoring : Type := MkMonitoringState { ms_form : MonitoringValues; ms_baseline : MonitoringValues }.
Definition open_monitoring (defaults : MonitoringValues) : Monitoring := MkMonitoringState (monitoring_form defaults) (normalizeMonitoring defaults).
(** New options: the form follows, the baseline does not. *)
Definition monitoring_defaults (defaults : MonitoringValues) (s : Monitoring) : Monitoring := MkMonitoringState (monitoring_form defaults) (ms_baseline s).
Definition changed_of (new old : list (jstr * json)) : list (jstr * option json) :=
  omap (fun p => if strict_equal (Some p.2) (obj_get p.1 old) then None else Some (p.1, Some p.2)) new.
(** Saving: the requests, what is shown, and the section afterwards. *)
Definition submit_monitoring (answer : jstr -> option json -> option_answer) (s : Monitoring) : list (jstr * option json) * list form_notice * Monitoring :=
  let new := normalizeMonitoring (ms_form s) in
  let updates := changed_of (monitoring_entries new) (monitoring_entries (ms_baseline s)) in
  if negb (monitoringSchema (ms_form s)) then ([], [], s)
  else match updates with
       | [] => ([], [NoChanges], s)
       | _ => let '(sent, notices, done_) := send_updates answer updates in
              (sent, notices, if done_ then MkMonitoringState (ms_form s) new else s)
       end.

(** ** Protection against forged requests *)

Definition splitLines (value : jstr) : list jstr := filter_truthy (List.map trim (split_char 10 value)).
(** [Number.parseInt(item.trim(), 10)] *)
Definition parsePorts (value : jstr) : list number :=
  List.filter is_finite (List.map (fun item => parseInt10 (trim item)) (split_char 44 value)).

Record SSRFForm : Type := MkSSRF {
  sf_protection : bool; sf_private : bool; sf_domainMode : bool; sf_ipMode : bool; sf_domains : jstr; sf_ips : jstr; sf_ports : jstr; sf_applyIp : bool
}.
(** The stored values: the lists are lists of values. *)
Record SSRFDefaults : Type := MkSSRFDefaults {
  sd_protection : bool; sd_private : bool; sd_domainMode : bool; sd_ipMode : bool; sd_domains : list json; sd_ips : list json; sd_ports : list json;
  sd_applyIp : bool
}.
Definition ssrf_form (d : SSRFDefaults) : SSRFForm :=
  let joined sep l := join sep (List.map json_String l) in
  MkSSRF (sd_protection d) (sd_private d) (sd_domainMode d) (sd_ipMode d) (joined [10%N] (sd_domains d)) (joined [10%N] (sd_ips d)) (joined (js ",") (sd_ports d))
    (sd_applyIp d).
Definition ssrf_entries (protection private domainMode ipMode : bool) (domains ips ports : list json) (applyIp : bool) : list (jstr * json) :=
  [(js "fetch_setting.enable_ssrf_protection", JBool protection); (js "fetch_setting.allow_private_ip", JBool private);
   (js "fetch_setting.domain_filter_mode", JBool domainMode); (js "fetch_setting.ip_filter_mode", JBool ipMode); (js "fetch_setting.domain_list", JArr domains);
   (js "fetch_setting.ip_list", JArr ips); (js "fetch_setting.allowed_ports", JArr ports); (js "fetch_setting.apply_ip_filter_for_domain", JBool applyIp)].
Definition normalizeSSRFDefaults (d : SSRFDefaults) : list (jstr * json) :=
  ssrf_entries (sd_protection d) (sd_private d) (sd_domainMode d) (sd_ipMode d) (sd_domains d) (sd_ips d) (sd_ports d) (sd_applyIp d).
Definition normalizeSSRF (f : SSRFForm) : list (jstr * json) :=
  ssrf_entries (sf_protection f) (sf_private f) (sf_domainMode f) (sf_ipMode f) (List.map JStr (splitLines (sf_domains f))) (List.map JStr (splitLines (sf_ips f)))
    (List.map JNum (parsePorts (sf_ports f))) (sf_applyIp f).
Definition ssrf_equal (a b : option json) : bool :=
  match a, b with Some (JArr l), Some (JArr m) => JSON_stringify (JArr l) === JSON_stringify (JArr m) | _, _ => strict_equal a b end.
Definition sent_value (v : json) : json := match v with JArr l => JStr (JSON_stringify (JArr l)) | v => v end.
Definition ssrf_updates (f : SSRFForm) (baseline : list (jstr * json)) : list (jstr * option json) :=
  omap (fun p => if ssrf_equal (Some p.2) (obj_get p.1 baseline) then None else Some (p.1, Some (sent_value p.2))) (normalizeSSRF f).

(** ** Providers of accounts *)

(** The names with a dot are nested in the values of the form; they are flattened again. *)
Definition nested_group (key : jstr) : bool := (key === js "oidc") || (key === js "discord").
Definition flattened (raw : list (jstr * json)) : list (jstr * json) :=
  foldl (fun data p => match p.2 with
                       | JObj inner => if nested_group p.1 then foldl (fun data q => obj_set (p.1 ++ js "." ++ q.1) q.2 data) data inner else obj_set p.1 p.2 data
                       | v => obj_set p.1 v data
                       end) [] raw.
Definition option_text (k : jstr) (o : list (jstr * json)) : jstr := match obj_get k o with Some (JStr s) => s | _ => [] end.
Definition or_blank (v : option json) : json := match v with Some x => if json_truthy x then x else JStr [] | None => JStr [] end.
Inductive oauth_outcome : Type :=
| BadWellKnown
| FetchFailed
| OAuthUnchanged (data : list (jstr * json))
| OAuthSaved (data : list (jstr * json)) (sent : list (jstr * option json)) (notices : list form_notice) (finished : bool).
(** The addresses of a provider, from the answer of its well-known address. *)
Definition with_endpoints (answer : json) (data : list (jstr * json)) : list (jstr * json) :=
  let get k := match answer with JObj o => obj_get k o | _ => None end in
  obj_set (js "oidc.user_info_endpoint") (or_blank (get (js "userinfo_endpoint")))
    (obj_set (js "oidc.token_endpoint") (or_blank (get (js "token_endpoint")))
       (obj_set (js "oidc.authorization_endpoint") (or_blank (get (js "authorization_endpoint"))) data)).
Definition oauth_changed (defaults data : list (jstr * json)) : list (jstr * option json) :=
  omap (fun p => if strict_equal (Some p.2) (obj_get p.1 defaults) then None else Some (p.1, Some (match p.2 with JNull => JStr [] | v => v end))) data.
Definition save_oauth (answer : jstr -> option json -> option_answer) (defaults data : list (jstr * json)) : oauth_outcome :=
  match oauth_changed defaults data with
  | [] => OAuthUnchanged data
  | updates => let '(sent, notices, done_) := send_updates answer updates in OAuthSaved data sent notices done_
  end.
(** [fetched]: the answer of the well-known address; [None] when there was none. *)
Definition submit_oauth (answer : jstr -> option json -> option_answer) (fetched : option json) (defaults raw : list (jstr * json)) : oauth_outcome :=
  let data := flattened raw in
  let well_known := option_text (js "oidc.well_known") data in
  if truthy well_known then
    if negb (starts_with (js "http://") well_known) && negb (starts_with (js "https://") well_known) then BadWellKnown
    else match fetched with
         | None | Some JNull => FetchFailed
         | Some v => save_oauth answer defaults (with_endpoints v data)
         end
  else save_oauth answer defaults data.
(** Resetting the form. *)
Definition reset_group (group : jstr) (defaults inner : list (jstr * json)) : list (jstr * json) :=
  List.map (fun q => (q.1, default q.2 (obj_get (group ++ js "." ++ q.1) defaults))) inner.
Definition reset_oauth (defaults raw : list (jstr * json)) : list (jstr * json) :=
  List.map (fun p => match p.2 with
                     | JObj inner => if nested_group p.1 then (p.1, JObj (reset_group p.1 defaults inner)) else (p.1, default p.2 (obj_get p.1 defaults))
                     | v => if p.1 === js "oidc" then p else (p.1, default v (obj_get p.1 defaults))
                     end) raw.

(** ** Waffo *)

(** Everything is sent; the keys only when they were typed. *)
Definition waffo_options (values : list (jstr * json)) (payMethods : json) : list (jstr * jstr) :=
  let get k := obj_get k values in
  let flag k := match get k with Some v => json_String v | None => js "undefined" end in
  let text k d := str_or (option_text k values) d in
  let amount k := match get k with Some (JNum x) => num_to_str (num_or x (num_of_Z 1)) | _ => js "1" end in
  let typed k := if truthy (option_text k values) then [(k, option_text k values)] else [] in
  [(js "WaffoEnabled", flag (js "WaffoEnabled")); (js "WaffoSandbox", flag (js "WaffoSandbox")); (js "WaffoMerchantId", text (js "WaffoMerchantId") []);
   (js "WaffoCurrency", text (js "WaffoCurrency") (js "USD")); (js "WaffoUnitPrice", amount (js "WaffoUnitPrice")); (js "WaffoMinTopUp", amount (js "WaffoMinTopUp"));
   (js "WaffoNotifyUrl", text (js "WaffoNotifyUrl") []); (js "WaffoReturnUrl", text (js "WaffoReturnUrl") []);
   (js "WaffoPublicCert", text (js "WaffoPublicCert") []); (js "WaffoSandboxPublicCert", text (js "WaffoSandboxPublicCert") []);
   (js "WaffoPayMethods", JSON_stringify payMethods)]
  ++ typed (js "WaffoApiKey") ++ typed (js "WaffoPrivateKey") ++ typed (js "WaffoSandboxApiKey") ++ typed (js "WaffoSandboxPrivateKey").
Record WaffoMethods : Type := MkWaffo { wm_methods : list json; wm_open : bool; wm_editing : option nat; wm_form : list (jstr * json) }.
Definition blank_method : list (jstr * json) :=
  [(js "name", JStr []); (js "icon", JStr []); (js "payMethodType", JStr []); (js "payMethodName", JStr [])].
Definition waffo_open_add (s : WaffoMethods) : WaffoMethods := MkWaffo (wm_methods s) true None blank_method.
Definition waffo_open_edit (i : nat) (s : WaffoMethods) : WaffoMethods :=
  MkWaffo (wm_methods s) true (Some i) (match wm_methods s !! i with Some (JObj o) => o | _ => [] end).
(** [None]: the name is missing, and nothing changes. *)
Definition waffo_save_method (s : WaffoMethods) : option WaffoMethods :=
  if negb (truthy (trim (option_text (js "name") (wm_form s)))) then None
  else Some (MkWaffo (match wm_editing s with None => wm_methods s ++ [JObj (wm_form s)] | Some i => <[i := JObj (wm_form s)]> (wm_methods s) end)
               false (wm_editing s) (wm_form s)).

(** ** Saving a section and opening it again *)

(** The options of a site that accepted the requests. *)
Definition options_after (sent : list (jstr * option json)) (settings : list (jstr * json)) : list (jstr * json) :=
  foldl (fun o p => match p.2 with Some x => obj_set p.1 x o | None => o end) settings sent.

(** Texts that are JSON are JSON that prints and reads back, addresses have no space before their last slash; numbers are numbers. *)
Definition text_clean (kind : field_kind) (s : jstr) : Prop :=
  match kind with
  | JsonField _ => forall w, JSON_parse (trim s) = Ret w -> json_ok w
  | UrlField => removeTrailingSlash (removeTrailingSlash s) = removeTrailingSlash s
  | _ => True
  end.
Definition value_clean (kind : field_kind) (v : option json) : Prop :=
  match v with
  | Some (JNum x) => is_nan x = false
  | Some (JStr s) => text_clean kind s
  | Some (JArr _) | Some (JObj _) => False
  | _ => True
  end.
Definition field_clean (o : list (jstr * json)) (f : section_field) : Prop := value_clean (fs_kind f) (obj_get (fs_name f) o).

Lemma normalize_trim s : normalizeJsonForComparison (trim s) = normalizeJsonForComparison s.
Proof. unfold normalizeJsonForComparison. by rewrite trim_idem. Qed.
Lemma pretty_truthy w : json_ok w -> truthy (JSON_pretty w) = true.
Proof. intros Hw. pose proof (parse_pretty w Hw) as H. by destruct (JSON_pretty w). Qed.
(** The text that is shown says the same. *)
Lemma shown_same s : (forall w, JSON_parse (trim s) = Ret w -> json_ok w) -> normalizeJsonForComparison (formatSectionJson s) = normalizeJsonForComparison s.
Proof.
  intros Hs. unfold formatSectionJson. destruct (truthy (trim s)) eqn:Et; cbn [negb]; [|unfold normalizeJsonForComparison; by rewrite Et].
  destruct (JSON_parse (trim s)) as [w|] eqn:Ep; [|apply normalize_trim]. specialize (Hs w eq_refl).
  unfold normalizeJsonForComparison. by rewrite pretty_trimmed, pretty_truthy, parse_pretty, Et, Ep by done.
Qed.

Lemma strict_refl v : match v with Some (JNum x) => is_nan x = false | Some (JArr _) | Some (JObj _) => False | _ => True end -> strict_equal v v = true.
Proof.
  destruct v as [[|b|x|s|l|o]|]; cbn; try done; intros H; [by destruct b|by apply neqb_refl|apply js_eqb_refl].
Qed.

Definition names (fields : list section_field) : list jstr := List.map fs_name fields.
Definition keys (fields : list section_field) : list jstr := List.map fs_key fields.

Lemma updates_keys fields v i k x : (k, x) ∈ section_updates fields v i -> exists f, In f fields /\ k = fs_key f /\ update_of v i f = Some (k, x).
Proof.
  intros (f & Hf & E)%list_elem_of_omap. exists f. split; [by apply list_elem_of_In|]. split; [|done].
  revert E. unfold update_of. destruct (field_changed _ _ _); [|done]. by intros [= <- _].
Qed.
Lemma accepted_other sent : forall settings k, (forall x, (k, x) ∉ sent) -> obj_get k (options_after sent settings) = obj_get k settings.
Proof.
  induction sent as [|[j x] sent IH]; intros settings k Hk; [done|]. cbn [options_after foldl fst snd]. fold (options_after sent).
  change (obj_get k (options_after sent (match x with Some x => obj_set j x settings | None => settings end)) = obj_get k settings).
  rewrite IH by (intros y Hy; apply (Hk y); by right). destruct x as [x|]; [|done]. apply obj_get_set_ne. intros ->. apply (Hk (Some x)). left.
Qed.
Lemma accepted_at fields v i : NoDup (keys fields) -> forall settings f, In f fields ->
  obj_get (fs_key f) (options_after (section_updates fields v i) settings) = match update_of v i f with Some (_, Some x) => Some x | _ => obj_get (fs_key f) settings end.
Proof.
  intros Hn. induction fields as [|g fields IH]; intros settings f; [done|]. cbn [keys List.map] in Hn. apply NoDup_cons in Hn as [Hg Hn].
  assert (section_updates (g :: fields) v i = match update_of v i g with Some u => u :: section_updates fields v i | None => section_updates fields v i end) as -> by done.
  intros [->|Hf].
  - assert (forall x, (fs_key f, x) ∉ section_updates fields v i) as Ho.
    { intros x (h & Hh & E & _)%updates_keys. apply Hg. rewrite E. apply list_elem_of_In. by apply in_map. }
    destruct (update_of v i f) as [[k x]|] eqn:E; [|by apply accepted_other].
    assert (k = fs_key f) as -> by (revert E; unfold update_of; destruct (field_changed _ _ _); [|done]; by intros [= <- _]).
    cbn [options_after foldl fst snd]. change (obj_get (fs_key f) (options_after (section_updates fields v i) (match x with Some x => obj_set (fs_key f) x settings | None => settings end)) = match x with Some x => Some x | None => obj_get (fs_key f) settings end).
    rewrite accepted_other by done. destruct x as [x|]; [|done]. apply obj_get_set_eq.
  - assert (fs_key f <> fs_key g) as Hne by (intros E; apply Hg, list_elem_of_In; rewrite <-E; by apply in_map).
    destruct (update_of v i g) as [[k x]|] eqn:E; [|by apply IH].
    assert (k = fs_key g) as -> by (revert E; unfold update_of; destruct (field_changed _ _ _); [|done]; by intros [= <- _]).
    cbn [options_after foldl fst snd]. change (obj_get (fs_key f) (options_after (section_updates fields v i) (match x with Some x => obj_set (fs_key g) x settings | None => settings end))
      = match update_of v i f with Some (_, Some x) => Some x | _ => obj_get (fs_key f) settings end).
    rewrite IH by done. destruct x as [x|]; [|done]. by rewrite obj_get_set_ne.
Qed.

Lemma get_present {V} (l : list (jstr * option V)) k : NoDup l.*1 -> obj_get k (omap (fun p => pair p.1 <$> p.2) l) = default None (obj_get k l).
Proof.
  induction l as [|[j x] l IH]; [done|]. cbn [fmap list_fmap fst]. intros [Hj Hn]%NoDup_cons. cbn [omap list_omap fst snd obj_get].
  assert (k = j -> obj_get k (omap (fun p => pair p.1 <$> p.2) l) = None) as Ho by (intros ->; rewrite IH by done; by rewrite obj_get_none).
  destruct x as [x|]; cbn [fmap option_fmap option_map obj_get]; destruct (k === j) eqn:E; cbn [default]; [done|by apply IH|rewrite js_eqb_true in E; by apply Ho|by apply IH].
Qed.

(** What the section shows of an option. *)
Definition read_option (f : section_field) (v : option json) : option json :=
  match v with
  | Some JNull | None => if starts_with (js "Airwallex") (fs_name f) then obj_get (fs_name f) (payment_defaults []) else v
  | _ => v
  end.
Lemma default_at f settings : In f payment_fields -> obj_get (fs_name f) (payment_defaults settings) = read_option f (obj_get (fs_key f) settings).
Proof.
  intros Hf. unfold payment_defaults at 1. rewrite get_present; [|apply (bool_decide_unpack (NoDup _)); vm_compute; exact I].
  change (obj_get (fs_key f) settings) with ((fun k => obj_get k settings) (fs_key f)). generalize (fun k => obj_get k settings). intros get.
  unfold payment_fields in Hf. cbn [app pay_method_fields epay_fields stripe_fields creem_fields airwallex_fields In] in Hf.
  repeat destruct Hf as [<-|Hf]; try done; vm_compute; by destruct (get _) as [[]|].
Qed.

Definition shown_field (kind : field_kind) (v : option json) : option json :=
  match kind, v with JsonField _, Some (JStr s) => Some (JStr (formatSectionJson s)) | _, _ => v end.
Lemma open_other fields o k : ~ In k (names fields) -> obj_get k (open_section fields o) = obj_get k o.
Proof.
  induction fields as [|f fields IH]; intros Hk; [done|]. cbn in *. unfold shown_value. repeat case_match; try (apply IH; tauto).
  rewrite obj_get_set_ne by (intros ->; tauto). apply IH. tauto.
Qed.
Lemma open_at fields o f : NoDup (names fields) -> In f fields -> obj_get (fs_name f) (open_section fields o) = shown_field (fs_kind f) (obj_get (fs_name f) o).
Proof.
  induction fields as [|g fields IH]; [done|]. cbn [names List.map open_section foldr]. rewrite NoDup_cons. intros [Hg Hn] [->|Hf].
  - assert (obj_get (fs_name f) (open_section fields o) = obj_get (fs_name f) o) as E by (apply open_other; by rewrite <-list_elem_of_In).
    change (foldr shown_value o fields) with (open_section fields o). unfold shown_value, shown_field. rewrite E. repeat case_match; simplify_eq; try done. apply obj_get_set_eq.
  - assert (fs_name f <> fs_name g) as Hne by (intros E; apply Hg, list_elem_of_In; rewrite <-E; by apply in_map).
    unfold shown_value. repeat case_match; try (by apply IH). rewrite obj_get_set_ne by done. by apply IH.
Qed.


Lemma sanitize_clean kind v : value_clean kind v -> value_clean kind (sanitize kind v).
Proof.
  destruct v as [[|b|x|s|l|o]|], kind; cbn; try done; [congruence|]. intros H w. rewrite trim_idem. apply H.
Qed.
Lemma sanitize_idem kind v : value_clean kind v -> sanitize kind (sanitize kind v) = sanitize kind v.
Proof. destruct v as [[|b|x|s|l|o]|], kind; cbn; try done; intros H; by rewrite ?trim_idem, ?H. Qed.
Lemma clean_same kind v : value_clean kind v -> strict_equal v v = true /\ strict_equal (normal_value v) (normal_value v) = true.
Proof. intros H. split; apply strict_refl; by destruct v as [[| | | | |]|]. Qed.
Lemma not_changed kind v : value_clean kind v -> field_changed kind v v = false.
Proof. intros [H1 H2]%clean_same. destruct kind; cbn; rewrite ?H1, ?H2, ?andb_false_r; done. Qed.
(** The text that is shown does not count as a change. *)
Lemma shown_unchanged kind v : value_clean kind v -> field_changed kind (sanitize kind (shown_field kind v)) (sanitize kind v) = false.
Proof.
  intros H. destruct (match kind, v with JsonField _, Some (JStr _) => true | _, _ => false end) eqn:E.
  - destruct kind as [| | | | |p]; try done. destruct v as [[|b|x|s|l|o]|]; try done. cbn. rewrite !normalize_trim, shown_same by done. by rewrite js_eqb_refl.
  - replace (shown_field kind v) with v by (by destruct kind, v as [[| | | | |]|]). by apply not_changed, sanitize_clean.
Qed.
Lemma omap_nothing {A B} (g : A -> option B) l : Forall (fun x => g x = None) l -> omap g l = [].
Proof. induction 1 as [|x l E _ IH]; [done|]. cbn. by rewrite E. Qed.

(** *** What a save leaves *)

(** A typed value without the white space around it and, for an address, the slashes at its end. *)
Definition cleaned_value (kind : field_kind) (v : json) : json :=
  match kind, v with
  | (NumberField | FlagField), _ => v
  | UrlField, JStr s => JStr (removeTrailingSlash s)
  | _, JStr s => JStr (trim s)
  | _, _ => v
  end.
Definition same_document (v w : json) : Prop :=
  match v, w with
  | JStr s, JStr t => trim s = trim t \/ exists d, JSON_parse (trim s) = Ret d /\ JSON_parse (trim t) = Ret d
  | _, _ => False
  end.
(** [===] of values: the two zeros are the same. *)
Definition same_value (v w : json) : Prop := v = w \/ exists a b, v = JNum a /\ w = JNum b /\ neqb a b = true.
(** After a save an option has the typed value; it keeps the old one when that says the same, and a secret also when nothing was typed. *)
Definition taken (kind : field_kind) (typed : json) (old now : option json) : Prop :=
  now = Some (cleaned_value kind typed) \/
  (now = old /\ match kind with
                | SecretField => cleaned_value kind typed = JStr [] \/ exists v, old = Some v /\ same_value (cleaned_value kind typed) (cleaned_value kind v)
                | JsonField _ => exists v, old = Some v /\ same_document typed v
                | _ => exists v, old = Some v /\ same_value (cleaned_value kind typed) (cleaned_value kind v)
                end).

(** The type a field has in the form. *)
Definition typed_as (kind : field_kind) (v : option json) : Prop :=
  match kind, v with
  | NumberField, Some (JNum x) => is_nan x = false
  | FlagField, Some (JBool _) => True
  | (TextField | SecretField | UrlField | JsonField _), Some (JStr s) => text_clean kind s
  | _, _ => False
  end.

Lemma typed_clean kind v : typed_as kind v -> value_clean kind v.
Proof. by destruct kind, v as [[]|]. Qed.
Lemma sanitize_cleaned kind v : sanitize kind v = cleaned_value kind <$> v.
Proof. by destruct kind, v as [[]|]. Qed.

Lemma strict_same x v : strict_equal (Some x) v = true -> exists y, v = Some y /\ same_value x y.
Proof.
  destruct x, v as [[]|]; cbn; try done; intros E; eexists; (split; [reflexivity|]); try (by left).
  - left. f_equal. by destruct b, b0.
  - right. by eexists _, _.
  - left. f_equal. by apply js_eqb_true.
Qed.

Lemma normal_same s t : text_clean (JsonField any_json) s -> text_clean (JsonField any_json) t ->
  normalizeJsonForComparison s = normalizeJsonForComparison t -> same_document (JStr s) (JStr t).
Proof.
  cbn. unfold normalizeJsonForComparison. intros Hs Ht. assert (forall w, json_ok w -> JSON_stringify w <> []) as Hne.
  { intros w Hw E. pose proof (parse_stringify w Hw) as H. rewrite E in H. discriminate H. }
  destruct (trim s) as [|c s'], (trim t) as [|d t']; cbn [truthy negb]; [by left|..].
  - destruct (JSON_parse (d :: t')) as [w|]; [|done]. intros E. by destruct (Hne w (Ht w eq_refl)).
  - destruct (JSON_parse (c :: s')) as [w|]; [|done]. intros E. by destruct (Hne w (Hs w eq_refl)).
  - destruct (JSON_parse (c :: s')) as [v|] eqn:Es, (JSON_parse (d :: t')) as [w|] eqn:Et; intros E.
    + pose proof (parse_stringify v (Hs v eq_refl)) as Hv. rewrite E, parse_stringify in Hv by auto. injection Hv as ->. right. by exists v.
    + pose proof (parse_stringify v (Hs v eq_refl)) as Hv. rewrite E, Et in Hv. done.
    + pose proof (parse_stringify w (Ht w eq_refl)) as Hw. rewrite <-E, Es in Hw. done.
    + by left.
Qed.

Lemma update_taken kind x old : typed_as kind (Some x) -> value_clean kind old ->
  taken kind x old (if field_changed kind (sanitize kind (Some x)) (sanitize kind old) then sanitize kind (Some x) else old).
Proof.
  intros Hx Ho. rewrite !sanitize_cleaned. cbn [fmap option_fmap option_map]. destruct (field_changed _ _ _) eqn:E; [by left|]. right. split; [done|].
  assert (strict_equal (Some (cleaned_value kind x)) (cleaned_value kind <$> old) = true -> exists v, old = Some v /\ same_value (cleaned_value kind x) (cleaned_value kind v)) as Hsame.
  { intros (y & Ey & Hy)%strict_same. destruct old as [v|]; [|done]. injection Ey as <-. by exists v. }
  destruct kind; cbn [field_changed] in E; try (apply negb_false_iff in E; by apply Hsame).
  - apply andb_false_iff in E as [E|E]; [|right; apply Hsame; by apply negb_false_iff].
    left. destruct x; try done. cbn in *. by destruct (trim s).
  - destruct x as [| | |s| |]; try done. cbn [normal_value cleaned_value] in E. apply negb_false_iff in E.
    destruct old as [[| | |t| |]|]; try done. exists (JStr t). split; [done|]. cbn [fmap option_fmap option_map cleaned_value normal_value strict_equal] in E.
    apply normal_same; [exact Hx|exact Ho|]. rewrite !normalize_trim in E. by apply js_eqb_true.
Qed.

Section saved.
Context (all fields : list section_field) (v i after : list (jstr * json)).
Context (Hall : NoDup (names all)) (Hincl : incl fields all).
Context (Hafter : forall f, In f fields -> obj_get (fs_name f) after = match update_of v i f with Some (_, Some x) => Some x | _ => obj_get (fs_name f) i end).
Context (Hclean : forall f, In f fields -> typed_as (fs_kind f) (obj_get (fs_name f) v) /\ field_clean i f).

Lemma after_value f : In f fields -> obj_get (fs_name f) after =
  if field_changed (fs_kind f) (sanitize (fs_kind f) (obj_get (fs_name f) v)) (sanitize (fs_kind f) (obj_get (fs_name f) i))
  then sanitize (fs_kind f) (obj_get (fs_name f) v) else obj_get (fs_name f) i.
Proof.
  intros Hf. rewrite Hafter by done. unfold update_of. destruct (field_changed _ _ _); [|done]. destruct (Hclean f Hf) as [H _].
  rewrite sanitize_cleaned. by destruct (obj_get (fs_name f) v); [|destruct (fs_kind f)].
Qed.

Lemma stored_clean f : In f fields -> field_clean after f.
Proof.
  intros Hf. unfold field_clean. rewrite after_value by done. destruct (Hclean f Hf) as [Hv Hi]. destruct (field_changed _ _ _); [|done].
  by apply sanitize_clean, typed_clean.
Qed.

(** The values that were typed are the stored ones: saving them again sends nothing. *)
Lemma typed_stored f : In f fields -> update_of v after f = None.
Proof.
  intros Hf. unfold update_of. rewrite after_value by done. destruct (Hclean f Hf) as [Hv _]. apply typed_clean in Hv.
  destruct (field_changed (fs_kind f) _ (sanitize (fs_kind f) (obj_get (fs_name f) i))) eqn:E; [|by rewrite E].
  rewrite sanitize_idem by done. by rewrite not_changed by (by apply sanitize_clean).
Qed.

Lemma section_saved : section_updates fields v after = [] /\ section_updates fields (open_section all after) after = [] /\
  forall f, In f fields -> exists x, obj_get (fs_name f) v = Some x /\ taken (fs_kind f) x (obj_get (fs_name f) i) (obj_get (fs_name f) after).
Proof.
  split; [|split].
  - apply omap_nothing, Forall_forall. intros f Hf%list_elem_of_In. by apply typed_stored.
  - apply omap_nothing, Forall_forall. intros f Hf%list_elem_of_In. unfold update_of. rewrite open_at by auto.
    by rewrite shown_unchanged by (by apply stored_clean).
  - intros f Hf. destruct (Hclean f Hf) as [Hv Hi]. rewrite after_value by done. destruct (obj_get (fs_name f) v) as [x|]; [|by destruct (fs_kind f)].
    exists x. split; [done|]. by apply update_taken.
Qed.
End saved.

(** The parts of the payment section that are saved together. *)
Definition payment_parts : list (list section_field) := [pay_method_fields; epay_fields; stripe_fields; creem_fields; airwallex_fields; submitted_fields].
Lemma parts_distinct fields : In fields payment_parts -> NoDup (keys fields) /\ incl fields payment_fields.
Proof.
  assert (forallb (fun l => bool_decide (NoDup (keys l)) && forallb (fun f => existsb (fun g => fs_name f === fs_name g) payment_fields) l) payment_parts = true) as H by (vm_compute; reflexivity).
  intros Hf. rewrite forallb_forall in H. apply H in Hf as Hd. apply andb_true_iff in Hd as [Hd%bool_decide_eq_true _]. split; [done|].
  unfold payment_parts in Hf. cbn [In] in Hf. unfold payment_fields. intros f Hin.
  repeat destruct Hf as [<-|Hf]; try done; rewrite !in_app_iff; auto. unfold submitted_fields in Hin. rewrite !in_app_iff in Hin.
  destruct Hin as [Hin|[Hin|[Hin|[Hin|Hin]]]]; [right; left|left|right; left|left|tauto];
    (rewrite <-(take_drop 3 epay_fields), in_app_iff || rewrite <-(take_drop 2 pay_method_fields), in_app_iff); tauto.
Qed.

Lemma sent_typed v i f k x : typed_as (fs_kind f) (obj_get (fs_name f) v) -> update_of v i f = Some (k, x) -> exists y, x = Some y /\ y <> JNull.
Proof.
  unfold update_of. destruct (field_changed _ _ _); [|done]. intros H [= <- <-]. rewrite sanitize_cleaned.
  destruct (obj_get (fs_name f) v) as [y|]; [|by destruct (fs_kind f)]. exists (cleaned_value (fs_kind f) y). split; [done|]. by destruct (fs_kind f), y.
Qed.


Definition general_before : list (jstr * json) :=
  [(js "Price", JNum (num_of_Z 7)); (js "MinTopUp", JNum (num_of_Z 1)); (js "PayMethods", JStr (js "[]")); (js "payment_setting.amount_options", JStr (js "[10,20]"));
   (js "payment_setting.amount_discount", JStr (js "{}")); (js "EpayId", JStr (js "1000"))].
Definition general_typed : list (jstr * json) :=
  obj_set (js "Price") (JNum (num_of_Z 8)) (obj_set (js "AmountOptions") (JStr (js " [10, 20, 50] ")) (payment_defaults general_before)).
Lemma amounts_ok : json_ok (JArr [JNum (num_of_Z 10); JNum (num_of_Z 20)]) /\ json_ok (JArr [JNum (num_of_Z 10); JNum (num_of_Z 20); JNum (num_of_Z 50)]).
Proof. split; repeat (split; [num_ok_eval|]); exact I. Qed.

(** After a save of the monitoring section the same values are no change. *)
Lemma changed_self o : NoDup o.*1 -> Forall (fun p => value_clean TextField (Some p.2)) o -> changed_of o o = [].
Proof.
  intros Hn Hc. apply omap_nothing, Forall_forall. intros [k v] Hin. cbn [fst snd]. rewrite (elem_obj_get k v o Hn Hin).
  rewrite Forall_forall in Hc. apply Hc, clean_same in Hin as [E _]. cbn [snd] in E. by rewrite E.
Qed.
Lemma monitoring_settles answer s sent notices s' : submit_monitoring answer s = (sent, notices, s') -> s' <> s ->
  submit_monitoring answer s' = ([], [NoChanges], s').
Proof.
  unfold submit_monitoring. destruct (monitoringSchema (ms_form s)) eqn:Es; cbn [negb]; [|by intros [= <- <- <-]].
  destruct (changed_of _ _) as [|u us] eqn:Eu; [by intros [= <- <- <-]|]. destruct (send_updates answer (u :: us)) as [[sent' notices'] done_].
  intros [= <- <- <-] Hne. destruct done_; [|done]. cbn [ms_form ms_baseline]. rewrite Es. cbn [negb]. rewrite changed_self; [done| |].
  - apply (bool_decide_unpack (NoDup (monitoring_entries (normalizeMonitoring (ms_form s))).*1)). vm_compute. exact I.
  - unfold monitoringSchema in Es. repeat (apply Forall_cons; split; [try exact I|]); [|apply Forall_nil_2]. cbn. destruct (mo_testMinutes (ms_form s)); try done.
    by rewrite !andb_false_r in Es.
Qed.

(** ** Oddities *)

(** Saving everything looks at no field of two of the parts. *)
Lemma save_all_leaves_out : forallb (fun f => negb (mem (fs_name f) (names submitted_fields))) (creem_fields ++ airwallex_fields) = true.
Proof. vm_compute. reflexivity. Qed.

(** The buttons of the parts do not check the values: a text that is no JSON and a price that is no number are sent. *)
Lemma unchecked_saved :
  let typed := obj_set (js "Price") (JNum nan) (obj_set (js "PayMethods") (JStr (js "[")) (payment_defaults general_before)) in
  List.filter (fun f => negb (field_valid f typed)) pay_method_fields = [plain_field (js "Price") NumberField; plain_field (js "PayMethods") (JsonField any_json)] /\
  saveGeneralSettings typed (payment_defaults general_before) = [(js "Price", Some (JNum nan)); (js "PayMethods", Some (JStr (js "[")))].
Proof. vm_compute. split; reflexivity. Qed.

(** Saving one part drops what was typed in another. *)
Lemma other_part_dropped :
  let typed := obj_set (js "EpayId") (JStr (js "2000")) general_typed in
  let sent := saveGeneralSettings typed (payment_defaults general_before) in
  obj_get (js "EpayId") (ps_values (new_payment_defaults (payment_defaults (options_after sent general_before)))) = Some (JStr (js "1000")).
Proof. vm_compute. reflexivity. Qed.

(** The client of Airwallex cannot be removed. *)
Lemma client_id_stays : saveAirwallexSettings [(js "AirwallexClientId", JStr [])] [(js "AirwallexClientId", JStr (js "c"))] = [].
Proof. vm_compute. reflexivity. Qed.

(** The ports are stored as texts: saving the section without a change sends them as numbers, and a range as its first port. *)
Definition ports_stored (l : list jstr) : SSRFDefaults := MkSSRFDefaults true false false false [] [] (List.map JStr l) true.
Lemma ports_rewritten : let d := ports_stored [js "80"; js "8000-9000"] in
  ssrf_updates (ssrf_form d) (normalizeSSRFDefaults d) = [(js "fetch_setting.allowed_ports", Some (JStr (js "[80,8000]")))].
Proof. vm_compute. reflexivity. Qed.

(** After a change of the options elsewhere the section compares with the old ones: the value before is no change. *)
Definition monitoring_with (threshold : jstr) : MonitoringValues := MkMonitoring threshold [] true false [] [] [] false (num_of_Z 10).
Lemma stale_baseline :
  let s := monitoring_defaults (monitoring_with (js "9")) (open_monitoring (monitoring_with (js "5"))) in
  mo_disableThreshold (ms_form s) = js "9" /\
  (submit_monitoring (fun _ _ => Updated) (MkMonitoringState (monitoring_with (js "5")) (ms_baseline s))).1 = ([], [NoChanges]).
Proof. vm_compute. split; reflexivity. Qed.

(** A price of nothing is sent as one. *)
Lemma waffo_zero_price : obj_get (js "WaffoUnitPrice") (waffo_options [(js "WaffoUnitPrice", JNum zero)] (JArr [])) = Some (js "1").
Proof. vm_compute. reflexivity. Qed.
