(* ===== verification/Affinity.v ===== *)
(** * Rules of channel affinity

    [features/system-settings/general/channel-affinity]: rules that send the requests of one conversation to one
    channel.  The section ([index.tsx]) edits the rules as a table or as a JSON text, the dialog
    ([rule-editor-dialog.tsx]) one rule as a form, and [constants.ts] has two rules as templates.

    A rule is the object that was parsed: its own keys with JSON values of any type.  The position of a rule is
    kept in it as its [id] and left out when the rules are written.  Requests are answered later: those under way
    are part of the state.  An exception in an effect takes the page down and is the [Throw] of a step; one in
    a handler changes nothing.  The time is an argument.  What the table shows of a rule is not modelled. *)
From S2P Require Import Prelude Numbers Exact Json JsonRoundtrip JsonPretty Settings ContentLists.
Local Open Scope js_scope.

(** ** Templates: [constants.ts] *)

Definition affinity_CODEX_HEADERS : list jstr :=
  [js "Originator"; js "Session_id"; js "User-Agent"; js "X-Codex-Beta-Features"; js "X-Codex-Turn-Metadata"].
Definition affinity_CLAUDE_HEADERS : list jstr :=
  [js "X-Stainless-Arch"; js "X-Stainless-Lang"; js "X-Stainless-Os"; js "X-Stainless-Package-Version";
   js "X-Stainless-Retry-Count"; js "X-Stainless-Runtime"; js "X-Stainless-Runtime-Version"; js "X-Stainless-Timeout";
   js "User-Agent"; js "X-App"; js "Anthropic-Beta"; js "Anthropic-Dangerous-Direct-Browser-Access"; js "Anthropic-Version"].
Definition affinity_buildPassHeaders (headers : list jstr) : json :=
  JObj [(js "operations", JArr [JObj [(js "mode", JStr (js "pass_headers")); (js "value", JArr (List.map JStr headers));
                                      (js "keep_origin", JBool true)]])].

Definition template_rule (name model path key : jstr) (headers : list jstr) : entry :=
  [(js "name", JStr name); (js "model_regex", JArr [JStr model]); (js "path_regex", JArr [JStr path]);
   (js "key_sources", JArr [JObj [(js "type", JStr (js "gjson")); (js "path", JStr key)]]);
   (js "param_override_template", affinity_buildPassHeaders headers); (js "value_regex", JStr []); (js "ttl_seconds", JNum zero);
   (js "skip_retry_on_failure", JBool true); (js "include_using_group", JBool true); (js "include_model_name", JBool false);
   (js "include_rule_name", JBool true)].
Definition RULE_TEMPLATES : list (jstr * entry) :=
  [(js "codexCli", template_rule (js "codex cli trace") (js "^gpt-.*$") (js "/v1/responses") (js "prompt_cache_key")
                     affinity_CODEX_HEADERS);
   (js "claudeCli", template_rule (js "claude cli trace") (js "^claude-.*$") (js "/v1/messages") (js "metadata.user_id")
                      affinity_CLAUDE_HEADERS)].

Definition numbered_name (base : jstr) (i : N) : jstr := base ++ js "-" ++ dec_digits i.
(** The loop, from [i] on for [n] numbers. *)
Fixpoint first_free (existingNames : list jstr) (base : jstr) (n : nat) (i : N) : option jstr :=
  match n with
  | O => None
  | S n' => if mem (numbered_name base i) existingNames then first_free existingNames base n' (i + 1) else Some (numbered_name base i)
  end.
Definition makeUniqueName (now : number) (existingNames : list jstr) (baseName : jstr) : jstr :=
  let base := str_or (trim baseName) (js "rule") in
  if mem base existingNames
  then match first_free existingNames base 998 2 with Some n => n | None => base ++ js "-" ++ num_to_str now end
  else base.

Definition cloneTemplate (template : json) : outcome json := JSON_parse (JSON_stringify template).

(** ** Rules as texts: [index.tsx] *)

Definition pos_id (i : nat) : json := JNum (num_of_Z (Z.of_nat i)).
(** [{ id: i, ...r }] *)
Definition read_rule (i : nat) (r : json) : entry := obj_assign [(id_key, pos_id i)] (spread r).
(** [{ ...r, id: i }] *)
Definition number_rules (rules : list entry) : list entry := imap (fun i r => obj_set id_key (pos_id i) r) rules.
Definition parseRules (jsonStr : jstr) : list entry :=
  match JSON_parse (str_or jsonStr (js "[]")) with Ret (JArr arr) => imap read_rule arr | _ => [] end.
Definition without_ids (rules : list entry) : json := JArr (List.map (fun r => JObj (obj_delete id_key r)) rules).
Definition affinity_serializeRules (rules : list entry) : jstr := JSON_stringify (without_ids rules).

(** ** The dialog: [rule-editor-dialog.tsx] *)

Definition KEY_SOURCE_TYPES : list jstr := [js "context_int"; js "context_string"; js "gjson"].
Definition gjson : json := JStr (js "gjson").

Record KeySource : Type := MkSource { ks_type : json; ks_key : option json; ks_path : option json }.
Definition blank_source : KeySource := MkSource gjson None (Some (JStr [])).

Definition normalizeStringList (text : jstr) : list jstr := filter_truthy (List.map trim (split_char 10 text)).
Definition normalizeKeySource (type key path : option json) : KeySource :=
  let type := json_or type gjson in
  if strict_eqb type gjson then MkSource type (Some (JStr [])) (Some (json_or path (JStr [])))
  else MkSource type (Some (json_or key (JStr []))) (Some (JStr [])).
Definition stored_source (src : json) : KeySource :=
  normalizeKeySource (opt_prop (js "type") (Some src)) (opt_prop (js "key") (Some src)) (opt_prop (js "path") (Some src)).
Definition normal_source (s : KeySource) : KeySource := normalizeKeySource (Some (ks_type s)) (ks_key s) (ks_path s).
Definition source_valid (s : KeySource) : bool :=
  json_truthy (ks_type s)
  && match (if strict_eqb (ks_type s) gjson then ks_path s else ks_key s) with Some v => json_truthy v | None => false end.
Definition source_json (s : KeySource) : json :=
  JObj ([(js "type", ks_type s)] ++ match ks_key s with Some v => [(js "key", v)] | None => [] end
        ++ match ks_path s with Some v => [(js "path", v)] | None => [] end).

(** Texts that come from a stored rule keep whatever type they had there. *)
Record RuleFormValues : Type := MkRuleForm {
  rf_name : json; rf_models : jstr; rf_paths : jstr; rf_agents : jstr; rf_value : json; rf_ttl : json;
  rf_skip : bool; rf_group : json; rf_model : bool; rf_rule : json; rf_template : jstr
}.
Definition blank_rule_form : RuleFormValues :=
  MkRuleForm (JStr []) [] [] [] (JStr []) (JNum zero) false (JBool true) false (JBool true) [].

Record RuleEditor : Type := MkRuleEditor { re_form : RuleFormValues; re_sources : list KeySource; re_advanced : bool }.

(** [l.join(sep)] of an array of any values, and [(v || []).join(sep)]. *)
Fixpoint line_items (l : list json) : outcome (list jstr) :=
  match l with
  | [] => Ret []
  | w :: l' => let! s := match w with JNull => Ret [] | _ => to_String w end in let! ss := line_items l' in Ret (s :: ss)
  end.
Definition lines_of (v : option json) : outcome jstr :=
  match json_or v (JArr []) with JArr l => let! ss := line_items l in Ret (join newline ss) | _ => Throw end.
Definition is_truthy (v : option json) : bool := match v with Some w => json_truthy w | None => false end.
(** [v ?? true] *)
Definition or_true (v : option json) : json := match v with None | Some JNull => JBool true | Some w => w end.

Definition resetFromRule (r : entry) (ed : RuleEditor) : outcome RuleEditor :=
  let get k := obj_get k r in
  let! models := lines_of (get (js "model_regex")) in
  let! paths := lines_of (get (js "path_regex")) in
  let! agents := lines_of (get (js "user_agent_include")) in
  let template := json_or (get (js "param_override_template")) JNull in
  let form := MkRuleForm (json_or (get (js "name")) (JStr [])) models paths agents (json_or (get (js "value_regex")) (JStr []))
      (json_or (get (js "ttl_seconds")) (JNum zero)) (is_truthy (get (js "skip_retry_on_failure"))) (or_true (get (js "include_using_group")))
      (is_truthy (get (js "include_model_name"))) (or_true (get (js "include_rule_name")))
      (if json_truthy template then JSON_pretty template else []) in
  let! sources := match json_or (get (js "key_sources")) (JArr []) with JArr l => Ret (List.map stored_source l) | _ => Throw end in
  Ret (MkRuleEditor form (match sources with [] => [blank_source] | _ => sources end) (re_advanced ed || json_truthy template)).

(** The effect that fills the dialog when it opens. *)
Definition open_rule_editor (rule : option entry) (templateKey : option jstr) (ed : RuleEditor) : outcome RuleEditor :=
  match rule, templateKey ≫= (fun k => obj_get k RULE_TEMPLATES) with
  | Some r, _ => resetFromRule r ed
  | None, Some r => resetFromRule r ed
  | None, None => Ret (MkRuleEditor blank_rule_form [blank_source] (re_advanced ed))
  end.

(** A rule the dialog has made: [id] may be undefined. *)
Record MadeRule : Type := MkMade { mr_id : option json; mr_fields : entry }.
Inductive rule_result : Type := RuleRefused (message : jstr) | RuleMade (r : MadeRule).

Definition trimmed_value (v : json) : outcome jstr := match v with JStr s => Ret (trim s) | _ => Throw end.
Definition valid_sources (sources : list KeySource) : list KeySource := List.filter source_valid (List.map normal_source sources).
Definition read_template (text : jstr) : jstr + json :=
  match trim text with
  | [] => inr JNull
  | _ => match JSON_parse text with
         | Ret (JObj o) => inr (JObj o)
         | Ret _ => inl (js "Parameter override template must be a JSON object")
         | Throw => inl (js "Invalid JSON in parameter override template")
         end
  end.
Definition strings (l : list jstr) : json := JArr (List.map JStr l).

Definition rule_fields (name : jstr) (models paths agents : list jstr) (sources : list KeySource) (value : jstr) (ttl : number)
    (skip : bool) (group : json) (model : bool) (rule template : json) : entry :=
  [(js "name", JStr name); (js "model_regex", strings models); (js "path_regex", strings paths);
   (js "user_agent_include", strings agents); (js "key_sources", JArr (List.map source_json sources)); (js "value_regex", JStr value);
   (js "ttl_seconds", JNum ttl); (js "skip_retry_on_failure", JBool skip); (js "include_using_group", group);
   (js "include_model_name", JBool model); (js "include_rule_name", rule); (js "param_override_template", template)].

Definition rule_handleSave (rule : option entry) (ed : RuleEditor) : outcome rule_result :=
  let values := re_form ed in
  let modelRegex := normalizeStringList (rf_models values) in
  let sources := valid_sources (re_sources ed) in
  match modelRegex, sources, read_template (rf_template values) with
  | [], _, _ => Ret (RuleRefused (js "At least one model regex pattern is required"))
  | _, [], _ => Ret (RuleRefused (js "At least one valid key source is required"))
  | _, _, inl message => Ret (RuleRefused message)
  | _, _, inr template =>
      let! name := trimmed_value (rf_name values) in
      let! value := trimmed_value (rf_value values) in
      let! ttl := to_Number (Some (json_or (Some (rf_ttl values)) (JNum zero))) in
      Ret (RuleMade (MkMade (rule ≫= obj_get id_key)
        (rule_fields name modelRegex (normalizeStringList (rf_paths values)) (normalizeStringList (rf_agents values)) sources value ttl
           (rf_skip values) (rf_group values) (rf_model values) (rf_rule values) template)))
  end.
(** The form library checks that the two required inputs are not empty. *)
Definition required (v : json) : bool := match v with JStr [] | JArr [] => false | _ => true end.
Definition rule_form_valid (v : RuleFormValues) : bool := required (rf_name v) && truthy (rf_models v).

(** The inputs of the dialog. *)
Inductive rule_input : Type :=
| TypeName (s : jstr) | TypeModels (s : jstr) | TypePaths (s : jstr) | TypeAgents (s : jstr) | TypeValue (s : jstr) | TypeTtl (s : jstr)
| TypeTemplate (s : jstr) | SwitchSkip (b : bool) | SwitchGroup (b : bool) | SwitchModel (b : bool) | SwitchRule (b : bool)
| AddSource | SourceType (i : nat) (type : jstr) | SourceText (i : nat) (s : jstr) | RemoveSource (i : nat) | OpenAdvanced (b : bool).

Definition set_rule_form (v : RuleFormValues) (ed : RuleEditor) : RuleEditor := MkRuleEditor v (re_sources ed) (re_advanced ed).
Definition set_sources (l : list KeySource) (ed : RuleEditor) : RuleEditor := MkRuleEditor (re_form ed) l (re_advanced ed).
Definition input_step (i : rule_input) (ed : RuleEditor) : RuleEditor :=
  let '(MkRuleForm name models paths agents value ttl skip group model rule template) := re_form ed in
  let form v := set_rule_form v ed in
  match i with
  | TypeName s => form (MkRuleForm (JStr s) models paths agents value ttl skip group model rule template)
  | TypeModels s => form (MkRuleForm name s paths agents value ttl skip group model rule template)
  | TypePaths s => form (MkRuleForm name models s agents value ttl skip group model rule template)
  | TypeAgents s => form (MkRuleForm name models paths s value ttl skip group model rule template)
  | TypeValue s => form (MkRuleForm name models paths agents (JStr s) ttl skip group model rule template)
  | TypeTtl s => form (MkRuleForm name models paths agents value (JStr s) skip group model rule template)
  | TypeTemplate s => form (MkRuleForm name models paths agents value ttl skip group model rule s)
  | SwitchSkip b => form (MkRuleForm name models paths agents value ttl b group model rule template)
  | SwitchGroup b => form (MkRuleForm name models paths agents value ttl skip (JBool b) model rule template)
  | SwitchModel b => form (MkRuleForm name models paths agents value ttl skip group b rule template)
  | SwitchRule b => form (MkRuleForm name models paths agents value ttl skip group model (JBool b) template)
  | AddSource => set_sources (re_sources ed ++ [blank_source]) ed
  | SourceType i type =>
      match re_sources ed !! i with
      | Some src => set_sources (<[i := normalizeKeySource (Some (JStr type)) (ks_key src) (ks_path src)]> (re_sources ed)) ed
      | None => ed
      end
  | SourceText i s =>
      match re_sources ed !! i with
      | Some src =>
          set_sources (<[i := if strict_eqb (ks_type src) gjson then MkSource (ks_type src) (ks_key src) (Some (JStr s))
                              else MkSource (ks_type src) (Some (JStr s)) (ks_path src)]> (re_sources ed)) ed
      | None => ed
      end
  | RemoveSource i => set_sources (delete i (re_sources ed)) ed
  | OpenAdvanced b => MkRuleEditor (re_form ed) (re_sources ed) b
  end.

(** ** The section: [index.tsx] *)

Record AffinityValues : Type := MkValues { v_enabled : bool; v_switch : bool; v_max : number; v_ttl : number }.

Inductive affinity_notice : Type :=
| AfInfo (s : jstr) | AfDone (s : jstr) | AfError (s : jstr) | AfOption (n : form_notice).

(** The dialogs that are open, the rule that is edited and the template that was chosen. *)
Record AffinityDialogs : Type := MkDialogs {
  d_editor : bool; d_editing : option entry; d_template : option jstr; d_clearAll : bool; d_clearRule : option json; d_fill : bool
}.
(** What is known of the cache; how many requests for it are under way, and which rules are being cleared ([None]: all). *)
Record AffinityCache : Type := MkCache { c_stats : option json; c_loading : bool; c_reads : nat; c_clears : list (option json) }.

Record AffinitySection : Type := MkSection {
  af_stored : AffinityValues; af_stored_rules : jstr;
  af_values : AffinityValues; af_rules : list entry; af_json : bool; af_text : jstr;
  af_cache : AffinityCache; af_saving : option (list (jstr * jstr)); af_dialogs : AffinityDialogs; af_editor : RuleEditor;
  af_sent : list (jstr * jstr); af_notices : list affinity_notice
}.

Definition set_affinity_values (v : AffinityValues) (s : AffinitySection) : AffinitySection :=
  MkSection (af_stored s) (af_stored_rules s) v (af_rules s) (af_json s) (af_text s) (af_cache s) (af_saving s) (af_dialogs s)
    (af_editor s) (af_sent s) (af_notices s).
Definition set_rules (rules : list entry) (s : AffinitySection) : AffinitySection :=
  MkSection (af_stored s) (af_stored_rules s) (af_values s) rules (af_json s) (af_text s) (af_cache s) (af_saving s) (af_dialogs s)
    (af_editor s) (af_sent s) (af_notices s).
Definition set_affinity_mode (json_mode : bool) (text : jstr) (s : AffinitySection) : AffinitySection :=
  MkSection (af_stored s) (af_stored_rules s) (af_values s) (af_rules s) json_mode text (af_cache s) (af_saving s) (af_dialogs s)
    (af_editor s) (af_sent s) (af_notices s).
Definition set_cache (c : AffinityCache) (s : AffinitySection) : AffinitySection :=
  MkSection (af_stored s) (af_stored_rules s) (af_values s) (af_rules s) (af_json s) (af_text s) c (af_saving s) (af_dialogs s)
    (af_editor s) (af_sent s) (af_notices s).
Definition set_saving (q : option (list (jstr * jstr))) (sent : list (jstr * jstr)) (s : AffinitySection) : AffinitySection :=
  MkSection (af_stored s) (af_stored_rules s) (af_values s) (af_rules s) (af_json s) (af_text s) (af_cache s) q (af_dialogs s)
    (af_editor s) (af_sent s ++ sent) (af_notices s).
Definition set_affinity_dialogs (d : AffinityDialogs) (s : AffinitySection) : AffinitySection :=
  MkSection (af_stored s) (af_stored_rules s) (af_values s) (af_rules s) (af_json s) (af_text s) (af_cache s) (af_saving s) d
    (af_editor s) (af_sent s) (af_notices s).
Definition set_rule_editor (ed : RuleEditor) (s : AffinitySection) : AffinitySection :=
  MkSection (af_stored s) (af_stored_rules s) (af_values s) (af_rules s) (af_json s) (af_text s) (af_cache s) (af_saving s) (af_dialogs s)
    ed (af_sent s) (af_notices s).
Definition af_say (n : list affinity_notice) (s : AffinitySection) : AffinitySection :=
  MkSection (af_stored s) (af_stored_rules s) (af_values s) (af_rules s) (af_json s) (af_text s) (af_cache s) (af_saving s) (af_dialogs s)
    (af_editor s) (af_sent s) (af_notices s ++ n).

Definition rules_text (rules : list entry) : jstr := JSON_pretty (without_ids rules).

(** The effect on the stored options: it depends on an object that the page makes anew at every rendering. *)
Definition page_rendered (v : AffinityValues) (rules : jstr) (s : AffinitySection) : AffinitySection :=
  MkSection v rules v (parseRules rules) (af_json s) (rules_text (parseRules rules)) (af_cache s) (af_saving s) (af_dialogs s)
    (af_editor s) (af_sent s) (af_notices s).

Definition refreshCache (s : AffinitySection) : AffinitySection :=
  let c := af_cache s in set_cache (MkCache (c_stats c) true (S (c_reads c)) (c_clears c)) s.
(** [None]: the request failed; otherwise whether it succeeded, and its data. *)
Definition stats_answered (a : option (bool * option json)) (s : AffinitySection) : AffinitySection :=
  let c := af_cache s in
  match c_reads c with
  | O => s
  | S n =>
      let stats := match a with
                   | Some (true, Some d) => if json_truthy d then Some d else None
                   | Some (true, None) => None
                   | _ => c_stats c
                   end in
      af_say (match a with None => [AfError (js "Failed to refresh cache stats")] | _ => [] end) (set_cache (MkCache stats false n (c_clears c)) s)
  end.

(** *** Templates *)

Definition rule_name (r : entry) : outcome jstr := trimmed_value (json_or (obj_get (js "name") r) (JStr [])).
Fixpoint rule_names (rules : list entry) : outcome (list jstr) :=
  match rules with [] => Ret [] | r :: rules' => let! n := rule_name r in let! ns := rule_names rules' in Ret (n :: ns) end.
Fixpoint named_templates (now : number) (existingNames : list jstr) (templates : list entry) : outcome (list entry) :=
  match templates with
  | [] => Ret []
  | tpl :: templates' =>
      let! base := cloneTemplate (JObj tpl) in
      let! own := match obj_get (js "name") tpl with Some (JStr s) => Ret s | _ => Throw end in
      let name := makeUniqueName now existingNames own in
      let! rest := named_templates now (existingNames ++ [name]) templates' in
      Ret (obj_set (js "name") (JStr name) (spread base) :: rest)
  end.
Definition existing_names (rules : list entry) : outcome (list jstr) := let! ns := rule_names rules in Ret (filter_truthy ns).
Definition appendCliTemplates (now : number) (s : AffinitySection) : outcome AffinitySection :=
  let! names := existing_names (af_rules s) in
  let! templates := named_templates now names (snd <$> RULE_TEMPLATES) in
  let d := af_dialogs s in
  Ret (set_affinity_dialogs (MkDialogs (d_editor d) (d_editing d) (d_template d) (d_clearAll d) (d_clearRule d) false)
        (af_say [AfDone (js "Templates appended")] (set_rules (number_rules (af_rules s ++ templates)) s))).
Definition set_fill (b : bool) (s : AffinitySection) : AffinitySection :=
  let d := af_dialogs s in set_affinity_dialogs (MkDialogs (d_editor d) (d_editing d) (d_template d) (d_clearAll d) (d_clearRule d) b) s.
Definition handleFillTemplates (now : number) (s : AffinitySection) : AffinitySection :=
  match af_rules s with [] => try_catch (appendCliTemplates now s) s | _ => set_fill true s end.

(** *** Saving *)

Definition affinity_key (k : jstr) : jstr := js "channel_affinity_setting." ++ k.
Definition bool_text (b : bool) : jstr := if b then js "true" else js "false".
Definition value_updates (now stored : AffinityValues) : list (jstr * jstr) :=
  (if Bool.eqb (v_enabled now) (v_enabled stored) then [] else [(affinity_key (js "enabled"), bool_text (v_enabled now))])
  ++ (if Bool.eqb (v_switch now) (v_switch stored) then [] else [(affinity_key (js "switch_on_success"), bool_text (v_switch now))])
  ++ (if neqb (v_max now) (v_max stored) then [] else [(affinity_key (js "max_entries"), num_to_str (v_max now))])
  ++ (if neqb (v_ttl now) (v_ttl stored) then [] else [(affinity_key (js "default_ttl_seconds"), num_to_str (v_ttl now))]).
Definition stored_rules_text (rules : jstr) : jstr :=
  match JSON_parse (str_or rules (js "[]")) with Ret v => JSON_stringify v | Throw => js "[]" end.
Definition text_to_save (s : AffinitySection) : jstr + jstr :=
  if af_json s
  then match JSON_parse (af_text s) with
       | Ret (JArr l) => inr (JSON_stringify (JArr l))
       | Ret _ => inl (js "Rules JSON must be an array")
       | Throw => inl (js "Invalid rules JSON format")
       end
  else inr (affinity_serializeRules (af_rules s)).
Definition affinity_updates (rulesJson : jstr) (s : AffinitySection) : list (jstr * jstr) :=
  value_updates (af_values s) (af_stored s)
  ++ (if rulesJson === stored_rules_text (af_stored_rules s) then [] else [(affinity_key (js "rules"), rulesJson)]).
Definition affinity_handleSave (s : AffinitySection) : AffinitySection :=
  match text_to_save s with
  | inl message => af_say [AfError message] s
  | inr rulesJson =>
      match affinity_updates rulesJson s with
      | [] => af_say [AfInfo (js "No changes")] s
      | u :: us => set_saving (Some (u :: us)) [u] s
      end
  end.
(** The request of the first update was answered; a refusal is no exception, so the next one is sent. *)
Definition option_answered (a : option_answer) (s : AffinitySection) : AffinitySection :=
  match af_saving s with
  | Some (u :: us) =>
      let s := af_say [AfOption (update_notice u.1 a)] s in
      match a, us with
      | RequestFailed _, _ => af_say [AfError (js "Failed to save")] (set_saving None [] s)
      | _, [] => af_say [AfDone (js "Saved successfully")] (set_saving None [] s)
      | _, u' :: _ => set_saving (Some us) [u'] s
      end
  | _ => s
  end.

(** *** Rules *)

Definition rule_matches (rule : MadeRule) (editing : option entry) (r : entry) : bool :=
  id_eqb (obj_get id_key r) (mr_id rule)
  || (is_truthy (obj_get (js "name") (mr_fields rule)) && id_eqb (obj_get (js "name") r) (editing ≫= obj_get (js "name"))).
Definition find_index_by {A} (f : A -> bool) (l : list A) : option nat := fst <$> list_find (fun x => f x = true) l.
Definition made_rule (i : nat) (rule : MadeRule) : entry := (id_key, pos_id i) :: mr_fields rule.
Definition save_rule (rule : MadeRule) (editing : option entry) (prev : list entry) : list entry :=
  match find_index_by (rule_matches rule editing) prev with
  | Some i => <[i := made_rule i rule]> prev
  | None => prev ++ [made_rule (length prev) rule]
  end.
Definition handleRuleSave (rule : MadeRule) (s : AffinitySection) : AffinitySection :=
  let d := af_dialogs s in
  set_affinity_dialogs (MkDialogs (d_editor d) None (d_template d) (d_clearAll d) (d_clearRule d) (d_fill d))
    (set_rules (save_rule rule (d_editing d) (af_rules s)) s).
Definition handleDeleteRule (idx : nat) (s : AffinitySection) : AffinitySection :=
  af_say [AfDone (js "Deleted successfully")] (set_rules (number_rules (delete idx (af_rules s))) s).

Definition affinity_switchToJson (s : AffinitySection) : AffinitySection := set_affinity_mode true (rules_text (af_rules s)) s.
Definition affinity_switchToVisual (s : AffinitySection) : AffinitySection :=
  match JSON_parse (af_text s) with
  | Ret (JArr l) => set_affinity_mode false (af_text s) (set_rules (imap read_rule l) s)
  | Ret _ => af_say [AfError (js "Rules JSON must be an array")] s
  | Throw => af_say [AfError (js "Invalid rules JSON format")] s
  end.

(** *** Clearing the cache *)

Definition set_clear (all : bool) (rule : option json) (s : AffinitySection) : AffinitySection :=
  let d := af_dialogs s in set_affinity_dialogs (MkDialogs (d_editor d) (d_editing d) (d_template d) all rule (d_fill d)) s.
Definition ask_clear (r : option json) (s : AffinitySection) : AffinitySection :=
  let c := af_cache s in set_cache (MkCache (c_stats c) (c_loading c) (c_reads c) (c_clears c ++ [r])) s.
Definition handleClearAll (s : AffinitySection) : AffinitySection := ask_clear None s.
Definition handleClearRule (s : AffinitySection) : AffinitySection :=
  match d_clearRule (af_dialogs s) with
  | Some name => if json_truthy name then ask_clear (Some name) s else s
  | None => s
  end.
(** [None]: the request failed, and the rest of the handler does not run. *)
Definition clear_answered (i : nat) (a : option bool) (s : AffinitySection) : AffinitySection :=
  let c := af_cache s in
  match c_clears c !! i with
  | None => s
  | Some r =>
      let s := set_cache (MkCache (c_stats c) (c_loading c) (c_reads c) (delete i (c_clears c))) s in
      match a with
      | None => s
      | Some ok =>
          let s := if ok then refreshCache (af_say [AfDone (js "Cleared")] s) else s in
          match r with
          | None => set_clear false (d_clearRule (af_dialogs s)) s
          | Some _ => set_clear (d_clearAll (af_dialogs s)) None s
          end
      end
  end.

(** *** Events *)

Inductive affinity_event : Type :=
| PageRendered (v : AffinityValues) (rules : jstr) | Enable (b : bool) | SwitchOnSuccess (b : bool) | TypeMax (s : jstr) | TypeDefaultTtl (s : jstr)
| RefreshCache | StatsAnswered (a : option (bool * option json)) | FillTemplates (now : number) | ConfirmFill (now : number) | CloseFill
| Save | OptionAnswered (a : option_answer)
| AddRule (template : option jstr) | EditRule (i : nat) | DeleteRule (i : nat) | RuleInput (i : rule_input) | RuleSubmit | RuleClose
| JsonMode | VisualMode | TypeJson (s : jstr)
| AskClearAll (b : bool) | AskClearRule (i : nat) | CloseClearRule | ClearAll | ClearRule | ClearAnswered (i : nat) (a : option bool).

Definition open_rule_dialog (rule : option entry) (template : option jstr) (s : AffinitySection) : outcome AffinitySection :=
  let d := af_dialogs s in
  let! ed := open_rule_editor rule template (af_editor s) in
  Ret (set_rule_editor ed (set_affinity_dialogs (MkDialogs true rule template (d_clearAll d) (d_clearRule d) (d_fill d)) s)).
Definition close_dialog (s : AffinitySection) : AffinitySection :=
  let d := af_dialogs s in set_affinity_dialogs (MkDialogs false (d_editing d) (d_template d) (d_clearAll d) (d_clearRule d) (d_fill d)) s.
Definition submit_rule (s : AffinitySection) : outcome AffinitySection :=
  let! r := rule_handleSave (d_editing (af_dialogs s)) (af_editor s) in
  Ret (match r with
       | RuleRefused message => af_say [AfError message] s
       | RuleMade rule => close_dialog (handleRuleSave rule s)
       end).

Definition affinity_step (ev : affinity_event) (s : AffinitySection) : outcome AffinitySection :=
  let v := af_values s in
  let d := af_dialogs s in
  match ev with
  | PageRendered v rules => Ret (page_rendered v rules s)
  | Enable b => Ret (set_affinity_values (MkValues b (v_switch v) (v_max v) (v_ttl v)) s)
  | SwitchOnSuccess b => Ret (set_affinity_values (MkValues (v_enabled v) b (v_max v) (v_ttl v)) s)
  | TypeMax t => Ret (set_affinity_values (MkValues (v_enabled v) (v_switch v) (Number t) (v_ttl v)) s)
  | TypeDefaultTtl t => Ret (set_affinity_values (MkValues (v_enabled v) (v_switch v) (v_max v) (Number t)) s)
  | RefreshCache => Ret (if c_loading (af_cache s) then s else refreshCache s)
  | StatsAnswered a => Ret (stats_answered a s)
  | FillTemplates now => Ret (handleFillTemplates now s)
  | ConfirmFill now => Ret (if d_fill d then try_catch (appendCliTemplates now s) s else s)
  | CloseFill => Ret (set_fill false s)
  | Save => Ret (match af_saving s with Some _ => s | None => affinity_handleSave s end)
  | OptionAnswered a => Ret (option_answered a s)
  | AddRule template => open_rule_dialog None template s
  | EditRule i => if af_json s then Ret s else match af_rules s !! i with Some r => open_rule_dialog (Some r) None s | None => Ret s end
  | DeleteRule i => Ret (if af_json s then s else match af_rules s !! i with Some _ => handleDeleteRule i s | None => s end)
  | RuleInput i => Ret (if d_editor d then set_rule_editor (input_step i (af_editor s)) s else s)
  | RuleSubmit => Ret (if d_editor d && rule_form_valid (re_form (af_editor s)) then try_catch (submit_rule s) s else s)
  | RuleClose => Ret (close_dialog s)
  | JsonMode => Ret (if af_json s then s else affinity_switchToJson s)
  | VisualMode => Ret (if af_json s then affinity_switchToVisual s else s)
  | TypeJson t => Ret (if af_json s then set_affinity_mode true t s else s)
  | AskClearAll b => Ret (set_clear b (d_clearRule d) s)
  | AskClearRule i =>
      Ret (if af_json s then s else
           match af_rules s !! i with
           | Some r => if is_truthy (obj_get (js "include_rule_name") r) then set_clear (d_clearAll d) (obj_get (js "name") r) s else s
           | None => s
           end)
  | CloseClearRule => Ret (set_clear (d_clearAll d) None s)
  | ClearAll => Ret (if d_clearAll d then handleClearAll s else s)
  | ClearRule => Ret (handleClearRule s)
  | ClearAnswered i a => Ret (clear_answered i a s)
  end.

Fixpoint run_affinity (s : AffinitySection) (evs : list affinity_event) : outcome AffinitySection :=
  match evs with [] => Ret s | ev :: evs' => let! s' := affinity_step ev s in run_affinity s' evs' end.

(** The section when it appears: the request for the cache is under way. *)
Definition open_affinity (v : AffinityValues) (rules : jstr) : AffinitySection :=
  MkSection v rules v (parseRules rules) false (rules_text (parseRules rules)) (MkCache None true 1 []) None
    (MkDialogs false None None false None false) (MkRuleEditor blank_rule_form [blank_source] false) [] [].

(** ** Names of templates *)

Lemma first_free_fresh names base n i x : first_free names base n i = Some x -> x ∉ names.
Proof.
  revert i. induction n as [|n IH]; intros i; [done|]. cbn [first_free]. destruct (mem _ names) eqn:E; [apply IH|].
  intros [= <-]. by apply mem_false in E.
Qed.

Lemma first_free_none names base n i : first_free names base n i = None ->
  forall k, (k < n)%nat -> numbered_name base (i + N.of_nat k) ∈ names.
Proof.
  revert i. induction n as [|n IH]; intros i; [lia|]. cbn [first_free]. destruct (mem _ names) eqn:E; [|done].
  intros H [|k] Hk; [rewrite N.add_0_r; by apply mem_true in E|].
  replace (i + N.of_nat (S k))%N with (i + 1 + N.of_nat k)%N by lia. apply IH; [done|lia].
Qed.

Lemma numbered_name_inj base i j : numbered_name base i = numbered_name base j -> i = j.
Proof. unfold numbered_name. intros H. apply app_inv_head in H. injection H as H. by apply dec_digits_inj. Qed.

Lemma numbered_names_NoDup base (l : list nat) : NoDup l -> NoDup ((fun k => numbered_name base (2 + N.of_nat k)) <$> l).
Proof. intros H. apply NoDup_fmap_2; [|done]. intros i j E%numbered_name_inj. lia. Qed.

Lemma unique_name_fresh now names b : (length names < 999)%nat -> makeUniqueName now names b ∉ names.
Proof.
  intros Hl. unfold makeUniqueName. set (base := str_or _ _). destruct (mem base names) eqn:Hb; [|by apply mem_false in Hb].
  destruct (first_free names base 998 2) eqn:Hf; [by eapply first_free_fresh|]. exfalso.
  apply mem_true in Hb. pose proof (first_free_none _ _ _ _ Hf) as Hn.
  assert (length (base :: ((fun k => numbered_name base (2 + N.of_nat k)) <$> seq 0 998)) <= length names)%nat as Hle.
  - apply submseteq_length, NoDup_submseteq.
    + constructor; [|apply numbered_names_NoDup, NoDup_seq].
      intros (k & E & _)%list_elem_of_fmap. unfold numbered_name in E. apply (f_equal length) in E.
      rewrite !length_app in E. change (length (js "-")) with 1%nat in E. lia.
    + intros x [->|(k & -> & Hk%elem_of_seq)%list_elem_of_fmap]%elem_of_cons; [done|]. apply Hn. lia.
  - cbn [length] in Hle. rewrite length_fmap, length_seq in Hle. lia.
Qed.

Definition codexCli : entry := default [] (obj_get (js "codexCli") RULE_TEMPLATES).
Definition claudeCli : entry := default [] (obj_get (js "claudeCli") RULE_TEMPLATES).
Definition renamed (name : jstr) (tpl : entry) : entry := obj_set (js "name") (JStr name) tpl.

Lemma clone_template tpl : tpl ∈ RULE_TEMPLATES.*2 -> cloneTemplate (JObj tpl) = Ret (JObj tpl).
Proof.
  change (RULE_TEMPLATES.*2) with [codexCli; claudeCli]. rewrite !elem_of_cons. intros [->|[->|H%not_elem_of_nil]]; [vm_compute; reflexivity..|done].
Qed.

Lemma templates_named now names :
  named_templates now names (RULE_TEMPLATES.*2)
  = let n1 := makeUniqueName now names (js "codex cli trace") in
    let n2 := makeUniqueName now (names ++ [n1]) (js "claude cli trace") in
    Ret [renamed n1 codexCli; renamed n2 claudeCli].
Proof.
  change (RULE_TEMPLATES.*2) with [codexCli; claudeCli]. cbn [named_templates].
  rewrite (clone_template codexCli), (clone_template claudeCli) by (change (RULE_TEMPLATES.*2) with [codexCli; claudeCli]; set_solver).
  reflexivity.
Qed.

(** Appending the templates adds two rules at the end whose names are new and different, and nothing else. *)
Lemma templates_appended now s names :
  existing_names (af_rules s) = Ret names -> (length names < 998)%nat ->
  exists n1 n2 s', appendCliTemplates now s = Ret s' /\ n1 ∉ names /\ n2 ∉ names /\ n1 <> n2
    /\ af_rules s' = number_rules (af_rules s ++ [renamed n1 codexCli; renamed n2 claudeCli]).
Proof.
  intros H Hl. unfold appendCliTemplates. rewrite H. cbn [obind].
  change (snd <$> RULE_TEMPLATES) with (RULE_TEMPLATES.*2). rewrite templates_named. cbn zeta.
  set (n1 := makeUniqueName now names _). set (n2 := makeUniqueName now (names ++ [n1]) _).
  assert (n2 ∉ names ++ [n1]) as H2 by (apply unique_name_fresh; rewrite length_app; simpl; lia).
  rewrite elem_of_app, list_elem_of_singleton in H2.
  exists n1, n2. eexists. split; [reflexivity|]. split; [apply unique_name_fresh; lia|]. split; [tauto|]. split; [|done].
  intros E. apply H2. right. by rewrite E.
Qed.

(** ** Texts of rules *)

(** What is written of a rule can be read. *)
Definition affinity_rules_ok (rules : list entry) : Prop := Forall (fun r => obj_ok (obj_delete id_key r)) rules.

Lemma without_ids_ok rules : affinity_rules_ok rules -> json_ok (without_ids rules).
Proof. intros H. apply json_ok_arr, Forall_map. eapply Forall_impl; [exact H|]. intros r. apply obj_ok_json. Qed.

(** The rules of a text that holds [rules]. *)
Definition reread (rules : list entry) : list entry := imap (fun i r => read_rule i (JObj (obj_delete id_key r))) rules.

Lemma imap_map {A B C} (f : nat -> B -> C) (g : A -> B) l : imap f (List.map g l) = imap (fun i x => f i (g x)) l.
Proof. change (List.map g l) with (g <$> l). by rewrite imap_fmap. Qed.

Lemma affinity_rules_read rules : affinity_rules_ok rules -> parseRules (affinity_serializeRules rules) = reread rules.
Proof.
  intros H. unfold parseRules, affinity_serializeRules. replace (str_or _ _) with (JSON_stringify (without_ids rules)) by reflexivity.
  rewrite parse_stringify by by apply without_ids_ok. unfold without_ids. apply imap_map.
Qed.

(** Rules as the handlers keep them: the position first, then keys that are no indices. *)
Definition placed (i : nat) (r : entry) : Prop :=
  exists fields, r = (id_key, pos_id i) :: fields /\ obj_ok fields /\ plain_keys (id_key :: fields.*1) = true.
Definition all_placed (rules : list entry) : Prop := forall i r, rules !! i = Some r -> placed i r.

Lemma delete_absent {V} k (o : list (jstr * V)) : k ∉ o.*1 -> obj_delete k o = o.
Proof.
  intros H. unfold obj_delete. apply lfilter_id, Forall_forall. intros [j v] Hj. apply negb_true_iff, js_eqb_false.
  intros <-. apply H, list_elem_of_fmap. by exists (j, v).
Qed.

Lemma placed_delete i r : placed i r -> exists fields, r = (id_key, pos_id i) :: fields /\ obj_delete id_key r = fields
  /\ obj_ok fields /\ plain_keys (id_key :: fields.*1) = true.
Proof.
  intros (fields & -> & Hok & Hp). exists fields. split; [done|]. split; [|done].
  assert (NoDup (id_key :: fields.*1)) as Hn.
  { unfold plain_keys in Hp. apply andb_true_iff in Hp as [_ Hp]. by apply bool_decide_eq_true in Hp. }
  apply NoDup_cons in Hn as [Hn _]. cbn. by apply delete_absent.
Qed.

Lemma assign_plain (o1 o2 : entry) : plain_keys ((o1 ++ o2).*1) = true -> obj_assign o1 o2 = o1 ++ o2.
Proof.
  revert o1. induction o2 as [|[k v] o2 IH]; intros o1 H; [by rewrite app_nil_r|].
  assert (obj_assign o1 ((k, v) :: o2) = obj_assign (o1 ++ [(k, v)]) o2) as ->; [|rewrite IH by (by rewrite <-app_assoc); by rewrite <-app_assoc].
  unfold obj_assign. cbn [foldl]. f_equal. rewrite fmap_app in H. cbn [fmap list_fmap fst] in H.
  unfold plain_keys in H. apply andb_true_iff in H as [Hk Hn]. apply bool_decide_eq_true in Hn.
  apply NoDup_app in Hn as (_ & Hn & _). unfold obj_set.
  cbn [fst snd]. rewrite (proj2 (obj_has_false k o1)) by (intros Hin; apply (Hn k Hin); apply list_elem_of_here).
  apply obj_add_last. apply Forall_forall. intros j Hj. split; [intros ->; apply (Hn k Hj); apply list_elem_of_here|].
  rewrite forallb_forall in Hk. intros E. specialize (Hk k). rewrite E in Hk.
  by discriminate Hk; apply list_elem_of_In, elem_of_app; right; apply list_elem_of_here.
Qed.

Lemma reread_placed rules : all_placed rules -> reread rules = rules.
Proof.
  intros H. apply list_eq. intros i. unfold reread. rewrite list_lookup_imap. destruct (rules !! i) as [r|] eqn:E; [|done].
  destruct (placed_delete i r (H i r E)) as (fields & -> & Hd & _ & Hp). cbn [fmap option_fmap option_map]. f_equal.
  unfold read_rule. rewrite Hd. cbn [spread]. by apply (assign_plain [(id_key, pos_id i)] fields).
Qed.

Lemma placed_rules_ok rules : all_placed rules -> affinity_rules_ok rules.
Proof.
  intros H. apply Forall_forall. intros r (i & Hi)%list_elem_of_lookup.
  destruct (placed_delete i r (H i r Hi)) as (fields & -> & -> & Hok & _). done.
Qed.

(** Switching to the text and back gives the same rules. *)
Lemma modes_round_trip s : all_placed (af_rules s) -> af_json s = false ->
  af_rules (affinity_switchToVisual (affinity_switchToJson s)) = af_rules s /\ af_json (affinity_switchToVisual (affinity_switchToJson s)) = false.
Proof.
  intros H Hm. unfold affinity_switchToVisual, affinity_switchToJson. cbn [af_text set_affinity_mode]. unfold rules_text.
  rewrite parse_pretty by by apply without_ids_ok, placed_rules_ok. unfold without_ids. split; [|done].
  cbn [af_rules set_affinity_mode set_rules]. rewrite imap_map. by apply reread_placed.
Qed.

Lemma same_values_no_updates v : is_nan (v_max v) = false -> is_nan (v_ttl v) = false -> value_updates v v = [].
Proof. intros H1 H2. unfold value_updates. by rewrite !eqb_reflx, !neqb_refl. Qed.

(** What was saved is shown as it was, and there is nothing left to save. *)
Theorem affinity_settles s :
  all_placed (af_rules s) -> af_json s = false ->
  is_nan (v_max (af_values s)) = false -> is_nan (v_ttl (af_values s)) = false ->
  let s' := page_rendered (af_values s) (affinity_serializeRules (af_rules s)) s in
  af_rules s' = af_rules s /\ af_values s' = af_values s /\ affinity_handleSave s' = af_say [AfInfo (js "No changes")] s'.
Proof.
  intros H Hm H1 H2 s'. assert (af_rules s' = af_rules s) as Hr.
  { change (parseRules (affinity_serializeRules (af_rules s)) = af_rules s). rewrite affinity_rules_read by by apply placed_rules_ok. by apply reread_placed. }
  split; [done|]. split; [done|]. unfold affinity_handleSave, text_to_save. change (af_json s') with (af_json s). rewrite Hm, Hr.
  unfold affinity_updates. change (af_values s') with (af_values s). change (af_stored s') with (af_values s).
  rewrite same_values_no_updates by done. change (af_stored_rules s') with (affinity_serializeRules (af_rules s)). unfold stored_rules_text.
  replace (str_or _ _) with (JSON_stringify (without_ids (af_rules s))) by reflexivity.
  rewrite parse_stringify by by apply without_ids_ok, placed_rules_ok. unfold affinity_serializeRules. by rewrite js_eqb_refl.
Qed.

(** ** Where a rule is saved *)

(** The rules of a table that is not too long have different positions. *)
Definition table_ok (rules : list entry) : Prop := all_placed rules /\ (Z.of_nat (length rules) < 2 ^ 53)%Z.

Lemma placed_id i r : placed i r -> obj_get id_key r = Some (pos_id i).
Proof. by intros (fields & -> & _). Qed.

Lemma pos_id_eqb i j : (Z.of_nat i < 2 ^ 53)%Z -> (Z.of_nat j < 2 ^ 53)%Z -> id_eqb (Some (pos_id i)) (Some (pos_id j)) = (i =? j)%nat.
Proof.
  intros Hi Hj. cbn [id_eqb strict_eqb pos_id]. rewrite neqb_exact by (unfold small_abs; lia).
  destruct (Nat.eqb_spec i j); [subst; apply Z.eqb_refl|apply Z.eqb_neq; lia].
Qed.

Lemma find_index_first {A} (f : A -> bool) l i x :
  l !! i = Some x -> f x = true -> (forall j y, (j < i)%nat -> l !! j = Some y -> f y = false) -> find_index_by f l = Some i.
Proof.
  intros Hi Hx Hj. unfold find_index_by. rewrite (proj2 (list_find_Some (fun x => f x = true) l i x)); [done|].
  split; [done|]. split; [done|]. intros j y Hy Hlt. by rewrite (Hj j y).
Qed.

Lemma find_index_none {A} (f : A -> bool) l : (forall x, x ∈ l -> f x = false) -> find_index_by f l = None.
Proof.
  intros H. unfold find_index_by. rewrite (proj2 (list_find_None (fun x => f x = true) l)); [done|].
  apply Forall_forall. intros x Hx. by rewrite (H x).
Qed.

Definition name_of (r : entry) : option json := obj_get (js "name") r.

(** A rule that was opened from the table is put back in its place, unless a rule above it has its name; a new rule is
    put at the end, if every rule has a name. *)
Theorem rule_lands rules m :
  table_ok rules ->
  (forall i r, rules !! i = Some r -> mr_id m = Some (pos_id i) ->
     (forall j r', (j < i)%nat -> rules !! j = Some r' -> id_eqb (name_of r') (name_of r) = false) ->
     save_rule m (Some r) rules = <[i := made_rule i m]> rules)
  /\ (mr_id m = None -> Forall (fun r => name_of r <> None) rules -> save_rule m None rules = rules ++ [made_rule (length rules) m]).
Proof.
  intros [Hp Hl]. split.
  - intros i r Hi Hm Hn. unfold save_rule. pose proof (lookup_lt_Some _ _ _ Hi).
    rewrite (find_index_first _ rules i r); [done|done| |].
    + unfold rule_matches. rewrite (placed_id i r) by by apply Hp. rewrite Hm, pos_id_eqb by lia. by rewrite Nat.eqb_refl.
    + intros j r' Hj Hr. unfold rule_matches. rewrite (placed_id j r') by by apply Hp. rewrite Hm, pos_id_eqb by lia.
      rewrite (proj2 (Nat.eqb_neq j i)) by lia. cbn [orb mbind option_bind]. unfold name_of in Hn. rewrite (Hn j r') by done. apply andb_false_r.
  - intros Hm Hn. unfold save_rule. rewrite find_index_none; [done|]. intros r Hr. rewrite Forall_forall in Hn.
    specialize (Hn r Hr). apply list_elem_of_lookup in Hr as (i & Hi). unfold rule_matches, name_of in *.
    rewrite (placed_id i r) by by apply Hp. rewrite Hm. cbn [id_eqb orb mbind option_bind].
    destruct (obj_get (js "name") r); [apply andb_false_r|done].
Qed.

(** *** The handlers keep the rules in place *)

Definition fields_ok (fields : entry) : Prop := obj_ok fields /\ plain_keys (id_key :: fields.*1) = true.

Lemma made_placed i m : fields_ok (mr_fields m) -> placed i (made_rule i m).
Proof. intros [H1 H2]. by exists (mr_fields m). Qed.

Lemma save_placed m e rules : fields_ok (mr_fields m) -> all_placed rules -> all_placed (save_rule m e rules).
Proof.
  intros Hf Hp i r. unfold save_rule. destruct (find_index_by _ rules) as [k|].
  - destruct (decide (i = k)) as [->|Hne].
    + intros Hi. pose proof (lookup_lt_Some _ _ _ Hi) as Hlt. rewrite length_insert in Hlt.
      rewrite list_lookup_insert_eq in Hi by done. injection Hi as <-. by apply made_placed.
    + rewrite list_lookup_insert_ne by done. apply Hp.
  - intros [H|[Hl Hi]]%lookup_app_Some; [by apply Hp|]. destruct (i - length rules)%nat as [|n] eqn:E; [|by destruct n].
    replace i with (length rules) by lia. cbn in Hi. injection Hi as <-. by apply made_placed.
Qed.

Lemma number_placed rules : (forall r, r ∈ rules -> exists i, placed i r) -> all_placed (number_rules rules).
Proof.
  intros H i r. unfold number_rules. rewrite list_lookup_imap. destruct (rules !! i) as [r0|] eqn:E; [|done]. intros [= <-].
  destruct (H r0) as (j & fields & -> & Hok & Hp); [by eapply list_elem_of_lookup_2|]. by exists fields.
Qed.

Lemma delete_placed k rules : all_placed rules -> all_placed (number_rules (delete k rules)).
Proof.
  intros H. apply number_placed. intros r (i & Hi)%list_elem_of_lookup.
  destruct (decide (i < k)%nat).
  - rewrite list_lookup_delete_lt in Hi by done. exists i. by apply H.
  - rewrite list_lookup_delete_ge in Hi by lia. exists (S i). by apply H.
Qed.

(** ** Editing a rule again *)

(** A line of the lists: it is not empty, has no white space around it and no line break in it. *)
Definition clean_line (w : jstr) : Prop := trimmed w /\ w <> [] /\ 10%N ∉ w.

Lemma normal_lines text : Forall clean_line (normalizeStringList text).
Proof.
  apply Forall_forall. intros w (Hw & Ht)%elem_of_lfilter. apply list_elem_of_In, in_map_iff in Hw as (v & <- & Hv%list_elem_of_In).
  pose proof (split_char_no_sep 10 text) as Hs. rewrite Forall_forall in Hs.
  split; [apply trimmed_trim|]. split; [by apply truthy_true|]. by apply trim_no_unit, Hs.
Qed.

Lemma lines_again l : Forall clean_line l -> normalizeStringList (join newline l) = l.
Proof.
  intros H. destruct l as [|w l]; [done|]. unfold normalizeStringList. unfold newline. rewrite split_join_char; [|done|].
  2:{ eapply Forall_impl; [exact H|]. by intros v (_ & _ & ?). }
  rewrite (map_ext_in trim id).
  2:{ intros v Hv%list_elem_of_In. rewrite Forall_forall in H. by apply (H v Hv). }
  rewrite map_id. apply lfilter_id. eapply Forall_impl; [exact H|]. intros v (_ & ? & _). by apply truthy_true.
Qed.

Lemma item_texts_strings l : line_items (List.map JStr l) = Ret l.
Proof. induction l as [|w l IH]; [done|]. cbn [List.map line_items to_String json_String obind]. by rewrite IH. Qed.

Lemma lines_of_strings l : lines_of (Some (strings l)) = Ret (join newline l).
Proof. unfold lines_of, strings. cbn [json_or json_truthy]. by rewrite item_texts_strings. Qed.

Lemma json_or_again v d : json_or (Some (json_or v d)) d = json_or v d.
Proof. destruct v as [v|]; cbn [json_or]; [destruct (json_truthy v) eqn:E; [by rewrite E|]|]; by destruct (json_truthy d). Qed.

Lemma normalize_again t k p : normal_source (normalizeKeySource t k p) = normalizeKeySource t k p.
Proof.
  unfold normal_source, normalizeKeySource. destruct (strict_eqb (json_or t gjson) gjson) eqn:E; cbn [ks_type ks_key ks_path];
    by rewrite !json_or_again, E.
Qed.

Lemma normal_again s : normal_source (normal_source s) = normal_source s.
Proof. apply normalize_again. Qed.

Lemma source_again s : stored_source (source_json (normal_source s)) = normal_source s.
Proof.
  rewrite <-(normal_again s) at 2. assert (exists t k p, normal_source s = MkSource t (Some k) (Some p)) as (t & k & p & ->).
  - unfold normal_source, normalizeKeySource. destruct (strict_eqb _ gjson); eauto.
  - reflexivity.
Qed.

Lemma sources_again l : List.map stored_source (List.map source_json (valid_sources l)) = valid_sources l.
Proof.
  rewrite map_map. rewrite (map_ext_in _ id); [apply map_id|]. intros s Hs%list_elem_of_In.
  apply elem_of_lfilter in Hs as [Hs _]. apply list_elem_of_In, in_map_iff in Hs as (s0 & <- & _). apply source_again.
Qed.

Lemma valid_again l : valid_sources (valid_sources l) = valid_sources l.
Proof.
  unfold valid_sources at 1. rewrite (map_ext_in _ id).
  - rewrite map_id. apply lfilter_id, Forall_forall. by intros s [_ Hs]%elem_of_lfilter.
  - intros s Hs%list_elem_of_In. apply elem_of_lfilter in Hs as [Hs _].
    apply list_elem_of_In, in_map_iff in Hs as (s0 & <- & _). apply normal_again.
Qed.

Lemma template_again text t : read_template text = inr t -> json_ok t ->
  read_template (if json_truthy t then JSON_pretty t else []) = inr t.
Proof.
  unfold read_template at 1. destruct (trim text); [by intros [= <-]|]. destruct (JSON_parse text) as [[]|]; try done.
  intros [= <-] Hok. cbn [json_truthy]. unfold read_template. rewrite (pretty_trimmed _), parse_pretty by done.
  by destruct o.
Qed.

(** The two switches whose value comes from a stored rule are never null. *)
Definition editor_ok (ed : RuleEditor) : Prop := rf_group (re_form ed) <> JNull /\ rf_rule (re_form ed) <> JNull.

Lemma or_true_ne v : or_true v <> JNull.
Proof. by destruct v as [[]|]. Qed.

Lemma reset_keeps r ed ed' : resetFromRule r ed = Ret ed' -> editor_ok ed'.
Proof.
  unfold resetFromRule. destruct (lines_of _), (lines_of _), (lines_of _); try done. cbn [obind].
  destruct (json_or _ (JArr [])); try done. cbn [obind]. intros [= <-]. split; apply or_true_ne.
Qed.

Lemma open_keeps rule tpl ed ed' : open_rule_editor rule tpl ed = Ret ed' -> editor_ok ed'.
Proof.
  unfold open_rule_editor. destruct rule as [r|]; [apply reset_keeps|].
  destruct (tpl ≫= _) as [r|]; [apply reset_keeps|]. by intros [= <-].
Qed.

Lemma input_keeps i ed : editor_ok ed -> editor_ok (input_step i ed).
Proof.
  destruct ed as [[] srcs adv]. intros [H1 H2]. destruct i; try (split; done); cbn [input_step re_form re_sources].
  all: destruct (srcs !! _); split; done.
Qed.

(** What a made rule consists of. *)
Lemma made_fields rule ed m : rule_handleSave rule ed = Ret (RuleMade m) ->
  exists name value ttl template,
    mr_fields m = rule_fields (trim name) (normalizeStringList (rf_models (re_form ed))) (normalizeStringList (rf_paths (re_form ed)))
      (normalizeStringList (rf_agents (re_form ed))) (valid_sources (re_sources ed)) (trim value) ttl (rf_skip (re_form ed))
      (rf_group (re_form ed)) (rf_model (re_form ed)) (rf_rule (re_form ed)) template
    /\ normalizeStringList (rf_models (re_form ed)) <> [] /\ valid_sources (re_sources ed) <> []
    /\ read_template (rf_template (re_form ed)) = inr template.
Proof.
  unfold rule_handleSave. destruct (normalizeStringList (rf_models _)) as [|w ws]; [done|]. destruct (valid_sources _) as [|x xs]; [done|].
  destruct (read_template _) as [|t]; [done|]. destruct (rf_name _) as [| | |name| |]; try done.
  destruct (rf_value _) as [| | |value| |]; try done. cbn [trimmed_value obind]. destruct (to_Number _) as [ttl|]; [|done].
  intros [= <-]. exists name, value, ttl, t. done.
Qed.

(** The dialog filled from a made rule. *)
Lemma reset_made i name models paths agents sources value ttl skip group model rule t ed0 :
  sources <> [] ->
  resetFromRule ((id_key, pos_id i) :: rule_fields name models paths agents sources value ttl skip group model rule t) ed0
  = Ret (MkRuleEditor
      (MkRuleForm (json_or (Some (JStr name)) (JStr [])) (join newline models) (join newline paths) (join newline agents)
         (json_or (Some (JStr value)) (JStr [])) (json_or (Some (JNum ttl)) (JNum zero)) skip (or_true (Some group)) model
         (or_true (Some rule)) (if json_truthy (json_or (Some t) JNull) then JSON_pretty (json_or (Some t) JNull) else []))
      (List.map stored_source (List.map source_json sources)) (re_advanced ed0 || json_truthy (json_or (Some t) JNull))).
Proof.
  intros Hs. unfold resetFromRule. set (o := _ :: _).
  change (obj_get (js "model_regex") o) with (Some (strings models)). change (obj_get (js "path_regex") o) with (Some (strings paths)).
  change (obj_get (js "user_agent_include") o) with (Some (strings agents)). rewrite !lines_of_strings. cbn [obind].
  change (obj_get (js "key_sources") o) with (Some (JArr (List.map source_json sources))).
  change (obj_get (js "param_override_template") o) with (Some t). change (obj_get (js "name") o) with (Some (JStr name)).
  change (obj_get (js "value_regex") o) with (Some (JStr value)). change (obj_get (js "ttl_seconds") o) with (Some (JNum ttl)).
  change (obj_get (js "skip_retry_on_failure") o) with (Some (JBool skip)). change (obj_get (js "include_using_group") o) with (Some group).
  change (obj_get (js "include_model_name") o) with (Some (JBool model)). change (obj_get (js "include_rule_name") o) with (Some rule).
  clear o. by destruct sources.
Qed.

Lemma or_true_some v : v <> JNull -> or_true (Some v) = v.
Proof. by destruct v. Qed.

Lemma json_text_or s : json_or (Some (JStr s)) (JStr []) = JStr s.
Proof. by destruct s. Qed.

Lemma template_or_null text t : read_template text = inr t -> json_or (Some t) JNull = t.
Proof.
  unfold read_template. destruct (trim text); [by intros [= <-]|]. destruct (JSON_parse text) as [[]|]; try done. by intros [= <-].
Qed.

(** C32: a rule made by the dialog and opened in it again is made again, with its place. *)
Theorem editor_stable rule ed m i (ed0 : RuleEditor) :
  rule_handleSave rule ed = Ret (RuleMade m) -> editor_ok ed ->
  (forall t, obj_get (js "param_override_template") (mr_fields m) = Some t -> json_ok t) ->
  (forall x, obj_get (js "ttl_seconds") (mr_fields m) = Some (JNum x) -> num_truthy x = true \/ x = zero) ->
  exists ed', open_rule_editor (Some (made_rule i m)) None ed0 = Ret ed'
    /\ rule_handleSave (Some (made_rule i m)) ed' = Ret (RuleMade (MkMade (Some (pos_id i)) (mr_fields m))).
Proof.
  intros (name & value & ttl & t & Hf & Hm & Hs & Ht)%made_fields [Hg Hr] Hok Hx. rewrite Hf in *.
  specialize (Hok t eq_refl). specialize (Hx ttl eq_refl). cbn [open_rule_editor]. unfold made_rule. rewrite Hf, reset_made by done.
  eexists. split; [reflexivity|]. unfold rule_handleSave. cbn [re_form re_sources rf_models rf_paths rf_agents rf_name rf_value rf_ttl
    rf_skip rf_group rf_model rf_rule rf_template].
  rewrite sources_again, valid_again, !lines_again by apply normal_lines. rewrite (template_or_null _ _ Ht), (template_again _ _ Ht Hok).
  destruct (normalizeStringList (rf_models _)) eqn:E1; [done|]. destruct (valid_sources _) eqn:E2; [done|].
  rewrite !json_text_or, !or_true_some by done. cbn [trimmed_value obind]. rewrite !trim_idem.
  assert (json_or (Some (JNum ttl)) (JNum zero) = JNum ttl) as Hn; [|rewrite !Hn; reflexivity].
  cbn [json_or json_truthy]. destruct Hx as [->| ->]; reflexivity.
Qed.

(** ** On concrete rules *)

Definition sample_values : AffinityValues := MkValues true false (num_of_Z 1000) (num_of_Z 3600).
Definition affinity_after (evs : list affinity_event) : AffinitySection :=
  match run_affinity (open_affinity sample_values []) evs with Ret s => s | Throw => open_affinity sample_values [] end.
Definition affinity_sample : AffinitySection := affinity_after [FillTemplates zero].
Definition made_again (ed : RuleEditor) (rule : option entry) : MadeRule :=
  match rule_handleSave rule ed with Ret (RuleMade m) => m | _ => MkMade None [] end.
Definition codex_editor : RuleEditor :=
  match open_rule_editor None (Some (js "codexCli")) (af_editor (affinity_after [])) with Ret ed => ed | Throw => af_editor (affinity_after []) end.

Example two_templates : List.map name_of (af_rules affinity_sample) = [Some (JStr (js "codex cli trace")); Some (JStr (js "claude cli trace"))].
Proof. vm_compute. reflexivity. Qed.

Example four_templates :
  List.map name_of (af_rules (affinity_after [FillTemplates zero; FillTemplates zero; ConfirmFill zero]))
  = [Some (JStr (js "codex cli trace")); Some (JStr (js "claude cli trace"));
     Some (JStr (js "codex cli trace-2")); Some (JStr (js "claude cli trace-2"))].
Proof. vm_compute. reflexivity. Qed.

(** The second of two rules with one name is opened and saved: it replaces the first. *)
Example same_name_overwrites :
  let named n v := [(js "name", JStr n); (js "value_regex", JStr v)] in
  let rules := [(id_key, pos_id 0) :: named (js "a") (js "one"); (id_key, pos_id 1) :: named (js "a") (js "two")] in
  save_rule (MkMade (Some (pos_id 1)) (named (js "a") (js "new"))) (Some ((id_key, pos_id 1) :: named (js "a") (js "two"))) rules
  = [(id_key, pos_id 0) :: named (js "a") (js "new"); (id_key, pos_id 1) :: named (js "a") (js "two")].
Proof. vm_compute. reflexivity. Qed.

(** A new rule replaces a stored one that has no name. *)
Example nameless_overwritten :
  let s := page_rendered sample_values (js "[{}]") (affinity_after []) in
  length (save_rule (made_again codex_editor None) None (af_rules s)) = 1%nat.
Proof. vm_compute. reflexivity. Qed.

(** Templates that were appended while the text is shown are not saved. *)
Example templates_not_saved :
  let s := affinity_after [JsonMode; FillTemplates zero; Save] in
  length (af_rules s) = 2%nat /\ af_sent s = [] /\ af_notices s = [AfDone (js "Templates appended"); AfInfo (js "No changes")].
Proof. vm_compute. auto. Qed.

(** A rendering of the page with the same options takes back what was changed. *)
Example rendering_drops :
  let s := affinity_after [Enable false; FillTemplates zero; PageRendered sample_values []] in
  v_enabled (af_values s) = true /\ af_rules s = [].
Proof. vm_compute. auto. Qed.

Example rule_added :
  let s := affinity_after [AddRule (Some (js "codexCli")); RuleInput (TypeName (js "mine")); RuleSubmit; Save] in
  List.map name_of (af_rules s) = [Some (JStr (js "mine"))] /\ List.map fst (af_sent s) = [js "channel_affinity_setting.rules"].
Proof. vm_compute. auto. Qed.

Lemma codex_template_ok : json_ok (affinity_buildPassHeaders affinity_CODEX_HEADERS).
Proof.
  apply json_ok_obj. split; [reflexivity|]. apply Forall_singleton. split; [by apply utf16b_spec|]. apply json_ok_arr, Forall_singleton, json_ok_obj.
  split; [reflexivity|]. repeat (apply Forall_cons; split; [split; [by apply utf16b_spec|]|]); [by apply utf16b_spec| |done|by constructor].
  apply json_ok_arr. repeat (apply Forall_cons; split; [by apply utf16b_spec|]). constructor.
Qed.

Lemma arr1_ok v : json_ok v -> json_ok (JArr [v]).
Proof. by intros H. Qed.

Lemma codex_placed i : placed i ((id_key, pos_id i) :: codexCli).
Proof.
  eexists. split; [reflexivity|]. split; [|reflexivity]. split; [by apply plain_ordered|].
  repeat (apply Forall_cons; split; [split; [by apply utf16b_spec|]|]);
    [by apply utf16b_spec|by apply arr1_ok, utf16b_spec|by apply arr1_ok, utf16b_spec| |exact codex_template_ok|by apply utf16b_spec|
     exact num_ok_zero|done..|constructor].
  apply arr1_ok, json_ok_obj. split; [reflexivity|]. repeat (apply Forall_cons; split; [split; by apply utf16b_spec|]). constructor.
Qed.

Definition one_rule : AffinitySection := set_rules [(id_key, pos_id 0) :: codexCli] (affinity_after []).

Lemma one_rule_placed : all_placed (af_rules one_rule).
Proof. intros [|i] r; [|by destruct i]. intros [= <-]. apply codex_placed. Qed.

Lemma affinity_settles_witness :
  let s' := page_rendered (af_values one_rule) (affinity_serializeRules (af_rules one_rule)) one_rule in
  af_rules s' = af_rules one_rule /\ af_values s' = af_values one_rule /\ affinity_handleSave s' = af_say [AfInfo (js "No changes")] s'.
Proof. apply (affinity_settles one_rule); [exact one_rule_placed|reflexivity|reflexivity|reflexivity]. Defined.

Lemma rule_lands_witness :
  save_rule (MkMade (Some (pos_id 0)) claudeCli) (Some ((id_key, pos_id 0) :: codexCli)) (af_rules one_rule)
  = [(id_key, pos_id 0) :: claudeCli]
  /\ save_rule (MkMade None claudeCli) None (af_rules one_rule) = af_rules one_rule ++ [(id_key, pos_id 1) :: claudeCli].
Proof.
  assert (table_ok (af_rules one_rule)) as H by (split; [exact one_rule_placed|vm_compute; reflexivity]). split.
  - refine (proj1 (rule_lands (af_rules one_rule) (MkMade (Some (pos_id 0)) claudeCli) H) 0%nat ((id_key, pos_id 0) :: codexCli) eq_refl eq_refl _).
    intros j r' Hj. lia.
  - refine (proj2 (rule_lands (af_rules one_rule) (MkMade None claudeCli) H) eq_refl _). repeat constructor; discriminate.
Defined.

Lemma editor_stable_witness :
  let m := made_again codex_editor None in
  exists ed', open_rule_editor (Some (made_rule 0 m)) None codex_editor = Ret ed'
    /\ rule_handleSave (Some (made_rule 0 m)) ed' = Ret (RuleMade (MkMade (Some (pos_id 0)) (mr_fields m))).
Proof.
  apply (editor_stable None codex_editor (made_again codex_editor None) 0 codex_editor).
  - vm_compute. reflexivity.
  - split; vm_compute; discriminate.
  - intros t H. assert (t = affinity_buildPassHeaders affinity_CODEX_HEADERS) as ->; [|exact codex_template_ok].
    enough (Some t = Some (affinity_buildPassHeaders affinity_CODEX_HEADERS)) as E by (injection E as ->; reflexivity).
    rewrite <-H. vm_compute. reflexivity.
  - intros x H. right. enough (Some (JNum x) = Some (JNum zero)) as E by (injection E as ->; reflexivity).
    rewrite <-H. vm_compute. reflexivity.
Defined.
