(* ===== verification/ChannelTest.v ===== *)
(** * Testing the models of a channel

    [features/channels/components/dialogs/channel-test-dialog.tsx]: the models of a channel are tested one by one or
    several at once, through [handleTestChannel] of [ChannelActions].  A test is under way until its answer arrives: the
    tests under way are part of the state, with the batch they belong to, so answers can come in any order
    and after the dialog was closed or opened for another channel.

    The table gives a row its index as identifier and keeps a selection of identifiers.  [toLowerCase] is an argument; the
    columns are modelled as far as they say which button is there. *)
From S2P Require Import Prelude Numbers Json ModelMapping ChannelActions.
Local Open Scope js_scope.

(** ** Data *)

Inductive TestStatus := Idle | Testing | Success | Error.
Record TestResult : Type := MkResult { tr_status : TestStatus; tr_time : option json; tr_error : option json; tr_code : option json }.

Definition endpointTypeOptions : list (jstr * jstr) :=
  [(js "auto", js "Auto detect (default)"); (js "openai", js "OpenAI (/v1/chat/completions)");
   (js "openai-response", js "OpenAI Responses (/v1/responses)");
   (js "openai-response-compact", js "OpenAI Response Compaction (/v1/responses/compact)");
   (js "anthropic", js "Anthropic (/v1/messages)"); (js "gemini", js "Gemini (/v1beta/models/{model}:generateContent)");
   (js "jina-rerank", js "Jina Rerank (/v1/rerank)"); (js "image-generation", js "Image Generation (/v1/images/generations)");
   (js "embeddings", js "Embeddings (/v1/embeddings)")].
Definition STREAM_INCOMPATIBLE_ENDPOINTS : list jstr :=
  [js "embeddings"; js "image-generation"; js "jina-rerank"; js "openai-response-compact"].

(** The channel of the dialog. *)
Record TestRow : Type := MkTestRow { row_id : Z; row_models : jstr; row_test_model : option jstr }.
(** A test under way: its model, and its batch if it has one. *)
Record test_task : Type := MkTask { tk_model : jstr; tk_batch : option nat }.

Record TestDialog : Type := MkTestDialog {
  td_open : bool; td_row : option TestRow; td_endpoint : jstr; td_stream : bool; td_search : jstr;
  td_results : list (jstr * TestResult); td_selection : list nat; td_testing : list jstr; td_isBatch : bool; td_page : nat; td_size : nat;
  td_tasks : list test_task; td_batches : nat; td_sent : list channel_request; td_shown : list action_effect
}.

(** ** The table *)

Definition test_models (row : option TestRow) : list jstr :=
  match row with Some r => if truthy (row_models r) then comma_list (row_models r) else [] | None => [] end.
Definition defaultTestModel (row : option TestRow) : option jstr := row ≫= (fun r => trim <$> row_test_model r).
Definition is_default_model (row : option TestRow) (model : jstr) : bool :=
  match defaultTestModel row with Some m => m === model | None => false end.

Section dialog.
Context (toLowerCase : jstr -> jstr).

Definition test_filteredModels (s : TestDialog) : list jstr :=
  let models := test_models (td_row s) in
  if truthy (td_search s)
  then List.filter (fun model => includes (toLowerCase (td_search s)) (toLowerCase model)) models
  else models.

(** The rows of the page that is shown, by index. *)
Definition test_page_rows (s : TestDialog) : list nat := take (td_size s) (drop (td_page s * td_size s) (seq 0 (length (test_filteredModels s)))).
(** [getFilteredSelectedRowModel]: the rows whose index is selected. *)
Definition selectedModels (s : TestDialog) : list jstr :=
  omap (fun i => test_filteredModels s !! i) (List.filter (fun i => mem i (td_selection s)) (seq 0 (length (test_filteredModels s)))).

(** ** State *)

Definition set_options (endpoint : jstr) (stream : bool) (s : TestDialog) : TestDialog :=
  MkTestDialog (td_open s) (td_row s) endpoint stream (td_search s) (td_results s) (td_selection s) (td_testing s) (td_isBatch s) (td_page s)
    (td_size s) (td_tasks s) (td_batches s) (td_sent s) (td_shown s).
Definition set_table (search : jstr) (page size : nat) (selection : list nat) (s : TestDialog) : TestDialog :=
  MkTestDialog (td_open s) (td_row s) (td_endpoint s) (td_stream s) search (td_results s) selection (td_testing s) (td_isBatch s) page size
    (td_tasks s) (td_batches s) (td_sent s) (td_shown s).
Definition updateTestResult (key : jstr) (r : TestResult) (s : TestDialog) : TestDialog :=
  MkTestDialog (td_open s) (td_row s) (td_endpoint s) (td_stream s) (td_search s) (obj_set key r (td_results s)) (td_selection s)
    (td_testing s) (td_isBatch s) (td_page s) (td_size s) (td_tasks s) (td_batches s) (td_sent s) (td_shown s).
Definition markModelTesting (key : jstr) (isTesting : bool) (s : TestDialog) : TestDialog :=
  MkTestDialog (td_open s) (td_row s) (td_endpoint s) (td_stream s) (td_search s) (td_results s) (td_selection s)
    (if isTesting then if mem key (td_testing s) then td_testing s else td_testing s ++ [key]
     else List.filter (fun k => k !== key) (td_testing s))
    (td_isBatch s) (td_page s) (td_size s) (td_tasks s) (td_batches s) (td_sent s) (td_shown s).
Definition set_batch (b : bool) (n : nat) (s : TestDialog) : TestDialog :=
  MkTestDialog (td_open s) (td_row s) (td_endpoint s) (td_stream s) (td_search s) (td_results s) (td_selection s) (td_testing s) b (td_page s)
    (td_size s) (td_tasks s) n (td_sent s) (td_shown s).
Definition set_tasks (tasks : list test_task) (sent : list channel_request) (shown : list action_effect) (s : TestDialog) : TestDialog :=
  MkTestDialog (td_open s) (td_row s) (td_endpoint s) (td_stream s) (td_search s) (td_results s) (td_selection s) (td_testing s) (td_isBatch s)
    (td_page s) (td_size s) tasks (td_batches s) (td_sent s ++ sent) (td_shown s ++ shown).

Definition resetState (s : TestDialog) : TestDialog :=
  MkTestDialog (td_open s) (td_row s) (js "auto") false [] [] [] [] false 0 10 (td_tasks s) (td_batches s) (td_sent s) (td_shown s).

(** ** Tests *)

Definition streamDisabled (endpoint : jstr) : bool := mem endpoint STREAM_INCOMPATIBLE_ENDPOINTS.
Definition test_action (row : TestRow) (model : jstr) (s : TestDialog) : channel_action :=
  handleTestChannel (row_id row)
    (Some (MkTestOptions (Some model) (if td_endpoint s === js "auto" then None else Some (td_endpoint s)) (td_stream s))).

(** [testSingleModel] up to its request. *)
Definition testSingleModel (batch : option nat) (model : jstr) (s : TestDialog) : TestDialog :=
  match td_row s with
  | None => s
  | Some row =>
      set_tasks (td_tasks s ++ [MkTask model batch]) (ac_requests (test_action row model s)) []
        (updateTestResult model (MkResult Testing None None None) (markModelTesting model true s))
  end.

Definition callback_result (args : list (option json)) : TestResult :=
  match args with
  | success :: rest =>
      let arg n := mjoin (rest !! n) in
      MkResult (match success with Some (JBool true) => Success | _ => Error end) (arg 0) (arg 1) (arg 2)
  | [] => MkResult Error None None None
  end.
Definition test_shown (model : jstr) (e : action_effect) (s : TestDialog) : TestDialog :=
  match e with Callback args => updateTestResult model (callback_result args) s | _ => set_tasks (td_tasks s) [] [e] s end.

(** What is left of a batch. *)
Definition in_batch (b : nat) (tasks : list test_task) : bool := existsb (fun t => bool_decide (tk_batch t = Some b)) tasks.
Definition batch_done (t : test_task) (s : TestDialog) : TestDialog :=
  match tk_batch t with
  | Some b => if in_batch b (td_tasks s) then s else set_table (td_search s) (td_page s) (td_size s) [] (set_batch false (td_batches s) s)
  | None => s
  end.
(** The rest of [testSingleModel], and of [handleBatchTest] with the last answer of the batch. *)
Definition test_answered (i : nat) (a : api_answer) (s : TestDialog) : TestDialog :=
  match td_tasks s !! i with
  | None => s
  | Some t =>
      let s := foldl (fun s e => test_shown (tk_model t) e s) s (ac_done (handleTestChannel 0 None) [a]) in
      batch_done t (markModelTesting (tk_model t) false (set_tasks (delete i (td_tasks s)) [] [] s))
  end.

Definition isAnyTesting (s : TestDialog) : bool := match td_testing s with [] => td_isBatch s | _ => true end.
Definition handleBatchTest (models : list jstr) (s : TestDialog) : TestDialog :=
  match models, td_row s with
  | [], _ => s
  | _, None => s
  | _, Some _ => foldl (fun s m => testSingleModel (Some (td_batches s - 1)) m s) (set_batch true (S (td_batches s)) s) models
  end.

(** ** Events *)

Inductive test_event : Type :=
| OpenTest (row : TestRow) | CloseTest | ChooseEndpoint (endpoint : jstr) | ToggleStream (b : bool) | SearchModels (s : jstr)
| SelectRow (i : nat) (b : bool) | SelectPage (b : bool) | TurnPage (page size : nat)
| TestRowModel (i : nat) | TestSelected | TestAnswered (i : nat) (a : api_answer).

Definition select_row (b : bool) (selection : list nat) (i : nat) : list nat :=
  if b then if mem i selection then selection else selection ++ [i] else List.filter (fun j => negb (Nat.eqb j i)) selection.

Definition test_step (ev : test_event) (s : TestDialog) : TestDialog :=
  match ev with
  | OpenTest row =>
      resetState (MkTestDialog true (Some row) (td_endpoint s) (td_stream s) (td_search s) (td_results s) (td_selection s) (td_testing s)
        (td_isBatch s) (td_page s) (td_size s) (td_tasks s) (td_batches s) (td_sent s) (td_shown s))
  | CloseTest =>
      let s := resetState s in
      MkTestDialog false (td_row s) (td_endpoint s) (td_stream s) (td_search s) (td_results s) (td_selection s) (td_testing s)
        (td_isBatch s) (td_page s) (td_size s) (td_tasks s) (td_batches s) (td_sent s) (td_shown s)
  | ChooseEndpoint e => if mem e (endpointTypeOptions.*1) then set_options e (td_stream s && negb (streamDisabled e)) s else s
  | ToggleStream b => if streamDisabled (td_endpoint s) then s else set_options (td_endpoint s) b s
  | SearchModels t => set_table t 0 (td_size s) (td_selection s) s
  | SelectRow i b => set_table (td_search s) (td_page s) (td_size s) (select_row b (td_selection s) i) s
  | SelectPage b => set_table (td_search s) (td_page s) (td_size s) (foldl (select_row b) (td_selection s) (test_page_rows s)) s
  | TurnPage page size => set_table (td_search s) page size (td_selection s) s
  | TestRowModel i =>
      match test_filteredModels s !! i with
      | Some model => if mem model (td_testing s) || td_isBatch s then s else testSingleModel None model s
      | None => s
      end
  | TestSelected => if isAnyTesting s then s else handleBatchTest (selectedModels s) s
  | TestAnswered i a => test_answered i a s
  end.
Definition run_tests (s : TestDialog) (evs : list test_event) : TestDialog := foldl (fun s ev => test_step ev s) s evs.
Definition new_test_dialog : TestDialog := MkTestDialog false None (js "auto") false [] [] [] [] false 0 10 [] 0 [] [].
End dialog.

(** ** Requests that a stream cannot answer *)

Section stream.
Context (toLowerCase : jstr -> jstr).

Definition incompatible (r : channel_request) : Prop :=
  exists id fields e, r = TestChannel id (Some fields) /\ obj_get (js "endpoint_type") fields = Some (JStr e)
    /\ e ∈ STREAM_INCOMPATIBLE_ENDPOINTS /\ obj_get (js "stream") fields <> None.
Definition stream_ok (s : TestDialog) : Prop :=
  (streamDisabled (td_endpoint s) = true -> td_stream s = false) /\ Forall (fun r => ~ incompatible r) (td_sent s).

Lemma payload_fields model ep st fields :
  test_payload (Some (MkTestOptions (Some model) ep st)) = Some fields ->
  obj_get (js "stream") fields = (if st then Some (JBool true) else None)
  /\ obj_get (js "endpoint_type") fields = (e ← ep; if truthy e then Some (JStr e) else None).
Proof.
  unfold test_payload. cbn [to_testModel to_endpointType to_stream].
  destruct model as [|c model], ep as [[|d e]|], st; cbn [test_field truthy app]; intros [= <-]; split; reflexivity.
Qed.

Lemma test_request_ok row model s : (streamDisabled (td_endpoint s) = true -> td_stream s = false) ->
  Forall (fun r => ~ incompatible r) (ac_requests (test_action row model s)).
Proof.
  intros H. apply Forall_singleton. intros (id & fields & e & E & He & Hin & Hs). cbn [test_action handleTestChannel asking ac_requests] in E.
  injection E as _ E. apply payload_fields in E as [E1 E2]. rewrite E1 in Hs. rewrite E2 in He.
  destruct (td_stream s); [|done]. destruct (td_endpoint s === _); cbn [mbind option_bind] in He; [discriminate He|]. destruct (truthy (td_endpoint s)); [|done].
  injection He as <-. unfold streamDisabled in H. rewrite (proj2 (mem_true _ _) Hin) in H. by specialize (H eq_refl).
Qed.

Lemma single_stream b m s : stream_ok s -> stream_ok (testSingleModel b m s).
Proof.
  intros [H1 H2]. unfold testSingleModel. destruct (td_row s) as [row|]; [|done]. split; [done|]. cbn [td_sent set_tasks updateTestResult markModelTesting].
  apply Forall_app. split; [done|by apply test_request_ok].
Qed.

Lemma batch_stream ms s : stream_ok s -> stream_ok (foldl (fun s m => testSingleModel (Some (td_batches s - 1)) m s) s ms).
Proof. revert s. induction ms as [|m ms IH]; intros s H; [done|]. cbn [foldl]. by apply IH, single_stream. Qed.

Lemma shown_stream m l s : stream_ok s -> stream_ok (foldl (fun s e => test_shown m e s) s l).
Proof.
  revert s. induction l as [|e l IH]; intros s H; [done|]. cbn [foldl]. apply IH. destruct H as [H1 H2].
  destruct e; split; try done; cbn [td_sent set_tasks test_shown]; by rewrite app_nil_r.
Qed.

Lemma step_stream ev s : stream_ok s -> stream_ok (test_step toLowerCase ev s).
Proof.
  intros H. pose proof H as [H1 H2]. destruct ev as [row| |e|b|t|i b|b|p n|i| |i a]; cbn [test_step]; try by split.
  - destruct (mem e _); [|done]. split; [|done]. cbn [td_endpoint td_stream set_options]. intros ->. apply andb_false_r.
  - destruct (streamDisabled (td_endpoint s)) eqn:E; [done|]. split; [|done]. cbn [td_endpoint td_stream set_options]. congruence.
  - destruct (test_filteredModels _ s !! i); [|done]. destruct (_ || _); [done|by apply single_stream].
  - destruct (isAnyTesting s); [done|]. unfold handleBatchTest. destruct (selectedModels _ s); [done|]. destruct (td_row s); [|done].
    apply batch_stream. by split.
  - unfold test_answered. destruct (td_tasks s !! i) as [t|]; [|done].
    set (s1 := foldl _ s _). assert (stream_ok s1) as [H3 H4] by by apply shown_stream.
    unfold batch_done. destruct (tk_batch t); [destruct (in_batch _ _)|]; (split; [done|]); cbn [td_sent set_table set_batch markModelTesting set_tasks];
      by rewrite app_nil_r.
Qed.

(** No test that was ever sent asks for a stream from an endpoint that has none. *)
Lemma no_bad_stream evs : Forall (fun r => ~ incompatible r) (td_sent (run_tests toLowerCase new_test_dialog evs)).
Proof.
  assert (forall s, stream_ok s -> stream_ok (run_tests toLowerCase s evs)) as H.
  { induction evs as [|ev evs IH]; intros s Hs; [done|]. cbn. by apply IH, step_stream. }
  apply H. by split; [|constructor].
Qed.
End stream.

(** ** Tests end *)

Section settle.
Context (toLowerCase : jstr -> jstr).

(** What is marked as being tested is being tested. *)
Definition marks_ok (s : TestDialog) : Prop :=
  (forall m, m ∈ td_testing s -> m ∈ List.map tk_model (td_tasks s)) /\ (td_isBatch s = true -> exists b, in_batch b (td_tasks s) = true).

Lemma in_batch_true b tasks : in_batch b tasks = true <-> exists t, t ∈ tasks /\ tk_batch t = Some b.
Proof.
  unfold in_batch. rewrite existsb_exists. split; intros (t & H1 & H2); exists t.
  - split; [by apply list_elem_of_In|by apply bool_decide_eq_true in H2].
  - split; [by apply list_elem_of_In|by apply bool_decide_eq_true].
Qed.

Lemma in_batch_app b t1 t2 : in_batch b t1 = true -> in_batch b (t1 ++ t2) = true.
Proof. unfold in_batch. rewrite existsb_app. by intros ->. Qed.

Lemma single_marks b m s : marks_ok s -> marks_ok (testSingleModel b m s).
Proof.
  intros [H1 H2]. unfold testSingleModel. destruct (td_row s); [|done]. split; cbn [td_testing td_isBatch td_tasks set_tasks updateTestResult markModelTesting].
  - intros m' Hm'. rewrite map_app, elem_of_app. destruct (mem m (td_testing s)); [left; by apply H1|].
    apply elem_of_app in Hm' as [Hm'|Hm']; [left; by apply H1|right]. exact Hm'.
  - intros Hb. destruct (H2 Hb) as (b' & ?). exists b'. by apply in_batch_app.
Qed.

Lemma singles_marks ms s : marks_ok s -> marks_ok (foldl (fun s m => testSingleModel (Some (td_batches s - 1)) m s) s ms).
Proof. revert s. induction ms as [|m ms IH]; intros s H; [done|]. cbn [foldl]. by apply IH, single_marks. Qed.

(** What the effects of an answer leave alone. *)
Lemma effects_leave m l s :
  let s' := foldl (fun s e => test_shown m e s) s l in
  td_testing s' = td_testing s /\ td_tasks s' = td_tasks s /\ td_isBatch s' = td_isBatch s /\ td_row s' = td_row s.
Proof.
  revert s. induction l as [|e l IH]; intros s; [done|]. cbn [foldl]. specialize (IH (test_shown m e s)). cbn zeta in *.
  destruct IH as (-> & -> & -> & ->). by destruct e.
Qed.

Lemma delete_other {A} (l : list A) i x y : l !! i = Some x -> y ∈ l -> y <> x -> y ∈ delete i l.
Proof.
  intros Hi Hy Hne. rewrite (delete_take_drop l i), elem_of_app. rewrite <-(take_drop_middle l i x Hi), elem_of_app, elem_of_cons in Hy.
  destruct Hy as [Hy|[Hy|Hy]]; [by left|done|by right].
Qed.

Lemma answered_marks i a s : marks_ok s -> marks_ok (test_answered i a s).
Proof.
  intros [H1 H2]. unfold test_answered. destruct (td_tasks s !! i) as [t|] eqn:Hi; [|done]. set (s1 := foldl _ s _).
  destruct (effects_leave (tk_model t) (ac_done (handleTestChannel 0 None) [a]) s) as (E1 & E2 & E3 & _). fold s1 in E1, E2, E3.
  assert (forall s', td_testing s' = List.filter (fun k => k !== tk_model t) (td_testing s) -> td_tasks s' = delete i (td_tasks s) ->
    (td_isBatch s' = true -> exists b, in_batch b (delete i (td_tasks s)) = true) -> marks_ok s') as Hgoal.
  { intros s' Ht Hk Hb. split; [|by rewrite Hk]. rewrite Ht, Hk. intros m (Hm & Hne)%elem_of_lfilter.
    apply negb_true_iff, js_eqb_false in Hne. specialize (H1 m Hm). apply list_elem_of_In, in_map_iff in H1 as (t' & <- & Ht').
    apply list_elem_of_In, in_map_iff. exists t'. split; [done|]. apply list_elem_of_In. apply (delete_other _ i t); [done|by apply list_elem_of_In|congruence]. }
  unfold batch_done. destruct (tk_batch t) as [b|] eqn:Hb.
  - cbn [td_tasks markModelTesting set_tasks]. rewrite E2. destruct (in_batch b (delete i (td_tasks s))) eqn:Hin.
    + apply Hgoal; cbn [td_testing td_tasks markModelTesting set_tasks]; rewrite ?E1, ?E2; [done..|]. intros _. by exists b.
    + apply Hgoal; cbn [td_testing td_tasks td_isBatch set_table set_batch markModelTesting set_tasks]; rewrite ?E1, ?E2; done.
  - apply Hgoal; cbn [td_testing td_tasks td_isBatch markModelTesting set_tasks]; rewrite ?E1, ?E2, ?E3; [done..|].
    intros Hf. destruct (H2 Hf) as (b & (t' & Ht' & Hb')%in_batch_true). exists b. apply in_batch_true. exists t'. split; [|done].
    apply (delete_other _ i t); [done|done|]. intros ->. congruence.
Qed.

Lemma first_marks n m s : td_row s <> None -> marks_ok s -> marks_ok (testSingleModel (Some (n - 1)) m (set_batch true n s)).
Proof.
  intros Hr [H1 _]. unfold testSingleModel. cbn [td_row set_batch]. destruct (td_row s) as [row|]; [|done].
  split; cbn [td_testing td_isBatch td_tasks set_tasks updateTestResult markModelTesting set_batch].
  - intros m' Hm'. rewrite map_app, elem_of_app. destruct (mem m (td_testing s)); [left; by apply H1|].
    apply elem_of_app in Hm' as [Hm'|Hm']; [left; by apply H1|right]. exact Hm'.
  - intros _. exists (n - 1)%nat. apply in_batch_true. eexists. split; [apply elem_of_app; right; apply list_elem_of_here|done].
Qed.

Lemma step_marks ev s : marks_ok s -> marks_ok (test_step toLowerCase ev s).
Proof.
  intros H. destruct ev as [row| |e|b|t|i b|b|p n|i| |i a]; cbn [test_step]; try done; try by (split; [intros m Hm%not_elem_of_nil|]).
  - by destruct (mem e _).
  - by destruct (streamDisabled _).
  - destruct (test_filteredModels _ s !! i); [|done]. destruct (_ || _); [done|by apply single_marks].
  - destruct (isAnyTesting s); [done|]. unfold handleBatchTest. destruct (selectedModels _ s) as [|m ms]; [done|].
    destruct (td_row s) eqn:Hr; [|done]. cbn [foldl]. apply singles_marks. apply (first_marks (S (td_batches s))); [congruence|done].
  - by apply answered_marks.
Qed.

Lemma run_marks evs s : marks_ok s -> marks_ok (run_tests toLowerCase s evs).
Proof. revert s. induction evs as [|ev evs IH]; intros s H; [done|]. cbn. by apply IH, step_marks. Qed.

(** The test of a model has ended, well or badly. *)
Definition tested (m : jstr) (s : TestDialog) : Prop :=
  exists r, obj_get m (td_results s) = Some r /\ (tr_status r = Success \/ tr_status r = Error).

Lemma callback_ended args : tr_status (callback_result args) = Success \/ tr_status (callback_result args) = Error.
Proof. destruct args as [|[[| [] | | | |]|] rest]; cbn; auto. Qed.

Lemma shown_tested m' m l s : tested m' s -> tested m' (foldl (fun s e => test_shown m e s) s l).
Proof.
  revert s. induction l as [|e l IH]; intros s H; [done|]. cbn [foldl]. apply IH. destruct e as [| | |args]; try exact H.
  unfold tested. cbn [test_shown updateTestResult td_results]. destruct (decide (m' = m)) as [->|Hne].
  - rewrite obj_get_set_eq. eexists. split; [done|apply callback_ended].
  - by rewrite obj_get_set_ne.
Qed.

(** Every answer comes with one result. *)
Lemma answer_shown a : exists e args, ac_done (handleTestChannel 0 None) [a] = [e; Callback args].
Proof. cbn. destruct a as [r|msg srv]; [destruct (rs_success r)|]; eauto. Qed.

Lemma answer_tested m a s : tested m (foldl (fun s e => test_shown m e s) s (ac_done (handleTestChannel 0 None) [a])).
Proof.
  destruct (answer_shown a) as (e & args & ->). cbn [foldl]. unfold tested. cbn [test_shown updateTestResult td_results].
  rewrite obj_get_set_eq. eexists. split; [done|apply callback_ended].
Qed.

Lemma answered_results i a s t : td_tasks s !! i = Some t ->
  td_results (test_answered i a s)
  = td_results (foldl (fun s e => test_shown (tk_model t) e s) s (ac_done (handleTestChannel 0 None) [a]))
  /\ td_tasks (test_answered i a s) = delete i (td_tasks s).
Proof.
  intros Hi. unfold test_answered. rewrite Hi. set (s1 := foldl _ s _).
  destruct (effects_leave (tk_model t) (ac_done (handleTestChannel 0 None) [a]) s) as (_ & E & _). fold s1 in E.
  unfold batch_done. destruct (tk_batch t); [destruct (in_batch _ _)|]; cbn [td_results td_tasks set_table set_batch markModelTesting set_tasks];
    by rewrite E.
Qed.

Lemma answers_settle answers s : length answers = length (td_tasks s) ->
  let s' := run_tests toLowerCase s (List.map (TestAnswered 0) answers) in
  td_tasks s' = [] /\ (forall m, tested m s -> tested m s') /\ (forall t, t ∈ td_tasks s -> tested (tk_model t) s').
Proof.
  revert s. induction answers as [|a answers IH]; intros s Hl; cbn [List.map run_tests foldl].
  - destruct (td_tasks s); [|done]. split; [done|]. split; [done|]. intros t Ht%not_elem_of_nil. done.
  - destruct (td_tasks s) as [|t tasks] eqn:Ht; [done|]. injection Hl as Hl.
    assert (td_tasks s !! 0%nat = Some t) as Hi by by rewrite Ht.
    destruct (answered_results 0 a s t Hi) as [E1 E2]. rewrite Ht in E2. cbn in E2.
    change (test_step toLowerCase (TestAnswered 0 a) s) with (test_answered 0 a s).
    destruct (IH (test_answered 0 a s)) as (H1 & H2 & H3); [by rewrite E2|]. fold (run_tests toLowerCase) in *.
    split; [exact H1|]. split.
    + intros m Hm. apply H2. unfold tested. rewrite E1. by apply shown_tested.
    + intros t' [->|Ht']%elem_of_cons; [|apply H3; by rewrite E2]. apply H2. unfold tested. rewrite E1. apply answer_tested.
Qed.

(** C33: whatever happened in the dialog, once the tests under way are answered nothing is shown as being tested, and each
    of them has ended well or badly. *)
Theorem tests_settle evs answers :
  let s := run_tests toLowerCase new_test_dialog evs in
  length answers = length (td_tasks s) ->
  let s' := run_tests toLowerCase s (List.map (TestAnswered 0) answers) in
  td_tasks s' = [] /\ isAnyTesting s' = false /\ (forall t, t ∈ td_tasks s -> tested (tk_model t) s').
Proof.
  intros s Hl s'. destruct (answers_settle answers s Hl) as (H1 & _ & H3). fold s' in H1, H3. split; [done|]. split; [|done].
  assert (marks_ok s') as [H4 H5].
  { apply run_marks, run_marks. split; [intros m Hm%not_elem_of_nil; done|done]. }
  unfold isAnyTesting. destruct (td_testing s') as [|m l] eqn:E.
  - destruct (td_isBatch s'); [|done]. destruct (H5 eq_refl) as (b & Hb). by rewrite H1 in Hb.
  - specialize (H4 m). rewrite H1 in H4. exfalso. by eapply not_elem_of_nil, H4, list_elem_of_here.
Qed.
End settle.

(** ** On a concrete channel *)

Definition lower_id (s : jstr) : jstr := lower s.
Definition sample_row : TestRow := MkTestRow 7 (js "a,b,ab") None.
Definition good : api_answer := Answer (MkResponse true None (Some (JObj [(js "response_time", JNum (num_of_Z 5))])) None None).

(** Row 1 is chosen and the list is filtered: another model is tested. *)
Example selection_moves :
  let s := run_tests lower_id new_test_dialog [OpenTest sample_row; SelectRow 0 true; SearchModels (js "b")] in
  selectedModels lower_id s = [js "b"]
  /\ selectedModels lower_id (run_tests lower_id new_test_dialog [OpenTest sample_row; SelectRow 0 true]) = [js "a"].
Proof. vm_compute. auto. Qed.

(** The answer for a channel whose dialog was closed is shown for the channel that was opened next. *)
Example late_result :
  let s := run_tests lower_id new_test_dialog
    [OpenTest sample_row; TestRowModel 0; CloseTest; OpenTest (MkTestRow 8 (js "a") None); TestAnswered 0 good] in
  tr_status <$> obj_get (js "a") (td_results s) = Some Success /\ td_sent s = [TestChannel 7 (Some [(js "model", JStr (js "a"))])].
Proof. vm_compute. auto. Qed.

Definition batch_events : list test_event := [OpenTest sample_row; SelectPage true; TestSelected].
Lemma tests_settle_witness :
  let s := run_tests lower_id new_test_dialog batch_events in
  let s' := run_tests lower_id s (List.map (TestAnswered 0) [good; Failure None None; good]) in
  td_tasks s' = [] /\ isAnyTesting s' = false /\ (forall t, t ∈ td_tasks s -> tested (tk_model t) s').
Proof. apply (tests_settle lower_id batch_events [good; Failure None None; good]). vm_compute. reflexivity. Defined.
