(* ===== verification/Ollama.v ===== *)
(** * The models of an Ollama channel

    [features/channels/lib/ollama-utils.ts] and [features/channels/components/dialogs/ollama-models-dialog.tsx]: the
    dialog lists the models on the machine of a channel, adds them to the channel, deletes them and pulls new ones, whose
    progress arrives as a stream of events.

    [fetchOllamaModels], [pullModel] and [deleteModel] are split at their awaits: the requests under way are part of the
    state with what the code does next.  A chunk of the stream is the text that the decoder made of it.  A channel is the object
    that the server sent; [toLowerCase] is an argument. *)
From S2P Require Import Prelude Numbers Json ModelMapping.
Local Open Scope js_scope.

Abbreviation fields := (list (jstr * json)).

(** ** Addresses and models: [ollama-utils.ts] *)

Definition getString (v : option json) : option jstr := match v with Some (JStr s) => Some s | _ => None end.
Definition getNumber (v : option json) : option number := match v with Some (JNum x) => Some x | _ => None end.
(** [a || b] on texts that may be undefined. *)
Definition text_or (a b : option jstr) : option jstr := match a with Some (c :: s) => Some (c :: s) | _ => b end.
Definition record_of (v : option json) : option json := match v with Some (JObj o) => Some (JObj o) | Some (JArr l) => Some (JArr l) | _ => None end.

Definition parseMaybeJSON (v : option json) : option json :=
  match v with
  | Some (JObj o) => Some (JObj o)
  | Some (JArr l) => Some (JArr l)
  | Some (JStr s) => if truthy s then match JSON_parse s with Ret w => Some w | Throw => None end else None
  | _ => None
  end.
Definition trimmed_text (v : option json) : jstr := match getString v with Some s => trim s | None => [] end.

Definition resolveOllamaBaseUrl (channel : option fields) : jstr :=
  match channel with
  | None => []
  | Some o =>
      let parsed := record_of (parseMaybeJSON (obj_get (js "other_info") o)) in
      str_or (trimmed_text (obj_get (js "base_url") o)) (str_or (trimmed_text (obj_get (js "ollama_base_url") o))
        (str_or (trimmed_text (opt_prop (js "base_url") parsed)) (str_or (trimmed_text (opt_prop (js "public_url") parsed))
          (trimmed_text (opt_prop (js "api_url") parsed)))))
  end.

Definition prop_true (v : option json) : bool := match v with Some w => json_truthy w | None => false end.
(** [if (v && !o.k) o.k = v] *)
Definition fill_in (k : jstr) (v : option json) (o : fields) : fields :=
  match v with Some w => if prop_true (obj_get k o) then o else obj_set k w o | None => o end.
Definition non_empty (v : option jstr) : option json := match v with Some (c :: s) => Some (JStr (c :: s)) | _ => None end.

Definition candidateId (item : fields) : option jstr :=
  let get k := getString (obj_get k item) in
  text_or (get (js "id")) (text_or (get (js "ID")) (text_or (get (js "name")) (text_or (get (js "model")) (get (js "Model"))))).
Definition metadata_of (item : fields) : option json :=
  match obj_get (js "metadata") item with None | Some JNull => obj_get (js "Metadata") item | v => v end.
Definition ollama_model (id : jstr) (item : fields) : fields :=
  let owner := opt_str_or (text_or (getString (obj_get (js "owned_by") item)) (getString (obj_get (js "ownedBy") item))) (js "ollama") in
  let o := obj_set (js "owned_by") (JStr owner) (obj_set (js "id") (JStr id) item) in
  let o := fill_in (js "size") (JNum <$> getNumber (obj_get (js "size") item)) o in
  match record_of (metadata_of item) with
  | Some m =>
      let o := fill_in (js "size") (JNum <$> getNumber (opt_prop (js "size") (Some m))) o in
      let o := fill_in (js "digest") (non_empty (getString (opt_prop (js "digest") (Some m)))) o in
      let o := fill_in (js "modified_at") (non_empty (getString (opt_prop (js "modified_at") (Some m)))) o in
      fill_in (js "details") (match opt_prop (js "details") (Some m) with Some d => if json_truthy d then Some d else None | None => None end) o
  | None => o
  end.
Definition normalizeOllamaModel (item : json) : option fields :=
  match item with
  | JStr s => if truthy s then Some [(js "id", JStr s); (js "owned_by", JStr (js "ollama"))] else None
  | JObj o => match candidateId o with Some (c :: s) => Some (ollama_model (c :: s) o) | _ => None end
  | _ => None
  end.
Definition normalizeOllamaModels (items : option json) : list fields :=
  match items with Some (JArr l) => omap normalizeOllamaModel l | _ => [] end.
Definition model_id (m : fields) : jstr := match obj_get (js "id") m with Some (JStr s) => s | _ => [] end.

Definition formatBytes (bytes : option number) : jstr :=
  match bytes with
  | None => js "-"
  | Some bytes =>
      if is_nan bytes then js "-"
      else if nltb bytes (num_of_Z 1024) then num_to_str bytes ++ js " B"
      else let kb := ndiv bytes (num_of_Z 1024) in
      if nltb kb (num_of_Z 1024) then toFixed kb 1 ++ js " KB"
      else let mb := ndiv kb (num_of_Z 1024) in
      if nltb mb (num_of_Z 1024) then toFixed mb 1 ++ js " MB"
      else toFixed (ndiv mb (num_of_Z 1024)) 2 ++ js " GB"
  end.

(** ** The stream of a pull *)

Inductive pull_line : Type :=
| LineSkipped | LineDone | LineProgress (data : json) | LineError (message : jstr) | LineMessage (message : jstr).

Definition read_line (line : jstr) : pull_line :=
  if starts_with (js "data: ") line
  then let eventData := drop 6 line in
       if negb (truthy eventData) then LineSkipped
       else if eventData === js "[DONE]" then LineDone
       else match JSON_parse eventData with
            | Throw => LineSkipped
            | Ret data =>
                let get k := opt_prop k (Some data) in
                let say k (f : jstr -> pull_line) := match get k with Some v => try_catch (let! s := to_String v in Ret (f s)) LineSkipped | None => LineSkipped end in
                if prop_true (get (js "status")) then LineProgress data
                else if prop_true (get (js "error")) then say (js "error") LineError
                else if prop_true (get (js "message")) then say (js "message") LineMessage
                else LineSkipped
            end
  else LineSkipped.

(** The loop over the lines of a chunk returns at these. *)
Definition line_ends (l : pull_line) : bool := match l with LineDone | LineError _ | LineMessage _ => true | _ => false end.
Fixpoint handle_lines (lines : list jstr) : list pull_line * bool :=
  match lines with
  | [] => ([], false)
  | line :: lines' =>
      let r := read_line line in
      if line_ends r then ([r], true) else let '(rs, e) := handle_lines lines' in (r :: rs, e)
  end.
(** One chunk: what its lines were, whether the loop returned, and the text kept for the next chunk. *)
Definition feed (buffer chunk : jstr) : list pull_line * bool * jstr :=
  let lines := split_char 10 (buffer ++ chunk) in
  (handle_lines (removelast lines), List.last lines []).
Fixpoint read_chunks (buffer : jstr) (chunks : list jstr) : list pull_line * bool :=
  match chunks with
  | [] => ([], false)
  | chunk :: chunks' =>
      let '(rs, e, buffer') := feed buffer chunk in
      if e then (rs, true) else let '(rs', e') := read_chunks buffer' chunks' in (rs ++ rs', e')
  end.

(** The width of the progress bar. *)
Definition pull_percent (progress : json) : number :=
  match opt_prop (js "completed") (Some progress), opt_prop (js "total") (Some progress) with
  | Some (JNum c), Some (JNum t) =>
      if nltb zero t then let p := math_round (nmul (ndiv c t) (num_of_Z 100)) in if is_nan p then nan else if nltb p (num_of_Z 100) then p else num_of_Z 100
      else zero
  | _, _ => zero
  end.

(** ** The dialog: [ollama-models-dialog.tsx] *)

Definition CHANNEL_TYPE_OLLAMA : Z := 4.
Record OllamaRow : Type := MkRow { or_id : Z; or_type : Z; or_models : jstr; or_object : fields }.
Definition row_key (row : OllamaRow) : jstr := match obj_get (js "key") (or_object row) with Some (JStr s) => s | _ => [] end.
Definition row_url (row : OllamaRow) : jstr := resolveOllamaBaseUrl (Some (or_object row)).

Inductive ollama_request : Type :=
| FetchLive (base_url key : jstr) | FetchServer (id : Z) | UpdateModels (id : Z) (models : jstr) | PullModel (id : Z) (name : jstr)
| DeleteOllama (id : Z) (name : jstr).
Inductive ollama_notice : Type := OError (s : jstr) | OInfo (s : jstr) | OSuccess (s : jstr) | OPullFailed (msg : jstr) | ORefreshLists.

(** What runs after [await fetchOllamaModels()]. *)
Inductive fetch_then : Type := ThenNothing | ThenRefresh | ThenDeleted.
Record fetch_task : Type := MkFetch { ft_row : OllamaRow; ft_live : bool; ft_err : jstr; ft_then : fetch_then }.
(** A pull: its controller, and the text kept from the last chunk once the response is there. *)
Record pull_task : Type := MkPull { pl_id : nat; pl_row : OllamaRow; pl_buffer : option jstr; pl_aborted : bool }.
Inductive apply_mode : Type := Append | Replace.

Record PullState : Type := MkPullState { ps_name : jstr; ps_isPulling : bool; ps_progress : option json; ps_abort : option nat; ps_tasks : list pull_task; ps_next : nat }.
Record DeleteState : Type := MkDelete { ds_open : bool; ds_target : option jstr; ds_isDeleting : bool; ds_tasks : list OllamaRow }.

Record OllamaDialog : Type := MkOllama {
  od_open : bool; od_row : option OllamaRow; od_isFetching : bool; od_models : list fields; od_selected : list jstr; od_search : jstr;
  od_pull : PullState; od_delete : DeleteState; od_fetches : list fetch_task; od_applies : list apply_mode;
  od_sent : list ollama_request; od_shown : list ollama_notice
}.

Definition set_lists (fetching : bool) (models : list fields) (selected : list jstr) (search : jstr) (s : OllamaDialog) : OllamaDialog :=
  MkOllama (od_open s) (od_row s) fetching models selected search (od_pull s) (od_delete s) (od_fetches s) (od_applies s) (od_sent s) (od_shown s).
Definition set_pull (p : PullState) (s : OllamaDialog) : OllamaDialog :=
  MkOllama (od_open s) (od_row s) (od_isFetching s) (od_models s) (od_selected s) (od_search s) p (od_delete s) (od_fetches s) (od_applies s)
    (od_sent s) (od_shown s).
Definition set_delete (d : DeleteState) (s : OllamaDialog) : OllamaDialog :=
  MkOllama (od_open s) (od_row s) (od_isFetching s) (od_models s) (od_selected s) (od_search s) (od_pull s) d (od_fetches s) (od_applies s)
    (od_sent s) (od_shown s).
Definition set_requests (fetches : list fetch_task) (applies : list apply_mode) (sent : list ollama_request) (s : OllamaDialog) : OllamaDialog :=
  MkOllama (od_open s) (od_row s) (od_isFetching s) (od_models s) (od_selected s) (od_search s) (od_pull s) (od_delete s) fetches applies
    (od_sent s ++ sent) (od_shown s).
Definition ollama_tell (n : list ollama_notice) (s : OllamaDialog) : OllamaDialog :=
  MkOllama (od_open s) (od_row s) (od_isFetching s) (od_models s) (od_selected s) (od_search s) (od_pull s) (od_delete s) (od_fetches s)
    (od_applies s) (od_sent s) (od_shown s ++ n).
Definition set_shown_row (open : bool) (row : option OllamaRow) (s : OllamaDialog) : OllamaDialog :=
  MkOllama open row (od_isFetching s) (od_models s) (od_selected s) (od_search s) (od_pull s) (od_delete s) (od_fetches s)
    (od_applies s) (od_sent s) (od_shown s).

(** *** Fetching the models *)

Definition fetch_request (t : fetch_task) : ollama_request :=
  if ft_live t then FetchLive (row_url (ft_row t)) (row_key (ft_row t)) else FetchServer (or_id (ft_row t)).
Definition fetchOllamaModels (row : OllamaRow) (next : fetch_then) (s : OllamaDialog) : OllamaDialog :=
  if (or_id row =? 0)%Z then s
  else let t := MkFetch row ((or_type row =? CHANNEL_TYPE_OLLAMA)%Z && truthy (row_url row)) [] next in
       set_requests (od_fetches s ++ [t]) (od_applies s) [fetch_request t] (set_lists true (od_models s) (od_selected s) (od_search s) s).

(** A payload with its success, data and message, or an error with its message if it is one. *)
Inductive fetch_answer : Type := Payload (success : bool) (data : option json) (message : option jstr) | FetchFailed (message : option jstr).

Definition still_selected (ids prev : list jstr) : list jstr :=
  match prev with
  | [] => ids
  | _ => match List.filter (fun id => mem id ids) prev with [] => ids | l => l end
  end.
Definition ollama_fetched (models : list fields) (err : jstr) (s : OllamaDialog) : OllamaDialog :=
  let s := match models, err with [], _ :: _ => ollama_tell [OError err] s | _, _ => s end in
  set_lists false models (still_selected (List.map model_id models) (od_selected s)) (od_search s) s.
Definition close_delete (s : OllamaDialog) : OllamaDialog :=
  set_delete (MkDelete false None false (ds_tasks (od_delete s))) s.
Definition continue_after (next : fetch_then) (s : OllamaDialog) : OllamaDialog :=
  match next with
  | ThenNothing => s
  | ThenRefresh => ollama_tell [ORefreshLists] s
  | ThenDeleted => close_delete (ollama_tell [ORefreshLists] s)
  end.

Definition ollama_fetch_answered (i : nat) (a : fetch_answer) (s : OllamaDialog) : OllamaDialog :=
  match od_fetches s !! i with
  | None => s
  | Some t =>
      let finish models err := continue_after (ft_then t) (ollama_fetched models err (set_requests (delete i (od_fetches s)) (od_applies s) [] s)) in
      if ft_live t
      then let '(models, err) := match a with
             | Payload true data _ => (normalizeOllamaModels data, [])
             | Payload false _ message => ([], opt_str_or message [])
             | FetchFailed message => ([], default [] message)
             end in
           match models with
           | [] => let t' := MkFetch (ft_row t) false err (ft_then t) in
                   set_requests (<[i := t']> (od_fetches s)) (od_applies s) [fetch_request t'] s
           | _ => finish models err
           end
      else match a with
           | Payload true data _ => finish (normalizeOllamaModels data) []
           | Payload false _ message => finish [] (opt_str_or message [])
           | FetchFailed message =>
               continue_after (ft_then t)
                 (set_lists false [] (od_selected s) (od_search s)
                   (ollama_tell [OError (opt_str_or message (js "Failed to fetch models"))] (set_requests (delete i (od_fetches s)) (od_applies s) [] s)))
           end
  end.

(** *** Choosing models *)

Section choosing.
Context (toLowerCase : jstr -> jstr).

Definition filtered_models (s : OllamaDialog) : list fields :=
  match trim (od_search s) with
  | [] => od_models s
  | keyword => List.filter (fun m => includes (toLowerCase keyword) (toLowerCase (model_id m))) (od_models s)
  end.
Definition toggleSelected (modelId : jstr) (checked : bool) (prev : list jstr) : list jstr :=
  if checked then if mem modelId prev then prev else prev ++ [modelId] else List.filter (fun id => id !== modelId) prev.
Definition selectAllFiltered (s : OllamaDialog) : list jstr := dedup (od_selected s ++ List.map model_id (filtered_models s)).

Definition existingModels (row : OllamaRow) : list jstr := parseModelsString (or_models row).
Definition models_to_apply (mode : apply_mode) (row : OllamaRow) (selected : list jstr) : list jstr :=
  match mode with Replace => dedup selected | Append => dedup (existingModels row ++ selected) end.
Definition applySelection (mode : apply_mode) (s : OllamaDialog) : OllamaDialog :=
  match od_row s, od_selected s with
  | None, _ => s
  | Some _, [] => ollama_tell [OInfo (js "No models selected")] s
  | Some row, _ =>
      set_requests (od_fetches s) (od_applies s ++ [mode])
        [UpdateModels (or_id row) (join (js ",") (models_to_apply mode row (od_selected s)))] s
  end.
(** A refusal shows nothing here, and neither does an error, which nobody catches. *)
Definition apply_answered (i : nat) (success : bool) (s : OllamaDialog) : OllamaDialog :=
  match od_applies s !! i with
  | None => s
  | Some mode =>
      let s := set_requests (od_fetches s) (delete i (od_applies s)) [] s in
      if success
      then ollama_tell [OSuccess (match mode with Replace => js "Models updated successfully" | Append => js "Models appended successfully" end); ORefreshLists] s
      else s
  end.

(** *** Pulling a model *)

Definition abort_task (id : option nat) (t : pull_task) : pull_task :=
  if bool_decide (Some (pl_id t) = id) then MkPull (pl_id t) (pl_row t) (pl_buffer t) true else t.
(** [pullAbortRef.current?.abort()] *)
Definition abort_current (p : PullState) : list pull_task := List.map (abort_task (ps_abort p)) (ps_tasks p).
(** [setIsPulling(false); setPullProgress(null); pullAbortRef.current = null] *)
Definition pull_over (name : jstr) (tasks : list pull_task) (p : PullState) : PullState := MkPullState name false None None tasks (ps_next p).

Definition pullModel (s : OllamaDialog) : OllamaDialog :=
  let p := od_pull s in
  match od_row s with
  | None => s
  | Some row =>
      if (or_id row =? 0)%Z then s
      else if negb (truthy (trim (ps_name p))) then ollama_tell [OError (js "Please enter model name")] s
      else if negb (truthy (row_url row)) then ollama_tell [OError (js "Please set Ollama API Base URL first")] s
      else set_requests (od_fetches s) (od_applies s) [PullModel (or_id row) (trim (ps_name p))]
             (set_pull (MkPullState (ps_name p) true
                (Some (JObj [(js "status", JStr (js "starting")); (js "completed", JNum zero); (js "total", JNum zero)]))
                (Some (ps_next p)) (abort_current p ++ [MkPull (ps_next p) row None false]) (S (ps_next p))) s)
  end.

Inductive pull_event : Type := PullResponse (ok : bool) (status : jstr) | PullChunk (text : jstr) | PullEnd | PullError (message : option jstr).

Definition set_progress (v : json) (s : OllamaDialog) : OllamaDialog :=
  let p := od_pull s in set_pull (MkPullState (ps_name p) (ps_isPulling p) (Some v) (ps_abort p) (ps_tasks p) (ps_next p)) s.
(** What a line makes the handler do; the task of a pull that is over is gone. *)
Definition show_pull_line (i : nat) (row : OllamaRow) (s : OllamaDialog) (l : pull_line) : OllamaDialog :=
  let p := od_pull s in
  let over name := set_pull (pull_over name (delete i (ps_tasks p)) p) s in
  match l with
  | LineSkipped => s
  | LineProgress data => set_progress data s
  | LineDone => over (ps_name p)
  | LineError message => ollama_tell [OError message] (over (ps_name p))
  | LineMessage message => fetchOllamaModels row ThenRefresh (ollama_tell [OSuccess message] (over []))
  end.
Definition pull_failed (i : nat) (abort : bool) (msg : jstr) (s : OllamaDialog) : OllamaDialog :=
  let p := od_pull s in
  ollama_tell (if abort then [] else [OPullFailed msg]) (set_pull (pull_over (ps_name p) (delete i (ps_tasks p)) p) s).
(** The next thing that happens to a pull; the wait of one that was aborted ends with an error. *)
Definition pull_answered (i : nat) (e : pull_event) (s : OllamaDialog) : OllamaDialog :=
  let p := od_pull s in
  match ps_tasks p !! i with
  | None => s
  | Some t =>
      if pl_aborted t then pull_failed i true [] s
      else match e, pl_buffer t with
           | PullResponse true _, None =>
               set_pull (MkPullState (ps_name p) (ps_isPulling p) (ps_progress p) (ps_abort p)
                 (<[i := MkPull (pl_id t) (pl_row t) (Some []) false]> (ps_tasks p)) (ps_next p)) s
           | PullResponse false status, None => pull_failed i false status s
           | PullChunk text, Some buffer =>
               let '(lines, ended, buffer') := feed buffer text in
               let s := if ended then s
                        else set_pull (MkPullState (ps_name p) (ps_isPulling p) (ps_progress p) (ps_abort p)
                               (<[i := MkPull (pl_id t) (pl_row t) (Some buffer') false]> (ps_tasks p)) (ps_next p)) s in
               foldl (show_pull_line i (pl_row t)) s lines
           | PullEnd, Some _ =>
               fetchOllamaModels (pl_row t) ThenRefresh (set_pull (pull_over (ps_name p) (delete i (ps_tasks p)) p) s)
           | PullError message, _ => pull_failed i false (default [] message) s
           | _, _ => s
           end
  end.

(** *** Deleting a model *)

Definition deleteModel (s : OllamaDialog) : OllamaDialog :=
  let d := od_delete s in
  match od_row s, ds_target d with
  | Some row, Some (c :: name) =>
      if (or_id row =? 0)%Z || ds_isDeleting d then s
      else set_requests (od_fetches s) (od_applies s) [DeleteOllama (or_id row) (c :: name)]
             (set_delete (MkDelete (ds_open d) (ds_target d) true (ds_tasks d ++ [row])) s)
  | _, _ => s
  end.
(** The answer of the server, or an error. *)
Inductive delete_answer : Type := DeleteAnswer (success : bool) (message : option jstr) | DeleteFailed (message : option jstr).
Definition delete_answered (i : nat) (a : delete_answer) (s : OllamaDialog) : OllamaDialog :=
  let d := od_delete s in
  match ds_tasks d !! i with
  | None => s
  | Some row =>
      let rest b := set_delete (MkDelete (ds_open d) (ds_target d) b (delete i (ds_tasks d))) s in
      let failed m := ollama_tell [OError (opt_str_or m (js "Failed to delete model"))] (rest false) in
      match a with
      | DeleteAnswer true _ => fetchOllamaModels row ThenDeleted (ollama_tell [OSuccess (js "Model deleted")] (rest true))
      | DeleteAnswer false m | DeleteFailed m => failed m
      end
  end.

(** *** Events *)

Inductive ollama_event : Type :=
| OpenOllama (row : OllamaRow) | CloseOllama | Refresh | FetchAnswered (i : nat) (a : fetch_answer) | TypeSearch (t : jstr)
| ToggleModel (i : nat) (b : bool) | SelectAllModels | ClearSelection | Apply (mode : apply_mode) | ApplyAnswered (i : nat) (success : bool)
| TypePull (t : jstr) | Pull | PullAnswered (i : nat) (e : pull_event)
| AskDelete (i : nat) | CloseDelete | ConfirmDelete | DeleteAnswered (i : nat) (a : delete_answer).

Definition close_ollama (s : OllamaDialog) : OllamaDialog :=
  let p := od_pull s in
  set_shown_row false (od_row s) (set_pull (pull_over [] (abort_current p) p) (set_lists (od_isFetching s) [] [] [] s)).
Definition ollama_step (ev : ollama_event) (s : OllamaDialog) : OllamaDialog :=
  let p := od_pull s in
  let d := od_delete s in
  match ev with
  | OpenOllama row =>
      let s := set_shown_row true (Some row) s in
      if (or_type row =? CHANNEL_TYPE_OLLAMA)%Z then fetchOllamaModels row ThenNothing s else s
  | CloseOllama => close_ollama s
  | Refresh => match od_row s with Some row => if od_isFetching s then s else fetchOllamaModels row ThenNothing s | None => s end
  | FetchAnswered i a => ollama_fetch_answered i a s
  | TypeSearch t => set_lists (od_isFetching s) (od_models s) (od_selected s) t s
  | ToggleModel i b =>
      match filtered_models s !! i with
      | Some m => set_lists (od_isFetching s) (od_models s) (toggleSelected (model_id m) b (od_selected s)) (od_search s) s
      | None => s
      end
  | SelectAllModels => set_lists (od_isFetching s) (od_models s) (selectAllFiltered s) (od_search s) s
  | ClearSelection => set_lists (od_isFetching s) (od_models s) [] (od_search s) s
  | Apply mode => applySelection mode s
  | ApplyAnswered i b => apply_answered i b s
  | TypePull t => if ps_isPulling p then s else set_pull (MkPullState t false (ps_progress p) (ps_abort p) (ps_tasks p) (ps_next p)) s
  | Pull => if ps_isPulling p then s else pullModel s
  | PullAnswered i e => pull_answered i e s
  | AskDelete i =>
      match filtered_models s !! i with
      | Some m => set_delete (MkDelete true (Some (model_id m)) (ds_isDeleting d) (ds_tasks d)) s
      | None => s
      end
  | CloseDelete => set_delete (MkDelete false None (ds_isDeleting d) (ds_tasks d)) s
  | ConfirmDelete => deleteModel s
  | DeleteAnswered i a => delete_answered i a s
  end.
Definition run_ollama (s : OllamaDialog) (evs : list ollama_event) : OllamaDialog := foldl (fun s ev => ollama_step ev s) s evs.
Definition new_ollama : OllamaDialog :=
  MkOllama false None false [] [] [] (MkPullState [] false None None [] 0) (MkDelete false None false []) [] [] [] [].
End choosing.

(** ** The stream does not depend on its chunks *)

Lemma removelast_cons2 {A} (x y : A) l : removelast (x :: y :: l) = x :: removelast (y :: l).
Proof. done. Qed.

Lemma split_char_cat c a b :
  split_char c (a ++ b) = removelast (split_char c a) ++ split_char c (List.last (split_char c a) [] ++ b).
Proof.
  induction a as [|d a IH]; [done|]. cbn [app split_char]. destruct (split_char_cons c a) as (w & ws & E). rewrite E in *.
  destruct (d =? c)%N eqn:Ed.
  - rewrite removelast_cons2. cbn [app]. rewrite IH. by destruct ws.
  - rewrite IH. destruct ws as [|v ws]; [|done]. cbn [removelast app List.last]. cbn [split_char]. by rewrite Ed.
Qed.

Lemma removelast_app_ne {A} (l1 l2 : list A) : l2 <> [] -> removelast (l1 ++ l2) = l1 ++ removelast l2.
Proof. apply removelast_app. Qed.

Lemma handle_lines_app l1 l2 :
  handle_lines (l1 ++ l2) = let '(rs, e) := handle_lines l1 in if e then (rs, true) else let '(rs', e') := handle_lines l2 in (rs ++ rs', e').
Proof.
  induction l1 as [|l l1 IH]; cbn [handle_lines app]; [by destruct (handle_lines l2)|].
  destruct (line_ends (read_line l)); [done|]. rewrite IH. destruct (handle_lines l1) as [rs [|]]; [done|]. by destruct (handle_lines l2).
Qed.

Lemma last_no_newline s : 10%N ∉ List.last (split_char 10 s) [].
Proof.
  pose proof (split_char_no_sep 10 s) as H. destruct (split_char_cons 10 s) as (w & ws & E). rewrite E in *.
  rewrite Forall_forall in H. apply H. destruct (exists_last (l := w :: ws)) as (l & x & ->); [done|].
  rewrite last_last, elem_of_app. right. apply list_elem_of_here.
Qed.

Lemma read_chunks_text buffer chunks : 10%N ∉ buffer ->
  read_chunks buffer chunks = handle_lines (removelast (split_char 10 (buffer ++ concat chunks))).
Proof.
  revert buffer. induction chunks as [|chunk chunks IH]; intros buffer Hb; cbn [read_chunks concat].
  - rewrite app_nil_r, split_char_none by done. done.
  - unfold feed. rewrite app_assoc, (split_char_cat 10 (buffer ++ chunk)), removelast_app_ne, handle_lines_app.
    + destruct (handle_lines (removelast _)) as [rs [|]]; [done|]. by rewrite IH by apply last_no_newline.
    + destruct (split_char_cons 10 (List.last (split_char 10 (buffer ++ chunk)) [] ++ concat chunks)) as (w & ws & ->). done.
Qed.

(** C34: what a pull reports depends on the text of the stream alone, not on how it is cut into chunks: the complete lines, up
    to the first that ends the pull. *)
Theorem pull_chunks_alike chunks :
  read_chunks [] chunks = handle_lines (removelast (split_char 10 (concat chunks))).
Proof. by apply read_chunks_text, not_elem_of_nil. Qed.

(** ** Models are normalised once *)

Lemma fill_same k v o : prop_true (obj_get k o) = true -> fill_in k v o = o.
Proof. intros H. unfold fill_in. destruct v; [by rewrite H|done]. Qed.

Lemma fill_other k j v o : k <> j -> obj_get k (fill_in j v o) = obj_get k o.
Proof. intros H. unfold fill_in. destruct v; [|done]. destruct (prop_true _); [done|]. by apply obj_get_set_ne. Qed.

Lemma ids_kept id item : obj_get (js "id") (ollama_model id item) = Some (JStr id).
Proof.
  unfold ollama_model. destruct (record_of _); rewrite !fill_other by done; rewrite obj_get_set_ne by done; apply obj_get_set_eq.
Qed.

(** Every model that is listed has a name. *)
Lemma normalized_named items m : m ∈ normalizeOllamaModels items -> model_id m <> [].
Proof.
  destruct items as [[]|]; try (intros H%not_elem_of_nil; done). cbn. intros (item & _ & E)%list_elem_of_omap.
  destruct item as [| | |s| |o]; try done; cbn in E.
  - destruct s; [done|]. injection E as <-. done.
  - destruct (candidateId o) as [[|c s]|]; try done. injection E as <-. unfold model_id. by rewrite ids_kept.
Qed.

(** ** Adding models to the channel *)

(** What is written is read as the models that were chosen, and when models are added the ones before stay. *)
Theorem models_applied mode row selected :
  Forall clean_name selected ->
  let models := models_to_apply mode row selected in
  parseModelsString (join (js ",") models) = models
  /\ (forall m, m ∈ models <-> m ∈ selected \/ (mode = Append /\ m ∈ existingModels row)).
Proof.
  intros Hs. assert (exists ms, models_to_apply mode row selected = dedup ms /\ Forall clean_name ms
    /\ (forall m, m ∈ ms <-> m ∈ selected \/ (mode = Append /\ m ∈ existingModels row))) as (ms & E & Hc & Hm).
  - destruct mode; [exists (existingModels row ++ selected)|exists selected]; (split; [done|]); split.
    + apply Forall_app. split; [|done]. unfold existingModels, parseModelsString. destruct (truthy _); [apply comma_list_clean|constructor].
    + intros m. rewrite elem_of_app. naive_solver.
    + done.
    + naive_solver.
  - cbn zeta. rewrite E. split; [|intros m; by rewrite elem_of_dedup].
    exact (models_read_back ms Hc).
Qed.

(** ** On concrete channels *)

Definition ollama_row (id : Z) (models : jstr) : OllamaRow := MkRow id 4 models [(js "base_url", JStr (js "http://h"))].
Definition answer_of (l : list jstr) : fetch_answer := Payload true (Some (JArr (List.map JStr l))) None.

(** Models that were added are lost when others are added after them: the row is the one the dialog was opened with. *)
Example append_twice :
  let s := run_ollama lower new_ollama
    [OpenOllama (ollama_row 1 (js "x")); FetchAnswered 0 (answer_of [js "a"; js "b"]); ToggleModel 1 false; Apply Append; ApplyAnswered 0 true;
     ToggleModel 0 false; ToggleModel 1 true; Apply Append] in
  List.filter (fun r => match r with UpdateModels _ _ => true | _ => false end) (od_sent s) = [UpdateModels 1 (js "x,a"); UpdateModels 1 (js "x,b")].
Proof. vm_compute. reflexivity. Qed.

(** The models of a channel that was closed are shown and applied for the one that is open. *)
Example stale_models :
  let s := run_ollama lower new_ollama
    [OpenOllama (ollama_row 1 []); CloseOllama; OpenOllama (ollama_row 2 []); FetchAnswered 1 (answer_of [js "b"]);
     FetchAnswered 0 (answer_of [js "a"]); Apply Replace] in
  List.last (od_sent s) (FetchServer 0) = UpdateModels 2 (js "a").
Proof. vm_compute. reflexivity. Qed.

Definition event_text (s : jstr) : jstr := js "data: {" ++ dq ++ js "error" ++ dq ++ js ":" ++ dq ++ s ++ dq ++ js "}".

(** A last line that does not end is not read: the error of a stream that breaks off is not shown. *)
Example last_line_lost :
  read_chunks [] [event_text (js "disk full")] = ([], false)
  /\ read_chunks [] [event_text (js "disk full") ++ [10%N]] = ([LineError (js "disk full")], true).
Proof. vm_compute. auto. Qed.

Example pull_done :
  let s := run_ollama lower new_ollama
    [OpenOllama (ollama_row 1 []); TypePull (js "m"); Pull; PullAnswered 0 (PullResponse true []); PullAnswered 0 (PullChunk (js "data: [DO"));
     PullAnswered 0 (PullChunk (js "NE]" ++ [10%N]))] in
  ps_isPulling (od_pull s) = false /\ ps_tasks (od_pull s) = [].
Proof. vm_compute. auto. Qed.

Lemma models_applied_witness :
  let models := models_to_apply Append (ollama_row 1 (js "x,a")) [js "a"; js "b"] in
  parseModelsString (join (js ",") models) = models
  /\ (forall m, m ∈ models <-> m ∈ [js "a"; js "b"] \/ (Append = Append /\ m ∈ existingModels (ollama_row 1 (js "x,a")))).
Proof.
  apply (models_applied Append (ollama_row 1 (js "x,a")) [js "a"; js "b"]).
  repeat constructor; first [discriminate|vm_compute; reflexivity|intros H; apply (proj2 (mem_true _ _)) in H; discriminate H].
Defined.
