(* ===== verification/SkillEditor.v ===== *)
(** * The editor of a skill

    [features/admin-skills/components/admin-skill-editor-dialog.tsx] and [constants.ts]: an administrator writes a skill of the
    marketplace.  All inputs are texts and switches; [parseForm] checks them and makes the payloads of the three requests by
    which a skill is saved: the draft, its settings and, when the instructions changed, a new version of them.

    The form is a text for each text field and a flag for each switch; an update changes one of them.  The requests of a save
    are made one after the other: what is left to do is part of the state.  The lists of versions and audit entries are not modelled. *)
From S2P Require Import Prelude Numbers Json JsonRoundtrip JsonPretty VisualEditors.
Local Open Scope js_scope.

(** ** The form *)

Inductive skill_field : Type :=
| Slug | Name | ShortDescription | Description | Category | Tags | IconUrl | InputHints | ExampleInputs | ExampleOutputs
| RequiredPlan | MonetizationType | PriceMarkup | FreeQuota | InstructionTemplate | OutputSchema | DownloadInstructions
| UsageInstructions | Prerequisites | Quickstart | ExampleIO | ModelWhitelist | TimeoutSeconds | MaxInputTokens
| IsKidsSafe | IsKidsExclusive | KidsApprovalStatus | AiDisclosure | FeaturedFlag | FeaturedRank.
#[export] Instance field_eq_dec : EqDecision skill_field.
Proof. solve_decision. Defined.

Inductive editor_mode := Create | Edit.
Record EditorFormState : Type := MkEditorForm { ef_text : skill_field -> jstr; ef_flag : skill_field -> bool }.

Definition MONETIZATION_TYPES : list jstr := [js "free"; js "plan_included"; js "token_markup"; js "one_time"; js "plus_exclusive"].
Definition ADMIN_SKILL_PLANS : list jstr := [js "free"; js "pro"; js "enterprise"].
Definition ADMIN_SKILL_KIDS_STATUSES : list jstr :=
  [js "not_required"; js "pending"; js "approved"; js "emergency_approved"; js "rejected"; js "revoked"].
(** The label of a value: its words with a capital letter; the words of the code are ASCII. *)
Definition labelFromValue (value : jstr) : jstr :=
  join (js " ") (List.map (fun part => upper (take 1 part) ++ drop 1 part) (split_char 95 value)).

Definition empty_text (f : skill_field) : jstr :=
  match f with
  | InputHints | ExampleInputs | ExampleOutputs | Prerequisites | Quickstart | ExampleIO => js "[]"
  | RequiredPlan | MonetizationType => js "free"
  | TimeoutSeconds => js "45"
  | KidsApprovalStatus => js "not_required"
  | _ => []
  end.
Definition emptyForm : EditorFormState := MkEditorForm empty_text (fun f => bool_decide (f = AiDisclosure)).

Definition put_text (f : skill_field) (v : jstr) (form : EditorFormState) : EditorFormState :=
  MkEditorForm (fun g => if decide (g = f) then v else ef_text form g) (ef_flag form).
Definition put_flag (f : skill_field) (b : bool) (form : EditorFormState) : EditorFormState :=
  MkEditorForm (ef_text form) (fun g => if decide (g = f) then b else ef_flag form g).

(** ** A stored skill *)

Record AdminSkill : Type := MkAdminSkill {
  as_id : jstr; as_slug : jstr; as_name : jstr; as_category : jstr; as_short : option jstr; as_description : option jstr;
  as_tags : option json; as_icon : option jstr; as_plan : jstr; as_monetization : jstr; as_markup : number;
  as_quota : option number; as_max_tokens : option number; as_timeout : option number;
  as_kids_safe : bool; as_kids_exclusive : bool; as_kids_status : jstr; as_disclosure : bool; as_featured : bool; as_rank : option number;
  as_hints : option json; as_inputs : option json; as_outputs : option json; as_models : option json; as_version : option jstr
}.

Fixpoint texts_of (l : list json) : outcome (list jstr) :=
  match l with [] => Ret [] | v :: l' => let! s := to_String v in let! ss := texts_of l' in Ret (s :: ss) end.
Definition arrayToLines (v : option json) : outcome jstr :=
  match v with Some (JArr l) => let! ss := texts_of l in Ret (join newline ss) | _ => Ret [] end.
(** [JSON.stringify(v ?? [], null, 2)] *)
Definition prettyJSON (v : option json) : jstr := JSON_pretty (match v with None | Some JNull => JArr [] | Some w => w end).
Definition number_text (v : option number) : jstr := match v with Some x => num_to_str x | None => [] end.

Definition skill_text (skill : AdminSkill) (tags models : jstr) (f : skill_field) : jstr :=
  match f with
  | Slug => as_slug skill
  | Name => as_name skill
  | ShortDescription => default [] (as_short skill)
  | Description => default [] (as_description skill)
  | Category => as_category skill
  | Tags => tags
  | IconUrl => default [] (as_icon skill)
  | InputHints => prettyJSON (as_hints skill)
  | ExampleInputs => prettyJSON (as_inputs skill)
  | ExampleOutputs => prettyJSON (as_outputs skill)
  | RequiredPlan => as_plan skill
  | MonetizationType => as_monetization skill
  | PriceMarkup => if num_truthy (as_markup skill) then num_to_str (as_markup skill) else []
  | FreeQuota => number_text (as_quota skill)
  | ModelWhitelist => models
  | TimeoutSeconds => num_to_str (default (num_of_Z 45) (as_timeout skill))
  | MaxInputTokens => number_text (as_max_tokens skill)
  | KidsApprovalStatus => as_kids_status skill
  | FeaturedRank => number_text (as_rank skill)
  | _ => empty_text f
  end.
Definition skill_flag (skill : AdminSkill) (f : skill_field) : bool :=
  match f with
  | IsKidsSafe => as_kids_safe skill
  | IsKidsExclusive => as_kids_exclusive skill
  | AiDisclosure => as_disclosure skill
  | FeaturedFlag => as_featured skill
  | _ => false
  end.
Definition formFromSkill (skill : option AdminSkill) : outcome EditorFormState :=
  match skill with
  | None => Ret emptyForm
  | Some s =>
      let! tags := arrayToLines (as_tags s) in
      let! models := arrayToLines (as_models s) in
      Ret (MkEditorForm (skill_text s tags models) (skill_flag s))
  end.

(** The instructions of a version, as the form shows them. *)
Record VersionDetail : Type := MkVersion {
  vd_template : jstr; vd_schema : option json; vd_download : jstr; vd_usage : jstr;
  vd_prerequisites : option json; vd_quickstart : option json; vd_example : option json
}.
Definition has_schema (v : VersionDetail) : bool := match vd_schema v with Some w => json_truthy w | None => false end.
Definition show_version (v : VersionDetail) (form : EditorFormState) : EditorFormState :=
  MkEditorForm (fun f => match f with
    | InstructionTemplate => vd_template v
    | OutputSchema => if has_schema v then prettyJSON (vd_schema v) else ef_text form OutputSchema
    | DownloadInstructions => vd_download v
    | UsageInstructions => vd_usage v
    | Prerequisites => prettyJSON (vd_prerequisites v)
    | Quickstart => prettyJSON (vd_quickstart v)
    | ExampleIO => prettyJSON (vd_example v)
    | _ => ef_text form f
    end) (ef_flag form).
Definition original_text (v : VersionDetail) (f : skill_field) : jstr :=
  match f with
  | InstructionTemplate => vd_template v
  | OutputSchema => if has_schema v then prettyJSON (vd_schema v) else []
  | DownloadInstructions => vd_download v
  | UsageInstructions => vd_usage v
  | Prerequisites => prettyJSON (vd_prerequisites v)
  | Quickstart => prettyJSON (vd_quickstart v)
  | ExampleIO => prettyJSON (vd_example v)
  | _ => []
  end.
Definition version_fields : list skill_field :=
  [InstructionTemplate; OutputSchema; DownloadInstructions; UsageInstructions; Prerequisites; Quickstart; ExampleIO].
Definition is_blank (s : jstr) : bool := negb (truthy (trim s)).
Definition versionChanged (mode : editor_mode) (active : option VersionDetail) (form : EditorFormState) : bool :=
  negb (is_blank (ef_text form InstructionTemplate))
  && match mode, active with
     | Create, _ | _, None => true
     | Edit, Some v => existsb (fun f => ef_text form f !== original_text v f) version_fields
     end.
Definition requiresMaxInputTokens (form : EditorFormState) : bool :=
  (ef_text form RequiredPlan === js "free") || (ef_text form MonetizationType === js "free") || negb (is_blank (ef_text form FreeQuota)).

(** ** Checking the form *)

(** A value and the errors that reading it assigns, in order. *)
Abbreviation checked A := (A * list (skill_field * jstr))%type.

Definition parseLines (s : jstr) : list jstr := filter_truthy (List.map trim (split_char 44 (List.map (fun c => if (c =? 10)%N then 44%N else c) s))).
Definition parseJSONField (value : jstr) (f : skill_field) : checked json :=
  if is_blank value then (JArr [], [])
  else match JSON_parse value with Ret v => (v, []) | Throw => (JArr [], [(f, js "Enter valid JSON.")]) end.
Definition parseOptionalJSONField (value : jstr) (f : skill_field) : checked json :=
  if is_blank value then (JNull, [])
  else match JSON_parse value with Ret v => (v, []) | Throw => (JNull, [(f, js "Enter valid JSON.")]) end.
Definition parseJSONArrayField (value : jstr) (f : skill_field) : checked json :=
  match parseJSONField value f with
  | (JArr l, e) => (JArr l, e)
  | (_, e) => (JArr [], e ++ [(f, js "Enter a valid JSON array.")])
  end.
Definition parseOptionalInt (value : jstr) (f : skill_field) : checked (option number) :=
  if is_blank value then (None, [])
  else let x := parseInt10 value in if is_finite x then (Some x, []) else (None, [(f, js "Enter a valid number.")]).
Definition parseOptionalNumber (value : jstr) (f : skill_field) : checked (option number) :=
  if is_blank value then (None, [])
  else let x := Number value in if is_finite x then (Some x, []) else (None, [(f, js "Enter a valid number.")]).

Definition required_error (form : EditorFormState) (f : skill_field) (message : jstr) : list (skill_field * jstr) :=
  if is_blank (ef_text form f) then [(f, message)] else [].
Definition error_when (b : bool) (f : skill_field) (message : jstr) : list (skill_field * jstr) := if b then [(f, message)] else [].
Definition opt_truthy (x : option number) : bool := match x with Some x => num_truthy x | None => false end.
Definition opt_json (x : option number) : json := match x with Some x => JNum x | None => JNull end.

Record parsed_form : Type := MkParsed {
  pf_errors : list (skill_field * jstr); pf_create : list (jstr * json); pf_patch : list (jstr * json); pf_version : option (list (jstr * json))
}.
Definition pf_ok (p : parsed_form) : bool := match pf_errors p with [] => true | _ => false end.

Definition parseForm (form : EditorFormState) (mode : editor_mode) : parsed_form :=
  let text := ef_text form in
  let trimmed f := JStr (trim (text f)) in
  let e0 := required_error form Name (js "Name is required.")
            ++ required_error form ShortDescription (js "Short description is required.")
            ++ required_error form Description (js "Description is required.")
            ++ required_error form Category (js "Category is required.")
            ++ match mode with Create => required_error form Slug (js "Slug is required.") | Edit => [] end in
  let tags := parseLines (text Tags) in
  let modelWhitelist := parseLines (text ModelWhitelist) in
  let inputHints := parseJSONField (text InputHints) InputHints in
  let exampleInputs := parseJSONField (text ExampleInputs) ExampleInputs in
  let exampleOutputs := parseJSONField (text ExampleOutputs) ExampleOutputs in
  let outputSchema := parseOptionalJSONField (text OutputSchema) OutputSchema in
  let prerequisites := parseJSONArrayField (text Prerequisites) Prerequisites in
  let quickstart := parseJSONArrayField (text Quickstart) Quickstart in
  let exampleIO := parseJSONArrayField (text ExampleIO) ExampleIO in
  let timeoutSeconds := parseOptionalInt (text TimeoutSeconds) TimeoutSeconds in
  let priceMarkup := parseOptionalNumber (text PriceMarkup) PriceMarkup in
  let freeQuota := parseOptionalInt (text FreeQuota) FreeQuota in
  let maxInputTokens := parseOptionalInt (text MaxInputTokens) MaxInputTokens in
  let featuredRank := parseOptionalInt (text FeaturedRank) FeaturedRank in
  let markup := text MonetizationType === js "token_markup" in
  let e1 := inputHints.2 ++ exampleInputs.2 ++ exampleOutputs.2 ++ outputSchema.2 ++ prerequisites.2 ++ quickstart.2 ++ exampleIO.2
            ++ timeoutSeconds.2 ++ priceMarkup.2 ++ freeQuota.2 ++ maxInputTokens.2 ++ featuredRank.2 in
  let e2 := error_when (requiresMaxInputTokens form && match maxInputTokens.1 with None => true | _ => false end) MaxInputTokens
              (js "max_input_tokens is required for Free/free-quota Skills.")
            ++ error_when (markup && negb (opt_truthy priceMarkup.1)) PriceMarkup (js "Markup must be greater than 0 for token markup.")
            ++ error_when (negb markup && opt_truthy priceMarkup.1) PriceMarkup (js "Markup is only allowed for token markup.")
            ++ error_when (match timeoutSeconds.1 with Some x => nltb x (num_of_Z 1) || nltb (num_of_Z 120) x | None => false end) TimeoutSeconds
                 (js "Timeout must be between 1 and 120 seconds.")
            ++ error_when (ef_flag form IsKidsExclusive && negb (ef_flag form IsKidsSafe)) IsKidsExclusive (js "Kids Exclusive requires Kids Safe.")
            ++ error_when (negb (is_blank (text InstructionTemplate)) && is_blank (text DownloadInstructions)) DownloadInstructions
                 (js "Download instructions are required.")
            ++ error_when (negb (is_blank (text InstructionTemplate)) && is_blank (text UsageInstructions)) UsageInstructions
                 (js "Usage instructions are required.") in
  MkParsed (e0 ++ e1 ++ e2)
    ([(js "slug", trimmed Slug); (js "name", trimmed Name); (js "short_description", trimmed ShortDescription);
      (js "description", trimmed Description); (js "category", trimmed Category); (js "required_plan", JStr (text RequiredPlan));
      (js "monetization_type", JStr (text MonetizationType))]
     ++ match priceMarkup.1 with Some x => [(js "price_markup", JNum x)] | None => [] end
     ++ [(js "free_quota_per_month", opt_json freeQuota.1); (js "max_input_tokens", opt_json maxInputTokens.1)])
    [(js "name", trimmed Name); (js "short_description", trimmed ShortDescription); (js "description", trimmed Description);
     (js "category", trimmed Category); (js "tags", JArr (List.map JStr tags));
     (js "icon_url", if is_blank (text IconUrl) then JNull else trimmed IconUrl);
     (js "input_hints", inputHints.1); (js "example_inputs", exampleInputs.1); (js "example_outputs", exampleOutputs.1);
     (js "required_plan", JStr (text RequiredPlan)); (js "monetization_type", JStr (text MonetizationType));
     (js "price_markup", JNum (default zero priceMarkup.1)); (js "free_quota_per_month", opt_json freeQuota.1);
     (js "max_input_tokens", opt_json maxInputTokens.1); (js "model_whitelist", JArr (List.map JStr modelWhitelist));
     (js "timeout_seconds", JNum (default (num_of_Z 45) timeoutSeconds.1)); (js "is_kids_safe", JBool (ef_flag form IsKidsSafe));
     (js "is_kids_exclusive", JBool (ef_flag form IsKidsExclusive)); (js "kids_approval_status", JStr (text KidsApprovalStatus));
     (js "ai_disclosure_required", JBool (ef_flag form AiDisclosure)); (js "featured_flag", JBool (ef_flag form FeaturedFlag));
     (js "featured_rank", opt_json featuredRank.1)]
    (if is_blank (text InstructionTemplate) then None
     else Some [(js "instruction_template", JStr (text InstructionTemplate)); (js "output_schema", outputSchema.1);
                (js "download_instructions", trimmed DownloadInstructions); (js "usage_instructions", trimmed UsageInstructions);
                (js "prerequisites", prerequisites.1); (js "quickstart", quickstart.1); (js "example_io", exampleIO.1)]).

(** ** Saving *)

Inductive skill_request : Type :=
| CreateSkill (payload : list (jstr * json)) | PatchSkill (id : jstr) (payload : list (jstr * json)) | CreateVersion (id : jstr) (payload : list (jstr * json)).
Inductive skill_notice : Type := SkillSaved | SkillFailed (message : jstr) | SkillsRefreshed (id : option jstr).

(** The request a save waits for, with the form as it was read and whether a version is to be made. *)
Inductive save_stage : Type := Creating | Patching | Versioning.
Record save_task : Type := MkSave { sv_stage : save_stage; sv_parsed : parsed_form; sv_with_version : bool }.

Record SkillEditorState : Type := MkSkillEditor {
  se_open : bool; se_mode : editor_mode; se_skill : option AdminSkill; se_form : EditorFormState; se_errors : skill_field -> jstr;
  se_formError : option jstr; se_active : option VersionDetail; se_save : option save_task;
  se_sent : list skill_request; se_shown : list skill_notice
}.

Definition set_skill_form (form : EditorFormState) (errors : skill_field -> jstr) (s : SkillEditorState) : SkillEditorState :=
  MkSkillEditor (se_open s) (se_mode s) (se_skill s) form errors (se_formError s) (se_active s) (se_save s) (se_sent s) (se_shown s).
Definition set_save (task : option save_task) (sent : list skill_request) (s : SkillEditorState) : SkillEditorState :=
  MkSkillEditor (se_open s) (se_mode s) (se_skill s) (se_form s) (se_errors s) (se_formError s) (se_active s) task (se_sent s ++ sent) (se_shown s).
Definition set_opened (open : bool) (mode : editor_mode) (skill : option AdminSkill) (form : EditorFormState) (s : SkillEditorState) : SkillEditorState :=
  MkSkillEditor open mode skill form (fun _ => []) None None (se_save s) (se_sent s) (se_shown s).
Definition tell_skill (open : bool) (formError : option jstr) (n : list skill_notice) (s : SkillEditorState) : SkillEditorState :=
  MkSkillEditor open (se_mode s) (se_skill s) (se_form s) (se_errors s) formError (se_active s) (se_save s) (se_sent s) (se_shown s ++ n).

Definition assigned (errors : list (skill_field * jstr)) (f : skill_field) : jstr :=
  foldl (fun acc e => if decide (e.1 = f) then e.2 else acc) [] errors.
Definition update_text (f : skill_field) (v : jstr) (s : SkillEditorState) : SkillEditorState :=
  set_skill_form (put_text f v (se_form s)) (fun g => if decide (g = f) then [] else se_errors s g) s.
Definition update_flag (f : skill_field) (b : bool) (s : SkillEditorState) : SkillEditorState :=
  set_skill_form (put_flag f b (se_form s)) (fun g => if decide (g = f) then [] else se_errors s g) s.

Definition save_failed (message : jstr) (s : SkillEditorState) : SkillEditorState :=
  tell_skill (se_open s) (Some message) [SkillFailed message] (set_save None [] s).
Definition save_succeeded (s : SkillEditorState) : SkillEditorState :=
  tell_skill false (se_formError s)
    (SkillSaved :: SkillsRefreshed None :: match se_skill s with Some k => if truthy (as_id k) then [SkillsRefreshed (Some (as_id k))] else [] | None => [] end)
    (set_save None [] s).
(** The last step: a version, if there is one to make. *)
Definition save_version (id : option jstr) (t : save_task) (s : SkillEditorState) : SkillEditorState :=
  match id, pf_version (sv_parsed t) with
  | Some id, Some payload =>
      if sv_with_version t then set_save (Some (MkSave Versioning (sv_parsed t) true)) [CreateVersion id payload] s else save_succeeded s
  | _, _ => save_succeeded s
  end.
Definition save_skill (s : SkillEditorState) : SkillEditorState :=
  match se_save s with
  | Some _ => s
  | None =>
      let parsed := parseForm (se_form s) (se_mode s) in
      let s := set_skill_form (se_form s) (assigned (pf_errors parsed)) s in
      let changed := versionChanged (se_mode s) (se_active s) (se_form s) in
      if negb (pf_ok parsed) then save_failed (js "Please fix the highlighted fields.") s
      else match se_mode s, se_skill s with
           | Create, _ => set_save (Some (MkSave Creating parsed changed)) [CreateSkill (pf_create parsed)] s
           | Edit, Some k => set_save (Some (MkSave Patching parsed changed)) [PatchSkill (as_id k) (pf_patch parsed)] s
           | Edit, None => save_succeeded s
           end
  end.
(** The identifier of the skill the server answered with, or the message of an error: the one of the server, the error's own, or none. *)
Definition apiErrorMessage (server own : option jstr) : option jstr := match server with Some m => Some m | None => own end.
Inductive save_answer : Type := SkillIs (id : jstr) | SaveFailed (server own : option jstr).
Definition skill_answered (a : save_answer) (s : SkillEditorState) : SkillEditorState :=
  match se_save s with
  | None => s
  | Some t =>
      match a, sv_stage t with
      | SaveFailed server own, _ => save_failed (default (js "Unable to save Skill.") (apiErrorMessage server own)) s
      | SkillIs id, Creating => set_save (Some (MkSave Patching (sv_parsed t) (sv_with_version t))) [PatchSkill id (pf_patch (sv_parsed t))] s
      | SkillIs id, Patching => save_version (Some id) t s
      | SkillIs _, Versioning => save_succeeded s
      end
  end.

Inductive skill_event : Type :=
| OpenSkill (mode : editor_mode) (skill : option AdminSkill) | VersionArrived (v : VersionDetail) | UpdateText (f : skill_field) (v : jstr)
| UpdateFlag (f : skill_field) (b : bool) | CloseSkill | SaveSkill | SaveAnswered (a : save_answer).
(** An exception while the form is filled takes the page down. *)
Definition skill_step (ev : skill_event) (s : SkillEditorState) : outcome SkillEditorState :=
  match ev with
  | OpenSkill mode skill => let! form := formFromSkill skill in Ret (set_opened true mode skill form s)
  | VersionArrived v =>
      Ret (if se_open s
           then MkSkillEditor true (se_mode s) (se_skill s) (show_version v (se_form s)) (se_errors s) (se_formError s) (Some v) (se_save s)
                  (se_sent s) (se_shown s)
           else s)
  | UpdateText f v => Ret (update_text f v s)
  | UpdateFlag f b => Ret (update_flag f b s)
  | CloseSkill => Ret (tell_skill false (se_formError s) [] s)
  | SaveSkill => Ret (save_skill s)
  | SaveAnswered a => Ret (skill_answered a s)
  end.
Fixpoint run_skill (s : SkillEditorState) (evs : list skill_event) : outcome SkillEditorState :=
  match evs with [] => Ret s | ev :: evs' => let! s' := skill_step ev s in run_skill s' evs' end.
Definition new_skill_editor : SkillEditorState := MkSkillEditor false Create None emptyForm (fun _ => []) None None None [] [].

(** ** What passes the check *)

Lemma app_nil_inv {A} (l1 l2 : list A) : l1 ++ l2 = [] -> l1 = [] /\ l2 = [].
Proof. apply app_nil. Qed.

Lemma when_nil b f m : error_when b f m = [] -> b = false.
Proof. by destruct b. Qed.

Lemma required_nil form f m : required_error form f m = [] -> trim (ef_text form f) <> [].
Proof. unfold required_error, is_blank. destruct (trim (ef_text form f)); [done|done]. Qed.

Ltac split_nil :=
  repeat match goal with
  | H : _ ++ _ = [] |- _ => apply app_nil_inv in H as [? H]
  | H : error_when _ _ _ = [] |- _ => apply when_nil in H
  | H : required_error _ _ _ = [] |- _ => apply required_nil in H
  end.

Lemma read_max_tokens form mode :
  obj_get (js "max_input_tokens") (pf_patch (parseForm form mode)) = Some (opt_json (parseOptionalInt (ef_text form MaxInputTokens) MaxInputTokens).1).
Proof. reflexivity. Qed.
Lemma read_markup form mode :
  obj_get (js "price_markup") (pf_patch (parseForm form mode))
  = Some (JNum (default zero (parseOptionalNumber (ef_text form PriceMarkup) PriceMarkup).1)).
Proof. reflexivity. Qed.
Lemma read_timeout form mode :
  obj_get (js "timeout_seconds") (pf_patch (parseForm form mode))
  = Some (JNum (default (num_of_Z 45) (parseOptionalInt (ef_text form TimeoutSeconds) TimeoutSeconds).1)).
Proof. reflexivity. Qed.

Lemma int_finite s f x : (parseOptionalInt s f).1 = Some x -> is_finite x = true.
Proof. unfold parseOptionalInt. destruct (is_blank s); [done|]. destruct (is_finite (parseInt10 s)) eqn:E; [|done]. cbn. by intros [= <-]. Qed.

Lemma blank_false s : is_blank s = false -> trim s <> [].
Proof. unfold is_blank. by destruct (trim s). Qed.

(** A form that passes has its texts, a limit where one is needed, a mark-up exactly when the skill is sold with one, a time-out
    the server accepts, and is for children only if it is safe for them; what becomes a version has its instructions. *)
Theorem passed_form form mode :
  pf_ok (parseForm form mode) = true ->
  Forall (fun f => trim (ef_text form f) <> []) ([Name; ShortDescription; Description; Category] ++ match mode with Create => [Slug] | Edit => [] end)
  /\ (requiresMaxInputTokens form = true -> exists x, obj_get (js "max_input_tokens") (pf_patch (parseForm form mode)) = Some (JNum x) /\ is_finite x = true)
  /\ (exists x, obj_get (js "price_markup") (pf_patch (parseForm form mode)) = Some (JNum x)
       /\ num_truthy x = (ef_text form MonetizationType === js "token_markup"))
  /\ (exists x, obj_get (js "timeout_seconds") (pf_patch (parseForm form mode)) = Some (JNum x) /\ nltb x (num_of_Z 1) = false /\ nltb (num_of_Z 120) x = false)
  /\ (ef_flag form IsKidsExclusive = true -> ef_flag form IsKidsSafe = true)
  /\ (forall p, pf_version (parseForm form mode) = Some p ->
        trim (ef_text form DownloadInstructions) <> [] /\ trim (ef_text form UsageInstructions) <> []).
Proof.
  unfold pf_ok. destruct (pf_errors (parseForm form mode)) eqn:E; [|done]. intros _. unfold parseForm in E. cbn zeta in E. cbn [pf_errors] in E.
  apply app_nil_inv in E as [E0 E]. apply app_nil_inv in E as [E1 E2]. split_nil.
  rewrite read_max_tokens, read_markup, read_timeout. split; [|split; [|split; [|split; [|split]]]].
  - destruct mode; cbn [app]; split_nil; repeat (constructor; [done|]); constructor.
  - intros Hr. rewrite Hr in H. destruct (parseOptionalInt _ MaxInputTokens).1 as [x|] eqn:Ex; [|done]. exists x. split; [done|by eapply int_finite].
  - eexists. split; [reflexivity|]. destruct (ef_text form MonetizationType === js "token_markup"); cbn [andb negb] in H0, H1;
      destruct (parseOptionalNumber _ _).1 as [x|]; cbn [opt_truthy default] in *; [by apply negb_false_iff in H0|done|done|done].
  - eexists. split; [reflexivity|]. destruct (parseOptionalInt _ TimeoutSeconds).1 as [x|]; cbn [default]; [by apply orb_false_iff in H2|done].
  - intros Hk. rewrite Hk in H3. by destruct (ef_flag form IsKidsSafe).
  - intros p Hp. unfold parseForm in Hp. cbn zeta in Hp. cbn [pf_version] in Hp. destruct (is_blank (ef_text form InstructionTemplate)); [done|].
    split; by apply blank_false.
Qed.

(** ** Opening and saving a skill *)

(** An entry of the lists that are edited line by line. *)
Definition clean_tag (w : jstr) : Prop := trimmed w /\ w <> [] /\ 10%N ∉ w /\ 44%N ∉ w.

Definition to_comma (c : N) : N := if (c =? 10)%N then 44%N else c.

Lemma to_comma_clean w : 10%N ∉ w -> List.map to_comma w = w.
Proof.
  intros H. rewrite (map_ext_in to_comma id); [apply map_id|]. intros c Hc%list_elem_of_In. unfold to_comma.
  destruct (N.eqb_spec c 10) as [->|]; [done|done].
Qed.

Lemma lines_to_commas ts : Forall (fun w => 10%N ∉ w) ts -> List.map to_comma (join newline ts) = join [44%N] ts.
Proof.
  induction ts as [|w ts IH]; intros H; [done|]. apply Forall_cons in H as [Hw H]. destruct ts as [|v ts]; [by apply to_comma_clean|].
  change (join newline (w :: v :: ts)) with (w ++ newline ++ join newline (v :: ts)). rewrite !map_app, IH, to_comma_clean by done. done.
Qed.

Lemma entries_again ts : Forall clean_tag ts -> parseLines (join newline ts) = ts.
Proof.
  intros H. unfold parseLines. fold to_comma. rewrite lines_to_commas by (eapply Forall_impl; [exact H|]; by intros w (_ & _ & ? & _)).
  destruct ts as [|w ts]; [done|]. rewrite split_join_char; [|done|eapply Forall_impl; [exact H|]; by intros v (_ & _ & _ & ?)].
  rewrite (map_ext_in trim id).
  - rewrite map_id. apply lfilter_id. eapply Forall_impl; [exact H|]. intros v (_ & ? & _). by apply truthy_true.
  - intros v Hv%list_elem_of_In. rewrite Forall_forall in H. by apply (H v Hv).
Qed.

Lemma texts_of_strings ts : texts_of (List.map JStr ts) = Ret ts.
Proof. induction ts as [|w ts IH]; [done|]. cbn [List.map texts_of to_String json_String obind]. by rewrite IH. Qed.

(** A list of texts, and an array of anything, that may be missing. *)
Definition texts_are (v : option json) (ts : list jstr) : Prop :=
  Forall clean_tag ts /\ (v = Some (JArr (List.map JStr ts)) \/ (v = None /\ ts = [])).
Definition array_is (v : option json) (l : list json) : Prop := Forall json_ok l /\ (v = Some (JArr l) \/ (v = None /\ l = [])).
(** A number that the text of its digits gives back. *)
Definition whole_number (x : number) : Prop := parseInt10 (num_to_str x) = x /\ is_finite x = true /\ num_to_str x <> [].
Definition whole_or_none (v : option number) : Prop := match v with Some x => whole_number x | None => True end.

Lemma lines_shown v ts : texts_are v ts -> arrayToLines v = Ret (join newline ts).
Proof. intros [_ [->|[-> ->]]]; [|done]. cbn. by rewrite texts_of_strings. Qed.

Lemma pretty_nonblank v : is_blank (JSON_pretty v) = false \/ JSON_pretty v = [].
Proof. unfold is_blank. rewrite (pretty_trimmed v). destruct (JSON_pretty v); auto. Qed.

Lemma array_shown v l f : array_is v l -> parseJSONField (prettyJSON v) f = (JArr l, []).
Proof.
  intros [Hok Hv]. assert (prettyJSON v = JSON_pretty (JArr l)) as -> by by destruct Hv as [->|[-> ->]].
  unfold parseJSONField, is_blank. rewrite (pretty_trimmed _), parse_pretty by by apply json_ok_arr. by destruct l.
Qed.

Lemma nonblank_number x : num_to_str x <> [] -> is_blank (num_to_str x) = false.
Proof.
  intros H. unfold is_blank. replace (trim (num_to_str x)) with (num_to_str x); [by destruct (num_to_str x)|].
  symmetry. apply trimmed_no_ws. apply forallb_forall. intros c Hc%list_elem_of_In. pose proof (num_to_str_solid x) as Hs.
  unfold solid in Hs. rewrite Forall_forall in Hs. by rewrite Hs.
Qed.

Lemma whole_shown v f : whole_or_none v -> parseOptionalInt (number_text v) f = (v, []).
Proof.
  destruct v as [x|]; [|done]. intros (Hp & Hf & Hn). cbn [number_text]. unfold parseOptionalInt. rewrite nonblank_number by done.
  by rewrite Hp, Hf.
Qed.

Definition markup_ok (x : number) : Prop := x = zero \/ (num_truthy x = true /\ Number (num_to_str x) = x /\ is_finite x = true /\ num_to_str x <> []).
Lemma markup_shown x f : markup_ok x ->
  default zero (parseOptionalNumber (if num_truthy x then num_to_str x else []) f).1 = x.
Proof.
  intros [->|(Ht & Hp & Hf & Hn)]; [done|]. rewrite Ht. unfold parseOptionalNumber. rewrite nonblank_number by done. by rewrite Hp, Hf.
Qed.

(** What the stored values are sent as. *)
Definition stored_patch (s : AdminSkill) (tags models : list jstr) (hints inputs outputs : list json) (timeout : number) : list (jstr * json) :=
  [(js "name", JStr (as_name s)); (js "short_description", JStr (default [] (as_short s))); (js "description", JStr (default [] (as_description s)));
   (js "category", JStr (as_category s)); (js "tags", JArr (List.map JStr tags));
   (js "icon_url", match as_icon s with Some (c :: u) => JStr (c :: u) | _ => JNull end);
   (js "input_hints", JArr hints); (js "example_inputs", JArr inputs); (js "example_outputs", JArr outputs);
   (js "required_plan", JStr (as_plan s)); (js "monetization_type", JStr (as_monetization s)); (js "price_markup", JNum (as_markup s));
   (js "free_quota_per_month", opt_json (as_quota s)); (js "max_input_tokens", opt_json (as_max_tokens s));
   (js "model_whitelist", JArr (List.map JStr models)); (js "timeout_seconds", JNum timeout); (js "is_kids_safe", JBool (as_kids_safe s));
   (js "is_kids_exclusive", JBool (as_kids_exclusive s)); (js "kids_approval_status", JStr (as_kids_status s));
   (js "ai_disclosure_required", JBool (as_disclosure s)); (js "featured_flag", JBool (as_featured s)); (js "featured_rank", opt_json (as_rank s))].

Record skill_ok (s : AdminSkill) (tags models : list jstr) (hints inputs outputs : list json) (timeout : number) : Prop := {
  ok_texts : Forall trimmed [as_name s; default [] (as_short s); default [] (as_description s); as_category s; default [] (as_icon s)];
  ok_tags : texts_are (as_tags s) tags; ok_models : texts_are (as_models s) models;
  ok_hints : array_is (as_hints s) hints; ok_inputs : array_is (as_inputs s) inputs; ok_outputs : array_is (as_outputs s) outputs;
  ok_numbers : Forall whole_or_none [as_quota s; as_max_tokens s; as_rank s]; ok_timeout : default (num_of_Z 45) (as_timeout s) = timeout; ok_whole : whole_number timeout;
  ok_markup : markup_ok (as_markup s)
}.

(** A version that was only looked at is not made again. *)
Lemma untouched_no_version v form : ef_text form OutputSchema = [] -> versionChanged Edit (Some v) (show_version v form) = false.
Proof.
  intros H. unfold versionChanged, version_fields. cbn [existsb show_version ef_text original_text]. rewrite H.
  destruct (has_schema v); rewrite !js_eqb_refl; apply andb_false_r.
Qed.

(** A skill whose values the form accepts. *)
Record skill_accepted (s : AdminSkill) (timeout : number) : Prop := {
  sa_texts : Forall (fun t => t <> []) [as_name s; default [] (as_short s); default [] (as_description s); as_category s];
  sa_tokens : as_plan s = js "free" \/ as_monetization s = js "free" \/ as_quota s <> None -> as_max_tokens s <> None;
  sa_markup : num_truthy (as_markup s) = (as_monetization s === js "token_markup");
  sa_timeout : nltb timeout (num_of_Z 1) = false /\ nltb (num_of_Z 120) timeout = false;
  sa_kids : as_kids_exclusive s = true -> as_kids_safe s = true
}.
(** A version whose instructions are complete and whose lists are lists. *)
Record version_ok (v : VersionDetail) : Prop := {
  vo_texts : trim (vd_template v) <> [] -> trim (vd_download v) <> [] /\ trim (vd_usage v) <> [];
  vo_schema : match vd_schema v with Some w => json_ok w | None => True end;
  vo_lists : exists p q e, array_is (vd_prerequisites v) p /\ array_is (vd_quickstart v) q /\ array_is (vd_example v) e
}.

Lemma array_read v l f : array_is v l -> parseJSONArrayField (prettyJSON v) f = (JArr l, []).
Proof. intros H. unfold parseJSONArrayField. by rewrite (array_shown v l). Qed.
Lemma schema_read v f : match v with Some w => json_ok w | None => True end ->
  (parseOptionalJSONField (if match v with Some w => json_truthy w | None => false end then prettyJSON v else []) f).2 = [].
Proof.
  destruct v as [w|]; [|done]. intros Hw. destruct (json_truthy w) eqn:E; [|done]. unfold parseOptionalJSONField.
  assert (prettyJSON (Some w) = JSON_pretty w) as -> by by destruct w. destruct (is_blank _); [done|]. by rewrite parse_pretty.
Qed.
Lemma present_text form f m : ef_text form f <> [] -> trimmed (ef_text form f) -> required_error form f m = [].
Proof. intros Hn Ht. unfold required_error, is_blank. rewrite Ht. by destruct (ef_text form f). Qed.
Lemma when_false b f m : b = false -> error_when b f m = [].
Proof. by intros ->. Qed.
Lemma markup_read x f : markup_ok x -> parseOptionalNumber (if num_truthy x then num_to_str x else []) f = (if num_truthy x then Some x else None, []).
Proof.
  intros [->|(Ht & Hp & Hf & Hn)]; [done|]. rewrite Ht. unfold parseOptionalNumber. rewrite nonblank_number by done. by rewrite Hp, Hf.
Qed.
Lemma quota_blank v : whole_or_none v -> is_blank (number_text v) = match v with Some _ => false | None => true end.
Proof. destruct v as [x|]; [|done]. intros (_ & _ & Hn). by apply nonblank_number. Qed.

Section opened.
Context (s : AdminSkill) (tags models : list jstr) (hints inputs outputs : list json) (timeout : number).
Context (Hok : skill_ok s tags models hints inputs outputs timeout).

(** The form that is opened, with the version when it has arrived. *)
Definition opened_form (v : option VersionDetail) : EditorFormState :=
  let form := MkEditorForm (skill_text s (join newline tags) (join newline models)) (skill_flag s) in
  match v with Some v => show_version v form | None => form end.

Lemma opened_skill : formFromSkill (Some s) = Ret (opened_form None).
Proof. destruct Hok as [_ Htags Hmodels _ _ _ _ _ _ _]. cbn [formFromSkill]. by rewrite (lines_shown _ _ Htags), (lines_shown _ _ Hmodels). Qed.

Lemma opened_patch v : pf_patch (parseForm (opened_form v) Edit) = stored_patch s tags models hints inputs outputs timeout.
Proof.
  destruct Hok as [Ht Htags Hmodels Hh Hi Ho Hn Htime Hw Hm]. unfold parseForm, opened_form. cbn zeta.
  destruct v as [v|]; cbn [pf_patch ef_text ef_flag skill_text skill_flag show_version];
    rewrite !Forall_cons in Ht; rewrite !Forall_cons in Hn; destruct Ht as (T1 & T2 & T3 & T4 & T5 & _); destruct Hn as (N1 & N2 & N3 & _); unfold trimmed in *;
    rewrite T1, T2, T3, T4, T5, !whole_shown, !markup_shown by done;
    rewrite (entries_again tags) by apply Htags; rewrite (entries_again models) by apply Hmodels;
    rewrite (array_shown _ hints), (array_shown _ inputs), (array_shown _ outputs) by done;
    rewrite Htime;
    rewrite (whole_shown (Some timeout) TimeoutSeconds Hw : parseOptionalInt (num_to_str timeout) TimeoutSeconds = _);
    unfold stored_patch, is_blank; rewrite T5; by destruct (as_icon s) as [[|c u]|].
Qed.

Lemma opened_passes v : skill_accepted s timeout -> match v with Some v => version_ok v | None => True end -> pf_errors (parseForm (opened_form v) Edit) = [].
Proof.
  intros [At Ak Am [A1 A2] Ac] Hv. destruct Hok as [Ht _ _ Hh Hi Ho Hn Htime Hw Hm].
  rewrite !Forall_cons in Ht; rewrite !Forall_cons in Hn; rewrite !Forall_cons in At. destruct Ht as (T1 & T2 & T3 & T4 & T5 & _), Hn as (N1 & N2 & N3 & _), At as (B1 & B2 & B3 & B4 & _).
  assert (forall f, f ∉ version_fields -> ef_text (opened_form v) f = skill_text s (join newline tags) (join newline models) f) as Hf.
  { intros f Hf. destruct v as [v|]; [|done]. destruct f; try done; destruct Hf; apply mem_true; reflexivity. }
  assert (ef_flag (opened_form v) = skill_flag s) as Hfl by by destruct v.
  unfold parseForm. cbn zeta. cbn [pf_errors].
  rewrite !present_text by (rewrite Hf by (apply mem_false; reflexivity); done).
  unfold requiresMaxInputTokens.
  rewrite !(Hf InputHints), !(Hf ExampleInputs), !(Hf ExampleOutputs), !(Hf TimeoutSeconds), !(Hf PriceMarkup), !(Hf FreeQuota), !(Hf MaxInputTokens), !(Hf FeaturedRank),
    !(Hf MonetizationType), !(Hf RequiredPlan), Hfl by (apply mem_false; reflexivity).
  cbn [skill_text skill_flag]. rewrite (array_shown _ hints), (array_shown _ inputs), (array_shown _ outputs) by done. rewrite !whole_shown, !markup_read by done.
  rewrite Htime, (whole_shown (Some timeout) TimeoutSeconds Hw : parseOptionalInt (num_to_str timeout) TimeoutSeconds = _). rewrite quota_blank by done. cbn [fst snd app].
  rewrite !when_false; cycle 1.
  - destruct v as [v|]; cbn; [|done]. destruct Hv as [Hv _ _]. unfold is_blank. destruct (trim (vd_template v)); [done|]. cbn. by destruct (trim (vd_usage v)), Hv.
  - destruct v as [v|]; cbn; [|done]. destruct Hv as [Hv _ _]. unfold is_blank. destruct (trim (vd_template v)); [done|]. cbn. by destruct (trim (vd_download v)), Hv.
  - destruct (as_kids_exclusive s); [|done]. by rewrite Ac.
  - by rewrite A1, A2.
  - rewrite Am. by destruct (as_monetization s === _); cbn; rewrite ?Am.
  - destruct (num_truthy (as_markup s)) eqn:E; rewrite <-Am; cbn; by rewrite ?E.
  - destruct (as_max_tokens s); [by rewrite andb_false_r|]. rewrite andb_true_r.
    destruct (as_plan s === js "free") eqn:E1; [rewrite js_eqb_true in E1; by destruct Ak; [left|]|].
    destruct (as_monetization s === js "free") eqn:E2; [rewrite js_eqb_true in E2; by destruct Ak; [right; left|]|].
    destruct (as_quota s); [by destruct Ak; [right; right|]|done].
  - rewrite !app_nil_r. destruct v as [v|]; [|reflexivity]. destruct Hv as [_ Hs (p & q & e & Hp & Hq & He)].
    cbn [opened_form show_version ef_text skill_text empty_text]. rewrite (array_read _ p), (array_read _ q), (array_read _ e) by done. cbn [snd app].
    rewrite app_nil_r. by apply schema_read.
Qed.

Lemma opened_no_version v : versionChanged Edit v (opened_form v) = false.
Proof. destruct v as [v|]; [by apply untouched_no_version|done]. Qed.
End opened.

(** The events of opening a skill, of the arrival of its version, if it has arrived, and of saving. *)
Definition open_and_save (s : AdminSkill) (v : option VersionDetail) : list skill_event :=
  OpenSkill Edit (Some s) :: match v with Some v => [VersionArrived v] | None => [] end ++ [SaveSkill].

(** C35: opening a skill and saving it without a change sends the stored values, once, and no version: the save makes one request, which changes the
    skill and has every value as it is stored (a missing text or list as an empty one, a missing or empty icon as null, a missing time-out as 45),
    whether the instructions of its version have arrived or not; when the server accepts it no further request is made and the dialog closes.
    This is for a skill whose texts have no white space around them, whose tags and models are non-empty texts without white
    space around them, commas or line breaks (a tag with a comma is sent as two, [comma_tag]), whose other lists are JSON that prints and
    reads back and whose numbers are whole, and which the form accepts: the four texts are there, a
    limit of tokens where the plan, the price or a quota needs one, a mark-up exactly for the type that has one, a time-out from 1 to 120, and for
    children only if it is safe for them; the version, if it has arrived, has its instructions and its lists. *)
Theorem skill_kept s tags models hints inputs outputs timeout v start :
  skill_ok s tags models hints inputs outputs timeout -> skill_accepted s timeout -> match v with Some v => version_ok v | None => True end ->
  se_save start = None ->
  exists e, run_skill start (open_and_save s v) = Ret e /\
    se_sent e = se_sent start ++ [PatchSkill (as_id s) (stored_patch s tags models hints inputs outputs timeout)] /\
    forall id, exists e', skill_step (SaveAnswered (SkillIs id)) e = Ret e' /\ se_sent e' = se_sent e /\ se_open e' = false.
Proof.
  intros Hok Ha Hv Hs. pose proof (opened_skill _ _ _ _ _ _ _ Hok) as Ho. pose proof (opened_patch _ _ _ _ _ _ _ Hok v) as Hp.
  pose proof (opened_passes _ _ _ _ _ _ _ Hok v Ha Hv) as He. pose proof (opened_no_version s tags models v) as Hn.
  set (opened := set_opened true Edit (Some s) (opened_form s tags models None) start).
  set (shown := match v with Some v => MkSkillEditor true Edit (Some s) (show_version v (se_form opened)) (se_errors opened) (se_formError opened) (Some v)
                                         (se_save opened) (se_sent opened) (se_shown opened) | None => opened end).
  assert (run_skill start (open_and_save s v) = Ret (save_skill shown)) as Hrun.
  { unfold open_and_save. cbn [run_skill skill_step]. rewrite Ho. cbn [obind]. by destruct v. }
  assert (se_save shown = None /\ se_mode shown = Edit /\ se_skill shown = Some s /\ se_form shown = opened_form s tags models v /\ se_active shown = v /\ se_sent shown = se_sent start)
    as (E1 & E2 & E3 & E4 & E5 & E6) by (destruct v; repeat split; done).
  exists (save_skill shown). split; [exact Hrun|]. unfold save_skill. rewrite E1. cbn [set_skill_form se_mode se_active se_form se_skill]. rewrite E2, E3, E4, E5.
  unfold pf_ok. rewrite He, Hp, Hn. cbn [negb]. cbn [set_save set_skill_form se_sent]. rewrite E6. split; [done|].
  intros id. eexists. split; [reflexivity|]. unfold skill_answered. cbn [se_save set_save sv_stage]. unfold save_version. cbn [sv_parsed sv_with_version].
  destruct (pf_version _); cbn; by rewrite app_nil_r, E6.
Qed.
(** A form with errors sends nothing and stays open with its errors. *)
Lemma refused_sends_nothing s : se_save s = None -> pf_ok (parseForm (se_form s) (se_mode s)) = false ->
  se_sent (save_skill s) = se_sent s /\ se_open (save_skill s) = se_open s /\ se_save (save_skill s) = None
  /\ forall f, se_errors (save_skill s) f = assigned (pf_errors (parseForm (se_form s) (se_mode s))) f.
Proof.
  intros H1 H2. unfold save_skill. rewrite H1, H2. cbn. split; [apply app_nil_r|]. done.
Qed.

(** ** On concrete skills *)

Definition sample_skill : AdminSkill :=
  MkAdminSkill (js "s1") (js "slug") (js "Name") (js "cat") (Some (js "short")) (Some (js "long")) (Some (JArr [JStr (js "a"); JStr (js "b")])) None
    (js "pro") (js "token_markup") (num_of_Z 2) None (Some (num_of_Z 500)) (Some (num_of_Z 30)) false false (js "not_required") true false None
    None None None None None.
Definition form_of (s : option AdminSkill) : EditorFormState := match formFromSkill s with Ret f => f | Throw => emptyForm end.
Definition after_skill (evs : list skill_event) : SkillEditorState :=
  match run_skill new_skill_editor evs with Ret s => s | Throw => new_skill_editor end.

(** A draft that was created and could not be completed is created once more by the next attempt. *)
Example retry_creates_again :
  let fill := List.map (fun f => UpdateText f (js "x")) [Slug; Name; ShortDescription; Description; Category] ++ [UpdateText MaxInputTokens (js "9")] in
  let s := after_skill ([OpenSkill Create None] ++ fill ++ [SaveSkill; SaveAnswered (SkillIs (js "k")); SaveAnswered (SaveFailed None None); SaveSkill]) in
  List.map (fun r => match r with CreateSkill _ => js "create" | PatchSkill id _ => js "patch " ++ id | CreateVersion _ _ => js "version" end) (se_sent s)
  = [js "create"; js "patch k"; js "create"].
Proof. vm_compute. reflexivity. Qed.

(** A number field accepts an exponent, of which only the digits before it are read. *)
Example exponent_lost : (parseOptionalInt (js "1e3") MaxInputTokens).1 = Some (num_of_Z 1).
Proof. vm_compute. reflexivity. Qed.

(** A mark-up below zero passes. *)
Example negative_markup :
  pf_ok (parseForm (put_text PriceMarkup (js "-0.5") (form_of (Some sample_skill))) Edit) = true
  /\ obj_get (js "price_markup") (pf_patch (parseForm (put_text PriceMarkup (js "-0.5") (form_of (Some sample_skill))) Edit)) = Some (JNum (Number (js "-0.5"))).
Proof. vm_compute. auto. Qed.

(** A stored tag with a comma comes back as two tags. *)
Example comma_tag : parseLines (try_catch (arrayToLines (Some (JArr [JStr (js "a,b")]))) []) = [js "a"; js "b"].
Proof. vm_compute. reflexivity. Qed.

(** What was typed before the version arrived is replaced by it. *)
Example typing_overwritten v :
  ef_text (se_form (after_skill [OpenSkill Edit (Some sample_skill); UpdateText InstructionTemplate (js "mine"); VersionArrived v])) InstructionTemplate
  = vd_template v.
Proof. reflexivity. Qed.

Lemma passed_form_witness :
  Forall (fun f => trim (ef_text (form_of (Some sample_skill)) f) <> []) ([Name; ShortDescription; Description; Category] ++ []).
Proof. apply (passed_form (form_of (Some sample_skill)) Edit). vm_compute. reflexivity. Defined.

Lemma whole_by x : parseInt10 (num_to_str x) = x -> is_finite x = true -> truthy (num_to_str x) = true -> whole_number x.
Proof. intros H1 H2 H3. split; [done|]. split; [done|]. by apply truthy_true. Qed.

Lemma sample_ok : skill_ok sample_skill [js "a"; js "b"] [] [] [] [] (num_of_Z 30).
Proof.
  split.
  - repeat constructor.
  - split; [|left; reflexivity]. repeat constructor; first [discriminate|intros H; apply (proj2 (mem_true _ _)) in H; discriminate H].
  - split; [constructor|right; split; reflexivity].
  - split; [constructor|right; split; reflexivity].
  - split; [constructor|right; split; reflexivity].
  - split; [constructor|right; split; reflexivity].
  - repeat constructor; try exact I. apply whole_by; vm_compute; reflexivity.
  - reflexivity.
  - apply whole_by; vm_compute; reflexivity.
  - right. split; [vm_compute; reflexivity|]. split; [vm_compute; reflexivity|]. split; [reflexivity|]. apply truthy_true. vm_compute. reflexivity.
Qed.
Lemma sample_accepted : skill_accepted sample_skill (num_of_Z 30).
Proof.
  split; try (vm_compute; reflexivity); try (split; vm_compute; reflexivity); [repeat constructor; discriminate|done|done].
Qed.
Definition sample_version : VersionDetail := MkVersion (js "do it") None (js "get it") (js "use it") None (Some (JArr [])) None.
Lemma skill_kept_witness :
  exists e, run_skill new_skill_editor (open_and_save sample_skill (Some sample_version)) = Ret e /\
    se_sent e = [PatchSkill (js "s1") (stored_patch sample_skill [js "a"; js "b"] [] [] [] [] (num_of_Z 30))].
Proof.
  destruct (skill_kept sample_skill [js "a"; js "b"] [] [] [] [] (num_of_Z 30) (Some sample_version) new_skill_editor sample_ok sample_accepted) as (e & Hr & Hs & _).
  - split; [by split|exact I|]. exists [], [], []. split; [|split]; (split; [constructor|]); first [by left|by right].
  - reflexivity.
  - exists e. split; [exact Hr|exact Hs].
Defined.
